(* ===== verification/_CoqProject ===== *)
-Q . S2P
Prelude.v
Ring.v
Spinlock.v
Sleeplock.v
LList.v
Buddy.v
BuddyInv.v
BuddyOps.v
BuddyInit.v
BuddySpec.v
KString.v
Printf.v
ULib.v
Pipe.v
Vm.v
VmWalk.v
VmSpec.v
VmThms.v
VmKernel.v
Bytes.v
Bio.v
Log.v
LogThms.v
LogProto.v
Fs.v
FsThms.v
FsData.v
FsFile.v
FsWrite.v
FsAtomic.v
FsDir.v
FsTrunc.v
Kern.v
File.v
Proc.v
ProcThms.v
Syscall.v
Sysfile.v
FdThms.v
ExecThms.v
Grep.v
Sh.v
Uart.v
Console.v
Virtio.v
VirtioThms.v
Riscv.v
Trap.v
TrapThms.v
Main.v
Boot.v
Umalloc.v
UmallocThms.v
UProg.v
UPrograms.v
ShRun.v
Mkfs.v
MkfsFile.v
MkfsImage.v
MkfsThms.v
MkfsCons.v
Mount.v
FileWrite.v
Power.v
