(* ===== verification/Prelude.v ===== *)
(** * A verification development for OShard, the xv6 kernel with a buddy allocator

    OShard is a teaching operating system for RISC-V: a kernel (src/kernel),
    user programs (src/user) and a tool that makes disk images (src/mkfs).
    The kernel allocates memory with a buddy allocator; pages as well as each
    [struct file] come from it.  This library models the kernel, the user
    programs and mkfs function by function and proves what makes each of them
    correct.

    ** The parts of the system and the files that model them

    - Foundations.  This file: the monad of kernel code, machine integers,
      arrays, tactics and the rules of the total ([wp]) and partial ([pwp],
      [keeps]) correctness predicates.  Ring.v: ring buffers, shared by
      Pipe.v, Uart.v and Console.v.  Bytes.v: little-endian integers in disk
      blocks.
    - Locks.  Spinlock.v: spinlock.c; [Seq] on one CPU, [Smp] as a step
      relation between CPUs.  Sleeplock.v: sleeplock.c, as a step relation
      between processes; Bio.v and Fs.v have the lock inside a buffer and an
      inode.
    - Memory.  LList.v: list.c.  Buddy.v: buddy.c and kalloc.c; BuddyInv.v has
      the invariant, BuddyOps.v the proofs of [bd_malloc] and [bd_free],
      BuddyInit.v of [bd_init], BuddySpec.v the abstract allocator and the
      theorems.  Vm.v: vm.c over any allocator of pages, the type class
      [PageAllocator]; VmWalk.v, VmSpec.v and VmThms.v prove it, and VmThms.v
      shows that [kalloc] and [kfree] are an instance.  VmKernel.v: the address
      space of the kernel.
    - Strings and output.  KString.v: string.c.  Printf.v: printf.c.
    - Machine and traps.  Riscv.v: the control registers of riscv.h, the
      hardware's trap and return, and start.c.  Trap.v: trap.c and plic.c;
      TrapThms.v proves them.  Main.v: main.c, on every hart; Boot.v runs
      it to its end.
    - Devices.  Uart.v: uart.c over a model of the serial port.  Console.v:
      console.c, the line discipline.  Virtio.v: virtio_disk.c beside a device
      that serves the queue; VirtioThms.v proves the driver.
    - Storage.  Bio.v: bio.c.  Log.v: log.c; LogThms.v has crash atomicity,
      LogProto.v the interleavings of system calls.  Fs.v: fs.c; FsThms.v has
      the block bitmap and the inodes on the disk, FsData.v the contents of
      files and directories.  FsFile.v says when a disk is a consistent file
      system; FsWrite.v proves [writei], FsDir.v [dirlink], FsTrunc.v [itrunc]
      against it, FsAtomic.v a write as one transaction, FileWrite.v
      [filewrite] with its several transactions.
    - Disk images.  Mkfs.v: mkfs.c.  MkfsFile.v has the files on an image while
      it is being made, MkfsImage.v the operations on it, MkfsThms.v the
      finished image, MkfsCons.v that it is consistent.  Mount.v goes on from
      there: the kernel starts on the image and reads its files.  Power.v adds a
      write and power failures.
    - Processes and files.  Kern.v: the state of the whole kernel, and sleep,
      wakeup, kill and the scheduler of proc.c.  File.v: file.c, with
      [pipealloc] and the pipe sections of Pipe.v (pipe.c) in that state.
      Proc.v: creation, exit and wait of proc.c.  ProcThms.v: the invariant of
      the process table.
    - System calls.  Syscall.v: the arguments (syscall.c) and [exec] (exec.c,
      elf.h).  Sysfile.v: every handler of sysfile.c and sysproc.c, and the
      table.  FdThms.v: descriptors and reference counts over the whole table.
      ExecThms.v: what a failing and a successful [exec] change.
    - User programs.  ULib.v: ulib.c and user/printf.c.  Umalloc.v: umalloc.c,
      proved in UmallocThms.v.  Grep.v: the matcher of grep.c.  Sh.v: the parser
      of sh.c.  UProg.v: programs as trees of system calls; UPrograms.v: echo,
      cat, wc, grep, ls, rm, mkdir, ln, kill, zombie and init; ShRun.v: the rest
      of the shell, and processes with descriptors to run it in.

    System calls run on the kernel state of Kern.v, which contains the states
    of the lower components: a call of a lower component is that component's
    operation run on its part of the state ([zoom]).  Storage is layered in
    the same way: Fs.v on Log.v on Bio.v on the disk, whose transfers Virtio.v
    implements.

    ** How code is modelled

    A function that changes state is a computation in [M S], explicit state
    passing with four outcomes: it returns, calls [panic], does something
    outside the meaning of the program (a [Fault]: an index outside an array,
    an access to memory that is not there), or does not return ([Diverge]).
    Integers are [Z], reduced by [u8], [u32], [i32], [u64] where the C type
    wraps.  A null pointer is 0 or [None]; an index into a table stands for a
    pointer to its element.  A user program is a tree: it stops, or makes a
    system call and goes on with the answer.

    Concurrency: the code between [acquire] and [release], or up to a sleep,
    is one definition.  A function that sleeps is cut there: the model returns
    that it sleeps, and the code after the sleep is a section of its own.
    Interleavings are step relations over sections (Spinlock.v cuts finer, at
    every access to the lock word).  Locks that only delimit such sections
    are left out of the states.

    Fuel: loops of the source are [loop] with fuel or structural recursion.
    The fuel is a bound that the state gives (the number of nodes of a ring,
    the length of the input, the levels of a page table), and each theorem of
    the form "the operation returns" shows that it does not run out.  The
    parser of the shell makes at most four calls per character, hence its
    [fuel_for]; the loops over the free list of [malloc] and [free] go at most
    twice around a list that has fewer blocks than the heap has units.  Loops of
    user programs that only the end of the input ends take fuel, and the
    theorems say how much the input needs.

    Parameters, where code is not C of this repository or is decided outside
    it: addresses that the linker fixes, the timing of the serial port
    ([delay]) and the answers of device registers, how much a [read] delivers
    ([amount]), whether the kernel has memory for [sbrk] ([can_grow]), which
    user addresses are accessible, which paths can be opened and executed
    ([can_open], [can_exec], [can_chdir]), and the files of the host that mkfs
    reads ([host]).

    ** What the theorems show

    - Refinement of an abstract specification: buddy.c implements a set of
      disjoint blocks ([buddy_refines_spec], [allocator_safe] for any sequence
      of requests after [bd_init]); a pipe a queue of bytes with the right
      sleeps and wake-ups; the console a line editor; the disk driver a disk of
      atomic transfers ([virtio_refines]); the shell the meaning of the lines
      typed into it ([shell_executes]).
    - Invariants over every interleaving or every system call: mutual
      exclusion of spin locks and sleep locks, the log protocol, the process
      table with no lost wake-up between exit and wait, descriptors and
      reference counts, no mutual sleep in a pipe.
    - Crash safety: a system call's updates reach the disk all or none,
      whenever the machine stops, also during recovery ([fs_call_atomic]); for a
      write, the next boot finds the file with all of the new bytes or with the
      old ones, and every other file as it was ([write_atomic]).
    - Starting: [kvmmake] builds the map of memlayout.h from at most 333 pages,
      with nothing writable and executable ([kvmmake_correct]); no hart
      schedules before hart 0 has initialised the kernel ([boot_order]), and
      a machine with two harts gets there ([machine_boots]).
    - Traps: interrupts are invisible to user and to kernel code
      ([user_interrupts_transparent], [kernel_interrupts_transparent]), and only
      live processes get back to user space ([usertrap_safe]).
    - Functional correctness: page tables and user copies, the buffer cache,
      the block bitmap, reading and writing files ([writei_correct],
      [filewrite_correct]), looking up and adding names, truncation, exec,
      malloc and free of user programs with no byte of the heap lost and free
      blocks always merged, the text that echo, cat, wc and grep print.
    - Components together: what [mkfs] writes is a file system with the right
      contents and bitmap ([mkfs_correct]), and the kernel that starts on it
      finds every file and reads its bytes ([image_readable]), also after a
      write to one of them and power failures at any moment
      ([write_survives_power_failure]).
    - Equivalence: the matcher of grep against the language of the pattern.
    - Round trips: parse and print of shell commands, copies in and out of
      user memory, inodes on disk, numbers printed and read back.
    - Errors and bounds: what fails leaves the state as it was, and where
      arithmetic gives out ([bd_init] on special sizes, [firstk] and [malloc]
      on huge requests, the log admitting too much, [kill] of pid 0, a root
      directory that exactly fills its block).

    ** What is not modelled

    Assembly (trampoline.S, swtch.S, kernelvec.S, entry.S): the registers it
    saves and restores are those of the model's hart.  The test programs
    (usertests, grind, forktest, stressfs and others), which are not part of
    the system's function.  In Bio.v and Fs.v one process runs at a time, and
    an [acquiresleep] of a lock that another one holds does not return.
    [ialloc] and the handlers that create, link and unlink are defined, and the
    invariants of processes and descriptors cover them, but there is no theorem
    on what they do to the disk. *)

From stdpp Require Export base numbers list list_numbers strings sets.
From Stdlib Require Export ZArith Lia Bool.

#[global] Open Scope Z_scope.

(** ** Outcomes and the kernel monad

    A kernel function either returns, calls [panic], does something the C
    language gives no meaning to (an access outside an array), or does not
    return: it spins, or the fuel of a loop ran out. *)

Inductive outcome (A : Type) : Type :=
| Ret (a : A)
| Panic (msg : string)
| Fault (msg : string)
| Diverge.

Arguments Ret {A} a.
Arguments Panic {A} msg.
Arguments Fault {A} msg.
Arguments Diverge {A}.

Definition M (S A : Type) : Type := S -> outcome (A * S).

Section Monad.
  Context {S : Type}.

Definition ret {A} (a : A) : M S A := fun s => Ret (a, s).

Definition bind {A B} (m : M S A) (k : A -> M S B) : M S B :=
  fun s =>
    match m s with
    | Ret (a, s') => k a s'
    | Panic msg => Panic msg
    | Fault msg => Fault msg
    | Diverge => Diverge
    end.

Definition panic {A} (msg : string) : M S A := fun _ => Panic msg.
Definition fault {A} (msg : string) : M S A := fun _ => Fault msg.
Definition diverge {A} : M S A := fun _ => Diverge.
Definition get : M S S := fun s => Ret (s, s).
Definition gets {A} (f : S -> A) : M S A := fun s => Ret (f s, s).
Definition put (s : S) : M S unit := fun _ => Ret (tt, s).
Definition modify (f : S -> S) : M S unit := fun s => Ret (tt, f s).
Definition when (b : bool) (m : M S unit) : M S unit := if b then m else ret tt.

(** Read an element of an array; outside the array there is no answer. *)
Definition from_option {A} (msg : string) (o : option A) : M S A :=
  match o with Some a => ret a | None => fault msg end.

(** A loop whose body either goes on with a new loop variable ([inl]) or
    leaves the loop ([inr]). *)
Fixpoint loop {X R} (fuel : nat) (body : X -> M S (X + R)) (x : X) : M S R :=
  match fuel with
  | O => diverge
  | Datatypes.S fuel' =>
      bind (body x) (fun r =>
        match r with
        | inl x' => loop fuel' body x'
        | inr v => ret v
        end)
  end.

(** [for (i = lo; i < lo + n; i++) body(i)], without [break]. *)
Fixpoint for_n (n : nat) (lo : Z) (body : Z -> M S unit) : M S unit :=
  match n with
  | O => ret tt
  | Datatypes.S n' => bind (body lo) (fun _ => for_n n' (lo + 1) body)
  end.

Definition for_range (lo hi : Z) (body : Z -> M S unit) : M S unit :=
  for_n (Z.to_nat (hi - lo)) lo body.

(** Run an operation of a component inside a larger state. *)
Definition zoom {T A} (g : S -> T) (p : T -> S -> S) (m : M T A) : M S A :=
  fun s =>
    match m (g s) with
    | Ret (a, t) => Ret (a, p t s)
    | Panic msg => Panic msg
    | Fault msg => Fault msg
    | Diverge => Diverge
    end.

(** Total correctness: the operation returns, and its result and final
    state satisfy [Q]. *)
Definition wp {A} (m : M S A) (s : S) (Q : A -> S -> Prop) : Prop :=
  exists a s', m s = Ret (a, s') /\ Q a s'.

End Monad.

Declare Scope kmonad_scope.
Delimit Scope kmonad_scope with kmonad.
Notation "x <- m ;; k" := (bind m (fun x => k))
  (at level 100, m at next level, right associativity) : kmonad_scope.
Notation "m ;;; k" := (bind m (fun _ => k))
  (at level 100, right associativity) : kmonad_scope.
#[global] Open Scope kmonad_scope.

(** ** Machine integers *)

Definition u8 (z : Z) : Z := z mod 2 ^ 8.
Definition u16 (z : Z) : Z := z mod 2 ^ 16.
Definition u32 (z : Z) : Z := z mod 2 ^ 32.
Definition u64 (z : Z) : Z := z mod 2 ^ 64.
Definition i32 (z : Z) : Z := (z + 2 ^ 31) mod 2 ^ 32 - 2 ^ 31.
Definition i16 (z : Z) : Z := (z + 2 ^ 15) mod 2 ^ 16 - 2 ^ 15.
Definition i64 (z : Z) : Z := (z + 2 ^ 63) mod 2 ^ 64 - 2 ^ 63.

(** ** Arrays indexed by C integers *)

Definition aget {A} (l : list A) (i : Z) : option A :=
  if i <? 0 then None else l !! Z.to_nat i.

Definition aset {A} (l : list A) (i : Z) (v : A) : option (list A) :=
  if (i <? 0) || (Z.of_nat (length l) <=? i) then None
  else Some (<[Z.to_nat i := v]> l).

(** ** Flat memory of words or bytes: one value per address *)

Definition mem : Type := Z -> Z.

Definition upd (m : mem) (a v : Z) : mem := fun x => if x =? a then v else m x.

(** ** Tactics *)

(** Turn the boolean tests of the program text into propositions. *)
Ltac bool_prop :=
  repeat match goal with
  | H : _ && _ = true |- _ => apply andb_true_iff in H; destruct H
  | H : _ && _ = false |- _ => apply andb_false_iff in H
  | H : _ || _ = false |- _ => apply orb_false_iff in H; destruct H
  | H : _ || _ = true |- _ => apply orb_true_iff in H
  | H : negb _ = true |- _ => apply negb_true_iff in H
  | H : negb _ = false |- _ => apply negb_false_iff in H
  | H : (_ =? _) = true |- _ => apply Z.eqb_eq in H
  | H : (_ =? _) = false |- _ => apply Z.eqb_neq in H
  | H : (_ <? _) = true |- _ => apply Z.ltb_lt in H
  | H : (_ <? _) = false |- _ => apply Z.ltb_ge in H
  | H : (_ <=? _) = true |- _ => apply Z.leb_le in H
  | H : (_ <=? _) = false |- _ => apply Z.leb_gt in H
  | H : context [ _ >? _ ] |- _ => rewrite Z.gtb_ltb in H
  | H : context [ _ >=? _ ] |- _ => rewrite Z.geb_leb in H
  end.

(** Case analysis on the first conditional of the goal. *)
Ltac case_if :=
  match goal with
  | |- context [ if ?b then _ else _ ] => let E := fresh "E" in destruct b eqn:E; bool_prop
  end.

Ltac case_if_in H :=
  match type of H with
  | context [ if ?b then _ else _ ] => let E := fresh "E" in destruct b eqn:E; bool_prop
  end.

(** Reduce every comparison of the goal that linear arithmetic settles. *)
Ltac zcmp :=
  repeat match goal with
  | |- context [ ?a =? ?b ] =>
      first [ replace (a =? b) with true by (symmetry; apply Z.eqb_eq; lia)
            | replace (a =? b) with false by (symmetry; apply Z.eqb_neq; lia) ]
  | |- context [ ?a <? ?b ] =>
      first [ replace (a <? b) with true by (symmetry; apply Z.ltb_lt; lia)
            | replace (a <? b) with false by (symmetry; apply Z.ltb_ge; lia) ]
  | |- context [ ?a <=? ?b ] =>
      first [ replace (a <=? b) with true by (symmetry; apply Z.leb_le; lia)
            | replace (a <=? b) with false by (symmetry; apply Z.leb_gt; lia) ]
  end.

(** Linear arithmetic with division and remainder by constants spelled out. *)
Ltac dlia := Z.to_euclidean_division_equations; lia.

(** Decide an equation between boolean combinations of comparisons. *)
Ltac bool_lia :=
  repeat match goal with
  | |- context [ ?a <? ?b ] => destruct (Z.ltb_spec a b)
  | |- context [ ?a <=? ?b ] => destruct (Z.leb_spec a b)
  | |- context [ ?a =? ?b ] => destruct (Z.eqb_spec a b)
  end; simpl; try reflexivity; exfalso; dlia.

(** ** Rules of the total-correctness predicate *)

Section WpRules.
  Context {S : Type}.

Lemma wp_ret {A} (a : A) (s : S) (Q : A -> S -> Prop) : Q a s -> wp (ret a) s Q.
Proof. intros H. exists a, s. split; [reflexivity | exact H]. Qed.

Lemma wp_bind {A B} (m : M S A) (k : A -> M S B) (s : S) (Q : B -> S -> Prop) :
  wp m s (fun a s' => wp (k a) s' Q) -> wp (bind m k) s Q.
Proof.
  intros (a & s' & Hm & b & s'' & Hk & HQ). exists b, s''.
  split; [| exact HQ]. unfold bind. rewrite Hm. exact Hk.
Qed.

Lemma wp_mono {A} (m : M S A) (s : S) (P Q : A -> S -> Prop) :
  wp m s P -> (forall a s', P a s' -> Q a s') -> wp m s Q.
Proof. intros (a & s' & Hm & HP) HPQ. exists a, s'. auto. Qed.

Lemma wp_result {A} (m : M S A) (s : S) (a : A) (s' : S) : wp m s (fun r s0 => r = a /\ s0 = s') -> m s = Ret (a, s').
Proof. by intros (r & s0 & -> & -> & ->). Qed.

Lemma wp_get (s : S) (Q : S -> S -> Prop) : Q s s -> wp get s Q.
Proof. intros H. exists s, s. auto. Qed.

Lemma wp_gets {A} (f : S -> A) (s : S) (Q : A -> S -> Prop) : Q (f s) s -> wp (gets f) s Q.
Proof. intros H. exists (f s), s. auto. Qed.

Lemma wp_put (s0 s : S) (Q : unit -> S -> Prop) : Q tt s0 -> wp (put s0) s Q.
Proof. intros H. exists tt, s0. auto. Qed.

Lemma wp_modify (f : S -> S) (s : S) (Q : unit -> S -> Prop) : Q tt (f s) -> wp (modify f) s Q.
Proof. intros H. exists tt, (f s). auto. Qed.

Lemma wp_from_option {A} msg (o : option A) (a : A) (s : S) (Q : A -> S -> Prop) :
  o = Some a -> Q a s -> wp (from_option msg o) s Q.
Proof. intros -> H. by apply wp_ret. Qed.

Lemma wp_when (b : bool) (m : M S unit) (s : S) (Q : unit -> S -> Prop) :
  (b = true -> wp m s Q) -> (b = false -> Q tt s) -> wp (when b m) s Q.
Proof. intros H1 H2. destruct b; simpl; [by apply H1 | by apply wp_ret, H2]. Qed.

Lemma wp_zoom {T A} (g : S -> T) (p : T -> S -> S) (m : M T A) (s : S) (Q : A -> S -> Prop) :
  wp m (g s) (fun a t => Q a (p t s)) -> wp (zoom g p m) s Q.
Proof.
  intros (a & t & Hm & HQ). exists a, (p t s). split; [| exact HQ].
  unfold zoom. by rewrite Hm.
Qed.

(** A loop with a decreasing measure returns and establishes [Q]. *)
Lemma wp_loop {X R} (I : X -> S -> Prop) (mu : X -> nat) (body : X -> M S (X + R))
    (Q : R -> S -> Prop) (fuel : nat) (x : X) (s : S) :
  (forall x s, I x s ->
    wp (body x) s (fun r s' =>
      match r with
      | inl x' => I x' s' /\ (mu x' < mu x)%nat
      | inr v => Q v s'
      end)) ->
  I x s -> (mu x < fuel)%nat -> wp (loop fuel body x) s Q.
Proof.
  intros Hb. revert x s. induction fuel as [|fuel IH]; intros x s HI Hmu; [lia|].
  simpl. apply wp_bind. eapply wp_mono; [by apply Hb|].
  intros [x'|v] s'; simpl.
  - intros [HI' Hlt]. apply IH; [done | lia].
  - intros HQ. by apply wp_ret.
Qed.

(** A counting loop preserves an invariant indexed by its counter. *)
Lemma wp_for_n (I : Z -> S -> Prop) (body : Z -> M S unit) (n : nat) (lo : Z) (s : S)
    (Q : unit -> S -> Prop) :
  I lo s ->
  (forall i s, lo <= i < lo + Z.of_nat n -> I i s -> wp (body i) s (fun _ s' => I (i + 1) s')) ->
  (forall s, I (lo + Z.of_nat n) s -> Q tt s) ->
  wp (for_n n lo body) s Q.
Proof.
  revert lo s. induction n as [|n IH]; intros lo s H0 Hb HQ; simpl.
  - apply wp_ret, HQ. by rewrite Z.add_0_r.
  - apply wp_bind. eapply wp_mono; [apply Hb; [lia | done]|].
    intros [] s' Hs'. apply IH; [done | intros; apply Hb; [lia | done] |].
    intros s'' H. apply HQ. by replace (lo + Z.of_nat (Datatypes.S n)) with (lo + 1 + Z.of_nat n) by lia.
Qed.

Lemma wp_for_range (I : Z -> S -> Prop) (body : Z -> M S unit) (lo hi : Z) (s : S)
    (Q : unit -> S -> Prop) :
  lo <= hi -> I lo s ->
  (forall i s, lo <= i < hi -> I i s -> wp (body i) s (fun _ s' => I (i + 1) s')) ->
  (forall s, I hi s -> Q tt s) ->
  wp (for_range lo hi body) s Q.
Proof.
  intros Hle H0 Hb HQ. unfold for_range. apply (wp_for_n I).
  - done.
  - intros; apply Hb; [lia | done].
  - intros s' H. apply HQ. by replace hi with (lo + Z.of_nat (Z.to_nat (hi - lo))) by lia.
Qed.

End WpRules.

(** One symbolic-execution step of a monadic program under [wp]. *)
Ltac wp_step :=
  lazymatch goal with
  | |- wp (bind _ _) _ _ => apply wp_bind
  | |- wp (ret _) _ _ => apply wp_ret
  | |- wp get _ _ => apply wp_get
  | |- wp (gets _) _ _ => apply wp_gets
  | |- wp (put _) _ _ => apply wp_put
  | |- wp (modify _) _ _ => apply wp_modify
  | |- wp (zoom _ _ _) _ _ => apply wp_zoom
  end.

Ltac wp_steps := repeat (wp_step; cbn beta).

(** ** Partial correctness: the result and the final state satisfy [Q] if the
    operation returns.  Invariants of operations that may sleep are proved in
    this form. *)

Definition pwp {S A} (m : M S A) (s : S) (Q : A -> S -> Prop) : Prop :=
  forall a s', m s = Ret (a, s') -> Q a s'.

Section PwpRules.
  Context {S : Type}.

Lemma pwp_ret {A} (a : A) (s : S) (Q : A -> S -> Prop) : Q a s -> pwp (ret a) s Q.
Proof. by intros H ? ? [= <- <-]. Qed.

Lemma pwp_bind {A B} (m : M S A) (k : A -> M S B) (s : S) (Q : B -> S -> Prop) :
  pwp m s (fun a s' => pwp (k a) s' Q) -> pwp (bind m k) s Q.
Proof.
  intros H b s'. unfold bind. destruct (m s) as [[a s1]| | |] eqn:E; [|done..]. apply (H a s1 E).
Qed.

Lemma pwp_mono {A} (m : M S A) (s : S) (P Q : A -> S -> Prop) :
  pwp m s P -> (forall a s', P a s' -> Q a s') -> pwp m s Q.
Proof. intros H HPQ a s' E. by apply HPQ, H. Qed.

Lemma pwp_gets {A} (f : S -> A) (s : S) (Q : A -> S -> Prop) : Q (f s) s -> pwp (gets f) s Q.
Proof. by intros H ? ? [= <- <-]. Qed.

Lemma pwp_modify (f : S -> S) (s : S) (Q : unit -> S -> Prop) : Q tt (f s) -> pwp (modify f) s Q.
Proof. by intros H ? ? [= <- <-]. Qed.

Lemma pwp_panic {A} msg (s : S) (Q : A -> S -> Prop) : pwp (panic msg) s Q.
Proof. done. Qed.

Lemma pwp_fault {A} msg (s : S) (Q : A -> S -> Prop) : pwp (fault msg) s Q.
Proof. done. Qed.

Lemma pwp_diverge {A} (s : S) (Q : A -> S -> Prop) : pwp diverge s Q.
Proof. done. Qed.

Lemma pwp_from_option {A} msg (o : option A) (s : S) (Q : A -> S -> Prop) :
  (forall a, o = Some a -> Q a s) -> pwp (from_option msg o) s Q.
Proof. destruct o; [|done]. intros H. by apply pwp_ret, H. Qed.

Lemma pwp_when (b : bool) (m : M S unit) (s : S) (Q : unit -> S -> Prop) :
  (b = true -> pwp m s Q) -> (b = false -> Q tt s) -> pwp (when b m) s Q.
Proof. intros H1 H2. destruct b; simpl; [by apply H1 | by apply pwp_ret, H2]. Qed.

Lemma pwp_zoom {T A} (g : S -> T) (p : T -> S -> S) (m : M T A) (s : S) (Q : A -> S -> Prop) :
  pwp m (g s) (fun a t => Q a (p t s)) -> pwp (zoom g p m) s Q.
Proof. intros H a s'. unfold zoom. destruct (m (g s)) as [[b t]| | |] eqn:E; [|done..]. intros [= <- <-]. by apply H. Qed.

Lemma pwp_for_range (I : Z -> S -> Prop) (body : Z -> M S unit) (lo hi : Z) (s : S) (Q : unit -> S -> Prop) :
  lo <= hi -> I lo s ->
  (forall i s, lo <= i < hi -> I i s -> pwp (body i) s (fun _ s' => I (i + 1) s')) ->
  (forall s, I hi s -> Q tt s) -> pwp (for_range lo hi body) s Q.
Proof.
  intros Hle H0 Hb HQ. unfold for_range. remember (Z.to_nat (hi - lo)) as n eqn:En. revert lo s Hle H0 Hb En.
  induction n as [|n IH]; intros lo s Hle H0 Hb En; cbn [for_n].
  - apply pwp_ret, HQ. by replace hi with lo by lia.
  - apply pwp_bind. eapply pwp_mono; [apply Hb; [lia | done]|]. intros [] s' H. apply IH; [lia | done | | lia].
    intros i s1 Hi. apply Hb. lia.
Qed.

Lemma pwp_loop {X A} (I : X -> S -> Prop) fuel (body : X -> M S (X + A)) (x : X) (s : S) (Q : A -> S -> Prop) :
  I x s -> (forall x s, I x s -> pwp (body x) s (fun r s' => match r with inl x' => I x' s' | inr v => Q v s' end)) ->
  pwp (loop fuel body x) s Q.
Proof.
  intros H Hb. revert x s H. induction fuel as [|fuel IH]; intros x s H; cbn [loop]; [apply pwp_diverge|].
  apply pwp_bind. eapply pwp_mono; [by apply Hb|]. intros [x'|v] s' H'; [by apply IH | by apply pwp_ret].
Qed.

End PwpRules.

Ltac pwp_step :=
  lazymatch goal with
  | |- pwp (bind _ _) _ _ => apply pwp_bind
  | |- pwp (ret _) _ _ => apply pwp_ret
  | |- pwp (gets _) _ _ => apply pwp_gets
  | |- pwp (modify _) _ _ => apply pwp_modify
  | |- pwp (panic _) _ _ => apply pwp_panic
  | |- pwp (fault _) _ _ => apply pwp_fault
  | |- pwp diverge _ _ => apply pwp_diverge
  | |- pwp (zoom _ _ _) _ _ => apply pwp_zoom
  end.

(** ** Operations that keep a preorder

    [keeps R m]: whatever [m] does to the state, the states before and after
    are related by [R].  The tactic [keeps] takes an operation apart and
    leaves the parts that no rule or hint covers. *)

Definition keeps {S} (R : relation S) {A} (m : M S A) : Prop := forall s, pwp m s (fun _ s' => R s s').

Section Keeps.
  Context {S : Type} {R : relation S} `{HR : !PreOrder R}.

Lemma keeps_ret {A} (a : A) : keeps R (ret a).
Proof. intros s. pwp_step. reflexivity. Qed.
Lemma keeps_gets {A} (f : S -> A) : keeps R (gets f).
Proof. intros s. pwp_step. reflexivity. Qed.
Lemma keeps_option {A} msg (o : option A) : keeps R (from_option msg o).
Proof. intros s. apply pwp_from_option. intros. reflexivity. Qed.
Lemma keeps_panic {A} msg : keeps R (@panic S A msg).
Proof. intros s. pwp_step. Qed.
Lemma keeps_fault {A} msg : keeps R (@fault S A msg).
Proof. intros s. pwp_step. Qed.
Lemma keeps_diverge {A} : keeps R (@diverge S A).
Proof. intros s. pwp_step. Qed.
Lemma keeps_modify f : (forall s, R s (f s)) -> keeps R (modify f).
Proof. intros H s. pwp_step. apply H. Qed.
Lemma keeps_bind {A B} (m : M S A) (k : A -> M S B) : keeps R m -> (forall a, keeps R (k a)) -> keeps R (bind m k).
Proof.
  intros Hm Hk s. pwp_step. eapply pwp_mono; [apply Hm|]. intros a s1 H1. eapply pwp_mono; [apply Hk|].
  intros b s2 H2. etransitivity; [exact H1 | exact H2].
Qed.
Lemma keeps_when b (m : M S unit) : keeps R m -> keeps R (when b m).
Proof. intros H. destruct b; [done | apply keeps_ret]. Qed.
Lemma keeps_for lo hi (body : Z -> M S unit) : (forall i, keeps R (body i)) -> keeps R (for_range lo hi body).
Proof.
  intros Hb. unfold for_range. generalize (Z.to_nat (hi - lo)). intros n. revert lo.
  induction n as [|n IH]; intros lo; cbn [for_n]; [apply keeps_ret|]. apply keeps_bind; [apply Hb | intros; apply IH].
Qed.
Lemma keeps_loop {X B} fuel (body : X -> M S (X + B)) x : (forall x, keeps R (body x)) -> keeps R (loop fuel body x).
Proof.
  intros Hb. revert x. induction fuel as [|fuel IH]; intros x; cbn [loop]; [apply keeps_diverge|].
  apply keeps_bind; [apply Hb|]. intros [x'|v]; [apply IH | apply keeps_ret].
Qed.
Lemma keeps_zoom {T B} (g : S -> T) (p : T -> S -> S) (m : M T B) : (forall s t, R s (p t s)) -> keeps R (zoom g p m).
Proof. intros H s. apply pwp_zoom. intros b t _. apply H. Qed.

End Keeps.

Create HintDb keeps.
Ltac keeps :=
  repeat first
    [ match goal with
      | |- keeps _ (match ?x with _ => _ end) => destruct x
      | |- keeps _ (bind _ _) => apply keeps_bind; [|intros ?]
      | |- keeps _ (loop _ _ _) => apply keeps_loop; intros ?
      | |- keeps _ (for_range _ _ _) => apply keeps_for; intros ?
      | |- keeps _ (when _ _) => apply keeps_when
      | |- keeps _ (ret _) => apply keeps_ret
      | |- keeps _ (gets _) => apply keeps_gets
      | |- keeps _ (from_option _ _) => apply keeps_option
      | |- keeps _ (panic _) => apply keeps_panic
      | |- keeps _ (fault _) => apply keeps_fault
      | |- keeps _ diverge => apply keeps_diverge
      end
    | solve [auto 10 with keeps] ].

(** ** Arrays *)

Lemma aget_lookup {A} (l : list A) i x :
  aget l i = Some x <-> 0 <= i /\ l !! Z.to_nat i = Some x.
Proof. unfold aget. case_if; naive_solver lia. Qed.

Lemma aget_range {A} (l : list A) i x :
  aget l i = Some x -> 0 <= i < Z.of_nat (length l).
Proof. rewrite aget_lookup. intros [H0 H]. apply lookup_lt_Some in H. lia. Qed.

Lemma aget_is_Some {A} (l : list A) i :
  0 <= i < Z.of_nat (length l) -> exists x, aget l i = Some x.
Proof.
  intros H. destruct (lookup_lt_is_Some_2 l (Z.to_nat i)) as [x Hx]; [lia|].
  exists x. apply aget_lookup. split; [lia | done].
Qed.

Lemma aset_is_Some {A} (l : list A) i v :
  0 <= i < Z.of_nat (length l) -> aset l i v = Some (<[Z.to_nat i := v]> l).
Proof. intros H. unfold aset. by zcmp. Qed.

Lemma aget_insert {A} (l : list A) i j v :
  0 <= i < Z.of_nat (length l) -> 0 <= j ->
  aget (<[Z.to_nat i := v]> l) j = if j =? i then Some v else aget l j.
Proof.
  intros Hi Hj. unfold aget. zcmp. case_if.
  - subst. rewrite list_lookup_insert_eq; [done | lia].
  - rewrite list_lookup_insert_ne; [done | lia].
Qed.

Lemma aget_replicate {A} (n : nat) (x : A) i :
  0 <= i < Z.of_nat n -> aget (replicate n x) i = Some x.
Proof. intros H. apply aget_lookup. split; [lia|]. apply lookup_replicate. split; [done | lia]. Qed.

(** ** Memory updates *)

Lemma upd_eq m a v : upd m a v a = v.
Proof. unfold upd. by zcmp. Qed.

Lemma upd_ne m a v x : x <> a -> upd m a v x = m x.
Proof. intros H. unfold upd. by zcmp. Qed.

(** ** Machine integers *)

Lemma i32_small z : - 2 ^ 31 <= z < 2 ^ 31 -> i32 z = z.
Proof. intros H. unfold i32. rewrite Z.mod_small; lia. Qed.

Lemma i32_range z : - 2 ^ 31 <= i32 z < 2 ^ 31.
Proof. unfold i32. pose proof (Z.mod_pos_bound (z + 2 ^ 31) (2 ^ 32)). lia. Qed.

Lemma i64_small z : - 2 ^ 63 <= z < 2 ^ 63 -> i64 z = z.
Proof. intros H. unfold i64. rewrite Z.mod_small; lia. Qed.

Lemma u64_small z : 0 <= z < 2 ^ 64 -> u64 z = z.
Proof. intros H. unfold u64. by rewrite Z.mod_small. Qed.

Lemma u32_small z : 0 <= z < 2 ^ 32 -> u32 z = z.
Proof. intros H. unfold u32. by rewrite Z.mod_small. Qed.

Lemma u8_small z : 0 <= z < 2 ^ 8 -> u8 z = z.
Proof. intros H. unfold u8. by rewrite Z.mod_small. Qed.

Lemma u32_range z : 0 <= u32 z < 2 ^ 32.
Proof. unfold u32. apply Z.mod_pos_bound. lia. Qed.

Lemma u64_range z : 0 <= u64 z < 2 ^ 64.
Proof. unfold u64. apply Z.mod_pos_bound. lia. Qed.

Lemma u8_range z : 0 <= u8 z < 2 ^ 8.
Proof. unfold u8. apply Z.mod_pos_bound. lia. Qed.

Create HintDb kmath.
Create Rewrite HintDb krw.
#[export] Hint Rewrite upd_eq : krw.
#[export] Hint Rewrite upd_ne using lia : krw.
#[export] Hint Rewrite i32_small using lia : krw.
#[export] Hint Rewrite u64_small using lia : krw.
#[export] Hint Rewrite u32_small using lia : krw.
#[export] Hint Rewrite u8_small using lia : krw.
#[export] Hint Resolve i32_range u32_range u64_range u8_range : kmath.
