(* ===== verification/Ring.v ===== *)
(** * Ring buffers

    The bytes between a read position and a write position of a circular
    array, as the console, the UART driver and the pipes use them: positions
    count up and are reduced to an index when the array is accessed. *)

From S2P Require Import Prelude.

(** The array of [N] places holds the bytes [q] from position [r] on. *)
Record ring (N : Z) (data : list Z) (r : Z) (q : list Z) : Prop := mkRing {
  ring_data : length data = Z.to_nat N;
  ring_room : Z.of_nat (length q) <= N;
  ring_at : forall j c, q !! j = Some c -> data !! Z.to_nat ((r + Z.of_nat j) mod N) = Some c
}.

Section Ring.
  Context {N : Z} (HN : 0 < N).

(** Only the index matters, not the position. *)
Lemma ring_same data r r' q : r mod N = r' mod N -> ring N data r q -> ring N data r' q.
Proof.
  intros E [Hd Hr Ha]. constructor; [done | done|]. intros j c Hj. rewrite Z.add_mod, <- E, <- Z.add_mod by lia. by apply Ha.
Qed.

Lemma ring_empty data r : length data = Z.to_nat N -> ring N data r [].
Proof. intros H. constructor; [done | cbn; lia | done]. Qed.

Lemma ring_push data r q c : ring N data r q -> Z.of_nat (length q) < N ->
  ring N (<[Z.to_nat ((r + Z.of_nat (length q)) mod N) := c]> data) r (q ++ [c]).
Proof.
  intros [Hd Hr Ha] Hq. constructor.
  - by rewrite length_insert.
  - rewrite length_app. cbn [length]. lia.
  - intros j d Hj. pose proof (Z.mod_pos_bound (r + Z.of_nat (length q)) N HN). apply lookup_lt_Some in Hj as Hlt. rewrite length_app in Hlt. cbn [length] in Hlt.
    destruct (decide (j = length q)) as [->|Hne].
    + rewrite list_lookup_middle in Hj by done. injection Hj as ->. rewrite list_lookup_insert_eq; [done | lia].
    + rewrite lookup_app_l in Hj by lia. rewrite list_lookup_insert_ne; [by apply Ha|]. intros E.
      pose proof (Z.mod_pos_bound (r + Z.of_nat j) N HN). apply Z2Nat.inj in E; [|lia..].
      assert ((Z.of_nat (length q) - Z.of_nat j) mod N = 0) as E0.
      { replace (Z.of_nat (length q) - Z.of_nat j) with ((r + Z.of_nat (length q)) - (r + Z.of_nat j)) by lia. by rewrite Zminus_mod, E, Z.sub_diag. }
      rewrite Z.mod_small in E0; lia.
Qed.

Lemma ring_pop data r c q : ring N data r (c :: q) -> data !! Z.to_nat (r mod N) = Some c /\ ring N data (r + 1) q.
Proof.
  intros [Hd Hr Ha]. cbn [length] in Hr. split.
  - specialize (Ha 0%nat c eq_refl). by rewrite Z.add_0_r in Ha.
  - constructor; [done | lia|]. intros j d Hj. specialize (Ha (S j) d Hj). by replace (r + 1 + Z.of_nat j) with (r + Z.of_nat (S j)) by lia.
Qed.

Lemma ring_unpush data r q c : ring N data r (q ++ [c]) -> data !! Z.to_nat ((r + Z.of_nat (length q)) mod N) = Some c /\ ring N data r q.
Proof.
  intros [Hd Hr Ha]. rewrite length_app in Hr. cbn [length] in Hr. split; [apply Ha; by rewrite list_lookup_middle|].
  constructor; [done | lia|]. intros j d Hj. apply Ha. by apply lookup_app_l_Some.
Qed.

Lemma ring_nth data r q j c : ring N data r q -> q !! j = Some c -> nth (Z.to_nat ((r + Z.of_nat j) mod N)) data 0 = c.
Proof. intros [_ _ Ha] Hj. by apply nth_lookup_Some, Ha. Qed.

(** Positions kept modulo a word of which [N] is a divisor. *)
Lemma mod_word W z : 0 < W -> (N | W) -> (z mod W) mod N = z mod N.
Proof.
  intros HW [k ->]. symmetry. rewrite (Z.div_mod z (k * N)) at 1 by lia. rewrite Z.add_comm.
  replace (k * N * (z / (k * N))) with (z / (k * N) * k * N) by lia. by apply Z_mod_plus_full.
Qed.
Lemma ring_word data W r q : 0 < W -> (N | W) -> ring N data r q <-> ring N data (r mod W) q.
Proof. intros HW Hd. split; apply ring_same; by rewrite mod_word. Qed.

End Ring.
