(* ===== verification/Spinlock.v ===== *)
(** * Spin locks (kernel/spinlock.c)

    [struct spinlock], [struct cpu]'s interrupt bookkeeping, and the
    operations [initlock], [holding], [push_off], [pop_off], [acquire] and
    [release].  [Seq] holds the operations as one CPU runs them; [Smp] the
    same operations cut at every access to the shared lock word, interleaved
    arbitrarily between CPUs, with the mutual-exclusion proof. *)

From S2P Require Import Prelude.

(** The part of [struct cpu] that spin locks use, and the hart's
    [sstatus.SIE] bit. *)
Record cpu := mkCpu {
  noff : Z;        (* depth of push_off() nesting *)
  intena : bool;   (* were interrupts enabled before push_off()? *)
  sie : bool       (* SSTATUS_SIE *)
}.

(** [struct spinlock]; the debugging name is left out. *)
Record spinlock := mkSpinlock {
  locked : Z;
  lcpu : option Z  (* the cpu holding the lock *)
}.

Definition initlock : spinlock := mkSpinlock 0 None.

(** [intr_get], [intr_off] and [intr_on] of kernel/riscv.h on the SIE bit. *)
Definition intr_get (c : cpu) : bool := sie c.
Definition intr_off (c : cpu) : cpu := mkCpu (noff c) (intena c) false.
Definition intr_on (c : cpu) : cpu := mkCpu (noff c) (intena c) true.

Definition push_off (c : cpu) : cpu :=
  let old := intr_get c in
  let c := intr_off c in
  let c := if noff c =? 0 then mkCpu (noff c) old (sie c) else c in
  mkCpu (i32 (noff c + 1)) (intena c) (sie c).

Definition pop_off (c : cpu) : outcome cpu :=
  if intr_get c then Panic "pop_off - interruptible"
  else if noff c <? 1 then Panic "pop_off"
  else
    let c := mkCpu (noff c - 1) (intena c) (sie c) in
    Ret (if (noff c =? 0) && intena c then intr_on c else c).

(** [holding] on CPU [me]. *)
Definition holding (me : Z) (lk : spinlock) : bool :=
  negb (locked lk =? 0) && bool_decide (lcpu lk = Some me).

Module Seq.

(** What [acquire] and [release] work on: the CPU that runs them, the lock
    and that CPU's state. *)
Record lockst := mkLockst { me : Z; lk : spinlock; hart : cpu }.

(** [acquire]; when another CPU has the lock the loop spins. *)
Definition acquire : M lockst unit :=
  s <- get ;;
  let c := push_off (hart s) in
  if holding (me s) (lk s) then panic "acquire"
  else if negb (locked (lk s) =? 0) then diverge
  else put (mkLockst (me s) (mkSpinlock 1 (Some (me s))) c).

Definition release : M lockst unit :=
  s <- get ;;
  if negb (holding (me s) (lk s)) then panic "release"
  else
    match pop_off (hart s) with
    | Ret c => put (mkLockst (me s) (mkSpinlock 0 None) c)
    | Panic msg => panic msg
    | Fault msg => fault msg
    | Diverge => diverge
    end.

End Seq.

Module Smp.

(** Where a CPU is in an [acquire] ... [release] section.  Every constructor
    is the point just before the access named in its comment. *)
Inductive pc :=
| Idle       (* push_off() of acquire *)
| Check      (* if (holding(lk)) panic("acquire") *)
| Spin       (* __sync_lock_test_and_set(&lk->locked, 1) *)
| SetCpu     (* lk->cpu = mycpu() *)
| Crit       (* the critical section; next, release's holding() test *)
| ClearCpu   (* lk->cpu = 0 *)
| Unlock     (* __sync_lock_release(&lk->locked) *)
| PopOff     (* pop_off() *)
| Panicked (msg : string).

#[export] Instance pc_eq_dec : EqDecision pc.
Proof. solve_decision. Defined.

Record sys := mkSys { slk : spinlock; pcs : Z -> pc; cpus : Z -> cpu }.

Definition set_pc (i : Z) (p : pc) (f : Z -> pc) : Z -> pc :=
  fun j => if j =? i then p else f j.
Definition set_cpu (i : Z) (c : cpu) (f : Z -> cpu) : Z -> cpu :=
  fun j => if j =? i then c else f j.

(** The next access of CPU [i]. *)
Definition exec1 (i : Z) (s : sys) : sys :=
  let goto p := mkSys (slk s) (set_pc i p (pcs s)) (cpus s) in
  match pcs s i with
  | Idle => mkSys (slk s) (set_pc i Check (pcs s)) (set_cpu i (push_off (cpus s i)) (cpus s))
  | Check => if holding i (slk s) then goto (Panicked "acquire") else goto Spin
  | Spin =>
      if locked (slk s) =? 0
      then mkSys (mkSpinlock 1 (lcpu (slk s))) (set_pc i SetCpu (pcs s)) (cpus s)
      else mkSys (mkSpinlock 1 (lcpu (slk s))) (pcs s) (cpus s)
  | SetCpu => mkSys (mkSpinlock (locked (slk s)) (Some i)) (set_pc i Crit (pcs s)) (cpus s)
  | Crit => if holding i (slk s) then goto ClearCpu else goto (Panicked "release")
  | ClearCpu => mkSys (mkSpinlock (locked (slk s)) None) (set_pc i Unlock (pcs s)) (cpus s)
  | Unlock => mkSys (mkSpinlock 0 (lcpu (slk s))) (set_pc i PopOff (pcs s)) (cpus s)
  | PopOff =>
      match pop_off (cpus s i) with
      | Ret c => mkSys (slk s) (set_pc i Idle (pcs s)) (set_cpu i c (cpus s))
      | Panic msg => goto (Panicked msg)
      | _ => s
      end
  | Panicked _ => s
  end.

Inductive step : sys -> sys -> Prop :=
| step_cpu i s : step s (exec1 i s).

Inductive reachable (s0 : sys) : sys -> Prop :=
| reach_refl : reachable s0 s0
| reach_step s s' : reachable s0 s -> step s s' -> reachable s0 s'.

(** The lock is free and every CPU is outside, at interrupt depth 0. *)
Definition init (s : sys) : Prop :=
  slk s = initlock /\ (forall i, pcs s i = Idle) /\ (forall i, noff (cpus s i) = 0).

(** Between the winning swap and the store that frees the lock word. *)
Definition owns (p : pc) : bool :=
  match p with SetCpu | Crit | ClearCpu | Unlock => true | _ => false end.

(** The CPU field is set to the owner. *)
Definition named (p : pc) : bool :=
  match p with Crit | ClearCpu => true | _ => false end.

(** Inside a push_off()/pop_off() pair. *)
Definition inside (p : pc) : bool :=
  match p with Idle | Panicked _ => false | _ => true end.

Definition is_panicked (p : pc) : bool :=
  match p with Panicked _ => true | _ => false end.

Record inv_smp (s : sys) : Prop := {
  inv_own : forall i, owns (pcs s i) = true -> locked (slk s) = 1;
  inv_free : locked (slk s) = 0 \/ locked (slk s) = 1;
  inv_ex : forall i j, owns (pcs s i) = true -> owns (pcs s j) = true -> i = j;
  inv_name : forall i, lcpu (slk s) = Some i <-> named (pcs s i) = true;
  inv_off : forall i, inside (pcs s i) = true -> noff (cpus s i) = 1 /\ sie (cpus s i) = false;
  inv_out : forall i, inside (pcs s i) = false -> noff (cpus s i) = 0;
  inv_nopanic : forall i, is_panicked (pcs s i) = false
}.

End Smp.

(** ** Lemmas *)

(** CPU states between kernel function calls: the nesting depth is not
    negative and does not overflow, and interrupts are off inside. *)
Definition cpu_ok (c : cpu) : Prop :=
  0 <= noff c < 2 ^ 31 - 1 /\ (0 < noff c -> sie c = false).

Lemma push_pop_off c :
  cpu_ok c ->
  exists c', pop_off (push_off c) = Ret c' /\ noff c' = noff c /\ sie c' = sie c
             /\ (noff c <> 0 -> c' = c).
Proof.
  intros [Hn Hs]. destruct c as [n e s]; simpl in *.
  unfold pop_off, push_off, intr_off, intr_get; simpl.
  destruct (n =? 0) eqn:E; bool_prop; simpl; rewrite i32_small by lia.
  - subst. simpl. destruct s; simpl; eexists; repeat split; eauto; lia.
  - zcmp. simpl. rewrite Hs by lia. replace (n + 1 - 1) with n by lia. zcmp. simpl.
    eexists. repeat split; eauto.
Qed.

Lemma push_off_noff c : cpu_ok c -> noff (push_off c) = noff c + 1 /\ sie (push_off c) = false.
Proof.
  intros [Hn Hs]. unfold push_off, intr_off; simpl.
  destruct (noff c =? 0); simpl; rewrite i32_small by lia; auto.
Qed.

(** A lock that is free and not marked as held, on a sane CPU. *)
Definition lock_free (s : Seq.lockst) : Prop :=
  Seq.lk s = initlock /\ cpu_ok (Seq.hart s) /\ noff (Seq.hart s) < 2 ^ 31 - 2.

(** The state between a successful acquire and its release. *)
Definition lock_taken (s s' : Seq.lockst) : Prop :=
  s' = Seq.mkLockst (Seq.me s) (mkSpinlock 1 (Some (Seq.me s))) (push_off (Seq.hart s)).

Lemma acquire_wp s (Q : unit -> Seq.lockst -> Prop) :
  lock_free s -> (forall s', lock_taken s s' -> Q tt s') -> wp Seq.acquire s Q.
Proof.
  intros (Hl & Hc & Hn) HQ. unfold Seq.acquire. wp_steps.
  rewrite Hl. simpl. wp_steps. by apply HQ.
Qed.

Lemma release_wp s s1 (Q : unit -> Seq.lockst -> Prop) :
  lock_free s -> lock_taken s s1 ->
  (forall s', lock_free s' -> Seq.me s' = Seq.me s ->
     noff (Seq.hart s') = noff (Seq.hart s) -> sie (Seq.hart s') = sie (Seq.hart s) -> Q tt s') ->
  wp Seq.release s1 Q.
Proof.
  intros (Hl & Hc & Hn) Hs1 HQ. unfold Seq.release. wp_steps.
  rewrite Hs1; simpl. unfold holding; simpl.
  rewrite bool_decide_true by done; simpl.
  destruct (push_pop_off (Seq.hart s) Hc) as (c' & -> & Hnoff & Hsie & _).
  wp_steps. apply HQ; simpl; auto.
  split; [done|]. simpl. unfold cpu_ok in *. rewrite Hnoff, Hsie. tauto.
Qed.

Import Smp.

Lemma set_pc_eq i p f : set_pc i p f i = p.
Proof. unfold set_pc. by zcmp. Qed.

Lemma set_pc_cases i p f j : (j = i /\ set_pc i p f j = p) \/ (j <> i /\ set_pc i p f j = f j).
Proof. unfold set_pc. case_if; auto. Qed.

Lemma set_cpu_cases i c f j : (j = i /\ set_cpu i c f j = c) \/ (j <> i /\ set_cpu i c f j = f j).
Proof. unfold set_cpu. case_if; auto. Qed.

(** Split every [set_pc]/[set_cpu] lookup into "this CPU" and "another CPU". *)
Ltac cpu_cases :=
  repeat match goal with
  | |- context [ set_pc ?i ?p ?f ?j ] =>
      destruct (set_pc_cases i p f j) as [[? ->]|[? ->]]; subst
  | H : context [ set_pc ?i ?p ?f ?j ] |- _ =>
      let E := fresh in destruct (set_pc_cases i p f j) as [[? E]|[? E]]; rewrite E in H; clear E; subst
  | |- context [ set_cpu ?i ?p ?f ?j ] =>
      destruct (set_cpu_cases i p f j) as [[? ->]|[? ->]]; subst
  end.

Lemma holding_named s i : inv_smp s -> holding i (slk s) = named (pcs s i).
Proof.
  intros H. unfold holding. destruct (named (pcs s i)) eqn:E.
  - rewrite (inv_own _ H i) by (destruct (pcs s i); done).
    apply (inv_name _ H) in E. rewrite E. simpl. by rewrite bool_decide_true.
  - apply andb_false_iff. right. apply bool_decide_eq_false. intros Hc.
    apply (inv_name _ H) in Hc. congruence.
Qed.

Lemma owner_named s i j : inv_smp s -> owns (pcs s i) = true -> named (pcs s j) = true -> i = j.
Proof. intros H Hi Hj. apply (inv_ex _ H); [done|]. by destruct (pcs s j). Qed.

Ltac smp_facts H i :=
  pose proof (inv_own _ H) as Hown; pose proof (inv_free _ H) as Hfree;
  pose proof (inv_ex _ H) as Hex; pose proof (inv_name _ H) as Hname;
  pose proof (inv_off _ H) as Hoff; pose proof (inv_out _ H) as Hout;
  pose proof (inv_nopanic _ H) as Hnp;
  pose proof (Hown i) as Hown_i; pose proof (fun j => Hex i j) as Hex_i;
  pose proof (Hname i) as Hname_i; pose proof (Hoff i) as Hoff_i; pose proof (Hout i) as Hout_i.

(** Re-establish the seven clauses; what is left needs an argument. *)
Ltac smp :=
  constructor; simpl; intros; cpu_cases; simpl in *;
  try (first [ done | congruence | lia | by eauto | by symmetry; eauto
             | by (split; intros; [congruence | done]) ]).

Lemma exec1_inv s i : inv_smp s -> inv_smp (exec1 i s).
Proof.
  intros H. smp_facts H i. unfold exec1.
  destruct (pcs s i) eqn:Epc; simpl in *.
  - (* Idle *)
    assert (cpu_ok (cpus s i)) as Hc by (split; rewrite Hout_i by done; lia).
    destruct (push_off_noff _ Hc) as [Hn Hs].
    smp. rewrite Hn, Hout_i by done. by split.
  - (* Check *)
    rewrite (holding_named _ _ H), Epc; simpl. smp.
  - (* Spin *)
    destruct (locked (slk s) =? 0) eqn:E; bool_prop.
    + assert (forall j, owns (pcs s j) = false) as Hno.
      { intros j. destruct (owns (pcs s j)) eqn:Ej; [|done]. apply Hown in Ej. lia. }
      smp; by rewrite Hno in *.
    + smp; by auto.
  - (* SetCpu *)
    smp. split; [congruence|]. intros Hj. exfalso.
    apply (owner_named _ i _ H) in Hj; [done | by rewrite Epc].
  - (* Crit *)
    rewrite (holding_named _ _ H), Epc; simpl. smp.
  - (* ClearCpu *)
    smp. split; [congruence|]. intros Hj. exfalso.
    apply (owner_named _ i _ H) in Hj; [done | by rewrite Epc].
  - (* Unlock *)
    smp. by eapply Hex_i in H0.
  - (* PopOff *)
    destruct Hoff_i as [Hn Hs]; [done|]. unfold pop_off, intr_get. rewrite Hs, Hn; simpl.
    smp. by destruct (intena (cpus s i)).
  - specialize (Hnp i). by rewrite Epc in Hnp.
Qed.

Lemma init_inv s : init s -> inv_smp s.
Proof.
  intros (Hl & Hp & Hn).
  constructor; intros; rewrite ?Hp, ?Hl in *; simpl in *; auto; done.
Qed.

Lemma reachable_inv s0 s : init s0 -> reachable s0 s -> inv_smp s.
Proof.
  intros H0. induction 1 as [|s s' _ IH Hst]; [by apply init_inv|].
  destruct Hst. by apply exec1_inv.
Qed.

(** ** Properties *)

(** C17: on any number of CPUs running acquire/release sections on one lock,
    interleaved at every access to the lock word and to the cpu field, two
    CPUs are never both between the winning swap of acquire and the store
    that frees the lock, no CPU reaches a panic of acquire, release or
    pop_off, and a CPU in the section has interrupts off. *)
Theorem spinlock_mutual_exclusion (s0 s : sys) :
  init s0 -> reachable s0 s ->
  (forall i j, owns (pcs s i) = true -> owns (pcs s j) = true -> i = j)
  /\ (forall i, is_panicked (pcs s i) = false)
  /\ (forall i, pcs s i = Crit ->
        locked (slk s) = 1 /\ lcpu (slk s) = Some i /\ sie (cpus s i) = false).
Proof.
  intros H0 Hr. pose proof (reachable_inv _ _ H0 Hr) as H. repeat split.
  - apply (inv_ex _ H).
  - apply (inv_nopanic _ H).
  - apply (inv_own _ H i). by rewrite H1.
  - apply (inv_name _ H i). by rewrite H1.
  - apply (inv_off _ H i). by rewrite H1.
Qed.

Definition two_idle : sys := mkSys initlock (fun _ => Idle) (fun _ => mkCpu 0 false true).

Lemma spinlock_mutual_exclusion_witness :
  let s := exec1 1 (exec1 0 (exec1 1 (exec1 0 (exec1 0 (exec1 1 (exec1 0 two_idle)))))) in
  owns (pcs s 0) = true /\ pcs s 1 = Spin /\
  (forall i j, owns (pcs s i) = true -> owns (pcs s j) = true -> i = j).
Proof.
  intros s. split; [reflexivity|]. split; [reflexivity|].
  assert (reachable two_idle s) as Hr
    by (repeat (eapply reach_step; [|constructor]); apply reach_refl).
  destruct (spinlock_mutual_exclusion two_idle s) as [H _];
    [repeat split; reflexivity | exact Hr | exact H].
Defined.

(** acquire followed by release, run on a CPU whose nesting depth is sane
    and with the lock free, returns; the lock is free again and the CPU has
    the nesting depth and the interrupt-enable bit it started with, at any
    depth (so nested sections keep interrupts off until the outermost
    release). *)
Theorem acquire_release_balanced (s : Seq.lockst) :
  lock_free s ->
  exists s', bind Seq.acquire (fun _ => Seq.release) s = Ret (tt, s')
    /\ Seq.lk s' = initlock
    /\ noff (Seq.hart s') = noff (Seq.hart s)
    /\ sie (Seq.hart s') = sie (Seq.hart s).
Proof.
  intros H.
  assert (wp (bind Seq.acquire (fun _ => Seq.release)) s (fun _ s' =>
    Seq.lk s' = initlock /\ noff (Seq.hart s') = noff (Seq.hart s)
    /\ sie (Seq.hart s') = sie (Seq.hart s))) as ([] & s' & Hm & HQ).
  { wp_step. apply acquire_wp; [done|]. intros s1 Hs1.
    apply (release_wp s); [done | done |]. intros s' [Hl _] _ Hn Hs. by rewrite Hl. }
  eauto.
Qed.

Lemma acquire_release_balanced_witness :
  let s := Seq.mkLockst 3 initlock (mkCpu 0 false true) in
  lock_free s /\
  exists s', bind Seq.acquire (fun _ => Seq.release) s = Ret (tt, s')
    /\ Seq.lk s' = initlock /\ noff (Seq.hart s') = 0 /\ sie (Seq.hart s') = true.
Proof.
  intros s. assert (lock_free s) as H by (repeat split; simpl; lia).
  split; [exact H|]. exact (acquire_release_balanced s H).
Defined.
