(* ===== verification/Sleeplock.v ===== *)
(** * Sleep locks between processes (kernel/sleeplock.c, sleeplock.h)

    The code of a sleep lock runs under its spin lock up to the release or to
    the sleep, which gives the spin lock up and waits in one step (sleep of
    kernel/proc.c), so it falls into sections: [acquiresleep] tests the lock
    and takes it or sleeps, and a process that was woken tests again.  Any
    number of processes interleave at sections. *)

From stdpp Require Import relations.
From S2P Require Import Prelude.

Record sleeplock := mkSleeplock { locked : bool; pid : Z }.

Definition initsleeplock : sleeplock := mkSleeplock false 0.

(** What a process is doing with the lock. *)
Inductive phase :=
| Out                  (* neither holding nor asking *)
| Trying               (* inside acquiresleep, about to test *)
| Sleeping             (* asleep on the lock *)
| Holding.             (* between acquiresleep and releasesleep *)

#[global] Instance phase_eq_dec : EqDecision phase.
Proof. solve_decision. Defined.

(** One section of [acquiresleep], for the process [me]: the lock, and
    [Holding] or [Sleeping]. *)
Definition acquiresleep (me : Z) (lk : sleeplock) : sleeplock * phase :=
  if locked lk then (lk, Sleeping) else (mkSleeplock true me, Holding).

(** [wakeup(lk)] *)
Definition wake (p : phase) : phase := match p with Sleeping => Trying | _ => p end.

(** [releasesleep]: the lock, and the phases of the processes after
    [wakeup]. *)
Definition releasesleep (lk : sleeplock) (ps : list phase) : sleeplock * list phase :=
  (mkSleeplock false 0, wake <$> ps).

Definition holdingsleep (me : Z) (lk : sleeplock) : bool := locked lk && (pid lk =? me).

(** The lock and the processes; the pid of process [i] is [i + 1]. *)
Record world := mkWorld { lock : sleeplock; procs : list phase }.
Definition pid_of (i : nat) : Z := Z.of_nat i + 1.

(** The steps: a call of [acquiresleep], a section of it, [releasesleep] by the
    holder, and [kill], which makes a sleeping process runnable. *)
Inductive step : world -> world -> Prop :=
| step_call lk ps i : ps !! i = Some Out -> step (mkWorld lk ps) (mkWorld lk (<[i := Trying]> ps))
| step_acquire lk ps i : ps !! i = Some Trying ->
    step (mkWorld lk ps) (let '(lk', p) := acquiresleep (pid_of i) lk in mkWorld lk' (<[i := p]> ps))
| step_release lk ps i : ps !! i = Some Holding ->
    step (mkWorld lk ps) (let '(lk', ps') := releasesleep lk (<[i := Out]> ps) in mkWorld lk' ps')
| step_kill lk ps i : ps !! i = Some Sleeping -> step (mkWorld lk ps) (mkWorld lk (<[i := Trying]> ps)).

Definition start (n : nat) : world := mkWorld initsleeplock (replicate n Out).

(** ** The invariant *)

(** A free lock has no holder and nobody asleep on it; a locked one belongs to
    the one process that holds it. *)
Definition lock_ok (w : world) : Prop :=
  if locked (lock w)
  then exists i, procs w !! i = Some Holding /\ pid (lock w) = pid_of i /\ forall j, procs w !! j = Some Holding -> j = i
  else forall j p, procs w !! j = Some p -> p <> Holding /\ p <> Sleeping.

Lemma start_ok n : lock_ok (start n).
Proof. intros j p Hj. apply lookup_replicate in Hj as [-> _]. done. Qed.

Lemma lookup_set (ps : list phase) i j p q : ps !! i = Some p -> <[i := q]> ps !! j = if decide (j = i) then Some q else ps !! j.
Proof.
  intros Hi. apply lookup_lt_Some in Hi. case_decide as E; [subst; by apply list_lookup_insert_eq | by apply list_lookup_insert_ne].
Qed.

(** A process that goes on to test the lock. *)
Lemma trying_ok lk ps i q : ps !! i = Some q -> q <> Holding -> lock_ok (mkWorld lk ps) -> lock_ok (mkWorld lk (<[i := Trying]> ps)).
Proof.
  unfold lock_ok. cbn [lock procs]. intros Hi Hq H. destruct (locked lk).
  - destruct H as (k & Hk & Hp & Hu). exists k. rewrite (lookup_set _ _ _ _ _ Hi). split_and!; [|done|].
    + case_decide; [congruence | done].
    + intros j. rewrite (lookup_set _ _ _ _ _ Hi). case_decide; [done | apply Hu].
  - intros j p. rewrite (lookup_set _ _ _ _ _ Hi). case_decide; [by intros [= <-] | apply H].
Qed.

Lemma step_ok w w' : step w w' -> lock_ok w -> lock_ok w'.
Proof.
  unfold lock_ok. intros [lk ps i Hi|lk ps i Hi|lk ps i Hi|lk ps i Hi] H; cbn [lock procs] in *.
  - by apply (trying_ok lk ps i Out).
  - unfold acquiresleep. destruct (locked lk) eqn:El; cbn [lock procs locked pid]; [rewrite El|].
    + destruct H as (k & Hk & Hp & Hu). exists k. rewrite (lookup_set _ _ _ _ _ Hi). split_and!; [|done|].
      * case_decide; [congruence | done].
      * intros j. rewrite (lookup_set _ _ _ _ _ Hi). case_decide; [done | apply Hu].
    + exists i. rewrite (lookup_set _ _ _ _ _ Hi). split_and!; [by rewrite decide_True | done|].
      intros j. rewrite (lookup_set _ _ _ _ _ Hi). case_decide; [done|]. intros Hj. by destruct (H j Holding Hj).
  - unfold releasesleep. cbn [lock procs locked]. destruct (locked lk).
    + destruct H as (k & Hk & Hp & Hu). intros j p Hj. rewrite list_lookup_fmap, (lookup_set _ _ _ _ _ Hi) in Hj. case_decide as E.
      * by injection Hj as <-.
      * destruct (ps !! j) as [q|] eqn:Eq; [|done]. injection Hj as <-. destruct q; try done. destruct E. rewrite (Hu i Hi). by apply Hu.
    + by destruct (H i Holding Hi).
  - by apply (trying_ok lk ps i Sleeping).
Qed.

(** C19: however processes interleave on a sleep lock, at most one of them holds
    it, [holdingsleep] answers truly for every process, and no wake-up is
    lost: while the lock is free nobody is asleep on it. *)
Theorem sleeplock_safe (n : nat) (w : world) (H : rtc step (start n) w) :
  (forall i j, procs w !! i = Some Holding -> procs w !! j = Some Holding -> i = j)
  /\ (forall i p, procs w !! i = Some p -> holdingsleep (pid_of i) (lock w) = bool_decide (p = Holding))
  /\ (locked (lock w) = false -> Sleeping ∉ procs w).
Proof.
  assert (lock_ok w) as Hok.
  { remember (start n) as w0 eqn:E. assert (lock_ok w0) as H0 by (subst; apply start_ok). clear E. induction H as [|a b c Hs _ IH]; [done|].
    apply IH. by eapply step_ok. }
  unfold lock_ok in Hok. unfold holdingsleep. destruct (locked (lock w)).
  - destruct Hok as (k & Hk & Hp & Hu). split_and!; [intros i j Hi Hj; by rewrite (Hu i Hi), (Hu j Hj) | | done].
    intros i p Hi. cbn [andb]. rewrite Hp. unfold pid_of. case_bool_decide as E.
    + subst p. rewrite (Hu i Hi). apply Z.eqb_refl.
    + apply Z.eqb_neq. intros Ei. assert (k = i) as -> by lia. congruence.
  - split_and!.
    + intros i j Hi _. by destruct (Hok i Holding Hi).
    + intros i p Hi. destruct (Hok i p Hi). cbn [andb]. by rewrite bool_decide_false.
    + intros _ (j & Hj)%list_elem_of_lookup. by destruct (Hok j Sleeping Hj).
Qed.

(** Two processes ask, the first gets the lock, the second sleeps. *)
Lemma sleeplock_safe_witness : let w := mkWorld (mkSleeplock true 1) [Holding; Sleeping] in
  (forall i j, procs w !! i = Some Holding -> procs w !! j = Some Holding -> i = j)
  /\ (forall i p, procs w !! i = Some p -> holdingsleep (pid_of i) (lock w) = bool_decide (p = Holding))
  /\ (locked (lock w) = false -> Sleeping ∉ procs w).
Proof.
  apply (sleeplock_safe 2).
  eapply rtc_l; [apply (step_call _ _ 0); reflexivity|]. eapply rtc_l; [apply (step_call _ _ 1); reflexivity|].
  eapply rtc_l; [apply (step_acquire _ _ 0); reflexivity|]. eapply rtc_l; [apply (step_acquire _ _ 1); reflexivity|]. apply rtc_refl.
Defined.
