(* ===== verification/LList.v ===== *)
(** * The circular doubly linked list (kernel/list.c, kernel/list.h)

    A list node [struct list] is two words of memory: [next] at the node's
    address and [prev] eight bytes further.  The operations read and write
    these words as the C code does; [dll] says that the words form the
    circular list of a sequence of node addresses. *)

From S2P Require Import Prelude.

(** [e->next] and [e->prev]. *)
Definition next (e : Z) : Z := e.
Definition prev (e : Z) : Z := e + 8.

Definition lst_init (lst : Z) (h : mem) : mem :=
  upd (upd h (next lst) lst) (prev lst) lst.

Definition lst_empty (lst : Z) (h : mem) : bool := h (next lst) =? lst.

Definition lst_remove (e : Z) (h : mem) : mem :=
  let h := upd h (next (h (prev e))) (h (next e)) in
  upd h (prev (h (next e))) (h (prev e)).

Definition lst_pop (lst : Z) (h : mem) : outcome (Z * mem) :=
  if h (next lst) =? lst then Panic "lst_pop"
  else
    let p := h (next lst) in
    Ret (p, lst_remove p h).

Definition lst_push (lst p : Z) (h : mem) : mem :=
  let e := p in
  let h := upd h (next e) (h (next lst)) in
  let h := upd h (prev e) lst in
  let h := upd h (prev (h (next lst))) p in
  upd h (next lst) e.

(** [lst_print]: the addresses it prints, in order. *)
Fixpoint lst_print (fuel : nat) (lst p : Z) (h : mem) : option (list Z) :=
  match fuel with
  | O => None
  | S fuel' =>
      if p =? lst then Some []
      else option_map (cons p) (lst_print fuel' lst (h (next p)) h)
  end.

(** ** The representation predicate *)

(** The words link [a] through [xs] to [b], in both directions. *)
Fixpoint linked (h : mem) (a : Z) (xs : list Z) (b : Z) : Prop :=
  match xs with
  | [] => h (next a) = b /\ h (prev b) = a
  | x :: xs' => h (next a) = x /\ h (prev x) = a /\ linked h x xs' b
  end.

(** The last node of the chain that starts at [a] and goes through [xs]. *)
Fixpoint chain_end (a : Z) (xs : list Z) : Z :=
  match xs with [] => a | x :: xs' => chain_end x xs' end.

Definition aligned (a : Z) : Prop := a mod 16 = 0.

(** [lst] is the head of a circular list with elements [xs]. *)
Record dll (h : mem) (lst : Z) (xs : list Z) : Prop := mkDll {
  dll_linked : linked h lst xs lst;
  dll_nodup : NoDup (lst :: xs);
  dll_aligned : Forall aligned (lst :: xs)
}.

(** ** Lemmas *)

Lemma aligned_next_ne a b : aligned a -> aligned b -> a <> b -> next a <> next b /\ prev a <> prev b.
Proof. unfold aligned, next, prev. lia. Qed.

Lemma aligned_next_prev a b : aligned a -> aligned b -> next a <> prev b.
Proof. unfold aligned, next, prev. intros. dlia. Qed.

(** Words that are not the [next] of [a :: xs] or the [prev] of [xs ++ [b]]
    do not matter. *)
Lemma linked_frame h h' a xs b :
  (forall x, x ∈ a :: xs -> h' (next x) = h (next x)) ->
  (forall x, x ∈ xs ++ [b] -> h' (prev x) = h (prev x)) ->
  linked h a xs b -> linked h' a xs b.
Proof.
  revert a. induction xs as [|x xs IH]; intros a Hn Hp; simpl.
  - rewrite Hn, Hp by set_solver. done.
  - rewrite Hn, Hp by set_solver. intros (? & ? & ?). split_and!; [done..|].
    apply IH; [| |done]; intros; [apply Hn | apply Hp]; set_solver.
Qed.

Lemma linked_app h a xs x ys b :
  linked h a (xs ++ x :: ys) b <-> linked h a xs x /\ linked h x ys b.
Proof.
  revert a. induction xs as [|y xs IH]; intros a; simpl; [tauto|].
  rewrite IH. tauto.
Qed.

Lemma linked_next_first h a xs b : linked h a xs b -> h (next a) = List.hd b xs.
Proof. destruct xs; simpl; tauto. Qed.

Lemma linked_prev_last h a xs b : linked h a xs b -> h (prev b) = chain_end a xs.
Proof. revert a. induction xs; intros a0; simpl; naive_solver. Qed.

Lemma chain_end_in a xs : chain_end a xs ∈ a :: xs.
Proof. revert a. induction xs as [|x xs IH]; intros a; [|specialize (IH x)]; set_solver. Qed.

(** A node of the list other than the word being written is aligned and so
    never overlaps it. *)
Lemma dll_frame h h' lst xs :
  (forall x, x ∈ lst :: xs -> h' (next x) = h (next x) /\ h' (prev x) = h (prev x)) ->
  dll h lst xs -> dll h' lst xs.
Proof.
  intros Hf [Hl Hn Ha]. constructor; [|done|done].
  apply (linked_frame h); [| |done]; intros x Hx; apply Hf; set_solver.
Qed.

Lemma dll_init h lst : aligned lst -> dll (lst_init lst h) lst [].
Proof.
  intros Ha. constructor.
  - unfold lst_init. simpl. rewrite (upd_ne _ (prev lst)) by (unfold next, prev; lia).
    by rewrite !upd_eq.
  - apply NoDup_singleton.
  - by apply Forall_singleton.
Qed.

Lemma dll_empty h lst xs : dll h lst xs -> lst_empty lst h = bool_decide (xs = []).
Proof.
  intros [Hl Hn _]. unfold lst_empty. rewrite (linked_next_first _ _ _ _ Hl).
  destruct xs as [|x xs]; cbn [List.hd].
  - rewrite bool_decide_true by done. by zcmp.
  - rewrite bool_decide_false by done. apply Z.eqb_neq.
    apply NoDup_cons in Hn as [Hn _]. intros ->. set_solver.
Qed.

(** What a write to node [n] leaves alone. *)
Definition only_nodes (ns : list Z) (h h' : mem) : Prop :=
  forall x, (forall n, n ∈ ns -> x <> next n /\ x <> prev n) -> h' x = h x.

Lemma only_nodes_frame ns h h' lst xs :
  only_nodes ns h h' -> Forall aligned ns -> (forall n, n ∈ ns -> n ∉ lst :: xs) ->
  dll h lst xs -> dll h' lst xs.
Proof.
  intros Ho Ha Hd H. pose proof (dll_aligned _ _ _ H) as Hal. revert H.
  rewrite Forall_forall in Ha, Hal. apply dll_frame. intros x Hx. split; apply Ho; intros n Hn;
    assert (x <> n) by (intros ->; by apply (Hd n));
    pose proof (aligned_next_ne x n (Hal _ Hx) (Ha _ Hn) H);
    pose proof (aligned_next_prev x n (Hal _ Hx) (Ha _ Hn));
    pose proof (aligned_next_prev n x (Ha _ Hn) (Hal _ Hx));
    split; naive_solver.
Qed.

Lemma lst_push_words lst p h :
  p <> lst -> aligned p -> aligned lst ->
  lst_push lst p h =
    upd (upd (upd (upd h (next p) (h (next lst))) (prev p) lst) (prev (h (next lst))) p) (next lst) p.
Proof.
  intros Hne Hap Hal. unfold lst_push.
  by rewrite (upd_ne _ (prev p)), (upd_ne _ (next p)) by
    (try apply aligned_next_prev; unfold next; done).
Qed.

Lemma lst_push_only lst p xs h :
  dll h lst xs -> p ∉ lst :: xs -> aligned p ->
  only_nodes (p :: lst :: xs) h (lst_push lst p h).
Proof.
  intros [Hl _ Ha] Hp Hap y Hy. apply Forall_cons in Ha as [Hal _].
  rewrite lst_push_words by (done || set_solver).
  rewrite (linked_next_first _ _ _ _ Hl).
  assert (List.hd lst xs ∈ p :: lst :: xs) as Hhd by (destruct xs; set_solver).
  destruct (Hy p) as [? ?]; [set_solver|]. destruct (Hy lst) as [? ?]; [set_solver|].
  destruct (Hy _ Hhd) as [? ?].
  by rewrite !upd_ne by done.
Qed.

Lemma dll_push h lst xs p :
  dll h lst xs -> p ∉ lst :: xs -> aligned p -> dll (lst_push lst p h) lst (p :: xs).
Proof.
  intros [Hl Hn Ha] Hp Hap. pose proof Ha as [Hal Hax]%Forall_cons.
  rewrite Forall_forall in Hax.
  rewrite lst_push_words by (done || set_solver).
  pose proof (linked_next_first _ _ _ _ Hl) as Hf. rewrite Hf.
  set (f := List.hd lst xs) in *.
  assert (f ∈ lst :: xs) as Hfin by (unfold f; destruct xs; set_solver).
  assert (aligned f) as Haf by (by eapply Forall_forall in Ha; [|exact Hfin]).
  assert (p <> f) by set_solver. assert (p <> lst) by set_solver.
  constructor.
  2: { apply NoDup_cons in Hn as [? ?]. apply NoDup_cons. split; [set_solver|].
       apply NoDup_cons. split; [set_solver | done]. }
  2: { apply Forall_cons. split; [done|]. apply Forall_cons. split; [done|].
       by apply Forall_forall. }
  assert (forall a b, aligned a -> aligned b -> next a <> prev b) as Hnp by (apply aligned_next_prev).
  assert (forall a b, aligned a -> aligned b -> prev a <> next b) as Hpn
    by (intros a b ? ? E; by apply (aligned_next_prev b a)).
  assert (forall a b, a <> b -> next a <> next b) as Hnn by (unfold next; lia).
  assert (forall a b, a <> b -> prev a <> prev b) as Hpp by (unfold prev; lia).
  split; [by rewrite upd_eq|].
  split; [rewrite (upd_ne _ (next lst)), (upd_ne _ (prev f)) by auto; by rewrite upd_eq|].
  unfold f in *. destruct xs as [|x xs]; simpl in *.
  - rewrite (upd_ne _ (next lst) _ (next p)), (upd_ne _ (next lst) _ (prev lst)) by auto.
    rewrite (upd_ne _ (prev lst) _ (next p)), (upd_ne _ (prev p) _ (next p)) by auto.
    by rewrite !upd_eq.
  - rewrite (upd_ne _ (next lst) _ (next p)), (upd_ne _ (next lst) _ (prev x)) by auto.
    rewrite (upd_ne _ (prev x) _ (next p)), (upd_ne _ (prev p) _ (next p)) by auto.
    rewrite !upd_eq. split_and!; [done..|].
    destruct Hl as (_ & _ & Hl). revert Hl. apply linked_frame; intros y Hy.
    + assert (y <> p) by (intros ->; apply Hp; apply elem_of_cons; by right).
      assert (y <> lst) by (intros ->; apply NoDup_cons in Hn as [Hn _]; by apply Hn).
      pose proof (Hax y Hy).
      rewrite !upd_ne; auto.
    + assert (y ∈ lst :: x :: xs) as Hy' by (clear -Hy; set_solver).
      assert (y <> p) by (by intros ->; apply Hp).
      assert (y <> x).
      { clear -Hy Hn. intros ->. apply NoDup_cons in Hn as [Hn1 [Hn2 _]%NoDup_cons]. set_solver. }
      assert (aligned y) by (rewrite Forall_forall in Ha; by apply Ha).
      rewrite !upd_ne; auto.
Qed.

(** Redirect the last link of a chain. *)
Lemma linked_retarget h h' a xs e b :
  linked h a xs e -> NoDup (a :: xs) ->
  (forall x, x ∈ a :: xs -> x <> chain_end a xs -> h' (next x) = h (next x)) ->
  (forall x, x ∈ xs -> h' (prev x) = h (prev x)) ->
  h' (next (chain_end a xs)) = b -> h' (prev b) = chain_end a xs ->
  linked h' a xs b.
Proof.
  revert a. induction xs as [|x xs IH]; intros a Hl Hnd Hn Hp Hb1 Hb2; [done|].
  destruct Hl as (H1 & H2 & H3). simpl in *.
  apply NoDup_cons in Hnd as [Hna Hnd]. pose proof (chain_end_in x xs) as Hin.
  split; [rewrite Hn; [done | set_solver | intros ->; set_solver]|].
  split; [rewrite Hp; [done | set_solver]|].
  apply IH; auto; intros; [apply Hn; set_solver | apply Hp; set_solver].
Qed.

(** The nodes around a removed element. *)
Lemma dll_middle h lst xs e ys :
  dll h lst (xs ++ e :: ys) ->
  let a := chain_end lst xs in
  let b := List.hd lst ys in
  h (prev e) = a /\ h (next e) = b /\ a ∈ lst :: xs /\ b ∈ lst :: ys
  /\ aligned a /\ aligned b /\ aligned e /\ e <> a /\ e <> b
  /\ NoDup (lst :: xs ++ ys) /\ b ∉ xs.
Proof.
  intros [Hl Hn Ha] a b. apply linked_app in Hl as [Hl1 Hl2].
  assert (a ∈ lst :: xs) as Hin by apply chain_end_in.
  assert (b ∈ lst :: ys) as Hib by (unfold b; destruct ys; set_solver).
  rewrite Forall_forall in Ha.
  assert (forall x, x ∈ lst :: xs \/ x ∈ lst :: ys \/ x = e -> aligned x) as Hal
    by (intros x Hx; apply Ha; clear -Hx; set_solver).
  apply NoDup_cons in Hn as [Hn1 Hn2]. apply NoDup_app in Hn2 as (Hx & Hd & [He Hy]%NoDup_cons).
  assert (forall x, x ∈ xs -> x ∉ ys /\ x <> e) as Hd' by (clear -Hd; set_solver).
  assert (lst ∉ xs /\ lst ∉ ys /\ lst <> e) as (Hl3 & Hl4 & Hl5) by (clear -Hn1; set_solver).
  split; [apply (linked_prev_last _ _ _ _ Hl1)|].
  split; [apply (linked_next_first _ _ _ _ Hl2)|].
  split; [done|]. split; [done|]. split; [auto|]. split; [auto|]. split; [auto|].
  split; [|split; [|split]].
  - intros E. rewrite <- E in Hin. apply elem_of_cons in Hin as [->|Hin]; [done|].
    by destruct (Hd' e Hin).
  - intros E. rewrite <- E in Hib. apply elem_of_cons in Hib as [->|Hib]; done.
  - apply NoDup_cons. split; [clear -Hl3 Hl4; set_solver|]. apply NoDup_app.
    split; [done|]. split; [|done]. intros x Hxx. by apply Hd'.
  - intros Hb. destruct (Hd' b Hb). apply elem_of_cons in Hib as [->|Hib]; done.
Qed.

Lemma lst_remove_words h lst xs e ys :
  dll h lst (xs ++ e :: ys) ->
  lst_remove e h = upd (upd h (next (chain_end lst xs)) (List.hd lst ys))
                       (prev (List.hd lst ys)) (chain_end lst xs).
Proof.
  intros H. destruct (dll_middle _ _ _ _ _ H) as (Hp & Hx & _ & _ & Ha & _ & He & Hne & _).
  unfold lst_remove. rewrite Hp, Hx.
  rewrite (upd_ne h _ _ (next e)) by (unfold next; done).
  rewrite (upd_ne h _ _ (prev e)) by (intros E; by apply (aligned_next_prev (chain_end lst xs) e)).
  by rewrite Hp, Hx.
Qed.

Lemma lst_remove_only h lst xs e ys :
  dll h lst (xs ++ e :: ys) -> only_nodes (lst :: xs ++ ys) h (lst_remove e h).
Proof.
  intros H y Hy. rewrite (lst_remove_words _ _ _ _ _ H).
  destruct (dll_middle _ _ _ _ _ H) as (_ & _ & Ha & Hb & _).
  destruct (Hy (chain_end lst xs)) as [? ?]; [set_solver|].
  destruct (Hy (List.hd lst ys)) as [? ?]; [set_solver|].
  by rewrite !upd_ne by done.
Qed.

Lemma dll_remove h lst xs e ys :
  dll h lst (xs ++ e :: ys) -> dll (lst_remove e h) lst (xs ++ ys).
Proof.
  intros H. rewrite (lst_remove_words _ _ _ _ _ H).
  destruct (dll_middle _ _ _ _ _ H) as (Hp & Hx & Hain & Hbin & Haa & Hab & Hae & Hea & Heb & Hnd & Hbx).
  set (a := chain_end lst xs) in *. set (b := List.hd lst ys) in *.
  destruct H as [Hl Hn Ha]. rewrite Forall_forall in Ha.
  constructor; [|done|apply Forall_forall; intros x ?; apply Ha; set_solver].
  apply linked_app in Hl as [Hl1 Hl2].
  set (h' := upd (upd h (next a) b) (prev b) a).
  assert (forall x, aligned x -> x <> a -> h' (next x) = h (next x)) as Hfn.
  { intros x Hxa Hne. unfold h'. rewrite !upd_ne; [done | unfold next; done | by apply aligned_next_prev]. }
  assert (forall x, aligned x -> x <> b -> h' (prev x) = h (prev x)) as Hfp.
  { intros x Hxa Hne. unfold h'. rewrite !upd_ne; [done | intros E; by apply (aligned_next_prev a x) | unfold prev; lia]. }
  assert (forall x, x ∈ lst :: xs \/ x ∈ lst :: ys -> aligned x) as Hal
    by (intros x Hin; apply Ha; clear -Hin; set_solver).
  assert (linked h' lst xs b) as Hfirst.
  { apply (linked_retarget h _ _ _ e); [done|..].
    - clear -Hnd. apply NoDup_cons in Hnd as [? [? _]%NoDup_app]. apply NoDup_cons. set_solver.
    - intros x Hin Hne. apply Hfn; [auto | done].
    - intros x Hin. apply Hfp; [apply Hal; left; by apply elem_of_cons; right | by intros ->].
    - unfold h'. rewrite upd_ne by (by apply aligned_next_prev). by rewrite upd_eq.
    - unfold h'. by rewrite upd_eq. }
  unfold b in *. destruct ys as [|y ys]; simpl in *; [by rewrite app_nil_r|].
  apply linked_app. split; [done|]. destruct Hl2 as (_ & _ & Hl2).
  apply NoDup_cons in Hnd as [Hl' (Hxs & Hd & [Hy Hys]%NoDup_cons)%NoDup_app].
  revert Hl2. apply linked_frame; intros x Hin.
  - apply Hfn; [apply Hal; right; by apply elem_of_cons; right|].
    intros ->. apply elem_of_cons in Hain as [E|Hain].
    + rewrite E in Hin. apply Hl'. apply elem_of_app. by right.
    + by apply (Hd a).
  - apply Hfp; [apply Hal; right; clear -Hin; set_solver|].
    intros ->. clear -Hin Hy Hl'. set_solver.
Qed.

Lemma lst_pop_spec h lst x xs :
  dll h lst (x :: xs) -> lst_pop lst h = Ret (x, lst_remove x h).
Proof.
  intros H. unfold lst_pop. rewrite (linked_next_first _ _ _ _ (dll_linked _ _ _ H)). simpl.
  destruct (x =? lst) eqn:E; [|done]. bool_prop. subst.
  destruct H as [_ [Hn _]%NoDup_cons _]. set_solver.
Qed.

Lemma lst_print_linked h lst a xs fuel :
  linked h a xs lst -> lst ∉ xs -> (length xs < fuel)%nat ->
  lst_print fuel lst (h (next a)) h = Some xs.
Proof.
  revert a fuel. induction xs as [|x xs IH]; intros a fuel Hl Hn Hf; (destruct fuel as [|fuel]; [simpl in Hf; lia|]);
    simpl in Hl.
  - destruct Hl as [-> _]. simpl. by rewrite Z.eqb_refl.
  - destruct Hl as (-> & _ & Hl). simpl. rewrite (proj2 (Z.eqb_neq x lst)) by set_solver.
    rewrite (IH x); [done | done | set_solver | simpl in Hf; lia].
Qed.

(** the linked list of kernel/list.c implements a sequence: on a list
    head with elements [xs], [lst_push] adds a new node in front, [lst_pop]
    takes the first node off or panics when there is none, [lst_remove] takes
    out any node, [lst_empty] tells whether there are elements and
    [lst_print] visits them in order. *)
Theorem list_refines_sequence (h : mem) (lst : Z) (xs : list Z) :
  dll h lst xs ->
  (forall p, p ∉ lst :: xs -> aligned p -> dll (lst_push lst p h) lst (p :: xs))
  /\ (xs = [] -> lst_pop lst h = Panic "lst_pop")
  /\ (forall x ys, xs = x :: ys -> exists h', lst_pop lst h = Ret (x, h') /\ dll h' lst ys)
  /\ (forall as_ e bs, xs = as_ ++ e :: bs -> dll (lst_remove e h) lst (as_ ++ bs))
  /\ lst_empty lst h = bool_decide (xs = [])
  /\ lst_print (S (length xs)) lst (h (next lst)) h = Some xs.
Proof.
  intros H. split_and!.
  - intros p Hp Ha. by apply dll_push.
  - intros ->. unfold lst_pop. rewrite (linked_next_first _ _ _ _ (dll_linked _ _ _ H)). simpl.
    by rewrite Z.eqb_refl.
  - intros x ys ->. exists (lst_remove x h). split; [by apply (lst_pop_spec _ _ _ ys)|].
    by apply (dll_remove h lst [] x ys).
  - intros as_ e bs ->. by apply dll_remove.
  - by apply dll_empty.
  - apply lst_print_linked; [apply H | | lia]. by apply NoDup_cons, (dll_nodup h lst xs).
Qed.

Lemma list_refines_sequence_witness :
  let h := lst_push 160 320 (lst_init 160 (fun _ => 0)) in
  dll h 160 [320] /\ lst_print 2 160 (h (next 160)) h = Some [320]
  /\ exists h', lst_pop 160 h = Ret (320, h') /\ dll h' 160 [].
Proof.
  intros h.
  assert (dll h 160 [320]) as H.
  { apply dll_push; [by apply dll_init | | done]. rewrite list_elem_of_singleton. lia. }
  destruct (list_refines_sequence h 160 [320] H) as (_ & _ & Hp & _ & _ & Hpr).
  split; [exact H|]. split; [exact Hpr|]. exact (Hp 320 [] eq_refl).
Defined.
