(* ===== verification/Buddy.v ===== *)
(** * The buddy allocator (kernel/buddy.c) and kalloc (kernel/kalloc.c)

    The state of the allocator and its operations, as buddy.c has them: the
    array [bd_sizes] with a free list and two bit arrays per block size, the
    xor-of-the-pair [alloc] bits, and the operations from [bit_isset] to
    [bd_init], then [kinit], [kalloc] and [kfree].  The free lists are
    kernel/list.c lists threaded through the free blocks themselves.

    The bit arrays are lists of bytes of the size [bd_init] reserves, and an
    access outside one of them is a [Fault].  Console output is left out. *)

From S2P Require Import Prelude Spinlock LList.

(** [struct sz_info]: the list head [free] is the two words at
    [bd_sizes + 32 * k]; the two arrays are kept by value. *)
Record sz_info := mkSz {
  alloc : list Z;
  split : list Z
}.

Record bd := mkBd {
  nsizes : Z;
  bd_sizes : Z;               (* address of the sz_info array *)
  bd_base : Z;                (* start of the managed memory *)
  szs : list sz_info;         (* contents of the sz_info array *)
  heap : mem;                 (* list words *)
  lock : Seq.lockst
}.

Definition set_szs (l : list sz_info) (s : bd) : bd :=
  mkBd (nsizes s) (bd_sizes s) (bd_base s) l (heap s) (lock s).
Definition set_heap (h : mem) (s : bd) : bd :=
  mkBd (nsizes s) (bd_sizes s) (bd_base s) (szs s) h (lock s).
Definition set_lock (l : Seq.lockst) (s : bd) : bd :=
  mkBd (nsizes s) (bd_sizes s) (bd_base s) (szs s) (heap s) l.

Definition acquire_bd : M bd unit := zoom lock set_lock Seq.acquire.
Definition release_bd : M bd unit := zoom lock set_lock Seq.release.

(** ** The macros *)

Definition LEAF_SIZE : Z := 16.
Definition MAXSIZE (s : bd) : Z := nsizes s - 1.
Definition BLK_SIZE (k : Z) : Z := Z.shiftl 1 k * LEAF_SIZE.
Definition HEAP_SIZE (s : bd) : Z := BLK_SIZE (MAXSIZE s).
Definition NBLK (s : bd) (k : Z) : Z := i32 (Z.shiftl 1 (MAXSIZE s - k)).
Definition ROUNDUP (n sz : Z) : Z := (Z.quot (n - 1) sz + 1) * sz.

(** [sizeof(Sz_info)], and the address of [bd_sizes[k].free]. *)
Definition sizeof_Sz_info : Z := 32.
Definition free_head (s : bd) (k : Z) : Z := bd_sizes s + sizeof_Sz_info * k.

(** ** Bit arrays *)

Definition bit_isset (array : list Z) (index : Z) : option bool :=
  b ← aget array (Z.quot index 8);
  let m := u8 (Z.shiftl 1 (Z.rem index 8)) in
  Some (Z.land b m =? m).

Definition bit_set (array : list Z) (index : Z) : option (list Z) :=
  b ← aget array (Z.quot index 8);
  let m := u8 (Z.shiftl 1 (Z.rem index 8)) in
  aset array (Z.quot index 8) (u8 (Z.lor b m)).

Definition bit_clear (array : list Z) (index : Z) : option (list Z) :=
  b ← aget array (Z.quot index 8);
  let m := u8 (Z.shiftl 1 (Z.rem index 8)) in
  aset array (Z.quot index 8) (u8 (Z.land b (Z.lnot m))).

Definition bit_invert (array : list Z) (index : Z) : option (list Z) :=
  b ← aget array (Z.quot index 8);
  let m := u8 (Z.shiftl 1 (Z.rem index 8)) in
  aset array (Z.quot index 8) (u8 (Z.lxor b m)).

(** The bit operations on [bd_sizes[k].alloc] and [bd_sizes[k].split]. *)
Definition get_sz (k : Z) : M bd sz_info :=
  s <- get ;; from_option "bd_sizes" (aget (szs s) k).

Definition put_sz (k : Z) (z : sz_info) : M bd unit :=
  s <- get ;; l <- from_option "bd_sizes" (aset (szs s) k z) ;; put (set_szs l s).

Definition alloc_isset (k i : Z) : M bd bool :=
  z <- get_sz k ;; from_option "alloc" (bit_isset (alloc z) i).
Definition alloc_invert (k i : Z) : M bd unit :=
  z <- get_sz k ;; a <- from_option "alloc" (bit_invert (alloc z) i) ;;
  put_sz k (mkSz a (split z)).
Definition split_isset (k i : Z) : M bd bool :=
  z <- get_sz k ;; from_option "split" (bit_isset (split z) i).
Definition split_set (k i : Z) : M bd unit :=
  z <- get_sz k ;; a <- from_option "split" (bit_set (split z) i) ;;
  put_sz k (mkSz (alloc z) a).
Definition split_clear (k i : Z) : M bd unit :=
  z <- get_sz k ;; a <- from_option "split" (bit_clear (split z) i) ;;
  put_sz k (mkSz (alloc z) a).

(** The list operations on [bd_sizes[k].free]. *)
Definition free_empty (k : Z) : M bd bool :=
  s <- get ;; _ <- get_sz k ;; ret (lst_empty (free_head s k) (heap s)).
Definition free_push (k p : Z) : M bd unit :=
  s <- get ;; _ <- get_sz k ;; put (set_heap (lst_push (free_head s k) p (heap s)) s).
Definition free_pop (k : Z) : M bd Z :=
  s <- get ;; _ <- get_sz k ;;
  match lst_pop (free_head s k) (heap s) with
  | Ret ph => put (set_heap (snd ph) s) ;;; ret (fst ph)
  | Panic msg => panic msg
  | Fault msg => fault msg
  | Diverge => diverge
  end.

(** ** Block arithmetic *)

(** [firstk]; 64 doublings take [size] from 16 past any 64-bit [n] that the
    loop can reach. *)
Definition firstk_fuel : nat := 64.

Definition firstk_body {S} (n : Z) (x : Z * Z) : M S (Z * Z + Z) :=
  let k := fst x in let size := snd x in
  if size <? n then ret (inl (i32 (k + 1), u64 (size * 2))) else ret (inr k).

Definition firstk {S} (n : Z) : M S Z := loop firstk_fuel (firstk_body n) (0, LEAF_SIZE).

Definition blk_index (s : bd) (k p : Z) : Z :=
  let n := i32 (p - bd_base s) in
  i32 (Z.quot n (BLK_SIZE k)).

Definition addr (s : bd) (k bi : Z) : Z :=
  let n := i32 (bi * BLK_SIZE k) in
  bd_base s + n.

Definition blk_index_next (s : bd) (k p : Z) : Z :=
  let n := i32 (Z.quot (p - bd_base s) (BLK_SIZE k)) in
  if negb (Z.rem (p - bd_base s) (BLK_SIZE k) =? 0) then i32 (n + 1) else n.

Definition log2_body {S} (x : Z * Z) : M S (Z * Z + Z) :=
  let k := fst x in let n := snd x in
  if 1 <? n then ret (inl (i32 (k + 1), Z.shiftr n 1)) else ret (inr k).

Definition log2 {S} (n : Z) : M S Z := loop 65 log2_body (0, n).

Definition buddy_of (bi : Z) : Z := if Z.rem bi 2 =? 0 then bi + 1 else bi - 1.

(** ** Allocation *)

(** [for (k = fk; k < nsizes; k++) if (!lst_empty(...)) break;] *)
Definition find_free (fk : Z) : M bd Z :=
  s <- get ;;
  loop (Z.to_nat (nsizes s - fk) + 1) (fun k =>
    if k <? nsizes s then
      e <- free_empty k ;; ret (if e then inl (k + 1) else inr k)
    else ret (inr k)) fk.

(** The splitting loop, entered with a block [p] of size [k]. *)
Definition split_loop (fk p k : Z) : M bd unit :=
  s0 <- get ;;
  loop (Z.to_nat (k - fk) + 1) (fun k =>
    if fk <? k then
      s <- get ;;
      let q := p + BLK_SIZE (k - 1) in
      split_set k (blk_index s k p) ;;;
      alloc_invert (k - 1) (Z.quot (blk_index s (k - 1) p) 2) ;;;
      free_push (k - 1) q ;;;
      ret (inl (k - 1))
    else ret (inr tt)) k.

Definition bd_malloc (nbytes : Z) : M bd Z :=
  acquire_bd ;;;
  fk <- firstk nbytes ;;
  k <- find_free fk ;;
  s <- get ;;
  if nsizes s <=? k then
    release_bd ;;; ret 0
  else
    p <- free_pop k ;;
    s <- get ;;
    alloc_invert k (Z.quot (blk_index s k p) 2) ;;;
    split_loop fk p k ;;;
    release_bd ;;;
    ret p.

Definition size (p : Z) : M bd Z :=
  s <- get ;;
  loop (Z.to_nat (nsizes s) + 1) (fun k =>
    if k <? nsizes s then
      b <- split_isset (k + 1) (blk_index s (k + 1) p) ;;
      ret (if (b : bool) then inr k else inl (k + 1))
    else ret (inr 0)) 0.

(** The merging loop of [bd_free]; it ends with the block to put on a free
    list and its size. *)
Definition merge_loop (p k : Z) : M bd (Z * Z) :=
  s0 <- get ;;
  loop (Z.to_nat (MAXSIZE s0 - k) + 1) (fun x =>
    let p := fst x in let k := snd x in
    s <- get ;;
    if k <? MAXSIZE s then
      let bi := blk_index s k p in
      let buddy := buddy_of bi in
      alloc_invert k (Z.quot buddy 2) ;;;
      b <- alloc_isset k (Z.quot buddy 2) ;;
      if (b : bool) then ret (inr (p, k))
      else
        let q := addr s k buddy in
        modify (fun s => set_heap (lst_remove q (heap s)) s) ;;;
        let p := if Z.rem buddy 2 =? 0 then q else p in
        split_clear (k + 1) (blk_index s (k + 1) p) ;;;
        ret (inl (p, k + 1))
    else ret (inr (p, k))) (p, k).

Definition bd_free (p : Z) : M bd unit :=
  acquire_bd ;;;
  k <- size p ;;
  pk <- merge_loop p k ;;
  free_push (snd pk) (fst pk) ;;;
  release_bd.

(** ** Initialisation *)

Definition bd_mark (start stop : Z) : M bd unit :=
  when (negb (start mod LEAF_SIZE =? 0) || negb (stop mod LEAF_SIZE =? 0)) (panic "bd_mark") ;;;
  s <- get ;;
  for_range 0 (nsizes s) (fun k =>
    for_range (blk_index s k start) (blk_index_next s k stop) (fun bi =>
      when (0 <? k) (split_set k bi) ;;;
      alloc_invert k (Z.quot bi 2))).

Definition bd_initfree_pair (k bi : Z) (is_right : bool) : M bd Z :=
  s <- get ;;
  let buddy := buddy_of bi in
  b <- alloc_isset k (Z.quot bi 2) ;;
  if (b : bool) then
    free_push k (if is_right then addr s k buddy else addr s k bi) ;;;
    ret (i32 (BLK_SIZE k))
  else ret 0.

Definition bd_initfree (bd_left bd_right : Z) : M bd Z :=
  s <- get ;;
  loop (Z.to_nat (MAXSIZE s) + 1) (fun x =>
    let k := fst x in let free := snd x in
    if k <? MAXSIZE s then
      let left := blk_index_next s k bd_left in
      let right := blk_index s k bd_right in
      f1 <- bd_initfree_pair k left false ;;
      let free := i32 (free + f1) in
      if right <=? left then ret (inl (k + 1, free))
      else
        f2 <- bd_initfree_pair k right true ;;
        ret (inl (k + 1, i32 (free + f2)))
    else ret (inr free)) (0, 0).

Definition bd_mark_data_structures (p : Z) : M bd Z :=
  s <- get ;;
  let meta := i32 (p - bd_base s) in
  bd_mark (bd_base s) p ;;;
  ret meta.

Definition unavailable_of (s : bd) (end_ : Z) : Z :=
  let unavailable := i32 (BLK_SIZE (MAXSIZE s) - (end_ - bd_base s)) in
  if 0 <? unavailable then i32 (ROUNDUP unavailable LEAF_SIZE) else unavailable.

Definition bd_mark_unavailable (end_ left : Z) : M bd Z :=
  s <- get ;;
  let unavailable := unavailable_of s end_ in
  let bd_end := bd_base s + BLK_SIZE (MAXSIZE s) - unavailable in
  bd_mark bd_end (bd_base s + BLK_SIZE (MAXSIZE s)) ;;;
  ret unavailable.

Definition alloc_bytes (s : bd) (k : Z) : Z := Z.quot (ROUNDUP (NBLK s k) 16) 16.
Definition split_bytes (s : bd) (k : Z) : Z := Z.quot (ROUNDUP (NBLK s k) 8) 8.

Definition zeroes (n : Z) : list Z := replicate (Z.to_nat n) 0.

(** The number of sizes needed for [len] bytes. *)
Definition init_nsizes {S} (len : Z) : M S Z :=
  l <- log2 (u64 (Z.quot len LEAF_SIZE)) ;;
  let n := i32 (l + 1) in
  ret (if BLK_SIZE (n - 1) <? len then i32 (n + 1) else n).

(** The loop that carves the [alloc] arrays out of the memory at [p]. *)
Definition init_alloc (p : Z) : M bd Z :=
  s <- get ;;
  loop (Z.to_nat (nsizes s) + 1) (fun x =>
    let k := fst x in let p := snd x in
    if k <? nsizes s then
      modify (fun s => set_heap (lst_init (free_head s k) (heap s)) s) ;;;
      z <- get_sz k ;;
      put_sz k (mkSz (zeroes (alloc_bytes s k)) (split z)) ;;;
      ret (inl (k + 1, p + alloc_bytes s k))
    else ret (inr p)) (0, p).

(** The loop that carves the [split] arrays, from size 1 on. *)
Definition init_split (p : Z) : M bd Z :=
  s <- get ;;
  loop (Z.to_nat (nsizes s) + 1) (fun x =>
    let k := fst x in let p := snd x in
    if k <? nsizes s then
      z <- get_sz k ;;
      put_sz k (mkSz (alloc z) (zeroes (split_bytes s k))) ;;;
      ret (inl (k + 1, p + split_bytes s k))
    else ret (inr p)) (1, p).

(** [memset(bd_sizes, 0, len)] on the list words. *)
Definition memset0 (a len : Z) (h : mem) : mem :=
  fun x => if (a <=? x) && (x <? a + len) then 0 else h x.

Definition bd_init (base end_ : Z) : M bd unit :=
  let p := u64 (ROUNDUP base LEAF_SIZE) in
  n <- init_nsizes (end_ - p) ;;
  modify (fun s =>
    mkBd n p p (replicate (Z.to_nat n) (mkSz [] []))
         (memset0 p (sizeof_Sz_info * n) (heap s))
         (Seq.mkLockst (Seq.me (lock s)) initlock (Seq.hart (lock s)))) ;;;
  p <- init_alloc (p + sizeof_Sz_info * n) ;;
  p <- init_split p ;;
  let p := ROUNDUP p LEAF_SIZE in
  meta <- bd_mark_data_structures p ;;
  unavailable <- bd_mark_unavailable end_ p ;;
  s <- get ;;
  let bd_end := bd_base s + BLK_SIZE (MAXSIZE s) - unavailable in
  free <- bd_initfree p bd_end ;;
  if negb (free =? BLK_SIZE (MAXSIZE s) - meta - unavailable)
  then panic "bd_init: free mem"
  else ret tt.

(** ** kernel/kalloc.c *)

Definition PGSIZE : Z := 4096.
Definition PGROUNDUP (sz : Z) : Z := Z.land (u64 (sz + PGSIZE - 1)) (Z.lnot (PGSIZE - 1)).
Definition PHYSTOP : Z := 0x88000000.

(** [end_] is the linker's [end], the first address after the kernel. *)
Definition kinit (end_ : Z) : M bd unit := bd_init (PGROUNDUP end_) PHYSTOP.
Definition kfree (pa : Z) : M bd unit := bd_free pa.
Definition kalloc : M bd Z := bd_malloc PGSIZE.

Lemma PGROUNDUP_spec a : 0 <= a < 2 ^ 63 -> a <= PGROUNDUP a < a + 4096 /\ PGROUNDUP a mod 4096 = 0.
Proof.
  intros Ha. unfold PGROUNDUP, PGSIZE. rewrite u64_small by lia.
  change (Z.lnot (4096 - 1)) with (Z.lnot (Z.ones 12)). rewrite <- Z.ldiff_land.
  rewrite Z.ldiff_ones_r, Z.shiftr_div_pow2, Z.shiftl_mul_pow2 by lia.
  change (2 ^ 12) with 4096. split; [dlia|]. apply Z.mod_mul. lia.
Qed.
