(* ===== verification/BuddyInv.v ===== *)
(** * The allocator's data-structure invariant

    Every block (k, i) of the heap, the [i]-th block of size [k], has a
    status: part of a bigger block ([Absent]), on a free list, handed out,
    split in two, or (for blocks of the smallest size) reserved by [bd_init]
    for the allocator's own data or because it lies outside the memory.
    [inv] ties the [split] bits, the xor-of-the-pair [alloc] bits and the
    free lists to the statuses; the lemmas show that taking, splitting,
    giving back and merging a block keep it. *)

From S2P Require Import Prelude Spinlock LList Buddy.

Inductive status := Absent | Free | Alloc | Split | Meta.

#[export] Instance status_eq_dec : EqDecision status.
Proof. solve_decision. Defined.

Definition smap : Type := Z -> Z -> status.

Definition sset (st : smap) (k i : Z) (v : status) : smap :=
  fun k' i' => if (k' =? k) && (i' =? i) then v else st k' i'.

(** A block counts as used for the [alloc] bit of its pair when it is handed
    out, reserved, or split. *)
Definition used (v : status) : bool :=
  match v with Alloc | Split | Meta => true | Absent | Free => false end.
Definition is_split (v : status) : bool :=
  match v with Split => true | _ => false end.

(** ** Bit arrays *)

Definition bytes_ok (l : list Z) : Prop := Forall (fun b => 0 <= b < 256) l.

(** The bit at position [i], as the array's meaning. *)
Definition tb (l : list Z) (i : Z) : bool :=
  match aget l (i / 8) with Some b => Z.testbit b (i mod 8) | None => false end.

Lemma quot_rem_nonneg i m : 0 <= i -> 0 < m -> Z.quot i m = i / m /\ Z.rem i m = i mod m.
Proof. intros. split; [apply Z.quot_div_nonneg | apply Z.rem_mod_nonneg]; lia. Qed.

Lemma bit_mask i : 0 <= i -> u8 (Z.shiftl 1 (i mod 8)) = 2 ^ (i mod 8).
Proof.
  intros Hi. pose proof (Z.mod_pos_bound i 8). rewrite Z.shiftl_1_l.
  apply u8_small. split; [lia|]. apply Z.pow_lt_mono_r; lia.
Qed.

Lemma land_pow2_eqb b n : 0 <= n -> (Z.land b (2 ^ n) =? 2 ^ n) = Z.testbit b n.
Proof.
  intros Hn. destruct (Z.testbit b n) eqn:E.
  - apply Z.eqb_eq. apply Z.bits_inj'. intros m Hm. rewrite Z.land_spec, Z.pow2_bits_eqb by lia.
    destruct (n =? m) eqn:Em; bool_prop; subst; [by rewrite E | apply andb_false_r].
  - apply Z.eqb_neq. intros H. apply (f_equal (fun z => Z.testbit z n)) in H.
    rewrite Z.land_spec, Z.pow2_bits_true, E in H by lia. done.
Qed.

Lemma u8_testbit z m : 0 <= m < 8 -> Z.testbit (u8 z) m = Z.testbit z m.
Proof. intros H. unfold u8. apply Z.mod_pow2_bits_low. lia. Qed.

Lemma bit_isset_spec l i :
  0 <= i < 8 * Z.of_nat (length l) -> bit_isset l i = Some (tb l i).
Proof.
  intros Hi. unfold bit_isset, tb.
  destruct (quot_rem_nonneg i 8) as [-> ->]; [lia..|].
  destruct (aget_is_Some l (i / 8)) as [b Hb]; [dlia|].
  rewrite Hb, bit_mask by lia. simpl.
  rewrite land_pow2_eqb; [done|]. apply Z.mod_pos_bound. lia.
Qed.

(** The common shape of [bit_set], [bit_clear] and [bit_invert]: replace one
    byte by one that differs in one bit. *)
Lemma bit_write_spec l i (f : Z -> Z) (v : bool -> bool) :
  0 <= i < 8 * Z.of_nat (length l) ->
  (forall b m, 0 <= m < 8 ->
     Z.testbit (f b) m = if m =? i mod 8 then v (Z.testbit b m) else Z.testbit b m) ->
  exists l', (b ← aget l (i / 8); aset l (i / 8) (u8 (f b))) = Some l'
    /\ length l' = length l
    /\ (bytes_ok l -> bytes_ok l')
    /\ (forall j, 0 <= j -> tb l' j = if j =? i then v (tb l i) else tb l j).
Proof.
  intros Hi Hf. destruct (aget_is_Some l (i / 8)) as [b Hb]; [dlia|].
  rewrite Hb. simpl. rewrite aset_is_Some by dlia.
  eexists. split; [done|]. split; [apply length_insert|]. split.
  - intros H. apply Forall_insert; [done|]. apply u8_range.
  - intros j Hj. unfold tb. rewrite aget_insert by dlia.
    pose proof (Z.mod_pos_bound j 8). rewrite Hb.
    destruct (j / 8 =? i / 8) eqn:E1; bool_prop.
    + rewrite u8_testbit, Hf, E1, Hb by lia.
      destruct (j =? i) eqn:E2; bool_prop.
      * subst. by zcmp.
      * by rewrite (proj2 (Z.eqb_neq _ _)) by dlia.
    + assert (j <> i) by congruence. by zcmp.
Qed.

Lemma bit_set_spec l i :
  0 <= i < 8 * Z.of_nat (length l) ->
  exists l', bit_set l i = Some l' /\ length l' = length l /\ (bytes_ok l -> bytes_ok l')
    /\ (forall j, 0 <= j -> tb l' j = if j =? i then true else tb l j).
Proof.
  intros Hi. unfold bit_set. destruct (quot_rem_nonneg i 8) as [-> ->]; [lia..|].
  rewrite bit_mask by lia. apply (bit_write_spec l i _ (fun _ => true)); [done|].
  intros b m Hm. rewrite Z.lor_spec, Z.pow2_bits_eqb by (apply Z.mod_pos_bound; lia).
  rewrite (Z.eqb_sym m). by case_if; rewrite ?orb_true_r, ?orb_false_r.
Qed.

Lemma bit_clear_spec l i :
  0 <= i < 8 * Z.of_nat (length l) ->
  exists l', bit_clear l i = Some l' /\ length l' = length l /\ (bytes_ok l -> bytes_ok l')
    /\ (forall j, 0 <= j -> tb l' j = if j =? i then false else tb l j).
Proof.
  intros Hi. unfold bit_clear. destruct (quot_rem_nonneg i 8) as [-> ->]; [lia..|].
  rewrite bit_mask by lia. apply (bit_write_spec l i _ (fun _ => false)); [done|].
  intros b m Hm. rewrite Z.land_spec, Z.lnot_spec, Z.pow2_bits_eqb by (try apply Z.mod_pos_bound; lia).
  rewrite (Z.eqb_sym m). by case_if; rewrite ?andb_true_r, ?andb_false_r.
Qed.

Lemma bit_invert_spec l i :
  0 <= i < 8 * Z.of_nat (length l) ->
  exists l', bit_invert l i = Some l' /\ length l' = length l /\ (bytes_ok l -> bytes_ok l')
    /\ (forall j, 0 <= j -> tb l' j = if j =? i then negb (tb l i) else tb l j).
Proof.
  intros Hi. unfold bit_invert. destruct (quot_rem_nonneg i 8) as [-> ->]; [lia..|].
  rewrite bit_mask by lia. apply (bit_write_spec l i _ negb); [done|].
  intros b m Hm. rewrite Z.lxor_spec, Z.pow2_bits_eqb by (try apply Z.mod_pos_bound; lia).
  rewrite (Z.eqb_sym m). by case_if; rewrite ?xorb_true_r, ?xorb_false_r.
Qed.

(** ** The bit arrays of the allocator *)

Definition nb (s : bd) (k : Z) : Z := 2 ^ (MAXSIZE s - k).
Definition blk (k : Z) : Z := 16 * 2 ^ k.

(** The [alloc] bit of pair [j] of size [k], and the [split] bit of block [i]. *)
Definition AB (s : bd) (k j : Z) : bool :=
  match aget (szs s) k with Some z => tb (alloc z) j | None => false end.
Definition SB (s : bd) (k i : Z) : bool :=
  match aget (szs s) k with Some z => tb (split z) i | None => false end.

Record arrs_ok (s : bd) : Prop := {
  arrs_len : Z.of_nat (length (szs s)) = nsizes s;
  arrs_arr : forall k z, aget (szs s) k = Some z ->
    bytes_ok (alloc z) /\ bytes_ok (split z)
    /\ nb s k <= 16 * Z.of_nat (length (alloc z))
    /\ (1 <= k -> nb s k <= 8 * Z.of_nat (length (split z)))
}.

Lemma get_sz_wp s k (Q : sz_info -> bd -> Prop) :
  arrs_ok s -> 0 <= k < nsizes s ->
  (forall z, aget (szs s) k = Some z -> Q z s) -> wp (get_sz k) s Q.
Proof.
  intros H Hk HQ. unfold get_sz. wp_steps.
  destruct (aget_is_Some (szs s) k) as [z Hz]; [rewrite (arrs_len _ H); lia|].
  eapply wp_from_option; eauto.
Qed.

(** Replace the arrays of size [k] by well-formed arrays of the same length. *)
Lemma put_sz_wp s k z z' (Q : unit -> bd -> Prop) :
  arrs_ok s -> aget (szs s) k = Some z ->
  bytes_ok (alloc z') -> bytes_ok (split z') ->
  length (alloc z') = length (alloc z) -> length (split z') = length (split z) ->
  (forall l, arrs_ok (set_szs l s) ->
     (forall k', 0 <= k' -> aget l k' = if k' =? k then Some z' else aget (szs s) k') ->
     Q tt (set_szs l s)) ->
  wp (put_sz k z') s Q.
Proof.
  intros H Hz Ha Hs Hla Hls HQ. unfold put_sz. wp_steps.
  pose proof (aget_range _ _ _ Hz).
  eapply wp_from_option; [by apply aset_is_Some|]. wp_steps. apply HQ.
  - destruct H as [Hlen Harr]. constructor; simpl; [by rewrite length_insert|].
    intros k' z0 Hk'. pose proof (aget_range _ _ _ Hk').
    rewrite aget_insert in Hk' by lia. unfold nb, MAXSIZE; simpl.
    case_if_in Hk'; [|by apply Harr]. injection Hk' as <-. subst.
    rewrite Hla, Hls. by apply Harr in Hz as (? & ? & ? & ?).
  - intros k' Hk'. by rewrite aget_insert by lia.
Qed.

Lemma AB_neg s k j : k < 0 -> AB s k j = false.
Proof. intros H. unfold AB, aget. by zcmp. Qed.
Lemma SB_neg s k j : k < 0 -> SB s k j = false.
Proof. intros H. unfold SB, aget. by zcmp. Qed.

(** Read [AB]/[SB] of an updated array. *)
Lemma AB_set_szs s l k z z' k' j :
  aget (szs s) k = Some z ->
  (forall k', 0 <= k' -> aget l k' = if k' =? k then Some z' else aget (szs s) k') ->
  AB (set_szs l s) k' j = (if k' =? k then tb (alloc z') j else AB s k' j)
  /\ SB (set_szs l s) k' j = (if k' =? k then tb (split z') j else SB s k' j).
Proof.
  intros Hz Hl. pose proof (aget_range _ _ _ Hz).
  destruct (Z.lt_ge_cases k' 0).
  - rewrite !AB_neg, !SB_neg by done. by zcmp.
  - unfold AB, SB. simpl. rewrite Hl by done. by case_if.
Qed.

Lemma alloc_invert_wp s k j (Q : unit -> bd -> Prop) :
  arrs_ok s -> 0 <= k < nsizes s -> 0 <= j -> 2 * j < nb s k ->
  (forall l, arrs_ok (set_szs l s) ->
     (forall k' j', 0 <= j' -> AB (set_szs l s) k' j'
        = if (k' =? k) && (j' =? j) then negb (AB s k j) else AB s k' j') ->
     (forall k' i, SB (set_szs l s) k' i = SB s k' i) -> Q tt (set_szs l s)) ->
  wp (alloc_invert k j) s Q.
Proof.
  intros H Hk Hj Hnb HQ. unfold alloc_invert. wp_step.
  apply get_sz_wp; [done..|]. intros z Hz.
  destruct (arrs_arr _ H _ _ Hz) as (Hba & Hbs & Hla & _).
  destruct (bit_invert_spec (alloc z) j) as (a & Ha & Hlen & Hok & Hbit); [lia|].
  wp_step. eapply wp_from_option; [exact Ha|].
  eapply put_sz_wp; eauto. intros l Hl Hget.
  pose proof (fun k' j' => AB_set_szs s l k z (mkSz a (split z)) k' j' Hz Hget) as HB.
  apply HQ; [done| |]; intros k' j'.
  - intros Hj'. rewrite (proj1 (HB k' j')). simpl. destruct (k' =? k) eqn:E; bool_prop; [|done].
    subst. simpl. rewrite Hbit by done. unfold AB. by rewrite Hz.
  - rewrite (proj2 (HB k' j')). simpl. case_if; [|done]. subst. unfold SB. by rewrite Hz.
Qed.

Lemma split_write_wp s k i (f : list Z -> Z -> option (list Z)) (v : bool) msg (Q : unit -> bd -> Prop) :
  (forall l i, 0 <= i < 8 * Z.of_nat (length l) ->
    exists l', f l i = Some l' /\ length l' = length l /\ (bytes_ok l -> bytes_ok l')
      /\ (forall j, 0 <= j -> tb l' j = if j =? i then v else tb l j)) ->
  arrs_ok s -> 1 <= k < nsizes s -> 0 <= i < nb s k ->
  (forall l, arrs_ok (set_szs l s) ->
     (forall k' j', AB (set_szs l s) k' j' = AB s k' j') ->
     (forall k' i', 0 <= i' -> SB (set_szs l s) k' i'
        = if (k' =? k) && (i' =? i) then v else SB s k' i') -> Q tt (set_szs l s)) ->
  wp (z <- get_sz k ;; a <- from_option msg (f (split z) i) ;; put_sz k (mkSz (alloc z) a)) s Q.
Proof.
  intros Hf H Hk Hi HQ. wp_step.
  apply get_sz_wp; [done | lia |]. intros z Hz.
  destruct (arrs_arr _ H _ _ Hz) as (Hba & Hbs & _ & Hls).
  destruct (Hf (split z) i) as (a & Ha & Hlen & Hok & Hbit); [lia|].
  wp_step. eapply wp_from_option; [exact Ha|].
  eapply put_sz_wp; eauto. intros l Hl Hget.
  pose proof (fun k' j' => AB_set_szs s l k z (mkSz (alloc z) a) k' j' Hz Hget) as HB.
  apply HQ; [done| |]; intros k' j'.
  - rewrite (proj1 (HB k' j')). simpl. case_if; [|done]. subst. unfold AB. by rewrite Hz.
  - intros Hj'. rewrite (proj2 (HB k' j')). simpl. destruct (k' =? k) eqn:E; bool_prop; [|done].
    subst. simpl. rewrite Hbit by done. unfold SB. by rewrite Hz.
Qed.

Lemma alloc_isset_wp s k j (Q : bool -> bd -> Prop) :
  arrs_ok s -> 0 <= k < nsizes s -> 0 <= j -> 2 * j < nb s k ->
  Q (AB s k j) s -> wp (alloc_isset k j) s Q.
Proof.
  intros H Hk Hj Hnb HQ. unfold alloc_isset. wp_step.
  apply get_sz_wp; [done..|]. intros z Hz.
  destruct (arrs_arr _ H _ _ Hz) as (_ & _ & Hla & _).
  eapply wp_from_option; [apply bit_isset_spec; lia|]. unfold AB in HQ. by rewrite Hz in HQ.
Qed.

Lemma split_isset_wp s k i (Q : bool -> bd -> Prop) :
  arrs_ok s -> 1 <= k < nsizes s -> 0 <= i < nb s k ->
  Q (SB s k i) s -> wp (split_isset k i) s Q.
Proof.
  intros H Hk Hi HQ. unfold split_isset. wp_step.
  apply get_sz_wp; [done | lia |]. intros z Hz.
  destruct (arrs_arr _ H _ _ Hz) as (_ & _ & _ & Hls).
  eapply wp_from_option; [apply bit_isset_spec; lia|]. unfold SB in HQ. by rewrite Hz in HQ.
Qed.

(** ** Block arithmetic *)

Lemma BLK_SIZE_blk k : BLK_SIZE k = blk k.
Proof. unfold BLK_SIZE, blk, LEAF_SIZE. rewrite Z.shiftl_1_l. lia. Qed.

Lemma blk_pos k : 0 <= k -> 16 <= blk k.
Proof. intros H. unfold blk. pose proof (Z.pow_pos_nonneg 2 k). lia. Qed.

Lemma blk_succ k : 0 <= k -> blk (k + 1) = 2 * blk k.
Proof. intros H. unfold blk. rewrite Z.pow_add_r; lia. Qed.

Lemma nb_pos s k : k <= MAXSIZE s -> 0 < nb s k.
Proof. intros H. unfold nb. apply Z.pow_pos_nonneg; lia. Qed.

Lemma nb_succ s k : k < MAXSIZE s -> nb s k = 2 * nb s (k + 1).
Proof.
  intros H. unfold nb. replace (MAXSIZE s - k) with (MAXSIZE s - (k + 1) + 1) by lia.
  rewrite Z.pow_add_r; lia.
Qed.

Lemma nb_blk s k : 0 <= k <= MAXSIZE s -> nb s k * blk k = blk (MAXSIZE s).
Proof.
  intros H. unfold nb, blk. replace (MAXSIZE s) with (MAXSIZE s - k + k) at 2 by lia.
  rewrite Z.pow_add_r; lia.
Qed.

Lemma blk_bound k : 0 <= k <= 26 -> blk k <= 2 ^ 30.
Proof. intros H. unfold blk. pose proof (Z.pow_le_mono_r 2 k 26). lia. Qed.

(** An offset inside the heap fits a C [int]. *)
Lemma off_bound s k i :
  0 <= k <= MAXSIZE s -> MAXSIZE s <= 26 -> 0 <= i < nb s k ->
  0 <= i * blk k /\ i * blk k + blk k <= blk (MAXSIZE s) /\ blk (MAXSIZE s) <= 2 ^ 30.
Proof.
  intros Hk HM Hi. pose proof (nb_blk s k Hk). pose proof (blk_pos k).
  pose proof (blk_bound (MAXSIZE s)). nia.
Qed.

Definition baddr (s : bd) (k i : Z) : Z := bd_base s + i * blk k.

Lemma addr_baddr s k i :
  0 <= k <= MAXSIZE s -> MAXSIZE s <= 26 -> 0 <= i < nb s k -> addr s k i = baddr s k i.
Proof.
  intros Hk HM Hi. destruct (off_bound s k i) as (? & ? & ?); [done..|].
  unfold addr, baddr. rewrite BLK_SIZE_blk. pose proof (blk_pos k). by rewrite i32_small by lia.
Qed.

(** [blk_index] of an address of the heap is a division. *)
Lemma blk_index_div s k p :
  0 <= k <= MAXSIZE s -> MAXSIZE s <= 26 -> bd_base s <= p <= bd_base s + blk (MAXSIZE s) ->
  blk_index s k p = (p - bd_base s) / blk k.
Proof.
  intros Hk HM Hp. unfold blk_index. rewrite BLK_SIZE_blk.
  pose proof (blk_pos k). pose proof (blk_bound (MAXSIZE s)).
  rewrite (i32_small (p - bd_base s)) by lia.
  rewrite Z.quot_div_nonneg by lia. apply i32_small.
  assert (0 <= (p - bd_base s) / blk k <= p - bd_base s); [|lia].
  split; [apply Z.div_pos; lia|]. apply Z.div_le_upper_bound; nia.
Qed.

Lemma blk_index_baddr s k i :
  0 <= k <= MAXSIZE s -> MAXSIZE s <= 26 -> 0 <= i < nb s k ->
  blk_index s k (baddr s k i) = i.
Proof.
  intros Hk HM Hi. destruct (off_bound s k i) as (? & ? & ?); [done..|].
  pose proof (blk_pos k).
  rewrite blk_index_div by (unfold baddr; lia). unfold baddr.
  replace (bd_base s + i * blk k - bd_base s) with (i * blk k) by lia.
  apply Z.div_mul. lia.
Qed.

Lemma blk_index_up s k i :
  0 <= k < MAXSIZE s -> MAXSIZE s <= 26 -> 0 <= i < nb s k ->
  blk_index s (k + 1) (baddr s k i) = i / 2.
Proof.
  intros Hk HM Hi. destruct (off_bound s k i) as (? & ? & ?); [lia..|].
  pose proof (blk_pos k).
  rewrite blk_index_div by (unfold baddr; lia). unfold baddr.
  replace (bd_base s + i * blk k - bd_base s) with (i * blk k) by lia.
  rewrite blk_succ by lia. apply Z.div_mul_cancel_r; lia.
Qed.

Lemma baddr_left s k i : 0 <= k -> baddr s k (2 * i) = baddr s (k + 1) i.
Proof. intros H. unfold baddr. rewrite blk_succ by lia. lia. Qed.

Lemma baddr_aligned s k i : 0 <= k -> aligned (bd_base s) -> aligned (baddr s k i).
Proof.
  unfold aligned, baddr, blk. intros Hk Ha.
  replace (bd_base s + i * (16 * 2 ^ k)) with (bd_base s + (i * 2 ^ k) * 16) by lia.
  by rewrite Z_mod_plus_full.
Qed.

Lemma buddy_of_spec i : 0 <= i ->
  Z.quot (buddy_of i) 2 = i / 2 /\ 0 <= buddy_of i
  /\ ((i mod 2 = 0 /\ buddy_of i = i + 1) \/ (i mod 2 = 1 /\ buddy_of i = i - 1)).
Proof.
  intros Hi. unfold buddy_of. destruct (quot_rem_nonneg i 2) as [_ ->]; [lia..|].
  case_if; rewrite Z.quot_div_nonneg by dlia; dlia.
Qed.

(** ** The invariant *)

(** The statuses form a tree: a block exists exactly when the block it is
    half of is split. *)
Record tree_ok (top : Z) (st : smap) : Prop := {
  t_range : forall k i, st k i <> Absent -> 0 <= k <= top /\ 0 <= i < 2 ^ (top - k);
  t_up : forall k i, 0 <= k < top -> (st k i <> Absent <-> st (k + 1) (i / 2) = Split);
  t_leaf : forall i, st 0 i <> Split;
  t_meta : forall k i, st k i = Meta -> k = 0;
  t_root : st top 0 <> Absent
}.

(** No two free blocks that form a pair: they would have been merged. *)
Definition coalesced (top : Z) (st : smap) : Prop :=
  forall k j, 0 <= k < top -> ~ (st k (2 * j) = Free /\ st k (2 * j + 1) = Free).

Definition bits_ok (s : bd) (st : smap) : Prop :=
  (forall k i, 1 <= k <= MAXSIZE s -> 0 <= i < nb s k -> SB s k i = is_split (st k i))
  /\ (forall k j, 0 <= k < MAXSIZE s -> 0 <= j -> 2 * j < nb s k ->
        AB s k j = xorb (used (st k (2 * j))) (used (st k (2 * j + 1)))).

Record lists_ok (s : bd) (st : smap) (F : Z -> list Z) : Prop := {
  l_dll : forall k, 0 <= k <= MAXSIZE s -> dll (heap s) (free_head s k) (F k);
  l_free : forall k, 0 <= k <= MAXSIZE s ->
    forall a, a ∈ F k <-> exists i, a = baddr s k i /\ st k i = Free
}.

(** The constants fixed by [bd_init]. *)
Record conf_ok (s : bd) (st : smap) : Prop := {
  c_max : 1 <= MAXSIZE s <= 26;
  c_base : 0 < bd_base s;
  c_align : aligned (bd_base s);
  c_sizes : bd_sizes s = bd_base s;
  c_heads : forall j, 0 <= j <= MAXSIZE s -> st 0 (2 * j) = Meta
}.

(** The part of the invariant that does not mention the bits. *)
Record core (s : bd) (st : smap) (F : Z -> list Z) : Prop := {
  co_conf : conf_ok s st;
  co_tree : tree_ok (MAXSIZE s) st;
  co_lists : lists_ok s st F
}.

Record inv (s : bd) (st : smap) (F : Z -> list Z) : Prop := {
  i_conf : conf_ok s st;
  i_arrs : arrs_ok s;
  i_tree : tree_ok (MAXSIZE s) st;
  i_bits : bits_ok s st;
  i_lists : lists_ok s st F;
  i_coal : coalesced (MAXSIZE s) st
}.

Lemma inv_core s st F : inv s st F -> core s st F.
Proof. intros [? ? ? ? ? ?]. by constructor. Qed.

Coercion inv_core : inv >-> core.

(** ** Consequences of the tree structure *)

Section Tree.
  Context (top : Z) (st : smap) (T : tree_ok top st).

(** Every block that contains an existing block is split. *)
Lemma ancestor_split (d : nat) k i :
  st k i <> Absent -> k + Z.of_nat d < top -> st (k + Z.of_nat d + 1) (i / 2 ^ (Z.of_nat d + 1)) = Split.
Proof.
  intros Hk Hd. destruct (t_range _ _ T k i Hk) as [Hk0 _].
  induction d as [|d IH].
  - replace (k + Z.of_nat 0 + 1) with (k + 1) by lia.
    change (2 ^ (Z.of_nat 0 + 1)) with 2. apply (t_up _ _ T); [lia | done].
  - assert (st (k + Z.of_nat d + 1) (i / 2 ^ (Z.of_nat d + 1)) = Split) as E by (apply IH; lia).
    replace (k + Z.of_nat (S d) + 1) with (k + Z.of_nat d + 1 + 1) by lia.
    replace (2 ^ (Z.of_nat (S d) + 1)) with (2 ^ (Z.of_nat d + 1) * 2)
      by (replace (Z.of_nat (S d) + 1) with (Z.of_nat d + 1 + 1) by lia; rewrite (Z.pow_add_r 2 (Z.of_nat d + 1) 1); lia).
    rewrite <- Z.div_div by (try apply Z.pow_nonzero; lia).
    apply (t_up _ _ T); [lia|]. by rewrite E.
Qed.

Lemma ancestor_split_z k k' i :
  st k i <> Absent -> k < k' <= top -> st k' (i / 2 ^ (k' - k)) = Split.
Proof.
  intros H Hk. pose proof (ancestor_split (Z.to_nat (k' - k - 1)) k i H) as E.
  replace (k + Z.of_nat (Z.to_nat (k' - k - 1)) + 1) with k' in E by lia.
  replace (Z.of_nat (Z.to_nat (k' - k - 1)) + 1) with (k' - k) in E by lia.
  apply E. lia.
Qed.

(** Blocks that exist and are not split do not overlap. *)
Lemma leaves_disjoint k i k' i' :
  st k i <> Absent -> st k' i' <> Absent -> st k i <> Split -> st k' i' <> Split ->
  (k, i) <> (k', i') ->
  i * blk k + blk k <= i' * blk k' \/ i' * blk k' + blk k' <= i * blk k.
Proof.
  assert (forall k i k' i', st k i <> Absent -> st k' i' <> Absent -> st k' i' <> Split ->
    k < k' -> i * blk k + blk k <= i' * blk k' \/ i' * blk k' + blk k' <= i * blk k) as Hlt.
  { clear k i k' i'. intros k i k' i' H H' Hs Hkk.
    destruct (t_range _ _ T k i H) as [Hk Hi]. destruct (t_range _ _ T k' i' H') as [Hk' Hi'].
    assert (i / 2 ^ (k' - k) <> i') as Hne
      by (intros <-; apply Hs; apply ancestor_split_z; [done | lia]).
    assert (blk k' = blk k * 2 ^ (k' - k)) as Hb.
    { unfold blk. replace k' with (k + (k' - k)) at 1 by lia. rewrite Z.pow_add_r; lia. }
    pose proof (blk_pos k). set (c := 2 ^ (k' - k)) in *.
    assert (0 < c) by (apply Z.pow_pos_nonneg; lia).
    pose proof (Z.div_mod i c). pose proof (Z.mod_pos_bound i c).
    rewrite Hb. set (q := i / c) in *.
    assert (q < i' \/ i' < q) as [Hq|Hq] by lia.
    - left. assert (i + 1 <= i' * c) by nia. nia.
    - right. assert (i' * c + c <= i) by nia. nia. }
  intros H H' Hs Hs' Hne.
  destruct (Z.lt_trichotomy k k') as [Hk|[Hk|Hk]].
  - by apply Hlt.
  - subst k'. assert (i <> i') by congruence.
    pose proof (blk_pos k). destruct (t_range _ _ T k i H). nia.
  - destruct (Hlt k' i' k i); auto.
Qed.

End Tree.

Section Inv.
  Context (s : bd) (st : smap) (F : Z -> list Z) (H : core s st F).

Lemma inv_range k i : st k i <> Absent -> 0 <= k <= MAXSIZE s /\ 0 <= i < nb s k.
Proof. apply (t_range _ _ (co_tree _ _ _ H)). Qed.

Lemma inv_max : 1 <= MAXSIZE s <= 26.
Proof. apply (c_max _ _ (co_conf _ _ _ H)). Qed.

(** Two unsplit blocks at one address are the same block. *)
Lemma baddr_inj k i k' i' :
  st k i <> Absent -> st k' i' <> Absent -> st k i <> Split -> st k' i' <> Split ->
  baddr s k i = baddr s k' i' -> k = k' /\ i = i'.
Proof.
  intros Hk Hk' Hs Hs' E. destruct (decide ((k, i) = (k', i'))) as [D|D]; [by inversion D|].
  destruct (inv_range _ _ Hk) as [? _]. destruct (inv_range _ _ Hk') as [? _].
  pose proof (blk_pos k). pose proof (blk_pos k'). unfold baddr in E.
  destruct (leaves_disjoint _ _ (co_tree _ _ _ H) k i k' i' Hk Hk' Hs Hs' D); lia.
Qed.

(** The list heads are not inside free or handed-out blocks. *)
Lemma head_not_block k i j :
  st k i = Free \/ st k i = Alloc -> 0 <= j <= MAXSIZE s -> baddr s k i <> free_head s j.
Proof.
  intros Hst Hj E. pose proof (c_heads _ _ (co_conf _ _ _ H) j Hj) as Hm.
  assert (free_head s j = baddr s 0 (2 * j)) as E'.
  { unfold free_head, baddr, blk, sizeof_Sz_info. rewrite (c_sizes _ _ (co_conf _ _ _ H)).
    change (2 ^ 0) with 1. lia. }
  rewrite E' in E. apply baddr_inj in E as [-> ->]; [|destruct Hst; congruence..].
  destruct Hst; congruence.
Qed.

Lemma head_inj k k' : free_head s k = free_head s k' -> k = k'.
Proof. unfold free_head, sizeof_Sz_info. lia. Qed.

Lemma head_aligned k : aligned (free_head s k).
Proof.
  pose proof (c_align _ _ (co_conf _ _ _ H)). unfold aligned, free_head, sizeof_Sz_info in *.
  rewrite (c_sizes _ _ (co_conf _ _ _ H)).
  replace (bd_base s + 32 * k) with (bd_base s + (2 * k) * 16) by lia.
  by rewrite Z_mod_plus_full.
Qed.

(** The nodes of different free lists are different. *)
Lemma lists_disjoint k k' a :
  0 <= k <= MAXSIZE s -> 0 <= k' <= MAXSIZE s -> k <> k' ->
  a ∈ free_head s k :: F k -> a ∉ free_head s k' :: F k'.
Proof.
  intros Hk Hk' Hne Ha Ha'.
  pose proof (l_free _ _ _ (co_lists _ _ _ H)) as Hf.
  apply elem_of_cons in Ha as [->|Ha], Ha' as [E|Ha'].
  - by apply head_inj in E.
  - apply Hf in Ha' as (i & E & Hst); [|done]. by apply (head_not_block k' i k); [left| |].
  - subst. apply Hf in Ha as (i & E & Hst); [|done]. by apply (head_not_block k i k'); [left| |].
  - apply Hf in Ha as (i & -> & Hst); [|done]. apply Hf in Ha' as (i' & E & Hst'); [|done].
    apply baddr_inj in E as [? _]; congruence.
Qed.

(** Only the words of list [k] and of node [p] changed: the other lists are
    what they were. *)
Lemma other_lists_frame h' k k' ns :
  only_nodes ns (heap s) h' -> Forall aligned ns ->
  0 <= k <= MAXSIZE s -> 0 <= k' <= MAXSIZE s -> k' <> k ->
  (forall n, n ∈ ns -> n ∈ free_head s k :: F k \/ n ∉ free_head s k' :: F k') ->
  dll h' (free_head s k') (F k').
Proof.
  intros Ho Ha Hk Hk' Hne Hns.
  apply (only_nodes_frame ns (heap s)); [done | done | |apply (l_dll _ _ _ (co_lists _ _ _ H)); lia].
  intros n Hn. destruct (Hns n Hn) as [Hin|Hout]; [|done]. by apply (lists_disjoint k).
Qed.

End Inv.

(** ** Changing statuses *)

Lemma sset_eq st k i v : sset st k i v k i = v.
Proof. unfold sset. by zcmp. Qed.

Lemma sset_ne st k i v k' i' : (k' <> k \/ i' <> i) -> sset st k i v k' i' = st k' i'.
Proof. intros Hne. unfold sset. destruct Hne; zcmp; rewrite ?andb_false_r; done. Qed.

Lemma sset_cases st k i v k' i' :
  (k' = k /\ i' = i /\ sset st k i v k' i' = v)
  \/ ((k' <> k \/ i' <> i) /\ sset st k i v k' i' = st k' i').
Proof.
  destruct (decide (k' = k)) as [->|]; [destruct (decide (i' = i)) as [->|]|].
  - left. by rewrite sset_eq.
  - right. split; [by right|]. apply sset_ne. by right.
  - right. split; [by left|]. apply sset_ne. by left.
Qed.

Ltac sset_split :=
  repeat match goal with
  | |- context [ sset ?st ?k ?i ?v ?k' ?i' ] =>
      let E := fresh "E" in
      destruct (sset_cases st k i v k' i') as [(?Ek & ?Ei & E)|[?En E]]; rewrite E in *; clear E
  | H : context [ sset ?st ?k ?i ?v ?k' ?i' ] |- _ =>
      let E := fresh "E" in
      destruct (sset_cases st k i v k' i') as [(?Ek & ?Ei & E)|[?En E]]; rewrite E in *; clear E
  end.

Section TreeSteps.
  Context (top : Z) (st : smap) (T : tree_ok top st).

(** Free a handed-out block or hand out a free one. *)
Lemma tree_relabel k i v :
  st k i = Free \/ st k i = Alloc -> v = Free \/ v = Alloc -> tree_ok top (sset st k i v).
Proof.
  intros Hst Hv. constructor.
  - intros k' i' Hk. sset_split; [|by apply (t_range _ _ T)]. subst.
    apply (t_range _ _ T). destruct Hst; congruence.
  - intros k' i' Hk. pose proof (t_up _ _ T k' i' Hk) as Hup.
    destruct Hup as [U1 U2].
    sset_split; subst; try (exfalso; lia); try (split; [exact U1 | exact U2]);
      split; intros Hx; try (destruct Hv; congruence).
    + apply U1. destruct Hst; congruence.
    + apply U1 in Hx. destruct Hst; congruence.
  - intros i'. pose proof (t_leaf _ _ T i'). sset_split; destruct Hv; congruence.
  - intros k' i'. pose proof (t_meta _ _ T k' i'). sset_split; destruct Hv; [congruence..|done|done].
  - pose proof (t_root _ _ T). sset_split; destruct Hv; congruence.
Qed.

Lemma child_exists k i : 0 <= k < top -> st (k + 1) i = Split -> st k (2 * i) <> Absent /\ st k (2 * i + 1) <> Absent.
Proof.
  intros Hk Hs. split; apply (t_up _ _ T); try lia.
  - by replace (2 * i / 2) with i by dlia.
  - by replace ((2 * i + 1) / 2) with i by dlia.
Qed.

Lemma child_absent k i : 0 <= k < top -> st (k + 1) i <> Split -> st k (2 * i) = Absent /\ st k (2 * i + 1) = Absent.
Proof.
  intros Hk Hs. split; apply dec_stable; intros E; apply Hs;
    apply (t_up _ _ T) in E; try lia.
  - by replace (2 * i / 2) with i in E by dlia.
  - by replace ((2 * i + 1) / 2) with i in E by dlia.
Qed.

(** The statuses after splitting block (k+1, i) and keeping its left half. *)
Definition st_split (k i : Z) : smap :=
  sset (sset (sset st (k + 1) i Split) k (2 * i) Alloc) k (2 * i + 1) Free.

Lemma tree_split k i :
  0 <= k < top -> st (k + 1) i = Alloc -> tree_ok top (st_split k i).
Proof.
  intros Hk Hst. unfold st_split.
  destruct (child_absent k i Hk) as [Hl Hr]; [congruence|].
  destruct (t_range _ _ T (k + 1) i) as [_ Hi]; [congruence|].
  assert (2 ^ (top - k) = 2 * 2 ^ (top - (k + 1))) as Hp.
  { replace (top - k) with (top - (k + 1) + 1) by lia. rewrite Z.pow_add_r; lia. }
  constructor.
  - intros k' i' Hk'. sset_split; subst; try (by apply (t_range _ _ T)); lia.
  - intros k' i' Hk'. pose proof (t_up _ _ T k' i' Hk') as Hup.
    destruct (decide (k' = k)) as [->|Hnk].
    + destruct (decide (i' / 2 = i)) as [Hd|Hd].
      * rewrite (sset_ne _ _ _ _ (k + 1)), (sset_ne _ _ _ _ (k + 1)) by lia.
        rewrite Hd, sset_eq. split; [done|]. intros _.
        assert (i' = 2 * i \/ i' = 2 * i + 1) as [-> | ->] by dlia.
        -- by rewrite sset_ne, sset_eq by lia.
        -- by rewrite sset_eq.
      * rewrite !sset_ne by (first [left; lia | right; dlia]). done.
    + rewrite (sset_ne _ k _ _ k'), (sset_ne _ k _ _ k') by lia.
      destruct (decide (k' = k - 1)) as [->|].
      * replace (k - 1 + 1) with k by lia. replace (k - 1 + 1) with k in Hup by lia.
        rewrite (sset_ne _ (k + 1)) by lia.
        destruct (decide (i' / 2 = 2 * i + 1)) as [E|E]; [rewrite E, sset_eq; rewrite E, Hr in Hup; naive_solver|].
        rewrite (sset_ne _ k (2 * i + 1)) by lia.
        destruct (decide (i' / 2 = 2 * i)) as [E2|E2]; [rewrite E2, sset_eq; rewrite E2, Hl in Hup; naive_solver|].
        by rewrite !sset_ne by lia.
      * rewrite !(sset_ne _ k _ _ (k' + 1)) by lia.
        rewrite (sset_ne _ (k + 1) _ _ (k' + 1)) by lia.
        destruct (decide (k' = k + 1)) as [->|]; [|by rewrite sset_ne by lia].
        destruct (decide (i' = i)) as [->|]; [rewrite sset_eq; rewrite Hst in Hup; naive_solver|].
        by rewrite sset_ne by lia.
  - intros i'. pose proof (t_leaf _ _ T i'). sset_split; subst; try done. lia.
  - intros k' i'. pose proof (t_meta _ _ T k' i'). sset_split; done.
  - pose proof (t_root _ _ T). sset_split; done.
Qed.

(** The statuses after merging the two halves of block (k+1, i). *)
Definition st_merge (k i : Z) : smap :=
  sset (sset (sset st (k + 1) i Alloc) k (2 * i) Absent) k (2 * i + 1) Absent.

Lemma tree_merge k i :
  0 <= k < top -> st (k + 1) i = Split ->
  st k (2 * i) = Free \/ st k (2 * i) = Alloc ->
  st k (2 * i + 1) = Free \/ st k (2 * i + 1) = Alloc ->
  tree_ok top (st_merge k i).
Proof.
  intros Hk Hst Hl Hr. unfold st_merge. constructor.
  - intros k' i' Hk'. sset_split; subst; try done; try (by apply (t_range _ _ T)).
    apply (t_range _ _ T). congruence.
  - intros k' i' Hk'. pose proof (t_up _ _ T k' i' Hk') as Hup.
    destruct (decide (k' = k)) as [->|Hnk].
    + destruct (decide (i' / 2 = i)) as [Hd|Hd].
      * rewrite (sset_ne _ _ _ _ (k + 1)), (sset_ne _ _ _ _ (k + 1)) by lia.
        rewrite Hd, sset_eq. split; [|done]. intros E. exfalso. apply E.
        assert (i' = 2 * i \/ i' = 2 * i + 1) as [-> | ->] by dlia.
        -- by rewrite sset_ne, sset_eq by lia.
        -- by rewrite sset_eq.
      * rewrite !sset_ne by (first [left; lia | right; dlia]). done.
    + rewrite (sset_ne _ k _ _ k'), (sset_ne _ k _ _ k') by lia.
      destruct (decide (k' = k - 1)) as [->|].
      * replace (k - 1 + 1) with k by lia. replace (k - 1 + 1) with k in Hup by lia.
        rewrite (sset_ne _ (k + 1)) by lia.
        destruct (decide (i' / 2 = 2 * i + 1)) as [E|E];
          [rewrite E, sset_eq; rewrite E in Hup; intuition congruence|].
        rewrite (sset_ne _ k (2 * i + 1)) by lia.
        destruct (decide (i' / 2 = 2 * i)) as [E2|E2];
          [rewrite E2, sset_eq; rewrite E2 in Hup; intuition congruence|].
        by rewrite !sset_ne by lia.
      * rewrite !(sset_ne _ k _ _ (k' + 1)) by lia.
        rewrite (sset_ne _ (k + 1) _ _ (k' + 1)) by lia.
        destruct (decide (k' = k + 1)) as [->|]; [|by rewrite sset_ne by lia].
        destruct (decide (i' = i)) as [->|]; [rewrite sset_eq; rewrite Hst in Hup; naive_solver|].
        by rewrite sset_ne by lia.
  - intros i'. pose proof (t_leaf _ _ T i'). sset_split; subst; done.
  - intros k' i'. pose proof (t_meta _ _ T k' i'). sset_split; done.
  - pose proof (t_root _ _ T). sset_split; subst; try done; lia.
Qed.

End TreeSteps.

(** ** Changing the state *)

Definition Fset (F : Z -> list Z) (k : Z) (l : list Z) : Z -> list Z :=
  fun k' => if k' =? k then l else F k'.

Lemma Fset_eq F k l : Fset F k l k = l.
Proof. unfold Fset. by zcmp. Qed.
Lemma Fset_ne F k l k' : k' <> k -> Fset F k l k' = F k'.
Proof. intros. unfold Fset. by zcmp. Qed.

Lemma conf_sset s s' st k i v :
  nsizes s' = nsizes s -> bd_sizes s' = bd_sizes s -> bd_base s' = bd_base s ->
  st k i <> Meta -> conf_ok s st -> conf_ok s' (sset st k i v).
Proof.
  intros Hn Hz Hb Hv [? ? ? ? Hh]. constructor; unfold MAXSIZE in *; rewrite ?Hn, ?Hz, ?Hb; auto.
  intros j Hj. rewrite sset_ne; [by apply Hh|].
  destruct (decide (k = 0)) as [->|]; [|lia]. right. intros <-. by apply Hv, Hh.
Qed.

(** Change the status of (k, i) between used and unused and flip the bit of
    its pair. *)
Lemma bits_flip s s' st k i v :
  bits_ok s st -> MAXSIZE s' = MAXSIZE s -> 0 <= i ->
  used v = negb (used (st k i)) -> is_split (st k i) = false -> is_split v = false ->
  (forall k' j, 0 <= j -> AB s' k' j = if (k' =? k) && (j =? i / 2) then negb (AB s k (i / 2)) else AB s k' j) ->
  (forall k' i', SB s' k' i' = SB s k' i') ->
  bits_ok s' (sset st k i v).
Proof.
  intros [HS HA] HM Hi Hu Hs1 Hs2 HAB HSB. unfold bits_ok, nb. rewrite HM. split.
  - intros k' i' Hk Hi'. rewrite HSB, HS by done. sset_split; subst; congruence.
  - intros k' j Hk Hj Hnb. rewrite HAB by done.
    destruct ((k' =? k) && (j =? i / 2)) eqn:E; bool_prop.
    + subst. rewrite HA by done. set (j := i / 2) in *.
      assert (i = 2 * j \/ i = 2 * j + 1) as [Hij|Hij] by (subst j; dlia); rewrite Hij in *.
      * rewrite sset_eq, sset_ne, Hu by lia. by destruct (used (st k (2 * j))), (used (st k (2 * j + 1))).
      * rewrite sset_eq, sset_ne, Hu by lia. by destruct (used (st k (2 * j))), (used (st k (2 * j + 1))).
    + rewrite HA by done. rewrite !sset_ne; [done| |];
        (destruct (decide (k' = k)) as [->|]; [right|by left]; intros <-; destruct E as [E|E]; bool_prop;
         [done | apply E; dlia]).
Qed.

Lemma sset_bits s st k i v :
  used v = used (st k i) -> is_split v = is_split (st k i) ->
  bits_ok s st -> bits_ok s (sset st k i v).
Proof.
  intros Hu Hs [HS HA]. split.
  - intros k' i' Hk Hi'. rewrite HS by done. sset_split; subst; congruence.
  - intros k' j Hk Hj Hnb. rewrite HA by done. sset_split; subst; congruence.
Qed.

Lemma coal_alloc top st k i : coalesced top st -> coalesced top (sset st k i Alloc).
Proof.
  intros C k' j Hk [H1 H2]. apply (C k' j Hk).
  sset_split; subst; try done.
Qed.

Section Steps.
  Context (s : bd) (st : smap) (F : Z -> list Z) (H : core s st F).

Lemma free_node k i : st k i = Free -> 0 <= k <= MAXSIZE s /\ 0 <= i < nb s k /\ baddr s k i ∈ F k.
Proof.
  intros E. destruct (inv_range _ _ _ H k i) as [Hk Hi]; [congruence|].
  split; [done|]. split; [done|]. apply (l_free _ _ _ (co_lists _ _ _ H)); eauto.
Qed.

(** Remove the node of a free block from its list and give it status [v]. *)
Lemma lists_remove k i v xs ys h' s' :
  st k i = Free -> v <> Free -> F k = xs ++ baddr s k i :: ys ->
  h' = lst_remove (baddr s k i) (heap s) -> heap s' = h' ->
  nsizes s' = nsizes s -> bd_sizes s' = bd_sizes s -> bd_base s' = bd_base s ->
  lists_ok s' (sset st k i v) (Fset F k (xs ++ ys)).
Proof.
  intros Hst Hv HF -> Hh Hn Hz Hb.
  destruct (free_node k i Hst) as (Hk & Hi & _).
  pose proof (l_dll _ _ _ (co_lists _ _ _ H)) as Hd. pose proof (l_free _ _ _ (co_lists _ _ _ H)) as Hf.
  pose proof (Hd k Hk) as Hdk. rewrite HF in Hdk.
  assert (forall k', free_head s' k' = free_head s k') as Hhd by (intros; unfold free_head; by rewrite Hz).
  assert (forall k' i', baddr s' k' i' = baddr s k' i') as Hba by (intros; unfold baddr; by rewrite Hb).
  assert (MAXSIZE s' = MAXSIZE s) as HM by (unfold MAXSIZE; by rewrite Hn).
  constructor; rewrite HM; intros k' Hk'.
  - rewrite Hh, Hhd. destruct (decide (k' = k)) as [->|Hne].
    + rewrite Fset_eq. by apply dll_remove.
    + rewrite Fset_ne by done.
      eapply (other_lists_frame _ _ _ H _ k); eauto using lst_remove_only.
      * pose proof (dll_aligned _ _ _ Hdk) as Ha. rewrite Forall_forall in Ha |- *.
        intros n Hin. apply Ha. clear -Hin. set_solver.
      * intros n Hin. left. rewrite HF. clear -Hin. set_solver.
  - intros a. setoid_rewrite Hba. destruct (decide (k' = k)) as [->|Hne].
    + rewrite Fset_eq. specialize (Hf k Hk a). rewrite HF in Hf.
      assert (baddr s k i ∉ xs ++ ys) as Hnin.
      { pose proof (dll_nodup _ _ _ Hdk) as [_ Hnd]%NoDup_cons.
        apply NoDup_app in Hnd as (_ & Hd1 & [Hd2 _]%NoDup_cons). intros [Hin|Hin]%elem_of_app; [|done].
        apply (Hd1 _ Hin). set_solver. }
      split.
      * intros Hin. assert (a ∈ xs ++ baddr s k i :: ys) as Hin' by (clear -Hin; set_solver).
        apply Hf in Hin' as (i' & -> & Hst'). exists i'. split; [done|].
        rewrite sset_ne; [done|]. right. by intros ->.
      * intros (i' & -> & Hst'). sset_split; [congruence|].
        assert (baddr s k i' ∈ xs ++ baddr s k i :: ys) as Hin by (apply Hf; eauto).
        apply elem_of_app in Hin as [Hin|[E|Hin]%elem_of_cons]; [set_solver| |set_solver].
        apply (baddr_inj _ _ _ H) in E; [lia|congruence..].
    + rewrite Fset_ne, Hf by done. f_equiv. intros i'. by rewrite sset_ne by lia.
Qed.

(** Push a block on its list, making it free. *)
Lemma lists_push k i h' s' :
  0 <= k <= MAXSIZE s -> st k i = Alloc ->
  h' = lst_push (free_head s k) (baddr s k i) (heap s) -> heap s' = h' ->
  nsizes s' = nsizes s -> bd_sizes s' = bd_sizes s -> bd_base s' = bd_base s ->
  lists_ok s' (sset st k i Free) (Fset F k (baddr s k i :: F k)).
Proof.
  intros Hk Hst -> Hh Hn Hz Hb.
  pose proof (l_dll _ _ _ (co_lists _ _ _ H)) as Hd. pose proof (l_free _ _ _ (co_lists _ _ _ H)) as Hf.
  pose proof (Hd k Hk) as Hdk.
  assert (forall k', free_head s' k' = free_head s k') as Hhd by (intros; unfold free_head; by rewrite Hz).
  assert (forall k' i', baddr s' k' i' = baddr s k' i') as Hba by (intros; unfold baddr; by rewrite Hb).
  assert (MAXSIZE s' = MAXSIZE s) as HM by (unfold MAXSIZE; by rewrite Hn).
  assert (aligned (baddr s k i)) as Hal
    by (apply baddr_aligned; [lia | apply (c_align _ _ (co_conf _ _ _ H))]).
  assert (forall k', 0 <= k' <= MAXSIZE s -> baddr s k i ∉ free_head s k' :: F k') as Hnew.
  { intros k' Hk' [E|Hin]%elem_of_cons; [by apply (head_not_block _ _ _ H k i k'); [right| |]|].
    apply Hf in Hin as (i' & E & Hst'); [|done]. apply (baddr_inj _ _ _ H) in E as [-> ->]; congruence. }
  constructor; rewrite HM; intros k' Hk'.
  - rewrite Hh, Hhd. destruct (decide (k' = k)) as [->|Hne].
    + rewrite Fset_eq. apply dll_push; auto.
    + rewrite Fset_ne by done.
      eapply (other_lists_frame _ _ _ H _ k); eauto using lst_push_only.
      * apply Forall_cons. split; [done|]. apply (dll_aligned _ _ _ Hdk).
      * intros n [->|Hin]%elem_of_cons; [right; by apply Hnew | by left].
  - intros a. setoid_rewrite Hba. destruct (decide (k' = k)) as [->|Hne].
    + rewrite Fset_eq, elem_of_cons, Hf by done. split.
      * intros [->|(i' & -> & Hst')]; [exists i; by rewrite sset_eq|].
        exists i'. split; [done|]. rewrite sset_ne; [done|]. right. congruence.
      * intros (i' & -> & Hst'). sset_split; [subst; by left|]. right. eauto.
    + rewrite Fset_ne, Hf by done. f_equiv. intros i'. by rewrite sset_ne by lia.
Qed.

End Steps.
