(* ===== verification/BuddyOps.v ===== *)
(** * bd_malloc and bd_free are correct

    Symbolic execution of the operations of Buddy.v under the invariant of
    BuddyInv.v: what [find_free], [split_loop], [size] and [merge_loop] do,
    and from them the specifications of [bd_malloc] and [bd_free]. *)

From S2P Require Import Prelude Spinlock LList Buddy BuddyInv.

(** ** Free memory, in bytes *)

Definition fbytes (top : Z) (F : Z -> list Z) : Z :=
  foldr (fun k acc => blk k * Z.of_nat (length (F k)) + acc) 0 (seqZ 0 (top + 1)).

Lemma fold_Fset (l : list Z) F k v :
  NoDup l ->
  foldr (fun k' acc => blk k' * Z.of_nat (length (Fset F k v k')) + acc) 0 l
  = foldr (fun k' acc => blk k' * Z.of_nat (length (F k')) + acc) 0 l
    + if bool_decide (k ∈ l) then blk k * (Z.of_nat (length v) - Z.of_nat (length (F k))) else 0.
Proof.
  induction 1 as [|x l Hx Hnd IH]; [done|]. simpl. rewrite IH.
  destruct (decide (x = k)) as [->|Hne].
  - rewrite Fset_eq, (bool_decide_false (k ∈ l)), bool_decide_true by set_solver. lia.
  - rewrite Fset_ne by done. case_bool_decide; [rewrite bool_decide_true by set_solver; lia|].
    rewrite bool_decide_false by set_solver. lia.
Qed.

Lemma fbytes_Fset top F k v :
  0 <= k <= top ->
  fbytes top (Fset F k v) = fbytes top F + blk k * (Z.of_nat (length v) - Z.of_nat (length (F k))).
Proof.
  intros Hk. unfold fbytes. rewrite fold_Fset by apply NoDup_seqZ.
  rewrite bool_decide_true; [done|]. apply elem_of_seqZ. lia.
Qed.

(** ** What an operation leaves alone *)

(** Same heap geometry. *)
Definition same_conf (s s' : bd) : Prop :=
  nsizes s' = nsizes s /\ bd_sizes s' = bd_sizes s /\ bd_base s' = bd_base s.

Lemma same_conf_refl s : same_conf s s.
Proof. done. Qed.

Lemma same_conf_trans s1 s2 s3 : same_conf s1 s2 -> same_conf s2 s3 -> same_conf s1 s3.
Proof. unfold same_conf. intuition congruence. Qed.

Lemma same_conf_baddr s s' k i : same_conf s s' -> baddr s' k i = baddr s k i.
Proof. intros (_ & _ & E). unfold baddr. by rewrite E. Qed.

Lemma same_conf_max s s' : same_conf s s' -> MAXSIZE s' = MAXSIZE s.
Proof. intros (E & _). unfold MAXSIZE. by rewrite E. Qed.

(** The blocks handed out. *)
Definition live (st : smap) (k i : Z) : Prop := st k i = Alloc.

(** The reserved blocks stay reserved. *)
Definition meta_kept (st st' : smap) : Prop := forall k i, st' k i = Meta <-> st k i = Meta.

Section Elementary.
  Context (s : bd) (st : smap) (F : Z -> list Z) (H : inv s st F).

(** Take a free block off its list. *)
Lemma inv_take k i xs ys s' :
  st k i = Free -> F k = xs ++ baddr s k i :: ys -> same_conf s s' ->
  heap s' = lst_remove (baddr s k i) (heap s) ->
  arrs_ok s' -> bits_ok s' (sset st k i Alloc) ->
  inv s' (sset st k i Alloc) (Fset F k (xs ++ ys)).
Proof.
  intros Hst HF Hc Hh Ha Hb. pose proof Hc as (Hn & Hz & Hbase). constructor; auto.
  - apply (conf_sset s); [done | done | done | congruence | apply (i_conf _ _ _ H)].
  - rewrite (same_conf_max _ _ Hc). apply tree_relabel; auto. apply (i_tree _ _ _ H).
  - eapply (lists_remove s st F H); eauto.
  - rewrite (same_conf_max _ _ Hc). apply coal_alloc, (i_coal _ _ _ H).
Qed.

(** Put a handed-out block on its list. *)
Lemma inv_give k i s' :
  0 <= k <= MAXSIZE s -> st k i = Alloc -> same_conf s s' ->
  (k < MAXSIZE s -> st k (buddy_of i) <> Free) ->
  heap s' = lst_push (free_head s k) (baddr s k i) (heap s) ->
  arrs_ok s' -> bits_ok s' (sset st k i Free) ->
  inv s' (sset st k i Free) (Fset F k (baddr s k i :: F k)).
Proof.
  intros Hk Hst Hc Hbd Hh Ha Hb. pose proof Hc as (Hn & Hz & Hbase). constructor; auto.
  - apply (conf_sset s); [done | done | done | congruence | apply (i_conf _ _ _ H)].
  - rewrite (same_conf_max _ _ Hc). apply tree_relabel; auto. apply (i_tree _ _ _ H).
  - eapply (lists_push s st F H); eauto.
  - rewrite (same_conf_max _ _ Hc). intros k' j Hk' [E1 E2].
    destruct (inv_range _ _ _ H k i) as [_ Hi]; [congruence|].
    destruct (buddy_of_spec i) as (_ & _ & Hbs); [lia|].
    pose proof (i_coal _ _ _ H k' j Hk') as C.
    sset_split; subst; try lia; [| |tauto].
    + destruct Hbs as [[Hm _]|[_ Hbs]]; [dlia|]. apply Hbd; [lia|]. rewrite Hbs.
      by replace (2 * j + 1 - 1) with (2 * j) by lia.
    + destruct Hbs as [[_ Hbs]|[Hm _]]; [|dlia]. apply Hbd; [lia|]. by rewrite Hbs.
Qed.

(** The statuses with block (k+1, i) cut into two handed-out halves. *)
Definition st_halves (k i : Z) : smap := sset (st_split st k i) k (2 * i + 1) Alloc.

Lemma st_halves_spec k i k' i' :
  st_halves k i k' i' =
    if (k' =? k + 1) && (i' =? i) then Split
    else if (k' =? k) && (i' / 2 =? i) then Alloc else st k' i'.
Proof.
  unfold st_halves, st_split, sset.
  destruct (k' =? k) eqn:Ek; bool_prop; subst.
  - replace (k =? k + 1) with false by (symmetry; apply Z.eqb_neq; lia). simpl.
    destruct (i' =? 2 * i + 1) eqn:E1; bool_prop;
      [by rewrite (proj2 (Z.eqb_eq _ _)) by (subst; dlia)|].
    destruct (i' =? 2 * i) eqn:E2; bool_prop;
      [by rewrite (proj2 (Z.eqb_eq _ _)) by (subst; dlia)|].
    by rewrite (proj2 (Z.eqb_neq _ _)) by dlia.
  - simpl. by destruct ((k' =? k + 1) && (i' =? i)).
Qed.

(** [split_set] on a handed-out block cuts it in two handed-out halves. *)
Lemma inv_split k i s' :
  0 <= k < MAXSIZE s -> st (k + 1) i = Alloc -> same_conf s s' -> heap s' = heap s ->
  arrs_ok s' ->
  (forall k' j', AB s' k' j' = AB s k' j') ->
  (forall k' i', 0 <= i' -> SB s' k' i' = if (k' =? k + 1) && (i' =? i) then true else SB s k' i') ->
  inv s' (st_halves k i) F.
Proof.
  intros Hk Hst Hc Hh Ha HAB HSB. pose proof Hc as (Hn & Hz & Hbase).
  pose proof (i_tree _ _ _ H) as T.
  destruct (child_absent _ _ T k i Hk) as [Hl Hr]; [congruence|].
  assert (forall k' i', k' = k -> i' / 2 = i -> st k' i' = Absent) as Hch.
  { intros k' i' -> <-. assert (i' = 2 * (i' / 2) \/ i' = 2 * (i' / 2) + 1) as [E|E] by dlia;
      rewrite E; done. }
  assert (forall k' i', st_halves k i k' i' = Free <-> st k' i' = Free) as Hfree.
  { intros k' i'. rewrite st_halves_spec. repeat case_if; subst; [rewrite Hst | rewrite Hch by done |]; try done; by split. }
  constructor; auto.
  - pose proof (i_conf _ _ _ H) as [? ? ? ? Hhd].
    constructor; unfold MAXSIZE in *; rewrite ?Hn, ?Hz, ?Hbase; auto.
    intros j Hj. rewrite st_halves_spec. specialize (Hhd j Hj).
    repeat case_if; subst; [congruence| |done]. rewrite Hch in Hhd by done. done.
  - rewrite (same_conf_max _ _ Hc). apply tree_relabel; [by apply tree_split|left; apply sset_eq|by right].
  - destruct (i_bits _ _ _ H) as [HS HA]. unfold bits_ok, nb. rewrite (same_conf_max _ _ Hc). split.
    + intros k' i' Hk' Hi'. rewrite HSB, st_halves_spec by lia.
      case_if; [done|]. rewrite HS by done. case_if; [|done]. subst. by rewrite Hch.
    + intros k' j Hk' Hj Hnb. rewrite HAB, HA by done. rewrite !st_halves_spec.
      replace (2 * j / 2) with j by dlia. replace ((2 * j + 1) / 2) with j by dlia.
      destruct (k' =? k + 1) eqn:E1; bool_prop.
      * subst. replace (k + 1 =? k) with false by (symmetry; apply Z.eqb_neq; lia). simpl.
        repeat case_if; subst; try lia; rewrite ?Hst; done.
      * simpl. destruct (k' =? k) eqn:E2; bool_prop; [|done]. subst. simpl.
        case_if; [|done]. subst. by rewrite Hl, Hr.
  - destruct (i_lists _ _ _ H) as [Hd Hf].
    constructor; rewrite (same_conf_max _ _ Hc); intros k' Hk'.
    + rewrite Hh. unfold free_head. rewrite Hz. by apply Hd.
    + intros a. rewrite Hf by done. f_equiv. intros i'.
      by rewrite Hfree, (same_conf_baddr _ _ _ _ Hc).
  - rewrite (same_conf_max _ _ Hc). intros k' j Hk'. rewrite !Hfree. apply (i_coal _ _ _ H); lia.
Qed.

Lemma st_merge_spec k i k' i' :
  st_merge st k i k' i' =
    if (k' =? k + 1) && (i' =? i) then Alloc
    else if (k' =? k) && (i' / 2 =? i) then Absent else st k' i'.
Proof.
  unfold st_merge, sset.
  destruct (k' =? k) eqn:Ek; bool_prop; subst.
  - replace (k =? k + 1) with false by (symmetry; apply Z.eqb_neq; lia). simpl.
    destruct (i' =? 2 * i + 1) eqn:E1; bool_prop;
      [by rewrite (proj2 (Z.eqb_eq _ _)) by (subst; dlia)|].
    destruct (i' =? 2 * i) eqn:E2; bool_prop;
      [by rewrite (proj2 (Z.eqb_eq _ _)) by (subst; dlia)|].
    by rewrite (proj2 (Z.eqb_neq _ _)) by dlia.
  - simpl. by destruct ((k' =? k + 1) && (i' =? i)).
Qed.

(** [split_clear] on a split block with two handed-out halves joins them. *)
Lemma inv_merge k i s' :
  0 <= k < MAXSIZE s -> st k (2 * i) = Alloc -> st k (2 * i + 1) = Alloc ->
  same_conf s s' -> heap s' = heap s -> arrs_ok s' ->
  (forall k' j', AB s' k' j' = AB s k' j') ->
  (forall k' i', 0 <= i' -> SB s' k' i' = if (k' =? k + 1) && (i' =? i) then false else SB s k' i') ->
  inv s' (st_merge st k i) F.
Proof.
  intros Hk Hl Hr Hc Hh Ha HAB HSB. pose proof Hc as (Hn & Hz & Hbase).
  pose proof (i_tree _ _ _ H) as T.
  assert (st (k + 1) i = Split) as Hst.
  { replace i with (2 * i / 2) by dlia. apply (t_up _ _ T); [lia | congruence]. }
  assert (forall k' i', k' = k -> i' / 2 = i -> st k' i' = Alloc) as Hch.
  { intros k' i' -> <-. assert (i' = 2 * (i' / 2) \/ i' = 2 * (i' / 2) + 1) as [E|E] by dlia;
      rewrite E; done. }
  assert (forall k' i', st_merge st k i k' i' = Free <-> st k' i' = Free) as Hfree.
  { intros k' i'. rewrite st_merge_spec. repeat case_if; subst; [rewrite Hst | rewrite Hch by done |]; try done; by split. }
  constructor; auto.
  - pose proof (i_conf _ _ _ H) as [? ? ? ? Hhd].
    constructor; unfold MAXSIZE in *; rewrite ?Hn, ?Hz, ?Hbase; auto.
    intros j Hj. rewrite st_merge_spec. specialize (Hhd j Hj).
    repeat case_if; subst; [congruence| |done]. rewrite Hch in Hhd by done. done.
  - rewrite (same_conf_max _ _ Hc). apply tree_merge; auto.
  - destruct (i_bits _ _ _ H) as [HS HA]. unfold bits_ok, nb. rewrite (same_conf_max _ _ Hc). split.
    + intros k' i' Hk' Hi'. rewrite HSB, st_merge_spec by lia.
      case_if; [done|]. rewrite HS by done. case_if; [|done]. subst. by rewrite Hch.
    + intros k' j Hk' Hj Hnb. rewrite HAB, HA by done. rewrite !st_merge_spec.
      replace (2 * j / 2) with j by dlia. replace ((2 * j + 1) / 2) with j by dlia.
      destruct (k' =? k + 1) eqn:E1; bool_prop.
      * subst. replace (k + 1 =? k) with false by (symmetry; apply Z.eqb_neq; lia). simpl.
        repeat case_if; subst; try lia; rewrite ?Hst; done.
      * simpl. destruct (k' =? k) eqn:E2; bool_prop; [|done]. subst. simpl.
        case_if; [|done]. subst. by rewrite Hl, Hr.
  - destruct (i_lists _ _ _ H) as [Hd Hf].
    constructor; rewrite (same_conf_max _ _ Hc); intros k' Hk'.
    + rewrite Hh. unfold free_head. rewrite Hz. by apply Hd.
    + intros a. rewrite Hf by done. f_equiv. intros i'.
      by rewrite Hfree, (same_conf_baddr _ _ _ _ Hc).
  - rewrite (same_conf_max _ _ Hc). intros k' j Hk'. rewrite !Hfree. apply (i_coal _ _ _ H); lia.
Qed.

End Elementary.

(** ** The loops *)

Lemma inv_nsizes s st F : inv s st F -> nsizes s = MAXSIZE s + 1.
Proof. intros _. unfold MAXSIZE. lia. Qed.

(** [firstk] returns the first [k] with 16 * 2^k >= n, up to 2^63. *)
Lemma firstk_wp {S} n (s : S) (Q : Z -> S -> Prop) :
  0 <= n <= 2 ^ 63 ->
  (forall k, 0 <= k <= 59 -> n <= blk k -> (0 < k -> blk (k - 1) < n) -> Q k s) ->
  wp (firstk n) s Q.
Proof.
  intros Hn HQ. unfold firstk.
  apply (wp_loop
    (fun x s' => s' = s /\ 0 <= fst x <= 59 /\ snd x = blk (fst x) /\ (0 < fst x -> blk (fst x - 1) < n))
    (fun x => Z.to_nat (59 - fst x))).
  - intros [k z] s' (-> & Hk & Hz & Hlt). simpl in *. subst z. unfold firstk_body. simpl.
    destruct (blk k <? n) eqn:E; bool_prop.
    + assert (k < 59) by (destruct (decide (k = 59)) as [->|]; [change (blk 59) with (2 ^ 63) in E|]; lia).
      apply wp_ret. simpl. rewrite i32_small by lia.
      assert (blk k * 2 = blk (k + 1)) as -> by (rewrite blk_succ; lia).
      assert (blk (k + 1) <= 2 ^ 63).
      { unfold blk. pose proof (Z.pow_le_mono_r 2 (k + 1) 59). lia. }
      pose proof (blk_pos (k + 1)).
      rewrite u64_small by lia. replace (k + 1 - 1) with k by lia. split_and!; auto; lia.
    + apply wp_ret. apply HQ; auto.
  - simpl. unfold blk, LEAF_SIZE. split_and!; try done; lia.
  - simpl. unfold firstk_fuel. lia.
Qed.

Section Ops.
  Context (s : bd) (st : smap) (F : Z -> list Z) (H : inv s st F).

Lemma free_empty_wp k (Q : bool -> bd -> Prop) :
  0 <= k <= MAXSIZE s -> Q (bool_decide (F k = [])) s -> wp (free_empty k) s Q.
Proof.
  intros Hk HQ. unfold free_empty. wp_steps.
  apply get_sz_wp; [apply (i_arrs _ _ _ H) | unfold MAXSIZE in Hk; lia|].
  intros _ _. wp_steps.
  by rewrite (dll_empty _ _ _ (l_dll _ _ _ (i_lists _ _ _ H) k Hk)).
Qed.

Lemma find_free_wp fk (Q : Z -> bd -> Prop) :
  0 <= fk ->
  (forall k, fk <= k -> (forall k', fk <= k' < k -> k' <= MAXSIZE s -> F k' = []) ->
     (k < nsizes s /\ F k <> [] \/ nsizes s <= k) -> Q k s) ->
  wp (find_free fk) s Q.
Proof.
  intros Hfk HQ. unfold find_free. wp_steps.
  apply (wp_loop
    (fun k s' => s' = s /\ fk <= k /\ forall k', fk <= k' < k -> k' <= MAXSIZE s -> F k' = [])
    (fun k => Z.to_nat (nsizes s - k))).
  - intros k s' (-> & Hk & Hall). destruct (k <? nsizes s) eqn:E; bool_prop.
    + wp_step. apply free_empty_wp; [unfold MAXSIZE; lia|]. apply wp_ret.
      case_bool_decide as D.
      * split_and!; auto; try lia. intros k' Hk' HM.
        destruct (decide (k' = k)) as [->|]; [done|]. apply Hall; lia.
      * apply HQ; auto.
    + apply wp_ret. apply HQ; auto.
  - split_and!; auto; lia.
  - lia.
Qed.

Lemma free_pop_wp k p rest (Q : Z -> bd -> Prop) :
  0 <= k <= MAXSIZE s -> F k = p :: rest ->
  Q p (set_heap (lst_remove p (heap s)) s) -> wp (free_pop k) s Q.
Proof.
  intros Hk HF HQ. unfold free_pop. wp_steps.
  apply get_sz_wp; [apply (i_arrs _ _ _ H) | unfold MAXSIZE in Hk; lia|]. intros _ _.
  pose proof (l_dll _ _ _ (i_lists _ _ _ H) k Hk) as Hd. rewrite HF in Hd.
  rewrite (lst_pop_spec _ _ _ _ Hd). simpl. wp_steps. exact HQ.
Qed.

End Ops.

Lemma free_push_wp s k p (Q : unit -> bd -> Prop) :
  arrs_ok s -> 0 <= k < nsizes s ->
  Q tt (set_heap (lst_push (free_head s k) p (heap s)) s) -> wp (free_push k p) s Q.
Proof.
  intros H Hk HQ. unfold free_push. wp_steps. apply get_sz_wp; [done..|]. intros _ _. by wp_steps.
Qed.

Lemma arrs_set_heap s h : arrs_ok s -> arrs_ok (set_heap h s).
Proof. intros [? ?]. by constructor. Qed.

Lemma alive_range s st F k i :
  inv s st F -> st k i <> Absent -> 0 <= k <= MAXSIZE s /\ 0 <= i < nb s k /\ MAXSIZE s <= 26.
Proof.
  intros H Hst. destruct (inv_range _ _ _ H _ _ Hst). pose proof (inv_max _ _ _ H). lia.
Qed.

Lemma pair_index s st F k i :
  inv s st F -> st k i <> Absent -> Z.quot (blk_index s k (baddr s k i)) 2 = i / 2
  /\ 0 <= i / 2 /\ 2 * (i / 2) < nb s k /\ 0 <= k < nsizes s.
Proof.
  intros H Hst. destruct (alive_range _ _ _ _ _ H Hst) as (Hk & Hi & HM).
  rewrite blk_index_baddr by done. rewrite Z.quot_div_nonneg by lia.
  unfold MAXSIZE in Hk. dlia.
Qed.

(** Pop a block and flip its bit: the block is handed out. *)
Lemma pop_take_wp s st F k p rest {B} (cont : Z -> M bd B) (Q : B -> bd -> Prop) :
  inv s st F -> 0 <= k <= MAXSIZE s -> F k = p :: rest ->
  (forall i s', p = baddr s k i -> st k i = Free -> same_conf s s' -> lock s' = lock s ->
     inv s' (sset st k i Alloc) (Fset F k rest) -> wp (cont p) s' Q) ->
  wp (p <- free_pop k ;; s <- get ;;
      alloc_invert k (Z.quot (blk_index s k p) 2) ;;; cont p) s Q.
Proof.
  intros H Hk HF HQ. wp_step. apply (free_pop_wp s st F H k p rest); [done..|].
  wp_steps.
  destruct (proj1 (l_free _ _ _ (i_lists _ _ _ H) k Hk p)) as (i & -> & Hst);
    [rewrite HF; set_solver|].
  destruct (pair_index s st F k i H) as (Hq & Hj & Hnb & Hkn); [congruence|].
  change (blk_index (set_heap (lst_remove (baddr s k i) (heap s)) s) k (baddr s k i))
    with (blk_index s k (baddr s k i)). rewrite Hq.
  apply alloc_invert_wp; [by apply arrs_set_heap, (i_arrs _ _ _ H) | done | done | done|].
  intros l Hl HAB HSB. eapply HQ; eauto; try done.
  change rest with ([] ++ rest). apply (inv_take s st F H); try done.
  destruct (inv_range _ _ _ H k i); [congruence|].
  apply (bits_flip s _ st k i Alloc (i_bits _ _ _ H));
    [done | lia | by rewrite Hst | by rewrite Hst | done | exact HAB | exact HSB].
Qed.

(** Flip the bit of a handed-out block's pair: its [alloc] bit is now that of
    a free block. *)
Lemma bits_free_flip s st F k i s' :
  inv s st F -> st k i = Alloc -> MAXSIZE s' = MAXSIZE s ->
  (forall k' j, 0 <= j -> AB s' k' j = if (k' =? k) && (j =? i / 2) then negb (AB s k (i / 2)) else AB s k' j) ->
  (forall k' i', SB s' k' i' = SB s k' i') ->
  bits_ok s' (sset st k i Free).
Proof.
  intros H Hst HM HAB HSB. destruct (inv_range _ _ _ H k i) as [_ Hi]; [congruence|].
  apply (bits_flip s _ st k i Free (i_bits _ _ _ H)); auto; try lia; by rewrite Hst.
Qed.

Lemma live_relabel_free st k i k' i' :
  live (sset st k i Free) k' i' <-> live st k' i' /\ (k', i') <> (k, i).
Proof.
  unfold live. destruct (sset_cases st k i Free k' i') as [(-> & -> & E)|[Hne E]]; rewrite E.
  - naive_solver.
  - intuition congruence || (split; [intros Hl; split; [done|]; intros [= -> ->]; lia | tauto]).
Qed.

Lemma meta_relabel st k i v :
  st k i <> Meta -> v <> Meta -> meta_kept st (sset st k i v).
Proof.
  intros H1 H2 k' i'. destruct (sset_cases st k i v k' i') as [(-> & -> & E)|[_ E]]; rewrite E; tauto.
Qed.

Lemma meta_kept_trans st1 st2 st3 : meta_kept st1 st2 -> meta_kept st2 st3 -> meta_kept st1 st3.
Proof. intros H1 H2 k i. etransitivity; [apply H2 | apply H1]. Qed.

(** One round of the splitting loop: block (k+1, i) is cut, its right half
    goes on free list [k]. *)
Lemma split_round_wp s st F k i {B} (cont : M bd B) (Q : B -> bd -> Prop) :
  inv s st F -> 0 <= k < MAXSIZE s -> st (k + 1) i = Alloc ->
  (forall s', same_conf s s' -> lock s' = lock s ->
     inv s' (sset (st_halves st k i) k (2 * i + 1) Free) (Fset F k (baddr s k (2 * i + 1) :: F k)) ->
     wp cont s' Q) ->
  let p := baddr s (k + 1) i in
  wp (split_set (k + 1) (blk_index s (k + 1) p) ;;;
      alloc_invert k (Z.quot (blk_index s k p) 2) ;;;
      free_push k (p + BLK_SIZE k) ;;; cont) s Q.
Proof.
  intros H Hk Hst HQ p.
  destruct (alive_range _ _ _ (k + 1) i H) as (Hk1 & Hi & HM); [congruence|].
  pose proof (nb_succ s k ltac:(lia)) as Hnb.
  assert (p = baddr s k (2 * i)) as Hp by (unfold p; by rewrite baddr_left by lia).
  assert (p + BLK_SIZE k = baddr s k (2 * i + 1)) as Hq
    by (rewrite Hp, BLK_SIZE_blk; unfold baddr; lia).
  assert (blk_index s (k + 1) p = i) as -> by (apply blk_index_baddr; lia).
  assert (blk_index s k p = 2 * i) as -> by (rewrite Hp; apply blk_index_baddr; lia).
  replace (Z.quot (2 * i) 2) with i by (rewrite Z.quot_div_nonneg by lia; dlia).
  rewrite Hq. wp_step. unfold split_set.
  apply (split_write_wp s (k + 1) i bit_set true);
    [apply bit_set_spec | apply (i_arrs _ _ _ H) | unfold MAXSIZE in *; lia | lia |].
  intros l Hl HAB HSB.
  assert (inv (set_szs l s) (st_halves st k i) F) as H1 by (apply (inv_split s st F H); done).
  assert (forall j, st_halves st k i k j = Alloc \/ j / 2 <> i) as Hal.
  { intros j. rewrite st_halves_spec. zcmp. simpl. case_if; auto. }
  assert (st_halves st k i k (2 * i + 1) = Alloc) as Ha1 by (destruct (Hal (2 * i + 1)); [done | dlia]).
  assert (st_halves st k i k (2 * i) = Alloc) as Ha2 by (destruct (Hal (2 * i)); [done | dlia]).
  wp_step. apply alloc_invert_wp; [done | unfold MAXSIZE in *; simpl; lia | lia |
    change (nb (set_szs l s) k) with (nb s k); lia|].
  intros l2 Hl2 HAB2 HSB2. wp_step.
  apply free_push_wp; [done | unfold MAXSIZE in *; simpl; lia|].
  apply HQ; [done | done |].
  apply (inv_give _ _ _ H1); try done.
  - change (MAXSIZE (set_szs l s)) with (MAXSIZE s). lia.
  - intros _. destruct (buddy_of_spec (2 * i + 1)) as (_ & _ & [[? _]|[_ ->]]); [lia | dlia|].
    replace (2 * i + 1 - 1) with (2 * i) by lia. by rewrite Ha2.
  - by apply arrs_set_heap.
  - apply (bits_free_flip _ _ _ _ _ _ H1); try done.
    replace ((2 * i + 1) / 2) with i by dlia. exact HAB2.
Qed.

Lemma live_split_round st k i :
  st (k + 1) i = Alloc -> st k (2 * i) = Absent -> st k (2 * i + 1) = Absent ->
  let st' := sset (st_halves st k i) k (2 * i + 1) Free in
  st' k (2 * i) = Alloc /\ meta_kept st st' /\
  (forall k' i', live st' k' i' <->
     (live st k' i' /\ (k', i') <> (k + 1, i)) \/ (k', i') = (k, 2 * i)).
Proof.
  intros Hst Hl Hr st'.
  assert (forall k' i', st' k' i' =
    if (k' =? k) && (i' =? 2 * i + 1) then Free
    else if (k' =? k + 1) && (i' =? i) then Split
    else if (k' =? k) && (i' =? 2 * i) then Alloc else st k' i') as Hs.
  { intros k' i'. unfold st', sset at 1. case_if; [done|]. rewrite st_halves_spec.
    destruct (k' =? k) eqn:Ek; bool_prop; [|by destruct ((k' =? k + 1) && (i' =? i))].
    subst. replace (k =? k + 1) with false by (symmetry; apply Z.eqb_neq; lia). simpl.
    destruct E as [E|E]; [done|]. bool_prop.
    destruct (i' =? 2 * i) eqn:E2; bool_prop;
      [by rewrite (proj2 (Z.eqb_eq _ _)) by (subst; dlia)|by rewrite (proj2 (Z.eqb_neq _ _)) by dlia]. }
  split; [rewrite Hs; by zcmp|]. split.
  - intros k' i'. rewrite Hs. repeat case_if; subst; split; congruence.
  - intros k' i'. unfold live. rewrite Hs. repeat case_if; subst.
    + split; [done|]. intros [[? ?]|[= ?]]; [congruence | lia].
    + split; [done|]. intros [[? ?]|[= ?]]; [congruence | lia].
    + split; [by right | done].
    + split.
      * intros E'. left. split; [done|]. intros [= -> ->]. destruct E0; bool_prop; lia.
      * intros [[? _]|[= -> ->]]; [done|]. destruct E1; bool_prop; lia.
Qed.

(** What a piece of [bd_malloc] that has block (k, i) in hand, and ends with
    block (fk, i'), leaves behind. *)
Record cut (s : bd) (st : smap) (F : Z -> list Z) (k i fk i' : Z)
    (s' : bd) (st' : smap) (F' : Z -> list Z) : Prop := {
  cut_inv : inv s' st' F';
  cut_conf : same_conf s s';
  cut_lock : lock s' = lock s;
  cut_addr : baddr s fk i' = baddr s k i;
  cut_alloc : st' fk i' = Alloc;
  cut_le : fk <= k;
  cut_fresh : (fk, i') = (k, i) \/ ~ live st fk i';
  cut_meta : meta_kept st st';
  cut_live : forall k0 i0, live st' k0 i0 <->
    (live st k0 i0 /\ (k0, i0) <> (k, i)) \/ (k0, i0) = (fk, i');
  cut_bytes : fbytes (MAXSIZE s) F' = fbytes (MAXSIZE s) F + blk k - blk fk
}.

Lemma cut_refl s st F k i : inv s st F -> st k i = Alloc -> cut s st F k i k i s st F.
Proof.
  intros H Hst. constructor; try done; try lia; [by left|].
  intros k0 i0. destruct (decide ((k0, i0) = (k, i))) as [D|D].
  - split; [by right|]. intros _. by inversion D.
  - split; [left; done | intros [[? _]|?]; done].
Qed.

Lemma cut_round s0 st0 F0 k0 i0 k i s st F s' :
  cut s0 st0 F0 k0 i0 (k + 1) i s st F -> 0 <= k < MAXSIZE s ->
  same_conf s s' -> lock s' = lock s ->
  inv s' (sset (st_halves st k i) k (2 * i + 1) Free) (Fset F k (baddr s k (2 * i + 1) :: F k)) ->
  cut s0 st0 F0 k0 i0 k (2 * i) s' (sset (st_halves st k i) k (2 * i + 1) Free)
      (Fset F k (baddr s k (2 * i + 1) :: F k)).
Proof.
  intros [H Hc Hlk Ha Hst Hle Hfr Hm Hlv Hb] Hk Hc' Hlk' H'.
  destruct (child_absent _ _ (i_tree _ _ _ H) k i Hk) as [Hl Hr]; [congruence|].
  destruct (live_split_round st k i Hst Hl Hr) as (Hst' & Hm' & Hlv').
  constructor; auto.
  - by eapply same_conf_trans.
  - congruence.
  - rewrite <- Ha. apply baddr_left. lia.
  - lia.
  - right. intros Hlv0. assert (live st k (2 * i)) as Hx; [|unfold live in Hx; congruence].
    apply Hlv. left. split; [done|]. intros [= -> _]. lia.
  - by eapply meta_kept_trans.
  - intros k1 i1. rewrite Hlv', Hlv. split.
    + intros [[[?|?] ?]|?]; [by left | done | by right].
    + intros [[Hlv0 Hne]|?]; [left; split; [by left|] | by right].
      intros E. rewrite E in Hne. injection E as -> ->. by destruct Hfr.
  - rewrite <- (same_conf_max _ _ Hc) in *. rewrite fbytes_Fset by lia.
    rewrite Hb, blk_succ by lia. simpl length. lia.
Qed.

Lemma split_loop_wp s st F fk k i (Q : unit -> bd -> Prop) :
  inv s st F -> st k i = Alloc -> 0 <= fk <= k ->
  (forall i' s' st' F', cut s st F k i fk i' s' st' F' -> Q tt s') ->
  wp (split_loop fk (baddr s k i) k) s Q.
Proof.
  intros H Hst Hfk HQ. unfold split_loop. wp_steps.
  apply (wp_loop (fun c s' => fk <= c /\ exists i' st' F', cut s st F k i c i' s' st' F')
                 (fun c => Z.to_nat (c - fk))).
  - intros c s1 (Hc & i1 & st1 & F1 & C). destruct (fk <? c) eqn:E; bool_prop.
    + wp_step. wp_step. pose proof (cut_inv _ _ _ _ _ _ _ _ _ _ C) as H1.
      destruct (alive_range _ _ _ c i1 H1) as (Hcr & _); [by rewrite (cut_alloc _ _ _ _ _ _ _ _ _ _ C)|].
      rewrite <- (cut_addr _ _ _ _ _ _ _ _ _ _ C),
        <- (same_conf_baddr _ _ _ _ (cut_conf _ _ _ _ _ _ _ _ _ _ C)).
      assert (exists c', c = c' + 1) as [c' ->] by (exists (c - 1); lia).
      replace (c' + 1 - 1) with c' by lia.
      apply (split_round_wp s1 st1 F1 c' i1); [done | lia | apply C |].
      intros s2 Hc2 Hlk2 H2. apply wp_ret. split; [|lia]. split; [lia|].
      eexists _, _, _. apply (cut_round s st F k i c' i1 s1 st1 F1 s2); [exact C | lia | done | done | exact H2].
    + apply wp_ret. assert (c = fk) as -> by lia. by eapply HQ.
  - split; [lia|]. exists i, st, F. by apply cut_refl.
  - lia.
Qed.

(** ** bd_malloc *)

(** A successful [bd_malloc]: block (fk, i) is handed out. *)
Record malloced (s : bd) (st : smap) (F : Z -> list Z) (fk i : Z)
    (s' : bd) (st' : smap) (F' : Z -> list Z) : Prop := {
  ma_inv : inv s' st' F';
  ma_conf : same_conf s s';
  ma_lock : lock_free (lock s');
  ma_meta : meta_kept st st';
  ma_fresh : ~ live st fk i;
  ma_live : forall k0 i0, live st' k0 i0 <-> live st k0 i0 \/ (k0, i0) = (fk, i);
  ma_bytes : fbytes (MAXSIZE s) F' = fbytes (MAXSIZE s) F - blk fk
}.

Lemma inv_set_lock s st F l : inv s st F -> inv (set_lock l s) st F.
Proof. intros [[? ? ? ? ?] [? ?] ? ? [? ?] ?]. by constructor. Qed.

Lemma bd_malloc_wp s st F n :
  inv s st F -> lock_free (lock s) -> 0 <= n <= 2 ^ 63 ->
  wp (bd_malloc n) s (fun p s' =>
    exists fk, 0 <= fk <= 59 /\ n <= blk fk /\ (0 < fk -> blk (fk - 1) < n) /\
      ((p = 0 /\ inv s' st F /\ same_conf s s' /\ lock_free (lock s')
        /\ (forall k, fk <= k <= MAXSIZE s -> F k = []))
       \/ (exists i st' F', p = baddr s fk i /\ malloced s st F fk i s' st' F'))).
Proof.
  intros H Hlk Hn. unfold bd_malloc, acquire_bd, release_bd. wp_step. wp_step.
  apply acquire_wp; [done|]. intros lk1 Htk.
  wp_step. apply firstk_wp; [done|]. intros fk Hfk Hge Hlt.
  pose proof (inv_set_lock _ _ _ lk1 H) as H1. set (s1 := set_lock lk1 s) in *.
  wp_step. apply (find_free_wp s1 st F H1); [lia|]. intros k Hk Hempty Hfound.
  wp_step. wp_step. change (nsizes s1) with (nsizes s) in *. change (MAXSIZE s1) with (MAXSIZE s) in *.
  destruct (nsizes s <=? k) eqn:E; bool_prop.
  - wp_steps. apply (release_wp (lock s)); [done | exact Htk |].
    intros lk2 Hlk2 _ _ _. wp_steps. exists fk. split; [lia|]. split; [done|]. split; [done|]. left.
    split_and!; [done | by apply (inv_set_lock s1) | done | done |].
    intros k' Hk'. apply Hempty; unfold MAXSIZE in *; lia.
  - destruct Hfound as [[_ HF]|?]; [|lia]. destruct (F k) as [|p rest] eqn:EF; [done|].
    apply (pop_take_wp s1 st F k p rest); [done | change (MAXSIZE s1) with (MAXSIZE s); unfold MAXSIZE; lia | done |].
    intros i s2 Hp Hst Hc2 Hlk2 H2. subst p. wp_step.
    rewrite <- (same_conf_baddr _ _ _ _ Hc2).
    apply (split_loop_wp s2 (sset st k i Alloc) (Fset F k rest) fk k i); [done | apply sset_eq | lia |].
    intros i' s3 st3 F3 C. wp_steps.
    destruct C as [H3 Hc3 Hlk3 Ha3 Hst3 Hle3 Hfr3 Hm3 Hlv3 Hb3].
    apply (release_wp (lock s)); [done | rewrite Hlk3, Hlk2; exact Htk |].
    intros lk4 Hlk4 _ _ _. wp_steps. exists fk. split; [lia|]. split; [done|]. split; [done|]. right.
    assert (same_conf s s3) as Hcs by (eapply same_conf_trans; [exact Hc2 | exact Hc3]).
    exists i', st3, F3. split.
    { rewrite <- (same_conf_baddr s s2) by exact Hc2. by rewrite Ha3. }
    assert (MAXSIZE s2 = MAXSIZE s) as HM2 by (apply (same_conf_max s1); done).
    assert (forall k0 i0, live (sset st k i Alloc) k0 i0 <-> live st k0 i0 \/ (k0, i0) = (k, i)) as Hls.
    { intros k0 i0. unfold live. destruct (sset_cases st k i Alloc k0 i0) as [(-> & -> & ->)|[Hne ->]].
      - split; [by right | done].
      - split; [by left | intros [?|[= -> ->]]; [done | lia]]. }
    constructor; simpl.
    + by apply (inv_set_lock s3).
    + exact Hcs.
    + done.
    + eapply meta_kept_trans; [|exact Hm3]. apply meta_relabel; congruence.
    + intros Hlv. destruct Hfr3 as [E'|Hn']; [|apply Hn', Hls; by left].
      injection E' as -> ->. unfold live in Hlv. congruence.
    + intros k0 i0. rewrite Hlv3, Hls. split.
      * intros [[[?|?] ?]|?]; [by left | done | by right].
      * intros [Hl|?]; [left; split; [by left|] | by right].
        intros [= -> ->]. unfold live in Hl. congruence.
    + rewrite HM2 in Hb3. rewrite Hb3.
      rewrite fbytes_Fset by (unfold MAXSIZE; lia). rewrite EF. simpl length. lia.
Qed.

(** ** bd_free *)

(** The block that is the whole heap is always split. *)
Lemma root_split s st F : inv s st F -> st (MAXSIZE s) 0 = Split.
Proof.
  intros H. pose proof (inv_max _ _ _ H).
  pose proof (c_heads _ _ (i_conf _ _ _ H) 0 ltac:(lia)) as Hm. change (2 * 0) with 0 in Hm.
  pose proof (ancestor_split_z _ _ (i_tree _ _ _ H) 0 (MAXSIZE s) 0) as Hs.
  rewrite Z.div_0_l in Hs by (apply Z.pow_nonzero; lia). apply Hs; [congruence | lia].
Qed.

Lemma live_below_top s st F k i : inv s st F -> st k i = Alloc -> 0 <= k < MAXSIZE s.
Proof.
  intros H Hst. destruct (inv_range _ _ _ H k i) as [Hk Hi]; [congruence|].
  destruct (decide (k = MAXSIZE s)) as [->|]; [|lia].
  unfold nb in Hi. rewrite Z.sub_diag in Hi. assert (i = 0) as -> by lia.
  rewrite (root_split _ _ _ H) in Hst. done.
Qed.

(** Blocks inside a handed-out block are not split. *)
Lemma inside_not_split s st F k i k' :
  inv s st F -> st k i = Alloc -> 0 <= k' <= k -> st k' (i * 2 ^ (k - k')) <> Split.
Proof.
  intros H Hst Hk' Hs. destruct (decide (k' = k)) as [->|Hne].
  - rewrite Z.sub_diag, Z.mul_1_r in Hs. congruence.
  - destruct (inv_range _ _ _ H k i) as [Hk _]; [congruence|].
    pose proof (ancestor_split_z _ _ (i_tree _ _ _ H) k' k (i * 2 ^ (k - k'))) as Ha.
    rewrite Z.div_mul in Ha by (apply Z.pow_nonzero; lia).
    rewrite Ha in Hst; [done | congruence | lia].
Qed.

(** [blk_index] of a block's address at a smaller size. *)
Lemma blk_index_down s k i k' :
  0 <= k' <= k -> k <= MAXSIZE s -> MAXSIZE s <= 26 -> 0 <= i < nb s k ->
  blk_index s k' (baddr s k i) = i * 2 ^ (k - k') /\ 0 <= i * 2 ^ (k - k') < nb s k'.
Proof.
  intros Hk' Hk HM Hi.
  assert (baddr s k i = baddr s k' (i * 2 ^ (k - k'))) as E.
  { unfold baddr, blk. replace k with (k - k' + k') at 1 by lia. rewrite Z.pow_add_r; lia. }
  assert (0 <= i * 2 ^ (k - k') < nb s k') as Hr.
  { unfold nb in *. replace (MAXSIZE s - k') with (MAXSIZE s - k + (k - k')) by lia.
    rewrite Z.pow_add_r by lia. pose proof (Z.pow_pos_nonneg 2 (k - k')). nia. }
  split; [|done]. rewrite E. apply blk_index_baddr; lia.
Qed.

Lemma size_wp s st F k i (Q : Z -> bd -> Prop) :
  inv s st F -> st k i = Alloc -> Q k s -> wp (size (baddr s k i)) s Q.
Proof.
  intros H Hst HQ. pose proof (live_below_top _ _ _ _ _ H Hst) as Hk.
  destruct (alive_range _ _ _ k i H) as (_ & Hi & HM); [congruence|].
  destruct (i_bits _ _ _ H) as [HS _].
  unfold size. wp_step. wp_step.
  apply (wp_loop (fun c s' => s' = s /\ 0 <= c <= k) (fun c => Z.to_nat (k - c))).
  - intros c s' (-> & Hc). unfold MAXSIZE in *. zcmp. wp_step.
    destruct (decide (c = k)) as [->|Hne].
    + rewrite blk_index_up by (unfold MAXSIZE; lia).
      assert (nb s k = 2 * nb s (k + 1)) as Hnb by (apply nb_succ; unfold MAXSIZE; lia).
      apply split_isset_wp; [apply (i_arrs _ _ _ H) | lia | dlia|].
      rewrite HS by dlia.
      rewrite (proj1 (t_up _ _ (i_tree _ _ _ H) k i ltac:(unfold MAXSIZE; lia))) by congruence.
      by apply wp_ret.
    + destruct (blk_index_down s k i (c + 1)) as [-> Hr]; [unfold MAXSIZE; lia..|].
      apply split_isset_wp; [apply (i_arrs _ _ _ H) | lia | done |].
      rewrite HS by lia.
      destruct (st (c + 1) (i * 2 ^ (k - (c + 1)))) eqn:E; simpl; apply wp_ret; try (split; [split|]; lia || done).
      exfalso. apply (inside_not_split _ _ _ k i (c + 1) H); [done | lia | done].
  - split; [done | lia].
  - unfold MAXSIZE in *. lia.
Qed.

(** The state of [bd_free] between rounds, and the one before its last push:
    relative to the initial statuses, block (k0, i0) has grown to (k, i). *)
Record grown (s0 : bd) (st0 : smap) (F0 : Z -> list Z) (k0 i0 : Z)
    (s : bd) (st : smap) (F : Z -> list Z) (k i : Z) : Prop := {
  gr_inv : inv s st F;
  gr_conf : same_conf s0 s;
  gr_lock : lock s = lock s0;
  gr_alloc : st k i = Alloc;
  gr_meta : meta_kept st0 st;
  gr_live : forall k1 i1, (live st k1 i1 /\ (k1, i1) <> (k, i))
              <-> (live st0 k1 i1 /\ (k1, i1) <> (k0, i0));
  gr_bytes : fbytes (MAXSIZE s0) F + blk k = fbytes (MAXSIZE s0) F0 + blk k0
}.

(** A round that finds the buddy in use stops: the pair's bit says so. *)
Lemma pair_bit s st F k i :
  inv s st F -> 0 <= k < MAXSIZE s -> st k i <> Absent ->
  AB s k (i / 2) = xorb (used (st k i)) (used (st k (buddy_of i))).
Proof.
  intros H Hk Hst. destruct (alive_range _ _ _ k i H Hst) as (_ & Hi & _).
  destruct (i_bits _ _ _ H) as [_ HA]. rewrite HA by dlia.
  destruct (buddy_of_spec i) as (_ & _ & [[Hm ->]|[Hm ->]]); [lia| |].
  - replace (2 * (i / 2)) with i by dlia. done.
  - replace (2 * (i / 2)) with (i - 1) by dlia. replace (i - 1 + 1) with i by lia. apply xorb_comm.
Qed.

Lemma buddy_exists s st F k i :
  inv s st F -> 0 <= k < MAXSIZE s -> st k i <> Absent -> st k (buddy_of i) <> Absent.
Proof.
  intros H Hk Hst. destruct (alive_range _ _ _ k i H Hst) as (_ & Hi & _).
  apply (t_up _ _ (i_tree _ _ _ H)); [done|].
  assert (buddy_of i / 2 = i / 2) as ->.
  { destruct (buddy_of_spec i) as (E & E' & _); [lia|]. rewrite Z.quot_div_nonneg in E by lia. done. }
  by apply (t_up _ _ (i_tree _ _ _ H)).
Qed.

(** Flip, remove the buddy from its list, clear the parent's split bit: the
    two halves are one handed-out block. *)
Lemma merge_round_wp s st F k i {B} (cont : M bd B) (Q : B -> bd -> Prop) l :
  inv s st F -> 0 <= k < MAXSIZE s -> st k i = Alloc -> st k (buddy_of i) = Free ->
  arrs_ok (set_szs l s) ->
  (forall k' j, 0 <= j -> AB (set_szs l s) k' j
     = if (k' =? k) && (j =? i / 2) then negb (AB s k (i / 2)) else AB s k' j) ->
  (forall k' i', SB (set_szs l s) k' i' = SB s k' i') ->
  (forall s' xs ys, F k = xs ++ baddr s k (buddy_of i) :: ys ->
     same_conf s s' -> lock s' = lock s ->
     inv s' (st_merge (sset st k (buddy_of i) Alloc) k (i / 2)) (Fset F k (xs ++ ys)) ->
     wp cont s' Q) ->
  wp (modify (fun s1 => set_heap (lst_remove (baddr s k (buddy_of i)) (heap s1)) s1) ;;;
      split_clear (k + 1) (i / 2) ;;; cont) (set_szs l s) Q.
Proof.
  intros H Hk Hst Hbd Ha HAB HSB HQ.
  destruct (alive_range _ _ _ k i H) as (_ & Hi & HM); [congruence|].
  destruct (alive_range _ _ _ k (buddy_of i) H) as (_ & Hib & _); [congruence|].
  destruct (free_node _ _ _ H _ _ Hbd) as (_ & _ & Hin).
  apply list_elem_of_split in Hin as (xs & ys & HF).
  set (b := buddy_of i) in *.
  destruct (buddy_of_spec i) as (Eq & _ & Hcase); [lia|]. fold b in Eq, Hcase.
  rewrite Z.quot_div_nonneg in Eq by lia.
  wp_step. wp_step. cbn beta.
  set (s2 := set_heap (lst_remove (baddr (set_szs l s) k b) (heap (set_szs l s))) (set_szs l s)).
  assert (inv s2 (sset st k b Alloc) (Fset F k (xs ++ ys))) as H2.
  { apply (inv_take s st F H); try done; [by apply arrs_set_heap|].
    apply (bits_flip s _ st k b Alloc (i_bits _ _ _ H)); try done; try lia; try (by rewrite Hbd).
    rewrite Eq. exact HAB. }
  assert (MAXSIZE s2 = MAXSIZE s) as HM2 by done.
  assert (forall j, j / 2 = i / 2 -> sset st k b Alloc k j = Alloc) as Hch.
  { intros j Hj. destruct (decide (j = b)) as [->|]; [apply sset_eq|].
    rewrite sset_ne by lia. assert (j = i) as -> by dlia. done. }
  pose proof (nb_succ s k ltac:(lia)) as Hnb.
  wp_step. unfold split_clear.
  apply (split_write_wp s2 (k + 1) (i / 2) bit_clear false);
    [apply bit_clear_spec | apply (i_arrs _ _ _ H2) | unfold MAXSIZE in *; simpl; lia
     | change (nb s2 (k + 1)) with (nb s (k + 1)); dlia |].
  intros l3 Hl3 HAB3 HSB3. apply (HQ _ xs ys); try done.
  apply (inv_merge s2 _ _ H2); try done; try (apply Hch; dlia).
Qed.

Lemma grown_refl s st F k i : inv s st F -> st k i = Alloc -> grown s st F k i s st F k i.
Proof. intros H Hst. by constructor. Qed.

Lemma grown_round s0 st0 F0 k0 i0 s st F k i s' xs ys :
  grown s0 st0 F0 k0 i0 s st F k i -> 0 <= k < MAXSIZE s -> st k (buddy_of i) = Free ->
  F k = xs ++ baddr s k (buddy_of i) :: ys ->
  same_conf s s' -> lock s' = lock s ->
  inv s' (st_merge (sset st k (buddy_of i) Alloc) k (i / 2)) (Fset F k (xs ++ ys)) ->
  grown s0 st0 F0 k0 i0 s' (st_merge (sset st k (buddy_of i) Alloc) k (i / 2))
        (Fset F k (xs ++ ys)) (k + 1) (i / 2).
Proof.
  intros [H Hc Hlk Hst Hm Hlv Hb] Hk Hbd HF Hc' Hlk' H'.
  destruct (alive_range _ _ _ k i H) as (_ & Hi & _); [congruence|].
  destruct (buddy_of_spec i) as (Eq & Hb0 & Hcase); [lia|]. set (b := buddy_of i) in *.
  rewrite Z.quot_div_nonneg in Eq by lia.
  assert (st (k + 1) (i / 2) = Split) as Hp
    by (apply (t_up _ _ (i_tree _ _ _ H)); [done | congruence]).
  set (st' := st_merge (sset st k b Alloc) k (i / 2)) in *.
  assert (forall k1 i1, st' k1 i1 = if (k1 =? k + 1) && (i1 =? i / 2) then Alloc
    else if (k1 =? k) && (i1 / 2 =? i / 2) then Absent else st k1 i1) as Hs.
  { intros k1 i1. unfold st'. rewrite st_merge_spec. repeat case_if; try done.
    apply sset_ne. destruct (decide (k1 = k)) as [->|]; [right|by left]. intros ->.
    destruct E0 as [E0|E0]; bool_prop; lia. }
  assert (forall i1, i1 / 2 = i / 2 -> i1 = i \/ i1 = b) as Hpair by (intros; dlia).
  constructor; auto.
  - by eapply same_conf_trans.
  - congruence.
  - rewrite Hs. by zcmp.
  - eapply meta_kept_trans; [exact Hm|]. intros k1 i1. rewrite Hs.
    repeat case_if; subst; [split; congruence| |done].
    destruct (Hpair i1) as [-> | ->]; [done| |]; split; congruence.
  - intros k1 i1. rewrite <- Hlv. unfold live. rewrite Hs. repeat case_if; subst.
    + split; [intros [_ ?]; done | intros [? _]; congruence].
    + split; [intros [? _]; done|]. intros [Ha Hne].
      destruct (Hpair i1) as [-> | ->]; [done | done | congruence].
    + split; intros [Ha Hne]; (split; [done|]); intros [= -> ->];
        repeat match goal with X : _ \/ _ |- _ => destruct X end; bool_prop; lia.
  - rewrite <- (same_conf_max _ _ Hc) in *. rewrite fbytes_Fset by lia.
    rewrite HF, !length_app. simpl length. rewrite blk_succ by lia. lia.
Qed.

(** The end of [merge_loop]: the block in hand, with its pair's bit already
    flipped unless it is the whole heap. *)
Definition ready (s : bd) (st : smap) (F : Z -> list Z) (k i : Z) (s' : bd) : Prop :=
  same_conf s s' /\ lock s' = lock s /\ heap s' = heap s /\ arrs_ok s'
  /\ bits_ok s' (sset st k i Free) /\ (k < MAXSIZE s -> st k (buddy_of i) <> Free).

Lemma merge_loop_wp s0 st0 F0 k0 i0 (Q : Z * Z -> bd -> Prop) :
  inv s0 st0 F0 -> st0 k0 i0 = Alloc ->
  (forall s st F k i s', grown s0 st0 F0 k0 i0 s st F k i -> ready s st F k i s' ->
     Q (baddr s0 k i, k) s') ->
  wp (merge_loop (baddr s0 k0 i0) k0) s0 Q.
Proof.
  intros H0 Hst0 HQ. unfold merge_loop. wp_step. wp_step.
  apply (wp_loop (fun x s => exists st F i, grown s0 st0 F0 k0 i0 s st F (snd x) i
                     /\ fst x = baddr s0 (snd x) i)
                 (fun x => Z.to_nat (MAXSIZE s0 - snd x))).
  - intros [p k] s (st & F & i & G & Hp). cbn [fst snd] in *. subst p.
    pose proof (gr_inv _ _ _ _ _ _ _ _ _ _ G) as H.
    pose proof (gr_alloc _ _ _ _ _ _ _ _ _ _ G) as Hst.
    pose proof (gr_conf _ _ _ _ _ _ _ _ _ _ G) as Hc.
    pose proof (live_below_top _ _ _ _ _ H Hst) as Hk.
    destruct (alive_range _ _ _ k i H) as (_ & Hi & HM); [congruence|].
    rewrite <- (same_conf_baddr _ _ k i Hc). wp_step. wp_step. zcmp.
    rewrite blk_index_baddr by lia.
    destruct (buddy_of_spec i) as (Eq & Hb0 & Hcase); [lia|]. rewrite Eq.
    pose proof (nb_succ s k ltac:(lia)) as Hnb.
    assert (0 <= k < nsizes s) as Hkn by (unfold MAXSIZE in *; lia).
    wp_step. apply alloc_invert_wp; [apply (i_arrs _ _ _ H) | done | dlia | dlia|].
    intros l Hl HAB HSB. wp_step.
    apply alloc_isset_wp; [done | done | dlia | change (nb (set_szs l s) k) with (nb s k); dlia|].
    rewrite HAB by dlia. zcmp. cbn [andb]. rewrite (pair_bit s st F k i H Hk) by congruence.
    rewrite Hst. cbn [used].
    replace (negb (xorb true (used (st k (buddy_of i))))) with (used (st k (buddy_of i)))
      by (by destruct (used (st k (buddy_of i)))).
    destruct (used (st k (buddy_of i))) eqn:Eu.
    + apply wp_ret. rewrite (same_conf_baddr _ _ k i Hc). apply (HQ s st F k i); [done|].
      split_and!; try done; [|intros _ E; by rewrite E in Eu].
      apply (bits_free_flip s st F k i); done.
    + assert (st k (buddy_of i) = Free) as Hbd.
      { pose proof (buddy_exists _ _ _ k i H Hk ltac:(congruence)).
        destruct (st k (buddy_of i)); done. }
      destruct (alive_range _ _ _ k (buddy_of i) H) as (_ & Hib & _); [congruence|].
      rewrite addr_baddr by lia.
      assert ((if Z.rem (buddy_of i) 2 =? 0 then baddr s k (buddy_of i) else baddr s k i)
              = baddr s (k + 1) (i / 2)) as ->.
      { rewrite Z.rem_mod_nonneg, <- baddr_left by lia.
        destruct Hcase as [[Hm E]|[Hm E]]; rewrite E; case_if; f_equal; dlia. }
      rewrite blk_index_baddr by dlia.
      apply (merge_round_wp s st F k i (ret (inl (baddr s (k + 1) (i / 2), k + 1)))); auto.
      intros s2 xs ys HF Hc2 Hlk2 H2. apply wp_ret. cbn [fst snd]. split.
      * eexists _, _, _. split; [|apply (same_conf_baddr _ _ _ _ Hc)].
        by apply (grown_round s0 st0 F0 k0 i0 s st F k i s2 xs ys).
      * rewrite <- (same_conf_max _ _ Hc). lia.
  - exists st0, F0, i0. split; [by apply grown_refl | done].
  - cbn [snd]. lia.
Qed.

(** A [bd_free] of block (k, i). *)
Record freed (s : bd) (st : smap) (F : Z -> list Z) (k i : Z)
    (s' : bd) (st' : smap) (F' : Z -> list Z) : Prop := {
  fr_inv : inv s' st' F';
  fr_conf : same_conf s s';
  fr_lock : lock_free (lock s');
  fr_meta : meta_kept st st';
  fr_live : forall k0 i0, live st' k0 i0 <-> live st k0 i0 /\ (k0, i0) <> (k, i);
  fr_bytes : fbytes (MAXSIZE s) F' = fbytes (MAXSIZE s) F + blk k
}.

Lemma bd_free_wp s st F k i :
  inv s st F -> lock_free (lock s) -> live st k i ->
  wp (bd_free (baddr s k i)) s (fun _ s' => exists st' F', freed s st F k i s' st' F').
Proof.
  intros H Hlk Hst. unfold bd_free, acquire_bd, release_bd. wp_step. wp_step.
  apply acquire_wp; [done|]. intros lk1 Htk.
  pose proof (inv_set_lock _ _ _ lk1 H) as H1. set (s1 := set_lock lk1 s) in *.
  change (baddr s k i) with (baddr s1 k i).
  wp_step. apply (size_wp s1 st F k i); [done..|].
  wp_step. apply (merge_loop_wp s1 st F k i); [done..|].
  intros s2 st2 F2 k2 i2 s3 [H2 Hc2 Hlk2 Hst2 Hm2 Hlv2 Hb2] (Hc3 & Hlk3 & Hh3 & Ha3 & Hbits & Hbd).
  cbn [fst snd]. destruct (inv_range _ _ _ H2 k2 i2) as [Hk2 _]; [congruence|].
  pose proof (same_conf_trans _ _ _ Hc2 Hc3) as Hc13.
  wp_step. apply free_push_wp; [done | destruct Hc3 as (-> & _); unfold MAXSIZE in Hk2; lia|].
  rewrite <- (same_conf_baddr _ _ k2 i2 Hc2).
  assert (inv (set_heap (lst_push (free_head s3 k2) (baddr s2 k2 i2) (heap s3)) s3)
    (sset st2 k2 i2 Free) (Fset F2 k2 (baddr s2 k2 i2 :: F2 k2))) as H4.
  { apply (inv_give _ _ _ H2); try done; [|by apply arrs_set_heap].
    simpl. rewrite Hh3. unfold free_head. destruct Hc3 as (_ & -> & _). done. }
  apply wp_zoom. apply (release_wp (lock s)); [done | simpl; rewrite Hlk3, Hlk2; exact Htk |].
  intros lk4 Hlk4 _ _ _. eexists _, _. constructor.
  - apply inv_set_lock, H4.
  - exact Hc13.
  - done.
  - eapply meta_kept_trans; [exact Hm2|]. apply meta_relabel; congruence.
  - intros k0 i0. rewrite live_relabel_free. apply Hlv2.
  - change (MAXSIZE s1) with (MAXSIZE s) in *.
    rewrite fbytes_Fset by (rewrite (same_conf_max _ _ Hc2) in Hk2; exact Hk2). simpl length. lia.
Qed.
