(* ===== verification/BuddyInit.v ===== *)
(** * bd_init establishes the allocator's invariant

    The layout of the allocator's own data at the start of the heap, what the
    two calls of [bd_mark] leave in the bit arrays, which blocks
    [bd_initfree] puts on the free lists, and that the result satisfies the
    invariant with exactly the memory between the two marked ranges free. *)

From S2P Require Import Prelude Spinlock LList Buddy BuddyInv BuddyOps.

(** ** Sizes and layout *)

Fixpoint psum (f : Z -> Z) (lo : Z) (n : nat) : Z :=
  match n with
  | O => 0
  | S n' => psum f lo n' + f (lo + Z.of_nat n')
  end.

(** Bytes of the [alloc] and [split] arrays of size [k] when the largest size
    is [top]. *)
Definition ab (top k : Z) : Z := Z.quot (ROUNDUP (2 ^ (top - k)) 16) 16.
Definition sb (top k : Z) : Z := Z.quot (ROUNDUP (2 ^ (top - k)) 8) 8.

(** The allocator's own data, rounded to a multiple of 16. *)
Definition meta_size (top : Z) : Z :=
  ROUNDUP (sizeof_Sz_info * (top + 1) + psum (ab top) 0 (Z.to_nat (top + 1))
           + psum (sb top) 1 (Z.to_nat top)) LEAF_SIZE.

(** First block of size [k] after the first [off] bytes, and the block of
    size [k] that contains byte [e]. *)
Definition Lk (off k : Z) : Z := (off + blk k - 1) / blk k.
Definition Rk (e k : Z) : Z := e / blk k.

(** The largest size for [len] bytes. *)
Definition is_top (len top : Z) : Prop := 1 <= top <= 26 /\ blk (top - 1) < len <= blk top.

(** What [bd_init] needs of the memory [base, end): it is not a power of two
    blocks, the allocator's own data fills at most half of the heap, and at
    no size do the memory between the two marked ranges and the pairs of
    blocks meet in a single even block (which [bd_initfree] would push
    twice). *)
Record init_ok (base end_ top : Z) : Prop := {
  io_base : 0 < base <= 2 ^ 62;
  io_end : end_ <= 2 ^ 62;
  io_top : is_top (end_ - ROUNDUP base 16) top;
  io_notpow : end_ - ROUNDUP base 16 <= blk top - 16;
  io_meta : meta_size top <= blk (top - 1);
  io_single : forall k, 0 <= k < top ->
    ~ (Lk (meta_size top) k mod 2 = 0
       /\ Rk (16 * ((end_ - ROUNDUP base 16) / 16)) k = Lk (meta_size top) k + 1)
}.

(** ** Arithmetic *)

Lemma ROUNDUP_pos n sz : 0 < n -> 0 < sz -> ROUNDUP n sz = (n + sz - 1) / sz * sz.
Proof.
  intros Hn Hs. unfold ROUNDUP. rewrite Z.quot_div_nonneg by lia.
  replace (n + sz - 1) with (n - 1 + 1 * sz) by lia. rewrite Z.div_add by lia. lia.
Qed.

Lemma ROUNDUP_spec n sz : 0 < n -> 0 < sz -> n <= ROUNDUP n sz < n + sz /\ ROUNDUP n sz mod sz = 0.
Proof.
  intros Hn Hs. rewrite ROUNDUP_pos by done.
  pose proof (Z.div_mod (n + sz - 1) sz ltac:(lia)). pose proof (Z.mod_pos_bound (n + sz - 1) sz Hs).
  split; [nia|]. apply Z.mod_mul. lia.
Qed.

Lemma ROUNDUP_shift a n sz : 0 < n -> 0 < sz -> 0 <= a -> a mod sz = 0 -> ROUNDUP (a + n) sz = a + ROUNDUP n sz.
Proof.
  intros Hn Hs Ha Hm. rewrite !ROUNDUP_pos by lia.
  pose proof (Z.div_mod a sz ltac:(lia)) as Hd. rewrite Hm in Hd.
  replace (a + n + sz - 1) with (n + sz - 1 + (a / sz) * sz) by lia. rewrite Z.div_add by lia. lia.
Qed.

Lemma cdiv_bound n m : 0 < n -> 0 < m -> n <= m * Z.quot (ROUNDUP n m) m.
Proof.
  intros Hn Hm. destruct (ROUNDUP_spec n m Hn Hm) as [Hr Hmod].
  rewrite Z.quot_div_nonneg by lia.
  pose proof (Z.div_mod (ROUNDUP n m) m ltac:(lia)). lia.
Qed.

Lemma ab_bound top k : k <= top -> 2 ^ (top - k) <= 16 * ab top k.
Proof. intros H. apply cdiv_bound; [apply Z.pow_pos_nonneg|]; lia. Qed.

Lemma sb_bound top k : k <= top -> 2 ^ (top - k) <= 8 * sb top k.
Proof. intros H. apply cdiv_bound; [apply Z.pow_pos_nonneg|]; lia. Qed.

Lemma psum_nonneg f lo n : (forall i, lo <= i < lo + Z.of_nat n -> 0 <= f i) -> 0 <= psum f lo n.
Proof.
  induction n as [|n IH]; intros H; simpl; [lia|].
  assert (0 <= psum f lo n) by (apply IH; intros; apply H; lia).
  assert (0 <= f (lo + Z.of_nat n)) by (apply H; lia). lia.
Qed.

Lemma meta_size_ge top :
  1 <= top -> 32 * (top + 1) <= meta_size top /\ meta_size top mod 16 = 0.
Proof.
  intros Ht. unfold meta_size, sizeof_Sz_info, LEAF_SIZE.
  assert (0 <= psum (ab top) 0 (Z.to_nat (top + 1))).
  { apply psum_nonneg. intros i Hi. pose proof (ab_bound top i ltac:(lia)).
    pose proof (Z.pow_pos_nonneg 2 (top - i)). lia. }
  assert (0 <= psum (sb top) 1 (Z.to_nat top)).
  { apply psum_nonneg. intros i Hi. pose proof (sb_bound top i ltac:(lia)).
    pose proof (Z.pow_pos_nonneg 2 (top - i)). lia. }
  match goal with |- context [ ROUNDUP ?n 16 ] => destruct (ROUNDUP_spec n 16) as [? ?] end; lia.
Qed.

Lemma Lk_succ off k : 0 <= k -> 0 <= off -> Lk off (k + 1) = (Lk off k + 1) / 2.
Proof.
  intros Hk Ho. unfold Lk. rewrite blk_succ by lia. pose proof (blk_pos k Hk).
  replace ((off + blk k - 1) / blk k + 1) with ((off + blk k - 1 + 1 * blk k) / blk k)
    by (rewrite Z.div_add; lia).
  rewrite Z.div_div by lia. replace (blk k * 2) with (2 * blk k) by lia. f_equal. lia.
Qed.

Lemma Rk_succ e k : 0 <= k -> Rk e (k + 1) = Rk e k / 2.
Proof.
  intros Hk. unfold Rk. rewrite blk_succ by lia. pose proof (blk_pos k Hk).
  rewrite Z.div_div by lia. f_equal. lia.
Qed.

(** [log2] and the number of sizes. *)
Lemma log2_wp {S} n (s : S) (Q : Z -> S -> Prop) :
  1 <= n < 2 ^ 64 -> Q (Z.log2 n) s -> wp (log2 n) s Q.
Proof.
  intros Hn HQ. unfold log2.
  assert (Z.log2 n < 64) by (apply Z.log2_lt_pow2; lia).
  apply (wp_loop (fun x s' => s' = s /\ 1 <= snd x /\ 0 <= fst x /\ fst x + Z.log2 (snd x) = Z.log2 n)
                 (fun x => Z.to_nat (Z.log2 (snd x)))).
  - intros [k m] s' (-> & Hm & Hk & Hl). unfold log2_body. cbn [fst snd] in *.
    destruct (1 <? m) eqn:E; bool_prop; apply wp_ret; cbn [fst snd].
    + assert (Z.log2 (Z.shiftr m 1) = Z.log2 m - 1) as Hs.
      { rewrite Z.log2_shiftr by lia. assert (1 <= Z.log2 m) by (apply Z.log2_le_pow2; lia). lia. }
      assert (1 <= Z.log2 m) by (apply Z.log2_le_pow2; lia).
      rewrite i32_small by lia. rewrite Hs. split_and!; try lia; try done.
      rewrite Z.shiftr_div_pow2 by lia. change (2 ^ 1) with 2. dlia.
    + assert (m = 1) as -> by lia. change (Z.log2 1) with 0 in Hl.
      replace k with (Z.log2 n) by lia. done.
  - cbn [fst snd]. split_and!; try lia; done.
  - cbn [snd]. pose proof (Z.log2_nonneg n). lia.
Qed.

Lemma init_nsizes_wp {S} len top (s : S) (Q : Z -> S -> Prop) :
  is_top len top -> Q (top + 1) s -> wp (init_nsizes len) s Q.
Proof.
  intros [Ht [Hlo Hhi]] HQ. unfold init_nsizes.
  pose proof (blk_pos (top - 1) ltac:(lia)). pose proof (blk_bound top ltac:(lia)).
  assert (blk top = 2 * blk (top - 1)) as Hb by (rewrite <- blk_succ by lia; f_equal; lia).
  assert (len / 16 < 2 ^ 64) by (apply Z.div_lt_upper_bound; lia).
  unfold LEAF_SIZE. rewrite Z.quot_div_nonneg by lia. rewrite u64_small by (split; [apply Z.div_pos|]; lia).
  wp_step. apply log2_wp; [split; [apply Z.div_le_lower_bound|]; lia|].
  assert (2 ^ (top - 1) <= len / 16) as Hd1
    by (apply Z.div_le_lower_bound; [lia|]; unfold blk in Hlo; lia).
  destruct (decide (len = blk top)) as [E|E].
  - assert (len / 16 = 2 ^ top) as -> by (rewrite E; unfold blk; rewrite Z.mul_comm; apply Z.div_mul; lia).
    rewrite Z.log2_pow2, i32_small by lia. apply wp_ret.
    replace (top + 1 - 1) with top by lia. rewrite BLK_SIZE_blk. zcmp. done.
  - assert (len / 16 < 2 ^ top) by (apply Z.div_lt_upper_bound; [lia|]; unfold blk in *; lia).
    assert (Z.log2 (len / 16) = top - 1) as ->
      by (apply Z.log2_unique; [lia|]; replace (Z.succ (top - 1)) with top by lia; lia).
    rewrite i32_small by lia. apply wp_ret.
    replace (top - 1 + 1 - 1) with (top - 1) by lia. rewrite BLK_SIZE_blk. zcmp.
    rewrite i32_small by lia. by replace (top - 1 + 1 + 1) with (top + 1) by lia.
Qed.

(** ** The bit arrays after bd_mark *)

Definition inr (lo hi i : Z) : bool := (lo <=? i) && (i <? hi).

(** [marked s lo hi s']: [s'] is [s] with the blocks [lo k .. hi k) of every
    size [k] in [ks] marked. *)
Definition marked (s : bd) (lo hi : Z -> Z) (upto : Z) (s' : bd) : Prop :=
  exists l, s' = set_szs l s /\ arrs_ok s'
  /\ (forall k i, 0 <= k -> 0 <= i -> SB s' k i = SB s k i || ((1 <=? k) && (k <? upto) && inr (lo k) (hi k) i))
  /\ (forall k j, 0 <= k -> 0 <= j -> AB s' k j = xorb (AB s k j)
        ((k <? upto) && xorb (inr (lo k) (hi k) (2 * j)) (inr (lo k) (hi k) (2 * j + 1)))).

Lemma marked_refl s lo hi : arrs_ok s -> marked s lo hi 0 s.
Proof.
  intros H. exists (szs s). split; [by destruct s|]. split; [done|]. split.
  - intros k i Hk Hi. zcmp. by rewrite andb_false_r, orb_false_r.
  - intros k j Hk Hj. zcmp. by rewrite andb_false_l, xorb_false_r.
Qed.

(** The inner loop of [bd_mark], for one size. *)
Lemma mark_size_wp s k lo hi (Q : unit -> bd -> Prop) :
  arrs_ok s -> 0 <= k < nsizes s -> 0 <= lo -> hi <= nb s k ->
  (forall l, arrs_ok (set_szs l s) ->
    (forall k' i, 0 <= k' -> 0 <= i -> SB (set_szs l s) k' i
       = SB s k' i || ((1 <=? k) && (k' =? k) && inr lo hi i)) ->
    (forall k' j, 0 <= k' -> 0 <= j -> AB (set_szs l s) k' j
       = xorb (AB s k' j) ((k' =? k) && xorb (inr lo hi (2 * j)) (inr lo hi (2 * j + 1)))) ->
    Q tt (set_szs l s)) ->
  wp (for_range lo hi (fun bi => when (0 <? k) (split_set k bi) ;;; alloc_invert k (Z.quot bi 2))) s Q.
Proof.
  intros H Hk Hlo Hhi HQ. unfold for_range.
  apply (wp_for_n (fun c s' => exists l, s' = set_szs l s /\ arrs_ok s'
    /\ (forall k' i, 0 <= k' -> 0 <= i -> SB s' k' i = SB s k' i || ((1 <=? k) && (k' =? k) && inr lo c i))
    /\ (forall k' j, 0 <= k' -> 0 <= j -> AB s' k' j
          = xorb (AB s k' j) ((k' =? k) && xorb (inr lo c (2 * j)) (inr lo c (2 * j + 1)))))).
  - exists (szs s). split; [by destruct s|]. split; [done|]. unfold inr. split.
    + intros k' i _ Hi. replace ((lo <=? i) && (i <? lo)) with false by lia.
      by rewrite andb_false_r, orb_false_r.
    + intros k' j _ Hj. replace ((lo <=? 2 * j) && (2 * j <? lo)) with false by lia.
      replace ((lo <=? 2 * j + 1) && (2 * j + 1 <? lo)) with false by lia.
      by rewrite xorb_false_l, andb_false_r, xorb_false_r.
  - intros c s' Hc (l & -> & Ha & HS & HA).
    set (s1 := set_szs l s) in *.
    assert (exists l2, (forall k' i, 0 <= k' -> 0 <= i -> SB (set_szs l2 s1) k' i
        = SB s k' i || ((1 <=? k) && (k' =? k) && inr lo (c + 1) i))
      /\ (forall k' j, AB (set_szs l2 s1) k' j = AB s1 k' j) /\ arrs_ok (set_szs l2 s1)
      /\ wp (when (0 <? k) (split_set k c)) s1 (fun _ s2 => s2 = set_szs l2 s1)) as (l2 & HS2 & HA2 & Ha2 & Hwp).
    { destruct (0 <? k) eqn:E; bool_prop; simpl.
      - assert (wp (split_set k c) s1 (fun _ s2 => exists l2, s2 = set_szs l2 s1
          /\ (forall k' i, 0 <= i -> SB s2 k' i = if (k' =? k) && (i =? c) then true else SB s1 k' i)
          /\ (forall k' j, AB s2 k' j = AB s1 k' j) /\ arrs_ok s2)) as (? & s2 & Hrun & l2 & -> & Hx & Hy & Hz).
        { unfold split_set. apply (split_write_wp s1 k c bit_set true); [apply bit_set_spec | done | simpl; lia
            | change (nb s1 k) with (nb s k); lia|].
          intros l2 ? ? ?. exists l2. split_and!; done. }
        exists l2. split_and!; try done; [|exists x, (set_szs l2 s1); done].
        intros k' i Hk' Hi. rewrite Hx, HS by done. unfold inr.
        zcmp. destruct (k' =? k) eqn:Ek; bool_prop; simpl; [|by rewrite orb_false_r].
        destruct (i =? c) eqn:Ei; bool_prop; subst.
        + replace ((lo <=? c) && (c <? c + 1)) with true by lia. by rewrite orb_true_r.
        + by replace ((lo <=? i) && (i <? c)) with ((lo <=? i) && (i <? c + 1)) by lia.
      - exists (szs s1). replace (set_szs (szs s1) s1) with s1 by done. split_and!; try done.
        + intros k' i Hk' Hi. rewrite HS by done. zcmp. done.
        + by apply wp_ret. }
    wp_step. eapply wp_mono; [exact Hwp|]. intros [] s2 ->.
    assert (Z.quot c 2 = c / 2) as -> by (apply Z.quot_div_nonneg; lia).
    apply alloc_invert_wp; [done | simpl; lia | dlia | change (nb (set_szs l2 s1) k) with (nb s k); dlia|].
    intros l3 Ha3 HA3 HS3. exists l3. split; [done|]. split; [done|]. split.
    + intros k' i Hk' Hi. rewrite HS3. by apply HS2.
    + intros k' j Hk' Hj. rewrite HA3 by done. rewrite !HA2.
      rewrite !HA by (done || dlia). unfold inr.
      destruct (k' =? k) eqn:Ek; bool_prop; cbn [andb]; [|done]. subst k'.
      destruct (j =? c / 2) eqn:Ej; bool_prop.
      * subst j. zcmp. cbn [andb].
        assert (c = 2 * (c / 2) \/ c = 2 * (c / 2) + 1) as [Ec|Ec] by dlia;
          set (j := c / 2) in *.
        -- replace ((lo <=? 2 * j) && (2 * j <? c)) with false by lia.
           replace ((lo <=? 2 * j) && (2 * j <? c + 1)) with true by lia.
           replace ((lo <=? 2 * j + 1) && (2 * j + 1 <? c)) with false by lia.
           replace ((lo <=? 2 * j + 1) && (2 * j + 1 <? c + 1)) with false by lia.
           by destruct (AB s k j).
        -- replace ((lo <=? 2 * j) && (2 * j <? c)) with ((lo <=? 2 * j) && (2 * j <? c + 1)) by lia.
           replace ((lo <=? 2 * j + 1) && (2 * j + 1 <? c)) with false by lia.
           replace ((lo <=? 2 * j + 1) && (2 * j + 1 <? c + 1)) with true by lia.
           by destruct (AB s k j), ((lo <=? 2 * j) && (2 * j <? c + 1)).
      * assert (2 * j <> c /\ 2 * j + 1 <> c) as [? ?] by dlia.
        replace ((lo <=? 2 * j) && (2 * j <? c)) with ((lo <=? 2 * j) && (2 * j <? c + 1)) by lia.
        by replace ((lo <=? 2 * j + 1) && (2 * j + 1 <? c))
          with ((lo <=? 2 * j + 1) && (2 * j + 1 <? c + 1)) by lia.
  - assert (lo + Z.of_nat (Z.to_nat (hi - lo)) = Z.max lo hi) as -> by lia.
    assert (forall i, inr lo (Z.max lo hi) i = inr lo hi i) as Hin.
    { intros i. unfold inr. destruct (lo <=? i) eqn:E1; bool_prop; [|done].
      destruct (i <? hi) eqn:E2; bool_prop; cbn [andb]; [apply Z.ltb_lt | apply Z.ltb_ge]; lia. }
    intros s' (l & -> & Ha & HS & HA). apply HQ; [done| |].
    + intros k' i Hk' Hi. by rewrite HS, Hin by done.
    + intros k' j Hk' Hj. by rewrite HA, !Hin by done.
Qed.

Lemma bd_mark_wp s start stop (Q : unit -> bd -> Prop) :
  arrs_ok s -> start mod 16 = 0 -> stop mod 16 = 0 ->
  (forall k, 0 <= k < nsizes s -> 0 <= blk_index s k start /\ blk_index_next s k stop <= nb s k) ->
  (forall s', marked s (fun k => blk_index s k start) (fun k => blk_index_next s k stop) (nsizes s) s' -> Q tt s') ->
  wp (bd_mark start stop) s Q.
Proof.
  intros H Hs1 Hs2 Hr HQ. unfold bd_mark, LEAF_SIZE. rewrite Hs1, Hs2. simpl.
  wp_step. apply wp_ret. wp_step. wp_step.
  set (lo := fun k => blk_index s k start) in *. set (hi := fun k => blk_index_next s k stop) in *.
  unfold for_range at 1.
  apply (wp_for_n (fun c s' => marked s lo hi c s')).
  - by apply marked_refl.
  - intros k s' Hk (l & -> & Ha & HS & HA). destruct (Hr k) as [Hlo Hhi]; [lia|].
    apply (mark_size_wp (set_szs l s) k (lo k) (hi k)); [done | simpl; lia | done | done |].
    intros l2 Ha2 HS2 HA2. exists l2. split; [done|]. split; [done|]. split.
    + intros k' i Hk' Hi. rewrite HS2, HS by done.
      destruct (k' =? k) eqn:Ek; bool_prop; subst.
      * replace (k <? k) with false by lia. replace (k <? k + 1) with true by lia.
        by rewrite andb_false_r, orb_false_r, !andb_true_r.
      * replace (k' <? k + 1) with (k' <? k) by lia. by rewrite andb_false_r, orb_false_r.
    + intros k' j Hk' Hj. rewrite HA2, HA by done.
      destruct (k' =? k) eqn:Ek; bool_prop; subst.
      * replace (k <? k) with false by lia. replace (k <? k + 1) with true by lia. cbn [andb].
        by rewrite xorb_false_r.
      * replace (k' <? k + 1) with (k' <? k) by lia. cbn [andb]. by rewrite xorb_false_r.
  - intros s' Hm. apply HQ.
    destruct (Z.le_gt_cases 0 (nsizes s)).
    + by replace (0 + Z.of_nat (Z.to_nat (nsizes s - 0))) with (nsizes s) in Hm by lia.
    + pose proof (arrs_len _ H). lia.
Qed.

(** ** The statuses bd_init sets up *)

Section Geometry.
  Context (top off e : Z).

Definition L (k : Z) : Z := Lk off k.
Definition R (k : Z) : Z := Rk e k.

(** Block (k, i) touches one of the two reserved ranges. *)
Definition ov (k i : Z) : bool := (i <? L k) || (R k <=? i).

Definition in_heap (k i : Z) : bool :=
  (0 <=? k) && (k <=? top) && (0 <=? i) && (i <? 2 ^ (top - k)).

(** [v] is the status of the blocks that are to go on the free lists. *)
Definition geo (v : status) : smap := fun k i =>
  if negb (in_heap k i) then Absent
  else if ov k i then (if k =? 0 then Meta else Split)
  else if (k <? top) && ov (k + 1) (i / 2) then v else Absent.

Hypothesis Htop : 1 <= top.
Hypothesis Hoff : 0 < off <= blk (top - 1).
Hypothesis Hoff16 : off mod 16 = 0.
Hypothesis He : blk (top - 1) <= e <= blk top - 16.
Hypothesis He16 : e mod 16 = 0.

Lemma L_succ k : 0 <= k -> L (k + 1) = (L k + 1) / 2.
Proof. intros H. apply Lk_succ; lia. Qed.

Lemma R_succ k : 0 <= k -> R (k + 1) = R k / 2.
Proof. apply Rk_succ. Qed.

Lemma pow_split k : 0 <= k < top -> 2 ^ (top - k) = 2 * 2 ^ (top - (k + 1)).
Proof. intros H. replace (top - k) with (top - (k + 1) + 1) by lia. rewrite Z.pow_add_r; lia. Qed.

Lemma blk_top k : 0 <= k <= top -> blk top = 2 ^ (top - k) * blk k.
Proof. intros H. unfold blk. replace top with (top - k + k) at 1 by lia. rewrite Z.pow_add_r; lia. Qed.

(** Reserved blocks at the two ends, with the middle of the heap between. *)
Lemma LR_bounds k :
  0 <= k < top -> 1 <= L k <= 2 ^ (top - (k + 1)) /\ 2 ^ (top - (k + 1)) <= R k < 2 ^ (top - k).
Proof.
  intros Hk. pose proof (blk_pos k ltac:(lia)) as Hb.
  assert (blk (top - 1) = 2 ^ (top - (k + 1)) * blk k) as Hh.
  { unfold blk. replace (top - 1) with (top - (k + 1) + k) by lia. rewrite Z.pow_add_r; lia. }
  pose proof (blk_top k ltac:(lia)) as Ht.
  unfold L, R, Lk, Rk. split; split.
  - apply Z.div_le_lower_bound; lia.
  - apply Z.lt_succ_r. apply Z.div_lt_upper_bound; nia.
  - apply Z.div_le_lower_bound; nia.
  - apply Z.div_lt_upper_bound; nia.
Qed.

Lemma LR_top : L top = 1 /\ R top = 0.
Proof.
  assert (blk top = 2 * blk (top - 1)) as Hb by (rewrite <- blk_succ by lia; f_equal; lia).
  pose proof (blk_pos (top - 1) ltac:(lia)). unfold L, R, Lk, Rk. split.
  - symmetry. apply Z.div_unique with (off - 1); lia.
  - apply Z.div_small. lia.
Qed.

Lemma L_nonneg k : 0 <= k -> 0 <= L k.
Proof. intros H. pose proof (blk_pos k H). apply Z.div_pos; lia. Qed.

(** A block touches a reserved range when one of its halves does. *)
Lemma ov_parent k i : 0 <= k -> ov (k + 1) i = ov k (2 * i) || ov k (2 * i + 1).
Proof. intros Hk. unfold ov. rewrite L_succ, R_succ by done. bool_lia. Qed.

Lemma ov_up k i : 0 <= k -> ov k i = true -> ov (k + 1) (i / 2) = true.
Proof.
  intros Hk H. rewrite ov_parent by done.
  assert (i = 2 * (i / 2) \/ i = 2 * (i / 2) + 1) as [E|E] by dlia; rewrite E in H; rewrite H; auto.
  apply orb_true_r.
Qed.

Lemma in_heap_up k i : 0 <= k < top -> in_heap k i = in_heap (k + 1) (i / 2).
Proof.
  intros Hk. unfold in_heap. rewrite (pow_split k Hk). set (c := 2 ^ (top - (k + 1))).
  bool_lia.
Qed.

Lemma geo_tree v : v = Free \/ v = Alloc -> tree_ok top (geo v).
Proof.
  intros Hv. constructor.
  - intros k i Hs. unfold geo in Hs. destruct (in_heap k i) eqn:E; [|done].
    unfold in_heap in E. lia.
  - intros k i Hk. unfold geo. rewrite (in_heap_up k i Hk).
    destruct (in_heap (k + 1) (i / 2)); simpl; [|done]. zcmp.
    destruct (ov k i) eqn:E; [rewrite (ov_up k i) by (done || lia); split; [done|]; by case_if|].
    cbn [andb]. destruct (ov (k + 1) (i / 2)) eqn:E2; simpl.
    + split; [done|]. destruct Hv; congruence.
    + split; [done|]. case_if; [destruct Hv; congruence | done].
  - intros i. unfold geo. repeat case_if; try done; destruct Hv; congruence.
  - intros k i. unfold geo. repeat case_if; try done; destruct Hv; congruence.
  - unfold geo, in_heap, ov. destruct LR_top as [-> ->]. rewrite Z.sub_diag. zcmp. done.
Qed.

Lemma geo_coalesced : coalesced top (geo Free).
Proof.
  intros k j Hk [H1 H2]. unfold geo in H1, H2.
  replace (2 * j / 2) with j in H1 by dlia.
  destruct (negb (in_heap k (2 * j))); [done|]. destruct (negb (in_heap k (2 * j + 1))); [done|].
  destruct (ov k (2 * j)) eqn:E1; [by case_if_in H1|].
  destruct (ov k (2 * j + 1)) eqn:E2; [by case_if_in H2|].
  rewrite (ov_parent k j), E1, E2 in H1 by lia. by rewrite andb_false_r in H1.
Qed.

(** The free blocks of size [k]: at most the first block after the lower
    range and the last block before the upper range. *)
Definition free_list (k : Z) : list Z :=
  (if (R k mod 2 =? 1) && (L k <? R k) then [R k - 1] else [])
  ++ (if (L k mod 2 =? 1) && (L k <? R k) then [L k] else []).

Lemma geo_free k i : 0 <= k < top -> (geo Free k i = Free <-> i ∈ free_list k).
Proof.
  intros Hk. pose proof (LR_bounds k Hk) as [HL HR]. pose proof (pow_split k Hk) as Hp.
  unfold geo. zcmp. cbn [andb].
  assert (ov (k + 1) (i / 2) = (2 * (i / 2) <? L k) || (R k <=? 2 * (i / 2) + 1)) as ->.
  { rewrite ov_parent by lia. unfold ov. bool_lia. }
  unfold free_list, in_heap, ov. rewrite elem_of_app. zcmp. cbn [andb].
  set (c := 2 ^ (top - (k + 1))) in *. rewrite Hp.
  destruct ((0 <=? i) && (i <? 2 * c)) eqn:E1; cbn [negb]; bool_prop.
  - destruct ((i <? L k) || (R k <=? i)) eqn:E2; bool_prop.
    + split; [by case_if|]. intros [Hin|Hin]; exfalso; case_if_in Hin;
        try (by apply not_elem_of_nil in Hin); apply list_elem_of_singleton in Hin; lia.
    + destruct ((2 * (i / 2) <? L k) || (R k <=? 2 * (i / 2) + 1)) eqn:E3; bool_prop.
      * split; [intros _|done]. destruct E3; bool_prop.
        -- right. zcmp. assert (L k = i /\ i mod 2 = 1) as [-> Hm] by dlia. rewrite Hm. zcmp. set_solver.
        -- left. zcmp. assert (R k = i + 1 /\ i mod 2 = 0) as [-> Hm] by dlia.
           replace ((i + 1) mod 2) with 1 by dlia. zcmp. replace (i + 1 - 1) with i by lia. set_solver.
      * split; [done|]. intros [Hin|Hin]; exfalso; case_if_in Hin;
          try (by apply not_elem_of_nil in Hin); apply list_elem_of_singleton in Hin; dlia.
  - split; [done|]. intros [Hin|Hin]; exfalso; case_if_in Hin;
      try (by apply not_elem_of_nil in Hin); apply list_elem_of_singleton in Hin;
      destruct E1; bool_prop; lia.
Qed.

(** The bytes still to be put on free lists from size [k] on. *)
Definition rest_bytes (k : Z) : Z := Z.max 0 (R k - L k) * blk k.

Lemma rest_bytes_step k :
  0 <= k < top -> rest_bytes k = blk k * Z.of_nat (length (free_list k)) + rest_bytes (k + 1).
Proof.
  intros Hk. unfold rest_bytes, free_list. rewrite L_succ, R_succ, blk_succ by lia.
  rewrite length_app.
  assert (Z.max 0 (R k - L k) = Z.of_nat (length (if (R k mod 2 =? 1) && (L k <? R k) then [R k - 1] else []))
    + Z.of_nat (length (if (L k mod 2 =? 1) && (L k <? R k) then [L k] else []))
    + 2 * Z.max 0 (R k / 2 - (L k + 1) / 2)) as ->; [|rewrite Nat2Z.inj_add; lia].
  destruct (L k <? R k) eqn:E1; bool_prop; rewrite ?andb_false_r, ?andb_true_r; simpl length; [|dlia].
  destruct (R k mod 2 =? 1) eqn:E2, (L k mod 2 =? 1) eqn:E3; bool_prop; simpl length; dlia.
Qed.

Lemma rest_bytes_0 : rest_bytes 0 = e - off.
Proof.
  unfold rest_bytes, L, R, Lk, Rk. change (blk 0) with 16.
  assert (off <= e) by lia. dlia.
Qed.

Lemma rest_bytes_top : rest_bytes top = 0.
Proof. unfold rest_bytes. destruct LR_top as [-> ->]. lia. Qed.

End Geometry.

(** ** Carving out the bit arrays *)

Lemma NBLK_nb s k : 0 <= k <= MAXSIZE s -> MAXSIZE s <= 26 -> NBLK s k = nb s k.
Proof.
  intros Hk HM. unfold NBLK, nb. rewrite Z.shiftl_1_l. apply i32_small.
  pose proof (Z.pow_le_mono_r 2 (MAXSIZE s - k) 26). pose proof (Z.pow_pos_nonneg 2 (MAXSIZE s - k)). lia.
Qed.

Section Carve.
  Context (top : Z) (s : bd).
  Hypothesis Htop : 1 <= top <= 26.
  Hypothesis Hn : nsizes s = top + 1.
  Hypothesis Hlen : Z.of_nat (length (szs s)) = nsizes s.

Lemma bytes_ab k : 0 <= k <= top -> alloc_bytes s k = ab top k /\ split_bytes s k = sb top k.
Proof.
  intros Hk. assert (MAXSIZE s = top) as HM by (unfold MAXSIZE; lia).
  unfold alloc_bytes, split_bytes, ab, sb. rewrite NBLK_nb by lia. unfold nb. by rewrite HM.
Qed.

(** A loop round that stores [z'] as the arrays of size [k]. *)
Lemma store_sz_wp {B} k h l (f : sz_info -> sz_info) (cont : M bd B) (Q : B -> bd -> Prop) :
  Z.of_nat (length l) = nsizes s -> 0 <= k < nsizes s ->
  (forall z, aget l k = Some z -> wp cont (set_heap h (set_szs (<[Z.to_nat k := f z]> l) s)) Q) ->
  wp (z <- get_sz k ;; put_sz k (f z) ;;; cont) (set_heap h (set_szs l s)) Q.
Proof.
  intros Hl Hk HQ. destruct (aget_is_Some l k) as [z Hz]; [lia|].
  wp_step. unfold get_sz. wp_steps. eapply wp_from_option; [exact Hz|].
  unfold put_sz. wp_steps. eapply wp_from_option; [simpl; apply aset_is_Some; lia|].
  wp_steps. by apply HQ.
Qed.

Lemma init_alloc_wp p (Q : Z -> bd -> Prop) :
  (forall k z, aget (szs s) k = Some z -> split z = []) -> aligned (bd_sizes s) ->
  (forall h l, Z.of_nat (length l) = nsizes s ->
     (forall k, 0 <= k < nsizes s -> aget l k = Some (mkSz (zeroes (ab top k)) [])
        /\ dll h (free_head s k) []) ->
     Q (p + psum (ab top) 0 (Z.to_nat (top + 1))) (set_heap h (set_szs l s))) ->
  wp (init_alloc p) s Q.
Proof.
  intros Hsp Hal HQ. unfold init_alloc. wp_step. wp_step.
  assert (forall k, aligned (free_head s k)) as Hhead.
  { intros k. unfold aligned, free_head, sizeof_Sz_info in *. dlia. }
  apply (wp_loop (fun x s' => 0 <= fst x <= nsizes s /\ exists h l, s' = set_heap h (set_szs l s)
      /\ Z.of_nat (length l) = nsizes s
      /\ (forall k, 0 <= k < fst x -> aget l k = Some (mkSz (zeroes (ab top k)) [])
            /\ dll h (free_head s k) [])
      /\ (forall k, fst x <= k -> aget l k = aget (szs s) k)
      /\ snd x = p + psum (ab top) 0 (Z.to_nat (fst x)))
    (fun x => Z.to_nat (nsizes s - fst x))).
  - intros [k q] s' (Hk & h & l & -> & Hl & Hdone & Htodo & Hq). cbn [fst snd] in *.
    destruct (k <? nsizes s) eqn:E; bool_prop.
    + wp_step. wp_step. cbn beta.
      set (h2 := lst_init (free_head s k) h).
      change (set_heap (lst_init (free_head (set_heap h (set_szs l s)) k) (heap (set_heap h (set_szs l s))))
                (set_heap h (set_szs l s))) with (set_heap h2 (set_szs l s)).
      destruct (bytes_ab k) as [Hab _]; [lia|]. rewrite Hab.
      apply (store_sz_wp k h2 l (fun z => mkSz (zeroes (ab top k)) (split z))); [done | lia |].
      intros z Hz. apply wp_ret. cbn [fst snd]. split; [|lia]. split; [lia|].
      exists h2, (<[Z.to_nat k := mkSz (zeroes (ab top k)) (split z)]> l).
      split; [done|]. split; [by rewrite length_insert|]. split; [|split].
      * intros k' Hk'. rewrite aget_insert by lia. case_if.
        -- subst k'. split; [|by apply dll_init]. rewrite (Hsp k z); [done|]. rewrite <- Hz. symmetry. by apply Htodo.
        -- destruct (Hdone k') as [Ha Hd]; [lia|]. split; [done|].
           apply (only_nodes_frame [free_head s k] h); [| by apply Forall_singleton | | done].
           ++ intros x Hx. destruct (Hx (free_head s k)) as [? ?]; [set_solver|].
              unfold h2, lst_init. by rewrite !upd_ne by done.
           ++ intros n Hin. apply list_elem_of_singleton in Hin as ->.
              unfold free_head, sizeof_Sz_info. rewrite list_elem_of_singleton. lia.
      * intros k' Hk'. rewrite aget_insert by lia. zcmp. apply Htodo. lia.
      * replace (Z.to_nat (k + 1)) with (S (Z.to_nat k)) by lia. simpl.
        replace (0 + Z.of_nat (Z.to_nat k)) with k by lia. lia.
    + apply wp_ret. assert (k = nsizes s) as -> by lia. rewrite Hq, Hn. apply HQ; [done|].
      intros k' Hk'. apply Hdone. lia.
  - cbn [fst snd]. split; [lia|]. exists (heap s), (szs s). split; [by destruct s|].
    split_and!; [done | lia | done | simpl; lia].
  - cbn [fst]. lia.
Qed.

Lemma init_split_wp p (Q : Z -> bd -> Prop) :
  (forall k, 0 <= k < nsizes s -> aget (szs s) k = Some (mkSz (zeroes (ab top k)) [])) ->
  (forall l, Z.of_nat (length l) = nsizes s ->
     (forall k, 0 <= k < nsizes s -> aget l k
        = Some (mkSz (zeroes (ab top k)) (if k =? 0 then [] else zeroes (sb top k)))) ->
     Q (p + psum (sb top) 1 (Z.to_nat top)) (set_szs l s)) ->
  wp (init_split p) s Q.
Proof.
  intros Hal HQ. unfold init_split. wp_step. wp_step.
  apply (wp_loop (fun x s' => 1 <= fst x <= nsizes s /\ exists l, s' = set_heap (heap s) (set_szs l s)
      /\ Z.of_nat (length l) = nsizes s
      /\ (forall k, 0 <= k < nsizes s -> aget l k = Some (mkSz (zeroes (ab top k))
            (if (k =? 0) || (fst x <=? k) then [] else zeroes (sb top k))))
      /\ snd x = p + psum (sb top) 1 (Z.to_nat (fst x - 1)))
    (fun x => Z.to_nat (nsizes s - fst x))).
  - intros [k q] s' (Hk & l & -> & Hl & Hdone & Hq). cbn [fst snd] in *.
    destruct (k <? nsizes s) eqn:E; bool_prop.
    + destruct (bytes_ab k) as [_ Hsb]; [lia|]. rewrite Hsb.
      apply (store_sz_wp k (heap s) l (fun z => mkSz (alloc z) (zeroes (sb top k)))); [done | lia |].
      intros z Hz. apply wp_ret. cbn [fst snd]. split; [|lia]. split; [lia|].
      eexists. split; [done|]. split; [by rewrite length_insert|]. split.
      * intros k' Hk'. rewrite aget_insert by lia. destruct (k' =? k) eqn:Ek; bool_prop.
        -- subst k'. rewrite Hdone in Hz by lia. injection Hz as <-. simpl. zcmp. done.
        -- rewrite Hdone by lia. f_equal. f_equal.
           replace (k + 1 <=? k') with (k <=? k') by bool_lia. done.
      * replace (Z.to_nat (k + 1 - 1)) with (S (Z.to_nat (k - 1))) by lia. simpl.
        replace (1 + Z.of_nat (Z.to_nat (k - 1))) with k by lia. lia.
    + apply wp_ret. assert (k = nsizes s) as -> by lia. rewrite Hq.
      replace (Z.to_nat (nsizes s - 1)) with (Z.to_nat top) by lia.
      change (set_heap (heap s) (set_szs l s)) with (set_szs l s). apply HQ; [done|].
      intros k' Hk'. rewrite Hdone by done. replace (nsizes s <=? k') with false by bool_lia.
      by rewrite orb_false_r.
  - cbn [fst snd]. split; [lia|]. exists (szs s). split; [by destruct s|]. split; [done|]. split; [|simpl; lia].
    intros k Hk. rewrite Hal by done. f_equal. f_equal.
    by replace ((k =? 0) || (1 <=? k)) with true by bool_lia.
  - cbn [fst]. lia.
Qed.

End Carve.

Lemma tb_zeroes n i : tb (zeroes n) i = false.
Proof.
  unfold tb, zeroes, aget. case_if; [done|].
  destruct (replicate (Z.to_nat n) 0 !! Z.to_nat (i / 8)) as [b|] eqn:E'; [|done].
  apply lookup_replicate in E' as [-> _]. apply Z.testbit_0_l.
Qed.

(** After carving: all bits clear, arrays long enough. *)
Lemma carved_arrs top s :
  1 <= top <= 26 -> nsizes s = top + 1 -> Z.of_nat (length (szs s)) = nsizes s ->
  (forall k, 0 <= k < nsizes s -> aget (szs s) k
     = Some (mkSz (zeroes (ab top k)) (if k =? 0 then [] else zeroes (sb top k)))) ->
  arrs_ok s /\ (forall k j, AB s k j = false) /\ (forall k i, SB s k i = false).
Proof.
  intros Ht Hn Hl Hz.
  assert (forall k z, aget (szs s) k = Some z ->
    0 <= k < nsizes s /\ z = mkSz (zeroes (ab top k)) (if k =? 0 then [] else zeroes (sb top k))) as Hz'.
  { intros k z Hk. pose proof (aget_range _ _ _ Hk). rewrite Hz in Hk by lia. split; [lia | congruence]. }
  assert (forall n, bytes_ok (zeroes n)) as Hb by (intros; by apply Forall_replicate).
  split; [|split].
  - constructor; [done|]. intros k z Hk. apply Hz' in Hk as [Hr ->]. simpl.
    assert (nb s k = 2 ^ (top - k)) as -> by (unfold nb, MAXSIZE; f_equal; lia).
    split_and!; [done | case_if; [constructor | done] | |].
    + unfold zeroes. rewrite length_replicate. pose proof (ab_bound top k). lia.
    + intros Hk1. zcmp. unfold zeroes. rewrite length_replicate. pose proof (sb_bound top k). lia.
  - intros k j. unfold AB. destruct (aget (szs s) k) eqn:E; [|done].
    apply Hz' in E as [_ ->]. apply tb_zeroes.
  - intros k j. unfold SB. destruct (aget (szs s) k) eqn:E; [|done].
    apply Hz' in E as [_ ->]. simpl. case_if; [by unfold tb; rewrite ?aget_lookup; destruct (aget [] _) eqn:E2; [apply aget_range in E2; simpl in E2; lia|]|apply tb_zeroes].
Qed.

(** ** The free lists after bd_initfree *)

Lemma blk_index_next_Lk s k off :
  0 <= k <= MAXSIZE s -> MAXSIZE s <= 26 -> 0 <= off <= blk (MAXSIZE s) ->
  blk_index_next s k (bd_base s + off) = Lk off k.
Proof.
  intros Hk HM Ho. unfold blk_index_next, Lk. rewrite BLK_SIZE_blk.
  pose proof (blk_pos k ltac:(lia)) as Hb. pose proof (blk_bound (MAXSIZE s)).
  replace (bd_base s + off - bd_base s) with off by lia.
  rewrite Z.quot_div_nonneg, Z.rem_mod_nonneg by lia.
  assert (0 <= off / blk k <= off) by (split; [apply Z.div_pos; lia | apply Z.div_le_upper_bound; nia]).
  rewrite (i32_small (off / blk k)) by lia.
  pose proof (Z.div_mod off (blk k) ltac:(lia)) as Hd. pose proof (Z.mod_pos_bound off (blk k) ltac:(lia)).
  destruct (off mod blk k =? 0) eqn:E; bool_prop; simpl.
  - apply (Z.div_unique _ _ _ (blk k - 1)); lia.
  - rewrite i32_small by lia. apply (Z.div_unique _ _ _ (off mod blk k - 1)); lia.
Qed.

Lemma blk_index_Rk s k e :
  0 <= k <= MAXSIZE s -> MAXSIZE s <= 26 -> 0 <= e <= blk (MAXSIZE s) ->
  blk_index s k (bd_base s + e) = Rk e k.
Proof.
  intros Hk HM He. rewrite blk_index_div by lia. unfold Rk. f_equal. lia.
Qed.

(** Push a handed-out block, without touching the bits. *)
Lemma core_push s st F k i :
  core s st F -> st k i = Alloc ->
  core (set_heap (lst_push (free_head s k) (baddr s k i) (heap s)) s)
       (sset st k i Free) (Fset F k (baddr s k i :: F k)).
Proof.
  intros H Hst. destruct (inv_range _ _ _ H k i) as [Hk _]; [congruence|]. constructor.
  - apply (conf_sset s); [done | done | done | congruence | apply (co_conf _ _ _ H)].
  - apply tree_relabel; auto. apply (co_tree _ _ _ H).
  - eapply (lists_push s st F H); eauto.
Qed.

Lemma geo_relabel top off e k i :
  geo top off e Alloc k i = match geo top off e Free k i with Free => Alloc | v => v end.
Proof. unfold geo. repeat case_if; done. Qed.

Section InitFree.
  Context (top off e : Z) (s : bd).
  Hypothesis Htop : 1 <= top <= 26.
  Hypothesis Hn : nsizes s = top + 1.
  Hypothesis Hoff : 0 < off <= blk (top - 1).
  Hypothesis Hoff16 : off mod 16 = 0.
  Hypothesis He : blk (top - 1) <= e <= blk top - 16.
  Hypothesis He16 : e mod 16 = 0.
  Hypothesis Hsingle : forall k, 0 <= k < top -> ~ (L off k mod 2 = 0 /\ R e k = L off k + 1).
  Hypothesis Harrs : arrs_ok s.
  Hypothesis HAB : forall k j, 0 <= k < top -> 0 <= j -> 2 * j < 2 ^ (top - k) ->
    AB s k j = xorb (ov off e k (2 * j)) (ov off e k (2 * j + 1)).

#[local] Lemma HM : MAXSIZE s = top.
Proof. unfold MAXSIZE. lia. Qed.

Lemma left_bit k : 0 <= k < top -> AB s k (L off k / 2) = (L off k mod 2 =? 1) && (L off k <? R e k).
Proof.
  intros Hk. destruct (LR_bounds top off e Hoff He k Hk) as [HL HR]. pose proof (pow_split top k Hk).
  pose proof (Hsingle k Hk) as Hs. rewrite HAB by (done || dlia). unfold ov.
  set (l := L off k) in *. set (r := R e k) in *. clearbody l r. bool_lia.
Qed.

Lemma right_bit k : 0 <= k < top -> L off k < R e k -> AB s k (R e k / 2) = (R e k mod 2 =? 1).
Proof.
  intros Hk Hlt. destruct (LR_bounds top off e Hoff He k Hk) as [HL HR].
  rewrite HAB by (done || dlia). unfold ov.
  set (l := L off k) in *. set (r := R e k) in *. clearbody l r. bool_lia.
Qed.

Lemma initfree_pair_wp h k bi b (right : bool) (Q : Z -> bd -> Prop) :
  0 <= k < top -> 0 <= bi < 2 ^ (top - k) -> AB s k (bi / 2) = b ->
  (b = true -> Q (blk k) (set_heap (lst_push (free_head s k)
      (baddr s k (if right then buddy_of bi else bi)) h) s)) ->
  (b = false -> Q 0 (set_heap h s)) ->
  wp (bd_initfree_pair k bi right) (set_heap h s) Q.
Proof.
  intros Hk Hbi Hb HQ1 HQ2. unfold bd_initfree_pair. wp_step. wp_step.
  assert (Z.quot bi 2 = bi / 2) as -> by (apply Z.quot_div_nonneg; lia).
  assert (nb s k = 2 ^ (top - k)) as Hnb by (unfold nb; by rewrite HM).
  pose proof (pow_split top k Hk) as Hp.
  wp_step. apply alloc_isset_wp; [by apply arrs_set_heap | simpl; lia | dlia
    | change (nb (set_heap h s) k) with (nb s k); dlia |].
  change (AB (set_heap h s) k (bi / 2)) with (AB s k (bi / 2)). rewrite Hb.
  destruct b; [|by apply wp_ret, HQ2].
  destruct (buddy_of_spec bi) as (_ & Hbd0 & Hcase); [lia|].
  assert ((if right then addr (set_heap h s) k (buddy_of bi) else addr (set_heap h s) k bi)
    = baddr s k (if right then buddy_of bi else bi)) as ->.
  { change (addr (set_heap h s)) with (addr s). pose proof HM.
    destruct right; apply addr_baddr; try lia; rewrite Hnb; dlia. }
  wp_step. apply free_push_wp; [by apply arrs_set_heap | simpl; lia|].
  apply wp_ret. rewrite BLK_SIZE_blk, i32_small; [by apply HQ1|].
  pose proof (blk_pos k ltac:(lia)). pose proof (blk_bound k ltac:(lia)). lia.
Qed.

(** The free lists up to size [k] are made, the bigger ones are empty. *)
Record partial (k free : Z) (s' : bd) : Prop := mkPartial {
  pa_ex : exists h st F, s' = set_heap h s /\ core s' st F
    /\ (forall k' i, st k' i = geo top off e (if k' <? k then Free else Alloc) k' i)
    /\ (forall k', k <= k' <= top -> F k' = [])
    /\ fbytes top F = free
    /\ free + rest_bytes off e k = e - off
}.

Definition opt_push (b : bool) (k i : Z) (h : mem) : mem :=
  if b then lst_push (free_head s k) (baddr s k i) h else h.
Definition opt_free (b : bool) (k i : Z) (st : smap) : smap := if b then sset st k i Free else st.
Definition opt_list (b : bool) (k i : Z) (F : Z -> list Z) : Z -> list Z :=
  if b then Fset F k (baddr s k i :: F k) else F.

Lemma opt_push_core b k i h st F :
  core (set_heap h s) st F -> (b = true -> st k i = Alloc) ->
  core (set_heap (opt_push b k i h) s) (opt_free b k i st) (opt_list b k i F).
Proof.
  intros H Hb. destruct b; [|done]. simpl.
  exact (core_push (set_heap h s) st F k i H (Hb eq_refl)).
Qed.

Lemma opt_list_bytes b k i F :
  0 <= k <= top -> fbytes top (opt_list b k i F) = fbytes top F + (if b then blk k else 0).
Proof.
  intros Hk. destruct b; simpl; [|lia]. rewrite fbytes_Fset by done. simpl length. lia.
Qed.

Lemma opt_free_eq b k i st k' i' :
  opt_free b k i st k' i' = if b && (k' =? k) && (i' =? i) then Free else st k' i'.
Proof. by destruct b. Qed.

(** Whether size [k] has a free block at its lower and at its upper end. *)
Definition bl (k : Z) : bool := (L off k mod 2 =? 1) && (L off k <? R e k).
Definition br (k : Z) : bool := (R e k mod 2 =? 1) && (L off k <? R e k).

Lemma geo_alloc_free v k i : 0 <= k < top ->
  geo top off e Free k i = if bool_decide (i ∈ free_list off e k) then Free else geo top off e v k i.
Proof.
  intros Hk. pose proof (geo_free top off e ltac:(lia) Hoff Hoff16 He He16 k i Hk) as G.
  case_bool_decide as Hin; [by apply G|].
  unfold geo in *. repeat case_if; try done. exfalso. tauto.
Qed.

Lemma in_free_list k i :
  bool_decide (i ∈ free_list off e k) = (br k && (i =? R e k - 1)) || (bl k && (i =? L off k)).
Proof.
  unfold free_list. fold (bl k) (br k). apply Bool.eq_iff_eq_true.
  rewrite bool_decide_eq_true, elem_of_app, orb_true_iff, !andb_true_iff, !Z.eqb_eq.
  destruct (bl k), (br k); rewrite ?list_elem_of_singleton; set_solver.
Qed.

(** The pushes of one size are those of [free_list]. *)
Lemma partial_step k free h : 0 <= k < top ->
  partial k free (set_heap h s) ->
  partial (k + 1) (free + (if bl k then blk k else 0) + (if br k then blk k else 0))
    (set_heap (opt_push (br k) k (R e k - 1) (opt_push (bl k) k (L off k) h)) s).
Proof.
  intros Hk [(h0 & st & F & E & Hcore & Hst & HF & Hfb & Hrest)].
  assert (forall i, st k i = geo top off e Alloc k i) as Hstk by (intros; rewrite Hst; by zcmp).
  assert (forall i, i ∈ free_list off e k -> st k i = Alloc) as Hal.
  { intros i Hin. apply (geo_free top off e ltac:(lia) Hoff Hoff16 He He16 k i Hk) in Hin.
    by rewrite Hstk, geo_relabel, Hin. }
  assert (bl k = true -> st k (L off k) = Alloc) as Hl.
  { intros Eb. apply Hal. eapply bool_decide_eq_true_1. rewrite in_free_list, Eb. zcmp. by rewrite orb_true_r. }
  assert (br k = true -> opt_free (bl k) k (L off k) st k (R e k - 1) = Alloc) as Hr.
  { intros Eb. rewrite opt_free_eq. rewrite Hal by (eapply bool_decide_eq_true_1; rewrite in_free_list, Eb; by zcmp).
    case_if; [|done]. exfalso. unfold bl, br in *. bool_prop. dlia. }
  constructor. eexists _, _, _. split; [done|]. split; [|split; [|split; [|split]]].
  - apply opt_push_core; [|exact Hr]. apply opt_push_core; [exact Hcore | exact Hl].
  - intros k' i. rewrite !opt_free_eq. destruct (k' =? k) eqn:Ek; bool_prop.
    + subst k'. zcmp. rewrite !andb_true_r. rewrite (geo_alloc_free Alloc k i Hk), in_free_list, Hstk.
      by destruct (br k && (i =? R e k - 1)), (bl k && (i =? L off k)).
    + rewrite !andb_false_r. simpl. rewrite Hst. by replace (k' <? k + 1) with (k' <? k) by bool_lia.
  - intros k' Hk'. unfold opt_list. destruct (br k), (bl k); rewrite ?Fset_ne by lia; apply HF; lia.
  - rewrite !opt_list_bytes by lia. lia.
  - rewrite <- Hrest. rewrite (rest_bytes_step top off e Hoff k Hk). unfold free_list. fold (bl k) (br k).
    rewrite length_app. destruct (bl k), (br k); simpl length; lia.
Qed.

Lemma partial_bound k free s' : 0 <= k <= top -> partial k free s' -> 0 <= free <= 2 ^ 30.
Proof.
  intros Hk [(h & st & F & _ & _ & _ & _ & Hfb & Hrest)].
  pose proof (blk_bound top ltac:(lia)). pose proof (blk_pos k ltac:(lia)).
  assert (0 <= rest_bytes off e k) by (unfold rest_bytes; nia). split; [|lia].
  rewrite <- Hfb. unfold fbytes.
  assert (forall l, Forall (fun k => 0 <= k) l ->
    0 <= foldr (fun k acc => blk k * Z.of_nat (length (F k)) + acc) 0 l) as Hp.
  { induction 1 as [|x l Hx _ IH]; simpl; [lia|]. pose proof (blk_pos x Hx). nia. }
  apply Hp, Forall_forall. intros x Hx. apply elem_of_seqZ in Hx. lia.
Qed.

Lemma initfree_size_wp k free s' (Q : Z * Z + Z -> bd -> Prop) :
  0 <= k < top -> partial k free s' ->
  (forall free' s'', partial (k + 1) free' s'' -> Q (inl (k + 1, free')) s'') ->
  wp (f1 <- bd_initfree_pair k (L off k) false ;;
      let free := i32 (free + f1) in
      if R e k <=? L off k then ret (inl (k + 1, free))
      else f2 <- bd_initfree_pair k (R e k) true ;; ret (inl (k + 1, i32 (free + f2)))) s' Q.
Proof.
  intros Hk Hpar HQ. pose proof Hpar as [(h & _ & _ & -> & _)].
  destruct (LR_bounds top off e Hoff He k Hk) as [HL HR]. pose proof (pow_split top k Hk) as Hp.
  pose proof (partial_step k free h Hk Hpar) as Hnext.
  pose proof (partial_bound k _ _ ltac:(lia) Hpar) as B0.
  pose proof (partial_bound (k + 1) _ _ ltac:(lia) Hnext) as B1.
  pose proof (blk_pos k ltac:(lia)) as Hbk.
  assert (forall b : bool, 0 <= (if b then blk k else 0)) as Hb0 by (intros b; destruct b; lia).
  pose proof (Hb0 (bl k)). pose proof (Hb0 (br k)).
  assert (wp (if R e k <=? L off k then ret (inl (k + 1, free + (if bl k then blk k else 0)))
      else f2 <- bd_initfree_pair k (R e k) true ;;
           ret (inl (k + 1, i32 (free + (if bl k then blk k else 0) + f2))))
    (set_heap (opt_push (bl k) k (L off k) h) s) Q) as Hright.
  { destruct (R e k <=? L off k) eqn:E; bool_prop.
    - apply wp_ret, HQ. assert (br k = false) as Eb by (unfold br; zcmp; apply andb_false_r).
      rewrite Eb in Hnext. simpl in Hnext. by rewrite Z.add_0_r in Hnext.
    - wp_step. assert (br k = (R e k mod 2 =? 1)) as Eb by (unfold br; zcmp; apply andb_true_r).
      eapply (initfree_pair_wp _ k (R e k) (br k) true); [done | lia | by rewrite right_bit | |]; intros Hbr;
        apply wp_ret; rewrite Hbr in *.
      + destruct (buddy_of_spec (R e k)) as (_ & _ & [[Hm _]|[_ ->]]); [lia | bool_prop; lia |].
        rewrite i32_small by lia. apply HQ, Hnext.
      + rewrite i32_small by lia. apply HQ, Hnext. }
  wp_step. eapply (initfree_pair_wp _ k (L off k) (bl k) false); [done | lia | by apply left_bit | |]; intros Hbl;
    rewrite Hbl in *; rewrite i32_small by lia; exact Hright.
Qed.

Lemma bd_initfree_wp bd_left bd_right (Q : Z -> bd -> Prop) :
  bd_left = bd_base s + off -> bd_right = bd_base s + e ->
  partial 0 0 s ->
  (forall s', partial top (e - off) s' -> Q (e - off) s') ->
  wp (bd_initfree bd_left bd_right) s Q.
Proof.
  intros -> -> H0 HQ. unfold bd_initfree. wp_step. wp_step.
  apply (wp_loop (fun x s' => 0 <= fst x <= top /\ partial (fst x) (snd x) s')
                 (fun x => Z.to_nat (top - fst x))).
  - intros [k free] s' (Hk & Hpar). cbn [fst snd] in *. rewrite HM.
    destruct (k <? top) eqn:E; bool_prop.
    + pose proof (blk_bound top ltac:(lia)). pose proof HM.
      assert (blk top = 2 * blk (top - 1)) by (rewrite <- blk_succ by lia; f_equal; lia).
      rewrite (blk_index_next_Lk s), (blk_index_Rk s) by (rewrite ?HM; lia).
      apply (initfree_size_wp k free s'); [lia | done |].
      intros free' s'' Hp. cbn [fst snd]. split; [split; [lia | done] | lia].
    + apply wp_ret. assert (k = top) as -> by lia.
      assert (free = e - off) as ->; [|by apply HQ].
      destruct Hpar as [(_ & _ & _ & _ & _ & _ & _ & _ & Hr)].
      rewrite rest_bytes_top with (top := top) in Hr by lia. lia.
  - cbn [fst snd]. split; [lia | done].
  - cbn [fst]. rewrite HM. lia.
Qed.

End InitFree.

(** ** bd_init *)

Section Marks.
  Context (top off e : Z).
  Hypothesis Htop : 1 <= top <= 26.
  Hypothesis Hoff : 0 < off <= blk (top - 1).
  Hypothesis Hoff16 : off mod 16 = 0.
  Hypothesis He : blk (top - 1) <= e <= blk top - 16.
  Hypothesis He16 : e mod 16 = 0.

Lemma blk_half : blk top = 2 * blk (top - 1).
Proof. rewrite <- blk_succ by lia. f_equal. lia. Qed.

Lemma Lk_blk_top k : 0 <= k <= top -> Lk (blk top) k = 2 ^ (top - k).
Proof.
  intros Hk. unfold Lk. rewrite (blk_top top k Hk). pose proof (blk_pos k ltac:(lia)).
  symmetry. apply (Z.div_unique _ _ _ (blk k - 1)); lia.
Qed.

(** The bits after marking the allocator's own data and the memory past the
    end of the region. *)
Lemma marks_bits s0 s1 s2 :
  MAXSIZE s0 = top ->
  (forall k j, AB s0 k j = false) -> (forall k i, SB s0 k i = false) ->
  marked s0 (fun k => blk_index s0 k (bd_base s0)) (fun k => blk_index_next s0 k (bd_base s0 + off)) (nsizes s0) s1 ->
  marked s1 (fun k => blk_index s1 k (bd_base s0 + e)) (fun k => blk_index_next s1 k (bd_base s0 + blk top)) (nsizes s1) s2 ->
  (forall k i, 1 <= k <= top -> 0 <= i < 2 ^ (top - k) -> SB s2 k i = ov off e k i)
  /\ (forall k j, 0 <= k < top -> 0 <= j -> 2 * j < 2 ^ (top - k) ->
        AB s2 k j = xorb (ov off e k (2 * j)) (ov off e k (2 * j + 1))).
Proof.
  intros HM HA0 HS0 (l1 & E1 & _ & HS1 & HA1) (l2 & E2 & _ & HS2 & HA2).
  pose proof blk_half. pose proof (blk_pos (top - 1) ltac:(lia)).
  assert (nsizes s0 = top + 1) as Hn by (unfold MAXSIZE in HM; lia).
  assert (forall k, 0 <= k <= top -> blk_index s0 k (bd_base s0) = 0
    /\ blk_index_next s0 k (bd_base s0 + off) = L off k
    /\ blk_index s1 k (bd_base s0 + e) = R e k
    /\ blk_index_next s1 k (bd_base s0 + blk top) = 2 ^ (top - k)) as Hb.
  { intros k Hk. pose proof (blk_pos k ltac:(lia)). subst s1.
    change (bd_base s0) with (bd_base (set_szs l1 s0)) at 3 4.
    assert (MAXSIZE (set_szs l1 s0) = top) as HM1 by exact HM.
    rewrite <- (Z.add_0_r (bd_base s0)) at 1.
    rewrite !blk_index_Rk, !blk_index_next_Lk by (rewrite ?HM, ?HM1; lia).
    rewrite Lk_blk_top by done. by split_and!. }
  assert (nsizes s1 = nsizes s0) as Hn1 by (by subst s1).
  split.
  - intros k i Hk Hi. rewrite HS2, HS1, HS0 by lia. rewrite Hn1, Hn.
    destruct (Hb k) as (-> & -> & -> & ->); [lia|]. unfold inr, ov. zcmp. cbn [andb orb]. by rewrite andb_true_r.
  - intros k j Hk Hj Hj2. rewrite HA2, HA1, HA0 by lia. rewrite Hn1, Hn.
    destruct (Hb k) as (-> & -> & -> & ->); [lia|].
    destruct (LR_bounds top off e Hoff He k Hk) as [HL HR]. pose proof (pow_split top k Hk).
    unfold inr, ov. zcmp. cbn [andb]. rewrite !andb_true_r.
    set (l := L off k) in *. set (r := R e k) in *. clearbody l r. bool_lia.
Qed.

Lemma used_geo v k i : in_heap top k i = true -> v = Free -> used (geo top off e v k i) = ov off e k i.
Proof. intros E ->. unfold geo. rewrite E. simpl. destruct (ov off e k i); repeat case_if; done. Qed.

Lemma geo_heads v j : 32 * (top + 1) <= off -> 0 <= j <= top -> geo top off e v 0 (2 * j) = Meta.
Proof.
  intros Hm Hj. destruct (LR_bounds top off e Hoff He 0 ltac:(lia)) as [HL HR].
  assert (2 * (top + 1) <= L off 0) by (unfold L, Lk; change (blk 0) with 16; dlia).
  rewrite Z.add_0_l in *. pose proof (pow_split top 0 ltac:(lia)).
  unfold geo, in_heap, ov. zcmp. done.
Qed.

(** With the two ranges marked and every free list empty, all that is not
    marked counts as handed out. *)
Lemma marked_core s :
  MAXSIZE s = top -> 0 < bd_base s -> aligned (bd_base s) -> bd_sizes s = bd_base s ->
  32 * (top + 1) <= off ->
  (forall k, 0 <= k <= top -> dll (heap s) (free_head s k) []) ->
  core s (geo top off e Alloc) (fun _ => []).
Proof.
  intros HM Hb Hal Hsz Hm Hd. constructor.
  - constructor; rewrite ?HM; try done. intros j Hj. by apply geo_heads.
  - rewrite HM. apply geo_tree; auto; lia.
  - constructor; rewrite HM; [done|]. intros k Hk a. split; [intros []%not_elem_of_nil|].
    intros (i & _ & Hst). unfold geo in Hst. exfalso. repeat case_if_in Hst; done.
Qed.

End Marks.

(** What [bd_init] leaves behind. *)
Record inited (base end_ top : Z) (l0 : Seq.lockst) (s : bd) (st : smap) (F : Z -> list Z) : Prop := {
  in_inv : inv s st F;
  in_top : MAXSIZE s = top;
  in_base : bd_base s = ROUNDUP base 16;
  in_free : fbytes top F = 16 * ((end_ - ROUNDUP base 16) / 16) - meta_size top;
  in_live : forall k i, ~ live st k i;
  in_meta : forall i, st 0 i = Meta <->
    0 <= i < meta_size top / 16 \/ (end_ - ROUNDUP base 16) / 16 <= i < 2 ^ top;
  in_lock : lock s = Seq.mkLockst (Seq.me l0) initlock (Seq.hart l0)
}.

(** From the end of [bd_initfree] to the invariant. *)
Lemma partial_inv top off e s s' :
  1 <= top <= 26 -> 0 < off <= blk (top - 1) -> off mod 16 = 0 ->
  blk (top - 1) <= e <= blk top - 16 -> e mod 16 = 0 ->
  MAXSIZE s = top -> arrs_ok s ->
  (forall k i, 1 <= k <= top -> 0 <= i < 2 ^ (top - k) -> SB s k i = ov off e k i) ->
  (forall k j, 0 <= k < top -> 0 <= j -> 2 * j < 2 ^ (top - k) ->
     AB s k j = xorb (ov off e k (2 * j)) (ov off e k (2 * j + 1))) ->
  partial top off e s top (e - off) s' ->
  exists h st F, s' = set_heap h s /\ inv s' st F /\ fbytes top F = e - off
    /\ (forall k i, st k i = geo top off e Free k i).
Proof.
  intros Ht Hoff Ho16 He He16 HM Ha HS HA [(h & st & F & -> & Hcore & Hst & _ & Hfb & _)].
  assert (forall k i, st k i = geo top off e Free k i) as Hg.
  { intros k i. rewrite Hst. destruct (k <? top) eqn:E; [done|]. bool_prop.
    unfold geo. destruct (ov off e k i); [done|]. zcmp. cbn [andb]. done. }
  assert (forall k i, 0 <= k <= top -> 0 <= i < 2 ^ (top - k) -> in_heap top k i = true) as Hin
    by (intros; unfold in_heap; by zcmp).
  exists h, st, F. split; [done|]. split; [|done].
  destruct Hcore as [Hc Htr Hl]. constructor; try done.
  - by apply arrs_set_heap.
  - split; change (MAXSIZE (set_heap h s)) with (MAXSIZE s); unfold nb;
      change (MAXSIZE (set_heap h s)) with (MAXSIZE s); rewrite HM.
    + intros k i Hk Hi. change (SB (set_heap h s) k i) with (SB s k i). rewrite HS, Hg by done.
      unfold geo. rewrite Hin by lia. zcmp. simpl. destruct (ov off e k i); repeat case_if; done.
    + intros k j Hk Hj Hj2. change (AB (set_heap h s) k j) with (AB s k j). rewrite HA, !Hg by done.
      pose proof (pow_split top k Hk).
      rewrite !(used_geo top off e Free) by (try apply Hin; (done || lia)). done.
  - change (MAXSIZE (set_heap h s)) with (MAXSIZE s). rewrite HM. intros k j Hk. rewrite !Hg.
    apply (geo_coalesced top off e Hoff k j Hk).
Qed.

(** The two calls of [bd_mark], from cleared bit arrays. *)
Section MarkBoth.
  Context (top off e : Z) (s : bd).
  Hypothesis Htop : 1 <= top <= 26.
  Hypothesis Hoff : 0 < off <= blk (top - 1).
  Hypothesis Hoff16 : off mod 16 = 0.
  Hypothesis He : blk (top - 1) <= e <= blk top - 16.
  Hypothesis He16 : e mod 16 = 0.
  Hypothesis HM : MAXSIZE s = top.
  Hypothesis Hbase : bd_base s mod 16 = 0.

Lemma blk_mod16 k : 0 <= k -> blk k mod 16 = 0.
Proof. intros Hk. unfold blk. rewrite Z.mul_comm. apply Z.mod_mul. lia. Qed.

Lemma mark_low_wp (Q : unit -> bd -> Prop) :
  arrs_ok s ->
  (forall s', marked s (fun k => blk_index s k (bd_base s)) (fun k => blk_index_next s k (bd_base s + off)) (nsizes s) s' -> Q tt s') ->
  wp (bd_mark (bd_base s) (bd_base s + off)) s Q.
Proof.
  intros Ha HQ. pose proof (blk_half top Htop). pose proof (blk_pos (top - 1) ltac:(lia)).
  apply bd_mark_wp; [done | done | dlia | | done].
  intros k Hk. assert (0 <= k <= top) as Hk' by (unfold MAXSIZE in HM; lia).
  pose proof (blk_pos k ltac:(lia)) as Hb.
  rewrite <- (Z.add_0_r (bd_base s)) at 1. rewrite blk_index_Rk, blk_index_next_Lk by (rewrite ?HM; lia).
  split; [apply Z.div_pos; lia|]. unfold nb. rewrite HM.
  destruct (decide (k = top)) as [->|].
  - destruct (LR_top top off e ltac:(lia) Hoff He) as [HL _]. unfold L in HL. rewrite HL, Z.sub_diag. done.
  - destruct (LR_bounds top off e Hoff He k ltac:(lia)) as [HL HR]. unfold L in *. lia.
Qed.

Lemma mark_high_wp (Q : unit -> bd -> Prop) :
  arrs_ok s ->
  (forall s', marked s (fun k => blk_index s k (bd_base s + e)) (fun k => blk_index_next s k (bd_base s + blk top)) (nsizes s) s' -> Q tt s') ->
  wp (bd_mark (bd_base s + e) (bd_base s + blk top)) s Q.
Proof.
  intros Ha HQ. pose proof (blk_half top Htop). pose proof (blk_pos (top - 1) ltac:(lia)).
  pose proof (blk_mod16 top ltac:(lia)).
  apply bd_mark_wp; [done | dlia | dlia | | done].
  intros k Hk. assert (0 <= k <= top) as Hk' by (unfold MAXSIZE in HM; lia).
  pose proof (blk_pos k ltac:(lia)) as Hb.
  rewrite blk_index_Rk, blk_index_next_Lk by (rewrite ?HM; lia). rewrite Lk_blk_top by lia.
  split; [apply Z.div_pos; lia|]. unfold nb. rewrite HM. lia.
Qed.

End MarkBoth.

Lemma unavailable_spec s end_ top len :
  MAXSIZE s = top -> 1 <= top <= 26 -> len = end_ - bd_base s -> blk (top - 1) < len <= blk top - 16 ->
  unavailable_of s end_ = blk top - 16 * (len / 16).
Proof.
  intros HM Ht -> Hlen. unfold unavailable_of. rewrite HM, BLK_SIZE_blk.
  pose proof (blk_bound top ltac:(lia)). pose proof (blk_half top Ht). pose proof (blk_pos (top - 1) ltac:(lia)).
  pose proof (blk_mod16 top ltac:(lia)).
  rewrite (i32_small (blk top - _)) by lia. zcmp. unfold LEAF_SIZE.
  destruct (ROUNDUP_spec (blk top - (end_ - bd_base s)) 16) as [Hr Hm]; [lia.. |].
  rewrite i32_small by lia. dlia.
Qed.

(** The second half of [bd_init]: marking, building the free lists and the
    final check. *)
Lemma init_finish_wp top off end_ len s (Q : unit -> bd -> Prop) :
  1 <= top <= 26 -> MAXSIZE s = top -> off mod 16 = 0 -> 0 < off <= blk (top - 1) -> 32 * (top + 1) <= off ->
  len = end_ - bd_base s -> blk (top - 1) < len <= blk top - 16 ->
  (forall k, 0 <= k < top -> ~ (Lk off k mod 2 = 0 /\ Rk (16 * (len / 16)) k = Lk off k + 1)) ->
  0 < bd_base s -> aligned (bd_base s) -> bd_sizes s = bd_base s -> arrs_ok s ->
  (forall k j, AB s k j = false) -> (forall k i, SB s k i = false) ->
  (forall k, 0 <= k <= top -> dll (heap s) (free_head s k) []) ->
  (forall s' st F, inv s' st F -> same_conf s s' -> lock s' = lock s ->
     fbytes top F = 16 * (len / 16) - off ->
     (forall k i, st k i = geo top off (16 * (len / 16)) Free k i) -> Q tt s') ->
  wp (meta <- bd_mark_data_structures (bd_base s + off) ;;
      unavailable <- bd_mark_unavailable end_ (bd_base s + off) ;;
      s1 <- get ;;
      let bd_end := bd_base s1 + BLK_SIZE (MAXSIZE s1) - unavailable in
      free <- bd_initfree (bd_base s + off) bd_end ;;
      if negb (free =? BLK_SIZE (MAXSIZE s1) - meta - unavailable)
      then panic "bd_init: free mem"
      else ret tt) s Q.
Proof.
  intros Ht HM Ho16 Hoff Hmeta Hlen Hl Hsingle Hb Hal Hsz Ha HA0 HS0 Hd HQ.
  set (e := 16 * (len / 16)) in *.
  pose proof (blk_mod16 (top - 1) ltac:(lia)). pose proof (blk_mod16 top ltac:(lia)).
  pose proof (blk_bound top ltac:(lia)). pose proof (blk_half top Ht).
  assert (blk (top - 1) <= e <= blk top - 16) as He by (subst e; dlia).
  assert (e mod 16 = 0) as He16 by (subst e; rewrite Z.mul_comm; apply Z.mod_mul; lia).
  wp_step. unfold bd_mark_data_structures. wp_step. wp_step. wp_step.
  apply (mark_low_wp top off e); try done. intros s1 Hm1. wp_step.
  pose proof Hm1 as (l1 & E1 & Ha1 & _). assert (MAXSIZE s1 = top) as HM1 by (by subst s1).
  assert (bd_base s1 = bd_base s) as Hb1 by (by subst s1).
  wp_step. unfold bd_mark_unavailable. wp_step. wp_step. wp_step.
  rewrite (unavailable_spec s1 end_ top len), Hb1, HM1, BLK_SIZE_blk by (rewrite ?Hb1; done || lia).
  replace (bd_base s + blk top - (blk top - 16 * (len / 16))) with (bd_base s + e) by (subst e; lia).
  rewrite <- Hb1.
  apply (mark_high_wp top off e s1); try done; [by rewrite Hb1|]. intros s2 Hm2. wp_step.
  pose proof Hm2 as (l2 & E2 & Ha2 & _). assert (MAXSIZE s2 = top) as HM2 by (by subst s2).
  assert (s2 = set_szs l2 s) as Es2 by (by subst s2 s1).
  rewrite Hb1 in Hm2.
  destruct (marks_bits top off e Ht Hoff He s s1 s2 HM HA0 HS0 Hm1 Hm2) as [HS2 HA2].
  wp_step. wp_step. cbv zeta. rewrite HM2, BLK_SIZE_blk.
  assert (bd_base s2 = bd_base s) as Hb2 by (by rewrite Es2).
  wp_step. apply (bd_initfree_wp top off e s2); try done.
  - unfold MAXSIZE in HM2; lia.
  - by rewrite Hb2, Hb1.
  - rewrite Hb2. subst e. lia.
  - constructor. exists (heap s2), (geo top off e Alloc), (fun _ => []). split; [by destruct s2|].
    split; [|split; [|split; [done|]]].
    + apply marked_core; try done; rewrite Es2; done.
    + intros k i. destruct (k <? 0) eqn:E; [|done]. bool_prop. unfold geo, in_heap. by zcmp.
    + split; [|rewrite (rest_bytes_0 top off e); lia || done].
      unfold fbytes. generalize (seqZ 0 (top + 1)). intros l. induction l as [|x l IH]; simpl in *; lia.
  - intros s3 Hp. replace (e - off =? _) with true; [|rewrite i32_small by lia; subst e; lia].
    apply wp_ret.
    destruct (partial_inv top off e s2 s3) as (h & st & F & -> & Hinv & Hfb & Hg); try done.
    apply (HQ _ st F); try done; by rewrite Es2.
Qed.

Lemma geo_live top off e k i : geo top off e Free k i <> Alloc.
Proof. unfold geo. repeat case_if; done. Qed.

Lemma geo_meta top off e i :
  0 < off -> off mod 16 = 0 -> 0 <= e -> e mod 16 = 0 -> off <= 16 * 2 ^ top ->
  geo top off e Free 0 i = Meta <-> 0 <= i < off / 16 \/ (e / 16 <= i < 2 ^ top).
Proof.
  intros Ho Ho16 He He16 Hot. unfold geo, in_heap, ov, L, R, Lk, Rk. change (blk 0) with 16.
  rewrite Z.sub_0_r. set (c := 2 ^ top) in *.
  assert ((off + 16 - 1) / 16 = off / 16) as -> by dlia.
  assert (0 <= e / 16) by (apply Z.div_pos; lia).
  assert (off / 16 <= c) by dlia.
  destruct ((0 <=? 0) && (0 <=? top) && (0 <=? i) && (i <? c)) eqn:E; simpl.
  - destruct ((i <? off / 16) || (e / 16 <=? i)) eqn:E2; [|case_if; (split; [done|]); lia].
    split; [lia|done].
  - split; [done|]. intros Hi. exfalso.
    destruct (Z.lt_ge_cases top 0) as [Hneg|]; [|lia].
    unfold c in *. rewrite Z.pow_neg_r in * by done. lia.
Qed.

(** [bd_init] returns, and the allocator satisfies its invariant: the
    allocator's own data and the memory past the end are reserved, no block
    is handed out and all the rest is free. *)
Lemma bd_init_wp base end_ top s0 (Q : unit -> bd -> Prop) :
  init_ok base end_ top ->
  (forall s st F, inited base end_ top (lock s0) s st F -> Q tt s) ->
  wp (bd_init base end_) s0 Q.
Proof.
  intros [Hbase Hend Htop Hnp Hmeta Hsingle] HQ. pose proof Htop as [Ht Hlen].
  destruct (ROUNDUP_spec base 16) as [Hr Hrm]; [lia..|]. set (p := ROUNDUP base 16) in *.
  destruct (meta_size_ge top) as [Hms Hms16]; [lia|]. set (off := meta_size top) in *.
  unfold bd_init. change (u64 (ROUNDUP base LEAF_SIZE)) with (u64 p). rewrite (u64_small p) by lia. cbv zeta.
  wp_step. apply (init_nsizes_wp _ top); [done|]. wp_step. wp_step.
  set (s1 := mkBd _ _ _ _ _ _).
  wp_step. apply (init_alloc_wp top s1); [done | | | | |].
  { done. }
  { cbn. rewrite length_replicate. lia. }
  { intros k z Hk. apply aget_lookup in Hk as [_ Hk]. apply lookup_replicate in Hk as [-> _]. done. }
  { exact Hrm. }
  intros h l Hl Hall. set (s2 := set_heap h (set_szs l s1)) in *.
  wp_step. apply (init_split_wp top s2); [done | done | done | intros k Hk; by apply Hall |].
  intros l2 Hl2 Hz. set (s3 := set_szs l2 s2) in *.
  destruct (carved_arrs top s3) as (Ha & HA & HS); [done | done | done | done |].
  cbv zeta.
  match goal with |- context [ ROUNDUP ?x LEAF_SIZE ] => assert (ROUNDUP x LEAF_SIZE = bd_base s3 + off) as Hp end.
  { change (bd_base s3) with p. unfold off, meta_size. unfold LEAF_SIZE, sizeof_Sz_info in *.
    rewrite <- ROUNDUP_shift; [f_equal; lia | | lia | lia | done].
    assert (0 <= psum (ab top) 0 (Z.to_nat (top + 1))).
    { apply psum_nonneg. intros i Hi. pose proof (ab_bound top i ltac:(lia)).
      pose proof (Z.pow_pos_nonneg 2 (top - i)). lia. }
    assert (0 <= psum (sb top) 1 (Z.to_nat top)).
    { apply psum_nonneg. intros i Hi. pose proof (sb_bound top i ltac:(lia)).
      pose proof (Z.pow_pos_nonneg 2 (top - i)). lia. }
    lia. }
  rewrite Hp.
  assert (MAXSIZE s3 = top) as HM by (cbn; unfold MAXSIZE; cbn; lia).
  pose proof (blk_pos (top - 1) ltac:(lia)).
  apply (init_finish_wp top off end_ (end_ - p)); try done; try lia.
  { cbn. lia. }
  { intros k Hk. apply Hall. cbn. lia. }
  intros s' st F Hinv Hc Hlk Hfb Hst. apply (HQ s' st F). constructor; try done.
  - by rewrite (same_conf_max _ _ Hc).
  - by destruct Hc as (_ & _ & ->).
  - intros k i Hli. unfold live in Hli. rewrite Hst in Hli. by apply geo_live in Hli.
  - intros i. rewrite Hst. fold p off. pose proof (blk_half top Ht).
    rewrite geo_meta; [| lia | done | apply Z.mul_nonneg_nonneg; [lia | apply Z.div_pos; lia]
      | rewrite Z.mul_comm; apply Z.mod_mul; lia | unfold blk in *; lia].
    by replace (16 * ((end_ - p) / 16) / 16) with ((end_ - p) / 16) by (rewrite (Z.mul_comm 16), Z.div_mul; lia).
Qed.
