(* ===== verification/BuddySpec.v ===== *)
(** * What the allocator promises to its callers

    The abstract allocator is a set of disjoint blocks with their sizes;
    [bd_malloc] adds one that overlaps none, [bd_free] removes one, and the
    bytes handed out and the free bytes always add up.  The theorems show
    that buddy.c refines it, for one call and for any sequence of calls, that
    [bd_init] and [kinit] establish the starting state, and where the code's
    arithmetic gives out. *)

From S2P Require Import Prelude Spinlock LList Buddy BuddyInv BuddyOps BuddyInit.

(** ** The abstract allocator *)

(** A block is its address and its size. *)
Definition block : Type := Z * Z.

Definition apart (a b : block) : Prop := fst a + snd a <= fst b \/ fst b + snd b <= fst a.

Definition bytes_of (A : list block) : Z := foldr (fun b acc => snd b + acc) 0 A.

Inductive request := OMalloc (n : Z) | OFree (p : Z).

(** The memory: [lo, hi) is the heap of the size of the largest block, and
    [alo, ahi) is the part of it that can be handed out. *)
Record region := mkRegion { lo : Z; hi : Z; alo : Z; ahi : Z }.

(** The size of the block that serves a request for [n] bytes. *)
Definition block_size (n : Z) : Z := if n <=? 16 then 16 else 2 ^ Z.log2_up n.

(** What a caller must respect: sizes for which [firstk] ends, and freeing
    only what it was given. *)
Definition allowed (A : list block) (o : request) : Prop :=
  match o with
  | OMalloc n => 0 <= n <= 2 ^ 63
  | OFree p => exists sz, (p, sz) ∈ A
  end.

(** What the caller may rely on.  A refusal means that every aligned block
    of the size sticks out of the memory or overlaps one handed out. *)
Definition good_answer (g : region) (A : list block) (o : request) (r : Z) : Prop :=
  match o with
  | OMalloc n =>
      (r = 0 /\ forall i, 0 <= i -> lo g + (i + 1) * block_size n <= hi g ->
         let c := lo g + i * block_size n in
         c < alo g \/ ahi g < c + block_size n
         \/ exists b, b ∈ A /\ ~ apart (c, block_size n) b)
      \/ (0 < r /\ alo g <= r /\ r + block_size n <= ahi g /\ (r - lo g) mod block_size n = 0
          /\ forall b, b ∈ A -> apart (r, block_size n) b)
  | OFree p => r = 0
  end.

(** The blocks handed out after a request answered by [r]. *)
Definition after (A : list block) (o : request) (r : Z) : list block :=
  match o with
  | OMalloc n => if r =? 0 then A else (r, block_size n) :: A
  | OFree p => filter (fun b => fst b <> p) A
  end.

(** The code of a request. *)
Definition serve (o : request) : M bd Z :=
  match o with
  | OMalloc n => bd_malloc n
  | OFree p => bd_free p ;;; ret 0
  end.

(** The allocator's state [s] represents the blocks [A] handed out. *)
Record rep (g : region) (s : bd) (A : list block) : Prop := {
  rp_ex : exists st F, inv s st F /\ lock_free (lock s)
    /\ lo g = bd_base s /\ hi g = bd_base s + blk (MAXSIZE s)
    /\ (forall i, st 0 i = Meta <-> 0 <= i < nb s 0 /\
          (lo g + 16 * i < alo g \/ ahi g <= lo g + 16 * i))
    /\ alo g mod 16 = 0 /\ ahi g mod 16 = 0
    /\ NoDup A
    /\ (forall p sz, (p, sz) ∈ A <-> exists k i, live st k i /\ p = baddr s k i /\ sz = blk k)
    /\ fbytes (MAXSIZE s) F + bytes_of A = ahi g - alo g
}.

(** ** Blocks and their statuses *)

Lemma block_size_blk n k :
  0 <= k -> n <= blk k -> (0 < k -> blk (k - 1) < n) -> block_size n = blk k.
Proof.
  intros Hk Hge Hlt. unfold block_size. case_if.
  - destruct (decide (k = 0)) as [->|]; [done|]. pose proof (blk_pos (k - 1) ltac:(lia)). lia.
  - destruct (decide (k = 0)) as [->|]; [change (blk 0) with 16 in *; lia|].
    assert (forall j, 0 <= j -> blk j = 2 ^ (4 + j)) as Hb by (intros; unfold blk; by rewrite Z.pow_add_r by lia).
    specialize (Hlt ltac:(lia)). rewrite Hb in * by lia. f_equal. apply Z.log2_up_unique; [lia|].
    replace (Z.pred (4 + k)) with (4 + (k - 1)) by lia. lia.
Qed.

(** A split block contains a block that is handed out or reserved. *)
Lemma split_busy top st (T : tree_ok top st) (Hc : coalesced top st) (n : nat) i :
  Z.of_nat n <= top -> st (Z.of_nat n) i = Split ->
  exists k' i', 0 <= k' < Z.of_nat n /\ i' / 2 ^ (Z.of_nat n - k') = i
    /\ (st k' i' = Alloc \/ st k' i' = Meta).
Proof.
  revert i. induction n as [|n IH]; intros i Hn Hs; [by apply (t_leaf _ _ T) in Hs|].
  replace (Z.of_nat (S n)) with (Z.of_nat n + 1) in * by lia.
  destruct (child_exists top st T (Z.of_nat n) i ltac:(lia) Hs) as [C1 C2].
  assert (exists i', i' / 2 = i /\ (st (Z.of_nat n) i' = Alloc \/ st (Z.of_nat n) i' = Meta
    \/ st (Z.of_nat n) i' = Split)) as (i' & Hi' & Hst).
  { pose proof (Hc (Z.of_nat n) i ltac:(lia)) as Hcc.
    destruct (st (Z.of_nat n) (2 * i)) eqn:E1, (st (Z.of_nat n) (2 * i + 1)) eqn:E2; try done; try tauto;
      first [ by exists (2 * i); split; [dlia | rewrite E1; tauto]
            | by exists (2 * i + 1); split; [dlia | rewrite E2; tauto] ]. }
  assert (st (Z.of_nat n) i' = Alloc \/ st (Z.of_nat n) i' = Meta -> exists k' i0, 0 <= k' < Z.of_nat n + 1
    /\ i0 / 2 ^ (Z.of_nat n + 1 - k') = i /\ (st k' i0 = Alloc \/ st k' i0 = Meta)) as Hleaf.
  { intros Hx. exists (Z.of_nat n), i'. split; [lia|].
    by replace (Z.of_nat n + 1 - Z.of_nat n) with 1 by lia. }
  destruct Hst as [Hst|[Hst|Hst]]; [by apply Hleaf; left | by apply Hleaf; right|].
  destruct (IH i') as (k' & i0 & Hk' & Hd & Hx); [lia | done |].
  exists k', i0. split; [lia|]. split; [|done].
  replace (Z.of_nat n + 1 - k') with (Z.of_nat n - k' + 1) by lia.
  rewrite Z.pow_add_r, <- Z.div_div by lia. by rewrite Hd.
Qed.

(** A block of the heap that is not there is part of an unsplit one. *)
Lemma absent_cover top st (T : tree_ok top st) (n : nat) k i :
  0 <= k -> k + Z.of_nat n = top -> 0 <= i < 2 ^ (top - k) -> st k i = Absent ->
  exists k', k < k' <= top /\ st k' (i / 2 ^ (k' - k)) <> Absent /\ st k' (i / 2 ^ (k' - k)) <> Split.
Proof.
  revert k i. induction n as [|n IH]; intros k i Hk Hn Hi Hs.
  - assert (k = top) as -> by lia. rewrite Z.sub_diag in Hi. assert (i = 0) as -> by lia.
    by apply (t_root _ _ T) in Hs.
  - assert (st (k + 1) (i / 2) <> Split) as Hns
      by (intros E; apply (t_up _ _ T k i) in E; [done | lia]).
    destruct (decide (st (k + 1) (i / 2) = Absent)) as [Ha|Ha].
    + pose proof (pow_split top k ltac:(lia)).
      destruct (IH (k + 1) (i / 2)) as (k' & Hk' & H1 & H2); [lia | lia | dlia | done |].
      assert (i / 2 / 2 ^ (k' - (k + 1)) = i / 2 ^ (k' - k)) as E.
      { rewrite Z.div_div by (try apply Z.pow_pos_nonneg; lia). f_equal.
        replace (k' - k) with (1 + (k' - (k + 1))) by lia. by rewrite Z.pow_add_r by lia. }
      rewrite E in *. exists k'. split; [lia|done].
    + exists (k + 1). replace (k + 1 - k) with 1 by lia. split; [lia|]. done.
Qed.

(** When no free block of size [fk] or more exists, every block of that size
    meets one that is handed out or reserved. *)
Lemma no_room_busy s st F fk i :
  inv s st F -> 0 <= fk <= MAXSIZE s -> 0 <= i < nb s fk ->
  (forall k, fk <= k <= MAXSIZE s -> F k = []) ->
  exists k' i', (st k' i' = Alloc \/ st k' i' = Meta)
    /\ i' * blk k' < i * blk fk + blk fk /\ i * blk fk < i' * blk k' + blk k'.
Proof.
  intros H Hfk Hi HF. pose proof (i_tree _ _ _ H) as T. pose proof (inv_max s st F H).
  assert (forall k j, fk <= k -> st k j <> Free) as Hnf.
  { intros k j Hk E. destruct (free_node s st F H k j E) as (Hk2 & _ & Hin).
    rewrite HF in Hin by lia. by apply not_elem_of_nil in Hin. }
  pose proof (blk_pos fk ltac:(lia)) as Hb.
  assert (forall c d x y, 0 <= c -> 0 <= d -> c = x / 2 ^ d ->
    y = blk (fk + d) -> c * y <= x * blk fk /\ x * blk fk + blk fk <= c * y + y) as Hup.
  { intros c d x y Hc Hd -> ->.
    assert (blk (fk + d) = blk fk * 2 ^ d) as -> by (unfold blk; rewrite Z.pow_add_r; lia).
    assert (0 < 2 ^ d) by (apply Z.pow_pos_nonneg; lia).
    pose proof (Z.div_mod x (2 ^ d) ltac:(lia)). pose proof (Z.mod_pos_bound x (2 ^ d) ltac:(lia)). nia. }
  destruct (st fk i) eqn:E.
  - destruct (absent_cover _ st T (Z.to_nat (MAXSIZE s - fk)) fk i) as (k' & Hk' & H1 & H2); [lia.. | exact Hi | done |].
    exists k', (i / 2 ^ (k' - fk)). split.
    + specialize (Hnf k' (i / 2 ^ (k' - fk)) ltac:(lia)). destruct (st k' (i / 2 ^ (k' - fk))); tauto.
    + destruct (Hup (i / 2 ^ (k' - fk)) (k' - fk) i (blk k')); try lia.
      * apply Z.div_pos; [lia|]. apply Z.pow_pos_nonneg; lia.
      * f_equal. lia.
  - by apply Hnf in E.
  - exists fk, i. split; [by left|]. lia.
  - destruct (split_busy _ st T (i_coal _ _ _ H) (Z.to_nat fk) i) as (k' & i' & Hk' & Hd & Hx); [lia | by rewrite Z2Nat.id by lia|].
    rewrite Z2Nat.id in * by lia. exists k', i'. split; [done|].
    assert (blk fk = blk k' * 2 ^ (fk - k')) as Eb
      by (unfold blk; replace fk with (k' + (fk - k')) at 1 by lia; rewrite Z.pow_add_r; lia).
    assert (0 < 2 ^ (fk - k')) by (apply Z.pow_pos_nonneg; lia). pose proof (blk_pos k' ltac:(lia)).
    pose proof (Z.div_mod i' (2 ^ (fk - k')) ltac:(lia)).
    pose proof (Z.mod_pos_bound i' (2 ^ (fk - k')) ltac:(lia)). subst i. rewrite Eb. nia.
  - exists fk, i. split; [by right|]. lia.
Qed.

Lemma bytes_of_mid xs p sz ys : bytes_of (xs ++ (p, sz) :: ys) = sz + bytes_of (xs ++ ys).
Proof. unfold bytes_of. induction xs as [|x xs IH]; simpl; [done|]. simpl in IH. rewrite IH. lia. Qed.

(** A block that is handed out starts where no other one does. *)
Lemma live_addr_inj s st F k i k' i' :
  inv s st F -> live st k i -> live st k' i' -> baddr s k i = baddr s k' i' -> k = k' /\ i = i'.
Proof. intros H H1 H2. apply (baddr_inj s st F H); unfold live in *; congruence. Qed.

Lemma live_apart s st F k i k' i' :
  inv s st F -> live st k i -> live st k' i' -> (k, i) <> (k', i') ->
  apart (baddr s k i, blk k) (baddr s k' i', blk k').
Proof.
  intros H H1 H2 Hne. unfold live, apart, baddr in *. simpl.
  destruct (leaves_disjoint _ _ (i_tree _ _ _ H) k i k' i'); try congruence; lia.
Qed.

Lemma live_in_heap s st F k i :
  inv s st F -> live st k i ->
  bd_base s <= baddr s k i /\ baddr s k i + blk k <= bd_base s + blk (MAXSIZE s)
  /\ (baddr s k i - bd_base s) mod blk k = 0 /\ 0 < baddr s k i /\ 0 <= k <= MAXSIZE s.
Proof.
  intros H Hl. destruct (inv_range s st F H k i) as [Hk Hi]; [unfold live in Hl; congruence|].
  pose proof (inv_max s st F H). pose proof (blk_pos k ltac:(lia)).
  destruct (off_bound s k i Hk ltac:(lia) Hi) as (Ho1 & Ho2 & _).
  pose proof (c_base _ _ (i_conf _ _ _ H)). unfold baddr.
  split_and!; try lia. replace (bd_base s + i * blk k - bd_base s) with (i * blk k) by lia.
  apply Z.mod_mul. lia.
Qed.

Lemma same_conf_rep_bounds s s' : same_conf s s' ->
  bd_base s' = bd_base s /\ bd_base s' + blk (MAXSIZE s') = bd_base s + blk (MAXSIZE s).
Proof. intros Hc. rewrite (same_conf_max _ _ Hc). by destruct Hc as (_ & _ & ->). Qed.

(** ** Simulation, one request *)

(** A block handed out contains no reserved memory. *)
Lemma live_avail g s st F k i :
  inv s st F -> live st k i -> lo g = bd_base s ->
  (forall j, st 0 j = Meta <-> 0 <= j < nb s 0 /\ (lo g + 16 * j < alo g \/ ahi g <= lo g + 16 * j)) ->
  alo g mod 16 = 0 -> ahi g mod 16 = 0 ->
  alo g <= baddr s k i /\ baddr s k i + blk k <= ahi g.
Proof.
  intros H Hl Hlo Hm Ha1 Ha2.
  destruct (inv_range s st F H k i) as [Hk Hi]; [unfold live in Hl; congruence|].
  pose proof (inv_max s st F H). pose proof (blk_pos k ltac:(lia)).
  destruct (off_bound s k i Hk ltac:(lia) Hi) as (Ho1 & Ho2 & _).
  pose proof (nb_blk s 0 ltac:(lia)) as Hnb. change (blk 0) with 16 in Hnb.
  pose proof (c_align _ _ (i_conf _ _ _ H)) as Hal. unfold aligned in Hal. rewrite <- Hlo in Hal.
  pose proof (blk_mod16 k ltac:(lia)) as Hb16.
  assert (i * blk k mod 16 = 0) as Hib by (rewrite <- Z.mul_mod_idemp_r, Hb16, Z.mul_0_r by lia; done).
  assert (forall j, i * blk k <= 16 * j < i * blk k + blk k -> ~ (lo g + 16 * j < alo g \/ ahi g <= lo g + 16 * j)) as Hout.
  { intros j Hj Hres. assert (st 0 j = Meta) as Hj' by (apply Hm; split; [lia | done]).
    unfold live in Hl. destruct (leaves_disjoint _ _ (i_tree _ _ _ H) k i 0 j); try congruence;
      change (blk 0) with 16 in *; lia. }
  unfold baddr. rewrite <- Hlo. split.
  - destruct (Z.le_gt_cases (alo g) (lo g + i * blk k)); [done|]. exfalso.
    apply (Hout (i * blk k / 16)); [dlia | left; dlia].
  - destruct (Z.le_gt_cases (lo g + i * blk k + blk k) (ahi g)); [done|]. exfalso.
    apply (Hout ((i * blk k + blk k) / 16 - 1)); [dlia | right; dlia].
Qed.

(** A refused request: no block of the size is to be had. *)
Lemma refused g s st F A n fk :
  inv s st F -> lo g = bd_base s -> hi g = bd_base s + blk (MAXSIZE s) ->
  (forall j, st 0 j = Meta <-> 0 <= j < nb s 0 /\ (lo g + 16 * j < alo g \/ ahi g <= lo g + 16 * j)) ->
  alo g mod 16 = 0 -> ahi g mod 16 = 0 ->
  (forall p sz, (p, sz) ∈ A <-> exists k i, live st k i /\ p = baddr s k i /\ sz = blk k) ->
  0 <= fk -> block_size n = blk fk -> (forall k, fk <= k <= MAXSIZE s -> F k = []) ->
  good_answer g A (OMalloc n) 0.
Proof.
  intros H Hlo Hhi Hm Ha1 Ha2 HA Hfk Hbs HF. left. split; [done|]. rewrite Hbs, Hhi, Hlo. intros i Hi Hin.
  pose proof (blk_pos fk Hfk) as Hb. pose proof (inv_max s st F H) as Hmax.
  assert (fk <= MAXSIZE s) as Hle.
  { destruct (Z.le_gt_cases fk (MAXSIZE s)); [done|]. exfalso.
    assert (blk fk = blk (MAXSIZE s) * 2 ^ (fk - MAXSIZE s)) as E
      by (unfold blk; replace fk with (MAXSIZE s + (fk - MAXSIZE s)) at 1 by lia; rewrite Z.pow_add_r; lia).
    assert (2 <= 2 ^ (fk - MAXSIZE s)) by (apply (Z.pow_le_mono_r 2 1); lia).
    pose proof (blk_pos (MAXSIZE s) ltac:(lia)). nia. }
  pose proof (nb_blk s fk ltac:(lia)) as Hnb.
  destruct (no_room_busy s st F fk i H) as (k' & i' & Hst & B1 & B2); [lia | nia | done |].
  destruct (inv_range s st F H k' i') as [Hk' Hi']; [destruct Hst; congruence|].
  destruct Hst as [Hst|Hst].
  - right; right. exists (baddr s k' i', blk k'). split; [apply HA; eauto|].
    unfold apart, baddr. simpl. lia.
  - assert (k' = 0) as -> by (by apply (t_meta _ _ (i_tree _ _ _ H) k' i')).
    change (blk 0) with 16 in *. apply Hm in Hst as [_ Hres]. rewrite Hlo in Hres.
    assert (bd_base s mod 16 = 0) by apply (c_align _ _ (i_conf _ _ _ H)).
    pose proof (blk_mod16 fk Hfk) as Hb16.
    assert (i * blk fk mod 16 = 0) as Hib by (rewrite <- Z.mul_mod_idemp_r, Hb16, Z.mul_0_r by lia; done).
    destruct Hres; [left | right; left]; dlia.
Qed.

Lemma malloc_sim g s A n :
  rep g s A -> 0 <= n <= 2 ^ 63 ->
  wp (bd_malloc n) s (fun r s' => good_answer g A (OMalloc n) r /\ rep g s' (after A (OMalloc n) r)).
Proof.
  intros [(st & F & H & Hlk & Hlo & Hhi & Hm & Ha1 & Ha2 & Hnd & HA & Htot)] Hn.
  eapply wp_mono; [by apply (bd_malloc_wp s st F n)|].
  intros p s' (fk & Hfk & Hge & Hlt & [(-> & H' & Hc & Hlk' & HF)|(i & st' & F' & -> & M)]);
    pose proof (block_size_blk n fk ltac:(lia) Hge Hlt) as Hbs.
  - split; [by apply (refused g s st F A n fk); try done; lia|]. simpl.
    destruct (same_conf_rep_bounds _ _ Hc) as [E1 E2].
    constructor. exists st, F. split_and!; try done; try congruence.
    + intros j. rewrite Hm. unfold nb. by rewrite (same_conf_max _ _ Hc).
    + intros p sz. rewrite HA. setoid_rewrite (same_conf_baddr _ _ _ _ Hc). done.
    + by rewrite (same_conf_max _ _ Hc).
  - destruct M as [H' Hc Hlk' Hmk Hfresh Hlive Hb].
    destruct (same_conf_rep_bounds _ _ Hc) as [E1 E2].
    assert (live st' fk i) as Hnew by (apply Hlive; by right).
    assert (forall j, st' 0 j = Meta <-> 0 <= j < nb s' 0 /\ (lo g + 16 * j < alo g \/ ahi g <= lo g + 16 * j)) as Hm'.
    { intros j. rewrite (Hmk 0 j), Hm. unfold nb. by rewrite (same_conf_max _ _ Hc). }
    destruct (live_in_heap _ _ _ _ _ H' Hnew) as (B1 & B2 & B3 & B4 & B5).
    destruct (live_avail g s' st' F' fk i H' Hnew) as [V1 V2]; [congruence | done..|].
    rewrite (same_conf_baddr _ _ _ _ Hc) in *.
    assert (forall b, b ∈ A -> apart (baddr s fk i, blk fk) b) as Hap.
    { intros [p sz] Hin. apply HA in Hin as (k0 & i0 & Hl0 & -> & ->).
      rewrite <- !(same_conf_baddr _ _ _ _ Hc).
      apply (live_apart s' st' F'); [done | done | apply Hlive; by left | congruence]. }
    split; [right; rewrite Hbs; split_and!; try done; by rewrite Hlo, <- E1|].
    simpl. rewrite Hbs. zcmp. constructor. exists st', F'. split_and!; try done; try congruence.
    + apply NoDup_cons. split; [|done]. intros Hin. pose proof (blk_pos fk ltac:(lia)).
      apply Hap in Hin. unfold apart in Hin. simpl in Hin. lia.
    + intros p sz. setoid_rewrite (same_conf_baddr _ _ _ _ Hc). rewrite elem_of_cons, HA. split.
      * intros [[= -> ->]|(k0 & i0 & Hl & E)]; [exists fk, i; split; [done|done]|].
        exists k0, i0. split; [apply Hlive; by left | done].
      * intros (k0 & i0 & Hl & -> & ->). apply Hlive in Hl as [Hl|[= -> ->]]; [right; eauto | by left].
    + rewrite (same_conf_max _ _ Hc), Hb. simpl. lia.
Qed.

Lemma filter_all {X} (P : X -> Prop) `{forall x, Decision (P x)} (l : list X) :
  (forall x, x ∈ l -> P x) -> filter P l = l.
Proof.
  induction l as [|x l IH]; intros Hl; [done|].
  rewrite filter_cons_True by (apply Hl; set_solver). f_equal. apply IH. set_solver.
Qed.

Lemma bytes_of_filter A p sz :
  NoDup (A.*1) -> (p, sz) ∈ A -> bytes_of A = sz + bytes_of (filter (fun b => fst b <> p) A).
Proof.
  induction A as [|[q z] A IH]; simpl; [by intros _ ?%not_elem_of_nil|].
  intros [Hq Hnd]%NoDup_cons [[= <- <-]|Hin]%elem_of_cons.
  - rewrite filter_cons_False by (simpl; tauto).
    rewrite filter_all; [done|]. intros x Hx E. apply Hq. apply list_elem_of_fmap. by exists x.
  - assert (q <> p) by (intros ->; apply Hq; apply list_elem_of_fmap; by exists (p, sz)).
    rewrite filter_cons_True by done. simpl. rewrite (IH Hnd Hin). lia.
Qed.

Lemma rep_addrs g s A : rep g s A -> NoDup (A.*1).
Proof.
  intros [(st & F & H & _ & _ & _ & _ & _ & _ & Hnd & HA & _)].
  apply NoDup_fmap_2_strong; [|done]. intros [p sz] [q sz'] Hp Hq E. simpl in E. subst q.
  apply HA in Hp as (k & i & Hl & -> & ->). apply HA in Hq as (k' & i' & Hl' & E & ->).
  by destruct (live_addr_inj s st F k i k' i' H Hl Hl' E) as [-> ->].
Qed.

Lemma free_sim g s A p sz :
  rep g s A -> (p, sz) ∈ A ->
  wp (bd_free p) s (fun _ s' => rep g s' (after A (OFree p) 0)).
Proof.
  intros Hrep Hin. pose proof (rep_addrs _ _ _ Hrep) as Hnd1.
  destruct Hrep as [(st & F & H & Hlk & Hlo & Hhi & Hm & Ha1 & Ha2 & Hnd & HA & Htot)].
  pose proof Hin as Hex. apply HA in Hex as (k & i & Hl & -> & ->).
  eapply wp_mono; [by apply (bd_free_wp s st F k i)|].
  intros [] s' (st' & F' & [H' Hc Hlk' Hmk Hlive Hb]).
  destruct (same_conf_rep_bounds _ _ Hc) as [E1 E2]. simpl.
  constructor. exists st', F'. split_and!; try done; try congruence.
  - intros j. rewrite (Hmk 0 j), Hm. unfold nb. by rewrite (same_conf_max _ _ Hc).
  - by apply NoDup_filter.
  - intros p sz. setoid_rewrite (same_conf_baddr _ _ _ _ Hc).
    rewrite list_elem_of_filter, HA. simpl. split.
    + intros [Hne (k0 & i0 & Hl0 & -> & ->)]. exists k0, i0. split; [|done]. apply Hlive. split; [done|]. congruence.
    + intros (k0 & i0 & Hl0 & -> & ->). apply Hlive in Hl0 as [Hl0 Hne]. split; [|eauto].
      intros E. apply Hne. destruct (live_addr_inj s st F k0 i0 k i) as [-> ->]; done.
  - rewrite (same_conf_max _ _ Hc), Hb. pose proof (bytes_of_filter A (baddr s k i) (blk k) Hnd1 Hin) as Hf.
    change (bytes_of A = blk k + bytes_of (after A (OFree (baddr s k i)) 0)) in Hf. simpl in Hf. lia.
Qed.

Lemma serve_sim g s A o :
  rep g s A -> allowed A o ->
  wp (serve o) s (fun r s' => good_answer g A o r /\ rep g s' (after A o r)).
Proof.
  intros H Ho. destruct o as [n|p]; simpl in *.
  - by apply malloc_sim.
  - destruct Ho as [sz Hin]. wp_step. eapply wp_mono; [by apply free_sim with (sz := sz)|].
    intros [] s' Hx. by apply wp_ret.
Qed.

(** ** The start *)

(** The memory [bd_init base end_] sets up. *)
Definition init_region (base end_ top : Z) : region :=
  let b := ROUNDUP base 16 in
  mkRegion b (b + blk top) (b + meta_size top) (b + 16 * ((end_ - b) / 16)).

(** The CPU that runs [bd_init] is in a sane state. *)
Definition cpu_fine (l : Seq.lockst) : Prop :=
  cpu_ok (Seq.hart l) /\ noff (Seq.hart l) < 2 ^ 31 - 2.

Lemma lock_free_init l : cpu_fine l -> lock_free (Seq.mkLockst (Seq.me l) initlock (Seq.hart l)).
Proof. done. Qed.

Lemma inited_rep base end_ top l0 s st F :
  init_ok base end_ top -> cpu_fine l0 -> inited base end_ top l0 s st F -> rep (init_region base end_ top) s [].
Proof.
  intros [Hb He [Ht Hl] Hnp Hms _] Hcpu [H HM Hbase Hf Hlive Hmeta Hlock].
  destruct (ROUNDUP_spec base 16) as [Hr Hrm]; [lia..|]. set (b := ROUNDUP base 16) in *.
  destruct (meta_size_ge top) as [M1 M2]; [lia|].
  pose proof (blk_half top Ht). pose proof (blk_pos (top - 1) ltac:(lia)).
  constructor. exists st, F. unfold init_region. fold b. simpl. rewrite Hlock, HM, Hbase, Hf.
  split_and!; try done; try (by apply lock_free_init); try (clear -Hrm M2; dlia); try (by constructor).
  - intros i. rewrite Hmeta. unfold nb. rewrite HM, Z.sub_0_r.
    assert (blk (top - 1) = 16 * 2 ^ (top - 1)) by done.
    assert (blk top = 16 * 2 ^ top) by done. clear Hmeta Hlive Hf. set (c := 2 ^ top) in *. dlia.
  - intros p sz. split; [by intros ?%not_elem_of_nil|].
    intros (k & i & Hl' & _). by apply Hlive in Hl'.
Qed.

(** The states a kernel can bring the allocator to. *)
Inductive reach (base end_ : Z) : bd -> list block -> Prop :=
| reach_init s0 s : cpu_fine (lock s0) -> bd_init base end_ s0 = Ret (tt, s) -> reach base end_ s []
| reach_serve s A o r s' :
    reach base end_ s A -> allowed A o -> serve o s = Ret (r, s') ->
    reach base end_ s' (after A o r).

Lemma reach_rep base end_ top s A :
  init_ok base end_ top -> reach base end_ s A -> rep (init_region base end_ top) s A.
Proof.
  intros Hok. induction 1 as [s0 s Hc Hi|s A o r s' Hr IH Ho Hs].
  - destruct (bd_init_wp base end_ top s0 (fun _ s => exists st F, inited base end_ top (lock s0) s st F))
      as (u & s1 & E & st & F & Hin); [done | by eauto |].
    rewrite Hi in E. injection E as <- <-. by apply (inited_rep _ _ _ _ _ _ _ Hok Hc Hin).
  - destruct (serve_sim _ s A o IH Ho) as (r1 & s1 & E & _ & Hrep).
    rewrite Hs in E. by injection E as <- <-.
Qed.

(** Blocks handed out lie in the available memory and do not overlap. *)
Lemma rep_blocks g s A : rep g s A ->
  (forall p sz, (p, sz) ∈ A -> alo g <= p /\ p + sz <= ahi g)
  /\ (forall a b, a ∈ A -> b ∈ A -> a <> b -> apart a b).
Proof.
  intros [(st & F & H & _ & Hlo & Hhi & Hm & Ha1 & Ha2 & _ & HA & _)]. split.
  - intros p sz Hin. apply HA in Hin as (k & i & Hl & -> & ->). by apply (live_avail g s st F).
  - intros [p sz] [q sz'] Hp Hq Hne. apply HA in Hp as (k & i & Hl & -> & ->).
    apply HA in Hq as (k' & i' & Hl' & -> & ->). apply (live_apart s st F); try done. congruence.
Qed.

(** ** The kernel's configuration *)

Definition kmeta : Z := Eval vm_compute in meta_size 23.

(** At every size the lower reserved range ends at an odd block, far below
    the upper one, or the blocks are smaller than a page. *)
Definition kspread (k : Z) : bool :=
  (Lk kmeta k mod 2 =? 1) || (Lk kmeta k + 1 <? 2 ^ (22 - k)) || (k <=? 7).

Lemma kspread_ok k : 0 <= k < 23 -> kspread k = true.
Proof.
  intros Hk. assert (forallb kspread (seqZ 0 23) = true) as H by (by vm_compute).
  rewrite forallb_forall in H. apply H. apply list_elem_of_In, elem_of_seqZ. lia.
Qed.

Lemma kinit_ok end_ : 0x80000000 < end_ <= 0x83fff000 -> init_ok (PGROUNDUP end_) PHYSTOP 23.
Proof.
  intros He. destruct (PGROUNDUP_spec end_) as [Hr Hm]; [lia|]. set (b := PGROUNDUP end_) in *.
  assert (ROUNDUP b 16 = b) as Eb by (destruct (ROUNDUP_spec b 16); [lia..|dlia]).
  assert (blk 22 = 2 ^ 26 /\ blk 23 = 2 ^ 27) as [E22 E23] by done.
  assert (0x80001000 <= b <= 0x83fff000) as Hb by (clear -He Hr Hm; dlia).
  constructor; rewrite ?Eb; unfold PHYSTOP; try lia.
  - split; [lia|]. change (23 - 1) with 22. rewrite E22, E23. lia.
  - by vm_compute.
  - intros k Hk [E1 E2]. change (meta_size 23) with kmeta in *.
    pose proof (kspread_ok k Hk) as Hs. unfold kspread in Hs.
    set (e := 16 * ((0x88000000 - b) / 16)) in *.
    assert (e = 0x88000000 - b) as Ee by (subst e; clear -Hm; dlia).
    assert (2 ^ (22 - k) <= Rk e k).
    { unfold Rk. apply Z.div_le_lower_bound; [pose proof (blk_pos k); lia|].
      assert (blk k * 2 ^ (22 - k) = blk 22) as ->; [|lia].
      unfold blk. rewrite <- Z.mul_assoc, <- Z.pow_add_r by lia. do 2 f_equal. lia. }
    assert (k <= 7) as Hk7 by lia.
    assert (Rk e k mod 2 = 0) as Hev; [|rewrite E2 in Hev; clear -E1 Hev; dlia].
    assert (e = 2 * blk k * (2 ^ (7 - k) * (e / 4096))) as Ek.
    { assert (e = 4096 * (e / 4096)) as E by (rewrite Ee; clear -Hm; dlia). rewrite E at 1.
      assert (2 * blk k * 2 ^ (7 - k) = 4096) as <-; [|lia]. unfold blk.
      replace (2 * (16 * 2 ^ k) * 2 ^ (7 - k)) with (32 * (2 ^ k * 2 ^ (7 - k))) by lia.
      rewrite <- Z.pow_add_r by lia. by replace (k + (7 - k)) with 7 by lia. }
    unfold Rk. rewrite Ek. pose proof (blk_pos k ltac:(lia)).
    replace (2 * blk k * (2 ^ (7 - k) * (e / 4096))) with ((2 ^ (7 - k) * (e / 4096)) * 2 * blk k) by lia.
    rewrite Z.div_mul by lia. apply Z.mod_mul. lia.
Qed.

(** ** Theorems *)

(** C1: the allocator refines its abstract specification.  In every state
    that represents the handed-out blocks [A], [bd_malloc] of up to 2^63
    bytes and [bd_free] of a block of [A] return (no panic, no access outside
    the bit arrays, no endless loop); a block handed out is big enough, has
    its size's alignment, lies in the available memory and overlaps no block
    of [A]; a refusal means that no aligned block of that size is free; and
    the state afterwards represents [A] with exactly that change. *)
Theorem buddy_refines_spec (g : region) (s : bd) (A : list block) (o : request) :
  rep g s A -> allowed A o ->
  exists r s', serve o s = Ret (r, s') /\ good_answer g A o r /\ rep g s' (after A o r).
Proof. apply serve_sim. Qed.

(** C34: [bd_init] on memory [base, end_) with a usable layout returns with
    nothing handed out, all of the memory between the allocator's own data
    and [end_] (rounded down to 16 bytes) free, and the allocator's data and
    the memory past the end reserved. *)
Theorem bd_init_correct (base end_ top : Z) (s0 : bd) :
  init_ok base end_ top -> cpu_fine (lock s0) ->
  exists s, bd_init base end_ s0 = Ret (tt, s) /\ rep (init_region base end_ top) s []
    /\ ROUNDUP base 16 + meta_size top = alo (init_region base end_ top)
    /\ end_ - 16 < ahi (init_region base end_ top) <= end_.
Proof.
  intros Hok Hc. destruct (bd_init_wp base end_ top s0
    (fun _ s => exists st F, inited base end_ top (lock s0) s st F)) as ([] & s & E & st & F & Hin); [done | eauto|].
  exists s. split; [done|]. split; [by eapply inited_rep|]. simpl. split; [done|].
  clear. set (b := ROUNDUP base 16). dlia.
Qed.

(** C16: whatever sequence of requests a kernel makes after [bd_init], as long
    as it frees only blocks it holds: the blocks it holds lie inside the
    memory given to [bd_init], do not overlap, and the next request is served
    too. *)
Theorem allocator_safe (base end_ top : Z) (s : bd) (A : list block) :
  init_ok base end_ top -> reach base end_ s A ->
  (forall p sz, (p, sz) ∈ A -> base <= p /\ p + sz <= end_)
  /\ (forall a b, a ∈ A -> b ∈ A -> a <> b -> apart a b)
  /\ (forall o, allowed A o -> exists r s', serve o s = Ret (r, s') /\ reach base end_ s' (after A o r)).
Proof.
  intros Hok Hr. pose proof (reach_rep _ _ _ _ _ Hok Hr) as Hrep.
  destruct (rep_blocks _ _ _ Hrep) as [Hin Hap]. split; [|split; [done|]].
  - intros p sz Hx. destruct (Hin p sz Hx) as [H1 H2]. simpl in *.
    destruct Hok as [Hb _ [Ht _] _ _ _]. destruct (ROUNDUP_spec base 16) as [Hr1 _]; [lia..|].
    destruct (meta_size_ge top) as [M1 _]; [lia|].
    set (b := ROUNDUP base 16) in *. split; [lia|]. clear -H2. dlia.
  - intros o Ho. destruct (serve_sim _ s A o Hrep Ho) as (r & s' & E & _). exists r, s'.
    split; [done|]. by eapply reach_serve.
Qed.

(** memory given back can be handed out again: after a successful
    [bd_malloc(n)] and the [bd_free] of its block, the blocks held are those
    from before, and [bd_malloc(n)] succeeds again. *)
Theorem free_makes_room (g : region) (s : bd) (A : list block) (n p : Z) (s1 : bd) :
  rep g s A -> 0 <= n <= 2 ^ 63 -> bd_malloc n s = Ret (p, s1) -> p <> 0 ->
  exists s2 p' s3, bd_free p s1 = Ret (tt, s2) /\ rep g s2 A
    /\ bd_malloc n s2 = Ret (p', s3) /\ p' <> 0.
Proof.
  intros Hrep Hn Hm Hp.
  destruct (malloc_sim g s A n Hrep Hn) as (p0 & s0 & E & Hga & Hrep1). rewrite Hm in E. injection E as <- <-.
  destruct Hga as [[? _]|(Hp0 & Ha & Hb & Hal & Hap)]; [done|].
  simpl in Hrep1. replace (p =? 0) with false in Hrep1 by (symmetry; by apply Z.eqb_neq).
  destruct (free_sim g s1 ((p, block_size n) :: A) p (block_size n) Hrep1) as ([] & s2 & E2 & Hrep2); [set_solver|].
  assert (0 < block_size n) as Hbs.
  { unfold block_size. case_if; [lia|]. apply Z.pow_pos_nonneg; [lia | apply Z.log2_up_nonneg]. }
  assert (after ((p, block_size n) :: A) (OFree p) 0 = A) as EA.
  { simpl. rewrite filter_cons_False by (simpl; tauto). apply filter_all. intros [q z] Hq Eq. simpl in Eq. subst q.
    destruct (rep_blocks _ _ _ Hrep1) as [_ Hap1].
    pose proof (rep_addrs _ _ _ Hrep1) as Hnd. simpl in Hnd. apply NoDup_cons in Hnd as [Hnd _].
    apply Hnd, list_elem_of_fmap. by exists (p, z). }
  rewrite EA in Hrep2.
  destruct (malloc_sim g s2 A n Hrep2 Hn) as (p' & s3 & E3 & Hga & _).
  exists s2, p', s3. split; [done|]. split; [done|]. split; [done|]. intros ->.
  destruct Hga as [[_ Hno]|(? & _)]; [|lia].
  assert (lo g <= p /\ p + block_size n <= hi g) as [Hlo Hhi].
  { destruct Hrep1 as [(st & F & H & _ & E1 & E4 & _ & _ & _ & _ & HA & _)].
    destruct (HA p (block_size n)) as [(k & i & Hl & -> & ->) _]; [set_solver|].
    destruct (live_in_heap _ _ _ _ _ H Hl) as (? & ? & _). lia. }
  pose proof (Z.div_mod (p - lo g) (block_size n) ltac:(lia)) as Hd. rewrite Hal in Hd.
  destruct (Hno ((p - lo g) / block_size n)) as [?|[?|(b & Hb' & Hnap)]]; [apply Z.div_pos; lia | lia | lia | lia |].
  apply Hnap. replace (lo g + (p - lo g) / block_size n * block_size n) with p by lia. by apply Hap.
Qed.

(** With the kernel ending anywhere in the first 64 MB of memory, [kinit]
    returns and the first [kalloc] after it gives a page-aligned page between
    the kernel and PHYSTOP. *)
Theorem kinit_kalloc (end_ : Z) (s0 : bd) :
  0x80000000 < end_ <= 0x83fff000 -> cpu_fine (lock s0) ->
  exists s, kinit end_ s0 = Ret (tt, s) /\ rep (init_region (PGROUNDUP end_) PHYSTOP 23) s []
    /\ exists p s', kalloc s = Ret (p, s') /\ p mod PGSIZE = 0 /\ end_ < p /\ p + PGSIZE <= PHYSTOP.
Proof.
  intros He Hc. pose proof (kinit_ok end_ He) as Hok. set (g := init_region (PGROUNDUP end_) PHYSTOP 23).
  destruct (bd_init_wp (PGROUNDUP end_) PHYSTOP 23 s0
    (fun _ s => exists st F, inited (PGROUNDUP end_) PHYSTOP 23 (lock s0) s st F))
    as ([] & s & E & st & F & Hin); [done | eauto|].
  exists s. split; [done|]. pose proof (inited_rep _ _ _ _ _ _ _ Hok Hc Hin) as Hrep. split; [done|].
  destruct (malloc_sim g s [] PGSIZE Hrep) as (p & s' & E' & Hga & _); [unfold PGSIZE; lia|].
  exists p, s'. split; [done|].
  destruct (PGROUNDUP_spec end_) as [Hr Hm]; [lia|].
  assert (ROUNDUP (PGROUNDUP end_) 16 = PGROUNDUP end_) as Eb
    by (destruct (ROUNDUP_spec (PGROUNDUP end_) 16) as [R1 R2]; [lia..|]; clear -R1 R2 Hm; dlia).
  unfold g, init_region in Hga. rewrite Eb in Hga. set (b := PGROUNDUP end_) in *.
  change (block_size PGSIZE) with 4096 in *. change (meta_size 23) with kmeta in *.
  unfold good_answer in Hga. change (block_size PGSIZE) with 4096 in Hga. cbn [lo hi alo ahi] in Hga.
  change (blk 23) with (2 ^ 27) in Hga. unfold PHYSTOP, PGSIZE in *. set (e := (0x88000000 - b) / 16) in *.
  assert (16 * e = 0x88000000 - b) as Hee by (subst e; clear -Hm; dlia). unfold kmeta in Hga.
  destruct Hga as [[-> Hno]|(Hp & H1 & H2 & H3 & _)].
  - exfalso. destruct (Hno 8191) as [Hx|[Hx|(x & Hx & _)]]; [lia | clear -He Hr; lia | clear -Hx Hee He Hr Hm; lia
      | clear -Hx Hee He Hr Hm; lia | by apply not_elem_of_nil in Hx].
  - split; [|split; lia]. clear -H3 Hm. dlia.
Qed.

(** [firstk n] ends for every request of up to 2^63 bytes and gives the
    smallest size whose blocks hold [n] bytes. *)
Theorem firstk_least (n : Z) (s : bd) :
  0 <= n <= 2 ^ 63 ->
  exists k, firstk n s = Ret (k, s) /\ n <= BLK_SIZE k /\ forall j, 0 <= j -> n <= BLK_SIZE j -> k <= j.
Proof.
  intros Hn. destruct (firstk_wp n s (fun k s' => s' = s /\ 0 <= k /\ n <= blk k /\ (0 < k -> blk (k - 1) < n)))
    as (k & s' & E & -> & Hk & Hge & Hlt); [done | intros; split_and!; auto; lia|].
  exists k. split; [done|]. rewrite BLK_SIZE_blk. split; [done|]. intros j Hj. rewrite BLK_SIZE_blk. intros Hnj.
  destruct (Z.le_gt_cases k j); [done|]. specialize (Hlt ltac:(lia)).
  assert (blk j <= blk (k - 1)); [|lia]. unfold blk. apply Z.mul_le_mono_nonneg_l; [lia|].
  apply Z.pow_le_mono_r; lia.
Qed.

(** The loop variable [size] after [m] doublings. *)
Lemma firstk_stuck (n : Z) (fuel : nat) k (s : bd) :
  2 ^ 63 < n -> loop fuel (firstk_body n) (k, 0) s = Diverge.
Proof.
  intros Hn. revert k. induction fuel as [|fuel IH]; intros k; [done|]. simpl. unfold firstk_body at 1, bind. simpl.
  replace (0 <? n) with true by (symmetry; apply Z.ltb_lt; lia). simpl. apply IH.
Qed.

Lemma firstk_climbs (n : Z) (m fuel : nat) k (s : bd) :
  2 ^ 63 < n -> (m < 60)%nat -> loop fuel (firstk_body n) (k, 2 ^ (63 - Z.of_nat m)) s = Diverge.
Proof.
  intros Hn. revert fuel k. induction m as [|m IH]; intros fuel k Hm; (destruct fuel as [|fuel]; [done|]);
    simpl loop; unfold firstk_body at 1, bind; cbn [fst snd].
  - rewrite (proj2 (Z.ltb_lt _ _)) by (change (63 - Z.of_nat 0) with 63; lia). simpl ret.
    change (u64 (2 ^ (63 - Z.of_nat 0) * 2)) with 0. by apply firstk_stuck.
  - assert (2 ^ (63 - Z.of_nat (S m)) < 2 ^ 63) by (apply Z.pow_lt_mono_r; lia).
    rewrite (proj2 (Z.ltb_lt _ _)) by lia.
    assert (2 ^ (63 - Z.of_nat (S m)) * 2 = 2 ^ (63 - Z.of_nat m)) as E.
    { replace (63 - Z.of_nat m) with (63 - Z.of_nat (S m) + 1) by lia. rewrite Z.pow_add_r; lia. }
    assert (0 < 2 ^ (63 - Z.of_nat m) <= 2 ^ 63)
      by (split; [apply Z.pow_pos_nonneg | apply Z.pow_le_mono_r]; lia).
    rewrite u64_small, E by lia. apply IH. lia.
Qed.

(** C40: for a request of more than 2^63 bytes the loop of [firstk] never
    ends, however long it runs: [size] wraps to 0.  [bd_malloc] then holds
    the allocator's lock for ever. *)
Theorem firstk_never_returns (n : Z) (s : bd) (fuel : nat) :
  2 ^ 63 < n < 2 ^ 64 -> loop fuel (firstk_body n) (0, LEAF_SIZE) s = Diverge.
Proof. intros Hn. apply (firstk_climbs n 59); lia. Qed.


(** ** Witnesses *)

Definition any_hart : Seq.lockst := Seq.mkLockst 0 initlock (mkCpu 0 false true).
Definition blank : bd := mkBd 0 0 0 [] (fun _ => 0) any_hart.

Lemma cpu_fine_any : cpu_fine any_hart.
Proof. repeat split; simpl; lia. Qed.

Lemma booted : exists s, bd_init 0x80021000 PHYSTOP blank = Ret (tt, s)
  /\ rep (init_region 0x80021000 PHYSTOP 23) s [].
Proof.
  assert (init_ok (PGROUNDUP 0x80020ef0) PHYSTOP 23) as Hok by (apply kinit_ok; lia).
  change (PGROUNDUP 0x80020ef0) with 0x80021000 in Hok.
  destruct (bd_init_wp 0x80021000 PHYSTOP 23 blank
    (fun _ s => exists st F, inited 0x80021000 PHYSTOP 23 (lock blank) s st F))
    as ([] & s & E & st & F & Hin); [done | eauto|].
  exists s. split; [done|]. eapply inited_rep; [done | apply cpu_fine_any | done].
Qed.

(** The first page that [kalloc] hands out after booting. *)
Lemma first_page : exists s p s1, rep (init_region 0x80021000 PHYSTOP 23) s []
  /\ bd_malloc 4096 s = Ret (p, s1) /\ p <> 0.
Proof.
  destruct booted as (s & _ & Hrep).
  destruct (malloc_sim _ s [] 4096 Hrep) as (p & s1 & E & Hga & _); [lia|].
  exists s, p, s1. split; [done|]. split; [done|]. intros ->.
  destruct Hga as [[_ Hno]|(? & _)]; [|lia].
  destruct (Hno 8191) as [Hx|[Hx|(b & Hb & _)]]; [lia | by vm_compute | by vm_compute in Hx | by vm_compute in Hx |].
  by apply not_elem_of_nil in Hb.
Qed.

Lemma buddy_refines_spec_witness :
  exists s r s', rep (init_region 0x80021000 PHYSTOP 23) s [] /\ serve (OMalloc 100) s = Ret (r, s')
    /\ good_answer (init_region 0x80021000 PHYSTOP 23) [] (OMalloc 100) r.
Proof.
  destruct booted as (s & _ & Hrep).
  destruct (buddy_refines_spec _ s [] (OMalloc 100) Hrep) as (r & s' & E & Hg & _); [simpl; lia|].
  exists s, r, s'. auto.
Defined.

Lemma bd_init_correct_witness :
  exists s, bd_init 0x80021000 PHYSTOP blank = Ret (tt, s) /\ rep (init_region 0x80021000 PHYSTOP 23) s [].
Proof.
  assert (init_ok (PGROUNDUP 0x80020ef0) PHYSTOP 23) as Hok by (apply kinit_ok; lia).
  destruct (bd_init_correct _ _ _ blank Hok cpu_fine_any) as (s & E & Hrep & _).
  exists s. split; [exact E | exact Hrep].
Defined.

Lemma allocator_safe_witness :
  exists s, reach 0x80021000 PHYSTOP s [] /\ exists r s', serve (OMalloc 4096) s = Ret (r, s').
Proof.
  assert (init_ok (PGROUNDUP 0x80020ef0) PHYSTOP 23) as Hok by (apply kinit_ok; lia).
  destruct booted as (s & E & _).
  assert (reach 0x80021000 PHYSTOP s []) as Hr by (apply (reach_init _ _ blank); [apply cpu_fine_any | exact E]).
  exists s. split; [exact Hr|].
  destruct (allocator_safe _ _ _ s [] Hok Hr) as (_ & _ & Hn).
  destruct (Hn (OMalloc 4096)) as (r & s' & E' & _); [simpl; lia|]. exists r, s'. exact E'.
Defined.

Lemma free_makes_room_witness :
  exists s p s1 s2 p' s3, bd_malloc 4096 s = Ret (p, s1) /\ bd_free p s1 = Ret (tt, s2)
    /\ bd_malloc 4096 s2 = Ret (p', s3) /\ p' <> 0.
Proof.
  destruct first_page as (s & p & s1 & Hrep & E & Hp).
  destruct (free_makes_room _ s [] 4096 p s1 Hrep ltac:(lia) E Hp) as (s2 & p' & s3 & E2 & _ & E3 & Hp').
  exists s, p, s1, s2, p', s3. auto.
Defined.

Lemma kinit_kalloc_witness :
  exists s, kinit 0x80020ef0 blank = Ret (tt, s)
    /\ exists p s', kalloc s = Ret (p, s') /\ p mod PGSIZE = 0.
Proof.
  destruct (kinit_kalloc 0x80020ef0 blank ltac:(lia) cpu_fine_any) as (s & E & _ & p & s' & E' & Hm & _).
  exists s. split; [exact E|]. exists p, s'. auto.
Defined.

Lemma firstk_least_witness :
  exists k, firstk 4096 blank = Ret (k, blank) /\ 4096 <= BLK_SIZE k /\ k <= 8.
Proof.
  destruct (firstk_least 4096 blank ltac:(lia)) as (k & E & H1 & H2).
  exists k. split; [exact E|]. split; [exact H1|]. apply H2; vm_compute; discriminate.
Defined.

Lemma firstk_never_returns_witness : loop firstk_fuel (firstk_body (2 ^ 64 - 1)) (0, LEAF_SIZE) blank = Diverge.
Proof. apply firstk_never_returns. lia. Defined.
