(* ===== verification/KString.v ===== *)
(** * Memory and string routines of the kernel (kernel/string.c)

    The routines work on a memory of bytes, one per address; a C string is a
    run of non-zero bytes followed by a zero.  Loops that count [n] down are
    recursions on [n]; [strlen] has fuel, and its theorem says how much is
    enough. *)

From S2P Require Import Prelude.

(** Every cell holds a byte. *)
Definition bytes_mem (m : mem) : Prop := forall a, 0 <= m a < 256.

(** [for (i = 0; i < n; i++) cdst[i] = c;] *)
Fixpoint memset_loop (n : nat) (a c : Z) (m : mem) : mem :=
  match n with
  | O => m
  | S n' => memset_loop n' (a + 1) c (upd m a (u8 c))
  end.

Definition memset (dst c n : Z) (m : mem) : mem := memset_loop (Z.to_nat n) dst c m.

Fixpoint memcmp_loop (n : nat) (s1 s2 : Z) (m : mem) : Z :=
  match n with
  | O => 0
  | S n' => if negb (m s1 =? m s2) then m s1 - m s2 else memcmp_loop n' (s1 + 1) (s2 + 1) m
  end.

Definition memcmp (v1 v2 n : Z) (m : mem) : Z := memcmp_loop (Z.to_nat n) v1 v2 m.

(** [while (n-- > 0) *--d = *--s;] *)
Fixpoint copy_down (n : nat) (d s : Z) (m : mem) : mem :=
  match n with
  | O => m
  | S n' => copy_down n' (d - 1) (s - 1) (upd m (d - 1) (m (s - 1)))
  end.

(** [while (n-- > 0) *d++ = *s++;] *)
Fixpoint copy_up (n : nat) (d s : Z) (m : mem) : mem :=
  match n with
  | O => m
  | S n' => copy_up n' (d + 1) (s + 1) (upd m d (m s))
  end.

Definition memmove (dst src n : Z) (m : mem) : mem :=
  if n =? 0 then m
  else if (src <? dst) && (src + n >? dst)
  then copy_down (Z.to_nat n) (dst + n) (src + n) m
  else copy_up (Z.to_nat n) dst src m.

Definition memcpy (dst src n : Z) (m : mem) : mem := memmove dst src n m.

Fixpoint strncmp_loop (n : nat) (p q : Z) (m : mem) : Z :=
  match n with
  | O => 0
  | S n' =>
      if negb (m p =? 0) && (m p =? m q) then strncmp_loop n' (p + 1) (q + 1) m
      else u8 (m p) - u8 (m q)
  end.

Definition strncmp (p q n : Z) (m : mem) : Z := strncmp_loop (Z.to_nat n) p q m.

(** [while (n-- > 0 && ( *s++ = *t++ ) != 0);] ends with the count that is
    left, [s] and the memory. *)
Fixpoint copy_str (n : nat) (s t : Z) (m : mem) : nat * Z * mem :=
  match n with
  | O => (O, s, m)
  | S n' =>
      let c := m t in
      let m' := upd m s c in
      if negb (c =? 0) then copy_str n' (s + 1) (t + 1) m' else (n', s + 1, m')
  end.

Definition strncpy (s t n : Z) (m : mem) : mem :=
  let '(n', s', m') := copy_str (Z.to_nat n) s t m in
  memset_loop n' s' 0 m'.

Definition safestrcpy (s t n : Z) (m : mem) : mem :=
  if n <=? 0 then m
  else
    let '(_, s', m') := copy_str (Z.to_nat (n - 1)) s t m in
    upd m' s' 0.

Fixpoint strlen_loop (fuel : nat) (s n : Z) (m : mem) : option Z :=
  match fuel with
  | O => None
  | S fuel' => if negb (m (s + n) =? 0) then strlen_loop fuel' s (i32 (n + 1)) m else Some n
  end.

Definition strlen (fuel : nat) (s : Z) (m : mem) : option Z := strlen_loop fuel s 0 m.

(** ** Lemmas *)

(** Case analysis on conditionals over intervals. *)
Ltac ranges :=
  repeat case_if;
  repeat match goal with H : _ = false \/ _ = false |- _ => destruct H; bool_prop end;
  try (exfalso; lia); subst; rewrite ?upd_eq, ?upd_ne by lia;
  try reflexivity; try (f_equal; lia).

Lemma memset_loop_spec n a c m x :
  memset_loop n a c m x = if (a <=? x) && (x <? a + Z.of_nat n) then u8 c else m x.
Proof.
  revert a m. induction n as [|n IH]; intros a m; cbn [memset_loop]; [ranges|].
  rewrite IH. unfold upd. ranges.
Qed.

Lemma copy_up_spec n d s m x :
  d <= s \/ s + Z.of_nat n <= d ->
  copy_up n d s m x = if (d <=? x) && (x <? d + Z.of_nat n) then m (s + (x - d)) else m x.
Proof.
  revert d s m. induction n as [|n IH]; intros d s m H; cbn [copy_up]; [ranges|].
  rewrite IH by lia. destruct (decide (x = d)) as [->|]; ranges.
Qed.

Lemma copy_down_spec n d s m x :
  s <= d ->
  copy_down n d s m x = if (d - Z.of_nat n <=? x) && (x <? d) then m (s + (x - d)) else m x.
Proof.
  revert d s m. induction n as [|n IH]; intros d s m H; cbn [copy_down]; [ranges|].
  rewrite IH by lia. destruct (decide (x = d - 1)) as [->|]; ranges.
Qed.

Lemma memmove_spec dst src n m x :
  0 <= n -> memmove dst src n m x = if (dst <=? x) && (x <? dst + n) then m (src + (x - dst)) else m x.
Proof.
  intros Hn. unfold memmove. destruct (n =? 0) eqn:E0; bool_prop; [ranges|].
  destruct ((src <? dst) && (src + n >? dst)) eqn:E; [bool_prop|].
  - rewrite copy_down_spec, Z2Nat.id by lia. ranges.
  - rewrite copy_up_spec, Z2Nat.id by lia. ranges.
Qed.

(** A C string of [n] characters at [a]. *)
Definition cstr (m : mem) (a n : Z) : Prop :=
  0 <= n /\ m (a + n) = 0 /\ forall i, 0 <= i < n -> m (a + i) <> 0.

Lemma strlen_loop_spec fuel s k n m :
  cstr m s n -> 0 <= k <= n -> n < 2 ^ 31 -> (Z.to_nat (n - k) < fuel)%nat ->
  strlen_loop fuel s k m = Some n.
Proof.
  intros (H0 & Hz & Hnz). revert k. induction fuel as [|fuel IH]; intros k Hk Hn Hf; [lia|]. simpl.
  destruct (m (s + k) =? 0) eqn:E; bool_prop; simpl.
  - f_equal. destruct (decide (k = n)); [done|]. exfalso. apply (Hnz k); [lia | done].
  - assert (k <> n) by congruence. rewrite i32_small by lia. apply IH; lia.
Qed.

(** What [copy_str] copies: the string with its terminator when it fits,
    else the first [n] characters. *)
Lemma copy_str_spec n s t len m n' s' m' :
  cstr m t len -> (s + Z.of_nat n <= t \/ t + len < s) -> copy_str n s t m = (n', s', m') ->
  (forall x, m' x = if (s <=? x) && (x <? s') then m (t + (x - s)) else m x)
  /\ s' = s + Z.min (Z.of_nat n) (len + 1) /\ Z.of_nat n' = Z.of_nat n - (s' - s).
Proof.
  revert s t len m. induction n as [|n IH]; intros s t len m (H0 & Hz & Hnz) Hd Hc; cbn [copy_str] in Hc.
  - injection Hc as <- <- <-. split; [intros x; ranges | lia].
  - destruct (m t =? 0) eqn:E; bool_prop; simpl in Hc.
    + injection Hc as <- <- <-. assert (len = 0) as ->.
      { destruct (decide (len = 0)); [done|]. exfalso. apply (Hnz 0); [lia|]. by rewrite Z.add_0_r. }
      split; [|lia]. intros x. destruct (decide (x = s)) as [->|]; ranges.
    + assert (len <> 0) by (intros ->; rewrite Z.add_0_r in Hz; congruence).
      assert (forall a, a <> s -> upd m s (m t) a = m a) as Hu by (intros; by apply upd_ne).
      assert (cstr (upd m s (m t)) (t + 1) (len - 1)) as Hc'.
      { split; [lia|]. split; [rewrite Hu by lia; by replace (t + 1 + (len - 1)) with (t + len) by lia|].
        intros i Hi. rewrite Hu by lia. replace (t + 1 + i) with (t + (i + 1)) by lia. apply Hnz. lia. }
      destruct (IH (s + 1) (t + 1) (len - 1) _ Hc' ltac:(lia) Hc) as (Hm & Hs & Hn'). split; [|lia].
      intros x. rewrite Hm. destruct (decide (x = s)) as [->|]; ranges.
Qed.

Lemma strncpy_spec s t len n m x :
  cstr m t len -> 0 <= n -> (s + n <= t \/ t + len < s) ->
  strncpy s t n m x =
    if (s <=? x) && (x <? s + n) then (if x - s <? len then m (t + (x - s)) else 0) else m x.
Proof.
  intros Hc Hn Hd. unfold strncpy.
  destruct (copy_str (Z.to_nat n) s t m) as [[n' s'] m'] eqn:E.
  destruct (copy_str_spec (Z.to_nat n) s t len m n' s' m' Hc ltac:(lia) E) as (Hm & Hs & Hn').
  rewrite Z2Nat.id in * by lia. pose proof Hc as (H0 & Hz & _).
  rewrite memset_loop_spec, Hm. change (u8 0) with 0.
  assert (s' <= x < s + n -> len <= x - s) by lia.
  destruct (decide (x - s = len)) as [El|El].
  - replace (t + (x - s)) with (t + len) by lia. rewrite Hz. ranges.
  - ranges.
Qed.

(** The first place where two strings differ, at most [n] characters in. *)
Lemma strncmp_loop_spec n p q m :
  bytes_mem m ->
  exists i, 0 <= i <= Z.of_nat n
    /\ (forall j, 0 <= j < i -> m (p + j) = m (q + j) /\ m (p + j) <> 0)
    /\ ((i = Z.of_nat n /\ strncmp_loop n p q m = 0)
        \/ (i < Z.of_nat n /\ strncmp_loop n p q m = m (p + i) - m (q + i)
            /\ (m (p + i) = 0 \/ m (p + i) <> m (q + i)))).
Proof.
  intros Hb. revert p q. induction n as [|n IH]; intros p q; cbn [strncmp_loop].
  - exists 0. split; [lia|]. split; [lia|]. by left.
  - destruct (negb (m p =? 0) && (m p =? m q)) eqn:E; bool_prop.
    + destruct (IH (p + 1) (q + 1)) as (i & Hi & Heq & Hres). exists (i + 1). split; [lia|]. split.
      * intros j Hj. destruct (decide (j = 0)) as [->|]; [by rewrite !Z.add_0_r|].
        specialize (Heq (j - 1) ltac:(lia)).
        by replace (p + 1 + (j - 1)) with (p + j) in Heq by lia; replace (q + 1 + (j - 1)) with (q + j) in Heq by lia.
      * replace (p + (i + 1)) with (p + 1 + i) by lia. replace (q + (i + 1)) with (q + 1 + i) by lia.
        destruct Hres as [[-> ->]|(? & ? & ?)]; [left; split; [lia | done] | right; split; [lia | done]].
    + exists 0. split; [lia|]. split; [lia|]. right. rewrite !Z.add_0_r. split; [lia|].
      rewrite !u8_small by apply Hb. split; [done|]. destruct E as [E|E]; bool_prop; auto.
Qed.

Lemma memcmp_loop_spec n p q m :
  exists i, 0 <= i <= Z.of_nat n /\ (forall j, 0 <= j < i -> m (p + j) = m (q + j))
    /\ ((i = Z.of_nat n /\ memcmp_loop n p q m = 0)
        \/ (i < Z.of_nat n /\ m (p + i) <> m (q + i) /\ memcmp_loop n p q m = m (p + i) - m (q + i))).
Proof.
  revert p q. induction n as [|n IH]; intros p q; cbn [memcmp_loop].
  - exists 0. split; [lia|]. split; [lia|]. by left.
  - destruct (m p =? m q) eqn:E; bool_prop; simpl.
    + destruct (IH (p + 1) (q + 1)) as (i & Hi & Heq & Hres). exists (i + 1). split; [lia|]. split.
      * intros j Hj. destruct (decide (j = 0)) as [->|]; [by rewrite !Z.add_0_r|].
        specialize (Heq (j - 1) ltac:(lia)).
        by replace (p + 1 + (j - 1)) with (p + j) in Heq by lia; replace (q + 1 + (j - 1)) with (q + j) in Heq by lia.
      * replace (p + (i + 1)) with (p + 1 + i) by lia. replace (q + (i + 1)) with (q + 1 + i) by lia.
        destruct Hres as [[-> ->]|(? & ? & ?)]; [left; split; [lia | done] | right; split; [lia | done]].
    + exists 0. split; [lia|]. split; [lia|]. right. rewrite !Z.add_0_r. split; [lia | done].
Qed.

(** ** Theorems *)

(** [memmove] copies [n] bytes as if all were read before any is written,
    for overlapping areas too, and changes nothing else. *)
Theorem memmove_correct (dst src n : Z) (m : mem) (x : Z) :
  0 <= n ->
  memmove dst src n m x = if (dst <=? x) && (x <? dst + n) then m (src + (x - dst)) else m x.
Proof. apply memmove_spec. Qed.

Lemma memmove_correct_witness : memmove 102 100 5 (fun a => a) 104 = 102.
Proof. exact (memmove_correct 102 100 5 (fun a => a) 104 ltac:(lia)). Defined.

(** [safestrcpy] of a string of [len] characters into [n] bytes leaves a
    string of [min len (n - 1)] characters with the same text, always
    terminated, and changes no byte outside the [n] bytes. *)
Theorem safestrcpy_correct (s t n len : Z) (m : mem) :
  cstr m t len -> 0 < n -> (s + n <= t \/ t + len < s) ->
  let m' := safestrcpy s t n m in
  let k := Z.min len (n - 1) in
  cstr m' s k /\ (forall i, 0 <= i < k -> m' (s + i) = m (t + i))
  /\ (forall x, x < s \/ s + n <= x -> m' x = m x).
Proof.
  intros Hc Hn Hd. unfold safestrcpy. rewrite (proj2 (Z.leb_gt n 0)) by lia.
  destruct (copy_str (Z.to_nat (n - 1)) s t m) as [[n' s'] m'] eqn:E.
  destruct (copy_str_spec (Z.to_nat (n - 1)) s t len m n' s' m' Hc ltac:(lia) E) as (Hm & Hs & _).
  rewrite Z2Nat.id in Hs by lia. pose proof Hc as (H0 & Hz & Hnz). cbv zeta.
  remember (Z.min len (n - 1)) as k eqn:Hk.
  assert (forall i, 0 <= i < k -> upd m' s' 0 (s + i) = m (t + i)) as Hcopy.
  { intros i Hi. rewrite upd_ne, Hm by lia. ranges. }
  assert (upd m' s' 0 (s + k) = 0) as Hterm.
  { destruct (decide (s + k = s')) as [->|]; [apply upd_eq|]. rewrite upd_ne, Hm by done.
    assert (k = len) as -> by lia. case_if; [|lia]. by replace (t + (s + len - s)) with (t + len) by lia. }
  split; [|split; [exact Hcopy|]].
  - split; [lia|]. split; [exact Hterm|]. intros i Hi. rewrite Hcopy by done. apply Hnz. lia.
  - intros x Hx. rewrite upd_ne, Hm by lia. ranges.
Qed.

Definition hello : mem := fun a => if (a <? 200) || (204 <? a) then 0 else 104.

Lemma safestrcpy_correct_witness :
  cstr hello 200 5 /\ cstr (safestrcpy 300 200 4 hello) 300 3.
Proof.
  assert (cstr hello 200 5) as H.
  { split; [lia|]. split; [reflexivity|]. intros i Hi. unfold hello. rewrite (proj2 (orb_false_iff _ _)); [lia|].
    split; apply Z.ltb_ge; lia. }
  split; [exact H|].
  exact (proj1 (safestrcpy_correct 300 200 4 5 hello H ltac:(lia) ltac:(lia))).
Defined.

(** [strncmp] of two strings in the first [n] bytes returns 0 exactly
    when they agree up to a terminator or up to [n] characters; else it
    returns the difference of the first characters that differ. *)
Theorem strncmp_correct (p q n : Z) (m : mem) :
  bytes_mem m -> 0 <= n ->
  (strncmp p q n m = 0 <->
     exists i, 0 <= i <= n /\ (forall j, 0 <= j < i -> m (p + j) = m (q + j) /\ m (p + j) <> 0)
       /\ (i = n \/ (m (p + i) = 0 /\ m (q + i) = 0)))
  /\ (strncmp p q n m <> 0 ->
     exists i, 0 <= i < n /\ (forall j, 0 <= j < i -> m (p + j) = m (q + j))
       /\ strncmp p q n m = m (p + i) - m (q + i)).
Proof.
  intros Hb Hn. unfold strncmp. destruct (strncmp_loop_spec (Z.to_nat n) p q m Hb) as (i & Hi & Heq & Hres).
  rewrite Z2Nat.id in * by lia. split; [split|].
  - intros E. exists i. split; [lia|]. split; [done|]. destruct Hres as [[-> _]|(_ & E2 & [E3|E3])]; [by left | right; lia | lia].
  - intros (i' & Hi' & Heq' & Hend). destruct Hres as [[_ ?]|(Hlt & E2 & Hdiff)]; [done|]. rewrite E2.
    destruct (Z.lt_trichotomy i i') as [Hx|[->|Hx]].
    + specialize (Heq' i ltac:(lia)). lia.
    + destruct Hend as [->|[-> ->]]; lia.
    + destruct Hend as [->|[E3 _]]; [lia|]. specialize (Heq i' ltac:(lia)). lia.
  - intros Hne. destruct Hres as [[_ ?]|(Hlt & E2 & _)]; [done|]. exists i. split; [lia|]. split; [|done].
    intros j Hj. by apply Heq.
Qed.

Lemma strncmp_correct_witness : strncmp 200 201 4 hello = 0 /\ strncmp 200 201 6 hello <> 0.
Proof.
  assert (bytes_mem hello) as Hb by (intros a; unfold hello; case_if; lia).
  split; [|vm_compute; discriminate].
  apply (strncmp_correct 200 201 4 hello Hb); [lia|]. exists 4. split; [lia|]. split; [|by left].
  intros j Hj. unfold hello. rewrite !(proj2 (orb_false_iff _ _)); [lia| |]; split; apply Z.ltb_ge; lia.
Defined.
