(* ===== verification/Printf.v ===== *)
(** * Formatted console output (kernel/printf.c)

    [printf] interprets a format with its arguments and sends the characters
    to the console one by one; the model collects them.  The digit buffer of
    [printint] has sixteen places: a seventeenth digit would be a fault. *)

From S2P Require Import Prelude Spinlock.

(** A [va_arg] argument: an [int], a [uint64], or a string pointer, null or
    to the characters before the terminator. *)
Inductive arg := AInt (z : Z) | AU64 (z : Z) | AStr (s : option (list Z)).

Record prs := mkPrs {
  out : list Z;            (* what consputc got, in order *)
  prlock : Seq.lockst;
  locking : bool
}.

Definition consputc (c : Z) : M prs unit :=
  modify (fun s => mkPrs (out s ++ [c]) (prlock s) (locking s)).

Fixpoint puts (l : list Z) : M prs unit :=
  match l with [] => ret tt | c :: l' => consputc c ;;; puts l' end.

(** [digits]: 0123456789abcdef. *)
Definition digits : list Z := [48; 49; 50; 51; 52; 53; 54; 55; 56; 57; 97; 98; 99; 100; 101; 102].

(** [do buf[i++] = digits[x % base]; while ((x /= base) != 0);] with the
    digit table and the sixteen places of [buf]. *)
Fixpoint digit_loop (fuel : nat) (tab : list Z) (x base : Z) (buf : list Z) : option (list Z) :=
  match fuel with
  | O => None
  | S fuel' =>
      if (16 <=? Z.of_nat (length buf)) then None
      else
        d ← aget tab (x mod base);
        let buf := buf ++ [d] in
        let x := x / base in
        if negb (x =? 0) then digit_loop fuel' tab x base buf else Some buf
  end.

(** The characters of [printint], in the order they are put out. *)
Definition int_chars (tab : list Z) (xx base : Z) (neg : bool) : option (list Z) :=
  let x := u32 (if neg then - xx else xx) in
  buf ← digit_loop 17 tab x base [];
  if neg then (if 16 <=? Z.of_nat (length buf) then None else Some (reverse (buf ++ [45])))
  else Some (reverse buf).

Definition printint (xx base : Z) (sign : bool) : M prs unit :=
  let sign := sign && (xx <? 0) in
  l <- from_option "buf" (int_chars digits xx base sign) ;;
  puts l.

(** [for (i = 0; i < 16; i++, x <<= 4) consputc(digits[x >> 60]);] *)
Fixpoint hex_loop (n : nat) (tab : list Z) (x : Z) : option (list Z) :=
  match n with
  | O => Some []
  | S n' => d ← aget tab (Z.shiftr x 60); l ← hex_loop n' tab (u64 (Z.shiftl x 4)); Some (d :: l)
  end.

Definition printptr (x : Z) : M prs unit :=
  consputc 48 ;;; consputc 120 ;;;
  l <- from_option "digits" (hex_loop 16 digits x) ;;
  puts l.

(** ["(null)"] *)
Definition null_text : list Z := [40; 110; 117; 108; 108; 41].

Definition va_int (ap : list arg) : M prs (Z * list arg) :=
  match ap with AInt z :: ap' => ret (z, ap') | _ => fault "va_arg" end.
Definition va_u64 (ap : list arg) : M prs (Z * list arg) :=
  match ap with AU64 z :: ap' => ret (z, ap') | _ => fault "va_arg" end.
Definition va_str (ap : list arg) : M prs (option (list Z) * list arg) :=
  match ap with AStr s :: ap' => ret (s, ap') | _ => fault "va_arg" end.

(** One conversion: the character after the percent sign. *)
Definition convert (c : Z) (ap : list arg) : M prs (list arg) :=
  if c =? 100 then r <- va_int ap ;; printint (fst r) 10 true ;;; ret (snd r)
  else if c =? 120 then r <- va_int ap ;; printint (fst r) 16 true ;;; ret (snd r)
  else if c =? 112 then r <- va_u64 ap ;; printptr (fst r) ;;; ret (snd r)
  else if c =? 115 then
    r <- va_str ap ;;
    puts (match fst r with Some l => l | None => null_text end) ;;; ret (snd r)
  else if c =? 37 then consputc 37 ;;; ret ap
  else consputc 37 ;;; consputc c ;;; ret ap.

(** The loop over the format. *)
Fixpoint print_loop (fmt : list Z) (ap : list arg) : M prs unit :=
  match fmt with
  | [] => ret tt
  | c :: fmt' =>
      if negb (c =? 37) then consputc c ;;; print_loop fmt' ap
      else
        match fmt' with
        | [] => ret tt
        | c :: fmt'' => ap <- convert c ap ;; print_loop fmt'' ap
        end
  end.

Definition set_prlock (l : Seq.lockst) (s : prs) : prs := mkPrs (out s) l (locking s).
Definition set_locking (b : bool) (s : prs) : prs := mkPrs (out s) (prlock s) b.

Definition printf (fmt : option (list Z)) (ap : list arg) : M prs unit :=
  locking <- gets locking ;;
  when locking (zoom prlock set_prlock Seq.acquire) ;;;
  match fmt with
  | None => panic "null fmt"
  | Some fmt =>
      print_loop fmt ap ;;;
      when locking (zoom prlock set_prlock Seq.release)
  end.

(** [panic] prints ["panic: "], the message as a format, and a newline,
    without the lock; then it loops for ever.  This is what it prints. *)
Definition panic_prints (s : list Z) : M prs unit :=
  modify (set_locking false) ;;;
  printf (Some [112; 97; 110; 105; 99; 58; 32]) [] ;;;
  printf (Some s) [] ;;;
  printf (Some [10]) [].

Definition printfinit : M prs unit :=
  modify (fun s => mkPrs (out s) (Seq.mkLockst (Seq.me (prlock s)) initlock (Seq.hart (prlock s))) true).

(** ** Numbers and their digits *)

(** The number whose digits, least significant first, are [l]. *)
Fixpoint digits_value (base : Z) (l : list Z) : Z :=
  match l with [] => 0 | d :: l' => d + base * digits_value base l' end.

(** [buf] holds the digits [ds] as characters of [tab]. *)
Definition spells (tab : list Z) (ds buf : list Z) : Prop := Forall2 (fun d c => aget tab d = Some c) ds buf.

Lemma digits_value_app base l d :
  digits_value base (l ++ [d]) = digits_value base l + base ^ Z.of_nat (length l) * d.
Proof.
  induction l as [|x l IH]; simpl; [lia|]. rewrite IH.
  rewrite Nat2Z.inj_succ, Z.pow_succ_r by lia. lia.
Qed.

(** With [x] below [base ^ n] and [n] places left, the loop ends within the
    buffer and the new digits are those of [x]. *)
Lemma digit_loop_spec (n fuel : nat) tab x base buf ds :
  2 <= base <= Z.of_nat (length tab) -> 0 <= x < base ^ Z.of_nat (S n) ->
  Z.of_nat (length buf) + Z.of_nat (S n) <= 16 -> (n < fuel)%nat -> spells tab ds buf ->
  exists buf' ds', digit_loop fuel tab x base buf = Some buf' /\ spells tab ds' buf'
    /\ digits_value base ds' = digits_value base ds + base ^ Z.of_nat (length ds) * x
    /\ Forall (fun d => 0 <= d < base) (drop (length ds) ds') /\ take (length ds) ds' = ds
    /\ (length buf < length buf' <= length buf + S n)%nat.
Proof.
  intros Hb. revert fuel x buf ds. induction n as [|n IH]; intros fuel x buf ds Hx Hlen Hf Hs;
    (destruct fuel as [|fuel]; [lia|]); cbn [digit_loop]; rewrite (proj2 (Z.leb_gt 16 _)) by lia;
    pose proof (Z.mod_pos_bound x base ltac:(lia)) as Hm; pose proof (Z.div_mod x base ltac:(lia)) as Hd;
    destruct (aget_is_Some tab (x mod base)) as [c Hc]; [lia| |lia|]; rewrite Hc; cbn [mbind option_bind].
  - change (Z.of_nat 1) with 1 in Hx. rewrite Z.pow_1_r in Hx. rewrite Z.div_small by lia. simpl.
    exists (buf ++ [c]), (ds ++ [x mod base]). split; [done|]. rewrite drop_app_length, take_app_length.
    split_and!; try done.
    + apply Forall2_app; [done|]. constructor; [done | constructor].
    + rewrite digits_value_app, Z.mod_small by lia. done.
    + by apply Forall_singleton.
    + rewrite length_app. simpl. lia.
    + rewrite length_app. simpl. lia.
  - assert (x / base < base ^ Z.of_nat (S n)).
    { apply Z.div_lt_upper_bound; [lia|]. rewrite <- Z.pow_succ_r by lia. rewrite <- Nat2Z.inj_succ. lia. }
    assert (spells tab (ds ++ [x mod base]) (buf ++ [c])) as Hs' by (apply Forall2_app; [done|]; constructor; [done | constructor]).
    destruct (x / base =? 0) eqn:E; bool_prop; simpl.
    + exists (buf ++ [c]), (ds ++ [x mod base]). rewrite drop_app_length, take_app_length.
      split_and!; try done.
      * rewrite digits_value_app. rewrite E in Hd. f_equal. f_equal. lia.
      * by apply Forall_singleton.
      * rewrite length_app. simpl. lia.
      * rewrite length_app. simpl. lia.
    + destruct (IH fuel (x / base) (buf ++ [c]) (ds ++ [x mod base])) as (buf' & ds' & H1 & H2 & H3 & H4 & H5 & H6).
      * split; [apply Z.div_pos; lia | done].
      * rewrite length_app. simpl. lia.
      * lia.
      * done.
      * exists buf', ds'. split; [done|]. split; [done|]. rewrite length_app in *. simpl in *.
        assert (take (length ds) ds' = ds) as Ht.
        { apply (f_equal (take (length ds))) in H5. rewrite take_take, take_app_length in H5.
          by rewrite Nat.min_l in H5 by lia. }
        split_and!; try lia; [| |done].
        -- rewrite H3, digits_value_app.
           rewrite Nat2Z.inj_add, Z.pow_add_r by lia. change (Z.of_nat 1) with 1. rewrite Z.pow_1_r.
           rewrite Hd at 3. ring.
        -- assert (drop (length ds) ds' = (x mod base) :: drop (length ds + 1) ds') as ->; [|by constructor].
           rewrite <- (take_drop (length ds + 1) ds') at 1. rewrite H5, <- app_assoc, drop_app_length. done.
Qed.

(** [int_chars] never overflows the buffer for bases from ten on, and spells
    the number. *)
Lemma int_chars_spec tab xx base neg :
  10 <= base <= Z.of_nat (length tab) -> - 2 ^ 31 <= xx < 2 ^ 31 -> (neg = true -> xx < 0) ->
  exists ds buf, int_chars tab xx base neg = Some ((if neg then [45] else []) ++ reverse buf)
    /\ spells tab ds buf /\ (0 < length ds)%nat /\ Forall (fun d => 0 <= d < base) ds
    /\ digits_value base ds = if neg then - xx else u32 xx.
Proof.
  intros Hb Hx Hneg. unfold int_chars. set (x := u32 (if neg then - xx else xx)).
  assert (0 <= x < 2 ^ 32) as Hr by apply u32_range.
  destruct (digit_loop_spec 9 17 tab x base [] []) as (buf & ds & -> & Hs & Hv & Hd & _ & Hl).
  - lia.
  - split; [lia|]. assert (10 ^ Z.of_nat 10 <= base ^ Z.of_nat 10) by (apply Z.pow_le_mono_l; lia).
    change (10 ^ Z.of_nat 10) with 10000000000 in *. lia.
  - done.
  - lia.
  - constructor.
  - cbn [mbind option_bind]. pose proof (Forall2_length _ _ _ Hs) as Hlen.
    assert (digits_value base ds = x) as Hv' by (rewrite Hv; simpl; lia).
    exists ds, buf. simpl in Hl, Hd. rewrite (proj2 (Z.leb_gt 16 _)) by lia.
    split; [destruct neg; [by rewrite reverse_snoc | done]|].
    split_and!; [done | lia | by rewrite drop_0 in Hd |]. rewrite Hv'. subst x.
    destruct neg; [|done]. apply u32_small. specialize (Hneg eq_refl). lia.
Qed.

Lemma puts_spec l s : puts l s = Ret (tt, mkPrs (out s ++ l) (prlock s) (locking s)).
Proof.
  revert s. induction l as [|c l IH]; intros s; simpl.
  - rewrite app_nil_r. by destruct s.
  - unfold bind, consputc, modify. rewrite IH. simpl. by rewrite <- app_assoc.
Qed.

Lemma hex_loop_spec (n : nat) tab x :
  (16 <= length tab)%nat -> 0 <= x < 2 ^ 64 -> (n <= 16)%nat ->
  exists ds l, hex_loop n tab x = Some l /\ spells tab ds l /\ length ds = n
    /\ digits_value 16 (reverse ds) = Z.shiftr x (64 - 4 * Z.of_nat n).
Proof.
  intros Ht. revert x. induction n as [|n IH]; intros x Hx Hn; cbn [hex_loop].
  - exists [], []. split_and!; try done; [constructor|]. simpl. symmetry.
    rewrite Z.shiftr_div_pow2 by lia. apply Z.div_small. change (2 ^ (64 - 4 * Z.of_nat 0)) with (2 ^ 64). lia.
  - assert (0 <= Z.shiftr x 60 < 16) as Hd.
    { rewrite Z.shiftr_div_pow2 by lia. split; [apply Z.div_pos; lia | apply Z.div_lt_upper_bound; lia]. }
    destruct (aget_is_Some tab (Z.shiftr x 60)) as [c Hc]; [lia|]. rewrite Hc. cbn [mbind option_bind].
    destruct (IH (u64 (Z.shiftl x 4))) as (ds & l & -> & Hs & Hl & Hv); [apply u64_range | lia |].
    cbn [mbind option_bind]. exists (Z.shiftr x 60 :: ds), (c :: l). split; [done|].
    split; [by constructor|]. split; [simpl; lia|].
    rewrite reverse_cons, digits_value_app, Hv, length_reverse, Hl.
    rewrite Z.shiftl_mul_pow2, !Z.shiftr_div_pow2 by lia. change (2 ^ 4) with 16. change (2 ^ 60) with 1152921504606846976.
    set (N := Z.of_nat n). assert (0 <= N <= 15) as HN by lia.
    replace (Z.of_nat (S n)) with (N + 1) by lia.
    assert (16 ^ N = 2 ^ (4 * N)) as -> by (rewrite Z.pow_mul_r by lia; done).
    (* x = q * 2^60 + r *)
    pose proof (Z.div_mod x (2 ^ 60) ltac:(lia)) as Hdm. pose proof (Z.mod_pos_bound x (2 ^ 60) ltac:(lia)) as Hr.
    change (2 ^ 60) with 1152921504606846976 in *.
    set (q := x / 1152921504606846976) in *. set (r := x mod 1152921504606846976) in *.
    assert (u64 (x * 16) = 16 * r) as ->.
    { unfold u64. rewrite Hdm. replace ((1152921504606846976 * q + r) * 16) with (16 * r + q * 2 ^ 64) by lia.
      rewrite Z.mod_add by lia. apply Z.mod_small. lia. }
    replace (64 - 4 * (N + 1)) with (60 - 4 * N) by lia.
    assert (16 * r / 2 ^ (64 - 4 * N) = r / 2 ^ (60 - 4 * N)) as ->.
    { replace (64 - 4 * N) with (4 + (60 - 4 * N)) by lia. rewrite Z.pow_add_r by lia. change (2 ^ 4) with 16.
      rewrite Z.div_mul_cancel_l; [done | | lia]. pose proof (Z.pow_pos_nonneg 2 (60 - 4 * N)). lia. }
    rewrite Hdm. replace (1152921504606846976 * q + r) with (r + (2 ^ (4 * N) * q) * 2 ^ (60 - 4 * N)).
    + rewrite Z.div_add by (pose proof (Z.pow_pos_nonneg 2 (60 - 4 * N)); lia). lia.
    + assert (2 ^ (4 * N) * 2 ^ (60 - 4 * N) = 1152921504606846976); [|nia].
      rewrite <- Z.pow_add_r by lia. by replace (4 * N + (60 - 4 * N)) with 60 by lia.
Qed.

(** ** Theorems *)

(** the kernel's [printint] puts out the number, for every [int] and
    base ten or sixteen: a minus sign for a negative number when [sign] is
    set, then the digits of its absolute value, most significant first, all
    below the base; the sixteen-place buffer is never exceeded. *)
Theorem printint_correct (xx base : Z) (sign : bool) (s : prs) :
  base = 10 \/ base = 16 -> - 2 ^ 31 <= xx < 2 ^ 31 ->
  exists ds chars, printint xx base sign s = Ret (tt, mkPrs
      (out s ++ (if sign && (xx <? 0) then [45] else []) ++ reverse chars) (prlock s) (locking s))
    /\ spells digits ds chars /\ Forall (fun d => 0 <= d < base) ds /\ (0 < length ds)%nat
    /\ digits_value base ds = if sign then Z.abs xx else u32 xx.
Proof.
  intros Hb Hx. unfold printint. set (neg := sign && (xx <? 0)).
  destruct (int_chars_spec digits xx base neg) as (ds & buf & E & Hs & Hl & Hd & Hv).
  - simpl. destruct Hb; lia.
  - done.
  - subst neg. intros E. bool_prop. lia.
  - exists ds, buf. rewrite E. cbn. unfold bind. cbn. rewrite puts_spec. split; [done|].
    split; [done|]. split; [done|]. split; [done|]. rewrite Hv. subst neg.
    destruct sign; simpl; [|done]. destruct (xx <? 0) eqn:En; bool_prop; [lia|]. rewrite u32_small by lia. lia.
Qed.

Lemma printint_correct_witness :
  let s := mkPrs [] (Seq.mkLockst 0 initlock (mkCpu 0 false true)) false in
  exists ds chars, printint (-2147483648) 10 true s = Ret (tt, mkPrs ([45] ++ reverse chars) (prlock s) false)
    /\ digits_value 10 ds = 2147483648 /\ spells digits ds chars.
Proof.
  intros s. destruct (printint_correct (-2147483648) 10 true s) as (ds & chars & E & Hs & _ & _ & Hv); [by left | lia|].
  exists ds, chars. split; [exact E|]. split; [exact Hv | exact Hs].
Defined.

(** [printptr] puts out 0x and exactly sixteen hexadecimal digits that
    spell the 64-bit value. *)
Theorem printptr_correct (x : Z) (s : prs) :
  0 <= x < 2 ^ 64 ->
  exists ds chars, printptr x s = Ret (tt, mkPrs (out s ++ [48; 120] ++ chars) (prlock s) (locking s))
    /\ spells digits ds chars /\ length chars = 16%nat /\ digits_value 16 (reverse ds) = x.
Proof.
  intros Hx. unfold printptr.
  destruct (hex_loop_spec 16 digits x) as (ds & l & E & Hs & Hl & Hv); [simpl; lia | done | lia|].
  exists ds, l. unfold bind, consputc, modify. rewrite E. cbn. rewrite puts_spec. cbn.
  rewrite <- !app_assoc. split; [done|]. split; [done|].
  split; [rewrite <- (Forall2_length _ _ _ Hs); done|]. rewrite Hv.
  change (64 - 4 * Z.of_nat 16) with 0. apply Z.shiftr_0_r.
Qed.

Lemma printptr_correct_witness :
  let s := mkPrs [] (Seq.mkLockst 0 initlock (mkCpu 0 false true)) false in
  exists ds chars, printptr 0x80021000 s = Ret (tt, mkPrs ([48; 120] ++ chars) (prlock s) false)
    /\ length chars = 16%nat /\ digits_value 16 (reverse ds) = 0x80021000.
Proof.
  intros s. destruct (printptr_correct 0x80021000 s) as (ds & chars & E & _ & Hl & Hv); [lia|].
  exists ds, chars. auto.
Defined.
