(* ===== verification/ULib.v ===== *)
(** * The user library (user/ulib.c, user/printf.c)

    String routines on a byte memory, [gets] on an input stream, [atoi], and
    the formatted output of user programs as the list of characters written
    to each file descriptor. *)

From S2P Require Import Prelude KString Printf.

(** ** user/ulib.c *)

(** [while (( *s++ = *t++ ) != 0);] *)
Fixpoint strcpy (fuel : nat) (s t : Z) (m : mem) : option mem :=
  match fuel with
  | O => None
  | S fuel' =>
      let c := m t in
      let m := upd m s c in
      if negb (c =? 0) then strcpy fuel' (s + 1) (t + 1) m else Some m
  end.

Fixpoint strcmp (fuel : nat) (p q : Z) (m : mem) : option Z :=
  match fuel with
  | O => None
  | S fuel' =>
      if negb (m p =? 0) && (m p =? m q) then strcmp fuel' (p + 1) (q + 1) m
      else Some (u8 (m p) - u8 (m q))
  end.

Definition strlen (fuel : nat) (s : Z) (m : mem) : option Z :=
  n ← KString.strlen_loop fuel s 0 m; Some (u32 n).

Definition memset (dst c n : Z) (m : mem) : mem := memset_loop (Z.to_nat n) dst c m.

(** The address of the first [c], 0 when the string has none. *)
Fixpoint strchr (fuel : nat) (s c : Z) (m : mem) : option Z :=
  match fuel with
  | O => None
  | S fuel' =>
      if m s =? 0 then Some 0
      else if m s =? c then Some s else strchr fuel' (s + 1) c m
  end.

(** [gets] on standard input [inp]: an empty input is an end of file (or a
    read error).  The result is the text put into [buf] before the
    terminator, and the input that is left. *)
Fixpoint gets_loop (fuel : nat) (i max : Z) (inp : list Z) : list Z * list Z :=
  match fuel with
  | O => ([], inp)
  | S fuel' =>
      if i + 1 <? max then
        match inp with
        | [] => ([], [])
        | c :: inp' =>
            if (c =? 10) || (c =? 13) then ([c], inp')
            else let r := gets_loop fuel' (i + 1) max inp' in (c :: fst r, snd r)
        end
      else ([], inp)
  end.

Definition gets (max : Z) (inp : list Z) : list Z * list Z := gets_loop (Z.to_nat max) 0 max inp.

Fixpoint atoi_loop (fuel : nat) (s n : Z) (m : mem) : option Z :=
  match fuel with
  | O => None
  | S fuel' =>
      if (48 <=? m s) && (m s <=? 57) then atoi_loop fuel' (s + 1) (i32 (i32 (n * 10) + m s - 48)) m
      else Some n
  end.

Definition atoi (fuel : nat) (s : Z) (m : mem) : option Z := atoi_loop fuel s 0 m.

Definition memmove (vdst vsrc n : Z) (m : mem) : mem :=
  if vsrc >? vdst then copy_up (Z.to_nat n) vdst vsrc m
  else copy_down (Z.to_nat n) (vdst + n) (vsrc + n) m.

Definition memcmp (s1 s2 n : Z) (m : mem) : Z := memcmp_loop (Z.to_nat n) s1 s2 m.

Definition memcpy (dst src n : Z) (m : mem) : mem := memmove dst src n m.

(** ** user/printf.c *)

(** What was written, with the file descriptors. *)
Definition ust : Type := list (Z * Z).

Definition putc (fd c : Z) : M ust unit := modify (fun o => o ++ [(fd, c)]).

Fixpoint uputs (fd : Z) (l : list Z) : M ust unit :=
  match l with [] => ret tt | c :: l' => putc fd c ;;; uputs fd l' end.

(** [digits]: 0123456789ABCDEF. *)
Definition digits : list Z := [48; 49; 50; 51; 52; 53; 54; 55; 56; 57; 65; 66; 67; 68; 69; 70].

Definition printint (fd xx base : Z) (sgn : bool) : M ust unit :=
  let neg := sgn && (xx <? 0) in
  l <- from_option "buf" (int_chars digits xx base neg) ;;
  uputs fd l.

Definition printptr (fd x : Z) : M ust unit :=
  putc fd 48 ;;; putc fd 120 ;;;
  l <- from_option "digits" (hex_loop 16 digits x) ;;
  uputs fd l.

(** One conversion of [vprintf]; [%l] takes a [uint64] and passes it to the
    [int] parameter of [printint]. *)
Definition vconvert (fd c : Z) (ap : list arg) : M ust (list arg) :=
  if c =? 100 then
    match ap with AInt z :: ap => printint fd z 10 true ;;; ret ap | _ => fault "va_arg" end
  else if c =? 108 then
    match ap with AU64 z :: ap => printint fd (i32 z) 10 false ;;; ret ap | _ => fault "va_arg" end
  else if c =? 120 then
    match ap with AInt z :: ap => printint fd z 16 false ;;; ret ap | _ => fault "va_arg" end
  else if c =? 112 then
    match ap with AU64 z :: ap => printptr fd z ;;; ret ap | _ => fault "va_arg" end
  else if c =? 115 then
    match ap with
    | AStr s :: ap => uputs fd (match s with Some l => l | None => null_text end) ;;; ret ap
    | _ => fault "va_arg"
    end
  else if c =? 99 then
    match ap with AInt z :: ap => putc fd (u8 z) ;;; ret ap | _ => fault "va_arg" end
  else if c =? 37 then putc fd c ;;; ret ap
  else putc fd 37 ;;; putc fd c ;;; ret ap.

(** The loop of [vprintf]; [state] is 0 or the percent sign. *)
Fixpoint vprintf_loop (fd : Z) (fmt : list Z) (state : Z) (ap : list arg) : M ust unit :=
  match fmt with
  | [] => ret tt
  | c :: fmt' =>
      if state =? 0 then
        if c =? 37 then vprintf_loop fd fmt' 37 ap
        else putc fd c ;;; vprintf_loop fd fmt' state ap
      else if state =? 37 then
        ap <- vconvert fd c ap ;; vprintf_loop fd fmt' 0 ap
      else vprintf_loop fd fmt' state ap
  end.

Definition vprintf (fd : Z) (fmt : list Z) (ap : list arg) : M ust unit := vprintf_loop fd fmt 0 ap.
Definition fprintf (fd : Z) (fmt : list Z) (ap : list arg) : M ust unit := vprintf fd fmt ap.
Definition printf (fmt : list Z) (ap : list arg) : M ust unit := vprintf 1 fmt ap.

(** ** Lemmas *)

Lemma uputs_spec fd l o : uputs fd l o = Ret (tt, o ++ map (fun c => (fd, c)) l).
Proof.
  revert o. induction l as [|c l IH]; intros o; simpl; [by rewrite app_nil_r|].
  unfold bind, putc, modify. rewrite IH. simpl. by rewrite <- app_assoc.
Qed.

(** The text [l] lies at address [a]. *)
Definition text_at (m : mem) (a : Z) (l : list Z) : Prop :=
  forall i c, l !! i = Some c -> m (a + Z.of_nat i) = c.

Lemma text_at_cons m a c l : text_at m a (c :: l) -> m a = c /\ text_at m (a + 1) l.
Proof.
  intros H. split.
  - specialize (H 0%nat c eq_refl). by rewrite Z.add_0_r in H.
  - intros i x Hi. specialize (H (S i) x Hi). by replace (a + 1 + Z.of_nat i) with (a + Z.of_nat (S i)) by lia.
Qed.

(** The value of a most-significant-first digit string, as [atoi] sums it. *)
Definition horner (n : Z) (l : list Z) : Z := foldl (fun acc d => acc * 10 + d) n l.

Lemma horner_value l n :
  horner n (reverse l) = digits_value 10 l + 10 ^ Z.of_nat (length l) * n.
Proof.
  unfold horner. induction l as [|d l IH]; simpl; [lia|].
  rewrite reverse_cons, foldl_app, IH. simpl. rewrite Nat2Z.inj_succ, Z.pow_succ_r by lia. lia.
Qed.

Lemma horner_mono l n : Forall (fun d => 0 <= d < 10) l -> 0 <= n -> n <= horner n l.
Proof.
  unfold horner. intros H. revert n. induction H as [|d l Hd _ IH]; intros n Hn; simpl; [lia|].
  specialize (IH (n * 10 + d) ltac:(lia)). lia.
Qed.

(** [atoi] reads digits up to the first other character. *)
Lemma atoi_loop_spec l fuel s n m :
  text_at m s (map (fun d => 48 + d) l ++ [0]) -> Forall (fun d => 0 <= d < 10) l ->
  0 <= n -> horner n l < 2 ^ 31 -> (length l < fuel)%nat ->
  atoi_loop fuel s n m = Some (horner n l).
Proof.
  intros Ht Hd. revert fuel s n Ht. induction Hd as [|d l Hd Hl IH]; intros fuel s n Ht Hn Hb Hf;
    (destruct fuel as [|fuel]; [simpl in Hf; lia|]); simpl in Ht; apply text_at_cons in Ht as [Hc Ht]; cbn [atoi_loop]; rewrite Hc.
  - done.
  - rewrite (proj2 (Z.leb_le 48 (48 + d))), (proj2 (Z.leb_le (48 + d) 57)) by lia. cbn [andb].
    change (horner n (d :: l)) with (horner (n * 10 + d) l) in *.
    pose proof (horner_mono l (n * 10 + d) Hl ltac:(lia)).
    rewrite (i32_small (n * 10)) by lia. rewrite i32_small by lia.
    replace (n * 10 + (48 + d) - 48) with (n * 10 + d) by lia. apply IH; try done; [lia | simpl in Hf; lia].
Qed.

Lemma spells_decimal ds chars :
  spells digits ds chars -> Forall (fun d => 0 <= d < 10) ds -> chars = map (fun d => 48 + d) ds.
Proof.
  induction 1 as [|d c ds chars Hdc _ IH]; intros Hd; [done|].
  apply Forall_cons in Hd as [Hd Hds]. simpl. f_equal; [|by apply IH].
  assert (d = 0 \/ d = 1 \/ d = 2 \/ d = 3 \/ d = 4 \/ d = 5 \/ d = 6 \/ d = 7 \/ d = 8 \/ d = 9)
    as [->|[->|[->|[->|[->|[->|[->|[->|[->| ->]]]]]]]]] by lia; by injection Hdc as <-.
Qed.

Lemma memmove_u_spec vdst vsrc n m x :
  0 <= n -> memmove vdst vsrc n m x = if (vdst <=? x) && (x <? vdst + n) then m (vsrc + (x - vdst)) else m x.
Proof.
  intros Hn. unfold memmove. destruct (vsrc >? vdst) eqn:E; rewrite Z.gtb_ltb in E; bool_prop.
  - rewrite copy_up_spec, Z2Nat.id by lia. done.
  - rewrite copy_down_spec, Z2Nat.id by lia. ranges.
Qed.

(** ** Theorems *)

Lemma printf_d_spec n :
  0 <= n < 2 ^ 31 ->
  exists ds, printf [37; 100] [AInt n] [] = Ret (tt, map (fun c => (1, c)) (map (fun d => 48 + d) (reverse ds)))
    /\ Forall (fun d => 0 <= d < 10) ds /\ digits_value 10 ds = n /\ (length ds <= 10)%nat.
Proof.
  intros Hn. unfold printf, vprintf. cbn. unfold bind at 1. unfold vconvert. cbn -[int_chars].
  unfold printint. rewrite (proj2 (Z.ltb_ge n 0)) by lia. cbn [andb].
  destruct (int_chars_spec digits n 10 false) as (ds & buf & E & Hs & Hl & Hd & Hv); [simpl; lia | lia | done|].
  rewrite u32_small in Hv by lia. exists ds. unfold bind. rewrite E. cbn -[uputs]. rewrite uputs_spec. cbn.
  assert (buf = map (fun d => 48 + d) ds) as -> by (by apply spells_decimal).
  assert (reverse (map (fun d => 48 + d) ds) = map (fun d => 48 + d) (reverse ds)) as Er
    by (symmetry; exact (fmap_reverse (fun d => 48 + d) ds)).
  split; [unfold ret; by rewrite Er|]. split; [done|]. split; [done|].
  destruct (digit_loop_spec 9 17 digits (u32 n) 10 [] []) as (b' & d' & E' & Hs' & _ & _ & _ & Hl');
    [simpl; lia | rewrite u32_small by lia; lia | done | lia | constructor |].
  unfold int_chars in E. rewrite E' in E. cbn in E. injection E as E. apply (f_equal length) in E.
  rewrite !length_reverse, length_map in E. simpl in Hl'. lia.
Qed.

(** a number that a user program prints with [printf("%d")] and reads
    back with [atoi] is the same number. *)
Theorem print_atoi_roundtrip (n : Z) (m : mem) (a : Z) :
  0 <= n < 2 ^ 31 ->
  exists chars, printf [37; 100] [AInt n] [] = Ret (tt, map (fun c => (1, c)) chars)
    /\ (text_at m a (chars ++ [0]) -> atoi 11 a m = Some n).
Proof.
  intros Hn. destruct (printf_d_spec n Hn) as (ds & E & Hd & Hv & Hl).
  exists (map (fun d => 48 + d) (reverse ds)). split; [exact E|]. intros Ht. unfold atoi.
  assert (n = horner 0 (reverse ds)) as Hh by (rewrite horner_value; lia).
  rewrite Hh. apply atoi_loop_spec; [done | by apply Forall_reverse | lia | lia | rewrite length_reverse; lia].
Qed.

Lemma print_atoi_roundtrip_witness :
  exists chars, printf [37; 100] [AInt 2020] [] = Ret (tt, map (fun c => (1, c)) chars)
    /\ (text_at (fun a => match chars !! Z.to_nat a with Some c => c | None => 0 end) 0 (chars ++ [0]) ->
        atoi 11 0 (fun a => match chars !! Z.to_nat a with Some c => c | None => 0 end) = Some 2020).
Proof.
  destruct (print_atoi_roundtrip 2020 (fun a => match [50; 48; 50; 48] !! Z.to_nat a with Some c => c | None => 0 end) 0)
    as (chars & E & H); [lia|].
  assert (chars = [50; 48; 50; 48]) as -> by (vm_compute in E; destruct chars as [|? [|? [|? [|? [|]]]]]; simpl in E; congruence).
  exists [50; 48; 50; 48]. split; [exact E | exact H].
Defined.

(** the user library's [memmove] copies overlapping areas correctly. *)
Theorem user_memmove_correct (vdst vsrc n : Z) (m : mem) (x : Z) :
  0 <= n ->
  memmove vdst vsrc n m x = if (vdst <=? x) && (x <? vdst + n) then m (vsrc + (x - vdst)) else m x.
Proof. apply memmove_u_spec. Qed.

Lemma user_memmove_correct_witness : memmove 100 102 5 (fun a => a) 101 = 103.
Proof. exact (user_memmove_correct 100 102 5 (fun a => a) 101 ltac:(lia)). Defined.

(** [gets(buf, max)] never stores more than [max - 1] characters before
    the terminator, takes them from the front of the input in order, and
    stops after the first newline or carriage return. *)
Theorem gets_bounded (max : Z) (inp : list Z) :
  0 < max ->
  let r := gets max inp in
  Z.of_nat (length (fst r)) <= max - 1 /\ inp = fst r ++ snd r
  /\ (forall i c, fst r !! i = Some c -> c = 10 \/ c = 13 -> S i = length (fst r)).
Proof.
  intros Hmax. unfold gets.
  assert (forall fuel i inp, 0 <= i -> let r := gets_loop fuel i max inp in
    Z.of_nat (length (fst r)) <= Z.max 0 (max - 1 - i) /\ inp = fst r ++ snd r
    /\ (forall j c, fst r !! j = Some c -> c = 10 \/ c = 13 -> S j = length (fst r))) as Hl;
    [|destruct (Hl (Z.to_nat max) 0 inp ltac:(lia)) as (H1 & H2 & H3); split_and!; [lia | done | done]].
  clear inp. induction fuel as [|fuel IH]; intros i inp Hi; cbn [gets_loop].
  { simpl. split_and!; [lia | done | done]. }
  destruct (i + 1 <? max) eqn:E; bool_prop; [|simpl; split_and!; [lia | done | done]].
  destruct inp as [|c inp]; [simpl; split_and!; [lia | done | done]|].
  destruct ((c =? 10) || (c =? 13)) eqn:Ec.
  - simpl. split_and!; [lia | done|]. intros [|j] x Hx _; [done | done].
  - destruct (IH (i + 1) inp ltac:(lia)) as (H1 & H2 & H3). cbn [fst snd].
    split_and!; [simpl; lia | simpl; by rewrite <- H2 |].
    intros [|j] x Hx Hnl; [|simpl; f_equal; by apply (H3 j x)].
    injection Hx as <-. bool_prop. lia.
Qed.

Lemma gets_bounded_witness : length (fst (gets 4 [104; 105; 10; 104])) = 3%nat /\ snd (gets 4 [104; 105; 10; 104]) = [104].
Proof.
  destruct (gets_bounded 4 [104; 105; 10; 104] ltac:(lia)) as (_ & _ & H).
  split; [|reflexivity]. symmetry. apply (H 2%nat 10); [reflexivity | by left].
Defined.
