(* ===== verification/Pipe.v ===== *)
(** * Pipes (kernel/pipe.c)

    The pipe's lock is held from [acquire] to [release] or [sleep], so the
    code between two sleeps is one atomic section.  A section of [pipewrite]
    or [piperead] ends with a return or with a sleep; the caller's memory is
    a parameter: which user addresses can be read and written.  Wake-ups are
    recorded by channel. *)

From S2P Require Import Prelude Ring.

Definition PIPESIZE : Z := 512.

(** The two channels slept on: [&pi->nread] and [&pi->nwrite]. *)
Inductive chan := ChRead | ChWrite.

Record pipe := mkPipe {
  data : list Z;
  nread : Z;          (* uint: number of bytes read *)
  nwrite : Z;         (* uint: number of bytes written *)
  readopen : bool;
  writeopen : bool
}.

(** The pipe that [pipealloc] makes on a page with arbitrary contents. *)
Definition new_pipe (page : list Z) : pipe := mkPipe page 0 0 true true.

(** The end of a section: a return value, or asleep having done [i] bytes. *)
Inductive fin := Done (r : Z) | Sleep (i : Z).

(** The pipe after [pipeclose], the channel woken, and whether the page is
    freed. *)
Definition pipeclose (pi : pipe) (writable : bool) : pipe * chan * bool :=
  let '(pi, ch) :=
    if writable
    then (mkPipe (data pi) (nread pi) (nwrite pi) (readopen pi) false, ChRead)
    else (mkPipe (data pi) (nread pi) (nwrite pi) false (writeopen pi), ChWrite) in
  (pi, ch, negb (readopen pi) && negb (writeopen pi)).

(** [pi->data[pi->nwrite++ % PIPESIZE] = ch] *)
Definition put_byte (ch : Z) (pi : pipe) : pipe :=
  mkPipe (<[Z.to_nat (nwrite pi mod PIPESIZE) := ch]> (data pi))
         (nread pi) (u32 (nwrite pi + 1)) (readopen pi) (writeopen pi).

(** [ch = pi->data[pi->nread++ % PIPESIZE]] *)
Definition take_byte (pi : pipe) : Z * pipe :=
  (nth (Z.to_nat (nread pi mod PIPESIZE)) (data pi) 0,
   mkPipe (data pi) (u32 (nread pi + 1)) (nwrite pi) (readopen pi) (writeopen pi)).

Section Copying.
  (** [copyin] and [copyout] of one byte at a user address. *)
  Context (copyin : Z -> option Z) (copyout : Z -> bool).

(** The loop of [pipewrite] from byte [i] on; the last component is the list
    of wake-ups. *)
Fixpoint pipewrite_loop (fuel : nat) (killed : bool) (addr n i : Z) (pi : pipe) : fin * pipe * list chan :=
  match fuel with
  | O => (Done i, pi, [ChRead])
  | S fuel' =>
      if i <? n then
        if negb (readopen pi) || killed then (Done (-1), pi, [])
        else if nwrite pi =? u32 (nread pi + PIPESIZE) then (Sleep i, pi, [ChRead])
        else
          match copyin (addr + i) with
          | None => (Done i, pi, [ChRead])
          | Some ch => pipewrite_loop fuel' killed addr n (i + 1) (put_byte ch pi)
          end
      else (Done i, pi, [ChRead])
  end.

(** A section of [pipewrite]: from the start ([i] = 0) or from where it
    slept. *)
Definition pipewrite (killed : bool) (addr n i : Z) (pi : pipe) : fin * pipe * list chan :=
  pipewrite_loop (S (Z.to_nat (n - i))) killed addr n i pi.

(** The copying loop of [piperead]; it also gives the bytes it stored. *)
Fixpoint piperead_loop (fuel : nat) (addr n i : Z) (pi : pipe) (acc : list Z) : Z * pipe * list Z :=
  match fuel with
  | O => (i, pi, acc)
  | S fuel' =>
      if i <? n then
        if nread pi =? nwrite pi then (i, pi, acc)
        else
          let '(ch, pi) := take_byte pi in
          if copyout (addr + i) then piperead_loop fuel' addr n (i + 1) pi (acc ++ [ch])
          else (i, pi, acc)
      else (i, pi, acc)
  end.

(** A section of [piperead]. *)
Definition piperead (killed : bool) (addr n : Z) (pi : pipe) : fin * pipe * list chan * list Z :=
  if (nread pi =? nwrite pi) && writeopen pi then
    if killed then (Done (-1), pi, [], []) else (Sleep 0, pi, [], [])
  else
    let '(i, pi, acc) := piperead_loop (S (Z.to_nat n)) addr n 0 pi [] in
    (Done i, pi, [ChWrite], acc).

End Copying.

(** ** The queue in the ring buffer *)

(** The bytes [q] are in the pipe, oldest first. *)
Record holds (pi : pipe) (q : list Z) : Prop := {
  h_ring : ring PIPESIZE (data pi) (nread pi) q;
  h_read : 0 <= nread pi < 2 ^ 32;
  h_write : nwrite pi = u32 (nread pi + Z.of_nat (length q))
}.

Lemma holds_new page : length page = Z.to_nat PIPESIZE -> holds (new_pipe page) [].
Proof. intros H. constructor; simpl; try done. Qed.

Lemma pipesize_pos : 0 < PIPESIZE.
Proof. done. Qed.
(** Positions survive the wrap-around of the counters. *)
Lemma pipesize_divides : (PIPESIZE | 2 ^ 32).
Proof. by exists (2 ^ 23). Qed.
#[local] Hint Resolve pipesize_pos pipesize_divides : kmath.

Lemma holds_full pi q : holds pi q -> (nwrite pi =? u32 (nread pi + PIPESIZE)) = bool_decide (Z.of_nat (length q) = PIPESIZE).
Proof.
  intros [[_ Hl _] Hr Hw]. rewrite Hw. unfold u32, PIPESIZE in *. change (2 ^ 32) with 4294967296 in *.
  case_bool_decide as E; [apply Z.eqb_eq; by rewrite E|]. apply Z.eqb_neq. intros H. apply E. dlia.
Qed.

Lemma holds_empty pi q : holds pi q -> (nread pi =? nwrite pi) = bool_decide (q = []).
Proof.
  intros [[_ Hl _] Hr Hw]. rewrite Hw. unfold u32, PIPESIZE in *. change (2 ^ 32) with 4294967296 in *.
  destruct q as [|c q].
  - rewrite bool_decide_true by done. apply Z.eqb_eq. simpl. dlia.
  - rewrite bool_decide_false by done. apply Z.eqb_neq. simpl in *. dlia.
Qed.

Lemma holds_put pi q ch :
  holds pi q -> Z.of_nat (length q) <> PIPESIZE -> holds (put_byte ch pi) (q ++ [ch]).
Proof.
  intros [Hq Hr Hw] Hne. pose proof (ring_room _ _ _ _ Hq). unfold put_byte. constructor; simpl; [|done|].
  - rewrite Hw. unfold u32. rewrite mod_word by auto with kmath. apply ring_push; [done | done | lia].
  - rewrite Hw, length_app. simpl. unfold u32. rewrite Z.add_mod_idemp_l by lia. f_equal. lia.
Qed.

Lemma holds_take pi c q :
  holds pi (c :: q) -> fst (take_byte pi) = c /\ holds (snd (take_byte pi)) q.
Proof.
  intros [Hq Hr Hw]. apply ring_pop in Hq as [Hc Hq]. simpl. split; [by apply nth_lookup_Some with (d := 0) in Hc|].
  constructor; simpl; [|apply u32_range|].
  - unfold u32. by apply ring_word; auto with kmath.
  - rewrite Hw. simpl. unfold u32. rewrite Z.add_mod_idemp_l by lia. f_equal. lia.
Qed.

(** ** What the loops do *)

Lemma put_byte_open ch pi :
  readopen (put_byte ch pi) = readopen pi /\ writeopen (put_byte ch pi) = writeopen pi.
Proof. done. Qed.

(** How a section of [pipewrite] that started at byte [i] and put [bs] in
    can end. *)
Definition write_ends (copyin : Z -> option Z) (killed : bool) (addr n i : Z) (pi : pipe) (q bs : list Z)
    (f : fin) (wk : list chan) : Prop :=
  let k := i + Z.of_nat (length bs) in
  (f = Done (-1) /\ bs = [] /\ wk = [] /\ i < n /\ (readopen pi = false \/ killed = true))
  \/ (f = Sleep k /\ wk = [ChRead] /\ k < n /\ Z.of_nat (length (q ++ bs)) = PIPESIZE
      /\ readopen pi = true /\ killed = false)
  \/ (f = Done k /\ wk = [ChRead] /\ (n <= k \/ copyin (addr + k) = None)).

Lemma pipewrite_loop_spec copyin fuel killed addr n i pi q :
  holds pi q -> (Z.to_nat (n - i) < fuel)%nat ->
  exists bs f pi' wk, pipewrite_loop copyin fuel killed addr n i pi = (f, pi', wk)
    /\ holds pi' (q ++ bs) /\ readopen pi' = readopen pi /\ writeopen pi' = writeopen pi
    /\ (forall j c, bs !! j = Some c -> copyin (addr + i + Z.of_nat j) = Some c)
    /\ write_ends copyin killed addr n i pi q bs f wk.
Proof.
  revert i pi q. induction fuel as [|fuel IH]; intros i pi q H Hf; [lia|]. cbn [pipewrite_loop].
  assert (forall f wk, write_ends copyin killed addr n i pi q [] f wk ->
    exists bs f' pi' wk', (f, pi, wk) = (f', pi', wk') /\ holds pi' (q ++ bs) /\ readopen pi' = readopen pi
    /\ writeopen pi' = writeopen pi
    /\ (forall j c, bs !! j = Some c -> copyin (addr + i + Z.of_nat j) = Some c)
    /\ write_ends copyin killed addr n i pi q bs f' wk') as Hstop.
  { intros f wk Hw. exists [], f, pi, wk. split; [done|]. rewrite app_nil_r. split_and!; done. }
  unfold write_ends in Hstop. simpl length in Hstop. rewrite Z.add_0_r, app_nil_r in Hstop.
  destruct (i <? n) eqn:Ei; bool_prop; [|apply Hstop; right; right; split_and!; (done || lia || left; lia)].
  destruct (negb (readopen pi) || killed) eqn:Ek.
  { apply Hstop. left. split_and!; try done. apply orb_true_iff in Ek as [Ek|Ek]; [left; by apply negb_true_iff|by right]. }
  apply orb_false_iff in Ek as [Er Ek]. apply negb_false_iff in Er.
  rewrite (holds_full pi q H). case_bool_decide as Efull.
  { apply Hstop. right; left. split_and!; done. }
  destruct (copyin (addr + i)) as [ch|] eqn:Ec; [|apply Hstop; right; right; split_and!; auto].
  destruct (IH (i + 1) (put_byte ch pi) (q ++ [ch])) as (bs & f & pi' & wk & E & H' & Hr & Hw & Hb & Hend);
    [by apply holds_put | lia |].
  exists (ch :: bs), f, pi', wk. split; [done|]. rewrite <- app_assoc in H'. split_and!; try done.
  - intros [|j] c Hj; [injection Hj as <-; by rewrite Z.add_0_r|].
    specialize (Hb j c Hj). by replace (addr + i + Z.of_nat (S j)) with (addr + (i + 1) + Z.of_nat j) by lia.
  - unfold write_ends in *. simpl length. rewrite <- app_assoc in Hend. simpl in Hend. rewrite Er in Hend.
    replace (i + Z.of_nat (S (length bs))) with (i + 1 + Z.of_nat (length bs)) by lia.
    destruct Hend as [(_ & _ & _ & _ & [?|?])|[Hx|Hx]]; [done | congruence | right; left; rewrite Er; tauto | tauto].
Qed.

Lemma piperead_loop_spec copyout fuel addr n i pi q acc :
  holds pi q -> (Z.to_nat (n - i) < fuel)%nat ->
  exists got lost rest pi', piperead_loop copyout fuel addr n i pi acc
      = (i + Z.of_nat (length got), pi', acc ++ got)
    /\ q = got ++ lost ++ rest /\ holds pi' rest
    /\ readopen pi' = readopen pi /\ writeopen pi' = writeopen pi
    /\ (forall j, (j < length got)%nat -> copyout (addr + i + Z.of_nat j) = true)
    /\ ((lost = [] /\ (n <= i + Z.of_nat (length got) \/ rest = []))
        \/ (length lost = 1%nat /\ copyout (addr + i + Z.of_nat (length got)) = false)).
Proof.
  revert i pi q acc. induction fuel as [|fuel IH]; intros i pi q acc H Hf; [lia|]. cbn [piperead_loop].
  destruct (i <? n) eqn:Ei; bool_prop.
  2:{ exists [], [], q, pi. rewrite app_nil_r, Z.add_0_r. split_and!; try done; [simpl; lia|]. left. split; [done|]. left. simpl. lia. }
  rewrite (holds_empty pi q H). destruct q as [|c q].
  { rewrite bool_decide_true by done. exists [], [], [], pi. rewrite app_nil_r, Z.add_0_r.
    split_and!; try done; [simpl; lia|]. left. auto. }
  rewrite bool_decide_false by done. destruct (holds_take pi c q H) as [Hc H'].
  destruct (take_byte pi) as [ch pi1] eqn:Et. simpl in Hc, H'. subst ch.
  assert (readopen pi1 = readopen pi /\ writeopen pi1 = writeopen pi) as [Hr1 Hw1]
    by (unfold take_byte in Et; injection Et as _ <-; done).
  destruct (copyout (addr + i)) eqn:Eo.
  - destruct (IH (i + 1) pi1 q (acc ++ [c])) as (got & lost & rest & pi' & E & Eq & Hh & Hr & Hw & Hg & Hend);
      [done | lia |].
    exists (c :: got), lost, rest, pi'. rewrite E, <- app_assoc. simpl length.
    replace (i + Z.of_nat (S (length got))) with (i + 1 + Z.of_nat (length got)) by lia.
    replace (addr + i + Z.of_nat (S (length got))) with (addr + (i + 1) + Z.of_nat (length got)) by lia.
    split_and!; try done; try congruence.
    + simpl. by rewrite Eq.
    + intros [|j] Hj; [by rewrite Z.add_0_r|].
      replace (addr + i + Z.of_nat (S j)) with (addr + (i + 1) + Z.of_nat j) by lia. apply Hg. lia.
  - exists [], [c], q, pi1. rewrite app_nil_r, Z.add_0_r. split_and!; try done; [simpl; lia|].
    right. simpl. by rewrite Z.add_0_r.
Qed.

(** ** Theorems *)

(** A section of [pipewrite] appends to the bytes in the pipe: what it
    adds are the caller's next bytes, in order; it never holds more than
    PIPESIZE bytes, whatever the 32-bit counters have wrapped to; it returns
    -1 only when the read end is closed or the caller was killed, sleeps only
    when the pipe is full (after waking readers), and otherwise returns the
    number of bytes written so far, short of [n] only at a bad address. *)
Lemma pipewrite_spec (copyin : Z -> option Z) (killed : bool) (addr n i : Z) (pi : pipe) (q : list Z) :
  holds pi q ->
  exists bs f pi' wk, pipewrite copyin killed addr n i pi = (f, pi', wk)
    /\ holds pi' (q ++ bs)
    /\ (forall j c, bs !! j = Some c -> copyin (addr + i + Z.of_nat j) = Some c)
    /\ write_ends copyin killed addr n i pi q bs f wk.
Proof.
  intros H. destruct (pipewrite_loop_spec copyin (S (Z.to_nat (n - i))) killed addr n i pi q H ltac:(lia))
    as (bs & f & pi' & wk & E & Hh & _ & _ & Hb & Hend).
  exists bs, f, pi', wk. auto.
Qed.

(** A section of [piperead] takes bytes off the front of the pipe: the
    bytes stored for the caller are the oldest ones, in order, and the others
    stay, except that a byte whose [copyout] fails is lost.  It sleeps only on
    an empty pipe whose write end is open, returns -1 only when the caller
    was killed there, and otherwise wakes the writers and returns the number
    of bytes stored: [n], or fewer when the pipe ran empty or at a bad
    address.  On an empty pipe with the write end closed it returns 0. *)
Lemma piperead_spec (copyout : Z -> bool) (killed : bool) (addr n : Z) (pi : pipe) (q : list Z) :
  holds pi q -> 0 <= n ->
  exists f pi' wk got, piperead copyout killed addr n pi = (f, pi', wk, got)
    /\ ((q = [] /\ writeopen pi = true /\ pi' = pi /\ wk = [] /\ got = []
         /\ f = if killed then Done (-1) else Sleep 0)
        \/ (exists lost rest, (q <> [] \/ writeopen pi = false)
            /\ f = Done (Z.of_nat (length got)) /\ wk = [ChWrite]
            /\ q = got ++ lost ++ rest /\ holds pi' rest
            /\ ((lost = [] /\ (n <= Z.of_nat (length got) \/ rest = []))
                \/ (length lost = 1%nat /\ copyout (addr + Z.of_nat (length got)) = false)))).
Proof.
  intros H Hn. unfold piperead. rewrite (holds_empty pi q H).
  destruct (bool_decide (q = []) && writeopen pi) eqn:E.
  - apply andb_true_iff in E as [Eq Ew]. apply bool_decide_eq_true_1 in Eq. destruct killed.
    + exists (Done (-1)), pi, [], []. split; [done|]. left. auto 10.
    + exists (Sleep 0), pi, [], []. split; [done|]. left. auto 10.
  - destruct (piperead_loop_spec copyout (S (Z.to_nat n)) addr n 0 pi q [] H ltac:(lia))
      as (got & lost & rest & pi' & El & Eq & Hh & _ & _ & _ & Hend).
    rewrite El. exists (Done (0 + Z.of_nat (length got))), pi', [ChWrite], got. split; [done|]. right.
    exists lost, rest. rewrite Z.add_0_l in *. rewrite Z.add_0_r in Hend. split_and!; try done.
    apply andb_false_iff in E as [E|E]; [left; by apply bool_decide_eq_false_1 in E | by right].
Qed.

(** C35: a pipe is a queue of at most PIPESIZE bytes, whatever its 32-bit
    counters have wrapped to.  A section of [pipewrite] appends the caller's
    next bytes in order; it returns -1 only when the read end is closed or the
    caller was killed, sleeps only when the pipe is full (after waking
    readers), and otherwise returns the number of bytes written, short of [n]
    only at a bad address.  A section of [piperead] takes the oldest bytes in
    order, except that a byte whose [copyout] fails is lost; it sleeps only on
    an empty pipe whose write end is open, returns -1 only when the caller was
    killed there, and otherwise wakes the writers and returns the number of
    bytes stored, fewer than [n] only when the pipe ran empty or at a bad
    address. *)
Theorem pipe_refines (copyin : Z -> option Z) (copyout : Z -> bool) (killed : bool) (addr n i : Z) (pi : pipe) (q : list Z) :
  holds pi q -> 0 <= n ->
  (exists bs f pi' wk, pipewrite copyin killed addr n i pi = (f, pi', wk)
    /\ holds pi' (q ++ bs)
    /\ (forall j c, bs !! j = Some c -> copyin (addr + i + Z.of_nat j) = Some c)
    /\ write_ends copyin killed addr n i pi q bs f wk)
  /\ (exists f pi' wk got, piperead copyout killed addr n pi = (f, pi', wk, got)
    /\ ((q = [] /\ writeopen pi = true /\ pi' = pi /\ wk = [] /\ got = []
         /\ f = if killed then Done (-1) else Sleep 0)
        \/ (exists lost rest, (q <> [] \/ writeopen pi = false)
            /\ f = Done (Z.of_nat (length got)) /\ wk = [ChWrite]
            /\ q = got ++ lost ++ rest /\ holds pi' rest
            /\ ((lost = [] /\ (n <= Z.of_nat (length got) \/ rest = []))
                \/ (length lost = 1%nat /\ copyout (addr + Z.of_nat (length got)) = false))))).
Proof. intros H Hn. split; [by apply pipewrite_spec | by apply piperead_spec]. Qed.


Definition blank_page : list Z := replicate (Z.to_nat PIPESIZE) 0.

Lemma blank_holds : holds (new_pipe blank_page) [].
Proof. apply holds_new. apply length_replicate. Qed.

Lemma pipe_refines_witness :
  (exists bs f pi' wk, pipewrite (fun a => Some a) false 65 3 0 (new_pipe blank_page) = (f, pi', wk) /\ holds pi' ([] ++ bs))
  /\ exists f pi' wk got, piperead (fun _ => true) false 65 3 (new_pipe blank_page) = (f, pi', wk, got) /\ f = Sleep 0.
Proof.
  destruct (pipe_refines (fun a => Some a) (fun _ => true) false 65 3 0 (new_pipe blank_page) [] blank_holds ltac:(lia))
    as [(bs & f & pi' & wk & E & H & _) (f2 & pi2 & wk2 & got & E2 & Hr)]. split.
  - exists bs, f, pi', wk. auto.
  - exists f2, pi2, wk2, got. split; [exact E2|].
    destruct Hr as [(_ & _ & _ & _ & _ & Hf)|(lost & rest & [Hq|Hw] & _)]; [exact Hf | contradiction | discriminate].
Defined.

