(* ===== verification/Vm.v ===== *)
(** * Page tables (kernel/vm.c)

    Physical memory is a memory of bytes; a page-table entry is the
    little-endian 64-bit word at its address.  Pages come from an allocator
    that is only known through the interface [PageAllocator]; kalloc.c over
    the buddy allocator is an instance of it.  The operations are those of
    vm.c: [walk] and everything built on it. *)

From S2P Require Import Prelude KString Buddy.

(** ** Words in memory *)

Fixpoint load_le (n : nat) (m : mem) (a : Z) : Z :=
  match n with
  | O => 0
  | S n' => m a + 256 * load_le n' m (a + 1)
  end.

Fixpoint store_le (n : nat) (m : mem) (a v : Z) : mem :=
  match n with
  | O => m
  | S n' => store_le n' (upd m a (v mod 256)) (a + 1) (v / 256)
  end.

Definition load64 (m : mem) (a : Z) : Z := load_le 8 m a.
Definition store64 (m : mem) (a v : Z) : mem := store_le 8 m a v.

(** ** Constants of kernel/constants.h and kernel/memlayout.h *)

Definition PGROUNDDOWN (a : Z) : Z := Z.land a (Z.lnot (PGSIZE - 1)).
Definition PTE_V : Z := 1.
Definition PTE_R : Z := 2.
Definition PTE_W : Z := 4.
Definition PTE_X : Z := 8.
Definition PTE_U : Z := 16.
Definition PA2PTE (pa : Z) : Z := u64 (Z.shiftl (Z.shiftr pa 12) 10).
Definition PTE2PA (pte : Z) : Z := u64 (Z.shiftl (Z.shiftr pte 10) 12).
Definition PTE_FLAGS (pte : Z) : Z := Z.land pte 0x3FF.
Definition PXSHIFT (level : Z) : Z := 12 + 9 * level.
Definition PX (level va : Z) : Z := Z.land (Z.shiftr va (PXSHIFT level)) 0x1FF.
Definition MAXVA : Z := 2 ^ 38.

Definition KERNBASE : Z := 0x80000000.
Definition UART0 : Z := 0x10000000.
Definition VIRTIO0 : Z := 0x10001000.
Definition PLIC : Z := 0x0c000000.
Definition TRAMPOLINE : Z := MAXVA - PGSIZE.
Definition TRAPFRAME : Z := TRAMPOLINE - PGSIZE.
Definition KSTACK (p : Z) : Z := TRAMPOLINE - (p + 1) * 2 * PGSIZE.
Definition NPROC : Z := 64.

(** ** The interface of the page allocator *)

(** A page of physical memory that a PTE can point to. *)
Definition good_page (p : Z) : Prop := p mod 4096 = 0 /\ 0 < p /\ p + 4096 <= 2 ^ 55.

(** [pa_held a H]: in allocator state [a] the pages handed out to the kernel
    include those of the set [H].  Allocation gives a page outside [H] or 0;
    freeing takes a page of [H] back. *)
Class PageAllocator (A : Type) := {
  pa_alloc : M A Z;
  pa_free : Z -> M A unit;
  pa_held : A -> (Z -> Prop) -> Prop;
  pa_weaken : forall a (H H' : Z -> Prop), (forall q, H' q -> H q) -> pa_held a H -> pa_held a H';
  pa_alloc_ok : forall a H, pa_held a H ->
    wp pa_alloc a (fun p a' =>
      (p = 0 /\ pa_held a' H)
      \/ (good_page p /\ ~ H p /\ pa_held a' (fun q => q = p \/ H q)));
  pa_free_ok : forall a H p, pa_held a H -> H p ->
    wp (pa_free p) a (fun _ a' => pa_held a' (fun q => q <> p /\ H q))
}.

Section Vm.
  Context {A : Type} `{PA : PageAllocator A}.

Record vms := mkVms { pm : mem; al : A }.

Definition set_pm (m : mem) (s : vms) : vms := mkVms m (al s).
Definition set_al (a : A) (s : vms) : vms := mkVms (pm s) a.

Definition kalloc : M vms Z := zoom al set_al pa_alloc.
Definition kfree (p : Z) : M vms unit := zoom al set_al (pa_free p).
Definition on_mem (f : mem -> mem) : M vms unit := modify (fun s => set_pm (f (pm s)) s).
Definition rd64 (a : Z) : M vms Z := gets (fun s => load64 (pm s) a).
Definition wr64 (a v : Z) : M vms unit := on_mem (fun m => store64 m a v).

Definition valid (pte : Z) : bool := negb (Z.land pte PTE_V =? 0).

(** ** walk *)

Fixpoint walk_loop (level : nat) (pagetable va : Z) (alloc : bool) : M vms Z :=
  match level with
  | O => ret (pagetable + 8 * PX 0 va)
  | S l =>
      let pte := pagetable + 8 * PX (Z.of_nat (S l)) va in
      e <- rd64 pte ;;
      if valid e then walk_loop l (PTE2PA e) va alloc
      else if negb alloc then ret 0
      else
        p <- kalloc ;;
        if p =? 0 then ret 0
        else
          on_mem (memset p 0 PGSIZE) ;;;
          wr64 pte (Z.lor (PA2PTE p) PTE_V) ;;;
          walk_loop l p va alloc
  end.

Definition walk (pagetable va : Z) (alloc : bool) : M vms Z :=
  if MAXVA <=? va then panic "walk" else walk_loop 2 pagetable va alloc.

Definition walkaddr (pagetable va : Z) : M vms Z :=
  if MAXVA <=? va then ret 0
  else
    pte <- walk pagetable va false ;;
    if pte =? 0 then ret 0
    else
      e <- rd64 pte ;;
      if Z.land e PTE_V =? 0 then ret 0
      else if Z.land e PTE_U =? 0 then ret 0
      else ret (PTE2PA e).

(** ** Mapping and unmapping *)

(** The loop of [mappages]; the loop variables are [a] and [pa]. *)
Definition mappages_loop (fuel : nat) (pagetable last perm : Z) (a pa : Z) : M vms Z :=
  loop fuel (fun x =>
    let a := fst x in let pa := snd x in
    pte <- walk pagetable a true ;;
    if pte =? 0 then ret (inr (-1))
    else
      e <- rd64 pte ;;
      if valid e then panic "mappages: remap"
      else
        wr64 pte (Z.lor (Z.lor (PA2PTE pa) perm) PTE_V) ;;;
        if a =? last then ret (inr 0)
        else ret (inl (u64 (a + PGSIZE), u64 (pa + PGSIZE)))) (a, pa).

Definition mappages (pagetable va size pa perm : Z) : M vms Z :=
  if negb (va mod PGSIZE =? 0) then panic "mappages: va not aligned"
  else if negb (size mod PGSIZE =? 0) then panic "mappages: size not aligned"
  else if size =? 0 then panic "mappages: size"
  else
    let last := u64 (va + size - PGSIZE) in
    mappages_loop (Z.to_nat (size / PGSIZE) + 1) pagetable last perm va pa.

Definition kvmmap (kpgtbl va pa sz perm : Z) : M vms unit :=
  r <- mappages kpgtbl va sz pa perm ;;
  when (negb (r =? 0)) (panic "kvmmap").

Definition uvmunmap (pagetable va npages : Z) (do_free : bool) : M vms unit :=
  if negb (va mod PGSIZE =? 0) then panic "uvmunmap: not aligned"
  else
    loop (Z.to_nat npages + 1) (fun a =>
      if a <? u64 (va + npages * PGSIZE) then
        pte <- walk pagetable a false ;;
        if pte =? 0 then panic "uvmunmap: walk"
        else
          e <- rd64 pte ;;
          if Z.land e PTE_V =? 0 then panic "uvmunmap: not mapped"
          else if PTE_FLAGS e =? PTE_V then panic "uvmunmap: not a leaf"
          else
            when do_free (kfree (PTE2PA e)) ;;;
            wr64 pte 0 ;;;
            ret (inl (u64 (a + PGSIZE)))
      else ret (inr tt)) va.

Definition uvmcreate : M vms Z :=
  pagetable <- kalloc ;;
  if pagetable =? 0 then ret 0
  else on_mem (memset pagetable 0 PGSIZE) ;;; ret pagetable.

(** [src] is where the kernel keeps the first program. *)
Definition uvmfirst (pagetable src sz : Z) : M vms unit :=
  if PGSIZE <=? sz then panic "uvmfirst: more than a page"
  else
    mem <- kalloc ;;
    on_mem (memset mem 0 PGSIZE) ;;;
    mappages pagetable 0 PGSIZE mem (Z.lor (Z.lor (Z.lor PTE_W PTE_R) PTE_X) PTE_U) ;;;
    on_mem (memmove mem src sz).

Definition uvmdealloc (pagetable oldsz newsz : Z) : M vms Z :=
  if oldsz <=? newsz then ret oldsz
  else
    (if PGROUNDUP newsz <? PGROUNDUP oldsz
     then
       let npages := i32 (Z.quot (PGROUNDUP oldsz - PGROUNDUP newsz) PGSIZE) in
       uvmunmap pagetable (PGROUNDUP newsz) (u64 npages) true
     else ret tt) ;;;
    ret newsz.

Definition uvmalloc (pagetable oldsz newsz xperm : Z) : M vms Z :=
  if newsz <? oldsz then ret oldsz
  else
    let oldsz := PGROUNDUP oldsz in
    loop (Z.to_nat ((newsz - oldsz) / PGSIZE) + 2) (fun a =>
      if a <? newsz then
        mem <- kalloc ;;
        if mem =? 0 then uvmdealloc pagetable a oldsz ;;; ret (inr 0)
        else
          on_mem (memset mem 0 PGSIZE) ;;;
          r <- mappages pagetable a PGSIZE mem (Z.lor (Z.lor PTE_R PTE_U) xperm) ;;
          if negb (r =? 0) then
            kfree mem ;;;
            uvmdealloc pagetable a oldsz ;;;
            ret (inr 0)
          else ret (inl (u64 (a + PGSIZE)))
      else ret (inr newsz)) oldsz.

(** [freewalk]; a page table has three levels, [level] is the deepest chain
    of tables the recursion may still follow. *)
Fixpoint freewalk (level : nat) (pagetable : Z) : M vms unit :=
  match level with
  | O => diverge
  | S l =>
      for_range 0 512 (fun i =>
        pte <- rd64 (pagetable + 8 * i) ;;
        if valid pte && (Z.land pte (Z.lor (Z.lor PTE_R PTE_W) PTE_X) =? 0) then
          freewalk l (PTE2PA pte) ;;;
          wr64 (pagetable + 8 * i) 0
        else if valid pte then panic "freewalk: leaf"
        else ret tt) ;;;
      kfree pagetable
  end.

Definition uvmfree (pagetable sz : Z) : M vms unit :=
  when (0 <? sz) (uvmunmap pagetable 0 (PGROUNDUP sz / PGSIZE) true) ;;;
  freewalk 3 pagetable.

Definition uvmcopy (old new sz : Z) : M vms Z :=
  loop (Z.to_nat (sz / PGSIZE) + 2) (fun i =>
    if i <? sz then
      pte <- walk old i false ;;
      if pte =? 0 then panic "uvmcopy: pte should exist"
      else
        e <- rd64 pte ;;
        if Z.land e PTE_V =? 0 then panic "uvmcopy: page not present"
        else
          let pa := PTE2PA e in
          let flags := PTE_FLAGS e in
          mem <- kalloc ;;
          if mem =? 0 then uvmunmap new 0 (i / PGSIZE) true ;;; ret (inr (-1))
          else
            on_mem (memmove mem pa PGSIZE) ;;;
            r <- mappages new i PGSIZE mem flags ;;
            if negb (r =? 0) then
              kfree mem ;;;
              uvmunmap new 0 (i / PGSIZE) true ;;;
              ret (inr (-1))
            else ret (inl (u64 (i + PGSIZE)))
    else ret (inr 0)) 0.

Definition uvmclear (pagetable va : Z) : M vms unit :=
  pte <- walk pagetable va false ;;
  if pte =? 0 then panic "uvmclear"
  else
    e <- rd64 pte ;;
    wr64 pte (Z.land e (Z.lnot PTE_U)).

(** ** Copying between kernel and user memory *)

Definition copyout (pagetable dstva src len : Z) : M vms Z :=
  loop (Z.to_nat (len / PGSIZE) + 3) (fun x =>
    let '(dstva, src, len) := x in
    if 0 <? len then
      let va0 := PGROUNDDOWN dstva in
      if MAXVA <=? va0 then ret (inr (-1))
      else
        pte <- walk pagetable va0 false ;;
        if pte =? 0 then ret (inr (-1))
        else
          e <- rd64 pte ;;
          if (Z.land e PTE_V =? 0) || (Z.land e PTE_U =? 0) || (Z.land e PTE_W =? 0)
          then ret (inr (-1))
          else
            let pa0 := PTE2PA e in
            let n := PGSIZE - (dstva - va0) in
            let n := if len <? n then len else n in
            on_mem (memmove (pa0 + (dstva - va0)) src n) ;;;
            ret (inl (u64 (va0 + PGSIZE), src + n, len - n))
    else ret (inr 0)) (dstva, src, len).

Definition copyin (pagetable dst srcva len : Z) : M vms Z :=
  loop (Z.to_nat (len / PGSIZE) + 3) (fun x =>
    let '(dst, srcva, len) := x in
    if 0 <? len then
      let va0 := PGROUNDDOWN srcva in
      pa0 <- walkaddr pagetable va0 ;;
      if pa0 =? 0 then ret (inr (-1))
      else
        let n := PGSIZE - (srcva - va0) in
        let n := if len <? n then len else n in
        on_mem (memmove dst (pa0 + (srcva - va0)) n) ;;;
        ret (inl (dst + n, u64 (va0 + PGSIZE), len - n))
    else ret (inr 0)) (dst, srcva, len).

(** The inner loop of [copyinstr] over at most [n] bytes of one page: it
    gives [got_null], [dst] and [max]. *)
Fixpoint copystr_loop (n : nat) (p dst max : Z) : M vms (bool * Z * Z) :=
  match n with
  | O => ret (false, dst, max)
  | S n' =>
      c <- gets (fun s => pm s p) ;;
      if c =? 0 then on_mem (fun m => upd m dst 0) ;;; ret (true, dst, max)
      else
        on_mem (fun m => upd m dst c) ;;;
        copystr_loop n' (p + 1) (dst + 1) (max - 1)
  end.

Definition copyinstr (pagetable dst srcva max : Z) : M vms Z :=
  loop (Z.to_nat (max / PGSIZE) + 3) (fun x =>
    let '(got_null, dst, srcva, max) := x in
    if negb got_null && (0 <? max) then
      let va0 := PGROUNDDOWN srcva in
      pa0 <- walkaddr pagetable va0 ;;
      if pa0 =? 0 then ret (inr (-1))
      else
        let n := PGSIZE - (srcva - va0) in
        let n := if max <? n then max else n in
        r <- copystr_loop (Z.to_nat n) (pa0 + (srcva - va0)) dst max ;;
        let '(got_null, dst, max) := r in
        ret (inl (got_null, dst, u64 (va0 + PGSIZE), max))
    else ret (inr (if (got_null : bool) then 0 else -1))) (false, dst, srcva, max).

(** ** The kernel's own page table *)

(** [proc_mapstacks] of kernel/proc.c. *)
Definition proc_mapstacks (kpgtbl : Z) : M vms unit :=
  for_range 0 NPROC (fun i =>
    pa <- kalloc ;;
    if pa =? 0 then panic "kalloc"
    else kvmmap kpgtbl (KSTACK i) pa PGSIZE (Z.lor PTE_R PTE_W)).

(** [etext] and [trampoline] are addresses the linker fixes. *)
Definition kvmmake (etext trampoline : Z) : M vms Z :=
  kpgtbl <- kalloc ;;
  on_mem (memset kpgtbl 0 PGSIZE) ;;;
  kvmmap kpgtbl UART0 UART0 PGSIZE (Z.lor PTE_R PTE_W) ;;;
  kvmmap kpgtbl VIRTIO0 VIRTIO0 PGSIZE (Z.lor PTE_R PTE_W) ;;;
  kvmmap kpgtbl PLIC PLIC 0x400000 (Z.lor PTE_R PTE_W) ;;;
  kvmmap kpgtbl KERNBASE KERNBASE (etext - KERNBASE) (Z.lor PTE_R PTE_X) ;;;
  kvmmap kpgtbl etext etext (PHYSTOP - etext) (Z.lor PTE_R PTE_W) ;;;
  kvmmap kpgtbl TRAMPOLINE trampoline PGSIZE (Z.lor PTE_R PTE_X) ;;;
  proc_mapstacks kpgtbl ;;;
  ret kpgtbl.

End Vm.

Arguments vms A : clear implicits.
