(* ===== verification/VmWalk.v ===== *)
(** * What walk does to a page table

    [pt_ok] says that the page-table pages form trees: [own] gives for each
    table page the root it belongs to, its level, and which part of the
    address space it covers.  Since [own] is a function, tables do not share
    pages, and a store to one entry changes the translation of one page of
    one address space only. *)

From stdpp Require Import relations.
From S2P Require Import Prelude KString Buddy Vm.

(** ** Words in memory *)

Lemma store_le_out n m a v x : x < a \/ a + Z.of_nat n <= x -> store_le n m a v x = m x.
Proof.
  revert m a v. induction n as [|n IH]; intros m a v H; simpl; [done|].
  rewrite IH by lia. apply upd_ne. lia.
Qed.

Lemma load_le_ext n m m' a :
  (forall x, a <= x < a + Z.of_nat n -> m x = m' x) -> load_le n m a = load_le n m' a.
Proof.
  revert a. induction n as [|n IH]; intros a H; simpl; [done|].
  rewrite H by lia. rewrite (IH (a + 1)); [done|]. intros x Hx. apply H. lia.
Qed.

Lemma load_store_le n m a v : 0 <= v < 256 ^ Z.of_nat n -> load_le n (store_le n m a v) a = v.
Proof.
  revert m a v. induction n as [|n IH]; intros m a v Hv.
  - change (256 ^ Z.of_nat 0) with 1 in Hv. simpl. lia.
  - simpl. rewrite store_le_out, upd_eq by lia. rewrite IH; [pose proof (Z.div_mod v 256); lia|].
    rewrite Nat2Z.inj_succ, Z.pow_succ_r in Hv by lia.
    split; [apply Z.div_pos; lia | apply Z.div_lt_upper_bound; lia].
Qed.

Lemma load_store64 m a v : 0 <= v < 2 ^ 64 -> load64 (store64 m a v) a = v.
Proof. intros H. apply load_store_le. exact H. Qed.

Lemma load_store64_ne m a b v : a + 8 <= b \/ b + 8 <= a -> load64 (store64 m a v) b = load64 m b.
Proof. intros H. apply load_le_ext. intros x Hx. apply store_le_out. lia. Qed.

Lemma store64_out m a v x : x < a \/ a + 8 <= x -> store64 m a v x = m x.
Proof. intros H. apply store_le_out. lia. Qed.

Lemma load64_range m a : bytes_mem m -> 0 <= load64 m a < 2 ^ 64.
Proof.
  intros Hb. unfold load64.
  assert (forall n a, 0 <= load_le n m a < 256 ^ Z.of_nat n) as H; [|exact (H 8%nat a)].
  clear a. induction n as [|n IH]; intros a; [change (256 ^ Z.of_nat 0) with 1; simpl; lia|].
  rewrite Nat2Z.inj_succ, Z.pow_succ_r by lia. simpl. pose proof (Hb a). specialize (IH (a + 1)). lia.
Qed.

Lemma store_le_bytes n m a v : bytes_mem m -> bytes_mem (store_le n m a v).
Proof.
  revert m a v. induction n as [|n IH]; intros m a v H; simpl; [done|]. apply IH.
  intros x. unfold upd. case_if; [apply Z.mod_pos_bound; lia | apply H].
Qed.

Lemma load64_zero m a : (forall x, a <= x < a + 8 -> m x = 0) -> load64 m a = 0.
Proof.
  intros H. unfold load64. rewrite (load_le_ext 8 m (fun _ => 0)); [reflexivity|]. intros x Hx. apply H. lia.
Qed.

Lemma memset_bytes a c n m : bytes_mem m -> bytes_mem (memset a c n m).
Proof. intros H x. unfold memset. rewrite memset_loop_spec. case_if; [apply u8_range | apply H]. Qed.

Lemma memset_in a c n m x : a <= x < a + n -> memset a c n m x = u8 c.
Proof. intros H. unfold memset. rewrite memset_loop_spec. ranges. Qed.

Lemma memset_out a c n m x : 0 <= n -> x < a \/ a + n <= x -> memset a c n m x = m x.
Proof. intros Hn H. unfold memset. rewrite memset_loop_spec. ranges. Qed.

(** ** Page-table entries *)

Lemma land_ones_mod a n : 0 <= n -> Z.land a (Z.ones n) = a mod 2 ^ n.
Proof. apply Z.land_ones. Qed.

Lemma PX_range l va : 0 <= PX l va < 512.
Proof.
  unfold PX. change 0x1FF with (Z.ones 9). rewrite Z.land_ones by lia. apply Z.mod_pos_bound. lia.
Qed.

Lemma PX_div l va : 0 <= l -> PX l va = va / 2 ^ (12 + 9 * l) mod 512.
Proof.
  intros Hl. unfold PX, PXSHIFT. change 0x1FF with (Z.ones 9). rewrite Z.land_ones by lia.
  rewrite Z.shiftr_div_pow2 by lia. done.
Qed.

(** The page number of an address below MAXVA is its three indices. *)
Lemma PX_vpn va : 0 <= va < MAXVA -> va / 4096 = (PX 2 va * 512 + PX 1 va) * 512 + PX 0 va.
Proof.
  unfold MAXVA. intros H. rewrite !PX_div by lia.
  change (2 ^ (12 + 9 * 2)) with 1073741824. change (2 ^ (12 + 9 * 1)) with 2097152. change (2 ^ (12 + 9 * 0)) with 4096.
  change (2 ^ 38) with 274877906944 in H. dlia.
Qed.

Lemma PGROUNDDOWN_mod a : PGROUNDDOWN a = a - a mod 4096.
Proof.
  unfold PGROUNDDOWN, PGSIZE. change (Z.lnot (4096 - 1)) with (Z.lnot (Z.ones 12)).
  rewrite <- Z.ldiff_land, Z.ldiff_ones_r, Z.shiftr_div_pow2, Z.shiftl_mul_pow2 by lia.
  change (2 ^ 12) with 4096. dlia.
Qed.

(** An entry made from a page and flags, taken apart again. *)
Definition pte_of (pa flags : Z) : Z := Z.lor (PA2PTE pa) flags.

Lemma PA2PTE_val pa : good_page pa -> PA2PTE pa = pa / 4096 * 1024.
Proof.
  intros (Hm & H0 & H1). unfold PA2PTE. rewrite Z.shiftr_div_pow2, Z.shiftl_mul_pow2 by lia.
  change (2 ^ 12) with 4096. change (2 ^ 10) with 1024. apply u64_small.
  change (2 ^ 55) with 36028797018963968 in *. dlia.
Qed.

(** Multiples of 1024 and numbers below 1024 share no bits. *)
Lemma low_high_disjoint a f : 0 <= f < 1024 -> Z.land (a * 1024) f = 0.
Proof.
  intros Hf. apply Z.bits_inj'. intros n Hn. rewrite Z.land_spec, Z.bits_0.
  destruct (Z.lt_ge_cases n 10).
  - replace 1024 with (2 ^ 10) by done. by rewrite Z.mul_pow2_bits_low.
  - assert (Z.testbit f n = false) as ->; [|apply andb_false_r].
    apply Z.bits_above_log2; [lia|]. destruct (decide (f = 0)) as [->|]; [simpl; lia|].
    assert (Z.log2 f < 10) by (apply Z.log2_lt_pow2; lia). lia.
Qed.

Lemma pte_of_sum pa flags : good_page pa -> 0 <= flags < 1024 -> pte_of pa flags = pa / 4096 * 1024 + flags.
Proof.
  intros Hg Hf. unfold pte_of. rewrite PA2PTE_val by done.
  rewrite <- Z.lxor_lor by (by apply low_high_disjoint).
  symmetry. apply Z.add_nocarry_lxor. by apply low_high_disjoint.
Qed.

Lemma pte_of_facts pa flags :
  good_page pa -> 0 <= flags < 1024 ->
  0 <= pte_of pa flags < 2 ^ 64 /\ PTE2PA (pte_of pa flags) = pa /\ PTE_FLAGS (pte_of pa flags) = flags
  /\ (forall b, 0 <= b < 1024 -> Z.land (pte_of pa flags) b = Z.land flags b).
Proof.
  intros Hg Hf. pose proof Hg as (Hm & H0 & H1). change (2 ^ 55) with 36028797018963968 in *.
  assert (forall b, 0 <= b < 1024 -> Z.land (pte_of pa flags) b = Z.land flags b) as Hand.
  { intros b Hb. unfold pte_of. rewrite PA2PTE_val, Z.land_lor_distr_l, low_high_disjoint by done. apply Z.lor_0_l. }
  split_and!; [| | | | done].
  - rewrite pte_of_sum by done. dlia.
  - rewrite pte_of_sum by done. change (2 ^ 64) with 18446744073709551616. dlia.
  - rewrite pte_of_sum by done. unfold PTE2PA. rewrite Z.shiftr_div_pow2, Z.shiftl_mul_pow2 by lia.
    change (2 ^ 10) with 1024. change (2 ^ 12) with 4096.
    assert ((pa / 4096 * 1024 + flags) / 1024 * 4096 = pa) as -> by dlia. apply u64_small. lia.
  - unfold PTE_FLAGS. rewrite Hand by lia. change 0x3FF with (Z.ones 10). rewrite Z.land_ones by lia.
    apply Z.mod_small. change (2 ^ 10) with 1024. lia.
Qed.

(** ** Trees of page tables *)

Section Walk.
  Context {A : Type} `{PA : PageAllocator A}.

(** Root, level and covered part of the address space of each table page. *)
Definition owner : Type := Z -> option (Z * Z * Z).

Record pt_ok (s : vms A) (own : owner) (H : Z -> Prop) : Prop := mkPtOk {
  pt_held : pa_held (al s) H;
  pt_bytes : bytes_mem (pm s);
  pt_page : forall p r l x, own p = Some (r, l, x) ->
    H p /\ good_page p /\ 0 <= l <= 2 /\ own r = Some (r, 2, 0);
  pt_entry : forall p r l x i, own p = Some (r, l, x) -> 1 <= l -> 0 <= i < 512 ->
    let e := load64 (pm s) (p + 8 * i) in
    valid e = true ->
    Z.land e (Z.lor (Z.lor PTE_R PTE_W) PTE_X) = 0 /\ own (PTE2PA e) = Some (r, l - 1, x * 512 + i)
}.

(** [walk] without allocation, as a function. *)
Fixpoint walk_at (level : nat) (m : mem) (pagetable va : Z) : option Z :=
  match level with
  | O => Some (pagetable + 8 * PX 0 va)
  | S l =>
      let e := load64 m (pagetable + 8 * PX (Z.of_nat (S l)) va) in
      if valid e then walk_at l m (PTE2PA e) va else None
  end.

(** The entry that translates [va], 0 when there is none. *)
Definition entry (m : mem) (root va : Z) : Z :=
  match walk_at 2 m root va with Some a => load64 m a | None => 0 end.

(** The part of the address space that the lowest table covers. *)
Fixpoint cover (level : nat) (x va : Z) : Z :=
  match level with
  | O => x
  | S l => cover l (x * 512 + PX (Z.of_nat (S l)) va) va
  end.

Lemma walk_at_own s own H (K : pt_ok s own H) level p r x va a :
  own p = Some (r, Z.of_nat level, x) -> walk_at level (pm s) p va = Some a ->
  exists p0, own p0 = Some (r, 0, cover level x va) /\ a = p0 + 8 * PX 0 va.
Proof.
  revert p x. induction level as [|l IH]; intros p x Ho Hw; simpl in Hw.
  - injection Hw as <-. exists p. done.
  - case_if_in Hw; [|done]. pose proof (PX_range (Z.of_nat (S l)) va) as Hr.
    destruct (pt_entry _ _ _ K p r (Z.of_nat (S l)) x _ Ho ltac:(lia) Hr E) as [_ Hc].
    replace (Z.of_nat (S l) - 1) with (Z.of_nat l) in Hc by lia. by apply (IH _ _ Hc).
Qed.

(** The place of an entry: table page and index determine address space and
    page number. *)
Lemma slot_apart s own H (K : pt_ok s own H) p i q j t u :
  own p = Some t -> own q = Some u -> 0 <= i < 512 -> 0 <= j < 512 ->
  (p <> q \/ i <> j) -> p + 8 * i + 8 <= q + 8 * j \/ q + 8 * j + 8 <= p + 8 * i.
Proof.
  intros Hp Hq Hi Hj Hne. destruct t as [[? ?] ?], u as [[? ?] ?].
  destruct (pt_page _ _ _ K _ _ _ _ Hp) as (_ & (Hp1 & _) & _).
  destruct (pt_page _ _ _ K _ _ _ _ Hq) as (_ & (Hq1 & _) & _). dlia.
Qed.

Lemma cover_inj va va' :
  0 <= va < MAXVA -> 0 <= va' < MAXVA ->
  cover 2 0 va = cover 2 0 va' -> PX 0 va = PX 0 va' -> va / 4096 = va' / 4096.
Proof. intros H H' E E0. rewrite !PX_vpn by done. cbn in E. change (Z.of_nat 2) with 2 in E. change (Z.of_nat 1) with 1 in E. lia. Qed.

Lemma walk_at_same_page (m : mem) root va va' :
  0 <= va < MAXVA -> 0 <= va' < MAXVA -> va / 4096 = va' / 4096 -> walk_at 2 m root va = walk_at 2 m root va'.
Proof.
  intros H H' E. rewrite !PX_vpn in E by done.
  pose proof (PX_range 0 va). pose proof (PX_range 1 va). pose proof (PX_range 2 va).
  pose proof (PX_range 0 va'). pose proof (PX_range 1 va'). pose proof (PX_range 2 va').
  cbn. change (Z.of_nat 2) with 2. change (Z.of_nat 1) with 1.
  assert (PX 0 va = PX 0 va' /\ PX 1 va = PX 1 va' /\ PX 2 va = PX 2 va') as (-> & -> & ->) by lia. done.
Qed.

(** [walk] with [alloc] false only reads. *)
Lemma walk_noalloc_wp root va s (Q : Z -> vms A -> Prop) :
  va < MAXVA ->
  Q (match walk_at 2 (pm s) root va with Some a => a | None => 0 end) s ->
  wp (walk root va false) s Q.
Proof.
  intros Hva HQ. unfold walk. rewrite (proj2 (Z.leb_gt MAXVA va)) by done.
  revert HQ. generalize root. generalize 2%nat as l. clear root.
  induction l as [|l IH]; intros root HQ; cbn [walk_loop walk_at] in *; [by apply wp_ret|].
  wp_step. unfold rd64. wp_step. case_if; [by apply IH|]. by apply wp_ret.
Qed.

(** The entry found from table [p] of level [l]. *)
Definition ent (l : nat) (m : mem) (p va : Z) : Z :=
  match walk_at l m p va with Some a => load64 m a | None => 0 end.

Definition page_of (x : Z) : Z := x - x mod 4096.

(** [s'] has more table pages than [s], and the same translations and the
    same contents of the other pages. *)
Record ext (s : vms A) (own : owner) (H : Z -> Prop) (s' : vms A) (own' : owner) (H' : Z -> Prop) : Prop := mkExt {
  ex_ok : pt_ok s' own' H';
  ex_own : forall p t, own p = Some t -> own' p = Some t;
  ex_new : forall p, own p = None -> own' p <> None -> ~ H p;
  ex_held : forall q, H' q <-> H q \/ own' q <> None;
  ex_ent : forall l p r x va, own p = Some (r, Z.of_nat l, x) -> ent l (pm s') p va = ent l (pm s) p va;
  ex_word : forall p r l x i, own p = Some (r, l, x) -> 1 <= l -> 0 <= i < 512 ->
    valid (load64 (pm s) (p + 8 * i)) = true -> load64 (pm s') (p + 8 * i) = load64 (pm s) (p + 8 * i);
  ex_mem : forall x, H (page_of x) -> own (page_of x) = None -> pm s' x = pm s x
}.

Lemma ext_refl s own H : pt_ok s own H -> ext s own H s own H.
Proof.
  intros K. constructor; try done. intros q. split; [by left|]. intros [?|Hq]; [done|].
  destruct (own q) as [[[r l] x]|] eqn:E; [|done]. by apply (pt_page _ _ _ K _ _ _ _ E).
Qed.

Lemma ext_trans s1 o1 H1 s2 o2 H2 s3 o3 H3 :
  ext s1 o1 H1 s2 o2 H2 -> ext s2 o2 H2 s3 o3 H3 -> ext s1 o1 H1 s3 o3 H3.
Proof.
  intros [K2 Ho2 Hn2 Hh2 He2 Hw2 Hm2] [K3 Ho3 Hn3 Hh3 He3 Hw3 Hm3]. constructor; try done.
  - auto.
  - intros p E1 E3 Hp. destruct (o2 p) eqn:E2; [by apply (Hn2 p); [done | congruence |]|].
    apply (Hn3 p E2 E3). apply Hh2. by left.
  - intros q. rewrite Hh3, Hh2. split; [|tauto].
    intros [[?|Hq]|?]; [by left | right | by right].
    destruct (o2 q) as [t|] eqn:E; [|done]. rewrite (Ho3 _ _ E). done.
  - intros l p r x va E. rewrite (He3 l p r x va), (He2 l p r x va); auto.
  - intros p r l x i E Hl Hi Hv. pose proof (Hw2 p r l x i E Hl Hi Hv) as E2.
    rewrite (Hw3 p r l x i (Ho2 _ _ E) Hl Hi) by (by rewrite E2). done.
  - intros x Hx Ex. rewrite Hm3; [by apply Hm2 | apply Hh2; by left |].
    destruct (o2 (page_of x)) eqn:E2; [|done]. exfalso. by apply (Hn2 _ Ex); [congruence|].
Qed.

(** A table page of zeros translates nothing. *)
Lemma ent_zero l m q va :
  (forall i, 0 <= i < 512 -> load64 m (q + 8 * i) = 0) -> ent l m q va = 0.
Proof.
  intros Hz. unfold ent. destruct l as [|l]; simpl; rewrite Hz by apply PX_range; done.
Qed.

Lemma valid_table q : good_page q ->
  0 <= Z.lor (PA2PTE q) PTE_V < 2 ^ 64 /\ valid (Z.lor (PA2PTE q) PTE_V) = true
  /\ PTE2PA (Z.lor (PA2PTE q) PTE_V) = q
  /\ Z.land (Z.lor (PA2PTE q) PTE_V) (Z.lor (Z.lor PTE_R PTE_W) PTE_X) = 0.
Proof.
  intros Hg. destruct (pte_of_facts q PTE_V Hg) as (Hr & Hpa & _ & Hand); [unfold PTE_V; lia|].
  unfold pte_of in *. split; [done|]. split; [|split; [done|]].
  - unfold valid. rewrite Hand by (unfold PTE_V; lia). done.
  - rewrite Hand by (vm_compute; split; [discriminate | reflexivity]). done.
Qed.

(** Hang a fresh zeroed page into an empty slot of table [p]. *)
Section NewTable.
  Context (s : vms A) (own : owner) (H : Z -> Prop) (K : pt_ok s own H).
  Context (p r l x i q : Z) (a' : A).
  Hypothesis Hp : own p = Some (r, l, x).
  Hypothesis Hl : 1 <= l.
  Hypothesis Hi : 0 <= i < 512.
  Hypothesis Hslot : valid (load64 (pm s) (p + 8 * i)) = false.
  Hypothesis Hq : good_page q.
  Hypothesis Hfresh : ~ H q.
  Hypothesis Hheld : pa_held a' (fun y => y = q \/ H y).

#[local] Definition m' : mem := store64 (memset q 0 PGSIZE (pm s)) (p + 8 * i) (Z.lor (PA2PTE q) PTE_V).
#[local] Definition own' : owner := fun y => if y =? q then Some (r, l - 1, x * 512 + i) else own y.

#[local] Lemma own_q : own q = None.
Proof.
  destruct (own q) as [[[? ?] ?]|] eqn:E; [|done]. exfalso. apply Hfresh. by apply (pt_page _ _ _ K _ _ _ _ E).
Qed.

#[local] Lemma own_old y t : own y = Some t -> y <> q /\ own' y = Some t.
Proof.
  intros E. assert (y <> q) by (intros ->; rewrite own_q in E; done).
  split; [done|]. unfold own'. by rewrite (proj2 (Z.eqb_neq y q)).
Qed.

#[local] Lemma p_not_q : p <> q.
Proof. apply (own_old p _ Hp). Qed.

(** Words of old table pages other than the slot are what they were. *)
#[local] Lemma word_old y t j : own y = Some t -> 0 <= j < 512 ->
  (y <> p \/ j <> i) -> load64 m' (y + 8 * j) = load64 (pm s) (y + 8 * j).
Proof.
  intros E Hj Hne. unfold m'. rewrite load_store64_ne.
  - apply load_le_ext. intros z Hz. apply memset_out; [unfold PGSIZE; lia|].
    destruct (own_old y t E) as [Hyq _]. destruct t as [[? ?] ?].
    destruct (pt_page _ _ _ K _ _ _ _ E) as (_ & (Hy1 & _) & _). destruct Hq as (Hq1 & _). unfold PGSIZE. dlia.
  - apply (slot_apart s own H K p i y j _ _ Hp E Hi Hj). destruct Hne; [left; congruence | right; congruence].
Qed.

#[local] Lemma word_slot : load64 m' (p + 8 * i) = Z.lor (PA2PTE q) PTE_V.
Proof. unfold m'. apply load_store64. apply (valid_table q Hq). Qed.

#[local] Lemma word_new j : 0 <= j < 512 -> load64 m' (q + 8 * j) = 0.
Proof.
  intros Hj. unfold m'. destruct (pt_page _ _ _ K _ _ _ _ Hp) as (_ & (Hp1 & _) & _).
  pose proof p_not_q. destruct Hq as (Hq1 & _).
  rewrite load_store64_ne by dlia. apply load64_zero. intros z Hz.
  rewrite memset_in by (unfold PGSIZE; dlia). done.
Qed.

Lemma new_table_ext : ext s own H (mkVms m' a') own' (fun y => y = q \/ H y).
Proof.
  constructor.
  - constructor; simpl.
    + done.
    + apply store_le_bytes, memset_bytes, (pt_bytes _ _ _ K).
    + intros y r0 l0 x0 E. unfold own' in *. case_if_in E.
      * injection E as <- <- <-. subst y. destruct (pt_page _ _ _ K _ _ _ _ Hp) as (_ & _ & Hl2 & Hr).
        split; [by left|]. split; [done|]. split; [lia|]. by apply own_old.
      * destruct (pt_page _ _ _ K _ _ _ _ E) as (? & ? & ? & Hr). split; [by right|]. split; [done|].
        split; [done|]. by apply own_old.
    + intros y r0 l0 x0 j E Hl0 Hj. unfold own' in E. case_if_in E.
      * subst y. rewrite word_new by done. done.
      * destruct (decide (y = p /\ j = i)) as [[-> ->]|Hne].
        -- rewrite word_slot. rewrite Hp in E. injection E as <- <- <-. intros _.
           destruct (valid_table q Hq) as (_ & _ & -> & ->). split; [done|].
           unfold own'. by rewrite Z.eqb_refl.
        -- rewrite (word_old y _ j E Hj) by (destruct (decide (y = p)); [right; tauto | by left]).
           intros Hv. destruct (pt_entry _ _ _ K y r0 l0 x0 j E Hl0 Hj Hv) as [? Hc]. split; [done|].
           by apply own_old.
  - intros y t E. by apply own_old.
  - intros y E E' Hy. unfold own' in E'. case_if_in E'; [by subst|done].
  - intros y. unfold own'. split.
    + intros [->|?]; [right; by rewrite Z.eqb_refl | by left].
    + intros [?|E]; [by right|]. case_if_in E; [by left|]. right.
      destruct (own y) as [[[? ?] ?]|] eqn:Ey; [|done]. by apply (pt_page _ _ _ K _ _ _ _ Ey).
  - simpl. intros lv. induction lv as [|lv IH]; intros y r0 x0 va E.
    + unfold ent. simpl. rewrite (word_old y _ _ E (PX_range 0 va)); [done|]. left. intros ->.
      rewrite Hp in E. injection E as _ E _. lia.
    + unfold ent. cbn [walk_at]. set (j := PX (Z.of_nat (S lv)) va). pose proof (PX_range (Z.of_nat (S lv)) va) as Hj. fold j in Hj.
      destruct (decide (y = p /\ j = i)) as [[-> Ej]|Hne].
      * rewrite Ej, word_slot, Hslot. destruct (valid_table q Hq) as (_ & -> & -> & _).
        apply ent_zero. apply word_new.
      * rewrite (word_old y _ j E Hj) by (destruct (decide (y = p)); [right; tauto | by left]).
        destruct (valid (load64 (pm s) (y + 8 * j))) eqn:Hv; [|done].
        destruct (pt_entry _ _ _ K y r0 (Z.of_nat (S lv)) x0 j E ltac:(lia) Hj Hv) as [_ Hc].
        replace (Z.of_nat (S lv) - 1) with (Z.of_nat lv) in Hc by lia. exact (IH _ _ _ va Hc).
  - intros y r0 l0 x0 j E _ Hj Hv. simpl. apply (word_old y _ j E Hj).
    destruct (decide (y = p)) as [->|]; [right; intros ->; congruence | by left].
  - intros z Hz Ez. simpl. unfold m'. assert (page_of z <> q) by congruence. assert (page_of z <> p) by congruence.
    destruct (pt_page _ _ _ K _ _ _ _ Hp) as (_ & (Hp1 & _) & _). destruct Hq as (Hq1 & _). unfold page_of in *.
    rewrite store64_out by dlia. apply memset_out; unfold PGSIZE; dlia.
Qed.

End NewTable.

Lemma ext_alloc_none s own H a' : pt_ok s own H -> pa_held a' H -> ext s own H (mkVms (pm s) a') own H.
Proof.
  intros K Ha. pose proof (ext_refl s own H K) as [_ ? ? ? ? ? ?]. constructor; try done.
  destruct K. by constructor.
Qed.

(** *** The pages that were asked for *)

Definition alloc_step (a a' : A) : Prop := exists p, p <> 0 /\ pa_alloc a = Ret (p, a').

(** At most [N] pages were taken, and then, unless [ok], one was refused. *)
Definition took (ok : bool) (N : Z) (a a' : A) : Prop :=
  exists n b, Z.of_nat n <= N /\ nsteps alloc_step n a b /\ if ok then b = a' else pa_alloc b = Ret (0, a').

Lemma took_none N a : 0 <= N -> took true N a a.
Proof. intros HN. exists 0%nat, a. split; [lia|]. split; [constructor | done]. Qed.
Lemma took_trans ok N M K a b c : took true N a b -> took ok M b c -> N + M <= K -> took ok K a c.
Proof. intros (n & ? & Hn & Sn & <-) (m & d & Hm & Sm & Hd) HK. exists (n + m)%nat, d. split; [lia|]. split; [by eapply nsteps_trans | done]. Qed.
Lemma took_one p a a' : p <> 0 -> pa_alloc a = Ret (p, a') -> took true 1 a a'.
Proof. intros Hp E. exists 1%nat, a'. split; [lia|]. split; [apply nsteps_once; by exists p | done]. Qed.
Lemma took_refused N a a' : 0 <= N -> pa_alloc a = Ret (0, a') -> took false N a a'.
Proof. intros HN E. exists 0%nat, a. split; [lia|]. split; [constructor | done]. Qed.
Lemma took_le ok N M a b : took ok N a b -> N <= M -> took ok M a b.
Proof. intros (n & c & Hn & Hc) HM. exists n, c. split; [lia | done]. Qed.

(** How many tables a walk may have to make. *)
Definition missing (level : nat) (m : mem) (p va : Z) : Z := match walk_at level m p va with Some _ => 0 | None => Z.of_nat level end.

Lemma missing_range level m p va : 0 <= missing level m p va <= Z.of_nat level.
Proof. unfold missing. destruct (walk_at level m p va); lia. Qed.

Lemma walk_loop_alloc_wp level p r x va s own H (Q : Z -> vms A -> Prop) :
  pt_ok s own H -> own p = Some (r, Z.of_nat level, x) ->
  (forall s' own' H' a, ext s own H s' own' H' -> took (negb (a =? 0)) (missing level (pm s) p va) (al s) (al s') ->
     (a = 0 \/ (a <> 0 /\ walk_at level (pm s') p va = Some a)) -> Q a s') ->
  wp (walk_loop level p va true) s Q.
Proof.
  revert p x s own H Q. induction level as [|l IH]; intros p x s own H Q K Hp HQ; cbn [walk_loop].
  - assert (p + 8 * PX 0 va <> 0) as Hne.
    { destruct (pt_page _ _ _ K _ _ _ _ Hp) as (_ & (_ & H0 & _) & _). pose proof (PX_range 0 va). lia. }
    apply wp_ret. apply (HQ s own H); [by apply ext_refl | | by right]. rewrite (proj2 (Z.eqb_neq _ _) Hne). by apply took_none.
  - set (i := PX (Z.of_nat (S l)) va). pose proof (PX_range (Z.of_nat (S l)) va) as Hi. fold i in Hi.
    assert (forall s1 own1 H1 N, ext s own H s1 own1 H1 -> valid (load64 (pm s1) (p + 8 * i)) = true -> took true N (al s) (al s1) ->
      N + missing l (pm s1) (PTE2PA (load64 (pm s1) (p + 8 * i))) va <= missing (S l) (pm s) p va ->
      wp (walk_loop l (PTE2PA (load64 (pm s1) (p + 8 * i))) va true) s1 Q) as Hdown.
    { intros s1 own1 H1 N Hext1 Hv Ht HN. pose proof (ex_ok _ _ _ _ _ _ Hext1) as K1.
      pose proof (ex_own _ _ _ _ _ _ Hext1 _ _ Hp) as Hp1.
      destruct (pt_entry _ _ _ K1 p r (Z.of_nat (S l)) x i Hp1 ltac:(lia) Hi Hv) as [_ Hc].
      replace (Z.of_nat (S l) - 1) with (Z.of_nat l) in Hc by lia.
      apply (IH _ _ s1 own1 H1 Q K1 Hc). intros s' own2 H2 a Hext2 Ht2 Ha.
      apply (HQ _ _ _ _ (ext_trans _ _ _ _ _ _ _ _ _ Hext1 Hext2)); [by eapply took_trans|].
      destruct Ha as [->|[Ha0 Ha]]; [by left | right]. split; [done|]. cbn [walk_at]. fold i.
      rewrite (ex_word _ _ _ _ _ _ Hext2 p r (Z.of_nat (S l)) x i Hp1 ltac:(lia) Hi Hv). by rewrite Hv. }
    wp_step. unfold rd64. wp_step. destruct (valid (load64 (pm s) (p + 8 * i))) eqn:Hv.
    { apply (Hdown s own H 0 (ext_refl _ _ _ K)); [done | by apply took_none|]. unfold missing. cbn [walk_at]. fold i. rewrite Hv. destruct (walk_at l _ _ va); lia. }
    assert (missing (S l) (pm s) p va = Z.of_nat l + 1) as Hmiss by (unfold missing; cbn [walk_at]; fold i; rewrite Hv; lia).
    cbn [negb]. wp_step. unfold kalloc. wp_step. destruct (pa_alloc_ok _ _ (pt_held _ _ _ K)) as (q & a' & Ea & Hor). exists q, a'. split; [exact Ea|].
    destruct Hor as [[-> Ha']|(Hg & Hf & Ha')]; cbn beta.
    + apply wp_ret. apply (HQ _ own H); [by apply ext_alloc_none | | by left]. apply took_refused; [lia | exact Ea].
    + assert (q <> 0) as Hq0 by (destruct Hg; lia). rewrite (proj2 (Z.eqb_neq q 0)) by done.
      wp_step. unfold on_mem. wp_step. wp_step. unfold wr64, on_mem. wp_step.
      pose proof (new_table_ext s own H K p r (Z.of_nat (S l)) x i q a' Hp ltac:(lia) Hi Hv Hg Hf Ha') as Hext.
      destruct (valid_table q Hg) as (Hr & Hvq & Hpa & _).
      pose proof (Hdown _ _ _ 1 Hext) as Hd. simpl in Hd. rewrite (word_slot s p i q Hg), Hpa in Hd. apply Hd; [done | by eapply took_one|].
      etransitivity; [apply Z.add_le_mono_l, missing_range|]. rewrite Hmiss. lia.
Qed.

Lemma walk_alloc_wp root va s own H (Q : Z -> vms A -> Prop) :
  pt_ok s own H -> own root = Some (root, 2, 0) -> va < MAXVA ->
  (forall s' own' H' a, ext s own H s' own' H' -> took (negb (a =? 0)) (missing 2 (pm s) root va) (al s) (al s') ->
     (a = 0 \/ (a <> 0 /\ walk_at 2 (pm s') root va = Some a)) -> Q a s') ->
  wp (walk root va true) s Q.
Proof.
  intros K Hr Hva HQ. unfold walk. rewrite (proj2 (Z.leb_gt MAXVA va)) by done.
  by apply (walk_loop_alloc_wp 2 root root 0 va s own H).
Qed.

(** ** Changing one entry *)

(** Store [e] as the entry that translates [va]. *)
Lemma set_entry s own H root va a e :
  pt_ok s own H -> own root = Some (root, 2, 0) -> 0 <= va < MAXVA ->
  walk_at 2 (pm s) root va = Some a -> 0 <= e < 2 ^ 64 ->
  let s' := set_pm (store64 (pm s) a e) s in
  pt_ok s' own H
  /\ (forall root' va', own root' = Some (root', 2, 0) -> 0 <= va' < MAXVA ->
       entry (pm s') root' va' =
         if bool_decide (root' = root /\ va' / 4096 = va / 4096) then e else entry (pm s) root' va')
  /\ (forall root' va', walk_at 2 (pm s') root' va' = walk_at 2 (pm s) root' va' \/ own root' <> Some (root', 2, 0))
  /\ (forall x, own (page_of x) = None -> pm s' x = pm s x).
Proof.
  intros K Hroot Hva Hw He s'. subst s'. cbn [pm set_pm].
  destruct (walk_at_own s own H K 2 root root 0 va a Hroot Hw) as (p0 & Hp0 & Ha).
  pose proof (PX_range 0 va) as Hi.
  assert (forall y r l x j, own y = Some (r, l, x) -> 0 <= j < 512 -> (y <> p0 \/ j <> PX 0 va) ->
    load64 (store64 (pm s) a e) (y + 8 * j) = load64 (pm s) (y + 8 * j)) as Hword.
  { intros y r l x j Ey Hj Hne. apply load_store64_ne. rewrite Ha.
    apply (slot_apart s own H K p0 (PX 0 va) y j _ _ Hp0 Ey Hi Hj). destruct Hne; [left; congruence | right; congruence]. }
  assert (forall y r l x j, own y = Some (r, l, x) -> 1 <= l -> 0 <= j < 512 ->
    load64 (store64 (pm s) a e) (y + 8 * j) = load64 (pm s) (y + 8 * j)) as Hupper.
  { intros y r l x j Ey Hl Hj. apply (Hword y r l x j Ey Hj). left. intros ->. rewrite Hp0 in Ey. injection Ey. lia. }
  assert (forall lv y r x va', own y = Some (r, Z.of_nat lv, x) ->
    walk_at lv (store64 (pm s) a e) y va' = walk_at lv (pm s) y va') as Hwalk.
  { induction lv as [|lv IH]; intros y r x va' Ey; [done|]. cbn [walk_at].
    pose proof (PX_range (Z.of_nat (S lv)) va') as Hj.
    rewrite (Hupper y r (Z.of_nat (S lv)) x _ Ey ltac:(lia) Hj).
    destruct (valid (load64 (pm s) (y + 8 * PX (Z.of_nat (S lv)) va'))) eqn:Hv; [|done].
    destruct (pt_entry _ _ _ K y r (Z.of_nat (S lv)) x _ Ey ltac:(lia) Hj Hv) as [_ Hc].
    replace (Z.of_nat (S lv) - 1) with (Z.of_nat lv) in Hc by lia. exact (IH _ _ _ va' Hc). }
  split; [|split; [|split]].
  - destruct K as [K1 K2 K3 K4]. constructor; simpl; [done | by apply store_le_bytes | done |].
    intros y r l x j Ey Hl Hj. rewrite (Hupper y r l x j Ey Hl Hj). by apply K4.
  - intros root' va' Hr' Hva'. unfold entry. rewrite (Hwalk 2%nat root' root' 0 va' Hr').
    destruct (walk_at 2 (pm s) root' va') as [a'|] eqn:Ew'.
    + destruct (walk_at_own s own H K 2 root' root' 0 va' a' Hr' Ew') as (p1 & Hp1 & ->).
      case_bool_decide as Hc.
      * destruct Hc as [-> Hpg]. assert (walk_at 2 (pm s) root va' = walk_at 2 (pm s) root va) as E2
          by (by apply walk_at_same_page). rewrite Ew', Hw in E2. injection E2 as ->. by apply load_store64.
      * apply (Hword p1 root' 0 _ _ Hp1 (PX_range 0 va')).
        destruct (decide (p1 = p0)) as [->|]; [right | by left]. intros Epx. apply Hc.
        rewrite Hp0 in Hp1. injection Hp1 as -> Hcov. split; [done|]. apply (cover_inj va' va); done.
    + case_bool_decide as Hc; [|done]. destruct Hc as [-> Hpg].
      assert (walk_at 2 (pm s) root va' = walk_at 2 (pm s) root va) as E2 by (by apply walk_at_same_page). congruence.
  - intros root' va'. destruct (decide (own root' = Some (root', 2, 0))) as [E|E]; [left | by right].
    exact (Hwalk 2%nat root' root' 0 va' E).
  - intros x Hx. apply store64_out. rewrite Ha.
    destruct (pt_page _ _ _ K _ _ _ _ Hp0) as (_ & (Hp1 & _) & _).
    assert (page_of x <> p0) by congruence. unfold page_of in *. dlia.
Qed.

End Walk.
