(* ===== verification/VmSpec.v ===== *)
(** * Address spaces

    What the operations of vm.c do to the translation of an address space:
    [mappages] and [uvmunmap] add and remove entries, [uvmalloc] grows a
    process by zeroed pages of its own or leaves it as it was, and [copyout]
    and [copyin] move bytes between the kernel and the pages that the page
    table names. *)

From S2P Require Import Prelude KString Buddy Vm VmWalk.

Section Spec.
  Context {A : Type} `{PA : PageAllocator A}.
  Implicit Types (s : vms A) (own : owner) (H : Z -> Prop).

(** Like [ext], without what it says about translations. *)
Record grow s own H s' own' H' : Prop := mkGrow {
  gr_ok : pt_ok s' own' H';
  gr_own : forall p t, own p = Some t -> own' p = Some t;
  gr_new : forall p, own p = None -> own' p <> None -> ~ H p;
  gr_held : forall q, H' q <-> H q \/ own' q <> None;
  gr_mem : forall x, H (page_of x) -> own (page_of x) = None -> pm s' x = pm s x
}.

Lemma ext_grow s own H s' own' H' : ext s own H s' own' H' -> grow s own H s' own' H'.
Proof. intros [? ? ? ? ? ? ?]. by constructor. Qed.

Lemma grow_refl s own H : pt_ok s own H -> grow s own H s own H.
Proof. intros K. by apply ext_grow, ext_refl. Qed.

Lemma grow_trans s1 o1 H1 s2 o2 H2 s3 o3 H3 :
  grow s1 o1 H1 s2 o2 H2 -> grow s2 o2 H2 s3 o3 H3 -> grow s1 o1 H1 s3 o3 H3.
Proof.
  intros [K2 Ho2 Hn2 Hh2 Hm2] [K3 Ho3 Hn3 Hh3 Hm3]. constructor; try done.
  - auto.
  - intros p E1 E3 Hp. destruct (o2 p) eqn:E2; [by apply (Hn2 p); [done | congruence |]|].
    apply (Hn3 p E2 E3). apply Hh2. by left.
  - intros q. rewrite Hh3, Hh2. split; [|tauto].
    intros [[?|Hq]|?]; [by left | right | by right].
    destruct (o2 q) as [t|] eqn:E; [|done]. rewrite (Ho3 _ _ E). done.
  - intros x Hx Ex. rewrite Hm3; [by apply Hm2 | apply Hh2; by left |].
    destruct (o2 (page_of x)) eqn:E2; [|done]. exfalso. by apply (Hn2 _ Ex); [congruence|].
Qed.

Lemma ext_entry s own H s' own' H' root va :
  ext s own H s' own' H' -> own root = Some (root, 2, 0) -> entry (pm s') root va = entry (pm s) root va.
Proof. intros E Hr. exact (ex_ent _ _ _ _ _ _ E 2%nat root root 0 va Hr). Qed.

Lemma grow_set_entry s own H root va a e :
  pt_ok s own H -> own root = Some (root, 2, 0) -> 0 <= va < MAXVA ->
  walk_at 2 (pm s) root va = Some a -> 0 <= e < 2 ^ 64 ->
  grow s own H (set_pm (store64 (pm s) a e) s) own H.
Proof.
  intros K Hr Hva Hw He. destruct (set_entry s own H root va a e K Hr Hva Hw He) as (K' & _ & _ & Hm).
  pose proof (grow_refl s own H K) as [_ ? ? ? _]. constructor; try done. intros x _ Hx. by apply Hm.
Qed.

Lemma entry_ent m root va : entry m root va = ent 2 m root va.
Proof. reflexivity. Qed.

(** ** mappages *)

(** The first [k] pages from [va] are mapped to the pages from [pa] on. *)
Definition maps_range (m m' : mem) (own : owner) (root va pa perm k : Z) : Prop :=
  forall root' va', own root' = Some (root', 2, 0) -> 0 <= va' < MAXVA ->
    entry m' root' va' =
      if bool_decide (root' = root /\ va <= va' < va + 4096 * k)
      then pte_of (pa + (page_of va' - va)) (Z.lor perm PTE_V) else entry m root' va'.

Lemma page_in_range va va' j : va mod 4096 = 0 -> va + 4096 * j <= va' < va + 4096 * (j + 1) ->
  page_of va' = va + 4096 * j /\ va' / 4096 = (va + 4096 * j) / 4096.
Proof. intros Hm Hr. unfold page_of. dlia. Qed.

Lemma perm_range perm : 0 <= perm < 1024 -> 0 <= Z.lor perm PTE_V < 1024.
Proof.
  intros H. split; [apply Z.lor_nonneg; unfold PTE_V; lia|].
  destruct (decide (Z.lor perm PTE_V = 0)) as [->|Hne]; [lia|].
  assert (0 <= Z.lor perm PTE_V) by (apply Z.lor_nonneg; unfold PTE_V; lia).
  apply Z.log2_lt_cancel. rewrite Z.log2_lor by (unfold PTE_V; lia). change (Z.log2 1024) with 10.
  change (Z.log2 PTE_V) with 0. destruct (decide (perm = 0)) as [->|]; [simpl; lia|].
  assert (Z.log2 perm < 10) by (apply Z.log2_lt_pow2; lia). lia.
Qed.

Lemma valid_pte_of pa perm : good_page pa -> 0 <= perm < 1024 ->
  valid (pte_of pa (Z.lor perm PTE_V)) = true.
Proof.
  intros Hg Hp. destruct (pte_of_facts pa (Z.lor perm PTE_V) Hg (perm_range perm Hp)) as (_ & _ & _ & Hand).
  unfold valid. rewrite Hand by (unfold PTE_V; lia). rewrite Z.land_lor_distr_l, Z.land_diag.
  apply negb_true_iff, Z.eqb_neq. intros E. apply Z.lor_eq_0_iff in E as [_ E]. done.
Qed.

(** The regions of two megabytes that a range meets: each has a table of its
    own at the lowest level. *)
Definition regions (va size : Z) : Z := if size =? 0 then 0 else (va + size - 1) / 2 ^ 21 - va / 2 ^ 21 + 1.

Lemma px_region l va va' : 1 <= l -> va / 2 ^ 21 = va' / 2 ^ 21 -> PX l va = PX l va'.
Proof.
  intros Hl E. unfold PX, PXSHIFT. replace (12 + 9 * l) with (21 + 9 * (l - 1)) by lia. rewrite <- !Z.shiftr_shiftr by lia.
  do 2 f_equal. rewrite !Z.shiftr_div_pow2 by lia. exact E.
Qed.
Lemma walk_region m p va va' : va / 2 ^ 21 = va' / 2 ^ 21 -> is_Some (walk_at 2 m p va) -> is_Some (walk_at 2 m p va').
Proof.
  intros E. cbn [walk_at]. change (Z.of_nat 2) with 2. change (Z.of_nat 1) with 1. rewrite (px_region 2 va va'), (px_region 1 va va') by (lia || done).
  destruct (valid _); [|by intros [? ?]]. destruct (valid _); [eauto | by intros [? ?]].
Qed.
Lemma entry_walk m root va : valid (entry m root va) = true -> is_Some (walk_at 2 m root va).
Proof. unfold entry. destruct (walk_at 2 m root va); [eauto | done]. Qed.

(** The tables missing for the page after a range that is mapped. *)
Lemma missing_next m root va k : va mod 4096 = 0 -> 0 <= va -> 0 <= k -> (0 < k -> valid (entry m root (va + 4096 * (k - 1))) = true) ->
  2 * regions va (4096 * k) + missing 2 m root (va + 4096 * k) <= 2 * regions va (4096 * (k + 1)).
Proof.
  intros Hm H0 Hk Hv. unfold regions. rewrite (proj2 (Z.eqb_neq (4096 * (k + 1)) 0)) by lia. pose proof (missing_range 2 m root (va + 4096 * k)).
  destruct (Z.eqb_spec (4096 * k) 0) as [|Hk0]; [assert (k = 0) as -> by lia; dlia|].
  destruct (decide ((va + 4096 * (k - 1)) / 2 ^ 21 = (va + 4096 * k) / 2 ^ 21)) as [E|E].
  - unfold missing. destruct (walk_region m root _ _ E) as [a ->]; [apply entry_walk, Hv; lia|]. dlia.
  - dlia.
Qed.

Lemma mappages_wp root va size pa perm s own H (Q : Z -> vms A -> Prop) :
  pt_ok s own H -> own root = Some (root, 2, 0) ->
  va mod 4096 = 0 -> size mod 4096 = 0 -> 0 < size -> 0 <= va -> va + size <= MAXVA ->
  0 <= perm < 1024 -> (forall k, 0 <= k < size / 4096 -> good_page (pa + 4096 * k)) ->
  (forall va', va <= va' < va + size -> valid (entry (pm s) root va') = false) ->
  (forall r s' own' H' k, grow s own H s' own' H' ->
     maps_range (pm s) (pm s') own root va pa perm k ->
     ((r = 0 /\ k = size / 4096) \/ (r = -1 /\ 0 <= k < size / 4096)) -> took (r =? 0) (2 * regions va size) (al s) (al s') -> Q r s') ->
  wp (mappages root va size pa perm) s Q.
Proof.
  intros K Hroot Hva Hsz Hpos Hva0 Hmax Hperm Hpa Hun HQ. unfold mappages, PGSIZE.
  rewrite Hva, Hsz. rewrite (proj2 (Z.eqb_neq size 0)) by lia. simpl. unfold MAXVA in *.
  rewrite (u64_small (va + size - 4096)) by dlia. unfold mappages_loop. set (n := size / 4096) in *.
  assert (size = 4096 * n) as En by (subst n; dlia).
  assert (forall i, (va + size - (va + 4096 * i)) / 4096 = n - i) as Hmu
    by (intros i; replace (va + size - (va + 4096 * i)) with ((n - i) * 4096) by lia; apply Z.div_mul; lia).
  apply (wp_loop (fun x s1 => exists j own1 H1, 0 <= j < n /\ x = (va + 4096 * j, pa + 4096 * j)
      /\ grow s own H s1 own1 H1 /\ maps_range (pm s) (pm s1) own root va pa perm j /\ took true (2 * regions va (4096 * j)) (al s) (al s1))
    (fun x => Z.to_nat ((va + size - fst x) / 4096))).
  - intros [a pa1] s1 (j & own1 & H1 & Hj & [= -> ->] & Hg & Hmap & Hta). cbn [fst snd].
    pose proof (gr_ok _ _ _ _ _ _ Hg) as K1. pose proof (gr_own _ _ _ _ _ _ Hg _ _ Hroot) as Hroot1.
    wp_step. apply (walk_alloc_wp root _ s1 own1 H1 _ K1 Hroot1); [unfold MAXVA; lia|].
    intros s2 own2 H2 ap Hext Htb Hap.
    assert (took (negb (ap =? 0)) (2 * regions va (4096 * (j + 1))) (al s) (al s2)) as Ht2.
    { eapply took_trans; [exact Hta | exact Htb|]. apply missing_next; [done | done | lia |]. intros Hj0.
      rewrite Hmap by (done || unfold MAXVA; lia). rewrite bool_decide_true by lia. rewrite (proj1 (page_in_range va (va + 4096 * (j - 1)) (j - 1) Hva ltac:(lia))).
      replace (pa + (va + 4096 * (j - 1) - va)) with (pa + 4096 * (j - 1)) by lia. apply valid_pte_of; [apply Hpa; lia | done]. }
    assert (2 * regions va (4096 * (j + 1)) <= 2 * regions va size) as Hreg by (unfold regions; rewrite !(proj2 (Z.eqb_neq _ 0)) by lia; dlia).
    pose proof (ext_grow _ _ _ _ _ _ Hext) as Hg2.
    pose proof (grow_trans _ _ _ _ _ _ _ _ _ Hg Hg2) as Hg02.
    assert (forall root' va', own root' = Some (root', 2, 0) -> entry (pm s2) root' va' = entry (pm s1) root' va') as Hsame.
    { intros root' va' Hr'. eapply ext_entry; [exact Hext|]. exact (gr_own _ _ _ _ _ _ Hg _ _ Hr'). }
    destruct Hap as [->|[Hap0 Hap]].
    { rewrite Z.eqb_refl. apply wp_ret. apply (HQ _ _ own2 H2 j Hg02); [|right; lia|by eapply took_le].
      intros root' va' Hr' Hva'. rewrite Hsame by done. by apply Hmap. }
    rewrite (proj2 (Z.eqb_neq ap 0)) by done. wp_step. unfold rd64. wp_step.
    assert (load64 (pm s2) ap = entry (pm s) root (va + 4096 * j)) as El.
    { transitivity (entry (pm s2) root (va + 4096 * j)); [unfold entry; by rewrite Hap|].
      rewrite Hsame, Hmap by (done || unfold MAXVA; lia). rewrite bool_decide_false; [done|]. lia. }
    rewrite El, Hun by lia. wp_step. unfold wr64, on_mem. wp_step.
    pose proof (gr_ok _ _ _ _ _ _ Hg2) as K2. pose proof (gr_own _ _ _ _ _ _ Hg2 _ _ Hroot1) as Hroot2.
    rewrite <- Z.lor_assoc. fold (pte_of (pa + 4096 * j) (Z.lor perm PTE_V)).
    set (e := pte_of (pa + 4096 * j) (Z.lor perm PTE_V)).
    assert (0 <= e < 2 ^ 64) as He by (apply pte_of_facts; [by apply Hpa | by apply perm_range]).
    assert (0 <= va + 4096 * j < MAXVA) as Hvj by (unfold MAXVA; lia).
    pose proof (grow_set_entry s2 own2 H2 root _ ap e K2 Hroot2 Hvj Hap He) as Hg3.
    destruct (set_entry s2 own2 H2 root _ ap e K2 Hroot2 Hvj Hap He) as (_ & Hent & _ & _).
    assert (maps_range (pm s) (store64 (pm s2) ap e) own root va pa perm (j + 1)) as Hmap3.
    { intros root' va' Hr' Hva'. simpl in Hent.
      rewrite Hent by (try done; exact (gr_own _ _ _ _ _ _ Hg02 _ _ Hr')).
      rewrite Hsame, Hmap by done. case_bool_decide as C1.
      - destruct C1 as [-> Hpg]. rewrite bool_decide_true by (split; [done|]; dlia). subst e. f_equal.
        unfold page_of. dlia.
      - case_bool_decide as C2; [rewrite bool_decide_true by (destruct C2; split; [done | lia]); done|].
        rewrite bool_decide_false; [done|]. intros [-> Hr2]. apply C1. split; [done|].
        destruct (page_in_range va va' j Hva) as [_ E]; [|done].
        destruct (Z.lt_ge_cases va' (va + 4096 * j)); [exfalso; apply C2; split; [done|lia] | lia]. }
    pose proof (grow_trans _ _ _ _ _ _ _ _ _ Hg02 Hg3) as Hg03.
    destruct (va + 4096 * j =? va + size - 4096) eqn:Elast; bool_prop.
    + rewrite (proj2 (Z.eqb_neq ap 0)) in Ht2 by done. apply wp_ret. apply (HQ _ _ own2 H2 (j + 1) Hg03); [exact Hmap3 | left; split; [done | lia] | by eapply took_le].
    + apply wp_ret. cbn [fst]. unfold PGSIZE. rewrite !u64_small.
      * replace (va + 4096 * j + 4096) with (va + 4096 * (j + 1)) by lia. rewrite !Hmu. split; [|lia].
        exists (j + 1), own2, H2. split; [lia|]. split; [f_equal; lia|]. split; [exact Hg03|]. split; [exact Hmap3|]. by rewrite (proj2 (Z.eqb_neq ap 0)) in Ht2.
      * destruct (Hpa (j + 1) ltac:(lia)) as (_ & ? & ?). lia.
      * lia.
  - exists 0, own, H. split; [lia|]. split; [f_equal; lia|]. split; [by apply grow_refl|].
    split; [|by apply took_none]. intros root' va' Hr' Hva'. rewrite bool_decide_false; [done|]. lia.
  - cbn [fst]. replace (va + size - va) with size by lia. fold n. lia.
Qed.

(** Mapping a page that is already mapped panics. *)
Lemma mappages_remap root va pa perm s own H :
  pt_ok s own H -> own root = Some (root, 2, 0) -> va mod 4096 = 0 -> 0 <= va < MAXVA ->
  valid (entry (pm s) root va) = true ->
  mappages root va PGSIZE pa perm s = Panic "mappages: remap".
Proof.
  intros K Hroot Hva Hr Hv. unfold mappages. unfold PGSIZE at 1. rewrite Hva. simpl. unfold mappages_loop, bind.
  assert (exists a, walk root va true s = Ret (a, s) /\ a <> 0 /\ load64 (pm s) a = entry (pm s) root va) as (a & Ew & Ha & El).
  { unfold entry in *. destruct (walk_at 2 (pm s) root va) as [a|] eqn:Ew; [|done]. exists a.
    destruct (walk_at_own s own H K 2 root root 0 va a Hroot Ew) as (p0 & Hp0 & Ea).
    destruct (pt_page _ _ _ K _ _ _ _ Hp0) as (_ & (_ & Hp00 & _) & _). pose proof (PX_range 0 va).
    split; [|split; [lia | done]]. unfold walk. rewrite (proj2 (Z.leb_gt MAXVA va)) by lia.
    revert Ew. generalize root. generalize 2%nat as l. clear.
    induction l as [|l IH]; intros root Ew; cbn [walk_at walk_loop] in *; [by injection Ew as <-|].
    unfold bind, rd64, gets. cbv zeta beta iota. case_if_in Ew; [|done].
    by apply IH. }
  simpl. unfold bind. rewrite Ew. rewrite (proj2 (Z.eqb_neq a 0)) by done. unfold rd64, gets. by rewrite El, Hv.
Qed.

(** ** uvmunmap *)

(** The physical page behind the [j]-th page from [va]. *)
Definition frame_of (m : mem) (root va j : Z) : Z := PTE2PA (entry m root (va + 4096 * j)).

(** [H] without the first [k] frames from [va] when they are freed. *)
Definition minus_frames (do_free : bool) (m : mem) (root va k : Z) H : Z -> Prop :=
  fun q => H q /\ (do_free = true -> forall j, 0 <= j < k -> q <> frame_of m root va j).

(** The first [k] pages from [va] are not mapped any more. *)
Definition unmaps_range (m m' : mem) (own : owner) (root va k : Z) : Prop :=
  forall root' va', own root' = Some (root', 2, 0) -> 0 <= va' < MAXVA ->
    entry m' root' va' =
      if bool_decide (root' = root /\ va <= va' < va + 4096 * k) then 0 else entry m root' va'.

(** The pages from [va] can be unmapped (and their frames freed). *)
Record removable s own H (do_free : bool) (root va n : Z) : Prop := {
  rm_valid : forall j, 0 <= j < n -> valid (entry (pm s) root (va + 4096 * j)) = true
    /\ PTE_FLAGS (entry (pm s) root (va + 4096 * j)) <> PTE_V;
  rm_held : do_free = true -> forall j, 0 <= j < n ->
    H (frame_of (pm s) root va j) /\ own (frame_of (pm s) root va j) = None;
  rm_inj : do_free = true -> forall i j, 0 <= i < n -> 0 <= j < n ->
    frame_of (pm s) root va i = frame_of (pm s) root va j -> i = j
}.

Lemma uvmunmap_wp root va n (do_free : bool) s own H (Q : unit -> vms A -> Prop) :
  pt_ok s own H -> own root = Some (root, 2, 0) -> va mod 4096 = 0 -> 0 <= va -> 0 <= n ->
  va + 4096 * n <= MAXVA -> removable s own H do_free root va n ->
  (forall s', pt_ok s' own (minus_frames do_free (pm s) root va n H) ->
     unmaps_range (pm s) (pm s') own root va n ->
     (forall x, own (page_of x) = None -> pm s' x = pm s x) -> Q tt s') ->
  wp (uvmunmap root va n do_free) s Q.
Proof.
  intros K Hroot Hva Hva0 Hn Hmax [Hv Hh Hinj] HQ. unfold uvmunmap, PGSIZE. rewrite Hva. simpl. unfold MAXVA in Hmax.
  rewrite u64_small by lia.
  apply (wp_loop (fun a s1 => exists j, 0 <= j <= n /\ a = va + 4096 * j
      /\ pt_ok s1 own (minus_frames do_free (pm s) root va j H)
      /\ unmaps_range (pm s) (pm s1) own root va j
      /\ (forall x, own (page_of x) = None -> pm s1 x = pm s x))
    (fun a => Z.to_nat (n - (a - va) / 4096))).
  - intros a s1 (j & Hj & -> & K1 & Hun & Hm).
    destruct (va + 4096 * j <? va + n * 4096) eqn:E; bool_prop.
    2:{ apply wp_ret. assert (j = n) as -> by lia. by apply HQ. }
    assert (0 <= va + 4096 * j < MAXVA) as Hvj by (unfold MAXVA; lia).
    wp_step. apply walk_noalloc_wp; [lia|].
    assert (entry (pm s1) root (va + 4096 * j) = entry (pm s) root (va + 4096 * j)) as Ee.
    { rewrite Hun by done. rewrite bool_decide_false; [done | lia]. }
    destruct (Hv j ltac:(lia)) as [Hvj1 Hfl]. rewrite <- Ee in Hvj1, Hfl.
    unfold entry in Ee, Hvj1, Hfl. destruct (walk_at 2 (pm s1) root (va + 4096 * j)) as [ap|] eqn:Hw; [|done].
    destruct (walk_at_own s1 own _ K1 2 root root 0 _ ap Hroot Hw) as (p0 & Hp0 & Eap).
    destruct (pt_page _ _ _ K1 _ _ _ _ Hp0) as (_ & (_ & Hp00 & _) & _). pose proof (PX_range 0 (va + 4096 * j)).
    rewrite (proj2 (Z.eqb_neq ap 0)) by lia. wp_step. unfold rd64. wp_step.
    assert ((Z.land (load64 (pm s1) ap) PTE_V =? 0) = false) as ->
      by (unfold valid in Hvj1; by apply negb_true_iff in Hvj1).
    rewrite (proj2 (Z.eqb_neq _ PTE_V)) by done.
    assert (forall a', pa_held a' (minus_frames do_free (pm s) root va (j + 1) H) ->
      wp (wr64 ap 0 ;;; ret (inl (u64 (va + 4096 * j + 4096)))) (set_al a' s1)
        (fun r s2 => match r with
          | inl a2 => (exists j2, 0 <= j2 <= n /\ a2 = va + 4096 * j2
              /\ pt_ok s2 own (minus_frames do_free (pm s) root va j2 H)
              /\ unmaps_range (pm s) (pm s2) own root va j2
              /\ (forall x, own (page_of x) = None -> pm s2 x = pm s x))
              /\ (Z.to_nat (n - (a2 - va) / 4096) < Z.to_nat (n - (va + 4096 * j - va) / 4096))%nat
          | inr v => Q v s2 end)) as Hrest.
    { intros a' Ha'. wp_step. unfold wr64, on_mem. wp_step. wp_step. rewrite u64_small by lia.
      assert (pt_ok (set_al a' s1) own (minus_frames do_free (pm s) root va (j + 1) H)) as K2.
      { destruct K1 as [_ Kb Kp Ke]. constructor; simpl; try done. intros p r l x Eo.
        destruct (Kp p r l x Eo) as ([HHp Hnf] & Hg & Hl & Hr). split; [|done]. split; [done|].
        intros Hdf i Hi. destruct (decide (i = j)) as [->|]; [|apply Hnf; [done | lia]].
        intros ->. destruct (Hh Hdf j ltac:(lia)) as [_ Hno]. congruence. }
      destruct (set_entry (set_al a' s1) own _ root _ ap 0 K2 Hroot Hvj Hw ltac:(lia)) as (K3 & Hent & _ & Hm3).
      unfold PGSIZE. split; [|replace (va + 4096 * j + 4096 - va) with ((j + 1) * 4096) by lia;
        replace (va + 4096 * j - va) with (j * 4096) by lia; rewrite !Z.div_mul by lia; lia].
      exists (j + 1). split; [lia|]. split; [lia|]. split; [exact K3|]. split.
      - intros root' va' Hr' Hva'. rewrite Hent by done. simpl. case_bool_decide as C1.
        + destruct C1 as [-> Hpg]. rewrite bool_decide_true; [done|]. split; [done | dlia].
        + rewrite Hun by done. case_bool_decide as C2; [rewrite bool_decide_true by (destruct C2; split; [done | lia]); done|].
          rewrite bool_decide_false; [done|]. intros [-> Hr2]. apply C1. split; [done|].
          destruct (page_in_range va va' j Hva) as [_ E2]; [|done].
          destruct (Z.lt_ge_cases va' (va + 4096 * j)); [exfalso; apply C2; split; [done|lia] | lia].
      - intros x Hx. rewrite Hm3 by done. simpl. by apply Hm. }
    destruct do_free; cbn [when].
    + wp_step. unfold kfree. wp_step.
      destruct (Hh eq_refl j ltac:(lia)) as [HHj _].
      assert (PTE2PA (load64 (pm s1) ap) = frame_of (pm s) root va j) as -> by (unfold frame_of; by rewrite Ee).
      eapply wp_mono; [apply (pa_free_ok _ _ (frame_of (pm s) root va j) (pt_held _ _ _ K1))|].
      * split; [done|]. intros _ i Hi Eij. apply (Hinj eq_refl) in Eij; lia.
      * intros [] a' Ha'. apply Hrest. eapply pa_weaken; [|exact Ha']. intros q [Hq1 Hq2]. split.
        -- apply Hq2; [done | lia].
        -- split; [done|]. intros _ i Hi. apply Hq2; [done | lia].
    + wp_step. apply wp_ret. specialize (Hrest (al s1)). destruct s1 as [m1 a1]. simpl in *. apply Hrest.
      eapply pa_weaken; [|exact (pt_held _ _ _ K1)]. intros q [Hq1 _]. by split.
  - exists 0. split; [lia|]. split; [lia|]. split; [|split; [|done]].
    + destruct K as [Kh Kb Kp Ke]. constructor; try done.
      * eapply pa_weaken; [|exact Kh]. by intros q [Hq _].
      * intros p r l x Eo. destruct (Kp p r l x Eo) as (HHp & ? & ? & ?). split; [|done]. split; [done|]. lia.
    + intros root' va' Hr' Hva'. rewrite bool_decide_false; [done | lia].
  - rewrite Z.sub_diag. change (0 / 4096) with 0. lia.
Qed.

(** ** Writes outside the page tables *)

(** A change of memory outside the table pages keeps tables and translations. *)
Lemma pt_frame s own H m' a' H' :
  pt_ok s own H -> pa_held a' H' -> (forall q, H q -> H' q) -> bytes_mem m' ->
  (forall x, own (page_of x) <> None -> m' x = pm s x) ->
  pt_ok (mkVms m' a') own H'
  /\ (forall lv p r x va, own p = Some (r, Z.of_nat lv, x) -> ent lv m' p va = ent lv (pm s) p va)
  /\ (forall lv p r x va, own p = Some (r, Z.of_nat lv, x) -> walk_at lv m' p va = walk_at lv (pm s) p va).
Proof.
  intros K Ha HH Hb Hm.
  assert (forall p r l x i, own p = Some (r, l, x) -> 0 <= i < 512 -> load64 m' (p + 8 * i) = load64 (pm s) (p + 8 * i)) as Hw.
  { intros p r l x i Ep Hi. apply load_le_ext. intros z Hz. apply Hm.
    destruct (pt_page _ _ _ K _ _ _ _ Ep) as (_ & (Hp & _) & _).
    assert (page_of z = p) as -> by (unfold page_of; dlia). congruence. }
  assert (forall lv p r x va, own p = Some (r, Z.of_nat lv, x) -> walk_at lv m' p va = walk_at lv (pm s) p va) as Hwalk.
  { induction lv as [|lv IH]; intros p r x va Ep; [done|]. cbn [walk_at].
    pose proof (PX_range (Z.of_nat (S lv)) va) as Hi. rewrite (Hw p r _ x _ Ep Hi).
    destruct (valid (load64 (pm s) (p + 8 * PX (Z.of_nat (S lv)) va))) eqn:Hv; [|done].
    destruct (pt_entry _ _ _ K p r _ x _ Ep ltac:(lia) Hi Hv) as [_ Hc].
    replace (Z.of_nat (S lv) - 1) with (Z.of_nat lv) in Hc by lia. exact (IH _ _ _ va Hc). }
  split; [|split; [|exact Hwalk]].
  - destruct K as [K1 K2 K3 K4]. constructor; simpl; try done.
    + intros p r l x Ep. destruct (K3 p r l x Ep) as (? & ? & ? & ?). auto.
    + intros p r l x i Ep Hl Hi. rewrite (Hw p r l x i Ep Hi). by apply K4.
  - intros lv p r x va Ep. unfold ent. rewrite (Hwalk lv p r x va Ep).
    destruct (walk_at lv (pm s) p va) as [a|] eqn:Ew; [|done].
    destruct (walk_at_own s own H K lv p r x va a Ep Ew) as (p0 & Hp0 & ->). apply (Hw p0 _ _ _ _ Hp0). apply PX_range.
Qed.

(** ** uvmalloc *)

(** The address space [root] has [j] new pages from [o] on, backed by the
    frames [f], which hold zeros. *)
Record grown_by s own H s1 own1 H1 (root o perm : Z) (f : Z -> Z) (j : Z) : Prop := mkGb {
  gb_ok : pt_ok s1 own1 H1;
  gb_own : forall p t, own p = Some t -> own1 p = Some t;
  gb_new : forall p, own p = None -> own1 p <> None -> ~ H p;
  gb_sub : forall q, H q -> H1 q;
  gb_ent : forall root' va', own root' = Some (root', 2, 0) -> 0 <= va' < MAXVA ->
    entry (pm s1) root' va' =
      if bool_decide (root' = root /\ o <= va' < o + 4096 * j)
      then pte_of (f ((va' - o) / 4096)) (Z.lor perm PTE_V) else entry (pm s) root' va';
  gb_frame : forall i, 0 <= i < j -> good_page (f i) /\ ~ H (f i) /\ H1 (f i) /\ own1 (f i) = None
    /\ forall x, page_of x = f i -> pm s1 x = 0;
  gb_inj : forall i i', 0 <= i < j -> 0 <= i' < j -> f i = f i' -> i = i';
  gb_mem : forall x, H (page_of x) -> own (page_of x) = None -> pm s1 x = pm s x
}.

Lemma grown_by_refl s own H root o perm f : pt_ok s own H -> grown_by s own H s own H root o perm f 0.
Proof.
  intros K. constructor; try done; try lia. intros root' va' _ _. rewrite bool_decide_false; [done | lia].
Qed.

(** The fresh page [q], zeroed, in state [s1]. *)
Lemma fresh_zero s1 own1 H1 q a' :
  pt_ok s1 own1 H1 -> good_page q -> ~ H1 q -> pa_held a' (fun y => y = q \/ H1 y) ->
  let s2 := mkVms (memset q 0 PGSIZE (pm s1)) a' in
  let H2 := fun y => y = q \/ H1 y in
  pt_ok s2 own1 H2 /\ own1 q = None
  /\ (forall root va, own1 root = Some (root, 2, 0) -> entry (pm s2) root va = entry (pm s1) root va)
  /\ (forall x, page_of x = q -> pm s2 x = 0) /\ (forall x, page_of x <> q -> pm s2 x = pm s1 x).
Proof.
  intros K Hg Hf Ha s2 H2. subst s2 H2. cbn [pm al]. pose proof Hg as (Hq & Hq0 & _).
  assert (own1 q = None) as Ho.
  { destruct (own1 q) as [[[? ?] ?]|] eqn:E; [|done]. exfalso. apply Hf. by apply (pt_page _ _ _ K _ _ _ _ E). }
  assert (forall x, page_of x = q -> memset q 0 PGSIZE (pm s1) x = 0) as Hin.
  { intros x Hx. rewrite memset_in; [done|]. unfold page_of, PGSIZE in *. dlia. }
  assert (forall x, page_of x <> q -> memset q 0 PGSIZE (pm s1) x = pm s1 x) as Hout.
  { intros x Hx. apply memset_out; unfold page_of, PGSIZE in *; dlia. }
  destruct (pt_frame s1 own1 H1 (memset q 0 PGSIZE (pm s1)) a' (fun y => y = q \/ H1 y) K Ha) as (K2 & He & _).
  - intros y Hy. by right.
  - apply memset_bytes, (pt_bytes _ _ _ K).
  - intros x Hx. apply Hout. congruence.
  - split; [exact K2|]. split; [exact Ho|]. split; [|split; [exact Hin | exact Hout]].
    intros root va Hr. rewrite !entry_ent. exact (He 2%nat root root 0 va Hr).
Qed.

Lemma grown_by_removable s own H s1 own1 H1 root o perm f j :
  grown_by s own H s1 own1 H1 root o perm f j -> own root = Some (root, 2, 0) ->
  o mod 4096 = 0 -> 0 <= o -> o + 4096 * j <= MAXVA -> 0 <= perm < 1024 -> Z.land perm PTE_R <> 0 ->
  removable s1 own1 H1 true root o j
  /\ forall i, 0 <= i < j -> frame_of (pm s1) root o i = f i.
Proof.
  intros G Hr Ho Ho0 Hmax Hp Hpr.
  assert (forall i, 0 <= i < j -> entry (pm s1) root (o + 4096 * i) = pte_of (f i) (Z.lor perm PTE_V)) as He.
  { intros i Hi. rewrite (gb_ent _ _ _ _ _ _ _ _ _ _ _ G) by (done || lia).
    rewrite bool_decide_true by (split; [done | lia]). f_equal. f_equal.
    replace (o + 4096 * i - o) with (i * 4096) by lia. apply Z.div_mul. lia. }
  assert (forall i, 0 <= i < j -> frame_of (pm s1) root o i = f i) as Hf.
  { intros i Hi. unfold frame_of. rewrite He by done.
    apply pte_of_facts; [apply (gb_frame _ _ _ _ _ _ _ _ _ _ _ G i Hi) | by apply perm_range]. }
  split; [|done]. constructor.
  - intros i Hi. rewrite He by done. destruct (gb_frame _ _ _ _ _ _ _ _ _ _ _ G i Hi) as (Hg & _).
    split; [by apply valid_pte_of|].
    destruct (pte_of_facts (f i) (Z.lor perm PTE_V) Hg (perm_range perm Hp)) as (_ & _ & -> & _).
    intros E. apply Hpr. apply (f_equal (fun z => Z.land z PTE_R)) in E.
    rewrite Z.land_lor_distr_l in E. change (Z.land PTE_V PTE_R) with 0 in E. by rewrite Z.lor_0_r in E.
  - intros _ i Hi. rewrite Hf by done. destruct (gb_frame _ _ _ _ _ _ _ _ _ _ _ G i Hi) as (_ & _ & ? & ? & _). done.
  - intros _ i i' Hi Hi'. rewrite !Hf by done. by apply (gb_inj _ _ _ _ _ _ _ _ _ _ _ G).
Qed.

Lemma PGROUNDUP_aligned a : a mod 4096 = 0 -> 0 <= a < 2 ^ 63 -> PGROUNDUP a = a.
Proof.
  intros Hm Ha. unfold PGROUNDUP, PGSIZE. rewrite u64_small by lia.
  change (Z.lnot (4096 - 1)) with (Z.lnot (Z.ones 12)).
  rewrite <- Z.ldiff_land, Z.ldiff_ones_r, Z.shiftr_div_pow2, Z.shiftl_mul_pow2 by lia.
  change (2 ^ 12) with 4096. dlia.
Qed.

(** Undo [uvmalloc]: the translations are those from before. *)
Lemma uvmdealloc_undo_wp s own H s1 own1 H1 root o perm f j (Q : Z -> vms A -> Prop) :
  grown_by s own H s1 own1 H1 root o perm f j -> own root = Some (root, 2, 0) ->
  o mod 4096 = 0 -> 0 <= o -> 0 <= j -> o + 4096 * j <= MAXVA -> 0 <= perm < 1024 -> Z.land perm PTE_R <> 0 ->
  (forall va', o <= va' < o + 4096 * j -> valid (entry (pm s) root va') = false) ->
  (forall r s' H', pt_ok s' own1 H' -> (forall q, H q -> H' q) ->
     (forall root' va', own root' = Some (root', 2, 0) -> 0 <= va' < MAXVA ->
        valid (entry (pm s') root' va') = true \/ valid (entry (pm s) root' va') = true ->
        entry (pm s') root' va' = entry (pm s) root' va') ->
     (forall x, H (page_of x) -> own (page_of x) = None -> pm s' x = pm s x) -> Q r s') ->
  wp (uvmdealloc root (o + 4096 * j) o) s1 Q.
Proof.
  intros G Hr Ho Ho0 Hj Hmax Hp Hpr Hun HQ. unfold uvmdealloc. unfold MAXVA in Hmax.
  destruct (o + 4096 * j <=? o) eqn:E; bool_prop.
  { apply wp_ret. assert (j = 0) as -> by lia. destruct G as [Gok Gown Gnew Gsub Gent _ _ Gmem].
    apply (HQ _ _ H1); try done. intros root' va' Hr' Hva' _. rewrite Gent by done.
    rewrite bool_decide_false; [done | lia]. }
  rewrite !PGROUNDUP_aligned by (try lia; dlia). rewrite (proj2 (Z.ltb_lt o _)) by lia.
  replace (o + 4096 * j - o) with (j * 4096) by lia. unfold PGSIZE.
  rewrite Z.quot_div_nonneg, Z.div_mul by lia.
  rewrite i32_small by lia. rewrite u64_small by lia.
  destruct (grown_by_removable _ _ _ _ _ _ _ _ _ _ _ G Hr Ho Ho0 ltac:(unfold MAXVA; lia) Hp Hpr) as [Hrm Hf].
  wp_step. apply (uvmunmap_wp root o j true s1 own1 H1); try done.
  - apply (gb_ok _ _ _ _ _ _ _ _ _ _ _ G).
  - apply (gb_own _ _ _ _ _ _ _ _ _ _ _ G _ _ Hr).
  - intros s' K' Hu Hm. apply wp_ret. apply (HQ _ _ _ K').
    + intros q Hq. split; [by apply (gb_sub _ _ _ _ _ _ _ _ _ _ _ G)|]. intros _ i Hi ->.
      rewrite Hf in Hq by done. by apply (gb_frame _ _ _ _ _ _ _ _ _ _ _ G i Hi).
    + intros root' va' Hr' Hva' Hv. rewrite Hu in * by (try done; apply (gb_own _ _ _ _ _ _ _ _ _ _ _ G _ _ Hr')).
      rewrite (gb_ent _ _ _ _ _ _ _ _ _ _ _ G) in * by done. case_bool_decide as C; [|done].
      destruct C as [-> C]. rewrite Hun in Hv by done. destruct Hv; done.
    + intros x Hx Ex. rewrite Hm; [by apply (gb_mem _ _ _ _ _ _ _ _ _ _ _ G)|].
      destruct (own1 (page_of x)) eqn:E1; [|done]. exfalso.
      apply (gb_new _ _ _ _ _ _ _ _ _ _ _ G _ Ex); [congruence | done].
Qed.

(** One round of [uvmalloc] that succeeds. *)
Lemma grown_by_step s own H s1 own1 H1 root o perm f j q a' s3 own3 H3 :
  grown_by s own H s1 own1 H1 root o perm f j -> own root = Some (root, 2, 0) ->
  0 <= j -> o mod 4096 = 0 -> good_page q -> ~ H1 q -> pa_held a' (fun y => y = q \/ H1 y) ->
  let s2 := mkVms (memset q 0 PGSIZE (pm s1)) a' in
  grow s2 own1 (fun y => y = q \/ H1 y) s3 own3 H3 ->
  maps_range (pm s2) (pm s3) own1 root (o + 4096 * j) q perm 1 ->
  grown_by s own H s3 own3 H3 root o perm (fun i => if i =? j then q else f i) (j + 1).
Proof.
  intros G Hr Hj Ho Hg Hf Ha s2 Gr Hmap.
  destruct (fresh_zero s1 own1 H1 q a' (gb_ok _ _ _ _ _ _ _ _ _ _ _ G) Hg Hf Ha) as (K2 & Hoq & He & Hz & Hnz).
  fold s2 in K2, He, Hz, Hnz. destruct Gr as [K3 Ho3 Hn3 Hh3 Hm3].
  destruct G as [Gok Gown Gnew Gsub Gent Gfr Ginj Gmem].
  assert (own3 q = None) as Ho3q.
  { destruct (own3 q) eqn:E; [|done]. exfalso. apply (Hn3 q Hoq); [congruence | by left]. }
  assert (forall i, 0 <= i < j -> f i <> q) as Hfq by (intros i Hi E; apply Hf; rewrite <- E; by apply Gfr).
  constructor; try done.
  - auto.
  - intros p E E3 Hp. destruct (own1 p) eqn:E1; [by apply (Gnew p E); [congruence|]|].
    apply (Hn3 p E1 E3). right. by apply Gsub.
  - intros p Hp. apply Hh3. left. right. by apply Gsub.
  - intros root' va' Hr' Hva'. rewrite Hmap by (try done; by apply Gown). rewrite He by (by apply Gown).
    case_bool_decide as C1.
    + destruct C1 as [-> C1]. rewrite bool_decide_true by (split; [done | lia]). f_equal.
      assert ((va' - o) / 4096 = j) as -> by dlia. rewrite Z.eqb_refl. unfold page_of. dlia.
    + rewrite Gent by done. case_bool_decide as C2.
      * rewrite bool_decide_true by (destruct C2; split; [done | lia]). destruct C2 as [-> C2].
        assert ((va' - o) / 4096 <> j) as Hne by dlia. by rewrite (proj2 (Z.eqb_neq _ _) Hne).
      * rewrite bool_decide_false; [done|]. intros [-> C3].
        destruct (Z.lt_ge_cases va' (o + 4096 * j)); [apply C2; split; [done | lia] | apply C1; split; [done | lia]].
  - intros i Hi. destruct (i =? j) eqn:E; bool_prop.
    + split; [done|]. split; [intros Hq; apply Hf, Gsub, Hq|]. split; [apply Hh3; left; by left|]. split; [done|].
      intros x Hx. rewrite Hm3; [by apply Hz | by left | by rewrite Hx].
    + destruct (Gfr i ltac:(lia)) as (F1 & F2 & F3 & F4 & F5). pose proof (Hfq i ltac:(lia)) as Hne.
      split; [done|]. split; [done|]. split; [apply Hh3; left; by right|].
      assert (own3 (f i) = None) as E3.
      { destruct (own3 (f i)) eqn:E3; [|done]. exfalso. apply (Hn3 _ F4); [congruence | by right]. }
      split; [done|]. intros x Hx. rewrite Hm3; [|right; by rewrite Hx | by rewrite Hx].
      rewrite Hnz by congruence. by apply F5.
  - intros i i' Hi Hi' E. destruct (i =? j) eqn:E1, (i' =? j) eqn:E2; bool_prop.
    + lia.
    + exfalso. apply (Hfq i'); [lia | done].
    + exfalso. apply (Hfq i); [lia | done].
    + apply Ginj; [lia | lia | done].
  - intros x Hx Ex.
    assert (own1 (page_of x) = None) as E1.
    { destruct (own1 (page_of x)) eqn:E1; [|done]. exfalso. apply (Gnew _ Ex); [congruence | done]. }
    rewrite Hm3; [|right; by apply Gsub | done]. rewrite Hnz; [by apply Gmem|].
    intros Eq. apply Hf. rewrite <- Eq. by apply Gsub.
Qed.

(** Undo after a page that could not be mapped. *)
Lemma grown_by_grow s own H s1 own1 H1 root o perm f j s3 own3 H3 :
  grown_by s own H s1 own1 H1 root o perm f j ->
  grow s1 own1 H1 s3 own3 H3 ->
  (forall root' va', own1 root' = Some (root', 2, 0) -> 0 <= va' < MAXVA ->
     entry (pm s3) root' va' = entry (pm s1) root' va') ->
  grown_by s own H s3 own3 H3 root o perm f j.
Proof.
  intros [Gok Gown Gnew Gsub Gent Gfr Ginj Gmem] [K3 Ho3 Hn3 Hh3 Hm3] He. constructor; try done.
  - auto.
  - intros p E E3 Hp. destruct (own1 p) eqn:E1; [by apply (Gnew p E); [congruence|]|].
    apply (Hn3 p E1 E3). by apply Gsub.
  - intros p Hp. apply Hh3. left. by apply Gsub.
  - intros root' va' Hr' Hva'. rewrite He by (try done; by apply Gown). by apply Gent.
  - intros i Hi. destruct (Gfr i Hi) as (F1 & F2 & F3 & F4 & F5).
    assert (own3 (f i) = None) as E3.
    { destruct (own3 (f i)) eqn:E3; [|done]. exfalso. apply (Hn3 _ F4); [congruence | done]. }
    split_and!; try done; [apply Hh3; by left|]. intros x Hx. rewrite Hm3 by (by rewrite Hx). by apply F5.
  - intros x Hx Ex. rewrite Hm3; [by apply Gmem | by apply Gsub |].
    destruct (own1 (page_of x)) eqn:E1; [|done]. exfalso. apply (Gnew _ Ex); [congruence | done].
Qed.

(** Weaken what is held and change the allocator, memory unchanged. *)
Lemma grow_drop s own H q a' :
  pt_ok s own (fun y => y = q \/ H y) -> own q = None -> ~ H q -> pa_held a' H ->
  pt_ok (mkVms (pm s) a') own H.
Proof.
  intros [Kh Kb Kp Ke] Ho Hq Ha. constructor; simpl; try done.
  intros p r l x Ep. destruct (Kp p r l x Ep) as ([->|?] & ? & ? & ?); [congruence | done].
Qed.

Lemma uvmalloc_wp root oldsz newsz xperm s own H (Q : Z -> vms A -> Prop) :
  pt_ok s own H -> own root = Some (root, 2, 0) ->
  0 <= oldsz <= newsz -> newsz <= MAXVA -> 0 <= xperm < 1024 ->
  let o := PGROUNDUP oldsz in
  let perm := Z.lor (Z.lor PTE_R PTE_U) xperm in
  (forall va', o <= va' < PGROUNDUP newsz -> valid (entry (pm s) root va') = false) ->
  (forall s' own' H' f, grown_by s own H s' own' H' root o perm f ((PGROUNDUP newsz - o) / 4096) -> Q newsz s') ->
  (forall s' own' H', pt_ok s' own' H' -> (forall p t, own p = Some t -> own' p = Some t) -> (forall q, H q -> H' q) ->
     (forall root' va', own root' = Some (root', 2, 0) -> 0 <= va' < MAXVA ->
        valid (entry (pm s') root' va') = true \/ valid (entry (pm s) root' va') = true ->
        entry (pm s') root' va' = entry (pm s) root' va') ->
     (forall x, H (page_of x) -> own (page_of x) = None -> pm s' x = pm s x) -> Q 0 s') ->
  wp (uvmalloc root oldsz newsz xperm) s Q.
Proof.
  intros K Hr Hsz Hmax Hxp o perm Hun HQ HQ0. unfold uvmalloc. rewrite (proj2 (Z.ltb_ge newsz oldsz)) by lia.
  unfold MAXVA in Hmax. destruct (PGROUNDUP_spec oldsz) as [Ho1 Ho2]; [lia|]. destruct (PGROUNDUP_spec newsz) as [Hn1 Hn2]; [lia|].
  fold o in Ho1, Ho2 |- *. set (N := PGROUNDUP newsz) in *.
  assert (N <= 2 ^ 38) as HN by (change (2 ^ 38) with 274877906944 in *; dlia).
  assert (0 <= perm < 1024 /\ Z.land perm PTE_R <> 0) as [Hp Hpr].
  { assert (forall a b, 0 <= a < 1024 -> 0 <= b < 1024 -> 0 <= Z.lor a b < 1024) as Hlor.
    { intros a b Ha Hb. split; [apply Z.lor_nonneg; lia|].
      destruct (decide (Z.lor a b = 0)) as [->|]; [lia|]. assert (0 <= Z.lor a b) by (apply Z.lor_nonneg; lia).
      apply Z.log2_lt_cancel. rewrite Z.log2_lor by lia. change (Z.log2 1024) with 10.
      assert (forall z, 0 <= z < 1024 -> Z.log2 z < 10) as Hl.
      { intros z Hz. destruct (decide (z = 0)) as [->|]; [simpl; lia|]. apply Z.log2_lt_pow2; lia. }
      pose proof (Hl a Ha). pose proof (Hl b Hb). lia. }
    split; [apply Hlor; [apply Hlor; unfold PTE_R, PTE_U; lia | done]|].
    unfold perm. rewrite !Z.land_lor_distr_l. intros E. apply Z.lor_eq_0_iff in E as [E _].
    apply Z.lor_eq_0_iff in E as [E _]. done. }
  apply (wp_loop (fun a s1 => exists j own1 H1 f, 0 <= j /\ a = o + 4096 * j /\ (0 < j -> o + 4096 * j <= N)
      /\ grown_by s own H s1 own1 H1 root o perm f j)
    (fun a => Z.to_nat ((N - a) / 4096))).
  - intros a s1 (j & own1 & H1 & f & Hj & -> & HjN & G).
    destruct (o + 4096 * j <? newsz) eqn:E; bool_prop.
    2:{ apply wp_ret. assert ((N - o) / 4096 = j \/ (j = 0 /\ N = o)) as Hjn by dlia.
        apply (HQ s1 own1 H1 f). destruct Hjn as [-> | [-> ->]]; [done|]. by rewrite Z.sub_diag. }
    pose proof (gb_ok _ _ _ _ _ _ _ _ _ _ _ G) as K1.
    assert (o + 4096 * (j + 1) <= N) as Hj1 by dlia.
    assert (forall va', o <= va' < o + 4096 * j -> valid (entry (pm s) root va') = false) as Hunj by (intros; apply Hun; lia).
    wp_step. unfold kalloc. wp_step. eapply wp_mono; [by apply pa_alloc_ok, (pt_held _ _ _ K1)|].
    intros q a' [[-> Ha']|(Hg & Hf & Ha')]; cbn beta.
    { rewrite Z.eqb_refl. wp_step.
      assert (grown_by s own H (mkVms (pm s1) a') own1 H1 root o perm f j) as G'.
      { eapply grown_by_grow; [exact G | apply ext_grow, ext_alloc_none; done | done]. }
      apply (uvmdealloc_undo_wp _ _ _ _ _ _ _ _ _ _ _ _ G' Hr); try done; try (unfold MAXVA; lia).
      intros r s' H' K' HH He Hm. apply wp_ret. apply (HQ0 s' own1 H'); try done.
      apply (gb_own _ _ _ _ _ _ _ _ _ _ _ G). }
    rewrite (proj2 (Z.eqb_neq q 0)) by (destruct Hg; lia).
    wp_step. unfold on_mem. wp_step. cbn [pm al set_pm set_al].
    destruct (fresh_zero s1 own1 H1 q a' K1 Hg Hf Ha') as (K2 & Hoq & He2 & Hz & Hnz).
    pose proof (gb_own _ _ _ _ _ _ _ _ _ _ _ G _ _ Hr) as Hr1.
    wp_step. apply (mappages_wp root (o + 4096 * j) PGSIZE q perm _ own1 (fun y => y = q \/ H1 y)); try done;
      try (unfold PGSIZE, MAXVA; lia); try (unfold PGSIZE; dlia).
    { intros k Hk. change (PGSIZE / 4096) with 1 in Hk. assert (k = 0) as -> by lia. by rewrite Z.add_0_r. }
    { unfold PGSIZE. intros va' Hva'. rewrite He2 by done.
      rewrite (gb_ent _ _ _ _ _ _ _ _ _ _ _ G) by (try done; unfold MAXVA; lia).
      rewrite bool_decide_false by lia. apply Hun. lia. }
    intros r s3 own3 H3 k Gr Hmap Hres _. change (PGSIZE / 4096) with 1 in Hres.
    destruct Hres as [[-> ->]|[-> Hk]].
    + rewrite Z.eqb_refl. cbn [negb]. apply wp_ret. unfold PGSIZE. rewrite u64_small by lia.
      split; [|dlia]. exists (j + 1), own3, H3, (fun i => if i =? j then q else f i).
      split; [lia|]. split; [lia|]. split; [lia|].
      by apply (grown_by_step s own H s1 own1 H1 root o perm f j q a' s3 own3 H3).
    + assert (k = 0) as -> by lia. rewrite (proj2 (Z.eqb_neq (-1) 0)) by lia. cbn [negb].
      wp_step. unfold kfree. wp_step.
      destruct Gr as [K3 Ho3 Hn3 Hh3 Hm3].
      assert (own3 q = None) as Ho3q.
      { destruct (own3 q) eqn:E3; [|done]. exfalso. apply (Hn3 q Hoq); [congruence | by left]. }
      eapply wp_mono; [apply (pa_free_ok _ _ q (pt_held _ _ _ K3)); apply Hh3; left; by left|].
      intros [] a2 Ha2. cbn beta.
      set (H4 := fun y => H1 y \/ own3 y <> None).
      assert (pa_held a2 H4) as Ha4.
      { eapply pa_weaken; [|exact Ha2]. intros y Hy. split.
        - intros ->. destruct Hy; [done | congruence].
        - apply Hh3. destruct Hy; [left; by right | by right]. }
      assert (grow s1 own1 H1 (set_al a2 s3) own3 H4) as Gr4.
      { constructor; try done.
        - destruct K3 as [_ Kb Kp Ke]. constructor; simpl; try done.
          intros p r l x Ep. destruct (Kp p r l x Ep) as (_ & ? & ? & ?). split; [right; congruence | done].
        - intros p E1 E3. intros Hp1. apply (Hn3 p E1 E3). by right.
        - intros x Hx Ex. simpl. rewrite Hm3; [|by right | done]. apply Hnz. intros Eq. apply Hf. by rewrite <- Eq. }
      assert (grown_by s own H (set_al a2 s3) own3 H4 root o perm f j) as G'.
      { eapply grown_by_grow; [exact G | exact Gr4 |]. intros root' va' Hr' Hva'. simpl.
        rewrite Hmap by done. rewrite bool_decide_false by lia. by apply He2. }
      wp_step. apply (uvmdealloc_undo_wp _ _ _ _ _ _ _ _ _ _ _ _ G' Hr); try done; try (unfold MAXVA; lia).
      intros r s' H' K' HH He Hm. apply wp_ret. apply (HQ0 s' own3 H'); try done.
      intros p t Ep. apply Ho3. by apply (gb_own _ _ _ _ _ _ _ _ _ _ _ G).
  - exists 0, own, H, (fun _ => 0). split; [lia|]. split; [lia|]. split; [lia|]. by apply grown_by_refl.
  - unfold PGSIZE. assert ((N - o) / 4096 <= (newsz - o) / 4096 + 1) by dlia. lia.
Qed.

(** ** copyout and copyin *)

Definition phys (m : mem) (root va : Z) : Z := PTE2PA (entry m root va) + va mod 4096.

(** A user may write, or at least use, the page. *)
Definition user_page (e : Z) : bool := negb (Z.land e PTE_V =? 0) && negb (Z.land e PTE_U =? 0).
Definition user_writable (e : Z) : bool := user_page e && negb (Z.land e PTE_W =? 0).

(** The user's frames are pages of their own: not page tables, and not
    shared between two pages of the address space. *)
Record user_ok (m : mem) (own : owner) (root : Z) : Prop := {
  us_frame : forall va, 0 <= va < MAXVA -> user_page (entry m root va) = true ->
    good_page (PTE2PA (entry m root va)) /\ own (PTE2PA (entry m root va)) = None;
  us_inj : forall va va', 0 <= va < MAXVA -> 0 <= va' < MAXVA ->
    user_page (entry m root va) = true -> user_page (entry m root va') = true ->
    PTE2PA (entry m root va) = PTE2PA (entry m root va') -> va / 4096 = va' / 4096
}.

(** [a, a+len) is a buffer of the kernel's: no page table and none of the
    user's frames. *)
Definition kbuf (m : mem) (own : owner) (root a len : Z) : Prop :=
  forall x, a <= x < a + len -> own (page_of x) = None
    /\ forall va, 0 <= va < MAXVA -> user_page (entry m root va) = true -> PTE2PA (entry m root va) <> page_of x.

(** The first [c] bytes of [len] moved: [to_ i] got what [from i] held, and
    nothing else changed. *)
Definition moved (m m' : mem) (to_ from : Z -> Z) (c : Z) : Prop :=
  (forall i, 0 <= i < c -> m' (to_ i) = m (from i))
  /\ (forall x, (forall i, 0 <= i < c -> x <> to_ i) -> m' x = m x).

Lemma entry_same_page m root va va' :
  0 <= va < MAXVA -> 0 <= va' < MAXVA -> va / 4096 = va' / 4096 -> entry m root va = entry m root va'.
Proof. intros H1 H2 E. unfold entry. by rewrite (walk_at_same_page m root va va'). Qed.

Lemma memmove_bytes dst src n m : 0 <= n -> bytes_mem m -> bytes_mem (memmove dst src n m).
Proof. intros Hn H x. rewrite memmove_spec by done. case_if; apply H. Qed.

(** Moving one more chunk of [n] bytes. *)
Lemma moved_chunk m m1 to_ from c n :
  0 <= c -> 0 <= n -> moved m m1 to_ from c ->
  (forall i, c <= i < c + n -> to_ i = to_ c + (i - c)) ->
  (forall i, c <= i < c + n -> from i = from c + (i - c)) ->
  (forall i j, 0 <= i < c -> c <= j < c + n -> to_ i <> to_ j) ->
  (forall i j, 0 <= i < c -> c <= j < c + n -> from j <> to_ i) ->
  moved m (memmove (to_ c) (from c) n m1) to_ from (c + n).
Proof.
  intros Hc Hn [Hin Hout] Ht Hf Hdis Hsrc. split.
  - intros i Hi. rewrite memmove_spec by done. destruct (Z.lt_ge_cases i c).
    + destruct ((to_ c <=? to_ i) && (to_ i <? to_ c + n)) eqn:E; [|apply Hin; lia].
      exfalso. bool_prop. apply (Hdis i (c + (to_ i - to_ c))); [lia | lia |].
      rewrite (Ht (c + (to_ i - to_ c))) by lia. lia.
    + rewrite (Ht i) by lia. replace ((to_ c <=? to_ c + (i - c)) && (to_ c + (i - c) <? to_ c + n)) with true
        by (symmetry; apply andb_true_iff; lia).
      replace (from c + (to_ c + (i - c) - to_ c)) with (from i) by (rewrite Hf by lia; lia).
      apply Hout. intros j Hj. apply Hsrc; lia.
  - intros x Hx. rewrite memmove_spec by done. destruct ((to_ c <=? x) && (x <? to_ c + n)) eqn:E.
    + exfalso. bool_prop. apply (Hx (c + (x - to_ c))); [lia|]. rewrite Ht by lia. lia.
    + apply Hout. intros i Hi. apply Hx. lia.
Qed.

Section Copy.
  Context (s : vms A) (own : owner) (H : Z -> Prop) (root uva kva len : Z).
  Hypothesis K : pt_ok s own H.
  Hypothesis Hroot : own root = Some (root, 2, 0).
  Hypothesis Hu : user_ok (pm s) own root.
  Hypothesis Huva : 0 <= uva < 2 ^ 64.
  Hypothesis Hlen : 0 <= len < 2 ^ 63.
  Hypothesis Hk : kbuf (pm s) own root kva len.

#[local] Definition ph (i : Z) : Z := phys (pm s) root (uva + i).
#[local] Definition kb (i : Z) : Z := kva + i.

#[local] Lemma ph_page i : 0 <= uva + i < MAXVA -> user_page (entry (pm s) root (uva + i)) = true ->
  page_of (ph i) = PTE2PA (entry (pm s) root (uva + i)).
Proof.
  intros Hr Hp. destruct (us_frame _ _ _ Hu _ Hr Hp) as [(Hm & _) _]. unfold ph, phys, page_of. dlia.
Qed.

(** The state during the copy: same tables and translations. *)
#[local] Lemma frame_ok s1 :
  (forall x, own (page_of x) <> None -> pm s1 x = pm s x) -> bytes_mem (pm s1) -> al s1 = al s ->
  pt_ok s1 own H /\ (forall va, entry (pm s1) root va = entry (pm s) root va)
  /\ (forall va, walk_at 2 (pm s1) root va = walk_at 2 (pm s) root va).
Proof.
  intros Hx Hb Ha. destruct s1 as [m1 a1]. simpl in *. subst a1.
  destruct (pt_frame s own H m1 (al s) H K (pt_held _ _ _ K)) as (K1 & He & Hw); try done.
  split; [done|]. split; [intros va; rewrite !entry_ent; exact (He 2%nat root root 0 va Hroot)|].
  intros va. exact (Hw 2%nat root root 0 va Hroot).
Qed.

(** Bytes of one chunk lie in one user page. *)
#[local] Lemma chunk_facts c n :
  0 <= c -> 0 <= uva + c < MAXVA -> user_page (entry (pm s) root (uva + c)) = true ->
  0 < n -> n <= 4096 - (uva + c) mod 4096 ->
  forall i, c <= i < c + n -> 0 <= uva + i < MAXVA /\ entry (pm s) root (uva + i) = entry (pm s) root (uva + c)
    /\ ph i = ph c + (i - c).
Proof.
  intros Hc Hr Hp Hn Hn2 i Hi. unfold MAXVA in *. change (2 ^ 38) with 274877906944 in *.
  assert (0 <= uva + i < 274877906944) as Hr' by dlia.
  assert (entry (pm s) root (uva + i) = entry (pm s) root (uva + c)) as E
    by (apply entry_same_page; [done | done | dlia]).
  split; [done|]. split; [done|]. unfold ph, phys. rewrite E. dlia.
Qed.

(** What is known after [c] bytes, each at a usable user address. *)
#[local] Definition usable (ok : Z -> bool) (c : Z) : Prop :=
  forall i, 0 <= i < c -> 0 <= uva + i < MAXVA /\ ok (entry (pm s) root (uva + i)) = true.

#[local] Lemma writable_page e : user_writable e = true -> user_page e = true.
Proof. unfold user_writable. intros E. by apply andb_true_iff in E as [E _]. Qed.

(** Addresses written by a copy out are never table pages. *)
#[local] Lemma out_not_table c m1 :
  usable user_writable c -> moved (pm s) m1 ph kb c ->
  forall x, own (page_of x) <> None -> m1 x = pm s x.
Proof.
  intros Hus [_ Hout] x Hx. apply Hout. intros i Hi ->. destruct (Hus i Hi) as [Hr Hw].
  apply writable_page in Hw. rewrite (ph_page i Hr Hw) in Hx.
  destruct (us_frame _ _ _ Hu _ Hr Hw) as [_ Ho]. congruence.
Qed.

#[local] Lemma in_not_table c m1 :
  0 <= c <= len -> moved (pm s) m1 kb ph c -> forall x, own (page_of x) <> None -> m1 x = pm s x.
Proof.
  intros Hc [_ Hout] x Hx. apply Hout. intros i Hi ->. destruct (Hk (kb i)) as [Ho _]; [unfold kb; lia | congruence].
Qed.

(** How the copy ends: all bytes moved, or stopped at an unusable address. *)
Definition copy_ends (ok : Z -> bool) (to_ from : Z -> Z) (r : Z) (s' : vms A) : Prop :=
  al s' = al s /\ bytes_mem (pm s')
  /\ (forall va, entry (pm s') root va = entry (pm s) root va)
  /\ pt_ok s' own H
  /\ ((r = 0 /\ usable ok len /\ moved (pm s) (pm s') to_ from len)
      \/ (r = -1 /\ exists c, 0 <= c < len /\ usable ok c /\ moved (pm s) (pm s') to_ from c
          /\ (MAXVA <= uva + c \/ ok (entry (pm s) root (uva + c)) = false))).

#[local] Lemma page_base va : 0 <= va -> page_of va < MAXVA -> 0 <= va < MAXVA /\ entry (pm s) root (page_of va) = entry (pm s) root va.
Proof.
  intros Hv Hp. unfold MAXVA, page_of in *. change (2 ^ 38) with 274877906944 in *.
  assert (0 <= va < 274877906944) by dlia. split; [done|]. apply entry_same_page; unfold MAXVA; change (2 ^ 38) with 274877906944; dlia.
Qed.

#[local] Lemma kernel_not_user i j :
  0 <= i < len -> 0 <= uva + j < MAXVA -> user_page (entry (pm s) root (uva + j)) = true -> kb i <> ph j.
Proof.
  intros Hi Hr Hp E. destruct (Hk (kb i)) as [_ Hne]; [unfold kb; lia|].
  apply (Hne (uva + j) Hr Hp). rewrite E. by rewrite ph_page.
Qed.

Lemma copyout_wp (Q : Z -> vms A -> Prop) :
  (forall r s', copy_ends user_writable ph kb r s' -> Q r s') -> wp (copyout root uva kva len) s Q.
Proof.
  intros HQ. unfold copyout.
  apply (wp_loop (fun x s1 => let '(dva, src, l) := x in exists c, 0 <= c <= len /\ l = len - c /\ src = kb c
      /\ (0 < l -> dva = uva + c /\ 0 <= dva /\ (0 < c -> dva mod 4096 = 0))
      /\ usable user_writable c /\ moved (pm s) (pm s1) ph kb c /\ bytes_mem (pm s1) /\ al s1 = al s)
    (fun x => let '(dva, src, l) := x in Z.to_nat ((l + dva mod 4096 + 4095) / 4096))).
  - intros [[dva src] l] s1 (c & Hc & -> & -> & Hd & Hus & Hmv & Hb & Ha).
    destruct (frame_ok s1 (out_not_table c _ Hus Hmv) Hb Ha) as (K1 & He1 & Hw1).
    assert (forall r, (r = 0 /\ c = len) \/ (r = -1 /\ c < len /\ (MAXVA <= uva + c \/ user_writable (entry (pm s) root (uva + c)) = false)) -> Q r s1) as Hend.
    { intros r Hr. apply HQ. split; [done|]. split; [done|]. split; [done|]. split; [done|].
      destruct Hr as [[-> ->]|(-> & Hlt & Hbad)]; [left; auto | right]. split; [done|]. exists c. split; [lia|]. auto. }
    destruct (0 <? len - c) eqn:El; bool_prop; [|apply wp_ret, Hend; left; split; [done | lia]].
    destruct (Hd El) as (-> & Hd0 & Hd2). rewrite PGROUNDDOWN_mod. fold (page_of (uva + c)).
    destruct (MAXVA <=? page_of (uva + c)) eqn:Emax; bool_prop.
    { apply wp_ret, Hend. right. split; [done|]. split; [lia|]. left. unfold page_of in Emax.
      pose proof (Z.mod_pos_bound (uva + c) 4096). lia. }
    destruct (page_base (uva + c) Hd0 Emax) as [Hr Hpe].
    wp_step. apply walk_noalloc_wp; [done|].
    assert (user_writable (entry (pm s) root (uva + c)) = false -> Q (-1) s1) as Hbad
      by (intros; apply Hend; right; split; [done|]; split; [lia | by right]).
    assert (entry (pm s1) root (page_of (uva + c)) = entry (pm s) root (uva + c)) as Ee by (by rewrite He1).
    unfold entry at 1 in Ee. destruct (walk_at 2 (pm s1) root (page_of (uva + c))) as [ap|] eqn:Ew.
    2:{ apply wp_ret, Hbad. by rewrite <- Ee. }
    destruct (walk_at_own s1 own H K1 2 root root 0 _ ap Hroot Ew) as (p0 & Hp0 & Eap).
    destruct (pt_page _ _ _ K1 _ _ _ _ Hp0) as (_ & (_ & Hp00 & _) & _). pose proof (PX_range 0 (page_of (uva + c))).
    rewrite (proj2 (Z.eqb_neq ap 0)) by lia. wp_step. unfold rd64. wp_step. rewrite Ee.
    set (e := entry (pm s) root (uva + c)) in *.
    assert ((Z.land e PTE_V =? 0) || (Z.land e PTE_U =? 0) || (Z.land e PTE_W =? 0) = negb (user_writable e)) as ->.
    { unfold user_writable, user_page. by destruct (Z.land e PTE_V =? 0), (Z.land e PTE_U =? 0), (Z.land e PTE_W =? 0). }
    destruct (user_writable e) eqn:Eok; cbn [negb]; [|by apply wp_ret, Hbad].
    pose proof (writable_page e Eok) as Hup.
    assert (uva + c - page_of (uva + c) = (uva + c) mod 4096) as Hoff by (unfold page_of; lia).
    rewrite Hoff. unfold PGSIZE. pose proof (Z.mod_pos_bound (uva + c) 4096 ltac:(lia)) as Hmod.
    set (n := if len - c <? 4096 - (uva + c) mod 4096 then len - c else 4096 - (uva + c) mod 4096).
    assert (0 < n <= len - c /\ n <= 4096 - (uva + c) mod 4096 /\ (n < len - c -> n = 4096 - (uva + c) mod 4096)) as (Hn & Hn2 & Hn3)
      by (subst n; case_if; lia).
    pose proof (chunk_facts c n ltac:(lia) Hr Hup ltac:(lia) Hn2) as Hch.
    wp_step. unfold on_mem. wp_step. wp_step.
    change (PTE2PA e + (uva + c) mod 4096) with (ph c).
    assert (moved (pm s) (memmove (ph c) (kb c) n (pm s1)) ph kb (c + n)) as Hmv2.
    { apply moved_chunk; try done; try lia.
      - intros i Hi. by apply Hch.
      - intros i Hi. unfold kb. lia.
      - intros i j Hi Hj E. destruct (Hus i Hi) as [Hri Hwi]. apply writable_page in Hwi.
        destruct (Hch j Hj) as (Hrj & Hej & _).
        assert (user_page (entry (pm s) root (uva + j)) = true) as Hwj by (by rewrite Hej).
        apply (f_equal page_of) in E. rewrite (ph_page i Hri Hwi), (ph_page j Hrj Hwj) in E.
        apply (us_inj _ _ _ Hu) in E; try done. specialize (Hd2 ltac:(lia)).
        unfold MAXVA in *. change (2 ^ 38) with 274877906944 in *. dlia.
      - intros i j Hi Hj. destruct (Hus i Hi) as [Hri Hwi]. apply writable_page in Hwi.
        apply kernel_not_user; try done. lia. }
    assert (usable user_writable (c + n)) as Hus2.
    { intros i Hi. destruct (Z.lt_ge_cases i c); [apply Hus; lia|]. destruct (Hch i ltac:(lia)) as (? & -> & _). done. }
    unfold MAXVA in *. change (2 ^ 38) with 274877906944 in *.
    rewrite u64_small by (unfold page_of in *; lia). split.
    + exists (c + n). split; [lia|]. split; [lia|]. split; [unfold kb; lia|]. split.
      * intros Hl. specialize (Hn3 ltac:(lia)). unfold page_of. split; [lia|]. split; [lia|]. intros _. dlia.
      * split; [exact Hus2|]. split; [exact Hmv2|]. split; [by apply memmove_bytes; [lia|] | done].
    + assert (0 < (len - c + (uva + c) mod 4096 + 4095) / 4096) by (apply Z.div_str_pos; lia).
      assert ((page_of (uva + c) + 4096) mod 4096 = 0) as -> by (unfold page_of; dlia).
      assert ((len - c - n + 0 + 4095) / 4096 < (len - c + (uva + c) mod 4096 + 4095) / 4096); [|lia].
      destruct (Z.lt_ge_cases n (len - c)); [specialize (Hn3 ltac:(lia)); dlia|]. assert (n = len - c) by lia. dlia.
  - exists 0. split; [lia|]. split; [lia|]. split; [unfold kb; lia|]. split; [intros _; split; [lia|]; split; [lia|]; lia|].
    split; [intros i Hi; lia|]. split; [|split; [apply (pt_bytes _ _ _ K) | done]].
    split; [intros i Hi; lia | done].
  - unfold PGSIZE. pose proof (Z.mod_pos_bound uva 4096 ltac:(lia)). dlia.
Qed.

Lemma walkaddr_wp s1 va (Q : Z -> vms A -> Prop) :
  pt_ok s1 own H ->
  Q (if va <? MAXVA then (if user_page (entry (pm s1) root va) then PTE2PA (entry (pm s1) root va) else 0) else 0) s1 ->
  wp (walkaddr root va) s1 Q.
Proof.
  intros K1 HQ. unfold walkaddr. destruct (MAXVA <=? va) eqn:E; bool_prop.
  { apply wp_ret. by rewrite (proj2 (Z.ltb_ge va MAXVA)) in HQ by done. }
  rewrite (proj2 (Z.ltb_lt va MAXVA)) in HQ by done. wp_step. apply walk_noalloc_wp; [done|].
  unfold entry in HQ. destruct (walk_at 2 (pm s1) root va) as [ap|] eqn:Ew; [|by apply wp_ret].
  destruct (walk_at_own s1 own H K1 2 root root 0 _ ap Hroot Ew) as (p0 & Hp0 & Eap).
  destruct (pt_page _ _ _ K1 _ _ _ _ Hp0) as (_ & (_ & Hp00 & _) & _). pose proof (PX_range 0 va).
  rewrite (proj2 (Z.eqb_neq ap 0)) by lia. wp_step. unfold rd64. wp_step. unfold user_page in HQ.
  destruct (Z.land (load64 (pm s1) ap) PTE_V =? 0), (Z.land (load64 (pm s1) ap) PTE_U =? 0); by apply wp_ret.
Qed.

Lemma copyin_wp (Q : Z -> vms A -> Prop) :
  (forall r s', copy_ends user_page kb ph r s' -> Q r s') -> wp (copyin root kva uva len) s Q.
Proof.
  intros HQ. unfold copyin.
  apply (wp_loop (fun x s1 => let '(dst, sva, l) := x in exists c, 0 <= c <= len /\ l = len - c /\ dst = kb c
      /\ (0 < l -> sva = uva + c /\ 0 <= sva)
      /\ usable user_page c /\ moved (pm s) (pm s1) kb ph c /\ bytes_mem (pm s1) /\ al s1 = al s)
    (fun x => let '(dst, sva, l) := x in Z.to_nat ((l + sva mod 4096 + 4095) / 4096))).
  - intros [[dst sva] l] s1 (c & Hc & -> & -> & Hd & Hus & Hmv & Hb & Ha).
    destruct (frame_ok s1 (in_not_table c _ Hc Hmv) Hb Ha) as (K1 & He1 & Hw1).
    assert (forall r, (r = 0 /\ c = len) \/ (r = -1 /\ c < len /\ (MAXVA <= uva + c \/ user_page (entry (pm s) root (uva + c)) = false)) -> Q r s1) as Hend.
    { intros r Hr. apply HQ. split; [done|]. split; [done|]. split; [done|]. split; [done|].
      destruct Hr as [[-> ->]|(-> & Hlt & Hbad)]; [left; auto | right]. split; [done|]. exists c. split; [lia|]. auto. }
    destruct (0 <? len - c) eqn:El; bool_prop; [|apply wp_ret, Hend; left; split; [done | lia]].
    destruct (Hd El) as (-> & Hd0). rewrite PGROUNDDOWN_mod. fold (page_of (uva + c)).
    wp_step. apply walkaddr_wp; [done|].
    destruct (page_of (uva + c) <? MAXVA) eqn:Emax; bool_prop.
    2:{ apply wp_ret, Hend. right. split; [done|]. split; [lia|]. left. unfold page_of in Emax.
        pose proof (Z.mod_pos_bound (uva + c) 4096). lia. }
    destruct (page_base (uva + c) Hd0 Emax) as [Hr Hpe]. rewrite He1, Hpe.
    set (e := entry (pm s) root (uva + c)) in *.
    destruct (user_page e) eqn:Hup; [|apply wp_ret, Hend; right; split; [done|]; split; [lia | by right]].
    destruct (us_frame _ _ _ Hu _ Hr Hup) as [(_ & Hpos & _) _]. fold e in Hpos.
    rewrite (proj2 (Z.eqb_neq (PTE2PA e) 0)) by lia.
    assert (uva + c - page_of (uva + c) = (uva + c) mod 4096) as Hoff by (unfold page_of; lia).
    rewrite Hoff. unfold PGSIZE. pose proof (Z.mod_pos_bound (uva + c) 4096 ltac:(lia)) as Hmod.
    set (n := if len - c <? 4096 - (uva + c) mod 4096 then len - c else 4096 - (uva + c) mod 4096).
    assert (0 < n <= len - c /\ n <= 4096 - (uva + c) mod 4096 /\ (n < len - c -> n = 4096 - (uva + c) mod 4096)) as (Hn & Hn2 & Hn3)
      by (subst n; case_if; lia).
    pose proof (chunk_facts c n ltac:(lia) Hr Hup ltac:(lia) Hn2) as Hch.
    wp_step. unfold on_mem. wp_step. wp_step.
    change (PTE2PA e + (uva + c) mod 4096) with (ph c).
    assert (moved (pm s) (memmove (kb c) (ph c) n (pm s1)) kb ph (c + n)) as Hmv2.
    { apply moved_chunk; try done; try lia.
      - intros i Hi. unfold kb. lia.
      - intros i Hi. by apply Hch.
      - intros i j Hi Hj. unfold kb. lia.
      - intros i j Hi Hj E. destruct (Hch j Hj) as (Hrj & Hej & _).
        apply (kernel_not_user i j); [lia | done | by rewrite Hej | done]. }
    assert (usable user_page (c + n)) as Hus2.
    { intros i Hi. destruct (Z.lt_ge_cases i c); [apply Hus; lia|]. destruct (Hch i ltac:(lia)) as (? & -> & _). done. }
    unfold MAXVA in *. change (2 ^ 38) with 274877906944 in *.
    rewrite u64_small by (unfold page_of in *; lia). split.
    + exists (c + n). split; [lia|]. split; [lia|]. split; [unfold kb; lia|]. split.
      * intros Hl. specialize (Hn3 ltac:(lia)). unfold page_of. split; lia.
      * split; [exact Hus2|]. split; [exact Hmv2|]. split; [by apply memmove_bytes; [lia|] | done].
    + assert (0 < (len - c + (uva + c) mod 4096 + 4095) / 4096) by (apply Z.div_str_pos; lia).
      assert ((page_of (uva + c) + 4096) mod 4096 = 0) as -> by (unfold page_of; dlia).
      assert ((len - c - n + 0 + 4095) / 4096 < (len - c + (uva + c) mod 4096 + 4095) / 4096); [|lia].
      destruct (Z.lt_ge_cases n (len - c)); [specialize (Hn3 ltac:(lia)); dlia|]. assert (n = len - c) by lia. dlia.
  - exists 0. split; [lia|]. split; [lia|]. split; [unfold kb; lia|]. split; [intros _; split; lia|].
    split; [intros i Hi; lia|]. split; [|split; [apply (pt_bytes _ _ _ K) | done]].
    split; [intros i Hi; lia | done].
  - unfold PGSIZE. pose proof (Z.mod_pos_bound uva 4096 ltac:(lia)). dlia.
Qed.

End Copy.

End Spec.
