(* ===== verification/VmThms.v ===== *)
(** * The theorems on address spaces, and kalloc as the page allocator

    The buddy allocator's [kalloc] and [kfree] keep the promises of
    [PageAllocator], so the theorems hold for the kernel as it is put
    together; a bump allocator is a second, small instance on which the
    witnesses compute. *)

From S2P Require Import Prelude Spinlock KString Buddy BuddyInv BuddySpec Vm VmWalk VmSpec.

(** ** kalloc.c is a page allocator *)

(** The heap starts on a page boundary and lies where PTEs can reach. *)
Definition page_region (g : region) : Prop := lo g mod 4096 = 0 /\ ahi g <= 2 ^ 55.

Definition bd_held (s : bd) (H : Z -> Prop) : Prop :=
  exists g A, rep g s A /\ page_region g /\ forall p, H p -> (p, 4096) ∈ A.

Lemma bd_alloc_ok s H : bd_held s H ->
  wp Buddy.kalloc s (fun p s' => (p = 0 /\ bd_held s' H)
    \/ (good_page p /\ ~ H p /\ bd_held s' (fun q => q = p \/ H q))).
Proof.
  intros (g & A & Hrep & [Hlo Hahi] & HA). unfold Buddy.kalloc, PGSIZE.
  eapply wp_mono; [apply (malloc_sim g s A 4096 Hrep); lia|].
  intros p s' [Hga Hrep']. simpl in Hrep', Hga. change (block_size 4096) with 4096 in *.
  destruct Hga as [[-> _]|(Hp & Ha & Hb & Hal & Hap)].
  - left. split; [done|]. by exists g, A.
  - right. rewrite (proj2 (Z.eqb_neq p 0)) in Hrep' by lia. split; [|split].
    + split; [dlia|]. lia.
    + intros HHp. specialize (Hap _ (HA p HHp)). unfold apart in Hap. simpl in Hap. lia.
    + exists g, ((p, 4096) :: A). split; [done|]. split; [done|].
      intros q [->|Hq]; [left | right; by apply HA].
Qed.

Lemma bd_free_ok s H p : bd_held s H -> H p ->
  wp (Buddy.kfree p) s (fun _ s' => bd_held s' (fun q => q <> p /\ H q)).
Proof.
  intros (g & A & Hrep & Hg & HA) Hp. eapply wp_mono; [apply (free_sim g s A p 4096 Hrep); by apply HA|].
  intros [] s' Hrep'. exists g, (after A (OFree p) 0). split; [done|]. split; [done|].
  intros q [Hq HHq]. simpl. apply list_elem_of_filter. split; [done | by apply HA].
Qed.

#[export] Instance buddy_pages : PageAllocator bd := {
  pa_alloc := Buddy.kalloc;
  pa_free := Buddy.kfree;
  pa_held := bd_held;
  pa_weaken := fun s H H' HH '(ex_intro _ g (ex_intro _ A (conj Hr (conj Hg HA)))) =>
    ex_intro _ g (ex_intro _ A (conj Hr (conj Hg (fun p Hp => HA p (HH p Hp)))));
  pa_alloc_ok := bd_alloc_ok;
  pa_free_ok := bd_free_ok
}.

(** ** A small allocator *)

(** Pages are handed out one after the other and never come back. *)
Definition bump : Type := Z.
Definition bump_alloc : M bump Z := fun n => if 2 ^ 54 <? n then Ret (0, n) else Ret (n, n + 4096).
Definition bump_held (n : bump) (H : Z -> Prop) : Prop := n mod 4096 = 0 /\ 4096 <= n /\ forall p, H p -> p < n.

#[export] Instance bump_pages : PageAllocator bump.
Proof.
  refine {| pa_alloc := bump_alloc; pa_free := fun _ => ret tt; pa_held := bump_held |}.
  - intros n H H' HH (? & ? & ?). split; [done|]. split; [done|]. auto.
  - intros n H (Hm & Hn & HH). unfold bump_alloc, wp. destruct (2 ^ 54 <? n) eqn:E; bool_prop.
    + exists 0, n. split; [done|]. left. split; [done|]. split; [done|]. auto.
    + exists n, (n + 4096). split; [done|]. right. split; [|split].
      * split; [done|]. change (2 ^ 55) with (2 * 2 ^ 54). lia.
      * intros Hx. specialize (HH n Hx). lia.
      * split; [dlia|]. split; [lia|]. intros p [->|Hp]; [lia|]. specialize (HH p Hp). lia.
  - intros n H p (Hm & Hn & HH) Hp. apply wp_ret. split; [done|]. split; [done|]. intros q [_ Hq]. auto.
Defined.

(** An empty page table at page 4096. *)
Definition v0 : vms bump := mkVms (fun _ => 0) 8192.
Definition own0 : owner := fun p => if p =? 4096 then Some (4096, 2, 0) else None.
Definition held0 : Z -> Prop := fun p => p = 4096.

Lemma v0_ok : pt_ok v0 own0 held0.
Proof.
  assert (forall a, load64 (pm v0) a = 0) as Hz by (intros a; by apply load64_zero).
  constructor.
  - split; [done|]. split; [simpl; lia|]. intros p ->. simpl. lia.
  - intros a. simpl. lia.
  - intros p r l x E. unfold own0 in E. case_if_in E; [|done]. injection E as <- <- <-. subst p.
    split; [done|]. split; [split; [done|]; lia|]. split; [lia | done].
  - intros p r l x i _ _ _. rewrite Hz. done.
Qed.

Lemma v0_entry va : entry (pm v0) 4096 va = 0.
Proof. apply ent_zero. intros i Hi. by apply load64_zero. Qed.

Section Theorems.
  Context {A : Type} `{PA : PageAllocator A}.

(** [mappages] of a range that is not mapped returns 0 with exactly the
    pages of the range translated, page by page, to the given physical pages
    with the given permissions, or -1 when a page-table page could not be
    allocated, with a shorter prefix mapped.  No other translation of this
    or of any other address space changes, and no page that was in use
    outside the page tables is written. *)
Theorem mappages_correct (root va size pa perm : Z) (s : vms A) (own : owner) (H : Z -> Prop) :
  pt_ok s own H -> own root = Some (root, 2, 0) ->
  va mod 4096 = 0 -> size mod 4096 = 0 -> 0 < size -> 0 <= va -> va + size <= MAXVA ->
  0 <= perm < 1024 -> (forall k, 0 <= k < size / 4096 -> good_page (pa + 4096 * k)) ->
  (forall va', va <= va' < va + size -> valid (entry (pm s) root va') = false) ->
  exists r s' own' H' k, mappages root va size pa perm s = Ret (r, s')
    /\ grow s own H s' own' H' /\ maps_range (pm s) (pm s') own root va pa perm k
    /\ ((r = 0 /\ k = size / 4096) \/ (r = -1 /\ 0 <= k < size / 4096)).
Proof.
  intros K Hr H1 H2 H3 H4 H5 H6 H7 H8.
  destruct (mappages_wp root va size pa perm s own H
    (fun r s' => exists own' H' k, grow s own H s' own' H' /\ maps_range (pm s) (pm s') own root va pa perm k
      /\ ((r = 0 /\ k = size / 4096) \/ (r = -1 /\ 0 <= k < size / 4096))) K Hr H1 H2 H3 H4 H5 H6 H7 H8)
    as (r & s' & E & own' & H' & k & Hx).
  - intros r s' own' H' k Hg Hm Hres _. exists own', H', k. auto.
  - exists r, s', own', H', k. auto.
Qed.

(** mapping a page that is already mapped is a panic, and changes
    nothing. *)
Theorem mappages_no_remap (root va pa perm : Z) (s : vms A) (own : owner) (H : Z -> Prop) :
  pt_ok s own H -> own root = Some (root, 2, 0) -> va mod 4096 = 0 -> 0 <= va < MAXVA ->
  valid (entry (pm s) root va) = true ->
  mappages root va PGSIZE pa perm s = Panic "mappages: remap".
Proof. apply mappages_remap. Qed.

(** [uvmunmap] of mapped leaf pages returns with exactly these pages
    unmapped; with [do_free] their frames go back to the allocator and all
    else that was held stays held.  Other translations and the contents of
    all pages outside the page tables are as before. *)
Theorem uvmunmap_correct (root va n : Z) (do_free : bool) (s : vms A) (own : owner) (H : Z -> Prop) :
  pt_ok s own H -> own root = Some (root, 2, 0) -> va mod 4096 = 0 -> 0 <= va -> 0 <= n ->
  va + 4096 * n <= MAXVA -> removable s own H do_free root va n ->
  exists s', uvmunmap root va n do_free s = Ret (tt, s')
    /\ pt_ok s' own (minus_frames do_free (pm s) root va n H)
    /\ unmaps_range (pm s) (pm s') own root va n
    /\ (forall x, own (page_of x) = None -> pm s' x = pm s x).
Proof.
  intros K Hr H1 H2 H3 H4 H5.
  destruct (uvmunmap_wp root va n do_free s own H
    (fun _ s' => pt_ok s' own (minus_frames do_free (pm s) root va n H)
      /\ unmaps_range (pm s) (pm s') own root va n
      /\ (forall x, own (page_of x) = None -> pm s' x = pm s x)) K Hr H1 H2 H3 H4 H5) as ([] & s' & E & Hx); auto.
  exists s'. auto.
Qed.

(** [uvmalloc] from [oldsz] to [newsz] either returns [newsz] with every
    page between them mapped, readable and usable by the user, each to a
    frame of its own that was not in use before and holds zeros; or returns
    0, and then every translation is as before and what was held is still
    held: a failure in the middle is undone. *)
Theorem uvmalloc_correct (root oldsz newsz xperm : Z) (s : vms A) (own : owner) (H : Z -> Prop) :
  pt_ok s own H -> own root = Some (root, 2, 0) ->
  0 <= oldsz <= newsz -> newsz <= MAXVA -> 0 <= xperm < 1024 ->
  (forall va', PGROUNDUP oldsz <= va' < PGROUNDUP newsz -> valid (entry (pm s) root va') = false) ->
  exists r s' own' H', uvmalloc root oldsz newsz xperm s = Ret (r, s') /\ pt_ok s' own' H'
    /\ ((r = newsz /\ exists f, grown_by s own H s' own' H' root (PGROUNDUP oldsz)
           (Z.lor (Z.lor PTE_R PTE_U) xperm) f ((PGROUNDUP newsz - PGROUNDUP oldsz) / 4096))
        \/ (r = 0 /\ (forall q, H q -> H' q)
            /\ (forall root' va', own root' = Some (root', 2, 0) -> 0 <= va' < MAXVA ->
                 valid (entry (pm s') root' va') = true \/ valid (entry (pm s) root' va') = true ->
                 entry (pm s') root' va' = entry (pm s) root' va')
            /\ (forall x, H (page_of x) -> own (page_of x) = None -> pm s' x = pm s x))).
Proof.
  intros K Hr H1 H2 H3 H4.
  destruct (uvmalloc_wp root oldsz newsz xperm s own H (fun r s' => exists own' H', pt_ok s' own' H'
    /\ ((r = newsz /\ exists f, grown_by s own H s' own' H' root (PGROUNDUP oldsz)
           (Z.lor (Z.lor PTE_R PTE_U) xperm) f ((PGROUNDUP newsz - PGROUNDUP oldsz) / 4096))
        \/ (r = 0 /\ (forall q, H q -> H' q)
            /\ (forall root' va', own root' = Some (root', 2, 0) -> 0 <= va' < MAXVA ->
                 valid (entry (pm s') root' va') = true \/ valid (entry (pm s) root' va') = true ->
                 entry (pm s') root' va' = entry (pm s) root' va')
            /\ (forall x, H (page_of x) -> own (page_of x) = None -> pm s' x = pm s x)))) K Hr H1 H2 H3 H4)
    as (r & s' & E & own' & H' & Hx).
  - intros s' own' H' f G. exists own', H'. split; [apply (gb_ok _ _ _ _ _ _ _ _ _ _ _ G)|]. left. eauto.
  - intros s' own' H' K' Ho HH He Hm. exists own', H'. split; [done|]. right. auto.
  - exists r, s', own', H'. auto.
Qed.

(** [copyout] returns 0 exactly when every byte of the destination lies
    in a page that is mapped, a user page and writable; then the bytes are
    where the page table says and nothing else has changed.  Otherwise it
    returns -1 having written only the bytes before the first bad page. *)
Theorem copyout_correct (s : vms A) (own : owner) (H : Z -> Prop) (root dstva src len : Z) :
  pt_ok s own H -> own root = Some (root, 2, 0) -> user_ok (pm s) own root ->
  0 <= dstva < 2 ^ 64 -> 0 <= len < 2 ^ 63 -> kbuf (pm s) own root src len ->
  exists r s', copyout root dstva src len s = Ret (r, s')
    /\ copy_ends s own H root dstva len user_writable
         (fun i => phys (pm s) root (dstva + i)) (fun i => src + i) r s'.
Proof.
  intros K Hr Hu Hd Hl Hk.
  destruct (copyout_wp s own H root dstva src len K Hr Hu Hd Hl Hk
    (fun r s' => copy_ends s own H root dstva len user_writable
       (fun i => phys (pm s) root (dstva + i)) (fun i => src + i) r s')) as (r & s' & E & Hx); auto.
  exists r, s'. auto.
Qed.

(** Bytes written to user memory with [copyout] and read back with
    [copyin] are the bytes that were written. *)
Theorem copyout_copyin_roundtrip (s s1 : vms A) (own : owner) (H : Z -> Prop) (root va src dst len : Z) :
  pt_ok s own H -> own root = Some (root, 2, 0) -> user_ok (pm s) own root ->
  0 <= va < 2 ^ 64 -> 0 <= len < 2 ^ 63 ->
  kbuf (pm s) own root src len -> kbuf (pm s) own root dst len ->
  copyout root va src len s = Ret (0, s1) ->
  exists s2, copyin root dst va len s1 = Ret (0, s2)
    /\ forall i, 0 <= i < len -> pm s2 (dst + i) = pm s (src + i).
Proof.
  intros K Hr Hu Hd Hl Hks Hkd E1.
  destruct (copyout_wp s own H root va src len K Hr Hu Hd Hl Hks
    (fun r s' => copy_ends s own H root va len user_writable
       (fun i => phys (pm s) root (va + i)) (fun i => src + i) r s')) as (r & s1' & E & Hx); [auto|].
  rewrite E1 in E. injection E as <- <-. destruct Hx as (_ & _ & He & K1 & Hends).
  destruct Hends as [(_ & Hus & Hmv)|(? & _)]; [|done].
  assert (user_ok (pm s1) own root) as Hu1.
  { destruct Hu as [U1 U2]. constructor.
    - intros va' Hv. rewrite !He. by apply U1.
    - intros v1 v2 Hv1 Hv2. rewrite !He. by apply U2. }
  assert (kbuf (pm s1) own root dst len) as Hkd1.
  { intros x Hx. destruct (Hkd x Hx) as [? Hn]. split; [done|]. intros va' Hv. rewrite !He. by apply Hn. }
  destruct (copyin_wp s1 own H root va dst len K1 Hr Hu1 Hd Hl Hkd1
    (fun r s' => copy_ends s1 own H root va len user_page (fun i => dst + i)
       (fun i => phys (pm s1) root (va + i)) r s')) as (r & s2 & E2 & _ & _ & _ & _ & Hends2); [auto|].
  destruct Hends2 as [(-> & _ & Hmv2)|(_ & c & Hc & _ & _ & Hbad)].
  - exists s2. split; [done|]. intros i Hi. rewrite (proj1 Hmv2 i Hi).
    unfold phys at 1. rewrite He. by apply (proj1 Hmv).
  - exfalso. destruct (Hus c Hc) as [Hrange Hok]. rewrite He in Hbad.
    unfold user_writable in Hok. apply andb_true_iff in Hok as [Hok _]. destruct Hbad; [lia | congruence].
Qed.

End Theorems.

(** ** Witnesses *)

(** Two pages of user memory, grown from nothing on the bump allocator. *)
Definition v1_run := uvmalloc 4096 0 8192 PTE_W v0.

Lemma v1_ok : exists s1 own1 H1 f, v1_run = Ret (8192, s1) /\ al s1 < 2 ^ 30
  /\ grown_by v0 own0 held0 s1 own1 H1 4096 0 (Z.lor (Z.lor PTE_R PTE_U) PTE_W) f 2.
Proof.
  assert (match v1_run with Ret (r, s) => (r =? 8192) && (al s <? 2 ^ 30) | _ => false end = true) as Hrun
    by (vm_compute; reflexivity).
  destruct (uvmalloc_wp 4096 0 8192 PTE_W v0 own0 held0
    (fun r s' => r = 0 \/ exists own' H' f, grown_by v0 own0 held0 s' own' H' 4096 0 (Z.lor (Z.lor PTE_R PTE_U) PTE_W) f 2))
    as (r & s1 & E & Hx).
  - exact v0_ok.
  - done.
  - lia.
  - unfold MAXVA. lia.
  - unfold PTE_W. lia.
  - intros va' _. by rewrite v0_entry.
  - intros s' own' H' f G. right. exists own', H', f. exact G.
  - intros. by left.
  - assert (v1_run = Ret (r, s1)) as E1 by (unfold v1_run; exact E). rewrite E1 in Hrun.
    apply andb_true_iff in Hrun as [Hr Ha].
    apply Z.eqb_eq in Hr. apply Z.ltb_lt in Ha. subst r. destruct Hx as [Hx|(own1 & H1 & f & G)]; [discriminate Hx|].
    exists s1, own1, H1, f. split; [exact E1|]. split; [exact Ha | exact G].
Qed.

Lemma v1_entry s1 own1 H1 f va :
  grown_by v0 own0 held0 s1 own1 H1 4096 0 (Z.lor (Z.lor PTE_R PTE_U) PTE_W) f 2 -> 0 <= va < MAXVA ->
  entry (pm s1) 4096 va = if bool_decide (0 <= va < 8192) then pte_of (f (va / 4096)) 23 else 0.
Proof.
  intros G Hva. rewrite (gb_ent _ _ _ _ _ _ _ _ _ _ _ G) by done. rewrite v0_entry, Z.sub_0_r.
  destruct (decide (0 <= va < 8192)).
  - rewrite !bool_decide_true by (try split; lia). done.
  - rewrite !bool_decide_false by lia. done.
Qed.

Lemma v1_user s1 own1 H1 f :
  grown_by v0 own0 held0 s1 own1 H1 4096 0 (Z.lor (Z.lor PTE_R PTE_U) PTE_W) f 2 -> user_ok (pm s1) own1 4096.
Proof.
  intros G. assert (forall va, 0 <= va < MAXVA -> user_page (entry (pm s1) 4096 va) = true ->
    0 <= va / 4096 < 2 /\ entry (pm s1) 4096 va = pte_of (f (va / 4096)) 23 /\ PTE2PA (entry (pm s1) 4096 va) = f (va / 4096)) as Hp.
  { intros va Hva Hu. rewrite (v1_entry _ _ _ _ _ G Hva) in *. case_bool_decide; [|done].
    assert (0 <= va / 4096 < 2) as Hr by dlia. split; [done|]. split; [done|].
    apply pte_of_facts; [apply (gb_frame _ _ _ _ _ _ _ _ _ _ _ G _ Hr) | lia]. }
  constructor.
  - intros va Hva Hu. destruct (Hp va Hva Hu) as (Hr & _ & ->).
    destruct (gb_frame _ _ _ _ _ _ _ _ _ _ _ G _ Hr) as (? & _ & _ & ? & _). done.
  - intros va va' Hva Hva' Hu Hu'. destruct (Hp va Hva Hu) as (Hr & _ & ->). destruct (Hp va' Hva' Hu') as (Hr' & _ & ->).
    by apply (gb_inj _ _ _ _ _ _ _ _ _ _ _ G).
Qed.

(** Memory far above what the bump allocator has handed out. *)
Lemma v1_kbuf s1 own1 H1 f a len :
  grown_by v0 own0 held0 s1 own1 H1 4096 0 (Z.lor (Z.lor PTE_R PTE_U) PTE_W) f 2 -> al s1 < 2 ^ 30 ->
  2 ^ 31 <= a -> kbuf (pm s1) own1 4096 a len.
Proof.
  intros G Hal Ha. pose proof (gb_ok _ _ _ _ _ _ _ _ _ _ _ G) as K.
  assert (forall p, H1 p -> p < 2 ^ 30) as Hh.
  { intros p Hp. destruct (pt_held _ _ _ K) as (_ & _ & HH). specialize (HH p Hp). lia. }
  intros x Hx. assert (2 ^ 30 <= page_of x) as Hpx
    by (unfold page_of; pose proof (Z.mod_pos_bound x 4096 ltac:(lia)); change (2 ^ 31) with (2 * 2 ^ 30) in Ha; lia).
  split.
  - destruct (own1 (page_of x)) as [[[? ?] ?]|] eqn:E; [|done]. exfalso.
    destruct (pt_page _ _ _ K _ _ _ _ E) as (HHp & _). specialize (Hh _ HHp). lia.
  - intros va Hva Hu E. rewrite (v1_entry _ _ _ _ _ G Hva) in *. case_bool_decide; [|done].
    assert (0 <= va / 4096 < 2) as Hr by dlia.
    destruct (gb_frame _ _ _ _ _ _ _ _ _ _ _ G _ Hr) as (Hg & _ & HH1 & _).
    destruct (pte_of_facts (f (va / 4096)) 23 Hg ltac:(lia)) as (_ & Epa & _). specialize (Hh _ HH1). lia.
Qed.

Lemma v1_writable s1 own1 H1 f va :
  grown_by v0 own0 held0 s1 own1 H1 4096 0 (Z.lor (Z.lor PTE_R PTE_U) PTE_W) f 2 -> 0 <= va < 8192 ->
  user_writable (entry (pm s1) 4096 va) = true.
Proof.
  intros G Hva. rewrite (v1_entry _ _ _ _ va G) by (unfold MAXVA; lia). rewrite bool_decide_true by lia.
  assert (0 <= va / 4096 < 2) as Hr by dlia.
  destruct (gb_frame _ _ _ _ _ _ _ _ _ _ _ G _ Hr) as (Hg & _).
  destruct (pte_of_facts _ 23 Hg ltac:(lia)) as (_ & _ & _ & Hand).
  unfold user_writable, user_page. rewrite !Hand by (unfold PTE_V, PTE_U, PTE_W; lia). done.
Qed.

Lemma v1_copyout s1 own1 H1 f :
  grown_by v0 own0 held0 s1 own1 H1 4096 0 (Z.lor (Z.lor PTE_R PTE_U) PTE_W) f 2 -> al s1 < 2 ^ 30 ->
  exists s2, copyout 4096 4000 (2 ^ 41) 200 s1 = Ret (0, s2).
Proof.
  intros G Hal.
  destruct (copyout_wp s1 own1 H1 4096 4000 (2 ^ 41) 200) with (Q := fun r (_ : vms bump) => r = 0) as (r & s2 & E & ->).
  - apply (gb_ok _ _ _ _ _ _ _ _ _ _ _ G).
  - apply (gb_own _ _ _ _ _ _ _ _ _ _ _ G). reflexivity.
  - by apply (v1_user _ _ _ _ G).
  - lia.
  - lia.
  - apply (v1_kbuf _ _ _ _ _ _ G Hal). lia.
  - intros r s' (_ & _ & _ & _ & [(Hr & _)|(_ & c & Hc & _ & _ & [?|Hbad])]); [exact Hr | unfold MAXVA in *; lia |].
    rewrite (v1_writable _ _ _ _ _ G) in Hbad by lia. done.
  - by exists s2.
Qed.

Lemma mappages_correct_witness :
  exists r s' own' H' k, mappages 4096 0 8192 0x80000000 6 v0 = Ret (r, s')
    /\ grow v0 own0 held0 s' own' H' /\ maps_range (pm v0) (pm s') own0 4096 0 0x80000000 6 k.
Proof.
  destruct (mappages_correct 4096 0 8192 0x80000000 6 v0 own0 held0 v0_ok eq_refl eq_refl eq_refl)
    as (r & s' & own' & H' & k & E & Hg & Hm & _).
  - lia.
  - lia.
  - unfold MAXVA. lia.
  - lia.
  - intros k Hk. change (8192 / 4096) with 2 in Hk. split; [dlia|]. lia.
  - intros va' _. by rewrite v0_entry.
  - exists r, s', own', H', k. auto.
Defined.

Lemma mappages_no_remap_witness :
  exists s1, v1_run = Ret (8192, s1) /\ mappages 4096 4096 PGSIZE 0x80000000 6 s1 = Panic "mappages: remap".
Proof.
  destruct v1_ok as (s1 & own1 & H1 & f & E & _ & G). exists s1. split; [exact E|].
  apply (mappages_no_remap 4096 4096 0x80000000 6 s1 own1 H1).
  - apply (gb_ok _ _ _ _ _ _ _ _ _ _ _ G).
  - apply (gb_own _ _ _ _ _ _ _ _ _ _ _ G). reflexivity.
  - reflexivity.
  - unfold MAXVA. lia.
  - rewrite (v1_entry _ _ _ _ 4096 G) by (unfold MAXVA; lia). rewrite bool_decide_true by lia.
    change 23 with (Z.lor 22 PTE_V). apply valid_pte_of; [|lia].
    apply (gb_frame _ _ _ _ _ _ _ _ _ _ _ G). change (4096 / 4096) with 1. lia.
Defined.

Lemma uvmunmap_correct_witness :
  exists s1 own1 s', v1_run = Ret (8192, s1) /\ uvmunmap 4096 0 2 true s1 = Ret (tt, s')
    /\ unmaps_range (pm s1) (pm s') own1 4096 0 2.
Proof.
  destruct v1_ok as (s1 & own1 & H1 & f & E & _ & G).
  destruct (uvmunmap_correct 4096 0 2 true s1 own1 H1) as (s' & E' & _ & Hu & _).
  - apply (gb_ok _ _ _ _ _ _ _ _ _ _ _ G).
  - apply (gb_own _ _ _ _ _ _ _ _ _ _ _ G). reflexivity.
  - reflexivity.
  - lia.
  - lia.
  - unfold MAXVA. lia.
  - apply (grown_by_removable _ _ _ _ _ _ _ _ _ _ _ G).
    + reflexivity.
    + reflexivity.
    + lia.
    + unfold MAXVA. lia.
    + split; [vm_compute; discriminate | reflexivity].
    + vm_compute. discriminate.
  - exists s1, own1, s'. auto.
Defined.

Lemma uvmalloc_correct_witness :
  exists r s' own' H', uvmalloc 4096 0 8192 PTE_W v0 = Ret (r, s') /\ pt_ok s' own' H'.
Proof.
  destruct (uvmalloc_correct 4096 0 8192 PTE_W v0 own0 held0 v0_ok eq_refl) as (r & s' & own' & H' & E & K & _).
  - lia.
  - unfold MAXVA. lia.
  - unfold PTE_W. lia.
  - intros va' _. by rewrite v0_entry.
  - exists r, s', own', H'. auto.
Defined.

Lemma copyout_correct_witness :
  exists s1 r s', v1_run = Ret (8192, s1) /\ copyout 4096 4000 (2 ^ 41) 200 s1 = Ret (r, s') /\ r = 0.
Proof.
  destruct v1_ok as (s1 & own1 & H1 & f & E & Hal & G).
  destruct (copyout_correct s1 own1 H1 4096 4000 (2 ^ 41) 200) as (r & s' & E' & _ & _ & _ & _ & Hends).
  - apply (gb_ok _ _ _ _ _ _ _ _ _ _ _ G).
  - apply (gb_own _ _ _ _ _ _ _ _ _ _ _ G). reflexivity.
  - by apply (v1_user _ _ _ _ G).
  - lia.
  - lia.
  - apply (v1_kbuf _ _ _ _ _ _ G Hal). lia.
  - exists s1, r, s'. split; [exact E|]. split; [exact E'|].
    destruct Hends as [(Hr & _)|(_ & c & Hc & _ & _ & Hbad)]; [exact Hr|]. exfalso. unfold MAXVA in Hbad.
    destruct Hbad as [?|Hbad]; [lia|]. rewrite (v1_writable _ _ _ _ _ G) in Hbad by lia. discriminate Hbad.
Defined.

Lemma copyout_copyin_roundtrip_witness :
  exists s1 s2 s3, v1_run = Ret (8192, s1) /\ copyout 4096 4000 (2 ^ 41) 200 s1 = Ret (0, s2)
    /\ copyin 4096 (2 ^ 42) 4000 200 s2 = Ret (0, s3).
Proof.
  destruct v1_ok as (s1 & own1 & H1 & f & E & Hal & G).
  destruct (v1_copyout s1 own1 H1 f G Hal) as (s2 & E2).
  destruct (copyout_copyin_roundtrip s1 s2 own1 H1 4096 4000 (2 ^ 41) (2 ^ 42) 200) as (s3 & E3 & _).
  - apply (gb_ok _ _ _ _ _ _ _ _ _ _ _ G).
  - apply (gb_own _ _ _ _ _ _ _ _ _ _ _ G). reflexivity.
  - by apply (v1_user _ _ _ _ G).
  - lia.
  - lia.
  - apply (v1_kbuf _ _ _ _ _ _ G Hal). lia.
  - apply (v1_kbuf _ _ _ _ _ _ G Hal). lia.
  - exact E2.
  - exists s1, s2, s3. auto.
Defined.
