(* ===== verification/VmKernel.v ===== *)
(** * The kernel's address space

    [kvmmake] of vm.c with [proc_mapstacks] of proc.c: the page table that
    every hart runs on.  What it maps is stated region by region, as
    memlayout.h draws it. *)

From stdpp Require Import relations.
From S2P Require Import Prelude KString Buddy Vm VmWalk VmSpec VmThms.

(** ** Code that may run out of memory *)

(** It returns with [Q]; or [R] holds, and it panics with one of the
    messages. *)
Definition or_panics {S A} (R : Prop) (msgs : list string) (m : M S A) (s : S) (Q : A -> S -> Prop) : Prop :=
  wp m s Q \/ R /\ exists msg, msg ∈ msgs /\ m s = Panic msg.

Section OrPanics.
  Context {S : Type} (R : Prop) (msgs : list string).

Lemma op_wp {A} (m : M S A) s Q : wp m s Q -> or_panics R msgs m s Q.
Proof. by left. Qed.
Lemma op_ret {A} (a : A) s (Q : A -> S -> Prop) : Q a s -> or_panics R msgs (ret a) s Q.
Proof. intros HQ. apply op_wp. by apply wp_ret. Qed.
Lemma op_panic {A} msg s (Q : A -> S -> Prop) : R -> msg ∈ msgs -> or_panics R msgs (panic msg) s Q.
Proof. intros HR Hm. right. split; [done|]. by exists msg. Qed.
Lemma op_bind {A B} (m : M S A) (k : A -> M S B) s Q : or_panics R msgs m s (fun a s' => or_panics R msgs (k a) s' Q) -> or_panics R msgs (bind m k) s Q.
Proof.
  intros [(a & s' & E & [(b & s2 & E2 & HQ)|(HR & msg & Hm & E2)])|(HR & msg & Hm & E)].
  - left. exists b, s2. split; [|done]. unfold bind. by rewrite E.
  - right. split; [done|]. exists msg. split; [done|]. unfold bind. by rewrite E.
  - right. split; [done|]. exists msg. split; [done|]. unfold bind. by rewrite E.
Qed.
Lemma op_bind_wp {A B} (m : M S A) (k : A -> M S B) s Q : wp m s (fun a s' => or_panics R msgs (k a) s' Q) -> or_panics R msgs (bind m k) s Q.
Proof. intros H. by apply op_bind, op_wp. Qed.
Lemma op_mono {A} (m : M S A) s (P Q : A -> S -> Prop) : or_panics R msgs m s P -> (forall a s', P a s' -> Q a s') -> or_panics R msgs m s Q.
Proof. intros [H|H] HPQ; [left; by eapply wp_mono | by right]. Qed.
Lemma op_for_range (I : Z -> S -> Prop) (body : Z -> M S unit) (lo hi : Z) s (Q : unit -> S -> Prop) : lo <= hi -> I lo s ->
  (forall i s, lo <= i < hi -> I i s -> or_panics R msgs (body i) s (fun _ s' => I (i + 1) s')) -> (forall s, I hi s -> Q tt s) -> or_panics R msgs (for_range lo hi body) s Q.
Proof.
  intros Hle H0 Hb HQ. unfold for_range. remember (Z.to_nat (hi - lo)) as n eqn:En. revert lo s Hle H0 Hb En. induction n as [|n IH]; intros lo s Hle H0 Hb En; cbn [for_n].
  - apply op_ret, HQ. by replace hi with lo by lia.
  - apply op_bind. eapply op_mono; [apply Hb; [lia | done]|]. intros [] s' H'. apply IH; [lia | done | | lia]. intros i s2 Hi. apply Hb. lia.
Qed.

End OrPanics.

(** ** The map *)

Definition RW : Z := Z.lor PTE_R PTE_W.
Definition RX : Z := Z.lor PTE_R PTE_X.

(** The pages that building the map may take: the root, two tables for each
    region of two megabytes, and the stacks. *)
Definition KERNEL_PAGES : Z := 333.

(** The constants of memlayout.h in linear arithmetic. *)
Ltac kunfold := unfold TRAPFRAME in *; unfold UART0, VIRTIO0, PLIC, KERNBASE, PHYSTOP, TRAMPOLINE, MAXVA, PGSIZE in *; change (2 ^ 38) with 274877906944 in *; change (2 ^ 55) with 36028797018963968 in *.
Ltac kconst := first [reflexivity | (split; [discriminate | reflexivity]) | (kunfold; lia) | (kunfold; dlia)].
Ltac kregions := unfold regions, KERNEL_PAGES; kunfold; repeat (rewrite (proj2 (Z.eqb_neq _ 0)) by lia); dlia.
Ltac krange := kunfold; repeat (rewrite bool_decide_false by lia); reflexivity.

Section Kernel.
  Context {A : Type} `{PA : PageAllocator A}.
  Implicit Types (s : vms A) (own : owner) (H : Z -> Prop).

Section Build.
  (** The allocator that the construction starts with. *)
  Context (a0 : A).

(** It refuses one of those pages. *)
Definition refused : Prop := exists a', took false KERNEL_PAGES a0 a'.

(** The entries of the page table [root] are those of [f]; [n] bounds the
    pages taken. *)
Record kmapped (n : Z) s own H (root : Z) (f : Z -> Z) : Prop := {
  km_took : took true n a0 (al s);
  km_ok : pt_ok s own H;
  km_root : own root = Some (root, 2, 0);
  km_entry : forall va, 0 <= va < MAXVA -> entry (pm s) root va = f va
}.

Definition put_range (va size pa perm : Z) (f : Z -> Z) (va' : Z) : Z :=
  if bool_decide (va <= va' < va + size) then pte_of (pa + (page_of va' - va)) (Z.lor perm PTE_V) else f va'.

Lemma kvmmap_op n root va size pa perm s own H f (Q : unit -> vms A -> Prop) : kmapped n s own H root f -> n + 2 * regions va size <= KERNEL_PAGES ->
  va mod 4096 = 0 -> size mod 4096 = 0 -> 0 < size -> 0 <= va -> va + size <= MAXVA -> 0 <= perm < 1024 ->
  pa mod 4096 = 0 -> 0 < pa -> pa + size <= 2 ^ 55 -> (forall va', va <= va' < va + size -> f va' = 0) ->
  (forall s' own' H', grow s own H s' own' H' -> kmapped (n + 2 * regions va size) s' own' H' root (put_range va size pa perm f) -> Q tt s') -> or_panics refused ["kvmmap"; "kalloc"] (kvmmap root va pa size perm) s Q.
Proof.
  intros [Ht K Hr He] HN H1 H2 H3 H4 H5 H6 P1 P2 P3 Hf HQ. unfold kvmmap. apply op_bind_wp. apply (mappages_wp root va size pa perm s own H); try done.
  - intros k Hk. split; [|dlia]. dlia.
  - intros va' Hva. rewrite He, Hf by lia. done.
  - intros r s' own' H' k G Hm Hres Htk. destruct Hres as [[-> ->]|[-> _]]; [|apply op_panic; [exists (al s'); by eapply took_trans | set_solver]]. apply op_ret. apply (HQ s' own' H'); [done|].
    constructor; [by eapply took_trans | apply G | by apply G |]. intros va' Hva. rewrite (Hm root va' Hr Hva). unfold put_range.
    replace (va + 4096 * (size / 4096)) with (va + size) by dlia. case_bool_decide as E1; case_bool_decide as E2; [done | naive_solver | naive_solver | by apply He].
Qed.

(** ** The kernel stacks *)

(** The process whose kernel stack is at [va]; the pages between two stacks
    belong to nobody. *)
Definition stack_slot (va : Z) : option Z :=
  let d := TRAMPOLINE - 1 - va in
  if bool_decide (0 <= d < 2 * PGSIZE * NPROC /\ PGSIZE <= d mod (2 * PGSIZE)) then Some (d / (2 * PGSIZE)) else None.

Definition put_stacks (stk : Z -> Z) (i : Z) (f : Z -> Z) (va : Z) : Z :=
  match stack_slot va with Some j => if j <? i then pte_of (stk j) (Z.lor RW PTE_V) else f va | None => f va end.

Lemma stack_slot_spec va j : 0 <= j < NPROC -> stack_slot va = Some j <-> KSTACK j <= va < KSTACK j + PGSIZE.
Proof.
  intros Hj. unfold stack_slot, KSTACK, NPROC, PGSIZE in *. case_bool_decide as E; (split; [intros [= <-] || discriminate | intros Hv]).
  - dlia.
  - f_equal. dlia.
  - exfalso. apply E. dlia.
Qed.

Lemma put_stack stk i pa f va : 0 <= i < NPROC -> put_range (KSTACK i) PGSIZE pa RW (put_stacks stk i f) va = put_stacks (fun j => if j =? i then pa else stk j) (i + 1) f va.
Proof.
  intros Hi. unfold put_range, put_stacks. pose proof (stack_slot_spec va i Hi) as Hs. case_bool_decide as E.
  - apply Hs in E as E1. rewrite E1, (proj2 (Z.ltb_lt i (i + 1))), Z.eqb_refl by lia. f_equal. unfold page_of, KSTACK, TRAMPOLINE, MAXVA, PGSIZE in *. dlia.
  - destruct (stack_slot va) as [j|]; [|done]. assert (j <> i) as Hne by (intros ->; by apply E, Hs). rewrite (proj2 (Z.eqb_neq _ _) Hne). by destruct (Z.ltb_spec j i), (Z.ltb_spec j (i + 1)); try lia.
Qed.

(** The frames of the first [i] stacks: pages of their own. *)
Record stack_frames own H (H0 : Z -> Prop) (stk : Z -> Z) (i : Z) : Prop := {
  sf_frame : forall j, 0 <= j < i -> good_page (stk j) /\ ~ H0 (stk j) /\ H (stk j) /\ own (stk j) = None;
  sf_inj : forall j k, 0 <= j < i -> 0 <= k < i -> stk j = stk k -> j = k
}.

Lemma kalloc_wp s own H (Q : Z -> vms A -> Prop) : pt_ok s own H ->
  (forall a', pa_held a' H -> took false 0 (al s) a' -> Q 0 (mkVms (pm s) a')) ->
  (forall p a', good_page p -> ~ H p -> pa_held a' (fun q => q = p \/ H q) -> took true 1 (al s) a' -> Q p (mkVms (pm s) a')) -> wp kalloc s Q.
Proof.
  intros K H0 H1. unfold kalloc. apply wp_zoom. destruct (pa_alloc_ok (al s) H (pt_held _ _ _ K)) as (p & a' & E & Hor). exists p, a'. split; [exact E|].
  destruct Hor as [[-> Ha]|(Hg & Hn & Ha)]; [apply H0; [done | by apply took_refused] | apply H1; try done]. eapply took_one; [|exact E]. destruct Hg as (_ & Hg & _). lia.
Qed.

(** A page that was allocated and is not a page table. *)
Lemma held_more n s own H root f q a' : kmapped n s own H root f -> ~ H q -> pa_held a' (fun y => y = q \/ H y) -> took true 1 (al s) a' -> own q = None /\ kmapped (n + 1) (mkVms (pm s) a') own (fun y => y = q \/ H y) root f.
Proof.
  intros [Ht K Hr He] Hn Ha Ht1. split.
  - destruct (own q) as [[[? ?] ?]|] eqn:E; [|done]. exfalso. apply Hn. by apply (pt_page _ _ _ K _ _ _ _ E).
  - constructor; try done; [by eapply took_trans|]. destruct K as [K1 K2 K3 K4]. constructor; try done. intros p r l x Ep. destruct (K3 p r l x Ep) as (? & ? & ? & ?). auto.
Qed.

Lemma stack_regions i : 0 <= i < NPROC -> regions (KSTACK i) PGSIZE = 1.
Proof. intros Hi. unfold regions, KSTACK, TRAMPOLINE, MAXVA, PGSIZE, NPROC in *. cbn [Z.eqb]. dlia. Qed.

Lemma mapstacks_op n s own H root f (Q : unit -> vms A -> Prop) : kmapped n s own H root f -> n + 3 * NPROC <= KERNEL_PAGES -> (forall va, TRAMPOLINE - 2 * PGSIZE * NPROC <= va < TRAMPOLINE -> f va = 0) ->
  (forall s' own' H' stk, (forall q, H q -> H' q) -> kmapped (n + 3 * NPROC) s' own' H' root (put_stacks stk NPROC f) -> stack_frames own' H' H stk NPROC -> Q tt s') ->
  or_panics refused ["kvmmap"; "kalloc"] (proc_mapstacks root) s Q.
Proof.
  intros Km HN Hf HQ. unfold proc_mapstacks.
  apply (op_for_range _ _ (fun i s1 => exists own1 H1 stk, (forall q, H q -> H1 q) /\ kmapped (n + 3 * i) s1 own1 H1 root (put_stacks stk i f) /\ stack_frames own1 H1 H stk i)).
  - unfold NPROC. lia.
  - exists own, H, (fun _ => 0). split; [done|]. split; [|by split; lia]. destruct Km as [Ht K Hr He]. constructor; try done; [eapply took_le; [exact Ht | lia]|]. intros va Hva. rewrite He by done. unfold put_stacks.
    unfold stack_slot. case_bool_decide as E; [|done]. rewrite (proj2 (Z.ltb_ge _ _)); [done|]. apply Z.div_pos; [lia | done].
  - intros i s1 Hi (own1 & H1 & stk & Hsub & Km1 & [Sf Si]). apply op_bind_wp. eapply (kalloc_wp s1 own1 H1); [apply Km1 | |].
    + intros a' _ Hf0. apply op_panic; [|set_solver]. exists a'. eapply took_trans; [apply Km1 | exact Hf0 | lia].
    + intros p a' Hg Hn Ha Ht1. pose proof Hg as (Hp1 & Hp2 & Hp3). rewrite (proj2 (Z.eqb_neq p 0)) by lia. destruct (held_more _ s1 own1 H1 root _ p a' Km1 Hn Ha Ht1) as [Ho Km2].
      eapply kvmmap_op; [exact Km2 | rewrite stack_regions by done; lia | ..]; try (unfold KSTACK, TRAMPOLINE, MAXVA, PGSIZE, NPROC in *; dlia); try done.
      { intros va Hva. pose proof (proj2 (stack_slot_spec va i Hi) Hva) as Es. unfold put_stacks. rewrite Es, Z.ltb_irrefl. apply Hf. unfold KSTACK, PGSIZE, NPROC in *. lia. }
      intros s2 own2 H2 G Km3. exists own2, H2, (fun j => if j =? i then p else stk j).
      assert (forall q, q = p \/ H1 q -> own1 q = None -> H2 q /\ own2 q = None) as Hkeep.
      { intros q Hq Eq. split; [apply (gr_held _ _ _ _ _ _ G); by left|]. destruct (own2 q) eqn:E2; [|done]. exfalso. apply (gr_new _ _ _ _ _ _ G q Eq); [by rewrite E2 | done]. }
      split; [intros q Hq; apply (gr_held _ _ _ _ _ _ G); left; right; by apply Hsub|]. split.
      { destruct Km3 as [T3 K3 R3 E3]. rewrite stack_regions in T3 by done. constructor; try done; [eapply took_le; [exact T3 | lia]|]. intros va Hva. rewrite E3 by done. by apply put_stack. }
      constructor.
      * intros j Hj. destruct (Z.eqb_spec j i) as [->|Hne]; [destruct (Hkeep p (or_introl eq_refl) Ho); split_and!; try done; by intros Hx%Hsub|].
        destruct (Sf j ltac:(lia)) as (F1 & F2 & F3 & F4). destruct (Hkeep (stk j) (or_intror F3) F4). done.
      * intros j k Hj Hk. destruct (Z.eqb_spec j i) as [->|Hj'], (Z.eqb_spec k i) as [->|Hk']; try done.
        -- intros ->. destruct (Sf k ltac:(lia)) as (_ & _ & F3 & _). done.
        -- intros <-. destruct (Sf j ltac:(lia)) as (_ & _ & F3 & _). done.
        -- intros E. apply Si; [lia | lia | done].
  - intros s1 (own1 & H1 & stk & Hsub & Km1 & SF). by eapply HQ.
Qed.

(** ** The whole map *)

Section Map.
  Context (etext trampoline : Z) (stk : Z -> Z).

(** The physical page and the permissions of an address. *)
Definition kernel_map (va : Z) : option (Z * Z) :=
  if bool_decide (PLIC <= va < PLIC + 0x400000) then Some (page_of va, RW)
  else if bool_decide (UART0 <= va < UART0 + PGSIZE) then Some (page_of va, RW)
  else if bool_decide (VIRTIO0 <= va < VIRTIO0 + PGSIZE) then Some (page_of va, RW)
  else if bool_decide (KERNBASE <= va < etext) then Some (page_of va, RX)
  else if bool_decide (etext <= va < PHYSTOP) then Some (page_of va, RW)
  else if bool_decide (TRAMPOLINE <= va < MAXVA) then Some (trampoline, RX)
  else match stack_slot va with Some i => Some (stk i, RW) | None => None end.

Definition kernel_pte (va : Z) : Z := match kernel_map va with Some (pa, perm) => pte_of pa (Z.lor perm PTE_V) | None => 0 end.

(** The ranges in the order of [kvmmake]. *)
Definition made_map : Z -> Z :=
  put_stacks stk NPROC (put_range TRAMPOLINE PGSIZE trampoline RX (put_range etext (PHYSTOP - etext) etext RW (put_range KERNBASE (etext - KERNBASE) KERNBASE RX
    (put_range PLIC 0x400000 PLIC RW (put_range VIRTIO0 PGSIZE VIRTIO0 RW (put_range UART0 PGSIZE UART0 RW (fun _ => 0))))))).

Lemma slot_range va j : stack_slot va = Some j -> 0 <= j < NPROC /\ TRAMPOLINE - 2 * PGSIZE * NPROC <= va < TRAMPOLINE.
Proof. unfold stack_slot, NPROC, PGSIZE. case_bool_decide as E; [|done]. intros [= <-]. dlia. Qed.

Lemma made_map_spec va : KERNBASE < etext < PHYSTOP -> 0 <= va < MAXVA -> made_map va = kernel_pte va.
Proof.
  intros He Hva. unfold made_map, put_stacks, kernel_pte, kernel_map. pose proof (slot_range va) as Hs.
  destruct (stack_slot va) as [j|].
  - destruct (Hs j eq_refl) as [Hj Hr]. rewrite (proj2 (Z.ltb_lt _ _)) by lia. unfold TRAMPOLINE, MAXVA, PGSIZE, NPROC, PLIC, UART0, VIRTIO0, KERNBASE, PHYSTOP in *.
    do 6 (rewrite bool_decide_false by lia). done.
  - clear Hs. unfold put_range, TRAMPOLINE, MAXVA, PGSIZE, NPROC, PLIC, UART0, VIRTIO0, KERNBASE, PHYSTOP in *.
    repeat (case_bool_decide; try lia); try done; f_equal; unfold page_of; dlia.
Qed.

(** No page is both writable and executable, and none is for the user. *)
Lemma kernel_pte_safe va : good_page trampoline -> KERNBASE < etext < PHYSTOP -> (forall j, 0 <= j < NPROC -> good_page (stk j)) ->
  Z.land (kernel_pte va) PTE_U = 0 /\ (Z.land (kernel_pte va) PTE_W = 0 \/ Z.land (kernel_pte va) PTE_X = 0).
Proof.
  intros Ht He Hs. unfold kernel_pte. destruct (kernel_map va) as [[pa perm]|] eqn:E; [|split; [done | by left]].
  assert (good_page pa /\ (perm = RW \/ perm = RX)) as [Hg Hp].
  { assert (forall lo hi, 4096 <= lo -> hi <= 2 ^ 32 -> lo <= va < hi -> good_page (page_of va)) as Hid.
    { intros lo hi H1 H2 Hr. unfold good_page, page_of. change (2 ^ 55) with 36028797018963968. dlia. }
    unfold kernel_map in E. unfold PLIC, UART0, VIRTIO0, KERNBASE, PHYSTOP, PGSIZE in *.
    repeat match type of E with
      | (if bool_decide ?P then _ else _) = _ =>
          destruct (decide P) as [Hr|Hr]; [rewrite (bool_decide_true P Hr) in E; injection E as <- <-; split; [first [done | (eapply Hid; [| |exact Hr]; lia)] | by auto] | rewrite (bool_decide_false P Hr) in E; clear Hr]
      end.
    revert E. destruct (stack_slot va) as [j|] eqn:Ej; [|done]. intros [= <- <-]. destruct (slot_range va j Ej) as [Hj _]. split; [by apply Hs | by left]. }
  destruct (pte_of_facts pa (Z.lor perm PTE_V) Hg) as (_ & _ & _ & Hand); [destruct Hp as [-> | ->]; vm_compute; split; congruence|].
  rewrite !Hand by (vm_compute; split; congruence). destruct Hp as [-> | ->]; vm_compute; auto.
Qed.

End Map.

Lemma new_root s (H : Z -> Prop) q a' : bytes_mem (pm s) -> good_page q -> ~ H q -> pa_held a' (fun y => y = q \/ H y) -> took true 1 a0 a' ->
  kmapped 1 (mkVms (memset q 0 PGSIZE (pm s)) a') (fun p => if p =? q then Some (q, 2, 0) else None) (fun y => y = q \/ H y) q (fun _ => 0).
Proof.
  intros Hb Hg Hn Ha Ht. assert (forall i, 0 <= i < 512 -> load64 (memset q 0 PGSIZE (pm s)) (q + 8 * i) = 0) as Hz.
  { intros i Hi. apply load64_zero. intros x Hx. rewrite memset_in; [done|]. unfold PGSIZE. lia. }
  constructor; [exact Ht | ..].
  - constructor; cbn [pm al]; [done | by apply memset_bytes | |].
    + intros p r l x. destruct (Z.eqb_spec p q) as [->|]; [|done]. intros [= <- <- <-]. rewrite Z.eqb_refl. split_and!; try done; by left.
    + intros p r l x i Ep _ Hi. assert (p = q) as -> by (destruct (Z.eqb_spec p q); congruence). cbv zeta. rewrite (Hz i Hi). discriminate.
  - by rewrite Z.eqb_refl.
  - intros va _. rewrite entry_ent. by apply ent_zero.
Qed.

(** The maps of [kvmmake] one after the other. *)
Lemma made_map_op etext trampoline s own H root (Q : Z -> vms A -> Prop) : kmapped 1 s own H root (fun _ => 0) ->
  etext mod 4096 = 0 -> KERNBASE < etext < PHYSTOP -> good_page trampoline ->
  (forall s' own' H' stk, (forall q, H q -> H' q) -> kmapped KERNEL_PAGES s' own' H' root (made_map etext trampoline stk) -> stack_frames own' H' H stk NPROC -> Q root s') ->
  or_panics refused ["kvmmap"; "kalloc"] (
    kvmmap root UART0 UART0 PGSIZE (Z.lor PTE_R PTE_W) ;;;
    kvmmap root VIRTIO0 VIRTIO0 PGSIZE (Z.lor PTE_R PTE_W) ;;;
    kvmmap root PLIC PLIC 0x400000 (Z.lor PTE_R PTE_W) ;;;
    kvmmap root KERNBASE KERNBASE (etext - KERNBASE) (Z.lor PTE_R PTE_X) ;;;
    kvmmap root etext etext (PHYSTOP - etext) (Z.lor PTE_R PTE_W) ;;;
    kvmmap root TRAMPOLINE trampoline PGSIZE (Z.lor PTE_R PTE_X) ;;;
    proc_mapstacks root ;;;
    ret root) s Q.
Proof.
  intros Km He Hr (T1 & T2 & T3) HQ.
  assert (forall s1 s2 own1 own2 H1 H2, grow s1 own1 H1 s2 own2 H2 -> forall q, H1 q -> H2 q) as Hg by (intros * G q Hq; apply (gr_held _ _ _ _ _ _ G); by left).
  apply op_bind. eapply kvmmap_op; [exact Km | kregions | kconst..| |]; [done|]. clear Km. intros s1 own1 H1 G1 Km.
  apply op_bind. eapply kvmmap_op; [exact Km | kregions | kconst..| |]; [intros va Hva; unfold put_range; krange|]. clear Km. intros s2 own2 H2 G2 Km.
  apply op_bind. eapply kvmmap_op; [exact Km | kregions | kconst..| |]; [intros va Hva; unfold put_range; krange|]. clear Km. intros s3 own3 H3 G3 Km.
  apply op_bind. eapply kvmmap_op; [exact Km | kregions | kconst..| |]; [intros va Hva; unfold put_range; krange|]. clear Km. intros s4 own4 H4 G4 Km.
  apply op_bind. eapply kvmmap_op; [exact Km | kregions | kconst..| |]; [intros va Hva; unfold put_range; krange|]. clear Km. intros s5 own5 H5 G5 Km.
  apply op_bind. eapply kvmmap_op; [exact Km | kregions | kconst..| |]; [intros va Hva; unfold put_range; krange|]. clear Km. intros s6 own6 H6 G6 Km.
  apply op_bind. eapply mapstacks_op; [exact Km | unfold NPROC; kregions | intros va Hva; unfold put_range, NPROC in *; krange|]. intros s7 own7 H7 stk Hs7 Km7 [F1 F2]. apply op_ret.
  assert (forall q, H q -> H6 q) as H06.
  { intros q Hq. do 6 (eapply Hg; [eassumption|]). exact Hq. }
  apply (HQ s7 own7 H7 stk); [by auto | destruct Km7; constructor; try done; eapply took_le; [eassumption | unfold NPROC; kregions] |]. split; [|done]. intros j Hj. destruct (F1 j Hj) as (? & Hx & ? & ?). split_and!; try done. by intros Hy%H06.
Qed.

End Build.

(** The address space is complete. *)
Record kernel_space (etext trampoline : Z) (s : vms A) (H : Z -> Prop) (root : Z) (s' : vms A) (own' : owner) (H' : Z -> Prop) (stk : Z -> Z) : Prop := {
  ks_ok : pt_ok s' own' H';
  ks_root : own' root = Some (root, 2, 0);
  ks_new : ~ H root;
  ks_held : forall q, H q -> H' q;
  ks_stacks : stack_frames own' H' H stk NPROC;
  ks_took : took true KERNEL_PAGES (al s) (al s');
  ks_map : forall va, 0 <= va < MAXVA -> entry (pm s') root va = kernel_pte etext trampoline stk va
}.

Lemma kvmmake_op etext trampoline p0 s H a1 : bytes_mem (pm s) -> pa_held (al s) H -> pa_alloc (al s) = Ret (p0, a1) -> p0 <> 0 ->
  etext mod 4096 = 0 -> KERNBASE < etext < PHYSTOP -> good_page trampoline ->
  or_panics (refused (al s)) ["kvmmap"; "kalloc"] (kvmmake etext trampoline) s (fun root s' => exists own' H' stk, kernel_space etext trampoline s H root s' own' H' stk).
Proof.
  intros Hb Ha Hp Hp0 He Hr Ht.
  destruct (pa_alloc_ok (al s) H Ha) as (p & a' & E & Hor). rewrite Hp in E. injection E as <- <-. destruct Hor as [[? _]|(Hg & Hn & Hh)]; [done|].
  unfold kvmmake. apply op_bind_wp. exists p0, (set_al a1 s). split; [unfold kalloc, zoom; by rewrite Hp|]. apply op_bind_wp. unfold on_mem. apply wp_modify. cbn [set_al set_pm pm al].
  pose proof (new_root (al s) s H p0 a1 Hb Hg Hn Hh (took_one _ _ _ Hp0 Hp)) as Km. set (s0 := mkVms _ a1) in *. change (set_pm _ (set_al a1 s)) with s0.
  eapply made_map_op; [exact Km | exact He | exact Hr | exact Ht |]. intros s' own' H' stk Hsub Km' SF. exists own', H', stk. destruct Km' as [T' K' R' E']. constructor; try done.
  - intros q Hq. apply Hsub. by right.
  - destruct SF as [F1 F2]. split; [|done]. intros j Hj. destruct (F1 j Hj) as (? & Hx & ? & ?). split_and!; try done. intros Hy. apply Hx. by right.
  - intros va Hva. rewrite E' by done. by apply made_map_spec.
Qed.

(** C13: [kvmmake] builds the address space of the kernel; it panics only when
    the allocator refuses one of the first 333 pages, which is all that the map
    needs.  The page table it returns maps exactly the device registers and
    physical memory one to one, the kernel's text readable and executable, all
    other memory readable and writable, the trampoline at the top, and below it
    a stack of its own for each process, with an unmapped page under every
    stack.  Nothing is both writable and executable, nothing is accessible to
    user code, and the stacks are distinct pages that nobody used before. *)
Theorem kvmmake_correct (etext trampoline p0 : Z) (s : vms A) (H : Z -> Prop) (a1 : A)
  (Hb : bytes_mem (pm s)) (Ha : pa_held (al s) H) (Hp : pa_alloc (al s) = Ret (p0, a1)) (Hp0 : p0 <> 0)
  (He : etext mod 4096 = 0) (Hr : KERNBASE < etext < PHYSTOP) (Ht : good_page trampoline) :
  (refused (al s) /\ exists msg, msg ∈ ["kvmmap"; "kalloc"] /\ kvmmake etext trampoline s = Panic msg)
  \/ exists root s' own' H' stk, kvmmake etext trampoline s = Ret (root, s') /\ pt_ok s' own' H' /\ own' root = Some (root, 2, 0)
       /\ ~ H root /\ (forall q, H q -> H' q) /\ stack_frames own' H' H stk NPROC /\ took true KERNEL_PAGES (al s) (al s')
       /\ forall va, 0 <= va < MAXVA -> entry (pm s') root va = kernel_pte etext trampoline stk va
            /\ Z.land (entry (pm s') root va) PTE_U = 0 /\ (Z.land (entry (pm s') root va) PTE_W = 0 \/ Z.land (entry (pm s') root va) PTE_X = 0).
Proof.
  destruct (kvmmake_op etext trampoline p0 s H a1 Hb Ha Hp Hp0 He Hr Ht) as [(root & s' & E & own' & H' & stk & Kn)|HP]; [right | by left].
  destruct Kn as [H1 H2 H3 H4 H5 H6 H7]. exists root, s', own', H', stk. split_and!; try done. intros va Hva.
  rewrite H7 by done. split; [done|]. apply kernel_pte_safe; try done. intros j Hj. by apply H5.
Qed.

End Kernel.

(** The bump allocator has 333 pages. *)
Lemma bump_draws n (a b : bump) : nsteps alloc_step n a b -> b = a + 4096 * Z.of_nat n.
Proof.
  induction 1 as [|n a b c (p & Hp & E) _ IH]; [lia|]. unfold pa_alloc, bump_pages, bump_alloc in E. destruct (2 ^ 54 <? a); [by injection E as <- <-|]. injection E as _ <-. lia.
Qed.
Lemma bump_enough (a : bump) : 0 < a < 2 ^ 53 -> ~ refused a.
Proof.
  intros Ha (a' & n & b & Hn & Hs & E). unfold KERNEL_PAGES in Hn. apply bump_draws in Hs as ->. unfold pa_alloc, bump_pages, bump_alloc in E.
  destruct (Z.ltb_spec (2 ^ 54) (a + 4096 * Z.of_nat n)); [lia|]. injection E. lia.
Qed.

(** Memory from 0x80100000 on, a text of eight pages. *)
Lemma kvmmake_correct_witness :
  let s := mkVms (fun _ => 0) 0x80100000 : vms bump in
  exists root s' stk, kvmmake 0x80008000 0x80007000 s = Ret (root, s')
       /\ entry (pm s') root 0x80000123 = pte_of 0x80000000 11 /\ entry (pm s') root 0x80009fff = pte_of 0x80009000 7
       /\ entry (pm s') root (KSTACK 3) = pte_of (stk 3) 7 /\ entry (pm s') root (KSTACK 3 - PGSIZE) = 0.
Proof.
  cbv zeta. destruct (kvmmake_correct 0x80008000 0x80007000 0x80100000 (mkVms (fun _ => 0) 0x80100000 : vms bump) (fun _ => False) 0x80101000) as [[Hp _]|(root & s' & own' & H' & stk & E & _ & _ & _ & _ & _ & _ & Hm)].
  - intros x. cbn. lia.
  - split; [reflexivity|]. split; [vm_compute; discriminate | done].
  - reflexivity.
  - discriminate.
  - reflexivity.
  - unfold KERNBASE, PHYSTOP. lia.
  - split; [reflexivity | lia].
  - exfalso. revert Hp. apply bump_enough. cbn [al]. lia.
  - exists root, s', stk. split; [exact E|].
    assert (forall va e, 0 <= va < MAXVA -> kernel_pte 0x80008000 0x80007000 stk va = e -> entry (pm s') root va = e) as Hk by (intros va e Hv <-; exact (proj1 (Hm va Hv))).
    split; [apply Hk; [vm_compute; split; congruence | vm_compute; reflexivity]|]. split; [apply Hk; [vm_compute; split; congruence | vm_compute; reflexivity]|].
    split; (apply Hk; [vm_compute; split; congruence|]).
    + unfold kernel_pte. replace (kernel_map _ _ _ _) with (Some (stk 3, RW)) by (vm_compute; reflexivity). reflexivity.
    + vm_compute. reflexivity.
Defined.
