(* ===== verification/Bytes.v ===== *)
(** * Little-endian integers in a block of bytes

    The C code overlays structs ([logheader], [superblock], [dinode],
    [dirent]) on the data of a disk block.  [rd n d o] is the unsigned [n]-byte
    integer at offset [o] of the bytes [d], [wr n d o v] stores one. *)

From S2P Require Import Prelude.

Fixpoint rd (n : nat) (d : list Z) (o : Z) : Z :=
  match n with
  | O => 0
  | S n' => d !!! Z.to_nat o + 256 * rd n' d (o + 1)
  end.

Fixpoint wr (n : nat) (d : list Z) (o v : Z) : list Z :=
  match n with
  | O => d
  | S n' => wr n' (<[Z.to_nat o := v mod 256]> d) (o + 1) (v / 256)
  end.

(** All elements are bytes. *)
Definition bytes_ok (d : list Z) : Prop := Forall (fun x => 0 <= x < 256) d.

Lemma wr_length n d o v : length (wr n d o v) = length d.
Proof. revert d o v. induction n as [|n IH]; intros d o v; simpl; [done|]. by rewrite IH, length_insert. Qed.

Lemma wr_outside n d o v i :
  0 <= o -> (Z.of_nat i < o \/ o + Z.of_nat n <= Z.of_nat i) -> wr n d o v !!! i = d !!! i.
Proof.
  revert d o v. induction n as [|n IH]; intros d o v Ho Hi; simpl; [done|].
  rewrite IH by lia. rewrite list_lookup_total_insert_ne; [done | lia].
Qed.

Lemma rd_agree n d d' o :
  0 <= o -> (forall i, o <= Z.of_nat i < o + Z.of_nat n -> d !!! i = d' !!! i) -> rd n d o = rd n d' o.
Proof.
  revert o. induction n as [|n IH]; intros o Ho H; simpl; [done|].
  rewrite (H (Z.to_nat o)) by lia. f_equal. f_equal. apply IH; [lia|]. intros i Hi. apply H. lia.
Qed.

Lemma rd_wr_ne n m d o p v :
  0 <= o -> 0 <= p -> (o + Z.of_nat n <= p \/ p + Z.of_nat m <= o) -> rd n (wr m d p v) o = rd n d o.
Proof. intros Ho Hp Hd. apply rd_agree; [done|]. intros i Hi. apply wr_outside; lia. Qed.

Lemma rd_wr_eq n d o v :
  0 <= o -> o + Z.of_nat n <= Z.of_nat (length d) -> rd n (wr n d o v) o = v mod 256 ^ Z.of_nat n.
Proof.
  revert d o v. induction n as [|n IH]; intros d o v Ho Hl; [simpl; by rewrite Z.mod_1_r|].
  cbn [rd wr]. rewrite IH by (rewrite ?length_insert; lia).
  rewrite wr_outside by lia. rewrite list_lookup_total_insert_eq by lia.
  rewrite Nat2Z.inj_succ, Z.pow_succ_r by lia. symmetry. apply Z.rem_mul_r; lia.
Qed.

Lemma bytes_ok_at d i : bytes_ok d -> 0 <= d !!! i < 256.
Proof.
  intros H. destruct (decide (i < length d)%nat) as [Hi|Hi].
  - apply lookup_lt_is_Some_2 in Hi as [x Hx]. rewrite (list_lookup_total_correct _ _ _ Hx).
    by apply (Forall_lookup_1 _ _ _ _ H Hx).
  - rewrite list_lookup_total_alt, lookup_ge_None_2 by lia. cbv. naive_solver.
Qed.

Lemma rd_range n d o : bytes_ok d -> 0 <= rd n d o < 256 ^ Z.of_nat n.
Proof.
  intros Hd. revert o. induction n as [|n IH]; intros o; [simpl; lia|].
  cbn [rd]. rewrite Nat2Z.inj_succ, Z.pow_succ_r by lia.
  pose proof (bytes_ok_at d (Z.to_nat o) Hd). specialize (IH (o + 1)). lia.
Qed.

Lemma wr_bytes_ok n d o v : bytes_ok d -> bytes_ok (wr n d o v).
Proof.
  revert d o v. induction n as [|n IH]; intros d o v Hd; simpl; [done|].
  apply IH. apply Forall_insert; [done|]. apply Z.mod_pos_bound. lia.
Qed.

(** The int at an offset. *)
Definition rd32 (d : list Z) (o : Z) : Z := rd 4 d o.
Definition wr32 (d : list Z) (o v : Z) : list Z := wr 4 d o v.
Definition rd16 (d : list Z) (o : Z) : Z := rd 2 d o.
Definition wr16 (d : list Z) (o v : Z) : list Z := wr 2 d o v.

Lemma rd32_wr32 d o v : 0 <= o -> o + 4 <= Z.of_nat (length d) -> rd32 (wr32 d o v) o = u32 v.
Proof. intros. unfold rd32, wr32. rewrite rd_wr_eq by lia. done. Qed.

Lemma rd16_wr16 d o v : 0 <= o -> o + 2 <= Z.of_nat (length d) -> rd16 (wr16 d o v) o = u16 v.
Proof. intros. unfold rd16, wr16. rewrite rd_wr_eq by lia. done. Qed.

Lemma i32_u32 z : i32 (u32 z) = i32 z.
Proof. unfold i32, u32. rewrite Zplus_mod_idemp_l. done. Qed.
