(* ===== verification/Bio.v ===== *)
(** * The buffer cache (kernel/bio.c)

    Thirty buffers, the list that orders them by last use (the ring through
    [prev]/[next], here as the sequence from [head.next] to [head.prev]), the
    disk, and the list of all blocks written to the disk, oldest first.  The
    disk is what [virtio_disk_rw] reads and writes: one block per number.  A
    buffer's sleep lock holds the pid of its owner.  One process runs; an
    [acquiresleep] on a buffer that another one holds does not return. *)

From S2P Require Import Prelude.

Definition NBUF : Z := 30.
Definition BSIZE : Z := 1024.

(** The contents of a block. *)
Notation block := (list Z) (only parsing).

Record buf := mkBuf {
  bvalid : bool;          (* has data been read from disk? *)
  bdev : Z;
  blockno : Z;
  block_lock : option Z;  (* the sleep lock: who holds it *)
  refcnt : Z;
  bdata : block
}.

Record bst := mkBst {
  bufs : list buf;
  order : list Z;               (* most recently used first *)
  dsk : Z -> block;
  wrote : list (Z * block);     (* every write to the disk *)
  me : Z                        (* the pid of the running process *)
}.

Definition set_bufs (l : list buf) (s : bst) : bst := mkBst l (order s) (dsk s) (wrote s) (me s).
Definition set_order (l : list Z) (s : bst) : bst := mkBst (bufs s) l (dsk s) (wrote s) (me s).

Definition get_buf (b : Z) : M bst buf := l <- gets bufs ;; from_option "buf" (aget l b).
Definition put_buf (b : Z) (v : buf) : M bst unit :=
  l <- gets bufs ;; l' <- from_option "buf" (aset l b v) ;; modify (set_bufs l').

(** [acquiresleep] and [releasesleep] on a buffer's lock. *)
Definition acquiresleep (b : Z) : M bst unit :=
  v <- get_buf b ;;
  p <- gets me ;;
  match block_lock v with
  | None => put_buf b (mkBuf (bvalid v) (bdev v) (blockno v) (Some p) (refcnt v) (bdata v))
  | Some _ => diverge
  end.
Definition releasesleep (b : Z) : M bst unit :=
  v <- get_buf b ;;
  put_buf b (mkBuf (bvalid v) (bdev v) (blockno v) None (refcnt v) (bdata v)).
Definition holdingsleep (b : Z) : M bst bool :=
  v <- get_buf b ;; p <- gets me ;; ret (bool_decide (block_lock v = Some p)).

(** [virtio_disk_rw]: transfer one block, between the buffer's data and the
    disk. *)
Definition disk_read (b : Z) : M bst unit :=
  v <- get_buf b ;;
  d <- gets dsk ;;
  put_buf b (mkBuf (bvalid v) (bdev v) (blockno v) (block_lock v) (refcnt v) (d (blockno v))).
Definition disk_write (b : Z) : M bst unit :=
  v <- get_buf b ;;
  modify (fun s => mkBst (bufs s) (order s)
    (fun x => if x =? blockno v then bdata v else dsk s x) (wrote s ++ [(blockno v, bdata v)]) (me s)).

Definition empty_buf : buf := mkBuf false 0 0 None 0 [].

(** [binit]: each buffer is put in front, so the last one ends up first. *)
Definition binit : M bst unit :=
  modify (fun s => mkBst (replicate (Z.to_nat NBUF) empty_buf)
    (foldl (fun ring b => b :: ring) [] (seqZ 0 NBUF)) (dsk s) (wrote s) (me s)).

(** The first buffer of a list that has a property. *)
Fixpoint scan (p : buf -> bool) (l : list Z) (bs : list buf) : option Z :=
  match l with
  | [] => None
  | b :: l' =>
      match aget bs b with
      | Some v => if p v then Some b else scan p l' bs
      | None => scan p l' bs
      end
  end.

Definition bget (dev bn : Z) : M bst Z :=
  s <- get ;;
  match scan (fun v => (bdev v =? dev) && (blockno v =? bn)) (order s) (bufs s) with
  | Some b =>
      v <- get_buf b ;;
      put_buf b (mkBuf (bvalid v) (bdev v) (blockno v) (block_lock v) (u32 (refcnt v + 1)) (bdata v)) ;;;
      acquiresleep b ;;;
      ret b
  | None =>
      match scan (fun v => refcnt v =? 0) (reverse (order s)) (bufs s) with
      | Some b =>
          v <- get_buf b ;;
          put_buf b (mkBuf false dev bn (block_lock v) 1 (bdata v)) ;;;
          acquiresleep b ;;;
          ret b
      | None => panic "bget: no buffers"
      end
  end.

Definition bread (dev bn : Z) : M bst Z :=
  b <- bget dev bn ;;
  v <- get_buf b ;;
  when (negb (bvalid v))
    (disk_read b ;;;
     v <- get_buf b ;;
     put_buf b (mkBuf true (bdev v) (blockno v) (block_lock v) (refcnt v) (bdata v))) ;;;
  ret b.

Definition bwrite (b : Z) : M bst unit :=
  h <- holdingsleep b ;;
  if (h : bool) then disk_write b else panic "bwrite".

Definition brelse (b : Z) : M bst unit :=
  h <- holdingsleep b ;;
  if negb h then panic "brelse"
  else
    releasesleep b ;;;
    v <- get_buf b ;;
    let r := u32 (refcnt v - 1) in
    put_buf b (mkBuf (bvalid v) (bdev v) (blockno v) (block_lock v) r (bdata v)) ;;;
    when (r =? 0) (modify (fun s => set_order (b :: filter (fun x => x <> b) (order s)) s)).

Definition bpin (b : Z) : M bst unit :=
  v <- get_buf b ;;
  put_buf b (mkBuf (bvalid v) (bdev v) (blockno v) (block_lock v) (u32 (refcnt v + 1)) (bdata v)).

Definition bunpin (b : Z) : M bst unit :=
  v <- get_buf b ;;
  put_buf b (mkBuf (bvalid v) (bdev v) (blockno v) (block_lock v) (u32 (refcnt v - 1)) (bdata v)).

(** Change the data of a buffer, as the callers of [bread] do. *)
Definition set_data (b : Z) (d : block) : M bst unit :=
  v <- get_buf b ;;
  put_buf b (mkBuf (bvalid v) (bdev v) (blockno v) (block_lock v) (refcnt v) d).
Definition get_data (b : Z) : M bst block := v <- get_buf b ;; ret (bdata v).

(** ** What the cache represents

    [V]: the current contents of every block; [R]: how many references
    ([bread] without [brelse], and pins) a block has; [Lk]: which blocks are
    locked by the running process. *)

Definition bat (s : bst) (i : Z) (v : buf) : Prop := aget (bufs s) i = Some v.

Record cache (s : bst) (V : Z -> block) (R : Z -> Z) (Lk : Z -> Prop) : Prop := mkCache {
  ca_len : length (bufs s) = Z.to_nat NBUF;
  ca_order : order s ≡ₚ seqZ 0 NBUF;
  ca_uniq : forall i v j w, bat s i v -> bat s j w -> bdev v = 1 -> bdev w = 1 -> blockno v = blockno w -> i = j;
  ca_dev : forall i v, bat s i v -> bdev v = 1 \/ (bdev v = 0 /\ refcnt v = 0);
  ca_used : forall i v, bat s i v -> refcnt v <> 0 ->
    bvalid v = true /\ R (blockno v) = refcnt v
    /\ ((Lk (blockno v) /\ block_lock v = Some (me s)) \/ (~ Lk (blockno v) /\ block_lock v = None));
  ca_free : forall i v, bat s i v -> refcnt v = 0 ->
    block_lock v = None /\ (bdev v = 1 -> R (blockno v) = 0);
  ca_valid : forall i v, bat s i v -> bdev v = 1 -> bvalid v = true -> bdata v = V (blockno v);
  ca_R : forall bn, 0 <= R bn < 2 ^ 31
    /\ (R bn <> 0 -> exists i v, bat s i v /\ refcnt v <> 0 /\ blockno v = bn)
    /\ (R bn = 0 -> V bn = dsk s bn /\ ~ Lk bn)
}.

(** Buffer [i] is the one of block [bn]. *)
Definition is_buf (s : bst) (i bn : Z) : Prop := exists v, bat s i v /\ blockno v = bn /\ refcnt v <> 0.

Definition fset {X} (f : Z -> X) (k : Z) (x : X) : Z -> X := fun y => if y =? k then x else f y.

Lemma fset_eq {X} (f : Z -> X) k x : fset f k x k = x.
Proof. unfold fset. by rewrite Z.eqb_refl. Qed.
Lemma fset_ne {X} (f : Z -> X) k x y : y <> k -> fset f k x y = f y.
Proof. intros H. unfold fset. by rewrite (proj2 (Z.eqb_neq y k)). Qed.

Lemma scan_some p l bs b : scan p l bs = Some b -> b ∈ l /\ exists v, aget bs b = Some v /\ p v = true.
Proof.
  induction l as [|x l IH]; simpl; [done|]. destruct (aget bs x) as [v|] eqn:E.
  - destruct (p v) eqn:Ep.
    + intros [= <-]. split; [left|]. eauto.
    + intros H. destruct (IH H) as [? ?]. split; [by right | done].
  - intros H. destruct (IH H) as [? ?]. split; [by right | done].
Qed.

Lemma scan_none p l bs b v : scan p l bs = None -> b ∈ l -> aget bs b = Some v -> p v = false.
Proof.
  induction l as [|x l IH]; simpl; [by intros _ ?%not_elem_of_nil|].
  intros H [->|Hin]%elem_of_cons Hv.
  - rewrite Hv in H. by destruct (p v).
  - destruct (aget bs x) as [w|]; [destruct (p w); [done|]|]; by apply IH.
Qed.

Lemma get_buf_wp s i v (Q : buf -> bst -> Prop) : bat s i v -> Q v s -> wp (get_buf i) s Q.
Proof. intros Hv HQ. unfold get_buf. wp_steps. by eapply wp_from_option. Qed.

Lemma put_buf_wp s i v0 v (Q : unit -> bst -> Prop) :
  bat s i v0 -> (forall s', s' = set_bufs (<[Z.to_nat i := v]> (bufs s)) s ->
    (forall j w, bat s' j w <-> (j = i /\ w = v) \/ (j <> i /\ bat s j w)) -> Q tt s') ->
  wp (put_buf i v) s Q.
Proof.
  intros Hv HQ. unfold put_buf. wp_steps. pose proof (aget_range _ _ _ Hv).
  eapply wp_from_option; [by apply aset_is_Some|]. wp_steps. apply HQ; [done|].
  intros j w. unfold bat. cbn [bufs set_bufs]. destruct (Z.lt_ge_cases j 0).
  - assert (forall l : list buf, aget l j = None) as Hn by (intros l; unfold aget; by rewrite (proj2 (Z.ltb_lt j 0))).
    rewrite !Hn. naive_solver lia.
  - rewrite aget_insert by lia. destruct (j =? i) eqn:E; bool_prop; naive_solver.
Qed.

Section Cache.
  Context (s : bst) (V : Z -> block) (R : Z -> Z) (Lk : Z -> Prop) (C : cache s V R Lk).

Lemma bat_range i v : bat s i v -> 0 <= i < NBUF.
Proof. intros Hv. apply aget_range in Hv. rewrite (ca_len _ _ _ _ C) in Hv. unfold NBUF in *. lia. Qed.

Lemma bat_exists i : 0 <= i < NBUF -> exists v, bat s i v.
Proof. intros Hi. apply aget_is_Some. rewrite (ca_len _ _ _ _ C). unfold NBUF in *. lia. Qed.

Lemma in_order i : 0 <= i < NBUF -> i ∈ order s.
Proof. intros Hi. rewrite (ca_order _ _ _ _ C). apply elem_of_seqZ. lia. Qed.

(** Fewer than thirty blocks in use: some buffer is free. *)
Lemma room (B : list Z) :
  (forall bn, R bn <> 0 -> bn ∈ B) -> Z.of_nat (length B) < NBUF -> exists i v, bat s i v /\ refcnt v = 0.
Proof.
  intros HB Hl.
  destruct (scan (fun v => refcnt v =? 0) (seqZ 0 NBUF) (bufs s)) as [i|] eqn:E.
  { apply scan_some in E as (_ & v & Hv & Hz). apply Z.eqb_eq in Hz. by exists i, v. }
  exfalso.
  set (f := fun i => match aget (bufs s) i with Some v => blockno v | None => 0 end).
  assert (forall i v, bat s i v -> refcnt v <> 0) as Hall.
  { intros i v Hv. pose proof (scan_none _ _ _ i v E) as Hn. rewrite elem_of_seqZ in Hn.
    specialize (Hn ltac:(pose proof (bat_range i v Hv); lia) Hv). by apply Z.eqb_neq in Hn. }
  assert (NoDup (f <$> seqZ 0 NBUF)) as Hnd.
  { apply NoDup_fmap_2_strong; [|apply NoDup_seqZ]. intros i j Hi Hj Eij.
    apply elem_of_seqZ in Hi, Hj. destruct (bat_exists i ltac:(lia)) as [v Hv]. destruct (bat_exists j ltac:(lia)) as [w Hw].
    unfold f in Eij. unfold bat in Hv, Hw. rewrite Hv, Hw in Eij.
    apply (ca_uniq _ _ _ _ C i v j w); try done.
    - destruct (ca_dev _ _ _ _ C i v Hv) as [?|[_ ?]]; [done | by apply Hall in Hv].
    - destruct (ca_dev _ _ _ _ C j w Hw) as [?|[_ ?]]; [done | by apply Hall in Hw]. }
  assert (length (f <$> seqZ 0 NBUF) <= length B)%nat as Hle.
  { apply submseteq_length, NoDup_submseteq; [done|]. intros x Hx. apply list_elem_of_fmap in Hx as (i & -> & Hi).
    apply elem_of_seqZ in Hi. destruct (bat_exists i ltac:(lia)) as [v Hv]. unfold f. unfold bat in Hv. rewrite Hv.
    apply HB. destruct (ca_used _ _ _ _ C i v Hv (Hall i v Hv)) as (_ & -> & _). by apply (Hall i v). }
  rewrite length_fmap, length_seqZ in Hle. unfold NBUF in *. lia.
Qed.

Lemma is_buf_fun i j bn : is_buf s i bn -> is_buf s j bn -> i = j.
Proof.
  intros (v & Hv & Eb & Hr) (w & Hw & Eb' & Hr'). apply (ca_uniq _ _ _ _ C i v j w); try done; [| |congruence].
  - destruct (ca_dev _ _ _ _ C i v Hv) as [?|[_ ?]]; done.
  - destruct (ca_dev _ _ _ _ C j w Hw) as [?|[_ ?]]; done.
Qed.

(** The buffer of a referenced block. *)
Lemma is_buf_facts i bn : is_buf s i bn ->
  exists v, bat s i v /\ blockno v = bn /\ bdev v = 1 /\ bvalid v = true /\ refcnt v = R bn /\ R bn <> 0 /\ bdata v = V bn
    /\ ((Lk bn /\ block_lock v = Some (me s)) \/ (~ Lk bn /\ block_lock v = None)).
Proof.
  intros (v & Hv & Eb & Hr). destruct (ca_used _ _ _ _ C i v Hv Hr) as (Hva & HR & Hl).
  assert (bdev v = 1) as Hd by (destruct (ca_dev _ _ _ _ C i v Hv) as [?|[_ ?]]; done).
  exists v. rewrite <- Eb. split_and!; try done; [congruence|]. by apply (ca_valid _ _ _ _ C i v).
Qed.

End Cache.

(** Replace the buffer at [i] by one for block [bn]: either it was that
    block's buffer, or it was free and no buffer had the block. *)
Lemma cache_update s V R Lk s' V' R' Lk' i v v' bn :
  cache s V R Lk -> bat s i v ->
  (forall j w, bat s' j w <-> (j = i /\ w = v') \/ (j <> i /\ bat s j w)) ->
  length (bufs s') = length (bufs s) -> order s' ≡ₚ seqZ 0 NBUF -> me s' = me s ->
  bdev v' = 1 -> blockno v' = bn ->
  ((bdev v = 1 /\ blockno v = bn) \/ (refcnt v = 0 /\ forall j w, bat s j w -> bdev w = 1 -> blockno w <> bn)) ->
  (forall x, x <> bn -> V' x = V x /\ R' x = R x /\ (Lk' x <-> Lk x) /\ dsk s' x = dsk s x) ->
  (refcnt v' <> 0 -> bvalid v' = true /\ R' bn = refcnt v'
     /\ ((Lk' bn /\ block_lock v' = Some (me s)) \/ (~ Lk' bn /\ block_lock v' = None))) ->
  (refcnt v' = 0 -> block_lock v' = None /\ R' bn = 0) ->
  (bvalid v' = true -> bdata v' = V' bn) ->
  0 <= R' bn < 2 ^ 31 -> (R' bn = 0 -> V' bn = dsk s' bn /\ ~ Lk' bn) ->
  cache s' V' R' Lk'.
Proof.
  intros C Hv Hs' Hlen Hord Hme Hd' Hb' Hwas Hoth Huse Hfree Hval HR HR0.
  assert (forall j w, bat s j w -> j <> i -> bdev w = 1 -> blockno w <> bn) as Hother.
  { intros j w Hw Hne Hd E. destruct Hwas as [[Hvd Hvb]|[_ Hno]]; [|by apply (Hno j w)].
    apply Hne. apply (ca_uniq _ _ _ _ C j w i v); try done; congruence. }
  constructor.
  - rewrite Hlen. apply (ca_len _ _ _ _ C).
  - done.
  - intros j1 w1 j2 w2 H1 H2 D1 D2 E. apply Hs' in H1 as [[-> ->]|[N1 H1]], H2 as [[-> ->]|[N2 H2]]; try done.
    + exfalso. apply (Hother j2 w2 H2 N2 D2). congruence.
    + exfalso. apply (Hother j1 w1 H1 N1 D1). congruence.
    + by apply (ca_uniq _ _ _ _ C j1 w1 j2 w2).
  - intros j w H1. apply Hs' in H1 as [[-> ->]|[N1 H1]]; [by left|]. by apply (ca_dev _ _ _ _ C j w).
  - intros j w H1 Hr. apply Hs' in H1 as [[-> ->]|[N1 H1]]; [rewrite Hb', Hme; by apply Huse|].
    assert (bdev w = 1) as D by (destruct (ca_dev _ _ _ _ C j w H1) as [?|[_ ?]]; done).
    pose proof (Hother j w H1 N1 D) as Hnb. destruct (Hoth (blockno w) Hnb) as (_ & -> & -> & _).
    rewrite Hme. by apply (ca_used _ _ _ _ C j w).
  - intros j w H1 Hr. apply Hs' in H1 as [[-> ->]|[N1 H1]].
    + destruct (Hfree Hr). split; [done|]. intros _. by rewrite Hb'.
    + destruct (ca_free _ _ _ _ C j w H1 Hr) as [? Hx]. split; [done|]. intros D.
      destruct (Hoth (blockno w) (Hother j w H1 N1 D)) as (_ & -> & _). by apply Hx.
  - intros j w H1 D Hva. apply Hs' in H1 as [[-> ->]|[N1 H1]]; [rewrite Hb'; by apply Hval|].
    destruct (Hoth (blockno w) (Hother j w H1 N1 D)) as (-> & _). by apply (ca_valid _ _ _ _ C j w).
  - intros x. destruct (decide (x = bn)) as [->|Hne].
    + split; [done|]. split; [|done]. intros Hx. exists i, v'. split; [apply Hs'; by left|]. split; [|done].
      intros Hr. destruct (Hfree Hr). done.
    + destruct (Hoth x Hne) as (-> & -> & -> & ->). destruct (ca_R _ _ _ _ C x) as (? & Hx & ?).
      split; [done|]. split; [|done]. intros HRx. destruct (Hx HRx) as (j & w & Hw & Hrw & Eb).
      exists j, w. split; [|done]. apply Hs'. right. split; [|done]. intros ->.
      assert (w = v) as -> by (unfold bat in *; congruence). destruct Hwas as [[_ ?]|[? _]]; [congruence | done].
Qed.

(** Handles of other blocks survive a change of the buffer of [bn]. *)
Lemma is_buf_frame s s' i v v' bn j bn' :
  bat s i v -> (forall j w, bat s' j w <-> (j = i /\ w = v') \/ (j <> i /\ bat s j w)) ->
  (blockno v = bn \/ refcnt v = 0) -> bn' <> bn -> is_buf s j bn' -> is_buf s' j bn'.
Proof.
  intros Hv Hs' Hwas Hne (w & Hw & Eb & Hr). exists w. split; [|done]. apply Hs'. right. split; [|done].
  intros ->. assert (w = v) as -> by (unfold bat in *; congruence). destruct Hwas; congruence.
Qed.

(** What an operation on block [bn] leaves alone. *)
Definition others (s s' : bst) (bn : Z) : Prop :=
  me s' = me s /\ (forall j bn', bn' <> bn -> is_buf s j bn' -> is_buf s' j bn').

Section Ops.
  Context (s : bst) (V : Z -> block) (R : Z -> Z) (Lk : Z -> Prop) (C : cache s V R Lk).

(** The end of [bget]: take the sleep lock of the buffer, set up as [v1]. *)
#[local] Lemma lock_buf_wp i v v1 bn (Q : Z -> bst -> Prop) :
  bat s i v -> bdev v1 = 1 -> blockno v1 = bn -> block_lock v1 = None ->
  (forall s', (forall j w, bat s' j w <->
       (j = i /\ w = mkBuf (bvalid v1) 1 bn (Some (me s)) (refcnt v1) (bdata v1)) \/ (j <> i /\ bat s j w)) ->
     length (bufs s') = length (bufs s) -> order s' = order s -> dsk s' = dsk s -> wrote s' = wrote s -> me s' = me s ->
     Q i s') ->
  wp (put_buf i v1 ;;; acquiresleep i ;;; ret i) s Q.
Proof.
  intros Hv Hd Hb Hl HQ. wp_step. eapply put_buf_wp; [exact Hv|]. intros s1 Es1 H1.
  assert (bat s1 i v1) as Hv1 by (apply H1; by left).
  wp_step. unfold acquiresleep. wp_step. eapply get_buf_wp; [exact Hv1|]. wp_step. wp_step. rewrite Hl.
  eapply put_buf_wp; [exact Hv1|]. intros s2 Es2 H2. wp_step. apply HQ; try (subst s2 s1; done).
  - intros j w. rewrite H2, H1. subst s1. cbn [me set_bufs]. rewrite Hd, Hb. naive_solver.
  - subst s2 s1. cbn [bufs set_bufs]. by rewrite !length_insert.
Qed.

(** The buffer of the block, locked by the caller, holds its contents. *)
#[local] Lemma bread_done s1 i v r bn (Q : Z -> bst -> Prop) :
  bat s i v -> ((bdev v = 1 /\ blockno v = bn) \/ (refcnt v = 0 /\ forall j w, bat s j w -> bdev w = 1 -> blockno w <> bn)) ->
  (forall j w, bat s1 j w <-> (j = i /\ w = mkBuf true 1 bn (Some (me s)) r (V bn)) \/ (j <> i /\ bat s j w)) ->
  length (bufs s1) = length (bufs s) -> order s1 = order s -> dsk s1 = dsk s -> wrote s1 = wrote s -> me s1 = me s ->
  r = R bn + 1 -> 0 < r < 2 ^ 31 ->
  (forall i s', cache s' V (fset R bn (R bn + 1)) (fun x => x = bn \/ Lk x) -> is_buf s' i bn ->
     others s s' bn -> dsk s' = dsk s -> wrote s' = wrote s -> Q i s') -> Q i s1.
Proof.
  intros Hv Hwas H1 Hl1 Ho1 Hd1 Hw1 Hm1 Hr Hrange HQ. apply HQ; try done.
  - apply (cache_update s V R Lk s1 _ _ _ i v _ bn C Hv H1); try done; cbn; rewrite ?fset_eq; try lia.
    + rewrite Ho1. apply (ca_order _ _ _ _ C).
    + intros x Hx. rewrite fset_ne, Hd1 by done. split_and!; try done. naive_solver.
    + intros _. split_and!; [done | done|]. left. auto.
  - eexists. split; [apply H1; by left|]. cbn. split; [done | lia].
  - split; [done|]. intros j bn' Hne Hj. eapply is_buf_frame; [exact Hv | exact H1 | | done | done]. destruct Hwas as [[_ ?]|[? _]]; auto.
Qed.

(** After [bget]: a buffer that is not valid is read from the disk. *)
#[local] Lemma fill_wp s1 i v va r d bn (Q : Z -> bst -> Prop) :
  bat s i v -> ((bdev v = 1 /\ blockno v = bn) \/ (refcnt v = 0 /\ forall j w, bat s j w -> bdev w = 1 -> blockno w <> bn)) ->
  (forall j w, bat s1 j w <-> (j = i /\ w = mkBuf va 1 bn (Some (me s)) r d) \/ (j <> i /\ bat s j w)) ->
  length (bufs s1) = length (bufs s) -> order s1 = order s -> dsk s1 = dsk s -> wrote s1 = wrote s -> me s1 = me s ->
  r = R bn + 1 -> 0 < r < 2 ^ 31 -> (va = true -> d = V bn) -> (va = false -> V bn = dsk s bn) ->
  (forall i s', cache s' V (fset R bn (R bn + 1)) (fun x => x = bn \/ Lk x) -> is_buf s' i bn ->
     others s s' bn -> dsk s' = dsk s -> wrote s' = wrote s -> Q i s') ->
  wp (v <- get_buf i ;;
      when (negb (bvalid v))
        (disk_read i ;;; v <- get_buf i ;; put_buf i (mkBuf true (bdev v) (blockno v) (block_lock v) (refcnt v) (bdata v))) ;;;
      ret i) s1 Q.
Proof.
  intros Hv Hwas H1 Hl1 Ho1 Hd1 Hw1 Hm1 Hr Hrange Hva Hdsk HQ.
  assert (bat s1 i (mkBuf va 1 bn (Some (me s)) r d)) as Hv1 by (apply H1; by left).
  wp_step. eapply get_buf_wp; [exact Hv1|]. wp_step. cbn [bvalid]. destruct va; cbn [negb when].
  - wp_step. wp_step. rewrite (Hva eq_refl) in H1. by apply (bread_done s1 i v r bn).
  - unfold disk_read. wp_step. wp_step. eapply get_buf_wp; [exact Hv1|]. wp_step. wp_step. cbn [bvalid bdev blockno block_lock refcnt bdata].
    eapply put_buf_wp; [exact Hv1|]. intros s2 Es2 H2.
    assert (bat s2 i (mkBuf false 1 bn (Some (me s)) r (dsk s1 bn))) as Hv2 by (apply H2; by left).
    wp_step. eapply get_buf_wp; [exact Hv2|]. cbn [bdev blockno block_lock refcnt bdata].
    eapply put_buf_wp; [exact Hv2|]. intros s3 Es3 H3. wp_step. apply (bread_done s3 i v r bn); try done; try (subst s3 s2; cbn; congruence).
    + intros j w. rewrite H3, H2, H1, Hd1, Hdsk by done. naive_solver.
    + subst s3 s2. cbn [bufs set_bufs]. by rewrite !length_insert.
Qed.

(** A cached block: its buffer has the number of references that [R] says. *)
#[local] Lemma hit_facts i v bn : ~ Lk bn -> bat s i v -> bdev v = 1 -> blockno v = bn ->
  block_lock v = None /\ refcnt v = R bn /\ (bvalid v = true -> bdata v = V bn) /\ (bvalid v = false -> V bn = dsk s bn).
Proof.
  intros HLk Hv Hd Hb. assert (block_lock v = None /\ refcnt v = R bn) as [Hl Hr].
  { destruct (decide (refcnt v = 0)) as [E|E].
    - destruct (ca_free _ _ _ _ C i v Hv E) as [? Hx]. split; [done|]. rewrite <- Hb, Hx; done.
    - destruct (ca_used _ _ _ _ C i v Hv E) as (_ & HR & [[? _]|[_ ?]]); [congruence|]. split; [done|]. congruence. }
  split_and!; [done | done | |].
  - intros Eval. rewrite <- Hb. by apply (ca_valid _ _ _ _ C i v).
  - intros Eval. destruct (ca_R _ _ _ _ C bn) as (_ & _ & HR0). apply HR0.
    destruct (decide (refcnt v = 0)) as [E|E]; [lia|]. destruct (ca_used _ _ _ _ C i v Hv E) as (? & _). congruence.
Qed.

(** A block that no buffer holds has no references. *)
#[local] Lemma miss_facts bn : scan (fun v => (bdev v =? 1) && (blockno v =? bn)) (order s) (bufs s) = None ->
  (forall j w, bat s j w -> bdev w = 1 -> blockno w <> bn) /\ R bn = 0 /\ V bn = dsk s bn.
Proof.
  intros Es. assert (forall j w, bat s j w -> bdev w = 1 -> blockno w <> bn) as Hno.
  { intros j w Hw Hd Hb. pose proof (scan_none _ _ _ j w Es (in_order _ _ _ _ C j (bat_range _ _ _ _ C j w Hw)) Hw) as Hp.
    cbn beta in Hp. rewrite Hd, Hb, !Z.eqb_refl in Hp. done. }
  destruct (ca_R _ _ _ _ C bn) as (_ & Hx & HR0). assert (R bn = 0) as R0.
  { destruct (decide (R bn = 0)) as [|E]; [done|]. exfalso. destruct (Hx E) as (j & w & Hw & Hr & Eb). apply (Hno j w Hw); [|done].
    destruct (ca_dev _ _ _ _ C j w Hw) as [?|[_ ?]]; done. }
  split_and!; [done | done | by apply HR0].
Qed.

Lemma bread_wp bn (B : list Z) (Q : Z -> bst -> Prop) :
  ~ Lk bn -> R bn < 2 ^ 31 - 1 -> (R bn <> 0 \/ ((forall x, R x <> 0 -> x ∈ B) /\ Z.of_nat (length B) < NBUF)) ->
  (forall i s', cache s' V (fset R bn (R bn + 1)) (fun x => x = bn \/ Lk x) -> is_buf s' i bn ->
     others s s' bn -> dsk s' = dsk s -> wrote s' = wrote s -> Q i s') ->
  wp (bread 1 bn) s Q.
Proof.
  intros HLk HRb Hroom HQ. pose proof (ca_R _ _ _ _ C bn) as (HRr & _ & _). unfold bread, bget. wp_step. wp_step. wp_step.
  destruct (scan (fun v => (bdev v =? 1) && (blockno v =? bn)) (order s) (bufs s)) as [i|] eqn:Es.
  - apply scan_some in Es as (_ & v & Hv & Hp). fold (bat s i v) in Hv. apply andb_prop in Hp as [Hd Hb]. apply Z.eqb_eq in Hd, Hb.
    destruct (hit_facts i v bn HLk Hv Hd Hb) as (Hl & Hr & Hval & Hinv). wp_step. eapply get_buf_wp; [exact Hv|].
    eapply (lock_buf_wp i v _ bn _ Hv); try done. cbn [bvalid refcnt bdata]. rewrite u32_small by lia. intros s1 H1 Hl1 Ho1 Hd1 Hw1 Hm1.
    eapply (fill_wp s1 i v); [exact Hv | by left | exact H1 | done.. | lia | lia | done | done | done].
  - destruct (miss_facts bn Es) as (Hno & R0 & HVd).
    destruct (scan (fun v => refcnt v =? 0) (reverse (order s)) (bufs s)) as [i|] eqn:Es2.
    2:{ exfalso. destruct Hroom as [?|[HB Hl]]; [done|]. destruct (room _ _ _ _ C B HB Hl) as (i & v & Hv & Hz).
        pose proof (scan_none _ _ _ i v Es2) as Hn. rewrite elem_of_reverse in Hn.
        specialize (Hn (in_order _ _ _ _ C i (bat_range _ _ _ _ C i v Hv)) Hv). apply Z.eqb_neq in Hn. done. }
    apply scan_some in Es2 as (_ & v & Hv & Hp). fold (bat s i v) in Hv. apply Z.eqb_eq in Hp. destruct (ca_free _ _ _ _ C i v Hv Hp) as [Hl _].
    wp_step. eapply get_buf_wp; [exact Hv|]. eapply (lock_buf_wp i v _ bn _ Hv); try done.
    cbn [bvalid refcnt bdata]. intros s1 H1 Hl1 Ho1 Hd1 Hw1 Hm1.
    eapply (fill_wp s1 i v); [exact Hv | by right | exact H1 | done.. | lia | lia | done | done | done].
Qed.

Lemma get_data_wp i bn (Q : block -> bst -> Prop) : is_buf s i bn -> Q (V bn) s -> wp (get_data i) s Q.
Proof.
  intros Hi HQ. destruct (is_buf_facts _ _ _ _ C i bn Hi) as (v & Hv & _ & _ & _ & _ & _ & Hd & _).
  unfold get_data. wp_step. eapply get_buf_wp; [exact Hv|]. wp_step. by rewrite Hd.
Qed.

(** Change the one buffer of block [bn] in place. *)
#[local] Lemma change_buf_wp i bn (f : buf -> buf) V' R' Lk' (Q : unit -> bst -> Prop) :
  is_buf s i bn ->
  (forall v, bdev (f v) = bdev v /\ blockno (f v) = blockno v /\ bvalid (f v) = bvalid v) ->
  (forall x, x <> bn -> V' x = V x /\ R' x = R x /\ (Lk' x <-> Lk x)) ->
  (forall v, bat s i v -> bvalid v = true -> refcnt v = R bn -> bdata v = V bn ->
     ((Lk bn /\ block_lock v = Some (me s)) \/ (~ Lk bn /\ block_lock v = None)) ->
     refcnt (f v) = R' bn /\ bdata (f v) = V' bn
     /\ ((Lk' bn /\ block_lock (f v) = Some (me s)) \/ (~ Lk' bn /\ block_lock (f v) = None))) ->
  0 <= R' bn < 2 ^ 31 -> (R' bn = 0 -> V' bn = dsk s bn /\ ~ Lk' bn) ->
  (forall s', cache s' V' R' Lk' -> (R' bn <> 0 -> is_buf s' i bn) -> others s s' bn ->
     dsk s' = dsk s -> wrote s' = wrote s -> order s' = order s -> Q tt s') ->
  wp (v <- get_buf i ;; put_buf i (f v)) s Q.
Proof.
  intros Hi Hf Hoth Hnew HR HR0 HQ.
  destruct (is_buf_facts _ _ _ _ C i bn Hi) as (v & Hv & Hb & Hd & Hva & Hr & HRne & Hdat & Hl).
  destruct (Hnew v Hv Hva Hr Hdat Hl) as (Hr' & Hd' & Hl'). destruct (Hf v) as (F1 & F2 & F3).
  wp_step. eapply get_buf_wp; [exact Hv|]. eapply put_buf_wp; [exact Hv|]. intros s1 Es1 H1.
  apply HQ; try (by subst s1).
  - apply (cache_update s V R Lk s1 V' R' Lk' i v (f v) bn C Hv H1); try done; try congruence.
    + subst s1. cbn [bufs set_bufs]. by rewrite length_insert.
    + subst s1. cbn [order set_bufs]. apply (ca_order _ _ _ _ C).
    + by subst s1.
    + by left.
    + intros x Hx. destruct (Hoth x Hx) as (? & ? & ?). subst s1. by split_and!.
    + intros _. split; [congruence|]. split; [done | done].
    + intros E. split; [|lia]. destruct Hl' as [[Hlk _]|[_ ?]]; [|done]. exfalso. apply HR0; [lia | done].
    + subst s1. cbn. done.
  - intros Hne. exists (f v). split; [apply H1; by left|]. split; [congruence|]. congruence.
  - split; [by subst s1|]. intros j bn' Hne Hj. eapply is_buf_frame; [exact Hv | exact H1 | by left | done | done].
Qed.

Lemma set_data_wp i bn d (Q : unit -> bst -> Prop) :
  is_buf s i bn -> 
  (forall s', cache s' (fset V bn d) R Lk -> is_buf s' i bn -> others s s' bn ->
     dsk s' = dsk s -> wrote s' = wrote s -> Q tt s') ->
  wp (set_data i d) s Q.
Proof.
  intros Hi HQ. destruct (is_buf_facts _ _ _ _ C i bn Hi) as (v & _ & _ & _ & _ & _ & HRne & _).
  pose proof (ca_R _ _ _ _ C bn) as (HRr & _ & _).
  eapply (change_buf_wp i bn (fun v => mkBuf (bvalid v) (bdev v) (blockno v) (block_lock v) (refcnt v) d) (fset V bn d) R Lk); try done.
  - intros x Hx. by rewrite fset_ne.
  - intros v0 _ _ ? _ ?. cbn. by rewrite fset_eq.
  - intros s' C' Hb Ho Hd Hw _. apply HQ; try done. by apply Hb.
Qed.

Lemma bpin_wp i bn (Q : unit -> bst -> Prop) :
  is_buf s i bn -> R bn < 2 ^ 31 - 1 ->
  (forall s', cache s' V (fset R bn (R bn + 1)) Lk -> is_buf s' i bn -> others s s' bn ->
     dsk s' = dsk s -> wrote s' = wrote s -> Q tt s') ->
  wp (bpin i) s Q.
Proof.
  intros Hi Hb HQ. destruct (is_buf_facts _ _ _ _ C i bn Hi) as (v & _ & _ & _ & _ & _ & HRne & _).
  pose proof (ca_R _ _ _ _ C bn) as (HRr & _ & _).
  eapply (change_buf_wp i bn (fun v => mkBuf (bvalid v) (bdev v) (blockno v) (block_lock v) (u32 (refcnt v + 1)) (bdata v)) V (fset R bn (R bn + 1)) Lk); try done.
  - intros x Hx. by rewrite fset_ne.
  - intros v0 _ _ Hr ? ?. cbn. rewrite fset_eq, Hr, u32_small by lia. done.
  - rewrite fset_eq. lia.
  - rewrite fset_eq. lia.
  - intros s' C' Hx Ho Hd Hw _. apply HQ; try done. apply Hx. rewrite fset_eq. lia.
Qed.

Lemma bunpin_wp i bn (Q : unit -> bst -> Prop) :
  is_buf s i bn -> (R bn = 1 -> V bn = dsk s bn /\ ~ Lk bn) ->
  (forall s', cache s' V (fset R bn (R bn - 1)) Lk -> (R bn <> 1 -> is_buf s' i bn) -> others s s' bn ->
     dsk s' = dsk s -> wrote s' = wrote s -> Q tt s') ->
  wp (bunpin i) s Q.
Proof.
  intros Hi Hb HQ. destruct (is_buf_facts _ _ _ _ C i bn Hi) as (v & _ & _ & _ & _ & _ & HRne & _).
  pose proof (ca_R _ _ _ _ C bn) as (HRr & _ & _).
  eapply (change_buf_wp i bn (fun v => mkBuf (bvalid v) (bdev v) (blockno v) (block_lock v) (u32 (refcnt v - 1)) (bdata v)) V (fset R bn (R bn - 1)) Lk); try done.
  - intros x Hx. by rewrite fset_ne.
  - intros v0 _ _ Hr ? ?. cbn. rewrite fset_eq, Hr, u32_small by lia. done.
  - rewrite fset_eq. lia.
  - rewrite fset_eq. intros E. apply Hb. lia.
  - intros s' C' Hx Ho Hd Hw _. apply HQ; try done. intros Hne. apply Hx. rewrite fset_eq. lia.
Qed.

(** The running process holds the lock of a block in [Lk]. *)
#[local] Lemma holding_wp i bn (Q : bool -> bst -> Prop) : is_buf s i bn -> Lk bn -> Q true s -> wp (holdingsleep i) s Q.
Proof.
  intros Hi HLk HQ. destruct (is_buf_facts _ _ _ _ C i bn Hi) as (v & Hv & _ & _ & _ & _ & _ & _ & [[_ Hl]|[? _]]); [|done].
  unfold holdingsleep. wp_step. eapply get_buf_wp; [exact Hv|]. wp_step. wp_step. wp_step.
  by rewrite Hl, bool_decide_true.
Qed.

Lemma bwrite_wp i bn (Q : unit -> bst -> Prop) :
  is_buf s i bn -> Lk bn ->
  (forall s', cache s' V R Lk -> is_buf s' i bn -> others s s' bn ->
     dsk s' = (fun x => if x =? bn then V bn else dsk s x) -> wrote s' = wrote s ++ [(bn, V bn)] -> Q tt s') ->
  wp (bwrite i) s Q.
Proof.
  intros Hi HLk HQ. destruct (is_buf_facts _ _ _ _ C i bn Hi) as (v & Hv & Hb & Hd & Hva & Hr & HRne & Hdat & Hl).
  unfold bwrite. wp_step. eapply holding_wp; [done..|].
  unfold disk_write. wp_step. eapply get_buf_wp; [exact Hv|]. wp_step. rewrite Hb, Hdat.
  apply HQ; try done. destruct C as [C1 C2 C3 C4 C5 C6 C7 C8]. constructor; try done.
  intros x. destruct (C8 x) as (? & ? & H0). split; [done|]. split; [done|]. intros HR0.
  destruct (H0 HR0) as [HV ?]. split; [|done]. cbn. case_if; [by subst | done].
Qed.

Lemma brelse_wp i bn (Q : unit -> bst -> Prop) :
  is_buf s i bn -> Lk bn -> (R bn = 1 -> V bn = dsk s bn) ->
  (forall s', cache s' V (fset R bn (R bn - 1)) (fun x => x <> bn /\ Lk x) -> (R bn <> 1 -> is_buf s' i bn) ->
     others s s' bn -> dsk s' = dsk s -> wrote s' = wrote s -> Q tt s') ->
  wp (brelse i) s Q.
Proof.
  intros Hi HLk Hclean HQ. destruct (is_buf_facts _ _ _ _ C i bn Hi) as (v & Hv & Hb & Hd & Hva & Hr & HRne & Hdat & Hl).
  pose proof (ca_R _ _ _ _ C bn) as (HRr & _ & _).
  unfold brelse. wp_step. eapply holding_wp; [done..|]. cbn [negb]. wp_step. unfold releasesleep.
  wp_step. eapply get_buf_wp; [exact Hv|]. eapply put_buf_wp; [exact Hv|]. intros s1 Es1 H1.
  assert (bat s1 i (mkBuf (bvalid v) (bdev v) (blockno v) None (refcnt v) (bdata v))) as Hv1 by (apply H1; by left).
  wp_step. eapply get_buf_wp; [exact Hv1|]. cbn [bvalid bdev blockno block_lock refcnt bdata].
  wp_step. eapply put_buf_wp; [exact Hv1|]. intros s2 Es2 H2. rewrite u32_small by lia.
  set (v' := mkBuf (bvalid v) (bdev v) (blockno v) None (refcnt v - 1) (bdata v)) in *.
  assert (forall j w, bat s2 j w <-> (j = i /\ w = v') \/ (j <> i /\ bat s j w)) as H02.
  { intros j w. rewrite H2, H1. subst v'. rewrite u32_small by lia. naive_solver. }
  assert (forall s3, bufs s3 = bufs s2 -> order s3 ≡ₚ seqZ 0 NBUF -> dsk s3 = dsk s -> wrote s3 = wrote s -> me s3 = me s -> Q tt s3) as Hfin.
  { intros s3 Eb Eo Ed Ew Em.
    assert (forall j w, bat s3 j w <-> (j = i /\ w = v') \/ (j <> i /\ bat s j w)) as H03
      by (intros j w; unfold bat at 1; rewrite Eb; apply H02).
    apply HQ; try done.
    - apply (cache_update s V R Lk s3 _ _ _ i v v' bn C Hv H03); try done.
      + rewrite Eb. subst s2 s1. cbn [bufs set_bufs]. by rewrite !length_insert.
      + by left.
      + intros x Hx. rewrite fset_ne, Ed by done. split_and!; try done. naive_solver.
      + cbn. intros _. rewrite fset_eq. split; [done|]. split; [lia|]. right. split; [naive_solver | done].
      + cbn. intros E. rewrite fset_eq. split; [done | lia].
      + rewrite fset_eq. lia.
      + rewrite fset_eq. intros E. rewrite Ed. split; [apply Hclean; lia | naive_solver].
    - intros Hne. exists v'. split; [apply H03; by left|]. cbn. split; [done | lia].
    - split; [done|]. intros j bn' Hne Hj. eapply is_buf_frame; [exact Hv | exact H03 | by left | done | done]. }
  apply wp_when; intros Er.
  - unfold wp. eexists _, _. split; [reflexivity|]. apply Hfin; try (by subst s2 s1).
    cbn [order set_order]. assert (order s2 = order s) as -> by (by subst s2 s1).
    pose proof (ca_order _ _ _ _ C) as Hp.
    assert (NoDup (order s)) as Hnd by (rewrite Hp; apply NoDup_seqZ).
    assert (i ∈ order s) as Hin by (apply (in_order _ _ _ _ C), (bat_range _ _ _ _ C i v Hv)).
    rewrite <- Hp. clear -Hnd Hin. induction (order s) as [|x l IH]; [by apply not_elem_of_nil in Hin|].
    apply NoDup_cons in Hnd as [Hx Hnd]. destruct (decide (x = i)) as [->|Hne].
    + rewrite filter_cons_False by tauto. f_equiv.
      assert (filter (fun x => x <> i) l = l) as ->; [|done].
      clear -Hx. induction l as [|y l IH]; [done|]. rewrite filter_cons_True by set_solver. f_equal. apply IH. set_solver.
    + rewrite filter_cons_True by done. rewrite (Permutation_swap x i). f_equiv. apply IH; [done|]. set_solver.
  - apply Hfin; try (by subst s2 s1). subst s2 s1. cbn. apply (ca_order _ _ _ _ C).
Qed.

End Ops.

(** Only the values of [V], [R] and [Lk] matter. *)
Lemma cache_ext s V R Lk V' R' Lk' :
  cache s V R Lk -> (forall x, V' x = V x) -> (forall x, R' x = R x) -> (forall x, Lk' x <-> Lk x) ->
  cache s V' R' Lk'.
Proof.
  intros [C1 C2 C3 C4 C5 C6 C7 C8] EV ER EL. constructor; try done.
  - intros i v Hv Hr. rewrite ER, EL. by apply (C5 i v).
  - intros i v Hv Hr. rewrite ER. by apply (C6 i v).
  - intros i v Hv Hd Hva. rewrite EV. by apply (C7 i v).
  - intros bn. rewrite ER, EV, EL. apply C8.
Qed.

(** [binit] sets up an empty cache over the disk. *)
Lemma binit_wp s (Q : unit -> bst -> Prop) :
  (forall s', cache s' (dsk s) (fun _ => 0) (fun _ => False) -> dsk s' = dsk s -> wrote s' = wrote s -> me s' = me s -> Q tt s') ->
  wp binit s Q.
Proof.
  intros HQ. unfold binit. wp_step. apply HQ; try done.
  assert (forall s0 i v, bufs s0 = replicate (Z.to_nat NBUF) empty_buf -> bat s0 i v -> v = empty_buf) as He.
  { intros s0 i v E Hv. unfold bat in Hv. rewrite E in Hv. apply aget_lookup in Hv as [_ Hv].
    by apply lookup_replicate in Hv as [-> _]. }
  constructor; cbn [bufs order dsk].
  - apply length_replicate.
  - replace (foldl _ _ _) with (rev (seqZ 0 NBUF)) by reflexivity. by rewrite <- Permutation_rev.
  - intros i v j w Hv. apply He in Hv as ->; [|done]. done.
  - intros i v Hv. apply He in Hv as ->; [|done]. by right.
  - intros i v Hv. apply He in Hv as ->; [|done]. done.
  - intros i v Hv _. apply He in Hv as ->; [|done]. done.
  - intros i v Hv. apply He in Hv as ->; [|done]. done.
  - intros bn. split; [lia|]. split; [done|]. intros _. split; [done | tauto].
Qed.

(** [bread] of a block that the running process has not locked returns,
    when the block is in use already or fewer than thirty blocks are, the one
    buffer of that block, locked by the process, whose data are the block's
    current contents; the current contents of every block, the disk and the
    references to other blocks stay as they were. *)
Theorem bread_correct (s : bst) (V : Z -> block) (R : Z -> Z) (Lk : Z -> Prop) (bn : Z) (B : list Z)
  (C : cache s V R Lk) (Hun : ~ Lk bn) (HR : R bn < 2 ^ 31 - 1)
  (Hroom : R bn <> 0 \/ ((forall x, R x <> 0 -> x ∈ B) /\ Z.of_nat (length B) < NBUF)) :
  exists i s' v, bread 1 bn s = Ret (i, s')
    /\ cache s' V (fset R bn (R bn + 1)) (fun x => x = bn \/ Lk x)
    /\ aget (bufs s') i = Some v /\ blockno v = bn /\ bdata v = V bn /\ bvalid v = true
    /\ block_lock v = Some (me s) /\ refcnt v = R bn + 1
    /\ dsk s' = dsk s /\ wrote s' = wrote s.
Proof.
  assert (wp (bread 1 bn) s (fun i s' => cache s' V (fset R bn (R bn + 1)) (fun x => x = bn \/ Lk x)
    /\ is_buf s' i bn /\ me s' = me s /\ dsk s' = dsk s /\ wrote s' = wrote s)) as H.
  { eapply (bread_wp s V R Lk C bn B); try done. intros i s' C' Hi [Hm _] Hd Hw. by split_and!. }
  destruct H as (i & s' & E & C' & Hi & Hm & Hd & Hw).
  destruct (is_buf_facts _ _ _ _ C' i bn Hi) as (v & Hv & Hb & _ & Hva & Hr & _ & Hdat & Hl).
  exists i, s', v. rewrite fset_eq in Hr. destruct Hl as [[_ Hl]|[Hl _]]; [|exfalso; apply Hl; by left].
  rewrite <- Hm. by split_and!.
Qed.

Lemma bread_correct_witness : exists s0 s1 i s' v,
  binit s0 = Ret (tt, s1) /\ bread 1 7 s1 = Ret (i, s')
  /\ aget (bufs s') i = Some v /\ bdata v = [7] /\ refcnt v = 1.
Proof.
  set (s0 := mkBst [] [] (fun bn => [bn]) [] 3).
  destruct (binit_wp s0 (fun _ s' => cache s' (dsk s0) (fun _ => 0) (fun _ => False))) as ([] & s1 & E & C); [auto|].
  destruct (bread_correct s1 (dsk s0) (fun _ => 0) (fun _ => False) 7 [] C) as (i & s' & v & E2 & C' & Hv & ? & Hd & ? & ? & Hr & _).
  - tauto.
  - reflexivity.
  - right. split; [intros x H; exfalso; apply H; reflexivity | reflexivity].
  - exists s0, s1, i, s', v. split; [exact E|]. split; [exact E2|]. split; [exact Hv|]. split; [exact Hd | exact Hr].
Defined.
