(* ===== verification/Log.v ===== *)
(** * The write-ahead log (kernel/log.c)

    The in-memory log ([struct log]), the operations of the file over the
    buffer cache of Bio.v, and what they do to the disk.  [acquire] and
    [release] of [log.lock] delimit the critical sections; each definition
    here that touches the log's fields is one of them ([end_op] is two, with
    the commit between them).  [begin_op] returns whether the operation may
    start: [false] is the branch that sleeps and tries again. *)

From S2P Require Import Prelude Bytes Bio.

Definition MAXOPBLOCKS : Z := 10.
Definition LOGSIZE : Z := MAXOPBLOCKS * 3.

(** [struct log], with the [struct logheader] inside. *)
Record log := mkLog {
  start : Z;
  size : Z;
  outstanding : Z;      (* how many FS sys calls are executing *)
  committing : bool;    (* in commit(), please wait *)
  dev : Z;
  lh_n : Z;
  lh_block : list Z
}.

Definition log0 : log := mkLog 0 0 0 false 0 0 (replicate (Z.to_nat LOGSIZE) 0).

Record lst := mkLst { lg : log; bc : bst }.

Definition set_lh (n : Z) (b : list Z) (l : log) : log :=
  mkLog (start l) (size l) (outstanding l) (committing l) (dev l) n b.
Definition set_out (o : Z) (c : bool) (l : log) : log :=
  mkLog (start l) (size l) o c (dev l) (lh_n l) (lh_block l).

Definition log_modify (f : log -> log) : M lst unit := modify (fun st => mkLst (f (lg st)) (bc st)).
(** An operation of the buffer cache. *)
Definition onb {A} (m : M bst A) : M lst A := zoom bc (fun b st => mkLst (lg st) b) m.

(** Copy committed blocks from the log to their home location. *)
Definition install_trans (recovering : bool) : M lst unit :=
  n <- gets (fun st => lh_n (lg st)) ;;
  for_range 0 n (fun tail =>
    l <- gets lg ;;
    lbuf <- onb (bread (dev l) (u32 (start l + tail + 1))) ;;
    bn <- from_option "log.lh.block" (aget (lh_block l) tail) ;;
    dbuf <- onb (bread (dev l) (u32 bn)) ;;
    d <- onb (get_data lbuf) ;;
    onb (set_data dbuf d) ;;;
    onb (bwrite dbuf) ;;;
    when (negb recovering) (onb (bunpin dbuf)) ;;;
    onb (brelse lbuf) ;;;
    onb (brelse dbuf)).

(** Read the log header from disk into the in-memory log header. *)
Definition read_head : M lst unit :=
  l <- gets lg ;;
  b <- onb (bread (dev l) (u32 (start l))) ;;
  d <- onb (get_data b) ;;
  let n := i32 (rd32 d 0) in
  log_modify (fun l => set_lh n (lh_block l) l) ;;;
  for_range 0 n (fun i =>
    l <- gets lg ;;
    blk <- from_option "log.lh.block" (aset (lh_block l) i (i32 (rd32 d (4 + 4 * i)))) ;;
    log_modify (set_lh (lh_n l) blk)) ;;;
  onb (brelse b).

(** The bytes of a header block with the block numbers [blk]. *)
Fixpoint put_blocks (d : block) (i : Z) (blk : list Z) : block :=
  match blk with
  | [] => d
  | b :: blk' => put_blocks (wr32 d (4 + 4 * i) b) (i + 1) blk'
  end.
Definition put_head (d : block) (blk : list Z) : block :=
  put_blocks (wr32 d 0 (Z.of_nat (length blk))) 0 blk.

(** Write the in-memory log header to disk. *)
Definition write_head : M lst unit :=
  l <- gets lg ;;
  b <- onb (bread (dev l) (u32 (start l))) ;;
  d <- onb (get_data b) ;;
  onb (set_data b (wr32 d 0 (lh_n l))) ;;;
  for_range 0 (lh_n l) (fun i =>
    bn <- from_option "log.lh.block" (aget (lh_block l) i) ;;
    d <- onb (get_data b) ;;
    onb (set_data b (wr32 d (4 + 4 * i) bn))) ;;;
  onb (bwrite b) ;;;
  onb (brelse b).

Definition recover_from_log : M lst unit :=
  read_head ;;;
  install_trans true ;;;
  log_modify (fun l => set_lh 0 (lh_block l) l) ;;;
  write_head.

(** [initlog]: the start and the size of the log come from the superblock. *)
Definition initlog (d sb_logstart sb_nlog : Z) : M lst unit :=
  if BSIZE <=? 4 + 4 * LOGSIZE then panic "initlog: too big logheader"
  else
    log_modify (fun l => mkLog sb_logstart sb_nlog (outstanding l) (committing l) d (lh_n l) (lh_block l)) ;;;
    recover_from_log.

Definition begin_op : M lst bool :=
  l <- gets lg ;;
  if committing l then ret false
  else if lh_n l + (outstanding l + 1) * MAXOPBLOCKS >? LOGSIZE then ret false
  else log_modify (set_out (outstanding l + 1) (committing l)) ;;; ret true.

(** Copy modified blocks from the cache to the log. *)
Definition write_log : M lst unit :=
  n <- gets (fun st => lh_n (lg st)) ;;
  for_range 0 n (fun tail =>
    l <- gets lg ;;
    to <- onb (bread (dev l) (u32 (start l + tail + 1))) ;;
    bn <- from_option "log.lh.block" (aget (lh_block l) tail) ;;
    from <- onb (bread (dev l) (u32 bn)) ;;
    d <- onb (get_data from) ;;
    onb (set_data to d) ;;;
    onb (bwrite to) ;;;
    onb (brelse from) ;;;
    onb (brelse to)).

Definition commit : M lst unit :=
  n <- gets (fun st => lh_n (lg st)) ;;
  when (n >? 0)
    (write_log ;;;
     write_head ;;;
     install_trans false ;;;
     log_modify (fun l => set_lh 0 (lh_block l) l) ;;;
     write_head).

(** The first critical section of [end_op] answers whether this call has to
    commit. *)
Definition end_op_enter : M lst bool :=
  log_modify (fun l => set_out (outstanding l - 1) (committing l) l) ;;;
  l <- gets lg ;;
  if committing l then panic "log.committing"
  else if outstanding l =? 0 then
    log_modify (fun l => set_out (outstanding l) true l) ;;; ret true
  else ret false.

Definition end_op_leave : M lst unit := log_modify (fun l => set_out (outstanding l) false l).

Definition end_op : M lst unit :=
  do_commit <- end_op_enter ;;
  when do_commit (commit ;;; end_op_leave).

(** The index of a block number in the log header, [n] if it is new. *)
Fixpoint absorb (k : nat) (i : Z) (blk : list Z) (bn : Z) : Z :=
  match k with
  | O => i
  | S k' => if u32 (blk !!! Z.to_nat i) =? bn then i else absorb k' (i + 1) blk bn
  end.

Definition log_write (b : Z) : M lst unit :=
  l <- gets lg ;;
  if (lh_n l >=? LOGSIZE) || (lh_n l >=? size l - 1) then panic "too big a transaction"
  else if outstanding l <? 1 then panic "log_write outside of trans"
  else
    v <- onb (get_buf b) ;;
    let i := absorb (Z.to_nat (lh_n l)) 0 (lh_block l) (blockno v) in
    blk <- from_option "log.lh.block" (aset (lh_block l) i (i32 (blockno v))) ;;
    log_modify (set_lh (lh_n l) blk) ;;;
    when (i =? lh_n l)
      (onb (bpin b) ;;;
       log_modify (fun l => set_lh (lh_n l + 1) (lh_block l) l)).

(** ** Sequences of disk writes *)

Definition apply_writes (d : Z -> block) (W : list (Z * block)) : Z -> block :=
  foldl (fun d w => fset d w.1 w.2) d W.

Lemma apply_app d W1 W2 : apply_writes d (W1 ++ W2) = apply_writes (apply_writes d W1) W2.
Proof. apply foldl_app. Qed.

Lemma apply_snoc d W bn b : apply_writes d (W ++ [(bn, b)]) = fset (apply_writes d W) bn b.
Proof. apply apply_app. Qed.

Lemma apply_notin d W x : x ∉ W.*1 -> apply_writes d W x = d x.
Proof.
  induction W as [|[bn b] W IH] using rev_ind; [done|]. intros Hx.
  rewrite fmap_app, elem_of_app in Hx. rewrite apply_snoc, fset_ne; [apply IH; tauto|]. intros ->. set_solver.
Qed.

Lemma apply_in d W x b : x ∈ W.*1 -> (forall b', (x, b') ∈ W -> b' = b) -> apply_writes d W x = b.
Proof.
  induction W as [|[bn b0] W IH] using rev_ind; [by intros ?%not_elem_of_nil|]. intros Hx Hb.
  rewrite apply_snoc. destruct (decide (x = bn)) as [->|Hne].
  - rewrite fset_eq. apply Hb. set_solver.
  - rewrite fset_ne by done. apply IH; [set_solver|]. intros b' H. apply Hb. set_solver.
Qed.

Lemma apply_ext d d' W x : d x = d' x -> apply_writes d W x = apply_writes d' W x.
Proof.
  intros E. induction W as [|[bn b] W IH] using rev_ind; [done|]. rewrite !apply_snoc.
  destruct (decide (x = bn)) as [->|]; [by rewrite !fset_eq | by rewrite !fset_ne].
Qed.

(** ** Header blocks *)

(** The header block [d] lists the blocks [L]. *)
Definition head_is (d : block) (L : list Z) : Prop :=
  i32 (rd32 d 0) = Z.of_nat (length L)
  /\ forall i b, L !! i = Some b -> i32 (rd32 d (4 + 4 * Z.of_nat i)) = b.

Lemma put_blocks_snoc d j L b :
  put_blocks d j (L ++ [b]) = wr32 (put_blocks d j L) (4 + 4 * (j + Z.of_nat (length L))) b.
Proof.
  revert d j. induction L as [|x L IH]; intros d j; cbn [app put_blocks length].
  - by rewrite Z.add_0_r.
  - rewrite IH. f_equal. lia.
Qed.

Lemma put_blocks_length d j L : length (put_blocks d j L) = length d.
Proof. revert d j. induction L as [|x L IH]; intros d j; [done|]. cbn [put_blocks]. rewrite IH. apply wr_length. Qed.

Lemma put_head_length d L : length (put_head d L) = length d.
Proof. unfold put_head. rewrite put_blocks_length. apply wr_length. Qed.

Lemma put_blocks_below d j L o :
  0 <= j -> 0 <= o -> o + 4 <= 4 + 4 * j -> rd32 (put_blocks d j L) o = rd32 d o.
Proof.
  revert d j. induction L as [|x L IH]; intros d j Hj Ho Hlt; [done|]. cbn [put_blocks].
  rewrite IH by lia. apply rd_wr_ne; lia.
Qed.

Lemma put_blocks_at d j L i b :
  0 <= j -> 4 + 4 * (j + Z.of_nat (length L)) <= Z.of_nat (length d) ->
  L !! i = Some b -> rd32 (put_blocks d j L) (4 + 4 * (j + Z.of_nat i)) = u32 b.
Proof.
  revert d j i. induction L as [|x L IH]; intros d j i Hj Hl Hi; [done|]. cbn [put_blocks length] in *.
  destruct i as [|i]; simpl in Hi.
  - injection Hi as ->. rewrite put_blocks_below by lia. rewrite Z.add_0_r. apply rd32_wr32; lia.
  - replace (4 + 4 * (j + Z.of_nat (S i))) with (4 + 4 * (j + 1 + Z.of_nat i)) by lia.
    apply IH; [lia | unfold wr32; rewrite wr_length; lia | done].
Qed.

Lemma put_head_is d L :
  length d = Z.to_nat BSIZE -> Z.of_nat (length L) <= LOGSIZE -> Forall (fun b => 0 <= b < 2 ^ 31) L ->
  head_is (put_head d L) L.
Proof.
  intros Hd HL HB. unfold head_is, put_head, BSIZE, LOGSIZE, MAXOPBLOCKS in *. split.
  - rewrite put_blocks_below by lia. rewrite rd32_wr32 by lia. rewrite i32_u32, i32_small; lia.
  - intros i b Hi. rewrite <- (Z.add_0_l (Z.of_nat i)).
    rewrite (put_blocks_at _ 0 L i b) by (unfold wr32; rewrite ?wr_length; lia || done).
    rewrite Forall_lookup in HB. specialize (HB i b Hi). rewrite i32_u32, i32_small; lia.
Qed.

Lemma head_is_nil d : rd32 d 0 = 0 -> head_is d [].
Proof. intros E. split; [by rewrite E | done]. Qed.

(** ** The parts of a commit

    Each lemma takes the state apart into the log [l] and the cache [b]. *)

(** Run the next operation of the cache with the rule [r]. *)
Ltac onb_step r := first [apply wp_bind | idtac]; unfold onb at 1; apply wp_zoom; cbn [bc]; eapply r.

Definition no_lock : Z -> Prop := fun _ => False.

(** The blocks of the log: the header and [size - 1] data blocks. *)
Definition log_area (l : log) (bn : Z) : Prop := start l <= bn < start l + size l.

(** The logged blocks. *)
Definition logged (l : log) : list Z := take (Z.to_nat (lh_n l)) (lh_block l).

Record log_ok (l : log) : Prop := {
  lo_dev : dev l = 1;
  lo_start : 0 <= start l;
  lo_size : size l <= LOGSIZE;
  lo_end : start l + size l < 2 ^ 31;
  lo_len : length (lh_block l) = Z.to_nat LOGSIZE;
  lo_n : 0 <= lh_n l < size l;
  lo_dup : NoDup (logged l);
  lo_blocks : Forall (fun bn => 0 <= bn < 2 ^ 31 /\ ~ log_area l bn) (logged l)
}.

Lemma logged_length l : log_ok l -> Z.of_nat (length (logged l)) = lh_n l.
Proof.
  intros H. unfold logged. rewrite length_take, (lo_len _ H). pose proof (lo_n _ H). pose proof (lo_size _ H).
  unfold LOGSIZE, MAXOPBLOCKS in *. lia.
Qed.

Lemma logged_at l i : log_ok l -> 0 <= i < lh_n l ->
  exists bn, aget (lh_block l) i = Some bn /\ logged l !! Z.to_nat i = Some bn /\ 0 <= bn < 2 ^ 31 /\ ~ log_area l bn.
Proof.
  intros H Hi. destruct (lookup_lt_is_Some_2 (logged l) (Z.to_nat i)) as [bn Hbn].
  { pose proof (logged_length l H). lia. }
  exists bn. pose proof (lo_blocks _ H) as HB. rewrite Forall_lookup in HB. destruct (HB _ _ Hbn).
  split; [|by auto]. apply aget_lookup. split; [lia|]. unfold logged in Hbn. by apply lookup_take_Some in Hbn as [? _].
Qed.

Section Parts.
  Context (l : log) (OK : log_ok l).

Lemma log_block_facts t : 0 <= t < lh_n l -> u32 (start l + t + 1) = start l + 1 + t /\ log_area l (start l + 1 + t).
Proof.
  intros Ht. pose proof (lo_n _ OK). pose proof (lo_start _ OK). pose proof (lo_end _ OK).
  unfold log_area. rewrite u32_small by lia. lia.
Qed.

(** Storing the header in its buffer. *)
Lemma write_head_wp b V R (Q : unit -> lst -> Prop) :
  cache b V R no_lock -> R (start l) = 0 ->
  (exists B : list Z, (forall x, R x <> 0 -> x ∈ B) /\ Z.of_nat (length B) < NBUF) ->
  (forall b' h, h = put_head (V (start l)) (logged l) ->
     cache b' (fset V (start l) h) R no_lock -> dsk b' = fset (dsk b) (start l) h ->
     wrote b' = wrote b ++ [(start l, h)] -> Q tt (mkLst l b')) ->
  wp write_head (mkLst l b) Q.
Proof.
  intros C R0 (B & HB & HBl) HQ. unfold write_head. wp_step. wp_step. cbn [lg].
  pose proof (lo_start _ OK). pose proof (lo_end _ OK). pose proof (lo_n _ OK).
  rewrite (lo_dev _ OK), u32_small by lia. set (sn := start l) in *.
  onb_step (bread_wp b V R no_lock C sn B); [tauto | lia | by right |].
  intros i b1 C1 Hi1 _ Hd1 Hw1. cbn beta.
  onb_step (get_data_wp _ _ _ _ C1 i sn); [done|].
  onb_step (set_data_wp _ _ _ _ C1 i sn); [done|]. intros b2 C2 Hi2 _ Hd2 Hw2. cbn beta.
  wp_step.
  set (h0 := wr32 (V sn) 0 (lh_n l)) in *.
  eapply (wp_for_range (fun k st => exists b', st = mkLst l b'
    /\ cache b' (fset V sn (put_blocks h0 0 (take (Z.to_nat k) (logged l)))) (fset R sn (R sn + 1)) (fun x => x = sn \/ no_lock x)
    /\ is_buf b' i sn /\ dsk b' = dsk b /\ wrote b' = wrote b)).
  - lia.
  - exists b2. split; [done|]. split; [by rewrite take_0|]. split; [done|]. split; congruence.
  - intros k st Hk (b' & -> & C' & Hi' & Hd' & Hw').
    destruct (logged_at l k OK Hk) as (bn & Hbn & Hlk & _).
    wp_step. eapply wp_from_option; [exact Hbn|].
    onb_step (get_data_wp _ _ _ _ C' i sn); [done|].
    onb_step (set_data_wp _ _ _ _ C' i sn); [done|]. intros b3 C3 Hi3 _ Hd3 Hw3.
    exists b3. split; [done|]. split; [|split; [done | split; congruence]].
    eapply cache_ext; [exact C3 | | done | done]. intros x. destruct (decide (x = sn)) as [->|Hne]; [|by rewrite !fset_ne].
    rewrite !fset_eq. replace (Z.to_nat (k + 1)) with (S (Z.to_nat k)) by lia.
    rewrite (take_S_r _ _ bn) by done. rewrite put_blocks_snoc. f_equal.
    rewrite length_take. pose proof (logged_length l OK). lia.
  - intros st (b' & -> & C' & Hi' & Hd' & Hw').
    rewrite take_ge in C' by (pose proof (logged_length l OK); lia).
    assert (put_blocks h0 0 (logged l) = put_head (V sn) (logged l)) as Eh by (unfold put_head; by rewrite logged_length).
    rewrite Eh in C'. set (h := put_head (V sn) (logged l)) in *.
    onb_step (bwrite_wp _ _ _ _ C' i sn); [done | by left |]. intros b3 C3 Hi3 _ Hd3 Hw3. rewrite fset_eq in Hd3, Hw3.
    onb_step (brelse_wp _ _ _ _ C3 i sn); [done | by left | |].
    { intros _. rewrite Hd3, fset_eq. by rewrite Z.eqb_refl. }
    intros b4 C4 _ _ Hd4 Hw4. apply (HQ b4 h eq_refl).
    + eapply cache_ext; [exact C4 | done | |].
      * intros x. destruct (decide (x = sn)) as [->|Hne]; [rewrite !fset_eq; lia | by rewrite !fset_ne].
      * unfold no_lock. tauto.
    + rewrite Hd4, Hd3, Hd'. done.
    + rewrite Hw4, Hw3, Hw'. done.
Qed.

(** The sleep locks and references are as before the body of a loop. *)
#[local] Ltac fsets := let x := fresh "x" in intros x; unfold fset; repeat case_if; subst; try lia; try done.

(** One round of [write_log]: block [bn] goes to log block [lb]. *)
#[local] Lemma write_log_body b V R lb blk t bn (B : list Z) (Q : unit -> lst -> Prop) :
  aget blk t = Some bn -> 0 <= bn < 2 ^ 31 ->
  cache b V R no_lock -> R lb = 0 -> R bn = 1 -> lb <> bn ->
  (forall x, R x <> 0 -> x ∈ B) -> Z.of_nat (length B) < NBUF ->
  (forall b', cache b' (fset V lb (V bn)) R no_lock -> dsk b' = fset (dsk b) lb (V bn) ->
     wrote b' = wrote b ++ [(lb, V bn)] -> Q tt (mkLst l b')) ->
  wp (to <- onb (bread 1 lb) ;;
      bn <- from_option "log.lh.block" (aget blk t) ;;
      from <- onb (bread 1 (u32 bn)) ;;
      d <- onb (get_data from) ;;
      onb (set_data to d) ;;;
      onb (bwrite to) ;;;
      onb (brelse from) ;;;
      onb (brelse to)) (mkLst l b) Q.
Proof.
  intros Hblk Hbn C R0 R1 Hne HB HBl HQ.
  onb_step (bread_wp b V R no_lock C lb B); [tauto | lia | by right |].
  intros i b1 C1 Hi1 _ Hd1 Hw1. cbn beta.
  wp_step. eapply wp_from_option; [exact Hblk|]. rewrite u32_small by lia.
  onb_step (bread_wp _ _ _ _ C1 bn B); [unfold no_lock; naive_solver | rewrite fset_ne by done; lia | left; rewrite fset_ne by done; lia |].
  rewrite (fset_ne R) by done. rewrite R1, R0.
  intros j b2 C2 Hj2 [_ Ho2] Hd2 Hw2. cbn beta. assert (is_buf b2 i lb) as Hi2 by (by apply Ho2).
  onb_step (get_data_wp _ _ _ _ C2 j bn); [done|].
  onb_step (set_data_wp _ _ _ _ C2 i lb); [done|]. intros b3 C3 Hi3 [_ Ho3] Hd3 Hw3. cbn beta.
  assert (is_buf b3 j bn) as Hj3 by (by apply Ho3).
  onb_step (bwrite_wp _ _ _ _ C3 i lb); [done | naive_solver |]. intros b4 C4 Hi4 [_ Ho4] Hd4 Hw4. rewrite fset_eq in Hd4, Hw4.
  assert (is_buf b4 j bn) as Hj4 by (by apply Ho4).
  onb_step (brelse_wp _ _ _ _ C4 j bn); [done | by left | rewrite fset_eq; lia |].
  intros b5 C5 _ [_ Ho5] Hd5 Hw5. assert (is_buf b5 i lb) as Hi5 by (by apply Ho5).
  onb_step (brelse_wp _ _ _ _ C5 i lb); [done | naive_solver | |].
  { intros _. rewrite Hd5, Hd4, fset_eq. by rewrite Z.eqb_refl. }
  intros b6 C6 _ _ Hd6 Hw6. apply HQ.
  - eapply cache_ext; [exact C6 | done | fsets | unfold no_lock; naive_solver].
  - rewrite Hd6, Hd5, Hd4, Hd3, Hd2, Hd1. done.
  - rewrite Hw6, Hw5, Hw4, Hw3, Hw2, Hw1. done.
Qed.

(** One round of [install_trans]: log block [lb] goes to its home [bn]. *)
#[local] Lemma install_body (recovering : bool) b V R lb blk t bn (B : list Z) (Q : unit -> lst -> Prop) :
  aget blk t = Some bn -> 0 <= bn < 2 ^ 31 ->
  cache b V R no_lock -> R lb = 0 -> R bn = (if recovering then 0 else 1) -> lb <> bn ->
  (forall x, R x <> 0 -> x ∈ B) -> Z.of_nat (length B) < (if recovering then NBUF - 1 else NBUF) ->
  (forall b', cache b' (fset V bn (V lb)) (fset R bn 0) no_lock -> dsk b' = fset (dsk b) bn (V lb) ->
     wrote b' = wrote b ++ [(bn, V lb)] -> Q tt (mkLst l b')) ->
  wp (lbuf <- onb (bread 1 lb) ;;
      bn <- from_option "log.lh.block" (aget blk t) ;;
      dbuf <- onb (bread 1 (u32 bn)) ;;
      d <- onb (get_data lbuf) ;;
      onb (set_data dbuf d) ;;;
      onb (bwrite dbuf) ;;;
      when (negb recovering) (onb (bunpin dbuf)) ;;;
      onb (brelse lbuf) ;;;
      onb (brelse dbuf)) (mkLst l b) Q.
Proof.
  intros Hblk Hbn C R0 R1 Hne HB HBl HQ.
  assert (V lb = dsk b lb) as Hclean by (by apply (ca_R _ _ _ _ C lb)).
  onb_step (bread_wp b V R no_lock C lb B); [tauto | lia | right; split; [done | destruct recovering; lia] |].
  intros i b1 C1 Hi1 _ Hd1 Hw1. cbn beta.
  wp_step. eapply wp_from_option; [exact Hblk|]. rewrite u32_small by lia.
  onb_step (bread_wp _ _ _ _ C1 bn (lb :: B));
    [unfold no_lock; naive_solver | rewrite fset_ne by done; destruct recovering; lia | |].
  { rewrite fset_ne by done. destruct recovering; [right | left; lia]. split; [|simpl; lia].
    intros x. destruct (decide (x = lb)) as [->|]; [set_solver|]. rewrite fset_ne by done. intros ?%HB. set_solver. }
  rewrite (fset_ne R lb) by done. intros j b2 C2 Hj2 [_ Ho2] Hd2 Hw2. cbn beta. assert (is_buf b2 i lb) as Hi2 by (by apply Ho2).
  onb_step (get_data_wp _ _ _ _ C2 i lb); [done|].
  onb_step (set_data_wp _ _ _ _ C2 j bn); [done|]. intros b3 C3 Hj3 [_ Ho3] Hd3 Hw3. cbn beta.
  onb_step (bwrite_wp _ _ _ _ C3 j bn); [done | by left |]. intros b4 C4 Hj4 [_ Ho4] Hd4 Hw4. rewrite fset_eq in Hd4, Hw4.
  assert (is_buf b4 i lb) as Hi4 by (by apply Ho4, Ho3).
  wp_step.
  assert (forall b5 R5, cache b5 (fset V bn (V lb)) R5 (fun x => x = bn \/ x = lb \/ no_lock x) ->
     (forall x, R5 x = fset (fset R bn 1) lb 1 x) -> is_buf b5 i lb -> is_buf b5 j bn -> dsk b5 = dsk b4 -> wrote b5 = wrote b4 ->
     wp (onb (brelse i) ;;; onb (brelse j)) (mkLst l b5) Q) as Hend.
  { intros b5 R5 C5 E5 Hi5 Hj5 Hd5 Hw5.
    onb_step (brelse_wp _ _ _ _ C5 i lb); [done | naive_solver | |].
    { intros _. rewrite fset_ne by done. rewrite Hd5, Hd4, Hd3, Hd2, Hd1. case_if; [done|]. done. }
    intros b6 C6 _ [_ Ho6] Hd6 Hw6. assert (is_buf b6 j bn) as Hj6 by (apply Ho6; [congruence | done]).
    onb_step (brelse_wp _ _ _ _ C6 j bn); [done | naive_solver | |].
    { intros _. rewrite fset_eq, Hd6, Hd5, Hd4. by rewrite Z.eqb_refl. }
    intros b7 C7 _ _ Hd7 Hw7. apply HQ.
    - eapply cache_ext; [exact C7 | done | | unfold no_lock; naive_solver].
      intros x. unfold fset at 1 2 3 4. rewrite !E5. unfold fset. repeat case_if; subst; lia.
    - rewrite Hd7, Hd6, Hd5, Hd4, Hd3, Hd2, Hd1. done.
    - rewrite Hw7, Hw6, Hw5, Hw4, Hw3, Hw2, Hw1. done. }
  destruct recovering; cbn [negb when].
  - wp_step. eapply Hend; [exact C4 | | done | done | done | done]. fsets.
  - unfold onb at 1. apply wp_zoom; cbn [bc]. eapply (bunpin_wp _ _ _ _ C4 j bn); [done | rewrite fset_eq; lia |].
    intros b5 C5 Hj5 [_ Ho5] Hd5 Hw5. eapply Hend; [exact C5 | | by apply Ho5 | apply Hj5; rewrite fset_eq; lia | done | done].
    fsets.
Qed.

(** The writes of [write_log] and of [install_trans], up to round [t], when
    the blocks have the contents [V]. *)
Definition log_writes (V : Z -> block) (t : Z) : list (Z * block) :=
  (fun i => (start l + 1 + i, V (logged l !!! Z.to_nat i))) <$> seqZ 0 t.
Definition install_writes (V : Z -> block) (t : Z) : list (Z * block) :=
  (fun i => (logged l !!! Z.to_nat i, V (start l + 1 + i))) <$> seqZ 0 t.

(** The references of the blocks in a transaction. *)
Definition pins (L : list Z) (x : Z) : Z := if bool_decide (x ∈ L) then 1 else 0.

Lemma pins_in L x : x ∈ L -> pins L x = 1.
Proof. intros H. unfold pins. by rewrite bool_decide_true. Qed.
Lemma pins_notin L x : x ∉ L -> pins L x = 0.
Proof. intros H. unfold pins. by rewrite bool_decide_false. Qed.
Lemma pins_ne0 L x : pins L x <> 0 -> x ∈ L.
Proof. unfold pins. destruct (bool_decide_reflect (x ∈ L)); done. Qed.

Lemma bool_decide_ext_Z (P P' : Prop) `{Decision P, Decision P'} (a b : Z) :
  (P <-> P') -> (if bool_decide P then a else b) = (if bool_decide P' then a else b).
Proof. intros E. by rewrite (bool_decide_ext P P' E). Qed.

Lemma seqZ_snoc t : 0 <= t -> seqZ 0 (t + 1) = seqZ 0 t ++ [t].
Proof. intros H. rewrite seqZ_app by lia. done. Qed.

Lemma logged_total i bn : logged l !! i = Some bn -> logged l !!! i = bn.
Proof. apply list_lookup_total_correct. Qed.

(** No logged block is in the log area. *)
Lemma area_notin bn : log_area l bn -> bn ∉ logged l.
Proof.
  intros Ha Hin. pose proof (lo_blocks _ OK) as HB. rewrite Forall_forall in HB. destruct (HB bn Hin). done.
Qed.

Lemma start_in_area : log_area l (start l).
Proof. pose proof (lo_n _ OK). unfold log_area. lia. Qed.

Lemma log_writes_fst V t x : 0 <= t -> x ∈ (log_writes V t).*1 <-> start l + 1 <= x < start l + 1 + t.
Proof.
  intros Ht. unfold log_writes. rewrite <- list_fmap_compose, list_elem_of_fmap. split.
  - intros (i & -> & Hi%elem_of_seqZ). cbn. lia.
  - intros Hx. exists (x - start l - 1). cbn. split; [lia|]. apply elem_of_seqZ. lia.
Qed.

Lemma log_writes_home V V0 t bn : 0 <= t <= lh_n l -> bn ∈ logged l -> apply_writes V0 (log_writes V t) bn = V0 bn.
Proof.
  intros Ht Hin. apply apply_notin. intros H. apply log_writes_fst in H; [|lia]. apply (area_notin bn); [|done].
  pose proof (lo_n _ OK). unfold log_area. lia.
Qed.

Lemma pins_room : exists B : list Z, (forall x, pins (logged l) x <> 0 -> x ∈ B) /\ Z.of_nat (length B) < NBUF.
Proof.
  exists (logged l). split; [apply pins_ne0|]. rewrite logged_length by done.
  pose proof (lo_n _ OK). pose proof (lo_size _ OK). unfold NBUF, LOGSIZE, MAXOPBLOCKS in *. lia.
Qed.

Lemma write_log_wp b V (Q : unit -> lst -> Prop) :
  cache b V (pins (logged l)) no_lock ->
  (forall b', cache b' (apply_writes V (log_writes V (lh_n l))) (pins (logged l)) no_lock ->
     dsk b' = apply_writes (dsk b) (log_writes V (lh_n l)) ->
     wrote b' = wrote b ++ log_writes V (lh_n l) -> Q tt (mkLst l b')) ->
  wp write_log (mkLst l b) Q.
Proof.
  intros C HQ. unfold write_log. wp_step. wp_step. cbn [lg]. pose proof (lo_n _ OK).
  eapply (wp_for_range (fun t st => exists b', st = mkLst l b'
    /\ cache b' (apply_writes V (log_writes V t)) (pins (logged l)) no_lock
    /\ dsk b' = apply_writes (dsk b) (log_writes V t) /\ wrote b' = wrote b ++ log_writes V t)).
  - lia.
  - exists b. split_and!; try done. by rewrite app_nil_r.
  - intros t st Ht (b' & -> & C' & Hd' & Hw'). wp_step. wp_step. cbn [lg].
    destruct (log_block_facts t Ht) as [-> Ha]. destruct (logged_at l t OK Ht) as (bn & Hbn & Hlk & Hr & Hna).
    rewrite (lo_dev _ OK).
    destruct pins_room as (B & HB & HBl).
    assert (bn ∈ logged l) as Hin by (by eapply list_elem_of_lookup_2).
    eapply (write_log_body b' _ _ (start l + 1 + t) _ t bn B _ Hbn Hr).
    + exact C'.
    + apply pins_notin, area_notin, Ha.
    + by apply pins_in.
    + intros <-. done.
    + done.
    + done.
    + intros b2 C2 Hd2 Hw2. exists b2. split; [done|].
      rewrite log_writes_home in C2, Hd2, Hw2 by (lia || done).
      assert (log_writes V (t + 1) = log_writes V t ++ [(start l + 1 + t, V bn)]) as ->.
      { unfold log_writes. rewrite seqZ_snoc by lia. rewrite fmap_app. cbn. by rewrite (logged_total _ _ Hlk). }
      rewrite !apply_snoc, Hd2, Hw2, Hd', Hw', app_assoc. done.
  - intros st (b' & -> & C' & Hd' & Hw'). by apply HQ.
Qed.

Lemma install_trans_wp (recovering : bool) b V (Q : unit -> lst -> Prop) :
  cache b V (if recovering then (fun _ => 0) else pins (logged l)) no_lock ->
  (forall b', cache b' (apply_writes V (install_writes V (lh_n l))) (fun _ => 0) no_lock ->
     dsk b' = apply_writes (dsk b) (install_writes V (lh_n l)) ->
     wrote b' = wrote b ++ install_writes V (lh_n l) -> Q tt (mkLst l b')) ->
  wp (install_trans recovering) (mkLst l b) Q.
Proof.
  intros C HQ. unfold install_trans. wp_step. wp_step. cbn [lg]. pose proof (lo_n _ OK).
  set (R := fun t => if recovering then (fun _ : Z => 0) else pins (drop (Z.to_nat t) (logged l))).
  eapply (wp_for_range (fun t st => exists b', st = mkLst l b'
    /\ cache b' (apply_writes V (install_writes V t)) (R t) no_lock
    /\ dsk b' = apply_writes (dsk b) (install_writes V t) /\ wrote b' = wrote b ++ install_writes V t)).
  - lia.
  - exists b. split_and!; try done. by rewrite app_nil_r.
  - intros t st Ht (b' & -> & C' & Hd' & Hw'). wp_step. wp_step. cbn [lg].
    destruct (log_block_facts t Ht) as [-> Ha]. destruct (logged_at l t OK Ht) as (bn & Hbn & Hlk & Hr & Hna).
    rewrite (lo_dev _ OK).
    pose proof (drop_S _ _ _ Hlk) as Hdrop.
    assert (forall x, x ∈ drop (Z.to_nat t) (logged l) -> x ∈ logged l) as Hsub 
      by (intros x Hx; apply list_elem_of_lookup in Hx as [k Hk]; rewrite lookup_drop in Hk; by eapply list_elem_of_lookup_2).
    pose proof (logged_length l OK). pose proof (lo_size _ OK).
    assert (apply_writes V (install_writes V t) (start l + 1 + t) = V (start l + 1 + t)) as Elog.
    { apply apply_notin. intros Hx. unfold install_writes in Hx. rewrite <- list_fmap_compose in Hx.
      apply list_elem_of_fmap in Hx as (i & Ei & Hi%elem_of_seqZ). cbn in Ei.
      destruct (logged_at l i OK ltac:(lia)) as (bi & _ & Hli & _ & Hnai). rewrite (logged_total _ _ Hli) in Ei. by subst bi. }
    assert (forall b2 , cache b2 (fset (apply_writes V (install_writes V t)) bn (V (start l + 1 + t))) (fset (R t) bn 0) no_lock ->
       dsk b2 = fset (dsk b') bn (V (start l + 1 + t)) -> wrote b2 = wrote b' ++ [(bn, V (start l + 1 + t))] ->
       exists b', mkLst l b2 = mkLst l b' /\ cache b' (apply_writes V (install_writes V (t + 1))) (R (t + 1)) no_lock
         /\ dsk b' = apply_writes (dsk b) (install_writes V (t + 1)) /\ wrote b' = wrote b ++ install_writes V (t + 1)) as Hend.
    { intros b2 C2 Hd2 Hw2. exists b2. split; [done|].
      assert (install_writes V (t + 1) = install_writes V t ++ [(bn, V (start l + 1 + t))]) as ->.
      { unfold install_writes. rewrite seqZ_snoc by lia. rewrite fmap_app. cbn. by rewrite (logged_total _ _ Hlk). }
      rewrite !apply_snoc, Hd2, Hw2, Hd', Hw', app_assoc. split; [|done].
      eapply cache_ext; [exact C2 | done | | done]. intros x. unfold R. destruct recovering; [unfold fset; by case_if|].
      replace (Z.to_nat (t + 1)) with (S (Z.to_nat t)) by lia.
      assert (NoDup (drop (Z.to_nat t) (logged l))) as Hnd by (eapply sublist_NoDup; [apply lo_dup, OK | apply sublist_drop]).
      rewrite Hdrop in Hnd |- *. apply NoDup_cons in Hnd as [Hnin _]. 
      destruct (decide (x = bn)) as [->|Hxb]; [rewrite fset_eq; by apply pins_notin|].
      rewrite fset_ne by done. unfold pins. apply bool_decide_ext_Z. set_solver. }
    eapply (install_body recovering b' _ _ (start l + 1 + t) _ t bn (if recovering then [] else logged l) _ Hbn Hr).
    + exact C'.
    + unfold R. destruct recovering; [done|]. apply pins_notin. intros Hx%Hsub. by apply (area_notin _ Ha).
    + unfold R. destruct recovering; [done|]. apply pins_in. rewrite Hdrop. left.
    + intros <-. done.
    + unfold R. intros x Hx. destruct recovering; [done|]. by apply Hsub, pins_ne0.
    + unfold NBUF, LOGSIZE, MAXOPBLOCKS in *. destruct recovering; simpl; lia.
    + intros b2. rewrite Elog. apply Hend.
  - intros st (b' & -> & C' & Hd' & Hw'). apply HQ; [|done..].
    eapply cache_ext; [exact C' | done | | done]. intros x. unfold R. destruct recovering; [done|].
    rewrite drop_ge by (pose proof (logged_length l OK); lia). by apply eq_sym, pins_notin, not_elem_of_nil.
Qed.

End Parts.

(** ** Commit and recovery *)

Lemma install_writes_fst l V x : log_ok l -> x ∈ (install_writes l V (lh_n l)).*1 <-> x ∈ logged l.
Proof.
  intros OK. unfold install_writes. rewrite <- list_fmap_compose, list_elem_of_fmap. split.
  - intros (i & -> & Hi%elem_of_seqZ). cbn. destruct (logged_at l i OK ltac:(lia)) as (bi & _ & Hli & _).
    rewrite (logged_total _ _ _ Hli). by eapply list_elem_of_lookup_2.
  - intros (i & Hi)%list_elem_of_lookup. exists (Z.of_nat i). cbn. rewrite Nat2Z.id, (logged_total _ _ _ Hi).
    split; [done|]. apply elem_of_seqZ. apply lookup_lt_Some in Hi. pose proof (logged_length l OK). lia.
Qed.

(** The header block that a commit writes, and all the writes of a commit,
    in their order. *)
Definition commit_head (l : log) (V : Z -> block) : block := put_head (V (start l)) (logged l).
Definition home_writes (l : log) (V : Z -> block) : list (Z * block) := (fun bn => (bn, V bn)) <$> logged l.
Definition commit_writes (l : log) (V : Z -> block) : list (Z * block) :=
  (log_writes l V (lh_n l) ++ [(start l, commit_head l V)])
  ++ home_writes l V ++ [(start l, wr32 (commit_head l V) 0 0)].

(** The same for recovery, from the disk [d]. *)
Definition recovery_writes (l : log) (d : Z -> block) : list (Z * block) :=
  install_writes l d (lh_n l) ++ [(start l, wr32 (d (start l)) 0 0)].

Lemma install_home l V V1 : log_ok l ->
  (forall i bn, logged l !! i = Some bn -> V1 (start l + 1 + Z.of_nat i) = V bn) ->
  install_writes l V1 (lh_n l) = home_writes l V.
Proof.
  intros OK H. pose proof (logged_length l OK) as Hlen. unfold install_writes, home_writes. apply list_eq. intros i.
  rewrite !list_lookup_fmap. destruct (logged l !! i) as [bn|] eqn:Ei.
  - pose proof (lookup_lt_Some _ _ _ Ei). rewrite lookup_seqZ_lt by lia. cbn.
    rewrite Z.add_0_l, Nat2Z.id, (logged_total _ _ _ Ei). by rewrite <- (H i bn).
  - apply lookup_ge_None in Ei. rewrite lookup_seqZ_ge by lia. done.
Qed.

(** After the blocks and the header are in the log, log block [i] holds the
    new contents of the [i]th logged block. *)
Lemma log_blocks_written l V D i bn : log_ok l -> logged l !! i = Some bn ->
  apply_writes D (log_writes l V (lh_n l) ++ [(start l, commit_head l V)]) (start l + 1 + Z.of_nat i) = V bn.
Proof.
  intros OK Hi. pose proof (logged_length l OK). pose proof (lookup_lt_Some _ _ _ Hi).
  rewrite apply_snoc, fset_ne by lia. apply apply_in.
  - apply log_writes_fst; [|lia]. apply (lo_n _ OK).
  - intros b' (j & Ej & Hj%elem_of_seqZ)%list_elem_of_fmap. injection Ej as Ej ->.
    replace (Z.to_nat j) with i by lia. by rewrite (logged_total _ _ _ Hi).
Qed.

Lemma set_lh_ok l blk L : log_ok l -> length blk = Z.to_nat LOGSIZE -> take (length L) blk = L ->
  Z.of_nat (length L) < size l -> NoDup L -> Forall (fun bn => 0 <= bn < 2 ^ 31 /\ ~ log_area l bn) L ->
  log_ok (set_lh (Z.of_nat (length L)) blk l) /\ logged (set_lh (Z.of_nat (length L)) blk l) = L.
Proof.
  intros OK Hb Ht Hn Hd HF.
  assert (logged (set_lh (Z.of_nat (length L)) blk l) = L) as E by (unfold logged, set_lh; cbn; by rewrite Nat2Z.id).
  split; [|done]. destruct OK. constructor; try done; [cbn; lia | by rewrite E | by rewrite E].
Qed.

Lemma clear_ok l : log_ok l -> log_ok (set_lh 0 (lh_block l) l) /\ logged (set_lh 0 (lh_block l) l) = [].
Proof.
  intros OK. apply (set_lh_ok l _ []); try done; [apply (lo_len _ OK) | pose proof (lo_n _ OK); cbn; lia |].
  by constructor.
Qed.

(** With no references left, the cache's view of a block is the disk. *)
Lemma cache_clean b V : cache b V (fun _ => 0) no_lock -> cache b (dsk b) (fun _ => 0) no_lock.
Proof. intros C. eapply cache_ext; [exact C | | done | done]. intros x. symmetry. by apply (ca_R _ _ _ _ C x). Qed.

Lemma commit_wp l b V (Q : unit -> lst -> Prop) :
  log_ok l -> cache b V (pins (logged l)) no_lock -> 0 < lh_n l ->
  (forall b', cache b' (dsk b') (fun _ => 0) no_lock -> dsk b' = apply_writes (dsk b) (commit_writes l V) ->
     wrote b' = wrote b ++ commit_writes l V -> Q tt (mkLst (set_lh 0 (lh_block l) l) b')) ->
  wp commit (mkLst l b) Q.
Proof.
  intros OK C Hn HQ. unfold commit. wp_step. wp_step. cbn [lg].
  replace (lh_n l >? 0) with true by (symmetry; apply Z.gtb_lt; lia). cbn [when].
  wp_step. eapply (write_log_wp l OK b V); [done|]. intros b1 C1 Hd1 Hw1.
  set (W1 := log_writes l V (lh_n l)) in *.
  assert (apply_writes V W1 (start l) = V (start l)) as Est.
  { apply apply_notin. intros Hx. apply log_writes_fst in Hx; lia. }
  wp_step. eapply (write_head_wp l OK b1 _ _ _ C1).
  { apply pins_notin, (area_notin l OK), (start_in_area l OK). }
  { apply (pins_room l OK). }
  rewrite Est. fold (commit_head l V). intros b2 h -> C2 Hd2 Hw2. rewrite <- apply_snoc in C2.
  wp_step. eapply (install_trans_wp l OK false b2 _ _ C2). intros b3 C3 Hd3 Hw3.
  rewrite (install_home l V) in C3, Hd3, Hw3 by (done || intros; by apply log_blocks_written).
  wp_step. unfold log_modify. wp_step. cbn [lg bc].
  destruct (clear_ok l OK) as [OK0 E0]. eapply (write_head_wp _ OK0 b3 _ _ _ C3); [done | |].
  { exists []. split; [done | done]. }
  intros b4 h Eh C4 Hd4 Hw4.
  assert (h = wr32 (commit_head l V) 0 0) as ->.
  { rewrite Eh, E0. cbn [start set_lh]. unfold put_head. cbn [length put_blocks]. f_equal.
    rewrite apply_notin; [by rewrite apply_snoc, fset_eq|].
    unfold home_writes. rewrite <- list_fmap_compose. intros Hx. apply list_elem_of_fmap in Hx as (bn & Ebn & Hbn). cbn in Ebn.
    subst bn. by apply (area_notin l OK _ (start_in_area l OK)). }
  apply HQ.
  - by eapply cache_clean.
  - rewrite Hd4, Hd3, Hd2, Hd1. unfold commit_writes. by rewrite app_assoc, apply_snoc, apply_app, apply_snoc.
  - rewrite Hw4, Hw3, Hw2, Hw1. unfold commit_writes. by rewrite <- !app_assoc.
Qed.

(** Reading back a header that lists [L]. *)
Lemma read_head_wp l b L (Q : unit -> lst -> Prop) :
  dev l = 1 -> 0 <= start l < 2 ^ 31 -> length (lh_block l) = Z.to_nat LOGSIZE -> Z.of_nat (length L) <= LOGSIZE ->
  cache b (dsk b) (fun _ => 0) no_lock -> head_is (dsk b (start l)) L ->
  (forall b' blk, length blk = Z.to_nat LOGSIZE -> take (length L) blk = L ->
     cache b' (dsk b') (fun _ => 0) no_lock -> dsk b' = dsk b -> wrote b' = wrote b ->
     Q tt (mkLst (set_lh (Z.of_nat (length L)) blk l) b')) ->
  wp read_head (mkLst l b) Q.
Proof.
  intros Hdev Hst Hlen HL C [Hn Hblk] HQ. unfold read_head. wp_step. wp_step. cbn [lg]. rewrite Hdev, u32_small by lia.
  onb_step (bread_wp b _ _ _ C (start l) []); [tauto | lia | by right |]. intros i b1 C1 Hi1 _ Hd1 Hw1. cbn beta.
  onb_step (get_data_wp _ _ _ _ C1 i (start l)); [done|]. cbn beta zeta. rewrite Hn.
  wp_step. unfold log_modify at 1. wp_step. cbn [lg bc]. wp_step.
  eapply (wp_for_range (fun k st => exists blk, st = mkLst (set_lh (Z.of_nat (length L)) blk l) b1
     /\ length blk = Z.to_nat LOGSIZE /\ take (Z.to_nat k) blk = take (Z.to_nat k) L)).
  - lia.
  - exists (lh_block l). done.
  - intros k st Hk (blk & -> & Hbl & Htk). wp_step. wp_step. cbn [lg lh_block lh_n set_lh].
    wp_step. eapply wp_from_option; [apply aset_is_Some; unfold LOGSIZE, MAXOPBLOCKS in *; lia|].
    unfold log_modify. wp_step. cbn [lg bc].
    destruct (lookup_lt_is_Some_2 L (Z.to_nat k)) as [bn Hbn]; [lia|].
    pose proof (Hblk _ _ Hbn) as Hv. rewrite Z2Nat.id in Hv by lia. rewrite Hv.
    eexists. split; [reflexivity|]. split; [by rewrite length_insert|].
    replace (Z.to_nat (k + 1)) with (S (Z.to_nat k)) by lia.
    rewrite (take_S_r L _ bn) by done. rewrite (take_S_r _ _ bn).
    + rewrite take_insert_ge by lia. by rewrite Htk.
    + apply list_lookup_insert_eq. unfold LOGSIZE, MAXOPBLOCKS in *. lia.
  - intros st (blk & -> & Hbl & Htk). rewrite Nat2Z.id in Htk. rewrite (take_ge L) in Htk by lia.
    unfold onb. apply wp_zoom. cbn [bc]. eapply (brelse_wp _ _ _ _ C1 i (start l)); [done | by left | by rewrite Hd1 |].
    intros b2 C2 _ _ Hd2 Hw2. apply HQ; try done; try congruence. eapply cache_clean, cache_ext; [exact C2 | done | |].
    + intros x. unfold fset. repeat case_if; lia.
    + unfold no_lock. tauto.
Qed.

Lemma recover_wp l b L (Q : unit -> lst -> Prop) :
  log_ok (set_lh 0 (lh_block l) l) -> cache b (dsk b) (fun _ => 0) no_lock -> head_is (dsk b (start l)) L ->
  Z.of_nat (length L) < size l -> NoDup L -> Forall (fun bn => 0 <= bn < 2 ^ 31 /\ ~ log_area l bn) L ->
  (forall b' l' blk, l' = set_lh (Z.of_nat (length L)) blk l -> log_ok l' -> logged l' = L ->
     cache b' (dsk b') (fun _ => 0) no_lock -> dsk b' = apply_writes (dsk b) (recovery_writes l' (dsk b)) ->
     wrote b' = wrote b ++ recovery_writes l' (dsk b) -> Q tt (mkLst (set_lh 0 blk l) b')) ->
  wp recover_from_log (mkLst l b) Q.
Proof.
  intros OK C Hh Hlen Hdup HF HQ. unfold recover_from_log. wp_step.
  pose proof (lo_start _ OK). pose proof (lo_end _ OK). pose proof (lo_size _ OK). cbn in H, H0, H1.
  eapply (read_head_wp l b L); try done; [apply (lo_dev _ OK) | lia | apply (lo_len _ OK) | lia |].
  intros b1 blk Hbl Htk C1 Hd1 Hw1.
  destruct (set_lh_ok _ blk L OK Hbl Htk Hlen Hdup HF) as [OK' E']. cbn [set_lh start size outstanding committing dev] in OK', E'.
  fold (set_lh (Z.of_nat (length L)) blk l) in OK', E'. set (l' := set_lh (Z.of_nat (length L)) blk l) in *.
  rewrite Hd1 in C1.
  wp_step. eapply (install_trans_wp l' OK' true b1 _ _ C1). intros b2 C2 Hd2 Hw2.
  wp_step. unfold log_modify. wp_step. cbn [lg bc].
  destruct (clear_ok l' OK') as [OK0 E0]. eapply (write_head_wp _ OK0 b2 _ _ _ C2); [done | by exists [] |].
  intros b3 h Eh C3 Hd3 Hw3. rewrite E0 in Eh. unfold put_head in Eh. cbn [length put_blocks set_lh start] in Eh.
  rewrite apply_notin in Eh.
  2:{ intros Hx. apply (install_writes_fst l' _ _ OK') in Hx. by apply (area_notin l' OK' _ (start_in_area l' OK')). }
  subst h. apply (HQ b3 l' blk); try done.
  - by eapply cache_clean.
  - rewrite Hd3, Hd2, Hd1. unfold recovery_writes. by rewrite apply_snoc.
  - rewrite Hw3, Hw2, Hw1. unfold recovery_writes. by rewrite <- app_assoc.
Qed.
