(* ===== verification/LogThms.v ===== *)
(** * Transactions are atomic

    A system call's updates, made between [begin_op] and [end_op], reach the
    disk together: whenever the machine stops, during the commit or during any
    number of recoveries, booting again finds all of them or none.  The second
    part is the protocol by which concurrent system calls share the log. *)

From S2P Require Import Prelude Bytes Bio Log.

(** The update of one block, as the file system does it. *)
Definition update (bn : Z) (d : block) : M lst unit :=
  l <- gets lg ;;
  b <- onb (bread (dev l) bn) ;;
  onb (set_data b d) ;;;
  log_write b ;;;
  onb (brelse b).

Fixpoint updates (us : list (Z * block)) : M lst unit :=
  match us with
  | [] => ret tt
  | (bn, d) :: us' => update bn d ;;; updates us'
  end.

(** A file-system call that updates the blocks [us]. *)
Definition fs_call (us : list (Z * block)) : M lst unit :=
  ok <- begin_op ;;
  if (ok : bool) then updates us ;;; end_op else diverge.

(** Boot: an empty cache, then recovery.  [booted d] is the memory of a
    machine that starts with the disk [d]. *)
Definition booted (d : Z -> block) (pid : Z) : lst := mkLst log0 (mkBst [] [] d [] pid).
Definition boot (logstart nlog : Z) : M lst unit := onb binit ;;; initlog 1 logstart nlog.

(** ** Adding a block to the transaction *)

Lemma absorb_spec k i blk bn :
  0 <= i -> let r := absorb k i blk bn in
  i <= r <= i + Z.of_nat k
  /\ (r < i + Z.of_nat k -> u32 (blk !!! Z.to_nat r) = bn)
  /\ (forall j, i <= j < r -> u32 (blk !!! Z.to_nat j) <> bn).
Proof.
  revert i. induction k as [|k IH]; intros i Hi; cbn [absorb]; [split_and!; lia|].
  case_if; [split_and!; try lia; done|].
  destruct (IH (i + 1) ltac:(lia)) as (H1 & H2 & H3). split; [lia|]. split; [intros; apply H2; lia|].
  intros j Hj. destruct (decide (j = i)) as [->|]; [done | apply H3; lia].
Qed.

(** The lookup among the logged blocks. *)
Lemma absorb_logged l bn : log_ok l -> 0 <= bn ->
  let r := absorb (Z.to_nat (lh_n l)) 0 (lh_block l) bn in
  (bn ∈ logged l /\ 0 <= r < lh_n l /\ logged l !! Z.to_nat r = Some bn) \/ (bn ∉ logged l /\ r = lh_n l).
Proof.
  intros OK Hbn r. pose proof (lo_n _ OK). destruct (absorb_spec (Z.to_nat (lh_n l)) 0 (lh_block l) bn ltac:(lia)) as (H1 & H2 & H3).
  fold r in H1, H2, H3.
  assert (forall j, 0 <= j < lh_n l -> exists x, logged l !! Z.to_nat j = Some x /\ u32 (lh_block l !!! Z.to_nat j) = x) as Hat.
  { intros j Hj. destruct (logged_at l j OK Hj) as (x & Hx & Hlx & Hr & _). exists x. split; [done|].
    apply aget_lookup in Hx as [_ Hx]. rewrite (list_lookup_total_correct _ _ _ Hx). apply u32_small. lia. }
  destruct (decide (r < lh_n l)) as [Hlt|Hge].
  - left. destruct (Hat r ltac:(lia)) as (x & Hx & Ex). rewrite H2 in Ex by lia. subst x.
    split; [by eapply list_elem_of_lookup_2|]. split; [lia | done].
  - right. split; [|lia]. intros (j & Hj)%list_elem_of_lookup. pose proof (lookup_lt_Some _ _ _ Hj).
    pose proof (logged_length l OK). destruct (Hat (Z.of_nat j) ltac:(lia)) as (x & Hx & Ex). rewrite Nat2Z.id in Hx.
    apply (H3 (Z.of_nat j)); [lia|]. congruence.
Qed.

(** What [log_write] makes of the transaction. *)
Definition add_block (L : list Z) (bn : Z) : list Z := if bool_decide (bn ∈ L) then L else L ++ [bn].

Lemma set_lh_same l : set_lh (lh_n l) (lh_block l) l = l.
Proof. by destruct l. Qed.

Lemma log_append_ok l bn : log_ok l -> bn ∉ logged l -> 0 <= bn < 2 ^ 31 -> ~ log_area l bn -> lh_n l < size l - 1 ->
  let l' := set_lh (lh_n l + 1) (<[Z.to_nat (lh_n l) := bn]> (lh_block l)) l in
  log_ok l' /\ logged l' = logged l ++ [bn].
Proof.
  intros OK Hnin Hbn Hna Hn. pose proof (lo_n _ OK). pose proof (lo_size _ OK). pose proof (lo_len _ OK) as Hlen.
  pose proof (logged_length l OK). cbn zeta. set (blk := <[Z.to_nat (lh_n l) := bn]> (lh_block l)).
  assert (lh_n l + 1 = Z.of_nat (length (logged l ++ [bn]))) as En by (rewrite length_app; simpl; lia).
  rewrite En. apply (set_lh_ok l blk).
  - done.
  - unfold blk. by rewrite length_insert.
  - rewrite length_app. cbn [length]. rewrite Nat.add_1_r. replace (length (logged l)) with (Z.to_nat (lh_n l)) by lia.
    unfold blk. rewrite (take_S_r _ _ bn); [by rewrite take_insert_ge by lia|]. apply list_lookup_insert_eq.
    unfold LOGSIZE, MAXOPBLOCKS in *. lia.
  - lia.
  - apply NoDup_app. split; [apply (lo_dup _ OK)|]. split; [set_solver | apply NoDup_singleton].
  - apply Forall_app. split; [apply (lo_blocks _ OK) | by constructor].
Qed.

Lemma log_write_wp l b V R Lk i bn (Q : unit -> lst -> Prop) :
  log_ok l -> cache b V R Lk -> is_buf b i bn -> lh_n l < size l - 1 -> 1 <= outstanding l ->
  0 <= bn < 2 ^ 31 -> ~ log_area l bn -> R bn < 2 ^ 31 - 1 ->
  (forall b' l', log_ok l' -> l' = set_lh (lh_n l') (lh_block l') l -> logged l' = add_block (logged l) bn ->
     cache b' V (if bool_decide (bn ∈ logged l) then R else fset R bn (R bn + 1)) Lk -> is_buf b' i bn ->
     others b b' bn -> dsk b' = dsk b -> wrote b' = wrote b -> Q tt (mkLst l' b')) ->
  wp (log_write i) (mkLst l b) Q.
Proof.
  intros OK C Hi Hn Hout Hbn Hna HR HQ. unfold log_write. wp_step. wp_step. cbn [lg].
  pose proof (lo_n _ OK). pose proof (lo_size _ OK). pose proof (lo_len _ OK) as Hlen.
  rewrite !Z.geb_leb. zcmp. cbn [orb].
  destruct (is_buf_facts _ _ _ _ C i bn Hi) as (v & Hv & Hb & _).
  wp_step. unfold onb at 1. apply wp_zoom. cbn [bc]. eapply get_buf_wp; [exact Hv|]. rewrite Hb.
  destruct (absorb_logged l bn OK ltac:(lia)) as [(Hin & Hr & Hlk)|[Hnin Hr]];
    set (r := absorb (Z.to_nat (lh_n l)) 0 (lh_block l) bn) in *; cbn zeta.
  - rewrite i32_small by lia. wp_step.
    eapply wp_from_option; [apply aset_is_Some; unfold LOGSIZE, MAXOPBLOCKS in *; lia|].
    assert (<[Z.to_nat r := bn]> (lh_block l) = lh_block l) as ->.
    { apply list_insert_id. unfold logged in Hlk. by apply lookup_take_Some in Hlk as [? _]. }
    wp_step. unfold log_modify at 1. wp_step. cbn [lg bc]. rewrite set_lh_same. zcmp. cbn [when]. wp_step.
    apply HQ; try done.
    + by rewrite set_lh_same.
    + unfold add_block. by rewrite bool_decide_true.
    + by rewrite bool_decide_true.
  - rewrite Hr. rewrite i32_small by lia. wp_step.
    eapply wp_from_option; [apply aset_is_Some; unfold LOGSIZE, MAXOPBLOCKS in *; lia|].
    wp_step. unfold log_modify at 1. wp_step. cbn [lg bc]. rewrite Z.eqb_refl. cbn [when].
    onb_step (bpin_wp _ _ _ _ C i bn); [done | done |]. intros b' C' Hi' Ho' Hd' Hw'.
    unfold log_modify. wp_step. cbn [lg bc lh_n lh_block set_lh].
    destruct (log_append_ok l bn OK Hnin Hbn Hna Hn) as [OK' E'].
    apply HQ; try done.
    + etransitivity; [exact E'|]. unfold add_block. by rewrite bool_decide_false.
    + by rewrite bool_decide_false.
Qed.

Lemma pins_add L bn x :
  fset (if bool_decide (bn ∈ L) then fset (pins L) bn (pins L bn + 1) else fset (fset (pins L) bn (pins L bn + 1)) bn (fset (pins L) bn (pins L bn + 1) bn + 1))
    bn 1 x = pins (add_block L bn) x.
Proof.
  unfold add_block. destruct (decide (x = bn)) as [->|Hne].
  - rewrite fset_eq. symmetry. apply pins_in. case_bool_decide; set_solver.
  - rewrite fset_ne by done. case_bool_decide; rewrite !fset_ne by done; [done|].
    unfold pins. apply bool_decide_ext_Z. set_solver.
Qed.

(** A transaction in progress: the blocks [L] are logged, and the blocks of
    the file system now have the contents [V]. *)
Record in_txn (l0 : log) (st : lst) (V : Z -> block) (L : list Z) : Prop := {
  it_ok : log_ok (lg st);
  it_same : lg st = set_lh (lh_n (lg st)) (lh_block (lg st)) l0;
  it_logged : logged (lg st) = L;
  it_cache : cache (bc st) V (pins L) no_lock
}.

Lemma in_txn_n l0 st V L : in_txn l0 st V L -> lh_n (lg st) = Z.of_nat (length L).
Proof. intros [OK _ <- _]. symmetry. by apply logged_length. Qed.

Lemma update_wp l0 st V L bn d (Q : unit -> lst -> Prop) :
  in_txn l0 st V L -> Z.of_nat (length L) < size l0 - 1 -> 1 <= outstanding l0 ->
  0 <= bn < 2 ^ 31 -> ~ log_area l0 bn ->
  (forall st', in_txn l0 st' (fset V bn d) (add_block L bn) -> dsk (bc st') = dsk (bc st) ->
     wrote (bc st') = wrote (bc st) -> Q tt st') ->
  wp (update bn d) st Q.
Proof.
  intros T Hroom Hout Hbn Hna HQ. pose proof (in_txn_n _ _ _ _ T) as Hn. destruct T as [OK Hsame HL C].
  destruct st as [l b]. cbn [lg bc] in *. unfold update. wp_step. wp_step. cbn [lg].
  assert (size l = size l0) as Hsz by (by rewrite Hsame). pose proof (lo_size _ OK).
  rewrite (lo_dev _ OK).
  assert (forall x, pins L x = 0 \/ pins L x = 1) as Hp by (intros x; unfold pins; case_bool_decide; auto).
  onb_step (bread_wp b V _ _ C bn L); [tauto | pose proof (Hp bn); lia | right; split; [apply pins_ne0 | unfold NBUF, LOGSIZE, MAXOPBLOCKS in *; lia] |].
  intros i b1 C1 Hi1 _ Hd1 Hw1. cbn beta.
  onb_step (set_data_wp _ _ _ _ C1 i bn); [done|]. intros b2 C2 Hi2 _ Hd2 Hw2. cbn beta.
  wp_step. eapply (log_write_wp l b2 _ _ _ i bn _ OK C2 Hi2).
  - lia.
  - rewrite Hsame. done.
  - done.
  - unfold log_area. rewrite Hsame. done.
  - rewrite fset_eq. pose proof (Hp bn). lia.
  - rewrite HL. intros b3 l' OK' Hs' HL' C3 Hi3 _ Hd3 Hw3.
    set (R3 := if bool_decide (bn ∈ L) then _ else _) in *.
    assert (R3 bn = 2) as HR3.
    { unfold R3. case_bool_decide; rewrite !fset_eq; [rewrite pins_in by done | rewrite pins_notin by done]; lia. }
    onb_step (brelse_wp _ _ _ _ C3 i bn); [done | by left | lia |]. intros b4 C4 _ _ Hd4 Hw4.
    rewrite HR3 in C4. apply HQ; cbn [bc]; [|congruence..]. constructor; cbn [lg bc].
    + done.
    + rewrite Hs', Hsame. done.
    + done.
    + eapply cache_ext; [exact C4 | done | | unfold no_lock; tauto]. intros x. symmetry. apply pins_add.
Qed.

Lemma add_block_length L bn : (length (add_block L bn) <= length L + 1)%nat.
Proof. unfold add_block. case_bool_decide; rewrite ?length_app; simpl; lia. Qed.

Lemma updates_wp l0 us st V L (Q : unit -> lst -> Prop) :
  in_txn l0 st V L -> Z.of_nat (length L) + Z.of_nat (length us) <= size l0 - 1 -> 1 <= outstanding l0 ->
  Forall (fun u => 0 <= u.1 < 2 ^ 31 /\ ~ log_area l0 u.1) us ->
  (forall st' L', in_txn l0 st' (apply_writes V us) L' -> (us <> [] -> L' <> []) -> (forall x, x ∈ L \/ x ∈ us.*1 <-> x ∈ L') ->
     dsk (bc st') = dsk (bc st) -> wrote (bc st') = wrote (bc st) -> Q tt st') ->
  wp (updates us) st Q.
Proof.
  revert st V L. induction us as [|[bn d] us IH]; intros st V L T Hlen Hout HF HQ; cbn [updates].
  - wp_step. apply (HQ _ L); try done. set_solver.
  - apply Forall_cons in HF as [[Hbn Hna] HF]. cbn [length fst] in *. wp_step.
    eapply update_wp; try done; [lia|]. intros st1 T1 Hd1 Hw1. pose proof (add_block_length L bn).
    eapply IH; try done; [lia|]. intros st2 L2 T2 _ HL2 Hd2 Hw2.
    assert (forall x, x ∈ add_block L bn <-> x = bn \/ x ∈ L) as Hadd by (intros x; unfold add_block; case_bool_decide; set_solver).
    apply (HQ _ L2); try congruence.
    + done.
    + intros _ ->. assert (bn ∈ @nil Z) as Hx; [|by apply not_elem_of_nil in Hx]. apply HL2. left. apply Hadd. by left.
    + intros x. rewrite <- HL2, Hadd. set_solver.
Qed.

(** ** Crashes *)

(** The disks that a machine can be left with when it stops after the first
    [k] of the writes [W] to the disk [d0], and then stops during recovery,
    any number of times. *)
Inductive crash_disk (logstart nlog pid : Z) (d0 : Z -> block) (W : list (Z * block)) (k : nat) : (Z -> block) -> Prop :=
| crash_running : crash_disk logstart nlog pid d0 W k (apply_writes d0 (take k W))
| crash_recovering d st j :
    crash_disk logstart nlog pid d0 W k d ->
    boot logstart nlog (booted d pid) = Ret (tt, st) ->
    crash_disk logstart nlog pid d0 W k (apply_writes d (take j (wrote (bc st)))).

(** Nothing is logged and nobody is in a transaction; the cache is clean and
    the log on the disk is empty. *)
Record idle (logstart nlog : Z) (st : lst) : Prop := {
  id_ok : log_ok (lg st);
  id_start : start (lg st) = logstart;
  id_size : size (lg st) = nlog;
  id_n : lh_n (lg st) = 0;
  id_out : outstanding (lg st) = 0;
  id_com : committing (lg st) = false;
  id_cache : cache (bc st) (dsk (bc st)) (fun _ => 0) no_lock;
  id_len : length (dsk (bc st) logstart) = Z.to_nat BSIZE;
  id_head : head_is (dsk (bc st) logstart) []
}.

Section Recovery.
  Context (logstart nlog : Z) (old : Z -> block) (Hstart : 0 <= logstart) (Hnlog : 0 < nlog <= LOGSIZE) (Hend : logstart + nlog < 2 ^ 31).

(** A block outside the log. *)
Definition home (bn : Z) : Prop := ~ (logstart <= bn < logstart + nlog).

(** The disk [d] with the header that lists [L] recovers to the contents [T];
    until then its blocks have the contents of [T] or those of [old]. *)
Record recoverable (T : Z -> block) (L : list Z) (d : Z -> block) : Prop := {
  rc_len : length (d logstart) = Z.to_nat BSIZE;
  rc_head : head_is (d logstart) L;
  rc_n : Z.of_nat (length L) < nlog;
  rc_dup : NoDup L;
  rc_blocks : Forall (fun bn => 0 <= bn < 2 ^ 31 /\ home bn) L;
  rc_log : forall i bn, L !! i = Some bn -> d (logstart + 1 + Z.of_nat i) = T bn;
  rc_home : forall bn, home bn -> bn ∉ L -> d bn = T bn;
  rc_old : forall bn, home bn -> d bn = T bn \/ d bn = old bn
}.

Lemma rec_home T L d bn : recoverable T L d -> home bn -> recoverable T L (fset d bn (T bn)).
Proof.
  intros [R1 R2 R3 R4 R5 R6 R7 R8] Hb. assert (bn <> logstart) by (unfold home in Hb; lia).
  constructor; rewrite ?fset_ne by done; try done.
  - intros i x Hi. pose proof (lookup_lt_Some _ _ _ Hi). rewrite fset_ne; [by apply R6|]. unfold home in Hb. lia.
  - intros x Hx Hn. destruct (decide (x = bn)) as [->|]; [by rewrite fset_eq|]. rewrite fset_ne by done. by apply R7.
  - intros x Hx. destruct (decide (x = bn)) as [->|]; [left; by rewrite fset_eq|]. rewrite fset_ne by done. by apply R8.
Qed.

Lemma rec_log T d x b : recoverable T [] d -> logstart < x < logstart + nlog -> recoverable T [] (fset d x b).
Proof.
  intros [R1 R2 R3 R4 R5 R6 R7 R8] Hx. constructor; rewrite ?fset_ne by lia; try done.
  - intros y Hy Hn. rewrite fset_ne; [by apply R7|]. unfold home in Hy. lia.
  - intros y Hy. rewrite fset_ne; [by apply R8|]. unfold home in Hy. lia.
Qed.

Lemma rec_clear T L d : recoverable T L d -> (forall bn, home bn -> d bn = T bn) ->
  recoverable T [] (fset d logstart (wr32 (d logstart) 0 0)).
Proof.
  intros [R1 R2 R3 R4 R5 R6 R7 R8] Hall. constructor; rewrite ?fset_eq; try done.
  - by unfold wr32; rewrite wr_length.
  - apply head_is_nil. rewrite rd32_wr32; [done | lia | rewrite R1; unfold BSIZE; lia].
  - cbn. lia.
  - by constructor.
  - intros x Hx _. rewrite fset_ne; [by apply Hall|]. intros ->. unfold home in Hx. lia.
  - intros x Hx. rewrite fset_ne; [by apply R8|]. intros ->. unfold home in Hx. lia.
Qed.

Lemma rec_commit T d L : recoverable T [] d -> (forall bn, home bn -> T bn = old bn) -> Z.of_nat (length L) < nlog -> NoDup L ->
  Forall (fun bn => 0 <= bn < 2 ^ 31 /\ home bn) L ->
  forall T', (forall i bn, L !! i = Some bn -> d (logstart + 1 + Z.of_nat i) = T' bn) ->
  (forall bn, home bn -> bn ∉ L -> T' bn = T bn) ->
  recoverable T' L (fset d logstart (put_head (d logstart) L)).
Proof.
  intros [R1 R2 R3 R4 R5 R6 R7 R8] HT Hn Hd HF T' Hlog Hhome. constructor; rewrite ?fset_eq; try done.
  - by rewrite put_head_length.
  - apply put_head_is; [done | lia |]. eapply Forall_impl; [exact HF | naive_solver].
  - intros i bn Hi. pose proof (lookup_lt_Some _ _ _ Hi). rewrite fset_ne by lia. by apply Hlog.
  - intros x Hx Hnx. rewrite fset_ne by (intros ->; unfold home in Hx; lia). rewrite R7, Hhome; try done. set_solver.
  - intros x Hx. rewrite fset_ne by (intros ->; unfold home in Hx; lia). right. rewrite R7, HT; try done. set_solver.
Qed.

(** A whole sequence of such writes. *)
Lemma rec_homes T L d W : recoverable T L d -> Forall (fun w => home w.1 /\ w.2 = T w.1) W -> recoverable T L (apply_writes d W).
Proof.
  intros HR. induction W as [|[bn b] W IH] using rev_ind; [done|]. intros [H1 H2]%Forall_app.
  apply Forall_singleton in H2 as [Hb Eb]. cbn in Hb, Eb. subst b. rewrite apply_snoc. apply rec_home; auto.
Qed.

Lemma rec_logs T d W : recoverable T [] d -> Forall (fun w => logstart < w.1 < logstart + nlog) W -> recoverable T [] (apply_writes d W).
Proof.
  intros HR. induction W as [|[bn b] W IH] using rev_ind; [done|]. intros [H1 H2]%Forall_app.
  apply Forall_cons in H2 as [H2 _]. rewrite apply_snoc. apply rec_log; [by apply IH | exact H2].
Qed.

(** The writes of a recovery. *)
Lemma recovery_recoverable l T d : log_ok l -> start l = logstart -> size l = nlog -> recoverable T (logged l) d ->
  let W := recovery_writes l d in
  (forall j, exists L', recoverable T L' (apply_writes d (take j W)))
  /\ recoverable T [] (apply_writes d W).
Proof.
  intros OK Hs Hz HR W. pose proof (logged_length l OK) as Hlen.
  assert (install_writes l d (lh_n l) = home_writes l T) as Ei.
  { apply install_home; [done|]. rewrite Hs. apply HR. }
  assert (Forall (fun w => home w.1 /\ w.2 = T w.1) (home_writes l T)) as HF.
  { unfold home_writes. apply Forall_fmap. pose proof (rc_blocks _ _ _ HR) as HB. eapply Forall_impl; [exact HB|].
    intros x [_ Hx]. done. }
  assert (recoverable T [] (apply_writes d W)) as Hall.
  { unfold W, recovery_writes. rewrite Ei, apply_snoc, Hs.
    replace (d logstart) with (apply_writes d (home_writes l T) logstart).
    2:{ apply apply_notin. unfold home_writes. rewrite <- list_fmap_compose. intros (x & Ex & Hx)%list_elem_of_fmap. cbn in Ex.
        pose proof (rc_blocks _ _ _ HR) as HB. rewrite Forall_forall in HB. destruct (HB _ Hx) as [_ Hh]. unfold home in Hh. lia. }
    eapply rec_clear; [by apply rec_homes|]. intros bn Hb. destruct (decide (bn ∈ logged l)) as [Hin|Hnin].
    - apply apply_in; unfold home_writes.
      + rewrite <- list_fmap_compose. apply list_elem_of_fmap. by exists bn.
      + intros b' (x & Ex & _)%list_elem_of_fmap. by injection Ex as -> ->.
    - rewrite apply_notin; [by apply (rc_home _ _ _ HR)|]. unfold home_writes. rewrite <- list_fmap_compose.
      intros (x & -> & Hx)%list_elem_of_fmap. done. }
  split; [|done]. intros j.
  destruct (decide (j <= length (home_writes l T))%nat) as [Hj|Hj].
  - exists (logged l). unfold W, recovery_writes. rewrite Ei, take_app_le by done. apply rec_homes; [done|]. by apply Forall_take.
  - exists []. rewrite take_ge; [done|]. unfold W, recovery_writes. rewrite Ei, length_app. simpl. lia.
Qed.

(** Recovery, with a cache in which no block is in use. *)
Lemma initlog_wp T L d st (Q : unit -> lst -> Prop) : recoverable T L d ->
  lg st = log0 -> cache (bc st) d (fun _ => 0) no_lock -> dsk (bc st) = d -> wrote (bc st) = [] ->
  (forall st', idle logstart nlog st' -> (forall bn, home bn -> dsk (bc st') bn = T bn) -> dsk (bc st') = apply_writes d (wrote (bc st')) ->
     (forall j, exists L', recoverable T L' (apply_writes d (take j (wrote (bc st'))))) -> Q tt st') ->
  wp (initlog 1 logstart nlog) st Q.
Proof.
  intros HR El0 C Hd Hw HQ. destruct st as [l b]. cbn [lg bc] in *. subst l. rewrite <- Hd in C.
  unfold initlog. replace (BSIZE <=? 4 + 4 * LOGSIZE) with false by reflexivity.
  wp_step. unfold log_modify. wp_step. cbn [lg bc log0 outstanding committing lh_n lh_block].
  destruct HR as [R1 R2 R3 R4 R5 R6 R7 R8].
  set (l0 := mkLog logstart nlog 0 false 1 0 (replicate (Z.to_nat LOGSIZE) 0)).
  assert (log_ok (set_lh 0 (lh_block l0) l0)) as OK0.
  { constructor; cbn [set_lh l0 dev start size lh_n lh_block logged]; try done; try lia; try apply length_replicate; by constructor. }
  apply (recover_wp l0 b L); try done; [by rewrite Hd|].
  intros b' l' blk El OK' EL C' Hd' Hw'. rewrite Hd, Hw in *.
  assert (start l' = logstart /\ size l' = nlog) as [Es Ez] by (by subst l').
  destruct (recovery_recoverable l' T d OK' Es Ez) as [Hpre Hfin]; [rewrite EL; by constructor|].
  pose proof Hd' as Hd''. rewrite <- Hd' in Hfin. destruct Hfin as [F1 F2 F3 F4 F5 F6 F7 F8].
  apply HQ; [constructor; try done| | |].
  - cbn [lg]. destruct (clear_ok l' OK') as [HO _]. rewrite El in HO. exact HO.
  - intros bn Hb. apply F7; [done | set_solver].
  - cbn [bc]. rewrite Hw'. exact Hd''.
  - cbn [bc]. rewrite Hw'. cbn [app]. exact Hpre.
Qed.

Lemma boot_recovers T L d pid : recoverable T L d ->
  exists st, boot logstart nlog (booted d pid) = Ret (tt, st) /\ idle logstart nlog st
    /\ (forall bn, home bn -> dsk (bc st) bn = T bn)
    /\ (forall j, exists L', recoverable T L' (apply_writes d (take j (wrote (bc st))))).
Proof.
  intros HR. cut (wp (boot logstart nlog) (booted d pid) (fun _ st => idle logstart nlog st
    /\ (forall bn, home bn -> dsk (bc st) bn = T bn)
    /\ (forall j, exists L', recoverable T L' (apply_writes d (take j (wrote (bc st))))))).
  { intros ([] & st & E & H). by exists st. }
  unfold boot, booted. onb_step binit_wp. cbn [dsk wrote me]. intros b C Hd Hw _. by eapply initlog_wp.
Qed.

(** Every disk that a crash can leave is recoverable. *)
Lemma crash_recoverable T pid d0 W k d :
  (exists L, recoverable T L (apply_writes d0 (take k W))) -> crash_disk logstart nlog pid d0 W k d -> exists L, recoverable T L d.
Proof.
  intros H0 H. induction H as [|d st j H IH E]; [done|]. destruct IH as [L HL].
  destruct (boot_recovers T L d pid HL) as (st' & E' & _ & _ & Hj). rewrite E in E'. injection E' as <-. apply Hj.
Qed.

End Recovery.

(** A disk with an empty log where mkfs puts it. *)
Lemma clean_boot d pid : length (d 2) = Z.to_nat BSIZE -> head_is (d 2) [] ->
  exists st, boot 2 30 (booted d pid) = Ret (tt, st) /\ idle 2 30 st /\ forall bn, home 2 30 bn -> dsk (bc st) bn = d bn.
Proof.
  intros H1 H2. destruct (boot_recovers 2 30 d ltac:(lia) ltac:(cbv; split; congruence) ltac:(lia) d [] d pid) as (st & E & I & Hh & _); [|by exists st].
  constructor; try done; [by constructor | by left].
Qed.

(** ** The commit *)

Lemma idle_bounds ls n st : idle ls n st -> 0 <= ls /\ 0 < n <= LOGSIZE /\ ls + n < 2 ^ 31.
Proof.
  intros I. destruct (id_ok _ _ _ I). rewrite (id_start _ _ _ I), (id_size _ _ _ I), (id_n _ _ _ I) in *. lia.
Qed.

Lemma idle_recoverable ls n old st : idle ls n st -> recoverable ls n old (dsk (bc st)) [] (dsk (bc st)).
Proof.
  intros I. constructor; try done.
  - apply I.
  - apply I.
  - pose proof (idle_bounds _ _ _ I). cbn. lia.
  - by constructor.
  - by left.
Qed.

Lemma commit_tail l V d0 : log_ok l -> 0 < lh_n l ->
  let d1 := apply_writes d0 (log_writes l V (lh_n l) ++ [(start l, commit_head l V)]) in
  home_writes l V ++ [(start l, wr32 (commit_head l V) 0 0)] = recovery_writes l d1.
Proof.
  intros OK Hn d1. unfold recovery_writes. f_equal.
  - symmetry. apply install_home; [done|]. intros i bn Hi. by apply log_blocks_written.
  - unfold d1. by rewrite apply_snoc, fset_eq.
Qed.

Lemma commit_recoverable l V d0 : log_ok l -> 0 < lh_n l -> recoverable (start l) (size l) d0 d0 [] d0 ->
  (forall bn, bn ∉ logged l -> V bn = d0 bn) ->
  (forall k, exists T L, (T = d0 \/ T = V) /\ recoverable (start l) (size l) d0 T L (apply_writes d0 (take k (commit_writes l V))))
  /\ recoverable (start l) (size l) d0 V [] (apply_writes d0 (commit_writes l V)).
Proof.
  intros OK Hn HR HV. pose proof (logged_length l OK) as Hlen. pose proof (lo_n _ OK).
  assert (0 < size l <= LOGSIZE) as Hsz by (pose proof (lo_size _ OK); lia).
  set (W1 := log_writes l V (lh_n l)).
  assert (Forall (fun w => start l < w.1 < start l + size l) W1) as HF.
  { unfold W1, log_writes. apply Forall_fmap, Forall_forall. intros i Hi%elem_of_seqZ. cbn. lia. }
  set (d1 := apply_writes d0 (W1 ++ [(start l, commit_head l V)])).
  assert (recoverable (start l) (size l) d0 V (logged l) d1) as H1.
  { unfold d1. rewrite apply_snoc. unfold commit_head.
    assert (V (start l) = apply_writes d0 W1 (start l)) as ->.
    { rewrite apply_notin by (intros Hx; apply log_writes_fst in Hx; lia).
      apply HV, (area_notin l OK), (start_in_area l OK). }
    eapply (rec_commit _ _ d0 (lo_start _ OK) Hsz (lo_end _ OK) d0); [by apply rec_logs | done | lia | apply (lo_dup _ OK) | apply (lo_blocks _ OK) | |].
    - intros i bn Hi. pose proof (log_blocks_written l V d0 i bn OK Hi) as E1. fold W1 in E1. rewrite apply_snoc, fset_ne in E1 by lia. exact E1.
    - intros bn _ Hnin. by apply HV. }
  destruct (recovery_recoverable (start l) (size l) d0 Hsz l V d1 OK eq_refl eq_refl H1) as [Hpre Hfin].
  unfold commit_writes. fold W1. pose proof (commit_tail l V d0 OK Hn) as Ht. fold W1 d1 in Ht. rewrite Ht.
  split; [|by rewrite apply_app]. intros k.
  destruct (decide (k <= length W1)%nat) as [Hk|Hk].
  - exists d0, []. split; [by left|]. rewrite take_app_le by (rewrite length_app; lia). rewrite take_app_le by lia.
    apply rec_logs; [done|]. by apply Forall_take.
  - rewrite take_app_ge by (rewrite length_app; cbn; lia). rewrite apply_app. fold d1.
    destruct (Hpre (k - length (W1 ++ [(start l, commit_head l V)]))%nat) as [L HL]. exists V, L. split; [by right | exact HL].
Qed.

(** The last [end_op] of a transaction. *)
Lemma end_op_wp l0 b0 st V L (Q : unit -> lst -> Prop) :
  in_txn l0 st V L -> outstanding l0 = 1 -> committing l0 = false ->
  recoverable (start l0) (size l0) b0 b0 [] b0 -> dsk (bc st) = b0 -> (forall bn, bn ∉ L -> V bn = b0 bn) ->
  (forall st' W, idle (start l0) (size l0) st' -> wrote (bc st') = wrote (bc st) ++ W -> dsk (bc st') = apply_writes b0 W ->
     (forall bn, home (start l0) (size l0) bn -> dsk (bc st') bn = V bn) ->
     (forall k, exists T L, (T = b0 \/ T = V) /\ recoverable (start l0) (size l0) b0 T L (apply_writes b0 (take k W))) ->
     Q tt st') ->
  wp end_op st Q.
Proof.
  intros T Ho Hc HR Hd HV HQ. pose proof (in_txn_n _ _ _ _ T) as Hn. destruct T as [OK Hs HL C]. destruct st as [l b]. cbn [lg bc] in *.
  unfold end_op, end_op_enter. wp_step. wp_step. unfold log_modify at 1. wp_step. cbn [lg bc]. wp_step. wp_step. cbn [lg].
  assert (outstanding l = 1 /\ committing l = false /\ start l = start l0 /\ size l = size l0) as (E1 & E2 & E3 & E4)
    by (rewrite Hs; done).
  cbn [set_out committing outstanding]. rewrite E1, E2. replace (1 - 1 =? 0) with true by reflexivity. cbv match.
  wp_step. unfold log_modify at 1. wp_step. wp_step. cbn [when lg bc set_out outstanding].
  set (l3 := mkLog (start l) (size l) 0 true (dev l) (lh_n l) (lh_block l)).
  change (set_out (1 - 1) true (set_out (1 - 1) false l)) with l3.
  assert (log_ok l3) as OK3 by (destruct OK; constructor; done).
  wp_step. pose proof (lo_n _ OK).
  destruct (decide (lh_n l = 0)) as [Hz|Hz].
  - assert (L = []) as -> by (apply nil_length_inv; lia).
    unfold commit. wp_step. wp_step. cbn [lg lh_n l3]. rewrite Hz. cbn [Z.gtb Z.compare when]. wp_step.
    unfold end_op_leave, log_modify. wp_step. cbn [lg bc].
    apply (HQ _ []); cbn [bc].
    + constructor; cbn [lg bc set_out l3 start size lh_n outstanding committing]; try done; try (rewrite Hd; by apply HR).
      * destruct OK3. constructor; done.
      * eapply cache_clean, cache_ext; [exact C | done | | done]. intros x. symmetry. by apply pins_notin, not_elem_of_nil.
    + by rewrite app_nil_r.
    + exact Hd.
    + intros bn _. rewrite Hd. symmetry. apply HV. apply not_elem_of_nil.
    + intros k. exists b0, []. rewrite take_nil. split; [by left | done].
  - rewrite <- HL in C, HV. eapply (commit_wp l3 b V _ OK3); [exact C | cbn; lia |].
    intros b3 C3 Hd3 Hw3. rewrite Hd in Hd3. rewrite <- E3, <- E4 in HR.
    destruct (commit_recoverable l3 V b0 OK3 ltac:(cbn; lia) HR HV) as [Hpre Hfin].
    cbn [l3 start size] in Hpre, Hfin. rewrite E3, E4 in Hpre, Hfin. rewrite <- Hd3 in Hfin.
    unfold end_op_leave, log_modify. wp_step. cbn [lg bc].
    apply (HQ _ (commit_writes l3 V)); cbn [bc]; try done.
    + destruct (clear_ok l3 OK3) as [OK0 _].
      constructor; cbn [lg bc set_out set_lh l3 start size lh_n outstanding committing]; try done; try apply Hfin.
      destruct OK0. constructor; done.
    + intros bn Hb. apply Hfin; [done | apply not_elem_of_nil].
Qed.

(** C2: a file-system call that updates at most MAXOPBLOCKS blocks outside the
    log ends with all of its updates on the disk and the log empty again; and
    wherever the machine stops on the way, and however often it stops again
    during the recoveries that follow, the next boot finds either none of the
    updates or all of them, and the log ready for use. *)
Theorem fs_call_atomic (logstart nlog pid : Z) (st : lst) (us : list (Z * block))
  (I : idle logstart nlog st) (Hfit : Z.of_nat (length us) <= MAXOPBLOCKS) (Hn : MAXOPBLOCKS < nlog)
  (Hus : Forall (fun u => 0 <= u.1 < 2 ^ 31 /\ home logstart nlog u.1) us) :
  exists st' W, fs_call us st = Ret (tt, st') /\ idle logstart nlog st'
    /\ wrote (bc st') = wrote (bc st) ++ W
    /\ (forall bn, home logstart nlog bn -> dsk (bc st') bn = apply_writes (dsk (bc st)) us bn)
    /\ forall k d, crash_disk logstart nlog pid (dsk (bc st)) W k d ->
         exists st2, boot logstart nlog (booted d pid) = Ret (tt, st2) /\ idle logstart nlog st2
           /\ ((forall bn, home logstart nlog bn -> dsk (bc st2) bn = dsk (bc st) bn)
               \/ (forall bn, home logstart nlog bn -> dsk (bc st2) bn = apply_writes (dsk (bc st)) us bn)).
Proof.
  destruct (idle_bounds _ _ _ I) as (B1 & B2 & B3). pose proof (idle_recoverable _ _ (dsk (bc st)) _ I) as HR.
  destruct st as [l b]. destruct I as [OK Es Ez En Eo Ec C Hlen Hhd]. cbn [lg bc] in *. subst logstart nlog.
  set (l1 := set_out 1 false l).
  assert (in_txn l1 (mkLst l1 b) (dsk b) []) as T0.
  { constructor; cbn [lg bc]; [destruct OK; constructor; done | by destruct l | unfold logged; cbn; by rewrite En |].
    eapply cache_ext; [exact C | done | | done]. intros x. by apply pins_notin, not_elem_of_nil. }
  cut (wp (fs_call us) (mkLst l b) (fun _ st' => exists W, idle (start l) (size l) st' /\ wrote (bc st') = wrote b ++ W
    /\ (forall bn, home (start l) (size l) bn -> dsk (bc st') bn = apply_writes (dsk b) us bn)
    /\ forall k, exists T L, (T = dsk b \/ T = apply_writes (dsk b) us) /\ recoverable (start l) (size l) (dsk b) T L (apply_writes (dsk b) (take k W)))).
  { intros ([] & st' & E & W & H1 & H2 & H3 & H4). exists st', W. split_and!; try done. intros k d Hd.
    destruct (H4 k) as (T & L & Hor & HT).
    destruct (crash_recoverable _ _ (dsk b) B1 B2 B3 T pid (dsk b) W k d) as [L' HL']; [by exists L | done |].
    destruct (boot_recovers _ _ (dsk b) B1 B2 B3 T L' d pid HL') as (st2 & E2 & I2 & Hh & _).
    exists st2. split_and!; try done. destruct Hor as [-> | ->]; [by left | by right]. }
  unfold fs_call. wp_step. unfold begin_op. wp_step. wp_step. cbn [lg]. rewrite Ec, En, Eo.
  replace (0 + (0 + 1) * MAXOPBLOCKS >? LOGSIZE) with false by reflexivity.
  wp_step. unfold log_modify. wp_step. wp_step. cbn [lg bc]. change (set_out (0 + 1) false l) with l1.
  wp_step. eapply (updates_wp l1 us _ _ _ _ T0); [cbn; lia | cbn; lia | exact Hus |].
  intros st2 L' T2 _ HL' Hd2 Hw2. cbn [bc] in Hd2, Hw2.
  eapply (end_op_wp l1 (dsk b) st2 _ _ _ T2); try done.
  - intros bn Hbn. apply apply_notin. intros Hx. apply Hbn, HL'. by right.
  - intros st3 W I3 Hw3 _ Hh3 Hk. exists W. rewrite <- Hw2. by split_and!.
Qed.

Lemma fs_call_atomic_witness : exists st st' W d st2,
  fs_call [(50, [1; 2]); (60, [3])] st = Ret (tt, st')
  /\ dsk (bc st') 50 = [1; 2] /\ dsk (bc st') 60 = [3]
  /\ d = apply_writes (dsk (bc st)) (take 4 W)
  /\ boot 2 30 (booted d 1) = Ret (tt, st2).
Proof.
  set (blank := fun _ : Z => replicate (Z.to_nat BSIZE) 0).
  destruct (clean_boot blank 1 eq_refl ltac:(done)) as (st & _ & I & _).
  destruct (fs_call_atomic 2 30 1 st [(50, [1; 2]); (60, [3])] I) as (st' & W & E & _ & _ & Hd & Hk).
  - reflexivity || (cbn; unfold MAXOPBLOCKS; lia).
  - reflexivity.
  - repeat constructor; cbn; unfold home; lia.
  - destruct (Hk 4%nat _ (crash_running 2 30 1 _ W 4)) as (st2 & E2 & _).
    exists st, st', W, (apply_writes (dsk (bc st)) (take 4 W)), st2.
    split; [exact E|]. split; [by rewrite Hd by (unfold home; lia)|]. split; [by rewrite Hd by (unfold home; lia)|].
    split; [reflexivity | exact E2].
Defined.
