(* ===== verification/LogProto.v ===== *)
(** * Concurrent system calls and the log

    System calls interleave at the critical sections of [begin_op],
    [log_write] and [end_op]; the one that ends last commits, outside the
    lock.  The system is a step relation over the log, the cache and the list
    of active calls, each with the blocks it has logged. *)

From S2P Require Import Prelude Bytes Bio Log LogThms.

(** What the committing call has still to do. *)
Inductive phase := Running | Committing | Committed.

Record sys := mkSys { calls : list (list Z); ph : phase; sst : lst }.

(** The block number of a buffer. *)
Definition buf_no (b : Z) (st : lst) : option Z := blockno <$> aget (bufs (bc st)) b.

Inductive step : sys -> sys -> Prop :=
| step_begin cs p st st' :
    begin_op st = Ret (true, st') -> step (mkSys cs p st) (mkSys ([] :: cs) p st')
| step_sleep cs p st st' :
    begin_op st = Ret (false, st') -> step (mkSys cs p st) (mkSys cs p st')
| step_log_write cs1 w cs2 p st st' b bn :
    buf_no b st = Some bn -> 0 <= bn < 2 ^ 31 -> ~ log_area (lg st) bn ->
    Z.of_nat (length (add_block w bn)) <= MAXOPBLOCKS ->
    log_write b st = Ret (tt, st') ->
    step (mkSys (cs1 ++ w :: cs2) p st) (mkSys (cs1 ++ add_block w bn :: cs2) p st')
| step_cache cs p l b b' :      (* bread, brelse, changes of a buffer *)
    step (mkSys cs p (mkLst l b)) (mkSys cs p (mkLst l b'))
| step_end_enter cs1 w cs2 st st' (c : bool) :
    end_op_enter st = Ret (c, st') ->
    step (mkSys (cs1 ++ w :: cs2) Running st) (mkSys (cs1 ++ cs2) (if c then Committing else Running) st')
| step_commit cs st st' :
    commit st = Ret (tt, st') -> step (mkSys cs Committing st) (mkSys cs Committed st')
| step_end_leave cs st st' :
    end_op_leave st = Ret (tt, st') -> step (mkSys cs Committed st) (mkSys cs Running st').

Inductive reach (s0 : sys) : sys -> Prop :=
| reach_refl : reach s0 s0
| reach_step s s' : reach s0 s -> step s s' -> reach s0 s'.

(** ** What the operations do to the log, whenever they return *)

(** An operation that leaves the log alone. *)
Definition same_lg (st st' : lst) : Prop := lg st' = lg st.

#[local] Instance same_lg_preorder : PreOrder same_lg.
Proof. split; [done|]. unfold same_lg. intros ? ? ? ? ?. congruence. Qed.

Lemma keeps_onb {A} (m : M bst A) : keeps same_lg (onb m).
Proof. by apply keeps_zoom. Qed.
#[local] Hint Resolve keeps_onb : keeps.

Lemma keeps_write_log : keeps same_lg write_log.
Proof. unfold write_log. keeps. Qed.
Lemma keeps_write_head : keeps same_lg write_head.
Proof. unfold write_head. keeps. Qed.
Lemma keeps_install r : keeps same_lg (install_trans r).
Proof. unfold install_trans. keeps. Qed.

Lemma commit_keeps st st' : commit st = Ret (tt, st') ->
  (lh_n (lg st) <= 0 /\ lg st' = lg st) \/ lg st' = set_lh 0 (lh_block (lg st)) (lg st).
Proof.
  unfold commit. unfold bind at 1, gets. cbv beta iota. destruct (lh_n (lg st) >? 0) eqn:Ez; cbn [when]; [|intros [= <-]; left; split; [bool_prop; lia | done]].
  intros H. right. revert H.
  unfold bind at 1. destruct (write_log st) as [[[] s1]| | |] eqn:E1; [|done..]. apply keeps_write_log in E1.
  unfold bind at 1. destruct (write_head s1) as [[[] s2]| | |] eqn:E2; [|done..]. apply keeps_write_head in E2.
  unfold bind at 1. destruct (install_trans false s2) as [[[] s3]| | |] eqn:E3; [|done..]. apply keeps_install in E3.
  intros E4. apply keeps_write_head in E4. unfold same_lg in *. cbn [lg] in E4. rewrite E4, E3, E2, E1. done.
Qed.

Lemma begin_op_inv st r st' : begin_op st = Ret (r, st') ->
  (r = false /\ st' = st)
  \/ (r = true /\ committing (lg st) = false /\ lh_n (lg st) + (outstanding (lg st) + 1) * MAXOPBLOCKS <= LOGSIZE
      /\ st' = mkLst (set_out (outstanding (lg st) + 1) false (lg st)) (bc st)).
Proof.
  unfold begin_op, bind, gets. cbv beta iota. destruct (committing (lg st)) eqn:Ec; [intros [= <- <-]; by left|].
  case_if; [intros [= <- <-]; by left|]. intros [= <- <-]. right. split_and!; try done; lia.
Qed.

Lemma log_write_inv st b bn st' : buf_no b st = Some bn -> log_write b st = Ret (tt, st') ->
  let l := lg st in
  let i := absorb (Z.to_nat (lh_n l)) 0 (lh_block l) bn in
  lh_n l < LOGSIZE /\ lh_n l < size l - 1
  /\ exists blk, aset (lh_block l) i (i32 bn) = Some blk
       /\ lg st' = set_lh (if i =? lh_n l then lh_n l + 1 else lh_n l) blk l.
Proof.
  intros Hb H. cbn zeta. revert H. unfold log_write. unfold bind at 1, gets at 1. cbv beta iota. case_if; [done|]. case_if; [done|].
  destruct st as [l bs]. unfold buf_no in Hb. cbn [bc lg] in *. destruct (aget (bufs bs) b) as [v|] eqn:Ev; [|done].
  injection Hb as Hb. unfold bind at 1. unfold onb at 1, zoom at 1, get_buf at 1, bind at 1, gets at 1. cbn [bc lg]. cbv beta iota. rewrite Ev. unfold from_option at 1, ret at 1. cbv beta iota zeta.
  rewrite Hb. set (i := absorb _ _ _ _). unfold bind at 1. destruct (aset (lh_block l) i (i32 bn)) as [blk|]; [|done]. unfold from_option at 1, ret at 1. cbv beta iota.
  unfold bind at 1. unfold log_modify at 1, modify. cbv beta iota. cbn [lg bc]. intros Hr. split; [lia|]. split; [lia|]. exists blk. split; [done|].
  revert Hr. destruct (i =? lh_n l) eqn:Ei; cbn [when].
  - unfold bind. destruct (onb (bpin b) _) as [[[] s1]| | |] eqn:E1; [|done..]. apply keeps_onb in E1. unfold same_lg in E1. cbn [lg] in E1.
    unfold log_modify, modify. intros [= <-]. cbn [lg]. by rewrite E1.
  - intros [= <-]. done.
Qed.

(** ** The invariant *)

(** The log space that the active calls may still take. *)
Fixpoint reserved (cs : list (list Z)) : Z :=
  match cs with
  | [] => 0
  | w :: cs' => MAXOPBLOCKS - Z.of_nat (length w) + reserved cs'
  end.

Record proto (s : sys) : Prop := {
  pr_ok : log_ok (lg (sst s));
  pr_out : outstanding (lg (sst s)) = Z.of_nat (length (calls s));
  pr_com : committing (lg (sst s)) = match ph s with Running => false | _ => true end;
  pr_excl : ph s <> Running -> calls s = [];
  pr_done : ph s = Committed -> lh_n (lg (sst s)) = 0;
  pr_calls : Forall (fun w => Z.of_nat (length w) <= MAXOPBLOCKS /\ forall x, x ∈ w -> x ∈ logged (lg (sst s))) (calls s);
  pr_room : lh_n (lg (sst s)) + reserved (calls s) <= LOGSIZE
}.

Lemma reserved_app cs1 cs2 : reserved (cs1 ++ cs2) = reserved cs1 + reserved cs2.
Proof. induction cs1 as [|w cs1 IH]; cbn [app reserved]; lia. Qed.

Lemma reserved_bound cs : Forall (fun w : list Z => Z.of_nat (length w) <= MAXOPBLOCKS) cs ->
  0 <= reserved cs <= Z.of_nat (length cs) * MAXOPBLOCKS.
Proof. induction 1 as [|w cs Hw _ IH]; cbn [reserved length]; [lia|]. unfold MAXOPBLOCKS in *. lia. Qed.

Lemma set_out_ok o c l : log_ok l -> log_ok (set_out o c l).
Proof. intros []. constructor; done. Qed.

(** [log_write] adds the block to the logged ones. *)
Lemma log_write_adds st st' b bn : log_ok (lg st) -> buf_no b st = Some bn -> 0 <= bn < 2 ^ 31 -> ~ log_area (lg st) bn ->
  log_write b st = Ret (tt, st') ->
  log_ok (lg st') /\ logged (lg st') = add_block (logged (lg st)) bn
  /\ lg st' = set_lh (lh_n (lg st')) (lh_block (lg st')) (lg st)
  /\ lh_n (lg st') = (if bool_decide (bn ∈ logged (lg st)) then lh_n (lg st) else lh_n (lg st) + 1).
Proof.
  intros OK Hb Hr Hna E. destruct (log_write_inv st b bn st' Hb E) as (H1 & H2 & blk & Hblk & ->).
  set (l := lg st) in *. pose proof (lo_n _ OK). pose proof (lo_len _ OK) as Hlen. pose proof (logged_length l OK).
  unfold add_block. destruct (absorb_logged l bn OK ltac:(lia)) as [(Hin & Hi & Hlk)|[Hnin Hi]];
    set (i := absorb _ _ _ _) in *; rewrite i32_small in Hblk by lia;
    rewrite aset_is_Some in Hblk by (unfold LOGSIZE, MAXOPBLOCKS in *; lia); injection Hblk as <-.
  - rewrite bool_decide_true by done. zcmp. rewrite list_insert_id by (unfold logged in Hlk; by apply lookup_take_Some in Hlk as [? _]).
    rewrite !set_lh_same. by split_and!.
  - rewrite bool_decide_false by done. rewrite Hi, Z.eqb_refl.
    by destruct (log_append_ok l bn OK Hnin Hr Hna H2).
Qed.

Lemma step_proto s s' : proto s -> step s s' -> proto s'.
Proof.
  intros P H. destruct H as [cs p st st' E|cs p st st' E|cs1 w cs2 p st st' b bn Hb Hr Hna Hlim E|cs p l b b'|cs1 w cs2 st st' c E|cs st st' E|cs st st' E];
    destruct P as [P1 P2 P3 P4 P5 P6 P7]; cbn [calls ph sst] in *.
  - apply begin_op_inv in E as [[? _]|(_ & Ec & Hroom & ->)]; [done|].
    assert (p = Running) as -> by (destruct p; congruence).
    pose proof (reserved_bound cs (Forall_impl _ _ _ P6 (fun w H => proj1 H))).
    constructor; cbn [calls ph sst lg]; try done.
    + by apply set_out_ok.
    + cbn. lia.
    + constructor; [|done]. split; [by unfold MAXOPBLOCKS; cbn; lia|]. intros x Hx. by apply not_elem_of_nil in Hx.
    + cbn [set_out lh_n reserved length]. rewrite P2 in Hroom. lia.
  - apply begin_op_inv in E as [[_ ->]|[? _]]; [|done]. by constructor.
  - destruct (log_write_adds st st' b bn P1 Hb Hr Hna E) as (OK' & EL & Es & En).
    assert (forall x, x ∈ logged (lg st) -> x ∈ logged (lg st')) as Hsub by (rewrite EL; unfold add_block; case_bool_decide; set_solver).
    apply Forall_app in P6 as [F1 F2]. apply Forall_cons in F2 as [[Hw Hws] F2].
    constructor; cbn [calls ph sst].
    + done.
    + rewrite Es. cbn. rewrite P2, !length_app. done.
    + rewrite Es. done.
    + intros Hp. apply P4 in Hp. by apply app_nil in Hp as [_ ?].
    + intros Hp. exfalso. assert (p <> Running) as Hp' by congruence. apply P4 in Hp'. by apply app_nil in Hp' as [_ ?].
    + apply Forall_app. split; [eapply Forall_impl; [exact F1 | naive_solver]|]. constructor; [|eapply Forall_impl; [exact F2 | naive_solver]].
      split; [done|]. intros x Hx. rewrite EL. unfold add_block in *. do 2 case_bool_decide; set_solver.
    + rewrite En, reserved_app. rewrite reserved_app in P7. cbn [reserved] in *. unfold add_block.
      do 2 case_bool_decide; rewrite ?length_app; cbn [length]; try lia. exfalso. by auto.
  - by constructor.
  - unfold end_op_enter, bind, log_modify, modify, gets in E. cbn [lg set_out committing outstanding] in E. rewrite P3 in E.
    rewrite length_app in P2. cbn [length] in P2. cbv beta iota in E. cbn [lg bc set_out] in E.
    apply Forall_app in P6 as [F1 F2]. apply Forall_cons in F2 as [[Hw _] F2].
    rewrite reserved_app in P7. cbn [reserved] in P7. pose proof (reserved_app cs1 cs2) as HR.
    case_if_in E; injection E as <- <-; constructor; cbn [calls ph sst lg set_out outstanding committing lh_n]; try done; try (by repeat apply set_out_ok); try (rewrite ?length_app; lia); try (by apply Forall_app).
    intros _. apply nil_length_inv. rewrite length_app. cbn in *. lia.
  - assert (cs = []) as -> by (by apply P4).
    apply commit_keeps in E as E'. constructor; cbn [calls ph sst]; try done.
    + destruct E' as [[_ ->]| ->]; [done | by apply clear_ok].
    + destruct E' as [[_ ->]| ->]; done.
    + destruct E' as [[_ ->]| ->]; done.
    + intros _. pose proof (lo_n _ P1). destruct E' as [[? ->]| ->]; [lia | done].
    + destruct E' as [[_ ->]| ->]; [done|]. cbn [reserved set_lh lh_n]. unfold LOGSIZE, MAXOPBLOCKS. lia.
  - assert (cs = []) as -> by (by apply P4). unfold end_op_leave, log_modify, modify in E. injection E as <-.
    constructor; cbn [calls ph sst lg]; try done. by apply set_out_ok.
Qed.

(** C18: however the system calls interleave at the log's critical sections, in
    every state they reach [log.outstanding] is the number of active calls, a
    commit runs only while no call is active, the blocks that an active call
    has logged are in the log header, at most three calls are active, and the
    log space in use plus what the active calls may still take is at most
    LOGSIZE, so the header's array is never overrun. *)
Theorem log_protocol (logstart nlog : Z) (st0 : lst) (s : sys) (I : idle logstart nlog st0)
  (H : reach (mkSys [] Running st0) s) :
  outstanding (lg (sst s)) = Z.of_nat (length (calls s))
  /\ (committing (lg (sst s)) = true -> calls s = [])
  /\ (forall w x, w ∈ calls s -> x ∈ w -> x ∈ logged (lg (sst s)))
  /\ (length (calls s) <= 3)%nat
  /\ lh_n (lg (sst s)) + reserved (calls s) <= LOGSIZE
  /\ (ph s = Committed -> lh_n (lg (sst s)) = 0).
Proof.
  assert (proto s /\ (length (calls s) <= 3)%nat) as [[P1 P2 P3 P4 P5 P6 P7] Hl].
  { induction H as [|s s' H [P Hl] E].
    - split; [|cbn; lia]. destruct I as [I1 _ _ I4 I5 I6 _ _ _]. constructor; cbn [calls ph sst]; try done.
      rewrite I4. unfold LOGSIZE, MAXOPBLOCKS. cbn. lia.
    - split; [by eapply step_proto|]. destruct E as [cs p st st' E| | | | | |]; cbn [calls] in *; rewrite ?length_app in *; cbn [length] in *; try lia.
      apply begin_op_inv in E as [[? _]|(_ & _ & Hroom & _)]; [done|]. pose proof (pr_out _ P) as Ho. cbn [calls sst] in Ho. rewrite Ho in Hroom.
      pose proof (lo_n _ (pr_ok _ P)) as Hn. cbn [sst] in Hn. unfold LOGSIZE, MAXOPBLOCKS in *. lia. }
  split_and!; try done.
  - intros Hc. apply P4. rewrite P3 in Hc. by destruct (ph s).
  - intros w x Hw Hx. rewrite Forall_forall in P6. destruct (P6 w Hw) as [_ Hs]. by apply Hs.
Qed.

Lemma log_protocol_witness : exists st0 s, reach (mkSys [] Running st0) s /\ calls s = [[]; []] /\ outstanding (lg (sst s)) = 2.
Proof.
  set (blank := fun _ : Z => replicate (Z.to_nat BSIZE) 0).
  destruct (clean_boot blank 1 eq_refl ltac:(done)) as (st & _ & I & _).
  assert (begin_op st = Ret (true, mkLst (set_out 1 false (lg st)) (bc st))) as E1.
  { unfold begin_op, bind, gets. rewrite (id_com _ _ _ I), (id_n _ _ _ I), (id_out _ _ _ I). reflexivity. }
  set (st1 := mkLst (set_out 1 false (lg st)) (bc st)) in *.
  assert (begin_op st1 = Ret (true, mkLst (set_out 2 false (lg st)) (bc st))) as E2.
  { unfold begin_op, bind, gets. cbn [st1 lg set_out committing lh_n outstanding]. rewrite (id_n _ _ _ I). reflexivity. }
  set (s := mkSys [[]; []] Running (mkLst (set_out 2 false (lg st)) (bc st))).
  assert (reach (mkSys [] Running st) s) as Hr.
  { eapply reach_step; [eapply reach_step; [apply reach_refl | apply step_begin, E1] | apply step_begin, E2]. }
  exists st, s. split; [exact Hr|]. split; [reflexivity|]. destruct (log_protocol 2 30 st s I Hr) as [Ho _]. exact Ho.
Defined.

