(* ===== verification/Fs.v ===== *)
(** * The file system (kernel/fs.c, fs.h, file.h, stat.h)

    The inode table and the superblock over the log of Log.v.  An inode
    pointer is an index into [itable.inode]; a null pointer is [None].  Copies
    to and from the caller's memory are parameters of [readi] and [writei]
    that work on a state of their own: [either_copyout] stores bytes and
    answers whether that worked, [either_copyin] gives what the destination
    holds after the copy and whether it was complete.  Path names are the bytes before the terminator. *)

From S2P Require Import Prelude KString Bytes Bio Log.

Definition ROOTDEV : Z := 1.
Definition ROOTINO : Z := 1.
Definition FSMAGIC : Z := 0x10203040.
Definition NINODE : Z := 50.
Definition NDIRECT : Z := 12.
Definition NINDIRECT : Z := BSIZE / 4.
Definition MAXFILE : Z := NDIRECT + NINDIRECT.
Definition IPB : Z := BSIZE / 64.
Definition BPB : Z := BSIZE * 8.
Definition DIRSIZ : Z := 14.
Definition T_DIR : Z := 1.
Definition T_FILE : Z := 2.
Definition T_DEVICE : Z := 3.

Record superblock := mkSb {
  magic : Z; sb_size : Z; nblocks : Z; ninodes : Z;
  nlog : Z; logstart : Z; inodestart : Z; bmapstart : Z
}.

(** The part of an inode that is on the disk. *)
Record dinode := mkDinode {
  type : Z; major : Z; minor : Z; nlink : Z; isize : Z; addrs : list Z
}.

(** [struct inode]: the copy in memory. *)
Record inode := mkInode {
  idev : Z; inum : Z; ref : Z; ilk : option Z; ivalid : bool; idata : dinode
}.

Record stat := mkStat { st_dev : Z; st_ino : Z; st_type : Z; st_nlink : Z; st_size : Z }.

Record fsst := mkFsst {
  fs_log : lst;
  itable : list inode;
  sb : superblock;
  said : list string       (* the lines printed *)
}.

Definition dinode0 : dinode := mkDinode 0 0 0 0 0 (replicate 13 0).
Definition inode0 : inode := mkInode 0 0 0 None false dinode0.

Definition set_log (l : lst) (s : fsst) : fsst := mkFsst l (itable s) (sb s) (said s).
Definition set_itable (t : list inode) (s : fsst) : fsst := mkFsst (fs_log s) t (sb s) (said s).
Definition onl {A} (m : M lst A) : M fsst A := zoom fs_log set_log m.
Definition say (msg : string) : M fsst unit :=
  modify (fun s => mkFsst (fs_log s) (itable s) (sb s) (said s ++ [msg])).

(** The buffer operations, on block numbers of type uint. *)
Definition fbread (d bn : Z) : M fsst Z := onl (onb (bread d (u32 bn))).
Definition fbrelse (b : Z) : M fsst unit := onl (onb (brelse b)).
Definition fdata (b : Z) : M fsst block := onl (onb (get_data b)).
Definition fset_data (b : Z) (d : block) : M fsst unit := onl (onb (set_data b d)).
Definition flog_write (b : Z) : M fsst unit := onl (log_write b).

Definition readsb (d : Z) : M fsst superblock :=
  bp <- fbread d 1 ;;
  x <- fdata bp ;;
  fbrelse bp ;;;
  ret (mkSb (rd32 x 0) (rd32 x 4) (rd32 x 8) (rd32 x 12) (rd32 x 16) (rd32 x 20) (rd32 x 24) (rd32 x 28)).

Definition fsinit (d : Z) : M fsst unit :=
  b <- readsb d ;;
  modify (fun s => mkFsst (fs_log s) (itable s) b (said s)) ;;;
  if negb (magic b =? FSMAGIC) then panic "invalid file system"
  else onl (initlog d (i32 (logstart b)) (i32 (nlog b))).

Definition bzero (d bno : Z) : M fsst unit :=
  bp <- fbread d bno ;;
  fset_data bp (replicate (Z.to_nat BSIZE) 0) ;;;
  flog_write bp ;;;
  fbrelse bp.

(** ** Blocks *)

Definition BBLOCK (b : Z) (s : superblock) : Z := b / BPB + bmapstart s.
Definition IBLOCK (i : Z) (s : superblock) : Z := i / IPB + inodestart s.

(** The bit of a block in a block of the bitmap. *)
Definition bit_is (x : block) (bi : Z) : bool := negb (Z.land (x !!! Z.to_nat (bi / 8)) (Z.shiftl 1 (bi mod 8)) =? 0).
Definition set_bit (x : block) (bi : Z) : block :=
  <[Z.to_nat (bi / 8) := Z.lor (x !!! Z.to_nat (bi / 8)) (Z.shiftl 1 (bi mod 8))]> x.
Definition clear_bit (x : block) (bi : Z) : block :=
  <[Z.to_nat (bi / 8) := Z.land (x !!! Z.to_nat (bi / 8)) (Z.lnot (Z.shiftl 1 (bi mod 8)))]> x.

(** The first free bit from [bi] on, among the [k] that are left. *)
Fixpoint find_bit (k : nat) (bi : Z) (x : block) : option Z :=
  match k with
  | O => None
  | S k' => if bit_is x bi then find_bit k' (bi + 1) x else Some bi
  end.

Definition balloc (d : Z) : M fsst Z :=
  s <- gets sb ;;
  loop (S (Z.to_nat (sb_size s))) (fun b =>
    if b <? sb_size s then
      bp <- fbread d (BBLOCK b s) ;;
      x <- fdata bp ;;
      match find_bit (Z.to_nat (Z.min BPB (sb_size s - b))) 0 x with
      | Some bi =>
          fset_data bp (set_bit x bi) ;;;
          flog_write bp ;;;
          fbrelse bp ;;;
          bzero d (b + bi) ;;;
          ret (inr (b + bi))
      | None => fbrelse bp ;;; ret (inl (b + BPB))
      end
    else
      say "balloc: out of blocks" ;;;
      ret (inr 0)) 0.

Definition bfree (d b : Z) : M fsst unit :=
  s <- gets sb ;;
  bp <- fbread d (BBLOCK b s) ;;
  let bi := b mod BPB in
  x <- fdata bp ;;
  if negb (bit_is x bi) then panic "freeing free block"
  else
    fset_data bp (clear_bit x bi) ;;;
    flog_write bp ;;;
    fbrelse bp.

(** ** Inodes *)

Definition get_inode (ip : Z) : M fsst inode := t <- gets itable ;; from_option "inode" (aget t ip).
Definition put_inode (ip : Z) (v : inode) : M fsst unit :=
  t <- gets itable ;; t' <- from_option "inode" (aset t ip v) ;; modify (set_itable t').
Definition mod_inode (ip : Z) (f : inode -> inode) : M fsst unit := v <- get_inode ip ;; put_inode ip (f v).

Definition set_ref (r : Z) (v : inode) : inode := mkInode (idev v) (inum v) r (ilk v) (ivalid v) (idata v).
Definition set_ilk (o : option Z) (v : inode) : inode := mkInode (idev v) (inum v) (ref v) o (ivalid v) (idata v).
Definition set_idata (b : bool) (x : dinode) (v : inode) : inode := mkInode (idev v) (inum v) (ref v) (ilk v) b x.
Definition set_type (ty : Z) (x : dinode) : dinode := mkDinode ty (major x) (minor x) (nlink x) (isize x) (addrs x).
Definition set_size (n : Z) (x : dinode) : dinode := mkDinode (type x) (major x) (minor x) (nlink x) n (addrs x).
Definition set_addrs (a : list Z) (x : dinode) : dinode := mkDinode (type x) (major x) (minor x) (nlink x) (isize x) a.
Definition set_nlink (n : Z) (x : dinode) : dinode := mkDinode (type x) (major x) (minor x) n (isize x) (addrs x).

Definition iinit : M fsst unit := modify (set_itable (replicate (Z.to_nat NINODE) inode0)).

(** [struct dinode] number [k] of a block. *)
Definition rd_dinode (x : block) (k : Z) : dinode :=
  let o := 64 * k in
  mkDinode (i16 (rd16 x o)) (i16 (rd16 x (o + 2))) (i16 (rd16 x (o + 4))) (i16 (rd16 x (o + 6))) (rd32 x (o + 8))
    ((fun i => rd32 x (o + 12 + 4 * i)) <$> seqZ 0 13).

Fixpoint wr_words (x : block) (o : Z) (l : list Z) : block :=
  match l with
  | [] => x
  | w :: l' => wr_words (wr32 x o w) (o + 4) l'
  end.

Definition wr_dinode (x : block) (k : Z) (v : dinode) : block :=
  let o := 64 * k in
  wr_words (wr32 (wr16 (wr16 (wr16 (wr16 x o (type v)) (o + 2) (major v)) (o + 4) (minor v)) (o + 6) (nlink v)) (o + 8) (isize v))
    (o + 12) (addrs v).

(** The search of [iget]: the entry of an inode, or the first free entry. *)
Fixpoint iget_scan (d i : Z) (t : list inode) (ip : Z) (empty : option Z) : Z + option Z :=
  match t with
  | [] => inr empty
  | v :: t' =>
      if (ref v >? 0) && (idev v =? d) && (inum v =? i) then inl ip
      else
        let empty := match empty with
                     | None => if ref v =? 0 then Some ip else None
                     | Some e => Some e
                     end in
        iget_scan d i t' (ip + 1) empty
  end.

Definition iget (d i : Z) : M fsst Z :=
  t <- gets itable ;;
  match iget_scan d i t 0 None with
  | inl ip => mod_inode ip (fun v => set_ref (i32 (ref v + 1)) v) ;;; ret ip
  | inr None => panic "iget: no inodes"
  | inr (Some ip) => mod_inode ip (fun v => mkInode d i 1 (ilk v) false (idata v)) ;;; ret ip
  end.

Definition ialloc (d ty : Z) : M fsst (option Z) :=
  s <- gets sb ;;
  loop (S (Z.to_nat (ninodes s))) (fun i =>
    if i <? ninodes s then
      bp <- fbread d (IBLOCK i s) ;;
      x <- fdata bp ;;
      if type (rd_dinode x (i mod IPB)) =? 0 then
        fset_data bp (wr_dinode x (i mod IPB) (set_type ty dinode0)) ;;;
        flog_write bp ;;;
        fbrelse bp ;;;
        ip <- iget d i ;;
        ret (inr (Some ip))
      else fbrelse bp ;;; ret (inl (i + 1))
    else
      say "ialloc: no inodes" ;;;
      ret (inr None)) 1.

Definition iupdate (ip : Z) : M fsst unit :=
  s <- gets sb ;;
  v <- get_inode ip ;;
  bp <- fbread (idev v) (IBLOCK (inum v) s) ;;
  x <- fdata bp ;;
  fset_data bp (wr_dinode x (inum v mod IPB) (idata v)) ;;;
  flog_write bp ;;;
  fbrelse bp.

Definition idup (ip : Z) : M fsst Z := mod_inode ip (fun v => set_ref (i32 (ref v + 1)) v) ;;; ret ip.

(** The inode's sleep lock. *)
Definition iacquiresleep (ip : Z) : M fsst unit :=
  v <- get_inode ip ;;
  p <- gets (fun s => me (bc (fs_log s))) ;;
  match ilk v with
  | None => put_inode ip (set_ilk (Some p) v)
  | Some _ => diverge
  end.
Definition ireleasesleep (ip : Z) : M fsst unit := mod_inode ip (set_ilk None).

Definition ilock (ip : Z) : M fsst unit :=
  v <- get_inode ip ;;
  if ref v <? 1 then panic "ilock"
  else
    iacquiresleep ip ;;;
    v <- get_inode ip ;;
    if negb (ivalid v) then
      s <- gets sb ;;
      bp <- fbread (idev v) (IBLOCK (inum v) s) ;;
      x <- fdata bp ;;
      fbrelse bp ;;;
      let dip := rd_dinode x (inum v mod IPB) in
      mod_inode ip (set_idata true dip) ;;;
      if type dip =? 0 then panic "ilock: no type" else ret tt
    else ret tt.

Definition iunlock (ip : Z) : M fsst unit :=
  v <- get_inode ip ;;
  p <- gets (fun s => me (bc (fs_log s))) ;;
  if negb (bool_decide (ilk v = Some p)) || (ref v <? 1) then panic "iunlock"
  else ireleasesleep ip.

(** Free every block of a list that is not 0. *)
Fixpoint bfree_all (d : Z) (l : list Z) : M fsst unit :=
  match l with
  | [] => ret tt
  | a :: l' => when (negb (a =? 0)) (bfree d a) ;;; bfree_all d l'
  end.

(** The [uint] array that a block holds. *)
Definition words (x : block) : list Z := (fun j => rd32 x (4 * j)) <$> seqZ 0 NINDIRECT.

Definition itrunc (ip : Z) : M fsst unit :=
  for_range 0 NDIRECT (fun i =>
    v <- get_inode ip ;;
    a <- from_option "addrs" (aget (addrs (idata v)) i) ;;
    when (negb (a =? 0))
      (bfree (idev v) a ;;;
       mod_inode ip (fun v => set_idata (ivalid v) (set_addrs (<[Z.to_nat i := 0]> (addrs (idata v))) (idata v)) v))) ;;;
  v <- get_inode ip ;;
  a <- from_option "addrs" (aget (addrs (idata v)) NDIRECT) ;;
  when (negb (a =? 0))
    (bp <- fbread (idev v) a ;;
     x <- fdata bp ;;
     bfree_all (idev v) (words x) ;;;
     fbrelse bp ;;;
     bfree (idev v) a ;;;
     mod_inode ip (fun v => set_idata (ivalid v) (set_addrs (<[Z.to_nat NDIRECT := 0]> (addrs (idata v))) (idata v)) v)) ;;;
  mod_inode ip (fun v => set_idata (ivalid v) (set_size 0 (idata v)) v) ;;;
  iupdate ip.

Definition iput (ip : Z) : M fsst unit :=
  v <- get_inode ip ;;
  when ((ref v =? 1) && ivalid v && (nlink (idata v) =? 0))
    (iacquiresleep ip ;;;
     itrunc ip ;;;
     mod_inode ip (fun v => set_idata (ivalid v) (set_type 0 (idata v)) v) ;;;
     iupdate ip ;;;
     mod_inode ip (fun v => set_idata false (idata v) v) ;;;
     ireleasesleep ip) ;;;
  mod_inode ip (fun v => set_ref (i32 (ref v - 1)) v).

Definition iunlockput (ip : Z) : M fsst unit := iunlock ip ;;; iput ip.

(** ** Inode content *)

Definition bmap (ip bn : Z) : M fsst Z :=
  v <- get_inode ip ;;
  let set_addr i a :=
    mod_inode ip (fun v => set_idata (ivalid v) (set_addrs (<[Z.to_nat i := a]> (addrs (idata v))) (idata v)) v) in
  if bn <? NDIRECT then
    addr <- from_option "addrs" (aget (addrs (idata v)) bn) ;;
    if addr =? 0 then
      addr <- balloc (idev v) ;;
      if addr =? 0 then ret 0 else set_addr bn addr ;;; ret addr
    else ret addr
  else
    let bn := bn - NDIRECT in
    if bn <? NINDIRECT then
      addr <- from_option "addrs" (aget (addrs (idata v)) NDIRECT) ;;
      addr <- (if addr =? 0 then
                 addr <- balloc (idev v) ;;
                 when (negb (addr =? 0)) (set_addr NDIRECT addr) ;;;
                 ret addr
               else ret addr) ;;
      if addr =? 0 then ret 0
      else
        bp <- fbread (idev v) addr ;;
        x <- fdata bp ;;
        let addr := rd32 x (4 * bn) in
        if addr =? 0 then
          addr <- balloc (idev v) ;;
          when (negb (addr =? 0))
            (x <- fdata bp ;;
             fset_data bp (wr32 x (4 * bn) addr) ;;;
             flog_write bp) ;;;
          fbrelse bp ;;;
          ret addr
        else
          fbrelse bp ;;;
          ret addr
    else panic "bmap: out of range".

Definition stati (ip : Z) : M fsst stat :=
  v <- get_inode ip ;;
  ret (mkStat (i32 (idev v)) (inum v) (type (idata v)) (nlink (idata v)) (isize (idata v))).

(** [n] bytes of a block from [o] on. *)
Definition slice (x : list Z) (o n : Z) : list Z := take (Z.to_nat n) (drop (Z.to_nat o) x).
(** Replace the bytes of a block from [o] on. *)
Definition splice (x : list Z) (o : Z) (y : list Z) : list Z :=
  take (Z.to_nat o) x ++ y ++ drop (Z.to_nat o + length y) x.

(** The loop variables of [readi] and [writei]; [usr] is the memory on the
    caller's side. *)
Record io (U : Type) := mkIo { tot : Z; off : Z; adr : Z; usr : U }.
Arguments mkIo {U}. Arguments tot {U}. Arguments off {U}. Arguments adr {U}. Arguments usr {U}.

Definition readi {U} (copyout : Z -> list Z -> U -> bool * U) (u0 : U) (ip dst off0 n0 : Z) : M fsst (Z * U) :=
  v <- get_inode ip ;;
  let size := isize (idata v) in
  if (off0 >? size) || (u32 (off0 + n0) <? off0) then ret (0, u0)
  else
    let n := if u32 (off0 + n0) >? size then u32 (size - off0) else n0 in
    loop (S (Z.to_nat n)) (fun x =>
      if tot x <? n then
        addr <- bmap ip (off x / BSIZE) ;;
        if addr =? 0 then ret (inr (i32 (tot x), usr x))
        else
          bp <- fbread (idev v) addr ;;
          let m := Z.min (u32 (n - tot x)) (BSIZE - off x mod BSIZE) in
          d <- fdata bp ;;
          let '(ok, u) := copyout (adr x) (slice d (off x mod BSIZE) m) (usr x) in
          fbrelse bp ;;;
          if (ok : bool) then ret (inl (mkIo (u32 (tot x + m)) (u32 (off x + m)) (u64 (adr x + m)) u))
          else ret (inr (-1, u))
      else ret (inr (i32 (tot x), usr x)))
      (mkIo 0 off0 dst u0).

Definition writei {U} (copyin : Z -> list Z -> U -> list Z * bool * U) (u0 : U) (ip src off0 n : Z) : M fsst (Z * U) :=
  v <- get_inode ip ;;
  if (off0 >? isize (idata v)) || (u32 (off0 + n) <? off0) then ret (-1, u0)
  else if u32 (off0 + n) >? MAXFILE * BSIZE then ret (-1, u0)
  else
    x <- loop (S (Z.to_nat n)) (fun x =>
      if tot x <? n then
        addr <- bmap ip (off x / BSIZE) ;;
        if addr =? 0 then ret (inr x)
        else
          bp <- fbread (idev v) addr ;;
          let m := Z.min (u32 (n - tot x)) (BSIZE - off x mod BSIZE) in
          d <- fdata bp ;;
          let '(bytes, ok, u) := copyin (adr x) (slice d (off x mod BSIZE) m) (usr x) in
          fset_data bp (splice d (off x mod BSIZE) bytes) ;;;
          if (ok : bool) then
            flog_write bp ;;;
            fbrelse bp ;;;
            ret (inl (mkIo (u32 (tot x + m)) (u32 (off x + m)) (u64 (adr x + m)) u))
          else
            fbrelse bp ;;;
            ret (inr (mkIo (tot x) (off x) (adr x) u))
      else ret (inr x))
      (mkIo 0 off0 src u0) ;;
    v <- get_inode ip ;;
    when (off x >? isize (idata v))
      (mod_inode ip (fun v => set_idata (ivalid v) (set_size (off x) (idata v)) v)) ;;;
    iupdate ip ;;;
    ret (i32 (tot x), usr x).

(** Copies inside the kernel: to a list of bytes, and from the bytes [y] at
    address 0. *)
Definition kout (_ : Z) (bytes : list Z) (acc : list Z) : bool * list Z := (true, acc ++ bytes).
Definition kin (y : list Z) (a : Z) (old : list Z) (u : unit) : list Z * bool * unit :=
  (slice y a (Z.of_nat (length old)), true, u).

(** [readi] and [writei] of kernel memory. *)
Definition readk (ip o n : Z) : M fsst (Z * list Z) := readi kout [] ip 0 o n.
Definition writek (y : list Z) (ip o n : Z) : M fsst Z := r <- writei (kin y) tt ip 0 o n ;; ret (fst r).

(** ** Directories *)

(** Two strings in a memory, at 0 and at 1000. *)
Definition two_strings (s t : list Z) : mem :=
  fun a => if a <? 1000 then nth (Z.to_nat a) s 0 else nth (Z.to_nat (a - 1000)) t 0.

Definition namecmp (s t : list Z) : Z := strncmp 0 1000 DIRSIZ (two_strings s t).

(** [struct dirent], 16 bytes. *)
Definition de_inum (de : list Z) : Z := rd16 de 0.
Definition de_name (de : list Z) : list Z := drop 2 de.
(** [strncpy(de.name, name, DIRSIZ); de.inum = inum] *)
Definition new_dirent (name : list Z) (i : Z) : list Z :=
  let m := strncpy 1000 0 DIRSIZ (two_strings name []) in
  wr16 (replicate 2 0 ++ (m <$> seqZ 1000 DIRSIZ)) 0 i.

(** The entry found and its offset. *)
Definition dirlookup (dp : Z) (name : list Z) : M fsst (option (Z * Z)) :=
  v <- get_inode dp ;;
  if negb (type (idata v) =? T_DIR) then panic "dirlookup not DIR"
  else
    loop (S (Z.to_nat (isize (idata v)))) (fun off =>
      if off <? isize (idata v) then
        r <- readk dp off 16 ;;
        let '(k, de) := r in
        if negb (k =? 16) then panic "dirlookup read"
        else if de_inum de =? 0 then ret (inl (off + 16))
        else if namecmp name (de_name de) =? 0 then
          ip <- iget (idev v) (de_inum de) ;;
          ret (inr (Some (ip, off)))
        else ret (inl (off + 16))
      else ret (inr None)) 0.

Definition dirlink (dp : Z) (name : list Z) (i : Z) : M fsst Z :=
  r <- dirlookup dp name ;;
  match r with
  | Some (ip, _) => iput ip ;;; ret (-1)
  | None =>
      v <- get_inode dp ;;
      off <- loop (S (Z.to_nat (isize (idata v)))) (fun off =>
        if off <? isize (idata v) then
          r <- readk dp off 16 ;;
          let '(k, de) := r in
          if negb (k =? 16) then panic "dirlink read"
          else if de_inum de =? 0 then ret (inr off)
          else ret (inl (off + 16))
        else ret (inr off)) 0 ;;
      k <- writek (new_dirent name i) dp off 16 ;;
      if negb (k =? 16) then ret (-1) else ret 0
  end.

(** ** Paths *)

Definition SLASH : Z := 47.

Fixpoint skip_slashes (path : list Z) : list Z :=
  match path with
  | c :: path' => if c =? SLASH then skip_slashes path' else path
  | [] => []
  end.

(** The characters up to the next slash, and the rest. *)
Fixpoint span_elem (path : list Z) : list Z * list Z :=
  match path with
  | c :: path' =>
      if c =? SLASH then ([], path)
      else let '(e, rest) := span_elem path' in (c :: e, rest)
  | [] => ([], [])
  end.

(** The element, cut to DIRSIZ characters, and the path after it. *)
Definition skipelem (path : list Z) : option (list Z * list Z) :=
  let path := skip_slashes path in
  match path with
  | [] => None
  | _ =>
      let '(e, rest) := span_elem path in
      Some (take (Z.to_nat DIRSIZ) e, skip_slashes rest)
  end.

Definition namex (cwd : Z) (path : list Z) (nameiparent : bool) : M fsst (option (Z * list Z)) :=
  ip <- (match path with
         | c :: _ => if c =? SLASH then iget ROOTDEV ROOTINO else idup cwd
         | [] => idup cwd
         end) ;;
  loop (S (length path)) (fun '(ip, path, name) =>
    match skipelem path with
    | Some (name, path) =>
        ilock ip ;;;
        v <- get_inode ip ;;
        if negb (type (idata v) =? T_DIR) then iunlockput ip ;;; ret (inr None)
        else if nameiparent && bool_decide (path = []) then iunlock ip ;;; ret (inr (Some (ip, name)))
        else
          next <- dirlookup ip name ;;
          match next with
          | None => iunlockput ip ;;; ret (inr None)
          | Some (next, _) => iunlockput ip ;;; ret (inl (next, path, name))
          end
    | None =>
        if nameiparent then iput ip ;;; ret (inr None)
        else ret (inr (Some (ip, name)))
    end) (ip, path, []).

Definition namei (cwd : Z) (path : list Z) : M fsst (option Z) :=
  r <- namex cwd path false ;; ret (fst <$> r).
Definition nameiparent (cwd : Z) (path : list Z) : M fsst (option (Z * list Z)) := namex cwd path true.
