(* ===== verification/FsThms.v ===== *)
(** * The block allocator and the on-disk inodes

    [balloc] and [bfree] as operations on the set of free blocks, inside a
    transaction; the layout of inodes in their blocks; path elements. *)

From S2P Require Import Prelude KString Bytes Bio Log LogThms Fs.

(** ** Buffers inside a transaction *)

(** A transaction of the file system: the blocks have the contents [V], those
    in [L] are logged, and the running process holds the buffers of those in
    [H]. *)
Definition refs (L H : list Z) (x : Z) : Z := pins L x + pins H x.

Record fs_txn (s : fsst) (V : Z -> block) (L H : list Z) : Prop := {
  ft_ok : log_ok (lg (fs_log s));
  ft_L : logged (lg (fs_log s)) = L;
  ft_out : 1 <= outstanding (lg (fs_log s));
  ft_cache : cache (bc (fs_log s)) V (refs L H) (fun x => x ∈ H)
}.

(** What an operation on buffers leaves alone. *)
Definition same_log (s s' : fsst) : Prop :=
  sb s' = sb s
  /\ start (lg (fs_log s')) = start (lg (fs_log s)) /\ size (lg (fs_log s')) = size (lg (fs_log s))
  /\ dsk (bc (fs_log s')) = dsk (bc (fs_log s)) /\ me (bc (fs_log s')) = me (bc (fs_log s))
  /\ wrote (bc (fs_log s')) = wrote (bc (fs_log s))
  /\ outstanding (lg (fs_log s')) = outstanding (lg (fs_log s)) /\ committing (lg (fs_log s')) = committing (lg (fs_log s)).
Definition same_rest (s s' : fsst) : Prop :=
  itable s' = itable s /\ sb s' = sb s /\ said s' = said s
  /\ start (lg (fs_log s')) = start (lg (fs_log s)) /\ size (lg (fs_log s')) = size (lg (fs_log s))
  /\ dsk (bc (fs_log s')) = dsk (bc (fs_log s)) /\ me (bc (fs_log s')) = me (bc (fs_log s))
  /\ wrote (bc (fs_log s')) = wrote (bc (fs_log s))
  /\ outstanding (lg (fs_log s')) = outstanding (lg (fs_log s)) /\ committing (lg (fs_log s')) = committing (lg (fs_log s)).

(** The handles that stay valid. *)
Definition handles (s s' : fsst) (bn : Z) : Prop :=
  forall j x, x <> bn -> is_buf (bc (fs_log s)) j x -> is_buf (bc (fs_log s')) j x.

#[global] Instance same_rest_refl : Reflexive same_rest.
Proof. intros s. by split_and!. Qed.
#[global] Instance same_rest_trans : Transitive same_rest.
Proof. intros s1 s2 s3 (?&?&?&?&?&?&?&?&?&?) (?&?&?&?&?&?&?&?&?&?). split_and!; congruence. Qed.

#[global] Instance same_log_refl : Reflexive same_log.
Proof. intros s. by split_and!. Qed.
#[global] Instance same_log_trans : Transitive same_log.
Proof. intros s1 s2 s3 (?&?&?&?&?&?&?&?) (?&?&?&?&?&?&?&?). split_and!; congruence. Qed.
Lemma same_rest_log s s' : same_rest s s' -> same_log s s'.
Proof. intros (_&?&_&?). by split. Qed.

Lemma pins_cases L x : pins L x = 0 \/ pins L x = 1.
Proof. unfold pins. case_bool_decide; auto. Qed.

Section Txn.
  Context (s : fsst) (V : Z -> block) (L H : list Z) (T : fs_txn s V L H).

Definition fhome (s : fsst) (bn : Z) : Prop := 0 <= bn < 2 ^ 31 /\ ~ log_area (lg (fs_log s)) bn.

Lemma fbread_wp bn (Q : Z -> fsst -> Prop) :
  0 <= bn < 2 ^ 32 -> bn ∉ H -> Z.of_nat (length L) + Z.of_nat (length H) < NBUF ->
  (forall i s', fs_txn s' V L (bn :: H) -> is_buf (bc (fs_log s')) i bn -> same_rest s s' -> handles s s' bn -> Q i s') ->
  wp (fbread 1 bn) s Q.
Proof.
  intros Hbn HnH Hroom HQ. unfold fbread. rewrite u32_small by lia. unfold onl, onb. do 2 apply wp_zoom.
  destruct T as [OK HL Ho C]. pose proof (pins_cases L bn). 
  eapply (bread_wp _ _ _ _ C bn (L ++ H)); [done | unfold refs; rewrite (pins_notin H) by done; lia | |].
  { right. split; [|rewrite length_app; lia]. intros x Hx. unfold refs in Hx. apply elem_of_app.
    destruct (decide (x ∈ L)) as [|Hn]; [by left|]. right. apply pins_ne0. rewrite (pins_notin L) in Hx by done. lia. }
  intros i b C' Hi [Hme Hoth] Hd Hw. apply HQ; cbn [fs_log bc set_log].
  - constructor; cbn [fs_log lg bc set_log]; try done. eapply cache_ext; [exact C' | done | | set_solver].
    intros x. unfold refs. destruct (decide (x = bn)) as [->|Hne].
    + rewrite fset_eq, (pins_in (bn :: H)), (pins_notin H) by set_solver. lia.
    + rewrite fset_ne by done. f_equal. unfold pins. apply bool_decide_ext_Z. set_solver.
  - done.
  - by split_and!.
  - intros j x Hne Hj. by apply Hoth.
Qed.

Lemma fdata_wp i bn (Q : block -> fsst -> Prop) : is_buf (bc (fs_log s)) i bn -> Q (V bn) s -> wp (fdata i) s Q.
Proof.
  intros Hi HQ. unfold fdata, onl, onb. do 2 apply wp_zoom. eapply get_data_wp; [apply T | exact Hi |].
  destruct s as [[l b] ? ? ?]. exact HQ.
Qed.

Lemma fset_data_wp i bn d (Q : unit -> fsst -> Prop) :
  is_buf (bc (fs_log s)) i bn ->
  (forall s', fs_txn s' (fset V bn d) L H -> is_buf (bc (fs_log s')) i bn -> same_rest s s' -> handles s s' bn -> Q tt s') ->
  wp (fset_data i d) s Q.
Proof.
  intros Hi HQ. unfold fset_data, onl, onb. do 2 apply wp_zoom. destruct T as [OK HL Ho C].
  eapply set_data_wp; [exact C | exact Hi |]. intros b C' Hi' [Hme Hoth] Hd Hw.
  apply HQ; cbn [fs_log bc set_log]; [by constructor | done | by split_and! |]. intros j x Hne Hj. by apply Hoth.
Qed.

Lemma flog_write_wp i bn (Q : unit -> fsst -> Prop) :
  is_buf (bc (fs_log s)) i bn -> fhome s bn -> Z.of_nat (length L) < size (lg (fs_log s)) - 1 ->
  (forall s', fs_txn s' V (add_block L bn) H -> is_buf (bc (fs_log s')) i bn -> same_rest s s' -> handles s s' bn -> Q tt s') ->
  wp (flog_write i) s Q.
Proof.
  intros Hi [Hbn Hna] Hroom HQ. unfold flog_write, onl. apply wp_zoom. destruct T as [OK HL Ho C].
  pose proof (pins_cases L bn). pose proof (pins_cases H bn). pose proof (logged_length _ OK) as Hlen. rewrite HL in Hlen.
  destruct (fs_log s) as [l b] eqn:El. cbn [lg bc] in *.
  eapply (log_write_wp l b _ _ _ i bn _ OK C Hi); try done; [lia | unfold refs; lia |].
  rewrite HL. intros b' l' OK' Es EL C' Hi' [Hme Hoth] Hd Hw.
  apply HQ; cbn [fs_log bc lg set_log]; try done.
  - constructor; cbn [fs_log bc lg set_log]; try done; [by rewrite Es|].
    eapply cache_ext; [exact C' | done | | done]. intros x. unfold add_block, refs.
    case_bool_decide; [done|]. destruct (decide (x = bn)) as [->|Hne].
    + rewrite fset_eq, (pins_in (L ++ [bn])), (pins_notin L) by set_solver. lia.
    + rewrite fset_ne by done. f_equal. unfold pins. apply bool_decide_ext_Z. set_solver.
  - unfold same_rest. cbn [fs_log bc lg set_log itable sb said]. rewrite El, Es. by split_and!.
  - intros j x Hne. rewrite El. by apply Hoth.
Qed.

Lemma fbrelse_wp i bn (Q : unit -> fsst -> Prop) :
  is_buf (bc (fs_log s)) i bn -> bn ∈ H -> NoDup H -> (bn ∈ L \/ V bn = dsk (bc (fs_log s)) bn) ->
  (forall s', fs_txn s' V L (filter (fun x => x <> bn) H) -> same_rest s s' -> handles s s' bn -> Q tt s') ->
  wp (fbrelse i) s Q.
Proof.
  intros Hi Hin Hnd Hclean HQ. unfold fbrelse, onl, onb. do 2 apply wp_zoom. destruct T as [OK HL Ho C].
  eapply (brelse_wp _ _ _ _ C i bn); [done | done | |].
  { unfold refs. rewrite (pins_in H) by done. intros E. destruct Hclean as [Hx|]; [|done]. rewrite pins_in in E by done. lia. }
  intros b C' Hi' [Hme Hoth] Hd Hw. apply HQ; cbn [fs_log bc lg set_log].
  - constructor; cbn [fs_log bc lg set_log]; try done. eapply cache_ext; [exact C' | done | |].
    + intros x. unfold refs. destruct (decide (x = bn)) as [->|Hne].
      * rewrite fset_eq, (pins_in H), (pins_notin (filter _ _)); [lia | rewrite list_elem_of_filter; tauto | done].
      * rewrite fset_ne by done. f_equal. unfold pins. apply bool_decide_ext_Z. rewrite list_elem_of_filter. tauto.
    + intros x. rewrite list_elem_of_filter. tauto.
  - by split_and!.
  - intros j x Hne Hj. by apply Hoth.
Qed.

End Txn.

(** ** The bitmap *)

Lemma land_one_bit a k : 0 <= k -> (Z.land a (Z.shiftl 1 k) =? 0) = negb (Z.testbit a k).
Proof.
  intros Hk. rewrite Z.shiftl_1_l. destruct (Z.testbit a k) eqn:E; cbn [negb].
  - apply Z.eqb_neq. intros H0. assert (Z.testbit (Z.land a (2 ^ k)) k = false) as H1 by (rewrite H0; apply Z.bits_0).
    rewrite Z.land_spec, E, Z.pow2_bits_true in H1 by done. done.
  - apply Z.eqb_eq. apply Z.bits_inj'. intros n Hn. rewrite Z.land_spec, Z.bits_0, Z.pow2_bits_eqb by done.
    destruct (Z.eqb_spec k n) as [<-|]; [by rewrite E | apply andb_false_r].
Qed.

Lemma bit_is_testbit x bi : 0 <= bi -> bit_is x bi = Z.testbit (x !!! Z.to_nat (bi / 8)) (bi mod 8).
Proof. intros H. unfold bit_is. rewrite land_one_bit by (apply Z.mod_pos_bound; lia). apply negb_involutive. Qed.

(** Two bits are the same one when they agree in byte and position. *)
Lemma bit_split i j : 0 <= i -> 0 <= j -> (Z.to_nat (i / 8) = Z.to_nat (j / 8) /\ i mod 8 = j mod 8) <-> i = j.
Proof.
  intros Hi Hj. split; [|by intros ->]. intros [E1 E2]. apply Z2Nat.inj in E1; [|apply Z.div_pos; lia..].
  rewrite (Z.div_mod i 8), (Z.div_mod j 8) by lia. congruence.
Qed.

Lemma bit_is_set x i j : 0 <= i < 8 * Z.of_nat (length x) -> 0 <= j -> bit_is (set_bit x i) j = (j =? i) || bit_is x j.
Proof.
  intros Hi Hj. rewrite !bit_is_testbit by lia. unfold set_bit.
  assert (Z.to_nat (i / 8) < length x)%nat as Hlt by (pose proof (Z.div_lt_upper_bound i 8 (Z.of_nat (length x))); pose proof (Z.div_pos i 8); lia).
  pose proof (Z.mod_pos_bound i 8 ltac:(lia)). pose proof (Z.mod_pos_bound j 8 ltac:(lia)).
  destruct (decide (Z.to_nat (i / 8) = Z.to_nat (j / 8))) as [E|E].
  - rewrite <- E. rewrite list_lookup_total_insert_eq by done. rewrite Z.lor_spec, Z.shiftl_1_l, Z.pow2_bits_eqb by lia.
    rewrite orb_comm. f_equal. destruct (Z.eqb_spec j i) as [->|Hne]; [apply Z.eqb_refl|].
    apply Z.eqb_neq. intros E2. apply Hne. symmetry. apply bit_split; [lia | lia | done].
  - rewrite list_lookup_total_insert_ne by done. destruct (Z.eqb_spec j i) as [->|]; done.
Qed.

Lemma bit_is_clear x i j : 0 <= i < 8 * Z.of_nat (length x) -> 0 <= j -> bit_is (clear_bit x i) j = negb (j =? i) && bit_is x j.
Proof.
  intros Hi Hj. rewrite !bit_is_testbit by lia. unfold clear_bit.
  assert (Z.to_nat (i / 8) < length x)%nat as Hlt by (pose proof (Z.div_lt_upper_bound i 8 (Z.of_nat (length x))); pose proof (Z.div_pos i 8); lia).
  pose proof (Z.mod_pos_bound i 8 ltac:(lia)). pose proof (Z.mod_pos_bound j 8 ltac:(lia)).
  destruct (decide (Z.to_nat (i / 8) = Z.to_nat (j / 8))) as [E|E].
  - rewrite <- E, list_lookup_total_insert_eq by done. rewrite Z.land_spec, Z.lnot_spec, Z.shiftl_1_l, Z.pow2_bits_eqb by lia.
    rewrite andb_comm. f_equal. f_equal. destruct (Z.eqb_spec j i) as [->|Hne]; [apply Z.eqb_refl|].
    apply Z.eqb_neq. intros E2. apply Hne. symmetry. apply bit_split; [lia | lia | done].
  - rewrite list_lookup_total_insert_ne by done. destruct (Z.eqb_spec j i) as [->|]; done.
Qed.

Lemma find_bit_spec k bi x :
  match find_bit k bi x with
  | Some r => bi <= r < bi + Z.of_nat k /\ bit_is x r = false /\ (forall j, bi <= j < r -> bit_is x j = true)
  | None => forall j, bi <= j < bi + Z.of_nat k -> bit_is x j = true
  end.
Proof.
  revert bi. induction k as [|k IH]; intros bi; cbn [find_bit]; [intros; lia|].
  destruct (bit_is x bi) eqn:E; [|split_and!; try lia; done].
  specialize (IH (bi + 1)). destruct (find_bit k (bi + 1) x) as [r|].
  - destruct IH as (H1 & H2 & H3). split_and!; try lia; try done. intros j Hj.
    destruct (decide (j = bi)) as [->|]; [done | apply H3; lia].
  - intros j Hj. destruct (decide (j = bi)) as [->|]; [done | apply IH; lia].
Qed.

(** ** Allocation *)

(** The bitmap says that block [b] is in use. *)
Definition used (V : Z -> block) (q : superblock) (b : Z) : bool := bit_is (V (BBLOCK b q)) (b mod BPB).

(** The blocks of the bitmap, one per BPB blocks, are outside the log; they and
    the blocks of the log are marked as used. *)
Record layout (s : fsst) (V : Z -> block) : Prop := {
  la_size : 0 <= sb_size (sb s) < 2 ^ 31;
  la_bmap : forall b, 0 <= b < sb_size (sb s) -> fhome s (BBLOCK b (sb s)) /\ length (V (BBLOCK b (sb s))) = Z.to_nat BSIZE;
  la_log : forall b, 0 <= b < sb_size (sb s) -> log_area (lg (fs_log s)) b -> used V (sb s) b = true;
  la_used : forall b, 0 <= b < sb_size (sb s) -> BBLOCK b (sb s) < sb_size (sb s) -> used V (sb s) (BBLOCK b (sb s)) = true
}.

Definition zeros : block := replicate (Z.to_nat BSIZE) 0.

(** The contents and the logged blocks after block [b] has been allocated. *)
Definition take_block (V : Z -> block) (q : superblock) (b : Z) : Z -> block :=
  fset (fset V (BBLOCK b q) (set_bit (V (BBLOCK b q)) (b mod BPB))) b zeros.
Definition log_block (L : list Z) (q : superblock) (b : Z) : list Z := add_block (add_block L (BBLOCK b q)) b.

Lemma filter_head (bn : Z) H : bn ∉ H -> filter (fun x => x <> bn) (bn :: H) = H.
Proof.
  intros Hn. rewrite filter_cons_False by tauto. induction H as [|y H IH]; [done|].
  rewrite filter_cons_True by set_solver. f_equal. apply IH. set_solver.
Qed.

Lemma add_block_in L bn : bn ∈ add_block L bn.
Proof. unfold add_block. case_bool_decide; set_solver. Qed.

Lemma fhome_same s s' bn : same_rest s s' -> fhome s bn -> fhome s' bn.
Proof. intros (_ & _ & _ & E1 & E2 & _) [H1 H2]. split; [done|]. unfold log_area. by rewrite E1, E2. Qed.

Lemma wp_seq3 {S A B C D} (a : M S A) (b : M S B) (c : M S C) (k : C -> M S D) s Q :
  wp (a ;;; b ;;; c) s (fun r s' => wp (k r) s' Q) -> wp (a ;;; b ;;; r <- c ;; k r) s Q.
Proof.
  intros (r & s' & E & v & s2 & E2 & HQ). exists v, s2. split; [|exact HQ]. revert E. unfold bind.
  destruct (a s) as [[? s0]| | |]; [|done..]. destruct (b s0) as [[? s1]| | |]; [|done..].
  destruct (c s1) as [[? s3]| | |]; [|done..]. by intros [= -> ->].
Qed.

(** Change the block of a buffer that is held, log it and release it. *)
Lemma store_wp s V L H i bn d (Q : unit -> fsst -> Prop) :
  fs_txn s V L (bn :: H) -> is_buf (bc (fs_log s)) i bn -> bn ∉ H -> NoDup H -> fhome s bn ->
  Z.of_nat (length L) < size (lg (fs_log s)) - 1 ->
  (forall s', fs_txn s' (fset V bn d) (add_block L bn) H -> same_rest s s' -> handles s s' bn -> Q tt s') ->
  wp (fset_data i d ;;; flog_write i ;;; fbrelse i) s Q.
Proof.
  intros T Hi Hn Hnd Hh Hroom HQ. wp_step. eapply (fset_data_wp _ _ _ _ T); [done|]. intros s1 T1 Hi1 Hs1 Ho1.
  wp_step. eapply (flog_write_wp _ _ _ _ T1); [done | by eapply fhome_same | destruct Hs1 as (_&_&_&_&->&_); done |].
  intros s2 T2 Hi2 Hs2 Ho2. eapply (fbrelse_wp _ _ _ _ T2 i bn); [done | set_solver | by constructor | left; apply add_block_in |].
  rewrite filter_head by done. intros s3 T3 Hs3 Ho3. apply HQ; [done | by do 2 (etransitivity; [eassumption|]) |].
  intros j x Hne Hj. auto.
Qed.

Lemma bzero_wp s V L H b (Q : unit -> fsst -> Prop) :
  fs_txn s V L H -> b ∉ H -> NoDup H -> fhome s b -> Z.of_nat (length L) < size (lg (fs_log s)) - 1 ->
  Z.of_nat (length L) + Z.of_nat (length H) < NBUF ->
  (forall s', fs_txn s' (fset V b zeros) (add_block L b) H -> same_rest s s' -> handles s s' b -> Q tt s') ->
  wp (bzero 1 b) s Q.
Proof.
  intros T Hn Hnd Hh Hroom Hbuf HQ. unfold bzero. wp_step. pose proof (proj1 Hh).
  eapply (fbread_wp _ _ _ _ T); [lia | done | done |]. intros i s1 T1 Hi1 Hs1 Ho1. fold zeros.
  eapply (store_wp _ _ _ _ _ _ _ _ T1); [done | done | done | by eapply fhome_same | destruct Hs1 as (_&_&_&_&->&_); done |].
  intros s2 T2 Hs2 Ho2. apply HQ; [done | by etransitivity |]. intros j x Hne Hj. auto.
Qed.

(** The bit of block [b + bi] in the bitmap block of the [BPB] blocks from [b]. *)
Lemma bblock_at q b bi : b mod BPB = 0 -> 0 <= bi < BPB -> BBLOCK (b + bi) q = BBLOCK b q /\ (b + bi) mod BPB = bi.
Proof.
  intros Hb Hbi. unfold BBLOCK. assert (BPB = 8192) as E by reflexivity. rewrite E in *.
  split; [f_equal|]; Z.to_euclidean_division_equations; lia.
Qed.

(** The hypotheses of an allocation: the block of the bitmap and the new block
    are not held, and there is room for two more blocks in the log. *)
Record can_alloc (s : fsst) (V : Z -> block) (L H : list Z) : Prop := {
  cl_layout : layout s V;
  cl_dup : NoDup H;
  cl_bmap : forall b, 0 <= b < sb_size (sb s) -> BBLOCK b (sb s) ∉ H;
  cl_held : forall b, 0 <= b < sb_size (sb s) -> b ∈ H -> used V (sb s) b = true;
  cl_room : Z.of_nat (length L) + 1 < size (lg (fs_log s)) - 1;
  cl_buf : Z.of_nat (length L) + Z.of_nat (length H) + 1 < NBUF
}.

Lemma balloc_wp s V L H (Q : Z -> fsst -> Prop) :
  fs_txn s V L H -> can_alloc s V L H ->
  (forall b s', 0 <= b < sb_size (sb s) -> used V (sb s) b = false ->
     (forall j, 0 <= j < b -> used V (sb s) j = true) ->
     fs_txn s' (take_block V (sb s) b) (log_block L (sb s) b) H -> same_rest s s' ->
     (forall i x, x ∈ H -> is_buf (bc (fs_log s)) i x -> is_buf (bc (fs_log s')) i x) -> Q b s') ->
  (forall s', (forall j, 0 <= j < sb_size (sb s) -> used V (sb s) j = true) ->
     fs_txn s' V L H -> itable s' = itable s -> same_log s s' -> said s' = said s ++ ["balloc: out of blocks"] ->
     (forall i x, x ∈ H -> is_buf (bc (fs_log s)) i x -> is_buf (bc (fs_log s')) i x) -> Q 0 s') ->
  wp (balloc 1) s Q.
Proof.
  intros T [[Hsz Hbm Hlg _] Hnd Hbh Hhu Hroom Hbuf] HQ1 HQ0. unfold balloc. wp_step. wp_step.
  set (q := sb s) in *.
  eapply (wp_loop (fun b s' => 0 <= b /\ b mod BPB = 0 /\ (forall j, 0 <= j < b -> j < sb_size q -> used V q j = true)
     /\ fs_txn s' V L H /\ same_rest s s'
     /\ (forall i x, x ∈ H -> is_buf (bc (fs_log s)) i x -> is_buf (bc (fs_log s')) i x))
    (fun b => Z.to_nat (sb_size q - b))).
  2:{ split_and!; try done. intros; lia. }
  2:{ lia. }
  intros b s1 (Hb & Hmod & Hlow & T1 & Hs1 & Hh1). case_if.
  - assert (BPB = 8192) as EB by reflexivity.
    destruct (Hbm b ltac:(lia)) as [Hbh1 Hblen]. pose proof (proj1 Hbh1).
    assert (BBLOCK b q ∉ H) as HnH by (apply Hbh; lia).
    wp_step. eapply (fbread_wp _ _ _ _ T1); [lia | done | lia |]. intros i s2 T2 Hi2 Hs2 Ho2.
    wp_step. eapply (fdata_wp _ _ _ _ T2); [done|].
    assert (forall j, 0 <= j < Z.min BPB (sb_size q - b) -> used V q (b + j) = bit_is (V (BBLOCK b q)) j) as Hub.
    { intros j Hj. destruct (bblock_at q b j Hmod ltac:(lia)) as [E1 E2]. unfold used. by rewrite E1, E2. }
    pose proof (find_bit_spec (Z.to_nat (Z.min BPB (sb_size q - b))) 0 (V (BBLOCK b q))) as Hf.
    destruct (find_bit _ 0 _) as [bi|].
    + destruct Hf as (Hbi & Hfree & Hlowbi). rewrite Z2Nat.id in Hbi by lia.
      destruct (bblock_at q b bi Hmod ltac:(lia)) as [E1 E2].
      assert (used V q (b + bi) = false) as Hu by (rewrite Hub by lia; done).
      assert (fhome s (b + bi)) as Hfh.
      { split; [lia|]. intros Ha. apply Hlg in Ha; [congruence | lia]. }
      assert (b + bi ∉ H) as HbH by (intros Hx; apply Hhu in Hx; [congruence | lia]).
      assert (same_rest s s2) as Hs02 by (by etransitivity).
      assert (size (lg (fs_log s2)) = size (lg (fs_log s))) as Hsz2 by (by destruct Hs02 as (_&_&_&_&->&_)).
      pose proof (add_block_length L (BBLOCK b q)).
      apply wp_seq3. eapply (store_wp _ _ _ _ i (BBLOCK b q) _ _ T2); [done | done | done | by eapply fhome_same | lia |].
      intros s3 T3 Hs3 Ho3. assert (same_rest s s3) as Hs03 by (by etransitivity).
      wp_step. eapply (bzero_wp _ _ _ _ _ _ T3); [done | done | by eapply fhome_same | | lia |].
      { destruct Hs03 as (_&_&_&_&->&_). lia. }
      intros s4 T4 Hs4 Ho4. wp_step. apply HQ1; try done; try lia.
      * intros j Hj. destruct (Z.lt_ge_cases j b); [apply Hlow; lia|]. replace j with (b + (j - b)) by lia. rewrite Hub by lia. apply Hlowbi. lia.
      * unfold take_block, log_block. by rewrite E1, E2.
      * by etransitivity.
      * intros k x Hx Hk. apply Ho4; [congruence|]. apply Ho3; [congruence|]. apply Ho2; [congruence|]. by apply Hh1.
    + wp_step. eapply (fbrelse_wp _ _ _ _ T2 i (BBLOCK b q)); [done | set_solver | by constructor | |].
      { destruct (decide (BBLOCK b q ∈ L)); [by left|]. right.
        destruct Hs2 as (_&_&_&_&_&->&_). apply (ca_R _ _ _ _ (ft_cache _ _ _ _ T1)).
        unfold refs. by rewrite !pins_notin. }
      rewrite filter_head by done. intros s3 T3 Hs3 Ho3. wp_step. split; [|lia].
      split_and!; try lia; try done.
      * rewrite EB in *. Z.to_euclidean_division_equations; lia.
      * intros j Hj Hj2. destruct (Z.lt_ge_cases j b); [apply Hlow; lia|]. replace j with (b + (j - b)) by lia. rewrite Hub by lia. apply Hf. lia.
      * by do 2 (etransitivity; [eassumption|]).
      * intros k x Hx Hk. apply Ho3; [congruence|]. apply Ho2; [congruence|]. by apply Hh1.
  - wp_step. unfold say. wp_step. wp_step. destruct (same_rest_log _ _ Hs1) as (L1&L2&L3&L4&L5&L6&L7&L8). destruct Hs1 as (E1&E2&E3&_). apply HQ0; try done.
    + intros j Hj. apply Hlow; lia.
    + destruct T1. by constructor.
    + cbn [said]. by rewrite E3.
Qed.

(** Which blocks are used after block [b] has been taken. *)
Lemma used_take s V b j : layout s V -> 0 <= b < sb_size (sb s) -> used V (sb s) b = false -> 0 <= j < sb_size (sb s) ->
  used (take_block V (sb s) b) (sb s) j = (j =? b) || used V (sb s) j.
Proof.
  intros [Hsz Hbm _ Hus] Hb Hfree Hj. assert (BPB = 8192) as EB by reflexivity.
  unfold used at 1, take_block. rewrite (fset_ne _ b).
  2:{ intros E. pose proof (Hus j Hj) as Hu. rewrite E in Hu. rewrite Hu in Hfree; [done | lia]. }
  destruct (decide (BBLOCK j (sb s) = BBLOCK b (sb s))) as [E|E].
  - rewrite E, fset_eq. destruct (Hbm b Hb) as [_ Hlen]. rewrite bit_is_set.
    + unfold used. rewrite E. f_equal. unfold BBLOCK in E. rewrite EB in *.
      destruct (Z.eqb_spec j b) as [->|Hne]; [apply Z.eqb_refl|]. apply Z.eqb_neq. Z.to_euclidean_division_equations; lia.
    + rewrite Hlen, EB. unfold BSIZE. pose proof (Z.mod_pos_bound b 8192). lia.
    + apply Z.mod_pos_bound. rewrite EB. lia.
  - rewrite fset_ne by done. unfold used. destruct (Z.eqb_spec j b) as [->|]; done.
Qed.

(** Inside a transaction with room for two more blocks [balloc] returns:
    the first block that the bitmap shows as free, which it marks as used (and
    no other) and fills with zeros, changing no other block; or 0 when every
    block is in use, with nothing changed but a line printed. *)
Theorem balloc_correct (s : fsst) (V : Z -> block) (L H : list Z) (T : fs_txn s V L H) (A : can_alloc s V L H) :
  exists b s' V' L', balloc 1 s = Ret (b, s') /\ fs_txn s' V' L' H /\ itable s' = itable s /\ sb s' = sb s
    /\ ((0 <= b < sb_size (sb s) /\ used V (sb s) b = false
         /\ (forall j, 0 <= j < b -> used V (sb s) j = true)
         /\ V' b = zeros /\ (forall j, 0 <= j < sb_size (sb s) -> used V' (sb s) j = (j =? b) || used V (sb s) j)
         /\ (forall x, x <> b -> x <> BBLOCK b (sb s) -> V' x = V x)
         /\ L' = add_block (add_block L (BBLOCK b (sb s))) b /\ said s' = said s)
        \/ (b = 0 /\ (forall j, 0 <= j < sb_size (sb s) -> used V (sb s) j = true)
            /\ V' = V /\ L' = L /\ said s' = said s ++ ["balloc: out of blocks"])).
Proof.
  cut (wp (balloc 1) s (fun b s' => exists V' L', fs_txn s' V' L' H /\ itable s' = itable s /\ sb s' = sb s
    /\ ((0 <= b < sb_size (sb s) /\ used V (sb s) b = false
         /\ (forall j, 0 <= j < b -> used V (sb s) j = true)
         /\ V' b = zeros /\ (forall j, 0 <= j < sb_size (sb s) -> used V' (sb s) j = (j =? b) || used V (sb s) j)
         /\ (forall x, x <> b -> x <> BBLOCK b (sb s) -> V' x = V x)
         /\ L' = add_block (add_block L (BBLOCK b (sb s))) b /\ said s' = said s)
        \/ (b = 0 /\ (forall j, 0 <= j < sb_size (sb s) -> used V (sb s) j = true)
            /\ V' = V /\ L' = L /\ said s' = said s ++ ["balloc: out of blocks"])))).
  { intros (b & s' & E & V' & L' & HR). exists b, s', V', L'. done. }
  eapply balloc_wp; [done | done | |].
  - intros b s' Hb Hu Hlow T' (E1 & E2 & E3 & _) _. exists (take_block V (sb s) b), (log_block L (sb s) b).
    split_and!; try done. left. split_and!; try done; try lia.
    + unfold take_block. by rewrite fset_eq.
    + intros j Hj. by apply used_take; [apply A|..].
    + intros x H1 H2. unfold take_block. by rewrite !fset_ne.
  - intros s' Hall T' E1 (E2 & _) E3 _. exists V, L. split_and!; try done. right. by split_and!.
Qed.

(** [bfree] of a block that is in use marks it as free, and no other block;
    [bfree] of a block that is free panics. *)
Theorem bfree_correct (s : fsst) (V : Z -> block) (L H : list Z) (b : Z) (T : fs_txn s V L H) (La : layout s V)
  (Hb : 0 <= b < sb_size (sb s)) (Hn : BBLOCK b (sb s) ∉ H) (Hd : NoDup H)
  (Hroom : Z.of_nat (length L) < size (lg (fs_log s)) - 1) (Hbuf : Z.of_nat (length L) + Z.of_nat (length H) < NBUF) :
  if used V (sb s) b then
    exists s' V', bfree 1 b s = Ret (tt, s') /\ fs_txn s' V' (add_block L (BBLOCK b (sb s))) H
      /\ (forall j, 0 <= j < sb_size (sb s) -> used V' (sb s) j = negb (j =? b) && used V (sb s) j)
      /\ (forall x, x <> BBLOCK b (sb s) -> V' x = V x)
  else bfree 1 b s = Panic "freeing free block".
Proof.
  assert (BPB = 8192) as EB by reflexivity. destruct (la_bmap _ _ La b Hb) as [Hh Hlen]. pose proof (proj1 Hh).
  cut (if used V (sb s) b then wp (bfree 1 b) s (fun _ s' => exists V', fs_txn s' V' (add_block L (BBLOCK b (sb s))) H
      /\ (forall j, 0 <= j < sb_size (sb s) -> used V' (sb s) j = negb (j =? b) && used V (sb s) j)
      /\ (forall x, x <> BBLOCK b (sb s) -> V' x = V x)) else bfree 1 b s = Panic "freeing free block").
  { case_if; [|done]. intros ([] & s' & E2 & V' & HR). by exists s', V'. }
  assert (exists i s1, fbread 1 (BBLOCK b (sb s)) s = Ret (i, s1) /\ fs_txn s1 V L (BBLOCK b (sb s) :: H)
    /\ is_buf (bc (fs_log s1)) i (BBLOCK b (sb s)) /\ same_rest s s1) as (i & s1 & E1 & T1 & Hi & Hs1).
  { eapply (fbread_wp _ _ _ _ T); [lia | done | done |]. by eauto 10. }
  assert (fdata i s1 = Ret (V (BBLOCK b (sb s)), s1)) as E2.
  { destruct (fdata_wp _ _ _ _ T1 i _ (fun d s' => d = V (BBLOCK b (sb s)) /\ s' = s1) Hi) as (? & ? & ? & -> & ->); done. }
  unfold used at 1. destruct (bit_is (V (BBLOCK b (sb s))) (b mod BPB)) eqn:Eb.
  - unfold bfree. wp_step. wp_step. wp_step. exists i, s1. split; [exact E1|]. wp_step. exists (V (BBLOCK b (sb s))), s1.
    split; [exact E2|]. rewrite Eb. cbn [negb].
    eapply (store_wp _ _ _ _ i (BBLOCK b (sb s)) _ _ T1); [done | done | done | by eapply fhome_same | destruct Hs1 as (_&_&_&_&->&_); done |].
    intros s2 T2 Hs2 _. eexists. split; [exact T2|]. split.
    + intros j Hj. unfold used at 1. destruct (decide (BBLOCK j (sb s) = BBLOCK b (sb s))) as [E|E].
      * rewrite E, fset_eq, bit_is_clear.
        -- unfold used. rewrite E. f_equal. unfold BBLOCK in E. rewrite EB in *. f_equal.
           destruct (Z.eqb_spec j b) as [->|Hne]; [apply Z.eqb_refl|]. apply Z.eqb_neq. Z.to_euclidean_division_equations; lia.
        -- rewrite Hlen, EB. unfold BSIZE. pose proof (Z.mod_pos_bound b 8192). lia.
        -- apply Z.mod_pos_bound. rewrite EB. lia.
      * rewrite fset_ne by done. unfold used. destruct (Z.eqb_spec j b) as [->|]; done.
    + intros x Hx. by rewrite fset_ne.
  - unfold bfree, bind, gets. rewrite E1, E2. cbn zeta. by rewrite Eb.
Qed.

(** ** A small disk *)

(** A hundred blocks: the log from block 2 on, the bitmap in block 45, the
    blocks before 47 in use. *)
Definition small_sb : superblock := mkSb FSMAGIC 100 53 200 30 2 32 45.
Definition small_bitmap : block := replicate 5 255 ++ [127] ++ replicate 1018 0.
Definition small_disk (bn : Z) : block := if bn =? 45 then small_bitmap else zeros.

Lemma idle_fs_txn ls n st t q m : idle ls n st ->
  fs_txn (mkFsst (mkLst (set_out 1 false (lg st)) (bc st)) t q m) (dsk (bc st)) [] [].
Proof.
  intros I. constructor; cbn [fs_log lg bc].
  - destruct (id_ok _ _ _ I). constructor; done.
  - unfold logged. cbn [set_out lh_n lh_block]. by rewrite (id_n _ _ _ I).
  - done.
  - eapply cache_ext; [apply I | done | done |]. intros x. rewrite elem_of_nil. done.
Qed.

Lemma small_txn : exists s V, fs_txn s V [] [] /\ can_alloc s V [] [] /\ sb s = small_sb
  /\ (forall b, 0 <= b < 100 -> used V small_sb b = (b <? 47)).
Proof.
  destruct (clean_boot small_disk 1 eq_refl ltac:(done)) as (st & _ & I & Hh).
  exists (mkFsst (mkLst (set_out 1 false (lg st)) (bc st)) [] small_sb []), (dsk (bc st)).
  assert (forall b, 0 <= b < 100 -> BBLOCK b small_sb = 45) as Hbb.
  { intros b Hb. unfold BBLOCK. rewrite Z.div_small; [done|]. unfold BPB, BSIZE. lia. }
  assert (dsk (bc st) 45 = small_bitmap) as Hd by (apply Hh; unfold home; lia).
  assert (forall b, 0 <= b < 100 -> used (dsk (bc st)) small_sb b = (b <? 47)) as Hu.
  { intros b Hb. unfold used. rewrite Hbb, Hd, Z.mod_small by (lia || (unfold BPB, BSIZE; lia)).
    assert (forallb (fun b => eqb (bit_is small_bitmap b) (b <? 47)) (seqZ 0 100) = true) as Hall by (vm_compute; reflexivity).
    rewrite forallb_forall in Hall. apply eqb_true_iff, Hall, list_elem_of_In, elem_of_seqZ. lia. }
  split; [by eapply idle_fs_txn|]. split; [|done].
  constructor; cbn [sb fs_log lg bc]; try done.
  - constructor; cbn [sb fs_log lg bc small_sb sb_size].
    + lia.
    + intros b Hb. fold small_sb. rewrite Hbb, Hd by done. split; [|vm_compute; reflexivity]. split; [lia|].
      unfold log_area. cbn [fs_log lg set_out start size]. rewrite (id_start _ _ _ I), (id_size _ _ _ I). lia.
    + intros b Hb Ha. fold small_sb. rewrite Hu by done. unfold log_area in Ha. cbn [set_out start size] in Ha.
      rewrite (id_start _ _ _ I), (id_size _ _ _ I) in Ha. apply Z.ltb_lt. lia.
    + intros b Hb _. fold small_sb. rewrite Hbb, Hu by lia. done.
  - constructor.
  - intros b _. apply not_elem_of_nil.
  - intros b _ Hb. by apply not_elem_of_nil in Hb.
  - cbn [set_out size length]. rewrite (id_size _ _ _ I). lia.
Qed.

Lemma balloc_correct_witness : exists s s', balloc 1 s = Ret (47, s') /\ sb s = small_sb.
Proof.
  destruct small_txn as (s & V & T & A & Es & Hu).
  destruct (balloc_correct s V [] [] T A) as (b & s' & V' & L' & E & _ & _ & _ & Hres). rewrite Es in Hres.
  exists s, s'. split; [|exact Es]. rewrite E. f_equal. f_equal.
  destruct Hres as [(Hb & Hf & Hlow & _)|(-> & Hall & _)].
  - change (sb_size small_sb) with 100 in Hb. destruct (Z.lt_trichotomy b 47) as [Hl|[->|Hl]]; [|reflexivity|].
    + rewrite Hu in Hf by lia. apply Z.ltb_ge in Hf. lia.
    + specialize (Hlow 47 ltac:(lia)). rewrite Hu in Hlow by lia. discriminate Hlow.
  - specialize (Hall 50 ltac:(split; [lia | reflexivity])). rewrite Hu in Hall by lia. discriminate Hall.
Defined.

Lemma bfree_correct_witness : exists s s', bfree 1 46 s = Ret (tt, s') /\ bfree 1 60 s = Panic "freeing free block".
Proof.
  destruct small_txn as (s & V & T & A & Es & Hu).
  assert (forall b, 0 <= b < 100 -> 0 <= b < sb_size (sb s)) as Hr by (intros b Hb; rewrite Es; exact Hb).
  pose proof (cl_room _ _ _ _ A) as Hroom. cbn [length] in Hroom.
  pose proof (bfree_correct s V [] [] 46 T (cl_layout _ _ _ _ A) (Hr 46 ltac:(lia)) ltac:(apply not_elem_of_nil) ltac:(constructor)
    ltac:(cbn; lia) ltac:(reflexivity)) as H1.
  pose proof (bfree_correct s V [] [] 60 T (cl_layout _ _ _ _ A) (Hr 60 ltac:(lia)) ltac:(apply not_elem_of_nil) ltac:(constructor)
    ltac:(cbn; lia) ltac:(reflexivity)) as H2.
  rewrite Es, Hu in H1 by lia. rewrite Es, Hu in H2 by lia. cbn in H1, H2.
  destruct H1 as (s' & _ & E & _). exists s, s'. split; [exact E | exact H2].
Defined.

(** ** Inodes on the disk *)

(** The values that fit the fields of [struct dinode]. *)
Record dinode_ok (v : dinode) : Prop := {
  dk_type : - 2 ^ 15 <= type v < 2 ^ 15;
  dk_major : - 2 ^ 15 <= major v < 2 ^ 15;
  dk_minor : - 2 ^ 15 <= minor v < 2 ^ 15;
  dk_nlink : - 2 ^ 15 <= nlink v < 2 ^ 15;
  dk_size : 0 <= isize v < 2 ^ 32;
  dk_len : length (addrs v) = 13%nat;
  dk_addrs : Forall (fun a => 0 <= a < 2 ^ 32) (addrs v)
}.

(** What is read from a block of bytes fits. *)
Lemma rd_dinode_ok x k : bytes_ok x -> dinode_ok (rd_dinode x k).
Proof.
  intros Hx. assert (forall o, - 2 ^ 15 <= i16 (rd16 x o) < 2 ^ 15) as H16.
  { intros o. unfold i16. pose proof (Z.mod_pos_bound (rd16 x o + 2 ^ 15) (2 ^ 16) ltac:(lia)). lia. }
  constructor; cbn [rd_dinode type major minor nlink isize addrs]; try apply H16.
  - exact (rd_range 4 x _ Hx).
  - by rewrite length_fmap, length_seqZ.
  - apply Forall_fmap, Forall_forall. intros i _. exact (rd_range 4 x _ Hx).
Qed.

Lemma i16_u16 z : - 2 ^ 15 <= z < 2 ^ 15 -> i16 (u16 z) = z.
Proof. intros H. unfold i16, u16. rewrite Zplus_mod_idemp_l, Z.mod_small; lia. Qed.

Lemma wr_words_length x o l : length (wr_words x o l) = length x.
Proof. revert x o. induction l as [|w l IH]; intros x o; [done|]. cbn [wr_words]. rewrite IH. apply wr_length. Qed.

Lemma wr_words_other n x o l p : 0 <= p -> 0 <= o -> (p + Z.of_nat n <= o \/ o + 4 * Z.of_nat (length l) <= p) ->
  rd n (wr_words x o l) p = rd n x p.
Proof.
  revert x o. induction l as [|w l IH]; intros x o Hp Ho Hd; [done|]. cbn [wr_words length] in *.
  rewrite IH by lia. apply rd_wr_ne; lia.
Qed.

Lemma wr_words_at x o l i w : 0 <= o -> o + 4 * Z.of_nat (length l) <= Z.of_nat (length x) -> l !! i = Some w ->
  rd32 (wr_words x o l) (o + 4 * Z.of_nat i) = u32 w.
Proof.
  revert x o i. induction l as [|y l IH]; intros x o i Ho Hl Hi; [done|]. cbn [wr_words length] in *. destruct i as [|i]; simpl in Hi.
  - injection Hi as ->. rewrite Z.mul_0_r, Z.add_0_r. unfold rd32. rewrite wr_words_other by lia. apply rd32_wr32; lia.
  - replace (o + 4 * Z.of_nat (S i)) with (o + 4 + 4 * Z.of_nat i) by lia.
    apply IH; [lia | unfold wr32; rewrite wr_length; lia | done].
Qed.

(** Two reads that agree on the sixty-four bytes see the same inode. *)
Lemma rd_dinode_agree x y k : (forall n p, 64 * k <= p -> p + Z.of_nat n <= 64 * k + 64 -> rd n x p = rd n y p) -> rd_dinode x k = rd_dinode y k.
Proof.
  intros H. unfold rd_dinode, rd16, rd32. rewrite !(H 2%nat), (H 4%nat) by lia. f_equal.
  apply list_fmap_ext. intros i z Hz. apply lookup_seqZ in Hz. apply H; lia.
Qed.

(** An inode that [iupdate] stores in its block is what [ilock] reads back,
    and the other fifteen inodes of the block read as before. *)
Theorem dinode_roundtrip (x : block) (k : Z) (v : dinode)
  (Hx : length x = Z.to_nat BSIZE) (Hk : 0 <= k < IPB) (Hv : dinode_ok v) :
  rd_dinode (wr_dinode x k v) k = v
  /\ (forall j, 0 <= j < IPB -> j <> k -> rd_dinode (wr_dinode x k v) j = rd_dinode x j)
  /\ length (wr_dinode x k v) = length x.
Proof.
  destruct Hv as [H1 H2 H3 H4 H5 H6 H7]. change IPB with 16 in *. change (Z.to_nat BSIZE) with 1024%nat in Hx.
  split; [|split].
  - destruct v as [ty ma mi nl sz ad]. cbn [type major minor nlink isize addrs] in *.
    unfold wr_dinode, rd_dinode. cbn [type major minor nlink isize addrs]. f_equal.
    1-4: unfold rd16; rewrite wr_words_other by lia; unfold wr32, wr16; rewrite !(rd_wr_ne 2) by lia;
         rewrite rd_wr_eq by (rewrite ?wr_length; lia); by apply i16_u16.
    + unfold rd32. rewrite wr_words_other by lia. unfold wr32. rewrite rd_wr_eq by (unfold wr16; rewrite ?wr_length; lia). rewrite Z.mod_small; [done|]. exact H5.
    + apply list_eq. intros i. rewrite list_lookup_fmap. destruct (ad !! i) as [w|] eqn:Ei.
      * pose proof (lookup_lt_Some _ _ _ Ei). rewrite lookup_seqZ_lt by lia. cbn [fmap option_fmap option_map]. rewrite Z.add_0_l.
        f_equal. rewrite (wr_words_at _ _ _ _ w) by (unfold wr32, wr16; rewrite ?wr_length; lia || done).
        apply u32_small. rewrite Forall_lookup in H7. by apply (H7 i).
      * apply lookup_ge_None in Ei. rewrite lookup_seqZ_ge by lia. done.
  - intros j Hj Hne. apply rd_dinode_agree. intros n p Hp1 Hp2. unfold wr_dinode. rewrite wr_words_other by lia.
    unfold wr32, wr16. rewrite !rd_wr_ne by lia. done.
  - unfold wr_dinode. rewrite wr_words_length. unfold wr32, wr16. by rewrite !wr_length.
Qed.

Lemma dinode_roundtrip_witness :
  rd_dinode (wr_dinode zeros 3 (mkDinode T_FILE 0 0 1 1500 (47 :: 48 :: replicate 11 0))) 3
  = mkDinode T_FILE 0 0 1 1500 (47 :: 48 :: replicate 11 0).
Proof.
  apply (dinode_roundtrip zeros 3 (mkDinode T_FILE 0 0 1 1500 (47 :: 48 :: replicate 11 0))).
  - reflexivity.
  - split; [lia | reflexivity].
  - constructor; cbn; try (unfold T_FILE; lia); repeat constructor; lia.
Defined.

(** ** Path names *)

(** The pieces of a path between slashes, and those that are not empty. *)
Fixpoint split_slash (path : list Z) : list (list Z) :=
  match path with
  | [] => [[]]
  | c :: path' =>
      if c =? SLASH then [] :: split_slash path'
      else match split_slash path' with e :: es => (c :: e) :: es | [] => [[c]] end
  end.
Definition elems (path : list Z) : list (list Z) := filter (fun e => e <> []) (split_slash path).

Lemma skip_slashes_spec path : elems (skip_slashes path) = elems path
  /\ (length (skip_slashes path) <= length path)%nat /\ (forall c r, skip_slashes path = c :: r -> c <> SLASH).
Proof.
  induction path as [|c path (IH1 & IH2 & IH3)]; cbn [skip_slashes]; [done|]. case_if.
  - split; [|split; [cbn; lia | done]]. rewrite IH1. unfold elems. cbn [split_slash]. subst c. rewrite Z.eqb_refl.
    by rewrite filter_cons_False by tauto.
  - split; [done|]. split; [done|]. by intros ? ? [= <- _].
Qed.

Lemma span_elem_spec path e rest : span_elem path = (e, rest) ->
  split_slash path = (match split_slash rest with _ :: es => e :: es | [] => [] end)
  /\ path = e ++ rest /\ (forall c r, rest = c :: r -> c = SLASH) /\ SLASH ∉ e.
Proof.
  revert e rest. induction path as [|c path IH]; intros e rest; cbn [span_elem split_slash].
  - intros [= <- <-]. split_and!; try done. apply not_elem_of_nil.
  - case_if.
    + intros [= <- <-]. subst c. cbn [split_slash]. rewrite Z.eqb_refl. split_and!; try done; [by intros ? ? [= <- _] | apply not_elem_of_nil].
    + destruct (span_elem path) as [e' rest'] eqn:Es. intros [= <- <-]. destruct (IH e' rest' eq_refl) as (H1 & H2 & H3 & H4).
      rewrite H1. split_and!; [|by rewrite H2 at 1 | done | set_solver].
      destruct (split_slash rest') eqn:Er; [|done]. exfalso. clear -Er. destruct rest' as [|x r]; cbn in Er; [done|].
      destruct (x =? SLASH); [done|]. by destruct (split_slash r).
Qed.

(** [skipelem] takes the first non-empty element off a path, cut to DIRSIZ
    characters, and gives the path of the elements after it, which is shorter
    and does not start with a slash; it answers null exactly when the path has
    no element. *)
Theorem skipelem_correct (path : list Z) :
  match skipelem path with
  | None => elems path = []
  | Some (name, rest) =>
      exists e, elems path = e :: elems rest /\ name = take (Z.to_nat DIRSIZ) e
        /\ e <> [] /\ SLASH ∉ e /\ (length rest < length path)%nat /\ (forall c r, rest = c :: r -> c <> SLASH)
  end.
Proof.
  unfold skipelem. destruct (skip_slashes_spec path) as (H1 & H2 & H3). rewrite <- H1.
  destruct (skip_slashes path) as [|c p] eqn:Ep; [done|].
  destruct (span_elem (c :: p)) as [e rest] eqn:Es. destruct (span_elem_spec _ _ _ Es) as (S1 & S2 & S3 & S4).
  destruct (skip_slashes_spec rest) as (R1 & R2 & R3).
  assert (e <> []) as He.
  { intros ->. cbn [app] in S2. apply (H3 c p eq_refl). by apply (S3 c p). }
  exists e. split; [|split; [done|]; split; [done|]; split; [done|]; split].
  - rewrite R1. unfold elems. rewrite S1. destruct rest as [|x r].
    + cbn [split_slash]. rewrite filter_cons_True by done. by rewrite filter_cons_False by tauto.
    + rewrite (S3 x r eq_refl). cbn [split_slash]. rewrite Z.eqb_refl. rewrite filter_cons_True by done.
      by rewrite filter_cons_False by tauto.
  - assert (length (c :: p) = (length e + length rest)%nat) by (by rewrite S2, length_app).
    destruct e; [done|]. cbn [length] in *. lia.
  - done.
Qed.
