(* ===== verification/FsData.v ===== *)
(** * The contents of files and directories

    Inside a transaction a file is the sequence of bytes that the blocks of its
    inode hold.  [readi] gives the bytes of a range, [dirlookup] the first
    entry with a name. *)

From S2P Require Import Prelude KString Bytes Bio Log LogThms Fs FsThms.

(** ** The blocks of a file *)

(** Block [bn] of a file: one of the direct blocks, or an entry of the
    indirect block. *)
Definition faddr (V : Z -> block) (d : dinode) (bn : Z) : Z :=
  if bn <? NDIRECT then addrs d !!! Z.to_nat bn
  else rd32 (V (addrs d !!! Z.to_nat NDIRECT)) (4 * (bn - NDIRECT)).

(** The byte at an offset. *)
Definition fbyte (V : Z -> block) (d : dinode) (o : Z) : Z := V (faddr V d (o / BSIZE)) !!! Z.to_nat (o mod BSIZE).
Definition content (V : Z -> block) (d : dinode) (o n : Z) : list Z := fbyte V d <$> seqZ o n.

(** A block that can be read: it has an address and is not held. *)
Definition readable (V : Z -> block) (H : list Z) (a : Z) : Prop := 0 < a < 2 ^ 32 /\ a ∉ H /\ length (V a) = Z.to_nat BSIZE.

(** Every block of the file up to its size is there. *)
Record file_ok (V : Z -> block) (H : list Z) (d : dinode) : Prop := {
  fl_size : 0 <= isize d <= MAXFILE * BSIZE;
  fl_addrs : length (addrs d) = 13%nat;
  fl_ind : NDIRECT * BSIZE < isize d -> readable V H (addrs d !!! Z.to_nat NDIRECT);
  fl_blocks : forall bn, 0 <= bn -> bn * BSIZE < isize d -> readable V H (faddr V d bn)
}.

(** The transaction has a buffer to spare. *)
Definition spare (L H : list Z) : Prop := NoDup H /\ Z.of_nat (length L) + Z.of_nat (length H) < NBUF.

Lemma clean_block s V L H bn : fs_txn s V L H -> bn ∉ H -> bn ∈ L \/ V bn = dsk (bc (fs_log s)) bn.
Proof.
  intros T Hn. destruct (decide (bn ∈ L)); [by left|]. right. apply (ca_R _ _ _ _ (ft_cache _ _ _ _ T)). unfold refs. by rewrite !pins_notin.
Qed.

(** Read a block, release it, and go on with its data. *)
Lemma peek_bind_wp {B} s V L H bn (K : block -> M fsst B) (Q : B -> fsst -> Prop) :
  fs_txn s V L H -> spare L H -> readable V H bn ->
  (forall s', fs_txn s' V L H -> same_rest s s' -> wp (K (V bn)) s' Q) ->
  wp (bp <- fbread 1 bn ;; x <- fdata bp ;; fbrelse bp ;;; K x) s Q.
Proof.
  intros T [Hnd Hroom] (Hbn & HnH & _) HQ. pose proof (clean_block _ _ _ _ _ T HnH) as Hc.
  wp_step. eapply (fbread_wp _ _ _ _ T); [lia | done | done |]. intros i s1 T1 Hi1 Hs1 Ho1.
  wp_step. eapply (fdata_wp _ _ _ _ T1); [done|].
  wp_step. eapply (fbrelse_wp _ _ _ _ T1 i bn); [done | set_solver | by constructor | |].
  { destruct Hs1 as (_&_&_&_&_&->&_). exact Hc. }
  rewrite filter_head by done. intros s2 T2 Hs2 Ho2. apply HQ; [done | by etransitivity].
Qed.
Lemma peek_wp {B} s V L H bn (f : block -> B) (Q : B -> fsst -> Prop) :
  fs_txn s V L H -> spare L H -> readable V H bn ->
  (forall s', fs_txn s' V L H -> same_rest s s' -> Q (f (V bn)) s') ->
  wp (bp <- fbread 1 bn ;; x <- fdata bp ;; fbrelse bp ;;; ret (f x)) s Q.
Proof. intros T Sp Hr HQ. apply (peek_bind_wp s V L H bn (fun x => ret (f x))); try done. intros s' T' Hs'. apply wp_ret. by apply HQ. Qed.

(** A computation with the same results. *)
Lemma wp_eq {S A} (m m' : M S A) (s : S) (Q : A -> S -> Prop) : m s = m' s -> wp m s Q -> wp m' s Q.
Proof. unfold wp. by intros ->. Qed.

Lemma get_inode_wp s ip v (Q : inode -> fsst -> Prop) : aget (itable s) ip = Some v -> Q v s -> wp (get_inode ip) s Q.
Proof. intros Hv HQ. unfold get_inode. wp_step. wp_step. rewrite Hv. by apply wp_ret. Qed.

(** [bmap] of a block that the file has. *)
Lemma bmap_wp s V L H ip v bn (Q : Z -> fsst -> Prop) :
  fs_txn s V L H -> spare L H -> aget (itable s) ip = Some v -> idev v = 1 -> file_ok V H (idata v) ->
  0 <= bn -> bn * BSIZE < isize (idata v) ->
  (forall s', fs_txn s' V L H -> same_rest s s' -> Q (faddr V (idata v) bn) s') -> wp (bmap ip bn) s Q.
Proof.
  intros T Sp Hv Hd F Hbn Hlt HQ. pose proof (fl_blocks _ _ _ F bn Hbn Hlt) as [Ha [HaH _]]. pose proof (fl_addrs _ _ _ F) as Hlen.
  unfold bmap. wp_step. eapply get_inode_wp; [done|]. cbv zeta. unfold faddr in HQ, Ha. unfold NDIRECT, MAXFILE, NINDIRECT, BSIZE in *.
  destruct (bn <? 12) eqn:E12; bool_prop.
  - destruct (lookup_lt_is_Some_2 (addrs (idata v)) (Z.to_nat bn)) as [a Hla]; [lia|].
    wp_step. eapply wp_from_option; [apply aget_lookup; split; [lia | done]|]. rewrite (list_lookup_total_correct _ _ _ Hla) in *. case_if; [lia|]. wp_step. by apply HQ.
  - pose proof (fl_size _ _ _ F) as Hsz. unfold MAXFILE, NDIRECT, NINDIRECT, BSIZE in Hsz. change (12 + 1024 / 4) with 268 in Hsz.
    case_if; [|change (1024 / 4) with 256 in *; lia].
    destruct (lookup_lt_is_Some_2 (addrs (idata v)) (Z.to_nat 12)) as [a Hla]; [lia|].
    pose proof (fl_ind _ _ _ F ltac:(unfold NDIRECT, BSIZE; lia)) as Hind. unfold NDIRECT in Hind.
    rewrite (list_lookup_total_correct _ _ _ Hla) in *.
    wp_step. eapply wp_from_option; [apply aget_lookup; split; [lia | done]|]. destruct Hind as (Hra & HrH & Hrl). rewrite (proj2 (Z.eqb_neq a 0)) by lia. wp_step. wp_step.
    rewrite (proj2 (Z.eqb_neq a 0)) by lia. rewrite Hd.
    destruct (peek_wp s V L H a (fun x => rd32 x (4 * (bn - 12))) (fun r s' => Q r s' /\ r = rd32 (V a) (4 * (bn - 12))) T Sp) as (r & s' & Er & HQr & Hr).
    { exact (conj Hra (conj HrH Hrl)). }
    { intros s' T' Hs'. split; [by apply HQ | done]. }
    exists r, s'. split; [|exact HQr]. revert Er. unfold bind.
    destruct (fbread 1 a s) as [[bp s1]| | |]; [|done..]. destruct (fdata bp s1) as [[x s2]| | |]; [|done..].
    destruct (fbrelse bp s2) as [[[] s3]| | |] eqn:Ef; [|done..]. intros [= E1 ->]. rewrite E1.
    rewrite (proj2 (Z.eqb_neq r 0)) by lia. rewrite Ef. done.
Qed.

(** ** Reading *)

Lemma content_app V d o n m : 0 <= n -> 0 <= m -> content V d o (n + m) = content V d o n ++ content V d (o + n) m.
Proof. intros Hn Hm. unfold content. rewrite seqZ_app by lia. by rewrite fmap_app. Qed.

Lemma content_length V d o n : length (content V d o n) = Z.to_nat n.
Proof. unfold content. by rewrite length_fmap, length_seqZ. Qed.

(** A piece of a block is a piece of the file. *)
Lemma slice_content V d o m : 0 <= o -> 0 <= m <= BSIZE - o mod BSIZE -> length (V (faddr V d (o / BSIZE))) = Z.to_nat BSIZE ->
  slice (V (faddr V d (o / BSIZE))) (o mod BSIZE) m = content V d o m.
Proof.
  intros Ho Hm Hlen. pose proof (Z.mod_pos_bound o BSIZE ltac:(done)) as Hr. unfold BSIZE in *.
  apply list_eq. intros i. unfold slice, content. rewrite list_lookup_fmap.
  destruct (decide (Z.of_nat i < m)) as [Hi|Hi].
  - rewrite lookup_take_lt by lia. rewrite lookup_drop, lookup_seqZ_lt by lia. cbn.
    unfold fbyte, BSIZE. replace ((o + Z.of_nat i) / 1024) with (o / 1024) by dlia. replace ((o + Z.of_nat i) mod 1024) with (o mod 1024 + Z.of_nat i) by dlia.
    replace (Z.to_nat (o mod 1024) + i)%nat with (Z.to_nat (o mod 1024 + Z.of_nat i)) by lia.
    apply list_lookup_lookup_total_lt. lia.
  - rewrite lookup_take_ge by lia. by rewrite lookup_seqZ_ge by lia.
Qed.

(** How much of a request of [n] bytes the file has. *)
Definition avail (d : dinode) (o n : Z) : Z := Z.max 0 (Z.min n (isize d - o)).

Lemma readk_wp s V L H ip v o n (Q : Z * list Z -> fsst -> Prop) :
  fs_txn s V L H -> spare L H -> aget (itable s) ip = Some v -> idev v = 1 -> file_ok V H (idata v) ->
  0 <= o -> 0 <= n -> o + n < 2 ^ 32 ->
  (forall s', fs_txn s' V L H -> same_rest s s' -> Q (avail (idata v) o n, content V (idata v) o (avail (idata v) o n)) s') ->
  wp (readk ip o n) s Q.
Proof.
  intros T Sp Hv Hd F Ho Hn Hon HQ. pose proof (fl_size _ _ _ F) as Hsz. change (MAXFILE * BSIZE) with 274432 in Hsz.
  unfold readk, readi. wp_step. eapply get_inode_wp; [done|]. cbv zeta. rewrite u32_small by lia.
  replace (o + n <? o) with false by (symmetry; apply Z.ltb_ge; lia). rewrite orb_false_r. rewrite Z.gtb_ltb.
  case_if.
  { wp_step. specialize (HQ s T ltac:(done)). unfold avail in HQ. replace (Z.max 0 _) with 0 in HQ by lia. exact HQ. }
  set (k := avail (idata v) o n) in *.
  replace (if o + n >? isize (idata v) then u32 (isize (idata v) - o) else n) with k.
  2:{ rewrite Z.gtb_ltb. unfold k, avail. case_if; [rewrite u32_small by lia|]; lia. }
  assert (0 <= k /\ o + k <= isize (idata v)) as [Hk Hok] by (unfold k, avail; lia).
  eapply (wp_loop (fun x s' => 0 <= tot x <= k /\ off x = o + tot x /\ usr x = content V (idata v) o (tot x) /\ fs_txn s' V L H /\ same_rest s s')
    (fun x => Z.to_nat (k - tot x))); [|split_and!; cbn; try done; lia | cbn; lia].
  intros x s1 (Ht & Eo & Eu & T1 & Hs1). pose proof (Z.mod_pos_bound (off x) BSIZE ltac:(done)) as Hr. case_if.
  - assert (off x / BSIZE * BSIZE < isize (idata v)) as Hin by (unfold BSIZE in *; dlia).
    assert (0 <= off x / BSIZE) as Hq by (apply Z.div_pos; [lia | done]).
    pose proof (fl_blocks _ _ _ F _ Hq Hin) as Hrd. pose proof Hrd as (Ha & HaH & Hal).
    wp_step. eapply (bmap_wp s1 V L H ip v); try done; [destruct Hs1 as (-> & _); done|]. intros s2 T2 Hs2. rewrite (proj2 (Z.eqb_neq _ 0)) by lia.
    rewrite Hd. pose proof (clean_block _ _ _ _ _ T2 HaH) as Hc.
    wp_step. eapply (fbread_wp _ _ _ _ T2); [lia | done | apply Sp |]. intros i s3 T3 Hi3 Hs3 Ho3.
    wp_step. eapply (fdata_wp _ _ _ _ T3); [done|]. cbn [kout].
    set (m := Z.min (u32 (k - tot x)) (BSIZE - off x mod BSIZE)).
    assert (0 < m <= k - tot x /\ m <= BSIZE - off x mod BSIZE) as Hm.
    { unfold m. rewrite u32_small by lia. unfold BSIZE in *. lia. }
    wp_step. eapply (fbrelse_wp _ _ _ _ T3 i); [done | set_solver | constructor; [done | apply Sp] | |].
    { destruct Hs3 as (_&_&_&_&_&->&_). exact Hc. }
    rewrite filter_head by done. intros s4 T4 Hs4 _. wp_step. cbn [tot off usr]. rewrite !u32_small by lia.
    rewrite slice_content by (lia || done). split; [|lia]. split_and!; [lia | lia | lia | | done | do 3 (etransitivity; [eassumption|]); done].
    rewrite content_app by lia. by rewrite Eu, Eo.
  - wp_step. replace (tot x) with k in * by lia. rewrite i32_small by lia. rewrite Eu. by apply HQ.
Qed.

(** ** Names *)

(** The name that an array of at most [n] characters spells: the characters
    before a terminator. *)
Fixpoint cname (n : nat) (l : list Z) : list Z :=
  match n, l with
  | S n', c :: l' => if c =? 0 then [] else c :: cname n' l'
  | _, _ => []
  end.

Definition dname (l : list Z) : list Z := cname (Z.to_nat DIRSIZ) l.

Lemma two_strings_at s t p : 0 <= p < 1000 ->
  two_strings s t p = nth (Z.to_nat p) s 0 /\ two_strings s t (1000 + p) = nth (Z.to_nat p) t 0.
Proof. intros Hp. unfold two_strings. zcmp. by replace (1000 + p - 1000) with p by lia. Qed.

(** The first character, with a terminator after the end. *)
Definition hd0 (l : list Z) : Z := match l with [] => 0 | c :: _ => c end.

Lemma cname_hd n l : cname (S n) l = if hd0 l =? 0 then [] else hd0 l :: cname n (tail l).
Proof. by destruct l. Qed.

Lemma nth_hd p l : nth p l 0 = hd0 (drop p l).
Proof. revert l. induction p as [|p IH]; intros [|c l]; try done. apply IH. Qed.

Lemma drop_tl p (l : list Z) : tail (drop p l) = drop (S p) l.
Proof. revert l. induction p as [|p IH]; intros [|c l]; try done. apply IH. Qed.

Lemma bytes_hd p l : bytes_ok l -> 0 <= hd0 (drop p l) < 256.
Proof.
  intros Hl. apply (Forall_drop _ p) in Hl. destruct Hl; [done|]. done.
Qed.

Lemma strncmp_names n : forall p s t, bytes_ok s -> bytes_ok t -> (p + n <= 1000)%nat ->
  strncmp_loop n (Z.of_nat p) (1000 + Z.of_nat p) (two_strings s t) = 0 <-> cname n (drop p s) = cname n (drop p t).
Proof.
  induction n as [|n IH]; intros p s t Hs Ht Hp; [done|]. cbn [strncmp_loop].
  destruct (two_strings_at s t (Z.of_nat p) ltac:(lia)) as [-> ->]. rewrite Nat2Z.id, !nth_hd.
  pose proof (bytes_hd p s Hs). pose proof (bytes_hd p t Ht). rewrite !cname_hd, !u8_small by lia.
  rewrite !drop_tl. case_if.
  - replace (Z.of_nat p + 1) with (Z.of_nat (S p)) by lia. replace (1000 + Z.of_nat p + 1) with (1000 + Z.of_nat (S p)) by lia.
    rewrite IH by (done || lia). rewrite <- H2. rewrite (proj2 (Z.eqb_neq (hd0 (drop p s)) 0)) by done. split; [by intros -> | by intros [= ->]].
  - assert (hd0 (drop p s) = 0 \/ hd0 (drop p s) <> hd0 (drop p t)) as Hd by (destruct E; bool_prop; auto).
    destruct (Z.eqb_spec (hd0 (drop p s)) 0) as [E1|E1], (Z.eqb_spec (hd0 (drop p t)) 0) as [E2|E2].
    + split; [done | lia].
    + split; [lia | done].
    + split; [lia | done].
    + split; [lia|]. intros E3. injection E3. lia.
Qed.

(** [namecmp] compares names. *)
Lemma namecmp_names s t : bytes_ok s -> bytes_ok t -> namecmp s t = 0 <-> dname s = dname t.
Proof. intros Hs Ht. apply (strncmp_names 14 0 s t Hs Ht). lia. Qed.

(** ** The inode table *)

Definition same_inode (d i : Z) (v : inode) : Prop := 0 < ref v /\ idev v = d /\ inum v = i.

#[local] Instance same_inode_dec d i v : Decision (same_inode d i v) := ltac:(unfold same_inode; apply _).

Lemma same_inode_test d i v : (ref v >? 0) && (idev v =? d) && (inum v =? i) = bool_decide (same_inode d i v).
Proof.
  rewrite Z.gtb_ltb. unfold same_inode. destruct (Z.ltb_spec 0 (ref v)), (Z.eqb_spec (idev v) d), (Z.eqb_spec (inum v) i); cbn [andb];
    symmetry; (apply bool_decide_eq_true_2 || apply bool_decide_eq_false_2); naive_solver lia.
Qed.

Lemma iget_scan_spec d i t : forall ip e,
  match iget_scan d i t ip e with
  | inl k => ip <= k < ip + Z.of_nat (length t) /\ exists v, t !! Z.to_nat (k - ip) = Some v /\ same_inode d i v
  | inr r => Forall (fun v => ~ same_inode d i v) t
      /\ match e, r with
         | Some k, _ => r = Some k
         | None, Some k => ip <= k < ip + Z.of_nat (length t) /\ exists v, t !! Z.to_nat (k - ip) = Some v /\ ref v = 0
         | None, None => Forall (fun v => ref v <> 0) t
         end
  end.
Proof.
  induction t as [|v t IH]; intros ip e; cbn [iget_scan]; [destruct e; done|].
  assert (forall k, ip + 1 <= k -> (v :: t) !! Z.to_nat (k - ip) = t !! Z.to_nat (k - (ip + 1))) as Hs.
  { intros k Hk. by replace (Z.to_nat (k - ip)) with (S (Z.to_nat (k - (ip + 1)))) by lia. }
  rewrite same_inode_test. case_bool_decide as Hv.
  { cbn [length]. split; [lia|]. exists v. by replace (Z.to_nat (ip - ip)) with 0%nat by lia. }
  set (e' := match e with None => if ref v =? 0 then Some ip else None | Some k => Some k end).
  specialize (IH (ip + 1) e'). destruct (iget_scan d i t (ip + 1) e') as [k|r].
  - destruct IH as [Hk (w & Hw & Hi)]. cbn [length]. split; [lia|]. exists w. by rewrite Hs by lia.
  - destruct IH as [Hall Hr]. split; [by constructor|]. unfold e' in Hr. destruct e as [k|]; [done|].
    destruct (ref v =? 0) eqn:Er; bool_prop.
    + rewrite Hr. cbn [length]. split; [lia|]. exists v. by replace (Z.to_nat (ip - ip)) with 0%nat by lia.
    + destruct r as [k|]; [|by constructor]. destruct Hr as [Hk (w & Hw & Hi)]. cbn [length]. split; [lia|]. exists w. by rewrite Hs by lia.
Qed.

Lemma mod_inode_wp s ip v f (Q : unit -> fsst -> Prop) : aget (itable s) ip = Some v ->
  Q tt (set_itable (<[Z.to_nat ip := f v]> (itable s)) s) -> wp (mod_inode ip f) s Q.
Proof.
  intros Hv HQ. unfold mod_inode, put_inode. wp_step. eapply get_inode_wp; [done|]. wp_step. wp_step.
  pose proof (aget_range _ _ _ Hv). wp_step. eapply wp_from_option; [by apply aset_is_Some|]. by wp_step.
Qed.

(** The table has the inode, or a free entry for it. *)
Definition can_get (d i : Z) (t : list inode) : Prop := exists v, v ∈ t /\ (same_inode d i v \/ ref v = 0).

(** After [iget]: the entry [ip] is the inode with a reference more, the other
    entries are as before. *)
Definition got (d i : Z) (s : fsst) (ip : Z) (s' : fsst) : Prop :=
  fs_log s' = fs_log s /\ sb s' = sb s /\ said s' = said s
  /\ exists v v', aget (itable s) ip = Some v /\ itable s' = <[Z.to_nat ip := v']> (itable s)
    /\ idev v' = d /\ inum v' = i /\ ilk v' = ilk v /\ ref v' = (if bool_decide (same_inode d i v) then ref v + 1 else 1)
    /\ (if bool_decide (same_inode d i v) then idata v' = idata v /\ ivalid v' = ivalid v
        else Forall (fun v => ~ same_inode d i v) (itable s) /\ ref v = 0 /\ ivalid v' = false).

Lemma iget_wp s d i (Q : Z -> fsst -> Prop) :
  can_get d i (itable s) -> Forall (fun v => ref v < 2 ^ 31 - 1) (itable s) ->
  (forall ip s', got d i s ip s' -> Q ip s') -> wp (iget d i) s Q.
Proof.
  intros (v & Hin & Hc) Href HQ. unfold iget. wp_step. wp_step. pose proof (iget_scan_spec d i (itable s) 0 None) as Hs.
  destruct (iget_scan d i (itable s) 0 None) as [k|[k|]].
  - destruct Hs as [Hk (w & Hw & Hi)]. rewrite Z.sub_0_r in Hw.
    assert (aget (itable s) k = Some w) as Hg by (apply aget_lookup; split; [lia | done]).
    pose proof (Forall_lookup_1 _ _ _ _ Href Hw) as Hb. cbn beta in Hb. pose proof Hi as (Hr & Hd & Hn).
    wp_step. eapply mod_inode_wp; [done|]. wp_step. apply HQ. split_and!; try done. exists w, (set_ref (ref w + 1) w).
    rewrite i32_small by lia. rewrite !bool_decide_true by done. by split_and!.
  - destruct Hs as [Hall [Hk (w & Hw & Hz)]]. rewrite Z.sub_0_r in Hw.
    assert (aget (itable s) k = Some w) as Hg by (apply aget_lookup; split; [lia | done]).
    wp_step. eapply mod_inode_wp; [done|]. wp_step. apply HQ. split_and!; try done. eexists w, _. split; [done|]. split; [done|].
    rewrite !bool_decide_false by (unfold same_inode; lia). by split_and!.
  - destruct Hs as [Hall Hnone]. exfalso. rewrite Forall_forall in Hall, Hnone. destruct Hc as [Hc|Hc]; [by eapply Hall | by eapply Hnone].
Qed.

(** ** Directories *)

(** Entry [k] of a directory. *)
Definition entry (V : Z -> block) (d : dinode) (k : Z) : list Z := content V d (16 * k) 16.
Definition names (V : Z -> block) (d : dinode) (name : list Z) (k : Z) : Prop :=
  de_inum (entry V d k) <> 0 /\ dname (de_name (entry V d k)) = dname name.
Definition nentries (d : dinode) : Z := isize d / 16.

(** The directory's data is there, and consists of bytes. *)
Record dir_ok (V : Z -> block) (H : list Z) (v : inode) : Prop := {
  dr_dev : idev v = 1;
  dr_type : type (idata v) = T_DIR;
  dr_file : file_ok V H (idata v);
  dr_size : isize (idata v) mod 16 = 0;
  dr_bytes : forall o, 0 <= o < isize (idata v) -> 0 <= fbyte V (idata v) o < 256
}.

Lemma entry_bytes V H v k : dir_ok V H v -> 0 <= k < nentries (idata v) -> bytes_ok (entry V (idata v) k).
Proof.
  intros D Hk. unfold entry, content. apply Forall_fmap, Forall_forall. intros o Ho%elem_of_seqZ. cbn. apply (dr_bytes _ _ _ D).
  unfold nentries in Hk. dlia.
Qed.

Lemma dirlookup_wp s V L H dp v name (Q : option (Z * Z) -> fsst -> Prop) :
  fs_txn s V L H -> spare L H -> aget (itable s) dp = Some v -> dir_ok V H v -> bytes_ok name ->
  (forall k, 0 <= k < nentries (idata v) -> can_get 1 (de_inum (entry V (idata v) k)) (itable s)) ->
  Forall (fun v => ref v < 2 ^ 31 - 1) (itable s) ->
  (forall s', fs_txn s' V L H -> same_rest s s' -> (forall k, 0 <= k < nentries (idata v) -> ~ names V (idata v) name k) -> Q None s') ->
  (forall s' s1 ip k, fs_txn s' V L H -> same_rest s s1 -> got 1 (de_inum (entry V (idata v) k)) s1 ip s' ->
     0 <= k < nentries (idata v) -> names V (idata v) name k -> (forall j, 0 <= j < k -> ~ names V (idata v) name j) -> Q (Some (ip, 16 * k)) s') ->
  wp (dirlookup dp name) s Q.
Proof.
  intros T Sp Hv D Hname Hget Href HN HS. destruct D as [Hd Hty F H16 Hbytes] eqn:ED. clear ED.
  pose proof (fl_size _ _ _ F) as Hsz. change (MAXFILE * BSIZE) with 274432 in Hsz.
  unfold dirlookup. wp_step. eapply get_inode_wp; [done|]. rewrite Hty. change (negb (T_DIR =? T_DIR)) with false.
  eapply (wp_loop (fun o s' => 0 <= o <= isize (idata v) /\ o mod 16 = 0 /\ fs_txn s' V L H /\ same_rest s s'
    /\ forall k, 0 <= k < o / 16 -> ~ names V (idata v) name k) (fun o => Z.to_nat (isize (idata v) - o)));
    [|split_and!; try done; try lia; intros k Hk; change (0 / 16) with 0 in Hk; lia | lia].
  intros o s1 (Ho & Hm & T1 & Hs1 & Hno). case_if.
  - wp_step. eapply (readk_wp s1 V L H dp v); try done; try lia; [destruct Hs1 as (-> & _); done|].
    intros s2 T2 Hs2. replace (avail (idata v) o 16) with 16 by (unfold avail; dlia). change (negb (16 =? 16)) with false.
    assert (same_rest s s2) as Hs02 by (by etransitivity).
    set (k := o / 16). assert (o = 16 * k /\ 0 <= k < nentries (idata v)) as [Eo Hk] by (unfold k, nentries; dlia).
    assert (content V (idata v) o 16 = entry V (idata v) k) as -> by (unfold entry; by rewrite Eo).
    assert (bytes_ok (entry V (idata v) k)) as Hb by (by apply (entry_bytes V H v)).
    assert (~ names V (idata v) name k -> forall j, 0 <= j < (o + 16) / 16 -> ~ names V (idata v) name j) as Hstep.
    { intros Hn j Hj. destruct (decide (j = k)) as [->|]; [done|]. apply Hno. replace ((o + 16) / 16) with (k + 1) in Hj by (rewrite Eo; dlia). fold k. lia. }
    case_if.
    { wp_step. split; [|lia]. split_and!; try done; [lia | dlia | dlia |]. apply Hstep. by intros [? _]. }
    case_if.
    + apply namecmp_names in E1; [|done | by apply Forall_drop].
      wp_step. rewrite Hd. eapply iget_wp; [destruct Hs02 as (-> & _); by apply Hget | destruct Hs02 as (-> & _); done |].
      intros ip s3 G3. wp_step. rewrite Eo. apply (HS s3 s2 ip k); try done.
      destruct G3 as (Eg & _). destruct T2. constructor; rewrite ?Eg; done.
    + wp_step. split; [|lia]. split_and!; try done; [lia | dlia | dlia |]. apply Hstep. intros [_ En]. apply E1.
      apply namecmp_names; [done | by apply Forall_drop | done].
  - wp_step. apply HN; try done. intros k Hk. apply Hno. unfold nentries in Hk. replace o with (isize (idata v)) by lia. lia.
Qed.



(** ** Locking inodes *)

Lemma txn_itable s V L H t : fs_txn s V L H -> fs_txn (set_itable t s) V L H.
Proof. intros [T1 T2 T3 T4]. by constructor. Qed.

(** [ilock] reads the inode when the entry does not have it yet. *)
Lemma ilock_wp s V L H ip v (Q : unit -> fsst -> Prop) : fs_txn s V L H -> spare L H -> aget (itable s) ip = Some v ->
  1 <= ref v -> ilk v = None -> ivalid v = false -> idev v = 1 -> readable V H (IBLOCK (inum v) (sb s)) ->
  let d := rd_dinode (V (IBLOCK (inum v) (sb s))) (inum v mod IPB) in
  type d <> 0 ->
  (forall s', fs_txn s' V L H -> same_log s s' ->
     itable s' = <[Z.to_nat ip := mkInode 1 (inum v) (ref v) (Some (me (bc (fs_log s)))) true d]> (itable s) -> Q tt s') ->
  wp (ilock ip) s Q.
Proof.
  intros T Sp Hv Hr Hl Hva Hd Hrd d Hty HQ. pose proof (aget_range _ _ _ Hv) as Hrange. unfold ilock. wp_step. eapply get_inode_wp; [done|].
  rewrite (proj2 (Z.ltb_ge _ _)) by lia. wp_step. unfold iacquiresleep, put_inode. wp_step. eapply get_inode_wp; [done|]. do 2 wp_step. rewrite Hl.
  do 2 wp_step. wp_step. eapply wp_from_option; [by apply aset_is_Some|]. wp_step. set (p := me _). set (v1 := set_ilk (Some p) v). set (s1 := set_itable _ s).
  assert (aget (itable s1) ip = Some v1) as Hv1 by (cbn; rewrite aget_insert, Z.eqb_refl by lia; done).
  wp_step. eapply get_inode_wp; [done|]. change (ivalid v1) with (ivalid v). rewrite Hva. cbn [negb]. do 2 wp_step. change (idev v1) with (idev v). rewrite Hd.
  change (sb s1) with (sb s). change (inum v1) with (inum v).
  apply (peek_bind_wp s1 V L H (IBLOCK (inum v) (sb s))); [by apply txn_itable | done | done|]. intros s2 T2 Hs2. pose proof Hs2 as (Et & _). cbv zeta. fold d.
  wp_step. eapply mod_inode_wp; [by rewrite Et|]. rewrite (proj2 (Z.eqb_neq _ _) Hty). wp_step. apply HQ; [by apply txn_itable | exact (same_rest_log _ _ Hs2) |].
  cbn [itable set_itable]. rewrite Et. cbn [itable s1 set_itable]. rewrite list_insert_insert_eq. unfold set_idata. cbn [v1 set_ilk idev inum ref ilk]. by rewrite Hd.
Qed.

(** [iunlockput] of an inode that has a name only gives up the reference. *)
Lemma iunlockput_wp s ip v (Q : unit -> fsst -> Prop) : aget (itable s) ip = Some v -> ilk v = Some (me (bc (fs_log s))) -> 1 <= ref v < 2 ^ 31 -> nlink (idata v) <> 0 ->
  Q tt (set_itable (<[Z.to_nat ip := set_ref (ref v - 1) (set_ilk None v)]> (itable s)) s) -> wp (iunlockput ip) s Q.
Proof.
  intros Hv Hl Hr Hn HQ. pose proof (aget_range _ _ _ Hv) as Hrange. unfold iunlockput, iunlock, ireleasesleep. wp_step. wp_step. eapply get_inode_wp; [done|]. do 2 wp_step.
  rewrite bool_decide_true by done. rewrite (proj2 (Z.ltb_ge _ _)) by lia. cbn [negb orb]. eapply mod_inode_wp; [done|].
  set (s1 := set_itable _ s). assert (aget (itable s1) ip = Some (set_ilk None v)) as Hv1 by (cbn; rewrite aget_insert, Z.eqb_refl by lia; done).
  unfold iput. wp_step. eapply get_inode_wp; [done|]. change (nlink (idata (set_ilk None v))) with (nlink (idata v)). rewrite (proj2 (Z.eqb_neq _ _) Hn), andb_false_r. cbn [when].
  do 2 wp_step. eapply mod_inode_wp; [done|]. cbn [ref set_ilk]. rewrite i32_small by lia. unfold s1. cbn [itable set_itable]. rewrite list_insert_insert_eq. exact HQ.
Qed.

(** ** A small directory *)

(** Block 50 holds the entries "." for inode 1 and "ab" for inode 7. *)
Definition dir_block : block := new_dirent [46] 1 ++ new_dirent [97; 98] 7 ++ replicate 992 0.
Definition dir_disk (bn : Z) : block := if bn =? 50 then dir_block else zeros.
Definition dir_inode : inode := mkInode 1 1 1 None true (mkDinode T_DIR 0 0 1 32 (50 :: replicate 12 0)).

Lemma dir_txn : exists s V, fs_txn s V [] [] /\ itable s = [dir_inode; inode0] /\ dir_ok V [] dir_inode
  /\ (forall k, 0 <= k < 2 -> entry V (idata dir_inode) k = slice dir_block (16 * k) 16).
Proof.
  destruct (clean_boot dir_disk 1 eq_refl ltac:(done)) as (st & _ & I & Hh).
  exists (mkFsst (mkLst (set_out 1 false (lg st)) (bc st)) [dir_inode; inode0] small_sb []), (dsk (bc st)).
  assert (dsk (bc st) 50 = dir_block) as Hd by (apply Hh; unfold home; lia).
  assert (forall o, 0 <= o < 32 -> fbyte (dsk (bc st)) (idata dir_inode) o = dir_block !!! Z.to_nat o) as Hb.
  { intros o Ho. unfold fbyte, BSIZE. rewrite Z.div_small, Z.mod_small by lia.
    change (faddr (dsk (bc st)) (idata dir_inode) 0) with 50. by rewrite Hd. }
  split; [by eapply idle_fs_txn|]. split; [done|]. split.
  - constructor; try done; cbn [idata dir_inode isize].
    + constructor; cbn [isize addrs idata dir_inode]; try done.
      intros bn H0 H1. assert (bn = 0) as -> by (unfold BSIZE in *; lia).
      change (readable (dsk (bc st)) [] 50). unfold readable. rewrite Hd. split; [done|]. split; [apply not_elem_of_nil|]. vm_compute. reflexivity.
    + intros o Ho. rewrite Hb by done. assert (forallb (fun x => (0 <=? x) && (x <? 256)) dir_block = true) as Hall by (vm_compute; reflexivity).
      rewrite forallb_forall in Hall. specialize (Hall (dir_block !!! Z.to_nat o)).
      apply andb_true_iff in Hall as [H1 H2]; [bool_prop; lia|]. apply list_elem_of_In, list_elem_of_lookup_total_2.
      assert (length dir_block = 1024%nat) as -> by (vm_compute; reflexivity). lia.
  - intros k Hk. unfold entry, content. transitivity ((fun o => dir_block !!! Z.to_nat o) <$> seqZ (16 * k) 16).
    + apply list_fmap_ext. intros i o Ho%lookup_seqZ. apply Hb. lia.
    + assert (k = 0 \/ k = 1) as [-> | ->] by lia; vm_compute; reflexivity.
Qed.


