(* ===== verification/FsFile.v ===== *)
(** * Files and the blocks they own

    A file system as a consistency checker sees it: which blocks an inode
    refers to, that they are data blocks in use, that no block is referred to
    twice, and the bytes of a file with holes read as zeros.  Taking a free
    block into a file ([grow]) changes none of the bytes of any file; storing
    into a block of a file changes those bytes alone. *)

From S2P Require Import Prelude KString Bytes Bio Log LogThms Fs FsThms FsData.

(** ** The layout of the disk *)

(** The order of kernel/fs.h: log, inodes, bitmap, data.  The bitmap is a
    single block, as on every disk of at most 8192 blocks. *)
Definition datastart (q : superblock) : Z := sb_size q - nblocks q.

Record sb_ok (q : superblock) : Prop := {
  so_log : 0 < logstart q /\ 0 < nlog q;
  so_inodes : logstart q + nlog q <= inodestart q;
  so_bmap : 0 <= ninodes q /\ inodestart q + ninodes q / IPB + 1 <= bmapstart q;
  so_data : bmapstart q < datastart q;
  so_size : datastart q <= sb_size q <= BPB
}.

(** All blocks after the log are there and hold bytes, and those before the
    data are marked as used. *)
Record disk_ok (q : superblock) (V : Z -> block) : Prop := {
  do_sb : sb_ok q;
  do_len : forall b, logstart q + nlog q <= b < sb_size q -> length (V b) = Z.to_nat BSIZE;
  do_bytes : forall b, logstart q + nlog q <= b < sb_size q -> bytes_ok (V b);
  do_meta : forall b, 0 <= b < datastart q -> used V q b = true
}.

(** The file system that a state works on is the one of [q]. *)
Record on_disk (s : fsst) (q : superblock) : Prop := {
  od_sb : sb s = q;
  od_start : start (lg (fs_log s)) = logstart q;
  od_size : size (lg (fs_log s)) = nlog q
}.

Lemma on_disk_same s s' q : same_log s s' -> on_disk s q -> on_disk s' q.
Proof. intros (E1 & E2 & E3 & _) [H1 H2 H3]. constructor; congruence. Qed.

Lemma BPB_eq : BPB = 8192.
Proof. reflexivity. Qed.
Lemma bblock_one q b : 0 <= b < BPB -> BBLOCK b q = bmapstart q.
Proof. intros H. unfold BBLOCK. rewrite Z.div_small by done. lia. Qed.
Lemma used_one V q b : 0 <= b < BPB -> used V q b = bit_is (V (bmapstart q)) b.
Proof. intros H. unfold used. rewrite bblock_one by done. by rewrite Z.mod_small. Qed.
Lemma data_after q : sb_ok q -> logstart q + nlog q <= bmapstart q < datastart q /\ 0 < bmapstart q /\ 0 < datastart q /\ datastart q <= sb_size q <= 8192.
Proof.
  intros O. pose proof (so_size _ O) as Hs. pose proof (so_data _ O). pose proof (so_bmap _ O) as [? ?]. pose proof (so_inodes _ O). pose proof (so_log _ O).
  pose proof (Z.div_pos (ninodes q) IPB ltac:(done) ltac:(done)). rewrite BPB_eq in Hs. lia.
Qed.
Lemma iblock_between q i : sb_ok q -> 0 <= i < ninodes q -> logstart q + nlog q <= IBLOCK i q < bmapstart q.
Proof.
  intros [_ H1 [_ H2] _ _] Hi. unfold IBLOCK. change IPB with 16 in *. split; [pose proof (Z.div_pos i 16); lia|].
  pose proof (Z.div_le_mono i (ninodes q) 16). lia.
Qed.

(** Blocks outside the log can be written in a transaction. *)
Lemma home_block s q b : on_disk s q -> sb_ok q -> logstart q + nlog q <= b < sb_size q -> fhome s b.
Proof.
  intros [E1 E2 E3] O Hb. pose proof (so_size _ O). pose proof (so_log _ O). rewrite BPB_eq in *. split; [lia|]. unfold log_area. rewrite E2, E3. lia.
Qed.

Lemma disk_layout s q V : on_disk s q -> disk_ok q V -> layout s V.
Proof.
  intros OD [O Hl _ Hm]. pose proof OD as [E1 E2 E3]. pose proof (so_size _ O). pose proof (so_data _ O). pose proof (so_inodes _ O). pose proof (so_bmap _ O) as [Hn Hi].
  pose proof (so_log _ O). pose proof (Z.div_pos (ninodes q) IPB ltac:(done) ltac:(done)). constructor; rewrite ?E1; pose proof BPB_eq.
  - lia.
  - intros b Hb. rewrite bblock_one by lia. split; [apply (home_block s q); try done; lia | apply Hl; lia].
  - intros b Hb Ha. apply Hm. unfold log_area in Ha. rewrite E2, E3 in Ha. lia.
  - intros b Hb _. rewrite bblock_one by lia. apply Hm. lia.
Qed.

(** ** The blocks of an inode *)

(** Number 268 stands for the indirect block itself; the numbers below are
    those of the file. *)
Definition IND : Z := MAXFILE.
Definition iaddr (d : dinode) : Z := addrs d !!! 12%nat.
Definition blk (V : Z -> block) (d : dinode) (i : Z) : Z :=
  if i <? NDIRECT then addrs d !!! Z.to_nat i
  else if i =? IND then iaddr d
  else if iaddr d =? 0 then 0
  else rd32 (V (iaddr d)) (4 * (i - NDIRECT)).

Definition bidx (i : Z) : Prop := 0 <= i <= IND.

(** Every block is a data block in use, and none is listed twice. *)
Record inode_ok (q : superblock) (V : Z -> block) (d : dinode) : Prop := {
  io_len : length (addrs d) = 13%nat;
  io_data : forall i, bidx i -> blk V d i <> 0 -> datastart q <= blk V d i < sb_size q /\ used V q (blk V d i) = true;
  io_inj : forall i j, bidx i -> bidx j -> blk V d i <> 0 -> blk V d i = blk V d j -> i = j
}.

Definition owns (V : Z -> block) (d : dinode) (b : Z) : Prop := b <> 0 /\ exists i, bidx i /\ blk V d i = b.

(** The bytes of a file. *)
Definition fb (V : Z -> block) (d : dinode) (o : Z) : Z :=
  if blk V d (o / BSIZE) =? 0 then 0 else V (blk V d (o / BSIZE)) !!! Z.to_nat (o mod BSIZE).
Definition in_file (o : Z) : Prop := 0 <= o < MAXFILE * BSIZE.

(** The blocks up to offset [n] are there. *)
Definition filled (V : Z -> block) (d : dinode) (n : Z) : Prop := forall i, 0 <= i < MAXFILE -> i * BSIZE < n -> blk V d i <> 0.

Lemma IND_eq : IND = 268. Proof. reflexivity. Qed.
Lemma MAXFILE_eq : MAXFILE = 268. Proof. reflexivity. Qed.

Lemma blk_direct V d i : i < 12 -> blk V d i = addrs d !!! Z.to_nat i.
Proof. intros H. unfold blk, NDIRECT. by zcmp. Qed.
Lemma blk_IND V d : blk V d IND = iaddr d.
Proof. reflexivity. Qed.
Lemma blk_hole V d i : 12 <= i < 268 -> iaddr d = 0 -> blk V d i = 0.
Proof. intros H E. unfold blk, NDIRECT. rewrite IND_eq, E. by zcmp. Qed.
Lemma blk_indirect V d i : 12 <= i < 268 -> iaddr d <> 0 -> blk V d i = rd32 (V (iaddr d)) (4 * (i - 12)).
Proof. intros H E. unfold blk, NDIRECT. rewrite IND_eq. by zcmp. Qed.

(** Blocks depend on the addresses and the indirect block alone. *)
Lemma blk_agree V V' d d' i : addrs d' = addrs d -> (iaddr d <> 0 -> V' (iaddr d) = V (iaddr d)) -> blk V' d' i = blk V d i.
Proof.
  intros E H. unfold blk, iaddr in *. rewrite E. case_if; [done|]. case_if; [done|]. destruct (Z.eqb_spec (addrs d !!! 12%nat) 0); [done|]. by rewrite H.
Qed.

Lemma inode_ok_frame q V V' d : inode_ok q V d -> (iaddr d <> 0 -> V' (iaddr d) = V (iaddr d)) -> (forall b, owns V d b -> used V q b = true -> used V' q b = true) ->
  inode_ok q V' d.
Proof.
  intros [H1 H2 H3] HV HU. assert (forall i, blk V' d i = blk V d i) as E by (intros i; by apply blk_agree).
  constructor; [done | |].
  - intros i Hi Hn. rewrite E in *. destruct (H2 i Hi Hn) as [Hr Hu]. split; [done|]. apply HU; [|done]. split; [done|]. by exists i.
  - intros i j Hi Hj Hn. rewrite !E in *. by apply H3.
Qed.

(** The file of FsData.v. *)
Lemma faddr_blk V d i : 0 <= i < 268 -> blk V d i <> 0 -> faddr V d i = blk V d i.
Proof.
  intros Hi Hn. unfold faddr, NDIRECT in *. case_if; [by rewrite blk_direct by lia|]. change (Z.to_nat 12) with 12%nat. fold (iaddr d).
  destruct (decide (iaddr d = 0)) as [E0|E0]; [by rewrite blk_hole in Hn by (lia || done)|]. by rewrite blk_indirect by (lia || done).
Qed.
Lemma filled_ind V d n : filled V d n -> NDIRECT * BSIZE < n -> iaddr d <> 0.
Proof. intros F Hn E. apply (F 12); [rewrite MAXFILE_eq; lia | exact Hn |]. by apply blk_hole; [lia|]. Qed.

Lemma file_ok_blocks q V d : disk_ok q V -> inode_ok q V d -> 0 <= isize d <= MAXFILE * BSIZE -> filled V d (isize d) -> file_ok V [] d.
Proof.
  intros D I Hs F. pose proof (data_after q (do_sb _ _ D)) as Hq.
  assert (forall i, bidx i -> blk V d i <> 0 -> readable V [] (blk V d i)) as HR.
  { intros i Hi Hn. destruct (io_data _ _ _ I i Hi Hn) as [Hr _]. split; [lia|]. split; [apply not_elem_of_nil | apply (do_len _ _ D); lia]. }
  change (MAXFILE * BSIZE) with 274432 in Hs. constructor; [done | apply I | |].
  - intros Hn. apply (HR IND); [unfold bidx; rewrite IND_eq; lia | by eapply filled_ind].
  - intros i Hi Hn. assert (i < 268) by (unfold BSIZE in *; lia). assert (blk V d i <> 0) as Hb by (apply F; [rewrite MAXFILE_eq; lia | done]).
    rewrite faddr_blk by (done || lia). apply HR; [unfold bidx; rewrite IND_eq; lia | done].
Qed.

Lemma fbyte_fb V d o n : filled V d n -> 0 <= o < n -> n <= MAXFILE * BSIZE -> fbyte V d o = fb V d o.
Proof.
  intros F Ho Hn. change (MAXFILE * BSIZE) with 274432 in Hn. unfold fbyte, fb, BSIZE. assert (blk V d (o / 1024) <> 0) as Hb.
  { apply F; [rewrite MAXFILE_eq; dlia | unfold BSIZE; dlia]. }
  rewrite faddr_blk by (done || dlia). by rewrite (proj2 (Z.eqb_neq _ 0) Hb).
Qed.
Lemma content_fb V d o n m : filled V d m -> 0 <= o -> 0 <= n -> o + n <= m -> m <= MAXFILE * BSIZE -> content V d o n = fb V d <$> seqZ o n.
Proof.
  intros F Ho Hn Hm Hx. unfold content. apply list_fmap_ext. intros i x Hl%lookup_seqZ. eapply fbyte_fb; [exact F | lia | done].
Qed.

(** ** Changes of one file *)

(** From the contents [V] and the inode [d] to [V'] and [d'], after which the
    bytes of the file are [f]: the file keeps its blocks, further blocks come
    from the free ones, and all blocks that are not the file's stay as they
    are but for the bitmap. *)
Record evolves (q : superblock) (V : Z -> block) (d : dinode) (V' : Z -> block) (d' : dinode) (f : Z -> Z) : Prop := {
  ev_disk : disk_ok q V';
  ev_inode : inode_ok q V' d';
  ev_rest : set_addrs (addrs d') d = d';
  ev_old : forall i, bidx i -> blk V d i <> 0 -> blk V' d' i = blk V d i;
  ev_new : forall i, bidx i -> blk V d i = 0 -> blk V' d' i <> 0 -> used V q (blk V' d' i) = false;
  ev_bytes : forall o, in_file o -> fb V' d' o = f o;
  ev_used : forall b, 0 <= b < sb_size q -> used V' q b = true <-> used V q b = true \/ owns V' d' b;
  ev_frame : forall x, x <> bmapstart q -> ~ owns V' d' x -> V' x = V x
}.

Lemma evolves_refl q V d : disk_ok q V -> inode_ok q V d -> evolves q V d V d (fb V d).
Proof.
  intros D I. constructor; try done; [by destruct d|]. intros b Hb. split; [by left|]. intros [H|[Hn (i & Hi & <-)]]; [done|].
  by apply (io_data _ _ _ I).
Qed.

Lemma evolves_owns q V d V' d' f b : evolves q V d V' d' f -> owns V d b -> owns V' d' b.
Proof. intros E [Hn (i & Hi & Eb)]. split; [done|]. exists i. split; [done|]. rewrite (ev_old _ _ _ _ _ _ E i Hi); congruence. Qed.

Lemma evolves_trans q V d V1 d1 f1 V2 d2 f2 : evolves q V d V1 d1 f1 -> evolves q V1 d1 V2 d2 f2 -> evolves q V d V2 d2 f2.
Proof.
  intros E1 E2. constructor; try apply E2.
  - by rewrite <- (ev_rest _ _ _ _ _ _ E2), <- (ev_rest _ _ _ _ _ _ E1).
  - intros i Hi Hn. pose proof (ev_old _ _ _ _ _ _ E1 i Hi Hn) as H1. rewrite (ev_old _ _ _ _ _ _ E2 i Hi); congruence.
  - intros i Hi Hz Hn. destruct (decide (blk V1 d1 i = 0)) as [H1|H1].
    + pose proof (ev_new _ _ _ _ _ _ E2 i Hi H1 Hn) as Hu. apply not_true_iff_false. intros Hc. apply not_true_iff_false in Hu. apply Hu.
      apply (ev_used _ _ _ _ _ _ E1); [|by left]. pose proof (do_sb _ _ (ev_disk _ _ _ _ _ _ E2)) as O. pose proof (so_data _ O). pose proof (so_bmap _ O). pose proof (so_inodes _ O). pose proof (so_log _ O).
      pose proof (Z.div_pos (ninodes q) IPB ltac:(tauto) ltac:(done)). destruct (io_data _ _ _ (ev_inode _ _ _ _ _ _ E2) i Hi Hn) as [Hr _]. lia.
    + rewrite (ev_old _ _ _ _ _ _ E2 i Hi H1) in *. by apply (ev_new _ _ _ _ _ _ E1).
  - intros b Hb. rewrite (ev_used _ _ _ _ _ _ E2 b Hb), (ev_used _ _ _ _ _ _ E1 b Hb). split; [|tauto]. intros [[H|H]|H]; [by left | right | by right].
    by eapply evolves_owns.
  - intros x Hx Hn. rewrite (ev_frame _ _ _ _ _ _ E2 x Hx Hn). apply (ev_frame _ _ _ _ _ _ E1 x Hx). intros Ho. apply Hn. by eapply evolves_owns.
Qed.

Lemma zeros_at n : (n < 1024)%nat -> zeros !!! n = 0.
Proof. intros H. by apply lookup_total_replicate_2. Qed.

Lemma zeros_bytes : bytes_ok zeros.
Proof. apply Forall_replicate. lia. Qed.
Lemma set_bit_bytes x i : bytes_ok x -> bytes_ok (set_bit x i).
Proof.
  intros H. apply Forall_insert; [done|]. pose proof (bytes_ok_at x (Z.to_nat (i / 8)) H) as Hb. pose proof (Z.mod_pos_bound i 8 ltac:(lia)) as Hr. rewrite Z.shiftl_1_l.
  split; [apply Z.lor_nonneg; split; [lia | apply Z.pow_nonneg; lia]|]. change 256 with (2 ^ 8). apply Z.log2_lt_cancel. rewrite Z.log2_pow2 by lia.
  destruct (decide (Z.lor (x !!! Z.to_nat (i / 8)) (2 ^ (i mod 8)) = 0)) as [->|Hn]; [done|]. rewrite Z.log2_lor by (lia || (apply Z.pow_nonneg; lia)). rewrite Z.log2_pow2 by lia.
  pose proof (Z.log2_lt_pow2 (x !!! Z.to_nat (i / 8)) 8) as Hl. destruct (decide (x !!! Z.to_nat (i / 8) = 0)) as [->|]; cbn; lia.
Qed.
Lemma wr_words_bytes x o l : bytes_ok x -> bytes_ok (wr_words x o l).
Proof. revert x o. induction l as [|w l IH]; intros x o Hx; [done|]. cbn [wr_words]. apply IH. by apply wr_bytes_ok. Qed.
Lemma wr_dinode_bytes x k d : bytes_ok x -> bytes_ok (wr_dinode x k d).
Proof. intros Hx. unfold wr_dinode. apply wr_words_bytes. unfold wr32, wr16. by repeat apply wr_bytes_ok. Qed.

(** A free block [b] becomes block [k] of the file. *)
Lemma evolves_alloc q V d V' d' k b : disk_ok q V -> inode_ok q V d -> bidx k -> blk V d k = 0 -> datastart q <= b < sb_size q -> used V q b = false ->
  length (addrs d') = 13%nat -> set_addrs (addrs d') d = d' -> (forall i, bidx i -> blk V' d' i = if i =? k then b else blk V d i) ->
  V' b = zeros -> V' (bmapstart q) = set_bit (V (bmapstart q)) b ->
  (forall x, x <> bmapstart q -> x <> b -> (iaddr d' <> 0 -> x <> iaddr d') -> V' x = V x) -> (iaddr d' <> 0 -> length (V' (iaddr d')) = Z.to_nat BSIZE /\ bytes_ok (V' (iaddr d'))) ->
  evolves q V d V' d' (fb V d).
Proof.
  intros D I Hk Hz Hb Hf Hlen Hrest Hblk Hb0 Hbm Hfr Hl. pose proof (data_after q (do_sb _ _ D)) as Hq. pose proof BPB_eq as EB.
  assert (forall j, 0 <= j < sb_size q -> used V' q j = (j =? b) || used V q j) as Hu.
  { intros j Hj. rewrite !used_one, Hbm, bit_is_set by (rewrite ?(do_len _ _ D) by lia; unfold BSIZE; lia). done. }
  assert (forall i, bidx i -> blk V d i <> 0 -> datastart q <= blk V d i < sb_size q /\ blk V d i <> b) as Hold.
  { intros i Hi Hn. destruct (io_data _ _ _ I i Hi Hn) as [Hr Hu1]. split; [done|]. intros E. congruence. }
  assert (bidx IND) as HI by (unfold bidx; rewrite IND_eq; lia).
  assert (inode_ok q V' d') as I'.
  { constructor; [done| |].
    - intros i Hi. rewrite Hblk by done. destruct (Z.eqb_spec i k) as [->|Hne].
      + intros _. split; [done|]. rewrite Hu by lia. by rewrite Z.eqb_refl.
      + intros Hn. destruct (io_data _ _ _ I i Hi Hn) as [Hr Hu1]. split; [done|]. rewrite Hu by lia. rewrite Hu1. apply orb_true_r.
    - intros i j Hi Hj. rewrite !Hblk by done. destruct (Z.eqb_spec i k) as [->|Hne], (Z.eqb_spec j k) as [->|Hne'].
      + done.
      + intros _ E. destruct (Hold j Hj ltac:(lia)). congruence.
      + intros Hn E. destruct (Hold i Hi Hn). congruence.
      + by apply (io_inj _ _ _ I). }
  assert (forall i, bidx i -> i <> k -> i <> IND -> blk V d i <> 0 -> V' (blk V d i) = V (blk V d i)) as HV.
  { intros i Hi Hne HnI Hn. destruct (Hold i Hi Hn) as [Hr Hnb]. apply Hfr; [lia | done |]. intros _ E. apply HnI. apply (io_inj _ _ _ I' i IND Hi HI); rewrite ?blk_IND, Hblk by done; by rewrite (proj2 (Z.eqb_neq i k) Hne). }
  assert (forall i, bidx i -> blk V' d' i <> 0 -> owns V' d' (blk V' d' i)) as Hown by (intros i Hi Hn; split; [done | by exists i]).
  constructor; try done.
  - constructor; [apply D| | |].
    + intros x Hx. destruct (decide (x = bmapstart q)) as [->|H1]; [rewrite Hbm; unfold set_bit; rewrite length_insert; apply (do_len _ _ D); lia|].
      destruct (decide (x = b)) as [->|H2]; [by rewrite Hb0|]. destruct (decide (x = iaddr d')) as [->|H3].
      * destruct (decide (iaddr d' = 0)) as [E|E]; [|by apply Hl]. rewrite Hfr by (done || congruence). by apply (do_len _ _ D).
      * rewrite Hfr by done. by apply (do_len _ _ D).
    + intros x Hx. destruct (decide (x = bmapstart q)) as [->|H1]; [rewrite Hbm; apply set_bit_bytes, (do_bytes _ _ D); lia|].
      destruct (decide (x = b)) as [->|H2]; [rewrite Hb0; apply zeros_bytes|]. destruct (decide (x = iaddr d')) as [->|H3].
      * destruct (decide (iaddr d' = 0)) as [E|E]; [|by apply Hl]. rewrite Hfr by (done || congruence). by apply (do_bytes _ _ D).
      * rewrite Hfr by done. by apply (do_bytes _ _ D).
    + intros x Hx. rewrite Hu by lia. rewrite (do_meta _ _ D) by done. apply orb_true_r.
  - intros i Hi Hn. rewrite Hblk by done. destruct (Z.eqb_spec i k) as [->|]; congruence.
  - intros i Hi Hz'. rewrite Hblk by done. destruct (Z.eqb_spec i k) as [->|]; [done | congruence].
  - intros o Ho. unfold in_file in Ho. change (MAXFILE * BSIZE) with 274432 in Ho. set (i := o / BSIZE). assert (0 <= i < 268) as Hi by (unfold i, BSIZE; dlia).
    assert (bidx i) as Hbi by (unfold bidx; rewrite IND_eq; lia). unfold fb. fold i. rewrite Hblk by done.
    destruct (Z.eqb_spec i k) as [Ek|Hne].
    + rewrite Ek, Hz. rewrite (proj2 (Z.eqb_neq b 0)) by lia. rewrite Hb0. apply zeros_at. unfold BSIZE. dlia.
    + destruct (Z.eqb_spec (blk V d i) 0) as [|Hn]; [done|]. by rewrite HV by (done || (rewrite IND_eq; lia)).
  - intros j Hj. rewrite Hu by done. rewrite orb_true_iff, Z.eqb_eq. split.
    + intros [->|H]; [right|by left]. split; [lia|]. exists k. split; [done|]. rewrite Hblk by done. by rewrite Z.eqb_refl.
    + intros [H|[Hn (i & Hi & <-)]]; [by right|]. destruct (io_data _ _ _ I' i Hi Hn) as [_ Hu']. rewrite Hu in Hu' by done. apply orb_true_iff in Hu' as [H|H]; bool_prop; auto.
  - intros x Hx Hno. apply Hfr; [done| |].
    + intros ->. apply Hno. split; [lia|]. exists k. split; [done|]. rewrite Hblk by done. by rewrite Z.eqb_refl.
    + intros Hn ->. apply Hno. split; [done|]. by exists IND.
Qed.

Lemma take_frame V q b x : 0 <= b < BPB -> x <> bmapstart q -> x <> b -> take_block V q b x = V x.
Proof. intros Hb H1 H2. unfold take_block. rewrite bblock_one by done. by rewrite !fset_ne. Qed.
Lemma take_bitmap V q b : 0 <= b < BPB -> b <> bmapstart q -> take_block V q b (bmapstart q) = set_bit (V (bmapstart q)) b.
Proof. intros Hb H1. unfold take_block. rewrite bblock_one by done. rewrite fset_ne by done. by rewrite fset_eq, Z.mod_small. Qed.
Lemma take_new V q b : take_block V q b b = zeros.
Proof. unfold take_block. by rewrite fset_eq. Qed.

(** The three places where [bmap] stores the number of a new block. *)
Section Alloc.
  Context (q : superblock) (V : Z -> block) (d : dinode) (b : Z).
  Context (D : disk_ok q V) (I : inode_ok q V d) (Hb : datastart q <= b < sb_size q) (Hf : used V q b = false).

Definition with_addr (i : nat) : dinode := set_addrs (<[i := b]> (addrs d)) d.

Lemma alloc_range : 0 <= b < BPB /\ b <> bmapstart q /\ b <> 0.
Proof. pose proof (data_after q (do_sb _ _ D)). rewrite BPB_eq. lia. Qed.
Lemma own_ne i : bidx i -> blk V d i <> 0 -> blk V d i <> bmapstart q /\ blk V d i <> b.
Proof.
  intros Hi Hn. destruct (io_data _ _ _ I i Hi Hn) as [Hr Hu]. pose proof (data_after q (do_sb _ _ D)). split; [lia|]. intros E. congruence.
Qed.
Lemma iaddr_ne : iaddr d <> 0 -> iaddr d <> bmapstart q /\ iaddr d <> b.
Proof. intros Hn. apply (own_ne IND); [unfold bidx; rewrite IND_eq; lia | done]. Qed.
Lemma take_iaddr : iaddr d <> 0 -> take_block V q b (iaddr d) = V (iaddr d).
Proof. intros Hn. destruct (iaddr_ne Hn). destruct alloc_range as (? & ? & ?). by apply take_frame. Qed.

Lemma alloc_direct k : 0 <= k < 12 -> blk V d k = 0 -> evolves q V d (take_block V q b) (with_addr (Z.to_nat k)) (fb V d).
Proof.
  intros Hk Hz. destruct alloc_range as (Hr & Hbm & H0). pose proof (io_len _ _ _ I) as Hl.
  assert (iaddr (with_addr (Z.to_nat k)) = iaddr d) as Ei by (unfold iaddr; cbn [with_addr addrs set_addrs]; by rewrite list_lookup_total_insert_ne by lia).
  eapply (evolves_alloc q V d _ _ k b); try done; cbn [with_addr addrs set_addrs].
  - unfold bidx. rewrite IND_eq. lia.
  - by rewrite length_insert.
  - intros i Hi. destruct (Z.lt_ge_cases i 12) as [Hi12|Hi12].
    + rewrite !blk_direct by done. cbn [with_addr addrs set_addrs]. destruct (Z.eqb_spec i k) as [->|Hne].
      * rewrite list_lookup_total_insert_eq by lia. done.
      * unfold bidx in Hi. rewrite list_lookup_total_insert_ne by lia. done.
    + rewrite (proj2 (Z.eqb_neq i k)) by lia. unfold blk, NDIRECT. rewrite (proj2 (Z.ltb_ge i 12)) by done. rewrite Ei. case_if; [done|].
      destruct (Z.eqb_spec (iaddr d) 0) as [|Hn]; [done|]. by rewrite take_iaddr.
  - apply take_new.
  - by apply take_bitmap.
  - intros x H1 H2 _. by apply take_frame.
  - rewrite Ei. intros Hn. rewrite take_iaddr by done. destruct (io_data _ _ _ I IND ltac:(unfold bidx; rewrite IND_eq; lia) Hn) as [Hx _].
    rewrite blk_IND in Hx. pose proof (data_after q (do_sb _ _ D)). split; [apply (do_len _ _ D) | apply (do_bytes _ _ D)]; lia.
Qed.

Lemma alloc_ind : iaddr d = 0 -> evolves q V d (take_block V q b) (with_addr 12) (fb V d).
Proof.
  intros Hz. destruct alloc_range as (Hr & Hbm & H0). pose proof (io_len _ _ _ I) as Hl.
  assert (iaddr (with_addr 12) = b) as Ei by (unfold iaddr; cbn [with_addr addrs set_addrs]; by rewrite list_lookup_total_insert_eq by lia).
  eapply (evolves_alloc q V d _ _ IND b); try done; cbn [with_addr addrs set_addrs].
  - by rewrite length_insert.
  - intros i Hi. unfold bidx in Hi. rewrite IND_eq in *. destruct (Z.eqb_spec i 268) as [->|Hne]; [exact Ei|]. destruct (Z.lt_ge_cases i 12) as [Hi12|Hi12].
    + rewrite !blk_direct by done. cbn [with_addr addrs set_addrs]. by rewrite list_lookup_total_insert_ne by lia.
    + rewrite (blk_hole V d) by (done || lia). rewrite blk_indirect by (rewrite ?Ei; done || lia). rewrite Ei, take_new.
      unfold rd32. cbn [rd]. rewrite !zeros_at by lia. done.
  - apply take_new.
  - by apply take_bitmap.
  - intros x H1 H2 _. by apply take_frame.
  - rewrite Ei, take_new. split; [done | apply zeros_bytes].
Qed.

Definition entry_set (k : Z) : Z -> block := fset (take_block V q b) (iaddr d) (wr32 (V (iaddr d)) (4 * (k - 12)) b).

Lemma alloc_entry k : 12 <= k < 268 -> iaddr d <> 0 -> blk V d k = 0 -> evolves q V d (entry_set k) d (fb V d).
Proof.
  intros Hk Hn Hz. destruct alloc_range as (Hr & Hbm & H0). destruct (iaddr_ne Hn) as [Hi1 Hi2]. pose proof (data_after q (do_sb _ _ D)) as Hq.
  assert (length (V (iaddr d)) = 1024%nat /\ bytes_ok (V (iaddr d))) as [Hli Hby].
  { destruct (io_data _ _ _ I IND ltac:(unfold bidx; rewrite IND_eq; lia) Hn) as [Hx _]. rewrite blk_IND in Hx. rewrite (do_len _ _ D) by lia. split; [done | apply (do_bytes _ _ D); lia]. }
  eapply (evolves_alloc q V d _ _ k b); try done.
  - unfold bidx. rewrite IND_eq. lia.
  - apply I.
  - by destruct d.
  - intros i Hi. unfold bidx in Hi. rewrite IND_eq in Hi. unfold entry_set. destruct (decide (12 <= i < 268)) as [H12|H12].
    + rewrite !blk_indirect by done. rewrite fset_eq. destruct (Z.eqb_spec i k) as [->|Hne].
      * rewrite rd32_wr32 by (rewrite ?Hli; lia). apply u32_small. lia.
      * unfold rd32, wr32. by rewrite rd_wr_ne by lia.
    + rewrite (proj2 (Z.eqb_neq i k)) by lia. unfold blk, NDIRECT. case_if; [done|]. rewrite IND_eq. by rewrite (proj2 (Z.eqb_eq i 268)) by lia.
  - unfold entry_set. rewrite fset_ne by done. apply take_new.
  - unfold entry_set. rewrite fset_ne by done. by apply take_bitmap.
  - intros x H1 H2 H3. unfold entry_set. rewrite fset_ne by (by apply H3). by apply take_frame.
  - intros _. unfold entry_set. rewrite fset_eq. unfold wr32. rewrite wr_length, Hli. split; [done | by apply wr_bytes_ok].
Qed.

End Alloc.

(** Store into block [i] of the file. *)
Lemma evolves_store q V d i x : disk_ok q V -> inode_ok q V d -> 0 <= i < 268 -> blk V d i <> 0 -> length x = Z.to_nat BSIZE -> bytes_ok x ->
  evolves q V d (fset V (blk V d i) x) d (fun o => if o / BSIZE =? i then x !!! Z.to_nat (o mod BSIZE) else fb V d o).
Proof.
  intros D I Hi Hn Hx Hxb. pose proof (data_after q (do_sb _ _ D)) as Hq. assert (forall j, 0 <= j <= 268 -> bidx j) as HB by (unfold bidx; by rewrite IND_eq).
  destruct (io_data _ _ _ I i (HB i ltac:(lia)) Hn) as [Hr Hu]. set (a := blk V d i) in *.
  assert (iaddr d <> 0 -> iaddr d <> a) as Ha.
  { intros H0 E. assert (IND = i) as E2; [|rewrite IND_eq in E2; lia]. by apply (io_inj _ _ _ I IND i); try apply HB; rewrite ?IND_eq; try lia. }
  set (V' := fset V a x). assert (forall j, blk V' d j = blk V d j) as Hblk by (intros j; apply blk_agree; [done|]; intros H0; unfold V'; rewrite fset_ne by auto; done).
  assert (forall b, 0 <= b < sb_size q -> used V' q b = used V q b) as Hus.
  { intros b Hb. rewrite !used_one by (rewrite BPB_eq; lia). unfold V'. by rewrite fset_ne by lia. }
  assert (forall b, owns V' d b <-> owns V d b) as Hown by (intros b; unfold owns; by setoid_rewrite Hblk).
  constructor.
  - constructor; [apply D| | |].
    + intros b Hb. unfold V', fset. case_if; [done|]. by apply (do_len _ _ D).
    + intros b Hb. unfold V', fset. case_if; [done|]. by apply (do_bytes _ _ D).
    + intros b Hb. rewrite Hus by lia. by apply (do_meta _ _ D).
  - eapply inode_ok_frame; [exact I| |].
    + intros H0. unfold V'. by rewrite fset_ne by auto.
    + intros b [H0 (j & Hj & <-)]. destruct (io_data _ _ _ I j Hj H0). by rewrite Hus by lia.
  - by destruct d.
  - intros j _ _. apply Hblk.
  - intros j _ Hz Hj. rewrite Hblk in Hj. done.
  - intros o Ho. unfold in_file in Ho. change (MAXFILE * BSIZE) with 274432 in Ho. unfold fb. rewrite Hblk. set (j := o / BSIZE). assert (0 <= j < 268) as Hj by (unfold j, BSIZE; dlia).
    destruct (Z.eqb_spec j i) as [->|Hne].
    + fold a. rewrite (proj2 (Z.eqb_neq a 0) Hn). unfold V'. by rewrite fset_eq.
    + destruct (Z.eqb_spec (blk V d j) 0) as [|H0]; [done|]. unfold V'. rewrite fset_ne; [done|]. intros E. apply Hne. apply (io_inj _ _ _ I); try apply HB; lia || done.
  - intros b Hb. rewrite Hus, Hown by done. split; [by left|]. intros [H|[H0 (j & Hj & <-)]]; [done|]. by apply (io_data _ _ _ I).
  - intros y _ Hy. unfold V'. apply fset_ne. intros ->. apply Hy. rewrite Hown. split; [done|]. exists i. split; [apply HB; lia | done].
Qed.

(** ** All files of a disk *)

(** Inode [i] on the disk. *)
Definition dino (q : superblock) (V : Z -> block) (i : Z) : dinode := rd_dinode (V (IBLOCK i q)) (i mod IPB).
Definition live (q : superblock) (V : Z -> block) (i : Z) : Prop := 0 <= i < ninodes q /\ type (dino q V i) <> 0.
Definition apart (V : Z -> block) (d e : dinode) : Prop := forall b, owns V d b -> ~ owns V e b.

Record sound (q : superblock) (V : Z -> block) (d : dinode) : Prop := {
  sn_inode : inode_ok q V d;
  sn_size : 0 <= isize d <= MAXFILE * BSIZE;
  sn_filled : filled V d (isize d)
}.

(** What a consistency checker tests: the inodes in use are sound, no block
    belongs to two of them, and every data block that is marked as used
    belongs to one. *)
Record consistent (q : superblock) (V : Z -> block) : Prop := {
  cs_disk : disk_ok q V;
  cs_sound : forall i, live q V i -> sound q V (dino q V i);
  cs_apart : forall i j, live q V i -> live q V j -> i <> j -> apart V (dino q V i) (dino q V j);
  cs_owner : forall b, datastart q <= b < sb_size q -> used V q b = true -> exists i, live q V i /\ owns V (dino q V i) b
}.

(** Two contents that are the same for the file of [e]. *)
Record same_file (q : superblock) (V V' : Z -> block) (e : dinode) : Prop := {
  sf_ok : inode_ok q V' e;
  sf_blk : forall i, blk V' e i = blk V e i;
  sf_bytes : forall o, in_file o -> fb V' e o = fb V e o
}.

Lemma sf_owns q V V' e b : same_file q V V' e -> owns V' e b <-> owns V e b.
Proof. intros [_ H _]. unfold owns. by setoid_rewrite H. Qed.
Lemma sf_filled q V V' e n : same_file q V V' e -> filled V e n -> filled V' e n.
Proof. intros [_ H _] F i Hi Hn. rewrite H. by apply F. Qed.
Lemma sf_sound q V V' e : same_file q V V' e -> sound q V e -> sound q V' e.
Proof. intros S [H1 H2 H3]. constructor; [apply S | done | by eapply sf_filled]. Qed.
Lemma sf_trans q V V1 V2 e : same_file q V V1 e -> same_file q V1 V2 e -> same_file q V V2 e.
Proof. intros [A1 A2 A3] [B1 B2 B3]. constructor; [done | intros i; by rewrite B2 | intros o Ho; by rewrite B3, A3]. Qed.

Lemma same_file_intro q V V' e : inode_ok q V e -> (forall b, owns V e b -> V' b = V b /\ used V' q b = true) -> same_file q V V' e.
Proof.
  intros I H. assert (bidx IND) as HI by (unfold bidx; rewrite IND_eq; lia).
  assert (iaddr e <> 0 -> V' (iaddr e) = V (iaddr e)) as Hi by (intros Hn; apply H; split; [done | by exists IND]).
  assert (forall i, blk V' e i = blk V e i) as Hb by (intros i; by apply blk_agree).
  constructor; [eapply inode_ok_frame; [done | done |]; intros b Hb' _; by apply H | done|].
  intros o Ho. unfold fb. rewrite Hb. destruct (Z.eqb_spec (blk V e (o / BSIZE)) 0) as [|Hn]; [done|].
  unfold in_file in Ho. change (MAXFILE * BSIZE) with 274432 in Ho. destruct (H (blk V e (o / BSIZE))) as [-> _]; [|done].
  split; [done|]. exists (o / BSIZE). split; [unfold bidx; rewrite IND_eq; unfold BSIZE; dlia | done].
Qed.

(** A change of one file leaves the others alone. *)
Lemma evolves_other q V d V' d' f e : evolves q V d V' d' f -> inode_ok q V e -> disk_ok q V -> apart V d e -> same_file q V V' e /\ apart V' d' e.
Proof.
  intros E I D A. assert (forall b, owns V e b -> datastart q <= b < sb_size q /\ used V q b = true) as Hu.
  { intros b [Hn (i & Hi & <-)]. by apply (io_data _ _ _ I). }
  assert (forall b, owns V e b -> ~ owns V' d' b) as Hno.
  { intros b He [Hn (i & Hi & Eb)]. destruct (decide (blk V d i = 0)) as [Hz|Hz].
    - destruct (Hu b He) as [_ Hx]. rewrite <- Eb in Hn, Hx. rewrite (ev_new _ _ _ _ _ _ E i Hi Hz Hn) in Hx. done.
    - apply (A b); [|done]. split; [done|]. exists i. split; [done|]. by rewrite <- (ev_old _ _ _ _ _ _ E i Hi Hz). }
  pose proof (data_after q (do_sb _ _ D)) as Hq. assert (same_file q V V' e) as S.
  { apply same_file_intro; [done|]. intros b Hb. destruct (Hu b Hb) as [Hr Hx]. split; [apply (ev_frame _ _ _ _ _ _ E); [lia | by apply Hno]|].
    apply (ev_used _ _ _ _ _ _ E); [lia | by left]. }
  split; [done|]. intros b Hb He. rewrite (sf_owns _ _ _ _ _ S) in He. by apply (Hno b).
Qed.

(** Stores into the blocks of inodes. *)
Lemma meta_store q V b x : disk_ok q V -> 0 <= b < bmapstart q -> length x = Z.to_nat BSIZE -> bytes_ok x ->
  disk_ok q (fset V b x) /\ (forall j, 0 <= j < sb_size q -> used (fset V b x) q j = used V q j) /\ (forall e, inode_ok q V e -> same_file q V (fset V b x) e).
Proof.
  intros D Hb Hx Hxb. pose proof (data_after q (do_sb _ _ D)) as Hq. assert (forall j, 0 <= j < sb_size q -> used (fset V b x) q j = used V q j) as Hu.
  { intros j Hj. rewrite !used_one by (rewrite BPB_eq; lia). by rewrite fset_ne by lia. }
  split; [|split; [done|]].
  - constructor; [apply D | intros j Hj; unfold fset; case_if; [done | by apply (do_len _ _ D)] | intros j Hj; unfold fset; case_if; [done | by apply (do_bytes _ _ D)] |]. intros j Hj. rewrite Hu by lia. by apply (do_meta _ _ D).
  - intros e I. apply same_file_intro; [done|]. intros j [Hn (i & Hi & <-)]. destruct (io_data _ _ _ I i Hi Hn) as [Hr Hx']. rewrite Hu by lia. by rewrite fset_ne by lia.
Qed.

Lemma IPB_mod i : 0 <= i mod IPB < IPB.
Proof. apply Z.mod_pos_bound. done. Qed.

(** [iupdate] of inode [i], on the disk. *)
Definition put_dino (q : superblock) (V : Z -> block) (i : Z) (d : dinode) : Z -> block :=
  fset V (IBLOCK i q) (wr_dinode (V (IBLOCK i q)) (i mod IPB) d).

Lemma put_dino_spec q V i d : disk_ok q V -> 0 <= i < ninodes q -> dinode_ok d ->
  dino q (put_dino q V i d) i = d /\ (forall j, 0 <= j < ninodes q -> j <> i -> dino q (put_dino q V i d) j = dino q V j)
  /\ disk_ok q (put_dino q V i d) /\ (forall j, 0 <= j < sb_size q -> used (put_dino q V i d) q j = used V q j)
  /\ (forall e, inode_ok q V e -> same_file q V (put_dino q V i d) e).
Proof.
  intros D Hi Hd. pose proof (iblock_between q i (do_sb _ _ D) Hi) as Hr. pose proof (data_after q (do_sb _ _ D)) as Hq. pose proof (so_log _ (do_sb _ _ D)).
  destruct (dinode_roundtrip (V (IBLOCK i q)) (i mod IPB) d) as (R1 & R2 & R3); [apply (do_len _ _ D); lia | apply IPB_mod | done |].
  split; [unfold dino, put_dino; by rewrite fset_eq|]. split.
  - intros j Hj Hne. unfold dino, put_dino. destruct (decide (IBLOCK j q = IBLOCK i q)) as [E|E]; [|by rewrite fset_ne].
    rewrite E, fset_eq. apply R2; [apply IPB_mod|]. intros E2. apply Hne. unfold IBLOCK in E. change IPB with 16 in *. dlia.
  - apply meta_store; [done | lia | rewrite R3; apply (do_len _ _ D); lia | apply wr_dinode_bytes, (do_bytes _ _ D); lia].
Qed.

(** A file has changed, and its inode has been stored. *)
Lemma consistent_update q V i V1 d1 f d2 : consistent q V -> live q V i -> evolves q V (dino q V i) V1 d1 f -> addrs d2 = addrs d1 -> type d2 <> 0 ->
  dinode_ok d2 -> 0 <= isize d2 <= MAXFILE * BSIZE -> filled V1 d1 (isize d2) ->
  let V2 := put_dino q V1 i d2 in
  consistent q V2 /\ dino q V2 i = d2 /\ (forall o, in_file o -> fb V2 d2 o = f o)
  /\ (forall j, 0 <= j < ninodes q -> j <> i -> dino q V2 j = dino q V j)
  /\ (forall j, live q V j -> j <> i -> same_file q V V2 (dino q V j)).
Proof.
  intros C Hl E Ea Ety Hd2 Hs2 Hf2 V2. pose proof (ev_disk _ _ _ _ _ _ E) as D1. pose proof (data_after q (do_sb _ _ D1)) as Hq. pose proof (so_log _ (do_sb _ _ D1)).
  assert (forall b, owns V1 d1 b -> datastart q <= b) as How by (intros b [Hn (k & Hk & <-)]; by apply (io_data _ _ _ (ev_inode _ _ _ _ _ _ E))).
  assert (forall j, 0 <= j < ninodes q -> dino q V1 j = dino q V j) as Hd1.
  { intros j Hj. pose proof (iblock_between q j (do_sb _ _ D1) Hj). unfold dino. rewrite (ev_frame _ _ _ _ _ _ E); [done | lia |]. intros Ho%How. lia. }
  destruct (put_dino_spec q V1 i d2 D1 (proj1 Hl) Hd2) as (P1 & P2 & P3 & P4 & P5). fold V2 in P1, P2, P3, P4, P5.
  assert (forall k, blk V1 d2 k = blk V1 d1 k) as Hb2 by (intros k; by apply blk_agree).
  assert (same_file q V1 V2 d2) as S2.
  { apply P5. destruct (ev_inode _ _ _ _ _ _ E) as [A1 A2 A3]. constructor; [congruence | intros k; rewrite Hb2; apply A2 | intros k k'; rewrite !Hb2; apply A3]. }
  assert (forall b, owns V2 d2 b <-> owns V1 d1 b) as Ho2 by (intros b; rewrite (sf_owns _ _ _ _ _ S2); unfold owns; by setoid_rewrite Hb2).
  assert (forall j, 0 <= j < ninodes q -> j <> i -> dino q V2 j = dino q V j) as Hdj by (intros j Hj Hne; rewrite P2, Hd1 by done; done).
  assert (forall j, live q V j -> j <> i -> same_file q V V2 (dino q V j) /\ apart V2 d2 (dino q V j)) as Hoth.
  { intros j Hj Hne. destruct (evolves_other _ _ _ _ _ _ _ E (sn_inode _ _ _ (cs_sound _ _ C j Hj)) (cs_disk _ _ C) (cs_apart _ _ C i j Hl Hj ltac:(congruence))) as [S A].
    assert (same_file q V V2 (dino q V j)) as S' by (eapply sf_trans; [exact S | apply P5, S]). split; [done|].
    intros b Hb. rewrite (sf_owns _ _ _ _ _ S'). rewrite <- (sf_owns _ _ _ _ _ S). by apply A, Ho2. }
  assert (forall j, live q V2 j -> j <> i -> live q V j) as Hlj by (intros j [Hj Ht] Hne; rewrite Hdj in Ht by done; done).
  split_and!; try done.
  - constructor; [done| | |].
    + intros j Hj. destruct (decide (j = i)) as [->|Hne].
      * rewrite P1. constructor; [apply S2 | done |]. intros k Hk Hn. rewrite (sf_blk _ _ _ _ S2), Hb2. by apply Hf2.
      * rewrite Hdj by (apply Hj || done). eapply sf_sound; [by apply Hoth; auto | by apply (cs_sound _ _ C); auto].
    + intros j k Hj Hk Hne. destruct (decide (j = i)) as [->|H1], (decide (k = i)) as [->|H2].
      * done.
      * rewrite P1, Hdj by (apply Hk || done). by apply Hoth; auto.
      * rewrite P1, Hdj by (apply Hj || done). intros b H3 H4. destruct (Hoth j) as [_ A]; [by auto | done |]. by apply (A b).
      * rewrite !Hdj by (apply Hj || apply Hk || done). intros b. rewrite (sf_owns q V V2) by (by apply Hoth; auto). rewrite (sf_owns q V V2) by (by apply Hoth; auto).
        apply (cs_apart _ _ C); auto.
    + intros b Hb Hu. rewrite P4 in Hu by lia. apply (ev_used _ _ _ _ _ _ E) in Hu as [Hu|Hu]; [| |lia].
      * destruct (cs_owner _ _ C b Hb Hu) as (j & Hj & Hob). destruct (decide (j = i)) as [->|Hne].
        -- exists i. unfold live. rewrite P1. split; [by destruct Hl|]. rewrite Ho2. by eapply evolves_owns.
        -- exists j. unfold live. rewrite Hdj by (apply Hj || done). split; [done|]. by apply (sf_owns q V V2); [apply Hoth|].
      * exists i. unfold live. rewrite P1. split; [by destruct Hl|]. by rewrite Ho2.
  - intros o Ho. rewrite (sf_bytes _ _ _ _ S2 o Ho). rewrite <- (ev_bytes _ _ _ _ _ _ E o Ho). unfold fb. by rewrite Hb2.
  - intros j Hj Hne. by apply Hoth.
Qed.
