(* ===== verification/FsWrite.v ===== *)
(** * Writing files

    [bmap] with allocation, [writei] and [itrunc] inside a transaction, as
    changes of the file system of FsFile.v: the file gets the bytes, every
    other file keeps its own, and a consistent disk stays consistent. *)

From S2P Require Import Prelude KString Bytes Bio Log LogThms Fs FsThms FsData FsFile.

(** ** Room in the log *)

(** The blocks in the log, with a place kept for the bitmap and one for the
    indirect block as long as they are not among them. *)
Definition pot (q : superblock) (L : list Z) (d : dinode) : Z :=
  Z.of_nat (length L) + (1 - pins L (bmapstart q)) + (if iaddr d =? 0 then 1 else 1 - pins L (iaddr d)).

Lemma length_add L x : Z.of_nat (length (add_block L x)) = Z.of_nat (length L) + 1 - pins L x.
Proof. unfold add_block, pins. case_bool_decide; [lia|]. rewrite length_app. cbn. lia. Qed.
Lemma pins_add_block L x y : pins (add_block L x) y = if y =? x then 1 else pins L y.
Proof.
  destruct (Z.eqb_spec y x) as [->|Hne]; [apply pins_in, add_block_in|]. unfold pins, add_block. apply bool_decide_ext_Z. case_bool_decide; set_solver.
Qed.
Lemma pot_length q L d : Z.of_nat (length L) <= pot q L d.
Proof. unfold pot. pose proof (pins_cases L (bmapstart q)). pose proof (pins_cases L (iaddr d)). case_if; lia. Qed.

(** There is room for [n] more blocks of data. *)
Definition room (q : superblock) (L : list Z) (d : dinode) (n : Z) : Prop := pot q L d + n + 2 <= nlog q.

Lemma txn_size s q V L H : fs_txn s V L H -> on_disk s q -> nlog q <= NBUF.
Proof. intros T [_ _ <-]. pose proof (lo_size _ (ft_ok _ _ _ _ T)). unfold LOGSIZE, MAXOPBLOCKS, NBUF in *. lia. Qed.

(** ** Allocation for a file *)

Lemma balloc_data_wp s q V L H (Q : Z -> fsst -> Prop) :
  fs_txn s V L H -> on_disk s q -> disk_ok q V -> NoDup H -> (length H <= 1)%nat ->
  (forall b, b ∈ H -> datastart q <= b /\ used V q b = true) -> Z.of_nat (length L) + 3 <= nlog q ->
  (forall b s', datastart q <= b < sb_size q -> used V q b = false ->
     fs_txn s' (take_block V q b) (log_block L q b) H -> same_rest s s' ->
     (forall i x, x ∈ H -> is_buf (bc (fs_log s)) i x -> is_buf (bc (fs_log s')) i x) -> Q b s') ->
  (forall s', (forall j, 0 <= j < sb_size q -> used V q j = true) -> fs_txn s' V L H -> itable s' = itable s -> same_log s s' ->
     (forall i x, x ∈ H -> is_buf (bc (fs_log s)) i x -> is_buf (bc (fs_log s')) i x) -> Q 0 s') ->
  wp (balloc 1) s Q.
Proof.
  intros T OD D Hnd Hl1 HH Hroom HQ1 HQ0. pose proof (txn_size _ _ _ _ _ T OD) as Hsz. pose proof (data_after q (do_sb _ _ D)) as Hq.
  destruct OD as [E1 E2 E3] eqn:EOD. clear EOD. assert (on_disk s q) as OD' by done.
  eapply (balloc_wp s V L H); [done | | |].
  - constructor; rewrite ?E1, ?E3; try lia; [by eapply disk_layout | done | |].
    + intros b Hb HbH. rewrite bblock_one in HbH by (rewrite BPB_eq; lia). apply HH in HbH. lia.
    + intros b _ HbH. by apply HH.
  - rewrite E1. intros b s' Hb Hf _ T' Hs Hh. apply HQ1; try done. split; [|lia]. apply Z.nlt_ge. intros Hlt. rewrite (do_meta _ _ D) in Hf; [done | lia].
  - rewrite E1. intros s' Hall T' Hi Hs _ Hh. by apply HQ0.
Qed.

Lemma set_idata_id v : set_idata (ivalid v) (idata v) v = v.
Proof. by destruct v. Qed.

(** What [bmap] of block [bn] of inode [ip] does. *)
Definition bmap_post (q : superblock) (s : fsst) (V : Z -> block) (L : list Z) (ip : Z) (v : inode) (bn a : Z) (s' : fsst) : Prop :=
  exists V' L' d', fs_txn s' V' L' [] /\ same_log s s' /\ itable s' = <[Z.to_nat ip := set_idata (ivalid v) d' v]> (itable s)
    /\ evolves q V (idata v) V' d' (fb V (idata v)) /\ blk V' d' bn = a
    /\ (a = 0 -> forall j, 0 <= j < sb_size q -> used V' q j = true)
    /\ pot q L' d' + (if a =? 0 then 1 else 1 - pins L' a) <= pot q L (idata v) + 1.

(** The cost of a block for the file in the log. *)
Lemma pot_alloc q L d b : b <> bmapstart q -> (iaddr d <> 0 -> iaddr d <> b /\ iaddr d <> bmapstart q) -> datastart q <= b < sb_size q -> sb_ok q ->
  pot q (log_block L q b) d <= pot q L d + 1 /\ pins (log_block L q b) b = 1 /\ Z.of_nat (length (log_block L q b)) + 1 - (1 - pins L (bmapstart q)) <= Z.of_nat (length L) + 2
  /\ pins (log_block L q b) (bmapstart q) = 1.
Proof.
  intros Hb Hi Hr O. pose proof (data_after q O) as Hq. unfold pot, log_block. rewrite bblock_one by (rewrite BPB_eq; lia).
  rewrite !length_add, !pins_add_block. pose proof (pins_cases L (bmapstart q)). pose proof (pins_cases L b). pose proof (pins_cases L (iaddr d)).
  rewrite !Z.eqb_refl. rewrite (proj2 (Z.eqb_neq b _)) by done. rewrite (proj2 (Z.eqb_neq (bmapstart q) b)) by done.
  destruct (Z.eqb_spec (iaddr d) 0) as [E0|E0]; [lia|]. destruct (Hi E0) as [H3 H4]. rewrite (proj2 (Z.eqb_neq _ _) H3), (proj2 (Z.eqb_neq _ _) H4). lia.
Qed.

(** An entry of the indirect block, which is there. *)
Definition bmap_entry (d bn addr : Z) : M fsst Z :=
  bp <- fbread d addr ;;
  x <- fdata bp ;;
  let addr := rd32 x (4 * bn) in
  if addr =? 0 then
    addr <- balloc d ;;
    when (negb (addr =? 0)) (x <- fdata bp ;; fset_data bp (wr32 x (4 * bn) addr) ;;; flog_write bp) ;;;
    fbrelse bp ;;;
    ret addr
  else
    fbrelse bp ;;;
    ret addr.

Lemma bmap_entry_wp s q V L d k (Q : Z -> fsst -> Prop) :
  fs_txn s V L [] -> on_disk s q -> disk_ok q V -> inode_ok q V d -> room q L d 1 -> 12 <= k < 268 -> iaddr d <> 0 ->
  (forall a s' V' L', fs_txn s' V' L' [] -> same_log s s' -> itable s' = itable s -> evolves q V d V' d (fb V d) -> blk V' d k = a ->
     (a = 0 -> forall j, 0 <= j < sb_size q -> used V' q j = true) -> pot q L' d + (if a =? 0 then 1 else 1 - pins L' a) <= pot q L d + 1 -> Q a s') ->
  wp (bmap_entry 1 (k - 12) (iaddr d)) s Q.
Proof.
  intros T OD D I R Hk Hn HQ. pose proof (data_after q (do_sb _ _ D)) as Hq. pose proof (txn_size _ _ _ _ _ T OD) as Hsz. unfold NBUF in Hsz. unfold room in R. pose proof (pot_length q L d) as HpL.
  destruct (io_data _ _ _ I IND ltac:(unfold bidx; rewrite IND_eq; lia) Hn) as [Hir Hiu]. rewrite blk_IND in Hir, Hiu.
  assert (fhome s (iaddr d)) as Hih by (apply (home_block s q); [done | apply D | lia]).
  pose proof (clean_block _ _ _ _ (iaddr d) T (not_elem_of_nil _)) as Hc. pose proof (pins_cases L (iaddr d)) as Hpi.
  unfold bmap_entry. wp_step. eapply (fbread_wp _ _ _ _ T); [lia | apply not_elem_of_nil | cbn; unfold NBUF; lia |]. intros i s1 T1 Hi1 Hs1 Ho1.
  wp_step. eapply (fdata_wp _ _ _ _ T1); [done|]. cbv zeta.
  assert (rd32 (V (iaddr d)) (4 * (k - 12)) = blk V d k) as Eb by (by rewrite blk_indirect). rewrite Eb. destruct (Z.eqb_spec (blk V d k) 0) as [Ez|Ez].
  - wp_step. eapply (balloc_data_wp s1 q V L [iaddr d]); try done.
    + by eapply on_disk_same, OD; apply same_rest_log.
    + apply NoDup_singleton.
    + intros b ->%list_elem_of_singleton. split; [lia | done].
    + lia.
    + intros b s2 Hb Hf T2 Hs2 Hh2. destruct (alloc_range q V b D Hb) as (Hbr & Hbm & Hb0). destruct (iaddr_ne q V d b D I Hf Hn) as [Hj1 Hj2].
      rewrite (proj2 (Z.eqb_neq b 0) Hb0). cbn [negb when]. specialize (Hh2 i (iaddr d) ltac:(set_solver) Hi1). assert (same_rest s s2) as Hs02 by (by etransitivity).
      destruct (pot_alloc q L d b Hbm ltac:(auto) Hb (do_sb _ _ D)) as (Hp1 & Hp2 & Hp3 & Hp4). pose proof (pins_cases L (bmapstart q)) as Hpb. pose proof (pot_length q (log_block L q b) d) as HpL2.
      wp_step. wp_step. eapply (fdata_wp _ _ _ _ T2); [done|]. rewrite (take_iaddr q V d b D I Hb Hf Hn).
      wp_step. eapply (fset_data_wp _ _ _ _ T2); [done|]. intros s3 T3 Hi3 Hs3 _.
      assert (same_rest s s3) as Hs03 by (by etransitivity). assert (on_disk s3 q) as OD3 by (eapply on_disk_same, OD; by apply same_rest_log).
      eapply (flog_write_wp _ _ _ _ T3); [done | by eapply fhome_same | rewrite (od_size _ _ OD3); lia |]. intros s4 T4 Hi4 Hs4 _.
      wp_step. eapply (fbrelse_wp _ _ _ _ T4 i (iaddr d)); [done | set_solver | apply NoDup_singleton | left; apply add_block_in |].
      rewrite filter_head by apply not_elem_of_nil. intros s5 T5 Hs5 _. wp_step.
      assert (same_rest s s5) as Hs05 by (by do 2 (etransitivity; [|eassumption])).
      pose proof (alloc_entry q V d b D I Hb Hf k Hk Hn Ez) as EV.
      eapply (HQ b s5 _ _ T5); [by apply same_rest_log | apply Hs05 | exact EV | | done |].
      * unfold entry_set. rewrite blk_indirect by done. rewrite fset_eq. rewrite rd32_wr32; [apply u32_small; lia | lia |].
        rewrite (do_len _ _ D) by lia. unfold BSIZE. lia.
      * rewrite (proj2 (Z.eqb_neq b 0) Hb0). rewrite pins_add_block, (proj2 (Z.eqb_neq b _)), Hp2 by congruence. revert Hp1. unfold pot. rewrite length_add, !pins_add_block, Z.eqb_refl.
        rewrite (proj2 (Z.eqb_neq _ 0) Hn). rewrite (proj2 (Z.eqb_neq (bmapstart q) _)) by congruence. lia.
    + intros s2 Hall T2 Hi2 Hs2 Hh2. specialize (Hh2 i (iaddr d) ltac:(set_solver) Hi1). rewrite Z.eqb_refl. cbn [negb when].
      wp_step. wp_step. wp_step. eapply (fbrelse_wp _ _ _ _ T2 i (iaddr d)); [done | set_solver | apply NoDup_singleton | |].
      { destruct Hs2 as (_&_&_&->&_). destruct Hs1 as (_&_&_&_&_&->&_). exact Hc. }
      rewrite filter_head by apply not_elem_of_nil. intros s3 T3 Hs3 _. wp_step.
      eapply (HQ 0 s3 V L); try done; [| destruct Hs3 as (-> & _); rewrite Hi2; by destruct Hs1 as (-> & _) | by apply evolves_refl].
      etransitivity; [by apply same_rest_log|]. etransitivity; [done|]. by apply same_rest_log.
  - wp_step. eapply (fbrelse_wp _ _ _ _ T1 i (iaddr d)); [done | set_solver | apply NoDup_singleton | |].
    { destruct Hs1 as (_&_&_&_&_&->&_). exact Hc. }
    rewrite filter_head by apply not_elem_of_nil. intros s2 T2 Hs2 _. wp_step. assert (same_rest s s2) as Hs02 by (by etransitivity).
    eapply (HQ (blk V d k) s2 V L); try done; [by apply same_rest_log | apply Hs02 | by apply evolves_refl |].
    rewrite (proj2 (Z.eqb_neq _ 0) Ez). pose proof (pins_cases L (blk V d k)). lia.
Qed.

Section Bmap.
  Context (s : fsst) (q : superblock) (V : Z -> block) (L : list Z) (ip : Z) (v : inode).
  Context (T : fs_txn s V L []) (OD : on_disk s q) (D : disk_ok q V) (I : inode_ok q V (idata v)) (R : room q L (idata v) 1).
  Context (Hv : aget (itable s) ip = Some v) (Hd : idev v = 1).

Lemma same_itable : itable s = <[Z.to_nat ip := set_idata (ivalid v) (idata v) v]> (itable s).
Proof. rewrite set_idata_id. symmetry. apply list_insert_id. by apply aget_lookup. Qed.

(** Give the inode a block that was allocated for it. *)
Lemma set_addr_wp s1 V1 L1 i b (Q : unit -> fsst -> Prop) : fs_txn s1 V1 L1 [] -> same_log s s1 -> itable s1 = itable s ->
  (forall s2, fs_txn s2 V1 L1 [] -> same_log s s2 -> itable s2 = <[Z.to_nat ip := set_idata (ivalid v) (with_addr (idata v) b (Z.to_nat i)) v]> (itable s) -> Q tt s2) ->
  wp (mod_inode ip (fun v => set_idata (ivalid v) (set_addrs (<[Z.to_nat i := b]> (addrs (idata v))) (idata v)) v)) s1 Q.
Proof.
  intros T1 Hs1 Ei HQ. eapply mod_inode_wp; [by rewrite Ei|]. apply HQ; cbn [set_itable itable]; [|done | by rewrite Ei].
  destruct T1. by constructor.
Qed.

Lemma bmap_direct_wp bn (Q : Z -> fsst -> Prop) : 0 <= bn < 12 -> (forall a s', bmap_post q s V L ip v bn a s' -> Q a s') -> wp (bmap ip bn) s Q.
Proof.
  intros Hbn HQ. pose proof (pot_length q L (idata v)) as HpL. unfold room in R. pose proof (io_len _ _ _ I) as Hl.
  unfold bmap. wp_step. eapply get_inode_wp; [done|]. cbv zeta. unfold NDIRECT. rewrite (proj2 (Z.ltb_lt bn 12)) by lia.
  assert (aget (addrs (idata v)) bn = Some (blk V (idata v) bn)) as Ea.
  { apply aget_lookup. split; [lia|]. rewrite blk_direct by lia. apply list_lookup_lookup_total_lt. lia. }
  wp_step. eapply wp_from_option; [exact Ea|]. destruct (Z.eqb_spec (blk V (idata v) bn) 0) as [Ez|Ez].
  - wp_step. rewrite Hd. eapply (balloc_data_wp s q V L []); try done; [constructor | cbn; lia | intros b Hb; by apply not_elem_of_nil in Hb | lia | |].
    + intros b s1 Hb Hf T1 Hs1 _. destruct (alloc_range q V b D Hb) as (Hbr & Hbm & Hb0). rewrite (proj2 (Z.eqb_neq b 0) Hb0). pose proof (alloc_direct q V (idata v) b D I Hb Hf bn Hbn Ez) as EV.
      destruct (pot_alloc q L (idata v) b Hbm) as (Hp1 & Hp2 & _); [intros Hn; by destruct (iaddr_ne q V (idata v) b D I Hf Hn) | done | apply D |].
      wp_step. eapply (set_addr_wp s1 _ _ bn b); [exact T1 | by apply same_rest_log | apply Hs1 |]. intros s2 T2 Hs2 Hi2. wp_step. apply HQ.
      exists (take_block V q b), (log_block L q b), (with_addr (idata v) b (Z.to_nat bn)). split_and!; try done.
      * rewrite blk_direct by lia. cbn [with_addr addrs set_addrs]. apply list_lookup_total_insert_eq. lia.
      * rewrite (proj2 (Z.eqb_neq b 0) Hb0), Hp2. revert Hp1. unfold pot, iaddr. cbn [with_addr addrs set_addrs]. rewrite list_lookup_total_insert_ne by lia. lia.
    + intros s1 Hall T1 Hi1 Hs1 _. rewrite Z.eqb_refl. wp_step. apply HQ. exists V, L, (idata v). split_and!; try done; [by rewrite Hi1, <- same_itable | by apply evolves_refl].
  - wp_step. apply HQ. exists V, L, (idata v). split_and!; try done; [apply same_itable | by apply evolves_refl |].
    rewrite (proj2 (Z.eqb_neq _ 0) Ez). pose proof (pins_cases L (blk V (idata v) bn)). lia.
Qed.

Lemma bmap_indirect_wp bn (Q : Z -> fsst -> Prop) : 12 <= bn < 268 -> (forall a s', bmap_post q s V L ip v bn a s' -> Q a s') -> wp (bmap ip bn) s Q.
Proof.
  intros Hbn HQ. pose proof (pot_length q L (idata v)) as HpL. pose proof R as R0. unfold room in R0. pose proof (io_len _ _ _ I) as Hl. pose proof (data_after q (do_sb _ _ D)) as Hq.
  unfold bmap. wp_step. eapply get_inode_wp; [done|]. cbv zeta. change NINDIRECT with 256. unfold NDIRECT. rewrite (proj2 (Z.ltb_ge bn 12)), (proj2 (Z.ltb_lt (bn - 12) 256)) by lia.
  assert (aget (addrs (idata v)) 12 = Some (iaddr (idata v))) as Ea.
  { apply aget_lookup. split; [lia|]. apply list_lookup_lookup_total_lt. lia. }
  wp_step. eapply wp_from_option; [exact Ea|]. rewrite Hd. change (Z.to_nat 12) with 12%nat. destruct (Z.eqb_spec (iaddr (idata v)) 0) as [Ez|Ez].
  - wp_step. wp_step. eapply (balloc_data_wp s q V L []); try done; [constructor | cbn; lia | intros b Hb; by apply not_elem_of_nil in Hb | lia | |].
    + intros b s1 Hb Hf T1 Hs1 _. destruct (alloc_range q V b D Hb) as (Hbr & Hbm & Hb0). rewrite !(proj2 (Z.eqb_neq b 0) Hb0). cbn [negb when]. pose proof (alloc_ind q V (idata v) b D I Hb Hf Ez) as EV.
      destruct (pot_alloc q L (idata v) b Hbm ltac:(done) Hb (do_sb _ _ D)) as (Hp1 & Hp2 & Hp3 & Hp4).
      assert (iaddr (with_addr (idata v) b 12) = b) as Ei by (unfold iaddr; cbn [with_addr addrs set_addrs]; by rewrite list_lookup_total_insert_eq by lia).
      assert (pot q (log_block L q b) (with_addr (idata v) b 12) <= pot q L (idata v)) as Hp5.
      { revert Hp1. unfold pot. rewrite Ei, Ez, Hp2, Hp4. rewrite (proj2 (Z.eqb_neq b 0) Hb0). change (0 =? 0) with true. cbv iota. pose proof (pins_cases L (bmapstart q)). lia. }
      wp_step. eapply (set_addr_wp s1 _ _ 12 b); [exact T1 | by apply same_rest_log | apply Hs1 |]. intros s2 T2 Hs2 Hi2. wp_step. rewrite (proj2 (Z.eqb_neq b 0) Hb0).
      assert (exists d1, d1 = with_addr (idata v) b 12) as [d1 Ed1] by eauto. change (Z.to_nat 12) with 12%nat in Hi2. rewrite <- Ed1 in *.
      change (wp (bmap_entry 1 (bn - 12) b) s2 Q). rewrite <- Ei. eapply (bmap_entry_wp s2 q _ _ d1); try done.
      * by eapply on_disk_same.
      * apply EV.
      * apply EV.
      * unfold room. lia.
      * lia.
      * intros a s3 V3 L3 T3 Hs3 Hi3 EV3 Eb3 Hz3 Hp6. apply HQ. exists V3, L3, d1. split_and!; try done; [by etransitivity | congruence | | lia].
        destruct (evolves_trans _ _ _ _ _ _ _ _ _ EV EV3) as [A1 A2 A3 A4 A5 A6 A7 A8]. constructor; try done. intros o Ho. rewrite A6 by done. by apply (ev_bytes _ _ _ _ _ _ EV).
    + intros s1 Hall T1 Hi1 Hs1 _. cbn [Z.eqb negb when]. wp_step. wp_step. wp_step. cbn [Z.eqb]. wp_step. apply HQ. exists V, L, (idata v).
      split_and!; try done; [by rewrite Hi1, <- same_itable | by apply evolves_refl | by apply blk_hole].
  - wp_step. wp_step. rewrite (proj2 (Z.eqb_neq _ 0) Ez). change (wp (bmap_entry 1 (bn - 12) (iaddr (idata v))) s Q).
    eapply (bmap_entry_wp s q V L (idata v)); try done.
    intros a s' V' L' T' Hs' Hi' EV Eb Hz Hp. apply HQ. exists V', L', (idata v). split_and!; try done. rewrite Hi'. apply same_itable.
Qed.

Lemma bmap_any_wp bn (Q : Z -> fsst -> Prop) : 0 <= bn < 268 -> (forall a s', bmap_post q s V L ip v bn a s' -> Q a s') -> wp (bmap ip bn) s Q.
Proof. intros Hbn HQ. destruct (Z.lt_ge_cases bn 12); [apply bmap_direct_wp | apply bmap_indirect_wp]; auto with lia. Qed.

End Bmap.

(** ** Inodes to the disk *)

Lemma iupdate_wp s q V L ip v (Q : unit -> fsst -> Prop) :
  fs_txn s V L [] -> on_disk s q -> disk_ok q V -> aget (itable s) ip = Some v -> idev v = 1 -> 0 <= inum v < ninodes q -> Z.of_nat (length L) + 1 < nlog q ->
  (forall s', fs_txn s' (put_dino q V (inum v) (idata v)) (add_block L (IBLOCK (inum v) q)) [] -> same_rest s s' -> Q tt s') ->
  wp (iupdate ip) s Q.
Proof.
  intros T OD D Hv Hd Hi Hroom HQ. pose proof (iblock_between q _ (do_sb _ _ D) Hi) as Hr. pose proof (data_after q (do_sb _ _ D)) as Hq. pose proof (so_log _ (do_sb _ _ D)).
  pose proof (txn_size _ _ _ _ _ T OD) as Hsz. pose proof (od_sb _ _ OD) as Es. pose proof (od_size _ _ OD) as El.
  assert (fhome s (IBLOCK (inum v) q)) as Hh by (apply (home_block s q); [done | apply D | lia]).
  unfold iupdate. wp_step. wp_step. rewrite Es. wp_step. eapply get_inode_wp; [done|]. rewrite Hd.
  wp_step. eapply (fbread_wp _ _ _ _ T); [lia | apply not_elem_of_nil | cbn; lia |]. intros i s1 T1 Hi1 Hs1 _.
  wp_step. eapply (fdata_wp _ _ _ _ T1); [done|].
  eapply (store_wp _ _ _ _ _ _ _ _ T1); [done | apply not_elem_of_nil | constructor | by eapply fhome_same | |].
  { destruct Hs1 as (_&_&_&_&->&_). lia. }
  intros s2 T2 Hs2 _. apply HQ; [exact T2 | by etransitivity].
Qed.

(** ** Writing *)

(** Copies from a caller's memory that succeed: as long as [P] holds of the
    caller's side, which a copy keeps, the bytes [y] are at [src]. *)
Definition copies {U} (P : U -> Prop) (copyin : Z -> list Z -> U -> list Z * bool * U) (src : Z) (y : list Z) : Prop :=
  forall t old u, P u -> 0 <= t -> t + Z.of_nat (length old) <= Z.of_nat (length y) -> (0 < length old <= 1024)%nat -> bytes_ok old ->
    exists u', copyin (u64 (src + t)) old u = (slice y t (Z.of_nat (length old)), true, u') /\ P u'.

Lemma kin_copies y : Z.of_nat (length y) < 2 ^ 64 -> copies (fun _ => True) (kin y) 0 y.
Proof. intros Hy t old u _ Ht Hl _ _. exists u. unfold kin. by rewrite Z.add_0_l, u64_small by lia. Qed.

(** The bytes [f], with those from [o] on replaced by [y]. *)
Definition over (f : Z -> Z) (o : Z) (y : list Z) (p : Z) : Z := if (o <=? p) && (p <? o + Z.of_nat (length y)) then y !!! Z.to_nat (p - o) else f p.

Lemma evolves_ext q V d V' d' f g : evolves q V d V' d' f -> (forall o, in_file o -> f o = g o) -> evolves q V d V' d' g.
Proof. intros [A1 A2 A3 A4 A5 A6 A7 A8] H. constructor; try done. intros o Ho. by rewrite A6, H. Qed.

Lemma slice_length x o m : 0 <= o -> 0 <= m -> o + m <= Z.of_nat (length x) -> length (slice x o m) = Z.to_nat m.
Proof. intros. unfold slice. rewrite length_take, length_drop. lia. Qed.
Lemma slice_bytes x o m : bytes_ok x -> bytes_ok (slice x o m).
Proof. intros H. by apply Forall_take, Forall_drop. Qed.
Lemma splice_bytes x o y : bytes_ok x -> bytes_ok y -> bytes_ok (splice x o y).
Proof. intros Hx Hy. apply Forall_app. split; [by apply Forall_take|]. apply Forall_app. split; [done | by apply Forall_drop]. Qed.
Lemma slice_at x o m p : 0 <= o -> 0 <= p < m -> o + m <= Z.of_nat (length x) -> slice x o m !!! Z.to_nat p = x !!! Z.to_nat (o + p).
Proof.
  intros Ho Hp Hm. unfold slice. rewrite !list_lookup_total_alt. rewrite lookup_take_lt by lia. rewrite lookup_drop. do 2 f_equal. lia.
Qed.
Lemma splice_length x o y : 0 <= o -> o + Z.of_nat (length y) <= Z.of_nat (length x) -> length (splice x o y) = length x.
Proof. intros. unfold splice. rewrite !length_app, length_take, length_drop. lia. Qed.
Lemma splice_at x o y p : 0 <= o -> 0 <= p -> o + Z.of_nat (length y) <= Z.of_nat (length x) ->
  splice x o y !!! Z.to_nat p = if (o <=? p) && (p <? o + Z.of_nat (length y)) then y !!! Z.to_nat (p - o) else x !!! Z.to_nat p.
Proof.
  intros Ho Hp Hl. unfold splice. rewrite !list_lookup_total_alt. destruct (Z.leb_spec o p) as [H1|H1]; cbn [andb].
  - rewrite lookup_app_r by (rewrite length_take; lia). rewrite length_take, Nat.min_l by lia. destruct (Z.ltb_spec p (o + Z.of_nat (length y))) as [H2|H2].
    + rewrite lookup_app_l by lia. do 2 f_equal. lia.
    + rewrite lookup_app_r, lookup_drop by lia. do 2 f_equal. lia.
  - rewrite lookup_app_l by (rewrite length_take; lia). by rewrite lookup_take_lt by lia.
Qed.

(** The next piece: [m] bytes at [o], all in one block, after the first [t]. *)
Lemma over_step f o t m y (x : list Z) p : 0 <= o -> 0 <= t -> 0 <= m -> t + m <= Z.of_nat (length y) -> m <= BSIZE - (o + t) mod BSIZE -> length x = Z.to_nat BSIZE -> 0 <= p ->
  ((p / BSIZE) = (o + t) / BSIZE -> x !!! Z.to_nat (p mod BSIZE) = over f o (take (Z.to_nat t) y) p) ->
  (if p / BSIZE =? (o + t) / BSIZE then splice x ((o + t) mod BSIZE) (slice y t m) !!! Z.to_nat (p mod BSIZE) else over f o (take (Z.to_nat t) y) p)
  = over f o (take (Z.to_nat (t + m)) y) p.
Proof.
  intros Ho Ht Hm Hl Hb Hx Hp HX. unfold BSIZE in *. pose proof (Z.mod_pos_bound (o + t) 1024 ltac:(lia)) as Hr. pose proof (Z.mod_pos_bound p 1024 ltac:(lia)) as Hrp.
  assert (length (slice y t m) = Z.to_nat m) as Hsl by (by apply slice_length).
  assert (forall z, 0 <= z <= Z.of_nat (length y) -> Z.of_nat (length (take (Z.to_nat z) y)) = z) as Htk by (intros z Hz; rewrite length_take; lia).
  assert (forall z w, 0 <= w < z -> take (Z.to_nat z) y !!! Z.to_nat w = y !!! Z.to_nat w) as Hlk.
  { intros z w Hw. rewrite !list_lookup_total_alt. by rewrite lookup_take_lt by lia. }
  destruct (Z.eqb_spec (p / 1024) ((o + t) / 1024)) as [E|E].
  - rewrite splice_at by (rewrite ?Hsl, ?Hx; lia). rewrite (HX E), Hsl, Z2Nat.id by lia. unfold over. rewrite !Htk by lia.
    assert (p - p mod 1024 = (o + t) - (o + t) mod 1024) as Ep by dlia.
    destruct (Z.leb_spec ((o + t) mod 1024) (p mod 1024)) as [H1|H1], (Z.ltb_spec (p mod 1024) ((o + t) mod 1024 + m)) as [H2|H2]; cbn [andb].
    + rewrite slice_at by lia. rewrite (proj2 (Z.leb_le o p)), (proj2 (Z.ltb_lt p _)) by lia. cbn [andb]. rewrite Hlk by lia. f_equal. lia.
    + rewrite (proj2 (Z.ltb_ge p (o + t))), (proj2 (Z.ltb_ge p (o + (t + m)))) by lia. by rewrite !andb_false_r.
    + rewrite (proj2 (Z.ltb_lt p (o + t))), (proj2 (Z.ltb_lt p (o + (t + m)))) by lia. destruct (Z.leb_spec o p); cbn [andb]; [|done]. by rewrite !Hlk by lia.
    + lia.
  - unfold over. rewrite !Htk by lia. assert (p < o + t \/ o + (t + m) <= p) as [H1|H1] by dlia.
    + rewrite (proj2 (Z.ltb_lt p (o + t))), (proj2 (Z.ltb_lt p (o + (t + m)))) by lia. destruct (Z.leb_spec o p); cbn [andb]; [|done]. by rewrite !Hlk by lia.
    + rewrite (proj2 (Z.ltb_ge p (o + t))), (proj2 (Z.ltb_ge p (o + (t + m)))) by lia. by rewrite !andb_false_r.
Qed.

(** The blocks that a range of bytes touches. *)
Definition spans (a b : Z) : Z := if a <? b then (b - 1) / BSIZE - a / BSIZE + 1 else 0.

Lemma aget_insert_eq {A} (l : list A) i v w : aget l i = Some v -> aget (<[Z.to_nat i := w]> l) i = Some w.
Proof. intros H. pose proof (aget_range _ _ _ H). rewrite aget_insert by lia. by rewrite Z.eqb_refl. Qed.

Section Writei.
  Context {U : Type} (P : U -> Prop) (copyin : Z -> list Z -> U -> list Z * bool * U) (u0 : U).
  Context (s : fsst) (q : superblock) (V : Z -> block) (L : list Z) (ip : Z) (v : inode) (src o : Z) (y : list Z).
  Notation n := (Z.of_nat (length y)).
  Context (T : fs_txn s V L []) (OD : on_disk s q) (D : disk_ok q V) (I : inode_ok q V (idata v)).
  Context (Hv : aget (itable s) ip = Some v) (Hd : idev v = 1).
  Context (Hsrc : 0 <= src < 2 ^ 64) (Hcp : copies P copyin src y) (Hu0 : P u0) (Hyb : bytes_ok y).
  Context (Ho : 0 <= o) (Hon : o + n <= MAXFILE * BSIZE) (R : room q L (idata v) (spans o (o + n))).

(** The first [t] bytes have been written. *)
Definition wrote_upto (t : Z) (V1 : Z -> block) (L1 : list Z) (d1 : dinode) (s1 : fsst) : Prop :=
  fs_txn s1 V1 L1 [] /\ same_log s s1 /\ itable s1 = <[Z.to_nat ip := set_idata (ivalid v) d1 v]> (itable s)
  /\ evolves q V (idata v) V1 d1 (over (fb V (idata v)) o (take (Z.to_nat t) y))
  /\ (forall p, o <= p < o + t -> blk V1 d1 (p / BSIZE) <> 0)
  /\ pot q L1 d1 + spans (o + t) (o + n) <= pot q L (idata v) + spans o (o + n).

Definition write_inv (x : io U) (s1 : fsst) : Prop :=
  0 <= tot x <= n /\ off x = o + tot x /\ adr x = u64 (src + tot x) /\ P (usr x) /\ exists V1 L1 d1, wrote_upto (tot x) V1 L1 d1 s1.

(** Why [writei] stopped: all is written, or the disk is full. *)
Definition write_done (x : io U) (s1 : fsst) : Prop :=
  0 <= tot x <= n /\ off x = o + tot x /\ P (usr x)
  /\ exists V1 L1 d1, wrote_upto (tot x) V1 L1 d1 s1 /\ (tot x = n \/ forall j, 0 <= j < sb_size q -> used V1 q j = true).

Lemma write_start : write_inv (mkIo 0 o src u0) s.
Proof.
  split; [cbn; lia|]. split; [cbn; lia|]. split; [cbn; by rewrite Z.add_0_r, u64_small|]. split; [done|]. cbn [tot].
  exists V, L, (idata v). split_and!; try done; [by apply same_itable| | lia | rewrite Z.add_0_r; lia].
  eapply evolves_ext; [by apply evolves_refl|]. intros p _. unfold over. cbn [take Z.to_nat length]. rewrite Z.add_0_r. by destruct (Z.leb_spec o p), (Z.ltb_spec p o); cbn; try lia.
Qed.

(** The body of the loop. *)
Definition write_body (x : io U) : M fsst (io U + io U) :=
  if tot x <? n then
    addr <- bmap ip (off x / BSIZE) ;;
    if addr =? 0 then ret (inr x)
    else
      bp <- fbread 1 addr ;;
      let m := Z.min (u32 (n - tot x)) (BSIZE - off x mod BSIZE) in
      d <- fdata bp ;;
      let '(bytes, ok, u) := copyin (adr x) (slice d (off x mod BSIZE) m) (usr x) in
      fset_data bp (splice d (off x mod BSIZE) bytes) ;;;
      if (ok : bool) then
        flog_write bp ;;;
        fbrelse bp ;;;
        ret (inl (mkIo (u32 (tot x + m)) (u32 (off x + m)) (u64 (adr x + m)) u))
      else
        fbrelse bp ;;;
        ret (inr (mkIo (tot x) (off x) (adr x) u))
  else ret (inr x).

Lemma spans_step t m : 0 <= t -> 0 < m -> t + m <= n -> m = Z.min (n - t) (BSIZE - (o + t) mod BSIZE) -> spans (o + t) (o + n) = 1 + spans (o + (t + m)) (o + n).
Proof.
  intros Ht Hm Hl Em. unfold spans, BSIZE in *. rewrite (proj2 (Z.ltb_lt (o + t) (o + n))) by lia. destruct (Z.ltb_spec (o + (t + m)) (o + n)) as [H|H].
  - assert ((o + (t + m)) = 1024 * ((o + t) / 1024 + 1)) as -> by dlia. dlia.
  - assert ((o + n - 1) / 1024 = (o + t) / 1024) by dlia. lia.
Qed.

(** The piece of the write that goes into one block: after [bmap] has given
    the block [a], the store into it. *)
Lemma wrote_store t m a V2 L2 d2 s2 s4 : 0 <= t -> m = Z.min (n - t) (BSIZE - (o + t) mod BSIZE) -> 0 < m -> t + m <= n ->
  blk V2 d2 ((o + t) / BSIZE) = a -> a <> 0 -> same_log s s2 -> itable s2 = <[Z.to_nat ip := set_idata (ivalid v) d2 v]> (itable s) ->
  evolves q V (idata v) V2 d2 (over (fb V (idata v)) o (take (Z.to_nat t) y)) -> (forall p, o <= p < o + t -> blk V2 d2 (p / BSIZE) <> 0) ->
  pot q L2 d2 - pins L2 a + spans (o + t) (o + n) <= pot q L (idata v) + spans o (o + n) ->
  let V4 := fset V2 a (splice (V2 a) ((o + t) mod BSIZE) (slice y t m)) in
  fs_txn s4 V4 (add_block L2 a) [] -> same_rest s2 s4 -> wrote_upto (t + m) V4 (add_block L2 a) d2 s4.
Proof.
  intros Ht Em Hm Htm Eb Ez Hs2 Hi2 EV2 Hfull2 Hpot V4 T4 Hs4. change (MAXFILE * BSIZE) with 274432 in Hon. set (k := (o + t) / BSIZE) in *.
  assert (0 <= k < 268) as Hk by (unfold k, BSIZE; dlia). pose proof (ev_disk _ _ _ _ _ _ EV2) as D2. pose proof (ev_inode _ _ _ _ _ _ EV2) as I2. pose proof (data_after q (do_sb _ _ D2)) as Hq.
  destruct (io_data _ _ _ I2 k ltac:(unfold bidx; rewrite IND_eq; lia) ltac:(congruence)) as [Har _]. rewrite Eb in Har. pose proof (do_len _ _ D2 a ltac:(lia)) as Hla.
  pose proof (Z.mod_pos_bound (o + t) BSIZE ltac:(done)) as Hr. pose proof (spans_step t m Ht Hm Htm Em) as Hsp. set (x' := splice (V2 a) ((o + t) mod BSIZE) (slice y t m)) in *.
  assert (length x' = Z.to_nat BSIZE) as Hx' by (unfold x'; rewrite splice_length; [done | lia |]; rewrite slice_length, Hla by lia; unfold BSIZE in *; lia).
  pose proof (evolves_store q V2 d2 k x' D2 I2 Hk ltac:(congruence) Hx' ltac:(apply splice_bytes; [apply (do_bytes _ _ D2); lia | by apply slice_bytes])) as EV3. rewrite Eb in EV3.
  assert (forall p, o <= p < o + (t + m) -> bidx (p / BSIZE) /\ blk V2 d2 (p / BSIZE) <> 0) as Hnz.
  { intros p Hp. split; [unfold bidx; rewrite IND_eq; unfold BSIZE; dlia|]. destruct (Z.lt_ge_cases p (o + t)); [by apply Hfull2; lia|].
    assert (p / BSIZE = k) as -> by (unfold k, BSIZE in *; dlia). congruence. }
  split_and!; try done.
  - etransitivity; [done | by apply same_rest_log].
  - destruct Hs4 as (-> & _). done.
  - eapply evolves_ext; [by eapply evolves_trans|]. intros p Hp. unfold in_file in Hp. cbn beta. rewrite (ev_bytes _ _ _ _ _ _ EV2) by done. unfold k, x'.
    apply over_step; try lia; try done. intros Ep. rewrite <- (ev_bytes _ _ _ _ _ _ EV2) by done. unfold fb. rewrite Ep. fold k. rewrite Eb. by rewrite (proj2 (Z.eqb_neq a 0) Ez).
  - intros p Hp. destruct (Hnz p Hp) as [Hb Hn]. by rewrite (ev_old _ _ _ _ _ _ EV3).
  - revert Hpot. unfold pot. rewrite length_add, !pins_add_block. rewrite (proj2 (Z.eqb_neq (bmapstart q) a)) by lia.
    assert (iaddr d2 = 0 \/ (iaddr d2 =? a) = false) as Hia.
    { destruct (decide (iaddr d2 = 0)) as [|H0]; [by left|right]. apply Z.eqb_neq. intros E0. assert (IND = k) as E1; [|rewrite IND_eq in E1; lia].
      apply (io_inj _ _ _ I2); try (unfold bidx; rewrite IND_eq; lia); rewrite ?blk_IND; congruence. }
    destruct Hia as [->| ->]; cbn [Z.eqb]; lia.
Qed.

Lemma write_step x s1 : write_inv x s1 ->
  wp (write_body x) s1 (fun r s2 => match r with inl x' => write_inv x' s2 /\ (Z.to_nat (n - tot x') < Z.to_nat (n - tot x))%nat | inr x' => write_done x' s2 end).
Proof.
  intros (Ht & Eo & Ea & Eu & V1 & L1 & d1 & T1 & Hs1 & Hi1 & EV & Hfull & Hpot). change (MAXFILE * BSIZE) with 274432 in Hon. unfold room in R. unfold write_body.
  destruct (Z.ltb_spec (tot x) n) as [Hlt|Hge].
  2:{ wp_step. split; [done|]. split; [done|]. split; [done|]. exists V1, L1, d1. split; [done|]. left. lia. }
  set (t := tot x) in *. set (m := Z.min (u32 (n - t)) (BSIZE - off x mod BSIZE)).
  assert (m = Z.min (n - t) (BSIZE - (o + t) mod BSIZE)) as Em by (unfold m; rewrite u32_small by lia; by rewrite Eo).
  pose proof (Z.mod_pos_bound (o + t) BSIZE ltac:(done)) as Hr. assert (0 < m /\ t + m <= n) as [Hm Htm] by (unfold BSIZE in *; lia).
  pose proof (spans_step t m ltac:(lia) Hm Htm Em) as Hsp. assert (0 <= spans (o + (t + m)) (o + n)) as Hsp0 by (unfold spans, BSIZE; case_if; dlia).
  assert (on_disk s1 q) as OD1 by (by eapply on_disk_same). assert (aget (itable s1) ip = Some (set_idata (ivalid v) d1 v)) as Hv1 by (rewrite Hi1; by eapply aget_insert_eq).
  set (k := (o + t) / BSIZE). assert (0 <= k < 268) as Hk by (unfold k, BSIZE; dlia). rewrite Eo. fold k.
  wp_step. eapply (bmap_any_wp s1 q V1 L1 ip (set_idata (ivalid v) d1 v) T1 OD1 (ev_disk _ _ _ _ _ _ EV) (ev_inode _ _ _ _ _ _ EV)); [unfold room; cbn [idata set_idata]; lia | done | done | done|].
  intros a s2 (V2 & L2 & d2 & T2 & Hs2 & Hi2 & EV2 & Eb & Hz & Hp2). cbn [idata set_idata ivalid] in *.
  assert (itable s2 = <[Z.to_nat ip := set_idata (ivalid v) d2 v]> (itable s)) as Hi2' by (rewrite Hi2, Hi1; by rewrite list_insert_insert_eq).
  assert (evolves q V (idata v) V2 d2 (over (fb V (idata v)) o (take (Z.to_nat t) y))) as EV2'.
  { eapply evolves_ext; [by eapply evolves_trans|]. intros p Hp. by rewrite (ev_bytes _ _ _ _ _ _ EV). }
  assert (forall i, bidx i -> blk V1 d1 i <> 0 -> blk V2 d2 i <> 0) as Hkeep by (intros i Hi Hn; by rewrite (ev_old _ _ _ _ _ _ EV2)).
  assert (forall p, o <= p < o + t -> blk V2 d2 (p / BSIZE) <> 0) as Hfull2.
  { intros p Hp. apply Hkeep; [|by apply Hfull]. unfold bidx. rewrite IND_eq. unfold BSIZE. dlia. }
  assert (same_log s s2) as Hs02 by (by etransitivity).
  destruct (Z.eqb_spec a 0) as [Ez|Ez].
  { wp_step. split; [done|]. split; [done|]. split; [done|]. exists V2, L2, d2. split; [|right; by apply Hz]. split_and!; try done. fold t. lia. }
  pose proof (ev_disk _ _ _ _ _ _ EV2') as D2. pose proof (ev_inode _ _ _ _ _ _ EV2') as I2. pose proof (data_after q (do_sb _ _ D2)) as Hq.
  assert (on_disk s2 q) as OD2 by (by eapply on_disk_same). pose proof (txn_size _ _ _ _ _ T2 OD2) as Hsz. unfold NBUF in Hsz. pose proof (pot_length q L2 d2) as HpL2. pose proof (pins_cases L2 a) as Hpa.
  destruct (io_data _ _ _ I2 k ltac:(unfold bidx; rewrite IND_eq; lia) ltac:(congruence)) as [Har Hau]. rewrite Eb in Har, Hau.
  assert (fhome s2 a) as Hah by (apply (home_block s2 q); [done | apply D2 | lia]). pose proof (do_len _ _ D2 a ltac:(lia)) as Hla.
  wp_step. eapply (fbread_wp _ _ _ _ T2); [lia | apply not_elem_of_nil | unfold NBUF; cbn; lia |]. intros i s3 T3 Hb3 Hs3 _. cbv zeta.
  wp_step. eapply (fdata_wp _ _ _ _ T3); [done|]. rewrite Ea. fold t.
  assert (length (slice (V2 a) ((o + t) mod BSIZE) m) = Z.to_nat m) as Hsl by (apply slice_length; rewrite ?Hla; unfold BSIZE in *; lia).
  destruct (Hcp t (slice (V2 a) ((o + t) mod BSIZE) m) (usr x) Eu ltac:(lia)) as (u' & -> & Hu'); [rewrite Hsl; lia | rewrite Hsl; unfold BSIZE in *; lia | apply slice_bytes, (do_bytes _ _ D2); lia |]. rewrite Hsl, Z2Nat.id by lia.
  apply wp_seq3. eapply (store_wp _ _ _ _ _ _ _ _ T3); [done | apply not_elem_of_nil | constructor | by eapply fhome_same | |].
  { destruct Hs3 as (_&_&_&_&->&_). rewrite (od_size _ _ OD2). lia. }
  intros s4 T4 Hs4 _. wp_step. split; [|cbn [tot]; rewrite u32_small by lia; lia].
  split; cbn [tot off adr usr]; rewrite !u32_small by lia; [lia|]. split; [lia|].
  split; [unfold u64; rewrite Zplus_mod_idemp_l; f_equal; lia|]. split; [done|].
  eexists _, _, d2. eapply (wrote_store t m a V2 L2 d2 s2); try done; [lia | lia | by etransitivity].
Qed.

(** [writei] returned [r]: the file has the first [r] bytes, its blocks and its
    size are in the inode, and the inode is on the disk. *)
Definition grown (r : Z) (d1 : dinode) : dinode := set_size (Z.max (isize (idata v)) (o + r)) d1.
Definition writei_post (r : Z) (V1 : Z -> block) (L1 : list Z) (d1 : dinode) (s' : fsst) : Prop :=
  0 <= r <= n /\ evolves q V (idata v) V1 d1 (over (fb V (idata v)) o (take (Z.to_nat r) y)) /\ (forall p, o <= p < o + r -> blk V1 d1 (p / BSIZE) <> 0)
  /\ (r = n \/ forall j, 0 <= j < sb_size q -> used V1 q j = true)
  /\ fs_txn s' (put_dino q V1 (inum v) (grown r d1)) (add_block L1 (IBLOCK (inum v) q)) []
  /\ same_log s s' /\ itable s' = <[Z.to_nat ip := set_idata (ivalid v) (grown r d1) v]> (itable s)
  /\ Z.of_nat (length L1) <= pot q L (idata v) + spans o (o + n).

Lemma writei_wp (Q : Z * U -> fsst -> Prop) : o <= isize (idata v) -> 0 <= inum v < ninodes q ->
  (forall r u V1 L1 d1 s', writei_post r V1 L1 d1 s' -> P u -> Q (r, u) s') -> wp (writei copyin u0 ip src o n) s Q.
Proof.
  intros Hos Hin HQ. pose proof Hon as Hon'. change (MAXFILE * BSIZE) with 274432 in Hon'. unfold writei. wp_step. eapply get_inode_wp; [done|].
  rewrite u32_small by lia. rewrite !Z.gtb_ltb, (proj2 (Z.ltb_ge (isize (idata v)) o)), (proj2 (Z.ltb_ge (o + n) o)), (proj2 (Z.ltb_ge _ (o + n))) by (done || lia). cbn [orb].
  rewrite Hd. wp_step. eapply (wp_loop write_inv (fun x => Z.to_nat (n - tot x))); [|apply write_start | cbn; lia].
  intros x1 s1 Hx1. change (wp (write_body x1) s1 (fun r s2 => match r with inl x' => write_inv x' s2 /\ (Z.to_nat (n - tot x') < Z.to_nat (n - tot x1))%nat | inr x' => 
    wp (v0 <- get_inode ip ;; when (off x' >? isize (idata v0)) (mod_inode ip (fun v => set_idata (ivalid v) (set_size (off x') (idata v)) v)) ;;; iupdate ip ;;; ret (i32 (tot x'), usr x')) s2 Q end)).
  eapply wp_mono; [by apply write_step|]. intros [x'|x] s2; [done|]. intros (Ht & Eo & Eu & V1 & L1 & d1 & (T1 & Hs1 & Hi1 & EV & Hfull & Hpot) & Hend).
  assert (aget (itable s2) ip = Some (set_idata (ivalid v) d1 v)) as Hv2 by (rewrite Hi1; by eapply aget_insert_eq).
  assert (isize d1 = isize (idata v)) as Esz by (by rewrite <- (ev_rest _ _ _ _ _ _ EV)). unfold room in R. pose proof (pot_length q L1 d1) as HpL.
  assert (0 <= spans (o + tot x) (o + n)) as Hsp0 by (unfold spans, BSIZE; case_if; dlia).
  wp_step. eapply get_inode_wp; [done|]. cbn [idata set_idata]. rewrite Z.gtb_ltb, Esz, Eo.
  assert (forall s3, fs_txn s3 V1 L1 [] -> same_log s s3 -> itable s3 = <[Z.to_nat ip := set_idata (ivalid v) (grown (tot x) d1) v]> (itable s) ->
    wp (iupdate ip ;;; ret (i32 (tot x), usr x)) s3 Q) as Hfin.
  { intros s3 T3 Hs3 Hi3. wp_step. eapply (iupdate_wp s3 q V1 L1 ip (set_idata (ivalid v) (grown (tot x) d1) v)); try done; [by eapply on_disk_same | apply EV | rewrite Hi3; by eapply aget_insert_eq | lia|].
    intros s4 T4 Hs4. wp_step. rewrite i32_small by lia. apply (HQ _ _ V1 L1 d1); [|done]. split_and!; try done; try lia; [etransitivity; [done | by apply same_rest_log] |].
    destruct Hs4 as (-> & _). done. }
  wp_step. destruct (Z.ltb_spec (isize (idata v)) (o + tot x)) as [Hlt|Hge]; cbn [when].
  - eapply mod_inode_wp; [done|]. apply Hfin; [destruct T1; by constructor | done |]. cbn [set_itable itable]. rewrite Hi1. rewrite list_insert_insert_eq. unfold grown. by rewrite Z.max_r by lia.
  - wp_step. apply Hfin; [done | done |]. rewrite Hi1. f_equal. f_equal. unfold grown. rewrite Z.max_l by lia. rewrite <- Esz. by destruct d1.
Qed.

End Writei.

(** ** What a write does *)

Lemma splice_over f sz o y : 0 <= o <= sz ->
  over f o y <$> seqZ 0 (Z.max sz (o + Z.of_nat (length y))) = splice (f <$> seqZ 0 sz) o y.
Proof.
  intros Ho. set (n := Z.of_nat (length y)). assert (forall a k, 0 <= a -> a + k <= o \/ o + n <= a -> over f o y <$> seqZ a k = f <$> seqZ a k) as Hout.
  { intros a k Ha Hk. apply list_fmap_ext. intros i p Hp%lookup_seqZ. unfold over. fold n. by destruct (Z.leb_spec o p), (Z.ltb_spec p (o + n)); cbn [andb]; try lia. }
  replace (Z.max sz (o + n)) with (o + (n + Z.max 0 (sz - o - n))) by lia. rewrite !seqZ_app by lia. rewrite !fmap_app. rewrite !Z.add_0_l.
  unfold splice. rewrite (Hout 0 o), (Hout (o + n)) by lia. f_equal; [|f_equal].
  - rewrite <- fmap_take. f_equal. replace sz with (o + (sz - o)) by lia. rewrite seqZ_app by lia. rewrite take_app_length'; [done|]. rewrite length_seqZ. lia.
  - apply list_eq. intros i. rewrite list_lookup_fmap. destruct (decide (i < length y)%nat) as [Hi|Hi].
    + rewrite lookup_seqZ_lt by lia. cbn. unfold over. fold n. rewrite (proj2 (Z.leb_le o _)), (proj2 (Z.ltb_lt _ _)) by lia. cbn [andb].
      rewrite list_lookup_lookup_total_lt by done. do 2 f_equal. lia.
    + rewrite lookup_seqZ_ge by lia. cbn. symmetry. apply lookup_ge_None_2. lia.
  - destruct (decide (o + n <= sz)) as [Hle|Hgt].
    + rewrite <- fmap_drop. f_equal. rewrite Z.max_r by lia. replace (seqZ 0 sz) with (seqZ 0 (o + n) ++ seqZ (o + n) (sz - o - n)).
      * rewrite drop_app_length'; [done|]. rewrite length_seqZ. lia.
      * pose proof (seqZ_app 0 (o + n) (sz - o - n) ltac:(lia) ltac:(lia)) as E. rewrite Z.add_0_l in E. rewrite <- E. f_equal. lia.
    + rewrite Z.max_l by lia. rewrite drop_ge by (rewrite length_fmap, length_seqZ; lia). done.
Qed.

(** The bytes of a file up to its size. *)
Definition bytes (V : Z -> block) (d : dinode) : list Z := content V d 0 (isize d).

Lemma bytes_fb q V d : sound q V d -> bytes V d = fb V d <$> seqZ 0 (isize d).
Proof. intros [I Hs F]. eapply content_fb; [exact F | lia | lia | lia | apply Hs]. Qed.

Lemma bytes_same q V V' d : sound q V d -> same_file q V V' d -> bytes V' d = bytes V d.
Proof.
  intros S F. rewrite (bytes_fb q V d S), (bytes_fb q V' d (sf_sound _ _ _ _ F S)). apply list_fmap_ext. intros i p Hp%lookup_seqZ.
  apply (sf_bytes _ _ _ _ F). pose proof (sn_size _ _ _ S). unfold in_file. lia.
Qed.

Lemma inode_fits q V d d' : disk_ok q V -> inode_ok q V d' -> dinode_ok d -> set_addrs (addrs d') d = d' -> forall n, 0 <= n <= MAXFILE * BSIZE -> dinode_ok (set_size n d').
Proof.
  intros D I [K1 K2 K3 K4 K5 K6 K7] E n Hn. change (MAXFILE * BSIZE) with 274432 in Hn. pose proof (data_after q (do_sb _ _ D)) as Hq. pose proof (io_len _ _ _ I) as Hl.
  rewrite <- E. constructor; cbn [set_size set_addrs type major minor nlink isize addrs]; try done; [lia|].
  apply Forall_lookup_2. intros i a Ha. pose proof (lookup_lt_Some _ _ _ Ha) as Hi. assert (bidx (if decide (i = 12%nat) then IND else Z.of_nat i) /\ blk V d' (if decide (i = 12%nat) then IND else Z.of_nat i) = a) as [Hb Eb].
  { case_decide as Hc; [subst i|]; (split; [unfold bidx; rewrite IND_eq; lia|]); [rewrite blk_IND; by apply list_lookup_total_correct |].
    rewrite blk_direct by lia. rewrite Nat2Z.id. by apply list_lookup_total_correct. }
  destruct (decide (a = 0)) as [->|H0]; [lia|]. destruct (io_data _ _ _ I _ Hb) as [Hr _]; [congruence|]. rewrite Eb in Hr. lia.
Qed.

(** The file system after [writei] returned [r]. *)
Record write_result (q : superblock) (s : fsst) (V : Z -> block) (L : list Z) (ip : Z) (v : inode) (o : Z) (y : list Z) (r : Z) (s' : fsst) (V' : Z -> block) (L' : list Z) : Prop := {
  wr_txn : fs_txn s' V' L' [];
  wr_log : same_log s s';
  wr_ret : 0 <= r <= Z.of_nat (length y);
  wr_full : r < Z.of_nat (length y) -> forall j, 0 <= j < sb_size q -> used V' q j = true;
  wr_cons : consistent q V';
  wr_inode : itable s' = <[Z.to_nat ip := set_idata (ivalid v) (dino q V' (inum v)) v]> (itable s);
  wr_fits : dinode_ok (dino q V' (inum v));
  wr_type : type (dino q V' (inum v)) = type (idata v) /\ nlink (dino q V' (inum v)) = nlink (idata v);
  wr_size : isize (dino q V' (inum v)) = Z.max (isize (idata v)) (o + r);
  wr_bytes : bytes V' (dino q V' (inum v)) = splice (bytes V (idata v)) o (take (Z.to_nat r) y);
  wr_others : forall j, live q V j -> j <> inum v -> dino q V' j = dino q V j /\ bytes V' (dino q V' j) = bytes V (dino q V j);
  wr_free : forall j, 0 <= j < ninodes q -> j <> inum v -> dino q V' j = dino q V j;
  wr_count : Z.of_nat (length L') <= Z.of_nat (length L) + spans o (o + Z.of_nat (length y)) + 3;
  wr_low : forall b, b < logstart q -> V' b = V b
}.

Lemma writei_result_wp {U} (P : U -> Prop) (copyin : Z -> list Z -> U -> list Z * bool * U) (u0 : U) s q V L ip v src o y (Q : Z * U -> fsst -> Prop) :
  fs_txn s V L [] -> on_disk s q -> consistent q V -> aget (itable s) ip = Some v -> idev v = 1 -> live q V (inum v) -> idata v = dino q V (inum v) -> dinode_ok (idata v) ->
  0 <= src < 2 ^ 64 -> copies P copyin src y -> P u0 -> bytes_ok y -> 0 <= o <= isize (idata v) -> o + Z.of_nat (length y) <= MAXFILE * BSIZE ->
  Z.of_nat (length L) + spans o (o + Z.of_nat (length y)) + 4 <= nlog q ->
  (forall r u s' V' L', write_result q s V L ip v o y r s' V' L' -> P u -> Q (r, u) s') -> wp (writei copyin u0 ip src o (Z.of_nat (length y))) s Q.
Proof.
  intros T OD C Hv Hd Hl Ed Hk Hsrc Hcp Hu0 Hyb Ho Hon Hroom HQ. pose proof (cs_disk _ _ C) as D. pose proof (cs_sound _ _ C _ Hl) as S. rewrite <- Ed in S.
  assert (pot q L (idata v) <= Z.of_nat (length L) + 2) as Hpot.
  { unfold pot. pose proof (pins_cases L (bmapstart q)). pose proof (pins_cases L (iaddr (idata v))). case_if; lia. }
  pose proof (sn_size _ _ _ S) as Hsz. change (MAXFILE * BSIZE) with 274432 in *.
  eapply (writei_wp P copyin u0 s q V L ip v src o y T OD D (sn_inode _ _ _ S)); try done; [lia | unfold room; lia | lia | apply Hl |].
  intros r u V1 L1 d1 s' (Hr & EV & Hfull & Hend & T' & Hs' & Hi' & HL1) Hu. set (d2 := grown v o r d1) in *.
  assert (Z.of_nat (length (take (Z.to_nat r) y)) = r) as Hlt by (rewrite length_take; lia).
  assert (filled V1 d1 (isize d2)) as Hf2.
  { intros i Hi Hn. cbn [d2 grown set_size isize] in Hn. destruct (Z.lt_ge_cases (i * BSIZE) (isize (idata v))) as [H1|H1].
    - pose proof (sn_filled _ _ _ S i Hi H1) as H0. rewrite (ev_old _ _ _ _ _ _ EV); [done | unfold bidx; rewrite IND_eq; rewrite MAXFILE_eq in Hi; lia | done].
    - replace i with ((i * BSIZE) / BSIZE) by (by rewrite Z.div_mul). apply Hfull. lia. }
  assert (set_addrs (addrs d1) (idata v) = d1) as Er by apply EV.
  assert (isize d1 = isize (idata v) /\ type d1 = type (idata v) /\ nlink d1 = nlink (idata v)) as (Es1 & Et1 & En1) by (by rewrite <- Er).
  assert (dinode_ok d2) as Hk2 by (apply (inode_fits q V1 (idata v) d1); [apply EV | apply EV | done | done |]; change (MAXFILE * BSIZE) with 274432; lia).
  destruct (consistent_update q V (inum v) V1 d1 (over (fb V (idata v)) o (take (Z.to_nat r) y)) d2) as (C2 & Ed2 & Hb2 & Hoth & Hsame); try done.
  { by rewrite <- Ed. }
  { cbn. rewrite Et1, Ed. apply Hl. }
  { cbn [d2 grown set_size isize]. change (MAXFILE * BSIZE) with 274432. lia. }
  assert (sound q (put_dino q V1 (inum v) d2) d2) as S2.
  { rewrite <- Ed2 at 2. apply (cs_sound _ _ C2). split; [apply Hl|]. rewrite Ed2. cbn. rewrite Et1, Ed. apply Hl. }
  apply (HQ r u s' (put_dino q V1 (inum v) d2) (add_block L1 (IBLOCK (inum v) q))); [|done]. constructor; rewrite ?Ed2; try done.
  - intros Hlt' j Hj. destruct Hend as [Hend|Hend]; [lia|]. destruct (put_dino_spec q V1 (inum v) d2 (ev_disk _ _ _ _ _ _ EV) (proj1 Hl)) as (_ & _ & _ & P4 & _); [done|]. rewrite P4 by done. by apply Hend.
  - rewrite (bytes_fb q _ _ S2), (bytes_fb q _ _ S). rewrite <- splice_over by lia. rewrite Hlt. cbn [d2 grown set_size isize]. apply list_fmap_ext.
    intros i p Hp%lookup_seqZ. apply Hb2. unfold in_file. change (MAXFILE * BSIZE) with 274432. lia.
  - intros j Hj Hne. pose proof (Hoth j (proj1 Hj) Hne) as Ej. split; [done|]. rewrite Ej. eapply bytes_same; [by apply (cs_sound _ _ C) | by apply Hsame].
  - pose proof (length_add L1 (IBLOCK (inum v) q)). pose proof (pins_cases L1 (IBLOCK (inum v) q)). lia.
  - intros b Hb. pose proof (iblock_between q (inum v) (do_sb _ _ D) (proj1 Hl)). pose proof (data_after q (do_sb _ _ D)). pose proof (so_log _ (do_sb _ _ D)). unfold put_dino. rewrite fset_ne by lia.
    apply (ev_frame _ _ _ _ _ _ EV); [lia|]. intros [Hn (i & Hi & <-)]. destruct (io_data _ _ _ (ev_inode _ _ _ _ _ _ EV) i Hi Hn). lia.
Qed.

(** C10: [writei] of bytes to a file inside a transaction that has room for the
    blocks it touches and three more: it refuses, changing nothing, an offset
    past the end of the file and a write past the largest file; otherwise it
    returns how many of the bytes it wrote, all unless every block of the disk
    is in use then.  The file is the old one with these bytes at the offset
    and is longer if they reach past its end, across direct and indirect
    blocks and blocks allocated on the way; the inode on the disk is the one in
    memory; every other file has the bytes it had; and a consistent file
    system (sound inodes, no block in two files, no used block without a file)
    stays consistent. *)
Theorem writei_correct {U : Type} (P : U -> Prop) (copyin : Z -> list Z -> U -> list Z * bool * U) (u0 : U) (s : fsst) (q : superblock) (V : Z -> block) (L : list Z)
  (ip : Z) (v : inode) (src o : Z) (y : list Z)
  (T : fs_txn s V L []) (OD : on_disk s q) (C : consistent q V) (Hv : aget (itable s) ip = Some v) (Hd : idev v = 1)
  (Hl : live q V (inum v)) (Ed : idata v = dino q V (inum v)) (Hk : dinode_ok (idata v))
  (Hsrc : 0 <= src < 2 ^ 64) (Hcp : copies P copyin src y) (Hu0 : P u0) (Hyb : bytes_ok y) (Ho : 0 <= o) (Hon : o + Z.of_nat (length y) < 2 ^ 32)
  (Hroom : Z.of_nat (length L) + spans o (o + Z.of_nat (length y)) + 4 <= nlog q) :
  if (isize (idata v) <? o) || (MAXFILE * BSIZE <? o + Z.of_nat (length y)) then
    writei copyin u0 ip src o (Z.of_nat (length y)) s = Ret ((-1, u0), s)
  else
    exists r u s' V' L', writei copyin u0 ip src o (Z.of_nat (length y)) s = Ret ((r, u), s') /\ P u /\ write_result q s V L ip v o y r s' V' L'.
Proof.
  destruct (Z.ltb_spec (isize (idata v)) o) as [H1|H1]; [|destruct (Z.ltb_spec (MAXFILE * BSIZE) (o + Z.of_nat (length y))) as [H2|H2]]; cbn [orb].
  - apply wp_result. unfold writei. wp_step. eapply get_inode_wp; [done|]. rewrite Z.gtb_ltb, (proj2 (Z.ltb_lt _ _) H1). cbn [orb]. by wp_step.
  - apply wp_result. unfold writei. wp_step. eapply get_inode_wp; [done|]. rewrite u32_small by lia.
    rewrite !Z.gtb_ltb, (proj2 (Z.ltb_ge _ o)), (proj2 (Z.ltb_ge (o + _) o)), (proj2 (Z.ltb_lt _ _) H2) by lia. cbn [orb]. by wp_step.
  - destruct (writei_result_wp P copyin u0 s q V L ip v src o y (fun r s' => P (snd r) /\ exists V' L', write_result q s V L ip v o y (fst r) s' V' L')) as ([r u] & s' & E & Hu & V' & L' & HR); try done.
    + intros r u s' V' L' HR Hu. split; [done|]. by exists V', L'.
    + by exists r, u, s', V', L'.
Qed.

(** ** A disk with a file *)

(** Inode 5, the only one, has block 47: a file of three bytes, or the small
    directory of FsData.v. *)
Definition one_dinode (dir : bool) : dinode := mkDinode (if dir then T_DIR else T_FILE) 0 0 1 (if dir then 32 else 3) (47 :: replicate 12 0).
Definition one_inode (dir : bool) : inode := mkInode 1 5 1 None true (one_dinode dir).
Definition one_data (dir : bool) : block := if dir then dir_block else [97; 98; 99] ++ replicate 1021 0.
Definition one_disk (dir : bool) (bn : Z) : block :=
  if bn =? 45 then replicate 6 255 ++ replicate 1018 0
  else if bn =? 32 then wr_dinode zeros 5 (one_dinode dir)
  else if bn =? 47 then one_data dir
  else zeros.
Notation file_dinode := (one_dinode false).
Notation file_inode := (one_inode false).

Lemma one_blocks_at dir V i : bidx i -> blk V (one_dinode dir) i = if i =? 0 then 47 else 0.
Proof.
  intros Hi. unfold bidx in Hi. rewrite IND_eq in Hi. destruct (Z.lt_ge_cases i 12) as [H|H].
  - rewrite blk_direct by done. destruct (Z.eqb_spec i 0) as [->|Hne]; [done|]. cbn [one_dinode addrs]. replace (Z.to_nat i) with (S (Z.to_nat (i - 1))) by lia. cbn [lookup_total list_lookup_total].
    by apply lookup_total_replicate_2; lia.
  - rewrite (proj2 (Z.eqb_neq i 0)) by lia. destruct (Z.eqb_spec i 268) as [->|]; [done|]. by apply blk_hole; [lia|].
Qed.

Lemma one_data_bytes dir : bytes_ok (one_data dir).
Proof.
  assert (forallb (fun x => (0 <=? x) && (x <? 256)) (one_data dir) = true) as H by (destruct dir; vm_compute; reflexivity).
  apply Forall_forall. intros x Hx. rewrite forallb_forall in H. apply list_elem_of_In, H in Hx. bool_prop. lia.
Qed.

Lemma one_consistent dir V : (forall b, 32 <= b < 100 -> V b = one_disk dir b) -> consistent small_sb V.
Proof.
  intros HV.
  assert (forall b, 0 <= b < 100 -> used V small_sb b = (b <? 48)) as Hu.
  { intros b Hb. rewrite used_one by (rewrite BPB_eq; lia). change (bmapstart small_sb) with 45. rewrite HV by lia.
    assert (forallb (fun b => eqb (bit_is (one_disk dir 45) b) (b <? 48)) (seqZ 0 100) = true) as Hall by (destruct dir; vm_compute; reflexivity).
    rewrite forallb_forall in Hall. apply eqb_true_iff, Hall, list_elem_of_In, elem_of_seqZ. lia. }
  assert (forall i, 0 <= i < 200 -> dino small_sb V i = if i =? 5 then (one_dinode dir) else dinode0) as Hdi.
  { intros i Hi. unfold dino, IBLOCK. change (inodestart small_sb) with 32. change IPB with 16. rewrite HV by dlia.
    assert (forallb (fun i => bool_decide (addrs (rd_dinode (one_disk dir (i / 16 + 32)) (i mod 16)) = addrs (if i =? 5 then (one_dinode dir) else dinode0))
      && (type (rd_dinode (one_disk dir (i / 16 + 32)) (i mod 16)) =? type (if i =? 5 then (one_dinode dir) else dinode0))
      && (major (rd_dinode (one_disk dir (i / 16 + 32)) (i mod 16)) =? 0) && (minor (rd_dinode (one_disk dir (i / 16 + 32)) (i mod 16)) =? 0)
      && (nlink (rd_dinode (one_disk dir (i / 16 + 32)) (i mod 16)) =? nlink (if i =? 5 then (one_dinode dir) else dinode0))
      && (isize (rd_dinode (one_disk dir (i / 16 + 32)) (i mod 16)) =? isize (if i =? 5 then (one_dinode dir) else dinode0))) (seqZ 0 200) = true) as Hall by (destruct dir; vm_compute; reflexivity).
    rewrite forallb_forall in Hall. specialize (Hall i). rewrite <- list_elem_of_In, elem_of_seqZ in Hall. specialize (Hall ltac:(lia)). bool_prop. case_bool_decide as Ha; [|done].
    destruct (rd_dinode (one_disk dir (i / 16 + 32)) (i mod 16)). cbn in *. subst. by destruct (i =? 5). }
  assert (forall i, live small_sb V i -> i = 5) as Hlive.
  { intros i [Hi Ht]. change (ninodes small_sb) with 200 in Hi. rewrite Hdi in Ht by done. destruct (Z.eqb_spec i 5); done. }
  assert (disk_ok small_sb V) as D.
  { constructor.
    - constructor; cbn; rewrite ?BPB_eq; unfold datastart; cbn; (lia || (split; [lia | reflexivity]) || idtac).
    - intros b Hb. cbn in Hb. rewrite HV by lia. unfold one_disk. repeat case_if; destruct dir; vm_compute; reflexivity.
    - intros b Hb. cbn in Hb. rewrite HV by lia. unfold one_disk. repeat case_if; try apply wr_dinode_bytes; try apply zeros_bytes; [apply Forall_app; split; by apply Forall_replicate|]. apply one_data_bytes.
    - intros b Hb. change (datastart small_sb) with 47 in Hb. rewrite Hu by lia. apply Z.ltb_lt. lia. }
  constructor; [exact D| | |].
  - intros i Hi. pose proof (proj1 Hi) as Hr. apply Hlive in Hi as ->. rewrite (Hdi 5) by lia. change (if 5 =? 5 then (one_dinode dir) else dinode0) with (one_dinode dir). constructor.
    + constructor; [done| |].
      * intros i Hi. rewrite one_blocks_at by done. case_if; [|done]. intros _. split; [done|]. rewrite Hu by lia. done.
      * intros i j Hi Hj. rewrite !one_blocks_at by done. destruct (Z.eqb_spec i 0), (Z.eqb_spec j 0); done || lia.
    + by destruct dir.
    + intros i Hi Hn. assert (i = 0) as -> by (destruct dir; cbn in Hn; unfold BSIZE in *; lia). done.
  - intros i j Hi%Hlive Hj%Hlive. congruence.
  - intros b Hb Hx. change (datastart small_sb) with 47 in Hb. change (sb_size small_sb) with 100 in Hb. rewrite Hu in Hx by lia. apply Z.ltb_lt in Hx. assert (b = 47) as -> by lia. exists 5.
    unfold live. rewrite (Hdi 5) by lia. split; [by destruct dir|]. split; [done|]. exists 0. split; [|done]. unfold bidx. rewrite IND_eq. lia.
Qed.

Lemma one_mounted dir : exists st, idle 2 30 st /\ (forall b, 32 <= b < 100 -> dsk (bc st) b = one_disk dir b)
  /\ dino small_sb (dsk (bc st)) 5 = one_dinode dir /\ bytes (dsk (bc st)) (one_dinode dir) = take (if dir then 32 else 3) (one_data dir).
Proof.
  destruct (clean_boot (one_disk dir) 1 eq_refl ltac:(done)) as (st & _ & I & Hh).
  assert (forall b, 32 <= b < 100 -> dsk (bc st) b = one_disk dir b) as HV by (intros b Hb; apply Hh; unfold home; lia).
  exists st. split; [done|]. split; [done|]. split; [unfold dino; change (IBLOCK 5 small_sb) with 32; rewrite HV by lia; destruct dir; vm_compute; reflexivity|]. unfold bytes, content.
  assert (forall x, 0 <= x < 32 -> fbyte (dsk (bc st)) (one_dinode dir) x = one_data dir !!! Z.to_nat x) as Hb.
  { intros x Hx. unfold fbyte, BSIZE. rewrite Z.div_small, Z.mod_small by lia. change (faddr _ (one_dinode dir) 0) with 47. by rewrite HV by lia. }
  transitivity ((fun x => one_data dir !!! Z.to_nat x) <$> seqZ 0 (isize (one_dinode dir))); [|destruct dir; vm_compute; reflexivity].
  apply list_fmap_ext. intros i x Hx%lookup_seqZ. apply Hb. destruct dir; cbn in Hx; lia.
Qed.

Lemma one_fits dir : dinode_ok (one_dinode dir).
Proof. destruct dir; constructor; cbn; try (unfold T_FILE, T_DIR; lia); repeat constructor; lia. Qed.

Lemma file_writable y o : 0 <= o <= 3 -> (length y <= 2000)%nat -> exists s V, fs_txn s V [] [] /\ on_disk s small_sb /\ consistent small_sb V /\ aget (itable s) 0 = Some file_inode
  /\ live small_sb V 5 /\ dino small_sb V 5 = file_dinode /\ bytes V file_dinode = [97; 98; 99] /\ dinode_ok file_dinode
  /\ copies (fun _ => True) (kin y) 0 y /\ o + Z.of_nat (length y) < 2 ^ 32 /\ Z.of_nat 0 + spans o (o + Z.of_nat (length y)) + 4 <= nlog small_sb.
Proof.
  intros Ho Hy. destruct (one_mounted false) as (st & Id & HV & E5 & Eb).
  exists (mkFsst (mkLst (set_out 1 false (lg st)) (bc st)) [file_inode] small_sb []), (dsk (bc st)). split_and!; try done.
  - by eapply idle_fs_txn.
  - constructor; cbn; [done | apply (id_start _ _ _ Id) | apply (id_size _ _ _ Id)].
  - by apply (one_consistent false).
  - split; [cbn; lia | by rewrite E5].
  - apply one_fits.
  - apply kin_copies. lia.
  - lia.
  - unfold spans, BSIZE. cbn [nlog small_sb]. case_if; dlia.
Qed.

Lemma writei_correct_witness : exists s s' V' r, writei (kin [120; 121]) tt 0 0 2 2 s = Ret ((r, tt), s') /\ consistent small_sb V'
  /\ bytes V' (dino small_sb V' 5) = splice [97; 98; 99] 2 (take (Z.to_nat r) [120; 121]) /\ writei (kin [120; 121]) tt 0 0 4 2 s = Ret ((-1, tt), s).
Proof.
  destruct (file_writable [120; 121] 2 ltac:(lia) ltac:(cbn; lia)) as (s & V & T & OD & C & Hv & Hl & Ed & Eb & Hk & Hcp & Hon & Hroom).
  pose proof (writei_correct (fun _ => True) (kin [120; 121]) tt s small_sb V [] 0 file_inode 0 2 [120; 121] T OD C Hv eq_refl Hl (eq_sym Ed) Hk ltac:(lia) Hcp ltac:(done) ltac:(repeat constructor; lia) ltac:(lia) Hon Hroom) as (r & [] & s' & V' & L' & E & _ & HR).
  pose proof (writei_correct (fun _ => True) (kin [120; 121]) tt s small_sb V [] 0 file_inode 0 4 [120; 121] T OD C Hv eq_refl Hl (eq_sym Ed) Hk ltac:(lia) Hcp ltac:(done) ltac:(repeat constructor; lia) ltac:(lia) ltac:(reflexivity) ltac:(discriminate)) as E2.
  exists s, s', V', r. split; [exact E|]. split; [apply HR|]. split; [|exact E2]. rewrite <- Eb. apply HR.
Defined.
