(* ===== verification/FsAtomic.v ===== *)
(** * File-system calls as transactions

    An operation between [begin_op] and [end_op] ends with what it did on the
    disk, and a machine that stops anywhere on the way starts again with all of
    it or nothing.  For a write to a file this means that the disk is
    consistent after every crash and that the file has its old bytes or the
    new ones. *)

From S2P Require Import Prelude KString Bytes Bio Log LogThms Fs FsThms FsData FsFile FsWrite.

(** ** Transactions *)

Definition transaction {A} (m : M fsst A) : M fsst A :=
  ok <- onl begin_op ;;
  if (ok : bool) then r <- m ;; onl end_op ;;; ret r else diverge.

(** The disk of a state. *)
Definition disk (s : fsst) : Z -> block := dsk (bc (fs_log s)).

(** Nobody is in a transaction of the file system of [q]. *)
Record quiet (q : superblock) (s : fsst) : Prop := {
  qt_idle : idle (logstart q) (nlog q) (fs_log s);
  qt_sb : sb s = q
}.

(** The disks that the writes [W] to [D] can be stopped at, with the crashes
    during the recoveries that follow. *)
Definition crashed (q : superblock) (pid : Z) (D : Z -> block) (W : list (Z * block)) (d : Z -> block) : Prop :=
  exists k, crash_disk (logstart q) (nlog q) pid D W k d.

(** The same blocks outside the log. *)
Definition agree_home (q : superblock) (V V' : Z -> block) : Prop := forall b, home (logstart q) (nlog q) b -> V' b = V b.

(** A disk from which recovery leads to [T], with blocks of [T] and [D]. *)
Definition leads (q : superblock) (D T d : Z -> block) : Prop := exists L, recoverable (logstart q) (nlog q) D T L d.

(** What a transaction that ended with the contents [V] has done. *)
Record committed (q : superblock) (s : fsst) (V : Z -> block) (s' : fsst) : Prop := {
  cm_quiet : quiet q s';
  cm_disk : agree_home q V (disk s');
  cm_crash : exists W, wrote (bc (fs_log s')) = wrote (bc (fs_log s)) ++ W /\ disk s' = apply_writes (disk s) W
    /\ forall k, leads q (disk s) (disk s) (apply_writes (disk s) (take k W)) \/ leads q (disk s) V (apply_writes (disk s) (take k W))
}.

(** A boot on such a disk. *)
Lemma leads_boot q s D T W k pid d : quiet q s -> leads q D T (apply_writes D (take k W)) -> crash_disk (logstart q) (nlog q) pid D W k d ->
  exists st, boot (logstart q) (nlog q) (booted d pid) = Ret (tt, st) /\ idle (logstart q) (nlog q) st /\ agree_home q T (dsk (bc st)).
Proof.
  intros [Id _] HL Hd. destruct (idle_bounds _ _ _ Id) as (I1 & I2 & I3). destruct (crash_recoverable _ _ D I1 I2 I3 T pid D W k d HL Hd) as [L HR].
  destruct (boot_recovers _ _ D I1 I2 I3 T L d pid HR) as (st & E & I4 & Hh & _). by exists st.
Qed.

Lemma txn_in_txn s1 s2 V L : fs_txn s2 V L [] -> same_log s1 s2 -> log_ok (lg (fs_log s1)) -> in_txn (lg (fs_log s1)) (fs_log s2) V L.
Proof.
  intros [OK HL Ho C] (_ & Es & Ez & _ & _ & _ & Eo & Ec) OK1. constructor; try done.
  - destruct (lg (fs_log s1)) as [a1 a2 a3 a4 a5 a6 a7], (lg (fs_log s2)) as [b1 b2 b3 b4 b5 b6 b7]. cbn in *.
    pose proof (lo_dev _ OK1). pose proof (lo_dev _ OK). cbn in *. unfold set_lh. cbn. congruence.
  - eapply cache_ext; [exact C | done | | intros x; by rewrite elem_of_nil]. intros x. unfold refs. rewrite (pins_notin []) by apply not_elem_of_nil. lia.
Qed.

(** Inside a transaction that has just begun. *)
Record begun (q : superblock) (s s1 : fsst) : Prop := {
  bn_txn : fs_txn s1 (disk s) [] [];
  bn_on : on_disk s1 q;
  bn_table : itable s1 = itable s;
  bn_disk : disk s1 = disk s;
  bn_wrote : wrote (bc (fs_log s1)) = wrote (bc (fs_log s));
  bn_out : outstanding (lg (fs_log s1)) = 1 /\ committing (lg (fs_log s1)) = false
}.

Lemma begin_wp q s (Q : bool -> fsst -> Prop) : quiet q s -> (forall s1, begun q s s1 -> Q true s1) -> wp (onl begin_op) s Q.
Proof.
  intros [Id Hsb] HQ. unfold onl. apply wp_zoom. unfold begin_op. wp_step. wp_step.
  rewrite (id_com _ _ _ Id), (id_n _ _ _ Id), (id_out _ _ _ Id). replace (0 + (0 + 1) * MAXOPBLOCKS >? LOGSIZE) with false by reflexivity.
  wp_step. unfold log_modify. wp_step. wp_step. apply HQ. destruct s as [[l b] t q0 ms]. cbn [fs_log lg bc sb itable set_log disk] in *. subst q0.
  constructor; try done; [exact (idle_fs_txn _ _ (mkLst l b) t q ms Id)|].
  constructor; cbn; [done | apply (id_start _ _ _ Id) | apply (id_size _ _ _ Id)].
Qed.

Lemma end_wp q s s1 s2 V L (Q : unit -> fsst -> Prop) : quiet q s -> begun q s s1 -> fs_txn s2 V L [] -> same_log s1 s2 ->
  (forall s3, committed q s V s3 -> itable s3 = itable s2 -> Q tt s3) -> wp (onl end_op) s2 Q.
Proof.
  intros [Id Hsb] [T1 [O1 O2 O3] _ B2 B3 [B4 B5]] T2 Hs2 HQ. unfold disk in *. destruct (idle_bounds _ _ _ Id) as (I1 & I2 & I3). pose proof (idle_recoverable _ _ (dsk (bc (fs_log s))) _ Id) as HR.
  assert (dsk (bc (fs_log s2)) = dsk (bc (fs_log s))) as Hd2 by (destruct Hs2 as (_&_&_&->&_); done). assert (wrote (bc (fs_log s2)) = wrote (bc (fs_log s))) as Hw2 by (destruct Hs2 as (_&_&_&_&_&->&_); done).
  unfold onl. apply wp_zoom. eapply (end_op_wp (lg (fs_log s1)) (dsk (bc (fs_log s))) (fs_log s2) V L); [apply (txn_in_txn s1); try done; apply T1 | done | done | by rewrite O2, O3 | done | |].
  { intros bn Hbn. destruct (clean_block _ _ _ _ bn T2 (not_elem_of_nil _)) as [|E]; [done|]. by etransitivity; [|rewrite <- Hd2]. }
  rewrite O2, O3. intros st' W Id' Hw HW Hh Hk. apply HQ; [|done]. constructor; cbn [fs_log set_log disk].
  - constructor; [exact Id'|]. cbn. by destruct Hs2 as (-> & _).
  - exact Hh.
  - exists W. split; [cbn; by rewrite Hw, Hw2|]. split; [exact HW|]. intros k. destruct (Hk k) as (T & L' & [-> | ->] & HT); [left | right]; by exists L'.
Qed.

Lemma transaction_wp {A} q s (m : M fsst A) (Q : A -> fsst -> Prop) : quiet q s ->
  (forall s1, begun q s s1 -> wp m s1 (fun r s2 => exists V L, fs_txn s2 V L [] /\ same_log s1 s2 /\ forall s3, committed q s V s3 -> itable s3 = itable s2 -> Q r s3)) ->
  wp (transaction m) s Q.
Proof.
  intros Qt HM. unfold transaction. wp_step. eapply begin_wp; [done|]. intros s1 B. wp_step. eapply wp_mono; [by apply HM|].
  intros r s2 (V & L & T2 & Hs2 & HQ). wp_step. eapply end_wp; [done..|]. intros s3 C3 E3. wp_step. by apply HQ.
Qed.

(** ** Contents that agree outside the log *)

Definition agree (q : superblock) (V V' : Z -> block) : Prop := forall b, logstart q + nlog q <= b < sb_size q -> V' b = V b.

Lemma home_agree q V V' : agree_home q V V' -> agree q V V'.
Proof. intros H b Hb. apply H. unfold home. lia. Qed.

Section Agree.
  Context (q : superblock) (V V' : Z -> block) (Ag : agree q V V') (C : consistent q V).

Lemma agree_dino i : 0 <= i < ninodes q -> dino q V' i = dino q V i.
Proof.
  intros Hi. unfold dino. rewrite Ag; [done|]. pose proof (iblock_between q i (do_sb _ _ (cs_disk _ _ C)) Hi). pose proof (data_after q (do_sb _ _ (cs_disk _ _ C))). lia.
Qed.
Lemma agree_used b : 0 <= b < sb_size q -> used V' q b = used V q b.
Proof.
  intros Hb. pose proof (data_after q (do_sb _ _ (cs_disk _ _ C))). rewrite !used_one by (rewrite BPB_eq; lia). by rewrite Ag by lia.
Qed.
Lemma agree_live i : live q V' i <-> live q V i.
Proof. unfold live. split; intros [Hi Ht]; (split; [done|]); [rewrite agree_dino in Ht by done | rewrite agree_dino by done]; done. Qed.
Lemma agree_file i : live q V i -> same_file q V V' (dino q V i).
Proof.
  intros Hi. pose proof (sn_inode _ _ _ (cs_sound _ _ C i Hi)) as I. pose proof (data_after q (do_sb _ _ (cs_disk _ _ C))). apply same_file_intro; [done|].
  intros b [Hn (k & Hk & <-)]. destruct (io_data _ _ _ I k Hk Hn) as [Hr Hu]. split; [apply Ag; lia|]. by rewrite agree_used by lia.
Qed.
Lemma agree_bytes i : live q V i -> bytes V' (dino q V' i) = bytes V (dino q V i).
Proof. intros Hi. rewrite agree_dino by apply Hi. eapply bytes_same; [by apply (cs_sound _ _ C) | by apply agree_file]. Qed.
Lemma agree_consistent : consistent q V'.
Proof.
  pose proof (data_after q (do_sb _ _ (cs_disk _ _ C))) as Hq. constructor.
  - constructor; [apply C | | |].
    + intros b Hb. rewrite Ag by done. by apply (do_len _ _ (cs_disk _ _ C)).
    + intros b Hb. rewrite Ag by done. by apply (do_bytes _ _ (cs_disk _ _ C)).
    + intros b Hb. rewrite agree_used by lia. by apply (do_meta _ _ (cs_disk _ _ C)).
  - intros i Hi. apply agree_live in Hi. rewrite agree_dino by apply Hi. eapply sf_sound; [by apply agree_file | by apply (cs_sound _ _ C)].
  - intros i j Hi Hj Hne. apply agree_live in Hi, Hj. rewrite !agree_dino by (apply Hi || apply Hj). intros b.
    rewrite (sf_owns q V V') by (by apply agree_file). rewrite (sf_owns q V V') by (by apply agree_file). by apply (cs_apart _ _ C).
  - intros b Hb Hu. rewrite agree_used in Hu by lia. destruct (cs_owner _ _ C b Hb Hu) as (i & Hi & Ho). exists i. rewrite agree_live. split; [done|].
    rewrite agree_dino by apply Hi. by apply (sf_owns q V V'); [apply agree_file|].
Qed.

End Agree.

(** ** Writing to a file *)

Lemma ilock_valid_wp s ip v (Q : unit -> fsst -> Prop) : aget (itable s) ip = Some v -> 1 <= ref v -> ilk v = None -> ivalid v = true ->
  Q tt (set_itable (<[Z.to_nat ip := set_ilk (Some (me (bc (fs_log s)))) v]> (itable s)) s) -> wp (ilock ip) s Q.
Proof.
  intros Hv Hr Hl Hva HQ. pose proof (aget_range _ _ _ Hv) as Hrange. unfold ilock. wp_step. eapply get_inode_wp; [done|].
  rewrite (proj2 (Z.ltb_ge _ _)) by lia. wp_step. unfold iacquiresleep, put_inode. wp_step. eapply get_inode_wp; [done|]. do 2 wp_step. rewrite Hl.
  do 2 wp_step. wp_step. eapply wp_from_option; [by apply aset_is_Some|]. wp_step. wp_step. eapply get_inode_wp; [cbn [set_itable itable]; by eapply aget_insert_eq|].
  change (ivalid (set_ilk _ v)) with (ivalid v). rewrite Hva. cbn [negb]. by wp_step.
Qed.

Lemma iunlock_wp s ip v (Q : unit -> fsst -> Prop) : aget (itable s) ip = Some v -> 1 <= ref v -> ilk v = Some (me (bc (fs_log s))) ->
  Q tt (set_itable (<[Z.to_nat ip := set_ilk None v]> (itable s)) s) -> wp (iunlock ip) s Q.
Proof.
  intros Hv Hr Hl HQ. unfold iunlock, ireleasesleep. wp_step. eapply get_inode_wp; [done|]. do 2 wp_step.
  rewrite bool_decide_true by done. rewrite (proj2 (Z.ltb_ge _ _)) by lia. cbn [negb orb]. by eapply mod_inode_wp.
Qed.

(** An entry of the inode table that has the inode as it is on the disk. *)
Record cached (q : superblock) (V : Z -> block) (v : inode) : Prop := {
  ca_dev : idev v = 1;
  ca_live : live q V (inum v);
  ca_same : idata v = dino q V (inum v);
  ca_fits : dinode_ok (idata v);
  ca_valid : ivalid v = true;
  ca_ref : 1 <= ref v
}.

(** One round of [filewrite] (kernel/file.c), from [begin_op] to [end_op]. *)
Definition write_op {U} (copyin : Z -> list Z -> U -> list Z * bool * U) (u0 : U) (ip src o n : Z) : M fsst (Z * U) :=
  transaction (ilock ip ;;; r <- writei copyin u0 ip src o n ;; iunlock ip ;;; ret r).

(** The disk [D'] has the file of inode [i] with [y] written at [o], and the
    other files of [D]. *)
Record file_written (q : superblock) (D : Z -> block) (i o : Z) (y : list Z) (D' : Z -> block) : Prop := {
  fw_cons : consistent q D';
  fw_bytes : bytes D' (dino q D' i) = splice (bytes D (dino q D i)) o y;
  fw_size : isize (dino q D' i) = Z.max (isize (dino q D i)) (o + Z.of_nat (length y));
  fw_others : forall j, live q D j -> j <> i -> dino q D' j = dino q D j /\ bytes D' (dino q D' j) = bytes D (dino q D j)
}.

Lemma file_written_agree q D i o y V V' : agree q V V' -> live q V i -> (forall j, live q D j -> live q V j) -> file_written q D i o y V -> file_written q D i o y V'.
Proof.
  intros Ag Hi Hlv [H1 H2 H3 H4]. constructor.
  - by eapply agree_consistent.
  - rewrite (agree_bytes q V V') by done. exact H2.
  - rewrite (agree_dino q V V') by (done || apply Hi). exact H3.
  - intros j Hj Hne. destruct (H4 j Hj Hne) as [E1 E2]. rewrite (agree_bytes q V V'), (agree_dino q V V') by (done || apply Hj || by apply Hlv). done.
Qed.

(** The largest write of one round fits the blocks that an operation may log. *)
Lemma spans_max o n : 0 <= o -> 0 <= n <= 3072 -> 0 <= spans o (o + n) <= 4.
Proof. intros Ho Hn. unfold spans, BSIZE. case_if; dlia. Qed.

Lemma write_op_wp {U} (P : U -> Prop) (copyin : Z -> list Z -> U -> list Z * bool * U) u0 s q ip v src o y (Q : Z * U -> fsst -> Prop) :
  quiet q s -> consistent q (disk s) -> MAXOPBLOCKS <= nlog q -> aget (itable s) ip = Some v -> cached q (disk s) v -> ilk v = None ->
  0 <= src < 2 ^ 64 -> copies P copyin src y -> P u0 -> bytes_ok y -> Z.of_nat (length y) <= 3072 -> 0 <= o <= isize (idata v) -> o + Z.of_nat (length y) <= MAXFILE * BSIZE ->
  (forall r u V s', P u -> 0 <= r <= Z.of_nat (length y) -> (r < Z.of_nat (length y) -> forall j, 0 <= j < sb_size q -> used V q j = true) ->
     file_written q (disk s) (inum v) o (take (Z.to_nat r) y) V -> live q V (inum v) -> (forall j, live q (disk s) j -> live q V j) ->
     (forall b, b < logstart q -> V b = disk s b) -> committed q s V s' -> itable s' = <[Z.to_nat ip := set_idata true (dino q V (inum v)) v]> (itable s) -> Q (r, u) s') ->
  wp (write_op copyin u0 ip src o (Z.of_nat (length y))) s Q.
Proof.
  intros Qt C Hn Hv [Hd Hlv Es Hk Hva Hrf] Hl Hsrc Hcp Hu0 Hyb Hy Ho Hon HQ. apply (transaction_wp q); [done|]. intros s1 [T1 OD1 Ei1 Ed1 _ _].
  wp_step. eapply ilock_valid_wp; [by rewrite Ei1 | done | done | done |]. rewrite Ei1. set (p := me _). set (v1 := set_ilk (Some p) v). set (s2 := set_itable _ s1).
  assert (fs_txn s2 (disk s) [] []) as T2 by (by apply txn_itable). assert (aget (itable s2) ip = Some v1) as Hv2 by (cbn; by eapply aget_insert_eq).
  unfold MAXOPBLOCKS in Hn. pose proof (spans_max o (Z.of_nat (length y)) ltac:(lia) ltac:(lia)).
  wp_step. eapply (writei_result_wp P copyin u0 s2 q (disk s) [] ip v1 src o y); try done; [by destruct OD1 | cbn; lia |].
  intros r u s3 V' L' [W1 W2 W3 W4 W5 W6 W6' W7 W8 W9 W10 W11 W12 W13] Hu. cbn [v1 set_ilk inum idata ivalid] in *.
  assert (set_idata (ivalid v) (dino q V' (inum v)) v1 = mkInode (idev v) (inum v) (ref v) (Some p) true (dino q V' (inum v))) as Ev3 by (rewrite Hva; done).
  assert (itable s3 = <[Z.to_nat ip := mkInode (idev v) (inum v) (ref v) (Some p) true (dino q V' (inum v))]> (itable s)) as Ei3.
  { rewrite W6. cbn [s2 itable set_itable]. by rewrite list_insert_insert_eq, Ev3. }
  assert (me (bc (fs_log s3)) = p) as Em3 by (destruct W2 as (_&_&_&_&->&_); done).
  wp_step. eapply iunlock_wp; [rewrite Ei3; by eapply aget_insert_eq | done | cbn; by rewrite Em3 |]. wp_step.
  exists V', L'. split; [by apply txn_itable|]. split; [exact W2|]. intros s4 Cm Ei4.
  assert (live q V' (inum v)) as Hlv' by (split; [apply Hlv|]; destruct W7 as [-> _]; rewrite Es; apply Hlv).
  apply (HQ r u V' s4); try done.
  - constructor; [done | by rewrite W9, Es | |].
    + rewrite W8, Es. rewrite length_take. f_equal. lia.
    + intros j Hj Hne. apply W10; [done | done].
  - intros j Hj. destruct (decide (j = inum v)) as [->|Hne]; [done|]. split; [apply Hj|]. rewrite W11 by (apply Hj || done). apply Hj.
  - rewrite Ei4. cbn [itable set_itable]. rewrite Ei3, list_insert_insert_eq. f_equal. unfold set_ilk, set_idata. cbn. by rewrite Hl.
Qed.

(** The files of [D'] are those of [D]. *)
Record unchanged (q : superblock) (D D' : Z -> block) : Prop := {
  un_cons : consistent q D';
  un_files : forall j, live q D j -> dino q D' j = dino q D j /\ bytes D' (dino q D' j) = bytes D (dino q D j)
}.

Lemma unchanged_agree q D D' : consistent q D -> agree q D D' -> unchanged q D D'.
Proof. intros C Ag. constructor; [by eapply agree_consistent|]. intros j Hj. split; [by apply agree_dino; [done | done | apply Hj] | by apply agree_bytes]. Qed.

(** C9: one round of [filewrite], from [begin_op] to [end_op], on a consistent
    file system that no other operation uses: it returns the number of bytes
    written, all of at most three blocks unless the disk is full; the disk is
    consistent, has the file with these bytes at the offset and all other files
    as they were, and the log is empty again.  Wherever the machine stops on
    the way, and however often it stops again during recovery, the next boot
    finds a consistent file system, in which either every file is as before the
    write or the write is complete. *)
Theorem write_atomic {U : Type} (P : U -> Prop) (copyin : Z -> list Z -> U -> list Z * bool * U) (u0 : U) (s : fsst) (q : superblock) (ip : Z) (v : inode) (src o : Z) (y : list Z)
  (Qt : quiet q s) (C : consistent q (disk s)) (Hn : MAXOPBLOCKS <= nlog q) (Hv : aget (itable s) ip = Some v) (Hc : cached q (disk s) v) (Hl : ilk v = None)
  (Hsrc : 0 <= src < 2 ^ 64) (Hcp : copies P copyin src y) (Hu0 : P u0) (Hyb : bytes_ok y) (Hy : Z.of_nat (length y) <= 3 * BSIZE) (Ho : 0 <= o <= isize (idata v))
  (Hon : o + Z.of_nat (length y) <= MAXFILE * BSIZE) :
  exists r u s' W, write_op copyin u0 ip src o (Z.of_nat (length y)) s = Ret ((r, u), s') /\ P u /\ quiet q s'
    /\ 0 <= r <= Z.of_nat (length y) /\ (r < Z.of_nat (length y) -> forall j, 0 <= j < sb_size q -> used (disk s') q j = true)
    /\ file_written q (disk s) (inum v) o (take (Z.to_nat r) y) (disk s')
    /\ aget (itable s') ip = Some (set_idata true (dino q (disk s') (inum v)) v)
    /\ wrote (bc (fs_log s')) = wrote (bc (fs_log s)) ++ W
    /\ forall pid d, crashed q pid (disk s) W d -> exists st, boot (logstart q) (nlog q) (booted d pid) = Ret (tt, st) /\ idle (logstart q) (nlog q) st
         /\ (unchanged q (disk s) (dsk (bc st)) \/ file_written q (disk s) (inum v) o (take (Z.to_nat r) y) (dsk (bc st))).
Proof.
  cut (wp (write_op copyin u0 ip src o (Z.of_nat (length y))) s (fun r s' => exists W, P (snd r) /\ quiet q s'
    /\ 0 <= fst r <= Z.of_nat (length y) /\ (fst r < Z.of_nat (length y) -> forall j, 0 <= j < sb_size q -> used (disk s') q j = true)
    /\ file_written q (disk s) (inum v) o (take (Z.to_nat (fst r)) y) (disk s')
    /\ aget (itable s') ip = Some (set_idata true (dino q (disk s') (inum v)) v)
    /\ wrote (bc (fs_log s')) = wrote (bc (fs_log s)) ++ W
    /\ forall pid d, crashed q pid (disk s) W d -> exists st, boot (logstart q) (nlog q) (booted d pid) = Ret (tt, st) /\ idle (logstart q) (nlog q) st
         /\ (unchanged q (disk s) (dsk (bc st)) \/ file_written q (disk s) (inum v) o (take (Z.to_nat (fst r)) y) (dsk (bc st))))).
  { intros ([r u] & s' & E & W & HR). by exists r, u, s', W. }
  eapply (write_op_wp P copyin u0 s q ip v src o y); try done. intros r u V s' Hu Hr Hfull F Hlv Hsub _ [Cq Cd (W & HW & _ & HC)] Ei. exists W. cbn [fst snd].
  assert (agree q V (disk s')) as Ag by (by apply home_agree). pose proof (fw_cons _ _ _ _ _ _ F) as CV. split_and!; try done; try lia.
  - intros Hlt j Hj. rewrite (agree_used q V) by done. by apply Hfull.
  - by eapply file_written_agree.
  - rewrite Ei. rewrite (agree_dino q V (disk s')) by (done || apply Hlv). by eapply aget_insert_eq.
  - intros pid d [k Hd]. destruct (HC k) as [H|H]; destruct (leads_boot q s _ _ W k pid d Qt H Hd) as (st & E & I & Hh); exists st; (split; [done|]); (split; [done|]).
    + left. by apply unchanged_agree; [|apply home_agree].
    + right. by eapply file_written_agree; [apply home_agree | ..].
Qed.

(** The small disk with one file, mounted. *)
Lemma file_quiet : exists s, quiet small_sb s /\ consistent small_sb (disk s) /\ aget (itable s) 0 = Some file_inode /\ cached small_sb (disk s) file_inode
  /\ bytes (disk s) (dino small_sb (disk s) 5) = [97; 98; 99].
Proof.
  destruct (one_mounted false) as (st & Id & HV & Ed & Eb). exists (mkFsst st [file_inode] small_sb []). pose proof (one_consistent false _ HV) as C. unfold disk. cbn [fs_log itable sb]. split_and!; try done.
  - constructor; try done; [|apply one_fits]. split; [done|]. change (inum file_inode) with 5. by rewrite Ed.
  - by rewrite Ed.
Qed.

Lemma write_atomic_witness : exists s s' r W st, write_op (kin [120; 121]) tt 0 0 2 2 s = Ret ((r, tt), s')
  /\ bytes (disk s') (dino small_sb (disk s') 5) = splice [97; 98; 99] 2 (take (Z.to_nat r) [120; 121])
  /\ boot 2 30 (booted (apply_writes (disk s) (take 3 W)) 1) = Ret (tt, st) /\ consistent small_sb (dsk (bc st)).
Proof.
  destruct file_quiet as (s & Qt & C & Hv & Hc & Eb).
  destruct (write_atomic (fun _ => True) (kin [120; 121]) tt s small_sb 0 file_inode 0 2 [120; 121] Qt C) as (r & [] & s' & W & E & _ & _ & _ & _ & F & _ & _ & HC).
  - discriminate.
  - exact Hv.
  - exact Hc.
  - reflexivity.
  - lia.
  - apply kin_copies. reflexivity.
  - exact Logic.I.
  - repeat constructor; lia.
  - discriminate.
  - cbn. lia.
  - discriminate.
  - destruct (HC 1 (apply_writes (disk s) (take 3 W)) (ex_intro _ 3%nat (crash_running 2 30 1 _ W 3))) as (st & E2 & _ & Hst).
    exists s, s', r, W, st. split; [exact E|]. split; [rewrite <- Eb; exact (fw_bytes _ _ _ _ _ _ F)|]. split; [exact E2|].
    destruct Hst as [Hst|Hst]; apply Hst.
Defined.
