(* ===== verification/FsDir.v ===== *)
(** * Directories as maps from names to inodes

    [dirlink] adds an entry to a directory and changes no other: the names of
    the directory and their inodes are a finite map, and [dirlink] inserts into
    it. *)

From S2P Require Import Prelude KString Bytes Bio Log LogThms Fs FsThms FsData FsFile FsWrite FsAtomic.

(** ** The entry of a name *)

Lemma cname_length n l : (length (cname n l) <= n)%nat.
Proof. revert l. induction n as [|n IH]; intros [|c l]; cbn [cname length]; try lia. case_if; cbn; [lia|]. specialize (IH l). lia. Qed.
Lemma cname_nonzero n l : Forall (fun c => c <> 0) (cname n l).
Proof. revert l. induction n as [|n IH]; intros [|c l]; cbn [cname]; try by constructor. case_if; constructor; auto. Qed.
Lemma cname_nth n l j : (j < length (cname n l))%nat -> cname n l !! j = Some (nth j l 0).
Proof.
  revert l j. induction n as [|n IH]; intros [|c l] j; cbn [cname length]; try lia. case_if; cbn [length]; [lia|]. intros Hj. destruct j as [|j]; [done|]. change (cname n l !! j = Some (nth j l 0)). apply IH. lia.
Qed.
Lemma cname_stop n l : (length (cname n l) < n)%nat -> nth (length (cname n l)) l 0 = 0.
Proof.
  revert l. induction n as [|n IH]; intros [|c l]; cbn [cname length]; try lia; [done|]. case_if; cbn [length nth]; [done|]. intros H. apply IH. lia.
Qed.
Lemma cname_more n l : (length l <= n)%nat -> cname (S n) l = cname n l.
Proof.
  revert l. induction n as [|n IH]; intros [|c l] Hl; cbn [length] in Hl; try lia; [done..|]. change (cname (S (S n)) (c :: l)) with (if c =? 0 then [] else c :: cname (S n) l).
  change (cname (S n) (c :: l)) with (if c =? 0 then [] else c :: cname n l). rewrite IH by lia. done.
Qed.
Lemma cname_zeros n l k : Forall (fun c => c <> 0) l -> (length l <= n)%nat -> cname n (l ++ replicate k 0) = l.
Proof.
  intros H. revert n. induction H as [|c l Hc _ IH]; intros n Hn; cbn [app].
  - destruct n, k; done.
  - destruct n as [|n]; cbn [length] in Hn; [lia|]. cbn [cname]. rewrite (proj2 (Z.eqb_neq c 0) Hc). f_equal. apply IH. lia.
Qed.

(** [strncpy] of a name: its characters, then zeros. *)
Lemma strncpy_name name : (length name <= 14)%nat ->
  (strncpy 1000 0 DIRSIZ (two_strings name []) <$> seqZ 1000 DIRSIZ) = dname name ++ replicate (14 - length (dname name)) 0.
Proof.
  intros Hn. change (dname name) with (cname 14 name). change DIRSIZ with 14. set (len := length (cname 14 name)). pose proof (cname_length 14 name) as Hlen. fold len in Hlen.
  assert (forall i, (i < len)%nat -> cname 14 name !! i = Some (nth i name 0)) as Hnth by (intros i Hi; by apply cname_nth).
  assert (nth len name 0 = 0) as Hstop.
  { unfold len. rewrite <- cname_more by done. apply cname_stop. rewrite cname_more by done. fold len. lia. }
  assert (cstr (two_strings name []) 0 (Z.of_nat len)) as Hc.
  { split; [lia|]. destruct (two_strings_at name [] (Z.of_nat len) ltac:(lia)) as [E _]. rewrite Z.add_0_l. split; [rewrite E, Nat2Z.id; done|]. intros i Hi. rewrite Z.add_0_l.
    destruct (two_strings_at name [] i ltac:(lia)) as [-> _]. pose proof (Hnth (Z.to_nat i) ltac:(lia)) as Hx. by apply (Forall_lookup_1 _ _ _ _ (cname_nonzero 14 name) Hx). }
  apply list_eq. intros i. rewrite list_lookup_fmap. destruct (decide (i < 14)%nat) as [Hi|Hi].
  - rewrite lookup_seqZ_lt by lia. cbn [fmap option_fmap option_map]. rewrite (strncpy_spec 1000 0 (Z.of_nat len)) by (done || lia).
    rewrite (proj2 (Z.leb_le 1000 _)), (proj2 (Z.ltb_lt (1000 + _) _)) by lia. cbn [andb]. replace (1000 + Z.of_nat i - 1000) with (Z.of_nat i) by lia.
    destruct (Z.ltb_spec (Z.of_nat i) (Z.of_nat len)) as [H1|H1].
    + rewrite lookup_app_l by (fold len; lia). rewrite Hnth by lia. rewrite Z.add_0_l. destruct (two_strings_at name [] (Z.of_nat i) ltac:(lia)) as [-> _]. by rewrite Nat2Z.id.
    + rewrite lookup_app_r by (fold len; lia). fold len. by rewrite lookup_replicate_2 by lia.
  - rewrite lookup_seqZ_ge by lia. symmetry. apply lookup_ge_None_2. rewrite length_app, length_replicate. fold len. lia.
Qed.

Lemma new_dirent_spec name i : (length name <= 14)%nat -> bytes_ok name -> 0 <= i < 2 ^ 16 ->
  length (new_dirent name i) = 16%nat /\ de_inum (new_dirent name i) = i /\ dname (de_name (new_dirent name i)) = dname name /\ bytes_ok (new_dirent name i).
Proof.
  intros Hn Hb Hi. unfold new_dirent. rewrite strncpy_name by done. pose proof (cname_length 14 name) as Hl. change (cname 14 name) with (dname name) in Hl. set (w := dname name ++ _).
  assert (length w = 14%nat) as Hw by (unfold w; rewrite length_app, length_replicate; lia).
  split; [unfold wr16; by rewrite wr_length, length_app, Hw|]. split; [unfold de_inum; rewrite rd16_wr16 by (rewrite ?length_app, ?length_replicate; lia); by apply Z.mod_small|].
  split.
  - assert (de_name (wr16 (replicate 2 0 ++ w) 0 i) = w) as -> by reflexivity. unfold w, dname at 1. apply cname_zeros; [apply cname_nonzero | done].
  - apply wr_bytes_ok, Forall_app. split; [apply Forall_replicate; lia|]. apply Forall_app. split; [|apply Forall_replicate; lia].
    clear -Hb. unfold dname. generalize (Z.to_nat DIRSIZ). intros n. revert n. induction Hb as [|c l Hc _ IH]; intros [|n]; cbn [cname]; try by constructor. case_if; constructor; auto.
Qed.

(** ** Directories *)

(** The name [nm] leads to inode [j]. *)
Definition dir_maps (V : Z -> block) (d : dinode) (nm : list Z) (j : Z) : Prop :=
  exists k, 0 <= k < nentries d /\ names V d nm k /\ de_inum (entry V d k) = j.

Definition is_dir (d : dinode) : Prop := type d = T_DIR /\ isize d mod 16 = 0.

Lemma sound_dir q V v : disk_ok q V -> sound q V (idata v) -> is_dir (idata v) -> idev v = 1 -> dir_ok V [] v.
Proof.
  intros D [I Hs F] [Ht H16] Hd. constructor; try done; [by eapply file_ok_blocks|]. intros o Ho. rewrite (fbyte_fb V (idata v) o (isize (idata v))) by (done || lia). unfold fb.
  case_if; [lia|]. change (MAXFILE * BSIZE) with 274432 in Hs. destruct (io_data _ _ _ I (o / BSIZE)) as [Hr _]; [unfold bidx; rewrite IND_eq; unfold BSIZE; dlia | done |].
  apply bytes_ok_at, (do_bytes _ _ D). pose proof (data_after q (do_sb _ _ D)). lia.
Qed.

Lemma slice_splice_eq c o y : 0 <= o <= Z.of_nat (length c) -> slice (splice c o y) o (Z.of_nat (length y)) = y.
Proof.
  intros Ho. unfold slice, splice. rewrite drop_app_length' by (rewrite length_take; lia). rewrite Nat2Z.id. by apply take_app_length.
Qed.
Lemma slice_splice_ne c o y a m : 0 <= o <= Z.of_nat (length c) -> 0 <= a -> 0 <= m -> a + m <= Z.of_nat (length c) -> a + m <= o \/ o + Z.of_nat (length y) <= a ->
  slice (splice c o y) a m = slice c a m.
Proof.
  intros Ho Ha Hm Hl Hd. apply list_eq. intros i. unfold slice. destruct (decide (Z.of_nat i < m)) as [Hi|Hi]; [|by rewrite !lookup_take_ge by lia].
  rewrite !lookup_take_lt by lia. rewrite !lookup_drop. unfold splice. destruct Hd as [Hd|Hd].
  - rewrite lookup_app_l by (rewrite length_take; lia). by rewrite lookup_take_lt by lia.
  - rewrite lookup_app_r by (rewrite length_take; lia). rewrite lookup_app_r by (rewrite length_take; lia). rewrite lookup_drop, length_take. f_equal. lia.
Qed.

Lemma entry_slice V d k : 0 <= k < nentries d -> entry V d k = slice (bytes V d) (16 * k) 16.
Proof.
  intros Hk. unfold nentries in Hk. unfold entry, bytes. assert (0 <= 16 * k /\ 16 * k + 16 <= isize d) as [H1 H2] by dlia.
  replace (isize d) with (16 * k + (16 + (isize d - 16 * k - 16))) by lia. rewrite content_app, content_app by lia. unfold slice.
  rewrite drop_app_length' by (rewrite content_length; done). rewrite take_app_length' by (by rewrite content_length). by rewrite Z.add_0_l.
Qed.

(** The entries after [new] has been written as entry [k0]. *)
Lemma entry_written V d V' d' k0 new : 0 <= k0 <= nentries d -> isize d mod 16 = 0 -> length new = 16%nat -> isize d' = Z.max (isize d) (16 * k0 + 16) ->
  bytes V' d' = splice (bytes V d) (16 * k0) new -> 0 <= isize d -> nentries d' = Z.max (nentries d) (k0 + 1)
  /\ forall k, 0 <= k < nentries d' -> entry V' d' k = if k =? k0 then new else entry V d k.
Proof.
  intros Hk0 H16 Hn Es Eb H0. pose proof Hk0 as Hk1. unfold nentries in Hk0. assert (nentries d' = Z.max (nentries d) (k0 + 1)) as En by (unfold nentries; rewrite Es; dlia). split; [done|].
  intros k Hk. rewrite (entry_slice V' d' k Hk), Eb. pose proof (content_length V d 0 (isize d)) as Hl. fold (bytes V d) in Hl. destruct (Z.eqb_spec k k0) as [->|Hne].
  - pose proof (slice_splice_eq (bytes V d) (16 * k0) new) as E. rewrite Hn in E. apply E. rewrite Hl. dlia.
  - rewrite En in Hk. assert (0 <= k < nentries d) as Hk' by lia. rewrite (entry_slice V d k Hk'). unfold nentries in Hk'. apply slice_splice_ne; rewrite ?Hl, ?Hn; dlia.
Qed.

Lemma names_ext V d V' d' nm k : entry V' d' k = entry V d k -> names V' d' nm k <-> names V d nm k.
Proof. intros E. unfold names. by rewrite E. Qed.

Lemma dir_maps_written V d V' d' k0 name i : 0 <= k0 <= nentries d -> isize d mod 16 = 0 -> 0 <= isize d -> (length name <= 14)%nat -> bytes_ok name -> 0 < i < 2 ^ 16 ->
  isize d' = Z.max (isize d) (16 * k0 + 16) -> bytes V' d' = splice (bytes V d) (16 * k0) (new_dirent name i) -> (k0 < nentries d -> de_inum (entry V d k0) = 0) ->
  forall nm j, dir_maps V' d' nm j <-> dir_maps V d nm j \/ (dname nm = dname name /\ j = i).
Proof.
  intros Hk0 H16 H0 Hn Hb Hi Es Eb Hfree nm j. destruct (new_dirent_spec name i Hn Hb ltac:(lia)) as (N1 & N2 & N3 & _).
  destruct (entry_written V d V' d' k0 _ Hk0 H16 N1 Es Eb H0) as [En Ee]. split.
  - intros (k & Hk & Hnm & Ej). rewrite Ee in Ej by done. unfold names in Hnm. rewrite Ee in Hnm by done. destruct (Z.eqb_spec k k0) as [->|Hne].
    + right. split; [rewrite <- N3; symmetry; apply Hnm | congruence].
    + left. exists k. split; [lia|]. by split.
  - intros [(k & Hk & Hnm & Ej)|[Enm ->]].
    + assert (k <> k0) as Hne by (intros ->; destruct Hnm as [Hz _]; apply Hz, Hfree; lia). exists k. split; [lia|]. unfold names. rewrite Ee by lia. rewrite (proj2 (Z.eqb_neq k k0) Hne). by split.
    + exists k0. split; [lia|]. unfold names. rewrite Ee by lia. rewrite Z.eqb_refl, N2, N3. split; [split; [lia | done] | done].
Qed.

(** ** Adding a name *)

(** [iput] of a reference that is not the last one to an inode without links. *)
Lemma iput_drop_wp s ip v (Q : unit -> fsst -> Prop) : aget (itable s) ip = Some v -> 1 <= ref v < 2 ^ 31 -> ref v <> 1 \/ ivalid v = false \/ nlink (idata v) <> 0 ->
  Q tt (set_itable (<[Z.to_nat ip := set_ref (ref v - 1) v]> (itable s)) s) -> wp (iput ip) s Q.
Proof.
  intros Hv Hr Hc HQ. unfold iput. wp_step. eapply get_inode_wp; [done|].
  replace ((ref v =? 1) && ivalid v && (nlink (idata v) =? 0)) with false.
  2:{ symmetry. destruct (Z.eqb_spec (ref v) 1), (ivalid v), (Z.eqb_spec (nlink (idata v)) 0); try done. naive_solver. }
  cbn [when]. do 2 wp_step. eapply mod_inode_wp; [done|]. by rewrite i32_small by lia.
Qed.

(** The loop of [dirlink]: a free entry, or the end of the directory. *)
Definition find_slot (dp sz : Z) : M fsst Z :=
  loop (S (Z.to_nat sz)) (fun off =>
    if off <? sz then
      r <- readk dp off 16 ;;
      let '(k, de) := r in
      if negb (k =? 16) then panic "dirlink read"
      else if de_inum de =? 0 then ret (inr off)
      else ret (inl (off + 16))
    else ret (inr off)) 0.

Lemma find_slot_wp s V L dp v (Q : Z -> fsst -> Prop) : fs_txn s V L [] -> spare L [] -> aget (itable s) dp = Some v -> dir_ok V [] v ->
  (forall k s', 0 <= k <= nentries (idata v) -> (k < nentries (idata v) -> de_inum (entry V (idata v) k) = 0) -> fs_txn s' V L [] -> same_rest s s' -> Q (16 * k) s') ->
  wp (find_slot dp (isize (idata v))) s Q.
Proof.
  intros T Sp Hv [Hd Hty F H16 Hb] HQ. pose proof (fl_size _ _ _ F) as Hsz. change (MAXFILE * BSIZE) with 274432 in Hsz.
  eapply (wp_loop (fun o s' => 0 <= o <= isize (idata v) /\ o mod 16 = 0 /\ fs_txn s' V L [] /\ same_rest s s') (fun o => Z.to_nat (isize (idata v) - o))); [|split_and!; (done || lia) | lia].
  intros o s1 (Ho & Hm & T1 & Hs1). assert (o = 16 * (o / 16)) as Eo by dlia. case_if.
  - wp_step. eapply (readk_wp s1 V L [] dp v); try done; try lia; [destruct Hs1 as (-> & _); done|]. intros s2 T2 Hs2.
    replace (avail (idata v) o 16) with 16 by (unfold avail; dlia). change (negb (16 =? 16)) with false. assert (same_rest s s2) by (by etransitivity).
    assert (content V (idata v) o 16 = entry V (idata v) (o / 16)) as -> by (unfold entry; by rewrite <- Eo). case_if.
    + wp_step. rewrite Eo at 1. apply HQ; try done. unfold nentries. dlia.
    + wp_step. split; [|lia]. split_and!; try done; dlia.
  - wp_step. rewrite Eo. apply HQ; try done; unfold nentries; [dlia|]. intros Hlt. exfalso. dlia.
Qed.

(** The references that are in use stay as they are. *)
Definition refs_same (s s' : fsst) : Prop := forall j w, aget (itable s) j = Some w -> 0 < ref w -> aget (itable s') j = Some w.

Lemma got_put_back s i ip s1 s' v' : got 1 i s ip s1 -> aget (itable s1) ip = Some v' -> 0 < ref v' -> itable s' = <[Z.to_nat ip := set_ref (ref v' - 1) v']> (itable s1) -> refs_same s s'.
Proof.
  intros (_ & _ & _ & w & w' & Hw & Et & E1 & E2 & E3 & E4 & E5) Hv' Hr Es j x Hj Hx. pose proof (aget_range _ _ _ Hw) as Hrw. pose proof (aget_range _ _ _ Hj) as Hrj.
  assert (w' = v') as -> by (rewrite Et in Hv'; rewrite (aget_insert_eq _ _ w) in Hv' by done; congruence).
  rewrite Es, Et, list_insert_insert_eq, aget_insert by lia. destruct (Z.eqb_spec j ip) as [->|]; [|done]. rewrite Hw in Hj. injection Hj as <-.
  match type of E4 with context [bool_decide ?P] => destruct (bool_decide P) eqn:Hs end.
  - apply bool_decide_eq_true in Hs as (_ & S1 & S2). destruct E5 as [E5 E6]. f_equal. destruct w as [a1 a2 a3 a4 a5 a6], v' as [b1 b2 b3 b4 b5 b6]. unfold set_ref. cbn in *. f_equal; (congruence || lia).
  - destruct E5 as (_ & Hz & _). lia.
Qed.

(** What [dirlink] of [name] for inode [i] in the directory [v] did. *)
Inductive linked (q : superblock) (s : fsst) (V : Z -> block) (L : list Z) (dp : Z) (v : inode) (name : list Z) (i : Z) : Z -> fsst -> Prop :=
| link_exists s' j : dir_maps V (idata v) name j -> fs_txn s' V L [] -> same_log s s' -> refs_same s s' -> linked q s V L dp v name i (-1) s'
| link_added s' V' L' : (forall j, ~ dir_maps V (idata v) name j) -> fs_txn s' V' L' [] -> same_log s s' -> consistent q V' ->
    itable s' = <[Z.to_nat dp := set_idata (ivalid v) (dino q V' (inum v)) v]> (itable s) -> is_dir (dino q V' (inum v)) ->
    (forall nm j, dir_maps V' (dino q V' (inum v)) nm j <-> dir_maps V (idata v) nm j \/ (dname nm = dname name /\ j = i)) ->
    (forall j, live q V j -> j <> inum v -> dino q V' j = dino q V j /\ bytes V' (dino q V' j) = bytes V (dino q V j)) ->
    Z.of_nat (length L') <= Z.of_nat (length L) + 4 -> linked q s V L dp v name i 0 s'
| link_full s' V' L' : fs_txn s' V' L' [] -> same_log s s' -> consistent q V' -> (forall b, 0 <= b < sb_size q -> used V' q b = true) -> linked q s V L dp v name i (-1) s'.

Lemma dirlink_wp s q V L dp v name i (Q : Z -> fsst -> Prop) :
  fs_txn s V L [] -> on_disk s q -> consistent q V -> aget (itable s) dp = Some v -> cached q V v -> is_dir (idata v) ->
  (length name <= 14)%nat -> bytes_ok name -> 0 < i < 2 ^ 16 -> isize (idata v) + 16 <= MAXFILE * BSIZE -> Z.of_nat (length L) + 5 <= nlog q ->
  (forall k, 0 <= k < nentries (idata v) -> can_get 1 (de_inum (entry V (idata v) k)) (itable s)) -> Forall (fun v => 0 <= ref v < 2 ^ 31 - 1) (itable s) ->
  (forall r s', linked q s V L dp v name i r s' -> Q r s') -> wp (dirlink dp name i) s Q.
Proof.
  intros T OD C Hv [Hd Hlv Es Hk Hva Hrf] HD Hn Hb Hi Hmax Hroom Hget Href HQ. pose proof (cs_disk _ _ C) as D. pose proof (cs_sound _ _ C _ Hlv) as S. rewrite <- Es in S.
  pose proof (sound_dir q V v D S HD Hd) as DO. pose proof (sn_size _ _ _ S) as Hsz. pose proof (txn_size _ _ _ _ _ T OD) as Hbuf. destruct HD as [HT H16].
  assert (spare L []) as Sp by (split; [constructor | cbn; lia]). change (MAXFILE * BSIZE) with 274432 in *.
  unfold dirlink. wp_step. eapply (dirlookup_wp s V L [] dp v name); try done; [eapply Forall_impl; [exact Href|]; cbn; lia | |].
  - intros s1 T1 Hs1 Hno. assert (aget (itable s1) dp = Some v) as Hv1 by (by destruct Hs1 as (-> & _)). wp_step. eapply get_inode_wp; [done|].
    wp_step. change (wp (find_slot dp (isize (idata v))) s1 (fun off s' => wp (k <- writek (new_dirent name i) dp off 16 ;; if negb (k =? 16) then ret (-1) else ret 0) s' Q)).
    eapply (find_slot_wp s1 V L dp v); try done. intros k s2 Hk0 Hfree T2 Hs2. assert (same_rest s s2) as Hs02 by (by etransitivity). unfold nentries in Hk0.
    destruct (new_dirent_spec name i Hn Hb ltac:(lia)) as (N1 & N2 & N3 & N4). assert (0 <= 16 * k /\ 16 * k <= isize (idata v)) as [Hk1 Hk2] by dlia.
    assert (spans (16 * k) (16 * k + 16) = 1) as Hsp by (unfold spans, BSIZE; rewrite (proj2 (Z.ltb_lt _ _)) by lia; dlia).
    wp_step. unfold writek. wp_step. change 16 with (Z.of_nat 16) at 2. rewrite <- N1.
    eapply (writei_result_wp (fun _ => True) (kin (new_dirent name i)) tt s2 q V L dp v 0 (16 * k) (new_dirent name i)); try done; rewrite ?N1.
    + eapply on_disk_same, OD. by apply same_rest_log.
    + by destruct Hs02 as (-> & _).
    + apply kin_copies. rewrite N1. lia.
    + change (MAXFILE * BSIZE) with 274432. lia.
    + change (Z.of_nat 16) with 16. lia.
    + intros r u s3 V' L' [W1 W2 W3 W4 W5 W6 W6' W7 W8 W9 W10 W11 W12 W13] _. wp_step. cbn [fst]. rewrite N1 in W3, W4, W12. change (Z.of_nat 16) with 16 in W3, W4, W12.
      assert (same_log s s3) as Hs03 by (etransitivity; [by apply same_rest_log | done]). destruct (Z.eqb_spec r 16) as [->|Hne]; cbn [negb]; wp_step; apply HQ.
      * change (Z.to_nat 16) with 16%nat in W9. rewrite <- N1, firstn_all in W9. apply (link_added q s V L dp v name i s3 V' L'); try done; [| destruct Hs02 as (<- & _); done | | | lia].
        -- intros j (k' & Hk' & Hnm & _). by apply (Hno k').
        -- split; [by rewrite (proj1 W7)|]. rewrite W8. dlia.
        -- by eapply dir_maps_written; try done; lia.
      * apply (link_full q s V L dp v name i s3 V' L'); try done. apply W4. lia.
  - intros s2 s1 ip k T2 Hs1 G Hk0 Hnm _. pose proof G as (Gl & Gs & _ & w & w' & Hw & Et & E1 & E2 & E3 & E4 & E5). pose proof (aget_range _ _ _ Hw) as Hrw.
    assert (aget (itable s2) ip = Some w') as Hw' by (rewrite Et; by eapply aget_insert_eq).
    assert (0 <= ref w < 2 ^ 31 - 1) as Hrefw by (destruct Hs1 as (E & _); rewrite E in Hw; apply aget_lookup in Hw as [_ Hw]; by apply (Forall_lookup_1 _ _ _ _ Href Hw)).
    assert (1 <= ref w' < 2 ^ 31 /\ (ref w' <> 1 \/ ivalid w' = false)) as [Hr1 Hr2].
    { rewrite E4. match type of E4 with context [bool_decide ?P] => destruct (bool_decide P) eqn:Hs end; [apply bool_decide_eq_true in Hs as [Hs _]; split; [lia | left; lia]|]. split; [lia|]. right. apply E5. }
    wp_step. eapply iput_drop_wp; [exact Hw' | done | tauto |]. wp_step. apply HQ. eapply link_exists.
    + by exists k.
    + by apply txn_itable.
    + destruct (same_rest_log _ _ Hs1) as (?&?&?&?&?&?&?&?). split_and!; cbn; rewrite ?Gl, ?Gs; done.
    + intros j x Hj Hx. eapply (got_put_back s1 _ ip s2); [exact G | exact Hw' | lia | done | destruct Hs1 as (-> & _); exact Hj | done].
Qed.

(** C11: [dirlink] of a name for an inode number, inside a transaction with room
    for four blocks, on a consistent file system: when the directory has the
    name it answers -1 and the disk is unchanged, as are the inodes in use in
    memory; otherwise it answers 0, and the names of the directory then lead
    where they led before and the new name to the inode, in an entry that was
    free or at the end; every other file keeps its bytes and the file system
    stays consistent; or it answers -1 because every block of the disk is in
    use. *)
Theorem dirlink_correct (s : fsst) (q : superblock) (V : Z -> block) (L : list Z) (dp : Z) (v : inode) (name : list Z) (i : Z)
  (T : fs_txn s V L []) (OD : on_disk s q) (C : consistent q V) (Hv : aget (itable s) dp = Some v) (Hc : cached q V v) (HD : is_dir (idata v))
  (Hn : (length name <= 14)%nat) (Hb : bytes_ok name) (Hi : 0 < i < 2 ^ 16) (Hmax : isize (idata v) + 16 <= MAXFILE * BSIZE) (Hroom : Z.of_nat (length L) + 5 <= nlog q)
  (Hget : forall k, 0 <= k < nentries (idata v) -> can_get 1 (de_inum (entry V (idata v) k)) (itable s)) (Href : Forall (fun v => 0 <= ref v < 2 ^ 31 - 1) (itable s)) :
  exists r s', dirlink dp name i s = Ret (r, s') /\ linked q s V L dp v name i r s'.
Proof. eapply (dirlink_wp s q V L dp v name i (fun r s' => linked q s V L dp v name i r s')); done. Qed.

(** The small directory, on a disk of its own. *)
Lemma dir_linkable : exists s V, fs_txn s V [] [] /\ on_disk s small_sb /\ consistent small_sb V /\ itable s = [one_inode true; inode0] /\ cached small_sb V (one_inode true)
  /\ (forall k, 0 <= k < 2 -> entry V (one_dinode true) k = slice dir_block (16 * k) 16).
Proof.
  destruct (one_mounted true) as (st & Id & HV & Ed & Eb). pose proof (one_consistent true _ HV) as C.
  exists (mkFsst (mkLst (set_out 1 false (lg st)) (bc st)) [one_inode true; inode0] small_sb []), (dsk (bc st)). split_and!; try done.
  - by eapply idle_fs_txn.
  - constructor; cbn; [done | apply (id_start _ _ _ Id) | apply (id_size _ _ _ Id)].
  - constructor; try done; [|apply one_fits]. split; [done|]. change (inum (one_inode true)) with 5. by rewrite Ed.
  - intros k Hk. rewrite entry_slice by (change (nentries (one_dinode true)) with 2; lia). rewrite Eb. assert (k = 0 \/ k = 1) as [-> | ->] by lia; vm_compute; reflexivity.
Qed.

Lemma dirlink_correct_witness : exists s s1 s2 r, dirlink 0 [97; 98] 9 s = Ret (-1, s1) /\ dirlink 0 [99] 9 s = Ret (r, s2).
Proof.
  destruct dir_linkable as (s & V & T & OD & C & Ei & Hc & He).
  assert (forall name, (length name <= 14)%nat -> bytes_ok name -> exists r s', dirlink 0 name 9 s = Ret (r, s') /\ linked small_sb s V [] 0 (one_inode true) name 9 r s') as Hall.
  { intros name Hl Hb. apply (dirlink_correct s small_sb V [] 0 (one_inode true) name 9 T OD C).
    - by rewrite Ei.
    - exact Hc.
    - by split.
    - exact Hl.
    - exact Hb.
    - lia.
    - discriminate.
    - discriminate.
    - intros k _. exists inode0. rewrite Ei. split; [set_solver | by right].
    - rewrite Ei. repeat constructor; cbn; lia. }
  destruct (Hall [97; 98]) as (r1 & s1 & E1 & H1); [cbn; lia | repeat constructor; lia |]. destruct (Hall [99]) as (r2 & s2 & E2 & _); [cbn; lia | repeat constructor; lia |].
  exists s, s1, s2, r2. split; [|exact E2]. rewrite E1. f_equal. f_equal. destruct H1 as [| s' V' L' Hno |]; [reflexivity | | reflexivity].
  exfalso. apply (Hno 7). exists 1. split; [split; [lia | reflexivity]|]. unfold names. change (idata (one_inode true)) with (one_dinode true). rewrite He by lia. split; [split; [vm_compute; discriminate | vm_compute; reflexivity] | vm_compute; reflexivity].
Defined.
