(* ===== verification/FsTrunc.v ===== *)
(** * Freeing the blocks of a file

    [itrunc] marks exactly the blocks of the file as free, empties the inode
    and stores it; the other files are untouched and the disk stays
    consistent. *)

From S2P Require Import Prelude KString Bytes Bio Log LogThms Fs FsThms FsData FsFile FsWrite FsAtomic.

(** ** Clearing bits *)

Lemma clear_bit_bytes x i : bytes_ok x -> bytes_ok (clear_bit x i).
Proof.
  intros H. apply Forall_insert; [done|]. pose proof (bytes_ok_at x (Z.to_nat (i / 8)) H) as Hb. set (c := x !!! Z.to_nat (i / 8)) in *.
  assert (Z.land c (Z.ones 8) = c) as Ec by (rewrite Z.land_ones by lia; by apply Z.mod_small).
  rewrite <- Ec, <- Z.land_assoc, (Z.land_comm (Z.ones 8)), Z.land_assoc, Z.land_ones by lia. apply Z.mod_pos_bound. lia.
Qed.

(** The blocks of [F] have been marked as free. *)
Record freed (q : superblock) (V : Z -> block) (F : list Z) (V' : Z -> block) : Prop := {
  fr_disk : disk_ok q V';
  fr_used : forall b, 0 <= b < sb_size q -> used V' q b = negb (bool_decide (b ∈ F)) && used V q b;
  fr_same : forall x, x <> bmapstart q -> V' x = V x
}.

Lemma freed_nil q V : disk_ok q V -> freed q V [] V.
Proof. by constructor. Qed.

Lemma bfree_data_wp s q V0 F V L H b (Q : unit -> fsst -> Prop) : fs_txn s V L H -> on_disk s q -> freed q V0 F V ->
  datastart q <= b < sb_size q -> used V0 q b = true -> b ∉ F -> NoDup H -> (forall x, x ∈ H -> datastart q <= x) -> Z.of_nat (length L) + 1 < nlog q -> (length H <= 1)%nat ->
  (forall s' V', fs_txn s' V' (add_block L (bmapstart q)) H -> freed q V0 (F ++ [b]) V' -> same_rest s s' ->
     (forall i x, x ∈ H -> is_buf (bc (fs_log s)) i x -> is_buf (bc (fs_log s')) i x) -> Q tt s') ->
  wp (bfree 1 b) s Q.
Proof.
  intros T OD [D HU HS] Hb Hu HbF Hnd HH Hroom Hlh HQ. pose proof (data_after q (do_sb _ _ D)) as Hq. pose proof (txn_size _ _ _ _ _ T OD) as Hsz. pose proof (od_sb _ _ OD) as Es. pose proof (od_size _ _ OD) as El. pose proof BPB_eq as EB.
  assert (used V q b = true) as Hub by (rewrite HU by lia; rewrite bool_decide_false by done; done). rewrite used_one in Hub by lia.
  assert (bmapstart q ∉ H) as HbH by (intros Hx%HH; lia). assert (fhome s (bmapstart q)) as Hh by (apply (home_block s q); [done | apply D | lia]).
  unfold bfree. wp_step. wp_step. rewrite Es, bblock_one, Z.mod_small by lia. wp_step. eapply (fbread_wp _ _ _ _ T); [lia | done | unfold NBUF in *; lia |]. intros i s1 T1 Hi1 Hs1 Ho1. cbv zeta.
  wp_step. eapply (fdata_wp _ _ _ _ T1); [done|]. rewrite Hub. cbn [negb].
  eapply (store_wp _ _ _ _ _ _ _ _ T1); [done | done | done | by eapply fhome_same | destruct Hs1 as (_&_&_&_&->&_); lia |]. intros s2 T2 Hs2 Ho2.
  assert (forall j, 0 <= j < sb_size q -> used (fset V (bmapstart q) (clear_bit (V (bmapstart q)) b)) q j = negb (j =? b) && used V q j) as HU2.
  { intros j Hj. rewrite !used_one, fset_eq by lia. apply bit_is_clear; [|lia]. rewrite (do_len _ _ D) by lia. unfold BSIZE. lia. }
  eapply HQ; [exact T2 | | by etransitivity |].
  - constructor.
    + constructor; [apply D | intros x Hx | intros x Hx | intros x Hx].
      * unfold fset. case_if; [unfold clear_bit; rewrite length_insert; apply (do_len _ _ D); lia | by apply (do_len _ _ D)].
      * unfold fset. case_if; [apply clear_bit_bytes, (do_bytes _ _ D); lia | by apply (do_bytes _ _ D)].
      * rewrite HU2 by lia. rewrite (proj2 (Z.eqb_neq x b)) by lia. by apply (do_meta _ _ D).
    + intros j Hj. rewrite HU2, HU by done. destruct (Z.eqb_spec j b) as [->|Hne].
      * by rewrite (bool_decide_true (b ∈ F ++ [b])) by (apply elem_of_app; right; by apply list_elem_of_singleton).
      * cbn [negb andb]. f_equal. f_equal. apply bool_decide_ext. rewrite elem_of_app, list_elem_of_singleton. tauto.
    + intros x Hx. rewrite fset_ne by done. by apply HS.
  - intros k x Hx Hk. apply Ho2; [congruence|]. apply Ho1; [congruence | done].
Qed.

(** ** The list of a file's blocks *)

Definition nz (l : list Z) : list Z := filter (fun a => a <> 0) l.
Definition blocks_of (V : Z -> block) (d : dinode) : list Z := nz (blk V d <$> seqZ 0 269).

Lemma nz_app l l' : nz (l ++ l') = nz l ++ nz l'.
Proof. apply filter_app. Qed.
Lemma nz_cons a l : nz (a :: l) = if a =? 0 then nz l else a :: nz l.
Proof. unfold nz. destruct (Z.eqb_spec a 0) as [->|H]; [by rewrite filter_cons_False by tauto | by rewrite filter_cons_True]. Qed.
Lemma elem_nz a l : a ∈ nz l <-> a <> 0 /\ a ∈ l.
Proof. unfold nz. by rewrite list_elem_of_filter. Qed.

Lemma nz_nodup (f : Z -> Z) l : NoDup l -> (forall i j, i ∈ l -> j ∈ l -> f i <> 0 -> f i = f j -> i = j) -> NoDup (nz (f <$> l)).
Proof.
  intros Hl Hf. induction Hl as [|x l Hx _ IH]; [by constructor|]. cbn [fmap list_fmap]. rewrite nz_cons. case_if; [apply IH; intros i j Hi Hj; apply Hf; set_solver|].
  constructor; [|apply IH; intros i j Hi Hj; apply Hf; set_solver]. rewrite elem_nz. intros [_ (y & Ey & Hy)%list_elem_of_fmap]. apply Hx. rewrite (Hf x y); set_solver.
Qed.

Lemma blocks_of_spec q V d : inode_ok q V d -> NoDup (blocks_of V d) /\ forall b, b ∈ blocks_of V d <-> owns V d b.
Proof.
  intros I. assert (forall i, i ∈ seqZ 0 269 <-> bidx i) as Hr by (intros i; rewrite elem_of_seqZ; unfold bidx; rewrite IND_eq; lia). split.
  - apply nz_nodup; [apply NoDup_seqZ|]. intros i j Hi%Hr Hj%Hr. by apply (io_inj _ _ _ I).
  - intros b. unfold blocks_of. rewrite elem_nz, list_elem_of_fmap. unfold owns. split; intros [Hn (i & H1 & H2)]; (split; [done|]); exists i.
    + split; [by apply Hr | done].
    + split; [done | by apply Hr].
Qed.

Lemma blocks_direct V d i : length (addrs d) = 13%nat -> 0 <= i <= 12 -> blk V d <$> seqZ 0 i = take (Z.to_nat i) (addrs d).
Proof.
  intros Hl Hi. apply list_eq. intros j. rewrite list_lookup_fmap. destruct (decide (Z.of_nat j < i)) as [Hj|Hj].
  - rewrite lookup_seqZ_lt by lia. rewrite lookup_take_lt by lia. cbn. rewrite blk_direct by lia. rewrite list_lookup_lookup_total_lt by lia. by replace (Z.to_nat (0 + Z.of_nat j)) with j by lia.
  - rewrite lookup_seqZ_ge by lia. rewrite lookup_take_ge by lia. done.
Qed.
Lemma blocks_words V d : iaddr d <> 0 -> blk V d <$> seqZ 12 256 = words (V (iaddr d)).
Proof.
  intros Hn. unfold words. change NINDIRECT with 256. apply list_eq. intros j. rewrite !list_lookup_fmap. destruct (decide (Z.of_nat j < 256)) as [Hj|Hj].
  - rewrite !lookup_seqZ_lt by lia. cbn [fmap option_fmap option_map]. rewrite blk_indirect by (done || lia). by replace (12 + Z.of_nat j - 12) with (0 + Z.of_nat j) by lia.
  - by rewrite !lookup_seqZ_ge by lia.
Qed.
Lemma blocks_split V d : length (addrs d) = 13%nat ->
  blocks_of V d = nz (take 12 (addrs d)) ++ (if iaddr d =? 0 then [] else nz (words (V (iaddr d))) ++ [iaddr d]).
Proof.
  intros Hl. unfold blocks_of. change (seqZ 0 269) with (seqZ 0 12 ++ seqZ 12 256 ++ [268]). rewrite !fmap_app, !nz_app. rewrite (blocks_direct V d 12) by (done || lia). f_equal.
  change (blk V d <$> [268]) with [iaddr d]. rewrite nz_cons. destruct (Z.eqb_spec (iaddr d) 0) as [E|E].
  - rewrite app_nil_r. apply list_eq. intros j. rewrite lookup_nil.
    destruct (nz (blk V d <$> seqZ 12 256) !! j) as [a|] eqn:Ea; [|done]. exfalso. apply list_elem_of_lookup_2, elem_nz in Ea as [Hn (i & -> & Hi%elem_of_seqZ)%list_elem_of_fmap]. apply Hn, blk_hole; [lia | done].
  - by rewrite blocks_words.
Qed.

(** ** [itrunc] *)

(** The blocks in the log, with a place for the bitmap. *)
Definition bpot (q : superblock) (L : list Z) : Z := Z.of_nat (length L) + 1 - pins L (bmapstart q).
Lemma bpot_add q L : bpot q (add_block L (bmapstart q)) = bpot q L.
Proof. unfold bpot. rewrite length_add, pins_add_block, Z.eqb_refl. pose proof (pins_cases L (bmapstart q)). lia. Qed.
Lemma bpot_length q L : Z.of_nat (length L) <= bpot q L.
Proof. unfold bpot. pose proof (pins_cases L (bmapstart q)). lia. Qed.

Definition file_block (q : superblock) (V : Z -> block) (b : Z) : Prop := datastart q <= b < sb_size q /\ used V q b = true.

Lemma bfree_all_wp q V0 a l : forall s F V L (Q : unit -> fsst -> Prop), fs_txn s V L [a] -> on_disk s q -> freed q V0 F V -> NoDup (F ++ nz l) -> Forall (file_block q V0) (nz l) -> datastart q <= a ->
  bpot q L + 1 < nlog q ->
  (forall s' V' L', fs_txn s' V' L' [a] -> freed q V0 (F ++ nz l) V' -> same_rest s s' -> (forall i, is_buf (bc (fs_log s)) i a -> is_buf (bc (fs_log s')) i a) -> bpot q L' = bpot q L ->
     (forall x, x ∈ L -> x ∈ L') -> Q tt s') ->
  wp (bfree_all 1 l) s Q.
Proof.
  induction l as [|x l IH]; intros s F V L Q T OD Fr Hnd Hf Ha Hroom HQ; cbn [bfree_all].
  - wp_step. apply (HQ s V L); try done. by rewrite app_nil_r.
  - pose proof (bpot_length q L). wp_step. rewrite nz_cons in *. destruct (Z.eqb_spec x 0) as [->|Hx]; cbn [negb when].
    + wp_step. by eapply IH.
    + apply Forall_cons in Hf as [[Hx1 Hx2] Hf]. assert (x ∉ F) as HxF by (intros Hin; apply NoDup_app in Hnd as (_ & Hd & _); apply (Hd x Hin); set_solver).
      eapply (bfree_data_wp s q V0 F V L [a]); try done; [apply NoDup_singleton | by intros y ->%list_elem_of_singleton | lia|].
      intros s1 V1 T1 Fr1 Hs1 Hh1. eapply IH; try done; [eapply on_disk_same, OD; by apply same_rest_log | by rewrite <- app_assoc | by rewrite bpot_add|].
      intros s2 V2 L2 T2 Fr2 Hs2 Hh2 Hp2 HL2. apply (HQ s2 V2 L2); [done | by rewrite <- app_assoc in Fr2 | by etransitivity | | by rewrite Hp2, bpot_add |].
      * intros i Hi. apply Hh2, Hh1; [set_solver | done].
      * intros y Hy. apply HL2. unfold add_block. case_bool_decide; set_solver.
Qed.

Section Trunc.
  Context (s : fsst) (q : superblock) (V : Z -> block) (L : list Z) (ip : Z) (v : inode).
  Context (T : fs_txn s V L []) (OD : on_disk s q) (D : disk_ok q V) (I : inode_ok q V (idata v)) (Hv : aget (itable s) ip = Some v) (Hd : idev v = 1).
  Context (Hroom : bpot q L + 2 < nlog q).

(** The state in the middle: the blocks [F] are free, the addresses are [ad]. *)
Definition trunc_at (F ad : list Z) (s' : fsst) : Prop :=
  exists V' L', fs_txn s' V' L' [] /\ freed q V F V' /\ same_log s s' /\ bpot q L' = bpot q L
    /\ itable s' = <[Z.to_nat ip := set_idata (ivalid v) (set_addrs ad (idata v)) v]> (itable s).

Lemma own_file_block b : b ∈ blocks_of V (idata v) -> file_block q V b.
Proof. intros Hb. apply (proj2 (blocks_of_spec q V _ I)) in Hb as [Hn (i & Hi & <-)]. by apply (io_data _ _ _ I). Qed.

(** Free one block and clear its address. *)
Lemma trunc_step F ad i b s1 (Q : unit -> fsst -> Prop) : trunc_at F ad s1 -> b ∈ blocks_of V (idata v) -> b ∉ F ->
  (forall s2, trunc_at (F ++ [b]) (<[Z.to_nat i := 0]> ad) s2 -> Q tt s2) ->
  wp (bfree 1 b ;;; mod_inode ip (fun v => set_idata (ivalid v) (set_addrs (<[Z.to_nat i := 0]> (addrs (idata v))) (idata v)) v)) s1 Q.
Proof.
  intros (V1 & L1 & T1 & Fr1 & Hs1 & Hp1 & Hi1) Hb HbF HQ. destruct (own_file_block b Hb) as [Hr Hu]. pose proof (bpot_length q L1).
  wp_step. eapply (bfree_data_wp s1 q V F V1 L1 []); try done; [by eapply on_disk_same | constructor | intros x Hx; by apply not_elem_of_nil in Hx | lia | cbn; lia |].
  intros s2 V2 T2 Fr2 Hs2 _. assert (itable s2 = itable s1) as Ei2 by apply Hs2. eapply mod_inode_wp; [rewrite Ei2, Hi1; by eapply aget_insert_eq|]. apply HQ.
  exists V2, (add_block L1 (bmapstart q)). split_and!; [by apply txn_itable | done | | by rewrite bpot_add |].
  - etransitivity; [done|]. destruct (same_rest_log _ _ Hs2) as (?&?&?&?&?&?&?&?). by split_and!.
  - cbn [itable set_itable]. rewrite Ei2, Hi1, list_insert_insert_eq. done.
Qed.

(** The direct blocks. *)
Definition cleared (i : Z) : list Z := replicate (Z.to_nat i) 0 ++ drop (Z.to_nat i) (addrs (idata v)).

Lemma trunc_direct_wp (Q : unit -> fsst -> Prop) : (forall s', trunc_at (nz (take 12 (addrs (idata v)))) (cleared 12) s' -> Q tt s') ->
  wp (for_range 0 NDIRECT (fun i =>
        v <- get_inode ip ;;
        a <- from_option "addrs" (aget (addrs (idata v)) i) ;;
        when (negb (a =? 0))
          (bfree (idev v) a ;;;
           mod_inode ip (fun v => set_idata (ivalid v) (set_addrs (<[Z.to_nat i := 0]> (addrs (idata v))) (idata v)) v)))) s Q.
Proof.
  intros HQ. pose proof (io_len _ _ _ I) as Hl. eapply (wp_for_range (fun i s' => trunc_at (nz (take (Z.to_nat i) (addrs (idata v)))) (cleared i) s')); [done | | |exact HQ].
  - exists V, L. split_and!; try done. unfold cleared. change (Z.to_nat 0) with 0%nat. cbn [replicate app]. rewrite drop_0.
    replace (set_addrs (addrs (idata v)) (idata v)) with (idata v) by (by destruct (idata v)). by apply same_itable.
  - change NDIRECT with 12. intros i s1 Hi H1. pose proof H1 as (V1 & L1 & _ & _ & _ & _ & Hi1). destruct (lookup_lt_is_Some_2 (addrs (idata v)) (Z.to_nat i)) as [a Ha]; [lia|].
    assert (cleared i = replicate (Z.to_nat i) 0 ++ a :: drop (S (Z.to_nat i)) (addrs (idata v))) as Ec by (unfold cleared; by rewrite (drop_S _ _ _ Ha)).
    assert (cleared (i + 1) = replicate (Z.to_nat i) 0 ++ 0 :: drop (S (Z.to_nat i)) (addrs (idata v))) as Ec1.
    { unfold cleared. replace (Z.to_nat (i + 1)) with (S (Z.to_nat i)) by lia. rewrite replicate_S_end, <- app_assoc. done. }
    assert (take (Z.to_nat (i + 1)) (addrs (idata v)) = take (Z.to_nat i) (addrs (idata v)) ++ [a]) as Et by (replace (Z.to_nat (i + 1)) with (S (Z.to_nat i)) by lia; by apply take_S_r).
    rewrite Ec1, Et, nz_app, nz_cons. change (nz []) with (@nil Z). wp_step. eapply get_inode_wp; [rewrite Hi1; by eapply aget_insert_eq|]. cbn [idata set_idata addrs set_addrs idev]. rewrite Hd.
    wp_step. eapply wp_from_option; [apply aget_lookup; split; [lia|]; rewrite Ec, lookup_app_r by (rewrite length_replicate; lia); rewrite length_replicate, Nat.sub_diag; done|].
    destruct (Z.eqb_spec a 0) as [->|Hn]; cbn [negb when].
    + wp_step. rewrite app_nil_r. by rewrite Ec in H1.
    + assert (a ∈ blocks_of V (idata v) /\ a ∉ nz (take (Z.to_nat i) (addrs (idata v)))) as [Hab HaF].
      { assert (forall j x, (j < 12)%nat -> addrs (idata v) !! j = Some x -> bidx (Z.of_nat j) /\ blk V (idata v) (Z.of_nat j) = x) as Hbk.
        { intros j x Hj Hx. split; [unfold bidx; rewrite IND_eq; lia|]. rewrite blk_direct by lia. rewrite Nat2Z.id. by apply list_lookup_total_correct. }
        destruct (Hbk (Z.to_nat i) a ltac:(lia) Ha) as [B1 B2]. split; [apply (blocks_of_spec q V _ I); split; [done|]; by eexists|].
        rewrite elem_nz. intros [_ (j & Hj)%list_elem_of_lookup_1]. assert (j < Z.to_nat i)%nat as Hji by (apply lookup_lt_Some in Hj; rewrite length_take in Hj; lia).
        rewrite lookup_take_lt in Hj by done. destruct (Hbk j a ltac:(lia) Hj) as [C1 C2]. assert (Z.of_nat (Z.to_nat i) = Z.of_nat j) as E by (apply (io_inj _ _ _ I); congruence). lia. }
      eapply (trunc_step _ (cleared i) i a s1); try done. intros s2 H2. rewrite Ec in H2. rewrite insert_app_r_alt in H2 by (rewrite length_replicate; lia).
      rewrite length_replicate, Nat.sub_diag in H2. exact H2.
Qed.

(** The indirect block and the blocks it lists. *)
Definition zeroed : dinode := set_size 0 (set_addrs (replicate 13 0) (idata v)).

Lemma trunc_indirect_wp s1 (Q : unit -> fsst -> Prop) : trunc_at (nz (take 12 (addrs (idata v)))) (cleared 12) s1 -> (forall s', trunc_at (blocks_of V (idata v)) (replicate 13 0) s' -> Q tt s') ->
  wp (v <- get_inode ip ;;
      a <- from_option "addrs" (aget (addrs (idata v)) NDIRECT) ;;
      when (negb (a =? 0))
        (bp <- fbread (idev v) a ;;
         x <- fdata bp ;;
         bfree_all (idev v) (words x) ;;;
         fbrelse bp ;;;
         bfree (idev v) a ;;;
         mod_inode ip (fun v => set_idata (ivalid v) (set_addrs (<[Z.to_nat NDIRECT := 0]> (addrs (idata v))) (idata v)) v))) s1 Q.
Proof.
  intros H1 HQ. pose proof H1 as (V1 & L1 & T1 & Fr1 & Hs1 & Hp1 & Hi1). pose proof (io_len _ _ _ I) as Hl. destruct (blocks_of_spec q V _ I) as [Hnd Hown]. pose proof (data_after q (do_sb _ _ D)) as Hq.
  assert (on_disk s1 q) as OD1 by (by eapply on_disk_same). pose proof (txn_size _ _ _ _ _ T1 OD1) as Hsz. pose proof (bpot_length q L1) as HpL.
  assert (cleared 12 = replicate 12 0 ++ [iaddr (idata v)]) as Ec.
  { unfold cleared. change (Z.to_nat 12) with 12%nat. f_equal. rewrite (drop_S _ (iaddr (idata v))) by (apply list_lookup_lookup_total_lt; lia). by rewrite drop_ge by lia. }
  rewrite blocks_split in HQ, Hnd, Hown by done. wp_step. eapply get_inode_wp; [rewrite Hi1; by eapply aget_insert_eq|]. cbn [idata set_idata addrs set_addrs idev]. rewrite Hd. change NDIRECT with 12.
  wp_step. eapply wp_from_option; [rewrite Ec; done|]. destruct (Z.eqb_spec (iaddr (idata v)) 0) as [E|E]; cbn [negb when].
  { wp_step. apply HQ. rewrite app_nil_r. rewrite Ec, E in H1. exact H1. }
  set (a := iaddr (idata v)) in *. assert (owns V (idata v) a) as Hoa by (split; [done|]; exists IND; split; [unfold bidx; rewrite IND_eq; lia | done]).
  assert (file_block q V a) as [Har Hau] by (apply own_file_block; by apply (blocks_of_spec q V _ I)). rewrite app_assoc in Hnd, HQ. apply NoDup_app in Hnd as (Hnd & Hda & _).
  assert (Forall (file_block q V) (nz (words (V a)))) as Hfb.
  { apply Forall_forall. intros x Hx. apply own_file_block. rewrite blocks_split by done. fold a. rewrite (proj2 (Z.eqb_neq _ 0) E). apply elem_of_app. right. apply elem_of_app. by left. }
  pose proof (clean_block _ _ _ _ a T1 (not_elem_of_nil _)) as Hc. wp_step. eapply (fbread_wp _ _ _ _ T1); [lia | apply not_elem_of_nil | cbn; lia |]. intros i s2 T2 Hb2 Hs2 _.
  wp_step. eapply (fdata_wp _ _ _ _ T2); [done|]. rewrite (fr_same _ _ _ _ Fr1) by lia.
  wp_step. eapply (bfree_all_wp q V a (words (V a)) s2 _ V1 L1); try done; [eapply on_disk_same, OD1; by apply same_rest_log | lia | lia |].
  intros s3 V3 L3 T3 Fr3 Hs3 Hh3 Hp3 HL3. assert (same_rest s1 s3) as Hs13 by (by etransitivity).
  wp_step. eapply (fbrelse_wp _ _ _ _ T3 i a); [by apply Hh3 | set_solver | apply NoDup_singleton | |].
  { destruct Hc as [Hc|Hc]; [left; by apply HL3|]. right. rewrite (fr_same _ _ _ _ Fr3) by lia. rewrite <- (fr_same _ _ _ _ Fr1) by lia. rewrite Hc. by destruct Hs13 as (_&_&_&_&_&->&_). }
  rewrite filter_head by apply not_elem_of_nil. intros s4 T4 Hs4 _. assert (same_rest s1 s4) as Hs14 by (by etransitivity).
  eapply (trunc_step (nz (take 12 (addrs (idata v))) ++ nz (words (V a))) (cleared 12) 12 a s4).
  - exists V3, L3. split_and!; try done; [etransitivity; [done | by apply same_rest_log] | congruence | destruct Hs14 as (-> & _); done].
  - by apply (blocks_of_spec q V _ I).
  - intros Hin. apply (Hda a Hin). set_solver.
  - intros s5 H5. apply HQ. rewrite Ec in H5. exact H5.
Qed.

(** [itrunc] has returned. *)
Lemma itrunc_wp (Q : unit -> fsst -> Prop) : 0 <= inum v < ninodes q ->
  (forall s' V1 L', freed q V (blocks_of V (idata v)) V1 -> fs_txn s' (put_dino q V1 (inum v) zeroed) L' [] -> same_log s s' -> itable s' = <[Z.to_nat ip := set_idata (ivalid v) zeroed v]> (itable s) ->
     Z.of_nat (length L') <= bpot q L + 1 -> Q tt s') ->
  wp (itrunc ip) s Q.
Proof.
  intros Hin HQ. unfold itrunc. wp_step. apply trunc_direct_wp. intros s1 H1.
  assert (forall s2, trunc_at (blocks_of V (idata v)) (replicate 13 0) s2 -> wp (mod_inode ip (fun v => set_idata (ivalid v) (set_size 0 (idata v)) v) ;;; iupdate ip) s2 Q) as Hfin.
  { intros s2 (V2 & L2 & T2 & Fr2 & Hs2 & Hp2 & Hi2). pose proof (bpot_length q L2). wp_step. eapply mod_inode_wp; [rewrite Hi2; by eapply aget_insert_eq|]. cbn [ivalid set_idata idata].
    set (s3 := set_itable _ s2). assert (itable s3 = <[Z.to_nat ip := set_idata (ivalid v) zeroed v]> (itable s)) as Hi3 by (cbn [s3 itable set_itable]; by rewrite Hi2, list_insert_insert_eq).
    assert (same_log s s3) as Hs3 by (destruct Hs2 as (?&?&?&?&?&?&?&?); by split_and!).
    eapply (iupdate_wp s3 q V2 L2 ip (set_idata (ivalid v) zeroed v)); [by apply txn_itable | by eapply on_disk_same | apply Fr2 | rewrite Hi3; by eapply aget_insert_eq | done | done | lia |].
    intros s4 T4 Hs4. eapply (HQ s4 V2); [done | exact T4 | etransitivity; [exact Hs3 | by apply same_rest_log] | destruct Hs4 as (-> & _); done |].
    pose proof (length_add L2 (IBLOCK (inum v) q)). pose proof (pins_cases L2 (IBLOCK (inum v) q)). cbn [inum set_idata]. lia. }
  destruct (trunc_indirect_wp s1 (fun _ s2 => wp (mod_inode ip (fun v => set_idata (ivalid v) (set_size 0 (idata v)) v) ;;; iupdate ip) s2 Q) H1) as ([] & s2 & E2 & ? & s3 & E3 & HQ3); [by intros; apply Hfin|].
  exists x, s3. split; [|done]. rewrite <- E3. revert E2. unfold bind. destruct (get_inode ip s1) as [[v0 s0]| | |]; [|done..]. destruct (from_option "addrs" _ s0) as [[a0 s00]| | |]; [|done..]. intros E2. by rewrite E2.
Qed.

End Trunc.

Lemma zeroed_blk V v i : bidx i -> blk V (zeroed v) i = 0.
Proof.
  intros Hi. unfold bidx in Hi. rewrite IND_eq in Hi. destruct (Z.lt_ge_cases i 12) as [H|H].
  - rewrite blk_direct by done. cbn [zeroed addrs set_size set_addrs]. by apply lookup_total_replicate_2; lia.
  - destruct (Z.eqb_spec i 268) as [->|]; [done|]. by apply blk_hole; [lia|].
Qed.
Lemma zeroed_fits v : dinode_ok (idata v) -> dinode_ok (zeroed v).
Proof. intros [H1 H2 H3 H4 H5 H6 H7]. constructor; cbn [zeroed set_size set_addrs type major minor nlink isize addrs]; try done. by apply Forall_replicate. Qed.
Lemma zeroed_sound q V v : sound q V (zeroed v).
Proof.
  assert (forall i, bidx i -> blk V (zeroed v) i = 0) as Hz by (intros i; by apply zeroed_blk). constructor; [|done|].
  - constructor; [done | intros i Hi Hn; by rewrite Hz in Hn | intros i j Hi _ Hn; by rewrite Hz in Hn].
  - intros i Hi Hn. cbn in Hn. unfold BSIZE in Hn. lia.
Qed.

(** The file system after the blocks of inode [i] have been freed and its
    empty inode stored. *)
Lemma consistent_trunc q V V1 v : consistent q V -> live q V (inum v) -> idata v = dino q V (inum v) -> dinode_ok (idata v) -> freed q V (blocks_of V (idata v)) V1 ->
  let V2 := put_dino q V1 (inum v) (zeroed v) in
  consistent q V2 /\ dino q V2 (inum v) = zeroed v
  /\ (forall b, 0 <= b < sb_size q -> used V2 q b = true <-> used V q b = true /\ ~ owns V (idata v) b)
  /\ (forall j, live q V j -> j <> inum v -> dino q V2 j = dino q V j /\ bytes V2 (dino q V2 j) = bytes V (dino q V j)).
Proof.
  intros C Hl Es Hk [D1 HU HS] V2. pose proof (cs_sound _ _ C _ Hl) as S. rewrite <- Es in S. pose proof (data_after q (do_sb _ _ D1)) as Hq.
  destruct (put_dino_spec q V1 (inum v) (zeroed v) D1 (proj1 Hl) (zeroed_fits v Hk)) as (P1 & P2 & P3 & P4 & P5). fold V2 in P1, P2, P3, P4, P5.
  assert (forall j, 0 <= j < ninodes q -> j <> inum v -> dino q V2 j = dino q V j) as Hdj.
  { intros j Hj Hne. rewrite P2 by done. unfold dino. rewrite HS; [done|]. pose proof (iblock_between q j (do_sb _ _ D1) Hj). lia. }
  assert (forall b, 0 <= b < sb_size q -> used V2 q b = true <-> used V q b = true /\ ~ owns V (idata v) b) as HU2.
  { intros b Hb. rewrite P4, HU by done. rewrite <- (proj2 (blocks_of_spec q V _ (sn_inode _ _ _ S))). case_bool_decide; cbn [negb andb]; naive_solver. }
  assert (forall j, live q V j -> j <> inum v -> same_file q V V2 (dino q V j)) as Hoth.
  { intros j Hj Hne. pose proof (sn_inode _ _ _ (cs_sound _ _ C j Hj)) as Ij. apply same_file_intro; [done|]. intros b Hb. pose proof Hb as [Hn (k & Hk' & Eb)]. destruct (io_data _ _ _ Ij k Hk') as [Hr Hu]; [congruence|]. rewrite Eb in Hr, Hu.
    split; [|apply HU2; [lia|]; split; [done|]; rewrite Es; intros Ho; by apply (cs_apart _ _ C (inum v) j Hl Hj ltac:(congruence) b)].
    unfold V2, put_dino. rewrite fset_ne; [apply HS; lia|]. pose proof (iblock_between q (inum v) (do_sb _ _ D1) (proj1 Hl)). lia. }
  assert (forall j, live q V2 j -> j <> inum v -> live q V j) as Hlj by (intros j [Hj Ht] Hne; rewrite Hdj in Ht by done; done).
  assert (forall b, ~ owns V2 (zeroed v) b) as Hnone by (intros b [Hn (k & Hk' & Eb)]; rewrite zeroed_blk in Eb by done; congruence).
  split; [|split; [done | split; [done|]]].
  - constructor; [done| | |].
    + intros j Hj. destruct (decide (j = inum v)) as [->|Hne]; [rewrite P1; apply zeroed_sound|]. rewrite Hdj by (apply Hj || done).
      eapply sf_sound; [by apply Hoth; auto | by apply (cs_sound _ _ C); auto].
    + intros j k Hj Hk' Hne b. destruct (decide (j = inum v)) as [->|H1]; [rewrite P1; intros Ho; by apply Hnone in Ho|]. destruct (decide (k = inum v)) as [->|H2]; [intros _; rewrite P1; apply Hnone|].
      rewrite !Hdj by (apply Hj || apply Hk' || done). rewrite (sf_owns q V V2) by (by apply Hoth; auto). rewrite (sf_owns q V V2) by (by apply Hoth; auto). apply (cs_apart _ _ C); auto.
    + intros b Hb Hu. apply HU2 in Hu as [Hu Hno]; [|lia]. destruct (cs_owner _ _ C b Hb Hu) as (j & Hj & Ho). destruct (decide (j = inum v)) as [->|Hne]; [by rewrite Es in Hno|].
      exists j. unfold live. rewrite Hdj by (apply Hj || done). split; [done|]. by apply (sf_owns q V V2); [apply Hoth|].
  - intros j Hj Hne. rewrite Hdj by (apply Hj || done). split; [done|]. eapply bytes_same; [by apply (cs_sound _ _ C) | by apply Hoth].
Qed.

(** C12: [itrunc] inside a transaction with room for two blocks, on a consistent
    file system: the file is empty, in memory and on the disk; exactly the
    blocks that belonged to it, direct, indirect and the indirect block itself,
    are free that were not; every other file has the bytes it had, and the file
    system is consistent. *)
Theorem itrunc_correct (s : fsst) (q : superblock) (V : Z -> block) (L : list Z) (ip : Z) (v : inode)
  (T : fs_txn s V L []) (OD : on_disk s q) (C : consistent q V) (Hv : aget (itable s) ip = Some v) (Hc : cached q V v) (Hroom : Z.of_nat (length L) + 4 <= nlog q) :
  exists s' V' L', itrunc ip s = Ret (tt, s') /\ fs_txn s' V' L' [] /\ same_log s s' /\ consistent q V'
    /\ isize (dino q V' (inum v)) = 0 /\ type (dino q V' (inum v)) = type (idata v) /\ bytes V' (dino q V' (inum v)) = []
    /\ itable s' = <[Z.to_nat ip := set_idata (ivalid v) (dino q V' (inum v)) v]> (itable s)
    /\ (forall b, 0 <= b < sb_size q -> used V' q b = true <-> used V q b = true /\ ~ owns V (idata v) b)
    /\ (forall j, live q V j -> j <> inum v -> dino q V' j = dino q V j /\ bytes V' (dino q V' j) = bytes V (dino q V j))
    /\ Z.of_nat (length L') <= Z.of_nat (length L) + 2.
Proof.
  destruct Hc as [Hd Hlv Es Hk Hva Hrf]. pose proof (cs_sound _ _ C _ Hlv) as S. rewrite <- Es in S. assert (bpot q L <= Z.of_nat (length L) + 1) as Hp by (unfold bpot; pose proof (pins_cases L (bmapstart q)); lia).
  cut (wp (itrunc ip) s (fun _ s' => exists V' L', fs_txn s' V' L' [] /\ same_log s s' /\ consistent q V'
    /\ isize (dino q V' (inum v)) = 0 /\ type (dino q V' (inum v)) = type (idata v) /\ bytes V' (dino q V' (inum v)) = []
    /\ itable s' = <[Z.to_nat ip := set_idata (ivalid v) (dino q V' (inum v)) v]> (itable s)
    /\ (forall b, 0 <= b < sb_size q -> used V' q b = true <-> used V q b = true /\ ~ owns V (idata v) b)
    /\ (forall j, live q V j -> j <> inum v -> dino q V' j = dino q V j /\ bytes V' (dino q V' j) = bytes V (dino q V j))
    /\ Z.of_nat (length L') <= Z.of_nat (length L) + 2)).
  { intros ([] & s' & E & V' & L' & HR). by exists s', V', L'. }
  eapply (itrunc_wp s q V L ip v T OD (cs_disk _ _ C) (sn_inode _ _ _ S) Hv Hd); [lia | apply Hlv |]. intros s' V1 L' Fr T' Hs' Hi' HL'.
  destruct (consistent_trunc q V V1 v C Hlv Es Hk Fr) as (C2 & Ed & HU & Hoth). exists (put_dino q V1 (inum v) (zeroed v)), L'. rewrite Ed. repeat (split; [first [done | lia]|]). lia.
Qed.

Lemma itrunc_correct_witness : exists s s' V', itrunc 0 s = Ret (tt, s') /\ consistent small_sb V' /\ bytes V' (dino small_sb V' 5) = [] /\ used V' small_sb 47 = false.
Proof.
  destruct (one_mounted false) as (st & Id & HV & Ed & Eb). pose proof (one_consistent false _ HV) as C.
  destruct (itrunc_correct (mkFsst (mkLst (set_out 1 false (lg st)) (bc st)) [one_inode false] small_sb []) small_sb (dsk (bc st)) [] 0 (one_inode false)) as (s' & V' & L' & E & _ & _ & C' & _ & _ & Eb' & _ & HU & _).
  - by eapply idle_fs_txn.
  - constructor; cbn; [done | apply (id_start _ _ _ Id) | apply (id_size _ _ _ Id)].
  - exact C.
  - reflexivity.
  - constructor; try done; [|apply one_fits]. split; [done|]. change (inum (one_inode false)) with 5. by rewrite Ed.
  - discriminate.
  - eexists _, s', V'. split; [exact E|]. split; [exact C'|]. split; [exact Eb'|]. apply not_true_iff_false. intros Hu. apply HU in Hu as [_ Hno]; [|cbn; lia]. apply Hno.
    split; [done|]. exists 0. split; [unfold bidx; rewrite IND_eq; lia | done].
Defined.
