(* ===== verification/Kern.v ===== *)
(** * The kernel's state and the process table (kernel/proc.c, proc.h)

    One record holds what the kernel's components share: physical memory and
    its allocator (Vm.v), the file system (Fs.v), the open files, the pipes and
    the process table.  Locks delimit the critical sections, each of which is
    one definition; the functions that sleep are split where they sleep.  The
    running process is [cur]. *)

From stdpp Require Import gmap.
From S2P Require Import Prelude KString Buddy Bytes Bio Log Fs Vm Pipe.

Definition NOFILE : Z := 16.
Definition NDEV : Z := 10.
Definition MAXPATH : Z := 128.
Definition MAXARG : Z := 32.

Inductive procstate := UNUSED | USED | SLEEPING | RUNNABLE | RUNNING | ZOMBIE.

(** The addresses that are slept on. *)
Inductive channel :=
| ChPipeRead (pi : Z)     (* &pi->nread *)
| ChPipeWrite (pi : Z)    (* &pi->nwrite *)
| ChProc (i : Z)          (* &proc[i] *)
| ChTicks                 (* &ticks *)
| ChOther (a : Z).        (* any other address *)

#[global] Instance procstate_eq_dec : EqDecision procstate.
Proof. solve_decision. Defined.
#[global] Instance channel_eq_dec : EqDecision channel.
Proof. solve_decision. Defined.

(** [struct context]: the return address and the stack pointer; the saved
    registers matter only to [swtch]. *)
Record context := mkContext { ctx_ra : Z; ctx_sp : Z }.

Record proc := mkProc {
  state : procstate;   (* Process state *)
  chan : option channel;   (* If non-zero, sleeping on chan *)
  killed : Z;   (* If non-zero, have been killed *)
  xstate : Z;   (* Exit status to be returned to parent's wait *)
  pid : Z;   (* Process ID *)
  parent : option Z;   (* Parent process *)
  kstack : Z;   (* Virtual address of kernel stack *)
  sz : Z;   (* Size of process memory (bytes) *)
  pagetable : Z;   (* User page table *)
  trapframe : Z;   (* data page for trampoline.S *)
  ctx : context;   (* swtch() here to run process *)
  ofile : list Z;   (* Open files *)
  cwd : option Z;   (* Current directory *)
  name : list Z   (* Process name *)
}.

Definition proc0 : proc := mkProc UNUSED None 0 0 0 None 0 0 0 0 (mkContext 0 0) (replicate (Z.to_nat NOFILE) 0) None [].

Definition with_state (x : procstate) (p : proc) : proc := mkProc x (chan p) (killed p) (xstate p) (pid p) (parent p) (kstack p) (sz p) (pagetable p) (trapframe p) (ctx p) (ofile p) (cwd p) (name p).
Definition with_chan (x : option channel) (p : proc) : proc := mkProc (state p) x (killed p) (xstate p) (pid p) (parent p) (kstack p) (sz p) (pagetable p) (trapframe p) (ctx p) (ofile p) (cwd p) (name p).
Definition with_killed (x : Z) (p : proc) : proc := mkProc (state p) (chan p) x (xstate p) (pid p) (parent p) (kstack p) (sz p) (pagetable p) (trapframe p) (ctx p) (ofile p) (cwd p) (name p).
Definition with_xstate (x : Z) (p : proc) : proc := mkProc (state p) (chan p) (killed p) x (pid p) (parent p) (kstack p) (sz p) (pagetable p) (trapframe p) (ctx p) (ofile p) (cwd p) (name p).
Definition with_pid (x : Z) (p : proc) : proc := mkProc (state p) (chan p) (killed p) (xstate p) x (parent p) (kstack p) (sz p) (pagetable p) (trapframe p) (ctx p) (ofile p) (cwd p) (name p).
Definition with_parent (x : option Z) (p : proc) : proc := mkProc (state p) (chan p) (killed p) (xstate p) (pid p) x (kstack p) (sz p) (pagetable p) (trapframe p) (ctx p) (ofile p) (cwd p) (name p).
Definition with_kstack (x : Z) (p : proc) : proc := mkProc (state p) (chan p) (killed p) (xstate p) (pid p) (parent p) x (sz p) (pagetable p) (trapframe p) (ctx p) (ofile p) (cwd p) (name p).
Definition with_sz (x : Z) (p : proc) : proc := mkProc (state p) (chan p) (killed p) (xstate p) (pid p) (parent p) (kstack p) x (pagetable p) (trapframe p) (ctx p) (ofile p) (cwd p) (name p).
Definition with_pagetable (x : Z) (p : proc) : proc := mkProc (state p) (chan p) (killed p) (xstate p) (pid p) (parent p) (kstack p) (sz p) x (trapframe p) (ctx p) (ofile p) (cwd p) (name p).
Definition with_trapframe (x : Z) (p : proc) : proc := mkProc (state p) (chan p) (killed p) (xstate p) (pid p) (parent p) (kstack p) (sz p) (pagetable p) x (ctx p) (ofile p) (cwd p) (name p).
Definition with_ctx (x : context) (p : proc) : proc := mkProc (state p) (chan p) (killed p) (xstate p) (pid p) (parent p) (kstack p) (sz p) (pagetable p) (trapframe p) x (ofile p) (cwd p) (name p).
Definition with_ofile (x : list Z) (p : proc) : proc := mkProc (state p) (chan p) (killed p) (xstate p) (pid p) (parent p) (kstack p) (sz p) (pagetable p) (trapframe p) (ctx p) x (cwd p) (name p).
Definition with_cwd (x : option Z) (p : proc) : proc := mkProc (state p) (chan p) (killed p) (xstate p) (pid p) (parent p) (kstack p) (sz p) (pagetable p) (trapframe p) (ctx p) (ofile p) x (name p).
Definition with_name (x : list Z) (p : proc) : proc := mkProc (state p) (chan p) (killed p) (xstate p) (pid p) (parent p) (kstack p) (sz p) (pagetable p) (trapframe p) (ctx p) (ofile p) (cwd p) x.

(** [struct file]; a pointer to one is its address, 0 is null. *)
Inductive filetype := FD_NONE | FD_PIPE | FD_INODE | FD_DEVICE.

Record file := mkFile {
  ftype : filetype;
  fref : Z;              (* reference count *)
  readable : bool;
  writable : bool;
  fpipe : Z;             (* FD_PIPE *)
  fip : Z;               (* FD_INODE and FD_DEVICE *)
  foff : Z;              (* FD_INODE *)
  fmajor : Z             (* FD_DEVICE *)
}.

Definition file0 : file := mkFile FD_NONE 0 false false 0 0 0 0.
Definition with_fref (r : Z) (f : file) : file :=
  mkFile (ftype f) r (readable f) (writable f) (fpipe f) (fip f) (foff f) (fmajor f).
Definition with_foff (o : Z) (f : file) : file :=
  mkFile (ftype f) (fref f) (readable f) (writable f) (fpipe f) (fip f) o (fmajor f).

(** The allocator of open files: [bd_malloc(sizeof(struct file))] and
    [bd_free], beside the pages. *)
Class FileHeap (A : Type) := {
  fh_alloc : M A Z;
  fh_free : Z -> M A unit
}.

Section Kernel.
  Context {A : Type} `{PA : PageAllocator A} `{FH : FileHeap A}.

Record kst := mkK {
  kvm : vms A;
  kfs : fsst;
  files : gmap Z file;
  pipes : gmap Z pipe;
  procs : list proc;
  nextpid : Z;
  initproc : Z;
  cur : Z;
  ticks : Z
}.

Definition set_kvm (v : vms A) (s : kst) : kst := mkK v (kfs s) (files s) (pipes s) (procs s) (nextpid s) (initproc s) (cur s) (ticks s).
Definition set_kfs (v : fsst) (s : kst) : kst := mkK (kvm s) v (files s) (pipes s) (procs s) (nextpid s) (initproc s) (cur s) (ticks s).
Definition set_files (v : gmap Z file) (s : kst) : kst := mkK (kvm s) (kfs s) v (pipes s) (procs s) (nextpid s) (initproc s) (cur s) (ticks s).
Definition set_pipes (v : gmap Z pipe) (s : kst) : kst := mkK (kvm s) (kfs s) (files s) v (procs s) (nextpid s) (initproc s) (cur s) (ticks s).
Definition set_procs (v : list proc) (s : kst) : kst := mkK (kvm s) (kfs s) (files s) (pipes s) v (nextpid s) (initproc s) (cur s) (ticks s).
Definition set_nextpid (v : Z) (s : kst) : kst := mkK (kvm s) (kfs s) (files s) (pipes s) (procs s) v (initproc s) (cur s) (ticks s).
Definition set_initproc (v : Z) (s : kst) : kst := mkK (kvm s) (kfs s) (files s) (pipes s) (procs s) (nextpid s) v (cur s) (ticks s).
Definition set_cur (v : Z) (s : kst) : kst := mkK (kvm s) (kfs s) (files s) (pipes s) (procs s) (nextpid s) (initproc s) v (ticks s).
Definition set_ticks (v : Z) (s : kst) : kst := mkK (kvm s) (kfs s) (files s) (pipes s) (procs s) (nextpid s) (initproc s) (cur s) v.

Definition onvm {B} (m : M (vms A) B) : M kst B := zoom kvm set_kvm m.
Definition onfs {B} (m : M fsst B) : M kst B := zoom kfs set_kfs m.

Definition get_proc (i : Z) : M kst proc := t <- gets procs ;; from_option "proc" (aget t i).
Definition mod_proc (i : Z) (f : proc -> proc) : M kst unit :=
  p <- get_proc i ;;
  t <- gets procs ;; t' <- from_option "proc" (aset t i (f p)) ;; modify (set_procs t').

Definition myproc : M kst proc := i <- gets cur ;; get_proc i.
Definition mod_myproc (f : proc -> proc) : M kst unit := i <- gets cur ;; mod_proc i f.

(** ** Sleeping and waking *)

(** [wakeup]: every other process that sleeps on the channel. *)
Definition wake_one (c : channel) (p : proc) : proc :=
  if bool_decide (state p = SLEEPING) && bool_decide (chan p = Some c) then with_state RUNNABLE p else p.
Definition wakeup (c : channel) : M kst unit :=
  modify (fun s => set_procs (imap (fun i p => if Z.of_nat i =? cur s then p else wake_one c p) (procs s)) s).

(** [sleep] up to [sched]; the caller goes on after a [wakeup]. *)
Definition sleep_enter (c : channel) : M kst unit :=
  mod_myproc (fun p => with_state SLEEPING (with_chan (Some c) p)).
(** [sleep] after [sched]. *)
Definition sleep_leave : M kst unit := mod_myproc (with_chan None).

Definition yield_enter : M kst unit := mod_myproc (with_state RUNNABLE).

(** One look of the scheduler at process [i]: it runs the process if it can. *)
Definition schedule (i : Z) : M kst bool :=
  p <- get_proc i ;;
  if bool_decide (state p = RUNNABLE) then mod_proc i (with_state RUNNING) ;;; ret true else ret false.

(** [kill] marks the first process with the pid. *)
Fixpoint find_pid (pd : Z) (t : list proc) (i : Z) : option Z :=
  match t with
  | [] => None
  | p :: t' => if pid p =? pd then Some i else find_pid pd t' (i + 1)
  end.
Definition kill (pd : Z) : M kst Z :=
  t <- gets procs ;;
  match find_pid pd t 0 with
  | Some i =>
      mod_proc i (fun p =>
        let p := with_killed 1 p in
        if bool_decide (state p = SLEEPING) then with_state RUNNABLE p else p) ;;;
      ret 0
  | None => ret (-1)
  end.

Definition setkilled (i : Z) : M kst unit := mod_proc i (with_killed 1).
Definition get_killed (i : Z) : M kst Z := p <- get_proc i ;; ret (killed p).

(** ** Process memory *)

(** Where the bytes of kernel buffers pass through physical memory. *)
Definition KBUF : Z := KERNBASE.

Fixpoint poke (m : mem) (a : Z) (l : list Z) : mem :=
  match l with
  | [] => m
  | x :: l' => poke (upd m a x) (a + 1) l'
  end.
Definition peek (m : mem) (a n : Z) : list Z := m <$> seqZ a n.

(** [copyout] of bytes that the kernel has, and [copyin] over a kernel buffer
    that holds [old]. *)
Definition copyout_bytes (pt dst : Z) (bytes : list Z) (v : vms A) : bool * vms A :=
  match copyout pt dst KBUF (Z.of_nat (length bytes)) (set_pm (poke (pm v) KBUF bytes) v) with
  | Ret (r, v') => (r =? 0, v')
  | _ => (false, v)
  end.
Definition copyin_bytes (pt src : Z) (old : list Z) (v : vms A) : list Z * bool * vms A :=
  let n := Z.of_nat (length old) in
  match copyin pt KBUF src n (set_pm (poke (pm v) KBUF old) v) with
  | Ret (r, v') => (peek (pm v') KBUF n, r =? 0, v')
  | _ => (old, false, v)
  end.

Definition either_copyout (user_dst : bool) (dst : Z) (bytes : list Z) : M kst Z :=
  p <- myproc ;;
  if user_dst then
    v <- gets kvm ;;
    let '(ok, v') := copyout_bytes (pagetable p) dst bytes v in
    modify (set_kvm v') ;;;
    ret (if (ok : bool) then 0 else -1)
  else onvm (on_mem (fun m => poke m dst bytes)) ;;; ret 0.

Definition either_copyin (old : list Z) (user_src : bool) (src : Z) : M kst (list Z * Z) :=
  p <- myproc ;;
  if user_src then
    v <- gets kvm ;;
    let '(bytes, ok, v') := copyin_bytes (pagetable p) src old v in
    modify (set_kvm v') ;;;
    ret (bytes, if (ok : bool) then 0 else -1)
  else
    v <- gets kvm ;;
    ret (peek (pm v) src (Z.of_nat (length old)), 0).

Definition proc_pagetable (trampoline tf : Z) : M (vms A) Z :=
  pt <- uvmcreate ;;
  if pt =? 0 then ret 0
  else
    r <- mappages pt TRAMPOLINE PGSIZE trampoline (Z.lor PTE_R PTE_X) ;;
    if r <? 0 then uvmfree pt 0 ;;; ret 0
    else
      r <- mappages pt TRAPFRAME PGSIZE tf (Z.lor PTE_R PTE_W) ;;
      if r <? 0 then
        uvmunmap pt TRAMPOLINE 1 false ;;;
        uvmfree pt 0 ;;;
        ret 0
      else ret pt.

Definition proc_freepagetable (pt n : Z) : M (vms A) unit :=
  uvmunmap pt TRAMPOLINE 1 false ;;;
  uvmunmap pt TRAPFRAME 1 false ;;;
  uvmfree pt n.

Definition growproc (n : Z) : M kst Z :=
  p <- myproc ;;
  let n0 := sz p in
  if 0 <? n then
    r <- onvm (uvmalloc (pagetable p) n0 (u64 (n0 + n)) PTE_W) ;;
    if r =? 0 then ret (-1)
    else mod_myproc (with_sz r) ;;; ret 0
  else if n <? 0 then
    r <- onvm (uvmdealloc (pagetable p) n0 (u64 (n0 + n))) ;;
    mod_myproc (with_sz r) ;;; ret 0
  else mod_myproc (with_sz n0) ;;; ret 0.

End Kernel.

Arguments kst A : clear implicits.
