(* ===== verification/File.v ===== *)
(** * Open files (kernel/file.c, and pipealloc of kernel/pipe.c)

    The operations on [struct file] over the kernel's state.  Where a pipe
    makes the caller sleep, the operation ends in [Sleep] with the process
    asleep; a [begin_op] that would sleep does not return.  The device switch
    is a parameter: which majors have a read and a write function. *)

From stdpp Require Import gmap.
From S2P Require Import Prelude Bytes Bio Log Fs Vm Pipe Kern.

Section File.
  Context {A : Type} `{PA : PageAllocator A} `{FH : FileHeap A}.
  Context (devread devwrite : Z -> option (Z -> Z -> M (kst A) Z)).

Notation K := (M (kst A)).

Definition get_file (f : Z) : K file := t <- gets files ;; from_option "file" (t !! f).
Definition put_file (f : Z) (v : file) : K unit := modify (fun s => set_files (<[f := v]> (files s)) s).
Definition get_pipe (pi : Z) : K pipe := t <- gets pipes ;; from_option "pipe" (t !! pi).
Definition put_pipe (pi : Z) (v : pipe) : K unit := modify (fun s => set_pipes (<[pi := v]> (pipes s)) s).

Definition kbegin_op : K unit := ok <- onfs (onl begin_op) ;; if (ok : bool) then ret tt else diverge.
Definition kend_op : K unit := onfs (onl end_op).

Definition wakeups (pi : Z) (l : list Pipe.chan) : K unit :=
  foldr (fun c m => wakeup (match c with ChRead => ChPipeRead pi | ChWrite => ChPipeWrite pi end) ;;; m) (ret tt) l.

(** [filealloc]: the [memset] comes before any test of the pointer. *)
Definition filealloc : K Z :=
  f <- onvm (zoom al set_al fh_alloc) ;;
  if f =? 0 then fault "filealloc: memset of null"
  else put_file f (with_fref 1 file0) ;;; ret f.

Definition filedup (f : Z) : K Z :=
  v <- get_file f ;;
  if fref v <? 1 then panic "filedup"
  else put_file f (with_fref (i32 (fref v + 1)) v) ;;; ret f.

(** [pipeclose] in the kernel: wake the other end, free the page. *)
Definition kpipeclose (pi : Z) (w : bool) : K unit :=
  v <- get_pipe pi ;;
  let '(v', c, last) := pipeclose v w in
  put_pipe pi v' ;;;
  wakeups pi [c] ;;;
  when last
    (modify (fun s => set_pipes (delete pi (pipes s)) s) ;;;
     onvm (kfree pi)).

Definition fileclose (f : Z) : K unit :=
  v <- get_file f ;;
  if fref v <? 1 then panic "fileclose"
  else
    let r := fref v - 1 in
    put_file f (with_fref r v) ;;;
    if 0 <? r then ret tt
    else
      (match ftype v with
       | FD_PIPE => kpipeclose (fpipe v) (writable v)
       | FD_INODE | FD_DEVICE =>
           kbegin_op ;;;
           onfs (iput (fip v)) ;;;
           kend_op
       | FD_NONE => ret tt
       end) ;;;
      modify (fun s => set_files (delete f (files s)) s) ;;;
      onvm (zoom al set_al (fh_free f)).

(** The bytes of a [struct stat]: dev, ino, type, nlink, four bytes of
    padding, size. *)
Definition stat_bytes (st : stat) : list Z :=
  wr 8 (wr16 (wr16 (wr32 (wr32 (replicate 24 0) 0 (st_dev st)) 4 (st_ino st)) 8 (st_type st)) 10 (st_nlink st)) 16 (st_size st).

Definition filestat (f addr : Z) : K Z :=
  v <- get_file f ;;
  match ftype v with
  | FD_INODE | FD_DEVICE =>
      onfs (ilock (fip v)) ;;;
      st <- onfs (stati (fip v)) ;;
      onfs (iunlock (fip v)) ;;;
      r <- either_copyout true addr (stat_bytes st) ;;
      if r <? 0 then ret (-1) else ret 0
  | _ => ret (-1)
  end.

(** [readi] to and [writei] from the memory of the running process. *)
Definition user_readi (ip dst o n : Z) : K Z :=
  p <- myproc ;;
  v <- gets kvm ;;
  r <- onfs (readi (copyout_bytes (pagetable p)) v ip dst o (u32 n)) ;;
  modify (set_kvm (snd r)) ;;;
  ret (fst r).
Definition user_writei (ip src o n : Z) : K Z :=
  p <- myproc ;;
  v <- gets kvm ;;
  r <- onfs (writei (copyin_bytes (pagetable p)) v ip src o (u32 n)) ;;
  modify (set_kvm (snd r)) ;;;
  ret (fst r).

(** A byte can be read from, or written to, a user address. *)
Definition user_byte (pt : Z) (v : vms A) (a : Z) : option Z :=
  match copyin_bytes pt a [0] v with ([c], true, _) => Some c | _ => None end.
Definition user_room (pt : Z) (v : vms A) (a : Z) : bool := fst (copyout_bytes pt a [0] v).

(** One section of [piperead] or [pipewrite] by the running process. *)
Definition kpiperead (pi addr n : Z) : K fin :=
  p <- myproc ;;
  v <- gets kvm ;;
  x <- get_pipe pi ;;
  let '(r, x', w, bytes) := piperead (user_room (pagetable p) v) (negb (killed p =? 0)) addr n x in
  put_pipe pi x' ;;;
  modify (set_kvm (snd (copyout_bytes (pagetable p) addr bytes v))) ;;;
  wakeups pi w ;;;
  (match r with Sleep _ => sleep_enter (ChPipeRead pi) | Done _ => ret tt end) ;;;
  ret r.
Definition kpipewrite (pi addr n i : Z) : K fin :=
  p <- myproc ;;
  v <- gets kvm ;;
  x <- get_pipe pi ;;
  let '(r, x', w) := pipewrite (user_byte (pagetable p) v) (negb (killed p =? 0)) addr n i x in
  put_pipe pi x' ;;;
  wakeups pi w ;;;
  (match r with Sleep _ => sleep_enter (ChPipeWrite pi) | Done _ => ret tt end) ;;;
  ret r.

Definition device (t : Z -> option (Z -> Z -> K Z)) (v : file) : option (Z -> Z -> K Z) :=
  if (fmajor v <? 0) || (fmajor v >=? NDEV) then None else t (fmajor v).

Definition fileread (f addr n : Z) : K fin :=
  v <- get_file f ;;
  if negb (readable v) then ret (Done (-1))
  else
    match ftype v with
    | FD_PIPE => kpiperead (fpipe v) addr n
    | FD_DEVICE =>
        match device devread v with
        | None => ret (Done (-1))
        | Some rd => r <- rd addr n ;; ret (Done r)
        end
    | FD_INODE =>
        onfs (ilock (fip v)) ;;;
        r <- user_readi (fip v) addr (foff v) n ;;
        when (0 <? r) (put_file f (with_foff (u32 (foff v + r)) v)) ;;;
        onfs (iunlock (fip v)) ;;;
        ret (Done r)
    | FD_NONE => panic "fileread"
    end.

(** The most that one transaction may write: a few blocks. *)
Definition max_write : Z := (MAXOPBLOCKS - 1 - 1 - 2) / 2 * BSIZE.

Definition filewrite (f addr n : Z) : K fin :=
  v <- get_file f ;;
  if negb (writable v) then ret (Done (-1))
  else
    match ftype v with
    | FD_PIPE => kpipewrite (fpipe v) addr n 0
    | FD_DEVICE =>
        match device devwrite v with
        | None => ret (Done (-1))
        | Some wr => r <- wr addr n ;; ret (Done r)
        end
    | FD_INODE =>
        i <- loop (S (Z.to_nat n)) (fun i =>
          if i <? n then
            let n1 := if n - i >? max_write then max_write else n - i in
            kbegin_op ;;;
            onfs (ilock (fip v)) ;;;
            v <- get_file f ;;
            r <- user_writei (fip v) (u64 (addr + i)) (foff v) n1 ;;
            when (0 <? r) (put_file f (with_foff (u32 (foff v + r)) v)) ;;;
            onfs (iunlock (fip v)) ;;;
            kend_op ;;;
            if negb (r =? n1) then ret (inr i) else ret (inl (i + r))
          else ret (inr i)) 0 ;;
        ret (Done (if i =? n then n else -1))
    | FD_NONE => panic "filewrite"
    end.

(** [pipealloc]: two files for the ends of a new pipe, or [None] for -1. *)
Definition pipealloc : K (option (Z * Z)) :=
  f0 <- filealloc ;;
  f1 <- filealloc ;;
  pi <- onvm kalloc ;;
  if pi =? 0 then
    fileclose f0 ;;;
    fileclose f1 ;;;
    ret None
  else
    page <- gets (fun s => peek (pm (kvm s)) (pi + 24) PIPESIZE) ;;
    put_pipe pi (new_pipe page) ;;;
    put_file f0 (mkFile FD_PIPE 1 true false pi 0 0 0) ;;;
    put_file f1 (mkFile FD_PIPE 1 false true pi 0 0 0) ;;;
    ret (Some (f0, f1)).

End File.
