(* ===== verification/Proc.v ===== *)
(** * Processes (kernel/proc.c)

    Creation, exit and wait over the kernel's state.  [exit] is the function up
    to the call of [sched] that does not come back; [wait] is one pass over the
    table, which ends in [Sleep] where the code sleeps before it tries again.
    The addresses of [trampoline], [forkret] and [initcode] are parameters:
    the linker fixes them. *)

From stdpp Require Import gmap.
From S2P Require Import Prelude KString Buddy Bytes Bio Log Fs Vm Pipe Kern File.

Section Proc.
  Context {A : Type} `{PA : PageAllocator A} `{FH : FileHeap A}.
  Context (trampoline forkret initcode : Z).

Notation K := (M (kst A)).

(** Offsets in [struct trapframe]. *)
Definition TF_epc : Z := 24.
Definition TF_sp : Z := 48.
Definition TF_a0 : Z := 112.
Definition TF_a1 : Z := 120.
Definition TF_a7 : Z := 168.
Definition TF_size : Z := 288.

Definition get_tf (p : proc) (o : Z) : K Z := onvm (rd64 (trapframe p + o)).
Definition set_tf (p : proc) (o v : Z) : K unit := onvm (wr64 (trapframe p + o) v).

Definition procinit : K unit :=
  modify (fun s => set_procs
    ((fun i => let p := nth (Z.to_nat i) (procs s) proc0 in
       mkProc UNUSED (chan p) (killed p) (xstate p) (pid p) (parent p) (KSTACK i) (sz p) (pagetable p) (trapframe p)
         (ctx p) (ofile p) (cwd p) (name p)) <$> seqZ 0 NPROC) s).

Definition allocpid : K Z :=
  n <- gets nextpid ;;
  modify (set_nextpid (i32 (n + 1))) ;;;
  ret n.

Definition freeproc (i : Z) : K unit :=
  p <- get_proc i ;;
  when (negb (trapframe p =? 0)) (onvm (kfree (trapframe p))) ;;;
  mod_proc i (with_trapframe 0) ;;;
  when (negb (pagetable p =? 0)) (onvm (proc_freepagetable (pagetable p) (sz p))) ;;;
  mod_proc i (fun p => mkProc UNUSED None 0 0 0 None (kstack p) 0 0 (trapframe p) (ctx p) (ofile p) (cwd p) []).

(** The first process in a state. *)
Fixpoint find_state (st : procstate) (t : list proc) (i : Z) : option Z :=
  match t with
  | [] => None
  | p :: t' => if bool_decide (state p = st) then Some i else find_state st t' (i + 1)
  end.

Definition allocproc : K (option Z) :=
  t <- gets procs ;;
  match find_state UNUSED t 0 with
  | None => ret None
  | Some i =>
      n <- allocpid ;;
      mod_proc i (fun p => with_state USED (with_pid n p)) ;;;
      tf <- onvm kalloc ;;
      mod_proc i (with_trapframe tf) ;;;
      if tf =? 0 then freeproc i ;;; ret None
      else
        pt <- onvm (proc_pagetable trampoline tf) ;;
        mod_proc i (with_pagetable pt) ;;;
        if pt =? 0 then freeproc i ;;; ret None
        else
          mod_proc i (fun p => with_ctx (mkContext forkret (kstack p + PGSIZE)) p) ;;;
          ret (Some i)
  end.

(** [safestrcpy(dst, src, 16)] on names. *)
Definition copy_name (src : list Z) : list Z := take 15 src.

(** [initcode] has 52 bytes. *)
Definition userinit : K unit :=
  r <- allocproc ;;
  match r with
  | None => fault "userinit: null process"
  | Some i =>
      modify (set_initproc i) ;;;
      p <- get_proc i ;;
      onvm (uvmfirst (pagetable p) initcode 52) ;;;
      mod_proc i (with_sz PGSIZE) ;;;
      set_tf p TF_epc 0 ;;;
      set_tf p TF_sp PGSIZE ;;;
      mod_proc i (with_name (copy_name [105; 110; 105; 116; 99; 111; 100; 101])) ;;;
      d <- onfs (namei 0 [SLASH]) ;;
      mod_proc i (with_cwd d) ;;;
      mod_proc i (with_state RUNNABLE)
  end.

(** Duplicate every open file of the list. *)
Fixpoint dup_files (l : list Z) : K unit :=
  match l with
  | [] => ret tt
  | f :: l' => when (negb (f =? 0)) (filedup f ;;; ret tt) ;;; dup_files l'
  end.

(** The child's table: the parent's files where it has them. *)
Definition merge_files (par child : list Z) : list Z :=
  zip_with (fun f g => if f =? 0 then g else f) par child.

Definition fork : K Z :=
  p <- myproc ;;
  me <- gets cur ;;
  r <- allocproc ;;
  match r with
  | None => ret (-1)
  | Some i =>
      np <- get_proc i ;;
      c <- onvm (uvmcopy (pagetable p) (pagetable np) (sz p)) ;;
      if c <? 0 then freeproc i ;;; ret (-1)
      else
        mod_proc i (with_sz (sz p)) ;;;
        onvm (on_mem (memmove (trapframe np) (trapframe p) TF_size)) ;;;
        set_tf np TF_a0 0 ;;;
        dup_files (ofile p) ;;;
        mod_proc i (fun q => with_ofile (merge_files (ofile p) (ofile q)) q) ;;;
        (match cwd p with
         | Some d => onfs (idup d) ;;; ret tt
         | None => fault "idup: null"
         end) ;;;
        mod_proc i (fun q => with_name (copy_name (name p)) (with_cwd (cwd p) q)) ;;;
        mod_proc i (with_parent (Some me)) ;;;
        mod_proc i (with_state RUNNABLE) ;;;
        ret (pid np)
  end.

(** [reparent]: the children of process [i] go to [initproc]. *)
Definition reparent (i : Z) : K unit :=
  n <- gets (fun s => length (procs s)) ;;
  for_range 0 (Z.of_nat n) (fun j =>
    pp <- get_proc j ;;
    when (bool_decide (parent pp = Some i))
      (ip <- gets initproc ;;
       mod_proc j (with_parent (Some ip)) ;;;
       wakeup (ChProc ip))).

(** Close the files of the running process from descriptor [fd] on. *)
Definition close_files : K unit :=
  for_range 0 NOFILE (fun fd =>
    p <- myproc ;;
    f <- from_option "ofile" (aget (ofile p) fd) ;;
    when (negb (f =? 0))
      (fileclose f ;;;
       mod_myproc (fun p => with_ofile (<[Z.to_nat fd := 0]> (ofile p)) p))).

Definition exit (status : Z) : K unit :=
  me <- gets cur ;;
  ip <- gets initproc ;;
  if me =? ip then panic "init exiting"
  else
    close_files ;;;
    kbegin_op ;;;
    p <- myproc ;;
    (match cwd p with Some d => onfs (iput d) | None => fault "iput: null" end) ;;;
    kend_op ;;;
    mod_myproc (with_cwd None) ;;;
    reparent me ;;;
    p <- myproc ;;
    (match parent p with Some q => wakeup (ChProc q) | None => ret tt end) ;;;
    mod_myproc (fun p => with_state ZOMBIE (with_xstate status p)).

(** The children of a process: the first zombie, and whether there are any. *)
Fixpoint find_child (me : Z) (t : list proc) (i : Z) (kids : bool) : option Z * bool :=
  match t with
  | [] => (None, kids)
  | p :: t' =>
      if bool_decide (parent p = Some me) then
        if bool_decide (state p = ZOMBIE) then (Some i, true) else find_child me t' (i + 1) true
      else find_child me t' (i + 1) kids
  end.

Definition wait (addr : Z) : K fin :=
  me <- gets cur ;;
  t <- gets procs ;;
  p <- myproc ;;
  match find_child me t 0 false with
  | (Some i, _) =>
      pp <- get_proc i ;;
      r <- (if negb (addr =? 0) then either_copyout true addr (wr32 (replicate 4 0) 0 (xstate pp)) else ret 0) ;;
      if r <? 0 then ret (Done (-1))
      else
        freeproc i ;;;
        ret (Done (pid pp))
  | (None, kids) =>
      if negb kids || negb (killed p =? 0) then ret (Done (-1))
      else sleep_enter (ChProc me) ;;; ret (Sleep 0)
  end.

End Proc.
