(* ===== verification/ProcThms.v ===== *)
(** * The process table

    The invariant of the process table over the operations of Kern.v, File.v
    and Proc.v, as the running process calls them and the scheduler interleaves
    them; what [exit], [wait] and [wakeup] do; and what [kill] of pid 0 does. *)

From stdpp Require Import gmap.
From S2P Require Import Prelude KString Buddy Bytes Bio Log Fs Vm VmThms Pipe Kern File Proc.

Section ProcThms.
  Context {A : Type} `{PA : PageAllocator A} `{FH : FileHeap A}.
  Context (trampoline forkret : Z).

Notation K := (M (kst A)).

(** Process [i] of a state. *)
Definition pat (s : kst A) (i : Z) (p : proc) : Prop := aget (procs s) i = Some p.

Definition alive (st : procstate) : Prop := st <> UNUSED /\ st <> ZOMBIE.
#[local] Instance alive_dec st : Decision (alive st) := ltac:(unfold alive; apply _).

(** The process table is in order: a slot is unused exactly when its pid is 0,
    and then it holds no memory; pids of used slots are different and below
    the next one; a process other than the first has a parent, and the parent
    is neither unused nor a zombie; the first process never ends. *)
Record proc_ok (s : kst A) : Prop := {
  po_len : length (procs s) = Z.to_nat NPROC;
  po_unused : forall i p, pat s i p -> (state p = UNUSED <-> pid p = 0);
  po_empty : forall i p, pat s i p -> state p = UNUSED -> trapframe p = 0 /\ pagetable p = 0 /\ parent p = None;
  po_pid : forall i p, pat s i p -> state p <> UNUSED -> 0 < pid p < nextpid s;
  po_uniq : forall i p j q, pat s i p -> pat s j q -> state p <> UNUSED -> pid p = pid q -> i = j;
  po_has : forall i p, pat s i p -> state p <> UNUSED -> i <> initproc s -> parent p <> None;
  po_parent : forall i p j, pat s i p -> parent p = Some j -> exists q, pat s j q /\ alive (state q);
  po_init : exists p, pat s (initproc s) p /\ alive (state p);
  po_next : 0 < nextpid s
}.

(** ** Rules for the parts of an operation *)

Lemma onvm_pwp {B} (m : M (vms A) B) s (Q : B -> kst A -> Prop) :
  (forall r v, Q r (set_kvm v s)) -> pwp (onvm m) s Q.
Proof. intros H. apply pwp_zoom. intros r v _. apply H. Qed.

Lemma onfs_pwp {B} (m : M fsst B) s (Q : B -> kst A -> Prop) :
  (forall r v, Q r (set_kfs v s)) -> pwp (onfs m) s Q.
Proof. intros H. apply pwp_zoom. intros r v _. apply H. Qed.

Lemma get_proc_pwp i s (Q : proc -> kst A -> Prop) : (forall p, pat s i p -> Q p s) -> pwp (get_proc i) s Q.
Proof. intros H. unfold get_proc. pwp_step. pwp_step. apply pwp_from_option. exact H. Qed.

(** The table after a change of slot [i]. *)
Definition upd_proc (s : kst A) (i : Z) (p : proc) : kst A := set_procs (<[Z.to_nat i := p]> (procs s)) s.

Lemma mod_proc_pwp i f s (Q : unit -> kst A -> Prop) :
  (forall p, pat s i p -> Q tt (upd_proc s i (f p))) -> pwp (mod_proc i f) s Q.
Proof.
  intros H. unfold mod_proc. pwp_step. apply get_proc_pwp. intros p Hp. pwp_step. pwp_step. pwp_step.
  apply pwp_from_option. intros t Ht. pwp_step. unfold aset in Ht. case_if_in Ht; [done|]. injection Ht as <-. by apply H.
Qed.

Lemma pat_upd s i p p' j q : pat s i p -> pat (upd_proc s i p') j q <-> (j = i /\ q = p') \/ (j <> i /\ pat s j q).
Proof.
  intros Hp. pose proof (aget_range _ _ _ Hp) as Hr. unfold pat, upd_proc. cbn [procs set_procs].
  destruct (Z.lt_ge_cases j 0) as [Hj|Hj].
  - unfold aget. zcmp. naive_solver lia.
  - rewrite aget_insert by lia. destruct (j =? i) eqn:E; bool_prop; naive_solver.
Qed.

Lemma pat_fun s i p q : pat s i p -> pat s i q -> p = q.
Proof. unfold pat. congruence. Qed.

(** ** Changes that do not matter to the table

    A process may be woken, and fields other than the pid, the parent and the
    memory may change. *)
Definition woken (p p' : proc) : Prop :=
  pid p' = pid p /\ parent p' = parent p /\ trapframe p' = trapframe p /\ pagetable p' = pagetable p
  /\ (state p' = state p \/ (state p = SLEEPING /\ state p' = RUNNABLE)) /\ chan p' = chan p.

Record quiet (s s' : kst A) : Prop := {
  qu_next : nextpid s' = nextpid s;
  qu_init : initproc s' = initproc s;
  qu_cur : cur s' = cur s;
  qu_procs : Forall2 woken (procs s) (procs s')
}.

Lemma woken_refl p : woken p p.
Proof. unfold woken. naive_solver. Qed.
Lemma woken_trans p q r : woken p q -> woken q r -> woken p r.
Proof. intros (?&?&?&?&Ha&?) (?&?&?&?&Hb&?). unfold woken. split_and!; try congruence. destruct Ha as [?|[? ?]], Hb as [?|[? ?]]; try (left; congruence); right; split; congruence. Qed.

Lemma woken_all l : Forall2 woken l l.
Proof. apply Forall_Forall2_diag, Forall_true, woken_refl. Qed.

#[global] Instance quiet_refl : Reflexive quiet.
Proof. intros s. constructor; try done. apply woken_all. Qed.
#[global] Instance quiet_trans : Transitive quiet.
Proof.
  intros s1 s2 s3 [? ? ? Ha] [? ? ? Hb]. constructor; try congruence.
  revert Hb. generalize (procs s3). induction Ha as [|p q l l' Hpq Ha IH]; intros l3 Hb; inversion_clear Hb as [|? r ? l3' Hqr Hl]; constructor;
    [by eapply woken_trans | by apply IH].
Qed.

Lemma quiet_pat s s' i p' : quiet s s' -> pat s' i p' -> exists p, pat s i p /\ woken p p'.
Proof.
  intros [_ _ _ H] [H0 Hi]%aget_lookup. destruct (Forall2_lookup_r _ _ _ _ _ H Hi) as (p & Hp & Hw).
  exists p. split; [by apply aget_lookup | done].
Qed.
Lemma quiet_pat_l s s' i p : quiet s s' -> pat s i p -> exists p', pat s' i p' /\ woken p p'.
Proof.
  intros [_ _ _ H] [H0 Hi]%aget_lookup. destruct (Forall2_lookup_l _ _ _ _ _ H Hi) as (p' & Hp & Hw).
  exists p'. split; [by apply aget_lookup | done].
Qed.

Lemma woken_unused p p' : woken p p' -> state p' = UNUSED <-> state p = UNUSED.
Proof. intros (_&_&_&_&[->|[-> ->]]&_); [done|]. split; discriminate. Qed.
Lemma woken_zombie p p' : woken p p' -> state p' = ZOMBIE <-> state p = ZOMBIE.
Proof. intros (_&_&_&_&[->|[-> ->]]&_); [done|]. split; discriminate. Qed.
Lemma woken_alive p p' : woken p p' -> alive (state p') <-> alive (state p).
Proof. intros H. unfold alive. by rewrite (woken_unused _ _ H), (woken_zombie _ _ H). Qed.

(** A process that sleeps in [wait] has no child that is a zombie. *)
Definition wait_ok (s : kst A) : Prop :=
  forall i p j q, pat s i p -> state p = SLEEPING -> chan p = Some (ChProc i) ->
    pat s j q -> parent q = Some i -> state q <> ZOMBIE.

Lemma woken_sleeping p p' : woken p p' -> state p' = SLEEPING -> state p = SLEEPING.
Proof. intros (_&_&_&_&[->|[-> ->]]&_); done. Qed.

Lemma wait_ok_quiet s s' : quiet s s' -> wait_ok s -> wait_ok s'.
Proof.
  intros Hq W i p' j q' Hp' Hs Hc Hq' Hpar Hz.
  destruct (quiet_pat _ _ _ _ Hq Hp') as (p & Hp & Hw), (quiet_pat _ _ _ _ Hq Hq') as (q & Hqq & Hw').
  apply (W i p j q Hp (woken_sleeping _ _ Hw Hs)); [destruct Hw as (_&_&_&_&_&<-); done | done | destruct Hw' as (_&<-&_); done |].
  by apply (woken_zombie _ _ Hw').
Qed.

Lemma proc_ok_quiet s s' : quiet s s' -> proc_ok s -> proc_ok s'.
Proof.
  intros Hq [P1 P2 P3 P4 P5 P6 P6' P7 P8]. constructor.
  - by rewrite <- (Forall2_length _ _ _ (qu_procs _ _ Hq)).
  - intros i p' Hp'. destruct (quiet_pat _ _ _ _ Hq Hp') as (p & Hp & Hw). rewrite (woken_unused _ _ Hw).
    destruct Hw as (-> & _). by apply (P2 i).
  - intros i p' Hp' Hu. destruct (quiet_pat _ _ _ _ Hq Hp') as (p & Hp & Hw). apply (woken_unused _ _ Hw) in Hu.
    destruct Hw as (_ & -> & -> & -> & _). by apply (P3 i).
  - intros i p' Hp' Hu. destruct (quiet_pat _ _ _ _ Hq Hp') as (p & Hp & Hw). rewrite (woken_unused _ _ Hw) in Hu.
    rewrite (qu_next _ _ Hq). destruct Hw as (-> & _). by apply (P4 i).
  - intros i p' j q' Hp' Hq' Hu E. destruct (quiet_pat _ _ _ _ Hq Hp') as (p & Hp & Hw), (quiet_pat _ _ _ _ Hq Hq') as (q & Hqq & Hw').
    rewrite (woken_unused _ _ Hw) in Hu. destruct Hw as (E1 & _), Hw' as (E2 & _). apply (P5 i p j q); try done. congruence.
  - intros i p' Hp' Hu Hne. destruct (quiet_pat _ _ _ _ Hq Hp') as (p & Hp & Hw). rewrite (woken_unused _ _ Hw) in Hu.
    rewrite (qu_init _ _ Hq) in Hne. destruct Hw as (_ & -> & _). by apply (P6 i).
  - intros i p' j Hp' Ej. destruct (quiet_pat _ _ _ _ Hq Hp') as (p & Hp & (_ & E & _)). rewrite E in Ej.
    destruct (P6' i p j Hp Ej) as (q & Hqj & Ha). destruct (quiet_pat_l _ _ _ _ Hq Hqj) as (q' & Hq' & Hw').
    exists q'. by rewrite (woken_alive _ _ Hw').
  - destruct P7 as (p & Hp & Ha). rewrite (qu_init _ _ Hq). destruct (quiet_pat_l _ _ _ _ Hq Hp) as (p' & Hp' & Hw).
    exists p'. by rewrite (woken_alive _ _ Hw).
  - by rewrite (qu_next _ _ Hq).
Qed.

(** ** Operations that are quiet *)

Notation calm := (keeps quiet).

#[global] Instance quiet_preorder : PreOrder quiet.
Proof. split; apply _. Qed.

Lemma calm_onvm {B} (m : M (vms A) B) : calm (onvm m).
Proof. intros s. apply onvm_pwp. intros _ v. constructor; try done. apply woken_all. Qed.
Lemma calm_onfs {B} (m : M fsst B) : calm (onfs m).
Proof. intros s. apply onfs_pwp. intros _ v. constructor; try done. apply woken_all. Qed.
Lemma calm_files f : calm (modify (fun s => set_files (f s) s)).
Proof. apply keeps_modify. intros s. constructor; try done. apply woken_all. Qed.
Lemma calm_pipes f : calm (modify (fun s => set_pipes (f s) s)).
Proof. apply keeps_modify. intros s. constructor; try done. apply woken_all. Qed.
Lemma calm_kvm v : calm (modify (set_kvm v)).
Proof. apply keeps_modify. intros s. constructor; try done. apply woken_all. Qed.

Lemma wake_one_woken c p : woken p (wake_one c p).
Proof.
  unfold wake_one. destruct (bool_decide_reflect (state p = SLEEPING)) as [E|]; cbn [andb]; [|apply woken_refl].
  destruct (bool_decide (chan p = Some c)); [|apply woken_refl]. unfold woken. naive_solver.
Qed.

Lemma calm_wakeup c : calm (wakeup c).
Proof.
  apply keeps_modify. intros s. constructor; try done. cbn [procs set_procs]. apply Forall2_same_length_lookup. split.
  - by rewrite length_imap.
  - intros i p p' Hp Hp'. rewrite list_lookup_imap, Hp in Hp'. cbn in Hp'. injection Hp' as <-.
    case_if; [apply woken_refl | apply wake_one_woken].
Qed.

(** A change of one process that does not matter. *)
Lemma quiet_upd s i p p' : pat s i p -> woken p p' -> quiet s (upd_proc s i p').
Proof.
  intros [H0 Hi]%aget_lookup Hw. constructor; try done. unfold upd_proc. cbn [procs set_procs].
  rewrite <- (list_insert_id (procs s) (Z.to_nat i) p) at 1 by done. apply Forall2_insert; [apply woken_all | done].
Qed.

Lemma calm_mod_proc i f : (forall p, woken p (f p)) -> calm (mod_proc i f).
Proof. intros H s. apply mod_proc_pwp. intros p Hp. by eapply quiet_upd. Qed.
Lemma calm_mod_myproc f : (forall p, woken p (f p)) -> calm (mod_myproc f).
Proof. intros H. unfold mod_myproc. apply keeps_bind; [apply keeps_gets | intros; by apply calm_mod_proc]. Qed.
Lemma calm_get_proc i : calm (get_proc i).
Proof. intros s. apply get_proc_pwp. intros. reflexivity. Qed.
#[local] Hint Resolve calm_onvm calm_onfs calm_files calm_pipes calm_kvm calm_wakeup calm_mod_proc calm_mod_myproc
  calm_get_proc : keeps.

Lemma calm_wakeups pi l : calm (wakeups pi l).
Proof. unfold wakeups. induction l as [|c l IH]; cbn [foldr]; keeps; done. Qed.
#[local] Hint Resolve calm_wakeups : keeps.

Lemma calm_filedup f : calm (filedup f).
Proof. unfold filedup, get_file, put_file. keeps. Qed.

Lemma calm_kpipeclose pi w : calm (kpipeclose pi w).
Proof. unfold kpipeclose, get_pipe, put_pipe. keeps. Qed.
#[local] Hint Resolve calm_filedup calm_kpipeclose : keeps.

Lemma calm_kbegin_op : calm kbegin_op.
Proof. unfold kbegin_op. keeps. Qed.
#[local] Hint Resolve calm_kbegin_op : keeps.

Lemma calm_fileclose f : calm (fileclose f).
Proof. unfold fileclose, get_file, put_file, kend_op. keeps. Qed.
#[local] Hint Resolve calm_fileclose : keeps.

Lemma calm_dup_files l : calm (dup_files l).
Proof. induction l as [|f l IH]; cbn [dup_files]; keeps; done. Qed.

Lemma calm_close_files : calm close_files.
Proof.
  unfold close_files, myproc. apply keeps_for. intros fd. keeps.
  apply calm_mod_myproc. intros p. unfold woken. naive_solver.
Qed.

Lemma calm_either_copyout u d b : calm (either_copyout u d b).
Proof. unfold either_copyout, myproc. keeps. Qed.
#[local] Hint Resolve calm_dup_files calm_close_files calm_either_copyout : keeps.

(** ** Changing one slot *)

(** A state that differs in slot [i] of the table, and otherwise quietly. *)
Record slot (s s' : kst A) (i : Z) (p' : proc) : Prop := {
  sl_init : initproc s' = initproc s;
  sl_cur : cur s' = cur s;
  sl_len : length (procs s') = length (procs s);
  sl_pat : forall j q, pat s' j q <-> (j = i /\ q = p') \/ (j <> i /\ pat s j q)
}.

Lemma slot_upd s i p p' : pat s i p -> slot s (upd_proc s i p') i p'.
Proof.
  intros Hp. constructor; try done; [unfold upd_proc; cbn; by rewrite length_insert|]. intros j q. by eapply pat_upd.
Qed.

Lemma slot_same s i p : pat s i p -> slot s s i p.
Proof. intros Hp. constructor; try done. intros j q. destruct (decide (j = i)) as [->|]; [|naive_solver]. split; [|naive_solver]. intros Hq. left. split; [done|]. by eapply pat_fun. Qed.

Lemma slot_trans s1 s2 s3 i p q : slot s1 s2 i p -> slot s2 s3 i q -> slot s1 s3 i q.
Proof.
  intros [? ? ? Ha] [? ? ? Hb]. constructor; try congruence. intros j r. rewrite Hb, Ha. naive_solver.
Qed.

(** A state with the same table, apart from memory, files and so on. *)
Lemma slot_frame s s' i p : pat s i p -> procs s' = procs s -> initproc s' = initproc s -> cur s' = cur s -> slot s s' i p.
Proof. intros Hp E1 E2 E3. destruct (slot_same s i p Hp) as [? ? ? Hs]. constructor; try done; [by rewrite E1|]. intros j q. unfold pat at 1. rewrite E1. apply Hs. Qed.

Lemma proc_ok_slot s s' i p p' :
  proc_ok s -> pat s i p -> slot s s' i p' -> nextpid s <= nextpid s' ->
  (state p' = UNUSED <-> pid p' = 0) ->
  (state p' = UNUSED -> trapframe p' = 0 /\ pagetable p' = 0 /\ parent p' = None) ->
  (state p' <> UNUSED -> 0 < pid p' < nextpid s' /\ ((pid p' = pid p /\ state p <> UNUSED) \/ pid p' = nextpid s)) ->
  (state p' <> UNUSED -> i <> initproc s -> parent p' <> None) ->
  (forall j, parent p' = Some j -> exists q, pat s j q /\ alive (state q) /\ (j <> i \/ alive (state p'))) ->
  (alive (state p') \/ (i <> initproc s /\ forall j q, pat s j q -> parent q <> Some i)) ->
  proc_ok s'.
Proof.
  intros [P1 P2 P3 P4 P5 P6 P6' P7 P8] Hp Hs Hn Hu He Hpid Hhas Hpar Hal.
  assert (forall j q, pat s j q -> j <> i -> state q <> UNUSED -> state p' <> UNUSED -> pid q <> pid p') as Hdiff.
  { intros j q Hq Hne Hqu Hpu E. destruct (Hpid Hpu) as [_ [[Ep Hpu0]|Ep]].
    - apply Hne. apply (P5 j q i p); try done. congruence.
    - pose proof (P4 j q Hq Hqu). lia. }
  constructor.
  - by rewrite (sl_len _ _ _ _ Hs).
  - intros j q Hq. apply (sl_pat _ _ _ _ Hs) in Hq as [[-> ->]|[_ Hq]]; [done | by apply (P2 j)].
  - intros j q Hq Hqu. apply (sl_pat _ _ _ _ Hs) in Hq as [[-> ->]|[_ Hq]]; [by apply He | by apply (P3 j)].
  - intros j q Hq Hqu. apply (sl_pat _ _ _ _ Hs) in Hq as [[-> ->]|[_ Hq]]; [by apply Hpid|]. pose proof (P4 j q Hq Hqu). lia.
  - intros j q k r Hq Hr Hqu E. apply (sl_pat _ _ _ _ Hs) in Hq as [[-> ->]|[Hne Hq]], Hr as [[-> ->]|[Hne' Hr]]; try done.
    + exfalso. destruct (decide (state r = UNUSED)) as [Hru|Hru].
      * apply (P2 k r Hr) in Hru. destruct (Hpid Hqu) as [? _]. lia.
      * by apply (Hdiff k r).
    + exfalso. destruct (decide (state p' = UNUSED)) as [Hpu|Hpu].
      * apply Hu in Hpu. pose proof (P4 j q Hq Hqu). lia.
      * by apply (Hdiff j q).
    + by apply (P5 j q k r).
  - intros j q Hq Hqu Hne. rewrite (sl_init _ _ _ _ Hs) in Hne. apply (sl_pat _ _ _ _ Hs) in Hq as [[-> ->]|[_ Hq]]; [by apply Hhas | by apply (P6 j)].
  - assert (forall k, pat s' k p' <-> k = i \/ (k <> i /\ pat s k p')) as Hk by (intros k; rewrite (sl_pat _ _ _ _ Hs); naive_solver).
    intros j q k Hq E. apply (sl_pat _ _ _ _ Hs) in Hq as [[-> ->]|[Hji Hq]].
    + destruct (Hpar k E) as (r & Hr & Ha & Hor). destruct (decide (k = i)) as [->|Hki].
      * exists p'. split; [apply Hk; by left | by destruct Hor].
      * exists r. split; [|done]. apply (sl_pat _ _ _ _ Hs). by right.
    + destruct (P6' j q k Hq E) as (r & Hr & Ha). destruct (decide (k = i)) as [->|Hki].
      * destruct Hal as [Hal|[_ Hno]]; [|by destruct (Hno j q Hq)]. exists p'. split; [apply Hk; by left | done].
      * exists r. split; [|done]. apply (sl_pat _ _ _ _ Hs). by right.
  - rewrite (sl_init _ _ _ _ Hs). destruct P7 as (r & Hr & Ha). destruct (decide (initproc s = i)) as [E|E].
    + destruct Hal as [Hal|[Hni _]]; [|by destruct Hni]. exists p'. split; [|done]. apply (sl_pat _ _ _ _ Hs). by left.
    + exists r. split; [|done]. apply (sl_pat _ _ _ _ Hs). by right.
  - lia.
Qed.

(** Wake-ups in [wait] are not lost over a change of one slot. *)
Lemma wait_ok_slot s s' i p' : wait_ok s -> slot s s' i p' ->
  (state p' = SLEEPING -> chan p' = Some (ChProc i) -> forall j q, pat s' j q -> parent q = Some i -> state q <> ZOMBIE) ->
  (state p' = ZOMBIE -> forall j q, parent p' = Some j -> pat s j q -> j <> i -> state q = SLEEPING -> chan q <> Some (ChProc j)) ->
  wait_ok s'.
Proof.
  intros W Hs H1 H2 k p j q Hp Hsl Hc Hq Hpar Hz.
  pose proof Hp as Hp0. apply (sl_pat _ _ _ _ Hs) in Hp0 as [[-> ->]|[Hk Hp0]]; [by apply (H1 Hsl Hc j q)|].
  apply (sl_pat _ _ _ _ Hs) in Hq as [[-> ->]|[_ Hq]]; [by apply (H2 Hz k p) | by apply (W k p j q)].
Qed.

(** A process that is not alive is not the first one, and nobody's parent. *)
Lemma not_parent s i p : proc_ok s -> pat s i p -> ~ alive (state p) -> i <> initproc s /\ forall j q, pat s j q -> parent q <> Some i.
Proof.
  intros P Hp Hna. split.
  - intros ->. destruct (po_init _ P) as (q & Hq & Ha). assert (q = p) as -> by (by eapply pat_fun). done.
  - intros j q Hq E. destruct (po_parent _ P j q i Hq E) as (r & Hr & Ha). assert (r = p) as -> by (by eapply pat_fun). done.
Qed.

(** A slot that is free. *)
Definition free_slot (p : proc) : Prop := state p = UNUSED /\ pid p = 0 /\ trapframe p = 0 /\ pagetable p = 0 /\ parent p = None.

Lemma freeproc_pwp i s p (Q : unit -> kst A -> Prop) : pat s i p ->
  (forall s' p', slot s s' i p' -> free_slot p' -> nextpid s' = nextpid s -> Q tt s') -> pwp (freeproc i) s Q.
Proof.
  intros Hp HQ. unfold freeproc. pwp_step. apply get_proc_pwp. intros p0 Hp0. assert (p0 = p) as -> by (by eapply pat_fun).
  pwp_step.
  assert (forall s1, procs s1 = procs s -> initproc s1 = initproc s -> cur s1 = cur s -> nextpid s1 = nextpid s ->
    pwp (mod_proc i (with_trapframe 0) ;;;
      when (negb (pagetable p =? 0)) (onvm (proc_freepagetable (pagetable p) (sz p))) ;;;
      mod_proc i (fun p => mkProc UNUSED None 0 0 0 None (kstack p) 0 0 (trapframe p) (ctx p) (ofile p) (cwd p) [])) s1 Q) as Hrest.
  { intros s1 E1 E2 E3 E4. pwp_step. apply mod_proc_pwp. intros p1 Hp1. pwp_step.
    assert (slot s s1 i p) as S01 by (by apply slot_frame).
    pose proof (slot_upd s1 i p1 (with_trapframe 0 p1) Hp1) as S12.
    assert (forall s3, procs s3 = procs (upd_proc s1 i (with_trapframe 0 p1)) -> initproc s3 = initproc s1 -> cur s3 = cur s1 -> nextpid s3 = nextpid s1 ->
      pwp (mod_proc i (fun p => mkProc UNUSED None 0 0 0 None (kstack p) 0 0 (trapframe p) (ctx p) (ofile p) (cwd p) [])) s3 Q) as Hlast.
    { intros s3 F1 F2 F3 F4. assert (pat (upd_proc s1 i (with_trapframe 0 p1)) i (with_trapframe 0 p1)) as H2 by (apply S12; by left).
      assert (slot (upd_proc s1 i (with_trapframe 0 p1)) s3 i (with_trapframe 0 p1)) as S23 by (by apply slot_frame).
      apply mod_proc_pwp. intros p3 Hp3. pose proof Hp3 as Hp3'. apply S23 in Hp3' as [[_ ->]|[? _]]; [|done].
      eapply HQ; [eapply slot_trans; [eapply slot_trans; [eapply slot_trans; [exact S01 | exact S12] | exact S23] | by eapply slot_upd] | | ].
      - by split_and!.
      - cbn. congruence. }
    apply pwp_when; intros _; [apply onvm_pwp; intros _ v|]; by apply Hlast. }
  apply pwp_when; intros _; [apply onvm_pwp; intros _ v|]; by apply Hrest.
Qed.

(** ** Operations that leave the table alone *)

Definition still (s s' : kst A) : Prop :=
  procs s' = procs s /\ nextpid s' = nextpid s /\ initproc s' = initproc s /\ cur s' = cur s.

(** Slot [i] now holds [p'], and the next pid is [n]. *)
Definition track (s s' : kst A) (i : Z) (p' : proc) (n : Z) : Prop := slot s s' i p' /\ nextpid s' = n.

Lemma track_still s s1 s2 i p n : track s s1 i p n -> still s1 s2 -> track s s2 i p n.
Proof.
  intros [S1 En] (E1 & E2 & E3 & E4). split; [|congruence]. eapply slot_trans; [exact S1|]. apply slot_frame; try done. apply S1. by left.
Qed.

Lemma track_mod s s1 i p n f (Q : unit -> kst A -> Prop) :
  track s s1 i p n -> (forall s2, track s s2 i (f p) n -> Q tt s2) -> pwp (mod_proc i f) s1 Q.
Proof.
  intros [S1 En] HQ. apply mod_proc_pwp. intros p1 Hp1. pose proof Hp1 as H1. apply S1 in H1 as [[_ ->]|[? _]]; [|done].
  apply HQ. split; [|done]. eapply slot_trans; [exact S1 | by eapply slot_upd].
Qed.

Lemma still_onvm {B} (m : M (vms A) B) s (Q : B -> kst A -> Prop) : (forall r s', still s s' -> Q r s') -> pwp (onvm m) s Q.
Proof. intros H. apply onvm_pwp. intros r v. by apply H. Qed.
Lemma still_onfs {B} (m : M fsst B) s (Q : B -> kst A -> Prop) : (forall r s', still s s' -> Q r s') -> pwp (onfs m) s Q.
Proof. intros H. apply onfs_pwp. intros r v. by apply H. Qed.

Lemma still_trans s1 s2 s3 : still s1 s2 -> still s2 s3 -> still s1 s3.
Proof. unfold still. intros (?&?&?&?) (?&?&?&?). split_and!; congruence. Qed.

Lemma still_dup_files l s (Q : unit -> kst A -> Prop) : (forall s', still s s' -> Q tt s') -> pwp (dup_files l) s Q.
Proof.
  revert s. induction l as [|f l IH]; intros s HQ; cbn [dup_files]; [pwp_step; by apply HQ|].
  pwp_step. assert (forall s1, still s s1 -> pwp (dup_files l) s1 Q) as Hrest.
  { intros s1 H1. apply IH. intros s2 H2. apply HQ. by eapply still_trans. }
  apply pwp_when; intros _; [|by apply Hrest]. pwp_step. unfold filedup, get_file, put_file. pwp_step. pwp_step. pwp_step.
  apply pwp_from_option. intros v _. case_if; [pwp_step|]. pwp_step. pwp_step. pwp_step. pwp_step. by apply Hrest.
Qed.

Lemma find_state_spec st t i :
  match find_state st t i with
  | Some k => i <= k < i + Z.of_nat (length t) /\ exists p, t !! Z.to_nat (k - i) = Some p /\ state p = st
  | None => Forall (fun p => state p <> st) t
  end.
Proof.
  revert i. induction t as [|p t IH]; intros i; cbn [find_state]; [done|]. case_bool_decide as E.
  - cbn [length]. split; [lia|]. exists p. replace (Z.to_nat (i - i)) with 0%nat by lia. done.
  - specialize (IH (i + 1)). destruct (find_state st t (i + 1)) as [k|]; [|by constructor]. destruct IH as [Hk (q & Hq & Eq)].
    cbn [length]. split; [lia|]. exists q. replace (Z.to_nat (k - i)) with (S (Z.to_nat (k - (i + 1)))) by lia. done.
Qed.

(** The slot is free as it was before, or as [freeproc] leaves it. *)
Lemma allocproc_pwp s (Q : option Z -> kst A -> Prop) :
  proc_ok s -> wait_ok s -> nextpid s < 2 ^ 31 - 1 ->
  (forall i p s' p', pat s i p -> state p = UNUSED -> track s s' i p' (nextpid s + 1) ->
     state p' = USED -> pid p' = nextpid s -> killed p' = killed p -> find_state UNUSED (procs s) 0 = Some i -> Q (Some i) s') ->
  (forall s', proc_ok s' -> wait_ok s' -> Q None s') ->
  pwp (allocproc trampoline forkret) s Q.
Proof.
  intros P W Hn HS HN. unfold allocproc. pwp_step. pwp_step. pose proof (find_state_spec UNUSED (procs s) 0) as Hf.
  destruct (find_state UNUSED (procs s) 0) as [i|] eqn:Ef; [|pwp_step; by apply HN].
  destruct Hf as [Hi (p & Hp & Eu)]. rewrite Z.sub_0_r in Hp.
  assert (pat s i p) as Hpat by (apply aget_lookup; split; [lia | done]).
  pose proof (po_next _ P).
  pwp_step. unfold allocpid. pwp_step. pwp_step. pwp_step. pwp_step. pwp_step. rewrite i32_small by lia.
  assert (track s (set_nextpid (nextpid s + 1) s) i p (nextpid s + 1)) as T1 by (split; [by apply slot_frame | done]).
  pwp_step. apply (track_mod _ _ _ _ _ _ _ T1). intros s2 T2.
  assert (forall s3 p3, track s s3 i p3 (nextpid s + 1) -> pwp (freeproc i ;;; ret None) s3 Q) as Hfree.
  { intros s3 p3 [S3 N3]. pwp_step. apply (freeproc_pwp i s3 p3); [apply S3; by left|]. intros s4 p4 S4 (F1 & F2 & F3 & F4 & F5) N4. pwp_step.
    assert (slot s s4 i p4) as S04 by (by eapply slot_trans).
    apply HN; [|eapply (wait_ok_slot s s4 i p4); [done | done | congruence | congruence]].
    eapply (proc_ok_slot s s4 i p p4); try done; try lia.
    - intros j Ej. congruence.
    - right. by apply (not_parent s i p P Hpat); rewrite Eu; intros []. }
  pwp_step. apply still_onvm. intros tf s3 H3. pwp_step. eapply track_mod; [eapply track_still; [exact T2 | exact H3]|]. intros s4 T4.
  case_if; [by eapply Hfree|].
  pwp_step. apply still_onvm. intros pt s5 H5. pwp_step. eapply track_mod; [eapply track_still; [exact T4 | exact H5]|]. intros s6 T6.
  case_if; [by eapply Hfree|].
  pwp_step. eapply track_mod; [exact T6|]. intros s7 T7. pwp_step. by eapply HS.
Qed.

(** The process that runs. *)
Definition running (s : kst A) : Prop := exists p, pat s (cur s) p /\ state p = RUNNING.

Lemma fork_ok s : proc_ok s -> wait_ok s -> running s -> nextpid s < 2 ^ 31 - 1 ->
  pwp (fork trampoline forkret) s (fun _ s' => proc_ok s' /\ wait_ok s').
Proof.
  intros P W (me & Hme & Rme) Hn. unfold fork. pwp_step. unfold myproc. pwp_step. pwp_step. apply get_proc_pwp.
  intros p Hp. assert (p = me) as -> by (by eapply pat_fun). pwp_step. pwp_step. pwp_step.
  apply allocproc_pwp; try done; [|intros s' P' W'; by pwp_step].
  intros i q s1 q1 Hq Uq T1 Su Pid _ _. pwp_step. apply get_proc_pwp. intros np Hnp.
  assert (np = q1) as -> by (apply T1 in Hnp as [[_ ->]|[? _]]; done).
  assert (i <> cur s) as Hic by (intros ->; assert (q = me) as -> by (by eapply pat_fun); congruence).
  pwp_step. apply still_onvm. intros c s2 H2. case_if.
  - pwp_step. destruct (track_still _ _ _ _ _ _ T1 H2) as [S2 N2]. apply (freeproc_pwp i s2 q1); [apply S2; by left|].
    intros s3 q3 S3 (F1 & F2 & F3 & F4 & F5) N3. pwp_step.
    assert (slot s s3 i q3) as S03 by (by eapply slot_trans).
    split; [|eapply (wait_ok_slot s s3 i q3); [done | done | congruence | congruence]].
    eapply (proc_ok_slot s s3 i q q3); try done; try lia; [intros j Ej; congruence |].
    right. apply (not_parent s i q P Hq). rewrite Uq. by intros [].
  - pwp_step. eapply track_mod; [by eapply track_still|]. intros s3 T3.
    pwp_step. apply still_onvm. intros [] s4 H4. pwp_step. apply still_onvm. intros [] s5 H5.
    pwp_step. apply still_dup_files. intros s6 H6.
    assert (track s s6 i (with_sz (sz me) q1) (nextpid s + 1)) as T6 by (do 3 (eapply track_still; [|eassumption]); done).
    pwp_step. eapply track_mod; [exact T6|]. intros s7 T7. pwp_step.
    destruct (cwd me) as [d|]; [|pwp_step]. pwp_step. apply still_onfs. intros r s8 H8. pwp_step.
    pwp_step. eapply track_mod; [by eapply track_still|]. intros s9 T9.
    pwp_step. eapply track_mod; [exact T9|]. intros s10 T10. pwp_step. eapply track_mod; [exact T10|]. intros s11 [S11 N11]. pwp_step.
    pose proof (po_next _ P). split; [|by eapply (wait_ok_slot s s11 i)].
    eapply (proc_ok_slot s s11 i q _ P Hq S11); cbn; try lia; try done.
    + split; [done | lia].
    + intros j [= <-]. exists me. split_and!; try done; [rewrite Rme; by split | left; congruence].
    + left. by split.
Qed.

(** After [wakeup] nobody else sleeps on the channel. *)
Lemma wakeup_pwp c s (Q : unit -> kst A -> Prop) :
  (forall s', quiet s s' -> (forall j p, pat s' j p -> j <> cur s -> state p = SLEEPING -> chan p <> Some c) -> Q tt s') ->
  pwp (wakeup c) s Q.
Proof.
  intros HQ r s' E. pose proof (calm_wakeup c s r s' E) as Hq. unfold wakeup, modify in E. injection E as <- <-. apply HQ; [done|].
  intros j p [H0 Hj]%aget_lookup Hne. cbn [procs set_procs] in Hj. rewrite list_lookup_imap in Hj.
  destruct (procs s !! Z.to_nat j) as [p0|]; [|done]. cbn in Hj. injection Hj as <-.
  rewrite Z2Nat.id by lia. rewrite (proj2 (Z.eqb_neq _ _)) by done. unfold wake_one.
  destruct (bool_decide_reflect (state p0 = SLEEPING)), (bool_decide_reflect (chan p0 = Some c)); cbn; congruence.
Qed.

(** Giving a child to the first process and waking that one. *)
Lemma wait_ok_reparent s s' k pp ip : wait_ok s -> pat s k pp -> cur s <> ip ->
  quiet (upd_proc s k (with_parent (Some ip) pp)) s' ->
  (forall j p, pat s' j p -> j <> cur s -> state p = SLEEPING -> chan p <> Some (ChProc ip)) -> wait_ok s'.
Proof.
  intros W Hk Hci Hq Hnot i p' j q' Hp' Hs Hc Hq' Hpar Hz.
  destruct (decide (i = ip)) as [->|Hi]; [by apply (Hnot ip p')|].
  destruct (quiet_pat _ _ _ _ Hq Hp') as (p & Hp & Hw), (quiet_pat _ _ _ _ Hq Hq') as (q & Hqq & Hw').
  pose proof (woken_sleeping _ _ Hw Hs) as Hs0. apply (woken_zombie _ _ Hw') in Hz.
  destruct Hw as (_&_&_&_&_&Ec), Hw' as (_&Ep&_). rewrite Ec in Hc. rewrite Ep in Hpar.
  apply (pat_upd s k pp) in Hp, Hqq; try done. destruct Hqq as [[-> ->]|[_ Hqq]]; [cbn in Hpar; congruence|].
  destruct Hp as [[-> ->]|[_ Hp]]; [by apply (W k pp j q) | by apply (W i p j q)].
Qed.

(** [reparent] leaves nobody with the process as parent. *)
Lemma reparent_pwp i s (Q : unit -> kst A -> Prop) :
  proc_ok s -> wait_ok s -> i <> initproc s -> cur s <> initproc s ->
  (forall s', proc_ok s' -> wait_ok s' -> initproc s' = initproc s -> cur s' = cur s -> nextpid s' = nextpid s ->
     (forall j q, pat s' j q -> parent q <> Some i) ->
     (forall j q', pat s' j q' -> exists q, pat s j q /\ pid q' = pid q /\ parent q' = (if bool_decide (parent q = Some i) then Some (initproc s) else parent q)
        /\ (state q' = state q \/ (state q = SLEEPING /\ state q' = RUNNABLE))) -> Q tt s') ->
  pwp (reparent i) s Q.
Proof.
  intros P W Hne Hci HQ. unfold reparent. pwp_step. pwp_step.
  eapply (pwp_for_range (fun k s' => proc_ok s' /\ wait_ok s' /\ initproc s' = initproc s /\ cur s' = cur s /\ nextpid s' = nextpid s
    /\ (forall j q', pat s' j q' -> exists q, pat s j q /\ pid q' = pid q
        /\ parent q' = (if bool_decide (parent q = Some i) && (j <? k) then Some (initproc s) else parent q)
        /\ (state q' = state q \/ (state q = SLEEPING /\ state q' = RUNNABLE))))).
  - lia.
  - split_and!; try done. intros j q Hq. exists q. split_and!; try done; [|by left].
    apply aget_range in Hq. replace (j <? 0) with false by (symmetry; apply Z.ltb_ge; lia). by rewrite andb_false_r.
  - intros k s1 Hk (P1 & Wt1 & E1 & E2 & E3 & Hc). pwp_step. apply get_proc_pwp. intros pp Hpp.
    destruct (Hc k pp Hpp) as (q0 & Hq0 & Hid0 & Hpar0 & Hst0).
    replace (k <? k) with false in Hpar0 by (symmetry; apply Z.ltb_irrefl). rewrite andb_false_r in Hpar0.
    assert (forall j q', j <> k -> pat s1 j q' -> exists q, pat s j q /\ pid q' = pid q
        /\ parent q' = (if bool_decide (parent q = Some i) && (j <? k + 1) then Some (initproc s) else parent q)
        /\ (state q' = state q \/ (state q = SLEEPING /\ state q' = RUNNABLE))) as Hother.
    { intros j q' Hjk Hq'. destruct (Hc j q' Hq') as (q & Hq & Hid & Hpar & Hst). exists q. split_and!; try done.
      rewrite Hpar. by replace (j <? k + 1) with (j <? k) by (destruct (Z.ltb_spec j k), (Z.ltb_spec j (k + 1)); lia). }
    apply pwp_when; intros Eb.
    + apply bool_decide_eq_true in Eb. pwp_step. pwp_step. rewrite E1. pwp_step. apply mod_proc_pwp. intros p1 Hp1.
      assert (p1 = pp) as -> by (by eapply pat_fun).
      assert (proc_ok (upd_proc s1 k (with_parent (Some (initproc s)) pp))) as P2.
      { destruct (po_init _ P1) as (ip & Hip & Ha). rewrite E1 in Hip.
        eapply (proc_ok_slot s1 _ k pp _ P1 Hpp); [by eapply slot_upd | cbn; lia | cbn; by apply (po_unused _ P1 k) | | | done | |]; cbn.
        - intros Hu. destruct (po_empty _ P1 k pp Hpp Hu) as (_ & _ & En). congruence.
        - intros Hu. split; [by apply (po_pid _ P1 k) | by left].
        - intros j [= <-]. exists ip. split_and!; try done. destruct (decide (initproc s = k)) as [E|]; [|by left].
          right. rewrite E in Hip. assert (ip = pp) as -> by (by eapply pat_fun). done.
        - destruct (decide (alive (state pp))) as [|Hna]; [by left|]. right. by eapply not_parent. }
      apply wakeup_pwp. intros s2 H2 Hnot.
      split; [by eapply proc_ok_quiet|]. split; [apply (wait_ok_reparent s1 s2 k pp (initproc s)); try done; congruence|]. rewrite (qu_init _ _ H2), (qu_cur _ _ H2), (qu_next _ _ H2). cbn. split_and!; try done.
      intros j q2 Hq2. destruct (quiet_pat _ _ _ _ H2 Hq2) as (q1 & Hq1 & (W1 & W2 & _ & _ & W5 & W6)).
      apply (pat_upd s1 k pp) in Hq1; [|done]. destruct Hq1 as [[-> ->]|[Hjk Hq1]].
      * exists q0. cbn in W1, W2, W5. split_and!; try done; [congruence | |].
        -- rewrite W2. rewrite bool_decide_true by congruence. replace (k <? k + 1) with true by (symmetry; apply Z.ltb_lt; lia). done.
        -- destruct W5 as [Y|[Y Y']], Hst0 as [X|[X X']]; [left; congruence | right; split; congruence | right; split; congruence | congruence].
      * destruct (Hother j q1 Hjk Hq1) as (q & Hq & Hid & Hpar & Hst). exists q. split_and!; try done; [congruence | congruence |].
        destruct W5 as [->|[Ws ->]]; [done|]. destruct Hst as [Hst|[? Hst]]; [right; split; [congruence | done] | congruence].
    + apply bool_decide_eq_false in Eb. split_and!; try done. intros j q' Hq'. destruct (decide (j = k)) as [->|Hjk]; [|by apply Hother].
      assert (q' = pp) as -> by (by eapply pat_fun). exists q0. split_and!; try done.
      rewrite bool_decide_false by congruence. exact Hpar0.
  - intros s1 (P1 & Wt1 & E1 & E2 & E3 & Hc).
    assert (forall j q', pat s1 j q' -> exists q, pat s j q /\ pid q' = pid q
      /\ parent q' = (if bool_decide (parent q = Some i) then Some (initproc s) else parent q)
      /\ (state q' = state q \/ (state q = SLEEPING /\ state q' = RUNNABLE))) as Hfin.
    { intros j q' Hq'. destruct (Hc j q' Hq') as (q & Hq & Hid & Hpar & Hst). exists q. split_and!; try done. rewrite Hpar.
      pose proof (aget_range _ _ _ Hq). replace (j <? Z.of_nat (length (procs s))) with true by (symmetry; apply Z.ltb_lt; lia).
      by rewrite andb_true_r. }
    apply HQ; try done. intros j q' Hq' E. destruct (Hfin j q' Hq') as (q & _ & _ & Hpar & _). rewrite E in Hpar.
    case_bool_decide; congruence.
Qed.

(** What [exit] has done when it calls [sched]. *)
Definition exited (status : Z) (s s' : kst A) : Prop :=
  proc_ok s' /\ wait_ok s'
  /\ (exists p', pat s' (cur s) p' /\ state p' = ZOMBIE /\ xstate p' = status
       /\ forall j q, parent p' = Some j -> pat s' j q -> state q = SLEEPING -> chan q <> Some (ChProc j))
  /\ (forall j q, pat s' j q -> parent q <> Some (cur s))
  /\ (forall j q, pat s j q -> parent q = Some (cur s) -> exists q', pat s' j q' /\ pid q' = pid q /\ parent q' = Some (initproc s)).

Lemma exit_pwp s status : proc_ok s -> wait_ok s -> running s -> pwp (exit status) s (fun _ s' => exited status s s').
Proof.
  intros P W (me & Hme & Rme). unfold exited.
  unfold exit. pwp_step. pwp_step. pwp_step. pwp_step. case_if; [pwp_step|].
  pwp_step. eapply pwp_mono; [apply calm_close_files|]. intros [] s1 Q1.
  pwp_step. eapply pwp_mono; [apply calm_kbegin_op|]. intros [] s2 Q2.
  pwp_step. unfold myproc at 1. pwp_step. pwp_step. apply get_proc_pwp. intros p2 Hp2.
  pwp_step. eapply (pwp_mono _ _ (fun _ s' => quiet s2 s')).
  { destruct (cwd p2); [apply calm_onfs | pwp_step]. }
  intros [] s3 Q3. pwp_step. eapply pwp_mono; [apply calm_onfs|]. intros [] s4 Q4.
  pwp_step. eapply pwp_mono; [apply calm_mod_myproc; intros p; unfold woken; naive_solver|]. intros [] s5 Q5.
  assert (quiet s s5) as Q05 by (do 4 (etransitivity; [eassumption|]); done).
  pwp_step. apply reparent_pwp; [by eapply proc_ok_quiet | by eapply wait_ok_quiet | rewrite (qu_init _ _ Q05); done |
    rewrite (qu_init _ _ Q05), (qu_cur _ _ Q05); done |].
  rewrite (qu_init _ _ Q05), (qu_cur _ _ Q05), (qu_next _ _ Q05). intros s6 P6 W6 I6 C6 N6 Hno Hcase.
  pwp_step. unfold myproc at 1. pwp_step. pwp_step. apply get_proc_pwp. intros p6 Hp6. rewrite C6 in Hp6.
  pwp_step. eapply (pwp_mono _ _ (fun _ s' => quiet s6 s' /\ forall q, parent p6 = Some q -> forall j r, pat s' j r -> j <> cur s -> state r = SLEEPING -> chan r <> Some (ChProc q))).
  { destruct (parent p6) as [q|]; [|pwp_step; split; [reflexivity | done]]. apply wakeup_pwp. intros s7 Q7 Hn. rewrite C6 in Hn. split; [done|].
    by intros q' [= <-]. }
  intros [] s7 [Q7 Hwoke]. unfold mod_myproc. pwp_step. pwp_step. rewrite (qu_cur _ _ Q7), C6. apply mod_proc_pwp. intros p7 Hp7.
  destruct (quiet_pat _ _ _ _ Q7 Hp7) as (p6' & Hp6' & Hw7). assert (p6' = p6) as -> by (by eapply pat_fun).
  assert (proc_ok s7) as P7 by (by eapply proc_ok_quiet). assert (wait_ok s7) as W7 by (by eapply wait_ok_quiet).
  assert (initproc s7 = initproc s) as I7 by (rewrite (qu_init _ _ Q7); done).
  assert (forall j q, pat s7 j q -> parent q <> Some (cur s)) as Hno7.
  { intros j q Hq. destruct (quiet_pat _ _ _ _ Q7 Hq) as (q0 & Hq0 & (_ & -> & _)). by apply (Hno j q0). }
  destruct (quiet_pat_l _ _ _ _ Q05 Hme) as (me5 & Hme5 & Wme).
  assert (state p7 = RUNNING) as R7.
  { destruct (Hcase _ _ Hp6) as (q5 & Hq5 & _ & _ & Hst). assert (q5 = me5) as -> by (by eapply pat_fun).
    destruct Wme as (_&_&_&_&[Em|[Em _]]&_); [|congruence]. destruct Hst as [Hst|[Hst _]]; [|congruence].
    destruct Hw7 as (_&_&_&_&[Ew|[Ew _]]&_); congruence. }
  set (z := with_state ZOMBIE (with_xstate status p7)).
  pose proof (slot_upd s7 (cur s) p7 z Hp7) as S8.
  assert (forall j q, pat (upd_proc s7 (cur s) z) j q -> parent q <> Some (cur s)) as Hno8.
  { intros j q Hq. apply S8 in Hq as [[-> ->]|[_ Hq]]; [by apply (Hno7 (cur s) p7) | by apply (Hno7 j q)]. }
  assert (forall j q, parent z = Some j -> pat s7 j q -> j <> cur s -> state q = SLEEPING -> chan q <> Some (ChProc j)) as Hz.
  { intros j q Ej Hq Hne. cbn in Ej. destruct Hw7 as (_ & Epar & _). rewrite Epar in Ej. exact (Hwoke j Ej j q Hq Hne). }
  split_and!.
  - eapply (proc_ok_slot s7 _ (cur s) p7 z P7 Hp7 S8); cbn; try done.
    + pose proof (po_unused _ P7 _ _ Hp7) as Hu. split; [done|]. intros Hid. apply Hu in Hid. congruence.
    + intros _. pose proof (po_pid _ P7 _ _ Hp7 ltac:(congruence)). split; [done | left; split; [done | congruence]].
    + intros _ Hni. apply (po_has _ P7 _ _ Hp7); [congruence | done].
    + intros j Ej. destruct (po_parent _ P7 _ _ j Hp7 Ej) as (q & Hq & Ha). exists q. split_and!; try done. left. intros ->. by apply (Hno7 _ _ Hp7).
    + right. split; [congruence | done].
  - eapply (wait_ok_slot s7 _ (cur s) z W7 S8); [done | intros _; exact Hz].
  - exists z. split_and!; try done; [apply S8; by left|]. intros j q Ej Hq. apply S8 in Hq as [[-> ->]|[Hne Hq]]; [done | by apply (Hz j)].
  - done.
  - intros j q Hq Epar. destruct (quiet_pat_l _ _ _ _ Q05 Hq) as (q5 & Hq5 & (E51 & E52 & _)).
    assert (exists q7, pat s7 j q7 /\ pid q7 = pid q /\ parent q7 = Some (initproc s)) as (q7 & Hq7 & Ei & Ep).
    { assert (0 <= j < Z.of_nat (length (procs s6))) as Hj.
      { rewrite (po_len _ P6). pose proof (aget_range _ _ _ Hq) as Hr. rewrite (po_len _ P) in Hr. done. }
      destruct (aget_is_Some _ _ Hj) as [q6 Hq6]. destruct (Hcase j q6 Hq6) as (q5' & Hq5' & F1 & F2 & _).
      assert (q5' = q5) as -> by (by eapply pat_fun). rewrite bool_decide_true in F2 by congruence.
      destruct (quiet_pat_l _ _ _ _ Q7 Hq6) as (q7 & Hq7 & (G1 & G2 & _)). exists q7. split_and!; congruence. }
    destruct (decide (j = cur s)) as [->|Hne].
    + exists z. assert (q7 = p7) as -> by (by eapply pat_fun). split_and!; try done. apply S8. by left.
    + exists q7. split_and!; try done. apply S8. by right.
Qed.

(** When [exit] reaches its call of [sched], the process is a zombie with
    the status for its parent, no process has it as parent any more, those
    that had belong to the first process now, and the parent does not sleep in
    [wait]; the table is still in order, and no other process sleeps in [wait]
    with a zombie child. *)
Theorem exit_correct (s s' : kst A) (status : Z) (P : proc_ok s) (W : wait_ok s) (R : running s)
  (E : exit status s = Ret (tt, s')) :
  proc_ok s' /\ wait_ok s'
  /\ (exists p', pat s' (cur s) p' /\ state p' = ZOMBIE /\ xstate p' = status
       /\ forall j q, parent p' = Some j -> pat s' j q -> state q = SLEEPING -> chan q <> Some (ChProc j))
  /\ (forall j q, pat s' j q -> parent q <> Some (cur s))
  /\ (forall j q, pat s j q -> parent q = Some (cur s) -> exists q', pat s' j q' /\ pid q' = pid q /\ parent q' = Some (initproc s)).
Proof. exact (exit_pwp s status P W R tt s' E). Qed.

Lemma find_child_spec me t i kids :
  match find_child me t i kids with
  | (Some k, _) => i <= k < i + Z.of_nat (length t)
      /\ exists p, t !! Z.to_nat (k - i) = Some p /\ parent p = Some me /\ state p = ZOMBIE
  | (None, kids') => (forall p, p ∈ t -> parent p = Some me -> state p <> ZOMBIE)
      /\ (kids' = true <-> kids = true \/ exists p, p ∈ t /\ parent p = Some me)
  end.
Proof.
  revert i kids. induction t as [|p t IH]; intros i kids; cbn [find_child].
  { split; [by intros p ?%not_elem_of_nil|]. split; [by left|]. intros [?|(p & Hp & _)]; [done | by apply not_elem_of_nil in Hp]. }
  destruct (bool_decide_reflect (parent p = Some me)) as [Ep|Ep]; [destruct (bool_decide_reflect (state p = ZOMBIE)) as [Ez|Ez]|].
  - split; [cbn; lia|]. exists p. replace (Z.to_nat (i - i)) with 0%nat by lia. done.
  - specialize (IH (i + 1) true). destruct (find_child me t (i + 1) true) as [[k|] kids'].
    + destruct IH as [Hk (q & Hq & ?)]. split; [cbn; lia|]. exists q. replace (Z.to_nat (k - i)) with (S (Z.to_nat (k - (i + 1)))) by lia. done.
    + destruct IH as [H1 H2]. split; [|set_solver]. intros q [->|Hq]%elem_of_cons; [done | by apply H1].
  - specialize (IH (i + 1) kids). destruct (find_child me t (i + 1) kids) as [[k|] kids'].
    + destruct IH as [Hk (q & Hq & ?)]. split; [cbn; lia|]. exists q. replace (Z.to_nat (k - i)) with (S (Z.to_nat (k - (i + 1)))) by lia. done.
    + destruct IH as [H1 H2]. split; [intros q [->|Hq]%elem_of_cons; [done | by apply H1]|].
      rewrite H2. split; [naive_solver set_solver|]. intros [?|(q & [->|Hq]%elem_of_cons & ?)]; [by left | done | right; eauto].
Qed.

(** A process that is freed leaves the table in order. *)
Lemma free_ok s s' i p p' : proc_ok s -> wait_ok s -> pat s i p -> state p = ZOMBIE -> slot s s' i p' -> free_slot p' -> nextpid s' = nextpid s ->
  proc_ok s' /\ wait_ok s'.
Proof.
  intros P W Hp Hz S1 (F1 & F2 & F3 & F4 & F5) N. split; [|eapply (wait_ok_slot s s' i p'); [done | done | congruence | congruence]].
  eapply (proc_ok_slot s s' i p p'); try done; try lia; [intros j Ej; congruence|].
  right. apply (not_parent s i p P Hp). rewrite Hz. by intros [].
Qed.

(** What a pass of [wait] has done. *)
Definition waited (s : kst A) (r : fin) (s' : kst A) : Prop :=
  proc_ok s' /\ wait_ok s' /\ cur s' = cur s
  /\ match r with
     | Done v =>
         (exists i p p', pat s i p /\ parent p = Some (cur s) /\ state p = ZOMBIE /\ v = pid p
            /\ pat s' i p' /\ free_slot p')
         \/ (v = -1 /\ forall i p, pat s i p -> exists p', pat s' i p' /\ woken p p')
     | Sleep _ =>
         (exists p', pat s' (cur s) p' /\ state p' = SLEEPING /\ chan p' = Some (ChProc (cur s)))
         /\ (exists i p, pat s i p /\ parent p = Some (cur s))
         /\ (forall i p, pat s i p -> parent p = Some (cur s) -> state p <> ZOMBIE)
     end.

Lemma wait_pwp s addr : proc_ok s -> wait_ok s -> running s -> pwp (wait addr) s (fun r s' => waited s r s').
Proof.
  intros P W (me & Hme & Rme). unfold waited.
  assert (forall p, p ∈ procs s <-> exists i, pat s i p) as Hin.
  { intros p. split.
    - intros (k & Hk)%list_elem_of_lookup. exists (Z.of_nat k). apply aget_lookup. rewrite Nat2Z.id. split; [lia | done].
    - intros (k & [_ Hk]%aget_lookup). by eapply list_elem_of_lookup_2. }
  unfold wait. pwp_step. pwp_step. pwp_step. pwp_step. pwp_step. unfold myproc at 1. pwp_step. pwp_step. apply get_proc_pwp. intros p0 Hp0.
  assert (p0 = me) as -> by (by eapply pat_fun).
  pose proof (find_child_spec (cur s) (procs s) 0 false) as Hf. destruct (find_child (cur s) (procs s) 0 false) as [[i|] kids].
  - destruct Hf as [Hi (pp & Hpp & Hpar & Hz)]. rewrite Z.sub_0_r in Hpp.
    assert (pat s i pp) as Hpat by (apply aget_lookup; split; [lia | done]).
    pwp_step. apply get_proc_pwp. intros p1 Hp1. assert (p1 = pp) as -> by (by eapply pat_fun).
    pwp_step. eapply (pwp_mono _ _ (fun _ s' => quiet s s')).
    { destruct (negb (addr =? 0)); [apply calm_either_copyout | apply keeps_ret]. }
    intros c s1 Q1. assert (proc_ok s1) as P1 by (by eapply proc_ok_quiet). assert (wait_ok s1) as W1 by (by eapply wait_ok_quiet).
    case_if.
    + pwp_step. split_and!; try done; [by rewrite (qu_cur _ _ Q1)|]. right. split; [done|]. intros j q Hq. by eapply quiet_pat_l.
    + destruct (quiet_pat_l _ _ _ _ Q1 Hpat) as (p1 & Hp1' & Hw1). pwp_step. apply (freeproc_pwp i s1 p1 _ Hp1').
      intros s2 p2 S2 F2 N2. pwp_step. destruct (free_ok s1 s2 i p1 p2 P1 W1 Hp1') as [P2 W2]; try done; [by apply (woken_zombie _ _ Hw1)|].
      split_and!; try done; [rewrite (sl_cur _ _ _ _ S2), (qu_cur _ _ Q1); done|].
      left. exists i, pp, p2. split_and!; try done. apply S2. by left.
  - destruct Hf as [Hnz Hkids]. destruct (negb kids || negb (killed me =? 0)) eqn:E.
    + pwp_step. split_and!; try done. right. split; [done|]. intros i p Hp. exists p. split; [done | apply woken_refl].
    + pwp_step. unfold sleep_enter, mod_myproc. pwp_step. pwp_step. apply mod_proc_pwp. intros p1 Hp1. assert (p1 = me) as -> by (by eapply pat_fun).
      pwp_step. set (z := with_state SLEEPING (with_chan (Some (ChProc (cur s))) me)).
      pose proof (slot_upd s (cur s) me z Hme) as S1.
      assert (forall i p, pat s i p -> parent p = Some (cur s) -> state p <> ZOMBIE) as Hnz'.
      { intros i p Hp Hpar. apply Hnz; [|done]. apply Hin. eauto. }
      apply orb_false_iff in E as [E1 _]. assert (kids = true) as -> by (by destruct kids).
      split_and!.
      * eapply (proc_ok_slot s _ (cur s) me z P Hme S1); cbn; try done.
        -- pose proof (po_unused _ P _ _ Hme) as Hu. split; [done|]. intros Hid. apply Hu in Hid. congruence.
        -- intros _. pose proof (po_pid _ P _ _ Hme ltac:(congruence)). split; [done | left; split; [done | congruence]].
        -- intros _ Hni. apply (po_has _ P _ _ Hme); [congruence | done].
        -- intros j Ej. destruct (po_parent _ P _ _ j Hme Ej) as (q & Hq & Ha). exists q. split_and!; try done. right. by split.
        -- left. by split.
      * eapply (wait_ok_slot s _ (cur s) z W S1); [|done]. intros _ _ j q Hq Hpar. apply S1 in Hq as [[-> ->]|[_ Hq]]; [done | by apply (Hnz' j q)].
      * done.
      * exists z. split_and!; try done. apply S1. by left.
      * destruct (proj1 Hkids eq_refl) as [?|(p & Hp & Hpar)]; [done|]. apply Hin in Hp as (i & Hp). eauto.
      * done.
Qed.

(** A pass of [wait] that returns keeps the table in order.  It gives the
    pid of a child that was a zombie and whose slot is free afterwards; or -1
    when the process has no child, was killed, or its memory could not take
    the status; or it leaves the process asleep, and then it has a child and
    no child is a zombie. *)
Theorem wait_correct (s s' : kst A) (addr : Z) (r : fin) (P : proc_ok s) (W : wait_ok s) (R : running s)
  (E : wait addr s = Ret (r, s')) :
  proc_ok s' /\ wait_ok s' /\ cur s' = cur s
  /\ match r with
     | Done v =>
         (exists i p p', pat s i p /\ parent p = Some (cur s) /\ state p = ZOMBIE /\ v = pid p
            /\ pat s' i p' /\ free_slot p')
         \/ (v = -1 /\ forall i p, pat s i p -> exists p', pat s' i p' /\ woken p p')
     | Sleep _ =>
         (exists p', pat s' (cur s) p' /\ state p' = SLEEPING /\ chan p' = Some (ChProc (cur s)))
         /\ (exists i p, pat s i p /\ parent p = Some (cur s))
         /\ (forall i p, pat s i p -> parent p = Some (cur s) -> state p <> ZOMBIE)
     end.
Proof. exact (wait_pwp s addr P W R r s' E). Qed.

Lemma calm_kill pd : calm (kill pd).
Proof.
  unfold kill. apply keeps_bind; [apply keeps_gets|]. intros t. destruct (find_pid pd t 0) as [i|]; [|apply keeps_ret].
  apply keeps_bind; [|intros; apply keeps_ret]. apply calm_mod_proc. intros p. unfold woken.
  cbn [state with_killed]. case_bool_decide; cbn; naive_solver.
Qed.

(** The running process changes its own state, staying alive. *)
Lemma own_change s p p' : proc_ok s -> wait_ok s -> pat s (cur s) p -> state p = RUNNING ->
  pid p' = pid p -> parent p' = parent p -> alive (state p') -> (state p' = SLEEPING -> chan p' <> Some (ChProc (cur s))) ->
  proc_ok (upd_proc s (cur s) p') /\ wait_ok (upd_proc s (cur s) p').
Proof.
  intros P W Hp Hr Eid Epar [A1 A2] Hc. pose proof (slot_upd s (cur s) p p' Hp) as S1. split.
  - pose proof (po_unused _ P _ _ Hp) as Hu.
    eapply (proc_ok_slot s _ (cur s) p p' P Hp S1); cbn; try done.
    + split; [done|]. rewrite Eid. intros Hid. apply Hu in Hid. congruence.
    + intros _. rewrite Eid. pose proof (po_pid _ P _ _ Hp ltac:(congruence)). split; [done | left; split; [done | congruence]].
    + intros _ Hni. rewrite Epar. apply (po_has _ P _ _ Hp); [congruence | done].
    + intros j Ej. rewrite Epar in Ej. destruct (po_parent _ P _ _ j Hp Ej) as (q & Hq & Ha). exists q. split_and!; try done. right. by split.
    + left. by split.
  - eapply (wait_ok_slot s _ (cur s) p' W S1); [intros Hs Hch; by destruct (Hc Hs) | congruence].
Qed.

(** The steps of the system, as the running process makes them, and the switch
    to a process that can run when the current one has given up the CPU. *)
Inductive kstep : kst A -> kst A -> Prop :=
| ks_fork s s' r : running s -> nextpid s < 2 ^ 31 - 1 -> fork trampoline forkret s = Ret (r, s') -> kstep s s'
| ks_exit s s' status : running s -> exit status s = Ret (tt, s') -> kstep s s'
| ks_wait s s' addr r : running s -> wait addr s = Ret (r, s') -> kstep s s'
| ks_kill s s' pd r : kill pd s = Ret (r, s') -> kstep s s'
| ks_sleep s s' c : running s -> (forall i, c <> ChProc i) -> sleep_enter c s = Ret (tt, s') -> kstep s s'
| ks_awake s s' : running s -> sleep_leave s = Ret (tt, s') -> kstep s s'
| ks_yield s s' : running s -> yield_enter s = Ret (tt, s') -> kstep s s'
| ks_wakeup s s' c : wakeup c s = Ret (tt, s') -> kstep s s'
| ks_close s s' f : fileclose f s = Ret (tt, s') -> kstep s s'
| ks_switch s s' i : ~ running s -> schedule i s = Ret (true, s') -> kstep s (set_cur i s').

Inductive kreach (s0 : kst A) : kst A -> Prop :=
| kr_refl : kreach s0 s0
| kr_step s s' : kreach s0 s -> kstep s s' -> kreach s0 s'.

Lemma kstep_ok s s' : kstep s s' -> proc_ok s -> wait_ok s -> proc_ok s' /\ wait_ok s'.
Proof.
  assert (forall B (m : K B) s s' b, calm m -> m s = Ret (b, s') -> proc_ok s -> wait_ok s -> proc_ok s' /\ wait_ok s') as Hcalm.
  { intros B m t t' b Hm E P W. pose proof (Hm t b t' E) as Q. cbn beta in Q. split; [by eapply proc_ok_quiet | by eapply wait_ok_quiet]. }
  assert (forall t t' f, running t -> mod_myproc f t = Ret (tt, t') -> proc_ok t -> wait_ok t ->
    (forall p, state p = RUNNING -> pid (f p) = pid p /\ parent (f p) = parent p /\ alive (state (f p)) /\ (state (f p) = SLEEPING -> chan (f p) <> Some (ChProc (cur t)))) ->
    proc_ok t' /\ wait_ok t') as Hown.
  { intros t t' f (p & Hp & Rp) E P W Hf. assert (pwp (mod_myproc f) t (fun _ t' => proc_ok t' /\ wait_ok t')) as Hm; [|by apply (Hm tt t')].
    unfold mod_myproc. pwp_step. pwp_step. apply mod_proc_pwp. intros p0 Hp0. rewrite (pat_fun _ _ _ _ Hp0 Hp).
    destruct (Hf p Rp) as (F1 & F2 & F3 & F4). eapply (own_change t p (f p)); done. }
  intros H P W. destruct H.
  - eapply fork_ok; try done.
  - destruct (exit_pwp s status P W H tt s' H0) as (? & ? & _). done.
  - destruct (wait_pwp s addr P W H r s' H0) as (? & ? & _). done.
  - by eapply Hcalm; [apply calm_kill|..].
  - eapply Hown; try done. intros p Hp. cbn. split_and!; try done. intros _ [= Hc]. by destruct (H0 (cur s)).
  - eapply Hown; try done. intros p Hp. cbn. rewrite Hp. by split_and!.
  - by eapply Hown.
  - by eapply Hcalm; [apply calm_wakeup|..].
  - by eapply Hcalm; [apply calm_fileclose|..].
  - assert (pwp (schedule i) s (fun b s' => b = true -> proc_ok s' /\ wait_ok s')) as Hm.
    { unfold schedule. pwp_step. apply get_proc_pwp. intros p Hp. case_bool_decide as Er; [|by pwp_step]. pwp_step.
      apply mod_proc_pwp. intros p0 Hp0. rewrite (pat_fun _ _ _ _ Hp0 Hp). pwp_step. intros _.
      pose proof (slot_upd s i p (with_state RUNNING p) Hp) as S1. split; [|by eapply (wait_ok_slot s _ i)].
      pose proof (po_unused _ P _ _ Hp) as Hu. eapply (proc_ok_slot s _ i p _ P Hp S1); cbn; try done.
      - split; [done|]. intros Hid. apply Hu in Hid. congruence.
      - intros _. pose proof (po_pid _ P _ _ Hp ltac:(congruence)). split; [done | left; split; [done | congruence]].
      - intros _ Hni. apply (po_has _ P _ _ Hp); [congruence | done].
      - intros j Ej. destruct (po_parent _ P _ _ j Hp Ej) as (q & Hq & Ha). exists q. split_and!; try done. right. by split.
      - left. by split. }
    destruct (Hm true s' H0 eq_refl) as [P' W']. split; [by destruct P' | exact W'].
Qed.

(** C3: in every state that forks, exits, waits, kills, sleeps, wake-ups, closed
    files and context switches lead to, the process table is in order, and no
    process sleeps in [wait] while one of its children is a zombie. *)
Theorem process_table_invariant (s0 s : kst A) (P0 : proc_ok s0) (W0 : wait_ok s0) (H : kreach s0 s) : proc_ok s /\ wait_ok s.
Proof. induction H as [|s s' _ [P W] Hs]; [done|]. by eapply kstep_ok. Qed.

Lemma find_pid_zero t i : (forall p, p ∈ t -> state p = UNUSED <-> pid p = 0) -> find_pid 0 t i = find_state UNUSED t i.
Proof.
  revert i. induction t as [|p t IH]; intros i H; cbn [find_pid find_state]; [done|].
  rewrite IH by (intros q Hq; apply H; by right). pose proof (H p ltac:(left)) as Hp.
  case_bool_decide as E; [rewrite (proj2 (Z.eqb_eq _ _)); [done | by apply Hp] | rewrite (proj2 (Z.eqb_neq _ _)); [done | tauto]].
Qed.

(** [kill] of pid 0 reports success when the table has an unused slot: it
    marks that slot as killed.  The next process that [allocproc] makes takes
    this very slot and starts its life killed. *)
Theorem kill_zero_poisons (s : kst A) (i : Z) (P : proc_ok s) (W : wait_ok s) (Hn : nextpid s < 2 ^ 31 - 1)
  (Hfree : find_state UNUSED (procs s) 0 = Some i) :
  exists s1, kill 0 s = Ret (0, s1)
    /\ (exists p1, pat s1 i p1 /\ state p1 = UNUSED /\ killed p1 = 1)
    /\ forall j s2, allocproc trampoline forkret s1 = Ret (Some j, s2) ->
         j = i /\ exists p2, pat s2 i p2 /\ state p2 = USED /\ killed p2 = 1.
Proof.
  pose proof (find_state_spec UNUSED (procs s) 0) as Hf. rewrite Hfree in Hf. destruct Hf as [Hi (p & Hp & Eu)]. rewrite Z.sub_0_r in Hp.
  assert (pat s i p) as Hpat by (apply aget_lookup; split; [lia | done]).
  set (p1 := with_killed 1 p). set (s1 := upd_proc s i p1).
  assert (kill 0 s = Ret (0, s1)) as Ek.
  { unfold kill, bind at 1, gets at 1. rewrite find_pid_zero.
    - rewrite Hfree. unfold bind at 1. unfold mod_proc, get_proc, bind, gets, from_option. unfold pat in Hpat. rewrite Hpat.
      unfold ret at 1. cbn [state with_killed]. rewrite bool_decide_false by congruence.
      rewrite aset_is_Some by lia. done.
    - intros q (k & Hk)%list_elem_of_lookup. apply (po_unused _ P (Z.of_nat k)). apply aget_lookup. rewrite Nat2Z.id. split; [lia | done]. }
  assert (quiet s s1) as Q by (apply (calm_kill 0 s 0 s1 Ek)).
  assert (pat s1 i p1) as H1 by (apply (pat_upd s i p p1); [done | by left]).
  exists s1. split; [done|]. split; [by exists p1|].
  assert (pwp (allocproc trampoline forkret) s1 (fun r s2 => forall j, r = Some j -> j = i /\ exists p2, pat s2 i p2 /\ state p2 = USED /\ killed p2 = 1)) as Ha;
    [|intros j s2 E; by apply (Ha (Some j) s2)].
  apply allocproc_pwp; [by eapply proc_ok_quiet | by eapply wait_ok_quiet | by rewrite (qu_next _ _ Q) | | by intros].
  intros k q s2 p2 Hq Uq [S2 _] Su _ Hk Hfk j [= <-].
  assert (k = i) as ->.
  { revert Hfk. unfold s1, upd_proc. cbn [procs set_procs].
    enough (find_state UNUSED (<[Z.to_nat i := p1]> (procs s)) 0 = find_state UNUSED (procs s) 0) as -> by congruence.
    generalize 0. revert Hp. generalize (Z.to_nat i). generalize (procs s). clear -Eu.
    induction l as [|x l IH]; intros n Hp z; [done|]. destruct n as [|n]; cbn in Hp |- *; [injection Hp as ->; by rewrite !bool_decide_true|].
    case_bool_decide; [done|]. by apply IH. }
  split; [done|]. exists p2. split; [apply S2; by left|]. split; [done|]. rewrite Hk. by rewrite (pat_fun _ _ _ _ Hq H1).
Qed.

End ProcThms.

(** ** The allocators of open files, and a small system *)

(** [bd_malloc(sizeof(struct file))] and [bd_free]. *)
#[export] Instance buddy_files : FileHeap bd := { fh_alloc := bd_malloc 64; fh_free := bd_free }.
#[export] Instance bump_files : FileHeap bump := { fh_alloc := bump_alloc; fh_free := fun _ => ret tt }.

(** The first process (slot 0) with a child (slot 1) that has a child of its own
    (slot 2); the root directory is in the inode table. *)
Definition small_procs (s0 s1 s2 : procstate) : list proc :=
  [ with_cwd (Some 0) (with_pid 1 (with_state s0 proc0));
    with_cwd (Some 0) (with_parent (Some 0) (with_pid 2 (with_state s1 proc0)));
    with_cwd (Some 0) (with_parent (Some 1) (with_pid 3 (with_state s2 proc0))) ]
  ++ replicate 61 proc0.

Definition small_fs : fsst :=
  mkFsst (mkLst log0 (mkBst [] [] (fun _ => []) [] 0)) [mkInode 1 1 3 None true (mkDinode T_DIR 0 0 1 0 (replicate 13 0))]
    (mkSb 0 0 0 0 0 0 0 0) [].

Definition small_kst (t : list proc) (c : Z) : kst bump := mkK (mkVms (fun _ => 0) 8192) small_fs ∅ ∅ t 4 0 c 0.

(** The slots of a small table. *)
Lemma small_pat s0 s1 s2 c i p : pat (small_kst (small_procs s0 s1 s2) c) i p ->
  (i = 0 /\ p = with_cwd (Some 0) (with_pid 1 (with_state s0 proc0)))
  \/ (i = 1 /\ p = with_cwd (Some 0) (with_parent (Some 0) (with_pid 2 (with_state s1 proc0))))
  \/ (i = 2 /\ p = with_cwd (Some 0) (with_parent (Some 1) (with_pid 3 (with_state s2 proc0))))
  \/ (2 < i /\ p = proc0).
Proof.
  intros [H0 Hi]%aget_lookup. cbn [procs small_kst] in Hi. unfold small_procs in Hi.
  destruct (Z.to_nat i) as [|[|[|n]]] eqn:En; cbn [app lookup list_lookup] in Hi.
  - left. injection Hi as <-. split; [lia | done].
  - right. left. injection Hi as <-. split; [lia | done].
  - right. right. left. injection Hi as <-. split; [lia | done].
  - right. right. right. split; [lia|]. change (replicate 61 proc0 !! n = Some p) in Hi. by apply lookup_replicate in Hi as [-> _].
Qed.

Lemma small_ok s0 s1 s2 c : alive s0 -> alive s1 -> s2 <> UNUSED -> proc_ok (small_kst (small_procs s0 s1 s2) c).
Proof.
  intros [A0 Z0] [A1 Z1] H2.
  assert (pat (small_kst (small_procs s0 s1 s2) c) 0 (with_cwd (Some 0) (with_pid 1 (with_state s0 proc0)))) as Hp0 by done.
  assert (pat (small_kst (small_procs s0 s1 s2) c) 1 (with_cwd (Some 0) (with_parent (Some 0) (with_pid 2 (with_state s1 proc0))))) as Hp1 by done.
  constructor.
  - done.
  - intros i p Hp. apply small_pat in Hp as [[_ ->]|[[_ ->]|[[_ ->]|[_ ->]]]]; cbn; split; done.
  - intros i p Hp. apply small_pat in Hp as [[_ ->]|[[_ ->]|[[_ ->]|[_ ->]]]]; cbn; done.
  - intros i p Hp. apply small_pat in Hp as [[_ ->]|[[_ ->]|[[_ ->]|[_ ->]]]]; cbn; intros; lia || done.
  - intros i p j q Hp Hq. apply small_pat in Hp as [[-> ->]|[[-> ->]|[[-> ->]|[_ ->]]]], Hq as [[-> ->]|[[-> ->]|[[-> ->]|[_ ->]]]]; cbn; done.
  - intros i p Hp. apply small_pat in Hp as [[-> ->]|[[_ ->]|[[_ ->]|[_ ->]]]]; cbn; done.
  - intros i p j Hp. apply small_pat in Hp as [[-> ->]|[[_ ->]|[[_ ->]|[_ ->]]]]; cbn; try done; intros [= <-]; eexists; (split; [done | by split]).
  - eexists. split; [exact Hp0 | by split].
  - done.
Qed.

Lemma small_wait s0 s1 s2 c : s0 <> SLEEPING -> s1 <> SLEEPING -> s2 <> SLEEPING -> wait_ok (small_kst (small_procs s0 s1 s2) c).
Proof.
  intros H0 H1 H2 i p j q Hp Hs. apply small_pat in Hp as [[_ ->]|[[_ ->]|[[_ ->]|[_ ->]]]]; cbn in Hs; done.
Qed.

(** Process 2 exits. *)
Definition exit_start : kst bump := small_kst (small_procs RUNNABLE RUNNING RUNNABLE) 1.
Definition exit_end : kst bump := match exit 7 exit_start with Ret (_, s) => s | _ => exit_start end.

Lemma exit_correct_witness : exit 7 exit_start = Ret (tt, exit_end)
  /\ exists p', pat exit_end 1 p' /\ state p' = ZOMBIE /\ xstate p' = 7.
Proof.
  assert (exit 7 exit_start = Ret (tt, exit_end)) as E by (vm_compute; reflexivity). split; [exact E|].
  destruct (exit_correct exit_start exit_end 7) as (_ & _ & (p' & H1 & H2 & H3 & _) & _).
  - apply small_ok; [split; discriminate | split; discriminate | discriminate].
  - apply small_wait; discriminate.
  - eexists. split; reflexivity.
  - exact E.
  - exists p'. split; [exact H1|]. split; [exact H2 | exact H3].
Defined.

(** Process 2 collects process 3, which has exited. *)
Definition wait_start : kst bump := small_kst (small_procs RUNNABLE RUNNING ZOMBIE) 1.
Definition wait_end : kst bump := match wait 0 wait_start with Ret (_, s) => s | _ => wait_start end.

Lemma wait_correct_witness : wait 0 wait_start = Ret (Done 3, wait_end) /\ proc_ok wait_end.
Proof.
  assert (wait 0 wait_start = Ret (Done 3, wait_end)) as E by (vm_compute; reflexivity). split; [exact E|].
  destruct (wait_correct wait_start wait_end 0 (Done 3)) as (P & _).
  - apply small_ok; [split; discriminate | split; discriminate | discriminate].
  - apply small_wait; discriminate.
  - eexists. split; reflexivity.
  - exact E.
  - exact P.
Defined.

Lemma process_table_invariant_witness : proc_ok exit_end /\ wait_ok exit_end.
Proof.
  apply (process_table_invariant 0 0 exit_start).
  - apply small_ok; [split; discriminate | split; discriminate | discriminate].
  - apply small_wait; discriminate.
  - eapply kr_step; [apply kr_refl|]. apply (ks_exit 0 0 _ _ 7); [eexists; split; reflexivity | vm_compute; reflexivity].
Defined.

Lemma kill_zero_poisons_witness : exists s1, kill 0 exit_start = Ret (0, s1) /\ exists p, pat s1 3 p /\ killed p = 1.
Proof.
  destruct (kill_zero_poisons 0 0 exit_start 3) as (s1 & E & (p1 & H1 & _ & H2) & _).
  - apply small_ok; [split; discriminate | split; discriminate | discriminate].
  - apply small_wait; discriminate.
  - reflexivity.
  - reflexivity.
  - exists s1. split; [exact E|]. exists p1. split; [exact H1 | exact H2].
Defined.
