(* ===== verification/Syscall.v ===== *)
(** * Arguments of system calls and program loading
      (kernel/syscall.c without the table, kernel/exec.c, kernel/elf.h)

    The buffers that the handlers keep on the kernel stack are at [KBUF] in
    physical memory; a path is taken out of its buffer as the list of its
    bytes.  [exec] keeps the argument strings where its caller put them. *)

From stdpp Require Import gmap.
From S2P Require Import Prelude KString Buddy Bytes Bio Log Fs Vm Pipe Kern File Proc.

(** The program headers (kernel/elf.h). *)
Definition ELF_MAGIC : Z := 0x464C457F.
Definition ELF_PROG_LOAD : Z := 1.

Record elfhdr := mkElf {
  elf_magic : Z; elf_elf : list Z; elf_type : Z; elf_machine : Z; elf_version : Z; elf_entry : Z; elf_phoff : Z;
  elf_shoff : Z; elf_flags : Z; elf_ehsize : Z; elf_phentsize : Z; elf_phnum : Z; elf_shentsize : Z; elf_shnum : Z;
  elf_shstrndx : Z
}.
Record proghdr := mkPh {
  ph_type : Z; ph_flags : Z; ph_off : Z; ph_vaddr : Z; ph_paddr : Z; ph_filesz : Z; ph_memsz : Z; ph_align : Z
}.

(** The structs laid over the bytes read from the file: 64 and 56 bytes. *)
Definition rd_elfhdr (d : list Z) : elfhdr :=
  mkElf (rd 4 d 0) (slice d 4 12) (rd 2 d 16) (rd 2 d 18) (rd 4 d 20) (rd 8 d 24) (rd 8 d 32)
    (rd 8 d 40) (rd 4 d 48) (rd 2 d 52) (rd 2 d 54) (rd 2 d 56) (rd 2 d 58) (rd 2 d 60) (rd 2 d 62).
Definition rd_proghdr (d : list Z) : proghdr :=
  mkPh (rd 4 d 0) (rd 4 d 4) (rd 8 d 8) (rd 8 d 16) (rd 8 d 24) (rd 8 d 32) (rd 8 d 40) (rd 8 d 48).

Definition flags2perm (flags : Z) : Z :=
  let perm := 0 in
  let perm := if negb (Z.land flags 1 =? 0) then PTE_X else perm in
  let perm := if negb (Z.land flags 2 =? 0) then Z.lor perm PTE_W else perm in
  perm.

(** What follows the last slash of a path. *)
Fixpoint last_elem (last s : list Z) : list Z :=
  match s with
  | [] => last
  | c :: s' => last_elem (if c =? SLASH then s' else last) s'
  end.

Section Syscall.
  Context {A : Type} `{PA : PageAllocator A} `{FH : FileHeap A}.
  Context (trampoline : Z).

Notation K := (M (kst A)).

(** ** Arguments *)

Definition fetchaddr (addr : Z) : K (option Z) :=
  p <- myproc ;;
  if (addr >=? sz p) || (u64 (addr + 8) >? sz p) then ret None
  else
    v <- gets kvm ;;
    let '(bytes, ok, v') := copyin_bytes (pagetable p) addr (replicate 8 0) v in
    modify (set_kvm v') ;;;
    ret (if (ok : bool) then Some (rd 8 bytes 0) else None).

(** [strlen] of a string in kernel memory that fits a page. *)
Definition kstrlen (buf : Z) : K Z :=
  v <- gets kvm ;;
  match strlen (S (Z.to_nat PGSIZE)) buf (pm v) with
  | Some n => ret n
  | None => diverge
  end.

Definition fetchstr (addr buf max : Z) : K Z :=
  p <- myproc ;;
  r <- onvm (copyinstr (pagetable p) buf addr (u64 max)) ;;
  if r <? 0 then ret (-1) else kstrlen buf.

Definition argraw (n : Z) : K Z :=
  p <- myproc ;;
  if (0 <=? n) && (n <=? 5) then get_tf p (TF_a0 + 8 * n) else panic "argraw".

Definition argint (n : Z) : K Z := x <- argraw n ;; ret (i32 x).
Definition argaddr (n : Z) : K Z := argraw n.

Definition argstr (n buf max : Z) : K Z :=
  addr <- argaddr n ;;
  fetchstr addr buf max.

(** A path argument: [argstr] into a buffer of MAXPATH bytes. *)
Definition argpath (n buf : Z) : K (option (list Z)) :=
  r <- argstr n buf MAXPATH ;;
  if r <? 0 then ret None
  else v <- gets kvm ;; ret (Some (peek (pm v) buf r)).

(** [namei] and [nameiparent] start from the directory of the process. *)
Definition knamex {B} (f : Z -> list Z -> M fsst B) (path : list Z) : K B :=
  p <- myproc ;;
  match cwd p, path with
  | Some d, _ => onfs (f d path)
  | None, c :: _ => if c =? SLASH then onfs (f 0 path) else fault "idup: null"
  | None, [] => fault "idup: null"
  end.
Definition knamei : list Z -> K (option Z) := knamex namei.
Definition knameiparent : list Z -> K (option (Z * list Z)) := knamex nameiparent.

(** ** exec *)

(** [readi] to physical memory. *)
Definition pa_readi (ip pa o n : Z) : K Z :=
  v <- gets kvm ;;
  r <- onfs (readi (fun a bytes v => (true, set_pm (poke (pm v) a bytes) v)) v ip pa o n) ;;
  modify (set_kvm (snd r)) ;;;
  ret (fst r).

Definition loadseg (pt va ip offset n : Z) : K Z :=
  loop (Z.to_nat (n / PGSIZE) + 2) (fun i =>
    if i <? n then
      pa <- onvm (walkaddr pt (u64 (va + i))) ;;
      if pa =? 0 then panic "loadseg: address should exist"
      else
        let k := if u32 (n - i) <? PGSIZE then u32 (n - i) else PGSIZE in
        r <- pa_readi ip pa (u32 (offset + i)) k ;;
        if negb (u32 r =? k) then ret (inr (-1)) else ret (inl (u32 (i + PGSIZE)))
    else ret (inr 0)) 0.

(** Load the program headers from [off] on; the size of the image so far, and
    whether it is complete. *)
Definition load_program (pt ip phnum : Z) (off : Z) : K (bool * Z) :=
  loop (S (Z.to_nat phnum)) (fun '(i, off, n) =>
    if i <? phnum then
      r <- onfs (readk ip (u32 off) 56) ;;
      let '(k, d) := r in
      let ph := rd_proghdr d in
      let next := (i + 1, i32 (off + 56)) in
      if negb (k =? 56) then ret (inr (false, n))
      else if negb (ph_type ph =? ELF_PROG_LOAD) then ret (inl (next, n))
      else if ph_memsz ph <? ph_filesz ph then ret (inr (false, n))
      else if u64 (ph_vaddr ph + ph_memsz ph) <? ph_vaddr ph then ret (inr (false, n))
      else if negb (ph_vaddr ph mod PGSIZE =? 0) then ret (inr (false, n))
      else
        n1 <- onvm (uvmalloc pt n (u64 (ph_vaddr ph + ph_memsz ph)) (flags2perm (ph_flags ph))) ;;
        if n1 =? 0 then ret (inr (false, n))
        else
          r <- loadseg pt (ph_vaddr ph) ip (u32 (ph_off ph)) (u32 (ph_filesz ph)) ;;
          if r <? 0 then ret (inr (false, n1)) else ret (inl (next, n1))
    else ret (inr (true, n))) (0, off, 0).

(** Push the argument strings: the stack pointer and the entries of [ustack],
    or [None] when they do not fit. *)
Definition push_args (pt stackbase : Z) (argv : list Z) (sp : Z) : K (option (Z * list Z)) :=
  loop (S (Z.to_nat MAXARG)) (fun '(argc, sp, ustack) =>
    arg <- from_option "argv" (aget argv argc) ;;
    if arg =? 0 then ret (inr (Some (sp, ustack)))
    else if argc >=? MAXARG then ret (inr None)
    else
      n <- kstrlen arg ;;
      let sp := u64 (sp - (n + 1)) in
      let sp := u64 (sp - sp mod 16) in
      if sp <? stackbase then ret (inr None)
      else
        n <- kstrlen arg ;;
        r <- onvm (copyout pt sp arg (n + 1)) ;;
        if r <? 0 then ret (inr None)
        else ret (inl (argc + 1, sp, ustack ++ [sp]))) (0, sp, []).

(** The bytes of an array of uint64. *)
Definition u64_bytes (l : list Z) : list Z := mjoin ((fun v => wr 8 (replicate 8 0) 0 v) <$> l).

(** The label [bad]. *)
Definition exec_bad (pt n : Z) (ip : option Z) : K Z :=
  when (negb (pt =? 0)) (onvm (proc_freepagetable pt n)) ;;;
  (match ip with
   | Some ip => onfs (iunlockput ip) ;;; kend_op
   | None => ret tt
   end) ;;;
  ret (-1).

(** From the loaded program on: stack, arguments, and the switch to the new
    image. *)
Definition exec_commit (path argv : list Z) (entry pt n : Z) : K Z :=
  p <- myproc ;;
  let oldsz := sz p in
  let n := PGROUNDUP n in
  n1 <- onvm (uvmalloc pt n (u64 (n + 2 * PGSIZE)) PTE_W) ;;
  if n1 =? 0 then exec_bad pt n None
  else
    let n := n1 in
    onvm (uvmclear pt (u64 (n - 2 * PGSIZE))) ;;;
    let sp := n in
    let stackbase := u64 (sp - PGSIZE) in
    r <- push_args pt stackbase argv sp ;;
    match r with
    | None => exec_bad pt n None
    | Some (sp, ustack) =>
        let argc := Z.of_nat (length ustack) in
        if argc >=? MAXARG then fault "ustack"
        else
          let sp := u64 (sp - (argc + 1) * 8) in
          let sp := u64 (sp - sp mod 16) in
          if sp <? stackbase then exec_bad pt n None
          else
            v <- gets kvm ;;
            let '(ok, v') := copyout_bytes pt sp (u64_bytes (ustack ++ [0])) v in
            modify (set_kvm v') ;;;
            if negb ok then exec_bad pt n None
            else
              set_tf p TF_a1 sp ;;;
              mod_myproc (with_name (copy_name (last_elem path path))) ;;;
              let oldpagetable := pagetable p in
              mod_myproc (with_pagetable pt) ;;;
              mod_myproc (with_sz n) ;;;
              set_tf p TF_epc entry ;;;
              set_tf p TF_sp sp ;;;
              onvm (proc_freepagetable oldpagetable oldsz) ;;;
              ret argc
    end.

Definition exec (path argv : list Z) : K Z :=
  p <- myproc ;;
  kbegin_op ;;;
  r <- knamei path ;;
  match r with
  | None => kend_op ;;; ret (-1)
  | Some ip =>
      onfs (ilock ip) ;;;
      r <- onfs (readk ip 0 64) ;;
      let '(k, d) := r in
      let elf := rd_elfhdr d in
      if negb (k =? 64) then exec_bad 0 0 (Some ip)
      else if negb (elf_magic elf =? ELF_MAGIC) then exec_bad 0 0 (Some ip)
      else
        pt <- onvm (proc_pagetable trampoline (trapframe p)) ;;
        if pt =? 0 then exec_bad 0 0 (Some ip)
        else
          r <- load_program pt ip (elf_phnum elf) (i32 (elf_phoff elf)) ;;
          let '(ok, n) := r in
          if negb (ok : bool) then exec_bad pt n (Some ip)
          else
            onfs (iunlockput ip) ;;;
            kend_op ;;;
            exec_commit path argv (elf_entry elf) pt n
  end.

End Syscall.
