(* ===== verification/Sysfile.v ===== *)
(** * The system calls (kernel/sysfile.c, sysproc.c, and the table of syscall.c)

    One definition per handler, over the kernel's state.  A handler returns a
    value, puts the process to sleep in the middle (in a pipe, in [wait], or
    on the clock), or ends the process.  A null [struct file *] is 0, a null
    inode is [None]. *)

From Stdlib Require Import String.
From stdpp Require Import gmap pretty.
From S2P Require Import Prelude KString Buddy Bytes Bio Log Fs Vm Pipe Kern File Proc Syscall.

(** kernel/fcntl.h *)
Definition O_RDONLY : Z := 0.
Definition O_WRONLY : Z := 1.
Definition O_RDWR : Z := 2.
Definition O_CREATE : Z := 0x200.
Definition O_TRUNC : Z := 0x400.

(** [omode & flag] as a condition. *)
Definition has (omode flag : Z) : bool := negb (Z.land omode flag =? 0).

Definition DOT : list Z := [46].
Definition DOTDOT : list Z := [46; 46].

(** How a handler ends: with a value, asleep, or with the process gone. *)
Inductive sysret := Returns (v : Z) | Sleeps (i : Z) | Exits.
Definition of_fin (r : fin) : sysret := match r with Done v => Returns v | Sleep i => Sleeps i end.

(** ** Inode fields that the handlers change *)

Definition mod_nlink (ip : Z) (f : Z -> Z) : M fsst unit :=
  mod_inode ip (fun v => set_idata (ivalid v) (set_nlink (i16 (f (nlink (idata v)))) (idata v)) v).
Definition set_node (ip mj mn : Z) : M fsst unit :=
  mod_inode ip (fun v => set_idata (ivalid v)
    (mkDinode (type (idata v)) (i16 mj) (i16 mn) 1 (isize (idata v)) (addrs (idata v))) v).

(** [isdirempty]: every entry after the first two is free. *)
Definition isdirempty (dp : Z) : M fsst bool :=
  v <- get_inode dp ;;
  loop (S (Z.to_nat (isize (idata v)))) (fun off =>
    if off <? isize (idata v) then
      r <- readk dp off 16 ;;
      let '(k, de) := r in
      if negb (k =? 16) then panic "isdirempty: readi"
      else if negb (de_inum de =? 0) then ret (inr false)
      else ret (inl (off + 16))
    else ret (inr true)) 32.

Section Sysfile.
  Context {A : Type} `{PA : PageAllocator A} `{FH : FileHeap A}.
  Context (trampoline forkret : Z).
  Context (devread devwrite : Z -> option (Z -> Z -> M (kst A) Z)).

Notation K := (M (kst A)).

(** ** File descriptors *)

(** The descriptor and the file, or [None] for -1. *)
Definition argfd (n : Z) : K (option (Z * Z)) :=
  fd <- argint n ;;
  if (fd <? 0) || (fd >=? NOFILE) then ret None
  else
    p <- myproc ;;
    f <- from_option "ofile" (aget (ofile p) fd) ;;
    ret (if f =? 0 then None else Some (fd, f)).

Definition set_fd (fd f : Z) : K unit := mod_myproc (fun p => with_ofile (<[Z.to_nat fd := f]> (ofile p)) p).

Fixpoint find_fd (l : list Z) (fd : Z) : option Z :=
  match l with
  | [] => None
  | f :: l' => if f =? 0 then Some fd else find_fd l' (fd + 1)
  end.

Definition fdalloc (f : Z) : K Z :=
  p <- myproc ;;
  match find_fd (ofile p) 0 with
  | Some fd => set_fd fd f ;;; ret fd
  | None => ret (-1)
  end.

Definition sys_dup : K Z :=
  r <- argfd 0 ;;
  match r with
  | None => ret (-1)
  | Some (_, f) =>
      fd <- fdalloc f ;;
      if fd <? 0 then ret (-1) else filedup f ;;; ret fd
  end.

Definition sys_read : K fin :=
  p <- argaddr 1 ;;
  n <- argint 2 ;;
  r <- argfd 0 ;;
  match r with
  | None => ret (Done (-1))
  | Some (_, f) => fileread devread f p n
  end.

Definition sys_write : K fin :=
  p <- argaddr 1 ;;
  n <- argint 2 ;;
  r <- argfd 0 ;;
  match r with
  | None => ret (Done (-1))
  | Some (_, f) => filewrite devwrite f p n
  end.

Definition sys_close : K Z :=
  r <- argfd 0 ;;
  match r with
  | None => ret (-1)
  | Some (fd, f) => set_fd fd 0 ;;; fileclose f ;;; ret 0
  end.

Definition sys_fstat : K Z :=
  st <- argaddr 1 ;;
  r <- argfd 0 ;;
  match r with
  | None => ret (-1)
  | Some (_, f) => filestat f st
  end.

(** ** Links *)

Definition sys_link : K Z :=
  old <- argpath 0 KBUF ;;
  match old with
  | None => ret (-1)
  | Some old =>
  new <- argpath 1 (KBUF + MAXPATH) ;;
  match new with
  | None => ret (-1)
  | Some new =>
      kbegin_op ;;;
      r <- knamei old ;;
      match r with
      | None => kend_op ;;; ret (-1)
      | Some ip =>
          onfs (ilock ip) ;;;
          v <- onfs (get_inode ip) ;;
          if type (idata v) =? T_DIR then onfs (iunlockput ip) ;;; kend_op ;;; ret (-1)
          else
            onfs (mod_nlink ip (fun n => n + 1)) ;;;
            onfs (iupdate ip) ;;;
            onfs (iunlock ip) ;;;
            let bad :=
              onfs (ilock ip) ;;;
              onfs (mod_nlink ip (fun n => n - 1)) ;;;
              onfs (iupdate ip) ;;;
              onfs (iunlockput ip) ;;;
              kend_op ;;;
              ret (-1) in
            r <- knameiparent new ;;
            match r with
            | None => bad
            | Some (dp, name) =>
                onfs (ilock dp) ;;;
                d <- onfs (get_inode dp) ;;
                v <- onfs (get_inode ip) ;;
                k <- (if negb (idev d =? idev v) then ret (-1) else onfs (dirlink dp name (inum v))) ;;
                if k <? 0 then onfs (iunlockput dp) ;;; bad
                else
                  onfs (iunlockput dp) ;;;
                  onfs (iput ip) ;;;
                  kend_op ;;;
                  ret 0
            end
      end
  end
  end.

Definition sys_unlink : K Z :=
  path <- argpath 0 KBUF ;;
  match path with
  | None => ret (-1)
  | Some path =>
      kbegin_op ;;;
      r <- knameiparent path ;;
      match r with
      | None => kend_op ;;; ret (-1)
      | Some (dp, name) =>
          onfs (ilock dp) ;;;
          let bad := onfs (iunlockput dp) ;;; kend_op ;;; ret (-1) in
          if (namecmp name DOT =? 0) || (namecmp name DOTDOT =? 0) then bad
          else
            r <- onfs (dirlookup dp name) ;;
            match r with
            | None => bad
            | Some (ip, off) =>
                onfs (ilock ip) ;;;
                v <- onfs (get_inode ip) ;;
                if nlink (idata v) <? 1 then panic "unlink: nlink < 1"
                else
                  full <- (if type (idata v) =? T_DIR then e <- onfs (isdirempty ip) ;; ret (negb e) else ret false) ;;
                  if (full : bool) then onfs (iunlockput ip) ;;; bad
                  else
                    k <- onfs (writek (replicate 16 0) dp off 16) ;;
                    if negb (k =? 16) then panic "unlink: writei"
                    else
                      v <- onfs (get_inode ip) ;;
                      when (type (idata v) =? T_DIR)
                        (onfs (mod_nlink dp (fun n => n - 1)) ;;;
                         onfs (iupdate dp)) ;;;
                      onfs (iunlockput dp) ;;;
                      onfs (mod_nlink ip (fun n => n - 1)) ;;;
                      onfs (iupdate ip) ;;;
                      onfs (iunlockput ip) ;;;
                      kend_op ;;;
                      ret 0
            end
      end
  end.

(** ** Creating and opening *)

(** [create]: the inode, locked, or [None] for a null pointer. *)
Definition create (path : list Z) (ty mj mn : Z) : K (option Z) :=
  r <- knameiparent path ;;
  match r with
  | None => ret None
  | Some (dp, name) =>
      onfs (ilock dp) ;;;
      r <- onfs (dirlookup dp name) ;;
      match r with
      | Some (ip, _) =>
          onfs (iunlockput dp) ;;;
          onfs (ilock ip) ;;;
          v <- onfs (get_inode ip) ;;
          if (ty =? T_FILE) && ((type (idata v) =? T_FILE) || (type (idata v) =? T_DEVICE)) then ret (Some ip)
          else onfs (iunlockput ip) ;;; ret None
      | None =>
          d <- onfs (get_inode dp) ;;
          r <- onfs (ialloc (idev d) ty) ;;
          match r with
          | None => onfs (iunlockput dp) ;;; ret None
          | Some ip =>
              onfs (ilock ip) ;;;
              onfs (set_node ip mj mn) ;;;
              onfs (iupdate ip) ;;;
              v <- onfs (get_inode ip) ;;
              k <- (if ty =? T_DIR then
                      k <- onfs (dirlink ip DOT (inum v)) ;;
                      if k <? 0 then ret k else onfs (dirlink ip DOTDOT (inum d))
                    else ret 0) ;;
              k <- (if k <? 0 then ret k else onfs (dirlink dp name (inum v))) ;;
              if k <? 0 then
                onfs (mod_nlink ip (fun _ => 0)) ;;;
                onfs (iupdate ip) ;;;
                onfs (iunlockput ip) ;;;
                onfs (iunlockput dp) ;;;
                ret None
              else
                when (ty =? T_DIR)
                  (onfs (mod_nlink dp (fun n => n + 1)) ;;;
                   onfs (iupdate dp)) ;;;
                onfs (iunlockput dp) ;;;
                ret (Some ip)
          end
      end
  end.

(** The inode that [sys_open] opens, locked. *)
Definition open_inode (path : list Z) (omode : Z) : K (option Z) :=
  if has omode O_CREATE then create path T_FILE 0 0
  else
    r <- knamei path ;;
    match r with
    | None => ret None
    | Some ip =>
        onfs (ilock ip) ;;;
        v <- onfs (get_inode ip) ;;
        if (type (idata v) =? T_DIR) && negb (omode =? O_RDONLY) then onfs (iunlockput ip) ;;; ret None
        else ret (Some ip)
    end.

(** [filealloc] does not return a null pointer, so only [fdalloc] can fail. *)
Definition sys_open : K Z :=
  omode <- argint 1 ;;
  path <- argpath 0 KBUF ;;
  match path with
  | None => ret (-1)
  | Some path =>
      kbegin_op ;;;
      r <- open_inode path omode ;;
      match r with
      | None => kend_op ;;; ret (-1)
      | Some ip =>
          v <- onfs (get_inode ip) ;;
          let dev := type (idata v) =? T_DEVICE in
          if dev && ((major (idata v) <? 0) || (major (idata v) >=? NDEV)) then
            onfs (iunlockput ip) ;;; kend_op ;;; ret (-1)
          else
            f <- filealloc ;;
            fd <- (if f =? 0 then ret (-1) else fdalloc f) ;;
            if fd <? 0 then
              when (negb (f =? 0)) (fileclose f) ;;;
              onfs (iunlockput ip) ;;;
              kend_op ;;;
              ret (-1)
            else
              x <- get_file f ;;
              put_file f
                (mkFile (if dev then FD_DEVICE else FD_INODE) (fref x)
                   (negb (has omode O_WRONLY)) (has omode O_WRONLY || has omode O_RDWR) (fpipe x) ip
                   (if dev then foff x else 0) (if dev then major (idata v) else fmajor x)) ;;;
              when (has omode O_TRUNC && (type (idata v) =? T_FILE)) (onfs (itrunc ip)) ;;;
              onfs (iunlock ip) ;;;
              kend_op ;;;
              ret fd
      end
  end.

(** [begin_op] comes first here, also when the path cannot be read. *)
Definition sys_mkdir : K Z :=
  kbegin_op ;;;
  path <- argpath 0 KBUF ;;
  r <- (match path with None => ret None | Some path => create path T_DIR 0 0 end) ;;
  match r with
  | None => kend_op ;;; ret (-1)
  | Some ip => onfs (iunlockput ip) ;;; kend_op ;;; ret 0
  end.

Definition sys_mknod : K Z :=
  kbegin_op ;;;
  mj <- argint 1 ;;
  mn <- argint 2 ;;
  path <- argpath 0 KBUF ;;
  r <- (match path with None => ret None | Some path => create path T_DEVICE (i16 mj) (i16 mn) end) ;;
  match r with
  | None => kend_op ;;; ret (-1)
  | Some ip => onfs (iunlockput ip) ;;; kend_op ;;; ret 0
  end.

Definition sys_chdir : K Z :=
  p <- myproc ;;
  kbegin_op ;;;
  path <- argpath 0 KBUF ;;
  r <- (match path with None => ret None | Some path => knamei path end) ;;
  match r with
  | None => kend_op ;;; ret (-1)
  | Some ip =>
      onfs (ilock ip) ;;;
      v <- onfs (get_inode ip) ;;
      if negb (type (idata v) =? T_DIR) then onfs (iunlockput ip) ;;; kend_op ;;; ret (-1)
      else
        onfs (iunlock ip) ;;;
        (match cwd p with Some d => onfs (iput d) | None => fault "iput: null" end) ;;;
        kend_op ;;;
        mod_myproc (with_cwd (Some ip)) ;;;
        ret 0
  end.

(** ** exec and pipe *)

(** The pages of the arguments, in order, and whether all were fetched. *)
Definition fetch_args (uargv : Z) : K (bool * list Z) :=
  loop (S (Z.to_nat MAXARG)) (fun argv =>
    let i := Z.of_nat (length argv) in
    if i >=? MAXARG then ret (inr (false, argv))
    else
      uarg <- fetchaddr (u64 (uargv + 8 * i)) ;;
      match uarg with
      | None => ret (inr (false, argv))
      | Some uarg =>
          if uarg =? 0 then ret (inr (true, argv))
          else
            pg <- onvm kalloc ;;
            if pg =? 0 then ret (inr (false, argv))
            else
              r <- fetchstr uarg pg PGSIZE ;;
              if r <? 0 then ret (inr (false, argv ++ [pg])) else ret (inl (argv ++ [pg]))
      end) [].

Definition free_args (argv : list Z) : K unit := foldr (fun pg m => onvm (kfree pg) ;;; m) (ret tt) argv.

Definition sys_exec : K Z :=
  uargv <- argaddr 1 ;;
  path <- argpath 0 KBUF ;;
  match path with
  | None => ret (-1)
  | Some path =>
      r <- fetch_args uargv ;;
      let '(ok, argv) := r in
      if (ok : bool) then
        r <- exec trampoline path (argv ++ replicate (Z.to_nat MAXARG - length argv) 0) ;;
        free_args argv ;;;
        ret r
      else free_args argv ;;; ret (-1)
  end.

(** Store an [int] in the memory of the process. *)
Definition put_int (addr v : Z) : K Z := either_copyout true addr (wr32 (replicate 4 0) 0 v).

Definition sys_pipe : K Z :=
  fdarray <- argaddr 0 ;;
  r <- pipealloc ;;
  match r with
  | None => ret (-1)
  | Some (rf, wf) =>
      fd0 <- fdalloc rf ;;
      fd1 <- (if fd0 <? 0 then ret (-1) else fdalloc wf) ;;
      if (fd0 <? 0) || (fd1 <? 0) then
        when (fd0 >=? 0) (set_fd fd0 0) ;;;
        fileclose rf ;;;
        fileclose wf ;;;
        ret (-1)
      else
        k <- put_int fdarray fd0 ;;
        k <- (if k <? 0 then ret k else put_int (u64 (fdarray + 4)) fd1) ;;
        if k <? 0 then
          set_fd fd0 0 ;;;
          set_fd fd1 0 ;;;
          fileclose rf ;;;
          fileclose wf ;;;
          ret (-1)
        else ret 0
  end.

(** ** kernel/sysproc.c *)

Definition sys_exit : K unit := n <- argint 0 ;; exit n.
Definition sys_getpid : K Z := p <- myproc ;; ret (pid p).
Definition sys_fork : K Z := fork trampoline forkret.
Definition sys_wait : K fin := p <- argaddr 0 ;; wait p.

Definition sys_sbrk : K Z :=
  n <- argint 0 ;;
  p <- myproc ;;
  let addr := sz p in
  r <- growproc n ;;
  if r <? 0 then ret (-1) else ret addr.

(** One turn of the loop of [sys_sleep] that started at [ticks0]. *)
Definition sleep_turn (n ticks0 : Z) : K fin :=
  t <- gets ticks ;;
  if u32 (t - ticks0) <? u32 n then
    p <- myproc ;;
    if negb (killed p =? 0) then ret (Done (-1))
    else sleep_enter ChTicks ;;; ret (Sleep ticks0)
  else ret (Done 0).

Definition sys_sleep : K fin :=
  n <- argint 0 ;;
  let n := if n <? 0 then 0 else n in
  ticks0 <- gets ticks ;;
  sleep_turn n ticks0.

Definition sys_kill : K Z := pd <- argint 0 ;; kill pd.
Definition sys_uptime : K Z := gets ticks.

(** ** The table of system calls *)

Definition val (m : K Z) : option (K sysret) := Some (v <- m ;; ret (Returns v)).
Definition fin_val (m : K fin) : option (K sysret) := Some (r <- m ;; ret (of_fin r)).

Definition syscalls (num : Z) : option (K sysret) :=
  match num with
  | 1 => val sys_fork
  | 2 => Some (sys_exit ;;; ret Exits)
  | 3 => fin_val sys_wait
  | 4 => val sys_pipe
  | 5 => fin_val sys_read
  | 6 => val sys_kill
  | 7 => val sys_exec
  | 8 => val sys_fstat
  | 9 => val sys_chdir
  | 10 => val sys_dup
  | 11 => val sys_getpid
  | 12 => val sys_sbrk
  | 13 => fin_val sys_sleep
  | 14 => val sys_uptime
  | 15 => val sys_open
  | 16 => fin_val sys_write
  | 17 => val sys_mknod
  | 18 => val sys_unlink
  | 19 => val sys_link
  | 20 => val sys_mkdir
  | 21 => val sys_close
  | _ => None
  end.

Definition text (l : list Z) : string := String.string_of_list_ascii ((fun c => Ascii.ascii_of_nat (Z.to_nat c)) <$> l).

(** The dispatcher: a value goes to the register a0 of the process. *)
Definition syscall : K sysret :=
  p <- myproc ;;
  num <- get_tf p TF_a7 ;;
  let num := i32 num in
  match syscalls num with
  | Some handler =>
      r <- handler ;;
      match r with
      | Returns v => set_tf p TF_a0 (u64 v) ;;; ret r
      | _ => ret r
      end
  | None =>
      onfs (say ((pretty (pid p) +:+ " " +:+ text (name p) +:+ ": unknown sys call " +:+ pretty num)%string)) ;;;
      set_tf p TF_a0 (u64 (-1)) ;;;
      ret (Returns (-1))
  end.

End Sysfile.
