(* ===== verification/FdThms.v ===== *)
(** * Descriptors and reference counts

    Every open file is counted: the field [ref] of a [struct file] is the
    number of descriptors, over all processes, that refer to it, and a
    descriptor refers to a file that is there.  The theorem covers the whole
    table of system calls. *)

From stdpp Require Import gmap.
From S2P Require Import Prelude KString Buddy Bytes Bio Log Fs Vm VmThms Pipe Kern File Proc ProcThms Syscall Sysfile.

(** ** Counting descriptors *)

Definition hit (f g : Z) : Z := if f =? g then 1 else 0.

Fixpoint cnt (f : Z) (l : list Z) : Z :=
  match l with
  | [] => 0
  | g :: l' => hit f g + cnt f l'
  end.

Fixpoint refs (f : Z) (ps : list proc) : Z :=
  match ps with
  | [] => 0
  | p :: ps' => cnt f (ofile p) + refs f ps'
  end.

Lemma hit_bound f g : 0 <= hit f g <= 1.
Proof. unfold hit. case_if; lia. Qed.

Lemma cnt_bound f l : 0 <= cnt f l <= Z.of_nat (length l).
Proof. induction l as [|g l IH]; cbn [cnt length]; [lia|]. pose proof (hit_bound f g). lia. Qed.

Lemma cnt_insert f l k g h : l !! k = Some g -> cnt f (<[k := h]> l) = cnt f l - hit f g + hit f h.
Proof.
  revert k. induction l as [|x l IH]; intros [|k] H; try done; cbn [cnt].
  - injection H as ->. change (<[0%nat := h]> (g :: l)) with (h :: l). cbn [cnt]. lia.
  - change (<[S k := h]> (x :: l)) with (x :: <[k := h]> l). cbn [cnt]. rewrite (IH k H). lia.
Qed.

Lemma cnt_lookup f l k : l !! k = Some f -> 0 < cnt f l.
Proof.
  revert k. induction l as [|x l IH]; intros [|k] H; try done; cbn [cnt].
  - injection H as ->. pose proof (cnt_bound f l). unfold hit. rewrite Z.eqb_refl. lia.
  - pose proof (IH k H). pose proof (hit_bound f x). lia.
Qed.

Lemma cnt_zeros f l : f <> 0 -> Forall (fun g => g = 0) l -> cnt f l = 0.
Proof. intros Hf H. induction H as [|x l -> _ IH]; cbn [cnt]; [done|]. rewrite IH. unfold hit. case_if; lia. Qed.

Lemma refs_insert f ps i p p' : ps !! i = Some p -> refs f (<[i := p']> ps) = refs f ps - cnt f (ofile p) + cnt f (ofile p').
Proof.
  revert i. induction ps as [|q ps IH]; intros [|i] H; try done; cbn [refs].
  - injection H as ->. change (<[0%nat := p']> (p :: ps)) with (p' :: ps). cbn [refs]. lia.
  - change (<[S i := p']> (q :: ps)) with (q :: <[i := p']> ps). cbn [refs]. rewrite (IH i H). lia.
Qed.

Lemma refs_lookup f ps i p : ps !! i = Some p -> cnt f (ofile p) <= refs f ps.
Proof.
  revert i. induction ps as [|q ps IH]; intros [|i] H; try done; cbn [refs].
  - injection H as ->. enough (0 <= refs f ps) by lia. clear. induction ps as [|q ps IH]; cbn [refs]; [lia|]. pose proof (cnt_bound f (ofile q)). lia.
  - pose proof (IH i H). pose proof (cnt_bound f (ofile q)). lia.
Qed.

Lemma refs_bound f ps n : Forall (fun p => length (ofile p) = n) ps -> 0 <= refs f ps <= Z.of_nat (length ps) * Z.of_nat n.
Proof. induction 1 as [|p ps E _ IH]; cbn [refs length]; [lia|]. pose proof (cnt_bound f (ofile p)). lia. Qed.

Section FdThms.
  Context {A : Type} `{PA : PageAllocator A} `{FH : FileHeap A}.
  Context (trampoline forkret : Z).
  Context (devread devwrite : Z -> option (Z -> Z -> M (kst A) Z)).

Notation K := (M (kst A)).

Definition dead (p : proc) : Prop := state p = UNUSED \/ state p = ZOMBIE.
Definition no_files (p : proc) : Prop := Forall (fun g => g = 0) (ofile p).

(** ** The invariant

    [e f] counts the references to [f] that the operation under way holds
    beside those of the descriptors. *)
Record fd_inv (e : Z -> Z) (s : kst A) : Prop := {
  fi_procs : length (procs s) = Z.to_nat NPROC;
  fi_len : Forall (fun p => length (ofile p) = Z.to_nat NOFILE) (procs s);
  fi_dead : Forall (fun p => dead p -> no_files p) (procs s);
  fi_null : files s !! 0 = None;
  fi_ref : forall f v, files s !! f = Some v -> 0 < fref v /\ fref v = refs f (procs s) + e f;
  fi_none : forall f, f <> 0 -> files s !! f = None -> refs f (procs s) = 0 /\ e f = 0
}.

(** Nothing held: what is true between operations. *)
Definition none : Z -> Z := fun _ => 0.
Definition fd_ok (s : kst A) : Prop := fd_inv none s.

Lemma fi_refs e s f : fd_inv e s -> 0 <= refs f (procs s) <= 1024.
Proof.
  intros H. pose proof (refs_bound f _ _ (fi_len _ _ H)) as Hb. rewrite (fi_procs _ _ H) in Hb.
  unfold NPROC, NOFILE in Hb. lia.
Qed.

(** A descriptor refers to a file that is there. *)
Lemma fd_file e s i p k f : fd_inv e s -> pat s i p -> ofile p !! k = Some f -> f <> 0 -> exists v, files s !! f = Some v.
Proof.
  intros H [_ Hp]%aget_lookup Hk Hf. destruct (files s !! f) as [v|] eqn:E; [by exists v|].
  destruct (fi_none _ _ H f Hf E) as [Hr _]. pose proof (cnt_lookup _ _ _ Hk). pose proof (refs_lookup f _ _ _ Hp). lia.
Qed.

(** ** Steps that leave descriptors and files alone *)

Definition same_fds (p p' : proc) : Prop := ofile p' = ofile p /\ (dead p' -> dead p \/ no_files p).

Record idle (s s' : kst A) : Prop := {
  id_files : files s' = files s;
  id_cur : cur s' = cur s;
  id_procs : Forall2 same_fds (procs s) (procs s')
}.

#[global] Instance same_fds_preorder : PreOrder same_fds.
Proof.
  split.
  - intros p. split; [done | by left].
  - unfold same_fds, no_files. intros p q r [E1 D1] [E2 D2]. split; [congruence|]. rewrite E1 in D2. tauto.
Qed.

#[global] Instance idle_preorder : PreOrder idle.
Proof.
  split.
  - intros s. constructor; done || reflexivity.
  - intros s1 s2 s3 [? ? Ha] [? ? Hb]. constructor; try congruence.
    by etransitivity.
Qed.

Lemma refs_same f l l' : Forall2 same_fds l l' -> refs f l' = refs f l.
Proof. induction 1 as [|p q l l' [E _] _ IH]; cbn [refs]; [done|]. by rewrite E, IH. Qed.

Lemma fd_inv_idle e s s' : idle s s' -> fd_inv e s -> fd_inv e s'.
Proof.
  intros [Ef Ec Hp] [H1 H2 H3 H4 H5 H6]. pose proof (fun f => refs_same f _ _ Hp) as Hr.
  constructor.
  - by rewrite <- (Forall2_length _ _ _ Hp).
  - clear -Hp H2. induction Hp as [|p q l l' [E _] _ IH]; [done|]. inversion_clear H2. constructor; [by rewrite E | by apply IH].
  - clear -Hp H3. induction Hp as [|p q l l' [E D] _ IH]; [done|]. inversion_clear H3. constructor; [|by apply IH].
    unfold no_files in *. rewrite E. tauto.
  - by rewrite Ef.
  - intros f v. rewrite Ef, Hr. apply H5.
  - intros f. rewrite Ef, Hr. apply H6.
Qed.

(** The slot [i] after an idle step. *)
Lemma idle_pat s s' i p : idle s s' -> pat s i p -> exists p', pat s' i p' /\ same_fds p p'.
Proof.
  intros [_ _ H] [H0 Hi]%aget_lookup. destruct (Forall2_lookup_l _ _ _ _ _ H Hi) as (p' & Hp & Hw).
  exists p'. split; [by apply aget_lookup | done].
Qed.
Lemma idle_pat_r s s' i p' : idle s s' -> pat s' i p' -> exists p, pat s i p /\ same_fds p p'.
Proof.
  intros [_ _ H] [H0 Hi]%aget_lookup. destruct (Forall2_lookup_r _ _ _ _ _ H Hi) as (p & Hp & Hw).
  exists p. split; [by apply aget_lookup | done].
Qed.

Lemma idle_upd s i p p' : pat s i p -> same_fds p p' -> idle s (upd_proc s i p').
Proof.
  intros [H0 Hi]%aget_lookup Hw. constructor; try done. unfold upd_proc. cbn [procs set_procs].
  rewrite <- (list_insert_id (procs s) (Z.to_nat i) p) at 1 by done. apply Forall2_insert; [reflexivity | done].
Qed.

Lemma idle_onvm {B} (m : M (vms A) B) : keeps idle (onvm m).
Proof. apply keeps_zoom. intros s t. constructor; done || reflexivity. Qed.
Lemma idle_onfs {B} (m : M fsst B) : keeps idle (onfs m).
Proof. apply keeps_zoom. intros s t. constructor; done || reflexivity. Qed.
Lemma idle_pipes f : keeps idle (modify (fun s : kst A => set_pipes (f s) s)).
Proof. apply keeps_modify. intros s. constructor; done || reflexivity. Qed.
Lemma idle_kvm v : keeps idle (modify (set_kvm v)).
Proof. apply keeps_modify. intros s. constructor; done || reflexivity. Qed.
Lemma idle_nextpid n : keeps idle (modify (@set_nextpid A n)).
Proof. apply keeps_modify. intros s. constructor; done || reflexivity. Qed.
Lemma idle_get_proc i : keeps idle (@get_proc A i).
Proof. unfold get_proc. keeps. Qed.
Lemma idle_mod_proc i f : (forall p, same_fds p (f p)) -> keeps idle (@mod_proc A i f).
Proof. intros H s. apply mod_proc_pwp. intros p Hp. by eapply idle_upd. Qed.
Lemma idle_mod_myproc f : (forall p, same_fds p (f p)) -> keeps idle (@mod_myproc A f).
Proof. intros H. unfold mod_myproc. keeps. by apply idle_mod_proc. Qed.
Lemma idle_wakeup c : keeps idle (@wakeup A c).
Proof.
  apply keeps_modify. intros s. constructor; try done. cbn [procs set_procs]. apply Forall2_same_length_lookup. split.
  - by rewrite length_imap.
  - intros i p p' Hp Hp'. rewrite list_lookup_imap, Hp in Hp'. cbn in Hp'. injection Hp' as <-.
    case_if; [reflexivity|]. unfold wake_one. case_if; [|reflexivity]. split; [done|]. by intros [|].
Qed.

#[local] Hint Resolve idle_onvm idle_onfs idle_pipes idle_kvm idle_nextpid idle_get_proc idle_wakeup : keeps.

Lemma idle_wakeups pi l : keeps idle (@wakeups A pi l).
Proof. unfold wakeups. induction l as [|c l IH]; cbn [foldr]; keeps; done. Qed.
Lemma idle_kbegin_op : keeps idle (@kbegin_op A).
Proof. unfold kbegin_op. keeps. Qed.
Lemma idle_kend_op : keeps idle (@kend_op A).
Proof. unfold kend_op. keeps. Qed.
Lemma idle_myproc : keeps idle (@myproc A).
Proof. unfold myproc. keeps. Qed.
#[local] Hint Resolve idle_wakeups idle_kbegin_op idle_kend_op idle_myproc : keeps.
Lemma idle_kpipeclose pi w : keeps idle (@kpipeclose A PA pi w).
Proof. unfold kpipeclose, get_pipe, put_pipe. keeps. Qed.
Lemma idle_sleep_enter c : keeps idle (@sleep_enter A c).
Proof. unfold sleep_enter. apply idle_mod_myproc. intros p. split; [done|]. by intros [|]. Qed.
Lemma idle_either_copyout u d b : keeps idle (@either_copyout A PA u d b).
Proof. unfold either_copyout. keeps. Qed.
#[local] Hint Resolve idle_kpipeclose idle_sleep_enter idle_either_copyout : keeps.

(** ** Operations on files, with the references they give and take *)

Definition plus (e : Z -> Z) (f n : Z) : Z -> Z := fun g => if g =? f then e g + n else e g.

Lemma fd_inv_ext e e' s : (forall f, f <> 0 -> e f = e' f) -> fd_inv e s -> fd_inv e' s.
Proof.
  intros E [H1 H2 H3 H4 H5 H6]. constructor; try done.
  - intros f v Hf. rewrite <- E; [by apply H5|]. intros ->. congruence.
  - intros f Hf. rewrite <- E by done. by apply H6.
Qed.

Lemma plus_at e f n : plus e f n f = e f + n.
Proof. unfold plus. by rewrite Z.eqb_refl. Qed.
Lemma plus_ne e f n g : g <> f -> plus e f n g = e g.
Proof. intros H. unfold plus. by rewrite (proj2 (Z.eqb_neq _ _) H). Qed.

(** The count of one file changes with what is held of it. *)
Lemma fd_inv_put e s f v v' : fd_inv e s -> files s !! f = Some v -> 0 < fref v' ->
  fd_inv (plus e f (fref v' - fref v)) (set_files (<[f := v']> (files s)) s).
Proof.
  intros [H1 H2 H3 H4 H5 H6] Hf Hpos. assert (f <> 0) as Hf0 by congruence.
  destruct (H5 f v Hf) as [_ Ev]. constructor; try done; cbn [files set_files procs].
  - rewrite lookup_insert_ne; done.
  - intros g w. rewrite lookup_insert_Some. intros [[<- <-]|[Hg Hw]]; [rewrite plus_at; split; [done | lia]|].
    rewrite plus_ne by done. by apply H5.
  - intros g Hg. rewrite lookup_insert_None. intros [Hn Hne]. rewrite plus_ne by done. by apply H6.
Qed.

Lemma fd_inv_new e s f v : fd_inv e s -> files s !! f = None -> f <> 0 -> fref v = 1 ->
  fd_inv (plus e f 1) (set_files (<[f := v]> (files s)) s).
Proof.
  intros [H1 H2 H3 H4 H5 H6] Hf Hf0 Hv. destruct (H6 f Hf0 Hf) as [Er Ee].
  constructor; try done; cbn [files set_files procs].
  - rewrite lookup_insert_ne; done.
  - intros g w. rewrite lookup_insert_Some. intros [[<- <-]|[Hg Hw]]; [rewrite plus_at; lia|].
    rewrite plus_ne by done. by apply H5.
  - intros g Hg. rewrite lookup_insert_None. intros [Hn Hne]. rewrite plus_ne by done. by apply H6.
Qed.

Lemma fd_inv_delete e s f v : fd_inv e s -> files s !! f = Some v -> fref v = 1 -> 0 < e f ->
  fd_inv (plus e f (-1)) (set_files (delete f (files s)) s).
Proof.
  intros H Hf Hv He. pose proof (fi_refs _ _ f H) as Hr. destruct H as [H1 H2 H3 H4 H5 H6].
  destruct (H5 f v Hf) as [_ Ev]. constructor; try done; cbn [files set_files procs].
  - rewrite lookup_delete_None. by right.
  - intros g w. rewrite lookup_delete_Some. intros [Hne Hw]. rewrite plus_ne by done. by apply H5.
  - intros g Hg. rewrite lookup_delete_None. destruct (decide (g = f)) as [->|Hne]; [rewrite plus_at; lia|].
    intros [|Hn]; [done|]. rewrite plus_ne by done. by apply H6.
Qed.


(** Replacing the descriptors of a process. *)
Lemma fd_inv_ofile e s i p l : fd_inv e s -> pat s i p -> length l = Z.to_nat NOFILE ->
  (dead p -> Forall (fun g => g = 0) l) -> (forall f, f <> 0 -> files s !! f = None -> cnt f l = 0) ->
  fd_inv (fun f => e f + cnt f (ofile p) - cnt f l) (upd_proc s i (with_ofile l p)).
Proof.
  intros [H1 H2 H3 H4 H5 H6] [H0 Hp]%aget_lookup Hl Hd Hn. unfold upd_proc.
  constructor; cbn [files set_procs procs]; try done.
  - by rewrite length_insert.
  - by apply Forall_insert.
  - by apply Forall_insert.
  - intros f v Hf. rewrite (refs_insert f _ _ _ _ Hp). cbn [ofile with_ofile]. destruct (H5 f v Hf). lia.
  - intros f Hf Hnone. rewrite (refs_insert f _ _ _ _ Hp). cbn [ofile with_ofile]. destruct (H6 f Hf Hnone).
    pose proof (Hn f Hf Hnone). pose proof (refs_lookup f _ _ _ Hp). pose proof (cnt_bound f (ofile p)). lia.
Qed.

(** The process that runs is not dead. *)
Definition on_cpu (s : kst A) : Prop := exists p, pat s (cur s) p /\ ~ dead p.

(** ** Steps that only read, and steps that change memory and disk only *)

Record untouched (s s' : kst A) : Prop := {
  un_files : files s' = files s; un_pipes : pipes s' = pipes s; un_procs : procs s' = procs s;
  un_next : nextpid s' = nextpid s; un_init : initproc s' = initproc s; un_cur : cur s' = cur s; un_ticks : ticks s' = ticks s
}.
Definition reading (s s' : kst A) : Prop := untouched s s' /\ al (kvm s') = al (kvm s).

#[global] Instance untouched_preorder : PreOrder untouched.
Proof. split; [done|]. intros ? ? ? [] []. constructor; congruence. Qed.
#[global] Instance reading_preorder : PreOrder reading.
Proof. split; [done|]. intros ? ? ? [H1 E1] [H2 E2]. split; [by etransitivity | congruence]. Qed.

Lemma untouched_idle s s' : untouched s s' -> idle s s'.
Proof. intros []. constructor; try done. rewrite un_procs0. reflexivity. Qed.
Lemma untouched_cpu s s' : untouched s s' -> on_cpu s -> on_cpu s'.
Proof. intros [] (p & Hp & Hd). exists p. split; [|done]. unfold pat. congruence. Qed.
Lemma reading_untouched {B} (m : K B) : keeps reading m -> keeps untouched m.
Proof. intros H s. eapply pwp_mono; [apply H|]. by intros ? ? []. Qed.
Lemma untouched_keeps_idle {B} (m : K B) : keeps untouched m -> keeps idle m.
Proof. intros H s. eapply pwp_mono; [apply H|]. intros ? ? Hu. by apply untouched_idle. Qed.

Lemma on_cpu_same s s' : procs s' = procs s -> cur s' = cur s -> on_cpu s -> on_cpu s'.
Proof. intros E1 E2 (p & Hp & Hd). exists p. split; [|done]. unfold pat in *. congruence. Qed.

Lemma untouched_onvm {B} (m : M (vms A) B) : keeps untouched (onvm m).
Proof. by apply keeps_zoom. Qed.
Lemma untouched_kvm v : keeps untouched (modify (@set_kvm A v)).
Proof. by apply keeps_modify. Qed.
Lemma reading_onfs {B} (m : M fsst B) : keeps reading (@onfs A B m).
Proof. by apply keeps_zoom. Qed.
Lemma untouched_onfs {B} (m : M fsst B) : keeps untouched (@onfs A B m).
Proof. by apply keeps_zoom. Qed.
#[local] Hint Resolve untouched_onvm untouched_kvm reading_onfs untouched_onfs : keeps.

(** [walkaddr] and the copies from user memory do not allocate. *)
Definition same_al (v v' : vms A) : Prop := al v' = al v.
#[global] Instance same_al_preorder : PreOrder same_al.
Proof. split; [done|]. unfold same_al. intros ? ? ? ? ?. congruence. Qed.

Lemma same_al_mem f : keeps same_al (on_mem f).
Proof. by apply keeps_modify. Qed.
Lemma same_al_walk l pt va : keeps same_al (walk_loop l pt va false).
Proof. revert pt. induction l as [|l IH]; intros pt; cbn [walk_loop negb]; unfold rd64; keeps. Qed.
Lemma same_al_walkaddr pt va : keeps same_al (walkaddr pt va).
Proof. unfold walkaddr, walk, rd64. keeps; apply same_al_walk. Qed.
#[local] Hint Resolve same_al_mem same_al_walkaddr : keeps.
Lemma same_al_copystr n p d m : keeps same_al (copystr_loop n p d m).
Proof. revert p d m. induction n as [|n IH]; intros p d m; cbn [copystr_loop]; keeps. Qed.
#[local] Hint Resolve same_al_copystr : keeps.
Lemma same_al_copyinstr pt d s m : keeps same_al (copyinstr pt d s m).
Proof. unfold copyinstr. keeps. Qed.
Lemma reading_onvm {B} (m : M (vms A) B) : keeps same_al m -> keeps reading (@onvm A B m).
Proof. intros H s. apply pwp_zoom. eapply pwp_mono; [apply H|]. intros b v E. by split. Qed.

Lemma reading_argraw n : keeps reading (@argraw A n).
Proof. unfold argraw, myproc, get_proc, get_tf. keeps. apply reading_onvm. unfold rd64. keeps. Qed.
#[local] Hint Resolve reading_argraw : keeps.
Lemma reading_argint n : keeps reading (@argint A n).
Proof. unfold argint. keeps. Qed.
Lemma reading_argpath n b : keeps reading (@argpath A PA n b).
Proof.
  unfold argpath, argstr, argaddr, fetchstr, kstrlen, myproc, get_proc. keeps. apply reading_onvm, same_al_copyinstr.
Qed.
Lemma reading_kbegin_op : keeps reading (@kbegin_op A).
Proof. unfold kbegin_op. keeps. Qed.
Lemma reading_kend_op : keeps reading (@kend_op A).
Proof. unfold kend_op. keeps. Qed.
Lemma reading_knamex {B} (f : Z -> list Z -> M fsst B) path : keeps reading (@knamex A B f path).
Proof. unfold knamex, myproc, get_proc. keeps. Qed.
#[local] Hint Resolve reading_argint reading_argpath reading_kbegin_op reading_kend_op reading_knamex : keeps.
Lemma reading_create path ty mj mn : keeps reading (@create A path ty mj mn).
Proof. unfold create, knameiparent. keeps. Qed.
#[local] Hint Resolve reading_create : keeps.
Lemma reading_open_inode path m : keeps reading (@open_inode A path m).
Proof. unfold open_inode, knamei. keeps. Qed.
#[local] Hint Resolve reading_open_inode : keeps.

(** ** The operations of file.c *)

(** The descriptors stay; files may change. *)
Definition table (s s' : kst A) : Prop := cur s' = cur s /\ Forall2 same_fds (procs s) (procs s').

Lemma table_idle s s' : idle s s' -> table s s'.
Proof. by intros []. Qed.

#[global] Instance table_preorder : PreOrder table.
Proof.
  split; [intros s; split; [done | reflexivity]|]. intros s1 s2 s3 [E1 F1] [E2 F2]. split; [congruence|].
  by etransitivity.
Qed.

Lemma filealloc_pwp e s (Q : Z -> kst A -> Prop) :
  fd_inv e s -> (forall f a, fh_alloc (al (kvm s)) = Ret (f, a) -> files s !! f = None) ->
  (forall f a s', fh_alloc (al (kvm s)) = Ret (f, a) -> f <> 0 -> fd_inv (plus e f 1) s' ->
     files s' = <[f := with_fref 1 file0]> (files s) -> procs s' = procs s -> cur s' = cur s -> al (kvm s') = a -> Q f s') ->
  pwp filealloc s Q.
Proof.
  intros H Hfresh HQ. unfold filealloc, put_file, onvm. pwp_step. pwp_step. pwp_step. intros f a Ea.
  case_if; [pwp_step|]. pwp_step. pwp_step. pwp_step. apply (HQ f a); try done.
  apply (fd_inv_new e (set_kvm (set_al a (kvm s)) s)); try done; [|by apply (Hfresh f a)].
  eapply fd_inv_idle; [|exact H]. apply untouched_idle. done.
Qed.

Lemma filedup_pwp e s f v (Q : Z -> kst A -> Prop) :
  fd_inv e s -> files s !! f = Some v -> e f <= 1000 ->
  (forall s', fd_inv (plus e f 1) s' -> procs s' = procs s -> cur s' = cur s -> is_Some (files s' !! f)
     /\ (forall g, is_Some (files s !! g) -> is_Some (files s' !! g)) -> Q f s') ->
  pwp (filedup f) s Q.
Proof.
  intros H Hf He HQ. unfold filedup, get_file, put_file. pwp_step. pwp_step. pwp_step. apply pwp_from_option.
  intros v' Hv'. assert (v' = v) as -> by congruence. case_if; [pwp_step|]. pwp_step. pwp_step. pwp_step.
  destruct (fi_ref _ _ H f v Hf) as [Hpos Er]. pose proof (fi_refs _ _ f H) as Hr. rewrite i32_small by lia.
  apply HQ; try done.
  - eapply fd_inv_ext; [|apply (fd_inv_put e s f v); [done | done | cbn; lia]]. intros g _. cbn. f_equal. lia.
  - cbn. split; [rewrite lookup_insert_eq; by eexists|]. intros g Hg. destruct (decide (g = f)) as [->|];
      [rewrite lookup_insert_eq; by eexists | by rewrite lookup_insert_ne].
Qed.

(** The file table after one reference to [f] is given up. *)
Definition drop_ref (f : Z) (v : file) (m : gmap Z file) : gmap Z file :=
  if fref v =? 1 then delete f m else <[f := with_fref (fref v - 1) v]> m.

Lemma fd_inv_drop e s f v : fd_inv e s -> files s !! f = Some v -> 0 < e f ->
  fd_inv (plus e f (-1)) (set_files (drop_ref f v (files s)) s).
Proof.
  intros H Hf He. destruct (fi_ref _ _ H f v Hf). unfold drop_ref. case_if; [by apply (fd_inv_delete e s f v)|].
  eapply fd_inv_ext; [|apply (fd_inv_put e s f v); [done | done | cbn; lia]]. intros g _. cbn. f_equal. lia.
Qed.

Lemma fileclose_raw s f (Q : unit -> kst A -> Prop) :
  (forall v, files s !! f = Some v -> 0 < fref v -> forall s', table s s' -> files s' = drop_ref f v (files s) -> Q tt s') -> pwp (fileclose f) s Q.
Proof.
  intros HQ. unfold fileclose, get_file, put_file. pwp_step. pwp_step. pwp_step. apply pwp_from_option.
  intros v Hv. case_if; [pwp_step|]. pwp_step. pwp_step. case_if.
  - pwp_step. apply (HQ v); try done; [lia|]. cbn. unfold drop_ref. by zcmp.
  - set (s1 := set_files (<[f := with_fref (fref v - 1) v]> (files s)) s).
    pwp_step. eapply (pwp_mono _ _ (fun _ s' => idle s1 s')).
    { match goal with |- pwp ?m _ _ => assert (keeps idle m) as Hm; [|apply Hm] end. keeps. }
    intros [] s2 I2. pwp_step. pwp_step. eapply pwp_mono; [apply idle_onvm|]. intros [] s3 I3.
    apply (HQ v); try done; [lia | |].
    + transitivity s2; [destruct I2; by split | by destruct I3].
    + rewrite (id_files _ _ I3). cbn. rewrite (id_files _ _ I2). unfold drop_ref. zcmp. cbn. by rewrite delete_insert_eq.
Qed.

Lemma fd_inv_table e s s' : table s s' -> files s' = files s -> fd_inv e s -> fd_inv e s'.
Proof. intros [E F] Ef. apply fd_inv_idle. by constructor. Qed.

Lemma fileclose_pwp e s f (Q : unit -> kst A -> Prop) :
  fd_inv e s -> 0 < e f -> (forall s', fd_inv (plus e f (-1)) s' -> table s s' -> Q tt s') -> pwp (fileclose f) s Q.
Proof.
  intros H He HQ. apply fileclose_raw. intros v Hv _ s' T Ef. apply HQ; [|done].
  apply (fd_inv_table _ (set_files (drop_ref f v (files s)) s)); [done | done | by apply fd_inv_drop].
Qed.

(** ** Descriptors of the running process *)

Lemma argfd_pwp n s (Q : option (Z * Z) -> kst A -> Prop) :
  (forall s', reading s s' -> Q None s') ->
  (forall s' fd f p, reading s s' -> pat s' (cur s') p -> 0 <= fd < NOFILE -> ofile p !! Z.to_nat fd = Some f -> f <> 0 -> Q (Some (fd, f)) s') ->
  pwp (argfd n) s Q.
Proof.
  intros HN HS. unfold argfd. pwp_step. eapply pwp_mono; [apply reading_argint|]. intros fd s1 R1.
  case_if; [pwp_step; by apply HN|]. unfold myproc. pwp_step. pwp_step. pwp_step. apply get_proc_pwp. intros p Hp. pwp_step.
  apply pwp_from_option. intros f Hf. pwp_step. case_if; [by apply HN|]. apply aget_lookup in Hf as [? ?]. by apply (HS s1 fd f p).
Qed.

Lemma set_fd_pwp e s p k g h (Q : unit -> kst A -> Prop) :
  fd_inv e s -> pat s (cur s) p -> ofile p !! Z.to_nat k = Some g -> (h = 0 \/ (~ dead p /\ is_Some (files s !! h))) ->
  (forall s', fd_inv (fun f => e f + hit f g - hit f h) s' -> files s' = files s -> cur s' = cur s -> al (kvm s') = al (kvm s) ->
     pat s' (cur s) (with_ofile (<[Z.to_nat k := h]> (ofile p)) p) -> Q tt s') ->
  pwp (set_fd k h) s Q.
Proof.
  intros H Hp Hk Hh HQ. unfold set_fd, mod_myproc. pwp_step. pwp_step. apply mod_proc_pwp. intros p' Hp'.
  assert (p' = p) as -> by (by eapply pat_fun). apply HQ; try done; [|apply (pat_upd s (cur s) p); [done | by left]].
  pose proof Hp as [_ Hpi]%aget_lookup.
  pose proof (Forall_lookup_1 _ _ _ _ (fi_len _ _ H) Hpi) as Hlen. pose proof (Forall_lookup_1 _ _ _ _ (fi_dead _ _ H) Hpi) as Hdead.
  eapply fd_inv_ext; [|apply (fd_inv_ofile e s (cur s) p (<[Z.to_nat k := h]> (ofile p)) H Hp)].
  - intros f Hf. cbn beta. rewrite (cnt_insert f _ _ g h Hk). lia.
  - by rewrite length_insert.
  - intros Hd. destruct Hh as [->|[Hnd _]]; [|done]. apply Forall_insert; [by apply Hdead | done].
  - intros f Hf Hn. rewrite (cnt_insert f _ _ g h Hk).
    destruct (fi_none _ _ H f Hf Hn) as [Hr _]. pose proof (refs_lookup f _ _ _ Hpi). pose proof (cnt_bound f (ofile p)).
    pose proof (hit_bound f g). assert (hit f h = 0) as ->.
    { unfold hit. case_if; [|done]. subst h. destruct Hh as [->|[_ [v Hv]]]; [done | congruence]. }
    pose proof (cnt_insert f _ _ g 0 Hk) as Hc. pose proof (cnt_bound f (<[Z.to_nat k := 0]> (ofile p))).
    unfold hit at 2 in Hc. rewrite (proj2 (Z.eqb_neq f 0) Hf) in Hc. lia.
Qed.

Lemma find_fd_spec l fd k : find_fd l fd = Some k -> fd <= k < fd + Z.of_nat (length l) /\ l !! Z.to_nat (k - fd) = Some 0
  /\ forall j, fd <= j < k -> l !! Z.to_nat (j - fd) <> Some 0.
Proof.
  revert fd. induction l as [|f l IH]; intros fd; cbn [find_fd]; [done|]. case_if.
  - intros [= <-]. subst. cbn [length]. replace (Z.to_nat (fd - fd)) with 0%nat by lia. split; [lia|]. split; [done | lia].
  - intros H. destruct (IH (fd + 1) H) as (H1 & H2 & H3). cbn [length].
    assert (forall j, fd + 1 <= j -> (f :: l) !! Z.to_nat (j - fd) = l !! Z.to_nat (j - (fd + 1))) as Hs.
    { intros j Hj. by replace (Z.to_nat (j - fd)) with (S (Z.to_nat (j - (fd + 1)))) by lia. }
    split; [lia|]. split; [rewrite Hs by lia; done|]. intros j Hj. destruct (decide (j = fd)) as [->|].
    + replace (Z.to_nat (fd - fd)) with 0%nat by lia. cbn. congruence.
    + rewrite Hs by lia. apply H3. lia.
Qed.

(** [fdalloc] takes over a reference, or leaves it with the caller. *)
Lemma fdalloc_pwp e s f (Q : Z -> kst A -> Prop) :
  fd_inv e s -> on_cpu s -> is_Some (files s !! f) ->
  (forall s' k, fd_inv (plus e f (-1)) s' -> on_cpu s' -> 0 <= k -> files s' = files s -> cur s' = cur s -> al (kvm s') = al (kvm s) ->
     (exists p, pat s (cur s) p /\ ofile p !! Z.to_nat k = Some 0 /\ pat s' (cur s) (with_ofile (<[Z.to_nat k := f]> (ofile p)) p)) -> Q k s') ->
  Q (-1) s -> pwp (fdalloc f) s Q.
Proof.
  intros H (p & Hp & Hd) Hf HQ HN. unfold fdalloc, myproc. pwp_step. pwp_step. pwp_step. apply get_proc_pwp. intros p' Hp'.
  assert (p' = p) as -> by (by eapply pat_fun). destruct (find_fd (ofile p) 0) as [k|] eqn:E; [|by pwp_step].
  apply find_fd_spec in E as (Hk & H0 & _). rewrite Z.sub_0_r in H0. pwp_step.
  eapply (set_fd_pwp e s p k 0 f); [done | done | done | right; done|]. intros s1 I1 F1 C1 A1 P1. pwp_step.
  assert (f <> 0) as Hf0 by (intros ->; rewrite (fi_null _ _ H) in Hf; by destruct Hf).
  apply HQ; try done; [| |lia|].
  - eapply fd_inv_ext; [|exact I1]. intros g Hg. unfold plus, hit. rewrite (proj2 (Z.eqb_neq g 0)) by done. case_if; lia.
  - eexists. rewrite C1. split; [exact P1 | done].
  - by exists p.
Qed.

Lemma sys_dup_fd s : fd_ok s -> on_cpu s -> pwp sys_dup s (fun _ s' => fd_ok s').
Proof.
  intros H Hc. unfold sys_dup. pwp_step. apply argfd_pwp.
  { intros s1 [R1 _]. pwp_step. eapply fd_inv_idle; [by apply untouched_idle | done]. }
  intros s1 fd f p [R1 _] Hp Hfd Hf Hf0.
  assert (fd_ok s1) as H1 by (eapply fd_inv_idle; [by apply untouched_idle | done]).
  destruct (fd_file _ _ _ _ _ _ H1 Hp Hf Hf0) as [v Hv].
  pwp_step. eapply fdalloc_pwp; [exact H1 | by eapply untouched_cpu | by exists v | |by zcmp; pwp_step].
  intros s2 k H2 C2 Hk F2 _ _ _. case_if; [lia|]. pwp_step. eapply filedup_pwp; [exact H2 | by rewrite F2 | rewrite plus_at; unfold none; lia|].
  intros s3 H3 _ _ _. pwp_step. eapply fd_inv_ext; [|exact H3]. intros g _. unfold plus, none. case_if; lia.
Qed.

Lemma sys_close_fd s : fd_ok s -> pwp sys_close s (fun _ s' => fd_ok s').
Proof.
  intros H. unfold sys_close. pwp_step. apply argfd_pwp.
  { intros s1 [R1 _]. pwp_step. eapply fd_inv_idle; [by apply untouched_idle | done]. }
  intros s1 fd f p [R1 _] Hp Hfd Hf Hf0.
  assert (fd_ok s1) as H1 by (eapply fd_inv_idle; [by apply untouched_idle | done]).
  pwp_step. eapply (set_fd_pwp none s1 p fd f 0); [done | done | done | by left|]. intros s2 H2 _ _ _ _.
  pwp_step. eapply fileclose_pwp; [exact H2 | unfold none, hit; rewrite Z.eqb_refl, (proj2 (Z.eqb_neq f 0)) by done; lia|].
  intros s3 H3 _. pwp_step. eapply fd_inv_ext; [|exact H3]. intros g Hg. unfold plus, none, hit.
  rewrite (proj2 (Z.eqb_neq g 0)) by done. case_if; lia.
Qed.

(** The heap does not hand out the address of an open file, nor the same
    address twice in a row. *)
Definition fresh_heap (s : kst A) : Prop :=
  forall f a, fh_alloc (al (kvm s)) = Ret (f, a) -> files s !! f = None
    /\ forall g a', fh_alloc a = Ret (g, a') -> g <> f /\ files s !! g = None.

Lemma fd_inv_reading e s s' : reading s s' -> fd_inv e s -> fd_inv e s'.
Proof. intros [R _]. apply fd_inv_idle, untouched_idle, R. Qed.

(** An operation that is idle, or only reads, keeps the invariant. *)
Lemma idle_fd {B} e (m : K B) s : keeps idle m -> fd_inv e s -> pwp m s (fun _ s' => fd_inv e s').
Proof. intros Hm H. eapply pwp_mono; [apply Hm|]. intros b s' I. exact (fd_inv_idle _ _ _ I H). Qed.

(** [put_file] that leaves the count. *)
Lemma put_file_fd e s f v v' (Q : unit -> kst A -> Prop) : fd_inv e s -> files s !! f = Some v -> fref v' = fref v ->
  (forall s', fd_inv e s' -> procs s' = procs s -> cur s' = cur s -> files s' = <[f := v']> (files s) -> Q tt s') -> pwp (put_file f v') s Q.
Proof.
  intros H Hf E HQ. unfold put_file. pwp_step. apply HQ; try done.
  - destruct (fi_ref _ _ H f v Hf). eapply fd_inv_ext; [|apply (fd_inv_put e s f v v'); [done | done | lia]].
    intros g _. rewrite E. unfold plus. case_if; lia.
Qed.

Lemma sys_open_fd s : fd_ok s -> on_cpu s -> fresh_heap s -> pwp sys_open s (fun _ s' => fd_ok s').
Proof.
  intros H Hc Hfr. unfold sys_open. pwp_step. eapply pwp_mono; [apply reading_argint|]. intros omode s1 R1.
  pwp_step. eapply pwp_mono; [apply reading_argpath|]. intros [path|] s2 R2; [|pwp_step; apply (fd_inv_reading none s); [etransitivity; [exact R1 | exact R2] | done]].
  pwp_step. eapply pwp_mono; [apply reading_kbegin_op|]. intros [] s3 R3.
  pwp_step. eapply pwp_mono; [apply reading_open_inode|]. intros r s4 R4.
  assert (reading s s4) as R04 by (transitivity s1; [exact R1|]; transitivity s2; [exact R2|]; transitivity s3; [exact R3 | exact R4]).
  assert (fd_ok s4) as H4 by (by apply (fd_inv_reading none s)).
  destruct r as [ip|]; [|apply idle_fd; [keeps | done]].
  pwp_step. eapply pwp_mono; [apply reading_onfs|]. intros v s5 R5.
  assert (reading s s5) as R05 by (etransitivity; [exact R04 | exact R5]). assert (fd_ok s5) as H5 by (by apply (fd_inv_reading none s)). destruct R05 as [U05 A05].
  case_if; [apply idle_fd; [keeps | done]|].
  pwp_step. eapply filealloc_pwp; [exact H5 | intros f a; rewrite A05, (un_files _ _ U05); intros Ea; by apply (Hfr f a)|].
  intros f a s6 Ea Hf0 H6 F6 P6 C6 A6.
  assert (files s6 !! f = Some (with_fref 1 file0)) as Hf by (rewrite F6; apply lookup_insert_eq).
  assert (on_cpu s6) as Hc6.
  { eapply on_cpu_same; [exact P6 | exact C6 | by eapply untouched_cpu]. }
  rewrite (proj2 (Z.eqb_neq f 0)) by done. cbn [negb when].
  pwp_step. eapply fdalloc_pwp; [exact H6 | done | by eexists | |].
  - intros s7 k H7 C7 Hk F7 _ _ _. case_if; [lia|]. unfold get_file. pwp_step. pwp_step. pwp_step. apply pwp_from_option.
    intros x Hx. pwp_step. eapply put_file_fd; [exact H7 | exact Hx | done|]. intros s8 H8 _ _ _.
    apply idle_fd; [keeps|]. eapply fd_inv_ext; [|exact H8]. intros g _. unfold plus, none. case_if; lia.
  - zcmp. pwp_step. eapply fileclose_pwp; [exact H6 | rewrite plus_at; unfold none; lia|]. intros s7 H7 _.
    apply idle_fd; [keeps|]. eapply fd_inv_ext; [|exact H7]. intros g _. unfold plus, none. case_if; lia.
Qed.

Lemma pipealloc_pwp s (Q : option (Z * Z) -> kst A -> Prop) :
  fd_ok s -> on_cpu s -> fresh_heap s -> (forall s', fd_ok s' -> Q None s') ->
  (forall s' f g, fd_inv (plus (plus none f 1) g 1) s' -> on_cpu s' -> f <> g -> is_Some (files s' !! f) -> is_Some (files s' !! g) ->
     Q (Some (f, g)) s') ->
  pwp pipealloc s Q.
Proof.
  intros H Hc Hfr HN HS. unfold pipealloc. pwp_step. eapply filealloc_pwp; [exact H | intros f a Ea; by apply (Hfr f a)|].
  intros f a s1 Ea Hf0 H1 F1 P1 C1 A1. destruct (Hfr f a Ea) as [Hf Hnext].
  pwp_step. eapply filealloc_pwp; [exact H1 | |].
  { intros g a'. rewrite A1. intros Eg. destruct (Hnext g a' Eg). rewrite F1, lookup_insert_ne; done. }
  intros g a' s2 Eg Hg0 H2 F2 P2 C2 _. rewrite A1 in Eg. destruct (Hnext g a' Eg) as [Hgf _].
  pwp_step. eapply pwp_mono; [apply untouched_onvm|]. intros pi s3 U3.
  assert (fd_inv (plus (plus none f 1) g 1) s3) as H3 by exact (fd_inv_idle _ s2 s3 (untouched_idle _ _ U3) H2). case_if.
  - pwp_step. eapply fileclose_pwp; [exact H3 | rewrite plus_ne, plus_at by done; unfold none; lia|]. intros s4 H4 _.
    pwp_step. eapply fileclose_pwp; [exact H4 | rewrite plus_ne, plus_at, plus_ne by done; unfold none; lia|]. intros s5 H5 _.
    pwp_step. apply HN. eapply fd_inv_ext; [|exact H5]. intros h _. unfold plus, none. repeat case_if; lia.
  - pwp_step. pwp_step. unfold put_pipe. pwp_step. pwp_step.
    match goal with |- pwp _ ?x _ => set (s4 := x) end.
    assert (untouched s3 (set_pipes (pipes s3) s4)) as U4 by done.
    assert (fd_inv (plus (plus none f 1) g 1) s4) as H4 by (eapply fd_inv_idle; [|exact H3]; by constructor).
    assert (files s4 = <[g := with_fref 1 file0]> (<[f := with_fref 1 file0]> (files s))) as F4.
    { change (files s3 = <[g := with_fref 1 file0]> (<[f := with_fref 1 file0]> (files s))). by rewrite (un_files _ _ U3), F2, F1. }
    assert (procs s4 = procs s /\ cur s4 = cur s) as [P4 C4].
    { change (procs s3 = procs s /\ cur s3 = cur s). rewrite (un_procs _ _ U3), (un_cur _ _ U3). split; congruence. }
    pwp_step. eapply (put_file_fd _ s4 f (with_fref 1 file0)); [exact H4 | rewrite F4, lookup_insert_ne, lookup_insert_eq by done; done | done|].
    intros s5 H5 P5 C5 F5.
    pwp_step. eapply (put_file_fd _ s5 g (with_fref 1 file0)); [exact H5 | rewrite F5, F4, lookup_insert_ne, lookup_insert_eq by done; done | done|].
    intros s6 H6 P6 C6 F6. pwp_step. apply HS; try done.
    + apply (on_cpu_same s); [congruence | congruence | done].
    + rewrite F6, F5, lookup_insert_ne, lookup_insert_eq by done. by eexists.
    + rewrite F6, lookup_insert_eq. by eexists.
Qed.

Lemma untouched_either_copyout u d b : keeps untouched (@either_copyout A PA u d b).
Proof. unfold either_copyout, myproc, get_proc. keeps. Qed.


(** Closing both ends that the call still holds. *)
Lemma close_both e s f g : fd_inv e s -> f <> g -> (forall h, h <> 0 -> e h = plus (plus none f 1) g 1 h) -> f <> 0 -> g <> 0 ->
  pwp (fileclose f ;;; fileclose g ;;; ret (-1)) s (fun _ s' => fd_ok s').
Proof.
  intros H Hn He Hf Hg. pwp_step. eapply fileclose_pwp; [exact H | rewrite He by done; rewrite plus_ne, plus_at by done; unfold none; lia|].
  intros s1 H1 _. pwp_step. eapply fileclose_pwp; [exact H1 | rewrite plus_ne by done; rewrite He by done; rewrite plus_at, plus_ne by done; unfold none; lia|].
  intros s2 H2 _. pwp_step. eapply fd_inv_ext; [|exact H2]. intros h Hh. unfold plus at 1 2. rewrite He by done. unfold plus, none. repeat case_if; lia.
Qed.

Lemma sys_pipe_fd s : fd_ok s -> on_cpu s -> fresh_heap s -> pwp sys_pipe s (fun _ s' => fd_ok s').
Proof.
  intros H Hc Hfr. unfold sys_pipe. pwp_step. unfold argaddr. eapply pwp_mono; [apply reading_argraw|]. intros fdarray s1 R1.
  assert (fd_ok s1) as H1 by (by apply (fd_inv_reading none s)). destruct R1 as [U1 A1].
  pwp_step. apply pipealloc_pwp; [done | by eapply untouched_cpu | | by intros; pwp_step|].
  { unfold fresh_heap. by rewrite A1, (un_files _ _ U1). }
  intros s2 f g H2 C2 Hfg Hf Hg.
  assert (f <> 0) as Hf0 by (intros ->; rewrite (fi_null _ _ H2) in Hf; by destruct Hf).
  assert (g <> 0) as Hg0 by (intros ->; rewrite (fi_null _ _ H2) in Hg; by destruct Hg).
  pwp_step. eapply fdalloc_pwp; [exact H2 | done | done | |].
  2:{ zcmp. pwp_step. pwp_step. cbn [orb]. zcmp. change (-1 >=? 0) with false. cbn [when]. pwp_step. pwp_step. by eapply close_both. }
  intros s3 k H3 C3 Hk F3 Cu3 _ (p & Hp & Hz & Hp3). zcmp.
  pose proof Hp3 as [_ Hpi3]%aget_lookup. pose proof (Forall_lookup_1 _ _ _ _ (fi_len _ _ H3) Hpi3) as Hlen. cbn in Hlen.
  assert (ofile (with_ofile (<[Z.to_nat k := f]> (ofile p)) p) !! Z.to_nat k = Some f) as Hk3.
  { cbn. apply list_lookup_insert_eq. by apply lookup_lt_Some in Hz. }
  assert (pat s3 (cur s3) (with_ofile (<[Z.to_nat k:=f]> (ofile p)) p)) as Hp3' by (by rewrite Cu3).
  pwp_step. eapply fdalloc_pwp; [exact H3 | done | by rewrite F3 | |].
  2:{ zcmp. cbn [orb]. zcmp. cbn [when]. replace (k >=? 0) with true by (symmetry; apply Z.geb_le; lia). cbn [when].
      pwp_step. eapply set_fd_pwp; [exact H3 | exact Hp3' | exact Hk3 | by left|]. intros s4 H4 _ _ _ _.
      eapply close_both; try done. intros h Hh. cbn beta. unfold plus, none, hit. repeat case_if; lia. }
  intros s4 j H4 C4 Hj F4 Cu4 _ (q & Hq & Hzq & Hq4). zcmp. cbn [orb]. zcmp. cbn [orb].
  assert (q = with_ofile (<[Z.to_nat k:=f]> (ofile p)) p) as -> by (by eapply pat_fun).
  assert (k <> j) as Hkj by (intros ->; congruence).
  pwp_step. unfold put_int. eapply pwp_mono; [apply untouched_either_copyout|]. intros k1 s5 U5.
  pwp_step. eapply (pwp_mono _ _ (fun _ s' => untouched s5 s')).
  { case_if; [by pwp_step | apply untouched_either_copyout]. }
  intros k2 s6 U6. assert (untouched s4 s6) as U46 by (transitivity s5; [exact U5 | exact U6]).
  assert (fd_inv (plus (plus (plus (plus none f 1) g 1) f (-1)) g (-1)) s6) as H6 by exact (fd_inv_idle _ s4 s6 (untouched_idle _ _ U46) H4).
  case_if; [|pwp_step; eapply fd_inv_ext; [|exact H6]; intros h _; unfold plus, none; repeat case_if; lia].
  assert (pat s6 (cur s6) (with_ofile (<[Z.to_nat j:=g]> (<[Z.to_nat k:=f]> (ofile p))) p)) as Hq6.
  { unfold pat in *. rewrite (un_procs _ _ U46), (un_cur _ _ U46), Cu4, Cu3 in *. exact Hq4. }
  pwp_step. eapply set_fd_pwp; [exact H6 | exact Hq6 | cbn; rewrite list_lookup_insert_ne by lia; exact Hk3 | by left|].
  intros s7 H7 _ Cu7 _ Hq7. cbn [ofile with_ofile] in Hq7.
  pwp_step. eapply set_fd_pwp; [exact H7 | rewrite Cu7; exact Hq7 | | by left|].
  { cbn. rewrite list_lookup_insert_ne by lia. apply list_lookup_insert_eq. cbn in Hzq. by apply lookup_lt_Some in Hzq. }
  intros s8 H8 _ _ _ _. eapply close_both; try done. intros h Hh. cbn beta. unfold plus, none, hit. repeat case_if; lia.
Qed.

(** ** Processes *)

Lemma freeproc_fd i s p : pat s i p -> no_files p -> pwp (freeproc i) s (fun _ s' => idle s s').
Proof.
  intros Hp Hn. unfold freeproc. pwp_step. apply get_proc_pwp. intros p' Hp'.
  assert (p' = p) as -> by (by eapply pat_fun).
  pwp_step. eapply (pwp_mono _ _ (fun _ s' => idle s s')).
  { match goal with |- pwp ?m _ _ => assert (keeps idle m) as Hm; [keeps | apply Hm] end. }
  intros [] s1 I1. pwp_step. eapply pwp_mono; [apply idle_mod_proc; intros q; by split; [|left]|]. intros [] s2 I2.
  pwp_step. eapply (pwp_mono _ _ (fun _ s' => idle s2 s')).
  { match goal with |- pwp ?m _ _ => assert (keeps idle m) as Hm; [keeps | apply Hm] end. }
  intros [] s3 I3. assert (idle s s3) as I03 by (transitivity s1; [exact I1|]; transitivity s2; [exact I2 | exact I3]).
  apply mod_proc_pwp. intros q Hq. destruct (idle_pat_r _ _ _ _ I03 Hq) as (p0 & Hp0 & [Eo _]).
  assert (p0 = p) as -> by (by eapply pat_fun).
  etransitivity; [exact I03|]. eapply idle_upd; [exact Hq|]. split; [done|]. intros _. right. unfold no_files. by rewrite Eo.
Qed.

(** Slot [i] holds [q] after steps that were idle. *)
Definition holds (s s' : kst A) (i : Z) (q : proc) : Prop := idle s s' /\ pat s' i q.

Lemma holds_mod s s1 i q f (Q : unit -> kst A -> Prop) :
  holds s s1 i q -> same_fds q (f q) -> (forall s2, holds s s2 i (f q) -> Q tt s2) -> pwp (mod_proc i f) s1 Q.
Proof.
  intros [I1 Hq] Hf HQ. apply mod_proc_pwp. intros q' Hq'. assert (q' = q) as -> by (by eapply pat_fun). apply HQ. split.
  - etransitivity; [exact I1|]. by eapply idle_upd.
  - apply (pat_upd s1 i q); [done | by left].
Qed.

Lemma holds_untouched s s1 s2 i q : holds s s1 i q -> untouched s1 s2 -> holds s s2 i q.
Proof.
  intros [I1 Hq] U. split; [etransitivity; [exact I1 | by apply untouched_idle]|]. unfold pat in *. by rewrite (un_procs _ _ U).
Qed.

Lemma allocproc_fd e s (Q : option Z -> kst A -> Prop) :
  fd_inv e s -> (forall s', idle s s' -> Q None s') ->
  (forall i s' q, holds s s' i q -> no_files q -> ~ dead q -> Q (Some i) s') -> pwp (allocproc trampoline forkret) s Q.
Proof.
  intros H HN HS. unfold allocproc. pwp_step. pwp_step. pose proof (find_state_spec UNUSED (procs s) 0) as Hf.
  destruct (find_state UNUSED (procs s) 0) as [i|]; [|pwp_step; by apply HN].
  destruct Hf as [Hi (p & Hp & Eu)]. rewrite Z.sub_0_r in Hp.
  assert (no_files p) as Hno by (apply (Forall_lookup_1 _ _ _ _ (fi_dead _ _ H) Hp); by left).
  assert (holds s s i p) as T0 by (split; [done | apply aget_lookup; split; [lia | done]]).
  unfold allocpid. pwp_step. pwp_step. pwp_step. pwp_step. pwp_step. pwp_step.
  assert (holds s (set_nextpid (i32 (nextpid s + 1)) s) i p) as T1 by (destruct T0; split; [constructor; reflexivity | done]).
  pwp_step. eapply (holds_mod s _ i p); [exact T1 | by split; [|intros [|]]|]. intros s2 T2.
  assert (forall s3 q, holds s s3 i q -> ofile q = ofile p -> pwp (freeproc i ;;; ret None) s3 Q) as Hfree.
  { intros s3 q [I3 Hq] Eo. pwp_step. eapply pwp_mono; [apply (freeproc_fd i s3 q); [done | unfold no_files; by rewrite Eo]|].
    intros [] s4 I4. pwp_step. apply HN. by etransitivity. }
  pwp_step. eapply pwp_mono; [apply untouched_onvm|]. intros tf s3 U3. apply (holds_untouched _ _ _ _ _ T2) in U3.
  pwp_step. eapply holds_mod; [exact U3 | by split; [|left]|]. intros s4 T4. case_if; [by eapply Hfree|].
  pwp_step. eapply pwp_mono; [apply untouched_onvm|]. intros pt s5 U5. apply (holds_untouched _ _ _ _ _ T4) in U5.
  pwp_step. eapply holds_mod; [exact U5 | by split; [|left]|]. intros s6 T6. case_if; [by eapply Hfree|].
  pwp_step. eapply holds_mod; [exact T6 | by split; [|left]|]. intros s7 T7. pwp_step. eapply HS; [exact T7 | done | by intros [|]].
Qed.

Lemma dup_files_fd l : forall e s (Q : unit -> kst A -> Prop),
  fd_inv e s -> (forall f, f <> 0 -> 0 < cnt f l -> is_Some (files s !! f)) -> (forall f, e f + cnt f l <= 1000) ->
  (forall s', fd_inv (fun f => e f + cnt f l) s' -> procs s' = procs s -> cur s' = cur s -> Q tt s') -> pwp (dup_files l) s Q.
Proof.
  induction l as [|g l IH]; intros e s Q H Hf Hb HQ; cbn [dup_files cnt] in *.
  - pwp_step. apply HQ; try done. eapply fd_inv_ext; [|exact H]. intros f _. lia.
  - pwp_step. apply pwp_when; intros Eg; bool_prop.
    + pwp_step. destruct (Hf g) as [v Hv]; [done | pose proof (cnt_bound g l); unfold hit; rewrite Z.eqb_refl; lia|].
      eapply filedup_pwp; [exact H | exact Hv | pose proof (Hb g); pose proof (cnt_bound g l); pose proof (hit_bound g g); lia|].
      intros s1 H1 P1 C1 [_ F1]. pwp_step. apply (IH (plus e g 1)).
      * done.
      * intros f Hf0 Hc. apply F1, Hf; [done|]. pose proof (hit_bound f g). lia.
      * intros f. pose proof (Hb f). unfold plus, hit in *. case_if; lia.
      * intros s2 H2 P2 C2. apply HQ; [|congruence..]. eapply fd_inv_ext; [|exact H2]. intros f _. unfold plus, hit. case_if; lia.
    + subst g. apply (IH e); [done | intros f Hf0 Hc; apply Hf; [done | pose proof (hit_bound f 0); lia] | intros f; pose proof (Hb f); pose proof (hit_bound f 0); lia |].
      intros s2 H2 P2 C2. apply HQ; try done. eapply fd_inv_ext; [|exact H2]. intros f Hf0. unfold hit. case_if; lia.
Qed.

Lemma merge_no_files l q : no_files q -> length l = length (ofile q) -> merge_files l (ofile q) = l.
Proof.
  unfold no_files, merge_files. generalize (ofile q). clear. intros k Hk. revert l. induction Hk as [|g k -> _ IH]; intros [|f l] E; try done.
  cbn. rewrite (IH l) by (cbn in E; lia). case_if; congruence.
Qed.

Lemma cnt_pos f l : 0 < cnt f l -> exists k, l !! k = Some f.
Proof.
  induction l as [|g l IH]; cbn [cnt]; [lia|]. unfold hit. case_if; [subst; intros _; by exists 0%nat|].
  intros Hc. destruct IH as [k Hk]; [lia|]. by exists (S k).
Qed.

Lemma fork_fd s : fd_ok s -> pwp (fork trampoline forkret) s (fun _ s' => fd_ok s').
Proof.
  intros H. unfold fork, myproc. pwp_step. pwp_step. pwp_step. apply get_proc_pwp. intros p Hp. pwp_step. pwp_step. pwp_step.
  apply (allocproc_fd none); [done | intros s1 I1; pwp_step; exact (fd_inv_idle _ s s1 I1 H)|].
  intros i s1 q T1 Nq Dq. pwp_step. apply get_proc_pwp. intros np Hnp. assert (np = q) as -> by (destruct T1; by eapply pat_fun).
  pwp_step. eapply pwp_mono; [apply untouched_onvm|]. intros c s2 U2. apply (holds_untouched _ _ _ _ _ T1) in U2. case_if.
  { pwp_step. destruct U2 as [I2 H2]. eapply pwp_mono; [by apply (freeproc_fd i s2 q)|]. intros [] s3 I3. pwp_step.
    apply (fd_inv_idle _ s); [etransitivity; [exact I2 | exact I3] | done]. }
  pwp_step. eapply holds_mod; [exact U2 | by split; [|left]|]. intros s3 T3.
  pwp_step. eapply pwp_mono; [apply untouched_onvm|]. intros [] s4 U4. apply (holds_untouched _ _ _ _ _ T3) in U4.
  pwp_step. eapply pwp_mono; [apply untouched_onvm|]. intros [] s5 U5. apply (holds_untouched _ _ _ _ _ U4) in U5.
  destruct U5 as [I5 Hq5]. assert (fd_ok s5) as H5 by exact (fd_inv_idle _ s s5 I5 H).
  pose proof Hp as [_ Hpi]%aget_lookup. pose proof (Forall_lookup_1 _ _ _ _ (fi_len _ _ H) Hpi) as Lp.
  pose proof Hq5 as [_ Hqi]%aget_lookup. pose proof (Forall_lookup_1 _ _ _ _ (fi_len _ _ H5) Hqi) as Lq.
  pwp_step. apply (dup_files_fd (ofile p) none); [done | | |].
  { intros f Hf Hc. rewrite (id_files _ _ I5). destruct (cnt_pos _ _ Hc) as [k Hk].
    destruct (fd_file _ _ _ _ _ _ H Hp Hk Hf) as [v Hv]. by exists v. }
  { intros f. pose proof (cnt_bound f (ofile p)). rewrite Lp in *. unfold none, NOFILE in *. lia. }
  intros s6 H6 P6 C6. pwp_step. apply mod_proc_pwp. intros q' Hq'.
  assert (q' = with_sz (sz p) q) as -> by (unfold pat in *; congruence).
  cbn [ofile with_sz] in Lq |- *. rewrite merge_no_files by (done || congruence).
  assert (fd_ok (upd_proc s6 i (with_ofile (ofile p) (with_sz (sz p) q)))) as H7.
  { eapply fd_inv_ext; [|apply (fd_inv_ofile _ s6 i _ (ofile p) H6 Hq' Lp)].
    - intros f Hf. cbn [ofile with_sz]. rewrite (cnt_zeros f (ofile q) Hf Nq). unfold none. lia.
    - intros Hd. exfalso. apply Dq. destruct Hd; [by left | by right].
    - intros f Hf Hn. destruct (fi_none _ _ H6 f Hf Hn) as [_ Hc]. unfold none in Hc. lia. }
  apply idle_fd; [|exact H7]. destruct (cwd p); keeps; apply idle_mod_proc; intros r; (split; [done | first [intros Hd; left; exact Hd | by intros [|]]]).
Qed.

(** Closing one descriptor of [exit]: the file first, then the entry. *)
Lemma close_one s fd (Q : unit -> kst A -> Prop) p f :
  fd_ok s -> pat s (cur s) p -> ofile p !! Z.to_nat fd = Some f -> f <> 0 ->
  (forall s' p', fd_ok s' -> cur s' = cur s -> pat s' (cur s') p' -> ofile p' = <[Z.to_nat fd := 0]> (ofile p) -> Q tt s') ->
  pwp (fileclose f ;;; mod_myproc (fun p => with_ofile (<[Z.to_nat fd := 0]> (ofile p)) p)) s Q.
Proof.
  intros H Hp Hk Hf HQ. pose proof Hp as [Hc Hpi]%aget_lookup. pwp_step. apply fileclose_raw. intros v Hv _ s1 [C1 T1] F1.
  unfold mod_myproc. pwp_step. pwp_step. apply mod_proc_pwp. intros p1 Hp1. pose proof Hp1 as [_ Hp1i]%aget_lookup. rewrite C1 in Hp1i.
  destruct (Forall2_lookup_l _ _ _ _ _ T1 Hpi) as (p1' & E1 & [Eo Ed]). assert (p1' = p1) as -> by congruence.
  set (l := <[Z.to_nat fd := 0]> (ofile p)).
  assert (fd_inv (plus none f 1) (upd_proc s (cur s) (with_ofile l p))) as H0.
  { pose proof (Forall_lookup_1 _ _ _ _ (fi_len _ _ H) Hpi) as Hlen. pose proof (Forall_lookup_1 _ _ _ _ (fi_dead _ _ H) Hpi) as Hdead.
    eapply fd_inv_ext; [|apply (fd_inv_ofile none s (cur s) p l H Hp)].
    - intros g Hg. unfold l. cbn beta. rewrite (cnt_insert g _ _ f 0 Hk). unfold plus, none, hit. repeat case_if; lia.
    - unfold l. by rewrite length_insert.
    - intros Hd. apply Forall_insert; [by apply Hdead | done].
    - intros g Hg Hn. unfold l. rewrite (cnt_insert g _ _ f 0 Hk). destruct (fi_none _ _ H g Hg Hn) as [Hr _].
      pose proof (refs_lookup g _ _ _ Hpi). pose proof (cnt_bound g (ofile p)). unfold hit. repeat case_if; try lia. congruence. }
  apply (fd_inv_drop _ _ f v) in H0; [|done|rewrite plus_at; unfold none; lia].
  apply (HQ _ (with_ofile l p1)); try done.
  - rewrite Eo. fold l. eapply fd_inv_ext; [|eapply fd_inv_idle; [|exact H0]].
    + intros g _. unfold plus, none. case_if; lia.
    + rewrite C1. constructor; cbn; [done | done|]. apply Forall2_insert; [done|]. split; [done|].
      intros Hd. destruct (Ed Hd) as [|Hn]; [by left|]. right. by apply Forall_insert.
  - cbn. rewrite Eo. fold l. rewrite C1 in Hp1 |- *. apply (pat_upd s1 (cur s) p1); [done | by left].
Qed.

Lemma close_files_fd s p0 : fd_ok s -> pat s (cur s) p0 ->
  pwp close_files s (fun _ s' => fd_ok s' /\ exists p, pat s' (cur s') p /\ no_files p).
Proof.
  intros H Hp0. unfold close_files.
  apply (pwp_for_range (fun k s' => fd_ok s' /\ exists p, pat s' (cur s') p /\ forall j, 0 <= j < k -> ofile p !! Z.to_nat j = Some 0)).
  - done.
  - split; [done|]. exists p0. split; [done | lia].
  - intros fd s1 Hfd (H1 & p & Hp & Hz). unfold myproc. pwp_step. pwp_step. pwp_step. apply get_proc_pwp. intros p' Hp'.
    assert (p' = p) as -> by (by eapply pat_fun). pwp_step. apply pwp_from_option. intros f [_ Hf]%aget_lookup.
    apply pwp_when; intros Ef; bool_prop.
    + apply (close_one s1 fd _ p f); [done | done | done | done |]. intros s2 p2 H2 C2 Hp2 E2. split; [done|]. exists p2. split; [done|].
      intros j Hj. rewrite E2. destruct (decide (j = fd)) as [->|]; [apply list_lookup_insert_eq; by apply lookup_lt_Some in Hf|].
      rewrite list_lookup_insert_ne by lia. apply Hz. lia.
    + subst f. split; [done|]. exists p. split; [done|]. intros j Hj. destruct (decide (j = fd)) as [->|]; [done | apply Hz; lia].
  - intros s1 (H1 & p & Hp & Hz). split; [done|]. exists p. split; [done|].
    pose proof Hp as [_ Hpi]%aget_lookup. pose proof (Forall_lookup_1 _ _ _ _ (fi_len _ _ H1) Hpi) as Hlen. cbn beta in Hlen.
    apply Forall_lookup. intros j g Hj. pose proof (lookup_lt_Some _ _ _ Hj). specialize (Hz (Z.of_nat j)). rewrite Nat2Z.id in Hz.
    rewrite Hz in Hj by (unfold NOFILE in *; lia). congruence.
Qed.

Lemma idle_reparent i : keeps idle (@reparent A i).
Proof. unfold reparent. keeps. apply idle_mod_proc. intros p. by split; [|left]. Qed.

(** One part of an operation that is idle, after others that were. *)
Lemma idle_then {B C} (m : K B) (k : B -> K C) s s1 (Q : C -> kst A -> Prop) :
  keeps idle m -> idle s s1 -> (forall b s2, idle s s2 -> pwp (k b) s2 Q) -> pwp (bind m k) s1 Q.
Proof. intros Hm I1 Hk. pwp_step. eapply pwp_mono; [apply Hm|]. intros b s2 I2. apply Hk. etransitivity; [exact I1 | exact I2]. Qed.

Lemma exit_fd s st : fd_ok s -> on_cpu s -> pwp (exit st) s (fun _ s' => fd_ok s').
Proof.
  intros H (p0 & Hp0 & _). unfold exit. pwp_step. pwp_step. pwp_step. pwp_step. case_if; [pwp_step|].
  pwp_step. eapply pwp_mono; [by apply (close_files_fd s p0)|]. intros [] s1 (H1 & p & Hp & Hn).
  assert (idle s1 s1) as I1 by done.
  apply (idle_then _ _ s1 s1); [keeps | done | intros [] s2 I2]. apply (idle_then _ _ s1 s2); [keeps | done | intros q s3 I3].
  apply (idle_then _ _ s1 s3); [keeps | done | intros [] s4 I4]. apply (idle_then _ _ s1 s4); [keeps | done | intros [] s5 I5].
  apply (idle_then _ _ s1 s5); [apply idle_mod_myproc; intros r; by split; [|left] | done | intros [] s6 I6].
  apply (idle_then _ _ s1 s6); [apply idle_reparent | done | intros [] s7 I7]. apply (idle_then _ _ s1 s7); [keeps | done | intros r s8 I8].
  apply (idle_then _ _ s1 s8); [keeps | done | intros [] s9 I9].
  unfold mod_myproc. pwp_step. pwp_step. apply mod_proc_pwp. intros p9 Hp9. rewrite (id_cur _ _ I9) in Hp9 |- *.
  destruct (idle_pat_r _ _ _ _ I9 Hp9) as (p1 & Hp1 & [Eo _]). assert (p1 = p) as -> by (by eapply pat_fun).
  apply (fd_inv_idle _ s1); [|done]. etransitivity; [exact I9|]. eapply idle_upd; [exact Hp9|]. split; [done|].
  intros _. right. unfold no_files. by rewrite Eo.
Qed.

Lemma find_child_zombie me t i kids k b : find_child me t i kids = (Some k, b) ->
  i <= k < i + Z.of_nat (length t) /\ exists p, t !! Z.to_nat (k - i) = Some p /\ state p = ZOMBIE.
Proof.
  revert i kids. induction t as [|p t IH]; intros i kids; cbn [find_child]; [done|].
  assert (forall kids', find_child me t (i + 1) kids' = (Some k, b) -> i <= k < i + Z.of_nat (length (p :: t))
    /\ exists p', (p :: t) !! Z.to_nat (k - i) = Some p' /\ state p' = ZOMBIE) as Hrest.
  { intros kids' E. destruct (IH _ _ E) as [Hk (q & Hq & Ez)]. cbn [length]. split; [lia|]. exists q.
    by replace (Z.to_nat (k - i)) with (S (Z.to_nat (k - (i + 1)))) by lia. }
  case_bool_decide; [case_bool_decide as Ez|]; [|by apply Hrest..]. intros [= <- <-]. cbn [length]. split; [lia|]. exists p.
  by replace (Z.to_nat (i - i)) with 0%nat by lia.
Qed.

Lemma wait_fd s addr : fd_ok s -> pwp (wait addr) s (fun _ s' => fd_ok s').
Proof.
  intros H. unfold wait. pwp_step. pwp_step. pwp_step. pwp_step. pwp_step. eapply pwp_mono; [apply idle_myproc|]. intros p s1 I1.
  destruct (find_child (cur s) (procs s) 0 false) as [[i|] kids] eqn:E; [|apply idle_fd; [keeps | exact (fd_inv_idle _ s s1 I1 H)]].
  apply find_child_zombie in E as [Hi (q & Hq & Ez)]. rewrite Z.sub_0_r in Hq.
  assert (no_files q) as Nq by (apply (Forall_lookup_1 _ _ _ _ (fi_dead _ _ H) Hq); by right).
  apply (idle_then _ _ s s1); [keeps | done | intros pp s2 I2].
  apply (idle_then _ _ s s2); [keeps | done | intros r s3 I3]. case_if; [pwp_step; exact (fd_inv_idle _ s s3 I3 H)|].
  assert (pat s i q) as Hqs by (apply aget_lookup; split; [lia | done]).
  destruct (idle_pat _ _ _ _ I3 Hqs) as (q3 & Hq3 & [Eo _]).
  pwp_step. eapply pwp_mono; [apply (freeproc_fd i s3 q3); [done | unfold no_files; by rewrite Eo]|]. intros [] s4 I4. pwp_step.
  apply (fd_inv_idle _ s); [etransitivity; [exact I3 | exact I4] | done].
Qed.

(** ** Reading, writing and the other calls *)

(** The devices leave files and processes alone, apart from sleeping. *)
Context (dev_idle : forall mj op, devread mj = Some op \/ devwrite mj = Some op -> forall a n, keeps idle (op a n)).

Lemma idle_user_readi ip d o n : keeps idle (@user_readi A PA ip d o n).
Proof. unfold user_readi. keeps. Qed.
Lemma idle_user_writei ip d o n : keeps idle (@user_writei A PA ip d o n).
Proof. unfold user_writei. keeps. Qed.
Lemma idle_kpiperead pi a n : keeps idle (@kpiperead A PA pi a n).
Proof. unfold kpiperead, get_pipe, put_pipe. keeps. Qed.
Lemma idle_kpipewrite pi a n i : keeps idle (@kpipewrite A PA pi a n i).
Proof. unfold kpipewrite, get_pipe, put_pipe. keeps. Qed.
#[local] Hint Resolve idle_user_readi idle_user_writei idle_kpiperead idle_kpipewrite : keeps.

Lemma dev_fd t v s a n : (forall mj op, t mj = Some op -> forall a n, keeps idle (op a n)) -> fd_ok s ->
  pwp (match device t v with None => ret (Done (-1)) | Some op => r <- op a n ;; ret (Done r) end) s (fun _ s' => fd_ok s').
Proof.
  intros Hd H. destruct (device t v) as [op|] eqn:E; [|by pwp_step]. apply idle_fd; [|done]. keeps.
  unfold device in E. case_if_in E; [done|]. by eapply Hd.
Qed.

Lemma fileread_fd s f a n : fd_ok s -> pwp (fileread devread f a n) s (fun _ s' => fd_ok s').
Proof.
  intros H. unfold fileread, get_file. pwp_step. pwp_step. pwp_step. apply pwp_from_option. intros v Hv.
  case_if; [by pwp_step|]. destruct (ftype v); [pwp_step | apply idle_fd; [keeps | done] | | ].
  - apply (idle_then _ _ s s); [keeps | done | intros [] s1 I1]. apply (idle_then _ _ s s1); [keeps | done | intros r s2 I2].
    assert (fd_ok s2) as H2 by exact (fd_inv_idle _ s s2 I2 H).
    pwp_step. apply pwp_when; intros _; [|apply idle_fd; [keeps | done]].
    eapply put_file_fd; [exact H2 | rewrite (id_files _ _ I2); exact Hv | done|]. intros s3 H3 _ _ _. apply idle_fd; [keeps | done].
  - apply dev_fd; [|done]. intros mj op Eop. apply (dev_idle mj). by left.
Qed.

Lemma filewrite_fd s f a n : fd_ok s -> pwp (filewrite devwrite f a n) s (fun _ s' => fd_ok s').
Proof.
  intros H. unfold filewrite. unfold get_file at 1. pwp_step. pwp_step. pwp_step. apply pwp_from_option. intros v Hv.
  case_if; [by pwp_step|]. destruct (ftype v); [pwp_step | apply idle_fd; [keeps | done] | | ].
  - pwp_step. eapply pwp_mono; [|intros r s' H'; pwp_step; exact H'].
    apply (pwp_loop (fun _ s' => fd_ok s')); [exact H|]. intros i s0 H0.
    eapply (pwp_mono _ _ (fun _ s' => fd_ok s')); [|by intros [] s']. case_if; [|by pwp_step]. cbv zeta.
    apply (idle_then _ _ s0 s0); [keeps | done | intros [] s1 I1]. apply (idle_then _ _ s0 s1); [keeps | done | intros [] s2 I2].
    unfold get_file. pwp_step. pwp_step. pwp_step. apply pwp_from_option. intros w Hw.
    apply (idle_then _ _ s0 s2); [keeps | done | intros r s3 I3].
    assert (fd_ok s3) as H3 by exact (fd_inv_idle _ s0 s3 I3 H0).
    pwp_step. apply pwp_when; intros _; [|apply idle_fd; [keeps | done]].
    eapply put_file_fd; [exact H3 | rewrite (id_files _ _ I3), <- (id_files _ _ I2); exact Hw | done|]. intros s4 H4 _ _ _.
    apply idle_fd; [keeps | done].
  - apply dev_fd; [|done]. intros mj op Eop. apply (dev_idle mj). by right.
Qed.

Lemma idle_reading {B} (m : K B) : keeps reading m -> keeps idle m.
Proof. intros H. by apply untouched_keeps_idle, reading_untouched. Qed.

Lemma idle_arg n : keeps idle (@argraw A n) /\ keeps idle (@argint A n) /\ keeps idle (@argaddr A n) /\ forall b, keeps idle (@argpath A PA n b).
Proof. split_and!; try intros b; apply idle_reading; auto with keeps. Qed.
Lemma idle_argint n : keeps idle (@argint A n).
Proof. apply idle_arg. Qed.
Lemma idle_argaddr n : keeps idle (@argaddr A n).
Proof. apply idle_arg. Qed.
Lemma idle_argpath n b : keeps idle (@argpath A PA n b).
Proof. apply idle_arg. Qed.
Lemma idle_knamex {B} (f : Z -> list Z -> M fsst B) path : keeps idle (@knamex A B f path).
Proof. apply idle_reading, reading_knamex. Qed.
Lemma idle_create path ty mj mn : keeps idle (@create A path ty mj mn).
Proof. apply idle_reading, reading_create. Qed.
Lemma idle_argfd n : keeps idle (@argfd A n).
Proof. apply idle_reading. unfold argfd, myproc, get_proc. keeps. Qed.
Lemma idle_filestat f a : keeps idle (@filestat A PA f a).
Proof. unfold filestat, get_file. keeps. Qed.
Lemma idle_kill pd : keeps idle (@kill A pd).
Proof.
  unfold kill. keeps. apply idle_mod_proc. intros p. cbn. case_bool_decide as E; split; try done; [|by left].
  by intros [|].
Qed.
#[local] Hint Resolve idle_argint idle_argaddr idle_argpath idle_knamex idle_create idle_argfd idle_filestat idle_kill : keeps.

Lemma idle_set_cwd d : keeps idle (@mod_myproc A (with_cwd d)).
Proof. apply idle_mod_myproc. intros p. by split; [|left]. Qed.
Lemma idle_set_sz n : keeps idle (@mod_myproc A (with_sz n)).
Proof. apply idle_mod_myproc. intros p. by split; [|left]. Qed.
Lemma idle_set_name n : keeps idle (@mod_myproc A (with_name n)).
Proof. apply idle_mod_myproc. intros p. by split; [|left]. Qed.
Lemma idle_set_pagetable n : keeps idle (@mod_myproc A (with_pagetable n)).
Proof. apply idle_mod_myproc. intros p. by split; [|left]. Qed.
#[local] Hint Resolve idle_set_cwd idle_set_sz idle_set_name idle_set_pagetable : keeps.

(** *** exec *)

Lemma untouched_kstrlen b : keeps untouched (@kstrlen A b).
Proof. unfold kstrlen. keeps. Qed.
Lemma untouched_pa_readi ip pa o n : keeps untouched (@pa_readi A ip pa o n).
Proof. unfold pa_readi. keeps. Qed.
#[local] Hint Resolve untouched_kstrlen untouched_pa_readi : keeps.
Lemma untouched_loadseg pt va ip o n : keeps untouched (@loadseg A PA pt va ip o n).
Proof. unfold loadseg. keeps. Qed.
#[local] Hint Resolve untouched_loadseg : keeps.
Lemma untouched_load_program pt ip n o : keeps untouched (@load_program A PA pt ip n o).
Proof. unfold load_program. keeps. Qed.
Lemma untouched_push_args pt b argv sp : keeps untouched (@push_args A PA pt b argv sp).
Proof. unfold push_args. keeps. Qed.
Lemma untouched_kend_op : keeps untouched (@kend_op A).
Proof. apply reading_untouched, reading_kend_op. Qed.
#[local] Hint Resolve untouched_kend_op : keeps.
Lemma untouched_exec_bad pt n ip : keeps untouched (@exec_bad A PA pt n ip).
Proof. unfold exec_bad. keeps. Qed.

Lemma idle_exec_commit path argv en pt n : keeps idle (@exec_commit A PA path argv en pt n).
Proof.
  pose proof (fun pt b argv sp => untouched_keeps_idle _ (untouched_push_args pt b argv sp)) as Hp.
  pose proof (fun pt n ip => untouched_keeps_idle _ (untouched_exec_bad pt n ip)) as Hb.
  unfold exec_commit, set_tf. keeps; try apply Hp; apply Hb.
Qed.

Lemma idle_exec path argv : keeps idle (@exec A PA trampoline path argv).
Proof.
  pose proof (fun pt ip n o => untouched_keeps_idle _ (untouched_load_program pt ip n o)) as Hl.
  pose proof (fun pt n ip => untouched_keeps_idle _ (untouched_exec_bad pt n ip)) as Hb.
  unfold exec, knamei. keeps; try apply Hl; try apply Hb. apply idle_exec_commit.
Qed.
#[local] Hint Resolve idle_exec : keeps.

Lemma idle_fetch_args a : keeps idle (@fetch_args A PA a).
Proof. unfold fetch_args, fetchaddr, fetchstr, kstrlen. keeps. Qed.
Lemma idle_free_args l : keeps idle (@free_args A PA l).
Proof. unfold free_args. induction l as [|pg l IH]; cbn [foldr]; keeps; done. Qed.
#[local] Hint Resolve idle_fetch_args idle_free_args : keeps.

(** ** The table of system calls *)

Lemma val_fd (m : K Z) h s : (val m = Some h) -> pwp m s (fun _ s' => fd_ok s') -> pwp h s (fun _ s' => fd_ok s').
Proof. intros [= <-] Hm. pwp_step. eapply pwp_mono; [exact Hm|]. intros r s' H. by pwp_step. Qed.
Lemma fin_val_fd (m : K fin) h s : (fin_val m = Some h) -> pwp m s (fun _ s' => fd_ok s') -> pwp h s (fun _ s' => fd_ok s').
Proof. intros [= <-] Hm. pwp_step. eapply pwp_mono; [exact Hm|]. intros r s' H. by pwp_step. Qed.

(** Calls that start by reading an argument. *)
Lemma arg_fd {B} (m : K B) (k : B -> K fin) s : keeps reading m -> fd_ok s ->
  (forall b s', reading s s' -> fd_ok s' -> pwp (k b) s' (fun _ s' => fd_ok s')) -> pwp (bind m k) s (fun _ s' => fd_ok s').
Proof.
  intros Hm H Hk. pwp_step. eapply pwp_mono; [apply Hm|]. intros b s1 R1. apply Hk; [done|]. exact (fd_inv_reading _ s s1 R1 H).
Qed.

Lemma sys_read_fd s : fd_ok s -> pwp (sys_read devread) s (fun _ s' => fd_ok s').
Proof.
  intros H. unfold sys_read, argaddr. apply arg_fd; [apply reading_argraw | done | intros a s1 _ H1].
  apply arg_fd; [apply reading_argint | done | intros n s2 _ H2]. pwp_step. apply argfd_pwp.
  - intros s3 R3. pwp_step. exact (fd_inv_reading _ s2 s3 R3 H2).
  - intros s3 fd f p R3 _ _ _ _. apply fileread_fd. exact (fd_inv_reading _ s2 s3 R3 H2).
Qed.

Lemma sys_write_fd s : fd_ok s -> pwp (sys_write devwrite) s (fun _ s' => fd_ok s').
Proof.
  intros H. unfold sys_write, argaddr. apply arg_fd; [apply reading_argraw | done | intros a s1 _ H1].
  apply arg_fd; [apply reading_argint | done | intros n s2 _ H2]. pwp_step. apply argfd_pwp.
  - intros s3 R3. pwp_step. exact (fd_inv_reading _ s2 s3 R3 H2).
  - intros s3 fd f p R3 _ _ _ _. apply filewrite_fd. exact (fd_inv_reading _ s2 s3 R3 H2).
Qed.

Lemma idle_sys_kill : keeps idle (@sys_kill A).
Proof. unfold sys_kill. keeps. Qed.
Lemma idle_sys_exec : keeps idle (@sys_exec A PA trampoline).
Proof. unfold sys_exec. keeps. Qed.
Lemma idle_sys_fstat : keeps idle (@sys_fstat A PA).
Proof. unfold sys_fstat. keeps. Qed.
Lemma idle_sys_chdir : keeps idle (@sys_chdir A PA).
Proof. unfold sys_chdir, knamei. keeps. Qed.
Lemma idle_sys_getpid : keeps idle (@sys_getpid A).
Proof. unfold sys_getpid. keeps. Qed.
Lemma idle_sys_sbrk : keeps idle (@sys_sbrk A PA).
Proof. unfold sys_sbrk, growproc. keeps. Qed.
Lemma idle_sys_uptime : keeps idle (@sys_uptime A).
Proof. unfold sys_uptime. keeps. Qed.
Lemma idle_sys_mknod : keeps idle (@sys_mknod A PA).
Proof. unfold sys_mknod. keeps. Qed.
Lemma idle_sys_unlink : keeps idle (@sys_unlink A PA).
Proof. unfold sys_unlink, knameiparent. keeps. Qed.
Lemma idle_sys_link : keeps idle (@sys_link A PA).
Proof. unfold sys_link, knamei, knameiparent. keeps. Qed.
Lemma idle_sys_mkdir : keeps idle (@sys_mkdir A PA).
Proof. unfold sys_mkdir. keeps. Qed.
Lemma idle_sys_sleep : keeps idle (@sys_sleep A).
Proof. unfold sys_sleep, sleep_turn. keeps. Qed.

Lemma syscalls_fd n h s : syscalls trampoline forkret devread devwrite n = Some h ->
  fd_ok s -> on_cpu s -> fresh_heap s -> pwp h s (fun _ s' => fd_ok s').
Proof.
  intros E H Hc Hfr. unfold syscalls in E.
  repeat (match type of E with context [match ?x with _ => _ end] => destruct x end; try discriminate);
    first
    [ eapply val_fd; [exact E|]; first
        [ by apply fork_fd | by apply sys_pipe_fd | by apply sys_dup_fd | by apply sys_open_fd | by apply sys_close_fd
        | apply idle_fd; [|exact H]; first
            [ apply idle_sys_kill | apply idle_sys_exec | apply idle_sys_fstat | apply idle_sys_chdir | apply idle_sys_getpid
            | apply idle_sys_sbrk | apply idle_sys_uptime | apply idle_sys_mknod | apply idle_sys_unlink | apply idle_sys_link
            | apply idle_sys_mkdir ] ]
    | eapply fin_val_fd; [exact E|]; first
        [ by apply sys_read_fd | by apply sys_write_fd
        | unfold sys_wait, argaddr; apply arg_fd; [apply reading_argraw | done | intros a s1 _ H1; by apply wait_fd]
        | apply idle_fd; [apply idle_sys_sleep | exact H] ]
    | idtac ].
  injection E as <-. pwp_step. unfold sys_exit. pwp_step. eapply pwp_mono; [apply reading_argint|]. intros n s1 R1.
  eapply pwp_mono; [apply exit_fd|].
  - exact (fd_inv_reading _ s s1 R1 H).
  - destruct R1. by eapply untouched_cpu.
  - intros [] s2 H2. by pwp_step.
Qed.

(** C4: whichever system call the running process makes, and whether it
    returns, sleeps or ends the process: afterwards the count of every open
    file is again the number of descriptors, over all processes, that refer to
    it, every descriptor refers to an open file, and processes that are gone
    have none.  The heap must not hand out the address of an open file, and
    the devices must leave files alone. *)
Theorem descriptors_consistent (s s' : kst A) (r : sysret) (H : fd_ok s) (Hc : on_cpu s) (Hfr : fresh_heap s)
  (E : syscall trampoline forkret devread devwrite s = Ret (r, s')) : fd_ok s'.
Proof.
  revert r s' E. change (pwp (syscall trampoline forkret devread devwrite) s (fun _ s' => fd_ok s')).
  unfold syscall. pwp_step. unfold myproc. pwp_step. pwp_step. apply get_proc_pwp. intros p Hp.
  pwp_step. unfold get_tf. eapply pwp_mono; [apply (reading_onvm (rd64 _)); unfold rd64; keeps|]. intros num s1 R1.
  assert (fd_ok s1) as H1 by exact (fd_inv_reading _ s s1 R1 H). destruct R1 as [U1 A1].
  destruct (syscalls _ _ _ _ (i32 num)) as [h|] eqn:Eh; [|apply idle_fd; [unfold set_tf; keeps | done]].
  pwp_step. eapply pwp_mono; [eapply syscalls_fd; [exact Eh | done | by eapply untouched_cpu | ]|].
  { unfold fresh_heap. by rewrite A1, (un_files _ _ U1). }
  intros r s2 H2. destruct r; (apply idle_fd; [unfold set_tf; keeps | done]).
Qed.

End FdThms.

(** ** A process that duplicates its descriptor *)

Lemma refs_no_files f ps : f <> 0 -> Forall no_files ps -> refs f ps = 0.
Proof. intros Hf H. induction H as [|p ps Hp _ IH]; cbn [refs]; [done|]. by rewrite (cnt_zeros f _ Hf Hp), IH. Qed.

(** One process with a file at descriptor 0; registers a0 = 0 and a7 = 10. *)
Definition dup_proc : proc :=
  with_ofile (64000 :: replicate 15 0) (with_trapframe 4096 (with_pid 1 (with_state RUNNING proc0))).
Definition dup_start : kst bump :=
  mkK (mkVms (store64 (fun _ => 0) (4096 + TF_a7) 10) 8192) small_fs {[64000 := mkFile FD_INODE 1 true false 0 0 0 0]} ∅
    (dup_proc :: replicate 63 proc0) 2 0 0 0.
Definition no_device (_ : Z) : option (Z -> Z -> M (kst bump) Z) := None.
Definition dup_end : kst bump := match syscall 0 0 no_device no_device dup_start with Ret (_, s) => s | _ => dup_start end.

Lemma dup_start_ok : fd_ok dup_start.
Proof.
  assert (Forall no_files (replicate 63 proc0)) as Hz by (apply Forall_replicate; unfold no_files; cbn; repeat constructor).
  constructor.
  - done.
  - constructor; [done|]. by apply Forall_replicate.
  - constructor; [by intros [|]|]. apply Forall_replicate. intros _. unfold no_files. cbn. repeat constructor.
  - done.
  - intros f v. cbn. rewrite lookup_singleton_Some. intros [<- <-]. by split; vm_compute.
  - intros f Hf. cbn. rewrite lookup_singleton_None. intros Hn. split; [|done].
    change (cnt f (64000 :: replicate 15 0) + refs f (replicate 63 proc0) = 0). rewrite refs_no_files by done. cbn [cnt replicate]. unfold hit. rewrite (proj2 (Z.eqb_neq f 64000)) by done. rewrite (proj2 (Z.eqb_neq f 0)) by done. done.
Qed.

Lemma descriptors_consistent_witness : syscall 0 0 no_device no_device dup_start = Ret (Returns 1, dup_end) /\ fd_ok dup_end.
Proof.
  assert (syscall 0 0 no_device no_device dup_start = Ret (Returns 1, dup_end)) as E by (vm_compute; reflexivity).
  split; [exact E|]. apply (descriptors_consistent 0 0 no_device no_device) with (s := dup_start) (r := Returns 1).
  - by intros mj op [|].
  - exact dup_start_ok.
  - exists dup_proc. split; [reflexivity|]. by intros [|].
  - intros f a [= <- <-]. split; [reflexivity|]. by intros g a' [= <- <-].
  - exact E.
Defined.
