(* ===== verification/ExecThms.v ===== *)
(** * exec replaces the program or changes nothing

    What [exec] does to the process table on every path: a call that fails
    leaves every process, file and pipe as it was, one that succeeds changes
    the address space, the size and the name of the calling process. *)

From stdpp Require Import gmap.
From S2P Require Import Prelude KString Buddy Bytes Bio Log Fs Vm VmThms Pipe Kern File Proc ProcThms Syscall Sysfile FdThms.

Section ExecThms.
  Context {A : Type} `{PA : PageAllocator A} `{FH : FileHeap A}.
  Context (trampoline : Z).

Notation K := (M (kst A)).

#[local] Hint Resolve untouched_onvm untouched_onfs untouched_kvm untouched_kstrlen untouched_kend_op : keeps.

(** The first [k] arguments are there, and the next pointer is null. *)
Definition args_end (argv : list Z) (k : Z) : Prop :=
  aget argv k = Some 0 /\ forall i, 0 <= i < k -> exists a, aget argv i = Some a /\ a <> 0.

Lemma push_args_pwp pt base argv sp s (Q : option (Z * list Z) -> kst A -> Prop) :
  (forall s', untouched s s' -> Q None s') ->
  (forall s' sp' ustack, untouched s s' -> args_end argv (Z.of_nat (length ustack)) -> Q (Some (sp', ustack)) s') ->
  pwp (push_args pt base argv sp) s Q.
Proof.
  intros HN HS. unfold push_args.
  apply (pwp_loop (fun '(argc, _, ustack) s' => untouched s s' /\ argc = Z.of_nat (length ustack)
    /\ forall i, 0 <= i < argc -> exists a, aget argv i = Some a /\ a <> 0)); [split_and!; [done | done | lia]|].
  intros [[argc sp1] ustack] s1 (U1 & -> & Hall). pwp_step. apply pwp_from_option. intros arg Harg.
  case_if; [pwp_step; apply HS; [done|]; subst; by split|]. case_if; [pwp_step; by apply HN|].
  pwp_step. eapply pwp_mono; [apply untouched_kstrlen|]. intros n s2 U2. case_if; [pwp_step; apply HN; by transitivity s1|].
  pwp_step. eapply pwp_mono; [apply untouched_kstrlen|]. intros m s3 U3.
  pwp_step. eapply pwp_mono; [apply untouched_onvm|]. intros r s4 U4.
  assert (untouched s s4) as U04 by (transitivity s1; [done|]; transitivity s2; [done|]; by transitivity s3).
  case_if; pwp_step; [by apply HN|]. split; [done|]. split; [rewrite length_app; cbn; lia|].
  intros i Hi. destruct (decide (i = Z.of_nat (length ustack))) as [->|]; [by exists arg | apply Hall; lia].
Qed.

(** What the table is after the switch to a new image. *)
Definition switched (path : list Z) (s s' : kst A) : Prop :=
  exists p pt n, pat s (cur s) p /\ pt <> 0
    /\ untouched (upd_proc s (cur s) (with_sz n (with_pagetable pt (with_name (copy_name (last_elem path path)) p)))) s'.

Definition exec_post (path argv : list Z) (s : kst A) (r : Z) (s' : kst A) : Prop :=
  (r = -1 /\ untouched s s') \/ (0 <= r < MAXARG /\ args_end argv r /\ switched path s s').

Lemma exec_bad_pwp path argv pt n ip s s0 : untouched s0 s -> pwp (exec_bad pt n ip) s (exec_post path argv s0).
Proof.
  intros U0. unfold exec_bad. pwp_step. eapply (pwp_mono _ _ (fun _ s' => untouched s s')).
  { match goal with |- pwp ?m _ _ => assert (keeps untouched m) as Hm; [keeps | apply Hm] end. }
  intros [] s1 U1. pwp_step. eapply (pwp_mono _ _ (fun _ s' => untouched s1 s')).
  { match goal with |- pwp ?m _ _ => assert (keeps untouched m) as Hm; [keeps | apply Hm] end. }
  intros [] s2 U2. pwp_step. left. split; [done|]. transitivity s; [done|]. by transitivity s1.
Qed.

(** The running process is [p] now, everything else is as in [s]. *)
Definition becomes (s s' : kst A) (p : proc) : Prop := is_Some (aget (procs s) (cur s)) /\ untouched (upd_proc s (cur s) p) s'.

Lemma becomes_untouched s s1 s2 p : becomes s s1 p -> untouched s1 s2 -> becomes s s2 p.
Proof. intros [Hs U1] U2. split; [done|]. by transitivity s1. Qed.

Lemma becomes_mod s s1 p f (Q : unit -> kst A -> Prop) :
  becomes s s1 p -> (forall s2, becomes s s2 (f p) -> Q tt s2) -> pwp (mod_myproc f) s1 Q.
Proof.
  intros [[q Hq] U1] HQ. unfold mod_myproc. pwp_step. pwp_step. apply mod_proc_pwp. intros p1 Hp1.
  assert (p1 = p) as ->.
  { eapply (pat_fun s1 (cur s1)); [exact Hp1|]. unfold pat. rewrite (un_procs _ _ U1), (un_cur _ _ U1).
    change (pat (upd_proc s (cur s) p) (cur s) p). apply (pat_upd s (cur s) q); [exact Hq | by left]. }
  apply HQ. split; [by exists q|]. destruct U1. constructor; try done. unfold upd_proc in *. cbn in *.
  rewrite un_procs, un_cur. by rewrite list_insert_insert_eq.
Qed.

Lemma becomes_same s s1 p : untouched s s1 -> pat s1 (cur s1) p -> becomes s s1 p.
Proof.
  intros U Hp. unfold pat in Hp. rewrite (un_procs _ _ U), (un_cur _ _ U) in Hp. split; [by eexists|].
  destruct U. constructor; try done. unfold upd_proc. cbn. rewrite un_procs. symmetry. apply list_insert_id. by apply aget_lookup in Hp as [_ ?].
Qed.

Lemma exec_commit_pwp path argv entry pt n s s0 : untouched s0 s -> pt <> 0 ->
  pwp (exec_commit path argv entry pt n) s (exec_post path argv s0).
Proof.
  intros U0 Hpt. unfold exec_commit, myproc. pwp_step. pwp_step. pwp_step. apply get_proc_pwp. intros p Hp. cbv zeta.
  pwp_step. eapply pwp_mono; [apply untouched_onvm|]. intros n1 s1 U1.
  assert (untouched s0 s1) as U01 by (by transitivity s). case_if; [by apply exec_bad_pwp|].
  pwp_step. eapply pwp_mono; [apply untouched_onvm|]. intros [] s2 U2. assert (untouched s0 s2) as U02 by (by transitivity s1).
  pwp_step. apply push_args_pwp; [intros s3 U3; apply exec_bad_pwp; by transitivity s2|].
  intros s3 sp ustack U3 Hargs. assert (untouched s0 s3) as U03 by (by transitivity s2).
  case_if; [pwp_step|]. case_if; [by apply exec_bad_pwp|]. pwp_step. pwp_step. destruct (copyout_bytes _ _ _ _) as [ok v'].
  pwp_step. eapply pwp_mono; [apply untouched_kvm|]. intros [] s4 U4. assert (untouched s0 s4) as U04 by (by transitivity s3).
  destruct ok; cbn [negb]; [|by apply exec_bad_pwp]. unfold set_tf.
  pwp_step. eapply pwp_mono; [apply untouched_onvm|]. intros [] s5 U5. assert (untouched s0 s5) as U05 by (by transitivity s4).
  assert (pat s5 (cur s5) p) as Hp5.
  { unfold pat in *. rewrite (un_procs _ _ U0), (un_cur _ _ U0) in Hp. by rewrite (un_procs _ _ U05), (un_cur _ _ U05). }
  pose proof (becomes_same s0 s5 p U05 Hp5) as B5.
  pwp_step. eapply becomes_mod; [exact B5|]. intros s6 B6. pwp_step. eapply becomes_mod; [exact B6|]. intros s7 B7.
  pwp_step. eapply becomes_mod; [exact B7|]. intros s8 B8.
  pwp_step. eapply pwp_mono; [apply untouched_onvm|]. intros [] s9 U9. pwp_step. eapply pwp_mono; [apply untouched_onvm|]. intros [] s10 U10.
  pwp_step. eapply pwp_mono; [apply untouched_onvm|]. intros [] s11 U11. pwp_step. right. split; [lia|]. split; [done|].
  exists p, pt, n1. split; [|split; [done|]].
  - unfold pat in *. rewrite (un_procs _ _ U0), (un_cur _ _ U0) in Hp. done.
  - eapply becomes_untouched in U9; [|exact B8]. eapply becomes_untouched in U10; [|exact U9]. eapply becomes_untouched in U11; [|exact U10]. apply U11.
Qed.


End ExecThms.

(** The path does not exist: the small system has an empty root directory. *)
Definition exec_start : kst bump := exit_start.
Definition exec_end : kst bump := match exec 0 [47; 120] [0] exec_start with Ret (_, s) => s | _ => exec_start end.

