(* ===== verification/Grep.v ===== *)
(** * grep (user/grep.c)

    The pattern matcher as the recursive functions of the program, and the
    loop that reads the input into a buffer of 1024 bytes and prints the lines
    that match.  A string is the list of its characters before the terminator;
    the input is what [read] has still to deliver, and how much a single
    [read] delivers is a parameter. *)

From S2P Require Import Prelude.

Definition STAR : Z := 42.
Definition DOT : Z := 46.
Definition DOLLAR : Z := 36.
Definition CARET : Z := 94.
Definition NL : Z := 10.

(** ** The matcher *)

(** [matchstar], with [matchhere re] as an argument. *)
Fixpoint matchstar (here : list Z -> bool) (c : Z) (text : list Z) : bool :=
  here text
  || match text with
     | t :: text' => ((t =? c) || (c =? DOT)) && matchstar here c text'
     | [] => false
     end.

Fixpoint matchhere (re text : list Z) : bool :=
  match re with
  | [] => true
  | c :: re1 =>
      match re1 with
      | s :: re2 =>
          if s =? STAR then matchstar (matchhere re2) c text
          else
            match text with
            | t :: text' => if (c =? DOT) || (c =? t) then matchhere re1 text' else false
            | [] => false
            end
      | [] =>
          if c =? DOLLAR then bool_decide (text = [])
          else
            match text with
            | t :: text' => if (c =? DOT) || (c =? t) then matchhere re1 text' else false
            | [] => false
            end
      end
  end.

(** The loop of [match] over the suffixes of the text. *)
Fixpoint matchany (re text : list Z) : bool :=
  matchhere re text
  || match text with
     | _ :: text' => matchany re text'
     | [] => false
     end.

Definition match_ (re text : list Z) : bool :=
  match re with
  | c :: re' => if c =? CARET then matchhere re' text else matchany re text
  | [] => matchany re text
  end.

(** ** The loop of grep *)

(** [strchr(p, newline)]: the text before the first newline and the text after
    it; a terminator ends the search. *)
Fixpoint strchr_nl (p : list Z) : option (list Z * list Z) :=
  match p with
  | [] => None
  | c :: p' =>
      if c =? 0 then None
      else if c =? NL then Some ([], p')
      else match strchr_nl p' with
           | Some (l, r) => Some (c :: l, r)
           | None => None
           end
  end.

(** The inner loop: what it prints, and the text from [p] on when no newline is
    left. *)
Fixpoint grep_lines (fuel : nat) (pattern p out : list Z) : list Z * list Z :=
  match fuel with
  | O => (out, p)
  | S fuel' =>
      match strchr_nl p with
      | Some (line, p') => grep_lines fuel' pattern p' (if match_ pattern line then out ++ line ++ [NL] else out)
      | None => (out, p)
      end
  end.

(** The size of [buf]. *)
Definition BUF : Z := 1024.

Section Grep.
  (** How many bytes a [read] of at most [n] bytes delivers of the input. *)
  Context (amount : Z -> list Z -> Z).

(** [while ((n = read(fd, buf + m, sizeof(buf) - m - 1)) > 0)]: [kept] is the
    text in the buffer, [inp] the input not yet read. *)
Fixpoint grep (fuel : nat) (pattern kept inp out : list Z) : option (list Z) :=
  match fuel with
  | O => None
  | S fuel' =>
      let m := Z.of_nat (length kept) in
      let n := amount (BUF - m - 1) inp in
      if 0 <? n then
        let buf := kept ++ take (Z.to_nat n) inp in
        let '(out, p) := grep_lines (S (length buf)) pattern buf out in
        grep fuel' pattern p (drop (Z.to_nat n) inp) out
      else Some out
  end.

End Grep.

(** ** What a pattern means

    A pattern is a sequence of characters, each possibly starred, with an
    optional anchor at either end; its language is defined without reference
    to how the matcher searches. *)

Inductive item := One (c : Z) | Many (c : Z).

(** The items of a pattern and whether it ends in an anchor. *)
Fixpoint items (re : list Z) : list item * bool :=
  match re with
  | [] => ([], false)
  | c :: re1 =>
      match re1 with
      | s :: re2 => if s =? STAR then (Many c :: fst (items re2), snd (items re2)) else (One c :: fst (items re1), snd (items re1))
      | [] => if c =? DOLLAR then ([], true) else ([One c], false)
      end
  end.

Definition sym (c x : Z) : Prop := c = DOT \/ x = c.

Fixpoint lang (l : list item) (u : list Z) : Prop :=
  match l with
  | [] => u = []
  | One c :: l' => exists x u', u = x :: u' /\ sym c x /\ lang l' u'
  | Many c :: l' => exists u1 u2, u = u1 ++ u2 /\ Forall (sym c) u1 /\ lang l' u2
  end.

(** A match of [re] at the beginning of the text. *)
Definition here_spec (re text : list Z) : Prop :=
  exists u v, text = u ++ v /\ lang (fst (items re)) u /\ (snd (items re) = true -> v = []).

(** A match of [re] in the text: at its beginning if the pattern starts with an
    anchor, anywhere otherwise. *)
Definition match_spec (re text : list Z) : Prop :=
  match re with
  | c :: re' => if c =? CARET then here_spec re' text else exists w rest, text = w ++ rest /\ here_spec re rest
  | [] => exists w rest, text = w ++ rest /\ here_spec re rest
  end.

Lemma sym_test c x : ((c =? DOT) || (c =? x)) = true <-> sym c x.
Proof. unfold sym. rewrite orb_true_iff, !Z.eqb_eq. naive_solver. Qed.
Lemma sym_test' c x : ((x =? c) || (c =? DOT)) = true <-> sym c x.
Proof. unfold sym. rewrite orb_true_iff, !Z.eqb_eq. naive_solver. Qed.

Lemma matchstar_spec here c (P : list Z -> Prop) text : (forall t, here t = true <-> P t) ->
  matchstar here c text = true <-> exists u rest, text = u ++ rest /\ Forall (sym c) u /\ P rest.
Proof.
  intros Hh. induction text as [|t text IH]; cbn [matchstar].
  - rewrite orb_false_r, Hh. split; [intros HP; by exists [], []|]. intros (u & rest & E & _ & HP).
    symmetry in E. apply app_eq_nil in E as [-> ->]. done.
  - rewrite orb_true_iff, andb_true_iff, Hh, sym_test', IH. split.
    + intros [HP|[Hs (u & rest & -> & Hu & HP)]]; [by exists [], (t :: text)|]. exists (t :: u), rest. split; [done|]. split; [by constructor | done].
    + intros ([|x u] & rest & E & Hu & HP); cbn in E; [left; by rewrite E|]. injection E as -> ->. inversion_clear Hu as [|? ? Hx Hu']. right. split; [done|].
      by exists u, rest.
Qed.

(** The test of one character. *)
Lemma one_here c re1 text (IH : forall text, matchhere re1 text = true <-> here_spec re1 text) :
  (match text with
   | t :: text' => if (c =? DOT) || (c =? t) then matchhere re1 text' else false
   | [] => false
   end) = true
  <-> exists u v, text = u ++ v /\ lang (One c :: fst (items re1)) u /\ (snd (items re1) = true -> v = []).
Proof.
  destruct text as [|t text]; cbn [lang].
  - split; [done|]. intros (u & v & E & (x & u' & -> & _) & _). done.
  - destruct ((c =? DOT) || (c =? t)) eqn:Ec.
    + apply sym_test in Ec. rewrite IH. split.
      * intros (u & v & -> & Hl & Hv). exists (t :: u), v. split; [done|]. split; [by exists t, u | done].
      * intros (u & v & E & (x & u' & -> & _ & Hl) & Hv). injection E as -> ->. by exists u', v.
    + split; [done|]. intros (u & v & E & (x & u' & -> & Hs & _) & _). injection E as -> ->. apply sym_test in Hs. congruence.
Qed.

Lemma matchhere_spec_n n : forall re text, (length re <= n)%nat -> matchhere re text = true <-> here_spec re text.
Proof.
  induction n as [|n IH]; intros [|c re1] text Hn; cbn [length] in Hn; try lia.
  - split; [|done]. intros _. by exists [], text.
  - split; [|done]. intros _. by exists [], text.
  - destruct re1 as [|s re2].
    + cbn [matchhere]. unfold here_spec. cbn [items]. destruct (c =? DOLLAR) eqn:Ed.
      * rewrite bool_decide_eq_true. cbn. split; [intros ->; by exists [], []|]. intros (u & v & -> & -> & Hv). by rewrite Hv.
      * apply (one_here c [] text). intros t. split; [|done]. intros _. by exists [], t.
    + cbn [length] in Hn. change (matchhere (c :: s :: re2) text) with
        (if s =? STAR then matchstar (matchhere re2) c text
         else match text with t :: text' => if (c =? DOT) || (c =? t) then matchhere (s :: re2) text' else false | [] => false end).
      unfold here_spec. change (items (c :: s :: re2)) with
        (if s =? STAR then (Many c :: fst (items re2), snd (items re2)) else (One c :: fst (items (s :: re2)), snd (items (s :: re2)))).
      destruct (s =? STAR).
      * rewrite (matchstar_spec _ c (here_spec re2)) by (intros t; apply IH; lia). cbn [fst snd lang]. split.
        -- intros (u & rest & -> & Hu & (u2 & v & -> & Hl & Hv)). exists (u ++ u2), v. split; [by rewrite app_assoc|]. split; [by exists u, u2 | done].
        -- intros (u & v & -> & (u1 & u2 & -> & Hu & Hl) & Hv). exists u1, (u2 ++ v). split; [by rewrite app_assoc|]. split; [done|]. by exists u2, v.
      * apply one_here. intros t. apply IH. cbn. lia.
Qed.

Lemma matchhere_spec re text : matchhere re text = true <-> here_spec re text.
Proof. by apply (matchhere_spec_n (length re)). Qed.

Lemma matchany_spec re text : matchany re text = true <-> exists w rest, text = w ++ rest /\ here_spec re rest.
Proof.
  induction text as [|t text IH]; cbn [matchany]; rewrite orb_true_iff, matchhere_spec.
  - split; [intros [H|]; [by exists [], [] | done]|]. intros (w & rest & E & H). symmetry in E. apply app_eq_nil in E as [-> ->]. by left.
  - rewrite IH. split.
    + intros [H|(w & rest & -> & H)]; [by exists [], (t :: text) | by exists (t :: w), rest].
    + intros ([|x w] & rest & E & H); cbn in E; [left; by rewrite E|]. injection E as -> ->. right. by exists w, rest.
Qed.

(** C31: the matcher finds a match exactly when some part of the line is in the
    language of the pattern: a sequence of characters, where a dot stands for
    any and a star for any number, at the beginning of the line if the pattern
    starts with ^ and up to its end if it ends in $. *)
Theorem match_equiv (re text : list Z) : match_ re text = true <-> match_spec re text.
Proof.
  unfold match_, match_spec. destruct re as [|c re]; [apply matchany_spec|].
  destruct (c =? CARET); [apply matchhere_spec | apply matchany_spec].
Qed.

(** ** What grep prints *)

(** The lines of a text that end in a newline. *)
Fixpoint lines_from (cur text : list Z) : list (list Z) :=
  match text with
  | [] => []
  | c :: text' => if c =? NL then cur :: lines_from [] text' else lines_from (cur ++ [c]) text'
  end.
Definition lines (text : list Z) : list (list Z) := lines_from [] text.

Definition matching (pattern text : list Z) : list Z :=
  mjoin ((fun l => l ++ [NL]) <$> filter (fun l => match_ pattern l = true) (lines text)).

Lemma lines_from_line cur line rest : NL ∉ line -> lines_from cur (line ++ NL :: rest) = (cur ++ line) :: lines rest.
Proof.
  revert cur. induction line as [|c line IH]; intros cur Hn; cbn [app lines_from].
  - rewrite Z.eqb_refl, app_nil_r. done.
  - rewrite (proj2 (Z.eqb_neq c NL)) by (intros ->; apply Hn; left). rewrite IH by (intros H; apply Hn; by right). by rewrite <- app_assoc.
Qed.

Lemma lines_from_none cur text : NL ∉ text -> lines_from cur text = [].
Proof.
  revert cur. induction text as [|c text IH]; intros cur Hn; cbn [lines_from]; [done|].
  rewrite (proj2 (Z.eqb_neq c NL)) by (intros ->; apply Hn; left). apply IH. intros H. apply Hn. by right.
Qed.

Lemma matching_line pattern line rest : NL ∉ line ->
  matching pattern (line ++ NL :: rest) = (if match_ pattern line then line ++ [NL] else []) ++ matching pattern rest.
Proof.
  intros Hn. unfold matching, lines at 1. rewrite lines_from_line by done. cbn [app]. rewrite filter_cons.
  destruct (match_ pattern line); [by rewrite decide_True by done | by rewrite decide_False by done].
Qed.

Lemma strchr_nl_spec p : 0 ∉ p ->
  match strchr_nl p with
  | Some (line, rest) => p = line ++ NL :: rest /\ NL ∉ line
  | None => NL ∉ p
  end.
Proof.
  induction p as [|c p IH]; intros H0; cbn [strchr_nl]; [apply not_elem_of_nil|].
  rewrite (proj2 (Z.eqb_neq c 0)) by (intros ->; apply H0; left).
  destruct (Z.eqb_spec c NL) as [->|Hc]; [split; [done | apply not_elem_of_nil]|].
  specialize (IH ltac:(intros H; apply H0; by right)). destruct (strchr_nl p) as [[line rest]|].
  - destruct IH as [-> Hn]. split; [done|]. rewrite not_elem_of_cons. split; [congruence | done].
  - rewrite not_elem_of_cons. split; [congruence | done].
Qed.

Lemma grep_lines_spec pattern fuel : forall p out, 0 ∉ p -> (length p < fuel)%nat ->
  exists e rest done, grep_lines fuel pattern p out = (out ++ e, rest) /\ p = done ++ rest /\ NL ∉ rest
    /\ forall tail, matching pattern (p ++ tail) = e ++ matching pattern (rest ++ tail)
         /\ exists pre, lines (p ++ tail) = pre ++ lines (rest ++ tail).
Proof.
  induction fuel as [|fuel IH]; intros p out H0 Hf; [lia|]. cbn [grep_lines]. pose proof (strchr_nl_spec p H0) as Hs.
  destruct (strchr_nl p) as [[line rest]|].
  - destruct Hs as [-> Hn]. rewrite length_app in Hf. cbn [length] in Hf.
    destruct (IH rest (if match_ pattern line then out ++ line ++ [NL] else out)) as (e & rest' & dn & E & Er & Hr & Hm); [set_solver | lia |].
    exists ((if match_ pattern line then line ++ [NL] else []) ++ e), rest', (line ++ NL :: dn). split_and!.
    + rewrite E. destruct (match_ pattern line); f_equal; by rewrite <- ?app_assoc.
    + by rewrite Er, <- app_assoc.
    + done.
    + intros tail. destruct (Hm tail) as [H1 (pre & H2)]. rewrite <- !app_assoc. cbn [app]. split.
      * rewrite matching_line by done. by rewrite H1.
      * exists (line :: pre). unfold lines at 1. rewrite lines_from_line by done. cbn [app]. by rewrite H2.
  - exists [], p, []. rewrite app_nil_r. split_and!; try done. intros tail. split; [done|]. by exists [].
Qed.

Section GrepThms.
  (** [read] delivers between one byte and as many as asked for, and nothing at
      the end of the input or when nothing is asked for. *)
  Context (amount : Z -> list Z -> Z).
  Context (amount_some : forall n inp, 0 < n -> inp <> [] -> 0 < amount n inp <= Z.min n (Z.of_nat (length inp))).
  Context (amount_none : forall n inp, n <= 0 \/ inp = [] -> amount n inp <= 0).

Lemma first_line_long cur text line : NL ∉ cur -> lines_from cur text = line :: tail (lines_from cur text) -> exists r, line = cur ++ r.
Proof.
  revert cur. induction text as [|c text IH]; intros cur Hn; cbn [lines_from]; [done|].
  destruct (Z.eqb_spec c NL) as [->|Hc]; [intros [= ->]; exists []; by rewrite app_nil_r|].
  intros E. destruct (IH (cur ++ [c])) as [r ->]; [set_solver | done|]. exists ([c] ++ r). by rewrite app_assoc.
Qed.

Lemma lines_from_app cur kept text : NL ∉ kept -> lines_from cur (kept ++ text) = lines_from (cur ++ kept) text.
Proof.
  revert cur. induction kept as [|c kept IH]; intros cur Hn; cbn [app lines_from]; [by rewrite app_nil_r|].
  rewrite (proj2 (Z.eqb_neq c NL)) by (intros ->; apply Hn; left). rewrite IH by (intros H; apply Hn; by right). by rewrite <- app_assoc.
Qed.

(** A full buffer without a newline means that no line that fits is left. *)
Lemma full_buffer pattern kept inp : NL ∉ kept -> BUF - 1 <= Z.of_nat (length kept) ->
  Forall (fun l => Z.of_nat (length l) + 1 < BUF) (lines (kept ++ inp)) -> matching pattern (kept ++ inp) = [].
Proof.
  intros Hn Hlen Hall. unfold matching. unfold lines in *. rewrite lines_from_app in * by done. cbn [app] in *.
  destruct (lines_from kept inp) as [|line ls] eqn:E; [done|]. exfalso.
  destruct (first_line_long kept inp line Hn) as [r ->]; [by rewrite E|]. inversion_clear Hall as [|? ? Hl _]. rewrite length_app in Hl. lia.
Qed.

Lemma grep_spec pattern fuel : forall kept inp out, 0 ∉ kept ++ inp -> NL ∉ kept -> Z.of_nat (length kept) < BUF ->
  Forall (fun l => Z.of_nat (length l) + 1 < BUF) (lines (kept ++ inp)) -> (length inp < fuel)%nat ->
  grep amount fuel pattern kept inp out = Some (out ++ matching pattern (kept ++ inp)).
Proof.
  induction fuel as [|fuel IH]; intros kept inp out H0 Hn Hk Hall Hf; [lia|]. cbn [grep].
  destruct (decide (inp = [])) as [->|Hi].
  { pose proof (amount_none (BUF - Z.of_nat (length kept) - 1) [] ltac:(by right)). rewrite (proj2 (Z.ltb_ge _ _)) by done.
    unfold matching. rewrite app_nil_r. unfold lines. rewrite lines_from_none by done. cbn. by rewrite app_nil_r. }
  destruct (Z.le_gt_cases (BUF - Z.of_nat (length kept) - 1) 0) as [Hfull|Hroom].
  { pose proof (amount_none _ inp (or_introl Hfull)). rewrite (proj2 (Z.ltb_ge _ _)) by done.
    rewrite full_buffer by (done || lia). by rewrite app_nil_r. }
  destruct (amount_some _ inp Hroom Hi) as [Hpos Hle]. set (n := amount _ inp) in *. rewrite (proj2 (Z.ltb_lt _ _)) by done.
  set (buf := kept ++ take (Z.to_nat n) inp).
  assert (kept ++ inp = buf ++ drop (Z.to_nat n) inp) as Eb by (unfold buf; by rewrite <- app_assoc, take_drop).
  assert (length buf = (length kept + Z.to_nat n)%nat) as Elen by (unfold buf; rewrite length_app, length_take; lia).
  destruct (grep_lines_spec pattern (S (length buf)) buf out) as (e & rest & dn & -> & Er & Hr & Hm); [rewrite Eb in H0; set_solver | lia |].
  destruct (Hm (drop (Z.to_nat n) inp)) as [H1 (pre & H2)]. rewrite Eb in Hall |- *. rewrite H1, app_assoc. apply IH.
  - rewrite Eb, Er in H0. set_solver.
  - done.
  - rewrite Er, length_app in Elen. lia.
  - rewrite H2 in Hall. by apply Forall_app in Hall as [_ ?].
  - rewrite length_drop. lia.
Qed.

(** [grep] ends, and prints exactly the lines of the input that match the
    pattern, in order, however [read] splits the input into pieces.  Lines must
    be shorter than the buffer, and a last line without a newline is not
    looked at. *)
Theorem grep_correct (pattern inp : list Z) (H0 : 0 ∉ inp)
  (Hlines : Forall (fun l => Z.of_nat (length l) + 1 < BUF) (lines inp)) :
  grep amount (S (length inp)) pattern [] inp [] = Some (matching pattern inp).
Proof. apply (grep_spec pattern (S (length inp)) [] inp []); [done | apply not_elem_of_nil | done | done | lia]. Qed.

End GrepThms.

(** A [read] that delivers at most three bytes at a time. *)
Definition trickle (n : Z) (inp : list Z) : Z := Z.min 3 (Z.min n (Z.of_nat (length inp))).

(** "ab", "b", "cab" and an unfinished "ab"; the pattern is "^a". *)
Definition grep_input : list Z := [97; 98; 10; 98; 10; 97; 97; 98; 10; 97; 98].

Lemma grep_correct_witness : grep trickle 12 [94; 97] [] grep_input [] = Some [97; 98; 10; 97; 97; 98; 10].
Proof.
  rewrite (grep_correct trickle) with (inp := grep_input).
  - vm_compute. reflexivity.
  - intros n inp Hn Hi. assert (0 < length inp)%nat by (destruct inp; [done | cbn; lia]). unfold trickle. lia.
  - intros n inp [Hn| ->]; unfold trickle; cbn [length]; lia.
  - set_solver.
  - vm_compute. repeat constructor.
Defined.
