(* ===== verification/Sh.v ===== *)
(** * The parser of the shell (user/sh.c)

    The recursive-descent parser on the characters that are left; a position
    [s] in the buffer is the text from there to the end.  A word of a command
    is what the parser makes of the positions [q] and [eq]; the shell keeps
    the two pointers and puts terminators into the buffer afterwards
    ([nulterminate]).  A syntax error ends the process ([panic]); running out
    of memory is not modelled. *)

From S2P Require Import Prelude.

Definition MAXARGS : Z := 10.

(** The commands; [W] is the type of words. *)
Inductive cmd (W : Type) : Type :=
| Exec (argv : list W)
| Redir (c : cmd W) (file : W) (mode fd : Z)
| Pipe (left right : cmd W)
| List (left right : cmd W)
| Back (c : cmd W).
Arguments Exec {W}. Arguments Redir {W}. Arguments Pipe {W}. Arguments List {W}. Arguments Back {W}.

Definition whitespace : list Z := [32; 9; 13; 10; 11].
Definition symbols : list Z := [60; 124; 62; 38; 59; 40; 41].

Definition O_RDONLY : Z := 0.
Definition O_WRONLY : Z := 1.
Definition O_CREATE : Z := 0x200.
Definition O_TRUNC : Z := 0x400.

(** [strchr(l, c)] of a character that is not the terminator. *)
Definition isin (c : Z) (l : list Z) : bool := existsb (Z.eqb c) l.

(** [while (s < es && strchr(whitespace, *s)) s++;] *)
Fixpoint skip_ws (s : list Z) : list Z :=
  match s with
  | c :: s' => if isin c whitespace then skip_ws s' else s
  | [] => []
  end.

(** [while (s < es && !strchr(whitespace, *s) && !strchr(symbols, *s)) s++;] *)
Fixpoint skip_word (s : list Z) : list Z :=
  match s with
  | c :: s' => if negb (isin c whitespace) && negb (isin c symbols) then skip_word s' else s
  | [] => []
  end.

(** The monad of the parser: the state is the text that is left. *)
Definition P (A : Type) : Type := M (list Z) A.

Definition peek (toks : list Z) : P bool :=
  modify skip_ws ;;;
  gets (fun s => match s with c :: _ => isin c toks | [] => false end).

(** The token, and the positions where it starts and ends. *)
Definition gettoken : P (Z * list Z * list Z) :=
  modify skip_ws ;;;
  q <- get ;;
  let '(tok, eq) :=
    match q with
    | [] => (0, q)
    | c :: s =>
        if isin c [124; 40; 41; 59; 38; 60] then (c, s)
        else if c =? 62 then
          match s with
          | d :: s' => if d =? 62 then (43, s') else (62, s)
          | [] => (62, s)
          end
        else (97, skip_word q)
    end in
  put (skip_ws eq) ;;;
  ret (tok, q, eq).

Section Parser.
  Context {W : Type} (mk : list Z -> list Z -> W).

(** A redirection: the file, the mode and the descriptor. *)
Definition redir : Type := W * Z * Z.

Definition wrap (c : cmd W) (rs : list redir) : cmd W := foldl (fun c '(f, m, d) => Redir c f m d) c rs.

(** The redirections that follow, after those in [rs]. *)
Fixpoint parseredirs (fuel : nat) (rs : list redir) : P (list redir) :=
  match fuel with
  | O => diverge
  | S fuel' =>
      b <- peek [60; 62] ;;
      if (b : bool) then
        t <- gettoken ;;
        let tok := fst (fst t) in
        t <- gettoken ;;
        let '(tok2, q, eq) := t in
        if negb (tok2 =? 97) then panic "missing file for redirection"
        else
          let rs :=
            if tok =? 60 then rs ++ [(mk q eq, O_RDONLY, 0)]
            else if tok =? 62 then rs ++ [(mk q eq, Z.lor (Z.lor O_WRONLY O_CREATE) O_TRUNC, 1)]
            else if tok =? 43 then rs ++ [(mk q eq, Z.lor O_WRONLY O_CREATE, 1)]
            else rs in
          parseredirs fuel' rs
      else ret rs
  end.

(** The words and redirections of a simple command. *)
Fixpoint parseargs (fuel : nat) (argv : list W) (rs : list redir) : P (list W * list redir) :=
  match fuel with
  | O => diverge
  | S fuel' =>
      b <- peek [124; 41; 38; 59] ;;
      if (b : bool) then ret (argv, rs)
      else
        t <- gettoken ;;
        let '(tok, q, eq) := t in
        if tok =? 0 then ret (argv, rs)
        else if negb (tok =? 97) then panic "syntax"
        else
          let argv := argv ++ [mk q eq] in
          if Z.of_nat (length argv) >=? MAXARGS then panic "too many args"
          else
            rs <- parseredirs fuel' rs ;;
            parseargs fuel' argv rs
  end.

(** [while (peek(ps, es, "&"))] of [parseline]. *)
Fixpoint parseback (fuel : nat) (c : cmd W) : P (cmd W) :=
  match fuel with
  | O => diverge
  | S fuel' =>
      b <- peek [38] ;;
      if (b : bool) then gettoken ;;; parseback fuel' (Back c) else ret c
  end.

Fixpoint parseline (fuel : nat) : P (cmd W) :=
  match fuel with
  | O => diverge
  | S fuel' =>
      c <- parsepipe fuel' ;;
      c <- parseback fuel' c ;;
      b <- peek [59] ;;
      if (b : bool) then gettoken ;;; r <- parseline fuel' ;; ret (List c r) else ret c
  end
with parsepipe (fuel : nat) : P (cmd W) :=
  match fuel with
  | O => diverge
  | S fuel' =>
      c <- parseexec fuel' ;;
      b <- peek [124] ;;
      if (b : bool) then gettoken ;;; r <- parsepipe fuel' ;; ret (Pipe c r) else ret c
  end
with parseexec (fuel : nat) : P (cmd W) :=
  match fuel with
  | O => diverge
  | S fuel' =>
      b <- peek [40] ;;
      if (b : bool) then parseblock fuel'
      else
        rs <- parseredirs fuel' [] ;;
        r <- parseargs fuel' [] rs ;;
        ret (wrap (Exec (fst r)) (snd r))
  end
with parseblock (fuel : nat) : P (cmd W) :=
  match fuel with
  | O => diverge
  | S fuel' =>
      b <- peek [40] ;;
      if negb (b : bool) then panic "parseblock"
      else
        gettoken ;;;
        c <- parseline fuel' ;;
        b <- peek [41] ;;
        if negb (b : bool) then panic "syntax - missing )"
        else
          gettoken ;;;
          rs <- parseredirs fuel' [] ;;
          ret (wrap c rs)
  end.

(** Enough fuel for a text. *)
Definition fuel_for (s : list Z) : nat := 4 * length s + 5.

(** [parsecmd] without [nulterminate]. *)
Definition parsecmd : P (cmd W) :=
  s <- get ;;
  c <- parseline (fuel_for s) ;;
  peek [] ;;;
  s <- get ;;
  match s with
  | [] => ret c
  | _ => panic "syntax"
  end.

End Parser.

(** ** Words as positions, and nulterminate *)

(** The offsets of a word in a buffer of [n] characters. *)
Definition span (n : nat) (q eq : list Z) : Z * Z := (Z.of_nat (n - length q), Z.of_nat (n - length eq)).

Definition put0 (buf : list Z) (w : Z * Z) : list Z := <[Z.to_nat (snd w) := 0]> buf.

Fixpoint nulterminate (c : cmd (Z * Z)) (buf : list Z) : list Z :=
  match c with
  | Exec argv => foldl put0 buf argv
  | Redir c f _ _ => put0 (nulterminate c buf) f
  | Pipe l r | List l r => nulterminate r (nulterminate l buf)
  | Back c => nulterminate c buf
  end.

(** The text of a word. *)
Definition word_text (q eq : list Z) : list Z := take (length q - length eq) q.

(** ** The parser always ends *)

(** The computation returns a value that satisfies [Q], or panics. *)
Definition ends {A} (m : P A) (s : list Z) (Q : A -> list Z -> Prop) : Prop :=
  match m s with
  | Ret (a, s') => Q a s'
  | Panic _ => True
  | Fault _ | Diverge => False
  end.

Lemma ends_bind {A B} (m : P A) (k : A -> P B) s Q : ends m s (fun a s' => ends (k a) s' Q) -> ends (bind m k) s Q.
Proof. unfold ends, bind. destruct (m s) as [[a s']| | |]; done. Qed.
Lemma ends_ret {A} (a : A) s (Q : A -> list Z -> Prop) : Q a s -> ends (ret a) s Q.
Proof. done. Qed.
Lemma ends_mono {A} (m : P A) s (Q Q' : A -> list Z -> Prop) : ends m s Q -> (forall a s', Q a s' -> Q' a s') -> ends m s Q'.
Proof. unfold ends. destruct (m s) as [[a s']| | |]; auto. Qed.

Lemma isin_spec c l : isin c l = true <-> c ∈ l.
Proof.
  unfold isin. rewrite existsb_exists. split.
  - intros (x & Hx & E). bool_prop. subst. by apply list_elem_of_In.
  - intros H. exists c. split; [by apply list_elem_of_In | apply Z.eqb_refl].
Qed.

Lemma skip_ws_length s : (length (skip_ws s) <= length s)%nat.
Proof. induction s as [|c s IH]; cbn [skip_ws length]; [done|]. destruct (isin c whitespace); cbn [length]; lia. Qed.
Lemma skip_word_length s : (length (skip_word s) <= length s)%nat.
Proof. induction s as [|c s IH]; cbn [skip_word length]; [done|]. case_if; cbn [length]; lia. Qed.

(** After skipping, the text is empty or starts with something else. *)
Lemma skip_ws_head s c s' : skip_ws s = c :: s' -> isin c whitespace = false.
Proof.
  induction s as [|x s IH]; cbn [skip_ws]; [done|]. destruct (isin x whitespace) eqn:E; [done|]. by intros [= -> ->].
Qed.
Lemma skip_ws_idem s : skip_ws (skip_ws s) = skip_ws s.
Proof.
  induction s as [|c s IH]; cbn [skip_ws]; [done|]. destruct (isin c whitespace) eqn:E; [done|]. cbn [skip_ws]. by rewrite E.
Qed.

Lemma peek_run toks s : peek toks s = Ret (match skip_ws s with c :: _ => isin c toks | [] => false end, skip_ws s).
Proof. done. Qed.

(** What [gettoken] finds at a text that does not start with white space. *)
Definition token_at (q : list Z) : Z * list Z :=
  match q with
  | [] => (0, q)
  | c :: s =>
      if isin c [124; 40; 41; 59; 38; 60] then (c, s)
      else if c =? 62 then match s with d :: s' => if d =? 62 then (43, s') else (62, s) | [] => (62, s) end
      else (97, skip_word q)
  end.

Lemma gettoken_run s :
  gettoken s = Ret ((fst (token_at (skip_ws s)), skip_ws s, snd (token_at (skip_ws s))), skip_ws (snd (token_at (skip_ws s)))).
Proof.
  unfold gettoken, bind, modify, get. fold (token_at (skip_ws s)). destruct (token_at (skip_ws s)) as [tok eq]. done.
Qed.

(** A token other than the end of the text takes at least one character. *)
Lemma token_length s : skip_ws s = [] \/ (length (snd (token_at (skip_ws s))) < length (skip_ws s))%nat.
Proof.
  destruct (skip_ws s) as [|c q] eqn:E; [by left|]. right. cbn [token_at].
  destruct (isin c [124; 40; 41; 59; 38; 60]) eqn:E1; [cbn; lia|]. destruct (c =? 62) eqn:E2.
  - destruct q as [|d q']; [cbn; lia|]. case_if; cbn; lia.
  - cbn [snd skip_word]. rewrite (skip_ws_head _ _ _ E).
    assert (isin c symbols = false) as ->.
    { destruct (isin c symbols) eqn:Es; [|done]. apply isin_spec in Es. bool_prop. exfalso.
      assert (c ∈ [124; 40; 41; 59; 38; 60]) as Hc by (unfold symbols in Es; set_solver). apply isin_spec in Hc. congruence. }
    cbn [negb andb]. pose proof (skip_word_length q). cbn [length]. lia.
Qed.


(** The rest after a token. *)
Lemma gettoken_ends s (Q : Z * list Z * list Z -> list Z -> Prop) :
  (forall t s', (length s' <= length s)%nat -> (skip_ws s = [] \/ (length s' < length (skip_ws s))%nat) ->
     (skip_ws s = [] -> fst (fst t) = 0) -> Q t s') -> ends gettoken s Q.
Proof.
  intros HQ. unfold ends. rewrite gettoken_run. pose proof (token_length s) as Ht. pose proof (skip_ws_length s).
  pose proof (skip_ws_length (snd (token_at (skip_ws s)))). apply HQ.
  - destruct Ht as [E|]; [rewrite E in *; cbn in *; lia | lia].
  - destruct Ht; [by left | right; lia].
  - by intros ->.
Qed.

Lemma peek_ends toks s (Q : bool -> list Z -> Prop) :
  Q (match skip_ws s with c :: _ => isin c toks | [] => false end) (skip_ws s) -> ends (peek toks) s Q.
Proof. unfold ends. by rewrite peek_run. Qed.

Section Ends.
  Context {W : Type} (mk : list Z -> list Z -> W).

(** [peek] for a character that is there, then the token: the text gets
    shorter. *)
Lemma peek_token_ends {B} toks (k1 : Z * list Z * list Z -> P B) (k2 : P B) s (Q : B -> list Z -> Prop) :
  (forall t s', (length s' < length s)%nat -> ends (k1 t) s' Q) ->
  (forall s', (length s' <= length s)%nat -> ends k2 s' Q) ->
  ends (b <- peek toks ;; if (b : bool) then t <- gettoken ;; k1 t else k2) s Q.
Proof.
  intros H1 H2. apply ends_bind, peek_ends. pose proof (skip_ws_length s) as Hl.
  destruct (skip_ws s) as [|c q] eqn:E; [apply H2; cbn in *; lia|]. destruct (isin c toks); [|apply H2; lia].
  apply ends_bind, gettoken_ends. intros t s' _ [E'|Hlt] _; apply H1; rewrite <- E, skip_ws_idem, E in *; [done | lia].
Qed.

Lemma peek_not_token_ends {B} toks (k1 : Z * list Z * list Z -> P B) (k2 : P B) s (Q : B -> list Z -> Prop) :
  (forall t s', (length s' < length s)%nat -> ends (k1 t) s' Q) ->
  (forall s', (length s' <= length s)%nat -> ends k2 s' Q) ->
  ends (b <- peek toks ;; if negb (b : bool) then k2 else t <- gettoken ;; k1 t) s Q.
Proof.
  intros H1 H2. pose proof (peek_token_ends toks k1 k2 s Q H1 H2) as H. revert H. unfold ends, bind. rewrite peek_run.
  destruct (match skip_ws s with c :: _ => isin c toks | [] => false end); done.
Qed.

Lemma parseredirs_ends fuel : forall rs s (Q : list redir -> list Z -> Prop),
  (length s < fuel)%nat -> (forall rs s', (length s' <= length s)%nat -> Q rs s') -> ends (parseredirs mk fuel rs) s Q.
Proof.
  induction fuel as [|fuel IH]; intros rs s Q Hf HQ; [lia|]. cbn [parseredirs]. apply peek_token_ends.
  - intros t s1 H1. apply ends_bind, gettoken_ends. intros [[tok2 q] eq] s2 H2 _ _. case_if; [done|].
    apply IH; [lia|]. intros rs' s3 H3. apply HQ. lia.
  - intros s1 H1. apply ends_ret, HQ. lia.
Qed.

Lemma parseargs_ends fuel : forall argv rs s (Q : list W * list redir -> list Z -> Prop),
  (length s < fuel)%nat -> (forall r s', (length s' <= length s)%nat -> Q r s') -> ends (parseargs mk fuel argv rs) s Q.
Proof.
  induction fuel as [|fuel IH]; intros argv rs s Q Hf HQ; [lia|]. cbn [parseargs].
  apply ends_bind, peek_ends. pose proof (skip_ws_length s) as Hl.
  destruct (match skip_ws s with c :: _ => isin c [124; 41; 38; 59] | [] => false end); [apply ends_ret, HQ; lia|].
  apply ends_bind, gettoken_ends. intros [[tok q] eq] s1 H1 Hlt H0. rewrite skip_ws_idem in *. cbn [fst] in H0.
  case_if; [apply ends_ret, HQ; lia|]. case_if; [done|]. case_if; [done|].
  assert (length s1 < length (skip_ws s))%nat as Hlt' by (destruct Hlt as [Hz|]; [exfalso; by apply H0 in Hz | done]).
  apply ends_bind, parseredirs_ends; [lia|]. intros rs' s2 H2. apply IH; [lia|]. intros r s3 H3. apply HQ. lia.
Qed.

Lemma parseback_ends fuel : forall c s (Q : cmd W -> list Z -> Prop),
  (length s < fuel)%nat -> (forall c s', (length s' <= length s)%nat -> Q c s') -> ends (parseback fuel c) s Q.
Proof.
  induction fuel as [|fuel IH]; intros c s Q Hf HQ; [lia|]. cbn [parseback]. apply peek_token_ends.
  - intros t s1 H1. apply IH; [lia|]. intros c' s2 H2. apply HQ. lia.
  - intros s1 H1. apply ends_ret, HQ. lia.
Qed.

Lemma parse_ends fuel : forall s,
  ((4 * length s + 4 <= fuel)%nat -> ends (parseline mk fuel) s (fun _ s' => (length s' <= length s)%nat))
  /\ ((4 * length s + 3 <= fuel)%nat -> ends (parsepipe mk fuel) s (fun _ s' => (length s' <= length s)%nat))
  /\ ((4 * length s + 2 <= fuel)%nat -> ends (parseexec mk fuel) s (fun _ s' => (length s' <= length s)%nat))
  /\ ((4 * length s + 1 <= fuel)%nat -> ends (parseblock mk fuel) s (fun _ s' => (length s' <= length s)%nat)).
Proof.
  induction fuel as [|fuel IH]; intros s; [split_and!; lia|]. split_and!; intros Hf; cbn [parseline parsepipe parseexec parseblock].
  - apply ends_bind. eapply ends_mono; [apply (IH s); lia|]. cbn beta. intros c s1 H1.
    apply ends_bind, parseback_ends; [lia|]. intros c' s2 H2. apply peek_token_ends.
    + intros t s3 H3. apply ends_bind. eapply ends_mono; [apply (IH s3); lia|]. cbn beta. intros r s4 H4. apply ends_ret. lia.
    + intros s3 H3. apply ends_ret. lia.
  - apply ends_bind. eapply ends_mono; [apply (IH s); lia|]. cbn beta. intros c s1 H1. apply peek_token_ends.
    + intros t s3 H3. apply ends_bind. eapply ends_mono; [apply (IH s3); lia|]. cbn beta. intros r s4 H4. apply ends_ret. lia.
    + intros s3 H3. apply ends_ret. lia.
  - apply ends_bind, peek_ends. pose proof (skip_ws_length s) as Hl.
    destruct (match skip_ws s with c :: _ => isin c [40] | [] => false end).
    + eapply ends_mono; [apply (IH (skip_ws s)); lia|]. cbn beta. intros; lia.
    + apply ends_bind, parseredirs_ends; [lia|]. intros rs s1 H1. apply ends_bind, parseargs_ends; [lia|]. intros r s2 H2. apply ends_ret. lia.
  - apply peek_not_token_ends; [|done]. intros t s1 H1. apply ends_bind. eapply ends_mono; [apply (IH s1); lia|]. cbn beta. intros c s2 H2.
    apply ends_bind, peek_ends. pose proof (skip_ws_length s2). case_if; [done|].
    apply ends_bind, gettoken_ends. intros t' s3 H3 _ _. apply ends_bind, parseredirs_ends; [lia|]. intros rs s4 H4. apply ends_ret. lia.
Qed.

Lemma parsecmd_ends s : ends (parsecmd mk) s (fun _ s' => s' = []).
Proof.
  unfold parsecmd. apply ends_bind. change (ends get s (fun s0 s' => ends (c <- parseline mk (fuel_for s0) ;; peek [] ;;; s <- get ;;
    match s with [] => ret c | _ => panic "syntax" end) s' (fun _ s'0 => s'0 = []))). red. cbn [get].
  apply ends_bind. eapply ends_mono; [apply (parse_ends _ s); unfold fuel_for; lia|]. intros c s1 _.
  apply ends_bind, peek_ends. apply ends_bind. red. cbn [get]. destruct (skip_ws s1); done.
Qed.

End Ends.

(** ** Where the words are *)

Fixpoint words {W} (c : cmd W) : list W :=
  match c with
  | Exec argv => argv
  | Redir c f _ _ => words c ++ [f]
  | Pipe l r | List l r => words l ++ words r
  | Back c => words c
  end.

Definition wordch (c : Z) : bool := negb (isin c whitespace) && negb (isin c symbols).

Lemma skip_ws_suffix s : skip_ws s `suffix_of` s.
Proof. induction s as [|c s IH]; cbn [skip_ws]; [done|]. case_if; [by apply suffix_cons_r | done]. Qed.
Lemma skip_word_suffix s : skip_word s `suffix_of` s.
Proof. induction s as [|c s IH]; cbn [skip_word]; [done|]. case_if; [by apply suffix_cons_r | done]. Qed.

Lemma token_suffix q : snd (token_at q) `suffix_of` q.
Proof.
  destruct q as [|c q]; [done|]. cbn [token_at]. case_if; [by apply suffix_cons_r|]. case_if.
  - destruct q as [|d q]; [by apply suffix_cons_r|]. case_if; cbn [snd]; [by do 2 apply suffix_cons_r | by apply suffix_cons_r].
  - apply skip_word_suffix.
Qed.

(** A word token. *)
Lemma token_word s : fst (token_at (skip_ws s)) = 97 ->
  exists c q, skip_ws s = c :: q /\ wordch c = true /\ snd (token_at (skip_ws s)) = skip_word (skip_ws s).
Proof.
  destruct (skip_ws s) as [|c q] eqn:E; [done|]. intros Ht. exists c, q. split; [done|]. revert Ht. cbn [token_at].
  destruct (isin c [124; 40; 41; 59; 38; 60]) eqn:E1; [cbn; intros ->; done|]. destruct (c =? 62) eqn:E2.
  - destruct q as [|d q']; [done|]. case_if; done.
  - intros _. split; [|done]. unfold wordch. rewrite (skip_ws_head _ _ _ E). destruct (isin c symbols) eqn:Es; [|done]. exfalso.
    apply isin_spec in Es. bool_prop. assert (c ∈ [124; 40; 41; 59; 38; 60]) as Hc by (unfold symbols in Es; set_solver).
    apply isin_spec in Hc. congruence.
Qed.

(** The three kinds of redirection. *)
Definition wf_redir (m d : Z) : Prop :=
  (m = O_RDONLY /\ d = 0) \/ (m = Z.lor (Z.lor O_WRONLY O_CREATE) O_TRUNC /\ d = 1) \/ (m = Z.lor O_WRONLY O_CREATE /\ d = 1).

(** Commands whose words satisfy [G], that have no more words than fit, and
    whose redirections have the mode of their descriptor. *)
Fixpoint ok_cmd {W} (G : W -> Prop) (c : cmd W) : Prop :=
  match c with
  | Exec argv => Forall G argv /\ Z.of_nat (length argv) < MAXARGS
  | Redir c f m d => ok_cmd G c /\ G f /\ wf_redir m d
  | Pipe l r | List l r => ok_cmd G l /\ ok_cmd G r
  | Back c => ok_cmd G c
  end.
Lemma ok_words {W} (G : W -> Prop) c : ok_cmd G c -> Forall G (words c).
Proof. induction c; cbn; intros H; rewrite ?Forall_app; naive_solver. Qed.

Section Words.
  Context {W : Type} (mk : list Z -> list Z -> W) (s0 : list Z) (G : W -> Prop).
  Context (mk_good : forall c q, (c :: q) `suffix_of` s0 -> wordch c = true -> G (mk (c :: q) (skip_word (c :: q)))).

Definition stays {A} (m : P A) (R : A -> Prop) : Prop := forall s, s `suffix_of` s0 -> pwp m s (fun a s' => s' `suffix_of` s0 /\ R a).

Lemma stays_bind {A B} (m : P A) (k : A -> P B) R R' : stays m R -> (forall a, R a -> stays (k a) R') -> stays (bind m k) R'.
Proof. intros Hm Hk s Hs. pwp_step. eapply pwp_mono; [by apply Hm|]. intros a s' [Hs' Ha]. by apply Hk. Qed.
Lemma stays_ret {A} (a : A) (R : A -> Prop) : R a -> stays (ret a) R.
Proof. intros Ha s Hs. by pwp_step. Qed.
Lemma stays_peek toks : stays (peek toks) (fun _ => True).
Proof. intros s Hs a s' E. rewrite peek_run in E. injection E as <- <-. split; [|done]. etransitivity; [apply skip_ws_suffix | done]. Qed.
Lemma stays_gettoken : stays gettoken (fun t => fst (fst t) = 97 -> G (mk (snd (fst t)) (snd t))).
Proof.
  intros s Hs t s' E. rewrite gettoken_run in E. injection E as <- <-. cbn [fst snd].
  assert (skip_ws s `suffix_of` s0) as H1 by (etransitivity; [apply skip_ws_suffix | done]). split.
  - etransitivity; [apply skip_ws_suffix|]. etransitivity; [apply token_suffix | done].
  - intros Ht. destruct (token_word s Ht) as (c & q & Eq & Hc & ->). rewrite Eq in *. by apply mk_good.
Qed.

Definition good_redirs (rs : list (W * Z * Z)) : Prop := Forall (fun r => G (fst (fst r)) /\ wf_redir (snd (fst r)) (snd r)) rs.

Lemma stays_redirs fuel : forall rs, good_redirs rs -> stays (parseredirs mk fuel rs) good_redirs.
Proof.
  induction fuel as [|fuel IH]; intros rs Hrs; cbn [parseredirs]; [done|]. eapply stays_bind; [apply stays_peek|]. intros b _.
  destruct b; [|by apply stays_ret]. eapply stays_bind; [apply stays_gettoken|]. intros t _. eapply stays_bind; [apply stays_gettoken|].
  intros [[tok2 q] eq] Hg. case_if; [done|]. apply IH. cbn [fst snd] in Hg.
  repeat case_if; try done; (apply Forall_app; split; [done|]; constructor; [|done]; split; [by apply Hg | unfold wf_redir; cbn; auto]).
Qed.

Lemma stays_args fuel : forall argv rs, Forall G argv -> Z.of_nat (length argv) < MAXARGS -> good_redirs rs ->
  stays (parseargs mk fuel argv rs) (fun r => ok_cmd G (Exec (fst r)) /\ good_redirs (snd r)).
Proof.
  induction fuel as [|fuel IH]; intros argv rs Ha Hl Hrs; cbn [parseargs]; [done|]. eapply stays_bind; [apply stays_peek|]. intros b _.
  destruct b; [by apply stays_ret|]. eapply stays_bind; [apply stays_gettoken|]. intros [[tok q] eq] Hg.
  case_if; [by apply stays_ret|]. case_if; [done|]. case_if; [done|].
  eapply stays_bind; [by apply stays_redirs|]. intros rs' Hrs'. apply IH; [|by bool_prop | done]. apply Forall_app. split; [done|]. constructor; [by apply Hg | done].
Qed.

Lemma words_wrap (c : cmd W) rs : words (wrap c rs) = words c ++ ((fun r => fst (fst r)) <$> rs).
Proof.
  unfold wrap. revert c. induction rs as [|[[f m] d] rs IH]; intros c; cbn [foldl]; [by rewrite app_nil_r|]. rewrite IH. cbn [words fmap list_fmap fst].
  by rewrite <- app_assoc.
Qed.

Lemma wrap_good c rs : ok_cmd G c -> good_redirs rs -> ok_cmd G (wrap c rs).
Proof.
  unfold wrap. revert c. induction rs as [|[[f m] d] rs IH]; intros c Hc Hrs; cbn [foldl]; [done|]. apply Forall_cons in Hrs as [[Hf Hm] Hrs]. by apply IH.
Qed.

Lemma stays_back fuel : forall c : cmd W, ok_cmd G c -> stays (parseback fuel c) (fun c => ok_cmd G c).
Proof.
  induction fuel as [|fuel IH]; intros c Hc; cbn [parseback]; [done|]. eapply stays_bind; [apply stays_peek|]. intros b _.
  destruct b; [|by apply stays_ret]. eapply stays_bind; [apply stays_gettoken|]. intros t _. by apply IH.
Qed.

Lemma stays_parse fuel :
  stays (parseline mk fuel) (fun c => ok_cmd G c) /\ stays (parsepipe mk fuel) (fun c => ok_cmd G c)
  /\ stays (parseexec mk fuel) (fun c => ok_cmd G c) /\ stays (parseblock mk fuel) (fun c => ok_cmd G c).
Proof.
  induction fuel as [|fuel (IH1 & IH2 & IH3 & IH4)]; [split_and!; done|]. split_and!; cbn [parseline parsepipe parseexec parseblock].
  - eapply stays_bind; [apply IH2|]. intros c Hc. eapply stays_bind; [by apply stays_back|]. intros c' Hc'. eapply stays_bind; [apply stays_peek|].
    intros b _. destruct b; [|by apply stays_ret]. eapply stays_bind; [apply stays_gettoken|]. intros t _. eapply stays_bind; [apply IH1|].
    intros r Hr. by apply stays_ret.
  - eapply stays_bind; [apply IH3|]. intros c Hc. eapply stays_bind; [apply stays_peek|].
    intros b _. destruct b; [|by apply stays_ret]. eapply stays_bind; [apply stays_gettoken|]. intros t _. eapply stays_bind; [apply IH2|].
    intros r Hr. by apply stays_ret.
  - eapply stays_bind; [apply stays_peek|]. intros b _. destruct b; [apply IH4|].
    eapply stays_bind; [apply stays_redirs; by constructor|]. intros rs Hrs. eapply stays_bind; [apply stays_args; [by constructor | done | done]|].
    intros r [Ha Hr]. apply stays_ret. by apply wrap_good.
  - eapply stays_bind; [apply stays_peek|]. intros b _. destruct b; [|done]. cbn [negb]. eapply stays_bind; [apply stays_gettoken|]. intros t _.
    eapply stays_bind; [apply IH1|]. intros c Hc. eapply stays_bind; [apply stays_peek|]. intros b' _. destruct b'; [|done]. cbn [negb].
    eapply stays_bind; [apply stays_gettoken|]. intros t' _. eapply stays_bind; [apply stays_redirs; by constructor|]. intros rs Hrs.
    apply stays_ret. by apply wrap_good.
Qed.

Lemma parsecmd_ok c s' : parsecmd mk s0 = Ret (c, s') -> ok_cmd G c.
Proof.
  unfold parsecmd. unfold bind at 1, get at 1. unfold bind at 1. destruct (parseline mk (fuel_for s0) s0) as [[c1 s1]| | |] eqn:E; [|done..].
  unfold bind at 1. rewrite peek_run. unfold bind, get. destruct (skip_ws s1); [|done]. intros [= -> _].
  by apply (proj1 (stays_parse (fuel_for s0)) s0 ltac:(done)) in E as [_ ?].
Qed.

End Words.

(** ** Terminating the words *)

Lemma nulterminate_words c buf : nulterminate c buf = foldl put0 buf (words c).
Proof.
  revert buf. induction c as [argv|c IH f m d|l IHl r IHr|l IHl r IHr|c IH]; intros buf; cbn [nulterminate words]; try done.
  - by rewrite IH, foldl_app.
  - by rewrite IHl, IHr, foldl_app.
  - by rewrite IHl, IHr, foldl_app.
Qed.

(** The buffer after terminators have been put at the ends of words. *)
Lemma put0_lookup ws buf i : (i < length buf)%nat -> Forall (fun w => 0 <= snd w) ws ->
  foldl put0 buf ws !! i = if bool_decide (Z.of_nat i ∈ snd <$> ws) then Some 0 else buf !! i.
Proof.
  revert buf. induction ws as [|w ws IH]; intros buf Hi Hw; cbn [foldl fmap list_fmap].
  - rewrite bool_decide_false by apply not_elem_of_nil. done.
  - inversion_clear Hw as [|? ? H0 Hw']. rewrite IH by (done || (unfold put0; by rewrite length_insert)).
    destruct (decide (Z.of_nat i ∈ snd <$> ws)) as [Hin|Hout]; [rewrite !bool_decide_true by (done || by right); done|].
    rewrite (bool_decide_false (Z.of_nat i ∈ snd <$> ws)) by done. unfold put0.
    destruct (decide (i = Z.to_nat (snd w))) as [->|Hne].
    + rewrite list_lookup_insert_eq by done. rewrite Z2Nat.id by done. rewrite bool_decide_true by (by left). done.
    + rewrite list_lookup_insert_ne by done. rewrite bool_decide_false; [done|]. rewrite not_elem_of_cons. split; [lia | done].
Qed.

(** The string that starts at an address: the characters before the first
    terminator. *)
Fixpoint cstring (l : list Z) : list Z :=
  match l with
  | [] => []
  | c :: l' => if c =? 0 then [] else c :: cstring l'
  end.

Lemma cstring_app w r : 0 ∉ w -> cstring (w ++ 0 :: r) = w.
Proof.
  induction w as [|c w IH]; intros H0; [done|]. cbn [app cstring]. rewrite (proj2 (Z.eqb_neq c 0)) by (intros ->; apply H0; left).
  f_equal. apply IH. intros H. apply H0. by right.
Qed.

(** A word of a text: characters that can be part of words, up to the end or a
    character that cannot. *)
Definition word_span (s : list Z) (w : Z * Z) : Prop :=
  0 <= fst w < snd w /\ snd w <= Z.of_nat (length s)
  /\ (forall i c, fst w <= Z.of_nat i < snd w -> s !! i = Some c -> wordch c = true)
  /\ (forall c, s !! Z.to_nat (snd w) = Some c -> wordch c = false).

Lemma skip_word_split q : exists w, q = w ++ skip_word q /\ Forall (fun c => wordch c = true) w
  /\ (forall c, head (skip_word q) = Some c -> wordch c = false).
Proof.
  induction q as [|c q (w & E & Hw & Hh)]; [by exists []|]. cbn [skip_word]. change (negb (isin c whitespace) && negb (isin c symbols)) with (wordch c).
  destruct (wordch c) eqn:Ec.
  - exists (c :: w). split; [by rewrite E at 1|]. split; [by constructor | done].
  - exists []. split; [done|]. split; [by constructor|]. cbn. by intros d [= <-].
Qed.

Lemma span_good s c q : (c :: q) `suffix_of` s -> wordch c = true -> word_span s (span (length s) (c :: q) (skip_word (c :: q))).
Proof.
  intros [pre ->] Hc. destruct (skip_word_split (c :: q)) as (w & E & Hw & Hh).
  assert (0 < length w)%nat as Hpos.
  { destruct w; [|cbn; lia]. exfalso. cbn [app] in E. rewrite <- E in Hh. specialize (Hh c eq_refl). congruence. }
  set (r := skip_word (c :: q)) in *. rewrite E. unfold word_span, span. cbn [fst snd]. rewrite !length_app. 
  replace (Z.of_nat (length pre + (length w + length r) - (length w + length r))) with (Z.of_nat (length pre)) by lia.
  replace (Z.of_nat (length pre + (length w + length r) - length r)) with (Z.of_nat (length pre + length w)) by lia.
  split; [lia|]. split; [lia|]. split.
  - intros i d Hi Hd. rewrite lookup_app_r in Hd by lia. rewrite lookup_app_l in Hd by lia. by eapply (Forall_lookup_1 _ _ _ _ Hw).
  - intros d. rewrite Nat2Z.id, app_assoc. rewrite lookup_app_r by (rewrite length_app; lia). rewrite length_app, Nat.sub_diag. rewrite <- head_lookup. apply Hh.
Qed.

(** After the shell has parsed a line and put terminators into its buffer,
    every word of the command is the string that starts at its first
    character: exactly the characters of the line that the parser took for the
    word; no terminator falls into another word. *)
Theorem nulterminate_correct (s : list Z) (c : cmd (Z * Z)) (s' : list Z) (H0 : 0 ∉ s)
  (E : parsecmd (span (length s)) s = Ret (c, s')) :
  Forall (fun w => 0 <= fst w < snd w /\ snd w <= Z.of_nat (length s)
    /\ cstring (drop (Z.to_nat (fst w)) (nulterminate c (s ++ [0]))) = take (Z.to_nat (snd w - fst w)) (drop (Z.to_nat (fst w)) s)) (words c).
Proof.
  pose proof (ok_words _ _ (parsecmd_ok (span (length s)) s (word_span s) (span_good s) c s' E)) as Hg. rewrite nulterminate_words.
  assert (Forall (fun w => 0 <= snd w) (words c)) as Hpos by (eapply Forall_impl; [exact Hg|]; intros w (? & _); lia).
  apply Forall_forall. intros w Hw. rewrite Forall_forall in Hg. pose proof (Hg w Hw) as (Hr & Hn & Hin & Hout). split; [done|]. split; [done|].
  set (buf := foldl put0 (s ++ [0]) (words c)). set (k := Z.to_nat (snd w - fst w)). set (q := Z.to_nat (fst w)).
  assert (forall i, (i < length s + 1)%nat -> buf !! i = if bool_decide (Z.of_nat i ∈ snd <$> words c) then Some 0 else (s ++ [0]) !! i) as Hbuf
    by (intros i Hi; apply put0_lookup; [by rewrite length_app | done]).
  assert (forall i, (i < k)%nat -> buf !! (q + i)%nat = s !! (q + i)%nat) as Hsame.
  { intros i Hi. rewrite Hbuf by lia. destruct (lookup_lt_is_Some_2 s (q + i)) as [x Hx]; [lia|]. rewrite bool_decide_false.
    - apply lookup_app_l. lia.
    - intros (w' & Ew & Hw')%list_elem_of_fmap. destruct (Hg w' Hw') as (_ & _ & _ & Hout').
      assert (wordch x = true) as H1 by (apply (Hin (q + i)%nat); [lia | done]). rewrite (Hout' x) in H1; [done|]. rewrite <- Ew, Nat2Z.id. done. }
  assert (buf !! (q + k)%nat = Some 0) as Hend.
  { rewrite Hbuf by lia. rewrite bool_decide_true; [done|]. apply list_elem_of_fmap. exists w. split; [lia | done]. }
  assert (drop q buf = take k (drop q s) ++ 0 :: drop (S k) (drop q buf)) as ->.
  { rewrite <- (take_drop k (drop q buf)) at 1. f_equal.
    - apply list_eq. intros i. destruct (decide (i < k)%nat) as [Hi|Hi].
      + rewrite !lookup_take_lt by done. rewrite !lookup_drop. by apply Hsame.
      + by rewrite !lookup_take_ge by lia.
    - apply drop_S. rewrite lookup_drop. done. }
  rewrite cstring_app; [done|]. intros Hz. apply H0. rewrite <- (take_drop q s), <- (take_drop k (drop q s)). set_solver.
Qed.

(** ** Printing commands *)

Definition SP : Z := 32.

(** Words that the shell can read: not empty, without white space, symbols and
    terminators. *)
Definition wf_word (w : list Z) : Prop := w <> [] /\ Forall (fun c => wordch c = true /\ c <> 0) w.

(** The sign of a redirection. *)
Definition redir_op (m d : Z) : list Z :=
  if d =? 0 then [60] else if m =? Z.lor (Z.lor O_WRONLY O_CREATE) O_TRUNC then [62] else [62; 62].

Definition wf_cmd : cmd (list Z) -> Prop := ok_cmd wf_word.

#[export] Instance wf_word_dec w : Decision (wf_word w).
Proof. unfold wf_word. apply _. Defined.
#[export] Instance wf_redir_dec m d : Decision (wf_redir m d).
Proof. unfold wf_redir. apply _. Defined.
#[export] Instance wf_cmd_dec c : Decision (wf_cmd c).
Proof. unfold wf_cmd. induction c; cbn [ok_cmd]; apply _. Defined.

Definition pr_words (argv : list (list Z)) : list Z := mjoin ((fun w => w ++ [SP]) <$> argv).
Definition pr_redir (f : list Z) (m d : Z) : list Z := redir_op m d ++ f ++ [SP].
Definition pr_redirs (rs : list (list Z * Z * Z)) : list Z := mjoin ((fun '(f, m, d) => pr_redir f m d) <$> rs).

(** A command as text at the four levels of the grammar; parentheses where a
    level does not allow the command. *)
Record printed := mkPrinted { p_line : list Z; p_back : list Z; p_pipe : list Z; p_exec : list Z }.

Fixpoint pr (c : cmd (list Z)) : printed :=
  match c with
  | Exec argv => let e := pr_words argv in mkPrinted e e e e
  | Redir c f m d => let e := p_exec (pr c) ++ pr_redir f m d in mkPrinted e e e e
  | Pipe l r =>
      let p := p_exec (pr l) ++ [124; SP] ++ p_pipe (pr r) in
      mkPrinted p p p ([40; SP] ++ p ++ [41; SP])
  | List l r =>
      let n := p_back (pr l) ++ [59; SP] ++ p_line (pr r) in
      let e := [40; SP] ++ n ++ [41; SP] in
      mkPrinted n e e e
  | Back c =>
      let b := p_back (pr c) ++ [38; SP] in
      let e := [40; SP] ++ b ++ [41; SP] in
      mkPrinted b b e e
  end.

Definition print_cmd (c : cmd (list Z)) : list Z := p_line (pr c).

(** ** Reading back what was printed *)

(** The next character that is not white space is one of [toks], or the text
    ends. *)
Definition follows (toks rest : list Z) : Prop := match skip_ws rest with [] => True | c :: _ => isin c toks = true end.

Lemma peek_follows toks toks' rest : follows toks rest -> (forall c, isin c toks = true -> isin c toks' = false) ->
  peek toks' rest = Ret (false, skip_ws rest).
Proof. unfold follows. intros H Hn. rewrite peek_run. destruct (skip_ws rest) as [|c s]; [done|]. by rewrite Hn. Qed.

Lemma skip_ws_not c s : isin c whitespace = false -> skip_ws (c :: s) = c :: s.
Proof. intros H. cbn [skip_ws]. by rewrite H. Qed.
Lemma skip_ws_sp s : skip_ws (SP :: s) = skip_ws s.
Proof. done. Qed.

Lemma word_head w : wf_word w -> exists c w', w = c :: w' /\ wordch c = true /\ isin c whitespace = false /\ isin c symbols = false.
Proof.
  intros [Hne Hw]. destruct w as [|c w']; [done|]. inversion_clear Hw as [|? ? [Hc _] _]. exists c, w'. split; [done|]. split; [done|].
  unfold wordch in Hc. bool_prop. done.
Qed.

Lemma skip_word_app w r : Forall (fun c => wordch c = true /\ c <> 0) w -> skip_word (w ++ SP :: r) = SP :: r.
Proof.
  induction w as [|c w IH]; intros Hw; [done|]. inversion_clear Hw as [|? ? [Hc _] Hw']. cbn [app skip_word].
  change (negb (isin c whitespace) && negb (isin c symbols)) with (wordch c). rewrite Hc. by apply IH.
Qed.

Lemma not_symbol c : isin c symbols = false -> isin c [124; 40; 41; 59; 38; 60] = false /\ (c =? 62) = false.
Proof.
  intros H. split.
  - destruct (isin c [124; 40; 41; 59; 38; 60]) eqn:E; [|done]. apply isin_spec in E. assert (c ∈ symbols) as Hs by (unfold symbols; set_solver).
    apply isin_spec in Hs. congruence.
  - apply Z.eqb_neq. intros ->. done.
Qed.

(** The token of a word that was printed. *)
Lemma gettoken_word w r : wf_word w -> gettoken (w ++ SP :: r) = Ret ((97, w ++ SP :: r, SP :: r), skip_ws r).
Proof.
  intros Hw. destruct (word_head w Hw) as (c & w' & E & _ & Hws & Hsy). destruct (not_symbol c Hsy) as [H1 H2]. rewrite gettoken_run.
  assert (skip_ws (w ++ SP :: r) = w ++ SP :: r) as -> by (rewrite E; cbn [app]; by apply skip_ws_not).
  assert (token_at (w ++ SP :: r) = (97, SP :: r)) as ->; [|done].
  rewrite <- (skip_word_app w r) at 2 by apply Hw. rewrite E. cbn [app token_at]. by rewrite H1, H2.
Qed.

Lemma word_text_app w r : word_text (w ++ r) r = w.
Proof. unfold word_text. rewrite length_app. replace (length w + length r - length r)%nat with (length w) by lia. apply take_app_length. Qed.

(** The operator of a redirection. *)
Lemma gettoken_op m d f r : wf_redir m d -> wf_word f -> exists tok,
  gettoken (pr_redir f m d ++ r) = Ret ((tok, pr_redir f m d ++ r, f ++ SP :: r), f ++ SP :: r)
  /\ forall rs : list (list Z * Z * Z),
       (if tok =? 60 then rs ++ [(f, O_RDONLY, 0)]
        else if tok =? 62 then rs ++ [(f, Z.lor (Z.lor O_WRONLY O_CREATE) O_TRUNC, 1)]
        else if tok =? 43 then rs ++ [(f, Z.lor O_WRONLY O_CREATE, 1)] else rs) = rs ++ [(f, m, d)].
Proof.
  intros Hr Hf. destruct (word_head f Hf) as (c & f' & E & _ & Hws & Hsy). destruct (not_symbol c Hsy) as [_ H62].
  assert (skip_ws (f ++ SP :: r) = f ++ SP :: r) as Hsk by (rewrite E; cbn [app]; by apply skip_ws_not).
  assert (forall op, (op ++ f ++ [SP]) ++ r = op ++ f ++ SP :: r) as Ea by (intros op; by rewrite <- !app_assoc).
  unfold pr_redir. destruct Hr as [[-> ->]|[[-> ->]|[-> ->]]].
  - exists 60. split; [|done]. change (redir_op O_RDONLY 0) with [60]. rewrite Ea, gettoken_run.
    change (skip_ws ([60] ++ f ++ SP :: r)) with (60 :: f ++ SP :: r). cbn [token_at snd fst app]. change (isin 60 [124; 40; 41; 59; 38; 60]) with true.
    cbn [fst snd]. by rewrite Hsk.
  - exists 62. split; [|done]. change (redir_op _ 1) with [62]. rewrite Ea, gettoken_run.
    change (skip_ws ([62] ++ f ++ SP :: r)) with (62 :: f ++ SP :: r).
    assert (token_at (62 :: f ++ SP :: r) = (62, f ++ SP :: r)) as ->; [|cbn [fst snd]; by rewrite Hsk].
    rewrite E. cbn [app token_at]. change (isin 62 [124; 40; 41; 59; 38; 60]) with false. change (62 =? 62) with true. cbv iota. by rewrite H62.
  - exists 43. split; [|done]. change (redir_op _ 1) with [62; 62]. rewrite Ea, gettoken_run.
    change (skip_ws ([62; 62] ++ f ++ SP :: r)) with (62 :: 62 :: f ++ SP :: r).
    change (token_at (62 :: 62 :: f ++ SP :: r)) with (43, f ++ SP :: r). cbn [fst snd]. by rewrite Hsk.
Qed.

Lemma peek_skip {B} toks (k : bool -> P B) s : (b <- peek toks ;; k b) (skip_ws s) = (b <- peek toks ;; k b) s.
Proof. unfold bind. rewrite !peek_run. by rewrite skip_ws_idem. Qed.

Lemma redir_head f m d r : peek [60; 62] (pr_redir f m d ++ r) = Ret (true, pr_redir f m d ++ r).
Proof. rewrite peek_run. unfold pr_redir, redir_op. repeat case_if; done. Qed.

Notation wredirs := (parseredirs word_text).
Notation wargs := (parseargs word_text).

Definition wf_redirs (rs : list (list Z * Z * Z)) : Prop := Forall (fun r => wf_word (fst (fst r)) /\ wf_redir (snd (fst r)) (snd r)) rs.

Lemma redirs_skip fuel rs s : wredirs fuel rs (skip_ws s) = wredirs fuel rs s.
Proof. destruct fuel; [done|]. apply peek_skip. Qed.
Lemma args_skip fuel argv rs s : wargs fuel argv rs (skip_ws s) = wargs fuel argv rs s.
Proof. destruct fuel; [done|]. apply peek_skip. Qed.

(** Redirections that were printed are read back, after those already read. *)
Lemma redirs_read rs : forall fuel acc rest, wf_redirs rs -> peek [60; 62] rest = Ret (false, skip_ws rest) ->
  (length (pr_redirs rs ++ rest) < fuel)%nat -> wredirs fuel acc (pr_redirs rs ++ rest) = Ret (acc ++ rs, skip_ws rest).
Proof.
  induction rs as [|[[f m] d] rs IH]; intros fuel acc rest Hwf Hp Hf; (destruct fuel as [|fuel]; [lia|]).
  - cbn [parseredirs]. unfold bind. change (pr_redirs [] ++ rest) with rest. rewrite Hp. by rewrite app_nil_r.
  - inversion_clear Hwf as [|? ? [Hw Hr] Hwf']. cbn [fst snd] in *.
    assert (pr_redirs ((f, m, d) :: rs) ++ rest = pr_redir f m d ++ (pr_redirs rs ++ rest)) as E by (unfold pr_redirs; cbn; by rewrite <- app_assoc).
    rewrite E in *. cbn [parseredirs]. unfold bind. rewrite redir_head.
    destruct (gettoken_op m d f (pr_redirs rs ++ rest) Hr Hw) as (tok & -> & Htok). rewrite gettoken_word by done.
    change (negb (97 =? 97)) with false. cbn [fst snd]. rewrite word_text_app, Htok, redirs_skip.
    rewrite IH; [by rewrite <- app_assoc | done | done|]. unfold pr_redir in Hf. rewrite !length_app in Hf. cbn [length] in Hf. rewrite length_app. lia.
Qed.

Lemma words_cons w argv : pr_words (w :: argv) = w ++ SP :: pr_words argv.
Proof. unfold pr_words. cbn. by rewrite <- app_assoc. Qed.

(** The characters that end a simple command. *)
Notation stops := [124; 41; 38; 59].

Lemma stops_redirs rest : follows stops rest -> peek [60; 62] rest = Ret (false, skip_ws rest).
Proof.
  intros H. apply (peek_follows stops); [done|]. intros c Hc. apply isin_spec in Hc.
  assert (c = 124 \/ c = 41 \/ c = 38 \/ c = 59) as [->|[->|[->| ->]]] by set_solver; done.
Qed.

(** After the last word only redirections may follow. *)
Lemma args_read argv' : forall fuel argv acc rs rest, Forall wf_word argv' -> wf_redirs rs -> (argv' = [] -> rs = []) -> follows stops rest ->
  Z.of_nat (length argv + length argv') < MAXARGS -> (length (pr_words argv' ++ pr_redirs rs ++ rest) < fuel)%nat ->
  wargs fuel argv acc (pr_words argv' ++ pr_redirs rs ++ rest) = Ret ((argv ++ argv', acc ++ rs), skip_ws rest).
Proof.
  induction argv' as [|w argv' IH]; intros fuel argv acc rs rest Hw Hrs He Hst Hlen Hf; (destruct fuel as [|fuel]; [lia|]).
  - rewrite He in * by done. change (pr_words [] ++ pr_redirs [] ++ rest) with rest. rewrite !app_nil_r. cbn [parseargs]. unfold bind.
    rewrite peek_run. unfold follows in Hst. destruct (skip_ws rest) as [|c s] eqn:E; [|by rewrite Hst].
    rewrite gettoken_run. done.
  - inversion_clear Hw as [|? ? Hw1 Hw2]. destruct (word_head w Hw1) as (c & w' & Ew & _ & Hws & Hsy).
    rewrite words_cons in *. rewrite <- app_assoc in *. cbn [app] in *. set (r := pr_words argv' ++ pr_redirs rs ++ rest) in *.
    assert (peek stops (w ++ SP :: r) = Ret (false, w ++ SP :: r)) as Hp.
    { rewrite peek_run, Ew. cbn [app]. rewrite skip_ws_not by done. destruct (isin c stops) eqn:Ec; [|done]. exfalso. apply isin_spec in Ec.
      assert (c ∈ symbols) as Hs by (unfold symbols; set_solver). apply isin_spec in Hs. congruence. }
    cbn [parseargs]. unfold bind at 1. rewrite Hp. unfold bind at 1. rewrite gettoken_word by done.
    change (97 =? 0) with false. change (negb (97 =? 97)) with false. cbn iota. rewrite word_text_app.
    rewrite length_app in Hf. cbn [length] in Hf, Hlen. rewrite length_app. cbn [length].
    rewrite Z.geb_leb, (proj2 (Z.leb_gt _ _)) by lia. unfold bind at 1. rewrite redirs_skip.
    assert (0 < length w)%nat by (rewrite Ew; cbn; lia).
    destruct (decide (argv' = [])) as [->|Hne].
    + change (pr_words [] ++ pr_redirs rs ++ rest) with (pr_redirs rs ++ rest) in r. unfold r.
      rewrite redirs_read; [|done | by apply stops_redirs | subst r; lia]. rewrite args_skip.
      pose proof (IH fuel (argv ++ [w]) (acc ++ rs) [] rest) as Hz. change (pr_words [] ++ pr_redirs [] ++ rest) with rest in Hz.
      rewrite !app_nil_r in Hz. apply Hz; try done; [by constructor | rewrite length_app; cbn [length]; lia|].
      subst r. rewrite length_app in Hf. lia.
    + assert (peek [60; 62] r = Ret (false, skip_ws r)) as Hpr.
      { destruct argv' as [|w2 argv']; [done|]. inversion_clear Hw2 as [|? ? Hw3 _]. destruct (word_head w2 Hw3) as (c2 & w2' & E2 & _ & Hws2 & Hsy2).
        rewrite peek_run. unfold r. rewrite words_cons, E2. cbn [app]. rewrite skip_ws_not by done. destruct (isin c2 [60; 62]) eqn:Ec; [|done]. exfalso.
        apply isin_spec in Ec. assert (c2 ∈ symbols) as Hs by (unfold symbols; set_solver). apply isin_spec in Hs. congruence. }
      pose proof (redirs_read [] fuel acc r ltac:(by constructor) Hpr) as Hz. change (pr_redirs [] ++ r) with r in Hz.
      rewrite Hz by lia. rewrite app_nil_r, args_skip. unfold r. rewrite (IH fuel (argv ++ [w]) acc rs rest); try done.
      * by rewrite <- app_assoc.
      * rewrite length_app. cbn [length]. lia.
      * fold r. lia.
Qed.

Notation wline := (parseline word_text).
Notation wpipe := (parsepipe word_text).
Notation wexec := (parseexec word_text).
Notation wblock := (parseblock word_text).

Lemma bind_run {A B} (m : P A) (k : A -> P B) s a s' : m s = Ret (a, s') -> bind m k s = k a s'.
Proof. unfold bind. by intros ->. Qed.
Lemma bind_same {A B} (m : P A) (k : A -> P B) s t : m s = m t -> bind m k s = bind m k t.
Proof. unfold bind. by intros ->. Qed.

Lemma exec_skip fuel s : wexec fuel (skip_ws s) = wexec fuel s.
Proof. destruct fuel; [done|]. apply peek_skip. Qed.
Lemma pipe_skip fuel s : wpipe fuel (skip_ws s) = wpipe fuel s.
Proof. destruct fuel; [done|]. apply bind_same, exec_skip. Qed.
Lemma line_skip fuel s : wline fuel (skip_ws s) = wline fuel s.
Proof. destruct fuel; [done|]. apply bind_same, pipe_skip. Qed.
Lemma back_skip fuel (c : cmd (list Z)) s : parseback fuel c (skip_ws s) = parseback fuel c s.
Proof. destruct fuel; [done|]. apply peek_skip. Qed.

(** A symbol followed by a space. *)
Lemma symbol_read c r toks : isin c toks = true -> isin c [124; 40; 41; 59; 38; 60] = true -> isin c whitespace = false ->
  peek toks (c :: SP :: r) = Ret (true, c :: SP :: r) /\ exists q e, gettoken (c :: SP :: r) = Ret ((c, q, e), skip_ws r).
Proof.
  intros H1 H2 H3. rewrite peek_run, skip_ws_not by done. rewrite H1. split; [done|]. rewrite gettoken_run, skip_ws_not by done.
  cbn [token_at]. rewrite H2. cbn [fst snd]. rewrite skip_ws_sp. eauto.
Qed.

Fixpoint backs (k : nat) : list Z := match k with O => [] | S k' => 38 :: SP :: backs k' end.

Lemma backs_read k : forall fuel (c : cmd (list Z)) rest, follows [41; 59] rest -> (length (backs k ++ rest) < fuel)%nat ->
  parseback fuel c (backs k ++ rest) = Ret (Nat.iter k Back c, skip_ws rest).
Proof.
  induction k as [|k IH]; intros fuel c rest Hr Hf; (destruct fuel as [|fuel]; [lia|]).
  - cbn [backs app parseback]. erewrite bind_run; [|apply (peek_follows [41; 59]); [done|]]; [done|]. intros d Hd. apply isin_spec in Hd.
    assert (d = 41 \/ d = 59) as [->| ->] by set_solver; done.
  - cbn [backs app parseback length] in *. destruct (symbol_read 38 (backs k ++ rest) [38]) as (Hp & q & e & Hg); [done..|].
    erewrite bind_run by exact Hp. cbv iota. erewrite bind_run by exact Hg. rewrite back_skip, IH by (done || lia).
    by rewrite Nat.iter_succ_r || (rewrite Nat.iter_swap; done).
Qed.

Definition read_exec (c : cmd (list Z)) : Prop := forall fuel rs rest, wf_redirs rs -> follows stops rest ->
  (4 * length (p_exec (pr c) ++ pr_redirs rs ++ rest) + 2 <= fuel)%nat ->
  wexec fuel (p_exec (pr c) ++ pr_redirs rs ++ rest) = Ret (wrap c rs, skip_ws rest).
Definition read_pipe (c : cmd (list Z)) : Prop := forall fuel rest, follows [41; 38; 59] rest ->
  (4 * length (p_pipe (pr c) ++ rest) + 3 <= fuel)%nat -> wpipe fuel (p_pipe (pr c) ++ rest) = Ret (c, skip_ws rest).
Definition read_back (c : cmd (list Z)) : Prop := forall fuel k rest, follows [41; 59] rest ->
  (4 * length (p_back (pr c) ++ backs k ++ rest) + 3 <= fuel)%nat ->
  exists x s1, wpipe fuel (p_back (pr c) ++ backs k ++ rest) = Ret (x, s1) /\ parseback fuel x s1 = Ret (Nat.iter k Back c, skip_ws rest).
Definition read_line (c : cmd (list Z)) : Prop := forall fuel rest, follows [41] rest ->
  (4 * length (p_line (pr c) ++ rest) + 4 <= fuel)%nat -> wline fuel (p_line (pr c) ++ rest) = Ret (c, skip_ws rest).

Lemma follows_weaken toks toks' rest : follows toks rest -> (forall c, isin c toks = true -> isin c toks' = true) -> follows toks' rest.
Proof. unfold follows. destruct (skip_ws rest); auto. Qed.
Lemma follows_symbol c r toks : isin c whitespace = false -> isin c toks = true -> follows toks (c :: r).
Proof. intros H1 H2. unfold follows. by rewrite skip_ws_not. Qed.

(** Membership in the sets of symbols, by computation. *)
#[local] Ltac symcases :=
  let c := fresh "c" in let Hc := fresh "Hc" in
  intros c Hc; unfold isin in *; cbn [existsb] in *;
  repeat match goal with |- context [c =? ?z] => destruct (Z.eqb_spec c z) end;
  repeat match goal with H : context [c =? ?z] |- _ => destruct (Z.eqb_spec c z) end; subst; cbn in *; try done; try lia.

Lemma read_pipe_exec c : p_pipe (pr c) = p_exec (pr c) -> read_exec c -> read_pipe c.
Proof.
  intros E H fuel rest Hr Hf. rewrite E in *. destruct fuel as [|fuel]; [lia|]. cbn [parsepipe].
  erewrite bind_run; [|pose proof (H fuel [] rest ltac:(by constructor)) as Hx; change (pr_redirs [] ++ rest) with rest in Hx; apply Hx;
    [eapply follows_weaken; [exact Hr | symcases] | lia]].
  erewrite bind_run; [|rewrite peek_run, skip_ws_idem, <- peek_run; apply (peek_follows [41; 38; 59]); [done | symcases]]. done.
Qed.

Lemma read_back_pipe c : p_back (pr c) = p_pipe (pr c) -> read_pipe c -> read_back c.
Proof.
  intros E H fuel k rest Hr Hf. rewrite E in *. exists c, (skip_ws (backs k ++ rest)). split.
  - apply H; [|lia]. destruct k; [eapply follows_weaken; [exact Hr | symcases] | by apply follows_symbol].
  - rewrite back_skip. apply backs_read; [done|]. rewrite length_app in Hf. lia.
Qed.

Lemma read_line_back c : p_line (pr c) = p_back (pr c) -> read_back c -> read_line c.
Proof.
  intros E H fuel rest Hr Hf. rewrite E in *. destruct fuel as [|fuel]; [lia|]. cbn [parseline].
  destruct (H fuel 0%nat rest) as (x & s1 & E1 & E2); [eapply follows_weaken; [exact Hr | symcases] | cbn [backs app]; lia|].
  cbn [backs app] in E1. erewrite bind_run by exact E1. erewrite bind_run by exact E2. cbn [Nat.iter nat_rect].
  erewrite bind_run; [|rewrite peek_run, skip_ws_idem, <- peek_run; apply (peek_follows [41]); [done | symcases]]. done.
Qed.

(** A command in parentheses, with redirections after it. *)
Lemma read_exec_block c : p_exec (pr c) = [40; SP] ++ p_line (pr c) ++ [41; SP] -> read_line c -> read_exec c.
Proof.
  intros E H fuel rs rest Hrs Hr Hf. rewrite E in *. destruct fuel as [|[|fuel]]; [lia | lia|].
  set (r2 := pr_redirs rs ++ rest) in *. set (r1 := p_line (pr c) ++ 41 :: SP :: r2).
  assert (([40; SP] ++ p_line (pr c) ++ [41; SP]) ++ r2 = 40 :: SP :: r1) as Ein by (unfold r1; cbn [app]; by rewrite <- app_assoc).
  rewrite Ein in *. destruct (symbol_read 40 r1 [40]) as (Hp & q & e & Hg); [done..|].
  cbn [parseexec]. erewrite bind_run by exact Hp. cbv iota. change (wblock (S fuel) (40 :: SP :: r1) = Ret (wrap c rs, skip_ws rest)).
  cbn [parseblock]. erewrite bind_run by exact Hp. cbn [negb]. erewrite bind_run by exact Hg.
  change (parseline word_text fuel) with (wline fuel). cbn [length] in Hf.
  erewrite bind_run.
  2:{ rewrite line_skip. apply H; [by apply follows_symbol | fold r1; lia]. }
  rewrite skip_ws_not by done. destruct (symbol_read 41 r2 [41]) as (Hp2 & q2 & e2 & Hg2); [done..|].
  erewrite bind_run by exact Hp2. cbn [negb]. erewrite bind_run by exact Hg2.
  erewrite bind_run.
  2:{ rewrite redirs_skip. apply redirs_read; [done | by apply stops_redirs |]. fold r2. unfold r1 in Hf. rewrite length_app in Hf. cbn [length] in Hf. lia. }
  done.
Qed.

(** What a word starts with is none of the symbols. *)
Lemma word_not toks w r : wf_word w -> (forall c, isin c toks = true -> isin c symbols = true) -> peek toks (w ++ r) = Ret (false, skip_ws (w ++ r)).
Proof.
  intros Hw Ht. destruct (word_head w Hw) as (c & w' & -> & _ & Hws & Hsy). rewrite peek_run. cbn [app]. rewrite skip_ws_not by done.
  destruct (isin c toks) eqn:Ec; [|done]. apply Ht in Ec. congruence.
Qed.

Lemma read_exec_simple argv : wf_cmd (Exec argv) -> read_exec (Exec argv).
Proof.
  intros [Hw Hlen] fuel rs rest Hrs Hr Hf. destruct fuel as [|fuel]; [lia|]. cbn [pr p_exec parseexec] in *. rewrite !length_app in Hf.
  destruct argv as [|w argv].
  - change (pr_words [] ++ pr_redirs rs ++ rest) with (pr_redirs rs ++ rest).
    erewrite (bind_run _ _ (pr_redirs rs ++ rest)); [|instantiate (1 := skip_ws (pr_redirs rs ++ rest)); instantiate (1 := false)].
    + cbv iota. erewrite bind_run; [|rewrite redirs_skip; apply redirs_read; [done | by apply stops_redirs | rewrite length_app; lia]].
      pose proof (args_read [] fuel [] rs [] rest) as Ha. change (pr_words [] ++ pr_redirs [] ++ rest) with rest in Ha. rewrite !app_nil_r in Ha.
      erewrite bind_run; [|rewrite args_skip; apply Ha; [by constructor | by constructor | done | done | done | lia]]. done.
    + destruct rs as [|[[f m] d] rs].
      * change (pr_redirs [] ++ rest) with rest. apply (peek_follows stops); [done | symcases].
      * rewrite peek_run. assert (pr_redirs ((f, m, d) :: rs) ++ rest = redir_op m d ++ (f ++ [SP]) ++ pr_redirs rs ++ rest) as ->
          by (unfold pr_redirs; cbn; unfold pr_redir; by rewrite <- !app_assoc).
        unfold redir_op. repeat case_if; done.
  - inversion_clear Hw as [|? ? Hw1 Hw2].
    assert (forall toks, (forall c, isin c toks = true -> isin c symbols = true) -> peek toks (pr_words (w :: argv) ++ pr_redirs rs ++ rest)
      = Ret (false, skip_ws (pr_words (w :: argv) ++ pr_redirs rs ++ rest))) as Hp.
    { intros toks Ht. rewrite words_cons, <- app_assoc. by apply word_not. }
    erewrite bind_run; [|apply Hp; symcases]. cbv iota.
    pose proof (redirs_read [] fuel [] (pr_words (w :: argv) ++ pr_redirs rs ++ rest) ltac:(by constructor)) as Hz.
    change (pr_redirs [] ++ pr_words (w :: argv) ++ pr_redirs rs ++ rest) with (pr_words (w :: argv) ++ pr_redirs rs ++ rest) in Hz.
    erewrite bind_run; [|rewrite redirs_skip; apply Hz; [apply Hp; symcases | rewrite !length_app; lia]].
    erewrite bind_run; [|rewrite args_skip; apply args_read; [by constructor | done | done | done | done | rewrite !length_app; lia]]. done.
Qed.

Lemma read_exec_redir c f m d : wf_word f -> wf_redir m d -> read_exec c -> read_exec (Redir c f m d).
Proof.
  intros Hf Hm H fuel rs rest Hrs Hr Hfu. cbn [pr p_exec] in *.
  assert ((p_exec (pr c) ++ pr_redir f m d) ++ pr_redirs rs ++ rest = p_exec (pr c) ++ pr_redirs ((f, m, d) :: rs) ++ rest) as E
    by (unfold pr_redirs; cbn; by rewrite <- !app_assoc).
  rewrite E in *. rewrite (H fuel ((f, m, d) :: rs) rest); [done | | done | done]. by constructor.
Qed.

Lemma read_pipe_pipe l r : read_exec l -> read_pipe r -> read_pipe (Pipe l r).
Proof.
  intros Hl Hr fuel rest Hf Hfu. destruct fuel as [|fuel]; [lia|]. cbn [pr p_pipe parsepipe] in *.
  assert ((p_exec (pr l) ++ [124; SP] ++ p_pipe (pr r)) ++ rest = p_exec (pr l) ++ 124 :: SP :: p_pipe (pr r) ++ rest) as E by (by rewrite <- !app_assoc).
  rewrite E in *. destruct (symbol_read 124 (p_pipe (pr r) ++ rest) [124]) as (Hp & q & e & Hg); [done..|].
  pose proof (Hl fuel [] (124 :: SP :: p_pipe (pr r) ++ rest) ltac:(by constructor) ltac:(by apply follows_symbol)) as Hx.
  change (pr_redirs [] ++ ?z) with z in Hx. erewrite bind_run; [|apply Hx; lia]. rewrite skip_ws_not by done.
  erewrite bind_run by exact Hp. cbv iota. erewrite bind_run by exact Hg.
  erewrite bind_run; [|change (parsepipe word_text fuel) with (wpipe fuel); rewrite pipe_skip; apply Hr; [done|]]; [done|].
  rewrite length_app in Hfu. cbn [length] in Hfu. lia.
Qed.

Lemma read_back_back c : read_back c -> read_back (Back c).
Proof.
  intros H fuel k rest Hr Hf. cbn [pr p_back] in *.
  assert ((p_back (pr c) ++ [38; SP]) ++ backs k ++ rest = p_back (pr c) ++ backs (S k) ++ rest) as E by (cbn [backs app]; by rewrite <- !app_assoc).
  rewrite E in *. destruct (H fuel (S k) rest Hr Hf) as (x & s1 & E1 & E2). exists x, s1. split; [done|]. rewrite E2. by rewrite Nat.iter_succ_r.
Qed.

Lemma read_line_list l r : read_back l -> read_line r -> read_line (List l r).
Proof.
  intros Hl Hr fuel rest Hf Hfu. destruct fuel as [|fuel]; [lia|]. cbn [pr p_line parseline] in *.
  assert ((p_back (pr l) ++ [59; SP] ++ p_line (pr r)) ++ rest = p_back (pr l) ++ 59 :: SP :: p_line (pr r) ++ rest) as E by (by rewrite <- !app_assoc).
  rewrite E in *. destruct (symbol_read 59 (p_line (pr r) ++ rest) [59]) as (Hp & q & e & Hg); [done..|].
  destruct (Hl fuel 0%nat (59 :: SP :: p_line (pr r) ++ rest)) as (x & s1 & E1 & E2); [by apply follows_symbol | cbn [backs app]; lia|].
  cbn [backs app] in E1. erewrite bind_run by exact E1. erewrite bind_run by exact E2. rewrite skip_ws_not by done.
  erewrite bind_run by exact Hp. cbv iota. erewrite bind_run by exact Hg. cbn [Nat.iter nat_rect].
  erewrite bind_run; [|change (parseline word_text fuel) with (wline fuel); rewrite line_skip; apply Hr; [done|]]; [done|].
  rewrite length_app in Hfu. cbn [length] in Hfu. lia.
Qed.

(** Every level reads back what was printed for it. *)
Lemma read_all c : wf_cmd c -> read_exec c /\ read_pipe c /\ read_back c /\ read_line c.
Proof.
  induction c as [argv|c IH f m d|l IHl r IHr|l IHl r IHr|c IH]; intros Hwf.
  - assert (read_exec (Exec argv)) as He by (by apply read_exec_simple). assert (read_pipe (Exec argv)) as Hp by (by apply read_pipe_exec).
    assert (read_back (Exec argv)) as Hb by (by apply read_back_pipe). split_and!; try done. by apply read_line_back.
  - destruct Hwf as (Hc & Hf & Hm). destruct (IH Hc) as (Hx & _).
    assert (read_exec (Redir c f m d)) as He by (by apply read_exec_redir). assert (read_pipe (Redir c f m d)) as Hp by (by apply read_pipe_exec).
    assert (read_back (Redir c f m d)) as Hb by (by apply read_back_pipe). split_and!; try done. by apply read_line_back.
  - destruct Hwf as [Hwl Hwr]. destruct (IHl Hwl) as (Hl & _). destruct (IHr Hwr) as (_ & Hr & _).
    assert (read_pipe (Pipe l r)) as Hp by (by apply read_pipe_pipe). assert (read_back (Pipe l r)) as Hb by (by apply read_back_pipe).
    assert (read_line (Pipe l r)) as Hn by (by apply read_line_back). split_and!; try done. by apply read_exec_block.
  - destruct Hwf as [Hwl Hwr]. destruct (IHl Hwl) as (_ & _ & Hl & _). destruct (IHr Hwr) as (_ & _ & _ & Hr).
    assert (read_line (List l r)) as Hn by (by apply read_line_list). assert (read_exec (List l r)) as He by (by apply read_exec_block).
    assert (read_pipe (List l r)) as Hp by (by apply read_pipe_exec). split_and!; try done. by apply read_back_pipe.
  - destruct (IH Hwf) as (_ & _ & Hb' & _). assert (read_back (Back c)) as Hb by (by apply read_back_back).
    assert (read_line (Back c)) as Hn by (by apply read_line_back). assert (read_exec (Back c)) as He by (by apply read_exec_block).
    split_and!; try done. by apply read_pipe_exec.
Qed.

(** ** The theorems on the whole parser *)

Lemma text_good s c q : 0 ∉ s -> (c :: q) `suffix_of` s -> wordch c = true -> wf_word (word_text (c :: q) (skip_word (c :: q))).
Proof.
  intros H0 [pre ->] Hc. destruct (skip_word_split (c :: q)) as (w & E & Hw & Hh). set (r := skip_word (c :: q)) in *. clearbody r.
  assert (wf_word w) as H; [|by rewrite E, word_text_app]. split.
  - intros ->. cbn [app] in E. rewrite <- E in Hh. specialize (Hh c eq_refl). congruence.
  - rewrite Forall_forall in *. intros x Hx. split; [by apply Hw|]. intros ->. apply H0. rewrite E. set_solver.
Qed.

(** C33: on every line the parser of the shell returns a command or reports an
    error; it neither runs for ever nor reads past the line.  A command it
    returns is well formed, with nothing of the line left over: words that are
    not empty and free of white space and symbols, fewer than MAXARGS of them,
    and redirections whose mode goes with their descriptor. *)
Theorem parse_wellformed (s : list Z) (H0 : 0 ∉ s) :
  match parsecmd word_text s with
  | Ret (c, s') => s' = [] /\ wf_cmd c
  | Panic _ => True
  | Fault _ | Diverge => False
  end.
Proof.
  pose proof (parsecmd_ends word_text s) as H. unfold ends in H. destruct (parsecmd word_text s) as [[c s']| | |] eqn:E; try done.
  split; [done|]. eapply parsecmd_ok; [|exact E]. intros c0 q. by apply text_good.
Qed.

(** White space may follow a command. *)
Lemma parsecmd_line c rest : wf_cmd c -> skip_ws rest = [] -> parsecmd word_text (print_cmd c ++ rest) = Ret (c, []).
Proof.
  intros Hc Hr. destruct (read_all c Hc) as (_ & _ & _ & Hl). unfold parsecmd, print_cmd. erewrite bind_run by reflexivity.
  erewrite bind_run by (apply Hl; [unfold follows; by rewrite Hr | unfold fuel_for; lia]). by rewrite Hr.
Qed.

(** C32: the shell reads back every command that has a notation: the parser turns
    the text of a command, with parentheses where a list, a pipe or a
    background command stands inside a tighter construct, into exactly that
    command, with its words, redirections and modes. *)
Theorem parse_print_roundtrip (c : cmd (list Z)) (Hc : wf_cmd c) :
  parsecmd word_text (print_cmd c) = Ret (c, []).
Proof. rewrite <- (app_nil_r (print_cmd c)). by apply parsecmd_line. Qed.

(** The line [ls < a | (wc; x &) >> b]. *)
Definition sample : cmd (list Z) :=
  Pipe (Redir (Exec [[108; 115]]) [97] O_RDONLY 0)
       (Redir (List (Exec [[119; 99]]) (Back (Exec [[120]]))) [98] (Z.lor O_WRONLY O_CREATE) 1).

Lemma parse_print_roundtrip_witness : parsecmd word_text (print_cmd sample) = Ret (sample, []).
Proof.
  apply (parse_print_roundtrip sample). apply (bool_decide_unpack _). vm_compute. exact I.
Defined.

(** The line [cat < in | wc >> out &]. *)
Definition sample_line : list Z := [99; 97; 116; 32; 60; 32; 105; 110; 32; 124; 32; 119; 99; 32; 62; 62; 32; 111; 117; 116; 32; 38].
Lemma parse_wellformed_witness : exists c, parsecmd word_text sample_line = Ret (c, []) /\ wf_cmd c.
Proof.
  assert (0 ∉ sample_line) as H0 by (apply (bool_decide_unpack _); vm_compute; exact I).
  pose proof (parse_wellformed sample_line H0) as H.
  destruct (parsecmd word_text sample_line) as [[c s']| | |] eqn:E; [|vm_compute in E; discriminate..].
  exists c. destruct H as [-> H]. split; [reflexivity | exact H].
Defined.

Lemma nulterminate_correct_witness :
  let s := [97; 98; 32; 60; 99; 124; 100] in
  let c := Pipe (Redir (Exec [(0, 2)]) (4, 5) O_RDONLY 0) (Exec [(6, 7)]) in
  Forall (fun w => 0 <= fst w < snd w /\ snd w <= Z.of_nat (length s)
    /\ cstring (drop (Z.to_nat (fst w)) (nulterminate c (s ++ [0]))) = take (Z.to_nat (snd w - fst w)) (drop (Z.to_nat (fst w)) s)) (words c).
Proof.
  cbv zeta. apply (nulterminate_correct _ _ []).
  - vm_compute. intros H. repeat (inversion H as [|? ? ? H']; clear H; subst; rename H' into H). 
  - vm_compute. reflexivity.
Defined.
