(* ===== verification/Uart.v ===== *)
(** * The serial port driver (kernel/uart.c)

    The device is a receive queue, a transmit register and the characters
    sent.  After each character the transmit register answers busy to a number
    of reads of the status register; that number is a parameter, so that any
    timing of the device is covered.  The locks are held through each
    operation; a process that has to sleep ends its section. *)

From S2P Require Import Prelude Ring.

Definition UART_TX_BUF_SIZE : Z := 32.

Record uart := mkUart {
  uart_tx_buf : list Z;
  uart_tx_w : Z;        (* uint64: write next to uart_tx_buf[w % 32] *)
  uart_tx_r : Z;        (* uint64: read next from uart_tx_buf[r % 32] *)
  panicked : bool;
  tx_busy : nat;        (* how often LSR will still answer that THR is full *)
  sent : list Z;        (* written to THR, in order *)
  rx : list Z;          (* received, not yet read from RHR *)
  tx_woken : bool       (* wakeup(&uart_tx_r) was called *)
}.

(** The end of a section: returned, or asleep. *)
Inductive fin := Done | Asleep.

Section Uart.
  (** After the [k]-th character THR is full for this many reads of LSR. *)
  Context (delay : nat -> nat).

(** [ReadReg(LSR) & LSR_TX_IDLE] *)
Definition lsr_tx_idle : M uart bool :=
  u <- get ;;
  match tx_busy u with
  | O => ret true
  | S b =>
      put (mkUart (uart_tx_buf u) (uart_tx_w u) (uart_tx_r u) (panicked u) b (sent u) (rx u) (tx_woken u)) ;;;
      ret false
  end.

(** [WriteReg(THR, c)] *)
Definition write_thr (c : Z) : M uart unit :=
  modify (fun u => mkUart (uart_tx_buf u) (uart_tx_w u) (uart_tx_r u) (panicked u) (delay (length (sent u))) (sent u ++ [u8 c]) (rx u) (tx_woken u)).

Definition uartputc_sync (c : Z) : M uart unit :=
  u <- get ;;
  if panicked u then diverge
  else
    loop (S (tx_busy u)) (fun _ : unit => b <- lsr_tx_idle ;; ret (if (b : bool) then inr tt else inl tt)) tt ;;;
    write_thr c.

(** [int c = uart_tx_buf[uart_tx_r % UART_TX_BUF_SIZE]; uart_tx_r += 1;
    wakeup(&uart_tx_r);] *)
Definition tx_take : M uart Z :=
  u <- get ;;
  c <- from_option "uart_tx_buf" (aget (uart_tx_buf u) (uart_tx_r u mod UART_TX_BUF_SIZE)) ;;
  put (mkUart (uart_tx_buf u) (uart_tx_w u) (u64 (uart_tx_r u + 1)) (panicked u) (tx_busy u) (sent u) (rx u) true) ;;;
  ret c.

(** The loop ends: there are at most 32 characters to send. *)
Definition uartstart : M uart unit :=
  loop 33 (fun _ : unit =>
    u <- get ;;
    if uart_tx_w u =? uart_tx_r u then ret (inr tt)
    else
      idle <- lsr_tx_idle ;;
      if negb (idle : bool) then ret (inr tt)
      else
        c <- tx_take ;;
        write_thr c ;;;
        ret (inl tt)) tt.

(** One section of [uartputc]. *)
Definition uartputc (c : Z) : M uart fin :=
  u <- get ;;
  if panicked u then diverge
  else if uart_tx_w u =? u64 (uart_tx_r u + UART_TX_BUF_SIZE) then
    put (mkUart (uart_tx_buf u) (uart_tx_w u) (uart_tx_r u) (panicked u) (tx_busy u) (sent u) (rx u) false) ;;;
    ret Asleep
  else
    buf <- from_option "uart_tx_buf" (aset (uart_tx_buf u) (uart_tx_w u mod UART_TX_BUF_SIZE) (u8 c)) ;;
    put (mkUart buf (u64 (uart_tx_w u + 1)) (uart_tx_r u) (panicked u) (tx_busy u) (sent u) (rx u) (tx_woken u)) ;;;
    uartstart ;;;
    ret Done.

(** [uartgetc]: -1 when nothing is waiting. *)
Definition uartgetc : M uart Z :=
  u <- get ;;
  match rx u with
  | c :: rx' =>
      put (mkUart (uart_tx_buf u) (uart_tx_w u) (uart_tx_r u) (panicked u) (tx_busy u) (sent u) rx' (tx_woken u)) ;;;
      ret c
  | [] => ret (-1)
  end.

End Uart.

(** The state after [uartinit]; the driver's variables start as zero. *)
Definition uartinit (input : list Z) : uart := mkUart (replicate 32 0) 0 0 false 0 [] input false.

(** ** The transmit buffer is a queue *)

(** The characters [q] wait to be sent. *)
Record txq (u : uart) (q : list Z) : Prop := mkTxq {
  txq_ring : ring UART_TX_BUF_SIZE (uart_tx_buf u) (uart_tx_r u) q;
  txq_r : 0 <= uart_tx_r u < 2 ^ 64;
  txq_w : uart_tx_w u = u64 (uart_tx_r u + Z.of_nat (length q));
  txq_bytes : Forall (fun c => 0 <= c < 2 ^ 8) q;
  txq_run : panicked u = false
}.

Lemma txq_init input : txq (uartinit input) [].
Proof. constructor; try done. Qed.

Lemma size_pos : 0 < UART_TX_BUF_SIZE.
Proof. done. Qed.
Lemma size_divides : (UART_TX_BUF_SIZE | 2 ^ 64).
Proof. by exists (2 ^ 59). Qed.
#[local] Hint Resolve size_pos size_divides : kmath.

Lemma txq_empty u q : txq u q -> (uart_tx_w u =? uart_tx_r u) = bool_decide (q = []).
Proof.
  intros [[_ Hl _] Hr Hw _ _]. rewrite Hw. unfold UART_TX_BUF_SIZE, u64 in *. destruct q as [|c q].
  - rewrite bool_decide_true by done. cbn [length]. rewrite Z.add_0_r, Z.mod_small by done. apply Z.eqb_refl.
  - rewrite bool_decide_false by done. apply Z.eqb_neq. cbn [length] in *. change (2 ^ 64) with 18446744073709551616 in *. dlia.
Qed.

Lemma txq_full u q : txq u q -> (uart_tx_w u =? u64 (uart_tx_r u + UART_TX_BUF_SIZE)) = bool_decide (Z.of_nat (length q) = UART_TX_BUF_SIZE).
Proof.
  intros [[_ Hl _] Hr Hw _ _]. rewrite Hw. unfold UART_TX_BUF_SIZE, u64 in *. change (2 ^ 64) with 18446744073709551616 in *.
  case_bool_decide as E; [rewrite E; apply Z.eqb_refl | apply Z.eqb_neq; dlia].
Qed.

Section Thms.
  Context (delay : nat -> nat).

Lemma idle_wp u Q :
  (tx_busy u = O -> Q true u) ->
  (forall b, tx_busy u = S b ->
    Q false (mkUart (uart_tx_buf u) (uart_tx_w u) (uart_tx_r u) (panicked u) b (sent u) (rx u) (tx_woken u))) ->
  wp lsr_tx_idle u Q.
Proof. intros H0 HS. unfold lsr_tx_idle. wp_step. wp_step. destruct (tx_busy u) as [|b]; [wp_step; auto | wp_steps; auto]. Qed.

(** The wait for the transmit register ends. *)
Lemma spin_wp fuel u Q : (tx_busy u < fuel)%nat ->
  Q tt (mkUart (uart_tx_buf u) (uart_tx_w u) (uart_tx_r u) (panicked u) O (sent u) (rx u) (tx_woken u)) ->
  wp (loop fuel (fun _ : unit => b <- lsr_tx_idle ;; ret (if (b : bool) then inr tt else inl tt)) tt) u Q.
Proof.
  revert u. induction fuel as [|fuel IH]; intros u Hf HQ; [lia|]. cbn [loop]. wp_step. wp_step. apply idle_wp.
  - intros E. wp_step. wp_step. destruct u. cbn in *. by subst.
  - intros b E. wp_step. apply IH; [cbn; lia | exact HQ].
Qed.

Lemma uartputc_sync_wp u q c Q : txq u q ->
  (forall u', txq u' q -> sent u' = sent u ++ [u8 c] -> rx u' = rx u -> Q tt u') -> wp (uartputc_sync delay c) u Q.
Proof.
  intros H HQ. unfold uartputc_sync. wp_step. wp_step. rewrite (txq_run _ _ H). wp_step. apply spin_wp; [lia|].
  unfold write_thr. wp_step. apply HQ; [|done..]. by destruct H; constructor.
Qed.

(** What [uartstart] does: it sends a prefix of the queue, and wakes writers
    when it sent anything. *)
Record drained (q : list Z) (u u' : uart) : Prop := mkDrained {
  dr_some : exists k, txq u' (drop k q) /\ sent u' = sent u ++ take k q /\ ((0 < k)%nat -> tx_woken u' = true);
  dr_woken : tx_woken u = true -> tx_woken u' = true;
  dr_rx : rx u' = rx u
}.

Lemma take_wp u c q Q : txq u (c :: q) ->
  (forall u', txq u' q -> sent u' = sent u -> rx u' = rx u -> tx_woken u' = true -> Q c u') -> wp tx_take u Q.
Proof.
  intros [Hr0 Hr Hw Hb Hp] HQ. apply ring_pop in Hr0 as [Hc Hq]. unfold tx_take. wp_step. wp_step. wp_step.
  pose proof (Z.mod_pos_bound (uart_tx_r u) UART_TX_BUF_SIZE size_pos). apply Forall_cons in Hb as [_ Hb].
  eapply wp_from_option; [apply aget_lookup; split; [lia | exact Hc]|]. wp_step. wp_step. wp_step. apply HQ; [|done..].
  constructor; cbn [uart_tx_buf uart_tx_r uart_tx_w panicked]; try done.
  - unfold u64. by apply ring_word; auto with kmath.
  - apply u64_range.
  - rewrite Hw. cbn [length]. unfold u64. rewrite Zplus_mod_idemp_l. f_equal. lia.
Qed.

Lemma uartstart_wp u q Q : txq u q -> (forall u', drained q u u' -> Q tt u') -> wp (uartstart delay) u Q.
Proof.
  unfold uartstart. intros H. assert (length q < 33)%nat as Hf by (pose proof (ring_room _ _ _ _ (txq_ring _ _ H)); unfold UART_TX_BUF_SIZE in *; lia).
  revert u Q H Hf. generalize 33%nat as fuel. intros fuel. revert q. induction fuel as [|fuel IH]; intros q u Q H Hf HQ; [lia|].
  cbn [loop]. wp_step. wp_step. wp_step. rewrite (txq_empty _ _ H). case_bool_decide as E.
  { wp_step. wp_step. apply HQ. subst q. constructor; [|done..]. exists 0%nat. rewrite app_nil_r. split_and!; [done..|lia]. }
  destruct q as [|c q]; [done|]. wp_step. apply idle_wp.
  - intros Hidle. cbn [negb]. wp_step. apply (take_wp u c q); [done|]. intros u1 H1 Hs1 Hr1 Hk1. wp_step. unfold write_thr. wp_step. wp_step.
    pose proof (txq_bytes _ _ H) as Hb. apply Forall_cons in Hb as [Hc _].
    cbn [length] in Hf. apply (IH q); [by destruct H1; constructor | lia|]. intros u2 [(k & Hq & Hs & _) Hwk Hrx]. apply HQ. constructor.
    + exists (S k). cbn [drop take]. cbn [sent] in Hs. rewrite Hs, Hs1, <- app_assoc. cbn [app]. rewrite u8_small by done. split_and!; [done..|]. intros _. by apply Hwk.
    + intros _. by apply Hwk.
    + by rewrite Hrx.
  - intros b Hbusy. cbn [negb]. wp_step. wp_step. apply HQ. constructor; [|done..]. exists 0%nat. rewrite app_nil_r. split_and!; [by destruct H; constructor | done | lia].
Qed.

(** The queue with one more character. *)
Lemma put_txq u q c : txq u q -> Z.of_nat (length q) < UART_TX_BUF_SIZE ->
  exists buf, aset (uart_tx_buf u) (uart_tx_w u mod UART_TX_BUF_SIZE) (u8 c) = Some buf /\
    txq (mkUart buf (u64 (uart_tx_w u + 1)) (uart_tx_r u) (panicked u) (tx_busy u) (sent u) (rx u) (tx_woken u)) (q ++ [u8 c]).
Proof.
  intros [Hr0 Hr Hw Hb Hp] Hl. pose proof (ring_data _ _ _ _ Hr0) as Hd. pose proof (Z.mod_pos_bound (uart_tx_w u) UART_TX_BUF_SIZE size_pos).
  eexists. split; [apply aset_is_Some; rewrite Hd; unfold UART_TX_BUF_SIZE in *; lia|].
  assert (uart_tx_w u mod UART_TX_BUF_SIZE = (uart_tx_r u + Z.of_nat (length q)) mod UART_TX_BUF_SIZE) as ->.
  { rewrite Hw. unfold u64. apply mod_word; auto with kmath. }
  constructor; cbn [uart_tx_buf uart_tx_r uart_tx_w panicked]; try done.
  - by apply ring_push.
  - rewrite Hw, length_app. cbn [length]. unfold u64. rewrite Zplus_mod_idemp_l. f_equal. lia.
  - apply Forall_app. split; [done|]. constructor; [apply u8_range | done].
Qed.

(** The transmit buffer of the serial port is a queue of at most 32
    characters: [uartputc] goes to sleep, with nothing changed, exactly when
    it is full, and otherwise puts the character at its end and lets the
    device send some of the characters from the front, in order, whatever the
    timing of the device; [uartputc] and [uartstart] always return, nothing is
    lost or sent twice, and sleeping writers are woken when there is room
    again. *)
Theorem uart_queue (u : uart) (q : list Z) (c : Z) (H : txq u q) :
  exists f u1 u2, uartputc delay c u = Ret (f, u1) /\ uartstart delay u = Ret (tt, u2) /\ drained q u u2
    /\ match f with
       | Asleep => Z.of_nat (length q) = UART_TX_BUF_SIZE /\ txq u1 q /\ sent u1 = sent u
       | Done => Z.of_nat (length q) < UART_TX_BUF_SIZE /\ drained (q ++ [u8 c]) u u1
       end.
Proof.
  destruct (uartstart_wp u q (fun _ u2 => drained q u u2) H) as ([] & u2 & E2 & D2); [done|].
  cut (wp (uartputc delay c) u (fun f u1 => match f with
    | Asleep => Z.of_nat (length q) = UART_TX_BUF_SIZE /\ txq u1 q /\ sent u1 = sent u
    | Done => Z.of_nat (length q) < UART_TX_BUF_SIZE /\ drained (q ++ [u8 c]) u u1 end)).
  { intros (f & u1 & E1 & HQ). by exists f, u1, u2. }
  pose proof (ring_room _ _ _ _ (txq_ring _ _ H)) as Hroom.
  unfold uartputc. wp_step. wp_step. rewrite (txq_run _ _ H), (txq_full _ _ H). case_bool_decide as E.
  - wp_steps. split_and!; [done | | done]. pose proof (txq_run _ _ H) as Hp. destruct H. by constructor.
  - destruct (put_txq u q c H) as (buf & Eb & Hq); [lia|]. wp_step. eapply wp_from_option; [exact Eb|]. wp_step. wp_step. wp_step.
    apply (uartstart_wp _ (q ++ [u8 c])); [rewrite <- (txq_run _ _ H); exact Hq|]. intros u1 [Hs Hk Hrx]. wp_step. split; [lia|]. constructor; done.
Qed.

End Thms.

(** The first character goes to the device at once; of the next ones, the
    device being slow, some wait. *)
Lemma uart_queue_witness : exists f u1 u2, uartputc (fun _ => 5%nat) 65 (uartinit []) = Ret (f, u1)
  /\ uartstart (fun _ => 5%nat) (uartinit []) = Ret (tt, u2) /\ drained [] (uartinit []) u2
  /\ match f with
     | Asleep => Z.of_nat (length (@nil Z)) = UART_TX_BUF_SIZE /\ txq u1 [] /\ sent u1 = sent (uartinit [])
     | Done => Z.of_nat (length (@nil Z)) < UART_TX_BUF_SIZE /\ drained ([] ++ [u8 65]) (uartinit []) u1
     end.
Proof. apply (uart_queue (fun _ => 5%nat) (uartinit []) [] 65). apply txq_init. Defined.
