(* ===== verification/Console.v ===== *)
(** * The console (kernel/console.c, and uartintr of kernel/uart.c)

    Input characters are edited in the part of a ring buffer between [w] and
    [e] and become readable, between [r] and [w], when a line is complete.
    [cons.lock] is held through each section; [consoleread] and [consolewrite]
    end a section with a return or asleep.  Which user addresses can be
    accessed, and what [procdump] prints, are parameters. *)

From S2P Require Import Prelude Ring Uart.

Definition BACKSPACE : Z := 0x100.
(** [C(x)]: the control character. *)
Definition CTRL (x : Z) : Z := x - 64.
Definition INPUT_BUF_SIZE : Z := 128.

Record cons := mkCons {
  cbuf : list Z;
  cr : Z;              (* uint r: read index *)
  cw : Z;              (* uint w: write index *)
  ce : Z;              (* uint e: edit index *)
  port : uart;
  cwoken : bool        (* wakeup(&cons.r) was called *)
}.

Definition set_port (u : uart) (s : cons) : cons := mkCons (cbuf s) (cr s) (cw s) (ce s) u (cwoken s).
Definition set_cr (r : Z) (s : cons) : cons := mkCons (cbuf s) r (cw s) (ce s) (port s) (cwoken s).
Definition set_ce (e : Z) (s : cons) : cons := mkCons (cbuf s) (cr s) (cw s) e (port s) (cwoken s).
Definition on_port {A} (m : M uart A) : M cons A := zoom port set_port m.

(** The end of a section of [consoleread]: the value returned, or asleep with
    [n] bytes to go at [dst]; of [consolewrite]: asleep at byte [n]. *)
Inductive cfin := CRet (v : Z) | CSleep (n dst : Z).

Section Console.
  Context (delay : nat -> nat) (procdump : list Z).
  Context (copyin : Z -> option Z) (copyout : Z -> bool).

Definition consputc (c : Z) : M cons unit :=
  if c =? BACKSPACE then
    on_port (uartputc_sync delay 8) ;;;
    on_port (uartputc_sync delay 32) ;;;
    on_port (uartputc_sync delay 8)
  else on_port (uartputc_sync delay c).

Fixpoint putcs (l : list Z) : M cons unit :=
  match l with [] => ret tt | c :: l' => consputc c ;;; putcs l' end.

(** The loop of control-U. *)
Definition kill_line : M cons unit :=
  s <- get ;;
  loop (S (Z.to_nat (u32 (ce s - cw s)))) (fun _ : unit =>
    s <- get ;;
    if ce s =? cw s then ret (inr tt)
    else
      c <- from_option "cons.buf" (aget (cbuf s) (u32 (ce s - 1) mod INPUT_BUF_SIZE)) ;;
      if c =? 10 then ret (inr tt)
      else
        modify (set_ce (u32 (ce s - 1))) ;;;
        consputc BACKSPACE ;;;
        ret (inl tt)) tt.

Definition consoleintr (c : Z) : M cons unit :=
  if c =? CTRL 80 then putcs procdump
  else if c =? CTRL 85 then kill_line
  else if (c =? CTRL 72) || (c =? 127) then
    s <- get ;;
    when (negb (ce s =? cw s)) (modify (set_ce (u32 (ce s - 1))) ;;; consputc BACKSPACE)
  else
    s <- get ;;
    when (negb (c =? 0) && (u32 (ce s - cr s) <? INPUT_BUF_SIZE))
      (let c := if c =? 13 then 10 else c in
       consputc c ;;;
       s <- get ;;
       b <- from_option "cons.buf" (aset (cbuf s) (ce s mod INPUT_BUF_SIZE) c) ;;
       put (mkCons b (cr s) (cw s) (u32 (ce s + 1)) (port s) (cwoken s)) ;;;
       s <- get ;;
       when ((c =? 10) || (c =? CTRL 68) || (u32 (ce s - cr s) =? INPUT_BUF_SIZE))
         (modify (fun s => mkCons (cbuf s) (cr s) (ce s) (ce s) (port s) true))).

(** One turn of the loop of [consoleread]. *)
Definition consoleread_turn (killed : bool) (target : Z) (v : Z * Z * list Z) : M cons ((Z * Z * list Z) + (cfin * list Z)) :=
    let '(n, dst, out) := v in
    if negb (0 <? n) then ret (inr (CRet (target - n), out))
    else
      s <- get ;;
      if cr s =? cw s then
        ret (inr (if killed then CRet (-1) else CSleep n dst, out))
      else
        c <- from_option "cons.buf" (aget (cbuf s) (cr s mod INPUT_BUF_SIZE)) ;;
        modify (set_cr (u32 (cr s + 1))) ;;;
        if c =? CTRL 68 then
          when (n <? target) (modify (fun s => set_cr (u32 (cr s - 1)) s)) ;;;
          ret (inr (CRet (target - n), out))
        else if negb (copyout dst) then ret (inr (CRet (target - n), out))
        else if c =? 10 then ret (inr (CRet (target - (n - 1)), out ++ [c]))
        else ret (inl (n - 1, dst + 1, out ++ [c])).

(** A section of [consoleread]: called with [n] = [target], or resumed.  It
    also gives the bytes stored. *)
Definition consoleread (killed : bool) (target n dst : Z) : M cons (cfin * list Z) :=
  loop (S (Z.to_nat n)) (consoleread_turn killed target) (n, dst, []).

(** A section of [consolewrite], from byte [i] on. *)
Definition consolewrite (src n i : Z) : M cons cfin :=
  loop (S (Z.to_nat (n - i))) (fun i =>
    if negb (i <? n) then ret (inr (CRet i))
    else
      match copyin (src + i) with
      | None => ret (inr (CRet i))
      | Some c =>
          f <- on_port (uartputc delay c) ;;
          match f with
          | Asleep => ret (inr (CSleep i 0))
          | Done => ret (inl (i + 1))
          end
      end) i.

(** [uartintr]: the characters that have arrived, then the transmit buffer. *)
Definition uartintr : M cons unit :=
  s <- get ;;
  loop (S (length (rx (port s)))) (fun _ : unit =>
    c <- on_port uartgetc ;;
    if c =? -1 then ret (inr tt)
    else consoleintr c ;;; ret (inl tt)) tt ;;;
  on_port (uartstart delay).

End Console.

(** [consoleinit]: the variables start as zero. *)
Definition consoleinit (input : list Z) : cons := mkCons (replicate 128 0) 0 0 0 (uartinit input) false.

(** ** The line discipline

    What a typist sees: the complete lines that are ready to be read, and the
    line being edited. *)

Record tty := mkTty { ready : list Z; edit : list Z }.

Definition crlf (c : Z) : Z := if c =? 13 then 10 else c.
(** The line is complete: a newline, an end of file, or no room left. *)
Definition complete (l : tty) (c : Z) : bool :=
  (c =? 10) || (c =? CTRL 68) || (Z.of_nat (length (ready l) + length (edit l)) + 1 =? INPUT_BUF_SIZE).

Definition typed (l : tty) (c : Z) : tty :=
  if c =? CTRL 80 then l
  else if c =? CTRL 85 then mkTty (ready l) []
  else if (c =? CTRL 72) || (c =? 127) then mkTty (ready l) (removelast (edit l))
  else if negb (c =? 0) && (Z.of_nat (length (ready l) + length (edit l)) <? INPUT_BUF_SIZE) then
    if complete l (crlf c) then mkTty (ready l ++ edit l ++ [crlf c]) []
    else mkTty (ready l) (edit l ++ [crlf c])
  else l.

(** What rubs out one character on the screen. *)
Definition rubout : list Z := [8; 32; 8].

Definition echo (procdump : list Z) (l : tty) (c : Z) : list Z :=
  if c =? CTRL 80 then procdump
  else if c =? CTRL 85 then mjoin ((fun _ => rubout) <$> edit l)
  else if (c =? CTRL 72) || (c =? 127) then match edit l with [] => [] | _ => rubout end
  else if negb (c =? 0) && (Z.of_nat (length (ready l) + length (edit l)) <? INPUT_BUF_SIZE) then [crlf c]
  else [].

(** The ring buffer holds the lines. *)
Record shows (s : cons) (l : tty) (q : list Z) : Prop := mkShows {
  sh_ring : ring INPUT_BUF_SIZE (cbuf s) (cr s) (ready l ++ edit l);
  sh_r : 0 <= cr s < 2 ^ 32;
  sh_w : cw s = u32 (cr s + Z.of_nat (length (ready l)));
  sh_e : ce s = u32 (cr s + Z.of_nat (length (ready l ++ edit l)));
  sh_line : 10 ∉ edit l;
  sh_room : edit l <> [] -> Z.of_nat (length (ready l ++ edit l)) < INPUT_BUF_SIZE;
  sh_port : txq (port s) q
}.

Lemma shows_init input : shows (consoleinit input) (mkTty [] []) [].
Proof. constructor; try done. set_solver. Qed.

(** ** Positions *)

Lemma bufsize_pos : 0 < INPUT_BUF_SIZE.
Proof. done. Qed.
Lemma bufsize_divides : (INPUT_BUF_SIZE | 2 ^ 32).
Proof. by exists (2 ^ 25). Qed.
#[local] Hint Resolve bufsize_pos bufsize_divides : kmath.

Ltac words := unfold INPUT_BUF_SIZE, u32 in *; change (2 ^ 32) with 4294967296 in *.

Section Shows.
  Context {s : cons} {l : tty} {q : list Z} (H : shows s l q).

Notation nr := (Z.of_nat (length (ready l))).
Notation ne := (Z.of_nat (length (edit l))).

Lemma shows_lengths : nr + ne <= INPUT_BUF_SIZE.
Proof. pose proof (ring_room _ _ _ _ (sh_ring _ _ _ H)) as Hr. rewrite length_app in Hr. lia. Qed.
Lemma shows_e : ce s = u32 (cr s + nr + ne).
Proof. rewrite (sh_e _ _ _ H), length_app. f_equal. lia. Qed.
Lemma shows_used : u32 (ce s - cr s) = nr + ne.
Proof. rewrite shows_e. pose proof shows_lengths. pose proof (sh_r _ _ _ H). words. dlia. Qed.
Lemma shows_edited : u32 (ce s - cw s) = ne.
Proof. rewrite shows_e, (sh_w _ _ _ H). pose proof shows_lengths. pose proof (sh_r _ _ _ H). words. dlia. Qed.
Lemma shows_no_edit : (ce s =? cw s) = bool_decide (edit l = []).
Proof.
  rewrite shows_e, (sh_w _ _ _ H). pose proof shows_lengths. pose proof (sh_r _ _ _ H). case_bool_decide as E.
  - rewrite E. cbn [length]. rewrite Z.add_0_r. apply Z.eqb_refl.
  - apply Z.eqb_neq. assert (0 < ne) by (destruct (edit l); [done | cbn; lia]). words. dlia.
Qed.
Lemma shows_no_ready : (cr s =? cw s) = bool_decide (ready l = []).
Proof.
  rewrite (sh_w _ _ _ H). pose proof shows_lengths. pose proof (sh_r _ _ _ H). case_bool_decide as E.
  - rewrite E. cbn [length]. words. apply Z.eqb_eq. dlia.
  - apply Z.eqb_neq. assert (0 < nr) by (destruct (ready l); [done | cbn; lia]). words. dlia.
Qed.

Lemma shows_port u : txq u q -> shows (set_port u s) l q.
Proof. intros Hu. by destruct H; constructor. Qed.

(** The last character of the line being edited, and the line without it. *)
Lemma shows_erase ed c : edit l = ed ++ [c] ->
  aget (cbuf s) (u32 (ce s - 1) mod INPUT_BUF_SIZE) = Some c /\ shows (set_ce (u32 (ce s - 1)) s) (mkTty (ready l) ed) q.
Proof.
  intros E. destruct H as [Hr Hr0 Hw He Hl Hroom Hp]. rewrite E, app_assoc in *.
  assert (u32 (ce s - 1) = u32 (cr s + Z.of_nat (length (ready l ++ ed)))) as Ee.
  { rewrite He, (length_app _ [c]). cbn [length]. words. dlia. }
  apply ring_unpush in Hr as [Hc Hr]. split.
  - apply aget_lookup. rewrite Ee. unfold u32. rewrite mod_word by auto with kmath. split; [apply Z.mod_pos_bound; done | done].
  - constructor; cbn [set_ce cbuf cr cw ce port ready edit]; try done.
    + intros Hin. apply Hl. set_solver.
    + intros _. rewrite (length_app _ [c]) in Hroom. cbn [length] in Hroom. specialize (Hroom ltac:(by destruct ed)). lia.
Qed.

(** A character typed at the end of the line. *)
Lemma shows_type c : nr + ne < INPUT_BUF_SIZE ->
  exists b, aset (cbuf s) (ce s mod INPUT_BUF_SIZE) c = Some b /\
    (forall k, c <> 10 -> nr + ne + 1 < INPUT_BUF_SIZE -> shows (mkCons b (cr s) (cw s) (u32 (ce s + 1)) (port s) k) (mkTty (ready l) (edit l ++ [c])) q) /\
    (forall k, shows (mkCons b (cr s) (u32 (ce s + 1)) (u32 (ce s + 1)) (port s) k) (mkTty (ready l ++ edit l ++ [c]) []) q) /\
    u32 (u32 (ce s + 1) - cr s) = nr + ne + 1.
Proof.
  intros Hlt. pose proof shows_e as Ee. destruct H as [Hr Hr0 Hw He Hl Hroom Hp]. pose proof (ring_data _ _ _ _ Hr) as Hd.
  pose proof (Z.mod_pos_bound (ce s) INPUT_BUF_SIZE bufsize_pos).
  exists (<[Z.to_nat (ce s mod INPUT_BUF_SIZE) := c]> (cbuf s)). split; [apply aset_is_Some; words; lia|].
  assert (ce s mod INPUT_BUF_SIZE = (cr s + Z.of_nat (length (ready l ++ edit l))) mod INPUT_BUF_SIZE) as ->.
  { rewrite He. unfold u32. apply mod_word; auto with kmath. }
  assert (u32 (ce s + 1) = u32 (cr s + Z.of_nat (length ((ready l ++ edit l) ++ [c])))) as E1.
  { rewrite He, (length_app _ [c]). cbn [length]. unfold u32. rewrite Zplus_mod_idemp_l. f_equal. lia. }
  pose proof (ring_push bufsize_pos _ _ _ c Hr ltac:(rewrite length_app; lia)) as Hpush. split; [|split].
  - intros k Hc Hk. constructor; cbn [cbuf cr cw ce port ready edit]; rewrite ?app_assoc; try done.
    + set_solver.
    + intros _. rewrite !length_app. cbn [length]. lia.
  - intros k. constructor; cbn [cbuf cr cw ce port ready edit]; rewrite ?app_nil_r, ?app_assoc; try done. set_solver.
  - rewrite E1, !length_app. cbn [length]. words. dlia.
Qed.

End Shows.

Section Thms.
  Context (delay : nat -> nat) (procdump : list Z).
  Context (Hdump : Forall (fun c => 0 <= c < 2 ^ 8) procdump).

(** The characters [cs] went to the screen, and nothing else happened. *)
Definition echoes (q cs : list Z) (s s' : cons) : Prop :=
  exists u, s' = set_port u s /\ txq u q /\ sent u = sent (port s) ++ cs /\ rx u = rx (port s).

Lemma sync_wp s q c Q : txq (port s) q -> (forall s', echoes q [u8 c] s s' -> Q tt s') -> wp (on_port (uartputc_sync delay c)) s Q.
Proof. intros H HQ. unfold on_port. wp_step. apply (uartputc_sync_wp delay _ q); [done|]. intros u Hu Hs Hr. apply HQ. by exists u. Qed.

Lemma echoes_trans q c1 c2 s s1 s2 : echoes q c1 s s1 -> echoes q c2 s1 s2 -> echoes q (c1 ++ c2) s s2.
Proof.
  intros (u1 & -> & H1 & E1 & R1) (u2 & -> & H2 & E2 & R2). exists u2. cbn in *. split_and!; [done | done | | congruence]. by rewrite E2, E1, app_assoc.
Qed.
Lemma echoes_txq q cs s s' : echoes q cs s s' -> txq (port s') q.
Proof. by intros (u & -> & Hu & _). Qed.
Lemma echoes_shows q cs l s s' : shows s l q -> echoes q cs s s' -> shows s' l q.
Proof. intros H (u & -> & Hu & _). by apply shows_port. Qed.

Lemma putc_wp s q c Q : txq (port s) q -> 0 <= c < 2 ^ 8 -> (forall s', echoes q [c] s s' -> Q tt s') -> wp (consputc delay c) s Q.
Proof.
  intros H Hc HQ. unfold consputc, BACKSPACE. replace (c =? 256) with false by (symmetry; apply Z.eqb_neq; lia).
  apply (sync_wp s q); [done|]. by rewrite u8_small by done.
Qed.
Lemma rubout_wp s q Q : txq (port s) q -> (forall s', echoes q rubout s s' -> Q tt s') -> wp (consputc delay BACKSPACE) s Q.
Proof.
  intros H HQ. unfold consputc. rewrite Z.eqb_refl. wp_step. apply (sync_wp s q); [done|]. intros s1 E1. wp_step.
  apply (sync_wp s1 q); [by eapply echoes_txq|]. intros s2 E2. apply (sync_wp s2 q); [by eapply echoes_txq|]. intros s3 E3.
  apply HQ. exact (echoes_trans _ [8] [32; 8] _ _ _ E1 (echoes_trans _ [32] [8] _ _ _ E2 E3)).
Qed.
Lemma putcs_wp cs : forall s q Q, txq (port s) q -> Forall (fun c => 0 <= c < 2 ^ 8) cs -> (forall s', echoes q cs s s' -> Q tt s') -> wp (putcs delay cs) s Q.
Proof.
  induction cs as [|c cs IH]; intros s q Q H Hb HQ; cbn [putcs].
  - wp_step. apply HQ. exists (port s). split_and!; [by destruct s | done | by rewrite app_nil_r | done].
  - apply Forall_cons in Hb as [Hc Hb]. wp_step. apply (putc_wp s q); [done | done|]. intros s1 E1.
    apply (IH s1 q); [by eapply echoes_txq | done|]. intros s2 E2. apply HQ. exact (echoes_trans _ [c] cs _ _ _ E1 E2).
Qed.

(** The state shows the lines [l], the characters [cs] having been echoed; a
    reader is woken when there is more to read. *)
Record becomes (l' : tty) (q cs : list Z) (s s' : cons) : Prop := mkBecomes {
  be_shows : shows s' l' q;
  be_sent : sent (port s') = sent (port s) ++ cs;
  be_rx : rx (port s') = rx (port s);
  be_woken : cwoken s = true -> cwoken s' = true
}.

Lemma echoes_becomes l q cs s s' : shows s l q -> echoes q cs s s' -> becomes l q cs s s'.
Proof. intros H E. pose proof (echoes_shows _ _ _ _ _ H E). destruct E as (u & -> & Hu & Es & Er). by constructor. Qed.

(** Erase one character. *)
Lemma erase_wp s l q ed c Q : shows s l q -> edit l = ed ++ [c] ->
  (forall s', becomes (mkTty (ready l) ed) q rubout s s' -> Q tt s') ->
  wp (modify (set_ce (u32 (ce s - 1))) ;;; consputc delay BACKSPACE) s Q.
Proof.
  intros H E HQ. destruct (shows_erase H ed c E) as [_ H1]. wp_step. wp_step. apply (rubout_wp _ q); [apply H1|]. intros s' Es. apply HQ.
  destruct (echoes_becomes _ _ _ _ _ H1 Es) as [? ? ? ?]. by constructor.
Qed.

Lemma kill_wp s l q Q : shows s l q ->
  (forall s', becomes (mkTty (ready l) []) q (mjoin ((fun _ => rubout) <$> edit l)) s s' -> Q tt s') -> wp (kill_line delay) s Q.
Proof.
  intros H. unfold kill_line. intros HQ. wp_step. wp_step. rewrite (shows_edited H), Nat2Z.id.
  destruct l as [rd ed]. cbn [ready edit] in *. remember (S (length ed)) as fuel eqn:Ef. assert (length ed < fuel)%nat as Hf by lia. clear Ef.
  revert ed s Q H HQ Hf. induction fuel as [|fuel IH]; intros ed s Q H HQ Hf; [lia|]. cbn [loop]. wp_step. wp_step. wp_step.
  rewrite (shows_no_edit H). case_bool_decide as E; cbn [edit] in E.
  - subst ed. wp_step. wp_step. apply HQ. constructor; [done | by rewrite app_nil_r | done | done].
  - destruct (exists_last E) as (ed' & c & ->). destruct (shows_erase H ed' c eq_refl) as [Hc _]. wp_step. eapply wp_from_option; [exact Hc|].
    assert (c <> 10) as Hne by (intros ->; apply (sh_line _ _ _ H); set_solver). apply Z.eqb_neq in Hne. rewrite Hne.
    wp_step. wp_step. wp_step. destruct (shows_erase H ed' c eq_refl) as [_ H1]. apply (rubout_wp _ q); [apply H1|]. intros s1 Es.
    destruct (echoes_becomes _ _ _ _ _ H1 Es) as [B1 B2 B3 B4]. cbn [ready edit set_ce port cwoken] in *. wp_step.
    rewrite length_app in Hf. cbn [length] in Hf. apply (IH ed'); [exact B1 | | lia]. intros s2 [C1 C2 C3 C4]. apply HQ. cbn [ready edit] in *.
    constructor; [done | | by rewrite C3 | auto]. rewrite C2, B2, fmap_app, <- app_assoc. f_equal.
    clear. induction ed' as [|x ed IH]; [done|]. cbn [fmap list_fmap app] in *. change (mjoin (rubout :: ?z)) with (rubout ++ mjoin z). rewrite <- IH, !app_assoc. f_equal.
Qed.

Lemma consoleintr_wp s l q c Q : shows s l q -> 0 <= c < 2 ^ 8 ->
  (forall s', becomes (typed l c) q (echo procdump l c) s s' -> (ready (typed l c) <> ready l -> cwoken s' = true) -> Q tt s') ->
  wp (consoleintr delay procdump c) s Q.
Proof.
  intros H Hc HQ. unfold consoleintr, typed, echo in *. destruct (c =? CTRL 80) eqn:E1.
  { apply (putcs_wp procdump s q); [apply H | done|]. intros s' Es. apply HQ; [by apply echoes_becomes | done]. }
  destruct (c =? CTRL 85) eqn:E2; [apply (kill_wp s l q); [done|]; intros s' B; by apply HQ|].
  destruct ((c =? CTRL 72) || (c =? 127)) eqn:E3.
  { wp_step. wp_step. rewrite (shows_no_edit H). case_bool_decide as Ee; cbn [negb when].
    - wp_step. rewrite Ee in HQ. apply HQ; [|done]. constructor; [|by rewrite app_nil_r | done | done]. cbn [removelast]. rewrite <- Ee. by destruct l.
    - destruct (exists_last Ee) as (ed & d & Ed). apply (erase_wp s l q ed d); [done | done|]. intros s' B. apply HQ; [|done].
      rewrite Ed, removelast_last. by destruct ed. }
  wp_step. wp_step. rewrite (shows_used H), <- Nat2Z.inj_add.
  destruct (negb (c =? 0) && (Z.of_nat (length (ready l) + length (edit l)) <? INPUT_BUF_SIZE)) eqn:E4; cbn [when].
  2:{ wp_step. apply HQ; [|done]. constructor; [done | by rewrite app_nil_r | done | done]. }
  change (if c =? 13 then 10 else c) with (crlf c). apply andb_prop in E4 as [_ E4]. apply Z.ltb_lt in E4.
  assert (0 <= crlf c < 2 ^ 8) as Hcr by (unfold crlf; case_if; lia). set (d := crlf c) in *. clearbody d.
  wp_step. apply (putc_wp s q); [apply H | done|]. intros s1 Es. pose proof (echoes_shows _ _ _ _ _ H Es) as H1. destruct Es as (u & -> & Hu & Es & Er).
  wp_step. wp_step. destruct (shows_type H1 d) as (b & Eb & HE & HR & Hlen); [lia|]. wp_step. eapply wp_from_option; [exact Eb|].
  wp_step. wp_step. wp_step. wp_step. cbn [set_port cbuf cr cw ce port cwoken] in *. rewrite Hlen. unfold complete in *. rewrite <- Nat2Z.inj_add.
  destruct ((d =? 10) || (d =? CTRL 68) || (Z.of_nat (length (ready l) + length (edit l)) + 1 =? INPUT_BUF_SIZE)) eqn:E5; cbn [when].
  - wp_step. apply HQ; [|done]. constructor; [apply HR | done | done | done].
  - apply orb_false_iff in E5 as [[E5 _]%orb_false_iff E6]. apply Z.eqb_neq in E5, E6. wp_step. apply HQ; [|done].
    constructor; [apply HE; [done | lia] | done | done | done].
Qed.

(** What was typed, character by character. *)
Fixpoint typing (l : tty) (cs : list Z) : tty * list Z :=
  match cs with
  | [] => (l, [])
  | c :: cs' => let '(l', out) := typing (typed l c) cs' in (l', echo procdump l c ++ out)
  end.

Lemma getc_wp s l q Q : shows s l q ->
  (rx (port s) = [] -> Q (-1) s) ->
  (forall c cs s', rx (port s) = c :: cs -> shows s' l q -> sent (port s') = sent (port s) -> rx (port s') = cs -> cwoken s' = cwoken s -> Q c s') ->
  wp (on_port uartgetc) s Q.
Proof.
  intros H H0 HS. unfold on_port, uartgetc. wp_step. wp_step. wp_step. destruct (rx (port s)) as [|c cs] eqn:E.
  - wp_step. replace (set_port (port s) s) with s by (by destruct s). by apply H0.
  - wp_step. wp_step. wp_step. eapply HS; [done | | done..]. apply shows_port; [done|]. destruct (sh_port _ _ _ H). by constructor.
Qed.

(** All the characters that have arrived are taken in order. *)
Lemma input_wp cs : forall s l q fuel Q, shows s l q -> rx (port s) = cs -> Forall (fun c => 0 <= c < 2 ^ 8) cs -> (length cs < fuel)%nat ->
  (forall s', shows s' (fst (typing l cs)) q -> sent (port s') = sent (port s) ++ snd (typing l cs) -> rx (port s') = [] ->
    (cwoken s = true \/ ready (fst (typing l cs)) <> ready l -> cwoken s' = true) -> Q tt s') ->
  wp (loop fuel (fun _ : unit => c <- on_port uartgetc ;; if c =? -1 then ret (inr tt) else consoleintr delay procdump c ;;; ret (inl tt)) tt) s Q.
Proof.
  induction cs as [|c cs IH]; intros s l q fuel Q H Hrx Hb Hf HQ; (destruct fuel as [|fuel]; [cbn in Hf; lia|]); cbn [loop]; wp_step; wp_step;
    (apply (getc_wp s l q); [done | |]).
  - intros _. cbn beta. rewrite Z.eqb_refl. wp_step. wp_step. apply HQ; [done | by rewrite app_nil_r | done | by intros [?|[]]].
  - intros c cs s1 E. by rewrite Hrx in E.
  - intros E. by rewrite Hrx in E.
  - intros c0 cs0 s1 E H1 Hs1 Hr1 Hk1. rewrite Hrx in E. injection E as <- <-. apply Forall_cons in Hb as [Hc Hb].
    replace (c =? -1) with false by (symmetry; apply Z.eqb_neq; lia). wp_step. apply (consoleintr_wp s1 l q); [done | done|].
    intros s2 [B1 B2 B3 B4] Hw. wp_step. cbn [length] in Hf. apply (IH s2 (typed l c) q); [done | by rewrite B3 | done | lia|].
    cbn [typing] in HQ. destruct (typing (typed l c) cs) as [l' out]. cbn [fst snd] in *. intros s3 C1 C2 C3 C4. apply HQ; [done | | done|].
    + by rewrite C2, B2, Hs1, app_assoc.
    + intros Hor. destruct (decide (ready (typed l c) = ready l)) as [Er|Er]; [|apply C4; left; by apply Hw].
      destruct Hor as [Hk|Hne]; apply C4; [left; apply B4; congruence | right; congruence].
Qed.

Lemma uartintr_wp (s : cons) (l : tty) (q : list Z) : shows s l q -> Forall (fun c => 0 <= c < 2 ^ 8) (rx (port s)) ->
  wp (uartintr delay procdump) s (fun _ s' => exists k, shows s' (fst (typing l (rx (port s)))) (drop k q)
    /\ sent (port s') = sent (port s) ++ snd (typing l (rx (port s))) ++ take k q /\ rx (port s') = []
    /\ (ready (fst (typing l (rx (port s)))) <> ready l -> cwoken s' = true)).
Proof.
  intros H Hrx. unfold uartintr. wp_step. wp_step. wp_step. apply (input_wp (rx (port s)) s l q); [done | done | done | lia|].
  intros s1 H1 Hs1 Hr1 Hk1. unfold on_port. wp_step. apply (uartstart_wp delay _ q); [apply H1|]. intros u [(k & Hq & Hs & _) _ Hr].
  exists k. split_and!.
  - destruct H1. by constructor.
  - cbn [set_port port]. rewrite Hs, Hs1. by rewrite app_assoc.
  - cbn [set_port port]. by rewrite Hr.
  - intros Hne. apply Hk1. by right.
Qed.

(** C21: the interrupt handler of the serial port returns, having put every
    character that arrived through the line discipline: the editing
    characters act on the line being edited, completed lines become readable
    and wake the reader, everything is echoed, characters waiting to be sent
    are sent in order, and the two indices into a ring of 128 bytes never
    confuse one line with another. *)
Theorem console_interrupt (s : cons) (l : tty) (q : list Z) (H : shows s l q)
  (Hrx : Forall (fun c => 0 <= c < 2 ^ 8) (rx (port s))) :
  exists s' k, uartintr delay procdump s = Ret (tt, s')
    /\ shows s' (fst (typing l (rx (port s)))) (drop k q)
    /\ sent (port s') = sent (port s) ++ snd (typing l (rx (port s))) ++ take k q /\ rx (port s') = []
    /\ (ready (fst (typing l (rx (port s)))) <> ready l -> cwoken s' = true).
Proof. destruct (uartintr_wp s l q H Hrx) as ([] & s' & E & k & HQ). by exists s', k. Qed.

End Thms.

(** ** Reading *)

Section Reading.
  Context (copyout : Z -> bool).

(** What a section of [consoleread] takes from the lines [rd] that are ready:
    at most [n] bytes and at most one line.  An end of file is consumed only
    by a read that has nothing else to return. *)
Definition line_read (target n dst : Z) (rd : list Z) (f : cfin) (out rd' : list Z) : Prop :=
  Z.of_nat (length out) <= n /\ CTRL 68 ∉ out /\ (forall o1 o2, out = o1 ++ 10 :: o2 -> o2 = []) /\
  match f with
  | CSleep n' dst' => rd = out /\ rd' = [] /\ 10 ∉ out /\ n' = n - Z.of_nat (length out) /\ 0 < n' /\ dst' = dst + Z.of_nat (length out)
  | CRet v => v = target - n + Z.of_nat (length out) /\
      ((rd = out ++ rd' /\ (Z.of_nat (length out) = n \/ last out = Some 10 \/ (head rd' = Some (CTRL 68) /\ 0 < v)))
       \/ (out = [] /\ rd = CTRL 68 :: rd' /\ v = 0))
  end.

Lemma line_read_cons target n dst c rd f out rd' : c <> CTRL 68 -> c <> 10 -> 0 < n -> n <= target ->
  line_read target (n - 1) (dst + 1) rd f out rd' -> line_read target n dst (c :: rd) f (c :: out) rd'.
Proof.
  intros H4 H10 Hn Hnt (Hl & Hin & Hnl & Hf). unfold line_read. cbn [length]. split_and!; [lia | set_solver | |].
  - intros [|x o1] o2 E; [by injection E|]. injection E as <- E. by eapply Hnl.
  - destruct f as [v|n' dst'].
    + destruct Hf as (-> & Hor). split; [lia|]. left. destruct Hor as [[-> Hor]|(-> & -> & ?)]; [|lia]. split; [done|].
      destruct Hor as [Hor|[Hor|[Hh ?]]]; [left; lia | right; left; by destruct out | right; right; split; [done | lia]].
    + destruct Hf as (-> & -> & Hno & -> & ? & ->). split_and!; [done | done | set_solver | lia | lia | lia].
Qed.

(** The first byte that is ready. *)
Lemma shows_first s c rd ed q : shows s (mkTty (c :: rd) ed) q ->
  aget (cbuf s) (cr s mod INPUT_BUF_SIZE) = Some c /\ shows (set_cr (u32 (cr s + 1)) s) (mkTty rd ed) q.
Proof.
  intros [Hr Hr0 Hw He Hl Hroom Hp]. cbn [ready edit app] in *. apply ring_pop in Hr as [Hc Hr]. split.
  - apply aget_lookup. split; [apply Z.mod_pos_bound; done | done].
  - constructor; cbn [set_cr cbuf cr cw ce port ready edit]; try done.
    + unfold u32. apply ring_word; auto with kmath.
    + apply u32_range.
    + rewrite Hw. cbn [length]. words. dlia.
    + rewrite He. cbn [length]. words. dlia.
    + intros Hne. specialize (Hroom Hne). cbn [length] in Hroom. lia.
Qed.

(** A read of the console, from its start or from where it slept, returns at
    most one line and at most [n] bytes, in the order they were typed; it
    sleeps only when everything that is ready was taken and more is wanted;
    an end of file makes a read return early and is kept for the next read
    unless the read has nothing to return, so that some read returns 0. *)
Theorem console_read (s : cons) (l : tty) (q : list Z) (target n dst : Z) (H : shows s l q)
  (Hn : 0 <= n <= target) (Hok : forall a, dst <= a < dst + n -> copyout a = true) :
  exists f out rd' s', consoleread copyout false target n dst s = Ret ((f, out), s')
    /\ shows s' (mkTty rd' (edit l)) q /\ port s' = port s /\ line_read target n dst (ready l) f out rd'.
Proof.
  cut (forall fuel rd n dst acc s, shows s (mkTty rd (edit l)) q -> 0 <= n <= target -> (Z.to_nat n < fuel)%nat ->
    (forall a, dst <= a < dst + n -> copyout a = true) ->
    wp (loop fuel (consoleread_turn copyout false target) (n, dst, acc)) s (fun r s' => exists f out rd', r = (f, acc ++ out)
      /\ shows s' (mkTty rd' (edit l)) q /\ port s' = port s /\ line_read target n dst rd f out rd')).
  { intros Hg. destruct (Hg (S (Z.to_nat n)) (ready l) n dst [] s) as (r & s' & E & f & out & rd' & -> & HQ); [by destruct l | done | lia | done|].
    exists f, out, rd', s'. done. }
  clear s H Hn Hok n dst. intros fuel. induction fuel as [|fuel IH]; intros rd n dst acc s H Hn Hf Hok; [lia|]. cbn [loop]. wp_step.
  unfold consoleread_turn at 1. destruct (0 <? n) eqn:E0; cbn [negb].
  2:{ apply Z.ltb_ge in E0. wp_step. wp_step. exists (CRet (target - n)), [], rd. rewrite app_nil_r. split_and!; [done..|].
      unfold line_read. cbn [length]. split_and!; [lia | set_solver | by intros [|? ?] | lia | left; split; [done | left; lia]]. }
  apply Z.ltb_lt in E0. wp_step. wp_step. rewrite (shows_no_ready H). cbn [ready]. case_bool_decide as Er.
  { subst rd. wp_step. wp_step. exists (CSleep n dst), [], []. rewrite app_nil_r. split_and!; [done..|].
    unfold line_read. cbn [length]. split_and!; try lia; try done; [set_solver | by intros [|? ?] | set_solver]. }
  destruct rd as [|c rd]; [done|]. destruct (shows_first _ _ _ _ _ H) as [Hc H1]. wp_step. eapply wp_from_option; [exact Hc|]. wp_step. wp_step.
  destruct (c =? CTRL 68) eqn:E4; [apply Z.eqb_eq in E4; subst c | apply Z.eqb_neq in E4].
  { wp_step. destruct (n <? target) eqn:Et; cbn [when]; [apply Z.ltb_lt in Et | apply Z.ltb_ge in Et].
    - wp_step. wp_step. wp_step. exists (CRet (target - n)), [], (CTRL 68 :: rd). rewrite app_nil_r.
      pose proof (sh_r _ _ _ H) as Hr. replace (set_cr _ _) with s by (destruct s; unfold set_cr; cbn in *; f_equal; words; dlia).
      split_and!; [done..|]. unfold line_read. cbn [length app]. split_and!; [lia | set_solver | by intros [|? ?] | lia|].
      left. split; [done|]. right. right. split; [done | lia].
    - wp_step. wp_step. wp_step. exists (CRet (target - n)), [], rd. rewrite app_nil_r. split_and!; [done | done | done|].
      unfold line_read. cbn [length app]. split_and!; [lia | set_solver | by intros [|? ?] | lia | right; split_and!; [done | done | lia]]. }
  rewrite (Hok dst) by lia. cbn [negb]. destruct (c =? 10) eqn:E10; [apply Z.eqb_eq in E10; subst c | apply Z.eqb_neq in E10].
  { wp_step. wp_step. exists (CRet (target - (n - 1))), [10], rd. split_and!; [done | done | done|].
    unfold line_read. cbn [length app]. split_and!; [lia | set_solver | | lia | left; split; [done | right; by left]].
    intros [|x o1] o2 E; [by injection E | by destruct o1]. }
  wp_step. eapply wp_mono; [apply (IH rd (n - 1) (dst + 1) (acc ++ [c])); [done | lia | lia | intros; apply Hok; lia]|].
  intros r s' (f & out & rd' & -> & H' & Hp & Hlr). exists f, (c :: out), rd'. rewrite <- app_assoc. split_and!; [done | done | done|].
  apply line_read_cons; done || lia.
Qed.

End Reading.

(** The line "ab^Hc", a carriage return, and one more character. *)
Definition console_sample : cons := consoleinit [97; 98; 8; 99; 13; 100].

Lemma console_interrupt_witness : exists s' k, uartintr (fun _ => 2%nat) [] console_sample = Ret (tt, s')
  /\ shows s' (mkTty [97; 99; 10] [100]) (drop k [])
  /\ sent (port s') = [] ++ [97; 98; 8; 32; 8; 99; 10; 100] ++ take k [] /\ rx (port s') = []
  /\ ([97; 99; 10] <> [] -> cwoken s' = true).
Proof.
  apply (console_interrupt (fun _ => 2%nat) [] ltac:(constructor) console_sample (mkTty [] []) []); [apply shows_init|].
  repeat constructor; lia.
Defined.

Lemma console_read_witness : exists f out rd' s', consoleread (fun _ => true) false 10 10 0x1000 (consoleinit []) = Ret ((f, out), s')
  /\ shows s' (mkTty rd' []) [] /\ port s' = port (consoleinit []) /\ line_read 10 10 0x1000 [] f out rd'.
Proof.
  apply (console_read (fun _ => true) (consoleinit []) (mkTty [] []) [] 10 10 0x1000); [apply shows_init | lia | reflexivity].
Defined.
