(* ===== verification/Virtio.v ===== *)
(** * The disk driver (kernel/virtio_disk.c, virtio.h)

    The descriptor table, the two rings and the driver's own book-keeping,
    with the operations of the driver on them, and the device as the virtio
    specification describes it: it fetches the heads of chains from the
    available ring in order, serves the requests it has fetched in any order,
    and puts the head of a served chain into the used ring.  An address in a
    descriptor is the object it points to.

    The buffer cache holds the sleep lock of a buffer during a transfer, so
    there is at most one request per buffer, and the processes inside
    [virtio_disk_rw] are told apart by their buffers.  [disk.vdisk_lock] is
    held through each section. *)

From S2P Require Import Prelude Vm.

Definition NUM : Z := 8.
Definition BSIZE : Z := 1024.
Definition VRING_DESC_F_NEXT : Z := 1.
Definition VRING_DESC_F_WRITE : Z := 2.
Definition VIRTIO_BLK_T_IN : Z := 0.
Definition VIRTIO_BLK_T_OUT : Z := 1.

(** What a descriptor points to: [disk.ops[i]], [b->data], the status byte of
    [disk.info[i]], or nothing. *)
Inductive vaddr := ANull | AOps (i : Z) | AData (b : Z) | AStatus (i : Z).

Record virtq_desc := mkDesc { d_addr : vaddr; d_len : Z; d_flags : Z; d_next : Z }.
Definition desc0 : virtq_desc := mkDesc ANull 0 0 0.

Record virtio_blk_req := mkReq { rq_type : Z; rq_reserved : Z; rq_sector : Z }.

(** [disk.info[i]]: the buffer, or none, and the status byte. *)
Record vinfo := mkInfo { i_b : option Z; i_status : Z }.

(** [struct disk] with the memory it shares with the device. *)
Record vdisk := mkVdisk {
  desc : list virtq_desc;
  avail_ring : list Z;
  avail_idx : Z;            (* uint16 *)
  used_ring : list Z;       (* the ids *)
  used_head : Z;            (* uint16 used->idx, written by the device *)
  dfree : list bool;
  used_idx : Z;             (* uint16 *)
  info : list vinfo;
  ops : list virtio_blk_req
}.

(** What the driver uses of [struct buf]. *)
Record vbuf := mkVbuf { b_blockno : Z; b_disk : bool; b_data : list Z }.

(** The process that transfers a buffer: none; at the test of the descriptors
    or asleep on [&disk.free[0]]; at the test of [b->disk] or asleep on [b],
    with its descriptors. *)
Inductive phase :=
| Idle
| Want (write asleep : bool)
| Wait (write asleep : bool) (i0 i1 i2 : Z).

Record vst := mkVst {
  dk : vdisk;
  bufs : list vbuf;
  procs : list phase;       (* by buffer *)
  dev_last : Z;             (* uint16: the device has fetched this far *)
  dev_work : list Z;        (* heads of the chains it has fetched *)
  dsk : Z -> list Z         (* the disk: BSIZE bytes from a sector on *)
}.

Definition set_dk (f : vdisk -> vdisk) (s : vst) : vst := mkVst (f (dk s)) (bufs s) (procs s) (dev_last s) (dev_work s) (dsk s).
Definition set_bufs (l : list vbuf) (s : vst) : vst := mkVst (dk s) l (procs s) (dev_last s) (dev_work s) (dsk s).
Definition set_procs (l : list phase) (s : vst) : vst := mkVst (dk s) (bufs s) l (dev_last s) (dev_work s) (dsk s).
Definition with_desc (l : list virtq_desc) (d : vdisk) : vdisk :=
  mkVdisk l (avail_ring d) (avail_idx d) (used_ring d) (used_head d) (dfree d) (used_idx d) (info d) (ops d).
Definition with_avail (l : list Z) (i : Z) (d : vdisk) : vdisk :=
  mkVdisk (desc d) l i (used_ring d) (used_head d) (dfree d) (used_idx d) (info d) (ops d).
Definition with_used (l : list Z) (i : Z) (d : vdisk) : vdisk :=
  mkVdisk (desc d) (avail_ring d) (avail_idx d) l i (dfree d) (used_idx d) (info d) (ops d).
Definition with_free (l : list bool) (d : vdisk) : vdisk :=
  mkVdisk (desc d) (avail_ring d) (avail_idx d) (used_ring d) (used_head d) l (used_idx d) (info d) (ops d).
Definition with_used_idx (i : Z) (d : vdisk) : vdisk :=
  mkVdisk (desc d) (avail_ring d) (avail_idx d) (used_ring d) (used_head d) (dfree d) i (info d) (ops d).
Definition with_info (l : list vinfo) (d : vdisk) : vdisk :=
  mkVdisk (desc d) (avail_ring d) (avail_idx d) (used_ring d) (used_head d) (dfree d) (used_idx d) l (ops d).
Definition with_ops (l : list virtio_blk_req) (d : vdisk) : vdisk :=
  mkVdisk (desc d) (avail_ring d) (avail_idx d) (used_ring d) (used_head d) (dfree d) (used_idx d) (info d) l.

(** Reading and writing the arrays. *)
Definition rd {A} (f : vst -> list A) (i : Z) : M vst A := s <- get ;; from_option "index" (aget (f s) i).
Definition wr {A} (f : vst -> list A) (g : list A -> vst -> vst) (i : Z) (v : A) : M vst unit :=
  s <- get ;; l <- from_option "index" (aset (f s) i v) ;; put (g l s).

Definition rd_free : Z -> M vst bool := rd (fun s => dfree (dk s)).
Definition wr_free : Z -> bool -> M vst unit := wr (fun s => dfree (dk s)) (fun l => set_dk (with_free l)).
Definition rd_desc : Z -> M vst virtq_desc := rd (fun s => desc (dk s)).
Definition wr_desc : Z -> virtq_desc -> M vst unit := wr (fun s => desc (dk s)) (fun l => set_dk (with_desc l)).
Definition rd_info : Z -> M vst vinfo := rd (fun s => info (dk s)).
Definition wr_info : Z -> vinfo -> M vst unit := wr (fun s => info (dk s)) (fun l => set_dk (with_info l)).
Definition wr_op : Z -> virtio_blk_req -> M vst unit := wr (fun s => ops (dk s)) (fun l => set_dk (with_ops l)).
Definition rd_buf : Z -> M vst vbuf := rd bufs.
Definition wr_buf : Z -> vbuf -> M vst unit := wr bufs set_bufs.
Definition wr_proc : Z -> phase -> M vst unit := wr procs set_procs.

(** [wakeup(&disk.free[0])] and [wakeup(b)]. *)
Definition wake_want (p : phase) : phase := match p with Want w _ => Want w false | _ => p end.
Definition wake_wait (p : phase) : phase := match p with Wait w _ i0 i1 i2 => Wait w false i0 i1 i2 | _ => p end.
Definition wakeup_free : M vst unit := modify (fun s => set_procs (wake_want <$> procs s) s).
Definition wakeup_buf (b : Z) : M vst unit := modify (fun s => set_procs (alter wake_wait (Z.to_nat b) (procs s)) s).

(** ** Descriptors *)

Fixpoint find_unused (l : list bool) (i : Z) : Z :=
  match l with
  | [] => -1
  | f :: l' => if (f : bool) then i else find_unused l' (i + 1)
  end.

Definition alloc_desc : M vst Z :=
  s <- get ;;
  let i := find_unused (dfree (dk s)) 0 in
  if i <? 0 then ret (-1)
  else wr_free i false ;;; ret i.

Definition free_desc (i : Z) : M vst unit :=
  if i >=? NUM then panic "free_desc 1"
  else
    f <- rd_free i ;;
    if (f : bool) then panic "free_desc 2"
    else
      wr_desc i desc0 ;;;
      wr_free i true ;;;
      wakeup_free.

(** [free_desc] stops a chain that comes back to one of its descriptors, so
    the loop has at most NUM + 1 turns. *)
Definition free_chain (i : Z) : M vst unit :=
  loop 9 (fun i =>
    d <- rd_desc i ;;
    free_desc i ;;;
    if negb (Z.land (d_flags d) VRING_DESC_F_NEXT =? 0) then ret (inl (d_next d)) else ret (inr tt)) i.

(** The three indices, or none. *)
Definition alloc3_desc : M vst (option (Z * Z * Z)) :=
  i0 <- alloc_desc ;;
  if i0 <? 0 then ret None
  else
    i1 <- alloc_desc ;;
    if i1 <? 0 then free_desc i0 ;;; ret None
    else
      i2 <- alloc_desc ;;
      if i2 <? 0 then free_desc i0 ;;; free_desc i1 ;;; ret None
      else ret (Some (i0, i1, i2)).

(** ** Requests *)

(** [sector], of type uint in the multiplication. *)
Definition sector_of (blockno : Z) : Z := u32 (blockno * (BSIZE / 512)).

(** Format the three descriptors. *)
Definition format (b : Z) (write : bool) (i0 i1 i2 : Z) : M vst unit :=
  v <- rd_buf b ;;
  wr_op i0 (mkReq (if write then VIRTIO_BLK_T_OUT else VIRTIO_BLK_T_IN) 0 (sector_of (b_blockno v))) ;;;
  wr_desc i0 (mkDesc (AOps i0) 16 VRING_DESC_F_NEXT i1) ;;;
  wr_desc i1 (mkDesc (AData b) BSIZE (Z.lor (if write then 0 else VRING_DESC_F_WRITE) VRING_DESC_F_NEXT) i2) ;;;
  n <- rd_info i0 ;;
  wr_info i0 (mkInfo (i_b n) 0xff) ;;;
  wr_desc i2 (mkDesc (AStatus i0) 1 VRING_DESC_F_WRITE 0).

(** Hand the chain to the device. *)
Definition submit (b i0 : Z) : M vst unit :=
  v <- rd_buf b ;;
  wr_buf b (mkVbuf (b_blockno v) true (b_data v)) ;;;
  n <- rd_info i0 ;;
  wr_info i0 (mkInfo (Some b) (i_status n)) ;;;
  s <- get ;;
  r <- from_option "avail" (aset (avail_ring (dk s)) (avail_idx (dk s) mod NUM) i0) ;;
  modify (set_dk (with_avail r (u16 (avail_idx (dk s) + 1)))).

(** [virtio_disk_rw] from its start, or from the sleep for descriptors, to its
    first sleep after the request was submitted. *)
Definition rw_start (b : Z) (write : bool) : M vst unit :=
  r <- alloc3_desc ;;
  match r with
  | None => wr_proc b (Want write true)
  | Some (i0, i1, i2) =>
      format b write i0 i1 i2 ;;;
      submit b i0 ;;;
      wr_proc b (Wait write true i0 i1 i2)
  end.

(** [virtio_disk_rw] from the test of [b->disk] on. *)
Definition rw_end (b : Z) (write : bool) (i0 i1 i2 : Z) : M vst unit :=
  v <- rd_buf b ;;
  if b_disk v then wr_proc b (Wait write true i0 i1 i2)
  else
    n <- rd_info i0 ;;
    wr_info i0 (mkInfo None (i_status n)) ;;;
    free_chain i0 ;;;
    wr_proc b Idle.

(** One completed request; [disk.info[id].b] is not checked for null. *)
Definition intr_one : M vst unit :=
  s <- get ;;
  id <- from_option "used" (aget (used_ring (dk s)) (used_idx (dk s) mod NUM)) ;;
  n <- rd_info id ;;
  if negb (i_status n =? 0) then panic "virtio_disk_intr status"
  else
    b <- from_option "null" (i_b n) ;;
    v <- rd_buf b ;;
    wr_buf b (mkVbuf (b_blockno v) false (b_data v)) ;;;
    wakeup_buf b ;;;
    modify (set_dk (with_used_idx (u16 (used_idx (dk s) + 1)))).

(** The loop runs once per entry that the device has added. *)
Definition virtio_disk_intr : M vst unit :=
  s <- get ;;
  loop (S (Z.to_nat (u16 (used_head (dk s) - used_idx (dk s))))) (fun _ : unit =>
    s <- get ;;
    if used_idx (dk s) =? used_head (dk s) then ret (inr tt)
    else intr_one ;;; ret (inl tt)) tt.

(** ** The device *)

(** Fetch the next head from the available ring. *)
Definition dev_fetch : M vst unit :=
  s <- get ;;
  h <- from_option "avail" (aget (avail_ring (dk s)) (dev_last s mod NUM)) ;;
  put (mkVst (dk s) (bufs s) (procs s) (u16 (dev_last s + 1)) (dev_work s ++ [h]) (dsk s)).

(** A request as the device finds it in a chain: the direction, the sector, the
    buffer and the place for the status. *)
Definition dev_request (s : vst) (h : Z) : option (bool * Z * Z * Z) :=
  d0 ← aget (desc (dk s)) h;
  match d_addr d0 with
  | AOps k =>
      rq ← aget (ops (dk s)) k;
      d1 ← aget (desc (dk s)) (d_next d0);
      match d_addr d1 with
      | AData b =>
          d2 ← aget (desc (dk s)) (d_next d1);
          match d_addr d2 with
          | AStatus j =>
              let write := rq_type rq =? VIRTIO_BLK_T_OUT in
              (* the chain has three descriptors, and the device may write
                 the data of a read and the status *)
              if (d_flags d0 =? VRING_DESC_F_NEXT)
                 && (d_flags d1 =? Z.lor (if write then 0 else VRING_DESC_F_WRITE) VRING_DESC_F_NEXT)
                 && (d_flags d2 =? VRING_DESC_F_WRITE) && (d_len d0 =? 16) && (d_len d1 =? BSIZE) && (d_len d2 =? 1)
              then Some (write, rq_sector rq, b, j) else None
          | _ => None
          end
      | _ => None
      end
  | _ => None
  end.

(** Serve a request that was fetched. *)
Definition dev_serve (h : Z) : M vst unit :=
  s <- get ;;
  r <- from_option "bad request" (dev_request s h) ;;
  let '(write, sec, b, j) := r in
  v <- rd_buf b ;;
  (if (write : bool) then
     modify (fun s => mkVst (dk s) (bufs s) (procs s) (dev_last s) (dev_work s) (fun x => if x =? sec then b_data v else dsk s x))
   else wr_buf b (mkVbuf (b_blockno v) (b_disk v) (dsk s sec))) ;;;
  n <- rd_info j ;;
  wr_info j (mkInfo (i_b n) 0) ;;;
  s <- get ;;
  r <- from_option "used" (aset (used_ring (dk s)) (used_head (dk s) mod NUM) h) ;;
  put (mkVst (with_used r (u16 (used_head (dk s) + 1)) (dk s)) (bufs s) (procs s) (dev_last s)
         (filter (fun x => x <> h) (dev_work s)) (dsk s)).


(** ** Initialisation *)

Definition VIRTIO_MMIO_MAGIC_VALUE : Z := 0x000.
Definition VIRTIO_MMIO_VERSION : Z := 0x004.
Definition VIRTIO_MMIO_DEVICE_ID : Z := 0x008.
Definition VIRTIO_MMIO_VENDOR_ID : Z := 0x00c.
Definition VIRTIO_MMIO_DEVICE_FEATURES : Z := 0x010.
Definition VIRTIO_MMIO_DRIVER_FEATURES : Z := 0x020.
Definition VIRTIO_MMIO_QUEUE_SEL : Z := 0x030.
Definition VIRTIO_MMIO_QUEUE_NUM_MAX : Z := 0x034.
Definition VIRTIO_MMIO_QUEUE_NUM : Z := 0x038.
Definition VIRTIO_MMIO_QUEUE_READY : Z := 0x044.
Definition VIRTIO_MMIO_STATUS : Z := 0x070.
Definition VIRTIO_MMIO_QUEUE_DESC_LOW : Z := 0x080.
Definition VIRTIO_MMIO_QUEUE_DESC_HIGH : Z := 0x084.
Definition VIRTIO_MMIO_DRIVER_DESC_LOW : Z := 0x090.
Definition VIRTIO_MMIO_DRIVER_DESC_HIGH : Z := 0x094.
Definition VIRTIO_MMIO_DEVICE_DESC_LOW : Z := 0x0a0.
Definition VIRTIO_MMIO_DEVICE_DESC_HIGH : Z := 0x0a4.

Definition VIRTIO_CONFIG_S_ACKNOWLEDGE : Z := 1.
Definition VIRTIO_CONFIG_S_DRIVER : Z := 2.
Definition VIRTIO_CONFIG_S_DRIVER_OK : Z := 4.
Definition VIRTIO_CONFIG_S_FEATURES_OK : Z := 8.

(** The feature bits that the driver refuses, in the order of the code: RO,
    SCSI, CONFIG_WCE, MQ, ANY_LAYOUT, EVENT_IDX, INDIRECT_DESC. *)
Definition refused : list Z := [5; 7; 11; 12; 27; 29; 28].
Definition negotiate (features : Z) : Z := foldl (fun f bit => Z.land f (u64 (Z.lnot (Z.shiftl 1 bit)))) features refused.

Section Init.
  (** The pages come from any allocator; [mmio log r] is what the device
      answers to a read of register [r] after the writes of [log], the latest
      first. *)
  Context {A : Type} `{PA : PageAllocator A} (mmio : list (Z * Z) -> Z -> Z).

Record vini := mkVini { vi_log : list (Z * Z); vi_al : A; vi_disk : vdisk }.

Definition rd_reg (r : Z) : M vini Z := gets (fun s => u32 (mmio (vi_log s) r)).
Definition wr_reg (r v : Z) : M vini unit := modify (fun s => mkVini ((r, u32 v) :: vi_log s) (vi_al s) (vi_disk s)).
Definition on_disk (f : vdisk -> vdisk) : M vini unit := modify (fun s => mkVini (vi_log s) (vi_al s) (f (vi_disk s))).
Definition vi_kalloc : M vini Z := zoom vi_al (fun a s => mkVini (vi_log s) a (vi_disk s)) pa_alloc.

(** The identification of the device, then the status bits and the features. *)
Definition init_features : M vini Z :=
  magic <- rd_reg VIRTIO_MMIO_MAGIC_VALUE ;;
  version <- rd_reg VIRTIO_MMIO_VERSION ;;
  device <- rd_reg VIRTIO_MMIO_DEVICE_ID ;;
  vendor <- rd_reg VIRTIO_MMIO_VENDOR_ID ;;
  if negb (magic =? 0x74726976) || negb (version =? 2) || negb (device =? 2) || negb (vendor =? 0x554d4551)
  then panic "could not find virtio disk"
  else
    wr_reg VIRTIO_MMIO_STATUS 0 ;;;
    wr_reg VIRTIO_MMIO_STATUS VIRTIO_CONFIG_S_ACKNOWLEDGE ;;;
    let status := Z.lor VIRTIO_CONFIG_S_ACKNOWLEDGE VIRTIO_CONFIG_S_DRIVER in
    wr_reg VIRTIO_MMIO_STATUS status ;;;
    features <- rd_reg VIRTIO_MMIO_DEVICE_FEATURES ;;
    wr_reg VIRTIO_MMIO_DRIVER_FEATURES (negotiate features) ;;;
    wr_reg VIRTIO_MMIO_STATUS (Z.lor status VIRTIO_CONFIG_S_FEATURES_OK) ;;;
    status <- rd_reg VIRTIO_MMIO_STATUS ;;
    if Z.land status VIRTIO_CONFIG_S_FEATURES_OK =? 0 then panic "virtio disk FEATURES_OK unset"
    else ret status.

(** The 64-bit address of a page, in two registers. *)
Definition wr_addr (low high a : Z) : M vini unit := wr_reg low a ;;; wr_reg high (Z.shiftr a 32).

(** [memset] of the three pages sets the tables that they hold. *)
Definition init_queue : M vini unit :=
  wr_reg VIRTIO_MMIO_QUEUE_SEL 0 ;;;
  ready <- rd_reg VIRTIO_MMIO_QUEUE_READY ;;
  if negb (ready =? 0) then panic "virtio disk should not be ready"
  else
    max <- rd_reg VIRTIO_MMIO_QUEUE_NUM_MAX ;;
    if max =? 0 then panic "virtio disk has no queue 0"
    else if max <? NUM then panic "virtio disk max queue too short"
    else
      pd <- vi_kalloc ;;
      pa <- vi_kalloc ;;
      pu <- vi_kalloc ;;
      if (pd =? 0) || (pa =? 0) || (pu =? 0) then panic "virtio disk kalloc"
      else
        on_disk (with_desc (replicate (Z.to_nat NUM) desc0)) ;;;
        on_disk (with_avail (replicate (Z.to_nat NUM) 0) 0) ;;;
        on_disk (with_used (replicate (Z.to_nat NUM) 0) 0) ;;;
        wr_reg VIRTIO_MMIO_QUEUE_NUM NUM ;;;
        wr_addr VIRTIO_MMIO_QUEUE_DESC_LOW VIRTIO_MMIO_QUEUE_DESC_HIGH pd ;;;
        wr_addr VIRTIO_MMIO_DRIVER_DESC_LOW VIRTIO_MMIO_DRIVER_DESC_HIGH pa ;;;
        wr_addr VIRTIO_MMIO_DEVICE_DESC_LOW VIRTIO_MMIO_DEVICE_DESC_HIGH pu ;;;
        wr_reg VIRTIO_MMIO_QUEUE_READY 1 ;;;
        for_range 0 NUM (fun i =>
          s <- get ;;
          l <- from_option "free" (aset (dfree (vi_disk s)) i true) ;;
          on_disk (with_free l)).

Definition virtio_disk_init : M vini unit :=
  status <- init_features ;;
  init_queue ;;;
  wr_reg VIRTIO_MMIO_STATUS (Z.lor status VIRTIO_CONFIG_S_DRIVER_OK).

End Init.

(** The static [disk] before it: zero, and no pages. *)
Definition bss_disk : vdisk :=
  mkVdisk [] [] 0 [] 0 (replicate 8 false) 0 (replicate 8 (mkInfo None 0)) (replicate 8 (mkReq 0 0 0)).
