(* ===== verification/VirtioThms.v ===== *)
(** * The disk driver implements atomic transfers

    Processes, the interrupt handler and the device interleave at their
    sections; the invariant of the descriptors and the rings shows that no
    section ever panics and that what the driver, the rings and the device do
    together is, for each call of [virtio_disk_rw], one transfer between the
    buffer and the disk. *)

From stdpp Require Import relations.
From S2P Require Import Prelude Ring Vm VmThms Virtio.

(** ** The interleavings *)

Inductive step : vst -> vst -> Prop :=
| st_call s b w : procs s !! b = Some Idle -> step s (set_procs (<[b := Want w false]> (procs s)) s)
| st_start s s' b w : procs s !! b = Some (Want w false) -> rw_start (Z.of_nat b) w s = Ret (tt, s') -> step s s'
| st_end s s' b w i0 i1 i2 : procs s !! b = Some (Wait w false i0 i1 i2) -> rw_end (Z.of_nat b) w i0 i1 i2 s = Ret (tt, s') -> step s s'
| st_intr s s' : virtio_disk_intr s = Ret (tt, s') -> step s s'
| st_fetch s s' : dev_last s <> avail_idx (dk s) -> dev_fetch s = Ret (tt, s') -> step s s'
| st_serve s s' h : h ∈ dev_work s -> dev_serve h s = Ret (tt, s') -> step s s'
| st_kill s b : step s (set_procs (alter (fun p => wake_wait (wake_want p)) b (procs s)) s).

(** After [virtio_disk_init]: the pages are zero and all descriptors free. *)
Definition disk0 : vdisk :=
  mkVdisk (replicate 8 desc0) (replicate 8 0) 0 (replicate 8 0) 0 (replicate 8 true) 0 (replicate 8 (mkInfo None 0)) (replicate 8 (mkReq 0 0 0)).
Definition vstart (dk : vdisk) (bs : list vbuf) (d : Z -> list Z) : vst := mkVst dk bs (replicate (length bs) Idle) 0 [] d.

(** ** The abstract disk *)

(** The request for a buffer: none, asked for, or done and not yet returned. *)
Inductive areq := ANone | AAsk (write : bool) | ADone (write : bool).

(** The block number of each buffer, its request, its contents, and the disk. *)
Record ast := mkAst { a_blk : list Z; a_req : list areq; a_data : list (list Z); a_disk : Z -> list Z }.

Inductive astep : ast -> ast -> Prop :=
| a_ask a b w : a_req a !! b = Some ANone -> astep a (mkAst (a_blk a) (<[b := AAsk w]> (a_req a)) (a_data a) (a_disk a))
| a_write a b n d : a_req a !! b = Some (AAsk true) -> a_blk a !! b = Some n -> a_data a !! b = Some d ->
    astep a (mkAst (a_blk a) (<[b := ADone true]> (a_req a)) (a_data a) (fun x => if x =? sector_of n then d else a_disk a x))
| a_read a b n : a_req a !! b = Some (AAsk false) -> a_blk a !! b = Some n ->
    astep a (mkAst (a_blk a) (<[b := ADone false]> (a_req a)) (<[b := a_disk a (sector_of n)]> (a_data a)) (a_disk a))
| a_return a b w : a_req a !! b = Some (ADone w) -> astep a (mkAst (a_blk a) (<[b := ANone]> (a_req a)) (a_data a) (a_disk a)).

(** A request is done when the device has written its status. *)
Definition areq_of (nf : list vinfo) (p : phase) : areq :=
  match p with
  | Idle => ANone
  | Want w _ => AAsk w
  | Wait w _ i0 _ _ =>
      match aget nf i0 with
      | Some n => if i_status n =? 0 then ADone w else AAsk w
      | None => AAsk w
      end
  end.
Definition abs (s : vst) : ast := mkAst (b_blockno <$> bufs s) (areq_of (info (dk s)) <$> procs s) (b_data <$> bufs s) (dsk s).

(** ** The invariant *)

(** The request that a process has submitted: the direction and the
    descriptors. *)
Definition wait_of (p : phase) : option (bool * Z * Z * Z) :=
  match p with Wait w _ i0 i1 i2 => Some (w, i0, i1, i2) | _ => None end.
Definition reqs : Type := nat -> option (bool * Z * Z * Z).
Definition req_of (ps : list phase) : reqs := fun b => ps !! b ≫= wait_of.
Definition rset (r : reqs) (b : nat) (x : option (bool * Z * Z * Z)) : reqs := fun b' => if decide (b' = b) then x else r b'.

Definition owns (r : reqs) (b : nat) (i : Z) : Prop :=
  exists w i0 i1 i2, r b = Some (w, i0, i1, i2) /\ (i = i0 \/ i = i1 \/ i = i2).

Definition nfree (l : list bool) : nat := length (filter (fun f => f = true) l).

(** The chain of a request in memory. *)
Record chain (d : vdisk) (bno : Z) (b : nat) (w : bool) (i0 i1 i2 : Z) : Prop := mkChain {
  ch_ne : i0 <> i1 /\ i0 <> i2 /\ i1 <> i2;
  ch_d0 : aget (desc d) i0 = Some (mkDesc (AOps i0) 16 VRING_DESC_F_NEXT i1);
  ch_d1 : aget (desc d) i1 = Some (mkDesc (AData (Z.of_nat b)) BSIZE (Z.lor (if w then 0 else VRING_DESC_F_WRITE) VRING_DESC_F_NEXT) i2);
  ch_d2 : aget (desc d) i2 = Some (mkDesc (AStatus i0) 1 VRING_DESC_F_WRITE 0);
  ch_op : aget (ops d) i0 = Some (mkReq (if w then VIRTIO_BLK_T_OUT else VIRTIO_BLK_T_IN) 0 (sector_of bno));
  ch_info : exists st, aget (info d) i0 = Some (mkInfo (Some (Z.of_nat b)) st)
}.

(** The descriptors and the rings, for the requests [r]: [P] are the heads that
    the device has not fetched, [W] those it works on, [U] those it has served
    and the driver has not yet looked at. *)
Record core (d : vdisk) (bs : list vbuf) (last : Z) (r : reqs) (P W U : list Z) : Prop := mkCore {
  v_len : length (desc d) = 8%nat /\ length (dfree d) = 8%nat /\ length (info d) = 8%nat /\ length (ops d) = 8%nat;
  v_bufs : forall b x, r b = Some x -> exists v, bs !! b = Some v;
  v_avail : ring NUM (avail_ring d) last P;
  v_last : 0 <= last < 2 ^ 16 /\ avail_idx d = u16 (last + Z.of_nat (length P));
  v_used : ring NUM (used_ring d) (used_idx d) U;
  v_uidx : 0 <= used_idx d < 2 ^ 16 /\ used_head d = u16 (used_idx d + Z.of_nat (length U));
  v_chain : forall b w i0 i1 i2 v, r b = Some (w, i0, i1, i2) -> bs !! b = Some v -> chain d (b_blockno v) b w i0 i1 i2;
  v_own : forall b b' i, owns r b i -> owns r b' i -> b = b';
  v_free : forall i f, aget (dfree d) i = Some f -> if f then forall b, ~ owns r b i else exists b, owns r b i;
  v_nodup : NoDup (P ++ W ++ U);
  v_heads : forall h, h ∈ P ++ W ++ U -> exists b w i1 i2 v, r b = Some (w, h, i1, i2) /\ bs !! b = Some v /\ b_disk v = true;
  v_waits : forall b w i0 i1 i2 v, r b = Some (w, i0, i1, i2) -> bs !! b = Some v -> b_disk v = true -> i0 ∈ P ++ W ++ U;
  v_status : forall b w i0 i1 i2 n, r b = Some (w, i0, i1, i2) -> aget (info d) i0 = Some n ->
    (i0 ∈ P ++ W -> i_status n = 0xff) /\ (i0 ∉ P ++ W -> i_status n = 0)
}.

(** Who sleeps has a reason to: fewer than three descriptors are free, or the
    device has the buffer. *)
Record sleepers (s : vst) : Prop := mkSleepers {
  z_want : forall b w, procs s !! b = Some (Want w true) -> (nfree (dfree (dk s)) < 3)%nat;
  z_wait : forall b w i0 i1 i2 v, procs s !! b = Some (Wait w true i0 i1 i2) -> bufs s !! b = Some v -> b_disk v = true
}.

Record inv (s : vst) (P U : list Z) : Prop := mkInv {
  v_core : core (dk s) (bufs s) (dev_last s) (req_of (procs s)) P (dev_work s) U;
  v_procs : length (procs s) = length (bufs s);
  v_sleep : sleepers s
}.

Lemma inv_init bs d : inv (vstart disk0 bs d) [] [].
Proof.
  assert (forall b p, replicate (length bs) Idle !! b = Some p -> p = Idle) as Hp by (intros b p Hb; by apply lookup_replicate in Hb as [-> _]).
  assert (forall b, req_of (replicate (length bs) Idle) b = None) as Hr.
  { intros b. unfold req_of. destruct (replicate (length bs) Idle !! b) eqn:E; [|done]. by apply Hp in E as ->. }
  constructor; cbn.
  - constructor; cbn; try done; try (intros *; by rewrite ?Hr).
    + intros b b' i (w & i0 & i1 & i2 & E & _). by rewrite Hr in E.
    + intros i f Hi. apply aget_lookup in Hi as [_ Hi]. change [true; true; true; true; true; true; true; true] with (replicate 8 true) in Hi.
      apply lookup_replicate in Hi as [-> _]. intros b (w & i0 & i1 & i2 & E & _). by rewrite Hr in E.
    + constructor.
    + intros h Hh. set_solver.
  - apply length_replicate.
  - constructor; cbn; [intros b w E | intros b w i0 i1 i2 v E]; by apply Hp in E.
Qed.

(** ** Array accesses *)

Lemma aget_nat {A} (l : list A) n : aget l (Z.of_nat n) = l !! n.
Proof. unfold aget. zcmp. by rewrite Nat2Z.id. Qed.
Lemma rd_wp {A} (f : vst -> list A) i v s Q : aget (f s) i = Some v -> Q v s -> wp (rd f i) s Q.
Proof. intros E HQ. unfold rd. wp_step. wp_step. by eapply wp_from_option. Qed.
Lemma wr_wp {A} (f : vst -> list A) g i v s Q : 0 <= i < Z.of_nat (length (f s)) -> Q tt (g (<[Z.to_nat i := v]> (f s)) s) -> wp (wr f g i v) s Q.
Proof. intros E HQ. unfold wr. wp_step. wp_step. wp_step. eapply wp_from_option; [by apply aset_is_Some|]. by wp_step. Qed.
Lemma aget_set {A} (l : list A) i j v : 0 <= i < Z.of_nat (length l) -> aget (<[Z.to_nat i := v]> l) j = if decide (j = i) then Some v else aget l j.
Proof.
  intros Hi. case_decide as E.
  - subst. rewrite aget_insert by lia. by rewrite Z.eqb_refl.
  - unfold aget. destruct (j <? 0) eqn:Ej; [done|]. apply Z.ltb_ge in Ej. rewrite list_lookup_insert_ne; [done | lia].
Qed.
Lemma aget_lt {A} (l : list A) i v n : aget l i = Some v -> length l = n -> 0 <= i < Z.of_nat n.
Proof. intros H <-. by eapply aget_range. Qed.

Lemma rset_eq r b x : rset r b x b = x.
Proof. unfold rset. by rewrite decide_True. Qed.
Lemma rset_ne r b x b' : b' <> b -> rset r b x b' = r b'.
Proof. intros H. unfold rset. by rewrite decide_False. Qed.
Lemma rset_cases r b x b' y : rset r b x b' = Some y -> (b' = b /\ x = Some y) \/ (b' <> b /\ r b' = Some y).
Proof. unfold rset. case_decide; auto. Qed.

(** Only the requests matter, not how they are given. *)
Lemma core_ext d bs last r r' P W U : (forall b, r' b = r b) -> core d bs last r P W U -> core d bs last r' P W U.
Proof.
  intros E H. assert (forall b i, owns r' b i <-> owns r b i) as Ho by (intros b i; unfold owns; by rewrite E).
  constructor; try apply H; intros *; rewrite ?E; try apply H.
  - rewrite !Ho. apply H.
  - intros Hf. pose proof (v_free _ _ _ _ _ _ _ H i f Hf) as Hx. destruct f; [intros b; rewrite Ho; apply Hx|].
    destruct Hx as (b & Hb). exists b. by rewrite Ho.
  - intros Hh. destruct (v_heads _ _ _ _ _ _ _ H h Hh) as (b & w & i1 & i2 & v & Hr & Hx). exists b, w, i1, i2, v. by rewrite E.
Qed.

Lemma req_insert ps b p q : ps !! b = Some q -> forall b', req_of (<[b := p]> ps) b' = rset (req_of ps) b (wait_of p) b'.
Proof.
  intros Hb b'. unfold req_of, rset. apply lookup_lt_Some in Hb. case_decide as E; [subst; by rewrite list_lookup_insert_eq|].
  by rewrite list_lookup_insert_ne.
Qed.
Lemma req_same ps b p q : ps !! b = Some q -> wait_of p = wait_of q -> forall b', req_of (<[b := p]> ps) b' = req_of ps b'.
Proof. intros Hb E b'. rewrite (req_insert _ _ _ _ Hb). unfold rset. case_decide; [subst|done]. unfold req_of. by rewrite Hb, E. Qed.
Lemma req_wake ps b : req_of (wake_want <$> ps) b = req_of ps b.
Proof. unfold req_of. rewrite list_lookup_fmap. by destruct (ps !! b) as [[]|]. Qed.
Lemma req_alter f ps b b' : (forall p, wait_of (f p) = wait_of p) -> req_of (alter f b ps) b' = req_of ps b'.
Proof.
  intros Hf. unfold req_of. destruct (decide (b' = b)) as [->|Hne]; [|by rewrite list_lookup_alter_ne].
  rewrite list_lookup_alter_eq. destruct (ps !! b); cbn; [apply Hf | done].
Qed.

(** ** How the requests change *)

(** [d'] has the entries of [d] at descriptor [i]. *)
Definition same_at (d d' : vdisk) (i : Z) : Prop :=
  aget (desc d') i = aget (desc d) i /\ aget (ops d') i = aget (ops d) i /\ aget (info d') i = aget (info d) i.
Definition lengths (d : vdisk) : Prop :=
  length (desc d) = 8%nat /\ length (dfree d) = 8%nat /\ length (info d) = 8%nat /\ length (ops d) = 8%nat.
Definition same_rings (d d' : vdisk) : Prop :=
  avail_ring d' = avail_ring d /\ avail_idx d' = avail_idx d /\ used_ring d' = used_ring d /\ used_head d' = used_head d /\ used_idx d' = used_idx d.

Lemma chain_same d d' bno b w i0 i1 i2 : same_at d d' i0 -> same_at d d' i1 -> same_at d d' i2 ->
  chain d bno b w i0 i1 i2 -> chain d' bno b w i0 i1 i2.
Proof. intros (A0 & B0 & C0) (A1 & _) (A2 & _) [H1 H2 H3 H4 H5 H6]. constructor; [done | congruence..|]. by rewrite C0. Qed.

Lemma chain_in d bno b w i0 i1 i2 : chain d bno b w i0 i1 i2 -> length (desc d) = 8%nat -> 0 <= i0 < 8 /\ 0 <= i1 < 8 /\ 0 <= i2 < 8.
Proof.
  intros [_ H0 H1 H2 _ _] Hl. pose proof (aget_lt _ _ _ _ H0 Hl). pose proof (aget_lt _ _ _ _ H1 Hl). pose proof (aget_lt _ _ _ _ H2 Hl). lia.
Qed.

Section Core.
  Context {d : vdisk} {bs : list vbuf} {last : Z} {r : reqs} {P W U : list Z} (H : core d bs last r P W U).

Lemma req_chain b w i0 i1 i2 : r b = Some (w, i0, i1, i2) -> exists v, bs !! b = Some v /\ chain d (b_blockno v) b w i0 i1 i2.
Proof. intros Hr. destruct (v_bufs _ _ _ _ _ _ _ H b _ Hr) as [v Hv]. exists v. split; [done|]. by apply (v_chain _ _ _ _ _ _ _ H). Qed.

Lemma owned_taken b i : owns r b i -> aget (dfree d) i = Some false.
Proof.
  intros Ho. pose proof Ho as (w & i0 & i1 & i2 & Hr & Hi). destruct (req_chain _ _ _ _ _ Hr) as (v & _ & Hc). destruct (v_len _ _ _ _ _ _ _ H) as (Hl & Hl2 & _).
  destruct (chain_in _ _ _ _ _ _ _ Hc Hl) as (? & ? & ?). destruct (aget_is_Some (dfree d) i) as [f Hf]; [rewrite Hl2; destruct Hi as [->|[->| ->]]; lia|].
  pose proof (v_free _ _ _ _ _ _ _ H i f Hf) as Hx. destruct f; [by destruct (Hx b) | done].
Qed.

Lemma head_own b w i0 i1 i2 : r b = Some (w, i0, i1, i2) -> owns r b i0 /\ owns r b i1 /\ owns r b i2.
Proof. intros Hr. unfold owns. split_and!; exists w, i0, i1, i2; auto. Qed.

(** The requests are the same, and what they use is the same. *)
Lemma core_frame d' : lengths d' -> same_rings d d' -> dfree d' = dfree d -> (forall b i, owns r b i -> same_at d d' i) -> core d' bs last r P W U.
Proof.
  intros Hl (E1 & E2 & E3 & E4 & E5) Ef Hs. constructor; try apply H; rewrite ?E1, ?E2, ?E3, ?E4, ?E5, ?Ef; try apply H; try done.
  - rewrite <- Ef. exact Hl.
  - intros b w i0 i1 i2 v Hr Hv. destruct (head_own _ _ _ _ _ Hr) as (? & ? & ?). eapply chain_same; [eauto..|]. by apply (v_chain _ _ _ _ _ _ _ H).
  - intros b w i0 i1 i2 n Hr. destruct (head_own _ _ _ _ _ Hr) as (Ho & _). destruct (Hs _ _ Ho) as (_ & _ & ->). by eapply (v_status _ _ _ _ _ _ _ H).
Qed.

(** A request is added: its chain is in memory and its head in the ring. *)
Lemma core_add d' b v w i0 i1 i2 : lengths d' -> bs !! b = Some v -> r b = None ->
  Forall (fun i => aget (dfree d) i = Some true) [i0; i1; i2] ->
  (forall j, aget (dfree d') j = if decide (j ∈ [i0; i1; i2]) then Some false else aget (dfree d) j) ->
  (forall j, j ∉ [i0; i1; i2] -> same_at d d' j) -> chain d' (b_blockno v) b w i0 i1 i2 ->
  (forall n, aget (info d') i0 = Some n -> i_status n = 0xff) ->
  ring NUM (avail_ring d') last (P ++ [i0]) -> avail_idx d' = u16 (avail_idx d + 1) ->
  used_ring d' = used_ring d -> used_head d' = used_head d -> used_idx d' = used_idx d ->
  core d' (<[b := mkVbuf (b_blockno v) true (b_data v)]> bs) last (rset r b (Some (w, i0, i1, i2))) (P ++ [i0]) W U.
Proof.
  intros Hl Hv Hrb Hfree Hd Hsame Hch Hst Hring Hidx E3 E4 E5. pose proof (lookup_lt_Some _ _ _ Hv) as Hlt.
  assert (forall b' i, owns r b' i -> i ∉ [i0; i1; i2]) as Hown.
  { intros b' i Ho Hi. rewrite Forall_forall in Hfree. apply Hfree in Hi. rewrite (owned_taken _ _ Ho) in Hi. done. }
  assert (forall b' i, owns (rset r b (Some (w, i0, i1, i2))) b' i <-> (b' = b /\ i ∈ [i0; i1; i2]) \/ (b' <> b /\ owns r b' i)) as Hown'.
  { intros b' i. unfold owns. split.
    - intros (w' & j0 & j1 & j2 & Hr' & Hi). apply rset_cases in Hr' as [[-> [= -> -> -> ->]]|[Hne Hr']]; [left; split; [done | set_solver] | right; split; [done|]].
      by exists w', j0, j1, j2.
    - intros [[-> Hi]|[Hne (w' & j0 & j1 & j2 & Hr' & Hi)]]; [exists w, i0, i1, i2; rewrite rset_eq; split; [done | set_solver]|].
      exists w', j0, j1, j2. by rewrite rset_ne. }
  assert (i0 ∉ P ++ W ++ U) as Hnew.
  { intros Hin. apply (v_heads _ _ _ _ _ _ _ H) in Hin as (b' & w' & j1 & j2 & v' & Hr' & _). destruct (head_own _ _ _ _ _ Hr') as (Ho & _).
    apply (Hown _ _ Ho). set_solver. }
  assert (forall b' w' j0 j1 j2, b' <> b -> r b' = Some (w', j0, j1, j2) -> j0 <> i0 /\ same_at d d' j0 /\ same_at d d' j1 /\ same_at d d' j2) as Hoth.
  { intros b' w' j0 j1 j2 Hne Hr'. destruct (head_own _ _ _ _ _ Hr') as (A0 & A1 & A2). apply Hown in A0, A1, A2. split; [set_solver|]. split_and!; by apply Hsame. }
  constructor; rewrite ?E3, ?E4, ?E5; try apply H; try done.
  - intros b' x [[-> _]|[Hne Hr']]%rset_cases; [rewrite list_lookup_insert_eq by done; eauto|].
    rewrite list_lookup_insert_ne by done. by eapply v_bufs.
  - split; [apply H|]. rewrite Hidx, (proj2 (v_last _ _ _ _ _ _ _ H)), length_app. cbn [length]. unfold u16. rewrite Zplus_mod_idemp_l. f_equal. lia.
  - intros b' w' j0 j1 j2 v' [[-> [= -> -> -> ->]]|[Hne Hr']]%rset_cases.
    + rewrite list_lookup_insert_eq by done. intros [= <-]. done.
    + rewrite list_lookup_insert_ne by done. intros Hv'. destruct (Hoth _ _ _ _ _ Hne Hr') as (_ & ? & ? & ?). eapply chain_same; [done..|]. by apply (v_chain _ _ _ _ _ _ _ H).
  - intros b1 b2 i [[-> Hi]|[N1 O1]]%Hown' [[-> Hi']|[N2 O2]]%Hown'; [done | by apply Hown in O2 | by apply Hown in O1 | by eapply v_own].
  - intros i f. rewrite Hd. case_decide as Ei.
    + intros [= <-]. exists b. apply Hown'. by left.
    + intros Hf. pose proof (v_free _ _ _ _ _ _ _ H i f Hf) as Hx. destruct f.
      * intros b' [[_ ?]|[_ Ho]]%Hown'; [done | by apply (Hx b')].
      * destruct Hx as (b' & Hb'). exists b'. apply Hown'. right. split; [|done]. intros ->. destruct Hb' as (? & ? & ? & ? & E & _). congruence.
  - rewrite <- app_assoc. apply NoDup_app. pose proof (v_nodup _ _ _ _ _ _ _ H) as Hnd. apply NoDup_app in Hnd as (N1 & N2 & N3).
    split; [done|]. split; [|by constructor; [set_solver|]]. intros x Hx. cbn [app]. intros [->|Hx']%elem_of_cons; [set_solver | by apply (N2 x)].
  - intros h Hh. assert (h = i0 \/ h ∈ P ++ W ++ U) as [->|Hh'] by set_solver.
    + exists b, w, i1, i2, (mkVbuf (b_blockno v) true (b_data v)). rewrite rset_eq, list_lookup_insert_eq by done. done.
    + destruct (v_heads _ _ _ _ _ _ _ H h Hh') as (b' & w' & j1 & j2 & v' & Hr' & Hv' & Hd'). assert (b' <> b) by congruence.
      exists b', w', j1, j2, v'. by rewrite rset_ne, list_lookup_insert_ne.
  - intros b' w' j0 j1 j2 v' [[-> [= -> -> -> ->]]|[Hne Hr']]%rset_cases; [set_solver|]. rewrite list_lookup_insert_ne by done. intros Hv' Hd'.
    pose proof (v_waits _ _ _ _ _ _ _ H _ _ _ _ _ _ Hr' Hv' Hd'). set_solver.
  - intros b' w' j0 j1 j2 n [[-> [= -> -> -> ->]]|[Hne Hr']]%rset_cases Hn; [split; [by intros _; apply Hst | set_solver]|].
    destruct (Hoth _ _ _ _ _ Hne Hr') as (Hj & (_ & _ & E) & _). rewrite E in Hn. destruct (v_status _ _ _ _ _ _ _ H _ _ _ _ _ _ Hr' Hn) as [S1 S2].
    split; intros Hin; [apply S1 | apply S2]; set_solver.
Qed.

(** A chain whose buffer the device no longer has is in none of the lists. *)
Lemma done_head b w i0 i1 i2 v : r b = Some (w, i0, i1, i2) -> bs !! b = Some v -> b_disk v = false -> i0 ∉ P ++ W ++ U.
Proof.
  intros Hr Hv Hd Hin. apply (v_heads _ _ _ _ _ _ _ H) in Hin as (b' & w' & j1 & j2 & v' & Hr' & Hv' & Hd').
  destruct (head_own _ _ _ _ _ Hr) as (A & _). destruct (head_own _ _ _ _ _ Hr') as (A' & _). pose proof (v_own _ _ _ _ _ _ _ H _ _ _ A A') as <-. congruence.
Qed.

(** Which request a head belongs to. *)
Lemma head_unique b w i0 i1 i2 b' w' j1 j2 : r b = Some (w, i0, i1, i2) -> r b' = Some (w', i0, j1, j2) -> b' = b.
Proof. intros Hr Hr'. destruct (head_own _ _ _ _ _ Hr) as (A & _). destruct (head_own _ _ _ _ _ Hr') as (A' & _). by apply (v_own _ _ _ _ _ _ _ H _ _ i0). Qed.

Lemma heads_range h : h ∈ P ++ W ++ U -> 0 <= h < 8.
Proof.
  intros (b & w & i1 & i2 & v & Hr & Hv & _)%(v_heads _ _ _ _ _ _ _ H). pose proof (v_chain _ _ _ _ _ _ _ H _ _ _ _ _ _ Hr Hv) as Hc.
  apply (chain_in _ _ _ _ _ _ _ Hc), H.
Qed.
Lemma heads_room l : NoDup l -> (forall h, h ∈ l -> 0 <= h < 8) -> (length l <= 8)%nat.
Proof.
  intros Hn Hr. apply (submseteq_length l (seqZ 0 8)), NoDup_submseteq; [done|]. intros h Hh. apply elem_of_seqZ. apply Hr in Hh. lia.
Qed.

(** The process returns its descriptors. *)
Lemma core_remove d' b v w i0 i1 i2 : lengths d' -> r b = Some (w, i0, i1, i2) -> bs !! b = Some v -> b_disk v = false -> same_rings d d' ->
  (forall j, aget (dfree d') j = if decide (j ∈ [i0; i1; i2]) then Some true else aget (dfree d) j) ->
  (forall j, j ∉ [i0; i1; i2] -> same_at d d' j) -> core d' bs last (rset r b None) P W U.
Proof.
  intros Hl Hr Hv Hdk (E1 & E2 & E3 & E4 & E5) Hd Hsame. pose proof (done_head _ _ _ _ _ _ Hr Hv Hdk) as Hout.
  destruct (head_own _ _ _ _ _ Hr) as (A0 & A1 & A2).
  assert (forall b' i, owns (rset r b None) b' i <-> b' <> b /\ owns r b' i) as Hown'.
  { intros b' i. unfold owns. split.
    - intros (w' & j0 & j1 & j2 & [[_ ?]|[Hne Hr']]%rset_cases & Hi); [done|]. split; [done|]. by exists w', j0, j1, j2.
    - intros [Hne (w' & j0 & j1 & j2 & Hr' & Hi)]. exists w', j0, j1, j2. by rewrite rset_ne. }
  assert (forall b' i, b' <> b -> owns r b' i -> i ∉ [i0; i1; i2]) as Hother.
  { intros b' i Hne Ho Hi. apply Hne. assert (owns r b i) as Ho' by set_solver. by apply (v_own _ _ _ _ _ _ _ H _ _ i). }
  constructor; rewrite ?E1, ?E2, ?E3, ?E4, ?E5; try apply H; try done.
  - intros b' x [[_ ?]|[Hne Hr']]%rset_cases; [done|]. by eapply v_bufs.
  - intros b' w' j0 j1 j2 v' [[_ ?]|[Hne Hr']]%rset_cases Hv'; [done|]. destruct (head_own _ _ _ _ _ Hr') as (B0 & B1 & B2).
    eapply chain_same; [eapply Hsame, Hother; eauto..|]. by apply (v_chain _ _ _ _ _ _ _ H).
  - intros b1 b2 i [N1 O1]%Hown' [N2 O2]%Hown'. by eapply v_own.
  - intros i f. rewrite Hd. case_decide as Ei.
    + intros [= <-] b' [Hne Ho]%Hown'. by apply (Hother b' i).
    + intros Hf. pose proof (v_free _ _ _ _ _ _ _ H i f Hf) as Hx. destruct f.
      * intros b' [_ Ho]%Hown'. by apply (Hx b').
      * destruct Hx as (b' & Hb'). exists b'. apply Hown'. split; [|done]. intros ->. destruct Hb' as (? & ? & ? & ? & E & Hi). rewrite Hr in E.
        injection E as <- <- <- <-. set_solver.
  - intros h Hh. destruct (v_heads _ _ _ _ _ _ _ H h Hh) as (b' & w' & j1 & j2 & v' & Hr' & Hx). exists b', w', j1, j2, v'. rewrite rset_ne; [done|].
    intros ->. rewrite Hr in Hr'. injection Hr' as <- <- <- <-. done.
  - intros b' w' j0 j1 j2 v' [[_ ?]|[Hne Hr']]%rset_cases; [done|]. by eapply v_waits.
  - intros b' w' j0 j1 j2 n [[_ ?]|[Hne Hr']]%rset_cases Hn; [done|]. destruct (head_own _ _ _ _ _ Hr') as (B0 & _).
    destruct (Hsame j0) as (_ & _ & E); [by apply (Hother b')|]. rewrite E in Hn. by eapply (v_status _ _ _ _ _ _ _ H).
Qed.

(** The device fetches the next chain. *)
Lemma core_fetch h P' : P = h :: P' -> core d bs (u16 (last + 1)) r P' (W ++ [h]) U.
Proof.
  intros E. assert (P ++ W ++ U ≡ₚ P' ++ (W ++ [h]) ++ U) as Hp.
  { rewrite E, <- (app_assoc W). cbn [app]. by rewrite app_assoc, (app_assoc P'), <- Permutation_middle. }
  assert (P ++ W ≡ₚ P' ++ W ++ [h]) as Hp2 by (rewrite E; cbn [app]; by rewrite Permutation_cons_append, app_assoc).
  pose proof (v_avail _ _ _ _ _ _ _ H) as Hring. rewrite E in Hring. apply ring_pop in Hring as [_ Hring].
  constructor; try apply H.
  - apply ring_word; [done | done | by exists (2 ^ 13) | done].
  - split; [apply Z.mod_pos_bound; lia|]. rewrite (proj2 (v_last _ _ _ _ _ _ _ H)), E. cbn [length]. unfold u16. rewrite Zplus_mod_idemp_l. f_equal. lia.
  - rewrite <- Hp. apply H.
  - intros x. rewrite <- Hp. apply H.
  - intros *. rewrite <- Hp. apply H.
  - intros *. rewrite <- Hp2. apply H.
Qed.

(** The interrupt handler looks at a served chain. *)
Lemma core_ack h U' b w i1 i2 v : U = h :: U' -> r b = Some (w, h, i1, i2) -> bs !! b = Some v ->
  core (with_used_idx (u16 (used_idx d + 1)) d) (<[b := mkVbuf (b_blockno v) false (b_data v)]> bs) last r P W U'.
Proof.
  intros E Hr Hv. pose proof (lookup_lt_Some _ _ _ Hv) as Hlt. pose proof (v_used _ _ _ _ _ _ _ H) as Hring. rewrite E in Hring. apply ring_pop in Hring as [_ Hring].
  pose proof (v_nodup _ _ _ _ _ _ _ H) as Hnd. rewrite E, (app_assoc P), <- Permutation_middle, <- app_assoc in Hnd. apply NoDup_cons in Hnd as [Hh Hnd].
  constructor; try apply H; cbn [with_used_idx used_ring used_idx used_head].
  - intros b' x Hx. destruct (decide (b' = b)) as [->|Hne]; [rewrite list_lookup_insert_eq by done; eauto|]. rewrite list_lookup_insert_ne by done. by eapply v_bufs.
  - apply ring_word; [done | done | by exists (2 ^ 13) | done].
  - split; [apply Z.mod_pos_bound; lia|]. rewrite (proj2 (v_uidx _ _ _ _ _ _ _ H)), E. cbn [length]. unfold u16. rewrite Zplus_mod_idemp_l. f_equal. lia.
  - intros b' w' j0 j1 j2 v' Hr' Hv'. apply (chain_same d); [done..|]. destruct (decide (b' = b)) as [->|Hne].
    + rewrite list_lookup_insert_eq in Hv' by done. injection Hv' as <-. exact (v_chain _ _ _ _ _ _ _ H _ _ _ _ _ _ Hr' Hv).
    + rewrite list_lookup_insert_ne in Hv' by done. by apply (v_chain _ _ _ _ _ _ _ H).
  - done.
  - intros x Hx. destruct (v_heads _ _ _ _ _ _ _ H x) as (b' & w' & j1 & j2 & v' & Hr' & Hv' & Hd'); [rewrite E; set_solver|].
    exists b', w', j1, j2, v'. split_and!; [done | | done]. rewrite list_lookup_insert_ne; [done|]. intros ->. rewrite Hr in Hr'. injection Hr' as _ <- _ _. done.
  - intros b' w' j0 j1 j2 v' Hr' Hv' Hd'. destruct (decide (b' = b)) as [->|Hne].
    + rewrite list_lookup_insert_eq in Hv' by done. by injection Hv' as <-.
    + rewrite list_lookup_insert_ne in Hv' by done. pose proof (v_waits _ _ _ _ _ _ _ H _ _ _ _ _ _ Hr' Hv' Hd') as Hin. rewrite E in Hin.
      assert (j0 <> h); [|set_solver]. intros ->. apply Hne. by eapply head_unique.
Qed.

(** The device has served a chain it had fetched. *)
Lemma core_serve h b w i1 i2 v nf ur : h ∈ W -> r b = Some (w, h, i1, i2) -> bs !! b = Some v ->
  length nf = 8%nat -> (forall j, j <> h -> aget nf j = aget (info d) j) -> aget nf h = Some (mkInfo (Some (Z.of_nat b)) 0) ->
  ring NUM ur (used_idx d) (U ++ [h]) -> forall dat,
  core (with_used ur (u16 (used_head d + 1)) (with_info nf d)) (<[b := mkVbuf (b_blockno v) (b_disk v) dat]> bs) last r P (filter (fun x => x <> h) W) (U ++ [h]).
Proof.
  intros Hw Hr Hv Hnf Hoth Hh Hring dat. pose proof (lookup_lt_Some _ _ _ Hv) as Hlt.
  assert (forall x, x ∈ P ++ filter (fun x => x <> h) W ++ U ++ [h] <-> x ∈ P ++ W ++ U) as Hin.
  { intros x. rewrite !elem_of_app, list_elem_of_filter, list_elem_of_singleton. destruct (decide (x = h)) as [->|]; naive_solver. }
  pose proof (v_nodup _ _ _ _ _ _ _ H) as Hnd. apply NoDup_app in Hnd as (N1 & N2 & (N3 & N4 & N5)%NoDup_app).
  assert (forall b' v', <[b := mkVbuf (b_blockno v) (b_disk v) dat]> bs !! b' = Some v' ->
    exists v0, bs !! b' = Some v0 /\ b_blockno v' = b_blockno v0 /\ b_disk v' = b_disk v0) as Hbs.
  { intros b' v' Hv'. destruct (decide (b' = b)) as [->|Hne]; [rewrite list_lookup_insert_eq in Hv' by done; injection Hv' as <-; by exists v|].
    rewrite list_lookup_insert_ne in Hv' by done. by exists v'. }
  assert (h ∉ P) as HhP by (intros Hp; apply (N2 h Hp); set_solver). assert (h ∉ U) as HhU by (by apply N4).
  constructor; try apply H; cbn [with_used with_info used_ring used_idx used_head desc dfree info ops avail_ring avail_idx]; try done.
  - destruct (v_len _ _ _ _ _ _ _ H) as (? & ? & _ & ?). done.
  - intros b' x Hx. destruct (decide (b' = b)) as [->|Hne]; [rewrite list_lookup_insert_eq by done; eauto|]. rewrite list_lookup_insert_ne by done. by eapply v_bufs.
  - split; [apply H|]. rewrite (proj2 (v_uidx _ _ _ _ _ _ _ H)), length_app. cbn [length]. unfold u16. rewrite Zplus_mod_idemp_l. f_equal. lia.
  - intros b' w' j0 j1 j2 v' Hr' Hv'. destruct (Hbs _ _ Hv') as (v0 & Hv0 & -> & _). pose proof (v_chain _ _ _ _ _ _ _ H _ _ _ _ _ _ Hr' Hv0) as [C1 C2 C3 C4 C5 C6].
    constructor; try done. cbn. destruct (decide (j0 = h)) as [->|Hne]; [|by rewrite Hoth].
    assert (b' = b) as -> by (by eapply head_unique). eauto.
  - apply NoDup_app. split; [done|]. split; [intros x Hx; specialize (N2 x Hx); rewrite !elem_of_app, list_elem_of_filter, list_elem_of_singleton in *; naive_solver|].
    apply NoDup_app. split; [by apply NoDup_filter|]. split; [intros x [Hx1 Hx2]%list_elem_of_filter; specialize (N4 x Hx2); rewrite elem_of_app, list_elem_of_singleton; naive_solver|].
    apply NoDup_app. split; [done|]. split; [intros x Hx; rewrite list_elem_of_singleton; naive_solver | apply NoDup_singleton].
  - intros x Hx%Hin. destruct (v_heads _ _ _ _ _ _ _ H x Hx) as (b' & w' & j1 & j2 & v' & Hr' & Hv' & Hd').
    destruct (decide (b' = b)) as [->|Hne].
    + exists b, w', j1, j2, (mkVbuf (b_blockno v) (b_disk v) dat). rewrite list_lookup_insert_eq by done. split_and!; [done | done|]. cbn. congruence.
    + exists b', w', j1, j2, v'. by rewrite list_lookup_insert_ne.
  - intros b' w' j0 j1 j2 v' Hr' Hv' Hd'. destruct (Hbs _ _ Hv') as (v0 & Hv0 & _ & Ed). apply Hin. eapply (v_waits _ _ _ _ _ _ _ H); [done | done | congruence].
  - intros b' w' j0 j1 j2 n Hr' Hn. destruct (decide (j0 = h)) as [->|Hne].
    + rewrite Hh in Hn. injection Hn as <-. split; [|done]. rewrite elem_of_app, list_elem_of_filter. naive_solver.
    + rewrite Hoth in Hn by done. destruct (v_status _ _ _ _ _ _ _ H _ _ _ _ _ _ Hr' Hn) as [S1 S2].
      split; intros Hx; [apply S1 | apply S2]; rewrite elem_of_app, ?list_elem_of_filter in *; naive_solver.
Qed.

End Core.

(** ** Descriptors *)

Lemma aget_ext {A} (l l' : list A) : (forall j, aget l j = aget l' j) -> l = l'.
Proof. intros H. apply list_eq. intros i. specialize (H (Z.of_nat i)). by rewrite !aget_nat in H. Qed.

Lemma find_unused_spec l : forall k, 0 <= k ->
  (find_unused l k = -1 /\ Forall (fun f => f = false) l) \/ (exists n, l !! n = Some true /\ find_unused l k = k + Z.of_nat n).
Proof.
  induction l as [|f l IH]; intros k Hk; cbn [find_unused]; [left; by split|]. destruct f.
  - right. exists 0%nat. split; [done | lia].
  - destruct (IH (k + 1)) as [[E Hf]|(n & Hn & E)]; [lia | left; split; [done | by constructor]|]. right. exists (S n). split; [done | lia].
Qed.

Lemma nfree_take l n : l !! n = Some true -> nfree l = S (nfree (<[n := false]> l)).
Proof.
  revert n. induction l as [|f l IH]; intros n Hn; [done|]. unfold nfree in *. destruct n as [|n]; cbn [lookup list_lookup] in Hn.
  - injection Hn as ->. by cbn.
  - change (<[S n := false]> (f :: l)) with (f :: <[n := false]> l). rewrite !filter_cons. specialize (IH n Hn). case_decide; cbn [length]; congruence.
Qed.
Lemma nfree_none l : Forall (fun f => f = false) l -> nfree l = 0%nat.
Proof. induction 1 as [|f l -> _ IH]; [done|]. exact IH. Qed.

Lemma alloc_wp s Q : (Forall (fun f => f = false) (dfree (dk s)) -> Q (-1) s) ->
  (forall i, aget (dfree (dk s)) i = Some true -> Q i (set_dk (with_free (<[Z.to_nat i := false]> (dfree (dk s)))) s)) -> wp alloc_desc s Q.
Proof.
  intros H0 H1. unfold alloc_desc. wp_step. wp_step. destruct (find_unused_spec (dfree (dk s)) 0) as [[E Hf]|(n & Hn & E)]; [lia | |]; rewrite E.
  - cbn [Z.ltb Z.compare]. wp_step. by apply H0.
  - zcmp. rewrite Z.add_0_l. assert (aget (dfree (dk s)) (Z.of_nat n) = Some true) as Hn' by (by rewrite aget_nat).
    wp_step. apply wr_wp; [by eapply aget_range|]. wp_step. by apply H1.
Qed.

(** What [free_desc] does to the state. *)
Definition freed (i : Z) (s : vst) : vst :=
  set_procs (wake_want <$> procs s)
    (set_dk (fun d => with_free (<[Z.to_nat i := true]> (dfree d)) (with_desc (<[Z.to_nat i := desc0]> (desc d)) d)) s).

Lemma free_desc_wp s i Q : length (desc (dk s)) = 8%nat -> length (dfree (dk s)) = 8%nat -> aget (dfree (dk s)) i = Some false ->
  Q tt (freed i s) -> wp (free_desc i) s Q.
Proof.
  intros Hl1 Hl2 Hi HQ. pose proof (aget_lt _ _ _ _ Hi Hl2) as Hr. unfold free_desc, NUM. rewrite Z.geb_leb. zcmp.
  wp_step. apply (rd_wp _ _ false); [done|]. wp_step. apply wr_wp; [lia|]. wp_step. apply wr_wp; [cbn; lia|]. unfold wakeup_free. wp_step. exact HQ.
Qed.

(** Processes that sleep for descriptors may have been woken. *)
Definition woken (ps ps' : list phase) : Prop := ps' = ps \/ ps' = wake_want <$> ps.
Lemma wake_want_idem (ps : list phase) : wake_want <$> (wake_want <$> ps) = wake_want <$> ps.
Proof. rewrite <- list_fmap_compose. apply list_fmap_ext. by intros ? []. Qed.
Lemma woken_wake ps ps' : woken ps ps' -> woken ps (wake_want <$> ps').
Proof. intros [->| ->]; right; [done | apply wake_want_idem]. Qed.
Lemma woken_req ps ps' b : woken ps ps' -> req_of ps' b = req_of ps b.
Proof. intros [->| ->]; [done | apply req_wake]. Qed.

(** The state after [alloc3_desc] found too few descriptors: only free
    descriptors were touched. *)
Record failed3 (s s' : vst) : Prop := mkFailed3 {
  f_few : (nfree (dfree (dk s)) < 3)%nat;
  f_state : exists l ps, s' = set_procs ps (set_dk (with_desc l) s) /\ woken (procs s) ps /\ length l = length (desc (dk s))
    /\ forall j, aget (dfree (dk s)) j <> Some true -> aget l j = aget (desc (dk s)) j
}.

(** Descriptors taken and given back again. *)
Lemma failed3_one s i0 : length (desc (dk s)) = 8%nat -> length (dfree (dk s)) = 8%nat -> aget (dfree (dk s)) i0 = Some true ->
  (nfree (dfree (dk s)) < 3)%nat -> failed3 s (freed i0 (set_dk (with_free (<[Z.to_nat i0 := false]> (dfree (dk s)))) s)).
Proof.
  intros Hl1 Hl2 H0 Hn. pose proof (aget_lt _ _ _ _ H0 Hl2) as R0. constructor; [done|].
  exists (<[Z.to_nat i0 := desc0]> (desc (dk s))), (wake_want <$> procs s). split_and!; [|by right | apply length_insert|].
  - assert (<[Z.to_nat i0 := true]> (<[Z.to_nat i0 := false]> (dfree (dk s))) = dfree (dk s)) as E.
    { apply aget_ext. intros j. rewrite aget_set by (rewrite length_insert; lia). rewrite aget_set by lia. repeat case_decide; congruence. }
    unfold freed, set_procs, set_dk, with_free, with_desc. cbn [dk bufs procs dev_last dev_work dsk dfree desc avail_ring avail_idx used_ring used_head used_idx info ops].
    by rewrite E.
  - intros j Hj. rewrite aget_set by lia. case_decide; congruence.
Qed.

Lemma failed3_two s i0 i1 l : length (desc (dk s)) = 8%nat -> length (dfree (dk s)) = 8%nat -> aget (dfree (dk s)) i0 = Some true ->
  aget (dfree (dk s)) i1 = Some true -> length l = 8%nat ->
  (forall j, aget l j = if decide (j = i1) then Some false else if decide (j = i0) then Some false else aget (dfree (dk s)) j) ->
  (nfree (dfree (dk s)) < 3)%nat -> failed3 s (freed i1 (freed i0 (set_dk (with_free l) s))).
Proof.
  intros Hl1 Hl2 H0 H1 Hl G Hn. pose proof (aget_lt _ _ _ _ H0 Hl2) as R0. pose proof (aget_lt _ _ _ _ H1 Hl2) as R1. constructor; [done|].
  exists (<[Z.to_nat i1 := desc0]> (<[Z.to_nat i0 := desc0]> (desc (dk s)))), (wake_want <$> (wake_want <$> procs s)).
  split_and!; [|rewrite wake_want_idem; by right | by rewrite !length_insert|].
  - assert (<[Z.to_nat i1 := true]> (<[Z.to_nat i0 := true]> l) = dfree (dk s)) as E.
    { apply aget_ext. intros j. rewrite aget_set by (rewrite length_insert; lia). rewrite aget_set by lia. rewrite G. repeat case_decide; congruence. }
    unfold freed, set_procs, set_dk, with_free, with_desc. cbn [dk bufs procs dev_last dev_work dsk dfree desc avail_ring avail_idx used_ring used_head used_idx info ops].
    by rewrite E.
  - intros j Hj. rewrite aget_set by (rewrite length_insert; lia). rewrite aget_set by lia. repeat case_decide; congruence.
Qed.

Lemma alloc3_wp s Q : length (desc (dk s)) = 8%nat -> length (dfree (dk s)) = 8%nat ->
  (forall s', failed3 s s' -> Q None s') ->
  (forall i0 i1 i2 l, Forall (fun i => aget (dfree (dk s)) i = Some true) [i0; i1; i2] -> i0 <> i1 /\ i0 <> i2 /\ i1 <> i2 ->
    length l = 8%nat -> (forall j, aget l j = if decide (j ∈ [i0; i1; i2]) then Some false else aget (dfree (dk s)) j) ->
    Q (Some (i0, i1, i2)) (set_dk (with_free l) s)) ->
  wp alloc3_desc s Q.
Proof.
  intros Hl1 Hl2 HF HS. unfold alloc3_desc. wp_step. apply alloc_wp.
  { intros Hno. cbn [Z.ltb Z.compare]. wp_step. apply HF. constructor; [rewrite nfree_none by done; lia|].
    exists (desc (dk s)), (procs s). split_and!; [by destruct s as [[] ? ? ? ? ?] | by left | done | done]. }
  intros i0 H0. pose proof (aget_lt _ _ _ _ H0 Hl2) as R0. rewrite (proj2 (Z.ltb_ge i0 0)) by lia. wp_step.
  assert (nfree (dfree (dk s)) = S (nfree (<[Z.to_nat i0 := false]> (dfree (dk s))))) as N0 by (apply nfree_take; by apply aget_lookup in H0 as [_ ?]).
  assert (forall j, aget (<[Z.to_nat i0 := false]> (dfree (dk s))) j = if decide (j = i0) then Some false else aget (dfree (dk s)) j) as G1 by (intros j; apply aget_set; lia).
  assert (length (<[Z.to_nat i0 := false]> (dfree (dk s))) = 8%nat) as Ll1 by (by rewrite length_insert).
  apply alloc_wp; cbn [set_dk dk with_free dfree].
  { intros Hno. cbn [Z.ltb Z.compare]. wp_step. apply free_desc_wp; [done | done | cbn [set_dk dk with_free dfree]; by rewrite G1, decide_True|].
    wp_step. apply HF, failed3_one; try done. rewrite N0, nfree_none by done. lia. }
  intros i1 H1. rewrite G1 in H1. case_decide as E01; [done|]. pose proof (aget_lt _ _ _ _ H1 Hl2) as R1. rewrite (proj2 (Z.ltb_ge i1 0)) by lia. wp_step.
  set (l2 := <[Z.to_nat i1 := false]> (<[Z.to_nat i0 := false]> (dfree (dk s)))).
  assert (forall j, aget l2 j = if decide (j = i1) then Some false else if decide (j = i0) then Some false else aget (dfree (dk s)) j) as G2
    by (intros j; rewrite <- G1; apply aget_set; lia).
  assert (length l2 = 8%nat) as Ll2 by (unfold l2; by rewrite length_insert).
  assert (nfree (<[Z.to_nat i0 := false]> (dfree (dk s))) = S (nfree l2)) as N1.
  { apply nfree_take. pose proof (G1 i1) as Hx. rewrite decide_False, H1 in Hx by done. by apply aget_lookup in Hx as [_ ?]. }
  change (set_dk (with_free _) (set_dk (with_free _) s)) with (set_dk (with_free l2) s). clearbody l2.
  apply alloc_wp; cbn [set_dk dk with_free dfree].
  { intros Hno. cbn [Z.ltb Z.compare]. wp_step. apply free_desc_wp; [done | done | cbn [set_dk dk with_free dfree]; rewrite G2; repeat case_decide; congruence|].
    assert (forall j, aget (<[Z.to_nat i0 := true]> l2) j = if decide (j = i0) then Some true else aget l2 j) as G3 by (intros j; apply aget_set; lia).
    wp_step. apply free_desc_wp; unfold freed; cbn [set_dk set_procs dk with_free with_desc dfree desc]; [by rewrite length_insert | by rewrite length_insert | |].
    { rewrite G3, G2. repeat case_decide; congruence. }
    wp_step. apply HF. apply (failed3_two s i0 i1 l2); try done. rewrite N0, N1, nfree_none by done. lia. }
  intros i2 H2. rewrite G2 in H2. case_decide as E12; [done|]. case_decide as E02; [done|]. pose proof (aget_lt _ _ _ _ H2 Hl2) as R2.
  rewrite (proj2 (Z.ltb_ge i2 0)) by lia. wp_step.
  change (set_dk _ (set_dk _ s)) with (set_dk (with_free (<[Z.to_nat i2 := false]> l2)) s).
  apply HS; [by repeat constructor | split_and!; congruence | by rewrite length_insert|].
  intros j. rewrite aget_set by lia. rewrite G2. repeat case_decide; try done; set_solver.
Qed.

(** ** Starting a request *)

Lemma abs_eq s s' : (forall b, areq_of (info (dk s')) <$> (procs s' !! b) = areq_of (info (dk s)) <$> (procs s !! b)) ->
  b_data <$> bufs s' = b_data <$> bufs s -> b_blockno <$> bufs s' = b_blockno <$> bufs s -> dsk s' = dsk s -> abs s' = abs s.
Proof. intros Hr Hd Hb Hk. unfold abs. f_equal; [done| |done..]. apply list_eq. intros b. by rewrite !list_lookup_fmap. Qed.

Lemma nfree_le l l' : length l = length l' -> (forall j, aget l j = Some true -> aget l' j = Some true) -> (nfree l <= nfree l')%nat.
Proof.
  intros Hl Hj. assert (forall n, l !! n = Some true -> l' !! n = Some true) as Hn by (intros n; rewrite <- !aget_nat; apply Hj). clear Hj. unfold nfree.
  revert l' Hl Hn. induction l as [|f l IH]; intros [|f' l'] Hl Hn; try done. injection Hl as Hl. specialize (IH l' Hl (fun n => Hn (S n))).
  pose proof (Hn 0%nat) as H0. cbn in H0. rewrite !filter_cons. repeat case_decide; cbn [length]; subst; try lia. specialize (H0 eq_refl). congruence.
Qed.

Section Ops.
  Context {s : vst} {P U : list Z} (H : inv s P U).

Lemma inv_lengths : lengths (dk s).
Proof. apply (v_core _ _ _ H). Qed.
Lemma proc_buf b p : procs s !! b = Some p -> exists v, bufs s !! b = Some v.
Proof. intros Hb. apply lookup_lt_Some in Hb. rewrite (v_procs _ _ _ H) in Hb. by apply lookup_lt_is_Some. Qed.

(** The phase of a process changes, but not the requests. *)
Lemma inv_phase ps : length ps = length (procs s) -> (forall b, req_of ps b = req_of (procs s) b) ->
  (forall b w, ps !! b = Some (Want w true) -> (nfree (dfree (dk s)) < 3)%nat) ->
  (forall b w i0 i1 i2 v, ps !! b = Some (Wait w true i0 i1 i2) -> bufs s !! b = Some v -> b_disk v = true) -> inv (set_procs ps s) P U.
Proof.
  intros Hl Hr Hw Hz. constructor; cbn [set_procs dk bufs procs dev_last dev_work].
  - eapply core_ext; [exact Hr | apply H].
  - by rewrite Hl, (v_procs _ _ _ H).
  - by constructor.
Qed.

(** No descriptors: the process sleeps. *)
Lemma start_failed b w s' : procs s !! b = Some (Want w false) -> failed3 s s' ->
  let s2 := set_procs (<[b := Want w true]> (procs s')) s' in inv s2 P U /\ abs s2 = abs s.
Proof.
  intros Hb [Hfew (l & ps & -> & Hwk & Hl & Hsame)]. cbn [set_procs set_dk procs].
  assert (exists q, ps !! b = Some q /\ wait_of q = None /\ forall nf, areq_of nf q = AAsk w) as (q & Hq & Hwq & Haq).
  { exists (Want w false). destruct Hwk as [->| ->]; [done|]. by rewrite list_lookup_fmap, Hb. }
  assert (length ps = length (procs s)) as Hlp by (destruct Hwk as [->| ->]; [done | by rewrite length_fmap]).
  pose proof (lookup_lt_Some _ _ _ Hq) as Hlt. destruct inv_lengths as (L1 & L2 & L3 & L4).
  pose proof (v_core _ _ _ H) as HC. split.
  - constructor; cbn [set_procs set_dk dk with_desc bufs procs dev_last dev_work].
    + eapply (core_ext _ _ _ (req_of (procs s))).
      { intros b'. rewrite (req_insert _ _ _ _ Hq). unfold rset. case_decide; [subst; cbn [wait_of]; unfold req_of; by rewrite Hb | by apply woken_req]. }
      eapply core_frame; [exact HC | split_and!; cbn; congruence | done | done|]. intros b' i Ho. split_and!; [cbn | done | done].
      apply Hsame. rewrite (owned_taken HC _ _ Ho). done.
    + by rewrite length_insert, Hlp, (v_procs _ _ _ H).
    + constructor; cbn [set_procs set_dk dk with_desc bufs procs]; [done|]. intros b' w' i0 i1 i2 v Hb' Hv. apply list_lookup_insert_Some in Hb' as [(-> & [=] & _)|[Hne Hb']].
      eapply (z_wait _ (v_sleep _ _ _ H) b' w' i0 i1 i2); [|done]. destruct Hwk as [->| ->]; [done|]. rewrite list_lookup_fmap in Hb'.
      destruct (procs s !! b') as [[]|]; cbn in Hb'; congruence.
  - apply abs_eq; [|done..]. intros b'. cbn [set_procs set_dk dk with_desc info procs]. destruct (decide (b' = b)) as [->|Hne].
    + by rewrite list_lookup_insert_eq, Hb.
    + rewrite list_lookup_insert_ne by done. destruct Hwk as [->| ->]; [done|]. rewrite list_lookup_fmap. by destruct (procs s !! b') as [[]|].
Qed.

(** The memory after [format] and [submit]. *)
Definition submitted (l : list bool) (ar : list Z) (b : nat) (v : vbuf) (w : bool) (i0 i1 i2 : Z) : vst :=
  set_procs (<[b := Wait w true i0 i1 i2]> (procs s))
  (set_bufs (<[b := mkVbuf (b_blockno v) true (b_data v)]> (bufs s))
  (set_dk (fun d => mkVdisk
      (<[Z.to_nat i2 := mkDesc (AStatus i0) 1 VRING_DESC_F_WRITE 0]>
        (<[Z.to_nat i1 := mkDesc (AData (Z.of_nat b)) BSIZE (Z.lor (if w then 0 else VRING_DESC_F_WRITE) VRING_DESC_F_NEXT) i2]>
          (<[Z.to_nat i0 := mkDesc (AOps i0) 16 VRING_DESC_F_NEXT i1]> (desc d))))
      ar (u16 (avail_idx d + 1)) (used_ring d) (used_head d) l (used_idx d)
      (<[Z.to_nat i0 := mkInfo (Some (Z.of_nat b)) 0xff]> (info d))
      (<[Z.to_nat i0 := mkReq (if w then VIRTIO_BLK_T_OUT else VIRTIO_BLK_T_IN) 0 (sector_of (b_blockno v))]> (ops d))) s)).

Lemma avail_room i0 : aget (dfree (dk s)) i0 = Some true -> Z.of_nat (length P) < NUM.
Proof.
  intros Hf. pose proof (v_core _ _ _ H) as HC. pose proof (v_free _ _ _ _ _ _ _ HC i0 true Hf) as Hno. cbn in Hno.
  pose proof (v_nodup _ _ _ _ _ _ _ HC) as Hn. apply NoDup_app in Hn as (Hn & _). destruct inv_lengths as (_ & L2 & _).
  assert (length (i0 :: P) <= 8)%nat as Hlen; [|cbn [length] in Hlen; unfold NUM; lia]. apply heads_room.
  - constructor; [|done]. intros Hin. destruct (v_heads _ _ _ _ _ _ _ HC i0) as (b & w & i1 & i2 & v & Hr & _); [set_solver|]. apply (Hno b).
    by destruct (head_own _ _ _ _ _ Hr) as (? & _).
  - intros h [->|Hh]%elem_of_cons; [by apply (aget_lt _ _ _ 8 Hf)|]. apply (heads_range HC). set_solver.
Qed.

Lemma start_submitted b v w i0 i1 i2 l ar : procs s !! b = Some (Want w false) -> bufs s !! b = Some v ->
  Forall (fun i => aget (dfree (dk s)) i = Some true) [i0; i1; i2] -> i0 <> i1 /\ i0 <> i2 /\ i1 <> i2 -> length l = 8%nat ->
  (forall j, aget l j = if decide (j ∈ [i0; i1; i2]) then Some false else aget (dfree (dk s)) j) ->
  ring NUM ar (dev_last s) (P ++ [i0]) ->
  inv (submitted l ar b v w i0 i1 i2) (P ++ [i0]) U /\ abs (submitted l ar b v w i0 i1 i2) = abs s.
Proof.
  intros Hb Hv Hfree Hne Hl G Hring. pose proof (v_core _ _ _ H) as HC. destruct inv_lengths as (L1 & L2 & L3 & L4).
  assert (0 <= i0 < 8 /\ 0 <= i1 < 8 /\ 0 <= i2 < 8) as (R0 & R1 & R2).
  { rewrite Forall_forall in Hfree. split_and!; apply (aget_lt (dfree (dk s)) _ true 8); try done; apply Hfree; set_solver. }
  pose proof (lookup_lt_Some _ _ _ Hb) as Hlt. pose proof (lookup_lt_Some _ _ _ Hv) as Hltv.
  assert (req_of (procs s) b = None) as Hrb by (unfold req_of; by rewrite Hb). split.
  - constructor; unfold submitted; cbn [set_procs set_dk set_bufs dk bufs procs dev_last dev_work].
    + eapply core_ext; [apply (req_insert _ _ _ _ Hb)|]. cbn [wait_of].
      apply (core_add HC); cbn [desc dfree info ops avail_ring avail_idx used_ring used_head used_idx]; try done.
      * split_and!; cbn [desc dfree info ops]; rewrite ?length_insert; done.
      * intros j Hj. split_and!; cbn [desc info ops].
        -- rewrite !aget_set by (rewrite ?length_insert, L1; lia). rewrite !decide_False by set_solver. done.
        -- rewrite aget_set by (rewrite L4; lia). rewrite decide_False by set_solver. done.
        -- rewrite aget_set by (rewrite L3; lia). rewrite decide_False by set_solver. done.
      * destruct Hne as (N1 & N2 & N3). constructor; cbn [desc info ops]; rewrite ?aget_set by (rewrite ?length_insert, ?L1, ?L3, ?L4; lia).
        -- done.
        -- rewrite (decide_False (P := i0 = i2)), (decide_False (P := i0 = i1)), decide_True by done. done.
        -- rewrite (decide_False (P := i1 = i2)), decide_True by done. done.
        -- by rewrite decide_True.
        -- by rewrite decide_True.
        -- rewrite decide_True by done. eauto.
      * intros n. rewrite aget_set by (rewrite L3; lia). rewrite decide_True by done. by intros [= <-].
    + rewrite !length_insert. apply H.
    + constructor; cbn [set_procs set_dk set_bufs dk bufs procs dfree].
      * intros b' w' Hb'. apply list_lookup_insert_Some in Hb' as [(_ & [=] & _)|[_ Hb']]. pose proof (z_want _ (v_sleep _ _ _ H) b' w' Hb') as Hz.
        eapply Nat.le_lt_trans; [apply (nfree_le l (dfree (dk s)))|exact Hz]; [congruence|]. intros j. rewrite G. by case_decide.
      * intros b' w' j0 j1 j2 v' Hb' Hv'. apply list_lookup_insert_Some in Hb' as [(<- & _ & _)|[Hnb Hb']].
        -- rewrite list_lookup_insert_eq in Hv' by done. by injection Hv' as <-.
        -- rewrite list_lookup_insert_ne in Hv' by done. by eapply (z_wait _ (v_sleep _ _ _ H)).
  - apply abs_eq; unfold submitted; cbn [set_procs set_dk set_bufs dk bufs procs info dsk].
    + intros b'. destruct (decide (b' = b)) as [->|Hnb].
      * rewrite list_lookup_insert_eq, Hb by done. cbn. rewrite aget_set by (rewrite L3; lia). by rewrite decide_True.
      * rewrite list_lookup_insert_ne by done. destruct (procs s !! b') as [[| |w' a j0 j1 j2]|] eqn:E; try done. cbn. rewrite aget_set by (rewrite L3; lia).
        rewrite decide_False; [done|]. intros ->. assert (req_of (procs s) b' = Some (w', i0, j1, j2)) as Hr by (unfold req_of; by rewrite E).
        destruct (head_own _ _ _ _ _ Hr) as (Ho & _). apply (owned_taken HC) in Ho. rewrite Forall_forall in Hfree. specialize (Hfree i0 ltac:(set_solver)). cbn in Hfree. congruence.
    + rewrite list_fmap_insert. cbn. apply list_insert_id. by rewrite list_lookup_fmap, Hv.
    + rewrite list_fmap_insert. cbn. apply list_insert_id. by rewrite list_lookup_fmap, Hv.
    + done.
Qed.

End Ops.

(** Reduce updates of a state given by its fields. *)
Ltac vs := cbn [set_dk set_bufs set_procs with_desc with_avail with_used with_free with_used_idx with_info with_ops dk bufs procs dev_last dev_work dsk
  dfree desc avail_ring avail_idx used_ring used_head used_idx info ops i_status i_b b_blockno b_disk b_data] in *.

Lemma rw_start_wp s P U b w : inv s P U -> procs s !! b = Some (Want w false) ->
  wp (rw_start (Z.of_nat b) w) s (fun _ s' => (exists P', inv s' P' U) /\ abs s' = abs s).
Proof.
  intros H Hb. destruct (inv_lengths H) as (L1 & L2 & L3 & L4). destruct (proc_buf H _ _ Hb) as [v Hv]. pose proof (lookup_lt_Some _ _ _ Hb) as Hlt.
  pose proof (lookup_lt_Some _ _ _ Hv) as Hltv. unfold rw_start. wp_step. apply alloc3_wp; [done | done | |].
  - intros s' HF. destruct (start_failed H b w s' Hb HF) as [Hi Ha]. apply wr_wp; rewrite ?Nat2Z.id.
    + destruct HF as [_ (l & ps & -> & Hwk & _)]. cbn. destruct Hwk as [->| ->]; rewrite ?length_fmap; lia.
    + split; [by exists P | done].
  - intros i0 i1 i2 l Hfree Hne Hl G. pose proof (Forall_inv Hfree) as F0. cbn beta in F0.
    assert (0 <= i0 < 8 /\ 0 <= i1 < 8 /\ 0 <= i2 < 8) as (R0 & R1 & R2).
    { rewrite Forall_forall in Hfree. split_and!; apply (aget_lt (dfree (dk s)) _ true 8); try done; apply Hfree; set_solver. }
    destruct (aget_is_Some (info (dk s)) i0) as [n Hn]; [lia|].
    pose proof (v_avail _ _ _ _ _ _ _ (v_core _ _ _ H)) as Hring. pose proof (ring_data _ _ _ _ Hring) as Hra.
    pose proof (Z.mod_pos_bound (avail_idx (dk s)) NUM eq_refl) as Hmod.
    assert (ring NUM (<[Z.to_nat (avail_idx (dk s) mod NUM) := i0]> (avail_ring (dk s))) (dev_last s) (P ++ [i0])) as Hring'.
    { rewrite (proj2 (v_last _ _ _ _ _ _ _ (v_core _ _ _ H))). unfold u16. rewrite mod_word by (done || by exists (2 ^ 13)).
      apply ring_push; [done | done | by apply (avail_room H i0)]. }
    destruct (start_submitted H b v w i0 i1 i2 l _ Hb Hv Hfree Hne Hl G Hring') as [Hi Ha].
    clear H G Hring Hring' Hfree. unfold submitted in Hi, Ha. set (A := abs s) in *. clearbody A.
    destruct s as [[ds ar ai ur uh fr ui nf os] bs ps dl dw k]. vs.
    wp_step. unfold format. wp_step. apply (rd_wp _ _ v); [by rewrite aget_nat|]. wp_step. apply wr_wp; [vs; lia|]. vs.
    wp_step. apply wr_wp; [vs; lia|]. vs. wp_step. apply wr_wp; [vs; rewrite length_insert; lia|]. vs. wp_step. apply (rd_wp _ _ n); [done|].
    wp_step. apply wr_wp; [vs; lia|]. vs. apply wr_wp; [vs; rewrite !length_insert; lia|]. vs.
    wp_step. unfold submit. wp_step. apply (rd_wp _ _ v); [by rewrite aget_nat|]. wp_step. apply wr_wp; [vs; lia|]. vs.
    wp_step. apply (rd_wp _ _ (mkInfo (i_b n) 0xff)); [vs; rewrite aget_set by lia; by rewrite decide_True|]. wp_step. apply wr_wp; [vs; rewrite length_insert; lia|]. vs.
    wp_step. wp_step. wp_step. eapply wp_from_option; [apply aset_is_Some; vs; unfold NUM in *; lia|]. wp_step. vs. apply wr_wp; [vs; lia|]. vs.
    rewrite !Nat2Z.id, list_insert_insert_eq. split; [by exists (P ++ [i0]) | done].
Qed.

(** ** Ending a request *)

Section FreeChain.
  Context (b : Z) (w : bool) (i0 i1 i2 : Z) (Hne : i0 <> i1 /\ i0 <> i2 /\ i1 <> i2).

Lemma flags_more : (Z.land (Z.lor (if w then 0 else VRING_DESC_F_WRITE) VRING_DESC_F_NEXT) VRING_DESC_F_NEXT =? 0) = false.
Proof. by destruct w. Qed.

(** The descriptors of a chain become free, one after the other. *)
Lemma free_chain_wp s Q : lengths (dk s) ->
  aget (desc (dk s)) i0 = Some (mkDesc (AOps i0) 16 VRING_DESC_F_NEXT i1) ->
  aget (desc (dk s)) i1 = Some (mkDesc (AData b) BSIZE (Z.lor (if w then 0 else VRING_DESC_F_WRITE) VRING_DESC_F_NEXT) i2) ->
  aget (desc (dk s)) i2 = Some (mkDesc (AStatus i0) 1 VRING_DESC_F_WRITE 0) ->
  Forall (fun i => aget (dfree (dk s)) i = Some false) [i0; i1; i2] ->
  (forall l f, length l = 8%nat -> length f = 8%nat -> (forall j, j ∉ [i0; i1; i2] -> aget l j = aget (desc (dk s)) j) ->
    (forall j, aget f j = if decide (j ∈ [i0; i1; i2]) then Some true else aget (dfree (dk s)) j) ->
    Q tt (set_procs (wake_want <$> procs s) (set_dk (fun d => with_free f (with_desc l d)) s))) ->
  wp (free_chain i0) s Q.
Proof.
  intros (L1 & L2 & L3 & L4) D0 D1 D2 Hf HQ. pose proof (aget_lt _ _ _ _ D0 L1) as R0. pose proof (aget_lt _ _ _ _ D1 L1) as R1. pose proof (aget_lt _ _ _ _ D2 L1) as R2.
  assert (aget (dfree (dk s)) i0 = Some false /\ aget (dfree (dk s)) i1 = Some false /\ aget (dfree (dk s)) i2 = Some false) as (F0 & F1 & F2)
    by (rewrite Forall_forall in Hf; split_and!; apply Hf; set_solver).
  destruct Hne as (N1 & N2 & N3). destruct s as [[ds ar ai ur uh fr ui nf os] bs ps dl dw k]. vs.
  specialize (HQ (<[Z.to_nat i2 := desc0]> (<[Z.to_nat i1 := desc0]> (<[Z.to_nat i0 := desc0]> ds))) (<[Z.to_nat i2 := true]> (<[Z.to_nat i1 := true]> (<[Z.to_nat i0 := true]> fr)))).
  unfold free_chain. cbn [loop].
  wp_step. wp_step. apply (rd_wp _ _ _ _ _ D0). wp_step. apply free_desc_wp; [done | done | done|]. unfold freed. vs.
  change (negb (Z.land (d_flags (mkDesc (AOps i0) 16 VRING_DESC_F_NEXT i1)) VRING_DESC_F_NEXT =? 0)) with true. cbn iota. wp_step.
  cbn [d_next]. wp_step. wp_step. eapply rd_wp; [vs; rewrite aget_set by lia; rewrite decide_False by done; exact D1|]. wp_step.
  apply free_desc_wp; [vs; by rewrite length_insert | vs; by rewrite length_insert | vs; rewrite aget_set by lia; by rewrite decide_False|]. unfold freed. vs.
  cbn [d_flags]. rewrite flags_more. cbn [negb]. wp_step.
  cbn [d_next]. wp_step. wp_step. eapply rd_wp; [vs; rewrite !aget_set by (rewrite ?length_insert; lia); rewrite !decide_False by done; exact D2|]. wp_step.
  apply free_desc_wp; [vs; by rewrite !length_insert | vs; by rewrite !length_insert | vs; rewrite !aget_set by (rewrite ?length_insert; lia); by rewrite !decide_False|]. unfold freed. vs.
  change (negb (Z.land (d_flags (mkDesc (AStatus i0) 1 VRING_DESC_F_WRITE 0)) VRING_DESC_F_NEXT =? 0)) with false. cbn iota. wp_step. wp_step.
  rewrite !wake_want_idem. apply HQ; rewrite ?length_insert; try done; intros j; [intros Hj|]; rewrite !aget_set by (rewrite ?length_insert; lia).
  - rewrite !decide_False by set_solver. done.
  - repeat case_decide; try done; set_solver.
Qed.

End FreeChain.

(** What a step does to the abstract disk. *)
Definition simulates (s s' : vst) : Prop := abs s' = abs s \/ astep (abs s) (abs s').

Lemma abs_return s s' b w : areq_of (info (dk s)) <$> (procs s !! b) = Some (ADone w) -> (procs s' !! b) = Some Idle ->
  (forall b', b' <> b -> areq_of (info (dk s')) <$> (procs s' !! b') = areq_of (info (dk s)) <$> (procs s !! b')) ->
  bufs s' = bufs s -> dsk s' = dsk s -> astep (abs s) (abs s').
Proof.
  intros Hb Hb' Hoth Hbs Hk. assert (abs s' = mkAst (a_blk (abs s)) (<[b := ANone]> (a_req (abs s))) (a_data (abs s)) (a_disk (abs s))) as ->.
  { unfold abs. cbn. rewrite Hbs, Hk. f_equal. apply list_eq. intros b1. destruct (procs s !! b) as [p|] eqn:Ep; [|done].
    pose proof (lookup_lt_Some _ _ _ Ep) as Hlt. destruct (decide (b1 = b)) as [->|Hne].
    - rewrite list_lookup_insert_eq by (by rewrite length_fmap). by rewrite list_lookup_fmap, Hb'.
    - rewrite list_lookup_insert_ne by done. rewrite !list_lookup_fmap. by apply Hoth. }
  apply (a_return _ b w). cbn. by rewrite list_lookup_fmap.
Qed.

Lemma rw_end_wp s P U b w i0 i1 i2 : inv s P U -> procs s !! b = Some (Wait w false i0 i1 i2) ->
  wp (rw_end (Z.of_nat b) w i0 i1 i2) s (fun _ s' => inv s' P U /\ simulates s s').
Proof.
  intros H Hb. pose proof (v_core _ _ _ H) as HC. destruct (inv_lengths H) as (L1 & L2 & L3 & L4). destruct (proc_buf H _ _ Hb) as [v Hv].
  pose proof (lookup_lt_Some _ _ _ Hb) as Hlt. assert (req_of (procs s) b = Some (w, i0, i1, i2)) as Hr by (unfold req_of; by rewrite Hb).
  unfold rw_end. wp_step. apply (rd_wp _ _ v); [by rewrite aget_nat|]. destruct (b_disk v) eqn:Ed.
  { apply wr_wp; [lia|]. rewrite Nat2Z.id. split.
    - apply (inv_phase H); [by rewrite length_insert | by apply (req_same _ _ _ _ Hb) | |].
      + intros b' w' Hb'. apply list_lookup_insert_Some in Hb' as [(_ & [=] & _)|[_ Hb']]. by apply (z_want _ (v_sleep _ _ _ H) b' w').
      + intros b' w' j0 j1 j2 v' Hb' Hv'. apply list_lookup_insert_Some in Hb' as [(<- & _ & _)|[_ Hb']]; [congruence|]. by eapply (z_wait _ (v_sleep _ _ _ H)).
    - left. apply abs_eq; [|done..]. intros b'. vs. destruct (decide (b' = b)) as [->|Hne]; [by rewrite list_lookup_insert_eq, Hb | by rewrite list_lookup_insert_ne]. }
  pose proof (v_chain _ _ _ _ _ _ _ HC _ _ _ _ _ _ Hr Hv) as [Hne D0 D1 D2 Hop [st Hst]]. pose proof (aget_lt _ _ _ _ D0 L1) as R0.
  assert (Forall (fun i => aget (dfree (dk s)) i = Some false) [i0; i1; i2]) as Hfr.
  { destruct (head_own _ _ _ _ _ Hr) as (A0 & A1 & A2). repeat constructor; by eapply (owned_taken HC). }
  wp_step. apply (rd_wp _ _ _ _ _ Hst). wp_step. apply wr_wp; [lia|].
  wp_step. apply (free_chain_wp (Z.of_nat b) w i0 i1 i2 Hne); [split_and!; vs; rewrite ?length_insert; done | done..|].
  intros l f Hl Hf Gl Gf. apply wr_wp; [vs; rewrite length_fmap; lia|]. rewrite Nat2Z.id. vs.
  assert ((wake_want <$> procs s) !! b = Some (Wait w false i0 i1 i2)) as Hb' by (by rewrite list_lookup_fmap, Hb).
  assert (forall j, j <> i0 -> aget (<[Z.to_nat i0 := mkInfo None st]> (info (dk s))) j = aget (info (dk s)) j) as Hnf
    by (intros j Hj; rewrite aget_set by lia; by rewrite decide_False).
  split.
  - constructor; vs.
    + eapply (core_ext _ _ _ (rset (req_of (procs s)) b None)).
      { intros b'. rewrite (req_insert _ _ _ _ Hb'). unfold rset. case_decide; [done | apply req_wake]. }
      apply (core_remove HC _ b v w i0 i1 i2); vs; try done; [split_and!; vs; rewrite ?length_insert; done|].
      intros j Hj. split_and!; vs; [by apply Gl | done | apply Hnf; set_solver].
    + by rewrite length_insert, length_fmap, (v_procs _ _ _ H).
    + constructor; vs.
      * intros b' w' Hx. apply list_lookup_insert_Some in Hx as [(_ & [=] & _)|[_ Hx]]. rewrite list_lookup_fmap in Hx. destruct (procs s !! b') as [[]|]; cbn in Hx; congruence.
      * intros b' w' j0 j1 j2 v' Hx Hv'. apply list_lookup_insert_Some in Hx as [(_ & [=] & _)|[_ Hx]]. rewrite list_lookup_fmap in Hx.
        eapply (z_wait _ (v_sleep _ _ _ H) b' w' j0 j1 j2); [|done]. destruct (procs s !! b') as [[]|]; cbn in Hx; congruence.
  - right. apply (abs_return _ _ b w); vs; try done.
    + rewrite Hb. cbn. rewrite Hst. cbn. destruct (v_status _ _ _ _ _ _ _ HC _ _ _ _ _ _ Hr Hst) as [_ S2]. cbn in S2. rewrite S2; [done|].
      pose proof (done_head HC _ _ _ _ _ _ Hr Hv Ed) as Hout. set_solver.
    + rewrite list_lookup_insert_eq; [done | by rewrite length_fmap].
    + intros b' Hnb. rewrite list_lookup_insert_ne by done. rewrite list_lookup_fmap. destruct (procs s !! b') as [[| |w' a j0 j1 j2]|] eqn:E; try done. cbn.
      rewrite Hnf; [done|]. intros ->. apply Hnb. eapply (head_unique HC); [exact Hr|]. unfold req_of. by rewrite E.
Qed.

(** ** The interrupt handler *)

Lemma intr_one_wp s P h U : inv s P (h :: U) -> wp intr_one s (fun _ s' => inv s' P U /\ abs s' = abs s /\ used_head (dk s') = used_head (dk s)).
Proof.
  intros H. pose proof (v_core _ _ _ H) as HC. destruct (inv_lengths H) as (L1 & L2 & L3 & L4).
  destruct (v_heads _ _ _ _ _ _ _ HC h) as (b & w & i1 & i2 & v & Hr & Hv & Hd); [set_solver|].
  destruct (v_chain _ _ _ _ _ _ _ HC _ _ _ _ _ _ Hr Hv) as [_ _ _ _ _ [st Hst]]. pose proof (lookup_lt_Some _ _ _ Hv) as Hlt.
  pose proof (v_nodup _ _ _ _ _ _ _ HC) as Hnd. rewrite app_assoc in Hnd. apply NoDup_app in Hnd as (_ & Hnd & _).
  assert (st = 0) as ->.
  { destruct (v_status _ _ _ _ _ _ _ HC _ _ _ _ _ _ Hr Hst) as [_ S2]. cbn in S2. apply S2. intros Hin. apply (Hnd h Hin). set_solver. }
  destruct (ring_pop _ _ _ _ (v_used _ _ _ _ _ _ _ HC)) as [Hu _]. pose proof (Z.mod_pos_bound (used_idx (dk s)) NUM eq_refl) as Hm.
  unfold intr_one. wp_step. wp_step. wp_step. eapply wp_from_option; [apply aget_lookup; split; [lia | exact Hu]|].
  wp_step. apply (rd_wp _ _ _ _ _ Hst). cbn [i_status i_b]. change (negb (0 =? 0)) with false. cbn iota. wp_step. eapply wp_from_option; [done|].
  wp_step. apply (rd_wp _ _ v); [by rewrite aget_nat|]. wp_step. apply wr_wp; [lia|]. wp_step. unfold wakeup_buf. wp_step. wp_step. rewrite !Nat2Z.id. vs.
  assert (forall b', req_of (alter wake_wait b (procs s)) b' = req_of (procs s) b') as Hreq by (intros b'; apply req_alter; by intros []).
  split; [|split; [|done]].
  - constructor; vs.
    + eapply core_ext; [exact Hreq|]. by apply (core_ack HC h U b w i1 i2 v).
    + rewrite length_alter, length_insert. apply H.
    + constructor; vs.
      * intros b' w' Hx. destruct (decide (b' = b)) as [->|Hne]; [rewrite list_lookup_alter_eq in Hx; destruct (procs s !! b) as [[]|] eqn:E; cbn in Hx; try done; injection Hx as -> ->; by apply (z_want _ (v_sleep _ _ _ H) b w')|].
        rewrite list_lookup_alter_ne in Hx by done. by apply (z_want _ (v_sleep _ _ _ H) b' w').
      * intros b' w' j0 j1 j2 v' Hx Hv'. destruct (decide (b' = b)) as [->|Hne]; [rewrite list_lookup_alter_eq in Hx; by destruct (procs s !! b) as [[]|]|].
        rewrite list_lookup_alter_ne in Hx by done. rewrite list_lookup_insert_ne in Hv' by done. by eapply (z_wait _ (v_sleep _ _ _ H)).
  - apply abs_eq; vs; [|rewrite list_fmap_insert; cbn; apply list_insert_id; by rewrite list_lookup_fmap, Hv..|done].
    intros b'. destruct (decide (b' = b)) as [->|Hne]; [|by rewrite list_lookup_alter_ne]. rewrite list_lookup_alter_eq. by destruct (procs s !! b) as [[]|].
Qed.

Lemma used_pending s P U : inv s P U -> (used_idx (dk s) =? used_head (dk s)) = bool_decide (U = []) /\ u16 (used_head (dk s) - used_idx (dk s)) = Z.of_nat (length U).
Proof.
  intros H. destruct (v_uidx _ _ _ _ _ _ _ (v_core _ _ _ H)) as [Hr Hh]. pose proof (ring_room _ _ _ _ (v_used _ _ _ _ _ _ _ (v_core _ _ _ H))) as Hl.
  rewrite Hh. unfold u16, NUM in *. change (2 ^ 16) with 65536 in *. split; [|dlia]. destruct U as [|h U].
  - rewrite bool_decide_true by done. cbn [length]. apply Z.eqb_eq. dlia.
  - rewrite bool_decide_false by done. apply Z.eqb_neq. cbn [length] in *. dlia.
Qed.

Lemma intr_wp s P U : inv s P U -> wp virtio_disk_intr s (fun _ s' => inv s' P [] /\ abs s' = abs s).
Proof.
  intros H. unfold virtio_disk_intr. wp_step. wp_step. rewrite (proj2 (used_pending _ _ _ H)), Nat2Z.id.
  remember (S (length U)) as fuel eqn:Ef. assert (length U < fuel)%nat as Hf by lia. clear Ef. revert s U H Hf.
  induction fuel as [|fuel IH]; intros s U H Hf; [lia|]. cbn [loop]. wp_step. wp_step. wp_step. rewrite (proj1 (used_pending _ _ _ H)). case_bool_decide as E.
  - subst U. wp_step. by wp_step.
  - destruct U as [|h U]; [done|]. wp_step. eapply wp_mono; [by apply (intr_one_wp s P h U)|]. intros [] s1 (H1 & A1 & _). wp_step.
    cbn [length] in Hf. eapply wp_mono; [apply (IH s1 U H1); lia|]. intros [] s2 (H2 & A2). split; [done | congruence].
Qed.

(** ** The device *)

Lemma fetch_wp s P U : inv s P U -> dev_last s <> avail_idx (dk s) -> wp dev_fetch s (fun _ s' => (exists P', inv s' P' U) /\ abs s' = abs s).
Proof.
  intros H Hne. pose proof (v_core _ _ _ H) as HC. destruct P as [|h P].
  { exfalso. apply Hne. destruct (v_last _ _ _ _ _ _ _ HC) as [Hr ->]. unfold u16. cbn [length]. rewrite Z.add_0_r, Z.mod_small; done. }
  destruct (ring_pop _ _ _ _ (v_avail _ _ _ _ _ _ _ HC)) as [Hh _]. pose proof (Z.mod_pos_bound (dev_last s) NUM eq_refl).
  unfold dev_fetch. wp_step. wp_step. wp_step. eapply wp_from_option; [apply aget_lookup; split; [lia | exact Hh]|]. wp_step. split; [|done].
  exists P. constructor; vs; [by apply (core_fetch HC) | apply H|]. constructor; vs; apply (v_sleep _ _ _ H).
Qed.

(** The device finds a proper request in every chain it has fetched. *)
Lemma dev_request_ok s P U b w i0 i1 i2 v : inv s P U -> req_of (procs s) b = Some (w, i0, i1, i2) -> bufs s !! b = Some v ->
  dev_request s i0 = Some (w, sector_of (b_blockno v), Z.of_nat b, i0).
Proof.
  intros H Hr Hv. destruct (v_chain _ _ _ _ _ _ _ (v_core _ _ _ H) _ _ _ _ _ _ Hr Hv) as [_ D0 D1 D2 Ho _].
  unfold dev_request. rewrite D0. cbn. rewrite Ho. cbn. rewrite D1. cbn. rewrite D2. cbn. by destruct w.
Qed.

Lemma used_room s P U h : inv s P U -> h ∈ dev_work s -> Z.of_nat (length U) < NUM.
Proof.
  intros H Hw. pose proof (v_core _ _ _ H) as HC. pose proof (v_nodup _ _ _ _ _ _ _ HC) as Hn. apply NoDup_app in Hn as (_ & _ & (_ & Hd & Hn)%NoDup_app).
  assert (length (h :: U) <= 8)%nat as Hlen; [|cbn [length] in Hlen; unfold NUM; lia]. apply heads_room; [constructor; [by apply Hd | done]|].
  intros x Hx. apply (heads_range HC). set_solver.
Qed.

(** The abstract step of a transfer. *)
Lemma abs_transfer s s' b w v : bufs s !! b = Some v -> areq_of (info (dk s)) <$> (procs s !! b) = Some (AAsk w) ->
  (forall b', areq_of (info (dk s')) <$> (procs s' !! b') = if decide (b' = b) then Some (ADone w) else areq_of (info (dk s)) <$> (procs s !! b')) ->
  b_blockno <$> bufs s' = b_blockno <$> bufs s ->
  (if w then b_data <$> bufs s' = b_data <$> bufs s /\ dsk s' = (fun x => if x =? sector_of (b_blockno v) then b_data v else dsk s x)
   else b_data <$> bufs s' = <[b := dsk s (sector_of (b_blockno v))]> (b_data <$> bufs s) /\ dsk s' = dsk s) -> astep (abs s) (abs s').
Proof.
  intros Hv Hb Hoth Hbn Hw. assert (areq_of (info (dk s')) <$> procs s' = <[b := ADone w]> (areq_of (info (dk s)) <$> procs s)) as Hreq.
  { apply list_eq. intros b1. rewrite list_lookup_fmap, Hoth. case_decide as E; [subst|by rewrite list_lookup_insert_ne, list_lookup_fmap].
    rewrite list_lookup_insert_eq; [done|]. rewrite length_fmap. destruct (procs s !! b) eqn:Ep; [by eapply lookup_lt_Some | done]. }
  assert (a_req (abs s) !! b = Some (AAsk w)) as Hask by (cbn; by rewrite list_lookup_fmap).
  assert (a_blk (abs s) !! b = Some (b_blockno v)) as Hbl by (cbn; by rewrite list_lookup_fmap, Hv).
  assert (a_data (abs s) !! b = Some (b_data v)) as Hda by (cbn; by rewrite list_lookup_fmap, Hv).
  destruct w; destruct Hw as [Hd Hk].
  - pose proof (a_write _ _ _ _ Hask Hbl Hda) as Hs. unfold abs at 2. rewrite Hreq, Hbn, Hd, Hk. exact Hs.
  - pose proof (a_read _ _ _ Hask Hbl) as Hs. unfold abs at 2. rewrite Hreq, Hbn, Hd, Hk. exact Hs.
Qed.

Lemma req_phase ps b x : req_of ps b = Some x -> exists a, ps !! b = Some (Wait x.1.1.1 a x.1.1.2 x.1.2 x.2).
Proof. unfold req_of. destruct (ps !! b) as [[| |w a i0 i1 i2]|] eqn:E; try done. cbn. intros [= <-]. by exists a. Qed.
Lemma req_asked nf ps b w h i1 i2 c : req_of ps b = Some (w, h, i1, i2) -> aget nf h = Some (mkInfo c 0xff) -> areq_of nf <$> (ps !! b) = Some (AAsk w).
Proof. intros [a ->]%req_phase Hn. cbn. by rewrite Hn. Qed.
Lemma req_done nf ps b w h i1 i2 c : req_of ps b = Some (w, h, i1, i2) -> aget nf h = Some (mkInfo c 0) -> areq_of nf <$> (ps !! b) = Some (ADone w).
Proof. intros [a ->]%req_phase Hn. cbn. by rewrite Hn. Qed.
Lemma req_kept {d bs last ps P W U} (HC : core d bs last (req_of ps) P W U) nf b w h i1 i2 b' : req_of ps b = Some (w, h, i1, i2) -> b' <> b ->
  (forall j, j <> h -> aget nf j = aget (info d) j) -> areq_of nf <$> (ps !! b') = areq_of (info d) <$> (ps !! b').
Proof.
  intros Hr Hne Hj. destruct (ps !! b') as [[| |w' a j0 j1 j2]|] eqn:E; try done. cbn. rewrite Hj; [done|]. intros ->.
  apply Hne. eapply (head_unique HC); [exact Hr|]. unfold req_of. by rewrite E.
Qed.

(** The data of the request moves. *)
Lemma serve_data_wp s b v (w : bool) Q : bufs s !! b = Some v ->
  (forall bs k, bs = <[b := mkVbuf (b_blockno v) (b_disk v) (if w then b_data v else dsk s (sector_of (b_blockno v)))]> (bufs s) ->
     k = (if w then fun x => if x =? sector_of (b_blockno v) then b_data v else dsk s x else dsk s) ->
     Q tt (mkVst (dk s) bs (procs s) (dev_last s) (dev_work s) k)) ->
  wp (if w then modify (fun s => mkVst (dk s) (bufs s) (procs s) (dev_last s) (dev_work s) (fun x => if x =? sector_of (b_blockno v) then b_data v else dsk s x))
      else wr_buf (Z.of_nat b) (mkVbuf (b_blockno v) (b_disk v) (dsk s (sector_of (b_blockno v))))) s Q.
Proof.
  intros Hv HQ. pose proof (lookup_lt_Some _ _ _ Hv). destruct w.
  - wp_step. apply HQ; [|done]. symmetry. apply list_insert_id. by destruct v.
  - apply wr_wp; [lia|]. rewrite Nat2Z.id. by apply HQ.
Qed.

Lemma inv_serve {s P U} (H : inv s P U) b v d dat dw U' k : bufs s !! b = Some v -> dfree d = dfree (dk s) ->
  core d (<[b := mkVbuf (b_blockno v) (b_disk v) dat]> (bufs s)) (dev_last s) (req_of (procs s)) P dw U' ->
  inv (mkVst d (<[b := mkVbuf (b_blockno v) (b_disk v) dat]> (bufs s)) (procs s) (dev_last s) dw k) P U'.
Proof.
  intros Hv Hf HC. constructor; vs; [done | rewrite length_insert; apply H|]. constructor; vs.
  - rewrite Hf. apply (v_sleep _ _ _ H).
  - intros b' w i0 i1 i2 v' Hb' Hv'. pose proof (z_wait _ (v_sleep _ _ _ H) b' w i0 i1 i2) as Hz. apply list_lookup_insert_Some in Hv' as [(<- & <- & _)|[_ Hv']]; [exact (Hz v Hb' Hv) | eauto].
Qed.

Lemma serve_wp s P U h : inv s P U -> h ∈ dev_work s -> wp (dev_serve h) s (fun _ s' => (exists U', inv s' P U') /\ astep (abs s) (abs s')).
Proof.
  intros H Hw. pose proof (v_core _ _ _ H) as HC. destruct (inv_lengths H) as (L1 & L2 & L3 & L4).
  destruct (v_heads _ _ _ _ _ _ _ HC h) as (b & w & i1 & i2 & v & Hr & Hv & Hd); [set_solver|].
  pose proof (v_chain _ _ _ _ _ _ _ HC _ _ _ _ _ _ Hr Hv) as [_ D0 _ _ _ [st Hst]]. pose proof (aget_lt _ _ _ _ D0 L1) as R0. pose proof (lookup_lt_Some _ _ _ Hv) as Hlt.
  assert (st = 0xff) as ->.
  { destruct (v_status _ _ _ _ _ _ _ HC _ _ _ _ _ _ Hr Hst) as [S1 _]. cbn in S1. apply S1. set_solver. }
  pose proof (v_used _ _ _ _ _ _ _ HC) as Hring. pose proof (ring_data _ _ _ _ Hring) as Hra. pose proof (Z.mod_pos_bound (used_head (dk s)) NUM eq_refl) as Hmod.
  assert (ring NUM (<[Z.to_nat (used_head (dk s) mod NUM) := h]> (used_ring (dk s))) (used_idx (dk s)) (U ++ [h])) as Hring'.
  { rewrite (proj2 (v_uidx _ _ _ _ _ _ _ HC)). unfold u16. rewrite mod_word by (done || by exists (2 ^ 13)).
    apply ring_push; [done | done | by apply (used_room s P U h)]. }
  pose proof (core_serve HC h b w i1 i2 v (<[Z.to_nat h := mkInfo (Some (Z.of_nat b)) 0]> (info (dk s))) _ Hw Hr Hv ltac:(by rewrite length_insert)
    ltac:(intros j Hj; rewrite aget_set by lia; by rewrite decide_False) ltac:(rewrite aget_set by lia; by rewrite decide_True) Hring') as Hcore.
  assert (areq_of (info (dk s)) <$> (procs s !! b) = Some (AAsk w)) as Hask by (by eapply req_asked).
  unfold dev_serve. wp_step. wp_step. wp_step. eapply wp_from_option; [by apply (dev_request_ok s P U b w h i1 i2 v)|].
  cbn beta iota. wp_step. apply (rd_wp _ _ v); [by rewrite aget_nat|]. wp_step.
  apply (serve_data_wp s b v w); [done|]. intros bs' k' Hbs' Hk. specialize (Hcore (if w then b_data v else dsk s (sector_of (b_blockno v)))). rewrite <- Hbs' in Hcore.
  wp_step. eapply rd_wp; [exact Hst|]. wp_step. apply wr_wp; [vs; lia|]. wp_step. wp_step. wp_step. vs.
  eapply wp_from_option; [apply aset_is_Some; unfold NUM in *; lia|]. wp_step. split.
  - exists (U ++ [h]). rewrite Hbs' in *. by apply (inv_serve H b v).
  - apply (abs_transfer _ _ b w v); vs; [done | done | | by rewrite Hbs', list_fmap_insert; apply list_insert_id; rewrite list_lookup_fmap, Hv |].
    + intros b'. case_decide as E; [subst b'; eapply req_done; [exact Hr|]; rewrite aget_set by lia; by rewrite decide_True|].
      eapply (req_kept HC); [exact Hr | done|]. intros j Hj. rewrite aget_set by lia. by rewrite decide_False.
    + rewrite Hbs', list_fmap_insert. destruct w; split; try done. cbn. apply list_insert_id. by rewrite list_lookup_fmap, Hv.
Qed.

(** ** Every step *)

Lemma free_all_pwp {A} log (a : A) d : length (dfree d) = 8%nat ->
  pwp (for_range 0 NUM (fun i => s <- get ;; l <- from_option "free" (aset (dfree (vi_disk s)) i true) ;; on_disk (with_free l))) (mkVini log a d)
    (fun _ s => vi_disk s = with_free (replicate 8 true) d).
Proof.
  destruct d as [ds ar ai ur uh fr ui nf os]. cbn [dfree]. intros Hl. do 8 (destruct fr as [|? fr]; [done|]). destruct fr; [|done].
  intros [] s' E. cbv in E. by injection E as <-.
Qed.

(** The driver is initialised, whatever the device and the allocator do. *)
Lemma init_pwp {A} `{PA : PageAllocator A} mmio log (a : A) :
  pwp (virtio_disk_init mmio) (mkVini log a bss_disk) (fun _ s => vi_disk s = disk0).
Proof.
  unfold virtio_disk_init. pwp_step. eapply (pwp_mono _ _ (fun _ s => vi_disk s = bss_disk)).
  { unfold init_features, rd_reg, wr_reg. repeat (pwp_step || case_if || cbn beta zeta iota). done. }
  intros status [log1 a1 dk1] Hd. cbn in Hd. subst dk1. pwp_step. eapply (pwp_mono _ _ (fun _ s => vi_disk s = disk0)).
  - unfold init_queue, rd_reg, wr_reg, wr_addr, on_disk, vi_kalloc, wr_reg.
    repeat (case_if || (pwp_step; cbn beta zeta iota; cbn [vi_log vi_al vi_disk]) || (match goal with |- pwp pa_alloc _ _ => intros ? ? _; cbn beta end)).
    by eapply pwp_mono; [apply free_all_pwp | intros [] s ->].
  - intros [] s Hs. unfold wr_reg. by pwp_step.
Qed.

Lemma ret_wp {A} (m : M vst A) s a s' (Q : A -> vst -> Prop) : m s = Ret (a, s') -> wp m s Q -> Q a s'.
Proof. intros E (a' & s1 & E' & HQ). rewrite E in E'. by injection E' as -> ->. Qed.

Lemma call_inv s P U b w : inv s P U -> procs s !! b = Some Idle ->
  inv (set_procs (<[b := Want w false]> (procs s)) s) P U /\ astep (abs s) (abs (set_procs (<[b := Want w false]> (procs s)) s)).
Proof.
  intros H Hb. split.
  - apply (inv_phase H); [by rewrite length_insert | by apply (req_same _ _ _ _ Hb) | |].
    + intros b' w' [(_ & [=] & _)|[_ Hx]]%list_lookup_insert_Some. by apply (z_want _ (v_sleep _ _ _ H) b' w').
    + intros b' w' j0 j1 j2 v [(_ & [=] & _)|[_ Hx]]%list_lookup_insert_Some. by apply (z_wait _ (v_sleep _ _ _ H) b' w' j0 j1 j2).
  - unfold abs at 2. vs. rewrite list_fmap_insert. apply (a_ask (abs s) b w). cbn. by rewrite list_lookup_fmap, Hb.
Qed.

(** [kill] makes a sleeper look again at what it waits for. *)
Lemma kill_inv s P U b : inv s P U ->
  inv (set_procs (alter (fun p => wake_wait (wake_want p)) b (procs s)) s) P U /\ abs (set_procs (alter (fun p => wake_wait (wake_want p)) b (procs s)) s) = abs s.
Proof.
  intros H. split.
  - apply (inv_phase H); [by rewrite length_alter | intros b'; apply req_alter; by intros [] | |].
    + intros b' w' Hx. destruct (decide (b' = b)) as [->|Hne]; [rewrite list_lookup_alter_eq in Hx; by destruct (procs s !! b) as [[]|]|].
      rewrite list_lookup_alter_ne in Hx by done. by apply (z_want _ (v_sleep _ _ _ H) b' w').
    + intros b' w' j0 j1 j2 v Hx. destruct (decide (b' = b)) as [->|Hne]; [rewrite list_lookup_alter_eq in Hx; by destruct (procs s !! b) as [[]|]|].
      rewrite list_lookup_alter_ne in Hx by done. by apply (z_wait _ (v_sleep _ _ _ H) b' w' j0 j1 j2).
  - apply abs_eq; [|done..]. intros b'. vs. destruct (decide (b' = b)) as [->|Hne]; [|by rewrite list_lookup_alter_ne].
    rewrite list_lookup_alter_eq. by destruct (procs s !! b) as [[]|].
Qed.

Lemma step_inv s s' P U : inv s P U -> step s s' -> (exists P' U', inv s' P' U') /\ simulates s s'.
Proof.
  intros H Hs. unfold simulates. destruct Hs as [s b w Hb | s s' b w Hb E | s s' b w i0 i1 i2 Hb E | s s' E | s s' Hne E | s s' h Hh E | s b].
  - destruct (call_inv s P U b w H Hb) as [? ?]. eauto.
  - destruct (ret_wp _ _ _ _ _ E (rw_start_wp s P U b w H Hb)) as [[P' ?] ?]. eauto.
  - destruct (ret_wp _ _ _ _ _ E (rw_end_wp s P U b w i0 i1 i2 H Hb)) as [? ?]. eauto.
  - destruct (ret_wp _ _ _ _ _ E (intr_wp s P U H)) as [? ?]. eauto.
  - destruct (ret_wp _ _ _ _ _ E (fetch_wp s P U H Hne)) as [[P' ?] ?]. eauto.
  - destruct (ret_wp _ _ _ _ _ E (serve_wp s P U h H Hh)) as [[U' ?] ?]. eauto.
  - destruct (kill_inv s P U b H) as [? ?]. eauto.
Qed.

Lemma vreach_inv bs d s : rtc step (vstart disk0 bs d) s -> exists P U, inv s P U.
Proof.
  intros Hr. remember (vstart disk0 bs d) as s0 eqn:E. assert (exists P U, inv s0 P U) as H0 by (subst; do 2 eexists; apply inv_init). clear E.
  induction Hr as [s|s1 s2 s3 Hs _ IH]; [done|]. apply IH. destruct H0 as (P & U & H0). by apply (step_inv _ _ _ _ H0) in Hs as [? _].
Qed.

(** ** The driver refines a disk of atomic transfers *)

(** An operation returns, without a panic and without a fault. *)
Definition returns {A} (m : M vst A) (s : vst) : Prop := exists a s', m s = Ret (a, s').
Lemma returns_wp {A} (m : M vst A) s Q : wp m s Q -> returns m s.
Proof. intros (a & s' & E & _). by exists a, s'. Qed.

(** C6: from [virtio_disk_init] on, for any number of processes that transfer
    their buffers at the same time, any interleaving with the interrupt
    handler and with a device that serves what it has fetched in any order:
    every section that can run returns (no descriptor is freed twice, no
    status is bad, no null buffer is used); each step changes the abstract
    disk not at all or by one of its atomic steps, so every call of
    [virtio_disk_rw] makes exactly one transfer between its buffer and its
    block before it returns; and a process sleeps only as long as fewer than
    three descriptors are free, or the device has not finished its request. *)
Theorem virtio_refines {A} `{PA : PageAllocator A} (mmio : list (Z * Z) -> Z -> Z) log (a : A) s0 bs d s :
  virtio_disk_init mmio (mkVini log a bss_disk) = Ret (tt, s0) -> rtc step (vstart (vi_disk s0) bs d) s ->
  (forall b w, procs s !! b = Some (Want w false) -> returns (rw_start (Z.of_nat b) w) s)
  /\ (forall b w i0 i1 i2, procs s !! b = Some (Wait w false i0 i1 i2) -> returns (rw_end (Z.of_nat b) w i0 i1 i2) s)
  /\ returns virtio_disk_intr s
  /\ (dev_last s <> avail_idx (dk s) -> returns dev_fetch s)
  /\ (forall h, h ∈ dev_work s -> returns (dev_serve h) s)
  /\ (forall s', step s s' -> abs s' = abs s \/ astep (abs s) (abs s'))
  /\ (forall b w, procs s !! b = Some (Want w true) -> (nfree (dfree (dk s)) < 3)%nat)
  /\ (forall b w i0 i1 i2 v, procs s !! b = Some (Wait w true i0 i1 i2) -> bufs s !! b = Some v -> b_disk v = true).
Proof.
  intros Hi Hr. pose proof (init_pwp mmio log a) as Hp. specialize (Hp tt s0 Hi). cbn beta in Hp. rewrite Hp in Hr.
  apply vreach_inv in Hr as (P & U & H). split_and!.
  - intros b w Hb. eapply returns_wp, rw_start_wp; eauto.
  - intros b w i0 i1 i2 Hb. eapply returns_wp, rw_end_wp; eauto.
  - eapply returns_wp, intr_wp; eauto.
  - intros Hne. eapply returns_wp, fetch_wp; eauto.
  - intros h Hh. eapply returns_wp, serve_wp; eauto.
  - intros s' Hs. by apply (step_inv _ _ _ _ H) in Hs as [_ ?].
  - apply (v_sleep _ _ _ H).
  - apply (v_sleep _ _ _ H).
Qed.

(** ** A run *)

Definition run (m : M vst unit) (s : vst) : vst := match m s with Ret (_, s') => s' | _ => s end.

(** The device of QEMU, as far as the driver looks at it. *)
Definition qemu (log : list (Z * Z)) (r : Z) : Z :=
  if r =? VIRTIO_MMIO_MAGIC_VALUE then 0x74726976
  else if (r =? VIRTIO_MMIO_VERSION) || (r =? VIRTIO_MMIO_DEVICE_ID) then 2
  else if r =? VIRTIO_MMIO_VENDOR_ID then 0x554d4551
  else if r =? VIRTIO_MMIO_QUEUE_NUM_MAX then 1024
  else match filter (fun p => p.1 = r) log with (_, v) :: _ => v | [] => 0 end.
Definition booted : vini := match virtio_disk_init qemu (mkVini [] (4096 : bump) bss_disk) with Ret (_, s) => s | _ => mkVini [] (4096 : bump) bss_disk end.

(** A read of block 3 and a write of block 5 at the same time. *)
Definition run0 : vst := vstart (vi_disk booted) [mkVbuf 3 false [0]; mkVbuf 5 false [7]] (fun x => [x]).
Definition run1 : vst := set_procs (<[0%nat := Want false false]> (procs run0)) run0.
Definition run2 : vst := run (rw_start 0 false) run1.
Definition run3 : vst := set_procs (<[1%nat := Want true false]> (procs run2)) run2.
Definition run4 : vst := run (rw_start 1 true) run3.
Definition run5 : vst := run dev_fetch run4.
Definition run6 : vst := run dev_fetch run5.
(** The device serves the second request first. *)
Definition run7 : vst := run (dev_serve 3) run6.
Definition run8 : vst := run virtio_disk_intr run7.

Lemma run_steps : rtc step run0 run8.
Proof.
  apply (rtc_l _ _ run1); [apply (st_call run0 0%nat false); vm_compute; reflexivity|].
  apply (rtc_l _ _ run2); [apply (st_start _ _ 0%nat false); vm_compute; reflexivity|].
  apply (rtc_l _ _ run3); [apply (st_call run2 1%nat true); vm_compute; reflexivity|].
  apply (rtc_l _ _ run4); [apply (st_start _ _ 1%nat true); vm_compute; reflexivity|].
  apply (rtc_l _ _ run5); [apply st_fetch; [vm_compute; discriminate | vm_compute; reflexivity]|].
  apply (rtc_l _ _ run6); [apply st_fetch; [vm_compute; discriminate | vm_compute; reflexivity]|].
  apply (rtc_l _ _ run7); [apply (st_serve _ _ 3); [vm_compute; right; left | vm_compute; reflexivity]|].
  apply rtc_once. apply st_intr. vm_compute. reflexivity.
Qed.

Lemma virtio_refines_witness :
  a_req (abs run8) = [AAsk false; ADone true] /\ dsk run8 10 = [7] /\ returns (rw_end 1 true 3 4 5) run8 /\ returns (dev_serve 0) run8.
Proof.
  destruct (virtio_refines qemu [] (4096 : bump) booted [mkVbuf 3 false [0]; mkVbuf 5 false [7]] (fun x => [x]) run8) as (_ & He & _ & _ & Hs & _).
  - vm_compute. reflexivity.
  - exact run_steps.
  - split; [vm_compute; reflexivity|]. split; [vm_compute; reflexivity|]. split.
    + apply (He 1%nat true 3 4 5). vm_compute. reflexivity.
    + apply (Hs 0). vm_compute. left.
Defined.
