(* ===== verification/Riscv.v ===== *)
(** * The hart and the machine-mode start (kernel/riscv.h, start.c)

    The control and status registers of one RISC-V hart with the accessors of
    riscv.h, the three instructions and events of the privileged
    architecture that the kernel relies on (a trap into supervisor mode,
    [sret], [mret]), and [start] with [timerinit].  Registers of memory-mapped
    devices and the scratch area of the timer are words of [io]. *)

From S2P Require Import Prelude.

Inductive reg :=
| mhartid | mstatus | mepc | mie | mip | medeleg | mideleg | mtvec | mscratch | mcounteren | pmpcfg0 | pmpaddr0
| sepc | stvec | satp | scause | stval | time | tp | sp | ra.

#[global] Instance reg_eq_dec : EqDecision reg.
Proof. solve_decision. Defined.

Inductive priv := User | Supervisor | Machine.

Record hart := mkHart {
  csr : reg -> Z;
  mode : priv;
  pc : Z;
  io : mem;
  pending : list Z;      (* the interrupts that the PLIC has for this hart *)
  serving : list Z       (* those it has handed out *)
}.

Definition set_csr (r : reg) (v : Z) (h : hart) : hart :=
  mkHart (fun r' => if decide (r' = r) then u64 v else csr h r') (mode h) (pc h) (io h) (pending h) (serving h).
Definition set_io (a v : Z) (h : hart) : hart := mkHart (csr h) (mode h) (pc h) (upd (io h) a v) (pending h) (serving h).
Definition jump (m : priv) (a : Z) (h : hart) : hart := mkHart (csr h) m a (io h) (pending h) (serving h).

(** A 64-bit word with one bit set or cleared. *)
Definition put_bit (x i : Z) (b : bool) : Z := if b then Z.setbit x i else Z.clearbit x i.

(** ** The accessors of riscv.h *)

Definition MSTATUS_MPP_MASK : Z := Z.shiftl 3 11.
Definition MSTATUS_MPP_S : Z := Z.shiftl 1 11.
Definition MSTATUS_MIE : Z := Z.shiftl 1 3.
Definition SSTATUS_SPP : Z := Z.shiftl 1 8.
Definition SSTATUS_SPIE : Z := Z.shiftl 1 5.
Definition SSTATUS_SIE : Z := Z.shiftl 1 1.
Definition SIE_SEIE : Z := Z.shiftl 1 9.
Definition SIE_STIE : Z := Z.shiftl 1 5.
Definition SIE_SSIE : Z := Z.shiftl 1 1.
Definition MIE_MTIE : Z := Z.shiftl 1 7.
Definition SATP_SV39 : Z := Z.shiftl 8 60.
Definition MAKE_SATP (pagetable : Z) : Z := Z.lor SATP_SV39 (Z.shiftr pagetable 12).

(** [sstatus] is the part of [mstatus] that supervisor mode may see. *)
Definition SSTATUS_BITS : Z := 0x80000003000DE133.
(** Only the interrupts of supervisor mode can be delegated. *)
Definition DELEGABLE : Z := 0x222.

(** [x] where [m] has a one, [y] elsewhere. *)
Definition mask_in (m x y : Z) : Z := Z.lor (Z.land x m) (Z.land y (Z.lnot m)).

Definition rd_csr (r : reg) : M hart Z := gets (fun h => csr h r).
Definition wr_csr (r : reg) (v : Z) : M hart unit := modify (set_csr r v).

Definition r_mhartid : M hart Z := rd_csr mhartid.
Definition r_mstatus : M hart Z := rd_csr mstatus.
Definition w_mstatus : Z -> M hart unit := wr_csr mstatus.
Definition w_mepc : Z -> M hart unit := wr_csr mepc.
Definition r_sstatus : M hart Z := x <- rd_csr mstatus ;; ret (Z.land x SSTATUS_BITS).
Definition w_sstatus (x : Z) : M hart unit := m <- rd_csr mstatus ;; wr_csr mstatus (mask_in SSTATUS_BITS x m).
(** [sip] and [sie] are the delegated bits of [mip] and [mie]; software can
    write only bit 1 of [sip]. *)
Definition r_sip : M hart Z := x <- rd_csr mip ;; d <- rd_csr mideleg ;; ret (Z.land x d).
Definition w_sip (x : Z) : M hart unit := m <- rd_csr mip ;; d <- rd_csr mideleg ;; wr_csr mip (mask_in (Z.land d 2) x m).
Definition r_sie : M hart Z := x <- rd_csr mie ;; d <- rd_csr mideleg ;; ret (Z.land x d).
Definition w_sie (x : Z) : M hart unit := m <- rd_csr mie ;; d <- rd_csr mideleg ;; wr_csr mie (mask_in d x m).
Definition r_mie : M hart Z := rd_csr mie.
Definition w_mie : Z -> M hart unit := wr_csr mie.
Definition w_sepc : Z -> M hart unit := wr_csr sepc.
Definition r_sepc : M hart Z := rd_csr sepc.
Definition r_medeleg : M hart Z := rd_csr medeleg.
Definition w_medeleg : Z -> M hart unit := wr_csr medeleg.
Definition r_mideleg : M hart Z := rd_csr mideleg.
Definition w_mideleg (x : Z) : M hart unit := wr_csr mideleg (Z.land x DELEGABLE).
Definition w_stvec : Z -> M hart unit := wr_csr stvec.
Definition r_stvec : M hart Z := rd_csr stvec.
Definition w_mtvec : Z -> M hart unit := wr_csr mtvec.
Definition w_pmpcfg0 : Z -> M hart unit := wr_csr pmpcfg0.
Definition w_pmpaddr0 : Z -> M hart unit := wr_csr pmpaddr0.
Definition w_satp : Z -> M hart unit := wr_csr satp.
Definition r_satp : M hart Z := rd_csr satp.
Definition w_mscratch : Z -> M hart unit := wr_csr mscratch.
Definition r_scause : M hart Z := rd_csr scause.
Definition r_stval : M hart Z := rd_csr stval.
Definition w_mcounteren : Z -> M hart unit := wr_csr mcounteren.
Definition r_mcounteren : M hart Z := rd_csr mcounteren.
Definition r_time : M hart Z := rd_csr time.
Definition r_sp : M hart Z := rd_csr sp.
Definition r_ra : M hart Z := rd_csr ra.
Definition r_tp : M hart Z := rd_csr tp.
Definition w_tp : Z -> M hart unit := wr_csr tp.

Definition intr_on : M hart unit := x <- r_sstatus ;; w_sstatus (Z.lor x SSTATUS_SIE).
Definition intr_off : M hart unit := x <- r_sstatus ;; w_sstatus (Z.land x (Z.lnot SSTATUS_SIE)).
Definition intr_get : M hart bool := x <- r_sstatus ;; ret (negb (Z.land x SSTATUS_SIE =? 0)).

(** [cpuid] of proc.c. *)
Definition cpuid : M hart Z := x <- r_tp ;; ret (i32 x).

Definition rd_io (a : Z) : M hart Z := gets (fun h => io h a).
Definition wr_io (a v : Z) : M hart unit := modify (set_io a v).

(** ** The privileged architecture *)

(** The bits of [mstatus]. *)
Definition spp (h : hart) : bool := Z.testbit (csr h mstatus) 8.
Definition spie (h : hart) : bool := Z.testbit (csr h mstatus) 5.
Definition sie_bit (h : hart) : bool := Z.testbit (csr h mstatus) 1.

(** A trap into supervisor mode, with the cause and the value of the trap. *)
Definition take_trap (cause val : Z) (h : hart) : hart :=
  let x := csr h mstatus in
  let x := put_bit x 8 (match mode h with User => false | _ => true end) in
  let x := put_bit x 5 (sie_bit h) in
  let x := put_bit x 1 false in
  jump Supervisor (csr h stvec) (set_csr mstatus x (set_csr stval val (set_csr scause cause (set_csr sepc (pc h) h)))).

(** The instruction [sret]. *)
Definition sret (h : hart) : hart :=
  let x := csr h mstatus in
  let x := put_bit x 1 (spie h) in
  let x := put_bit x 5 true in
  let x := put_bit x 8 false in
  jump (if spp h then Supervisor else User) (csr h sepc) (set_csr mstatus x h).

(** The instruction [mret]; MPP is 3 for machine mode, 1 for supervisor mode. *)
Definition mret : M hart unit :=
  modify (fun h =>
    let x := csr h mstatus in
    let mpp := Z.land (Z.shiftr x 11) 3 in
    let x := put_bit x 3 (Z.testbit x 7) in
    let x := put_bit x 7 true in
    let x := Z.land x (Z.lnot MSTATUS_MPP_MASK) in
    jump (if mpp =? 3 then Machine else if mpp =? 1 then Supervisor else User) (csr h mepc) (set_csr mstatus x h)).

(** ** kernel/start.c *)

Definition CLINT : Z := 0x2000000.
Definition CLINT_MTIMECMP (hartid : Z) : Z := CLINT + 0x4000 + 8 * hartid.
Definition CLINT_MTIME : Z := CLINT + 0xBFF8.

Section Start.
  (** Addresses that the linker fixes: [main], [timervec], [timer_scratch]. *)
  Context (main_addr timervec timer_scratch : Z).

Definition timerinit : M hart unit :=
  id <- r_mhartid ;;
  let id := i32 id in
  let interval := 1000000 in
  t <- rd_io CLINT_MTIME ;;
  wr_io (CLINT_MTIMECMP id) (u64 (t + interval)) ;;;
  let scratch := timer_scratch + id * 40 in
  wr_io (scratch + 24) (CLINT_MTIMECMP id) ;;;
  wr_io (scratch + 32) interval ;;;
  w_mscratch scratch ;;;
  w_mtvec timervec ;;;
  x <- r_mstatus ;;
  w_mstatus (Z.lor x MSTATUS_MIE) ;;;
  x <- r_mie ;;
  w_mie (Z.lor x MIE_MTIE).

Definition start : M hart unit :=
  x <- r_mstatus ;;
  let x := Z.land x (Z.lnot MSTATUS_MPP_MASK) in
  let x := Z.lor x MSTATUS_MPP_S in
  w_mstatus x ;;;
  w_mepc main_addr ;;;
  w_satp 0 ;;;
  w_medeleg 0xffff ;;;
  w_mideleg 0xffff ;;;
  x <- r_sie ;;
  w_sie (Z.lor (Z.lor (Z.lor x SIE_SEIE) SIE_STIE) SIE_SSIE) ;;;
  w_pmpaddr0 0x3fffffffffffff ;;;
  w_pmpcfg0 0xf ;;;
  timerinit ;;;
  id <- r_mhartid ;;
  w_tp (i32 id) ;;;
  mret.

End Start.
