(* ===== verification/Trap.v ===== *)
(** * Traps and interrupts (kernel/trap.c, plic.c)

    The machine as one hart sees it: its registers (Riscv.v), the state of the
    kernel (Kern.v), and the devices whose interrupts it serves (Console.v,
    Virtio.v), whose wake-ups are in their own states.  [usertrap] and
    [kerneltrap] are cut where they give up the CPU. *)

From stdpp Require Import gmap.
From S2P Require Import Prelude Printf Uart Console Virtio KString Buddy Bytes Bio Log Fs Vm Pipe Kern File Proc Syscall Sysfile Riscv.

Definition UART0_IRQ : Z := 10.
Definition VIRTIO0_IRQ : Z := 1.
Definition PLIC_SENABLE (hart : Z) : Z := PLIC + 0x2080 + hart * 0x100.
Definition PLIC_SPRIORITY (hart : Z) : Z := PLIC + 0x201000 + hart * 0x2000.
Definition PLIC_SCLAIM (hart : Z) : Z := PLIC + 0x201004 + hart * 0x2000.

(** ** kernel/plic.c *)

(** A read of the claim register takes the next pending interrupt, a write to
    it ends the service of one.  Each hart has a claim register of its own. *)
Definition rd_claim (a : Z) : M hart Z :=
  h <- get ;;
  match pending h with
  | [] => ret 0
  | irq :: l => put (mkHart (csr h) (mode h) (pc h) (io h) l (irq :: serving h)) ;;; ret irq
  end.
Definition wr_claim (a irq : Z) : M hart unit :=
  modify (fun h => mkHart (csr h) (mode h) (pc h) (io h) (pending h) (filter (fun i => i <> irq) (serving h))).

Definition plicinit : M hart unit :=
  wr_io (PLIC + UART0_IRQ * 4) 1 ;;;
  wr_io (PLIC + VIRTIO0_IRQ * 4) 1.

Definition plicinithart : M hart unit :=
  hart <- cpuid ;;
  wr_io (PLIC_SENABLE hart) (Z.lor (Z.shiftl 1 UART0_IRQ) (Z.shiftl 1 VIRTIO0_IRQ)) ;;;
  wr_io (PLIC_SPRIORITY hart) 0.

Definition plic_claim : M hart Z :=
  hart <- cpuid ;;
  irq <- rd_claim (PLIC_SCLAIM hart) ;;
  ret (i32 irq).

Definition plic_complete (irq : Z) : M hart unit :=
  hart <- cpuid ;;
  wr_claim (PLIC_SCLAIM hart) irq.

(** ** kernel/trap.c *)

(** The places of [struct trapframe] that the kernel fills in. *)
Definition TF_kernel_satp : Z := 0.
Definition TF_kernel_sp : Z := 8.
Definition TF_kernel_trap : Z := 16.
Definition TF_kernel_hartid : Z := 32.

(** The characters of a C string. *)
Definition chars (s : string) : list Z := (fun c => Z.of_nat (Ascii.nat_of_ascii c)) <$> String.list_ascii_of_string s.

(** How [usertrap] ends: at [userret] with the page table of the process,
    asleep in its system call, having given up the CPU, or exited. *)
Inductive uret := ToUser (satp : Z) | InCall (i : Z) | Yielded | Gone.

Section Trap.
  Context {A : Type} `{PA : PageAllocator A} `{FH : FileHeap A}.
  (** Addresses: the trampoline page, [uservec] and [userret] in it,
      [usertrap], [kernelvec], [forkret]. *)
  Context (trampoline uservec userret usertrap_addr kernelvec forkret : Z).
  Context (devread devwrite : Z -> option (Z -> Z -> M (kst A) Z)).
  (** The serial port, and what [procdump] prints. *)
  Context (delay : nat -> nat) (procdump : list Z).

Record mach := mkMach { hw : hart; ks : kst A; con : cons; vd : vst; pr : prs }.

Definition set_hw (h : hart) (s : mach) : mach := mkMach h (ks s) (con s) (vd s) (pr s).
Definition set_ks (k : kst A) (s : mach) : mach := mkMach (hw s) k (con s) (vd s) (pr s).
Definition set_con (c : cons) (s : mach) : mach := mkMach (hw s) (ks s) c (vd s) (pr s).
Definition set_vd (v : vst) (s : mach) : mach := mkMach (hw s) (ks s) (con s) v (pr s).
Definition set_pr (p : prs) (s : mach) : mach := mkMach (hw s) (ks s) (con s) (vd s) p.

Definition on_hw {B} (m : M hart B) : M mach B := zoom hw set_hw m.
Definition on_ks {B} (m : M (kst A) B) : M mach B := zoom ks set_ks m.
Definition kprintf (fmt : string) (ap : list arg) : M mach unit := zoom pr set_pr (Printf.printf (Some (chars fmt)) ap).

Definition trapinithart : M mach unit := on_hw (w_stvec kernelvec).

Definition clockintr : M (kst A) unit :=
  modify (fun s => set_ticks (u32 (ticks s + 1)) s) ;;;
  wakeup ChTicks.

Definition devintr : M mach Z :=
  scause <- on_hw r_scause ;;
  if negb (Z.land scause 0x8000000000000000 =? 0) && (Z.land scause 0xff =? 9) then
    irq <- on_hw plic_claim ;;
    (if irq =? UART0_IRQ then zoom con set_con (Console.uartintr delay procdump)
     else if irq =? VIRTIO0_IRQ then zoom vd set_vd Virtio.virtio_disk_intr
     else when (negb (irq =? 0)) (kprintf "unexpected interrupt irq=%d
" [AInt irq])) ;;;
    when (negb (irq =? 0)) (on_hw (plic_complete irq)) ;;;
    ret 1
  else if scause =? 0x8000000000000001 then
    c <- on_hw cpuid ;;
    when (c =? 0) (on_ks clockintr) ;;;
    x <- on_hw r_sip ;;
    on_hw (w_sip (Z.land x (Z.lnot 2))) ;;;
    ret 2
  else ret 0.

(** The value it returns is the argument of [userret]. *)
Definition usertrapret : M mach Z :=
  p <- on_ks myproc ;;
  on_hw intr_off ;;;
  on_hw (w_stvec (u64 (TRAMPOLINE + (uservec - trampoline)))) ;;;
  kernel_satp <- on_hw r_satp ;;
  on_ks (set_tf p TF_kernel_satp kernel_satp) ;;;
  on_ks (set_tf p TF_kernel_sp (u64 (kstack p + PGSIZE))) ;;;
  on_ks (set_tf p TF_kernel_trap usertrap_addr) ;;;
  hartid <- on_hw r_tp ;;
  on_ks (set_tf p TF_kernel_hartid hartid) ;;;
  x <- on_hw r_sstatus ;;
  let x := Z.land x (Z.lnot SSTATUS_SPP) in
  let x := Z.lor x SSTATUS_SPIE in
  on_hw (w_sstatus x) ;;;
  epc <- on_ks (get_tf p TF_epc) ;;
  on_hw (w_sepc epc) ;;;
  let satp := MAKE_SATP (pagetable p) in
  on_hw (modify (jump Supervisor (u64 (TRAMPOLINE + (userret - trampoline))))) ;;;
  ret satp.

(** [usertrap] after the system call or the interrupt. *)
Definition usertrap_end (which_dev : Z) : M mach uret :=
  me <- on_ks (gets cur) ;;
  k <- on_ks (get_killed me) ;;
  if negb (k =? 0) then on_ks (exit (-1)) ;;; ret Gone
  else if which_dev =? 2 then on_ks yield_enter ;;; ret Yielded
  else satp <- usertrapret ;; ret (ToUser satp).

Definition usertrap : M mach uret :=
  x <- on_hw r_sstatus ;;
  if negb (Z.land x SSTATUS_SPP =? 0) then panic "usertrap: not from user mode"
  else
    on_hw (w_stvec kernelvec) ;;;
    me <- on_ks (gets cur) ;;
    p <- on_ks myproc ;;
    epc <- on_hw r_sepc ;;
    on_ks (set_tf p TF_epc epc) ;;;
    scause <- on_hw r_scause ;;
    if scause =? 8 then
      k <- on_ks (get_killed me) ;;
      if negb (k =? 0) then on_ks (exit (-1)) ;;; ret Gone
      else
        epc <- on_ks (get_tf p TF_epc) ;;
        on_ks (set_tf p TF_epc (u64 (epc + 4))) ;;;
        on_hw intr_on ;;;
        r <- on_ks (syscall trampoline forkret devread devwrite) ;;
        match r with
        | Returns _ => usertrap_end 0
        | Sleeps i => ret (InCall i)
        | Exits => ret Gone
        end
    else
      which_dev <- devintr ;;
      if negb (which_dev =? 0) then usertrap_end which_dev
      else
        scause <- on_hw r_scause ;;
        kprintf "usertrap(): unexpected scause %p pid=%d
" [AU64 scause; AInt (pid p)] ;;;
        sepc <- on_hw r_sepc ;;
        stval <- on_hw r_stval ;;
        kprintf "            sepc=%p stval=%p
" [AU64 sepc; AU64 stval] ;;;
        on_ks (setkilled me) ;;;
        usertrap_end 0.

(** [kerneltrap] up to the end or to [yield]; it returns whether it gave up
    the CPU, with [sepc] and [sstatus] as they were. *)
Definition kerneltrap_enter : M mach (bool * Z * Z) :=
  sepc <- on_hw r_sepc ;;
  sstatus <- on_hw r_sstatus ;;
  scause <- on_hw r_scause ;;
  if Z.land sstatus SSTATUS_SPP =? 0 then panic "kerneltrap: not from supervisor mode"
  else
    i <- on_hw intr_get ;;
    if (i : bool) then panic "kerneltrap: interrupts enabled"
    else
      which_dev <- devintr ;;
      if which_dev =? 0 then
        kprintf "scause %p
" [AU64 scause] ;;;
        sepc <- on_hw r_sepc ;;
        stval <- on_hw r_stval ;;
        kprintf "sepc=%p stval=%p
" [AU64 sepc; AU64 stval] ;;;
        panic "kerneltrap"
      else
        t <- on_ks (gets procs) ;;
        me <- on_ks (gets cur) ;;
        let runs := match aget t me with Some p => bool_decide (state p = RUNNING) | None => false end in
        if (which_dev =? 2) && runs then on_ks yield_enter ;;; ret (true, sepc, sstatus)
        else ret (false, sepc, sstatus).

(** [kerneltrap] after that. *)
Definition kerneltrap_leave (sepc sstatus : Z) : M mach unit :=
  on_hw (w_sepc sepc) ;;;
  on_hw (w_sstatus sstatus).

End Trap.
