(* ===== verification/TrapThms.v ===== *)
(** * Traps are transparent

    What an interrupted program finds when it goes on: a user process in user
    mode, at the instruction where it was, with its registers, and with
    everything in place for its next trap; kernel code where it was, whatever
    other traps happened while the CPU was given up. *)

From stdpp Require Import gmap.
From S2P Require Import Prelude Printf Uart Console Virtio VirtioThms KString Buddy Bytes Bio Log Fs Vm VmWalk VmThms Pipe Kern File Proc ProcThms Spinlock Syscall Sysfile Riscv Trap.

(** ** Registers *)

Lemma csr_eq h r v : csr (set_csr r v h) r = u64 v.
Proof. cbn. by rewrite decide_True. Qed.
Lemma csr_ne h r r' v : r' <> r -> csr (set_csr r v h) r' = csr h r'.
Proof. intros H. cbn. by rewrite decide_False. Qed.

Lemma u64_bit x i : 0 <= i < 64 -> Z.testbit (u64 x) i = Z.testbit x i.
Proof. intros H. unfold u64. apply Z.mod_pow2_bits_low. lia. Qed.
Lemma mask_in_bit m x y i : 0 <= i -> Z.testbit (mask_in m x y) i = if Z.testbit m i then Z.testbit x i else Z.testbit y i.
Proof.
  intros H. unfold mask_in. rewrite Z.lor_spec, !Z.land_spec, Z.lnot_spec by done. destruct (Z.testbit m i), (Z.testbit x i), (Z.testbit y i); done.
Qed.
Lemma put_bit_spec x i j b : 0 <= i -> 0 <= j -> Z.testbit (put_bit x i b) j = if j =? i then b else Z.testbit x j.
Proof.
  intros Hi Hj. unfold put_bit. destruct b.
  - rewrite Z.setbit_eqb by done. rewrite Z.eqb_sym. by destruct (j =? i).
  - rewrite Z.clearbit_eqb by done. rewrite Z.eqb_sym. destruct (j =? i); cbn; [apply andb_false_r | apply andb_true_r].
Qed.
Lemma land_bit x i : 0 <= i -> (Z.land x (Z.shiftl 1 i) =? 0) = negb (Z.testbit x i).
Proof.
  intros H. rewrite Z.shiftl_1_l. destruct (Z.testbit x i) eqn:E; cbn.
  - apply Z.eqb_neq. intros H0. assert (Z.testbit (Z.land x (2 ^ i)) i = false) as Hf by (by rewrite H0, Z.testbit_0_l).
    rewrite Z.land_spec, E, Z.pow2_bits_true in Hf by done. done.
  - apply Z.eqb_eq. apply Z.bits_inj_0. intros j. rewrite Z.land_spec, Z.pow2_bits_eqb by done. destruct (Z.eqb_spec i j) as [<-|]; [by rewrite E | apply andb_false_r].
Qed.

(** The bits of the status register that traps use. *)
Definition status_bits (h : hart) : bool * bool * bool := (spp h, spie h, sie_bit h).
Ltac bits := repeat (rewrite ?u64_bit, ?mask_in_bit, ?put_bit_spec, ?Z.lor_spec, ?Z.land_spec, ?Z.lnot_spec by lia; cbn [Z.eqb Pos.eqb andb orb negb];
  change (Z.testbit SSTATUS_BITS 8) with true; change (Z.testbit SSTATUS_BITS 5) with true; change (Z.testbit SSTATUS_BITS 1) with true; cbn iota).

Lemma trap_bits c v h : status_bits (take_trap c v h) = (match mode h with User => false | _ => true end, sie_bit h, false).
Proof. unfold status_bits, spp, spie, sie_bit, take_trap, sie_bit. cbn [jump csr]. rewrite !csr_eq. bits. done. Qed.
Lemma trap_sepc c v h : csr (take_trap c v h) sepc = u64 (pc h).
Proof. done. Qed.
Lemma trap_scause c v h : csr (take_trap c v h) scause = u64 c.
Proof. done. Qed.
Lemma sret_user h : spp h = false -> spie h = true -> mode (sret h) = User /\ sie_bit (sret h) = true /\ pc (sret h) = csr h sepc.
Proof.
  intros H1 H2. unfold sret. rewrite H1, H2. cbn [jump mode pc]. split_and!; [done | | done]. unfold sie_bit. cbn [jump csr]. rewrite csr_eq. bits. done.
Qed.
Lemma sret_kernel h : spp h = true -> mode (sret h) = Supervisor /\ sie_bit (sret h) = spie h /\ pc (sret h) = csr h sepc.
Proof.
  intros H1. unfold sret. rewrite H1. cbn [jump mode pc]. split_and!; [done | | done]. unfold sie_bit. cbn [jump csr]. rewrite csr_eq. bits. done.
Qed.

(** Every register holds 64 bits. *)
Definition wide (h : hart) : Prop := forall r, 0 <= csr h r < 2 ^ 64.
Lemma u64_id x : 0 <= x < 2 ^ 64 -> u64 x = x.
Proof. apply Z.mod_small. Qed.
Lemma wide_set h r v : wide h -> wide (set_csr r v h).
Proof. intros H r'. cbn. case_decide; [apply u64_range | apply H]. Qed.
Lemma wide_trap c v h : wide h -> wide (take_trap c v h).
Proof. intros H. unfold take_trap, jump. intros r. cbn [csr]. revert r. repeat apply wide_set. exact H. Qed.

(** Two harts that differ at most in the registers of [l]. *)
Definition same_but (l : list reg) (h h' : hart) : Prop :=
  (forall r, r ∉ l -> csr h' r = csr h r) /\ io h' = io h /\ pending h' = pending h /\ serving h' = serving h /\ (wide h -> wide h').
Lemma same_but_set l h r v : r ∈ l -> same_but l h (set_csr r v h).
Proof. intros H. split_and!; [|done..|apply wide_set]. intros r' Hr. apply csr_ne. set_solver. Qed.
Lemma same_but_mono l l' h h' : (forall r, r ∈ l -> r ∈ l') -> same_but l h h' -> same_but l' h h'.
Proof. intros Hl (H & ?). split; [|done]. intros r Hr. apply H. auto. Qed.
Lemma same_but_trans l h1 h2 h3 : same_but l h1 h2 -> same_but l h2 h3 -> same_but l h1 h3.
Proof. intros (A1 & B1 & C1 & D1 & W1) (A2 & B2 & C2 & D2 & W2). split_and!; [|congruence..|auto]. intros r Hr. by rewrite A2, A1. Qed.

Ltac ms := cbn [set_hw set_ks hw ks con vd pr].

Section Hw.
  Context {A : Type} `{PA : PageAllocator A} `{FH : FileHeap A}.

Notation mach := (@mach A).

Lemma hw_wp {B} (m : M hart B) (s : mach) Q : wp m (hw s) (fun b h => Q b (set_hw h s)) -> wp (on_hw m) s Q.
Proof. intros H. by apply wp_zoom. Qed.
Lemma ks_wp {B} (m : M (kst A) B) (s : mach) Q : wp m (ks s) (fun b k => Q b (set_ks k s)) -> wp (on_ks m) s Q.
Proof. intros H. by apply wp_zoom. Qed.
Lemma rd_csr_wp r h (Q : Z -> hart -> Prop) : Q (csr h r) h -> wp (rd_csr r) h Q.
Proof. intros H. unfold rd_csr. by wp_step. Qed.
Lemma wr_csr_wp r v h (Q : unit -> hart -> Prop) : Q tt (set_csr r v h) -> wp (wr_csr r v) h Q.
Proof. intros H. unfold wr_csr. by wp_step. Qed.
Lemma r_sstatus_wp h (Q : Z -> hart -> Prop) : Q (Z.land (csr h mstatus) SSTATUS_BITS) h -> wp r_sstatus h Q.
Proof. intros H. unfold r_sstatus. wp_step. apply rd_csr_wp. by wp_step. Qed.
Lemma w_sstatus_wp x h (Q : unit -> hart -> Prop) : Q tt (set_csr mstatus (mask_in SSTATUS_BITS x (csr h mstatus)) h) -> wp (w_sstatus x) h Q.
Proof. intros H. unfold w_sstatus. wp_step. apply rd_csr_wp. by apply wr_csr_wp. Qed.

(** [intr_off] and [intr_on] change one bit. *)
Lemma intr_off_wp h (Q : unit -> hart -> Prop) :
  (forall h', same_but [mstatus] h h' -> status_bits h' = (spp h, spie h, false) -> Q tt h') -> wp intr_off h Q.
Proof.
  intros HQ. unfold intr_off. wp_step. apply r_sstatus_wp, w_sstatus_wp, HQ; [apply same_but_set; set_solver|].
  unfold status_bits, spp, spie, sie_bit. rewrite !csr_eq. bits. change (Z.testbit SSTATUS_SIE 8) with false. change (Z.testbit SSTATUS_SIE 5) with false.
  change (Z.testbit SSTATUS_SIE 1) with true. cbn [negb]. by rewrite !andb_true_r, andb_false_r.
Qed.
Lemma intr_on_wp h (Q : unit -> hart -> Prop) :
  (forall h', same_but [mstatus] h h' -> status_bits h' = (spp h, spie h, true) -> Q tt h') -> wp intr_on h Q.
Proof.
  intros HQ. unfold intr_on. wp_step. apply r_sstatus_wp, w_sstatus_wp, HQ; [apply same_but_set; set_solver|].
  unfold status_bits, spp, spie, sie_bit. rewrite !csr_eq. bits. change (Z.testbit SSTATUS_SIE 8) with false. change (Z.testbit SSTATUS_SIE 5) with false.
  change (Z.testbit SSTATUS_SIE 1) with true. by rewrite !andb_true_r, !orb_false_r, orb_true_r.
Qed.

(** ** The trap frame *)

Definition kmem (k : kst A) : mem := pm (kvm k).
Definition with_mem (m : mem) (k : kst A) : kst A := set_kvm (set_pm m (kvm k)) k.

Lemma set_tf_wp p o v (k : kst A) (Q : unit -> kst A -> Prop) : Q tt (with_mem (store64 (kmem k) (trapframe p + o) v) k) -> wp (set_tf p o v) k Q.
Proof. intros H. unfold set_tf, onvm, wr64, on_mem. wp_step. by wp_step. Qed.
Lemma get_tf_wp p o (k : kst A) (Q : Z -> kst A -> Prop) : Q (load64 (kmem k) (trapframe p + o)) k -> wp (get_tf p o) k Q.
Proof. intros H. unfold get_tf, onvm, rd64. wp_step. wp_step. by destruct k as [[] ? ? ? ? ? ? ? ?]. Qed.
Lemma myproc_wp (k : kst A) p (Q : proc -> kst A -> Prop) : aget (procs k) (cur k) = Some p -> Q p k -> wp myproc k Q.
Proof. intros H HQ. unfold myproc, get_proc. wp_step. wp_step. wp_step. wp_step. by eapply wp_from_option. Qed.
Lemma get_killed_wp (k : kst A) i p (Q : Z -> kst A -> Prop) : aget (procs k) i = Some p -> Q (killed p) k -> wp (get_killed i) k Q.
Proof. intros H HQ. unfold get_killed, get_proc. wp_step. wp_step. wp_step. eapply wp_from_option; [done|]. by wp_step. Qed.

Context (trampoline uservec userret usertrap_addr : Z).

(** What the next trap of the process needs. *)
Record framed (p : proc) (h : hart) (m : mem) : Prop := mkFramed {
  fr_satp : load64 m (trapframe p + TF_kernel_satp) = csr h satp;
  fr_sp : load64 m (trapframe p + TF_kernel_sp) = u64 (kstack p + PGSIZE);
  fr_trap : load64 m (trapframe p + TF_kernel_trap) = usertrap_addr;
  fr_hartid : load64 m (trapframe p + TF_kernel_hartid) = csr h tp;
  fr_stvec : csr h stvec = u64 (TRAMPOLINE + (uservec - trampoline))
}.

(** Only the kernel's four places of the trap frame changed. *)
Definition kernel_places (p : proc) (m m' : mem) : Prop :=
  forall x, x < trapframe p \/ trapframe p + 40 <= x \/ trapframe p + 24 <= x < trapframe p + 32 -> m' x = m x.

(** The hart is about to execute [sret] for the process. *)
Record leaving (p : proc) (s s' : mach) : Prop := mkLeaving {
  lv_mode : mode (sret (hw s')) = User;
  lv_sie : sie_bit (sret (hw s')) = true;
  lv_pc : pc (sret (hw s')) = u64 (load64 (kmem (ks s)) (trapframe p + TF_epc));
  lv_frame : framed p (hw s') (kmem (ks s'));
  lv_mem : kernel_places p (kmem (ks s)) (kmem (ks s'));
  lv_regs : same_but [mstatus; stvec; sepc] (hw s) (hw s');
  lv_rest : s' = mkMach (hw s') (with_mem (kmem (ks s')) (ks s)) (con s) (vd s) (pr s)
}.

Lemma load64_ext m m' a : (forall x, a <= x < a + 8 -> m' x = m x) -> load64 m' a = load64 m a.
Proof. intros H. unfold load64. cbn [load_le]. by rewrite !H by lia. Qed.

Lemma kmem_with m k : kmem (with_mem m k) = m.
Proof. done. Qed.
Lemma with_with m m' k : with_mem m (with_mem m' k) = with_mem m k.
Proof. done. Qed.

(** The memory after the four stores of [usertrapret]. *)
Definition frame_mem (p : proc) (ksatp hartid : Z) (m : mem) : mem :=
  store64 (store64 (store64 (store64 m (trapframe p + TF_kernel_satp) ksatp) (trapframe p + TF_kernel_sp) (u64 (kstack p + PGSIZE)))
    (trapframe p + TF_kernel_trap) usertrap_addr) (trapframe p + TF_kernel_hartid) hartid.
Ltac places := unfold TF_kernel_satp, TF_kernel_sp, TF_kernel_trap, TF_kernel_hartid, TF_epc in *.

Lemma frame_mem_places p a b m : kernel_places p m (frame_mem p a b m).
Proof. intros x Hx. unfold frame_mem. places. rewrite !store64_out by lia. done. Qed.
Lemma frame_mem_epc p a b m : load64 (frame_mem p a b m) (trapframe p + TF_epc) = load64 m (trapframe p + TF_epc).
Proof. apply load64_ext. intros x Hx. apply frame_mem_places. places. lia. Qed.
Lemma frame_mem_framed p h m : wide h -> 0 <= usertrap_addr < 2 ^ 64 -> csr h stvec = u64 (TRAMPOLINE + (uservec - trampoline)) ->
  framed p h (frame_mem p (csr h satp) (csr h tp) m).
Proof.
  intros Hw Hu Hs. constructor; [..|done]; unfold frame_mem; places; repeat (rewrite load_store64_ne by lia); apply load_store64; try apply Hw; try done.
  apply u64_range.
Qed.

(** The hart at the end of [usertrapret]. *)
Definition leave_hart (h : hart) (epc to : Z) : hart :=
  let x := Z.lor (Z.land (Z.land (csr h mstatus) SSTATUS_BITS) (Z.lnot SSTATUS_SPP)) SSTATUS_SPIE in
  jump Supervisor to (set_csr sepc epc (set_csr mstatus (mask_in SSTATUS_BITS x (csr h mstatus)) h)).
Lemma leave_bits h epc to : spp (leave_hart h epc to) = false /\ spie (leave_hart h epc to) = true /\ csr (leave_hart h epc to) sepc = u64 epc.
Proof.
  unfold spp, spie, leave_hart. cbn [jump csr]. rewrite csr_eq, !(csr_ne _ sepc mstatus) by done. rewrite csr_eq. bits.
  change (Z.testbit SSTATUS_SPP 8) with true. change (Z.testbit SSTATUS_SPIE 8) with false. change (Z.testbit SSTATUS_SPIE 5) with true.
  cbn [negb]. by rewrite andb_false_r, orb_true_r.
Qed.

Lemma usertrapret_wp (s : mach) p Q : wide (hw s) -> 0 <= usertrap_addr < 2 ^ 64 -> aget (procs (ks s)) (cur (ks s)) = Some p ->
  (forall s', leaving p s s' -> Q (MAKE_SATP (pagetable p)) s') -> wp (usertrapret trampoline uservec userret usertrap_addr) s Q.
Proof.
  intros Hw Hu Hp HQ. unfold usertrapret. destruct s as [h k c v q]. cbn [hw ks] in *.
  wp_step. apply ks_wp. apply (myproc_wp _ p); [done|]. wp_step. apply hw_wp, intr_off_wp. intros h1 S1 B1. ms.
  wp_step. apply hw_wp, wr_csr_wp. ms. wp_step. apply hw_wp, rd_csr_wp. ms. do 3 (wp_step; apply ks_wp, set_tf_wp; ms).
  wp_step. apply hw_wp, rd_csr_wp. ms. wp_step. apply ks_wp, set_tf_wp. ms. wp_step. apply hw_wp, r_sstatus_wp. ms. wp_step. apply hw_wp, w_sstatus_wp. ms.
  wp_step. apply ks_wp, get_tf_wp. ms. wp_step. apply hw_wp, wr_csr_wp. ms. wp_step. apply hw_wp. wp_step. wp_step. ms.
  rewrite !kmem_with, !with_with. change (store64 _ (trapframe p + TF_kernel_hartid) _) with (frame_mem p (csr (set_csr stvec (u64 (TRAMPOLINE + (uservec - trampoline))) h1) satp) (csr (set_csr stvec (u64 (TRAMPOLINE + (uservec - trampoline))) h1) tp) (kmem k)).
  rewrite frame_mem_epc. apply HQ. set (h2 := set_csr stvec _ h1) in *. set (V := u64 (TRAMPOLINE + (userret - trampoline))).
  destruct (leave_bits h2 (load64 (kmem k) (trapframe p + TF_epc)) V) as (L1 & L2 & L3). destruct (sret_user _ L1 L2) as (M1 & M2 & M3).
  assert (same_but [mstatus; stvec; sepc] h h2) as S2 by (eapply same_but_trans; [eapply same_but_mono; [|exact S1]; set_solver | apply same_but_set; set_solver]).
  assert (same_but [mstatus; sepc] h2 (leave_hart h2 (load64 (kmem k) (trapframe p + TF_epc)) V)) as S3
    by (eapply same_but_trans; [|apply same_but_set; set_solver]; apply (same_but_set [mstatus; sepc] h2 mstatus); set_solver).
  constructor; ms; rewrite ?kmem_with; [exact M1 | exact M2 | exact (eq_trans M3 L3) | | apply frame_mem_places | | done].
  - rewrite <- (proj1 S3 satp), <- (proj1 S3 tp) by set_solver. apply frame_mem_framed; [|done|].
    + by apply S3, S2.
    + rewrite (proj1 S3) by set_solver. by unfold h2; rewrite csr_eq, u64_id by apply u64_range.
  - eapply same_but_trans; [exact S2|]. eapply same_but_mono; [|exact S3]. set_solver.
Qed.

(** ** Device interrupts *)

Context (delay : nat -> nat) (procdump : list Z).
Context (Hdump : Forall (fun c => 0 <= c < 2 ^ 8) procdump).

(** The devices and their drivers are in order, and the PLIC has only
    interrupts that it was asked for. *)
Record devices (s : mach) : Prop := mkDevices {
  dv_con : exists l q, shows (con s) l q;
  dv_rx : Forall (fun c => 0 <= c < 2 ^ 8) (rx (port (con s)));
  dv_disk : exists P U, inv (vd s) P U;
  dv_irqs : Forall (fun i => i = UART0_IRQ \/ i = VIRTIO0_IRQ) (pending (hw s));
  dv_idle : serving (hw s) = []
}.

Definition EXTERNAL : Z := 0x8000000000000009.
Definition SOFTWARE : Z := 0x8000000000000001.

(** What the clock interrupt does to the kernel. *)
Definition woken (c : channel) (k : kst A) : kst A :=
  set_procs (imap (fun i p => if Z.of_nat i =? cur k then p else wake_one c p) (procs k)) k.
Definition ticked (k : kst A) : kst A := woken ChTicks (set_ticks (u32 (ticks k + 1)) k).

Lemma ticked_proc k i : i = cur k -> aget (procs (ticked k)) i = aget (procs k) i.
Proof.
  intros ->. unfold ticked, woken, aget. cbn [set_procs set_ticks procs cur]. destruct (cur k <? 0) eqn:E; [done|]. bool_prop.
  rewrite list_lookup_imap. destruct (procs k !! Z.to_nat (cur k)); cbn; [|done]. by rewrite Z2Nat.id, Z.eqb_refl.
Qed.

(** An interrupt is served: the devices stay in order, and no interrupt that
    was claimed is left unfinished. *)
Record served (s s' : mach) : Prop := mkServed {
  sv_csr : forall r, r <> mip -> csr (hw s') r = csr (hw s) r;
  sv_wide : wide (hw s) -> wide (hw s');
  sv_devices : devices s';
  sv_mode : mode (hw s') = mode (hw s)
}.

(** The claim register gives the next interrupt. *)
Definition claimed (h : hart) (irq : Z) (l : list Z) : hart := mkHart (csr h) (mode h) (pc h) (io h) l (irq :: serving h).
Lemma claim_wp h (Q : Z -> hart -> Prop) :
  (pending h = [] -> Q 0 h) -> (forall irq l, pending h = irq :: l -> Q (i32 irq) (claimed h irq l)) -> wp plic_claim h Q.
Proof.
  intros H0 H1. unfold plic_claim, cpuid, r_tp. wp_step. wp_step. apply rd_csr_wp. wp_step. wp_step. unfold rd_claim. wp_step. wp_step.
  destruct (pending h) as [|irq l]; [wp_step; by wp_step; apply H0|]. wp_step. wp_step. wp_step. wp_step. by apply H1.
Qed.
Lemma complete_wp h irq (Q : unit -> hart -> Prop) :
  Q tt (mkHart (csr h) (mode h) (pc h) (io h) (pending h) (filter (fun i => i <> irq) (serving h))) -> wp (plic_complete irq) h Q.
Proof. intros H. unfold plic_complete, cpuid, r_tp, wr_claim. wp_step. wp_step. apply rd_csr_wp. wp_step. by wp_step. Qed.

Lemma external_wp (s : mach) Q : csr (hw s) scause = EXTERNAL -> devices s ->
  (forall s', served s s' -> pending (hw s') = tail (pending (hw s)) -> ks s' = ks s -> Q 1 s') -> wp (devintr delay procdump) s Q.
Proof.
  intros Hc [(l & q & Hl) Hrx (P & U & HI) Hi Hs] HQ. unfold devintr. destruct s as [h k c v p]. cbn [hw ks con vd] in *. wp_step. apply hw_wp, rd_csr_wp. ms. rewrite Hc.
  change (negb (Z.land EXTERNAL 0x8000000000000000 =? 0) && (Z.land EXTERNAL 0xff =? 9)) with true. cbn iota.
  wp_step. apply hw_wp, claim_wp.
  { cbn [hw]. intros Hp. ms. change (0 =? UART0_IRQ) with false. change (0 =? VIRTIO0_IRQ) with false. cbn [negb Z.eqb when]. do 4 wp_step. wp_step.
    cbn [set_hw hw] in Hp. apply HQ; [|by ms; rewrite Hp | done]. constructor; ms; try done. constructor; ms; try done; eauto. }
  intros irq pe Hp. cbn [set_hw hw] in Hp. rewrite Hp in Hi. apply Forall_cons in Hi as [Hirq Hi]. ms. destruct Hirq as [-> | ->].
  - change (i32 UART0_IRQ) with UART0_IRQ. rewrite Z.eqb_refl. change (negb (UART0_IRQ =? 0)) with true. cbn [when]. wp_step. wp_step. cbn [con].
    eapply wp_mono; [by apply (uartintr_wp delay procdump Hdump c l q)|]. intros [] c' (n & Hsh & _ & Hrx' & _). ms. wp_step. apply hw_wp, complete_wp. ms. wp_step.
    apply HQ; [|by cbn; rewrite Hp | done]. constructor; ms; try done. constructor; ms; cbn; rewrite ?Hs; try done; [eauto | by rewrite Hrx' | eauto].
  - change (i32 VIRTIO0_IRQ) with VIRTIO0_IRQ. change (VIRTIO0_IRQ =? UART0_IRQ) with false. rewrite Z.eqb_refl. change (negb (VIRTIO0_IRQ =? 0)) with true. cbn [when].
    wp_step. wp_step. cbn [vd]. eapply wp_mono; [by apply (intr_wp v P U)|]. intros [] v' [HI' _]. ms. wp_step. apply hw_wp, complete_wp. ms. wp_step.
    apply HQ; [|by cbn; rewrite Hp | done]. constructor; ms; try done. constructor; ms; cbn; rewrite ?Hs; try done; eauto.
Qed.

Lemma clockintr_wp (k : kst A) (Q : unit -> kst A -> Prop) : Q tt (ticked k) -> wp clockintr k Q.
Proof. intros H. unfold clockintr, wakeup. wp_step. wp_step. by wp_step. Qed.

Lemma software_wp (s : mach) Q : csr (hw s) scause = SOFTWARE -> devices s ->
  (forall s', served s s' -> pending (hw s') = pending (hw s) -> ks s' = (if i32 (csr (hw s) tp) =? 0 then ticked (ks s) else ks s) -> Q 2 s') ->
  wp (devintr delay procdump) s Q.
Proof.
  intros Hc [Hl Hrx HI Hi Hs] HQ. unfold devintr. destruct s as [h k c v p]. cbn [hw ks con vd] in *. wp_step. apply hw_wp, rd_csr_wp. ms. rewrite Hc.
  change (negb (Z.land SOFTWARE 0x8000000000000000 =? 0) && (Z.land SOFTWARE 0xff =? 9)) with false. change (SOFTWARE =? 0x8000000000000001) with true. cbn iota.
  wp_step. apply hw_wp. unfold cpuid, r_tp. wp_step. apply rd_csr_wp. wp_step. ms.
  assert (forall k', wp (x <- on_hw r_sip;; on_hw (w_sip (Z.land x (Z.lnot 2)));;; ret 2) (mkMach h k' c v p)
    (fun d s' => d = 2 /\ served (mkMach h k c v p) s' /\ pending (hw s') = pending h /\ ks s' = k')) as Hsip.
  { intros k'. wp_step. apply hw_wp. unfold r_sip, w_sip. wp_step. apply rd_csr_wp. wp_step. apply rd_csr_wp. wp_step. ms. wp_step. apply hw_wp.
    wp_step. apply rd_csr_wp. wp_step. apply rd_csr_wp. apply wr_csr_wp. ms. wp_step. split_and!; [done | | done..].
    constructor; ms; [intros r Hr; by apply csr_ne | apply wide_set | | done]. by constructor. }
  wp_step. destruct (i32 (csr h tp) =? 0); cbn [when].
  - apply ks_wp, clockintr_wp. ms. eapply wp_mono; [apply Hsip|]. intros d s' (-> & H1 & H2 & H3). by apply HQ.
  - wp_step. eapply wp_mono; [apply Hsip|]. intros d s' (-> & H1 & H2 & H3). by apply HQ.
Qed.

(** ** From user space *)

Context (kernelvec forkret : Z) (devread devwrite : Z -> option (Z -> Z -> M (kst A) Z)).
Context (Hu : 0 <= usertrap_addr < 2 ^ 64).

Notation usertrap' := (usertrap trampoline uservec userret usertrap_addr kernelvec forkret devread devwrite delay procdump).
Notation usertrap_end' := (usertrap_end trampoline uservec userret usertrap_addr).
Notation usertrapret' := (usertrapret trampoline uservec userret usertrap_addr).

(** The process table with the current process ready to run again. *)
Definition yielded (p : proc) (k : kst A) : kst A := set_procs (<[Z.to_nat (cur k) := with_state RUNNABLE p]> (procs k)) k.
Lemma yield_wp (k : kst A) p (Q : unit -> kst A -> Prop) : aget (procs k) (cur k) = Some p -> Q tt (yielded p k) -> wp yield_enter k Q.
Proof.
  intros Hp HQ. unfold yield_enter, mod_myproc, mod_proc, get_proc. repeat wp_step. eapply wp_from_option; [done|]. repeat wp_step.
  eapply wp_from_option; [apply aset_is_Some; by eapply aget_range|]. by wp_step.
Qed.

(** [usertrap] up to the dispatch. *)
Definition entered (p : proc) (s : mach) : mach :=
  mkMach (set_csr stvec kernelvec (hw s)) (with_mem (store64 (kmem (ks s)) (trapframe p + TF_epc) (csr (hw s) sepc)) (ks s)) (con s) (vd s) (pr s).

Lemma spp_test h : (Z.land (Z.land (csr h mstatus) SSTATUS_BITS) SSTATUS_SPP =? 0) = negb (spp h).
Proof. unfold SSTATUS_SPP. rewrite land_bit by done. unfold spp. bits. by rewrite andb_true_r. Qed.

Lemma usertrap_intr_wp (s : mach) p Q : spp (hw s) = false -> csr (hw s) scause <> 8 -> aget (procs (ks s)) (cur (ks s)) = Some p ->
  wp (devintr delay procdump) (entered p s) (fun d s' => d <> 0 /\ wp (usertrap_end' d) s' Q) -> wp usertrap' s Q.
Proof.
  intros Hs Hc Hp HQ. unfold usertrap. destruct s as [h k c v q]. cbn [hw ks] in *. wp_step. apply hw_wp, r_sstatus_wp. ms. rewrite spp_test, Hs. cbn [negb].
  wp_step. apply hw_wp, wr_csr_wp. ms. wp_step. apply ks_wp. wp_step. ms. wp_step. apply ks_wp, (myproc_wp _ p); [done|]. ms. wp_step. apply hw_wp, rd_csr_wp. ms.
  wp_step. apply ks_wp, set_tf_wp. ms. wp_step. apply hw_wp, rd_csr_wp. ms. rewrite !(csr_ne _ stvec) by done. rewrite (proj2 (Z.eqb_neq _ 8)) by done.
  wp_step. eapply wp_mono; [exact HQ|]. intros d s' [Hd Hq]. by rewrite (proj2 (Z.eqb_neq d 0)).
Qed.

Lemma usertrap_end_wp (s : mach) p d Q : wide (hw s) -> aget (procs (ks s)) (cur (ks s)) = Some p -> killed p = 0 ->
  (d = 2 -> Q Yielded (set_ks (yielded p (ks s)) s)) ->
  (d <> 2 -> forall s', leaving p s s' -> Q (ToUser (MAKE_SATP (pagetable p))) s') -> wp (usertrap_end' d) s Q.
Proof.
  intros Hw Hp Hk HY HU. unfold usertrap_end. wp_step. apply ks_wp. wp_step. replace (set_ks (ks s) s) with s by (by destruct s).
  wp_step. apply ks_wp, (get_killed_wp _ _ p); [done|]. replace (set_ks (ks s) s) with s by (by destruct s). rewrite Hk. cbn [negb Z.eqb].
  destruct (Z.eqb_spec d 2) as [->|Hd].
  - wp_step. apply ks_wp, (yield_wp _ p); [done|]. wp_step. by apply HY.
  - wp_step. apply (usertrapret_wp _ p); [done | done | done|]. intros s' HL. wp_step. by apply HU.
Qed.

(** The process goes on at [at_pc]: in user mode, with interrupts, ready for
    its next trap, and with the registers that [uservec] had saved. *)
Record resumes (p : proc) (at_pc : Z) (m : mem) (s : mach) : Prop := mkResumes {
  rs_mode : mode (sret (hw s)) = User;
  rs_sie : sie_bit (sret (hw s)) = true;
  rs_pc : pc (sret (hw s)) = at_pc;
  rs_frame : framed p (hw s) (kmem (ks s));
  rs_regs : forall x, trapframe p + 40 <= x < trapframe p + TF_size -> kmem (ks s) x = m x
}.

Lemma leaving_resumes p at_pc m s s' : leaving p s s' -> 0 <= at_pc < 2 ^ 64 -> load64 (kmem (ks s)) (trapframe p + TF_epc) = at_pc ->
  (forall x, trapframe p + 40 <= x < trapframe p + TF_size -> kmem (ks s) x = m x) -> resumes p at_pc m s'.
Proof.
  intros [L1 L2 L3 L4 L5 _ _] Hr He Hm. constructor; [done | done | by rewrite L3, He, u64_id | done|]. intros x Hx. rewrite L5 by lia. by apply Hm.
Qed.

Lemma entered_epc p s : wide (hw s) -> load64 (kmem (ks (entered p s))) (trapframe p + TF_epc) = csr (hw s) sepc.
Proof. intros H. apply load_store64, H. Qed.
Lemma entered_regs p s x : trapframe p + 40 <= x \/ x < trapframe p + 24 -> kmem (ks (entered p s)) x = kmem (ks s) x.
Proof. intros H. unfold entered. ms. rewrite kmem_with. apply store64_out. places. lia. Qed.

Lemma devices_entered p s c v : devices s -> devices (entered p (set_hw (take_trap c v (hw s)) s)).
Proof. intros [H1 H2 H3 H4 H5]. by constructor. Qed.
Lemma trap_spp c v h : mode h = User -> spp (take_trap c v h) = false.
Proof. intros H. pose proof (trap_bits c v h) as Hb. rewrite H in Hb. by injection Hb as -> _ _. Qed.

Lemma user_external_wp (s : mach) (p : proc) (val : Z) :
  mode (hw s) = User -> wide (hw s) -> 0 <= pc (hw s) < 2 ^ 64 -> devices s -> aget (procs (ks s)) (cur (ks s)) = Some p -> killed p = 0 ->
  wp usertrap' (set_hw (take_trap EXTERNAL val (hw s)) s) (fun u s' => u = ToUser (MAKE_SATP (pagetable p))
    /\ resumes p (pc (hw s)) (kmem (ks s)) s' /\ devices s'
    /\ ks s' = with_mem (kmem (ks s')) (ks s) /\ (forall x, x < trapframe p \/ trapframe p + 40 <= x -> kmem (ks s') x = kmem (ks s) x)).
Proof.
  intros Hm Hw Hpc HD Hp Hk. set (t := set_hw _ s). apply (usertrap_intr_wp t p); [by apply trap_spp | done | done|].
  assert (wide (hw t)) as Hwt by (by apply wide_trap). apply external_wp; [done | by apply devices_entered|]. intros s1 [C1 W1 D1 _] _ K1. split; [done|].
  assert (wide (hw s1)) as Hw1 by (apply W1; by apply wide_set).
  apply (usertrap_end_wp s1 p); [done | by rewrite K1 | done | done|]. intros _ s2 HL. split; [done|].
  assert (forall x, x < trapframe p \/ trapframe p + 40 <= x -> kmem (ks s1) x = kmem (ks s) x) as Hmem.
  { intros x Hx. rewrite K1. apply (entered_regs p t x). lia. }
  split_and!.
  - apply (leaving_resumes _ _ _ s1); [done | done | |].
    + rewrite K1, entered_epc by done. unfold t. cbn [set_hw hw]. rewrite trap_sepc. by apply u64_id.
    + intros x Hx. apply Hmem. lia.
  - rewrite (lv_rest _ _ _ HL). destruct D1 as [D1 D2 D3 D4 D5]. destruct (lv_regs _ _ _ HL) as (_ & _ & Hpe & Hsv & _). constructor; ms; try done; congruence.
  - rewrite (lv_rest _ _ _ HL) at 1. ms. by rewrite K1.
  - intros x Hx. rewrite (lv_mem _ _ _ HL) by lia. by apply Hmem.
Qed.

Lemma user_software_wp (s : mach) (p : proc) (val : Z) :
  mode (hw s) = User -> wide (hw s) -> 0 <= pc (hw s) < 2 ^ 64 -> devices s -> aget (procs (ks s)) (cur (ks s)) = Some p -> killed p = 0 ->
  wp usertrap' (set_hw (take_trap SOFTWARE val (hw s)) s) (fun u s' => u = Yielded /\ devices s'
    /\ ks s' = yielded p (with_mem (kmem (ks s')) (if i32 (csr (hw s) tp) =? 0 then ticked (ks s) else ks s))
    /\ load64 (kmem (ks s')) (trapframe p + TF_epc) = pc (hw s)
    /\ (forall x, trapframe p + 40 <= x < trapframe p + TF_size -> kmem (ks s') x = kmem (ks s) x)).
Proof.
  intros Hm Hw Hpc HD Hp Hk. set (t := set_hw _ s). apply (usertrap_intr_wp t p); [by apply trap_spp | done | done|].
  assert (wide (hw t)) as Hwt by (by apply wide_trap). apply software_wp; [done | by apply devices_entered|]. intros s1 [C1 W1 D1 _] _ K1. split; [done|].
  assert (wide (hw s1)) as Hw1 by (apply W1; by apply wide_set).
  change (csr (hw (entered p t)) tp) with (csr (hw s) tp) in K1.
  assert (kmem (ks s1) = kmem (ks (entered p t))) as Km by (rewrite K1; by destruct (i32 _ =? 0)).
  apply (usertrap_end_wp s1 p); [done | | done | | done].
  { rewrite K1. destruct (i32 _ =? 0); [|done]. by rewrite ticked_proc. }
  intros _. split_and!; [done | by destruct D1; constructor | | |].
  - ms. rewrite K1. by destruct (i32 _ =? 0).
  - change (kmem (ks (set_ks (yielded p (ks s1)) s1))) with (kmem (ks s1)). rewrite Km, entered_epc by done. unfold t. cbn [set_hw hw]. rewrite trap_sepc. by apply u64_id.
  - intros x Hx. change (kmem (ks (set_ks (yielded p (ks s1)) s1))) with (kmem (ks s1)). rewrite Km. apply (entered_regs p t x). lia.
Qed.

(** C24: an interrupt is invisible to the user process that it interrupts.
    After a device interrupt the process goes on where it was, in user mode
    and with interrupts on, its saved registers and the rest of memory
    untouched, and what [uservec] needs at the next trap is in the trap frame;
    the kernel's tables are as before.  After a timer interrupt the clock has
    advanced (on hart 0) and the process is ready to run again; whenever the
    scheduler picks it, on whatever hart, it goes on in the same way. *)
Theorem user_interrupts_transparent (s : mach) (p : proc) (val : Z) :
  mode (hw s) = User -> wide (hw s) -> 0 <= pc (hw s) < 2 ^ 64 -> devices s -> aget (procs (ks s)) (cur (ks s)) = Some p -> killed p = 0 ->
  (exists s', usertrap' (set_hw (take_trap EXTERNAL val (hw s)) s) = Ret (ToUser (MAKE_SATP (pagetable p)), s')
     /\ resumes p (pc (hw s)) (kmem (ks s)) s' /\ devices s'
     /\ ks s' = with_mem (kmem (ks s')) (ks s) /\ (forall x, x < trapframe p \/ trapframe p + 40 <= x -> kmem (ks s') x = kmem (ks s) x))
  /\ (exists s', usertrap' (set_hw (take_trap SOFTWARE val (hw s)) s) = Ret (Yielded, s') /\ devices s'
     /\ ks s' = yielded p (with_mem (kmem (ks s')) (if i32 (csr (hw s) tp) =? 0 then ticked (ks s) else ks s))
     /\ (forall s2 p2, wide (hw s2) -> aget (procs (ks s2)) (cur (ks s2)) = Some p2 -> trapframe p2 = trapframe p ->
           (forall x, trapframe p <= x < trapframe p + TF_size -> kmem (ks s2) x = kmem (ks s') x) ->
           exists s3, usertrapret' s2 = Ret (MAKE_SATP (pagetable p2), s3) /\ resumes p2 (pc (hw s)) (kmem (ks s)) s3)).
Proof.
  intros Hm Hw Hpc HD Hp Hk. split.
  - destruct (user_external_wp s p val Hm Hw Hpc HD Hp Hk) as (u & s' & E & -> & H1 & H2 & H3 & H4). by exists s'.
  - destruct (user_software_wp s p val Hm Hw Hpc HD Hp Hk) as (u & s' & E & -> & HD' & HK & He & Hr). exists s'. split_and!; [done..|].
    intros s2 p2 Hw2 Hp2 Ht Hf. assert (wp usertrapret' s2 (fun a s3 => a = MAKE_SATP (pagetable p2) /\ resumes p2 (pc (hw s)) (kmem (ks s)) s3)) as (a & s3 & E3 & -> & H3).
    { apply (usertrapret_wp _ p2); [done | done | done|]. intros s3 HL. split; [done|]. apply (leaving_resumes _ _ _ s2); [done | done | |].
      - rewrite Ht, <- He. apply load64_ext. intros x Hx. apply Hf. places. unfold TF_size. lia.
      - intros x Hx. rewrite Ht in Hx. rewrite Hf by lia. by apply Hr. }
    by exists s3.
Qed.

(** ** From the kernel *)

Lemma intr_get_wp h (Q : bool -> hart -> Prop) : Q (sie_bit h) h -> wp intr_get h Q.
Proof.
  intros H. unfold intr_get. wp_step. apply r_sstatus_wp. wp_step. unfold SSTATUS_SIE. rewrite land_bit, negb_involutive by done. bits. by rewrite andb_true_r.
Qed.

(** Whether the interrupted process gives up the CPU. *)
Definition preempts (cause : Z) (k : kst A) : bool :=
  (cause =? SOFTWARE) && match aget (procs k) (cur k) with Some p => bool_decide (state p = RUNNING) | None => false end.

(** The last part of [kerneltrap_enter]. *)
Lemma preempt_wp (s : mach) d e ss (Q : bool * Z * Z -> mach -> Prop) :
  ((d =? 2) && match aget (procs (ks s)) (cur (ks s)) with Some p => bool_decide (state p = RUNNING) | None => false end = false -> Q (false, e, ss) s) ->
  (forall p, aget (procs (ks s)) (cur (ks s)) = Some p -> state p = RUNNING -> d = 2 -> Q (true, e, ss) (set_ks (yielded p (ks s)) s)) ->
  wp (t <- on_ks (gets procs) ;; me <- on_ks (gets cur) ;;
      let runs := match aget t me with Some p => bool_decide (state p = RUNNING) | None => false end in
      if (d =? 2) && runs then on_ks yield_enter ;;; ret (true, e, ss) else ret (false, e, ss)) s Q.
Proof.
  intros H0 H1. wp_step. apply ks_wp. wp_step. wp_step. apply ks_wp. wp_step. replace (set_ks _ (set_ks _ s)) with s by (by destruct s). cbn zeta. change (ks (set_ks (ks s) s)) with (ks s).
  revert H0 H1. destruct (aget (procs (ks s)) (cur (ks s))) as [p|] eqn:Ep; intros H0 H1; [|rewrite andb_false_r in *; wp_step; by apply H0].
  destruct (Z.eqb_spec d 2) as [->|Hd]; cbn [andb] in *; [|wp_step; by apply H0]. case_bool_decide as E; [|wp_step; by apply H0].
  wp_step. apply ks_wp, (yield_wp _ p); [done|]. wp_step. by apply H1.
Qed.

(** Leaving: [sret] takes the hart back to where the trap was. *)
Lemma leave_wp (s : mach) e x (Q : unit -> mach -> Prop) :
  (forall h, csr h sepc = u64 e -> spp h = Z.testbit x 8 -> spie h = Z.testbit x 5 -> (wide (hw s) -> wide h) -> Q tt (set_hw h s)) -> wp (kerneltrap_leave e x) s Q.
Proof.
  intros HQ. unfold kerneltrap_leave. wp_step. apply hw_wp, wr_csr_wp. apply hw_wp, w_sstatus_wp. cbn [set_hw hw]. change (set_hw ?h (set_hw _ s)) with (set_hw h s).
  apply HQ; [| | | intros H; by do 2 apply wide_set].
  - rewrite csr_ne by done. by apply csr_eq.
  - unfold spp. rewrite csr_eq. by bits.
  - unfold spie. rewrite csr_eq. by bits.
Qed.

Lemma kernel_enter_wp (s : mach) cause val : mode (hw s) = Supervisor -> sie_bit (hw s) = true -> wide (hw s) -> 0 <= pc (hw s) < 2 ^ 64 ->
  devices s -> cause = EXTERNAL \/ cause = SOFTWARE ->
  wp (kerneltrap_enter delay procdump) (set_hw (take_trap cause val (hw s)) s) (fun r s' =>
    let k := if (cause =? SOFTWARE) && (i32 (csr (hw s) tp) =? 0) then ticked (ks s) else ks s in
    r.1.1 = preempts cause (ks s) /\ r.1.2 = pc (hw s) /\ Z.testbit r.2 8 = true /\ Z.testbit r.2 5 = true /\ devices s'
    /\ ks s' = (if preempts cause (ks s) then match aget (procs (ks s)) (cur (ks s)) with Some p => yielded p k | None => k end else k)).
Proof.
  intros Hm Hsie Hw Hpc HD Hc. unfold kerneltrap_enter. destruct s as [h k c v q]. cbn [set_hw hw ks con vd pr] in *. pose proof (trap_bits cause val h) as Hb.
  rewrite Hm, Hsie in Hb. injection Hb as B1 B2 B3. set (x := Z.land (csr (take_trap cause val h) mstatus) SSTATUS_BITS).
  assert (Z.testbit x 8 = true /\ Z.testbit x 5 = true) as [X1 X2].
  { unfold x. bits. split; [by rewrite andb_true_r | by rewrite andb_true_r]. }
  wp_step. apply hw_wp, rd_csr_wp. ms. wp_step. apply hw_wp, r_sstatus_wp. ms. wp_step. apply hw_wp, rd_csr_wp. ms. rewrite spp_test, B1. cbn [negb]. fold x.
  wp_step. apply hw_wp, intr_get_wp. ms. rewrite B3. change (set_hw ?a (mkMach _ k c v q)) with (mkMach a k c v q). rewrite trap_sepc, u64_id by done.
  wp_step. assert (devices (mkMach (take_trap cause val h) k c v q)) as HD' by (by destruct HD; constructor).
  destruct Hc as [-> | ->].
  - apply external_wp; [done | done|]. intros s1 [C1 W1 D1 _] _ K1. change (1 =? 0) with false. cbn iota. apply preempt_wp; [|done]. intros _. by rewrite K1.
  - apply software_wp; [done | done|]. intros s1 [C1 W1 D1 _] _ K1. change (2 =? 0) with false. cbn iota. change (csr (hw _) tp) with (csr h tp) in K1. cbn [ks] in K1.
    assert (aget (procs (ks s1)) (cur (ks s1)) = aget (procs k) (cur k)) as Hcur by (rewrite K1; destruct (i32 _ =? 0); [by apply ticked_proc | done]).
    apply preempt_wp; rewrite Hcur; unfold preempts; rewrite !Z.eqb_refl; cbn [andb fst snd].
    + intros E. rewrite E. by split_and!.
    + intros p Hp Hr _. rewrite Hp. rewrite bool_decide_true by done. split_and!; [done.. | by destruct D1; constructor |]. cbn [set_ks ks]. by rewrite K1.
Qed.


(** ** Every way back to user space *)

Lemma wp_pwp {S B} (m : M S B) s (Q : B -> S -> Prop) : wp m s Q -> pwp m s Q.
Proof. intros (b & s1 & E & HQ) b' s' E'. rewrite E in E'. by injection E' as <- <-. Qed.
Lemma pwp_and {S B} (m : M S B) s (P Q : B -> S -> Prop) : pwp m s P -> pwp m s Q -> pwp m s (fun b s' => P b s' /\ Q b s').
Proof. intros H1 H2 b s' E. auto. Qed.
Lemma hw_pwp {B} (m : M hart B) (s : mach) Q : pwp m (hw s) (fun b h => Q b (set_hw h s)) -> pwp (on_hw m) s Q.
Proof. apply pwp_zoom. Qed.
Lemma ks_pwp {B} (m : M (kst A) B) (s : mach) Q : pwp m (ks s) (fun b k => Q b (set_ks k s)) -> pwp (on_ks m) s Q.
Proof. apply pwp_zoom. Qed.
Lemma pwp_any {S B} (m : M S B) s (Q : B -> S -> Prop) : (forall b s', Q b s') -> pwp m s Q.
Proof. intros H b s' _. apply H. Qed.

(** The causes that [devintr] knows. *)
Definition known (cause : Z) : bool := negb (Z.land cause 0x8000000000000000 =? 0) && (Z.land cause 0xff =? 9) || (cause =? SOFTWARE).

(** Whatever the devices do, the registers stay registers and the process is
    the same. *)
Definition same_hart (s s' : mach) : Prop := (wide (hw s) -> wide (hw s')) /\ cur (ks s') = cur (ks s).
#[local] Instance same_hart_preorder : PreOrder same_hart.
Proof. split; [done | intros s1 s2 s3 [H1 E1] [H2 E2]; split; [auto | congruence]]. Qed.

Lemma on_hw_keeps {B} (m : M hart B) : (forall h, wp m h (fun _ h' => wide h -> wide h')) -> keeps same_hart (on_hw m).
Proof. intros H s. apply hw_pwp, wp_pwp. eapply wp_mono; [apply H|]. intros b h Hh. by split. Qed.
Lemma off_hw_keeps {T B} (g : mach -> T) (p : T -> mach -> mach) (m : M T B) : (forall t s, hw (p t s) = hw s /\ ks (p t s) = ks s) -> keeps same_hart (zoom g p m).
Proof. intros Hp s. apply pwp_zoom, pwp_any. intros b t. unfold same_hart. destruct (Hp t s) as [-> ->]. done. Qed.
Lemma clock_keeps : keeps same_hart (on_ks clockintr).
Proof. intros s. apply ks_pwp, wp_pwp, clockintr_wp. done. Qed.

Lemma devintr_keeps : keeps same_hart (devintr delay procdump).
Proof.
  unfold devintr, kprintf, w_sip, r_sip, plic_claim, plic_complete, cpuid, r_tp, r_scause, rd_claim, wr_claim, rd_csr, wr_csr. keeps.
  all: first [apply clock_keeps | apply off_hw_keeps; done | apply on_hw_keeps; intros h; repeat wp_step; try (destruct (pending h); repeat wp_step); try done; apply wide_set].
Qed.
Lemma devintr_value (s : mach) : pwp (devintr delay procdump) s (fun d _ => (d =? 0) = negb (known (csr (hw s) scause))).
Proof.
  unfold devintr, known. pwp_step. apply hw_pwp, wp_pwp, rd_csr_wp.
  destruct (negb (Z.land (csr (hw s) scause) 0x8000000000000000 =? 0) && (Z.land (csr (hw s) scause) 0xff =? 9)); cbn [orb negb].
  - do 3 (pwp_step; apply pwp_any; intros ? ?). by pwp_step.
  - change 0x8000000000000001 with SOFTWARE. destruct (csr (hw s) scause =? SOFTWARE); [|by pwp_step]. do 4 (pwp_step; apply pwp_any; intros ? ?). by pwp_step.
Qed.
(** The hart leaves for user space on behalf of a live process. *)
Definition goes_to_user (a : Z) (s : mach) : Prop :=
  exists p, aget (procs (ks s)) (cur (ks s)) = Some p /\ killed p = 0 /\ a = MAKE_SATP (pagetable p)
    /\ mode (sret (hw s)) = User /\ sie_bit (sret (hw s)) = true
    /\ pc (sret (hw s)) = u64 (load64 (kmem (ks s)) (trapframe p + TF_epc)) /\ framed p (hw s) (kmem (ks s)).

Lemma leaving_user p s s' : leaving p s s' -> aget (procs (ks s)) (cur (ks s)) = Some p -> killed p = 0 -> goes_to_user (MAKE_SATP (pagetable p)) s'.
Proof.
  intros [L1 L2 L3 L4 L5 L6 L7] Hp Hk. exists p. split_and!; try done.
  - by rewrite L7.
  - rewrite L3. f_equal. symmetry. apply load64_ext. intros x Hx. apply L5. places. lia.
Qed.

Lemma usertrap_end_pwp (s : mach) d : wide (hw s) ->
  pwp (usertrap_end' d) s (fun u s' => (match u with ToUser a => goes_to_user a s' | InCall _ => False | Yielded => d = 2 | Gone => True end)
    /\ (forall p, aget (procs (ks s)) (cur (ks s)) = Some p -> killed p <> 0 -> u = Gone)).
Proof.
  intros Hw. destruct (aget (procs (ks s)) (cur (ks s))) as [p|] eqn:Hp.
  - destruct (decide (killed p = 0)) as [Hk|Hk].
    + apply wp_pwp, (usertrap_end_wp s p); [done | done | done | |].
      * intros ->. split; [done|]. by intros p' [= <-].
      * intros _ s' HL. split; [by eapply leaving_user|]. by intros p' [= <-].
    + unfold usertrap_end. pwp_step. apply ks_pwp. pwp_step. pwp_step. apply ks_pwp, wp_pwp, (get_killed_wp _ _ p); [done|].
      rewrite (proj2 (Z.eqb_neq _ _) Hk). cbn [negb]. pwp_step. apply pwp_any. intros ? ?. by pwp_step.
  - unfold usertrap_end. pwp_step. apply ks_pwp. pwp_step. pwp_step. apply ks_pwp. unfold get_killed, get_proc. do 3 pwp_step. cbn [set_ks ks]. rewrite Hp. apply pwp_fault.
Qed.

Lemma setkilled_pwp (k : kst A) i (Q : unit -> kst A -> Prop) :
  (forall p, aget (procs k) i = Some p -> Q tt (set_procs (<[Z.to_nat i := with_killed 1 p]> (procs k)) k)) -> pwp (setkilled i) k Q.
Proof.
  intros H. unfold setkilled, mod_proc, get_proc. repeat pwp_step. apply pwp_from_option. intros p Hp. repeat pwp_step. apply pwp_from_option. intros t Ht.
  pwp_step. rewrite aset_is_Some in Ht by (by eapply aget_range). injection Ht as <-. by apply H.
Qed.


End Hw.

(** ** From machine mode to [main] *)

Lemma csr_io h a v r : csr (set_io a v h) r = csr h r.
Proof. done. Qed.
Lemma csr_jump h m a r : csr (jump m a h) r = csr h r.
Proof. done. Qed.
(** Read registers through a sequence of writes. *)
Ltac regs := unfold sie_bit; rewrite ?csr_jump; repeat first [rewrite csr_eq | rewrite csr_io | rewrite csr_ne by done].

(** [mret] into supervisor mode. *)
Lemma mret_wp h (Q : unit -> hart -> Prop) : Z.testbit (csr h mstatus) 11 = true -> Z.testbit (csr h mstatus) 12 = false ->
  (forall h', mode h' = Supervisor -> pc h' = csr h mepc -> (forall r, r <> mstatus -> csr h' r = csr h r) -> sie_bit h' = sie_bit h -> io h' = io h -> Q tt h') ->
  wp mret h Q.
Proof.
  intros B11 B12 HQ. unfold mret. wp_step. assert (Z.land (Z.shiftr (csr h mstatus) 11) 3 = 1) as ->.
  { change 3 with (Z.ones 2). rewrite Z.land_ones by lia. apply Z.bits_inj'. intros n Hn. destruct (Z.ltb_spec n 2) as [Hlt|Hge].
    - rewrite Z.mod_pow2_bits_low, Z.shiftr_spec by lia. assert (n = 0 \/ n = 1) as [-> | ->] by lia; [exact B11 | exact B12].
    - rewrite Z.mod_pow2_bits_high by lia. symmetry. apply Z.bits_above_log2; cbn; lia. }
  cbn iota. apply HQ; cbn [jump mode pc io]; try done.
  - intros r Hr. rewrite csr_jump. by apply csr_ne.
  - unfold sie_bit. rewrite csr_jump, csr_eq. rewrite u64_bit, Z.land_spec, !put_bit_spec by lia. cbn [Z.eqb Pos.eqb]. by rewrite andb_true_r.
Qed.
(** Bits of constants. *)
Ltac const_bits := repeat match goal with |- context [ Z.testbit ?c ?i ] =>
  let b := eval vm_compute in (Z.testbit c i) in
  match b with true => change (Z.testbit c i) with true | false => change (Z.testbit c i) with false end end.
Ltac sbits := repeat (rewrite ?u64_bit, ?mask_in_bit, ?Z.lor_spec, ?Z.land_spec, ?Z.lnot_spec by lia); const_bits;
  cbn [negb]; rewrite ?andb_true_r, ?orb_true_r, ?andb_false_r, ?orb_false_r; try done.

Lemma i32_hart x : 0 <= x < 8 -> i32 x = x.
Proof. intros H. apply i32_small. lia. Qed.

(** [start] takes a hart from machine mode to [main] in supervisor mode
    without paging; all interrupts of supervisor mode are delegated and
    enabled one by one while interrupts as a whole stay as they were, the
    timer of this hart (and of no other) will fire after the interval, the
    scratch area that [timervec] uses is filled in and pointed to, and [tp]
    holds the hart's number for [cpuid]. *)
Theorem start_correct (main_addr timervec timer_scratch : Z) (h : hart) :
  wide h -> 0 <= csr h mhartid < 8 -> 0 <= main_addr < 2 ^ 64 -> 0 <= timervec < 2 ^ 64 -> 0x80000000 <= timer_scratch < 2 ^ 63 ->
  let id := csr h mhartid in let scratch := timer_scratch + id * 40 in
  exists h', start main_addr timervec timer_scratch h = Ret (tt, h')
    /\ mode h' = Supervisor /\ pc h' = main_addr /\ csr h' satp = 0 /\ csr h' tp = id /\ sie_bit h' = sie_bit h
    /\ Forall (fun i => Z.testbit (csr h' mideleg) i = true /\ Z.testbit (csr h' mie) i = true) [1; 5; 9]
    /\ Z.testbit (csr h' mie) 7 = true /\ csr h' mtvec = timervec /\ csr h' mscratch = scratch
    /\ (forall a, io h' a = if a =? CLINT_MTIMECMP id then u64 (io h CLINT_MTIME + 1000000)
                            else if a =? scratch + 24 then CLINT_MTIMECMP id else if a =? scratch + 32 then 1000000 else io h a).
Proof.
  intros Hw Hid Hmain Hvec Hts id scratch. cut (wp (start main_addr timervec timer_scratch) h (fun _ h' =>
    mode h' = Supervisor /\ pc h' = main_addr /\ csr h' satp = 0 /\ csr h' tp = id /\ sie_bit h' = sie_bit h
    /\ Forall (fun i => Z.testbit (csr h' mideleg) i = true /\ Z.testbit (csr h' mie) i = true) [1; 5; 9]
    /\ Z.testbit (csr h' mie) 7 = true /\ csr h' mtvec = timervec /\ csr h' mscratch = scratch
    /\ (forall a, io h' a = if a =? CLINT_MTIMECMP id then u64 (io h CLINT_MTIME + 1000000)
                            else if a =? scratch + 24 then CLINT_MTIMECMP id else if a =? scratch + 32 then 1000000 else io h a)));
    [intros ([] & h' & E & H); by exists h'|].
  unfold start, timerinit, r_mstatus, w_mstatus, w_mepc, w_satp, w_medeleg, w_mideleg, r_sie, w_sie, w_pmpaddr0, w_pmpcfg0, r_mhartid, rd_io, wr_io,
    w_mscratch, w_mtvec, r_mie, w_mie, w_tp.
  repeat (wp_step || (apply rd_csr_wp; regs) || apply wr_csr_wp). rewrite !i32_hart by done. fold id. fold scratch.
  apply mret_wp.
  - regs. sbits.
  - regs. sbits.
  - intros h' M1 M2 M3 M4 M5. unfold sie_bit in M4. rewrite M1, M2, M4, M5, !M3 by done. clear M1 M2 M3 M4 M5 h'. regs.
    split_and!; [done | by apply u64_id | done | apply u64_id; unfold id; lia | sbits | repeat constructor; sbits | sbits | by apply u64_id
      | apply u64_id; unfold scratch, id; lia|].
    cbn [io set_io set_csr]. intros a. unfold upd. assert (forall j, 0 <= j -> scratch + j <> CLINT_MTIMECMP id) as Hne
      by (intros j Hj; unfold scratch, CLINT_MTIMECMP, CLINT, id; lia).
    destruct (Z.eqb_spec a (scratch + 32)) as [->|H32]; [rewrite (proj2 (Z.eqb_neq _ _) (Hne 32 ltac:(lia))); by zcmp|].
    destruct (Z.eqb_spec a (scratch + 24)) as [->|H24]; [by rewrite (proj2 (Z.eqb_neq _ _) (Hne 24 ltac:(lia)))|done].
Qed.

(** ** A machine *)

(** A hart in the given mode, whose process is the second of a small table. *)
Definition hart0 (m : priv) (status : Z) (irqs : list Z) : hart :=
  mkHart (fun r => match r with mstatus => status | stvec => 4096 | _ => 0 end) m 1000 (fun _ => 0) irqs [].
Definition mach0 (h : hart) : mach :=
  mkMach h (small_kst (small_procs RUNNABLE RUNNING RUNNABLE) 1) (consoleinit [97]) (vstart disk0 [] (fun _ => []))
    (mkPrs [] (Seq.mkLockst 0 initlock (mkCpu 0 false true)) false).

Lemma mach0_devices m x irqs : Forall (fun i => i = UART0_IRQ \/ i = VIRTIO0_IRQ) irqs -> devices (mach0 (hart0 m x irqs)).
Proof.
  intros H. constructor; [exists (mkTty [] []), []; apply shows_init | constructor; [lia | constructor] | exists [], []; apply inv_init | exact H | done].
Qed.
Lemma hart0_wide m x irqs : 0 <= x < 2 ^ 64 -> wide (hart0 m x irqs).
Proof. intros H []; cbn; lia. Qed.

Definition no_dev (_ : Z) : option (Z -> Z -> M (kst bump) Z) := None.
Notation utrap := (usertrap 0x80007000 0x80007000 0x8000709c 0x80002000 0x80005000 0x80001000 no_dev no_dev (fun _ => 0%nat) []).

(** A character arrives while the process runs. *)
Lemma user_interrupts_transparent_witness :
  exists s' : mach, utrap (set_hw (take_trap EXTERNAL 0 (hart0 User 2 [UART0_IRQ])) (mach0 (hart0 User 2 [UART0_IRQ]))) = Ret (ToUser (MAKE_SATP 0), s')
    /\ pc (sret (hw s')) = 1000 /\ mode (sret (hw s')) = User.
Proof.
  destruct (user_interrupts_transparent 0x80007000 0x80007000 0x8000709c 0x80002000 (fun _ => 0%nat) [] ltac:(constructor) 0x80005000 0x80001000 no_dev no_dev
    ltac:(split; [discriminate | reflexivity]) (mach0 (hart0 User 2 [UART0_IRQ])) (with_cwd (Some 0) (with_parent (Some 0) (with_pid 2 (with_state RUNNING proc0)))) 0)
    as [(s' & E & [R1 R2 R3 _ _] & _) _].
  - reflexivity.
  - apply hart0_wide. lia.
  - cbn. lia.
  - apply mach0_devices. constructor; [left; reflexivity | constructor].
  - reflexivity.
  - reflexivity.
  - exists s'. split; [exact E|]. split; [exact R3 | exact R1].
Defined.


(** The process makes a load page fault. *)
Definition faulted : @mach bump := set_hw (take_trap 13 0 (hart0 User 2 [])) (mach0 (hart0 User 2 [])).
Definition after_fault : @mach bump := match utrap faulted with Ret (_, s) => s | _ => faulted end.

Lemma start_correct_witness :
  exists h', start 0x80000100 0x80000200 0x80008000 (hart0 Machine 0 []) = Ret (tt, h') /\ mode h' = Supervisor /\ pc h' = 0x80000100 /\ io h' 0x2004000 = 1000000.
Proof.
  destruct (start_correct 0x80000100 0x80000200 0x80008000 (hart0 Machine 0 [])) as (h' & E & H1 & H2 & _ & _ & _ & _ & _ & _ & _ & Hio).
  - apply hart0_wide. lia.
  - cbn. lia.
  - lia.
  - lia.
  - lia.
  - exists h'. split; [exact E|]. split; [exact H1|]. split; [exact H2|]. rewrite Hio. reflexivity.
Defined.
