(* ===== verification/Main.v ===== *)
(** * Starting the machine (kernel/main.c)

    Every hart enters [main] from [start].  Hart 0 initialises the kernel and
    then sets [started]; the others spin until they see it, and set up their
    own registers; all end in the scheduler.  A hart's call of an
    initialisation is one step, and the steps of the harts interleave.  The
    device registers are shared by the harts. *)

From stdpp Require Import gmap.
From S2P Require Import Prelude KString Buddy Bytes Spinlock Printf Uart Console Virtio Bio Log Fs Vm Pipe Kern File Proc ProcThms FdThms Riscv Trap.

Definition NCPU : Z := 8.

(** The calls of [main]. *)
Inductive init :=
| Consoleinit | Printfinit | Print (fmt : list Z) | Kinit | Kvminit | Kvminithart | Procinit | Trapinit | Trapinithart | Plicinit | Plicinithart
| Binit | Iinit | Fileinit | VirtioDiskInit | Userinit | SetStarted | PrintHart.

#[global] Instance init_eq_dec : EqDecision init.
Proof. solve_decision. Defined.

Definition primary : list init :=
  [Consoleinit; Printfinit; Print [10]; Print (chars "xv6 kernel is booting" ++ [10]); Print [10]; Kinit; Kvminit; Kvminithart; Procinit; Trapinit; Trapinithart; Plicinit;
   Plicinithart; Binit; Iinit; Fileinit; VirtioDiskInit; Userinit; SetStarted].
Definition secondary : list init := [PrintHart; Kvminithart; Trapinithart; Plicinithart].

Section Main.
  (** The allocator with its initialisation; addresses that the linker fixes;
      the answers of the disk and what arrives at the serial port. *)
  Context {A : Type} `{PA : PageAllocator A} `{FH : FileHeap A} (pa_init : M A unit).
  Context (etext trampoline forkret initcode kernelvec : Z) (mmio : list (Z * Z) -> Z -> Z) (input : list Z).

Record world := mkWorld {
  kern : kst A;
  con : cons;
  prn : prs;
  vlog : list (Z * Z);         (* writes to the disk's registers *)
  vdk : vdisk;
  kernel_pagetable : Z;
  devs : mem;                  (* device registers *)
  harts : list hart;
  started : bool
}.

Definition set_kern (k : kst A) (w : world) : world := mkWorld k (con w) (prn w) (vlog w) (vdk w) (kernel_pagetable w) (devs w) (harts w) (started w).
Definition set_con (c : cons) (w : world) : world := mkWorld (kern w) c (prn w) (vlog w) (vdk w) (kernel_pagetable w) (devs w) (harts w) (started w).
Definition set_prn (p : prs) (w : world) : world := mkWorld (kern w) (con w) p (vlog w) (vdk w) (kernel_pagetable w) (devs w) (harts w) (started w).
Definition set_kpt (r : Z) (w : world) : world := mkWorld (kern w) (con w) (prn w) (vlog w) (vdk w) r (devs w) (harts w) (started w).
Definition set_started (w : world) : world := mkWorld (kern w) (con w) (prn w) (vlog w) (vdk w) (kernel_pagetable w) (devs w) (harts w) true.

(** Hart [h] with the shared device registers. *)
Definition hart0 : hart := mkHart (fun _ => 0) Machine 0 (fun _ => 0) [] [].
Definition cpu_at (h : nat) (w : world) : hart :=
  let c := nth h (harts w) hart0 in mkHart (csr c) (mode c) (pc c) (devs w) (pending c) (serving c).
Definition put_cpu (h : nat) (c : hart) (w : world) : world :=
  mkWorld (kern w) (con w) (prn w) (vlog w) (vdk w) (kernel_pagetable w) (io c) (<[h := c]> (harts w)) (started w).

Definition on_kern {B} (m : M (kst A) B) : M world B := zoom kern set_kern m.
Definition on_cpu {B} (h : nat) (m : M hart B) : M world B := zoom (cpu_at h) (put_cpu h) m.
Definition print (fmt : list Z) (ap : list arg) : M world unit := zoom prn set_prn (Printf.printf (Some fmt) ap).

Definition kvminit : M world unit := r <- on_kern (onvm (kvmmake etext trampoline)) ;; modify (set_kpt r).
Definition kvminithart (h : nat) : M world unit := p <- gets kernel_pagetable ;; on_cpu h (w_satp (MAKE_SATP p)).

(** The disk's initialisation takes its pages from the kernel's allocator. *)
Definition vini_of (w : world) : vini := mkVini (vlog w) (al (kvm (kern w))) (vdk w).
Definition put_vini (v : vini) (w : world) : world :=
  mkWorld (set_kvm (set_al (vi_al v) (kvm (kern w))) (kern w)) (con w) (prn w) (vi_log v) (vi_disk v) (kernel_pagetable w) (devs w) (harts w) (started w).

(** A call on hart [h]; [trapinit] initialises a lock and [fileinit] is empty. *)
Definition run (h : nat) (i : init) : M world unit :=
  match i with
  | Consoleinit => modify (set_con (consoleinit input))
  | Printfinit => zoom prn set_prn printfinit
  | Print fmt => print fmt []
  | Kinit => on_kern (onvm (zoom al set_al pa_init))
  | Kvminit => kvminit
  | Kvminithart => kvminithart h
  | Procinit => on_kern procinit
  | Trapinit => ret tt
  | Trapinithart => on_cpu h (w_stvec kernelvec)
  | Plicinit => on_cpu h plicinit
  | Plicinithart => on_cpu h plicinithart
  | Binit => on_kern (onfs (onl (onb binit)))
  | Iinit => on_kern (onfs iinit)
  | Fileinit => ret tt
  | VirtioDiskInit => zoom vini_of put_vini (virtio_disk_init mmio)
  | Userinit => on_kern (userinit trampoline forkret initcode)
  | SetStarted => modify set_started
  | PrintHart => id <- on_cpu h cpuid ;; print (chars "hart %d starting" ++ [10]) [AInt id]
  end.

(** ** The harts *)

Inductive stage := Spinning | Doing (todo : list init) | Scheduling.

(** A step of hart [h]: the next call; the end of [main]; a look at
    [started]. *)
Inductive step : world * list stage -> world * list stage -> Prop :=
| step_call h i rest w w' t : t !! h = Some (Doing (i :: rest)) -> run h i w = Ret (tt, w') -> step (w, t) (w', <[h := Doing rest]> t)
| step_done h w t : t !! h = Some (Doing []) -> step (w, t) (w, <[h := Scheduling]> t)
| step_spin h w t : t !! h = Some Spinning -> started w = false -> step (w, t) (w, t)
| step_go h w t : t !! h = Some Spinning -> started w = true -> step (w, t) (w, <[h := Doing secondary]> t).

Definition at_start (n : nat) : list stage := Doing primary :: replicate n Spinning.

(** ** The first process *)

(** The table as [procinit] leaves it: nothing is in use. *)
Record blank (s : kst A) : Prop := {
  bk_len : length (procs s) = Z.to_nat NPROC;
  bk_free : Forall (fun p => free_slot p /\ ofile p = replicate (Z.to_nat NOFILE) 0) (procs s);
  bk_next : nextpid s = 1;
  bk_files : files s = ∅
}.

(** What the process table and the descriptors need to start with: one
    runnable process, which has no files. *)
Record first_process (s : kst A) : Prop := {
  fp_procs : proc_ok s;
  fp_wait : wait_ok s;
  fp_files : fd_ok s;
  fp_init : exists p, pat s (initproc s) p /\ state p = RUNNABLE;
  fp_others : forall i p, pat s i p -> i <> initproc s -> state p = UNUSED
}.

Lemma procinit_blank s : blank s -> pwp procinit s (fun _ s' => blank s').
Proof.
  intros [B1 B2 B3 B4]. unfold procinit. apply pwp_modify. constructor; cbn [procs set_procs nextpid files]; try done.
  apply Forall_fmap, Forall_forall. intros i Hi%elem_of_seqZ. destruct (lookup_lt_is_Some_2 (procs s) (Z.to_nat i)) as [p Hp]; [rewrite B1; lia|].
  destruct (Forall_lookup_1 _ _ _ _ B2 Hp) as [(H1 & H2 & H3 & H4 & H5) H6]. unfold compose. rewrite (nth_lookup_Some _ _ _ _ Hp). done.
Qed.

(** Slot [i] of the table of [s] has become [p]. *)
Record only (s s' : kst A) (i : Z) (p : proc) : Prop := {
  on_procs : procs s' = <[Z.to_nat i := p]> (procs s);
  on_files : files s' = files s;
  on_next : nextpid s' = nextpid s + 1
}.

Section First.
  Context (s : kst A) (i : Z) (Hi : 0 <= i < Z.of_nat (length (procs s))).

Lemma only_mod s1 p f (Q : unit -> kst A -> Prop) : only s s1 i p -> (forall s2, only s s2 i (f p) -> initproc s2 = initproc s1 -> Q tt s2) -> pwp (mod_proc i f) s1 Q.
Proof.
  intros [O1 O2 O3] HQ. apply mod_proc_pwp. intros q Hq. assert (q = p) as ->.
  { unfold pat in Hq. rewrite O1, aget_insert, Z.eqb_refl in Hq by lia. by injection Hq. }
  apply HQ; [|done]. constructor; cbn [upd_proc procs set_procs files nextpid]; try done. by rewrite O1, list_insert_insert_eq.
Qed.
Lemma only_vm {B} (m : M (vms A) B) s1 p (Q : B -> kst A -> Prop) : only s s1 i p -> (forall r s2, only s s2 i p -> initproc s2 = initproc s1 -> Q r s2) -> pwp (onvm m) s1 Q.
Proof. intros [O1 O2 O3] HQ. apply onvm_pwp. intros r v. by apply HQ. Qed.
Lemma only_fs {B} (m : M fsst B) s1 p (Q : B -> kst A -> Prop) : only s s1 i p -> (forall r s2, only s s2 i p -> initproc s2 = initproc s1 -> Q r s2) -> pwp (onfs m) s1 Q.
Proof. intros [O1 O2 O3] HQ. apply onfs_pwp. intros r v. by apply HQ. Qed.
Lemma only_at s1 p (Q : proc -> kst A -> Prop) : only s s1 i p -> Q p s1 -> pwp (get_proc i) s1 Q.
Proof.
  intros [O1 O2 O3] HQ. apply get_proc_pwp. intros q Hq. unfold pat in Hq. rewrite O1, aget_insert, Z.eqb_refl in Hq by lia. by injection Hq as <-.
Qed.

End First.

Lemma blank_first s s' i p : blank s -> only s s' i p -> 0 <= i < NPROC -> initproc s' = i -> state p = RUNNABLE -> pid p = 1 -> parent p = None -> ofile p = replicate (Z.to_nat NOFILE) 0 -> first_process s'.
Proof.
  intros [B1 B2 B3 B4] [O1 O2 O3] Hi Ei Es Ep Epa Eo. rewrite Forall_lookup in B2.
  assert (forall j q, pat s' j q <-> (j = i /\ q = p) \/ (j <> i /\ pat s j q)) as Hpat.
  { intros j q. unfold pat. rewrite O1. unfold NPROC in *. destruct (Z.lt_ge_cases j 0); [unfold aget; zcmp; naive_solver lia|].
    rewrite aget_insert by lia. destruct (Z.eqb_spec j i); naive_solver. }
  assert (forall j q, pat s j q -> free_slot q /\ ofile q = replicate (Z.to_nat NOFILE) 0) as Hfree by (intros j q [_ Hq]%aget_lookup; by eapply B2).
  assert (forall j q, pat s' j q -> j = i /\ q = p \/ state q = UNUSED /\ pid q = 0 /\ trapframe q = 0 /\ pagetable q = 0 /\ parent q = None) as Hcase.
  { intros j q Hq. apply Hpat in Hq as [Hq|[_ Hq]]; [by left | right; by apply (Hfree j)]. }
  assert (pat s' i p) as Hp by (apply Hpat; by left). constructor.
  - constructor; try lia.
    + by rewrite O1, length_insert.
    + intros j q [[-> ->]|(H1 & H2 & _)]%Hcase; [split; [congruence | lia] | done].
    + intros j q [[-> ->]|(H1 & H2 & H3 & H4 & H5)]%Hcase; [congruence | done].
    + intros j q [[-> ->]|(H1 & _)]%Hcase; [lia | done].
    + intros j q k r [[-> ->]|(H1 & _)]%Hcase; [|done]. intros [[-> ->]|(H1 & H2 & _)]%Hcase; [done | intros; lia].
    + intros j q [[-> ->]|(H1 & _)]%Hcase; [by rewrite Ei | done].
    + intros j q k [[-> ->]|(_ & _ & _ & _ & H5)]%Hcase; congruence.
    + exists p. rewrite Ei. split; [done|]. rewrite Es. by split.
  - intros j q k r [[-> ->]|(H1 & _)]%Hcase; congruence.
  - assert (Forall (fun q => ofile q = replicate (Z.to_nat NOFILE) 0) (procs s')) as Hof.
    { rewrite O1. apply Forall_insert; [|done]. apply Forall_lookup. intros j q Hq. by apply (B2 j q Hq). }
    assert (forall q, ofile q = replicate (Z.to_nat NOFILE) 0 -> no_files q) as Hno by (intros q E; unfold no_files; rewrite E; by apply Forall_replicate).
    constructor.
    + by rewrite O1, length_insert.
    + eapply Forall_impl; [exact Hof|]. intros q ->. by rewrite length_replicate.
    + eapply Forall_impl; [exact Hof|]. intros q E _. by apply Hno.
    + by rewrite O2, B4.
    + intros f v. by rewrite O2, B4.
    + intros f Hf _. split; [|done]. apply refs_no_files; [done|]. eapply Forall_impl; [exact Hof|]. auto.
  - exists p. rewrite Ei. done.
  - intros j q Hq Hne. rewrite Ei in Hne. by destruct (Hcase j q Hq) as [[-> _]|(H1 & _)].
Qed.

(** A process that is being set up. *)
Definition fresh_proc (p : proc) : Prop := pid p = 1 /\ parent p = None /\ ofile p = replicate (Z.to_nat NOFILE) 0.

Lemma allocproc_only s : blank s ->
  pwp (allocproc trampoline forkret) s (fun r s' => forall i, r = Some i -> 0 <= i < NPROC /\ exists p, only s s' i p /\ fresh_proc p).
Proof.
  intros B. destruct B as [B1 B2 B3 B4]. unfold allocproc. pwp_step. pwp_step. pose proof (find_state_spec UNUSED (procs s) 0) as Hf. destruct (find_state UNUSED (procs s) 0) as [i|]; [|by pwp_step].
  destruct Hf as [Hi (p & Hp & _)]. rewrite Z.sub_0_r in Hp. pose proof (lookup_lt_Some _ _ _ Hp) as Hlt. destruct (Forall_lookup_1 _ _ _ _ B2 Hp) as [(F1 & F2 & F3 & F4 & F5) F6].
  assert (0 <= i < Z.of_nat (length (procs s))) as Hr by lia. assert (0 <= i < NPROC) as Hn by (unfold NPROC in *; lia).
  pwp_step. unfold allocpid. do 4 pwp_step. pwp_step. rewrite B3. pwp_step. apply mod_proc_pwp. intros p' Hp'. assert (p' = p) as ->.
  { unfold pat in Hp'. cbn [procs set_nextpid] in Hp'. apply aget_lookup in Hp' as [_ Hp']. congruence. }
  set (s1 := upd_proc _ i _). set (p1 := with_state USED (with_pid 1 p)) in *. assert (only s s1 i p1) as O1 by (constructor; cbn; [done | done | by rewrite B3]).
  assert (fresh_proc p1) as Hf1 by done. clearbody p1 s1.
  pwp_step. eapply (only_vm s i); [done|]. intros tf s2 O2 _. pwp_step. eapply (only_mod s i Hr); [done|]. intros s3 O3 _.
  destruct (tf =? 0); [apply pwp_bind; intros ? ? _; by pwp_step|].
  pwp_step. eapply (only_vm s i); [done|]. intros pt s4 O4 _. pwp_step. eapply (only_mod s i Hr); [done|]. intros s5 O5 _.
  destruct (pt =? 0); [apply pwp_bind; intros ? ? _; by pwp_step|].
  pwp_step. eapply (only_mod s i Hr); [done|]. intros s6 O6 _. pwp_step. intros j [= <-]. split; [done|]. eexists. split; [exact O6|]. exact Hf1.
Qed.

Lemma userinit_first s : blank s -> pwp (userinit trampoline forkret initcode) s (fun _ s' => first_process s').
Proof.
  intros B. unfold userinit. pwp_step. eapply pwp_mono; [by apply allocproc_only|]. intros [i|] s1 H1; [|by pwp_step]. destruct (H1 i eq_refl) as [Hi (p & O1 & Hf)].
  assert (0 <= i < Z.of_nat (length (procs s))) as Hr by (rewrite (bk_len _ B); unfold NPROC in *; lia).
  pwp_step. pwp_step. assert (only s (set_initproc i s1) i p) as O2 by (by destruct O1).
  pwp_step. eapply (only_at s i Hr); [done|]. pwp_step. eapply (only_vm s i); [done|]. intros _ s3 O3 E3. pwp_step. eapply (only_mod s i Hr); [done|]. intros s4 O4 E4.
  pwp_step. unfold set_tf. eapply (only_vm s i); [done|]. intros _ s5 O5 E5. pwp_step. eapply (only_vm s i); [done|]. intros _ s6 O6 E6. pwp_step. eapply (only_mod s i Hr); [done|]. intros s7 O7 E7.
  pwp_step. eapply (only_fs s i); [done|]. intros d s8 O8 E8. pwp_step. eapply (only_mod s i Hr); [done|]. intros s9 O9 E9. eapply (only_mod s i Hr); [done|]. intros s10 O10 E10.
  destruct Hf as (F1 & F2 & F3). eapply blank_first; [exact B | exact O10 | done | | done..]. rewrite E10, E9, E8, E7, E6, E5, E4, E3. done.
Qed.

(** ** What a call changes *)

(** Calls that leave the kernel's own data alone. *)
Definition light : list init := [PrintHart; Kvminithart; Trapinithart; Plicinithart; SetStarted].

Definition dev_after (h : nat) (i : init) (d : mem) : mem :=
  match i with
  | Plicinit => upd (upd d (PLIC + UART0_IRQ * 4) 1) (PLIC + VIRTIO0_IRQ * 4) 1
  | Plicinithart => upd (upd d (PLIC_SENABLE (Z.of_nat h)) 0x402) (PLIC_SPRIORITY (Z.of_nat h)) 0
  | _ => d
  end.

Record effect (h : nat) (i : init) (w w' : world) : Prop := {
  ef_len : length (harts w') = length (harts w);
  ef_others : forall k, k <> h -> harts w' !! k = harts w !! k;
  ef_hart : forall c, harts w !! h = Some c -> csr c tp = Z.of_nat h -> exists c', harts w' !! h = Some c' /\ csr c' tp = Z.of_nat h
    /\ csr c' satp = (if bool_decide (i = Kvminithart) then u64 (MAKE_SATP (kernel_pagetable w)) else csr c satp)
    /\ csr c' stvec = (if bool_decide (i = Trapinithart) then u64 kernelvec else csr c stvec);
  ef_table : i <> Kvminit -> kernel_pagetable w' = kernel_pagetable w;
  ef_devs : forall c, harts w !! h = Some c -> csr c tp = Z.of_nat h -> Z.of_nat h < NCPU -> devs w' = dev_after h i (devs w);
  ef_started : started w' = if bool_decide (i = SetStarted) then true else started w;
  ef_blank : i <> Userinit -> blank (kern w) -> blank (kern w');
  ef_first : i = Userinit -> blank (kern w) -> first_process (kern w');
  ef_light : i ∈ light -> kern w' = kern w
}.

(** A call that does not touch the harts, the devices and [started]. *)
Lemma effect_data h i w w' : i ∉ light -> i <> Plicinit -> harts w' = harts w -> devs w' = devs w -> started w' = started w -> (i <> Kvminit -> kernel_pagetable w' = kernel_pagetable w) ->
  (i <> Userinit -> blank (kern w) -> blank (kern w')) -> (i = Userinit -> blank (kern w) -> first_process (kern w')) -> effect h i w w'.
Proof.
  intros Hl Hp E1 E2 E3 E4 E5 E6. assert (i <> Kvminithart /\ i <> Trapinithart /\ i <> Plicinithart /\ i <> SetStarted) as (N1 & N2 & N3 & N4) by (unfold light in Hl; set_solver).
  constructor; try done.
  - by rewrite E1.
  - by rewrite E1.
  - intros c Hc Ht. exists c. rewrite E1, !bool_decide_false by done. done.
  - intros c _ _ _. rewrite E2. by destruct i.
  - by rewrite bool_decide_false.
Qed.

(** A call that runs on the registers of hart [h]. *)
Lemma effect_cpu h i w c' : i ∉ [Kvminit; Userinit; SetStarted] ->
  (forall c, harts w !! h = Some c -> csr c tp = Z.of_nat h -> csr c' tp = Z.of_nat h
    /\ csr c' satp = (if bool_decide (i = Kvminithart) then u64 (MAKE_SATP (kernel_pagetable w)) else csr c satp)
    /\ csr c' stvec = (if bool_decide (i = Trapinithart) then u64 kernelvec else csr c stvec) /\ (Z.of_nat h < NCPU -> io c' = dev_after h i (devs w))) ->
  effect h i w (put_cpu h c' w).
Proof.
  intros Hn Hc. assert (i <> Kvminit /\ i <> Userinit /\ i <> SetStarted) as (N1 & N2 & N3) by set_solver. constructor; cbn [put_cpu harts devs started kern kernel_pagetable]; try done.
  - by rewrite length_insert.
  - intros k Hk. by rewrite list_lookup_insert_ne.
  - intros c Hh Ht. destruct (Hc c Hh Ht) as (H1 & H2 & H3 & _). exists c'. rewrite list_lookup_insert_eq by (by eapply lookup_lt_Some). done.
  - intros c Hh Ht Hlt. by apply (Hc c Hh Ht).
  - by rewrite bool_decide_false.
Qed.

Lemma blank_kvm v s : blank s -> blank (set_kvm v s).
Proof. intros [? ? ? ?]. by constructor. Qed.
Lemma blank_kfs v s : blank s -> blank (set_kfs v s).
Proof. intros [? ? ? ?]. by constructor. Qed.

Lemma cpu_regs h w c : harts w !! h = Some c -> csr (cpu_at h w) = csr c.
Proof. intros Hc. unfold cpu_at. by rewrite (nth_lookup_Some _ _ _ _ Hc). Qed.

(** The registers of a hart under the operations of riscv.h. *)
Lemma on_cpu_pwp {B} h (m : M hart B) w (Q : B -> world -> Prop) : pwp m (cpu_at h w) (fun r c' => Q r (put_cpu h c' w)) -> pwp (on_cpu h m) w Q.
Proof. intros H. by apply pwp_zoom. Qed.

Lemma on_kern_pwp {B} (m : M (kst A) B) w (Q : B -> world -> Prop) : pwp m (kern w) (fun r k => Q r (set_kern k w)) -> pwp (on_kern m) w Q.
Proof. intros H. by apply pwp_zoom. Qed.

Lemma run_effect h i w : pwp (run h i) w (fun _ w' => effect h i w w').
Proof.
  destruct i; cbn [run].
  - apply pwp_modify. apply effect_data; try done; unfold light; set_solver.
  - apply pwp_zoom. intros r p _. apply effect_data; try done; unfold light; set_solver.
  - apply pwp_zoom. intros r p _. apply effect_data; try done; unfold light; set_solver.
  - apply on_kern_pwp, onvm_pwp. intros r v. apply effect_data; try done; [unfold light; set_solver|]. intros _. apply blank_kvm.
  - unfold kvminit. pwp_step. apply on_kern_pwp, onvm_pwp. intros r v. pwp_step. apply effect_data; try done; [unfold light; set_solver|]. intros _. apply blank_kvm.
  - unfold kvminithart. pwp_step. pwp_step. apply on_cpu_pwp. unfold w_satp, wr_csr. pwp_step. apply effect_cpu; [set_solver|]. intros c Hc Ht. cbn [set_csr csr io]. by rewrite (cpu_regs h w c Hc).
  - apply on_kern_pwp. intros r k Ek. apply effect_data; try done; [unfold light; set_solver|]. intros _ B. exact (procinit_blank _ B r k Ek).
  - pwp_step. apply effect_data; try done; unfold light; set_solver.
  - apply on_cpu_pwp. unfold w_stvec, wr_csr. pwp_step. apply effect_cpu; [set_solver|]. intros c Hc Ht. cbn [set_csr csr io]. by rewrite (cpu_regs h w c Hc).
  - apply on_cpu_pwp. unfold plicinit, wr_io. pwp_step. pwp_step. pwp_step. apply effect_cpu; [set_solver|]. intros c Hc Ht. cbn [set_io csr io]. by rewrite (cpu_regs h w c Hc).
  - apply on_cpu_pwp. unfold plicinithart, Riscv.cpuid, r_tp, rd_csr, wr_io. repeat pwp_step. apply effect_cpu; [set_solver|]. intros c Hc Ht. cbn [set_io csr io].
    rewrite (cpu_regs h w c Hc), Ht. split; [done|]. split; [done|]. split; [done|]. intros Hn. unfold NCPU in Hn. rewrite i32_small by lia. done.
  - apply on_kern_pwp, onfs_pwp. intros r v. apply effect_data; try done; [unfold light; set_solver|]. intros _. apply blank_kfs.
  - apply on_kern_pwp, onfs_pwp. intros r v. apply effect_data; try done; [unfold light; set_solver|]. intros _. apply blank_kfs.
  - pwp_step. apply effect_data; try done; unfold light; set_solver.
  - apply pwp_zoom. intros r v _. apply effect_data; try done; [unfold light; set_solver|]. intros _. apply blank_kvm.
  - apply on_kern_pwp. intros r k Ek. apply effect_data; try done; [unfold light; set_solver|]. intros _ B. exact (userinit_first _ B r k Ek).
  - apply pwp_modify. constructor; try done. intros c Hc Ht. by exists c.
  - pwp_step. apply on_cpu_pwp. unfold Riscv.cpuid, r_tp, rd_csr. pwp_step. pwp_step. pwp_step. apply pwp_zoom. intros r p _.
    assert (effect h PrintHart w (put_cpu h (cpu_at h w) w)) as [E1 E2 E3 E4 E5 E6 E7 E8 E9]; [|by constructor]. apply effect_cpu; [set_solver|]. intros c Hc Ht. by rewrite (cpu_regs h w c Hc).
Qed.

(** ** The order of the calls *)

(** The calls that a hart has before it. *)
Definition pend (st : stage) : list init := match st with Spinning => secondary | Doing l => l | Scheduling => [] end.

Lemma primary_cut n i rest : drop n primary = i :: rest ->
  rest = drop (S n) primary /\ (i = Kvminit -> Kvminithart ∈ rest) /\ (Userinit ∉ i :: rest -> i ∈ light) /\ (i = SetStarted <-> rest = []) /\ (i = Userinit -> Userinit ∉ rest).
Proof.
  intros E. assert (n < 19)%nat as Hn by (destruct (decide (n < 19)%nat); [done|]; rewrite drop_ge in E by (cbn; lia); done).
  do 19 (destruct n as [|n]; [cbn in E; injection E as <- <-; split; [reflexivity|]; unfold light; split_and!; (set_solver || (split; congruence) || (intros H; exfalso; apply H; set_solver))|]). lia.
Qed.
Lemma secondary_cut n i rest : drop n secondary = i :: rest -> rest = drop (S n) secondary /\ i ∈ light /\ i <> SetStarted.
Proof.
  intros E. assert (n < 4)%nat as Hn by (destruct (decide (n < 4)%nat); [done|]; rewrite drop_ge in E by (cbn; lia); done).
  do 4 (destruct n as [|n]; [cbn in E; injection E as <- <-; unfold light; split_and!; [reflexivity | set_solver | done]|]). lia.
Qed.

(** What hart [h] has when the calls of [l] are still before it. *)
Record ready_hart (w : world) (h : nat) (l : list init) (c : hart) : Prop := {
  rh_satp : Kvminithart ∉ l -> csr c satp = u64 (MAKE_SATP (kernel_pagetable w));
  rh_stvec : Trapinithart ∉ l -> csr c stvec = u64 kernelvec;
  rh_plic : Plicinithart ∉ l -> devs w (PLIC_SENABLE (Z.of_nat h)) = 0x402 /\ devs w (PLIC_SPRIORITY (Z.of_nat h)) = 0
}.

(** What the calls of hart 0 have done for all. *)
Record ready_kernel (w : world) (l : list init) : Prop := {
  rk_prio : Plicinit ∉ l -> devs w (PLIC + UART0_IRQ * 4) = 1 /\ devs w (PLIC + VIRTIO0_IRQ * 4) = 1;
  rk_blank : Userinit ∈ l -> blank (kern w);
  rk_first : Userinit ∉ l -> first_process (kern w);
  rk_started : started w = bool_decide (l = [])
}.

Record boot_inv (w : world) (t : list stage) : Prop := {
  bv_len : length t = length (harts w) /\ Z.of_nat (length t) <= NCPU;
  bv_tp : forall h c, harts w !! h = Some c -> csr c tp = Z.of_nat h;
  bv_main : exists t0 n, t !! 0%nat = Some t0 /\ t0 <> Spinning /\ pend t0 = drop n primary /\ ready_kernel w (pend t0);
  bv_rest : forall h st, h <> 0%nat -> t !! h = Some st -> (exists n, pend st = drop n secondary) /\ (st = Spinning \/ started w = true);
  bv_hart : forall h st c, t !! h = Some st -> harts w !! h = Some c -> ready_hart w h (pend st) c
}.

(** The registers of the PLIC do not overlap. *)
Lemma dev_after_own h k i d : Z.of_nat h < NCPU -> Z.of_nat k < NCPU -> h <> k ->
  dev_after h i d (PLIC_SENABLE (Z.of_nat k)) = d (PLIC_SENABLE (Z.of_nat k)) /\ dev_after h i d (PLIC_SPRIORITY (Z.of_nat k)) = d (PLIC_SPRIORITY (Z.of_nat k)).
Proof.
  unfold NCPU, dev_after, upd, PLIC_SENABLE, PLIC_SPRIORITY, UART0_IRQ, VIRTIO0_IRQ. intros Hh Hk Hne.
  destruct i; split; try done; repeat (rewrite (proj2 (Z.eqb_neq _ _)) by lia); done.
Qed.
Lemma dev_after_self h i d : Z.of_nat h < NCPU ->
  if bool_decide (i = Plicinithart) then dev_after h i d (PLIC_SENABLE (Z.of_nat h)) = 0x402 /\ dev_after h i d (PLIC_SPRIORITY (Z.of_nat h)) = 0
  else dev_after h i d (PLIC_SENABLE (Z.of_nat h)) = d (PLIC_SENABLE (Z.of_nat h)) /\ dev_after h i d (PLIC_SPRIORITY (Z.of_nat h)) = d (PLIC_SPRIORITY (Z.of_nat h)).
Proof.
  unfold NCPU, dev_after, upd, PLIC_SENABLE, PLIC_SPRIORITY, UART0_IRQ, VIRTIO0_IRQ. intros Hh.
  destruct i; cbn; split; try done; repeat (rewrite (proj2 (Z.eqb_neq _ _)) by lia); rewrite ?Z.eqb_refl; done.
Qed.
Lemma dev_after_prio h i d : Z.of_nat h < NCPU ->
  if bool_decide (i = Plicinit) then dev_after h i d (PLIC + UART0_IRQ * 4) = 1 /\ dev_after h i d (PLIC + VIRTIO0_IRQ * 4) = 1
  else dev_after h i d (PLIC + UART0_IRQ * 4) = d (PLIC + UART0_IRQ * 4) /\ dev_after h i d (PLIC + VIRTIO0_IRQ * 4) = d (PLIC + VIRTIO0_IRQ * 4).
Proof.
  unfold NCPU, dev_after, upd, PLIC_SENABLE, PLIC_SPRIORITY, UART0_IRQ, VIRTIO0_IRQ. intros Hh.
  destruct i; cbn; split; try done; repeat (rewrite (proj2 (Z.eqb_neq _ _)) by lia); rewrite ?Z.eqb_refl; done.
Qed.

Section Call.
  Context (h : nat) (i : init) (w w' : world) (c : hart) (E : effect h i w w') (Hc : harts w !! h = Some c) (Ht : csr c tp = Z.of_nat h) (Hn : Z.of_nat h < NCPU).

Lemma devs_after : devs w' = dev_after h i (devs w).
Proof. by eapply (ef_devs _ _ _ _ E). Qed.

Lemma ready_other k l ck : k <> h -> Z.of_nat k < NCPU -> (i = Kvminit -> Kvminithart ∈ l) -> ready_hart w k l ck -> ready_hart w' k l ck.
Proof.
  intros Hk Hkn Hkv [R1 R2 R3]. constructor; try done.
  - intros Hl. rewrite (ef_table _ _ _ _ E) by (intros Ei; by apply Hl, Hkv). by apply R1.
  - intros Hl. rewrite devs_after. destruct (dev_after_own h k i (devs w) Hn Hkn) as [-> ->]; [done | by apply R3].
Qed.

Lemma ready_self rest c' : (i = Kvminit -> Kvminithart ∈ rest) -> ready_hart w h (i :: rest) c -> harts w' !! h = Some c' -> csr c' tp = Z.of_nat h /\ ready_hart w' h rest c'.
Proof.
  intros Hkv [R1 R2 R3] Hc'. destruct (ef_hart _ _ _ _ E c Hc Ht) as (c2 & H2 & Et & Es & Ev). rewrite Hc' in H2. injection H2 as <-. split; [done|]. constructor.
  - intros Hl. rewrite (ef_table _ _ _ _ E) by (intros Ei; by apply Hl, Hkv). rewrite Es. clear Es Ev. case_bool_decide as Ei; [done|]. apply R1. set_solver.
  - intros Hl. rewrite Ev. clear Es Ev. case_bool_decide as Ei; [done|]. apply R2. set_solver.
  - clear Es Ev. intros Hl. rewrite devs_after. pose proof (dev_after_self h i (devs w) Hn) as Hd. case_bool_decide as Ei; [done|]. destruct Hd as [-> ->]. apply R3. set_solver.
Qed.

Lemma ready_kernel_self rest n : drop n primary = i :: rest -> ready_kernel w (i :: rest) -> ready_kernel w' rest.
Proof.
  intros Hd [R1 R2 R3 R4]. destruct (primary_cut n i rest Hd) as (_ & _ & Hl & Hs & Hu). constructor.
  - intros Hp. rewrite devs_after. pose proof (dev_after_prio h i (devs w) Hn) as H. case_bool_decide as Ei; [done|]. destruct H as [-> ->]. apply R1. set_solver.
  - intros Hin. apply (ef_blank _ _ _ _ E); [intros Ei; by apply Hu|]. apply R2. set_solver.
  - intros Hnin. destruct (decide (i = Userinit)) as [Ei|Ei]; [apply (ef_first _ _ _ _ E Ei); apply R2; set_solver|].
    assert (Userinit ∉ i :: rest) as Hx by set_solver. rewrite (ef_light _ _ _ _ E) by (by apply Hl). by apply R3.
  - rewrite (ef_started _ _ _ _ E). destruct (decide (i = SetStarted)) as [Ei|Ei].
    + rewrite bool_decide_true by done. symmetry. apply bool_decide_true. by apply Hs.
    + rewrite (bool_decide_false (i = SetStarted)), R4 by done. rewrite !bool_decide_false; [done | by rewrite <- Hs | done].
Qed.

Lemma ready_kernel_other l : i ∈ light -> i <> SetStarted -> ready_kernel w l -> ready_kernel w' l.
Proof.
  intros Hl Hs [R1 R2 R3 R4]. pose proof (ef_light _ _ _ _ E Hl) as Ek. constructor; rewrite ?Ek; try done.
  - intros Hp. rewrite devs_after. pose proof (dev_after_prio h i (devs w) Hn) as H. rewrite bool_decide_false in H by (unfold light in Hl; set_solver). destruct H as [-> ->]. by apply R1.
  - rewrite (ef_started _ _ _ _ E), bool_decide_false by done. done.
Qed.

End Call.

Lemma inv_hart w t h st : boot_inv w t -> t !! h = Some st -> exists c, harts w !! h = Some c /\ csr c tp = Z.of_nat h /\ Z.of_nat h < NCPU /\ ready_hart w h (pend st) c.
Proof.
  intros [[L1 L2] Btp _ _ Bh] Hh. pose proof (lookup_lt_Some _ _ _ Hh). destruct (lookup_lt_is_Some_2 (harts w) h ltac:(lia)) as [c Hc]. exists c. split_and!; [done | by apply Btp | lia | by apply Bh].
Qed.

(** The registers after a call of hart [h]. *)
Lemma call_harts w t h i rest w' : boot_inv w t -> t !! h = Some (Doing (i :: rest)) -> effect h i w w' ->
  (i = Kvminit -> Kvminithart ∈ rest /\ forall k st, k <> h -> t !! k = Some st -> Kvminithart ∈ pend st) ->
  (forall k c, harts w' !! k = Some c -> csr c tp = Z.of_nat k)
  /\ (forall k st c, <[h := Doing rest]> t !! k = Some st -> harts w' !! k = Some c -> ready_hart w' k (pend st) c).
Proof.
  intros B Hh E Hkv. destruct (inv_hart _ _ _ _ B Hh) as (c & Hc & Ht & Hn & Rh). pose proof (bv_tp _ _ B) as Btp. split.
  - intros k ck Hk. destruct (decide (k = h)) as [->|Hne]; [|rewrite (ef_others _ _ _ _ E) in Hk by done; by apply Btp].
    by eapply (ready_self h i w w' c E Hc Ht Hn rest ck); [naive_solver | done | done].
  - intros k st ck Hk Hck. destruct (decide (k = h)) as [->|Hne].
    + rewrite list_lookup_insert_eq in Hk by (by eapply lookup_lt_Some). injection Hk as <-. by eapply (ready_self h i w w' c E Hc Ht Hn rest ck); [naive_solver | done | done].
    + rewrite list_lookup_insert_ne in Hk by done. rewrite (ef_others _ _ _ _ E) in Hck by done. destruct (inv_hart _ _ _ _ B Hk) as (ck' & Hck' & _ & Hkn & Rk). rewrite Hck in Hck'. injection Hck' as <-.
      eapply (ready_other h i w w' c E Hc Ht Hn); [done | done | | done]. intros Ei. destruct (Hkv Ei) as [_ H]. by eapply H.
Qed.

Lemma call_main w t i rest w' : boot_inv w t -> t !! 0%nat = Some (Doing (i :: rest)) -> effect 0 i w w' -> boot_inv w' (<[0%nat := Doing rest]> t).
Proof.
  intros B Hh E. pose proof B as [[L1 L2] Btp (t0 & n & H0 & Hsp & Hpn & Rk) Brest Bh]. rewrite Hh in H0. injection H0 as <-. cbn [pend] in *. destruct (primary_cut n i rest (eq_sym Hpn)) as (Er & Hkv & _).
  destruct (inv_hart _ _ _ _ B Hh) as (c & Hc & Ht & Hn & _). assert (started w = false) as Hst by (by rewrite (rk_started _ _ Rk)).
  destruct (call_harts w t 0 i rest w' B Hh E) as [Ctp Ch].
  { intros Ei. split; [by apply Hkv|]. intros k st Hk Hkst. destruct (Brest k st Hk Hkst) as [_ [->|?]]; [cbn; set_solver | congruence]. }
  constructor; try done.
  - by rewrite length_insert, (ef_len _ _ _ _ E).
  - exists (Doing rest), (S n). rewrite list_lookup_insert_eq by (by eapply lookup_lt_Some). split_and!; try done. cbn [pend]. eapply (ready_kernel_self 0 i w w' c E Hc Ht Hn rest n); [by symmetry | done].
  - intros h st Hne Hk. rewrite list_lookup_insert_ne in Hk by done. destruct (Brest h st Hne Hk) as [? [->|?]]; [split; [done | by left] | congruence].
Qed.

Lemma call_other w t h i rest w' : h <> 0%nat -> boot_inv w t -> t !! h = Some (Doing (i :: rest)) -> effect h i w w' -> boot_inv w' (<[h := Doing rest]> t).
Proof.
  intros Hh0 B Hh E. pose proof B as [[L1 L2] Btp (t0 & n & H0 & Hsp & Hpn & Rk) Brest Bh]. destruct (Brest h _ Hh0 Hh) as [[m Hm] [?|Hst]]; [done|]. cbn [pend] in Hm.
  destruct (secondary_cut m i rest (eq_sym Hm)) as (Er & Hl & Hs). destruct (inv_hart _ _ _ _ B Hh) as (c & Hc & Ht & Hn & _).
  assert (i <> Kvminit) as Hk by (unfold light in Hl; set_solver). destruct (call_harts w t h i rest w' B Hh E) as [Ctp Ch]; [done|].
  assert (started w' = true) as Hst' by (by rewrite (ef_started _ _ _ _ E), bool_decide_false).
  constructor; try done.
  - by rewrite length_insert, (ef_len _ _ _ _ E).
  - exists t0, n. rewrite list_lookup_insert_ne by done. split_and!; try done. by eapply (ready_kernel_other h i w w' c E Hc Ht Hn).
  - intros k st Hne Hk'. split; [|by right]. destruct (decide (k = h)) as [->|Hkh].
    + rewrite list_lookup_insert_eq in Hk' by (by eapply lookup_lt_Some). injection Hk' as <-. by exists (S m).
    + rewrite list_lookup_insert_ne in Hk' by done. by apply (Brest k).
Qed.

(** A hart that goes on without a call. *)
Lemma stage_inv w t h st st' : boot_inv w t -> t !! h = Some st -> pend st' = pend st -> st' <> Spinning -> (st = Spinning -> h <> 0%nat /\ started w = true) -> boot_inv w (<[h := st']> t).
Proof.
  intros B Hh Hp Hns Hsp. pose proof B as [[L1 L2] Btp (t0 & n & H0 & Hsp0 & Hpn & Rk) Brest Bh]. constructor; try done.
  - by rewrite length_insert.
  - destruct (decide (h = 0%nat)) as [->|Hne].
    + rewrite Hh in H0. injection H0 as <-. exists st', n. rewrite list_lookup_insert_eq by (by eapply lookup_lt_Some). rewrite Hp. done.
    + exists t0, n. by rewrite list_lookup_insert_ne.
  - intros k s Hk Hks. destruct (decide (k = h)) as [->|Hne].
    + rewrite list_lookup_insert_eq in Hks by (by eapply lookup_lt_Some). injection Hks as <-. rewrite Hp. destruct (Brest h st Hk Hh) as [H1 H2]. split; [done|]. right. destruct H2 as [H2|H2]; [by apply Hsp | done].
    + rewrite list_lookup_insert_ne in Hks by done. exact (Brest k s Hk Hks).
  - intros k s c Hks Hc. destruct (decide (k = h)) as [->|Hne].
    + rewrite list_lookup_insert_eq in Hks by (by eapply lookup_lt_Some). injection Hks as <-. rewrite Hp. by apply Bh.
    + rewrite list_lookup_insert_ne in Hks by done. by apply Bh.
Qed.

Lemma boot_step_inv w t w' t' : boot_inv w t -> step (w, t) (w', t') -> boot_inv w' t'.
Proof.
  intros B Hs. inversion Hs as [h i rest ? ? ? Hh Er | h ? ? Hh | h ? ? Hh Est | h ? ? Hh Est]; subst; clear Hs; [| |done|].
  - pose proof (run_effect h i w _ _ Er) as E. destruct (decide (h = 0%nat)) as [->|Hne]; [by eapply call_main | by eapply call_other].
  - by eapply stage_inv.
  - eapply stage_inv; [done | done | done | done|]. intros _. split; [|done]. intros ->. destruct (bv_main _ _ B) as (t0 & n & H0 & Hsp & _). congruence.
Qed.

Lemma start_inv n w : Z.of_nat n < NCPU -> length (harts w) = S n -> (forall h c, harts w !! h = Some c -> csr c tp = Z.of_nat h) -> blank (kern w) -> started w = false -> boot_inv w (at_start n).
Proof.
  intros Hn Hl Htp Hb Hs. unfold at_start. constructor; try done.
  - cbn. rewrite length_replicate, Hl. unfold NCPU in *. lia.
  - exists (Doing primary), 0%nat. split_and!; try done. constructor; cbn [pend]; try done; intros H; exfalso; apply H; unfold primary; set_solver.
  - intros h st Hh Hst. destruct h as [|h]; [done|]. cbn in Hst. apply lookup_replicate in Hst as [-> _]. split; [by exists 0%nat | by left].
  - intros h st c Hst _. assert (Kvminithart ∈ pend st /\ Trapinithart ∈ pend st /\ Plicinithart ∈ pend st) as (H1 & H2 & H3).
    { destruct h as [|h]; [cbn in Hst; injection Hst as <-; cbn; set_solver|]. cbn in Hst. apply lookup_replicate in Hst as [-> _]. cbn. set_solver. }
    by constructor.
Qed.

Lemma reach_inv x y : rtc step x y -> boot_inv (fst x) (snd x) -> boot_inv (fst y) (snd y).
Proof. induction 1 as [|[w t] [w1 t1] z Hs _ IH]; [done|]. intros B. apply IH. by eapply boot_step_inv. Qed.

(** C14: however the harts interleave, a hart is in the scheduler only after
    hart 0 has made all the calls of [main], in order: the process table, the
    descriptors and the first process are in the state that the invariants of
    processes and files start from, the priorities of the devices are set, and
    the hart itself has the kernel's page table, the kernel's trap vector and its
    interrupts enabled at the PLIC.  Before that the other harts only spin. *)
Theorem boot_order (n : nat) (w0 w : world) (t : list stage) (Hn : Z.of_nat n < NCPU) (Hl : length (harts w0) = S n)
  (Htp : forall h c, harts w0 !! h = Some c -> csr c tp = Z.of_nat h) (Hb : blank (kern w0)) (Hs : started w0 = false)
  (Hr : rtc step (w0, at_start n) (w, t)) :
  (forall h, t !! h <> Some Spinning -> (0 < h < length t)%nat -> started w = true)
  /\ forall h, t !! h = Some Scheduling ->
       started w = true /\ (t !! 0%nat = Some (Doing []) \/ t !! 0%nat = Some Scheduling)
       /\ proc_ok (kern w) /\ wait_ok (kern w) /\ fd_ok (kern w) /\ (exists p, pat (kern w) (initproc (kern w)) p /\ state p = RUNNABLE)
       /\ devs w (PLIC + UART0_IRQ * 4) = 1 /\ devs w (PLIC + VIRTIO0_IRQ * 4) = 1
       /\ exists c, harts w !! h = Some c /\ csr c satp = u64 (MAKE_SATP (kernel_pagetable w)) /\ csr c stvec = u64 kernelvec
            /\ devs w (PLIC_SENABLE (Z.of_nat h)) = 0x402 /\ devs w (PLIC_SPRIORITY (Z.of_nat h)) = 0.
Proof.
  assert (boot_inv w t) as [[Bl _] _ (t0 & m & H0 & Hsp & Hpn & Rk) Brest Bh].
  { apply (reach_inv _ _ Hr). by apply start_inv. }
  split.
  - intros h Hh Hlt. destruct (lookup_lt_is_Some_2 t h ltac:(lia)) as [st Hst]. destruct (Brest h st ltac:(lia) Hst) as [_ [->|?]]; [done | done].
  - intros h Hh. assert (started w = true) as Hst.
    { destruct (decide (h = 0%nat)) as [->|Hne]; [|by destruct (Brest h _ Hne Hh) as [_ [?|?]]]. rewrite Hh in H0. injection H0 as <-. by rewrite (rk_started _ _ Rk). }
    assert (pend t0 = []) as Hp by (rewrite (rk_started _ _ Rk) in Hst; by apply bool_decide_eq_true in Hst). rewrite Hp in Rk.
    destruct (rk_first _ _ Rk) as [F1 F2 F3 F4 _]; [set_solver|]. destruct (rk_prio _ _ Rk) as [D1 D2]; [set_solver|]. split_and!; try done.
    + destruct t0 as [|l|]; [done | cbn in Hp; subst l; by left | by right].
    + destruct (lookup_lt_is_Some_2 (harts w) h) as [c Hc]; [by rewrite <- Bl; eapply lookup_lt_Some|]. destruct (Bh h _ c Hh Hc) as [R1 R2 R3]. exists c. split; [done|].
      split; [apply R1; cbn; set_solver|]. split; [apply R2; cbn; set_solver|]. apply R3. cbn. set_solver.
Qed.

End Main.
