(* ===== verification/Boot.v ===== *)
(** * A machine that boots

    Two harts run [main] to its end, with memory from a bump allocator and the
    disk of QEMU: every call of [main] returns. *)

From stdpp Require Import gmap relations.
From S2P Require Import Prelude KString Buddy Bytes Spinlock Printf Uart Console Virtio VirtioThms Bio Log Fs Vm VmWalk VmSpec VmThms VmKernel Pipe Kern File Proc ProcThms FdThms Riscv Trap Main.

(** ** Pages *)

Lemma bump_took ok N (a a' : bump) : took ok N a a' -> 0 < a -> a + 4096 * N <= 2 ^ 53 -> ok = true /\ a <= a' <= a + 4096 * N.
Proof.
  intros (n & b & Hn & Hs & E) Ha HN. apply bump_draws in Hs as ->. destruct ok; [subst a'; split; [done | lia]|].
  unfold pa_alloc, bump_pages, bump_alloc in E. destruct (Z.ltb_spec (2 ^ 54) (a + 4096 * Z.of_nat n)); [lia|]. injection E. lia.
Qed.

(** The page table [root] has the entries of [f], and [N] pages are left. *)
Definition utable (N : Z) (s : vms bump) (root : Z) (f : Z -> Z) : Prop :=
  al s + 4096 * N <= 2 ^ 53 /\ exists own H, pt_ok s own H /\ own root = Some (root, 2, 0) /\ forall va, 0 <= va < MAXVA -> entry (pm s) root va = f va.

(** [kalloc] with a page left. *)
Lemma bump_kalloc N (s : vms bump) (H : Z -> Prop) : pa_held (al s) H -> 1 <= N -> al s + 4096 * N <= 2 ^ 53 ->
  exists s', kalloc s = Ret (al s, s') /\ pm s' = pm s /\ al s' = al s + 4096 /\ good_page (al s) /\ ~ H (al s) /\ pa_held (al s') (fun q => q = al s \/ H q).
Proof.
  intros (Hm & Hn & HH) H1 HN. exists (mkVms (pm s) (al s + 4096)). unfold kalloc, zoom. cbn [pa_alloc bump_pages]. unfold bump_alloc. rewrite (proj2 (Z.ltb_ge _ _)) by lia.
  split; [done|]. split; [done|]. split; [done|]. split; [unfold good_page; split; [done | lia]|]. split; [intros Hx; apply HH in Hx; lia|].
  cbn [al]. split; [dlia|]. split; [lia|]. intros p [->|Hp]; [lia|]. apply HH in Hp. lia.
Qed.

(** One page is mapped. *)
Lemma map_page N (s : vms bump) root f va pa perm (Q : Z -> vms bump -> Prop) : utable N s root f -> 2 <= N -> va mod 4096 = 0 -> 0 <= va -> va + 4096 <= MAXVA ->
  0 <= perm < 1024 -> good_page pa -> (forall va', va <= va' < va + 4096 -> f va' = 0) ->
  (forall s', utable (N - 2) s' root (put_range va PGSIZE pa perm f) -> Q 0 s') -> wp (mappages root va PGSIZE pa perm) s Q.
Proof.
  intros (HN & own & H & K & Hr & He) H2 Hva H0 Hmax Hp Hg Hf HQ. apply (mappages_wp root va PGSIZE pa perm s own H); try done.
  - intros k Hk. change (PGSIZE / 4096) with 1 in Hk. by replace (pa + 4096 * k) with pa by lia.
  - intros va' Hv. rewrite He, Hf by (unfold PGSIZE in Hv; lia). done.
  - intros r s' own' H' k G Hm Hres Ht. assert (regions va PGSIZE = 1) as Er by (unfold regions, PGSIZE; cbn [Z.eqb]; dlia). rewrite Er in Ht.
    destruct (pt_held _ _ _ K) as (_ & Ha & _). destruct (bump_took _ _ _ _ Ht) as [Hok Ha']; [lia | lia|]. destruct Hres as [[-> ->]|[-> _]]; [|done]. apply HQ. split; [lia|].
    exists own', H'. split; [apply G|]. split; [by apply G|]. intros va' Hv. rewrite (Hm root va' Hr Hv). unfold put_range. change (4096 * (PGSIZE / 4096)) with PGSIZE.
    case_bool_decide as E1; case_bool_decide as E2; [done | naive_solver | naive_solver | by apply He].
Qed.

(** Where a process has its memory. *)
Definition user_map (trampoline tf : Z) : Z -> Z := put_range TRAPFRAME PGSIZE tf RW (put_range TRAMPOLINE PGSIZE trampoline RX (fun _ => 0)).

Lemma proc_pagetable_returns N (s : vms bump) trampoline tf (Q : Z -> vms bump -> Prop) : bytes_mem (pm s) -> pa_held (al s) (fun _ => False) -> 5 <= N -> al s + 4096 * N <= 2 ^ 53 ->
  good_page trampoline -> good_page tf -> (forall pt s', pt <> 0 -> utable (N - 5) s' pt (user_map trampoline tf) -> Q pt s') -> wp (proc_pagetable trampoline tf) s Q.
Proof.
  intros Hb Ha H5 HN Ht Htf HQ. destruct (bump_kalloc N s _ Ha) as (s1 & E1 & Em & Ea & Hg & Hn & Hh); [lia | done|]. assert (al s <> 0) as Hne by (destruct Hg; lia).
  unfold proc_pagetable, uvmcreate. wp_step. wp_step. exists (al s), s1. split; [exact E1|]. rewrite (proj2 (Z.eqb_neq _ _) Hne). wp_step. unfold on_mem. wp_step. wp_step. rewrite (proj2 (Z.eqb_neq _ _) Hne).
  pose proof (new_root (al s1) s _ (al s) (al s1) Hb Hg Hn Hh (took_none 1 _ ltac:(lia))) as [_ K Hr He].
  assert (utable (N - 1) (set_pm (memset (al s) 0 PGSIZE (pm s1)) s1) (al s) (fun _ => 0)) as U.
  { rewrite Em. split; [cbn; lia|]. eexists _, _. split; [exact K|]. split; [exact Hr | exact He]. }
  wp_step. eapply map_page; [exact U | lia | kconst..| exact Ht | done |]. intros s2 U2. change (0 <? 0) with false. cbn iota. wp_step. eapply map_page; [exact U2 | lia | kconst..| exact Htf | |].
  { intros va Hva. unfold put_range. unfold TRAPFRAME in Hva. krange. }
  intros s3 U3. change (0 <? 0) with false. cbn iota. wp_step. apply HQ; [done|]. by replace (N - 5) with (N - 1 - 2 - 2) by lia.
Qed.

Lemma uvmfirst_returns N (s : vms bump) pt f src (Q : unit -> vms bump -> Prop) : utable N s pt f -> 3 <= N -> (forall va, 0 <= va < 4096 -> f va = 0) -> (forall s', Q tt s') -> wp (uvmfirst pt src 52) s Q.
Proof.
  intros (HN & own & H & K & Hr & He) H3 Hf HQ. destruct (bump_kalloc N s H) as (s1 & E1 & Em & Ea & Hg & Hn & Hh); [apply K | lia | done|].
  unfold uvmfirst. cbn [Z.leb Z.compare PGSIZE]. change (PGSIZE <=? 52) with false. cbn iota. wp_step. exists (al s), s1. split; [exact E1|]. wp_step. unfold on_mem. wp_step.
  destruct (fresh_zero s own H (al s) (al s1) K Hg Hn Hh) as (K2 & _ & He2 & _). rewrite <- Em in K2, He2.
  wp_step. eapply (map_page (N - 1)); [|lia | kconst..| exact Hg | exact Hf |].
  - split; [cbn; lia|]. exists own, (fun y => y = al s \/ H y). split; [exact K2|]. split; [exact Hr|]. intros va Hva. cbn [set_pm pm]. rewrite <- He, <- Em by done. by apply He2.
  - intros s2 _. wp_step. apply HQ.
Qed.

(** ** The first process *)

Lemma get_proc_returns i (s : kst bump) p (Q : proc -> kst bump -> Prop) : pat s i p -> Q p s -> wp (get_proc i) s Q.
Proof. intros Hp HQ. unfold get_proc. wp_step. wp_step. by apply wp_from_option with p. Qed.
Lemma mod_proc_returns i f (s : kst bump) p (Q : unit -> kst bump -> Prop) : pat s i p -> Q tt (upd_proc s i (f p)) -> wp (mod_proc i f) s Q.
Proof.
  intros Hp HQ. unfold mod_proc. wp_step. eapply get_proc_returns; [exact Hp|]. wp_step. wp_step. destruct (proj1 (aget_lookup _ _ _) Hp) as [Hi Hl]. pose proof (lookup_lt_Some _ _ _ Hl).
  wp_step. apply wp_from_option with (<[Z.to_nat i := f p]> (procs s)); [unfold aset; rewrite (proj2 (Z.ltb_ge _ _)), (proj2 (Z.leb_gt _ _)) by lia; done|]. wp_step. exact HQ.
Qed.

(** Process [p] in the first slot, memory [v] and file system [fs]. *)
Record slot (v : vms bump) (fs : fsst) (s : kst bump) (p : proc) : Prop := {
  sl_pat : pat s 0 p;
  sl_vm : kvm s = v;
  sl_fs : kfs s = fs
}.

Lemma slot_mod v fs s p f (Q : unit -> kst bump -> Prop) : slot v fs s p -> (forall s', slot v fs s' (f p) -> Q tt s') -> wp (mod_proc 0 f) s Q.
Proof.
  intros [Hp Hv Hf] HQ. eapply mod_proc_returns; [exact Hp|]. apply HQ. destruct (proj1 (aget_lookup _ _ _) Hp) as [Hi Hl]. pose proof (lookup_lt_Some _ _ _ Hl).
  constructor; [|done | done]. unfold pat. cbn [upd_proc procs set_procs]. rewrite aget_insert, Z.eqb_refl by lia. done.
Qed.
Lemma slot_onvm {B} (m : M (vms bump) B) v fs s p (Q : B -> kst bump -> Prop) : slot v fs s p -> wp m v (fun r v' => forall s', slot v' fs s' p -> Q r s') -> wp (onvm m) s Q.
Proof. intros [Hp Hv Hf] HQ. unfold onvm. wp_step. rewrite Hv. eapply wp_mono; [exact HQ|]. intros r v' H. apply H. by constructor. Qed.

Lemma namei_root (fs : fsst) : itable fs = replicate (Z.to_nat NINODE) inode0 -> exists r fs', namei 0 [SLASH] fs = Ret (r, fs').
Proof. destruct fs as [l it sb sd]. cbn [itable]. intros ->. eexists _, _. reflexivity. Qed.

(** What [userinit] finds. *)
Record before_user (k : kst bump) : Prop := {
  bu_blank : blank k;
  bu_mem : bytes_mem (pm (kvm k));
  bu_held : pa_held (al (kvm k)) (fun _ => False);
  bu_room : al (kvm k) + 4096 * 9 <= 2 ^ 53;
  bu_itable : itable (kfs k) = replicate (Z.to_nat NINODE) inode0
}.

Lemma allocproc_returns trampoline forkret k : good_page trampoline -> before_user k ->
  wp (allocproc trampoline forkret) k (fun r s => r = Some 0 /\ exists v p, slot v (kfs k) s p /\ utable 3 v (pagetable p) (user_map trampoline (trapframe p))).
Proof.
  intros Ht [[B1 B2 _ _] Hb Ha HN Hi]. assert (exists p, pat k 0 p /\ find_state UNUSED (procs k) 0 = Some 0) as (p & Hp & Hf).
  { destruct (procs k) as [|p l] eqn:E; [done|]. exists p. unfold pat. rewrite E. split; [done|]. cbn. apply Forall_cons in B2 as [[(F1 & _) _] _]. by rewrite F1. }
  destruct (bump_kalloc 9 (kvm k) _ Ha) as (v1 & E1 & Em & Ea & Hg & Hn & Hh); [lia | done|]. assert (al (kvm k) <> 0) as Hne by (destruct Hg; lia).
  unfold allocproc. wp_step. wp_step. rewrite Hf. wp_step. unfold allocpid. do 4 wp_step. wp_step. wp_step.
  eapply (slot_mod (kvm k) (kfs k)); [by constructor; [exact Hp | ..]|]. intros s1 S1. wp_step. eapply slot_onvm; [exact S1|]. exists (al (kvm k)), v1. split; [exact E1|]. intros s2 S2.
  wp_step. eapply slot_mod; [exact S2|]. intros s3 S3. rewrite (proj2 (Z.eqb_neq _ _) Hne). wp_step. eapply slot_onvm; [exact S3|].
  apply (proc_pagetable_returns 8); try done; [by rewrite Em | eapply pa_weaken; [|exact Hh]; by auto | lia|]. intros pt v2 Hpt U2 s4 S4.
  wp_step. eapply slot_mod; [exact S4|]. intros s5 S5. rewrite (proj2 (Z.eqb_neq _ _) Hpt). wp_step. eapply slot_mod; [exact S5|]. intros s6 S6. wp_step. split; [done|].
  exists v2. eexists. split; [exact S6|]. exact U2.
Qed.

Lemma userinit_returns trampoline forkret initcode k : good_page trampoline -> before_user k -> wp (userinit trampoline forkret initcode) k (fun _ _ => True).
Proof.
  intros Ht Bu. unfold userinit. wp_step. eapply wp_mono; [by apply allocproc_returns|]. intros r s (-> & v & p & S & U).
  wp_step. wp_step. assert (slot v (kfs k) (set_initproc 0 s) p) as S1 by (by destruct S). wp_step. eapply get_proc_returns; [apply S1|]. wp_step. eapply slot_onvm; [exact S1|].
  eapply (uvmfirst_returns 3); [exact U | lia | intros va Hva; unfold user_map, put_range; krange|]. intros v3 s2 S2. wp_step. eapply slot_mod; [exact S2|]. intros s3 S3.
  unfold set_tf, wr64, on_mem. wp_step. eapply slot_onvm; [exact S3|]. wp_step. intros s4 S4. wp_step. eapply slot_onvm; [exact S4|]. wp_step. intros s5 S5.
  wp_step. eapply slot_mod; [exact S5|]. intros s6 S6. wp_step. unfold onfs. wp_step. destruct (namei_root (kfs s6)) as (d & fs' & Ed); [rewrite (sl_fs _ _ _ _ S6); apply Bu|].
  exists d, fs'. split; [exact Ed|]. assert (slot (kvm s6) fs' (set_kfs fs' s6) _) as S7 by (constructor; [apply S6 | done | done]).
  wp_step. eapply slot_mod; [exact S7|]. intros s8 S8. eapply slot_mod; [exact S8|]. done.
Qed.

(** ** The disk *)

Lemma free_all_returns log (a : bump) d : length (dfree d) = 8%nat ->
  wp (for_range 0 NUM (fun i => s <- get ;; l <- from_option "free" (aset (dfree (vi_disk s)) i true) ;; on_disk (with_free l))) (mkVini log a d) (fun _ s => vi_al s = a).
Proof.
  destruct d as [ds ar ai ur uh fr ui nf os]. cbn [dfree]. intros Hl. do 8 (destruct fr as [|? fr]; [done|]). destruct fr; [|done]. eexists tt, _. split; [cbv; reflexivity | done].
Qed.

Lemma vi_kalloc_returns log (a : bump) d (Q : Z -> vini -> Prop) : a < 2 ^ 53 -> Q a (mkVini log (a + 4096) d) -> wp vi_kalloc (mkVini log a d) Q.
Proof. intros Ha HQ. exists a, (mkVini log (a + 4096) d). split; [|exact HQ]. unfold vi_kalloc, zoom. cbn [pa_alloc bump_pages vi_al]. unfold bump_alloc. by rewrite (proj2 (Z.ltb_ge _ _)) by lia. Qed.

Lemma disk_returns (a : bump) : 0 < a -> a + 4096 * 3 <= 2 ^ 53 -> wp (virtio_disk_init qemu) (mkVini [] a bss_disk) (fun _ s => vi_al s = a + 4096 * 3).
Proof.
  intros Ha HN. unfold virtio_disk_init. wp_step. eexists _, (mkVini _ a bss_disk). split; [vm_compute; reflexivity|]. wp_step.
  eapply (wp_mono _ _ (fun _ s => vi_al s = a + 4096 * 3)); [|intros [] s Hs; unfold wr_reg; by wp_step].
  unfold init_queue, wr_reg, rd_reg. wp_step. wp_step. wp_step. wp_step. cbn [vi_log].
  replace (u32 (qemu _ VIRTIO_MMIO_QUEUE_READY)) with 0 by (vm_compute; reflexivity). cbn [Z.eqb negb]. wp_step. wp_step. cbn [vi_log].
  replace (u32 (qemu _ VIRTIO_MMIO_QUEUE_NUM_MAX)) with 1024 by (vm_compute; reflexivity). change (1024 =? 0) with false. change (1024 <? NUM) with false. cbn iota. cbn [vi_al vi_disk].
  wp_step. apply vi_kalloc_returns; [lia|]. wp_step. apply vi_kalloc_returns; [lia|]. wp_step. apply vi_kalloc_returns; [lia|]. rewrite !(proj2 (Z.eqb_neq _ 0)) by lia. cbn [orb].
  unfold on_disk, wr_addr, wr_reg. repeat (wp_step; cbn [vi_log vi_al vi_disk]).
  eapply wp_mono; [by apply free_all_returns|]. intros [] s Hs. etransitivity; [exact Hs|]. unfold bump in *. lia.
Qed.

(** ** Two harts *)

Definition hart_of (h : Z) : hart := mkHart (fun r => if decide (r = tp) then h else 0) Supervisor 0 (fun _ => 0) [] [].
Definition kern_bss : kst bump :=
  mkK (mkVms (fun _ => 0) 0x80100000) (mkFsst (mkLst log0 (mkBst [] [] (fun _ => []) [] 0)) [] (mkSb 0 0 0 0 0 0 0 0) []) ∅ ∅ (replicate (Z.to_nat NPROC) proc0) 1 0 0 0.
Definition two_harts : world :=
  mkWorld kern_bss (consoleinit []) (mkPrs [] (Seq.mkLockst 0 initlock (mkCpu 0 false false)) false) [] bss_disk 0 (fun _ => 0) [hart_of 0; hart_of 1] false.

(** Text of eight pages, the last of which is the trampoline. *)
Notation boot_step := (step (A := bump) (ret tt) 0x80008000 0x80007000 0x80002000 0x80009000 0x80003000 qemu []).
Notation boot_run := (run (A := bump) (ret tt) 0x80008000 0x80007000 0x80002000 0x80009000 0x80003000 qemu []).

Fixpoint run_all (h : nat) (l : list init) : M world unit :=
  match l with [] => ret tt | i :: l' => boot_run h i ;;; run_all h l' end.

Lemma all_steps h l : forall w w' t, run_all h l w = Ret (tt, w') -> t !! h = Some (Doing l) -> rtc boot_step (w, t) (w', <[h := Doing []]> t).
Proof.
  induction l as [|i l IH]; intros w w' t E Ht; cbn [run_all] in E.
  - injection E as <-. rewrite list_insert_id by done. apply rtc_refl.
  - unfold bind in E. destruct (boot_run h i w) as [[[] w1]| | |] eqn:E1; try done. eapply rtc_l; [by eapply step_call|].
    rewrite <- (list_insert_insert_eq t h (Doing []) (Doing l)). apply IH; [exact E|]. apply list_lookup_insert_eq. by eapply lookup_lt_Some.
Qed.

(** What the printing of hart 0 leaves. *)
Definition after_print (m : M prs unit) (p : prs) : prs := match m p with Ret (_, p') => p' | _ => p end.
Definition banner1 : prs := Eval vm_compute in after_print printfinit (prn two_harts).
Definition banner2 : prs := Eval vm_compute in after_print (Printf.printf (Some [10]) []) banner1.
Definition banner3 : prs := Eval vm_compute in after_print (Printf.printf (Some (chars "xv6 kernel is booting" ++ [10])) []) banner2.
Definition banner : prs := Eval vm_compute in after_print (Printf.printf (Some [10]) []) banner3.

Lemma banner_printed : printfinit (prn two_harts) = Ret (tt, banner1) /\ Printf.printf (Some [10]) [] banner1 = Ret (tt, banner2)
  /\ Printf.printf (Some (chars "xv6 kernel is booting" ++ [10])) [] banner2 = Ret (tt, banner3) /\ Printf.printf (Some [10]) [] banner3 = Ret (tt, banner).
Proof. vm_compute. auto. Qed.

(** The calls before [kvminit]. *)
Lemma first_calls : wp (run_all 0 (take 6 primary)) two_harts (fun _ w => w = set_prn banner (set_con (consoleinit []) two_harts)).
Proof.
  destruct banner_printed as (E1 & E2 & E3 & E4). cbn [take primary run_all run]. wp_step. wp_step. wp_step. wp_step. exists tt, banner1. split; [exact E1|].
  unfold print. wp_step. wp_step. exists tt, banner2. split; [exact E2|]. wp_step. wp_step. exists tt, banner3. split; [exact E3|]. wp_step. wp_step. exists tt, banner. split; [exact E4|].
  wp_step. unfold on_kern. wp_step. unfold onvm. wp_step. wp_step. wp_step. wp_step. reflexivity.
Qed.

Lemma kvminit_returns w : kern w = kern_bss -> wp (boot_run 0 Kvminit) w (fun _ w' => exists v r, w' = set_kpt r (set_kern (set_kvm v kern_bss) w) /\ bytes_mem (pm v) /\ pa_held (al v) (fun _ => False) /\ al v <= 2 ^ 32).
Proof.
  intros Ek. cbn [run]. unfold kvminit. wp_step. unfold on_kern. wp_step. rewrite Ek. unfold onvm. wp_step. cbn [kern_bss kvm].
  destruct (kvmmake_op 0x80008000 0x80007000 0x80100000 (mkVms (fun _ => 0) 0x80100000 : vms bump) (fun _ => False) 0x80101000) as [Hw|[Hr _]].
  - intros x. cbn. lia.
  - split; [reflexivity|]. split; [vm_compute; discriminate | done].
  - reflexivity.
  - discriminate.
  - reflexivity.
  - unfold KERNBASE, PHYSTOP. lia.
  - split; [reflexivity | lia].
  - eapply wp_mono; [exact Hw|]. intros r v (own & H & stk & [K _ _ _ _ T _]). wp_step. exists v, r. split; [done|]. split; [apply K|].
    split; [eapply pa_weaken; [|apply (pt_held _ _ _ K)]; done|]. destruct (bump_took _ _ _ _ T) as [_ Ht]; unfold KERNEL_PAGES in *; cbn in *; lia.
  - exfalso. revert Hr. apply bump_enough. cbn. lia.
Qed.

(** The calls between [kvminit] and [virtio_disk_init]: the process table, the
    devices, the caches. *)
Record kernel_set_up (v : vms bump) (w : world) : Prop := {
  su_user : blank (kern w) /\ kvm (kern w) = v /\ itable (kfs (kern w)) = replicate (Z.to_nat NINODE) inode0;
  su_prn : prn w = banner;
  su_disk : vlog w = [] /\ vdk w = bss_disk;
  su_hart : harts w !! 1%nat = Some (hart_of 1)
}.

Lemma middle_calls v r : wp (run_all 0 (take 9 (drop 7 primary))) (set_kpt r (set_kern (set_kvm v kern_bss) (set_prn banner (set_con (consoleinit []) two_harts)))) (fun _ w => kernel_set_up v w).
Proof.
  cbn [take drop primary run_all run]. unfold kvminithart, on_cpu, on_kern, onfs, onl, onb, w_satp, w_stvec, wr_csr, procinit, plicinit, plicinithart, Riscv.cpuid, r_tp, rd_csr, wr_io, binit, iinit.
  repeat wp_step. constructor; try reflexivity; [|by split]. split_and!; [|reflexivity | reflexivity]. constructor; try reflexivity.
  apply Forall_fmap, Forall_forall. intros i Hi. unfold compose. cbn [ofile]. assert (forall n, nth n (replicate (Z.to_nat NPROC) proc0) proc0 = proc0) as -> 
    by (intros n; rewrite nth_lookup; destruct (_ !! n) eqn:E; [by apply lookup_replicate in E as [-> _] | done]).
  done.
Qed.

Lemma last_calls v w : kernel_set_up v w -> bytes_mem (pm v) -> pa_held (al v) (fun _ => False) -> al v <= 2 ^ 32 ->
  wp (run_all 0 (drop 16 primary)) w (fun _ w' => started w' = true /\ prn w' = banner /\ harts w' !! 1%nat = Some (hart_of 1)).
Proof.
  intros [(B & Ev & Ei) Hp [Hl Hd] Hh] Hb Ha Hn. cbn [drop primary run_all run]. assert (0 < al v) as Hal by (destruct Ha as (_ & ? & _); lia).
  wp_step. wp_step. unfold vini_of. rewrite Hl, Hd, Ev. eapply wp_mono; [apply disk_returns; [done | lia]|]. intros [] di Hdi.
  wp_step. unfold on_kern. wp_step. eapply wp_mono; [apply userinit_returns; [split; [reflexivity | lia]|]|].
  - destruct Ha as (H1 & H2 & _). constructor; cbn [put_vini kern set_kvm kvm set_al pm al kfs]; rewrite ?Ev, ?Hdi.
    + by apply blank_kvm.
    + exact Hb.
    + split; [|split; [|done]]; [dlia | lia].
    + lia.
    + exact Ei.
  - intros [] k _. wp_step. wp_step. wp_step. done.
Qed.

(** Hart 1. *)
Definition greeting : prs := Eval vm_compute in after_print (Printf.printf (Some (chars "hart %d starting" ++ [10])) [AInt 1]) banner.
Lemma greeting_printed : Printf.printf (Some (chars "hart %d starting" ++ [10])) [AInt 1] banner = Ret (tt, greeting).
Proof. by vm_compute. Qed.

Lemma secondary_calls w : prn w = banner -> harts w !! 1%nat = Some (hart_of 1) -> wp (run_all 1 secondary) w (fun _ _ => True).
Proof.
  intros Hp Hh. cbn [secondary run_all run]. wp_step. wp_step. unfold on_cpu at 1. wp_step. unfold Riscv.cpuid, r_tp, rd_csr. wp_step. wp_step. wp_step.
  rewrite (cpu_regs 1 w _ Hh). change (i32 (csr (hart_of 1) tp)) with 1. unfold print. wp_step. cbn [put_cpu prn]. rewrite Hp. exists tt, greeting. split; [exact greeting_printed|].
  unfold kvminithart, on_cpu, w_satp, w_stvec, wr_csr, plicinithart, Riscv.cpuid, r_tp, rd_csr, wr_io. repeat wp_step. done.
Qed.

Lemma run_all_app h l1 l2 w (Q : unit -> world -> Prop) : wp (run_all h l1) w (fun _ w' => wp (run_all h l2) w' Q) -> wp (run_all h (l1 ++ l2)) w Q.
Proof.
  revert w. induction l1 as [|i l1 IH]; intros w Hw; [by destruct Hw as ([] & w' & [= <-] & Hw)|]. cbn [run_all app] in *. apply wp_bind.
  destruct Hw as (r & w' & E & Hw). unfold bind in E. destruct (boot_run h i w) as [[[] w1]| | |] eqn:E1; try done. exists tt, w1. split; [exact E1|]. apply IH. by exists r, w'.
Qed.

Lemma primary_calls : wp (run_all 0 primary) two_harts (fun _ w => started w = true /\ prn w = banner /\ harts w !! 1%nat = Some (hart_of 1)).
Proof.
  change primary with (take 6 primary ++ ([Kvminit] ++ (take 9 (drop 7 primary) ++ drop 16 primary))). apply run_all_app. eapply wp_mono; [apply first_calls|]. intros [] w ->.
  apply run_all_app. cbn [run_all]. wp_step. eapply wp_mono; [by apply kvminit_returns|]. intros [] w (v & r & -> & Hb & Ha & Hn). wp_step.
  apply run_all_app. eapply wp_mono; [apply middle_calls|]. intros [] w Su. by eapply last_calls.
Qed.

(** The machine boots. *)
Lemma machine_boots : exists w, rtc boot_step (two_harts, at_start 1) (w, [Scheduling; Scheduling]).
Proof.
  destruct primary_calls as ([] & w1 & E1 & Hs & Hp & Hh). destruct (secondary_calls w1 Hp Hh) as ([] & w2 & E2 & _). exists w2.
  etransitivity; [apply (all_steps 0 primary two_harts w1 (at_start 1) E1 eq_refl)|]. cbn [list_insert insert at_start replicate].
  eapply rtc_l; [by apply (step_done _ _ _ _ _ _ _ _ 0%nat)|]. cbn. eapply rtc_l; [by apply (step_go _ _ _ _ _ _ _ _ 1%nat)|]. cbn.
  etransitivity; [apply (all_steps 1 secondary w1 w2 [Scheduling; Doing secondary] E2 eq_refl)|]. cbn.
  eapply rtc_l; [by apply (step_done _ _ _ _ _ _ _ _ 1%nat)|]. apply rtc_refl.
Qed.

Lemma boot_order_witness : exists w, rtc boot_step (two_harts, at_start 1) (w, [Scheduling; Scheduling]) /\ started w = true /\ proc_ok (kern w) /\ fd_ok (kern w)
  /\ (exists p, pat (kern w) (initproc (kern w)) p /\ state p = RUNNABLE)
  /\ exists c, harts w !! 1%nat = Some c /\ csr c satp = u64 (MAKE_SATP (kernel_pagetable w)) /\ csr c stvec = 0x80003000 /\ devs w (PLIC_SENABLE 1) = 0x402.
Proof.
  destruct machine_boots as [w Hr]. exists w. split; [exact Hr|].
  destruct (boot_order (A := bump) (ret tt) 0x80008000 0x80007000 0x80002000 0x80009000 0x80003000 qemu [] 1 two_harts w [Scheduling; Scheduling]) as [_ H].
  - reflexivity.
  - reflexivity.
  - intros [|[|h]] c Hc; cbn in Hc; [injection Hc as <-; reflexivity | injection Hc as <-; reflexivity | done].
  - constructor; try reflexivity. apply Forall_replicate. done.
  - reflexivity.
  - exact Hr.
  - destruct (H 1%nat eq_refl) as (H1 & _ & H2 & _ & H3 & H4 & _ & _ & c & H5 & H6 & H7 & H8 & _). split; [exact H1|]. split; [exact H2|]. split; [exact H3|]. split; [exact H4|].
    exists c. split; [exact H5|]. split; [exact H6|]. split; [exact H7 | exact H8].
Defined.
