(* ===== verification/Umalloc.v ===== *)
(** * The user memory allocator (user/umalloc.c)

    The circular free list of headers.  A header is the two words [ptr] and
    [size] at its address, [size] counting units of one header (16 bytes); the
    list starts at the static header [base], which has size 0, and [freep] is
    where searches begin.  The break is moved by [sbrk] as the kernel does it
    (kernel/sysproc.c, kernel/proc.c); whether there is memory for it is a
    parameter.  A header is accessed only below the break. *)

From S2P Require Import Prelude.

Definition UNIT : Z := 16.
Definition MINUS1 : Z := 2 ^ 64 - 1.

Record heap := mkHeap { ptr : mem; size : mem; freep : Z; brk : Z }.

Definition set_ptr (f : mem -> mem) (s : heap) : heap := mkHeap (f (ptr s)) (size s) (freep s) (brk s).
Definition set_size (f : mem -> mem) (s : heap) : heap := mkHeap (ptr s) (f (size s)) (freep s) (brk s).
Definition set_freep (p : Z) (s : heap) : heap := mkHeap (ptr s) (size s) p (brk s).
Definition set_brk (b : Z) (s : heap) : heap := mkHeap (ptr s) (size s) (freep s) b.

Section Umalloc.
  (** The address of the static header, and whether the kernel finds memory to
      grow a process of a given size by a given number of bytes. *)
  Context (base : Z) (can_grow : Z -> Z -> bool).

(** [p] can be read and written as a header. *)
Definition mapped (s : heap) (p : Z) : bool := (0 <? p) && (p + UNIT <=? brk s).

Definition rd_ptr (p : Z) : M heap Z := fun s => if mapped s p then Ret (ptr s p, s) else Fault "page fault".
Definition rd_size (p : Z) : M heap Z := fun s => if mapped s p then Ret (size s p, s) else Fault "page fault".
Definition wr_ptr (p v : Z) : M heap unit :=
  fun s => if mapped s p then Ret (tt, set_ptr (fun h => upd h p v) s) else Fault "page fault".
Definition wr_size (p v : Z) : M heap unit :=
  fun s => if mapped s p then Ret (tt, set_size (fun h => upd h p v) s) else Fault "page fault".

(** [sbrk(n)]: the old break, or -1. *)
Definition sbrk (n : Z) : M heap Z :=
  b <- gets brk ;;
  if 0 <? n then
    if can_grow b n then modify (set_brk (b + n)) ;;; ret b else ret MINUS1
  else if n <? 0 then
    let b' := u64 (b + n) in
    when (b' <? b) (modify (set_brk b')) ;;; ret b
  else ret b.

(** Enough steps to go twice around the list: every block has at least one
    unit. *)
Definition ring_fuel (s : heap) : nat := 2 * Z.to_nat (brk s / UNIT) + 2.

(** The search of [free] for the node before [bp]. *)
Definition free_step (bp p : Z) : M heap (Z + Z) :=
  q <- rd_ptr p ;;
  if (p <? bp) && (bp <? q) then ret (inr p)
  else if (q <=? p) && ((p <? bp) || (bp <? q)) then ret (inr p)
  else ret (inl q).

(** Link [bp] in after [p], merged with its neighbours. *)
Definition join_next (bp p : Z) : M heap unit :=
  n <- rd_size bp ;;
  q <- rd_ptr p ;;
  if bp + UNIT * n =? q then
    nq <- rd_size q ;;
    wr_size bp (u32 (n + nq)) ;;;
    q' <- rd_ptr q ;;
    wr_ptr bp q'
  else wr_ptr bp q.

Definition join_prev (bp p : Z) : M heap unit :=
  np <- rd_size p ;;
  if p + UNIT * np =? bp then
    n <- rd_size bp ;;
    wr_size p (u32 (np + n)) ;;;
    q <- rd_ptr bp ;;
    wr_ptr p q
  else wr_ptr p bp.

Definition free (ap : Z) : M heap unit :=
  let bp := ap - UNIT in
  fuel <- gets ring_fuel ;;
  f <- gets freep ;;
  p <- loop fuel (free_step bp) f ;;
  join_next bp p ;;;
  join_prev bp p ;;;
  modify (set_freep p).

Definition morecore (nu : Z) : M heap Z :=
  let nu := if nu <? 4096 then 4096 else nu in
  p <- sbrk (i32 (u64 (nu * UNIT))) ;;
  if p =? MINUS1 then ret 0
  else
    wr_size p nu ;;;
    free (p + UNIT) ;;;
    gets freep.

(** Take [nunits] from the block [p] that follows [prevp]. *)
Definition carve (nunits prevp p : Z) : M heap Z :=
  n <- rd_size p ;;
  r <- (if n =? nunits then
          q <- rd_ptr p ;;
          wr_ptr prevp q ;;;
          ret p
        else
          wr_size p (n - nunits) ;;;
          let p' := p + UNIT * (n - nunits) in
          wr_size p' nunits ;;;
          ret p') ;;
  modify (set_freep prevp) ;;;
  ret (r + UNIT).

(** One turn of the loop of [malloc]; the variables are [prevp] and [p]. *)
Definition malloc_step (nunits : Z) (v : Z * Z) : M heap ((Z * Z) + Z) :=
  let '(prevp, p) := v in
  n <- rd_size p ;;
  if nunits <=? n then
    r <- carve nunits prevp p ;;
    ret (inr r)
  else
    f <- gets freep ;;
    if p =? f then
      p' <- morecore nunits ;;
      if p' =? 0 then ret (inr 0)
      else
        q <- rd_ptr p' ;;
        ret (inl (p', q))
    else
      q <- rd_ptr p ;;
      ret (inl (p, q)).

Definition units (nbytes : Z) : Z := u32 ((nbytes + UNIT - 1) / UNIT + 1).

Definition malloc (nbytes : Z) : M heap Z :=
  let nunits := units nbytes in
  f <- gets freep ;;
  prevp <- (if f =? 0 then
              wr_ptr base base ;;;
              modify (set_freep base) ;;;
              wr_size base 0 ;;;
              ret base
            else ret f) ;;
  fuel <- gets ring_fuel ;;
  p <- rd_ptr prevp ;;
  loop (fuel + S fuel) (malloc_step nunits) (prevp, p).

End Umalloc.
