(* ===== verification/UmallocThms.v ===== *)
(** * The user memory allocator: the free list and what malloc and free promise

    [heap_ok s U F]: [U] are the blocks the program holds and [F] the free
    blocks, in the order of their addresses, that the list through [freep]
    links; every byte between the start of the heap and the break is in
    exactly one of them, and no two free blocks touch. *)

From S2P Require Import Prelude Umalloc.

(** A block: the address of its header and its size in units. *)
Notation blk := (Z * Z)%type.

(** How many blocks contain the address. *)
Definition inside (a : Z) (b : blk) : Z := if (fst b <=? a) && (a <? fst b + UNIT * snd b) then 1 else 0.
Fixpoint cov (a : Z) (L : list blk) : Z := match L with [] => 0 | b :: L' => inside a b + cov a L' end.

(** Free blocks from [lo] on, with a gap after each. *)
Fixpoint spaced (lo : Z) (F : list blk) : Prop :=
  match F with
  | [] => True
  | (b, n) :: F' => lo <= b /\ (UNIT | b) /\ 0 < n /\ spaced (b + UNIT * n + 1) F'
  end.
Definition endof (lo : Z) (F : list blk) : Z := foldl (fun _ b => fst b + UNIT * snd b + 1) lo F.

(** The nodes after [a] are the blocks [F], and the last one points to [e]. *)
Fixpoint pre (s : heap) (a : Z) (F : list blk) : Prop :=
  match F with
  | [] => True
  | (b, n) :: F' => ptr s a = b /\ size s b = n /\ pre s b F'
  end.
Definition lastn (a : Z) (F : list blk) : Z := foldl (fun _ b => fst b) a F.
Definition seg (s : heap) (a : Z) (F : list blk) (e : Z) : Prop := pre s a F /\ ptr s (lastn a F) = e.

Section Inv.
  Context (base heap0 : Z).

Definition nodes (F : list blk) : list Z := base :: F.*1.

Record heap_ok (s : heap) (U F : list blk) : Prop := mkHeapOk {
  ok_base : 0 < base /\ base + UNIT <= heap0;
  ok_heap0 : (UNIT | heap0) /\ heap0 <= brk s;
  ok_brk : (UNIT | brk s) /\ brk s <= 2 ^ 36;
  ok_ring : seg s base F base;
  ok_size0 : size s base = 0;
  ok_freep : freep s ∈ nodes F;
  ok_spaced : spaced heap0 F;
  ok_used : Forall (fun b => 0 < snd b /\ (UNIT | fst b) /\ size s (fst b) = snd b) U;
  ok_cov : forall a, cov a (U ++ F) = if (heap0 <=? a) && (a <? brk s) then 1 else 0
}.

(** Before the first call of [malloc]. *)
Definition heap_fresh (s : heap) : Prop :=
  freep s = 0 /\ 0 < base /\ base + UNIT <= heap0 /\ brk s = heap0 /\ (UNIT | heap0) /\ heap0 <= 2 ^ 36.

End Inv.

(** ** Blocks and addresses *)

Ltac units := unfold UNIT in *.

Lemma cov_app a L L' : cov a (L ++ L') = cov a L + cov a L'.
Proof. induction L as [|b L IH]; cbn [cov app]; lia. Qed.
Lemma inside_range a b : 0 <= inside a b <= 1.
Proof. unfold inside. case_if; lia. Qed.
Lemma cov_nonneg a L : 0 <= cov a L.
Proof. induction L as [|b L IH]; cbn [cov]; [lia|]. pose proof (inside_range a b). lia. Qed.
Lemma cov_in a L b : b ∈ L -> inside a b <= cov a L.
Proof.
  intros (L1 & L2 & ->)%list_elem_of_split. rewrite cov_app. cbn [cov]. pose proof (cov_nonneg a L1). pose proof (cov_nonneg a L2). lia.
Qed.
Lemma cov_perm a L L' : L ≡ₚ L' -> cov a L = cov a L'.
Proof. induction 1; cbn [cov]; lia. Qed.
Lemma inside_true a b n : b <= a < b + UNIT * n -> inside a (b, n) = 1.
Proof. intros H. unfold inside. cbn [fst snd]. zcmp. done. Qed.
Lemma inside_split a b n m : 0 <= n -> 0 <= m -> inside a (b, n + m) = inside a (b, n) + inside a (b + UNIT * n, m).
Proof. intros. unfold inside. cbn [fst snd]. units. repeat case_if; bool_prop; lia. Qed.

(** Two blocks of a list that covers no address twice do not overlap. *)
Lemma cov_disjoint L1 L2 b n c m : (forall a, cov a (L1 ++ L2) <= 1) -> (b, n) ∈ L1 -> (c, m) ∈ L2 -> 0 < n -> 0 < m ->
  b + UNIT * n <= c \/ c + UNIT * m <= b.
Proof.
  intros H H1 H2 Hn Hm. destruct (decide (b + UNIT * n <= c)); [by left|]. destruct (decide (c + UNIT * m <= b)); [by right|]. exfalso.
  specialize (H (Z.max b c)). rewrite cov_app in H. pose proof (cov_in (Z.max b c) _ _ H1) as A1. pose proof (cov_in (Z.max b c) _ _ H2) as A2.
  rewrite inside_true in A1 by (units; lia). rewrite inside_true in A2 by (units; lia). lia.
Qed.

Lemma spaced_app lo F1 F2 : spaced lo (F1 ++ F2) <-> spaced lo F1 /\ spaced (endof lo F1) F2.
Proof. revert lo. induction F1 as [|[b n] F1 IH]; intros lo; cbn [spaced app]; [tauto|]. rewrite IH. unfold endof. cbn [foldl fst snd]. tauto. Qed.
Lemma spaced_mono lo lo' F : lo' <= lo -> spaced lo F -> spaced lo' F.
Proof. destruct F as [|[b n] F]; [done|]. cbn [spaced]. intuition lia. Qed.
Lemma endof_le lo F : spaced lo F -> lo <= endof lo F.
Proof.
  revert lo. induction F as [|[b n] F IH]; intros lo; unfold endof; cbn [foldl spaced]; [lia|].
  intros (? & _ & ? & H). specialize (IH _ H). unfold endof in IH. cbn [fst snd]. units. lia.
Qed.
Lemma endof_snoc lo F b n : endof lo (F ++ [(b, n)]) = b + UNIT * n + 1.
Proof. unfold endof. by rewrite foldl_app. Qed.
Lemma snoc_cases (F : list blk) : F = [] \/ exists F' b n, F = F' ++ [(b, n)].
Proof. induction F as [|[b n] F _] using rev_ind; [by left | right; eauto]. Qed.
Lemma cons_cases (F : list blk) : F = [] \/ exists b n F', F = (b, n) :: F'.
Proof. destruct F as [|[b n] F]; [by left | right; eauto]. Qed.
Lemma lastn_snoc a F b n : lastn a (F ++ [(b, n)]) = b.
Proof. unfold lastn. by rewrite foldl_app. Qed.
Lemma lastn_app a F1 F2 : lastn a (F1 ++ F2) = lastn (lastn a F1) F2.
Proof. unfold lastn. by rewrite foldl_app. Qed.

(** The blocks of a spaced list, all above [lo]. *)
Lemma spaced_in lo F b n : spaced lo F -> (b, n) ∈ F -> lo <= b /\ 0 < n /\ (UNIT | b) /\ b + UNIT * n + 1 <= endof lo F.
Proof.
  intros H (F1 & F2 & ->)%list_elem_of_split. apply spaced_app in H as [H1 H2]. cbn [spaced] in H2. destruct H2 as (Hlo & Hd & Hn & H2).
  pose proof (endof_le _ _ H1). pose proof (endof_le _ _ H2) as H3. split_and!; [lia | done | done|].
  unfold endof in *. rewrite foldl_app. cbn [foldl fst snd]. lia.
Qed.
Lemma spaced_fst lo F b : spaced lo F -> b ∈ F.*1 -> lo <= b.
Proof. intros H ([b' n] & -> & Hb)%list_elem_of_fmap. by destruct (spaced_in _ _ _ _ H Hb). Qed.
Lemma spaced_nodup lo F : spaced lo F -> NoDup F.*1.
Proof.
  revert lo. induction F as [|[b n] F IH]; intros lo; cbn [spaced fmap list_fmap]; [constructor|]. intros (_ & _ & Hn & H).
  constructor; [|by eapply IH]. intros Hb. apply (spaced_fst _ _ _ H) in Hb. cbn [fst] in Hb. units. lia.
Qed.

(** ** The list in memory *)

Lemma pre_app s a F1 F2 : pre s a (F1 ++ F2) <-> pre s a F1 /\ pre s (lastn a F1) F2.
Proof. revert a. induction F1 as [|[b n] F1 IH]; intros a; cbn [pre app]; [tauto|]. rewrite IH. unfold lastn. cbn [foldl fst]. tauto. Qed.
Lemma seg_app s a F1 F2 e : seg s a (F1 ++ F2) e <-> pre s a F1 /\ seg s (lastn a F1) F2 e.
Proof. unfold seg. rewrite pre_app, lastn_app. tauto. Qed.
Lemma seg_cons s a b n F e : seg s a ((b, n) :: F) e <-> ptr s a = b /\ size s b = n /\ seg s b F e.
Proof. unfold seg. cbn [pre]. unfold lastn. cbn [foldl fst]. tauto. Qed.
Lemma seg_nil s a e : seg s a [] e <-> ptr s a = e.
Proof. unfold seg, lastn. cbn. tauto. Qed.

Lemma lastn_in a F : lastn a F ∈ a :: F.*1.
Proof. induction F as [|[b n] F _] using rev_ind; [set_solver|]. rewrite lastn_snoc, fmap_app. set_solver. Qed.

(** What the chain does not look at does not matter. *)
Lemma pre_frame s s' a F : NoDup (a :: F.*1) -> (forall x, x ∈ F.*1 -> size s' x = size s x) ->
  (forall x, x ∈ a :: F.*1 -> x <> lastn a F -> ptr s' x = ptr s x) -> pre s a F -> pre s' a F.
Proof.
  revert a. induction F as [|[b n] F IH]; intros a Hd Hs Hp; cbn [pre]; [done|]. apply NoDup_cons in Hd as [Ha Hd].
  intros (H1 & H2 & H3). split_and!.
  - rewrite Hp; [done | set_solver|]. intros E. apply Ha. rewrite E. apply (lastn_in b F).
  - rewrite Hs; [done | set_solver].
  - apply IH; [done | set_solver | | done]. intros x Hx Hne. apply Hp; [set_solver | exact Hne].
Qed.
Lemma seg_frame s s' a F e : (forall x, x ∈ F.*1 -> size s' x = size s x) -> (forall x, x ∈ a :: F.*1 -> ptr s' x = ptr s x) ->
  seg s a F e -> seg s' a F e.
Proof.
  revert a. induction F as [|[b n] F IH]; intros a Hs Hp; [rewrite !seg_nil, Hp; [done | set_solver]|].
  rewrite !seg_cons. intros (H1 & H2 & H3). rewrite Hp, Hs by set_solver. split_and!; [done..|]. apply IH; set_solver.
Qed.

(** The nodes after [a] come after [a'] when [a'] gets the pointer of [a]. *)
Lemma seg_head s s' a a' F e : seg s a F e -> ptr s' a' = ptr s a ->
  (forall x, x ∈ F.*1 -> ptr s' x = ptr s x /\ size s' x = size s x) -> seg s' a' F e.
Proof.
  intros Hs Ha Hf. destruct F as [|[b n] F]; [apply seg_nil in Hs; apply seg_nil; congruence|].
  apply seg_cons in Hs as (H1 & H2 & H3). apply seg_cons. destruct (Hf b) as [_ Hb]; [set_solver|]. split_and!; [congruence..|].
  eapply seg_frame; [| |exact H3]; intros x Hx; apply Hf; set_solver.
Qed.

(** ** Reading and writing headers *)

Lemma wp_rd_ptr s p Q : mapped s p = true -> Q (ptr s p) s -> wp (rd_ptr p) s Q.
Proof. intros H HQ. exists (ptr s p), s. unfold rd_ptr. by rewrite H. Qed.
Lemma wp_rd_size s p Q : mapped s p = true -> Q (size s p) s -> wp (rd_size p) s Q.
Proof. intros H HQ. exists (size s p), s. unfold rd_size. by rewrite H. Qed.
Lemma wp_wr_ptr s p v Q : mapped s p = true -> Q tt (set_ptr (fun h => upd h p v) s) -> wp (wr_ptr p v) s Q.
Proof. intros H HQ. eexists _, _. unfold wr_ptr. by rewrite H. Qed.
Lemma wp_wr_size s p v Q : mapped s p = true -> Q tt (set_size (fun h => upd h p v) s) -> wp (wr_size p v) s Q.
Proof. intros H HQ. eexists _, _. unfold wr_size. by rewrite H. Qed.

(** One access to a header whose address is known to be below the break. *)
Ltac hstep :=
  lazymatch goal with
  | |- wp (rd_ptr _) _ _ => apply wp_rd_ptr
  | |- wp (rd_size _) _ _ => apply wp_rd_size
  | |- wp (wr_ptr _ _) _ _ => apply wp_wr_ptr
  | |- wp (wr_size _ _) _ _ => apply wp_wr_size
  | _ => wp_step
  end; [try done|..]; cbn beta.

Section Facts.
  Context {base heap0 : Z} {s : heap} {U F : list blk} (H : heap_ok base heap0 s U F).

Lemma block_range b n : (b, n) ∈ U ++ F -> heap0 <= b /\ 0 < n /\ b + UNIT * n <= brk s.
Proof.
  intros Hb. assert (0 < n) as Hn.
  { apply elem_of_app in Hb as [Hb|Hb].
    - pose proof (ok_used _ _ _ _ _ H) as Hu. rewrite Forall_forall in Hu. by destruct (Hu _ Hb).
    - by destruct (spaced_in _ _ _ _ (ok_spaced _ _ _ _ _ H) Hb) as (_ & ? & _). }
  assert (forall a, b <= a < b + UNIT * n -> heap0 <= a < brk s) as Ha.
  { intros a Ha. pose proof (cov_in a _ _ Hb) as A. rewrite (ok_cov _ _ _ _ _ H), inside_true in A by done. case_if_in A; lia. }
  pose proof (Ha b). pose proof (Ha (b + UNIT * n - 1)). units. lia.
Qed.

Lemma cov_le1 a : cov a (U ++ F) <= 1.
Proof. rewrite (ok_cov _ _ _ _ _ H). case_if; lia. Qed.

Lemma node_range x : x ∈ nodes base F -> base <= x /\ 0 < x /\ x + UNIT <= brk s.
Proof.
  destruct (ok_base _ _ _ _ _ H), (ok_heap0 _ _ _ _ _ H). unfold nodes. intros [->|Hx]%elem_of_cons; [lia|].
  apply list_elem_of_fmap in Hx as ([b n] & -> & Hb). destruct (block_range b n) as (? & ? & ?); [set_solver|]. cbn [fst]. units. lia.
Qed.
Lemma node_mapped x : x ∈ nodes base F -> mapped s x = true.
Proof. intros Hx. apply node_range in Hx as (_ & ? & ?). unfold mapped. zcmp. done. Qed.
Lemma used_mapped b n : (b, n) ∈ U -> mapped s b = true.
Proof. intros Hb. destruct (block_range b n) as (? & ? & ?); [set_solver|]. destruct (ok_base _ _ _ _ _ H). unfold mapped. units. zcmp. done. Qed.
Lemma nodes_nodup : NoDup (nodes base F).
Proof.
  constructor; [|eapply spaced_nodup, ok_spaced, H]. intros Hb. apply (spaced_fst _ _ _ (ok_spaced _ _ _ _ _ H)) in Hb.
  destruct (ok_base _ _ _ _ _ H). units. lia.
Qed.
Lemma ring_length : (length F <= Z.to_nat (brk s / UNIT))%nat.
Proof.
  assert (forall lo F, spaced lo F -> lo + 17 * Z.of_nat (length F) <= endof lo F) as Hl.
  { intros lo F'. revert lo. induction F' as [|[b n] F' IH]; intros lo; unfold endof; cbn [foldl spaced length]; [lia|].
    intros (? & _ & ? & Hs). specialize (IH _ Hs). unfold endof in IH. cbn [fst snd]. units. lia. }
  specialize (Hl heap0 F (ok_spaced _ _ _ _ _ H)). destruct (ok_base _ _ _ _ _ H).
  assert (endof heap0 F <= brk s + 1) as He.
  { destruct (snoc_cases F) as [E|(F' & b & n & E)]; rewrite E; [pose proof (ok_heap0 _ _ _ _ _ H); unfold endof; cbn; lia|].
    rewrite endof_snoc. destruct (block_range b n) as (? & ? & ?); [rewrite E; set_solver | lia]. }
  units. apply Nat2Z.inj_le. rewrite Z2Nat.id by (apply Z.div_pos; lia). apply Z.div_le_lower_bound; lia.
Qed.

(** ** The search of free *)

(** [G2] starts where [bp] belongs: after all of [G1]. *)
Definition splits (bp : Z) (G1 G2 : list blk) : Prop := Forall (fun b => b < bp) G1.*1 /\ Forall (fun b => bp < b) G2.*1.

Lemma search_fwd bp F2 : forall p fuel, seg s p F2 base -> spaced (p + 1) F2 -> base <= p < bp -> bp ∉ F2.*1 -> p ∈ nodes base F ->
  F2 ⊆ F -> (length F2 < fuel)%nat ->
  exists G1 G2, F2 = G1 ++ G2 /\ splits bp G1 G2 /\ loop fuel (free_step bp) p s = Ret (lastn p G1, s).
Proof.
  induction F2 as [|[b n] F2 IH]; intros p fuel Hseg Hsp Hp Hbp Hin Hsub Hf; (destruct fuel as [|fuel]; [lia|]).
  - apply seg_nil in Hseg. exists [], []. split_and!; [done | by repeat constructor|]. cbn [loop]. unfold bind, free_step, bind, rd_ptr.
    rewrite (node_mapped p Hin), Hseg. zcmp. done.
  - apply seg_cons in Hseg as (Hpb & Hn & Hseg). cbn [spaced] in Hsp. destruct Hsp as (Hlt & _ & Hpos & Hsp).
    assert (b <> bp) by set_solver. cbn [length] in Hf.
    destruct (decide (bp < b)) as [Hb|Hb].
    + exists [], ((b, n) :: F2). split_and!; [done| |].
      * split; [constructor|]. rewrite Forall_forall. intros x Hx. apply elem_of_cons in Hx as [->|Hx]; [done|].
        apply (spaced_fst _ _ _ Hsp) in Hx. units. lia.
      * cbn [loop]. unfold bind, free_step, bind, rd_ptr. rewrite (node_mapped p Hin), Hpb. zcmp. done.
    + destruct (IH b fuel) as (G1 & G2 & -> & [Hs1 Hs2] & HL); [done | | lia | set_solver | | set_solver | lia |].
      { eapply spaced_mono; [|exact Hsp]. units. lia. }
      { assert ((b, n) ∈ F) as Hb' by set_solver. unfold nodes. apply elem_of_cons. right. apply list_elem_of_fmap. by exists (b, n). }
      exists ((b, n) :: G1), G2. split_and!; [done | split; [constructor; [cbn; lia | done] | done]|].
      change (lastn p ((b, n) :: G1)) with (lastn b G1). rewrite <- HL. cbn [loop]. unfold bind at 1, free_step at 1, bind at 1, rd_ptr. rewrite (node_mapped p Hin), Hpb. zcmp. done.
Qed.

(** From a node above [bp] the search goes on to [base]. *)
Lemma search_wrap bp F2 : forall p fuel, seg s p F2 base -> spaced (p + 1) F2 -> base <= bp < p -> p ∈ nodes base F -> F2 ⊆ F ->
  (length F2 + length F + 1 < fuel)%nat ->
  exists fuel', (length F < fuel')%nat /\ loop fuel (free_step bp) p s = loop fuel' (free_step bp) base s.
Proof.
  induction F2 as [|[b n] F2 IH]; intros p fuel Hseg Hsp Hp Hin Hsub Hf; (destruct fuel as [|fuel]; [lia|]).
  - apply seg_nil in Hseg. exists fuel. split; [cbn [length] in Hf; lia|]. cbn [loop]. unfold bind at 1, free_step at 1, bind at 1, rd_ptr.
    rewrite (node_mapped p Hin), Hseg. zcmp. done.
  - apply seg_cons in Hseg as (Hpb & Hn & Hseg). cbn [spaced] in Hsp. destruct Hsp as (Hlt & _ & Hpos & Hsp). cbn [length] in Hf.
    destruct (IH b fuel) as (fuel' & Hf' & HL); [done | | lia | | set_solver | lia |].
    { eapply spaced_mono; [|exact Hsp]. units. lia. }
    { assert ((b, n) ∈ F) as Hb' by set_solver. unfold nodes. apply elem_of_cons. right. apply list_elem_of_fmap. by exists (b, n). }
    exists fuel'. split; [done|]. rewrite <- HL. cbn [loop]. unfold bind at 1, free_step at 1, bind at 1, rd_ptr.
    rewrite (node_mapped p Hin), Hpb. zcmp. done.
Qed.

Lemma in_nodes b n : (b, n) ∈ F -> b ∈ nodes base F.
Proof. intros Hb. unfold nodes. apply elem_of_cons. right. apply list_elem_of_fmap. by exists (b, n). Qed.

(** The search always ends at the node before [bp]. *)
Lemma search_ends bp n : (bp, n) ∈ U -> exists G1 G2, F = G1 ++ G2 /\ splits bp G1 G2 /\
  loop (ring_fuel s) (free_step bp) (freep s) s = Ret (lastn base G1, s).
Proof.
  intros Hbp. pose proof ring_length as Hlen. destruct (block_range bp n) as (Hb0 & Hn & _); [set_solver|].
  destruct (ok_base _ _ _ _ _ H) as [Hpos Hbase]. pose proof (ok_spaced _ _ _ _ _ H) as Hsp. pose proof (ok_ring _ _ _ _ _ H) as Hring.
  assert (bp ∉ F.*1) as Hnot.
  { intros ([b m] & -> & Hm)%list_elem_of_fmap. pose proof (block_range b m) as Hr.
    destruct (cov_disjoint U F b n b m cov_le1 Hbp Hm) as [?|?]; [lia | | |]; destruct Hr as (? & ? & ?); try set_solver; units; lia. }
  assert (forall fuel, (length F < fuel)%nat -> exists G1 G2, F = G1 ++ G2 /\ splits bp G1 G2 /\
    loop fuel (free_step bp) base s = Ret (lastn base G1, s)) as Hfwd.
  { intros fuel Hf. apply search_fwd; [done | | units; lia | done | set_solver | done | done]. eapply spaced_mono; [|exact Hsp]. units. lia. }
  unfold ring_fuel. pose proof (ok_freep _ _ _ _ _ H) as Hf. unfold nodes in Hf. apply elem_of_cons in Hf as [->|Hf]; [apply Hfwd; lia|].
  apply list_elem_of_fmap in Hf as ([f m] & -> & Hf). cbn [fst]. pose proof (in_nodes f m Hf) as Hfn.
  destruct (list_elem_of_split _ _ Hf) as (F1 & F2 & E). pose proof Hring as Hr. pose proof Hsp as Hs. rewrite E in Hr, Hs.
  apply seg_app in Hr as [_ Hr]. apply seg_cons in Hr as (_ & _ & Hr). apply spaced_app in Hs as [Hs1 Hs]. cbn [spaced] in Hs. destruct Hs as (Hef & _ & Hm & Hs).
  assert (spaced (f + 1) F2) as Hs2 by (eapply spaced_mono; [|exact Hs]; units; lia).
  assert (f <> bp) as Hne. { intros ->. apply Hnot. apply list_elem_of_fmap. by exists (bp, m). }
  destruct (node_range f Hfn) as (Hfb & _). assert (length F = length F1 + S (length F2))%nat as EL by (rewrite E, length_app; done).
  destruct (decide (f < bp)) as [Hlt|Hge].
  - destruct (search_fwd bp F2 f (2 * Z.to_nat (brk s / UNIT) + 2)) as (G1 & G2 & E2 & [Hg1 Hg2] & HL);
      [done | done | lia | rewrite E, fmap_app in Hnot; set_solver | done | rewrite E; set_solver | lia |].
    exists (F1 ++ (f, m) :: G1), G2. rewrite lastn_app. split_and!; [by rewrite E, E2, <- app_assoc | | exact HL]. split; [|done].
    rewrite fmap_app. apply Forall_app. split; [|by constructor]. rewrite Forall_forall. intros x ([x' nx] & -> & Hx)%list_elem_of_fmap.
    destruct (spaced_in _ _ _ _ Hs1 Hx) as (_ & ? & _ & ?). cbn [fst]. units. lia.
  - destruct (search_wrap bp F2 f (2 * Z.to_nat (brk s / UNIT) + 2)) as (fuel' & Hf' & HL);
      [done | done | units; lia | done | rewrite E; set_solver | lia |].
    rewrite HL. by apply Hfwd.
Qed.

End Facts.

#[global] Instance heap_ok_proper base heap0 s : Proper ((≡ₚ) ==> (=) ==> iff) (heap_ok base heap0 s).
Proof.
  intros U U' HU F ? <-. split; intros H; constructor; try apply H.
  - rewrite <- HU. apply H.
  - intros a. rewrite <- (ok_cov _ _ _ _ _ H a). apply cov_perm. by rewrite HU.
  - rewrite HU. apply H.
  - intros a. rewrite <- (ok_cov _ _ _ _ _ H a). apply cov_perm. by rewrite HU.
Qed.

(** ** Linking a block in *)

(** Nothing but the header at [x] differs. *)
Definition only_at (x : Z) (s s' : heap) : Prop :=
  freep s' = freep s /\ brk s' = brk s /\ forall z, z <> x -> ptr s' z = ptr s z /\ size s' z = size s z.

Section Free.
  Context {base heap0 : Z} {s : heap} {U : list blk} {bp n : Z} {G1 G2 : list blk}.
  Context (H : heap_ok base heap0 s ((bp, n) :: U) (G1 ++ G2)) (Hsplit : splits bp G1 G2).

Lemma bp_range : heap0 <= bp /\ 0 < n /\ bp + UNIT * n <= brk s.
Proof. apply (block_range H). set_solver. Qed.

Lemma before_bp b m : (b, m) ∈ G1 -> b < bp /\ b + UNIT * m <= bp.
Proof.
  intros Hb. pose proof (proj1 (Forall_forall _ _) (proj1 Hsplit) b ltac:(apply list_elem_of_fmap; by exists (b, m))) as Hlt. cbn beta in Hlt.
  destruct (block_range H b m) as (_ & Hm & _); [set_solver|]. split; [done|].
  destruct (cov_disjoint ((bp, n) :: U) (G1 ++ G2) bp n b m (cov_le1 H)) as [?|?]; [set_solver | set_solver | apply bp_range | done | | done].
  pose proof bp_range. units. lia.
Qed.
Lemma after_bp b m : (b, m) ∈ G2 -> bp < b /\ bp + UNIT * n <= b.
Proof.
  intros Hb. pose proof (proj1 (Forall_forall _ _) (proj2 Hsplit) b ltac:(apply list_elem_of_fmap; by exists (b, m))) as Hlt. cbn beta in Hlt.
  destruct (block_range H b m) as (_ & Hm & _); [set_solver|]. split; [done|].
  destruct (cov_disjoint ((bp, n) :: U) (G1 ++ G2) bp n b m (cov_le1 H)) as [?|?]; [set_solver | set_solver | apply bp_range | done | done |].
  pose proof bp_range. units. lia.
Qed.

Lemma bp_not_node : bp ∉ nodes base (G1 ++ G2).
Proof.
  pose proof bp_range. destruct (ok_base _ _ _ _ _ H). intros [E|Hb]%elem_of_cons; [units; lia|].
  apply list_elem_of_fmap in Hb as ([b m] & E & [Hb|Hb]%elem_of_app); [apply before_bp in Hb | apply after_bp in Hb]; cbn [fst] in *; lia.
Qed.
Lemma bp_mapped : mapped s bp = true.
Proof. apply (used_mapped H _ n). set_solver. Qed.
Lemma bp_size : size s bp = n.
Proof. pose proof (ok_used _ _ _ _ _ H) as Hu. by apply Forall_cons in Hu as [(_ & _ & ?) _]. Qed.

Notation p := (lastn base G1).

Lemma p_node : p ∈ nodes base (G1 ++ G2).
Proof. pose proof (lastn_in base G1) as Hp. unfold nodes. rewrite fmap_app. set_solver. Qed.

(** The size and the successors of [bp] after it was merged with the block
    behind it. *)
Definition merged_next (n' : Z) (G2' : list blk) : Prop :=
  (n' = n /\ G2' = G2 /\ spaced (bp + UNIT * n + 1) G2)
  \/ exists q nq, G2 = (q, nq) :: G2' /\ q = bp + UNIT * n /\ n' = n + nq.

Lemma join_next_wp Q :
  (forall s' n' G2', merged_next n' G2' -> only_at bp s s' -> size s' bp = n' -> seg s' bp G2' base -> Q tt s') ->
  wp (join_next bp p) s Q.
Proof.
  intros HQ. pose proof bp_range as (Hb0 & Hn & Hbrk). pose proof bp_mapped as Hmb. pose proof (node_mapped H p p_node) as Hmp.
  pose proof (ok_ring _ _ _ _ _ H) as Hr. apply seg_app in Hr as [_ Hr]. pose proof (ok_spaced _ _ _ _ _ H) as Hsp. apply spaced_app in Hsp as [_ Hsp].
  pose proof bp_not_node as Hbn. destruct (ok_base _ _ _ _ _ H). assert (0 < UNIT * n) by (units; lia).
  assert (base < bp) by (units; lia). unfold join_next.
  wp_step. hstep. wp_step. hstep. rewrite bp_size. destruct (cons_cases G2) as [E|(q & nq & G2' & E)]; rewrite E in Hr, Hsp.
  - apply seg_nil in Hr. rewrite Hr. zcmp. hstep. apply (HQ _ n []).
    + left. rewrite E. split_and!; done.
    + split_and!; [done..|]. intros z Hz. cbn [set_ptr ptr size]. by rewrite upd_ne.
    + apply bp_size.
    + apply seg_nil. cbn [set_ptr ptr]. by rewrite upd_eq.
  - apply seg_cons in Hr as (Hpq & Hnq & Hr). rewrite Hpq. cbn [spaced] in Hsp. destruct Hsp as (_ & Hdq & Hnq0 & Hsp).
    destruct (after_bp q nq) as [Hq1 Hq2]; [rewrite E; set_solver|].
    assert ((q, nq) ∈ G1 ++ G2) as Hqin by (rewrite E; set_solver).
    assert (mapped s q = true) as Hmq by (apply (node_mapped H), (in_nodes q nq), Hqin).
    destruct (block_range H q nq) as (_ & _ & Hqb); [set_solver|].
    assert (forall x, x ∈ q :: G2'.*1 -> x <> bp) as Hx.
    { intros x Hx Ex. apply Hbn. unfold nodes. rewrite fmap_app, E, <- Ex. set_solver. }
    case_if.
    + wp_step. hstep. wp_step. hstep. wp_step. hstep. hstep. cbn [set_size set_ptr ptr size]. rewrite Hnq.
      pose proof (ok_brk _ _ _ _ _ H). apply (HQ _ (n + nq) G2').
      * right. exists q, nq. done.
      * split_and!; [done..|]. intros z Hz. cbn [set_ptr set_size ptr size]. by rewrite !upd_ne.
      * cbn [set_ptr set_size size]. rewrite upd_eq, u32_small; [done | units; lia].
      * eapply seg_head; [exact Hr | cbn [set_ptr set_size ptr]; by rewrite upd_eq|].
        intros x Hx'. cbn [set_ptr set_size ptr size]. rewrite !upd_ne by (apply Hx; set_solver). done.
    + hstep. apply (HQ _ n ((q, nq) :: G2')).
      * left. rewrite E. split_and!; [done..|]. cbn [spaced]. split_and!; [lia | done..].
      * split_and!; [done..|]. intros z Hz. cbn [set_ptr ptr size]. by rewrite upd_ne.
      * apply bp_size.
      * apply seg_cons. cbn [set_ptr ptr size]. rewrite upd_eq. split_and!; [done..|].
        eapply seg_frame; [| |exact Hr]; intros x Hx'; cbn [set_ptr ptr size]; [done|]. rewrite upd_ne; [done|]. by apply Hx.
Qed.

(** The merged block covers the same bytes. *)
Lemma merged_facts n' G2' : merged_next n' G2' ->
  (forall a, inside a (bp, n') + cov a G2' = inside a (bp, n) + cov a G2) /\ spaced (bp + UNIT * n' + 1) G2'
  /\ 0 < n' /\ bp + UNIT * n' <= brk s /\ G2' ⊆ G2 /\ (length G2' <= length G2)%nat.
Proof.
  pose proof bp_range as (? & ? & ?). pose proof (ok_spaced _ _ _ _ _ H) as Hsp. apply spaced_app in Hsp as [_ Hsp].
  intros [(-> & -> & Hs)|(q & nq & E & -> & ->)]; [split_and!; done|]. rewrite E in Hsp. cbn [spaced] in Hsp. destruct Hsp as (_ & _ & Hnq & Hsp).
  destruct (block_range H (bp + UNIT * n) nq) as (_ & _ & Hb); [rewrite E; set_solver|]. split_and!.
  - intros a. rewrite E. cbn [cov]. rewrite inside_split by lia. lia.
  - by replace (bp + UNIT * (n + nq) + 1) with (bp + UNIT * n + UNIT * nq + 1) by lia.
  - lia.
  - lia.
  - rewrite E. set_solver.
  - rewrite E. cbn [length]. lia.
Qed.

Lemma used_not_node x k : (x, k) ∈ U -> x <> bp /\ x ∉ nodes base (G1 ++ G2).
Proof.
  intros Hx. pose proof bp_range as (? & ? & ?). destruct (block_range H x k) as (? & ? & ?); [set_solver|]. split.
  - intros ->. destruct (cov_disjoint [(bp, n)] U bp n bp k) as [?|?]; try set_solver; [|units; lia..].
    intros a. pose proof (cov_le1 H a) as Hc. rewrite cov_app in Hc. cbn [cov app] in *. pose proof (cov_nonneg a (G1 ++ G2)). lia.
  - destruct (ok_base _ _ _ _ _ H). intros [->|Hb]%elem_of_cons; [units; lia|]. apply list_elem_of_fmap in Hb as ([b m] & -> & Hb).
    destruct (block_range H b m) as (_ & Hm & _); [set_solver|]. cbn [fst] in *.
    destruct (cov_disjoint ((bp, n) :: U) (G1 ++ G2) b k b m (cov_le1 H)) as [?|?]; try set_solver; units; lia.
Qed.

(** The state after linking in is in order again. *)
Lemma relinked s' G0 b m G2' : freep s' ∈ nodes base (G0 ++ (b, m) :: G2') -> brk s' = brk s ->
  pre s' base G0 -> ptr s' (lastn base G0) = b -> size s' b = m -> seg s' b G2' base -> size s' base = 0 ->
  spaced heap0 (G0 ++ (b, m) :: G2') -> (forall a, cov a (G0 ++ (b, m) :: G2') = inside a (bp, n) + cov a (G1 ++ G2)) ->
  (forall x k, (x, k) ∈ U -> size s' x = size s x) -> heap_ok base heap0 s' U (G0 ++ (b, m) :: G2').
Proof.
  intros Hfr Hbrk Hpre Hp Hm Hseg H0 Hsp Hcov Hu. constructor; try apply H; try done; rewrite ?Hbrk; try apply H.
  - apply seg_app. split; [done|]. apply seg_cons. done.
  - pose proof (ok_used _ _ _ _ _ H) as Hus. apply Forall_cons in Hus as [_ Hus]. rewrite Forall_forall in Hus |- *.
    intros [x k] Hx. destruct (Hus _ Hx) as (? & ? & ?). cbn [fst snd] in *. by rewrite (Hu x k).
  - intros a. rewrite cov_app, Hcov, <- (ok_cov _ _ _ _ _ H a). cbn [app cov]. rewrite !cov_app. lia.
Qed.

Section Prev.
  Context {s1 : heap} {n' : Z} {G2' : list blk}.
  Context (Hm : merged_next n' G2') (Ho : only_at bp s s1) (Hn' : size s1 bp = n') (Hseg : seg s1 bp G2' base).

Lemma node_same x : x ∈ nodes base (G1 ++ G2) -> ptr s1 x = ptr s x /\ size s1 x = size s x.
Proof. intros Hx. apply Ho. intros E. apply bp_not_node. by rewrite <- E. Qed.
Lemma mapped_same x : mapped s1 x = mapped s x.
Proof. destruct Ho as (_ & E & _). unfold mapped. by rewrite E. Qed.
Lemma used_same x k : (x, k) ∈ U -> size s1 x = size s x.
Proof. intros Hx. apply used_not_node in Hx as [Hx _]. by apply Ho. Qed.
Lemma tail_node x : x ∈ G2'.*1 -> x ∈ nodes base (G1 ++ G2) /\ x <> p /\ x <> bp.
Proof.
  intros Hx. destruct (merged_facts _ _ Hm) as (_ & _ & _ & _ & Hsub & _). assert (x ∈ G2.*1) as Hx2.
  { apply list_elem_of_fmap in Hx as (y & -> & Hy). apply list_elem_of_fmap. exists y. split; [done | by apply Hsub]. }
  split; [|split].
  - unfold nodes. rewrite fmap_app. set_solver.
  - intros ->. pose proof (nodes_nodup H) as Hd. unfold nodes in Hd. rewrite fmap_app, app_comm_cons in Hd.
    apply NoDup_app in Hd as (_ & Hd & _). apply (Hd p); [apply lastn_in | done].
  - intros ->. apply (proj1 (Forall_forall _ _) (proj2 Hsplit)) in Hx2. lia.
Qed.
Lemma first_nodup : NoDup (base :: G1.*1).
Proof. pose proof (nodes_nodup H) as Hd. unfold nodes in Hd. rewrite fmap_app, app_comm_cons in Hd. by apply NoDup_app in Hd as (? & _). Qed.

(** [p] stays a node of its own. *)
Lemma link_only : spaced heap0 (G1 ++ (bp, n') :: G2') ->
  heap_ok base heap0 (set_freep p (set_ptr (fun h => upd h p bp) s1)) U (G1 ++ (bp, n') :: G2').
Proof.
  intros Hsp. pose proof bp_not_node as Hbn. pose proof p_node as Hp. assert (p <> bp) as Hne by (intros E; apply Hbn; by rewrite <- E).
  pose proof (ok_ring _ _ _ _ _ H) as Hr. apply seg_app in Hr as [Hr _].
  apply relinked; cbn [set_freep set_ptr ptr size freep brk].
  - pose proof (lastn_in base G1). unfold nodes. rewrite fmap_app. set_solver.
  - apply Ho.
  - eapply (pre_frame s); [apply first_nodup | | |exact Hr]; cbn [set_freep set_ptr ptr size]; intros x Hx.
    + apply node_same. unfold nodes. rewrite fmap_app. set_solver.
    + intros Hx2. rewrite upd_ne by done. apply node_same. unfold nodes. rewrite fmap_app. set_solver.
  - by rewrite upd_eq.
  - done.
  - eapply seg_head; [exact Hseg | cbn; by rewrite upd_ne|]. intros x Hx. apply tail_node in Hx as (_ & Hx & _). cbn. by rewrite upd_ne.
  - rewrite (proj2 (node_same base ltac:(set_solver))). apply H.
  - done.
  - intros a. rewrite !cov_app. cbn [cov]. destruct (merged_facts _ _ Hm) as (Hc & _). specialize (Hc a). lia.
  - intros x k Hx. cbn. by apply (used_same x k).
Qed.

(** [p] is the last block before [bp], and they touch. *)
Lemma link_merged G0 np : G1 = G0 ++ [(p, np)] -> p + UNIT * np = bp ->
  heap_ok base heap0 (set_freep p (set_ptr (fun h => upd h p (ptr s1 bp)) (set_size (fun h => upd h p (np + n')) s1))) U (G0 ++ (p, np + n') :: G2').
Proof.
  intros E Ebp. pose proof bp_not_node as Hbn. pose proof p_node as Hp. assert (p <> bp) as Hne by (intros E'; apply Hbn; by rewrite <- E').
  pose proof (ok_ring _ _ _ _ _ H) as Hr. apply seg_app in Hr as [Hr _]. pose proof (ok_spaced _ _ _ _ _ H) as Hsp. apply spaced_app in Hsp as [Hsp _].
  destruct (merged_facts _ _ Hm) as (Hc & Hsp2 & Hn0 & _). pose proof first_nodup as Hd. pose proof node_same as Hsame. pose proof tail_node as Htl.
  assert (base ∈ nodes base (G1 ++ G2)) as Hbase by set_solver. set (q := p) in *. clearbody q.
  rewrite E in Hr, Hsp, Hd. apply pre_app in Hr as [Hr Hl]. cbn [pre] in Hl. destruct Hl as (Hl & Hnp & _).
  apply spaced_app in Hsp as [Hsp Hsq]. cbn [spaced] in Hsq. destruct Hsq as (Hq & Hdq & Hnp0 & _).
  rewrite fmap_app, app_comm_cons in Hd. apply NoDup_app in Hd as (Hd & Hdis & _).
  assert (forall x, x ∈ base :: G0.*1 -> x <> q) as Hxq by (intros x Hx ->; apply (Hdis q Hx); set_solver).
  assert (forall x, x ∈ base :: G0.*1 -> ptr s1 x = ptr s x /\ size s1 x = size s x) as Hsame0.
  { intros x Hx. apply Hsame. unfold nodes. rewrite E, !fmap_app. clear - Hx. set_solver. }
  apply relinked; cbn [set_freep set_ptr set_size ptr size freep brk].
  - unfold nodes. rewrite fmap_app. set_solver.
  - apply Ho.
  - eapply (pre_frame s); [exact Hd | | |exact Hr]; cbn [set_freep set_ptr set_size ptr size]; intros x Hx.
    + rewrite upd_ne by (apply Hxq; set_solver). apply Hsame0. set_solver.
    + intros _. rewrite upd_ne by (by apply Hxq). by apply Hsame0.
  - pose proof (lastn_in base G0) as Hx. rewrite upd_ne by (by apply Hxq). by rewrite (proj1 (Hsame0 _ Hx)).
  - by rewrite upd_eq.
  - eapply seg_head; [exact Hseg | cbn; by rewrite upd_eq|]. intros x Hx. cbn.
    destruct (Htl x Hx) as (_ & Hx' & _). by rewrite !upd_ne.
  - rewrite upd_ne by (apply Hxq; set_solver). rewrite (proj2 (Hsame0 base ltac:(set_solver))). apply H.
  - apply spaced_app. split; [done|]. cbn [spaced]. split_and!; [done | done | lia|].
    replace (q + UNIT * (np + n') + 1) with (bp + UNIT * n' + 1) by lia. done.
  - intros a. specialize (Hc a). rewrite E, !cov_app. cbn [cov]. rewrite inside_split by lia. rewrite Ebp. lia.
  - intros x k Hx. cbn. destruct (used_not_node x k Hx) as [_ Hxn]. rewrite upd_ne by (intros ->; by apply Hxn). by apply (used_same x k).
Qed.

Lemma join_prev_wp : wp (join_prev bp p) s1 (fun _ s' => exists F', heap_ok base heap0 (set_freep p s') U F' /\ brk s' = brk s /\ (length F' <= S (length (G1 ++ G2)))%nat).
Proof.
  pose proof bp_range as (Hb0 & Hn & _). pose proof p_node as Hp. destruct (merged_facts _ _ Hm) as (_ & Hsp2 & Hn0 & Hbrk & _ & HlG).
  assert (mapped s1 p = true) as Hmp by (rewrite mapped_same; apply (node_mapped H), Hp).
  assert (mapped s1 bp = true) as Hmb by (rewrite mapped_same; apply bp_mapped).
  pose proof (ok_spaced _ _ _ _ _ H) as Hsp. apply spaced_app in Hsp as [Hsp _]. destruct (ok_base _ _ _ _ _ H) as [Hpos Hbase].
  pose proof (ok_used _ _ _ _ _ H) as Hu. apply Forall_cons in Hu as [(_ & Hdv & _) _]. cbn [fst] in Hdv.
  pose proof (ok_ring _ _ _ _ _ H) as Hr. apply seg_app in Hr as [Hr _].
  assert (brk s1 = brk s) as Hbs by apply Ho. pose proof (ok_brk _ _ _ _ _ H) as [_ Hb36]. unfold join_prev. wp_step. hstep.
  rewrite (proj2 (node_same p Hp)). case_if.
  - destruct (snoc_cases G1) as [E1|(G0 & q & np & E1)].
    { exfalso. rewrite E1 in E. unfold lastn in E. cbn [foldl] in E. rewrite (ok_size0 _ _ _ _ _ H) in E. units. lia. }
    assert (p = q) as Ep by (rewrite E1; apply lastn_snoc).
    rewrite E1 in Hr. apply pre_app in Hr as [_ Hl]. cbn [pre] in Hl. destruct Hl as (_ & Hnp & _). rewrite Ep, Hnp in E.
    wp_step. hstep. wp_step. hstep. wp_step. hstep. hstep. rewrite Ep, Hnp, Hn'.
    exists (G0 ++ (q, np + n') :: G2'). split; [|split; [done | rewrite E1, !length_app; cbn [length]; lia]]. rewrite u32_small by (destruct (block_range H q np) as (? & ? & ?); [rewrite E1; set_solver | units; lia]).
    pose proof (link_merged G0 np) as Hlink. rewrite Ep in Hlink. cbn [set_size ptr]. apply Hlink; done.
  - hstep. exists (G1 ++ (bp, n') :: G2'). split; [|split; [done | rewrite !length_app; cbn [length]; lia]]. apply link_only. apply spaced_app. split; [done|]. cbn [spaced]. split_and!; try done.
    destruct (snoc_cases G1) as [E1|(G0 & q & np & E1)]; rewrite E1; [done|]. rewrite endof_snoc.
    destruct (before_bp q np) as [_ Hq]; [rewrite E1; set_solver|].
    assert (p = q) as Ep by (rewrite E1; apply lastn_snoc). rewrite E1 in Hr. apply pre_app in Hr as [_ Hl]. cbn [pre] in Hl. destruct Hl as (_ & Hnp & _).
    rewrite Ep, Hnp in E. lia.
Qed.

End Prev.
End Free.

(** [free] of a held block gives it back, merged with its free neighbours. *)
Lemma free_wp base heap0 s U F bp n : heap_ok base heap0 s ((bp, n) :: U) F ->
  wp (free (bp + UNIT)) s (fun _ s' => exists F', heap_ok base heap0 s' U F' /\ brk s' = brk s /\ (length F' <= S (length F))%nat).
Proof.
  intros H. destruct (search_ends H bp n) as (G1 & G2 & -> & Hsp & Hs); [set_solver|]. unfold free.
  replace (bp + UNIT - UNIT) with bp by lia. wp_step. wp_step. wp_step. wp_step. wp_step. eexists _, _. split; [exact Hs|].
  wp_step. apply (join_next_wp H Hsp). intros s1 n' G2' Hm Ho Hn' Hseg.
  wp_step. eapply wp_mono; [apply (join_prev_wp H Hsp Hm Ho Hn' Hseg)|]. intros [] s2 (F' & HF & Hb). wp_step. by exists F'.
Qed.

(** ** Taking a block *)

(** Two free blocks never touch. *)
Lemma spaced_gap lo F b n c m : spaced lo F -> (b, n) ∈ F -> (c, m) ∈ F ->
  (b = c /\ n = m) \/ b + UNIT * n + 1 <= c \/ c + UNIT * m + 1 <= b.
Proof.
  revert lo. induction F as [|[x k] F IH]; intros lo Hs Hb Hc; [set_solver|]. cbn [spaced] in Hs. destruct Hs as (_ & _ & Hk & Hs).
  apply elem_of_cons in Hb as [[= -> ->]|Hb]; apply elem_of_cons in Hc as [[= -> ->]|Hc].
  - by left.
  - apply (spaced_in _ _ _ _ Hs) in Hc. lia.
  - apply (spaced_in _ _ _ _ Hs) in Hb. lia.
  - by eapply IH.
Qed.

Lemma cov_witness a F : 0 < cov a F -> exists b n, (b, n) ∈ F /\ b <= a < b + UNIT * n.
Proof.
  induction F as [|[b n] F IH]; cbn [cov]; [lia|]. intros Hc. destruct (decide (b <= a < b + UNIT * n)) as [Hi|Hi].
  - exists b, n. split; [set_solver | done].
  - assert (inside a (b, n) = 0) as E by (unfold inside; cbn [fst snd]; case_if; [lia | done]).
    destruct IH as (c & m & Hin & Hr); [lia|]. exists c, m. split; [set_solver | done].
Qed.

(** A range that the free blocks cover lies in one of them. *)
Lemma cov_one_block lo F x y : spaced lo F -> x < y -> (forall a, x <= a < y -> 0 < cov a F) ->
  exists b n, (b, n) ∈ F /\ b <= x /\ y <= b + UNIT * n.
Proof.
  intros Hs Hxy Hc. destruct (cov_witness x F) as (b & n & Hb & Hr); [apply Hc; lia|]. exists b, n. split_and!; [done | lia|].
  destruct (decide (y <= b + UNIT * n)) as [|Hlt]; [done|]. exfalso.
  destruct (cov_witness (b + UNIT * n) F) as (c & m & Hc' & Hr'); [apply Hc; lia|].
  destruct (spaced_gap _ _ _ _ _ _ Hs Hb Hc') as [[-> ->]|[?|?]]; lia.
Qed.

(** The nodes before and after a node. *)
Lemma seg_at s a F e x : seg s a F e -> x ∈ a :: F.*1 -> exists F1 F2, F = F1 ++ F2 /\ x = lastn a F1 /\ seg s x F2 e.
Proof.
  intros Hs [->|Hx]%elem_of_cons; [by exists [], F|]. apply list_elem_of_fmap in Hx as ([b n] & -> & Hb).
  apply list_elem_of_split in Hb as (F1 & F2 & ->). exists (F1 ++ [(b, n)]), F2. rewrite lastn_snoc, <- app_assoc. split_and!; [done..|].
  apply seg_app in Hs as [_ Hs]. by apply seg_cons in Hs as (_ & _ & Hs).
Qed.

Section Carve.
  Context {base heap0 : Z} {s : heap} {U F1 F2 : list blk} {b m nunits : Z}.
  Context (H : heap_ok base heap0 s U (F1 ++ (b, m) :: F2)) (Hn : 0 < nunits <= m).

Notation a := (lastn base F1).

Lemma carve_facts : pre s base F1 /\ ptr s a = b /\ size s b = m /\ seg s b F2 base.
Proof. pose proof (ok_ring _ _ _ _ _ H) as Hr. apply seg_app in Hr as [Hr Hs]. by apply seg_cons in Hs as (? & ? & ?). Qed.
Lemma carve_nodup : NoDup (base :: F1.*1) /\ b ∉ base :: F1.*1 /\ b ∉ F2.*1 /\ (forall x, x ∈ F2.*1 -> x ∉ base :: F1.*1).
Proof using H.
  clear Hn. pose proof (nodes_nodup H) as Hd. unfold nodes in Hd. rewrite fmap_app, app_comm_cons in Hd. apply NoDup_app in Hd as (Hd1 & Hd2 & Hd3).
  cbn [fmap list_fmap fst] in *. apply NoDup_cons in Hd3 as [Hd3 _]. split_and!; [done | | done |].
  - intros Hb. apply (Hd2 b Hb). set_solver.
  - intros x Hx Hx'. apply (Hd2 x Hx'). set_solver.
Qed.
Lemma carve_spaced : spaced heap0 F1 /\ endof heap0 F1 <= b /\ (UNIT | b) /\ spaced (b + UNIT * m + 1) F2.
Proof. clear Hn. pose proof (ok_spaced _ _ _ _ _ H) as Hs. apply spaced_app in Hs as [? Hs]. cbn [spaced] in Hs. tauto. Qed.

(** A block of exactly the size asked for leaves the list. *)
Lemma carve_whole : nunits = m ->
  heap_ok base heap0 (set_freep a (set_ptr (fun h => upd h a (ptr s b)) s)) ((b, m) :: U) (F1 ++ F2).
Proof.
  intros ->. destruct carve_facts as (Hpre & Ha & Hb & Hseg). destruct carve_nodup as (Hd1 & Hd2 & Hd3 & Hd4).
  destruct carve_spaced as (Hs1 & He & Hdb & Hs2). constructor; try apply H; cbn [set_freep set_ptr ptr size freep brk].
  - apply seg_app. split.
    + eapply (pre_frame s); [done | done | | exact Hpre]. intros x Hx Hne. cbn. by rewrite upd_ne.
    + eapply seg_head; [exact Hseg | cbn; by rewrite upd_eq|]. intros x Hx. cbn. rewrite upd_ne; [done|].
      intros ->. apply (Hd4 a Hx), lastn_in.
  - pose proof (lastn_in base F1). unfold nodes. rewrite fmap_app. set_solver.
  - apply spaced_app. split; [done|]. eapply spaced_mono; [|exact Hs2]. units. lia.
  - constructor; [|apply H]. cbn [fst snd]. split_and!; [lia | done..].
  - intros x. rewrite <- (ok_cov _ _ _ _ _ H x). cbn [app cov]. rewrite !cov_app. cbn [cov]. lia.
Qed.

(** Of a larger block the end is taken. *)
Lemma carve_end : nunits < m ->
  let c := b + UNIT * (m - nunits) in
  heap_ok base heap0 (set_freep a (set_size (fun h => upd h c nunits) (set_size (fun h => upd h b (m - nunits)) s))) ((c, nunits) :: U)
    (F1 ++ (b, m - nunits) :: F2).
Proof.
  intros Hlt c. destruct carve_facts as (Hpre & Ha & Hb & Hseg). destruct carve_nodup as (Hd1 & Hd2 & Hd3 & Hd4).
  destruct carve_spaced as (Hs1 & He & Hdb & Hs2).
  assert ((b, m) ∈ F1 ++ (b, m) :: F2) as Hbin by set_solver.
  assert (forall x k, (x, k) ∈ U ++ (F1 ++ (b, m) :: F2) -> 0 < k) as Hk0 by (intros x k Hx; apply (block_range H x k Hx)).
  destruct (block_range H b m) as (Hb0 & Hm0 & Hbr); [apply elem_of_app; by right|].
  destruct (ok_base _ _ _ _ _ H) as [Hpos Hbase]. assert (b < c < b + UNIT * m) as Hc by (unfold c; units; lia).
  assert (forall x k, (x, k) ∈ U -> x <> b /\ x <> c) as HU.
  { intros x k Hx. assert (0 < k) by (apply (Hk0 x); apply elem_of_app; by left).
    destruct (cov_disjoint U (F1 ++ (b, m) :: F2) x k b m (cov_le1 H) Hx Hbin) as [?|?]; units; lia. }
  assert (forall x k, (x, k) ∈ F1 ++ (b, m) :: F2 -> x <> c) as HF.
  { intros x k Hx. assert (0 < k) by (apply (Hk0 x); apply elem_of_app; by right).
    destruct (spaced_gap _ _ x k b m (ok_spaced _ _ _ _ _ H) Hx Hbin) as [[? ?]|[?|?]]; units; lia. }
  assert (forall x, x ∈ F1.*1 \/ x ∈ F2.*1 -> x <> b /\ x <> c) as Hother.
  { intros x Hx. split; [intros ->; destruct Hx; [apply Hd2; by apply elem_of_cons; right | by apply Hd3]|].
    destruct Hx as [([x' k] & -> & Hk)%list_elem_of_fmap|([x' k] & -> & Hk)%list_elem_of_fmap]; apply (HF _ k), elem_of_app; [by left|].
    right. apply elem_of_cons. by right. }
  clear Hd4 Hk0.
  constructor; try apply H; cbn [set_freep set_size ptr size freep brk].
  - apply seg_app. split; [|apply seg_cons; split_and!].
    + eapply (pre_frame s); [done | | done | exact Hpre]. intros x Hx. cbn. destruct (Hother x); [by left|]. by rewrite !upd_ne.
    + done.
    + cbn. rewrite upd_ne, upd_eq; [done | lia].
    + eapply seg_head; [exact Hseg | done|]. intros x Hx. cbn. destruct (Hother x); [by right|]. by rewrite !upd_ne.
  - rewrite !upd_ne; [apply H | |]; units; lia.
  - clear -F1. pose proof (lastn_in base F1). unfold nodes. rewrite fmap_app. set_solver.
  - apply spaced_app. split; [done|]. cbn [spaced]. split_and!; [done | done | lia|]. eapply spaced_mono; [|exact Hs2]. units. lia.
  - constructor; cbn [fst snd].
    + rewrite upd_eq. split_and!; [lia | | done]. unfold c. apply Z.divide_add_r; [done | apply Z.divide_factor_l].
    + pose proof (ok_used _ _ _ _ _ H) as Hu. rewrite Forall_forall in Hu |- *. intros [x k] Hx. destruct (Hu _ Hx) as (? & ? & ?).
      cbn [fst snd] in *. destruct (HU x k Hx). by rewrite !upd_ne.
  - intros x. rewrite <- (ok_cov _ _ _ _ _ H x). cbn [app cov]. rewrite !cov_app. cbn [cov].
    replace m with ((m - nunits) + nunits) at 2 by lia. rewrite inside_split by lia. fold c. lia.
Qed.

End Carve.

Lemma carve_wp base heap0 s U F a b nunits Q : heap_ok base heap0 s U F -> a ∈ nodes base F -> ptr s a = b -> 0 < nunits <= size s b ->
  (forall r s' F', heap_ok base heap0 s' ((r, nunits) :: U) F' -> brk s' = brk s -> Q (r + UNIT) s') ->
  wp (carve nunits a b) s Q.
Proof.
  intros H Ha Hab Hn HQ. destruct (seg_at _ _ _ _ a (ok_ring _ _ _ _ _ H) Ha) as (F1 & F2 & -> & -> & Hs).
  destruct F2 as [|[b' m] F2].
  { apply seg_nil in Hs. rewrite Hs in Hab. subst b. rewrite (ok_size0 _ _ _ _ _ H) in Hn. lia. }
  apply seg_cons in Hs as (Hb & Hm & Hs). rewrite Hb in Hab. subst b'. rewrite Hm in Hn.
  pose proof (node_mapped H _ Ha) as Hma. assert (mapped s b = true) as Hmb by (apply (node_mapped H), (in_nodes b m); set_solver).
  destruct (block_range H b m) as (? & ? & ?); [set_solver|]. destruct (ok_base _ _ _ _ _ H). unfold carve. wp_step. hstep. rewrite Hm. wp_step. case_if.
  - wp_step. hstep. wp_step. hstep. wp_step. wp_step. wp_step. wp_step. apply (HQ b _ (F1 ++ F2)); [|done]. rewrite <- E. apply (carve_whole (nunits := m) H); lia.
  - wp_step. hstep. wp_step. hstep.
    { unfold mapped. cbn [set_size brk]. units. zcmp. done. }
    wp_step. wp_step. wp_step. wp_step. eapply HQ; [|done]. apply (carve_end H); lia.
Qed.

(** ** Searching, and asking for more memory *)

(** Following the pointers from [a] one passes [xs]. *)
Fixpoint path (s : heap) (a : Z) (xs : list Z) : Prop :=
  match xs with
  | [] => True
  | x :: xs' => ptr s a = x /\ path s x xs'
  end.

Lemma path_app s a xs x ys : path s a (xs ++ x :: ys) <-> path s a (xs ++ [x]) /\ path s x ys.
Proof. revert a. induction xs as [|y xs IH]; intros a; cbn [path app]; [tauto|]. rewrite IH. tauto. Qed.
Lemma seg_path s a F e : seg s a F e -> path s a (F.*1 ++ [e]).
Proof.
  revert a. induction F as [|[b n] F IH]; intros a Hs; [apply seg_nil in Hs; done|]. apply seg_cons in Hs as (? & _ & Hs). split; [done|]. by apply IH.
Qed.

(** From [freep] the pointers lead through all the other nodes back to it. *)
Lemma ring_path base heap0 s U F : heap_ok base heap0 s U F ->
  exists ys, path s (freep s) (ys ++ [freep s]) /\ freep s :: ys ≡ₚ nodes base F.
Proof.
  intros H. pose proof (ok_ring _ _ _ _ _ H) as Hr. apply seg_path in Hr. pose proof (ok_freep _ _ _ _ _ H) as Hf. unfold nodes in *.
  apply elem_of_cons in Hf as [->|Hf]; [by exists (F.*1)|]. apply list_elem_of_split in Hf as (N1 & N2 & E). rewrite E in Hr |- *.
  exists (N2 ++ base :: N1). rewrite <- app_assoc in Hr. cbn [app] in Hr. apply path_app in Hr as [Hr1 Hr2]. split.
  - rewrite <- app_assoc. cbn [app]. apply path_app. split; done.
  - rewrite app_comm_cons, Permutation_app_comm. cbn [app]. by rewrite <- Permutation_middle, (Permutation_cons_append (N1 ++ N2)), <- app_assoc,
      <- Permutation_cons_append, <- Permutation_middle.
Qed.

Section Malloc.
  Context {base heap0 : Z} (can_grow : Z -> Z -> bool) (nunits : Z).
  (** Memory is bounded, and the size asked of [sbrk] is a positive [int]. *)
  Context (Hgrow : forall b n, can_grow b n = true -> b + n <= 2 ^ 36).
  Context (Hsmall : 0 < nunits /\ UNIT * nunits < 2 ^ 31).

Notation step := (malloc_step can_grow nunits).

(** The part of the loop after all nodes were found too small. *)
Definition grow (k : nat) : M heap Z :=
  p' <- morecore can_grow nunits ;;
  if p' =? 0 then ret 0
  else
    q <- rd_ptr p' ;;
    loop k step (p', q).

Lemma walk s ys : forall prev x xs k, path s prev (ys ++ [freep s]) -> freep s ∉ ys -> ys ++ [freep s] = x :: xs ->
  Forall (fun y => mapped s y = true) (ys ++ [freep s]) ->
  (exists a b, a ∈ prev :: ys /\ ptr s a = b /\ nunits <= size s b /\ loop (S (length ys) + k) step (prev, x) s = carve nunits a b s)
  \/ (Forall (fun y => size s y < nunits) (ys ++ [freep s]) /\ loop (S (length ys) + k) step (prev, x) s = grow k s).
Proof.
  induction ys as [|y ys IH]; intros prev x xs k Hp Hf E Hmap; injection E as <- <-; cbn [app] in *; apply Forall_cons in Hmap as [Hm Hmap];
    destruct Hp as [Hpx Hp]; cbn [length plus Nat.add loop].
  - destruct (nunits <=? size s (freep s)) eqn:En; bool_prop.
    + left. exists prev, (freep s). split_and!; [set_solver | done | done|]. unfold bind at 1, malloc_step, bind at 1, rd_size. rewrite Hm.
      apply Z.leb_le in En. rewrite En. unfold bind, ret. by destruct (carve nunits prev (freep s) s) as [[? ?]| | |].
    + right. split; [by repeat constructor|]. unfold bind at 1, malloc_step at 1, bind at 1, rd_size. rewrite Hm. apply Z.leb_gt in En. rewrite En.
      unfold bind at 1, gets. rewrite Z.eqb_refl. unfold grow, bind at 1 3. destruct (morecore can_grow nunits s) as [[p' s']| | |]; try done.
      destruct (p' =? 0); [done|]. unfold bind, ret. by destruct (rd_ptr p' s') as [[q ?]| | |].
  - assert (y <> freep s) as Hy by set_solver. destruct (nunits <=? size s y) eqn:En; bool_prop.
    + left. exists prev, y. split_and!; [set_solver | done | done|]. unfold bind at 1, malloc_step, bind at 1, rd_size. rewrite Hm.
      apply Z.leb_le in En. rewrite En. unfold bind, ret. by destruct (carve nunits prev y s) as [[? ?]| | |].
    + assert (exists z zs, ys ++ [freep s] = z :: zs) as (z & zs & Ez) by (destruct ys; cbn; eauto).
      assert (loop (S (S (length ys)) + k) step (prev, y) s = loop (S (length ys) + k) step (y, z) s) as EL.
      { cbn [Nat.add loop]. unfold bind at 1, malloc_step at 1, bind at 1, rd_size. rewrite Hm. apply Z.leb_gt in En. rewrite En.
        unfold bind at 1, gets. apply Z.eqb_neq in Hy. rewrite Hy. unfold bind at 1, rd_ptr. rewrite Hm. unfold ret.
        rewrite Ez in Hp. destruct Hp as [-> _]. done. }
      cbn [Nat.add] in EL. destruct (IH y z zs k Hp ltac:(set_solver) Ez Hmap) as [(a & b & Ha & Hab & Hb & HL)|[Hs HL]].
      * left. exists a, b. split_and!; [set_solver | done | done|]. rewrite <- HL. exact EL.
      * right. split; [by constructor|]. rewrite <- HL. exact EL.
Qed.

Lemma morecore_wp s U F Q : heap_ok base heap0 s U F ->
  (can_grow (brk s) (UNIT * Z.max 4096 nunits) = false -> Q 0 s) ->
  (forall s' F', heap_ok base heap0 s' U F' -> brk s' = brk s + UNIT * Z.max 4096 nunits -> freep s' <> 0 -> (length F' <= S (length F))%nat ->
    (exists b m, (b, m) ∈ F' /\ nunits <= m) -> Q (freep s') s') ->
  wp (morecore can_grow nunits) s Q.
Proof.
  intros H HF HS. unfold morecore. replace (if nunits <? 4096 then 4096 else nunits) with (Z.max 4096 nunits) by (case_if; lia).
  set (nu := Z.max 4096 nunits) in *. assert (0 < UNIT * nu < 2 ^ 31) as Hnu by (units; lia).
  pose proof (ok_brk _ _ _ _ _ H) as [Hdv Hb36]. pose proof (ok_heap0 _ _ _ _ _ H) as [_ Hh0]. destruct (ok_base _ _ _ _ _ H) as [Hpos Hbase].
  replace (i32 (u64 (nu * UNIT))) with (UNIT * nu) by (rewrite u64_small, i32_small; units; lia).
  wp_step. unfold sbrk. wp_step. wp_step. replace (0 <? UNIT * nu) with true by (symmetry; apply Z.ltb_lt; lia).
  destruct (can_grow (brk s) (UNIT * nu)) eqn:Eg.
  2:{ wp_step. cbn beta. rewrite Z.eqb_refl. cbn iota. wp_step. by apply HF. }
  wp_step. wp_step. wp_step. cbn beta. replace (brk s =? MINUS1) with false by (symmetry; apply Z.eqb_neq; unfold MINUS1; lia).
  apply Hgrow in Eg. wp_step. hstep.
  { unfold mapped. cbn [set_brk brk]. units. zcmp. done. }
  set (s1 := set_size _ _).
  assert (heap_ok base heap0 s1 ((brk s, nu) :: U) F) as H1.
  { assert (forall x, x ∈ F.*1 -> x <> brk s) as HxF.
    { intros x Hx. destruct (node_range H x) as (_ & _ & ?); [by apply elem_of_cons; right | units; lia]. }
    constructor; try apply H; unfold s1; cbn [set_size set_brk brk size ptr freep].
    - split; [apply H | lia].
    - split; [apply Z.divide_add_r; [done | apply Z.divide_factor_l] | lia].
    - eapply (seg_frame s); [| done | apply H]. intros x Hx. cbn. rewrite upd_ne; [done | by apply HxF].
    - rewrite upd_ne; [apply H | units; lia].
    - constructor; cbn [fst snd]; [rewrite upd_eq; split_and!; [lia | done | done]|].
      pose proof (ok_used _ _ _ _ _ H) as Hu. rewrite Forall_forall in Hu |- *. intros [x k] Hx. destruct (Hu _ Hx) as (? & ? & ?). cbn [fst snd] in *.
      destruct (block_range H x k) as (_ & _ & ?); [set_solver|]. rewrite upd_ne; [done | units; lia].
    - intros a. cbn [app cov]. rewrite (ok_cov _ _ _ _ _ H a). unfold inside. cbn [fst snd]. repeat case_if; lia. }
  wp_step. eapply wp_mono; [apply (free_wp base heap0 s1 U F (brk s) nu H1)|]. intros [] s2 (F' & H2 & Hb2 & Hl2). change (brk s1) with (brk s + UNIT * nu) in Hb2.
  wp_step. apply (HS s2 F'); [done | done | | done |].
  - destruct (node_range H2 _ (ok_freep _ _ _ _ _ H2)). lia.
  - destruct (cov_one_block heap0 F' (brk s) (brk s + UNIT * nu) (ok_spaced _ _ _ _ _ H2)) as (b & m & Hb & Hle1 & Hle2); [lia | |].
    + intros a Ha. pose proof (ok_cov _ _ _ _ _ H2 a) as Hc. rewrite Hb2, cov_app in Hc. pose proof (ok_cov _ _ _ _ _ H a) as Hc0. rewrite cov_app in Hc0.
      pose proof (cov_nonneg a F). pose proof (cov_nonneg a U). case_if_in Hc; case_if_in Hc0; lia.
    + exists b, m. split; [done|]. units. lia.
Qed.

(** A free block that is large enough is found in one round. *)
Lemma round_wp s U F fuel Q : heap_ok base heap0 s U F -> (length F < fuel)%nat ->
  (forall r s' F', heap_ok base heap0 s' ((r, nunits) :: U) F' -> brk s' = brk s -> Q (r + UNIT) s') ->
  (Forall (fun b => snd b < nunits) F -> wp (grow (fuel - S (length F))) s Q) ->
  wp (loop fuel step (freep s, ptr s (freep s))) s Q.
Proof.
  intros H Hf HQ HG. destruct (ring_path _ _ _ _ _ H) as (ys & Hp & Hperm).
  assert (exists x xs, ys ++ [freep s] = x :: xs) as (x & xs & Ex) by (destruct ys; cbn; eauto).
  pose proof (nodes_nodup H) as Hd. rewrite <- Hperm in Hd. apply NoDup_cons in Hd as [Hd _].
  assert (length F = length ys) as Hlen by (apply Permutation_length in Hperm; cbn in Hperm; rewrite length_fmap in Hperm; lia).
  assert (forall y, y ∈ ys ++ [freep s] -> y ∈ nodes base F) as Hin by (intros y Hy; rewrite <- Hperm; set_solver).
  assert (ptr s (freep s) = x) as -> by (rewrite Ex in Hp; apply Hp).
  replace fuel with (S (length ys) + (fuel - S (length F)))%nat by lia.
  destruct (walk s ys (freep s) x xs (fuel - S (length F)) Hp Hd Ex) as [(a & b & Ha & Hab & Hb & HL)|[Hs HL]].
  - apply Forall_forall. intros y Hy. by apply (node_mapped H), Hin.
  - unfold wp. rewrite HL. apply (carve_wp base heap0 s U F a b nunits Q H); [|done | lia | done]. rewrite <- Hperm. set_solver.
  - unfold wp. replace (S (length ys) + (fuel - S (length F)) - S (length F))%nat with (fuel - S (length F))%nat in HG by lia.
    rewrite HL. apply HG. rewrite Forall_forall in Hs. apply Forall_forall. intros [b m] Hb.
    assert (size s b = m) as <-.
    { pose proof (ok_ring _ _ _ _ _ H) as Hr. apply list_elem_of_split in Hb as (F1 & F2 & ->). apply seg_app in Hr as [_ Hr]. by apply seg_cons in Hr as (_ & ? & _). }
    apply Hs. pose proof (in_nodes (base := base) b _ Hb) as Hn. rewrite <- Hperm in Hn. set_solver.
Qed.

Lemma malloc_loop_wp s U F Q : heap_ok base heap0 s U F ->
  (forall r s' F', heap_ok base heap0 s' ((r, nunits) :: U) F' -> Q (r + UNIT) s') ->
  (Forall (fun b => snd b < nunits) F -> can_grow (brk s) (UNIT * Z.max 4096 nunits) = false -> Q 0 s) ->
  wp (loop (ring_fuel s + S (ring_fuel s)) step (freep s, ptr s (freep s))) s Q.
Proof.
  intros H HS HF. pose proof (ring_length H) as Hlen. apply (round_wp s U F); [done | unfold ring_fuel; lia | by eauto|].
  intros Hno. unfold grow. wp_step. apply (morecore_wp s U F); [done | |].
  - intros Hg. cbn [Z.eqb]. wp_step. by apply HF.
  - intros s' F' H' Hb Hf0 Hl (b & m & Hbm & Hm). apply Z.eqb_neq in Hf0. rewrite Hf0. wp_step. hstep; [apply (node_mapped H'), H'|].
    apply (round_wp s' U F'); [done | unfold ring_fuel; lia | by eauto|]. intros Hall. rewrite Forall_forall in Hall. specialize (Hall _ Hbm). cbn in Hall. lia.
Qed.

End Malloc.

(** The first call sets up an empty list. *)
Lemma fresh_ok base heap0 s : heap_fresh base heap0 s ->
  heap_ok base heap0 (set_size (fun h => upd h base 0) (set_freep base (set_ptr (fun h => upd h base base) s))) [] [].
Proof.
  intros (Hf & Hb & Hb0 & Hbrk & Hd & H36). constructor; cbn [set_size set_freep set_ptr ptr size freep brk]; try done.
  - rewrite Hbrk. split; [done | lia].
  - by rewrite Hbrk.
  - apply seg_nil. cbn. by rewrite upd_eq.
  - by rewrite upd_eq.
  - set_solver.
  - intros a. cbn [app cov]. rewrite Hbrk. case_if; lia.
Qed.

Lemma units_small nbytes : 0 <= nbytes <= 2 ^ 31 - 32 ->
  0 < units nbytes /\ UNIT * units nbytes < 2 ^ 31 /\ UNIT + nbytes <= UNIT * units nbytes.
Proof.
  intros H. unfold units, UNIT. rewrite u32_small; [|split; [dlia|]]; Z.to_euclidean_division_equations; lia.
Qed.

(** No byte of the [n] bytes at [r] belongs to one of the blocks. *)
Definition apart (r n : Z) (L : list blk) : Prop := Forall (fun b => r + n <= fst b \/ fst b + UNIT * snd b <= r) L.

(** What a call promises: the null pointer, with nothing changed, only when no
    free block is large enough and there is no memory to grow; otherwise a new
    block. *)
Definition malloc_post (base heap0 : Z) (can_grow : Z -> Z -> bool) (s : heap) (U F : list blk) (nbytes r : Z) (s' : heap) : Prop :=
  (r = 0 /\ heap_ok base heap0 s' U F /\ Forall (fun b => snd b < units nbytes) F
    /\ can_grow (brk s) (UNIT * Z.max 4096 (units nbytes)) = false)
  \/ (exists F', heap_ok base heap0 s' ((r - UNIT, units nbytes) :: U) F'
    /\ r mod UNIT = 0 /\ heap0 < r /\ r + nbytes <= brk s' /\ apart r nbytes U).

(** C22: [malloc] returns: either a pointer to the number of bytes asked for,
    aligned, below the break and apart from every block the program holds, or
    0, when no free block is large enough and the kernel has no memory; the
    blocks held before are untouched, no byte of the heap is lost, and the
    free list is in order and fully merged.  Also for the first call. *)
Theorem malloc_correct (base heap0 : Z) (can_grow : Z -> Z -> bool) (s : heap) (U F : list blk) (nbytes : Z)
  (Hgrow : forall b n, can_grow b n = true -> b + n <= 2 ^ 36)
  (H : heap_ok base heap0 s U F \/ (heap_fresh base heap0 s /\ U = [] /\ F = []))
  (Hn : 0 <= nbytes <= 2 ^ 31 - 32) :
  exists r s', malloc base can_grow nbytes s = Ret (r, s') /\ malloc_post base heap0 can_grow s U F nbytes r s'.
Proof.
  destruct (units_small nbytes Hn) as (Hu1 & Hu2 & Hu3).
  assert (forall s1, heap_ok base heap0 s1 U F -> brk s1 = brk s ->
    wp (fuel <- gets ring_fuel ;; p <- rd_ptr (freep s1) ;; loop (fuel + S fuel) (malloc_step can_grow (units nbytes)) (freep s1, p)) s1
      (malloc_post base heap0 can_grow s U F nbytes)) as Hmain.
  { intros s1 H1 Hb1. wp_step. wp_step. wp_step. hstep; [apply (node_mapped H1), H1|].
    apply (malloc_loop_wp (base := base) (heap0 := heap0) can_grow (units nbytes) Hgrow (conj Hu1 Hu2) s1 U F); [done | |].
    - intros r s' F' H'. right. exists F'. replace (r + UNIT - UNIT) with r by lia. destruct (block_range H' r (units nbytes)) as (? & _ & ?); [set_solver|].
      pose proof (ok_used _ _ _ _ _ H') as Hu. apply Forall_cons in Hu as [(_ & Hd & _) Hu]. cbn [fst] in Hd. split_and!; [done | | units; lia | lia |].
      + apply Z.mod_divide; [done|]. apply Z.divide_add_r; [done | exists 1; done].
      + apply Forall_forall. intros [b m] Hb. rewrite Forall_forall in Hu. destruct (Hu _ Hb) as (Hm & _). cbn [fst snd] in *.
        destruct (cov_disjoint [(r, units nbytes)] U r (units nbytes) b m) as [?|?];
          [|by apply list_elem_of_singleton | done | done | done | units; lia | units; lia].
        intros a. pose proof (cov_le1 H' a) as Hc. cbn [app cov] in *. rewrite cov_app in Hc. pose proof (cov_nonneg a F'). lia.
    - intros Hno Hg. left. rewrite Hb1 in Hg. done. }
  change (wp (malloc base can_grow nbytes) s (malloc_post base heap0 can_grow s U F nbytes)).
  unfold malloc. wp_step. wp_step. wp_step. destruct H as [H|(Hfr & -> & ->)].
  - destruct (node_range H _ (ok_freep _ _ _ _ _ H)) as (_ & Hf & _). zcmp. wp_step. by apply Hmain.
  - pose proof (fresh_ok _ _ _ Hfr) as H1. destruct Hfr as (Hf & Hb & Hb0 & Hbrk & _). rewrite Hf. cbn [Z.eqb].
    assert (mapped s base = true) as Hmb by (unfold mapped; zcmp; done).
    wp_step. hstep. wp_step. wp_step. wp_step. hstep. wp_step. by apply Hmain.
Qed.

(** [free] of a block that the program holds returns with exactly that block
    given back: the other blocks are still held, every byte of it is free, and
    it is merged with its free neighbours. *)
Theorem free_correct (base heap0 : Z) (s : heap) (U F : list blk) (b n : Z)
  (H : heap_ok base heap0 s U F) (Hb : (b, n) ∈ U) :
  exists s' U' F', free (b + UNIT) s = Ret (tt, s') /\ U ≡ₚ (b, n) :: U' /\ heap_ok base heap0 s' U' F'
    /\ brk s' = brk s /\ (exists c m, (c, m) ∈ F' /\ c <= b /\ b + UNIT * n <= c + UNIT * m).
Proof.
  apply elem_of_Permutation in Hb as (U' & HU). pose proof H as H0. rewrite HU in H0.
  destruct (free_wp base heap0 s U' F b n H0) as ([] & s' & E & F' & H' & Hbrk & _). exists s', U', F'. split_and!; try done.
  destruct (block_range H0 b n) as (_ & Hn & _); [set_solver|].
  apply (cov_one_block heap0 F' b (b + UNIT * n) (ok_spaced _ _ _ _ _ H')); [units; lia|].
  intros a Ha. pose proof (ok_cov _ _ _ _ _ H' a) as Hc'. pose proof (ok_cov _ _ _ _ _ H0 a) as Hc. rewrite Hbrk, <- Hc in Hc'.
  rewrite cov_app in Hc'. cbn [app cov] in Hc'. rewrite cov_app, inside_true in Hc' by done. pose proof (cov_nonneg a F). lia.
Qed.

(** C38: [malloc] hands out memory that does not exist when the size does not fit
    the [int] of [sbrk]: the first call, for 2^32 - 1 bytes, moves the break by
    16 bytes only and returns a pointer to the break. *)
Theorem malloc_huge (base heap0 : Z) (can_grow : Z -> Z -> bool) (s : heap)
  (H : heap_fresh base heap0 s) (Hg : can_grow heap0 16 = true) :
  exists s', malloc base can_grow (2 ^ 32 - 1) s = Ret (brk s', s') /\ brk s' = heap0 + 16.
Proof.
  destruct H as (Hf & Hb & Hb0 & Hbrk & _ & H36).
  assert (forall s, exists k, ring_fuel s = S (S k)) as Hk by (intros s1; exists (2 * Z.to_nat (brk s1 / UNIT))%nat; unfold ring_fuel; lia).
  cut (wp (malloc base can_grow (2 ^ 32 - 1)) s (fun r s' => r = brk s' /\ brk s' = heap0 + 16)).
  { intros (r & s' & E & -> & Hs). by exists s'. }
  assert (forall t x, brk t = heap0 -> x = base -> mapped t x = true) as Hm0 by (intros t x Ht ->; unfold mapped; units; zcmp; done).
  assert (forall t x, brk t = heap0 + 16 -> x = base \/ x = heap0 -> mapped t x = true) as Hm1
    by (intros t x Ht Hx; unfold mapped; units; zcmp; done).
  unfold malloc. change (units (2 ^ 32 - 1)) with (2 ^ 28 + 1). wp_step. wp_step. wp_step. rewrite Hf. cbn [Z.eqb].
  wp_step. hstep; [by apply Hm0|]. wp_step. wp_step. wp_step. hstep; [by apply Hm0|]. wp_step. wp_step. wp_step. wp_step. hstep; [by apply Hm0|].
  cbn [set_size set_freep set_ptr ptr]. rewrite upd_eq. match goal with |- context [ring_fuel ?t] => destruct (Hk t) as [k ->] end. cbn [Nat.add loop].
  wp_step. unfold malloc_step at 1. wp_step. hstep; [by apply Hm0|]. cbn [set_size set_freep set_ptr size]. rewrite upd_eq.
  change (2 ^ 28 + 1 <=? 0) with false. cbn iota. wp_step. wp_step. cbn [set_size set_freep set_ptr freep]. rewrite Z.eqb_refl.
  wp_step. unfold morecore. change (i32 (u64 ((if 2 ^ 28 + 1 <? 4096 then 4096 else 2 ^ 28 + 1) * UNIT))) with 16.
  change (if 2 ^ 28 + 1 <? 4096 then 4096 else 2 ^ 28 + 1) with (2 ^ 28 + 1).
  wp_step. unfold sbrk. wp_step. wp_step. cbn [set_size set_freep set_ptr brk]. rewrite Hbrk, Hg. change (0 <? 16) with true. cbn iota.
  wp_step. wp_step. wp_step. cbn beta. replace (heap0 =? MINUS1) with false by (symmetry; apply Z.eqb_neq; unfold MINUS1; lia).
  wp_step. hstep; [apply Hm1; [done | by right]|].
  wp_step. unfold free. replace (heap0 + UNIT - UNIT) with heap0 by lia. wp_step. wp_step. wp_step. wp_step.
  match goal with |- context [ring_fuel ?t] => destruct (Hk t) as [k2 ->] end. cbn [loop]. wp_step. wp_step. unfold free_step at 1.
  assert (base < heap0) by (units; lia).
  wp_step. hstep; [apply Hm1; [done | by left]|]. cbn [set_size set_freep set_ptr set_brk ptr freep]. rewrite upd_eq. zcmp. cbn [andb orb]. wp_step. wp_step.
  wp_step. unfold join_next. wp_step. hstep; [apply Hm1; [done | by right]|]. wp_step. hstep; [apply Hm1; [done | by left]|].
  cbn [set_size set_freep set_ptr set_brk ptr size]. rewrite !upd_eq. replace (heap0 + UNIT * (2 ^ 28 + 1) =? base) with false by (symmetry; apply Z.eqb_neq; units; lia).
  hstep; [apply Hm1; [done | by right]|]. wp_step. unfold join_prev. wp_step. hstep; [apply Hm1; [done | by left]|].
  cbn [set_size set_freep set_ptr set_brk ptr size]. rewrite upd_ne, upd_eq by lia. replace (base + UNIT * 0 =? heap0) with false by (symmetry; apply Z.eqb_neq; lia).
  hstep; [apply Hm1; [done | by left]|]. wp_step. wp_step. cbn [set_freep freep]. replace (base =? 0) with false by (symmetry; apply Z.eqb_neq; lia).
  wp_step. hstep; [apply Hm1; [done | by left]|]. cbn [set_size set_freep set_ptr set_brk ptr size]. rewrite upd_eq. wp_step.
  cbn [loop]. replace (k + S (S (S k)))%nat with (S (k + S (S k))) by lia. cbn [loop]. wp_step. unfold malloc_step at 1. wp_step. hstep; [apply Hm1; [done | by right]|].
  cbn [set_size set_freep set_ptr set_brk ptr size]. rewrite upd_eq. change (2 ^ 28 + 1 <=? 2 ^ 28 + 1) with true. cbn iota.
  wp_step. unfold carve. wp_step. hstep; [apply Hm1; [done | by right]|]. cbn [set_size set_freep set_ptr set_brk ptr size]. rewrite upd_eq.
  change (2 ^ 28 + 1 =? 2 ^ 28 + 1) with true. cbn iota. wp_step. wp_step. hstep; [apply Hm1; [done | by right]|]. wp_step. hstep; [apply Hm1; [done | by left]|].
  wp_step. wp_step. wp_step. wp_step. wp_step. cbn beta iota. wp_step. done.
Qed.

(** ** A small heap, from 0x5000 to at most 0x100000 *)

Definition heap_start : heap := mkHeap (fun _ => 0) (fun _ => 0) 0 0x5000.
Definition grow_limit (b n : Z) : bool := b + n <=? 0x100000.

Lemma heap_start_fresh : heap_fresh 0x2000 0x5000 heap_start.
Proof. unfold heap_fresh, heap_start, UNIT. cbn. split_and!; try lia. by exists 0x500. Qed.

(** The first call gives a block at the end of the memory it asked for. *)
Lemma malloc_correct_witness : exists s', malloc 0x2000 grow_limit 100 heap_start = Ret (0x5000 + 0x10000 - 112, s')
  /\ malloc_post 0x2000 0x5000 grow_limit heap_start [] [] 100 (0x5000 + 0x10000 - 112) s'.
Proof.
  destruct (malloc_correct 0x2000 0x5000 grow_limit heap_start [] [] 100) as (r & s' & E & Hp).
  - intros b n Hg. unfold grow_limit in Hg. apply Z.leb_le in Hg. lia.
  - right. split; [exact heap_start_fresh | done].
  - lia.
  - assert (r = 0x5000 + 0x10000 - 112) as Hr.
    { pose proof (f_equal (fun o => match o with Ret (r, _) => r | _ => 0 end) E) as Er. vm_compute in Er. symmetry. exact Er. }
    rewrite Hr in E, Hp. exists s'. split; [exact E | exact Hp].
Defined.

(** A heap with one block of 128 units, held. *)
Definition heap_held : heap := mkHeap (fun _ => 0x2000) (fun x => if x =? 0x2000 then 0 else 128) 0x2000 0x5800.

Lemma free_correct_witness : exists s' U' F', free (0x5000 + UNIT) heap_held = Ret (tt, s') /\ [(0x5000, 128)] ≡ₚ (0x5000, 128) :: U'
  /\ heap_ok 0x2000 0x5000 s' U' F' /\ brk s' = brk heap_held
  /\ (exists c m, (c, m) ∈ F' /\ c <= 0x5000 /\ 0x5000 + UNIT * 128 <= c + UNIT * m).
Proof.
  apply (free_correct 0x2000 0x5000 heap_held [(0x5000, 128)] []); [|by apply list_elem_of_singleton].
  constructor; unfold UNIT; cbn; try lia; try done.
  - split; [by exists 0x500 | lia].
  - split; [by exists 0x580 | lia].
  - apply list_elem_of_singleton. done.
  - constructor; [|constructor]. cbn. split_and!; [lia | by exists 0x500 | done].
  - intros a. unfold inside, UNIT. cbn [fst snd]. change (0x5000 + 16 * 128) with 0x5800. lia.
Defined.

Lemma malloc_huge_witness : exists s', malloc 0x2000 grow_limit (2 ^ 32 - 1) heap_start = Ret (brk s', s') /\ brk s' = 0x5000 + 16.
Proof. apply (malloc_huge 0x2000 0x5000); [exact heap_start_fresh | reflexivity]. Defined.
