(* ===== verification/UProg.v ===== *)
(** * User programs and their system calls (user/user.h)

    A user program is a tree of system calls: it stops, or makes a call and
    goes on with the answer.  The same tree can be run against different
    worlds; [run] gives it any world that answers calls one after the other.
    A loop that only the outside ends (a [read] loop, [init]) takes fuel. *)

From Stdlib Require Import Ascii String.
From stdpp Require Import gmap.
From S2P Require Import Prelude KString Printf ULib.

Notation cstr := (list Z) (only parsing).

(** The calls of user/user.h; a buffer that is written to is part of the call,
    one that is read into is part of the answer. *)
Inductive call :=
| CFork | CWait | CPipe
| CRead (fd n : Z) | CWrite (fd : Z) (bytes : list Z) | CClose (fd : Z) | CDup (fd : Z)
| CKill (pid : Z) | CSleep (n : Z)
| CExec (path : cstr) (argv : list cstr)
| COpen (path : cstr) (mode : Z) | CMknod (path : cstr) (major minor : Z) | CUnlink (path : cstr) | CLink (old new : cstr)
| CMkdir (path : cstr) | CChdir (path : cstr) | CFstat (fd : Z).

(** The value that the call returns, and what it put into the caller's buffer. *)
Record answer := mkAns { rv : Z; got : list Z }.

Inductive prog (A : Type) : Type :=
| PRet (a : A)
| PExit (status : Z)
| PCall (c : call) (k : answer -> prog A)
| PFault
| PFuel.
Arguments PRet {A} a. Arguments PExit {A} status. Arguments PCall {A} c k. Arguments PFault {A}. Arguments PFuel {A}.

Fixpoint pbind {A B} (p : prog A) (k : A -> prog B) : prog B :=
  match p with
  | PRet a => k a
  | PExit n => PExit n
  | PCall c k' => PCall c (fun r => pbind (k' r) k)
  | PFault => PFault
  | PFuel => PFuel
  end.

Declare Scope uprog_scope.
Delimit Scope uprog_scope with uprog.
Notation "x <~ p ;; k" := (pbind p (fun x => k)) (at level 100, p at next level, right associativity) : uprog_scope.
Notation "p ;;~ k" := (pbind p (fun _ => k)) (at level 100, right associativity) : uprog_scope.
Open Scope uprog_scope.

Definition sys (c : call) : prog answer := PCall c PRet.
Definition syscall_rv (c : call) : prog Z := r <~ sys c ;; PRet (rv r).

(** [while (body)]: the body says whether to go on. *)
Fixpoint ploop {X R} (fuel : nat) (body : X -> prog (X + R)) (x : X) : prog R :=
  match fuel with
  | O => PFuel
  | S fuel' => r <~ body x ;; match r with inl x' => ploop fuel' body x' | inr v => PRet v end
  end.

(** The characters of a literal. *)
Definition lit (s : string) : cstr := (fun c => Z.of_nat (nat_of_ascii c)) <$> list_ascii_of_string s.
Definition NL : cstr := [10].

(** [fprintf]: one [write] per character. *)
Fixpoint put_chars (fd : Z) (l : list Z) : prog unit :=
  match l with
  | [] => PRet tt
  | c :: l' => sys (CWrite fd [c]) ;;~ put_chars fd l'
  end.
Definition formatted (fmt : cstr) (ap : list arg) : option (list Z) :=
  match ULib.fprintf 1 fmt ap [] with Ret (_, o) => Some (snd <$> o) | _ => None end.
Definition fprintf (fd : Z) (fmt : cstr) (ap : list arg) : prog unit :=
  match formatted fmt ap with Some l => put_chars fd l | None => PFault end.
Definition printf : cstr -> list arg -> prog unit := fprintf 1.
Definition str (s : cstr) : arg := AStr (Some s).

(** ** Running a program *)

Inductive outcome (A : Type) := ORet (a : A) | OExit (status : Z) | OFault | OFuel.
Arguments ORet {A} a. Arguments OExit {A} status. Arguments OFault {A}. Arguments OFuel {A}.

Section Run.
  Context {S : Type} (h : call -> S -> answer * S).

Fixpoint run {A} (p : prog A) (s : S) : outcome A * S :=
  match p with
  | PRet a => (ORet a, s)
  | PExit n => (OExit n, s)
  | PCall c k => let '(r, s') := h c s in run (k r) s'
  | PFault => (OFault, s)
  | PFuel => (OFuel, s)
  end.

Lemma run_bind {A B} (p : prog A) (k : A -> prog B) s :
  run (pbind p k) s = match run p s with
                      | (ORet a, s') => run (k a) s'
                      | (OExit n, s') => (OExit n, s')
                      | (OFault, s') => (OFault, s')
                      | (OFuel, s') => (OFuel, s')
                      end.
Proof. revert s. induction p as [a|n|c k' IH| |]; intros s; cbn; try done. destruct (h c s) as [r s']. apply IH. Qed.

Lemma run_sys c s : run (sys c) s = let '(r, s') := h c s in (ORet r, s').
Proof. done. Qed.

End Run.

(** ** A world of streams

    Input waits at each descriptor, [read] delivers some of it ([amount]), files
    have contents, and what is written is kept with its descriptor. *)

Record world := mkWorld {
  w_in : gmap Z (list Z);
  w_out : list (Z * Z);          (* descriptor and byte, in order *)
  w_files : cstr -> option (list Z);
  w_next : Z
}.

Section Streams.
  (** How many bytes a [read] of at most [n] bytes delivers of the input: some,
      as long as there is any. *)
  Context (amount : Z -> list Z -> Z).

(** What has been written to [fd]. *)
Definition wrote (fd : Z) (l : list Z) (s : world) : world :=
  mkWorld (w_in s) (w_out s ++ (pair fd <$> l)) (w_files s) (w_next s).
Definition with_in (fd : Z) (l : list Z) (s : world) : world := mkWorld (<[fd := l]> (w_in s)) (w_out s) (w_files s) (w_next s).

Definition streams (c : call) (s : world) : answer * world :=
  match c with
  | CRead fd n =>
      let k := amount n (w_in s !!! fd) in
      (mkAns k (take (Z.to_nat k) (w_in s !!! fd)), with_in fd (drop (Z.to_nat k) (w_in s !!! fd)) s)
  | CWrite fd l => (mkAns (Z.of_nat (length l)) [], wrote fd l s)
  | COpen path mode =>
      match w_files s path with
      | Some l => (mkAns (w_next s) [], mkWorld (<[w_next s := l]> (w_in s)) (w_out s) (w_files s) (w_next s + 1))
      | None => (mkAns (-1) [], s)
      end
  | CClose fd => (mkAns 0 [], s)
  | _ => (mkAns (-1) [], s)
  end.

Definition good_amount : Prop :=
  (forall n l, n <= 0 \/ l = [] -> amount n l = 0) /\ (forall n l, 0 < n -> l <> [] -> 0 < amount n l <= Z.min n (Z.of_nat (length l))).

End Streams.

Lemma wrote_nil fd s : wrote fd [] s = s.
Proof. unfold wrote. cbn. rewrite app_nil_r. by destruct s. Qed.
Lemma wrote_app fd l1 l2 s : wrote fd l2 (wrote fd l1 s) = wrote fd (l1 ++ l2) s.
Proof. unfold wrote. cbn. by rewrite fmap_app, app_assoc. Qed.
Lemma with_in_wrote fd l fd' l' s : with_in fd l (wrote fd' l' s) = wrote fd' l' (with_in fd l s).
Proof. done. Qed.
Lemma with_in_with fd l l' s : with_in fd l' (with_in fd l s) = with_in fd l' s.
Proof. unfold with_in. cbn. by rewrite insert_insert_eq. Qed.
Lemma with_in_same fd l s : w_in s !! fd = Some l -> with_in fd l s = s.
Proof. intros H. unfold with_in. rewrite insert_id by done. by destruct s. Qed.

(** ** Output of the printing functions *)

Section Output.
  Context (amount : Z -> list Z -> Z).

Lemma run_chars fd l s : run (streams amount) (put_chars fd l) s = (ORet tt, wrote fd l s).
Proof.
  revert s. induction l as [|c l IH]; intros s; cbn [put_chars]; [by rewrite wrote_nil|]. rewrite run_bind, run_sys. cbn. by rewrite IH, wrote_app.
Qed.
Lemma run_fprintf fd fmt ap l s : formatted fmt ap = Some l -> run (streams amount) (fprintf fd fmt ap) s = (ORet tt, wrote fd l s).
Proof. intros E. unfold fprintf. rewrite E. apply run_chars. Qed.

End Output.

(** The text of a number. *)
Definition dec (n : Z) : list Z := default [] (int_chars ULib.digits n 10 false).
Lemma dec_spec n : 0 <= n < 2 ^ 31 -> int_chars ULib.digits n 10 false = Some (dec n).
Proof. intros H. unfold dec. destruct (int_chars_spec ULib.digits n 10 false) as (ds & buf & -> & _); [cbn; lia | lia | done | done]. Qed.

(** The formats of the programs, piece by piece. *)
Lemma fmt_plain fd pre rest ap o : 37 ∉ pre -> vprintf_loop fd (pre ++ rest) 0 ap o = vprintf_loop fd rest 0 ap (o ++ (pair fd <$> pre)).
Proof.
  revert o. induction pre as [|c pre IH]; intros o Hn; cbn [app fmap list_fmap]; [by rewrite app_nil_r|]. cbn [vprintf_loop].
  rewrite (proj2 (Z.eqb_neq c 37)) by set_solver. cbn. rewrite IH by set_solver. by rewrite <- app_assoc.
Qed.
Lemma fmt_str fd rest l ap o : vprintf_loop fd (37 :: 115 :: rest) 0 (str l :: ap) o = vprintf_loop fd rest 0 ap (o ++ (pair fd <$> l)).
Proof. cbn. unfold bind. by rewrite uputs_spec. Qed.
Lemma fmt_dec fd rest n ap o : 0 <= n < 2 ^ 31 -> vprintf_loop fd (37 :: 100 :: rest) 0 (AInt n :: ap) o = vprintf_loop fd rest 0 ap (o ++ (pair fd <$> dec n)).
Proof. intros H. cbn. unfold bind, ULib.printint. rewrite (proj2 (Z.ltb_ge n 0)) by lia. cbn [andb]. rewrite dec_spec by done. cbn. unfold bind. cbn. by rewrite uputs_spec. Qed.
Lemma fmt_end fd o : vprintf_loop fd [] 0 [] o = Ret (tt, o).
Proof. done. Qed.

Lemma snd_pairs (fd : Z) (l : list Z) : snd <$> (pair fd <$> l) = l.
Proof. rewrite <- list_fmap_compose. induction l as [|c l IH]; cbn; [done | by rewrite IH]. Qed.

Lemma formatted_s pre post a : 37 ∉ pre -> 37 ∉ post -> formatted (pre ++ 37 :: 115 :: post) [str a] = Some (pre ++ a ++ post).
Proof.
  intros H1 H2. unfold formatted, ULib.fprintf, vprintf. rewrite fmt_plain by done. rewrite fmt_str. rewrite <- (app_nil_r post) at 1. rewrite fmt_plain by done.
  rewrite fmt_end, app_nil_l, <- !fmap_app. by rewrite snd_pairs, <- app_assoc.
Qed.
