(* ===== verification/UPrograms.v ===== *)
(** * The small user programs (user/echo.c, cat.c, wc.c, ls.c, rm.c, mkdir.c,
    ln.c, kill.c, zombie.c, init.c, and the main program of grep.c)

    Each program is a tree of system calls (UProg.v).  [argv] has the name of
    the program at its front. *)

From Stdlib Require Import Ascii String.
From Stdlib Require List.
From stdpp Require Import gmap.
From S2P Require Import Prelude KString Printf ULib Grep Bytes Bio Log Fs Sysfile UProg.

(** ** echo *)

(** The arguments after the first, each with its separator. *)
Fixpoint echo_args (args : list cstr) : prog unit :=
  match args with
  | [] => PRet tt
  | a :: args' =>
      sys (CWrite 1 a) ;;~
      sys (CWrite 1 (match args' with [] => [10] | _ => [32] end)) ;;~
      echo_args args'
  end.
Definition echo_main (argv : list cstr) : prog Z := echo_args (tail argv) ;;~ PExit 0.

(** ** cat *)

Definition cat (fuel : nat) (fd : Z) : prog unit :=
  ploop fuel (fun _ : unit =>
    r <~ sys (CRead fd 512) ;;
    if 0 <? rv r then
      w <~ syscall_rv (CWrite 1 (got r)) ;;
      if negb (w =? rv r) then fprintf 2 (lit "cat: write error" ++ NL) [] ;;~ PExit 1 else PRet (inl tt)
    else if rv r <? 0 then fprintf 2 (lit "cat: read error" ++ NL) [] ;;~ PExit 1
    else PRet (inr tt)) tt.

(** Open the files in turn, as [cat], [wc] and [grep] do. *)
Fixpoint each_file (fail : cstr -> prog Z) (body : Z -> cstr -> prog unit) (args : list cstr) : prog Z :=
  match args with
  | [] => PExit 0
  | a :: args' =>
      fd <~ syscall_rv (COpen a O_RDONLY) ;;
      if fd <? 0 then fail a
      else
        body fd a ;;~
        sys (CClose fd) ;;~
        each_file fail body args'
  end.

Definition cat_main (fuel : nat) (argv : list cstr) : prog Z :=
  match tail argv with
  | [] => cat fuel 0 ;;~ PExit 0
  | args => each_file (fun a => fprintf 2 (lit "cat: cannot open %s" ++ NL) [str a] ;;~ PExit 1) (fun fd _ => cat fuel fd) args
  end.

(** ** wc *)

Record counts := mkCounts { n_l : Z; n_w : Z; n_c : Z; inword : bool }.

(** [strchr] of blank, carriage return, tab, newline and vertical tab. *)
Definition blank (c : Z) : bool := existsb (Z.eqb c) [32; 13; 9; 10; 11].

Definition count_byte (s : counts) (b : Z) : counts :=
  let l := if b =? 10 then i32 (n_l s + 1) else n_l s in
  let c := i32 (n_c s + 1) in
  if blank b then mkCounts l (n_w s) c false
  else if inword s then mkCounts l (n_w s) c true
  else mkCounts l (i32 (n_w s + 1)) c true.

Definition wc (fuel : nat) (fd : Z) (name : cstr) : prog unit :=
  s <~ ploop fuel (fun s =>
    r <~ sys (CRead fd 512) ;;
    if 0 <? rv r then PRet (inl (foldl count_byte s (got r)))
    else if rv r <? 0 then printf (lit "wc: read error" ++ NL) [] ;;~ PExit 1
    else PRet (inr s)) (mkCounts 0 0 0 false) ;;
  printf (lit "%d %d %d %s" ++ NL) [AInt (n_l s); AInt (n_w s); AInt (n_c s); str name].

Definition wc_main (fuel : nat) (argv : list cstr) : prog Z :=
  match tail argv with
  | [] => wc fuel 0 [] ;;~ PExit 0
  | args => each_file (fun a => printf (lit "wc: cannot open %s" ++ NL) [str a] ;;~ PExit 1) (wc fuel) args
  end.

(** ** The main program of grep *)

(** The loop of [grep], with the inner loop of Grep.v; a line is written by one
    call. *)
Fixpoint grep_print (fuel : nat) (pattern p : cstr) : prog cstr :=
  match fuel with
  | O => PFuel
  | S fuel' =>
      match strchr_nl p with
      | Some (line, p') => (if match_ pattern line then sys (CWrite 1 (line ++ [10])) ;;~ PRet tt else PRet tt) ;;~ grep_print fuel' pattern p'
      | None => PRet p
      end
  end.
Definition grep_fd (fuel : nat) (pattern : cstr) (fd : Z) : prog unit :=
  ploop fuel (fun kept =>
    r <~ sys (CRead fd (BUF - Z.of_nat (length kept) - 1)) ;;
    if 0 <? rv r then
      let buf := kept ++ got r in
      p <~ grep_print (S (length buf)) pattern buf ;; PRet (inl p)
    else PRet (inr tt)) [].

Definition grep_main (fuel : nat) (argv : list cstr) : prog Z :=
  match tail argv with
  | [] => fprintf 2 (lit "usage: grep pattern [file ...]" ++ NL) [] ;;~ PExit 1
  | [pattern] => grep_fd fuel pattern 0 ;;~ PExit 0
  | pattern :: args => each_file (fun a => printf (lit "grep: cannot open %s" ++ NL) [str a] ;;~ PExit 1) (fun fd _ => grep_fd fuel pattern fd) args
  end.

(** ** rm, mkdir, ln, kill, zombie *)

Fixpoint each_until (op : cstr -> call) (msg : string) (args : list cstr) : prog unit :=
  match args with
  | [] => PRet tt
  | a :: args' =>
      r <~ syscall_rv (op a) ;;
      if r <? 0 then fprintf 2 (lit msg ++ NL) [str a] else each_until op msg args'
  end.

Definition rm_main (argv : list cstr) : prog Z :=
  match tail argv with
  | [] => fprintf 2 (lit "Usage: rm files..." ++ NL) [] ;;~ PExit 1
  | args => each_until CUnlink "rm: %s failed to delete" args ;;~ PExit 0
  end.
Definition mkdir_main (argv : list cstr) : prog Z :=
  match tail argv with
  | [] => fprintf 2 (lit "Usage: mkdir files..." ++ NL) [] ;;~ PExit 1
  | args => each_until CMkdir "mkdir: %s failed to create" args ;;~ PExit 0
  end.
Definition ln_main (argv : list cstr) : prog Z :=
  match argv with
  | [_; old; new] =>
      r <~ syscall_rv (CLink old new) ;;
      (if r <? 0 then fprintf 2 (lit "link %s %s: failed" ++ NL) [str old; str new] else PRet tt) ;;~
      PExit 0
  | _ => fprintf 2 (lit "Usage: ln old new" ++ NL) [] ;;~ PExit 1
  end.

(** [atoi] of a string: the digits at its front. *)
Fixpoint atoi_chars (s : cstr) (n : Z) : Z :=
  match s with
  | c :: s' => if (48 <=? c) && (c <=? 57) then atoi_chars s' (i32 (n * 10 + c - 48)) else n
  | [] => n
  end.
Fixpoint kill_args (args : list cstr) : prog unit :=
  match args with
  | [] => PRet tt
  | a :: args' => sys (CKill (atoi_chars a 0)) ;;~ kill_args args'
  end.
Definition kill_main (argv : list cstr) : prog Z :=
  match tail argv with
  | [] => fprintf 2 (lit "usage: kill pid..." ++ NL) [] ;;~ PExit 1
  | args => kill_args args ;;~ PExit 0
  end.

Definition zombie_main : prog Z :=
  pid <~ syscall_rv CFork ;;
  (if 0 <? pid then sys (CSleep 5) ;;~ PRet tt else PRet tt) ;;~
  PExit 0.

(** ** ls *)

(** The name after the last slash, blank-padded to DIRSIZ. *)
Fixpoint last_name (path name : cstr) : cstr :=
  match path with
  | [] => name
  | c :: path' => if c =? 47 then last_name path' path' else last_name path' name
  end.
Definition fmtname (path : cstr) : cstr :=
  let p := last_name path path in
  if DIRSIZ <=? Z.of_nat (length p) then p else p ++ replicate (Z.to_nat DIRSIZ - length p) 32.

(** [struct stat] as the answer of [fstat]: type, inode number and size. *)
Definition fstat (fd : Z) : prog (Z * (Z * Z * Z)) :=
  r <~ sys (CFstat fd) ;;
  match got r with
  | [ty; ino; size] => PRet (rv r, (ty, ino, size))
  | _ => PRet (rv r, (0, 0, 0))
  end.
Definition stat (n : cstr) : prog (Z * (Z * Z * Z)) :=
  fd <~ syscall_rv (COpen n O_RDONLY) ;;
  if fd <? 0 then PRet (-1, (0, 0, 0))
  else r <~ fstat fd ;; sys (CClose fd) ;;~ PRet r.

(** The characters before the terminator. *)
Fixpoint cut (l : list Z) : cstr := match l with [] => [] | c :: l' => if c =? 0 then [] else c :: cut l' end.

Definition ls_entry (path : cstr) (de : list Z) : prog unit :=
  if rd16 de 0 =? 0 then PRet tt
  else
    let buf := path ++ [47] ++ cut (drop 2 de) in
    r <~ stat buf ;;
    let '(k, (ty, ino, size)) := r in
    if k <? 0 then printf (lit "ls: cannot stat %s" ++ NL) [str buf]
    else printf (lit "%s %d %d %d" ++ NL) [str (fmtname buf); AInt ty; AInt (i32 ino); AInt (i32 size)].

Definition ls (fuel : nat) (path : cstr) : prog unit :=
  fd <~ syscall_rv (COpen path O_RDONLY) ;;
  if fd <? 0 then fprintf 2 (lit "ls: cannot open %s" ++ NL) [str path]
  else
    r <~ fstat fd ;;
    let '(k, (ty, ino, size)) := r in
    if k <? 0 then fprintf 2 (lit "ls: cannot stat %s" ++ NL) [str path] ;;~ sys (CClose fd) ;;~ PRet tt
    else
      (if (ty =? T_DEVICE) || (ty =? T_FILE) then printf (lit "%s %d %d %l" ++ NL) [str (fmtname path); AInt ty; AInt (i32 ino); AU64 size]
       else if ty =? T_DIR then
         if 512 <? Z.of_nat (length path) + 1 + DIRSIZ + 1 then printf (lit "ls: path too long" ++ NL) []
         else ploop fuel (fun _ : unit =>
           r <~ sys (CRead fd 16) ;;
           if rv r =? 16 then ls_entry path (got r) ;;~ PRet (inl tt) else PRet (inr tt)) tt
       else PRet tt) ;;~
      sys (CClose fd) ;;~ PRet tt.

Fixpoint ls_args (fuel : nat) (args : list cstr) : prog unit :=
  match args with
  | [] => PRet tt
  | a :: args' => ls fuel a ;;~ ls_args fuel args'
  end.
Definition ls_main (fuel : nat) (argv : list cstr) : prog Z :=
  match tail argv with
  | [] => ls fuel [46] ;;~ PExit 0
  | args => ls_args fuel args ;;~ PExit 0
  end.

(** ** init *)

Definition CONSOLE : Z := 1.

(** [wait] until the shell has exited. *)
Definition init_wait (fuel : nat) (pid : Z) : prog unit :=
  ploop fuel (fun _ : unit =>
    wpid <~ syscall_rv CWait ;;
    if wpid =? pid then PRet (inr tt)
    else if wpid <? 0 then printf (lit "init: wait returned an error" ++ NL) [] ;;~ PExit 1
    else PRet (inl tt)) tt.

Definition init_main (fuel : nat) : prog Z :=
  fd <~ syscall_rv (COpen (lit "console") O_RDWR) ;;
  (if fd <? 0 then sys (CMknod (lit "console") CONSOLE 0) ;;~ sys (COpen (lit "console") O_RDWR) ;;~ PRet tt else PRet tt) ;;~
  sys (CDup 0) ;;~
  sys (CDup 0) ;;~
  ploop fuel (fun _ : unit =>
    printf (lit "init: starting sh" ++ NL) [] ;;~
    pid <~ syscall_rv CFork ;;
    if pid <? 0 then printf (lit "init: fork failed" ++ NL) [] ;;~ PExit 1
    else if pid =? 0 then
      sys (CExec (lit "sh") [lit "sh"]) ;;~
      printf (lit "init: exec sh failed" ++ NL) [] ;;~
      PExit 1
    else init_wait fuel pid ;;~ PRet (inl tt)) tt.

(** ** What the programs print *)

Lemma formatted_counts l w c name : 0 <= l < 2 ^ 31 -> 0 <= w < 2 ^ 31 -> 0 <= c < 2 ^ 31 ->
  formatted (lit "%d %d %d %s" ++ NL) [AInt l; AInt w; AInt c; str name] = Some (dec l ++ [32] ++ dec w ++ [32] ++ dec c ++ [32] ++ name ++ [10]).
Proof.
  intros H1 H2 H3. unfold formatted, ULib.fprintf, vprintf. change (lit "%d %d %d %s" ++ NL) with (37 :: 100 :: [32] ++ 37 :: 100 :: [32] ++ 37 :: 100 :: [32] ++ 37 :: 115 :: [10] ++ []).
  rewrite fmt_dec by done. rewrite fmt_plain by set_solver. rewrite fmt_dec by done. rewrite fmt_plain by set_solver. rewrite fmt_dec by done. rewrite fmt_plain by set_solver.
  rewrite fmt_str. rewrite fmt_plain by set_solver. rewrite fmt_end, app_nil_l, <- !fmap_app. by rewrite snd_pairs, <- !app_assoc.
Qed.

(** What [grep] has printed stays printed. *)
Lemma grep_lines_extends fuel pattern : forall p out, exists e, fst (grep_lines fuel pattern p out) = out ++ e.
Proof.
  induction fuel as [|fuel IH]; intros p out; cbn [grep_lines]; [exists []; by rewrite app_nil_r|]. destruct (strchr_nl p) as [[line p']|]; [|exists []; by rewrite app_nil_r].
  destruct (match_ pattern line); [|apply IH]. destruct (IH p' (out ++ line ++ [Grep.NL])) as [e ->]. exists ((line ++ [Grep.NL]) ++ e). by rewrite !app_assoc.
Qed.
Lemma grep_extends amount fuel pattern : forall kept inp out r, grep amount fuel pattern kept inp out = Some r -> exists o, r = out ++ o.
Proof.
  induction fuel as [|fuel IH]; intros kept inp out r; cbn [grep]; [done|]. case_if; [|intros [= <-]; exists []; by rewrite app_nil_r].
  pose proof (grep_lines_extends (S (length (kept ++ take (Z.to_nat (amount (BUF - Z.of_nat (length kept) - 1) inp)) inp))) pattern
    (kept ++ take (Z.to_nat (amount (BUF - Z.of_nat (length kept) - 1) inp)) inp) out) as [e He].
  destruct (grep_lines _ pattern _ out) as [out' p]. cbn [fst] in He. subst out'.
  intros [o ->]%IH. exists (e ++ o). by rewrite app_assoc.
Qed.

Section Programs.
  Context (amount : Z -> list Z -> Z) (Hamount : good_amount amount).

Notation runs := (run (streams amount)).

(** A [read] of a descriptor with [l] to read. *)
Lemma run_read {B} fd n l (k : answer -> prog B) s : w_in s !! fd = Some l ->
  (n <= 0 \/ l = [] -> runs (r <~ sys (CRead fd n) ;; k r) s = runs (k (mkAns 0 [])) s)
  /\ (0 < n -> l <> [] -> exists l1 l2, l = l1 ++ l2 /\ l1 <> [] /\ Z.of_nat (length l1) = amount n l
       /\ runs (r <~ sys (CRead fd n) ;; k r) s = runs (k (mkAns (Z.of_nat (length l1)) l1)) (with_in fd l2 s)).
Proof.
  intros Hl. destruct Hamount as [HA0 HA1]. assert (w_in s !!! fd = l) as Hl' by (by rewrite lookup_total_alt, Hl). cbn. rewrite Hl'. split.
  - intros E. rewrite HA0 by done. cbn. by rewrite drop_0, with_in_same.
  - intros Hn E. specialize (HA1 n l Hn E). exists (take (Z.to_nat (amount n l)) l), (drop (Z.to_nat (amount n l)) l). rewrite length_take.
    split; [by rewrite take_drop|]. split; [|split; [lia|]].
    + intros E0. apply (f_equal length) in E0. rewrite length_take in E0. cbn in E0. lia.
    + by rewrite Nat.min_l, Z2Nat.id by lia.
Qed.

(** A program has printed [l], and opened no file. *)
Definition prints (l : list Z) (s s' : world) : Prop := w_out s' = w_out s ++ (pair 1 <$> l) /\ w_files s' = w_files s /\ w_next s' = w_next s.
Lemma prints_wrote l fd r s : prints l s (wrote 1 l (with_in fd r s)).
Proof. done. Qed.

(** *** cat *)

Lemma run_cat fuel fd l s : w_in s !! fd = Some l -> (length l < fuel)%nat -> runs (cat fuel fd) s = (ORet tt, wrote 1 l (with_in fd [] s)).
Proof.
  revert l s. induction fuel as [|fuel IH]; intros l s Hl Hf; [lia|]. unfold cat. cbn [ploop]. rewrite run_bind.
  match goal with |- context [ pbind (sys _) ?k ] => destruct (run_read fd 512 l k s Hl) as [H0 H1] end.
  destruct (decide (l = [])) as [->|Hne].
  - rewrite H0 by auto. cbn. by rewrite wrote_nil, with_in_same.
  - destruct (H1 ltac:(lia) Hne) as (l1 & l2 & -> & Hn1 & _ & ->). clear H0 H1. cbn [rv got]. assert (0 < Z.of_nat (length l1)) as Hpos by (destruct l1; [done | cbn; lia]).
    rewrite (proj2 (Z.ltb_lt _ _) Hpos). cbn. rewrite Z.eqb_refl. cbn. change (ploop fuel _ tt) with (cat fuel fd).
    rewrite (IH l2); [|cbn; by rewrite lookup_insert_eq | rewrite length_app in Hf; lia]. by rewrite with_in_wrote, with_in_with, wrote_app.
Qed.

(** *** wc *)

(** What [wc] counts: newlines, and places where a word starts. *)
Definition line_count (l : list Z) : Z := Z.of_nat (length (filter (fun c => c = 10) l)).
Definition starts (l : list Z) (i : nat) : bool :=
  match l !! i with
  | Some b => negb (blank b) && match i with O => true | S j => match l !! j with Some b' => blank b' | None => true end end
  | None => false
  end.
Definition word_count (l : list Z) : Z := Z.of_nat (length (List.filter (starts l) (seq 0 (length l)))).
Definition in_word (l : list Z) : bool := match last l with Some b => negb (blank b) | None => false end.

Lemma starts_app l r i : (i < length l)%nat -> starts (l ++ r) i = starts l i.
Proof. intros H. unfold starts. rewrite lookup_app_l by done. destruct i as [|j]; [done|]. by rewrite (lookup_app_l l r j) by lia. Qed.
Lemma starts_last l b : starts (l ++ [b]) (length l) = negb (blank b) && negb (in_word l).
Proof.
  unfold starts. rewrite lookup_app_r, Nat.sub_diag by lia. cbn [lookup list_lookup]. f_equal. unfold in_word. rewrite last_lookup.
  destruct (length l) as [|j] eqn:E; [by destruct l|]. rewrite lookup_app_l by lia. cbn [Nat.pred].
  destruct (lookup_lt_is_Some_2 l j) as [b' ->]; [lia|]. by rewrite negb_involutive.
Qed.
Lemma word_count_snoc l b : word_count (l ++ [b]) = word_count l + (if negb (blank b) && negb (in_word l) then 1 else 0).
Proof.
  unfold word_count. rewrite length_app. cbn [length]. rewrite Nat.add_1_r, seq_S, List.filter_app, length_app, Nat2Z.inj_add. f_equal.
  - do 2 f_equal. apply List.filter_ext_in. intros i Hi%List.in_seq. apply starts_app. lia.
  - cbn. rewrite starts_last. by destruct (_ && _).
Qed.
Lemma word_count_le l : 0 <= word_count l <= Z.of_nat (length l).
Proof. unfold word_count. pose proof (List.filter_length_le (starts l) (seq 0 (length l))) as H. rewrite length_seq in H. lia. Qed.
Lemma line_count_le l : 0 <= line_count l <= Z.of_nat (length l).
Proof. unfold line_count. pose proof (length_filter (fun c => c = 10) l). lia. Qed.

Lemma count_bytes l : Z.of_nat (length l) < 2 ^ 31 ->
  foldl count_byte (mkCounts 0 0 0 false) l = mkCounts (line_count l) (word_count l) (Z.of_nat (length l)) (in_word l).
Proof.
  induction l as [|b l IH] using rev_ind; intros Hl; [done|]. rewrite length_app in Hl. cbn [length] in Hl. rewrite foldl_app, IH by lia. cbn [foldl].
  pose proof (word_count_le l). pose proof (line_count_le l). unfold count_byte. cbn [n_l n_w n_c inword]. rewrite word_count_snoc.
  assert (line_count (l ++ [b]) = if b =? 10 then i32 (line_count l + 1) else line_count l) as ->.
  { unfold line_count in *. rewrite filter_app, length_app, filter_cons. cbn [filter list_filter]. destruct (Z.eqb_spec b 10) as [->|]; [rewrite decide_True by done | rewrite decide_False by done]; cbn [length]; [rewrite i32_small; lia | lia]. }
  rewrite !i32_small by lia. rewrite length_app. cbn [length]. assert (in_word (l ++ [b]) = negb (blank b)) as -> by (unfold in_word; by rewrite last_snoc).
  replace (Z.of_nat (length l + 1)) with (Z.of_nat (length l) + 1) by lia.
  destruct (blank b), (in_word l); cbn [negb andb]; f_equal; lia.
Qed.

Lemma run_wc fuel fd name l s : w_in s !! fd = Some l -> (length l < fuel)%nat -> Z.of_nat (length l) < 2 ^ 31 ->
  runs (wc fuel fd name) s = (ORet tt, wrote 1 (dec (line_count l) ++ [32] ++ dec (word_count l) ++ [32] ++ dec (Z.of_nat (length l)) ++ [32] ++ name ++ [10]) (with_in fd [] s)).
Proof.
  intros Hl Hf Hb. unfold wc. rewrite run_bind.
  match goal with |- context [ ploop fuel ?b _ ] => set (body := b) end.
  assert (forall fuel pre l s, w_in s !! fd = Some l -> (length l < fuel)%nat ->
    runs (ploop fuel body (foldl count_byte (mkCounts 0 0 0 false) pre)) s = (ORet (foldl count_byte (mkCounts 0 0 0 false) (pre ++ l)), with_in fd [] s)) as Hloop.
  { clear s l Hl Hf Hb fuel. induction fuel as [|fuel IH]; intros pre l s Hl Hf; [lia|]. cbn [ploop]. rewrite run_bind. unfold body at 1.
    match goal with |- context [ pbind (sys _) ?k ] => destruct (run_read fd 512 l k s Hl) as [H0 H1] end.
    destruct (decide (l = [])) as [->|Hne].
    - rewrite H0 by auto. cbn. by rewrite app_nil_r, with_in_same.
    - destruct (H1 ltac:(lia) Hne) as (l1 & l2 & -> & Hn1 & _ & ->). clear H0 H1. cbn [rv got]. assert (0 < Z.of_nat (length l1)) as Hpos by (destruct l1; [done | cbn; lia]).
      rewrite (proj2 (Z.ltb_lt _ _) Hpos). cbn [run]. rewrite <- foldl_app.
      rewrite (IH (pre ++ l1) l2); [|cbn; by rewrite lookup_insert_eq | rewrite length_app in Hf; lia]. by rewrite <- app_assoc, with_in_with. }
  specialize (Hloop fuel [] l s Hl Hf). cbn [foldl app] in Hloop. rewrite Hloop. rewrite count_bytes by done. cbn [n_l n_w n_c].
  pose proof (word_count_le l). pose proof (line_count_le l). apply run_fprintf. apply formatted_counts; lia.
Qed.

(** *** grep *)

Lemma run_grep_print pattern fuel : forall p s, 0 ∉ p -> (length p < fuel)%nat ->
  exists e rest, runs (grep_print fuel pattern p) s = (ORet rest, wrote 1 e s) /\ forall out, grep_lines fuel pattern p out = (out ++ e, rest).
Proof.
  induction fuel as [|fuel IH]; intros p s H0 Hf; [lia|]. cbn [grep_lines grep_print]. pose proof (strchr_nl_spec p H0) as Hs. destruct (strchr_nl p) as [[line p']|].
  - destruct Hs as [-> _]. rewrite length_app in Hf. cbn [length] in Hf. set (e0 := if match_ pattern line then line ++ [10] else []).
    destruct (IH p' (wrote 1 e0 s)) as (e & rest & E & Hg); [set_solver | lia|]. exists (e0 ++ e), rest. split.
    + rewrite run_bind. unfold e0 in *. destruct (match_ pattern line); cbn; rewrite ?wrote_nil in *; by rewrite E, ?wrote_app.
    + intros out. rewrite Hg. unfold e0. destruct (match_ pattern line); by rewrite <- ?app_assoc.
  - exists [], p. cbn. rewrite wrote_nil. split; [done|]. intros out. by rewrite app_nil_r.
Qed.

Lemma run_grep fuel pattern fd l s : w_in s !! fd = Some l -> (length l < fuel)%nat -> 0 ∉ l -> Forall (fun l => Z.of_nat (length l) + 1 < BUF) (lines l) ->
  exists s', runs (grep_fd fuel pattern fd) s = (ORet tt, s') /\ prints (matching pattern l) s s'.
Proof.
  intros Hl Hf H0 Hlines. pose proof (grep_spec amount (proj2 Hamount) ltac:(intros n inp Hn; rewrite (proj1 Hamount) by done; lia) pattern fuel [] l [] H0
    (not_elem_of_nil _) ltac:(done) Hlines Hf) as Hg. cbn [app] in Hg. unfold grep_fd. match goal with |- context [ ploop fuel ?b _ ] => set (body := b) end.
  assert (forall fuel kept l out o s, w_in s !! fd = Some l -> 0 ∉ kept ++ l -> grep amount fuel pattern kept l out = Some (out ++ o) ->
    exists s', runs (ploop fuel body kept) s = (ORet tt, s') /\ prints o s s') as Hloop; [|by apply (Hloop fuel [] l [])].
  clear s l Hl Hf H0 Hlines Hg fuel. induction fuel as [|fuel IH]; intros kept l out o s Hl H0 Hg; [done|]. cbn [grep ploop] in *. rewrite run_bind. unfold body at 1.
  match goal with |- context [ pbind (sys _) ?k ] => destruct (run_read fd (BUF - Z.of_nat (length kept) - 1) l k s Hl) as [R0 R1] end.
  destruct (decide (BUF - Z.of_nat (length kept) - 1 <= 0 \/ l = [])) as [Hz|Hz].
  - rewrite (proj1 Hamount) in Hg by done. cbn in Hg. injection Hg as Ho. rewrite <- (app_nil_r out) in Ho at 1. apply app_inv_head in Ho as <-.
    rewrite R0 by done. exists s. split; [done|]. split_and!; [by rewrite app_nil_r | done..].
  - assert (0 < BUF - Z.of_nat (length kept) - 1 /\ l <> []) as [Hpos Hne] by (split; [lia | tauto]). destruct (R1 Hpos Hne) as (l1 & l2 & -> & Hn1 & Hlen & ->). clear R0 R1.
    rewrite <- Hlen in Hg. rewrite Nat2Z.id, take_app_length, drop_app_length in Hg. assert (0 < Z.of_nat (length l1)) as Hp1 by (destruct l1; [done | cbn; lia]).
    rewrite (proj2 (Z.ltb_lt _ _) Hp1) in Hg. cbn [rv got]. rewrite (proj2 (Z.ltb_lt _ _) Hp1). rewrite run_bind.
    destruct (run_grep_print pattern (S (length (kept ++ l1))) (kept ++ l1) (with_in fd l2 s)) as (e & rest & -> & He); [set_solver | lia|].
    rewrite He in Hg. cbn [run]. destruct (grep_lines_spec pattern (S (length (kept ++ l1))) (kept ++ l1) out) as (e' & rest' & dn & Eg & Er & _); [set_solver | lia|].
    rewrite He in Eg. injection Eg as _ ->. destruct (grep_extends _ _ _ _ _ _ _ Hg) as (o' & Ho). rewrite <- app_assoc in Ho. apply app_inv_head in Ho. subst o.
    rewrite app_assoc in Hg. destruct (IH rest' l2 (out ++ e) o' (wrote 1 e (with_in fd l2 s))) as (s' & -> & P1 & P2 & P3).
    + cbn. by rewrite lookup_insert_eq.
    + rewrite app_assoc, Er in H0. set_solver.
    + done.
    + exists s'. split; [done|]. split_and!; [|done..]. rewrite P1. cbn. by rewrite fmap_app, app_assoc.
Qed.

(** *** Files one after the other *)

(** The exit status and the output of a program that prints [f a l] for each
    file [a] with contents [l], or [msg a] on [mfd] when there is none. *)
Fixpoint files_out (files : cstr -> option (list Z)) (f : cstr -> list Z -> list Z) (mfd : Z) (msg : cstr -> list Z) (args : list cstr) : Z * list (Z * Z) :=
  match args with
  | [] => (0, [])
  | a :: args' =>
      match files a with
      | Some l => let r := files_out files f mfd msg args' in (fst r, (pair 1 <$> f a l) ++ snd r)
      | None => (1, pair mfd <$> msg a)
      end
  end.

Lemma run_each files f mfd msg fail body args :
  (forall fd a l s, w_in s !! fd = Some l -> files a = Some l -> exists s', runs (body fd a) s = (ORet tt, s') /\ prints (f a l) s s') ->
  (forall a s, runs (fail a) s = (OExit 1, wrote mfd (msg a) s)) -> forall s, w_files s = files -> 0 <= w_next s ->
  exists s', runs (each_file fail body args) s = (OExit (fst (files_out files f mfd msg args)), s')
    /\ w_out s' = w_out s ++ snd (files_out files f mfd msg args).
Proof.
  intros Hb Hfail. induction args as [|a args IH]; intros s Hs Hn; cbn [each_file files_out].
  - exists s. by rewrite app_nil_r.
  - rewrite run_bind. unfold syscall_rv. rewrite run_bind, run_sys. cbn [streams]. rewrite Hs. destruct (files a) as [l|] eqn:Ea.
    + cbn [run rv]. rewrite (proj2 (Z.ltb_ge _ 0)) by lia. set (s1 := mkWorld _ _ _ _). rewrite run_bind.
      destruct (Hb (w_next s) a l s1) as (s2 & -> & P1 & P2 & P3); [unfold s1; cbn; by rewrite lookup_insert_eq | done|]. rewrite run_bind, run_sys. cbn [streams].
      destruct (IH s2) as (s' & E & Ho); [by rewrite P2 | rewrite P3; cbn; lia|]. exists s'. split; [exact E|]. rewrite Ho, P1. cbn. by rewrite <- app_assoc.
    + cbn [run rv]. change (-1 <? 0) with true. cbn iota. rewrite Hfail. by eexists.
Qed.

(** *** The programs *)

(** The program exits with the status and has printed the bytes in this order. *)
Definition answers (p : prog Z) (s : world) (r : Z * list (Z * Z)) : Prop := exists s', runs p s = (OExit (fst r), s') /\ w_out s' = w_out s ++ snd r.

(** Text that the programs can handle: it fits the fuel and the counters, has no
    terminators, and its lines fit the buffer of grep. *)
Definition text_ok (fuel : nat) (l : list Z) : Prop :=
  (length l < fuel)%nat /\ Z.of_nat (length l) < 2 ^ 31 /\ 0 ∉ l /\ Forall (fun l => Z.of_nat (length l) + 1 < BUF) (lines l).

Definition wc_text (name l : list Z) : list Z :=
  dec (line_count l) ++ [32] ++ dec (word_count l) ++ [32] ++ dec (Z.of_nat (length l)) ++ [32] ++ name ++ [10].

Lemma run_complaint fd (pre : string) a s : 37 ∉ lit pre ->
  runs (fprintf fd (lit pre ++ 37 :: 115 :: NL) [str a] ;;~ PExit (A := Z) 1) s = (OExit 1, wrote fd (lit pre ++ a ++ NL) s).
Proof. intros H. rewrite run_bind. erewrite run_fprintf by (apply formatted_s; [done | set_solver]). done. Qed.

Lemma exit_after (p : prog unit) l s s' : runs p s = (ORet tt, s') -> prints l s s' -> answers (p ;;~ PExit 0) s (0, pair 1 <$> l).
Proof. intros E (Ho & _). exists s'. rewrite run_bind, E. done. Qed.


End Programs.

(** Two files; the third one is missing. *)
Definition sample_world : world :=
  mkWorld {[0 := [97; 32; 98; 10]]} []
    (fun a => if bool_decide (a = [120]) then Some [97; 98; 32; 99; 10; 100; 10] else if bool_decide (a = [121]) then Some [10] else None) 3.
Definition three (n : Z) (l : list Z) : Z := Z.max 0 (Z.min 3 (Z.min n (Z.of_nat (length l)))).
Lemma three_good : good_amount three.
Proof.
  unfold three. split.
  - intros n l [Hn | ->]; cbn [length]; lia.
  - intros n l Hn Hl. destruct l; [done|]. cbn [length]. lia.
Qed.

