(* ===== verification/ShRun.v ===== *)
(** * Running commands (user/sh.c: runcmd, getcmd, main)

    The shell as a tree of system calls (UProg.v), over the commands of its
    parser (Sh.v), and a semantics of such trees in which processes have
    descriptor tables: [fork] goes on twice, in the child with the answer 0 and
    in the parent with a pid, and a new descriptor is the lowest free one.  The
    theorem says which programs the shell executes, and with which
    descriptors. *)

From Stdlib Require Import Ascii String.
From S2P Require Import Prelude KString Printf ULib Sh UProg.

Notation command := (cmd (list Z)) (only parsing).

(** [panic] of the shell. *)
Definition sh_panic {A} (s : cstr) : prog A := fprintf 2 (lit "%s" ++ NL) [str s] ;;~ PExit 1.

Definition fork1 : prog Z :=
  pid <~ syscall_rv CFork ;;
  if pid =? -1 then sh_panic (lit "fork") else PRet pid.

(** It does not return.  The commands of the parser are never null. *)
Fixpoint runcmd {A} (c : command) : prog A :=
  match c with
  | Exec argv =>
      match argv with
      | [] => PExit 1
      | a0 :: _ =>
          sys (CExec a0 argv) ;;~
          fprintf 2 (lit "exec %s failed" ++ NL) [str a0] ;;~
          PExit 0
      end
  | Redir c file mode fd =>
      sys (CClose fd) ;;~
      r <~ syscall_rv (COpen file mode) ;;
      if r <? 0 then fprintf 2 (lit "open %s failed" ++ NL) [str file] ;;~ PExit 1
      else runcmd c
  | List lcmd rcmd =>
      pid <~ fork1 ;;
      if pid =? 0 then runcmd lcmd
      else
        sys CWait ;;~
        runcmd rcmd
  | Pipe lcmd rcmd =>
      p <~ sys CPipe ;;
      if rv p <? 0 then sh_panic (lit "pipe")
      else
        match got p with
        | [p0; p1] =>
            pid <~ fork1 ;;
            if pid =? 0 then
              sys (CClose 1) ;;~
              sys (CDup p1) ;;~
              sys (CClose p0) ;;~
              sys (CClose p1) ;;~
              runcmd lcmd
            else
              pid <~ fork1 ;;
              if pid =? 0 then
                sys (CClose 0) ;;~
                sys (CDup p0) ;;~
                sys (CClose p0) ;;~
                sys (CClose p1) ;;~
                runcmd rcmd
              else
                sys (CClose p0) ;;~
                sys (CClose p1) ;;~
                sys CWait ;;~
                sys CWait ;;~
                PExit 0
        | _ => PFault
        end
  | Back c =>
      pid <~ fork1 ;;
      if pid =? 0 then runcmd c else PExit 0
  end.

(** [gets(buf, n + 1)]: at most [n] characters from standard input. *)
Fixpoint gets_prog (n : nat) : prog cstr :=
  match n with
  | O => PRet []
  | S n' =>
      r <~ sys (CRead 0 1) ;;
      if rv r <? 1 then PRet []
      else
        match got r with
        | [c] => if (c =? 10) || (c =? 13) then PRet [c] else l <~ gets_prog n' ;; PRet (c :: l)
        | _ => PFault
        end
  end.

(** The text before the terminator. *)
Fixpoint upto0 (l : list Z) : cstr := match l with [] => [] | c :: l' => if c =? 0 then [] else c :: upto0 l' end.

(** The line, or none at the end of the input; a first character that is the
    terminator counts as the end. *)
Definition getcmd (nbuf : nat) : prog (option cstr) :=
  sys (CWrite 2 (lit "$ ")) ;;~
  buf <~ gets_prog (nbuf - 1) ;;
  PRet (match upto0 buf with [] => None | l => Some l end).

(** [runcmd(parsecmd(buf))]; the parser's errors end the process.  A syntax error
    also prints the text that was left over. *)
Definition run_line {A} (l : cstr) : prog A :=
  match parsecmd word_text l with
  | Ret (c, _) => runcmd c
  | Panic msg => sh_panic (lit msg)
  | Fault _ => PFault
  | Diverge => PFuel
  end.

Definition O_RDWR : Z := 2.

(** Ensure that three file descriptors are open. *)
Definition open_three (fuel : nat) : prog unit :=
  ploop fuel (fun _ : unit =>
    fd <~ syscall_rv (COpen (lit "console") O_RDWR) ;;
    if fd <? 0 then PRet (inr tt)
    else if fd >=? 3 then sys (CClose fd) ;;~ PRet (inr tt)
    else PRet (inl tt)) tt.

(** One line, in the loop of [main]. *)
Definition do_line : prog (unit + unit) :=
  l <~ getcmd 100 ;;
  match l with
  | None => PRet (inr tt)
  | Some buf =>
      match buf with
      | 99 :: 100 :: 32 :: _ =>
          let buf := removelast buf in
          r <~ syscall_rv (CChdir (drop 3 buf)) ;;
          (if r <? 0 then fprintf 2 (lit "cannot cd %s" ++ NL) [str (drop 3 buf)] else PRet tt) ;;~
          PRet (inl tt)
      | _ =>
          pid <~ fork1 ;;
          if pid =? 0 then run_line buf
          else sys CWait ;;~ PRet (inl tt)
      end
  end.

Definition sh_main (fuel : nat) : prog Z :=
  open_three 4 ;;~
  ploop fuel (fun _ : unit => do_line) tt ;;~
  PExit 0.

(** ** Processes with descriptors *)

(** What a descriptor refers to. *)
Inductive obj := Console | OpenFile (path : cstr) (mode : Z) | PipeRead (id : nat) | PipeWrite (id : nat).

Definition fdtable : Type := list (option obj).

(** The lowest free descriptor. *)
Fixpoint lowest (t : fdtable) (i : Z) : Z :=
  match t with
  | [] => -1
  | None :: _ => i
  | Some _ :: t' => lowest t' (i + 1)
  end.
Definition set_fd (t : fdtable) (fd : Z) (o : option obj) : fdtable := <[Z.to_nat fd := o]> t.

(** What the processes share: the number of pipes made so far, and the input
    that waits at the console. *)
Record shared := mkShared { n_pipes : nat; input : list Z }.

(** What a process has of its own: its descriptors, and the changes of directory
    that it or an ancestor made. *)
Record own := mkOwn { fds : fdtable; cwd : list cstr }.
Definition with_fds (t : fdtable) (x : own) : own := mkOwn t (cwd x).

(** A program that was executed: its path, its arguments, and the descriptors
    and the directory it starts with. *)
Definition execution : Type := cstr * list cstr * own.

(** What a name refers to. *)
Definition opened (path : cstr) (mode : Z) : obj := if bool_decide (path = lit "console") then Console else OpenFile path mode.

Section Processes.
  (** Whether a path can be opened, executed and changed to in a directory. *)
  Context (can_open : list cstr -> cstr -> Z -> bool) (can_exec can_chdir : list cstr -> cstr -> bool).

(** The executions of a process and of its descendants. *)
Fixpoint execs {A} (p : prog A) (x : own) (s : shared) : list execution * shared :=
  match p with
  | PRet _ | PExit _ | PFault | PFuel => ([], s)
  | PCall c k =>
      let failed := execs (k (mkAns (-1) [])) x s in
      match c with
      | CFork =>
          let '(l1, s1) := execs (k (mkAns 0 [])) x s in
          let '(l2, s2) := execs (k (mkAns 1 [])) x s1 in
          (l1 ++ l2, s2)
      | CExec path argv => if can_exec (cwd x) path then ([(path, argv, x)], s) else failed
      | CClose fd => execs (k (mkAns 0 [])) (with_fds (set_fd (fds x) fd None) x) s
      | COpen path mode =>
          let fd := lowest (fds x) 0 in
          if negb (can_open (cwd x) path mode) || (fd <? 0) then failed
          else execs (k (mkAns fd [])) (with_fds (set_fd (fds x) fd (Some (opened path mode))) x) s
      | CDup fd =>
          let fd' := lowest (fds x) 0 in
          match fds x !! Z.to_nat fd with
          | Some (Some o) => if fd' <? 0 then failed else execs (k (mkAns fd' [])) (with_fds (set_fd (fds x) fd' (Some o)) x) s
          | _ => failed
          end
      | CPipe =>
          let r := lowest (fds x) 0 in
          let t1 := set_fd (fds x) r (Some (PipeRead (n_pipes s))) in
          let w := lowest t1 0 in
          if (r <? 0) || (w <? 0) then failed
          else execs (k (mkAns 0 [r; w])) (with_fds (set_fd t1 w (Some (PipeWrite (n_pipes s)))) x) (mkShared (S (n_pipes s)) (input s))
      | CRead fd n =>
          match fds x !! Z.to_nat fd with
          | Some (Some Console) =>
              let l := take (Z.to_nat n) (input s) in
              execs (k (mkAns (Z.of_nat (length l)) l)) x (mkShared (n_pipes s) (drop (Z.to_nat n) (input s)))
          | _ => failed
          end
      | CWrite _ l => execs (k (mkAns (Z.of_nat (length l)) [])) x s
      | CWait => execs (k (mkAns 1 [])) x s
      | CChdir path => if can_chdir (cwd x) path then execs (k (mkAns 0 [])) (mkOwn (fds x) (cwd x ++ [path])) s else failed
      | _ => failed
      end
  end.

(** Standard input, output and error, and nothing else. *)
Definition std (i o e : obj) (d : list cstr) : own := mkOwn (Some i :: Some o :: Some e :: replicate 13 None) d.

(** ** What a command means

    The executions of a command whose processes start with the descriptors
    [i], [o] and [e] in the directory [d]; [n] pipes have been made. *)
Fixpoint denote (d : list cstr) (c : command) (i o e : obj) (n : nat) : list execution * nat :=
  match c with
  | Exec argv => match argv with [] => ([], n) | a0 :: _ => (if can_exec d a0 then [(a0, argv, std i o e d)] else [], n) end
  | Redir c f m fd =>
      if can_open d f m then
        if fd =? 0 then denote d c (opened f m) o e n else denote d c i (opened f m) e n
      else ([], n)
  | List l r => let '(l1, n1) := denote d l i o e n in let '(l2, n2) := denote d r i o e n1 in (l1 ++ l2, n2)
  | Pipe l r =>
      let '(l1, n1) := denote d l i (PipeWrite n) e (S n) in
      let '(l2, n2) := denote d r (PipeRead n) o e n1 in
      (l1 ++ l2, n2)
  | Back c => denote d c i o e n
  end.

(** ** The shell does what the command means *)

Lemma execs_assoc {A B C} (p : prog A) (k : A -> prog B) (k' : B -> prog C) x s :
  execs (pbind (pbind p k) k') x s = execs (pbind p (fun a => pbind (k a) k')) x s.
Proof.
  revert x s. induction p as [a|n|c q IH| |]; intros x s; cbn [pbind]; try done.
  destruct c; cbn [execs]; rewrite ?IH; try done; [|repeat case_match; by rewrite ?IH..].
  destruct (execs _ x s) as [l1 s1]. by rewrite IH.
Qed.
Lemma execs_chars {A} fd l (k : prog A) x s : execs (put_chars fd l ;;~ k) x s = execs k x s.
Proof. induction l as [|c l IH]; [done|]. cbn. apply IH. Qed.
Lemma execs_complain {A} fd fmt ap n x s : execs (fprintf fd fmt ap ;;~ PExit (A := A) n) x s = ([], s).
Proof. unfold fprintf. destruct (formatted fmt ap); [apply execs_chars | done]. Qed.
Lemma execs_fork1 {A} (k : Z -> prog A) x s : execs (pid <~ fork1 ;; k pid) x s =
  let '(l1, s1) := execs (k 0) x s in let '(l2, s2) := execs (k 1) x s1 in (l1 ++ l2, s2).
Proof. done. Qed.
Lemma execs_wait {A} (k : prog A) x s : execs (sys CWait ;;~ k) x s = execs k x s.
Proof. done. Qed.

(** Programs that do not return. *)
Fixpoint noret {A} (p : prog A) : Prop :=
  match p with PRet _ => False | PCall _ k => forall r, noret (k r) | _ => True end.
Lemma noret_bind {A B} (p : prog A) (k : A -> prog B) : (forall a, noret (k a)) -> noret (pbind p k).
Proof. intros H. induction p; cbn; auto. Qed.
Lemma execs_noret {A B} (p : prog A) (k : A -> prog B) x s : noret p -> execs (pbind p k) x s = execs p x s.
Proof.
  revert x s. induction p as [a|n|c q IH| |]; intros x s Hn; cbn [pbind noret] in *; try done.
  destruct c; cbn [execs]; rewrite ?IH by done; try done; [|repeat case_match; by rewrite ?IH..].
  destruct (execs _ x s) as [l1 s1]. by rewrite IH.
Qed.
Lemma noret_runcmd {A} c : noret (runcmd (A := A) c).
Proof.
  induction c as [argv|c IH f m fd|l IHl r IHr|l IHl r IHr|c IH]; cbn [runcmd].
  - destruct argv; [done|]. repeat (apply noret_bind; intros ?). done.
  - do 2 (apply noret_bind; intros ?). case_match; [by apply noret_bind | done].
  - apply noret_bind; intros ?. case_match; [by apply noret_bind|]. repeat case_match; try done.
    apply noret_bind; intros ?. case_match; [by repeat (apply noret_bind; intros ?)|].
    apply noret_bind; intros ?. case_match; by repeat (apply noret_bind; intros ?).
  - apply noret_bind; intros ?. case_match; [done | by apply noret_bind].
  - apply noret_bind; intros ?. by case_match.
Qed.

(** The two ends of a pipe go to the two commands, and to nobody else. *)
Lemma execs_pipe {A} l r i o e d n inp : execs (runcmd (A := A) (Pipe l r)) (std i o e d) (mkShared n inp) =
  let '(l1, s1) := execs (runcmd (A := A) l) (std i (PipeWrite n) e d) (mkShared (S n) inp) in
  let '(l2, s2) := execs (runcmd (A := A) r) (std (PipeRead n) o e d) s1 in (l1 ++ l2, s2).
Proof.
  transitivity (let '(l1, s1) := execs (runcmd (A := A) l) (std i (PipeWrite n) e d) (mkShared (S n) inp) in
    let '(l2, s2) := (let '(l2, s2) := execs (runcmd (A := A) r) (std (PipeRead n) o e d) s1 in (l2 ++ [], s2)) in (l1 ++ l2, s2)); [reflexivity|].
  destruct (execs (runcmd (A := A) l) _ _) as [l1 s1]. destruct (execs (runcmd (A := A) r) _ _) as [l2 s2]. by rewrite app_nil_r.
Qed.

Lemma runcmd_denote {A} d c : wf_cmd c -> forall i o e n inp,
  execs (runcmd (A := A) c) (std i o e d) (mkShared n inp) = (fst (denote d c i o e n), mkShared (snd (denote d c i o e n)) inp).
Proof.
  unfold wf_cmd. induction c as [argv|c IH f m fd|l IHl r IHr|l IHl r IHr|c IH]; cbn [ok_cmd]; intros Hok i o e n inp; cbn [denote].
  - destruct argv as [|a0 argv]; [done|]. cbn. destruct (can_exec d a0); [done|]. by rewrite execs_complain.
  - destruct Hok as (Hc & _ & Hr). assert (fd = 0 \/ fd = 1) as [-> | ->] by (unfold wf_redir in Hr; naive_solver);
      cbn; destruct (can_open d f m); cbn; (apply (IH Hc) || by rewrite execs_complain).
  - destruct Hok as [Hl Hr]. rewrite (execs_pipe l r i o e d n inp), (IHl Hl).
    destruct (denote d l i (PipeWrite n) e (S n)) as [l1 n1]. cbn [fst snd]. rewrite (IHr Hr). by destruct (denote d r (PipeRead n) o e n1) as [l2 n2].
  - destruct Hok as [Hl Hr]. cbn [runcmd]. rewrite execs_fork1. change (0 =? 0) with true. change (1 =? 0) with false. cbn iota.
    rewrite (IHl Hl). destruct (denote d l i o e n) as [l1 n1]. cbn [fst snd]. rewrite execs_wait, (IHr Hr). by destruct (denote d r i o e n1).
  - cbn [runcmd]. rewrite execs_fork1. change (0 =? 0) with true. change (1 =? 0) with false. cbn iota. rewrite (IH Hok). cbn [execs]. by rewrite app_nil_r.
Qed.

(** ** Lines of input *)

(** What is typed on one line: a command, or a change of directory. *)
Inductive line := LRun (c : command) | LCd (path : cstr).

Definition line_text (l : line) : list Z := match l with LRun c => print_cmd c | LCd path => lit "cd " ++ path end.

(** A character that neither ends a line nor a string. *)
Definition linech (c : Z) : Prop := c <> 10 /\ c <> 13 /\ c <> 0.

(** Lines that fit the buffer; a command is not taken for a change of directory. *)
Definition wf_line (l : line) : Prop :=
  (length (line_text l) < 99)%nat /\
  match l with LRun c => wf_cmd c /\ take 3 (print_cmd c) <> lit "cd " | LCd path => Forall linech path end.

#[export] Instance wf_line_dec l : Decision (wf_line l).
Proof. unfold wf_line, linech. destruct l; apply _. Defined.

Definition typed (ls : list line) : list Z := mjoin ((fun l => line_text l ++ NL) <$> ls).

(** The executions of a session, and the number of pipes it made. *)
Fixpoint session (ls : list line) (d : list cstr) (n : nat) : list execution * nat :=
  match ls with
  | [] => ([], n)
  | LRun c :: ls' =>
      let '(l1, n1) := denote d c Console Console Console n in
      let '(l2, n2) := session ls' d n1 in (l1 ++ l2, n2)
  | LCd path :: ls' => session ls' (if can_chdir d path then d ++ [path] else d) n
  end.

Lemma wordch_linech c : wordch c = true /\ c <> 0 -> linech c.
Proof. intros [H ?]. unfold linech. split_and!; [intros -> | intros -> | done]; by vm_compute in H. Qed.
Lemma word_linech w : wf_word w -> Forall linech w.
Proof. intros [_ H]. by eapply Forall_impl; [exact H | apply wordch_linech]. Qed.
Lemma pr_linech c : wf_cmd c -> Forall linech (p_line (pr c)) /\ Forall linech (p_back (pr c)) /\ Forall linech (p_pipe (pr c)) /\ Forall linech (p_exec (pr c)).
Proof.
  assert (linech SP /\ linech 124 /\ linech 40 /\ linech 41 /\ linech 59 /\ linech 38 /\ linech 60 /\ linech 62) as HS by (unfold linech, SP; lia).
  unfold wf_cmd. induction c as [argv|c IH f m fd|l IHl r IHr|l IHl r IHr|c IH]; cbn [ok_cmd pr p_line p_back p_pipe p_exec app].
  - intros [Hw _]. assert (Forall linech (pr_words argv)); [|done]. unfold pr_words. apply Forall_join, Forall_fmap. eapply Forall_impl; [exact Hw|].
    intros w Hw'. cbn. rewrite Forall_app, Forall_singleton. split; [by apply word_linech | tauto].
  - intros (Hc & Hf & Hr). destruct (IH Hc) as (_ & _ & _ & He). assert (Forall linech (p_exec (pr c) ++ pr_redir f m fd)); [|done].
    unfold pr_redir, redir_op. rewrite !Forall_app, Forall_singleton. split_and!; [done | | by apply word_linech | tauto]. repeat case_match; rewrite ?Forall_cons, ?Forall_nil; tauto.
  - intros [Hl Hr]. specialize (IHl Hl). specialize (IHr Hr). rewrite ?Forall_cons, ?Forall_app, ?Forall_cons, ?Forall_app, ?Forall_cons, ?Forall_nil. tauto.
  - intros [Hl Hr]. specialize (IHl Hl). specialize (IHr Hr). rewrite ?Forall_cons, ?Forall_app, ?Forall_cons, ?Forall_app, ?Forall_cons, ?Forall_nil. tauto.
  - intros Hc. specialize (IH Hc). rewrite ?Forall_cons, ?Forall_app, ?Forall_cons, ?Forall_app, ?Forall_cons, ?Forall_nil. tauto.
Qed.
Lemma line_linech l : wf_line l -> Forall linech (line_text l).
Proof.
  intros [_ H]. destruct l as [c|path]; cbn [line_text]; [exact (proj1 (pr_linech c (proj1 H)))|]. apply Forall_app. split; [|done].
  change (lit "cd ") with [99; 100; 32]. unfold linech. rewrite !Forall_cons, Forall_nil. lia.
Qed.

(** [gets] returns the line with its newline. *)
Lemma execs_gets {A} l : forall m (k : cstr -> prog A) d n rest, Forall linech l -> (length l < m)%nat ->
  execs (buf <~ gets_prog m ;; k buf) (std Console Console Console d) (mkShared n (l ++ 10 :: rest)) =
  execs (k (l ++ NL)) (std Console Console Console d) (mkShared n rest).
Proof.
  induction l as [|c l IH]; intros m k d n rest Hl Hm; (destruct m as [|m]; [cbn in Hm; lia|]); cbn [gets_prog app].
  - by rewrite execs_assoc.
  - apply Forall_cons in Hl as [[H1 [H2 _]] Hl]. rewrite execs_assoc. cbn.
    change (Z.to_nat 0) with 0%nat. change (Z.to_nat 1) with 1%nat. cbn. rewrite take_0, drop_0. cbn [length]. change (Z.of_nat 1 <? 1) with false. cbn iota.
    rewrite (proj2 (Z.eqb_neq c 10) H1), (proj2 (Z.eqb_neq c 13) H2). cbn [orb]. rewrite execs_assoc. cbn [pbind].
    rewrite (IH m (fun b => k (c :: b))) by (done || (cbn in Hm; lia)). done.
Qed.
Lemma upto0_line l : Forall linech l -> upto0 (l ++ NL) = l ++ NL.
Proof.
  induction l as [|c l IH]; [done|]. intros [[_ [_ H]] Hl]%Forall_cons. cbn. rewrite (proj2 (Z.eqb_neq c 0) H). by rewrite IH.
Qed.
Lemma execs_getcmd {A} l (k : option cstr -> prog A) d n rest : wf_line l ->
  execs (b <~ getcmd 100 ;; k b) (std Console Console Console d) (mkShared n (line_text l ++ 10 :: rest)) =
  execs (k (Some (line_text l ++ NL))) (std Console Console Console d) (mkShared n rest).
Proof.
  intros Hl. pose proof (line_linech l Hl) as Hc. destruct Hl as [Hlen _]. unfold getcmd. rewrite execs_assoc. cbn [pbind sys].
  cbn [execs]. rewrite execs_assoc. cbn [pbind]. rewrite execs_gets by (done || lia). rewrite upto0_line by done.
  destruct (line_text l ++ NL) eqn:E; [by destruct (line_text l)|]. done.
Qed.
Lemma execs_eof {A} (k : option cstr -> prog A) d n :
  execs (b <~ getcmd 100 ;; k b) (std Console Console Console d) (mkShared n []) = execs (k None) (std Console Console Console d) (mkShared n []).
Proof. done. Qed.

(** One line of the loop. *)
Lemma execs_run {A} c (k : unit + unit -> prog A) d n rest : wf_line (LRun c) ->
  execs (r <~ do_line ;; k r) (std Console Console Console d) (mkShared n (print_cmd c ++ 10 :: rest)) =
  let '(l1, n1) := denote d c Console Console Console n in
  let '(l2, s2) := execs (k (inl tt)) (std Console Console Console d) (mkShared n1 rest) in (l1 ++ l2, s2).
Proof.
  intros Hl. unfold do_line. rewrite execs_assoc. rewrite (execs_getcmd (LRun c)) by done. destruct Hl as [_ [Hc Hcd]]. cbn [line_text].
  transitivity (execs (pid <~ fork1 ;; pbind (if pid =? 0 then run_line (print_cmd c ++ NL) else sys CWait ;;~ PRet (inl tt)) k)
    (std Console Console Console d) (mkShared n rest)).
  { rewrite <- execs_assoc. f_equal. f_equal. change (lit "cd ") with [99; 100; 32] in Hcd.
    destruct (print_cmd c) as [|c1 [|c2 [|c3 l]]]; cbn [app] in *; repeat (case_match; try done). }
  rewrite execs_fork1. change (0 =? 0) with true. change (1 =? 0) with false. cbn iota. unfold run_line at 1.
  rewrite parsecmd_line by done. rewrite execs_noret by apply noret_runcmd. rewrite runcmd_denote by done.
  by destruct (denote d c Console Console Console n).
Qed.

Lemma execs_cd {A} path (k : unit + unit -> prog A) d n rest : wf_line (LCd path) ->
  execs (r <~ do_line ;; k r) (std Console Console Console d) (mkShared n (lit "cd " ++ path ++ 10 :: rest)) =
  execs (k (inl tt)) (std Console Console Console (if can_chdir d path then d ++ [path] else d)) (mkShared n rest).
Proof.
  intros Hl. unfold do_line. rewrite execs_assoc. rewrite app_assoc, (execs_getcmd (LCd path)) by done.
  cbn [line_text]. change (lit "cd ") with [99; 100; 32]. cbn [app].
  replace (removelast (99 :: 100 :: 32 :: path ++ NL)) with (99 :: 100 :: 32 :: path) by (symmetry; apply (removelast_last (99 :: 100 :: 32 :: path))).
  cbn [drop]. rewrite drop_0, execs_assoc. unfold syscall_rv. cbn [sys pbind execs]. change (cwd (std Console Console Console d)) with d.
  destruct (can_chdir d path); [reflexivity|]. cbn [pbind]. rewrite execs_assoc. change (rv (mkAns (-1) []) <? 0) with true. cbn iota.
  unfold fprintf. replace (formatted (lit "cannot cd %s" ++ NL) [str path]) with (Some (lit "cannot cd " ++ path ++ NL)); [apply execs_chars|].
  symmetry. apply (formatted_s (lit "cannot cd ") NL path); vm_compute; set_solver.
Qed.

Lemma execs_session ls : Forall wf_line ls -> forall fuel d n, (length ls < fuel)%nat ->
  execs (ploop fuel (fun _ : unit => do_line) tt ;;~ PExit (A := Z) 0) (std Console Console Console d) (mkShared n (typed ls)) =
  (fst (session ls d n), mkShared (snd (session ls d n)) []).
Proof.
  induction ls as [|l ls IH]; intros Hls fuel d n Hf; (destruct fuel as [|fuel]; [cbn in Hf; lia|]); cbn [ploop].
  - by rewrite execs_assoc.
  - apply Forall_cons in Hls as [Hl Hls]. cbn in Hf. specialize (IH Hls fuel). rewrite execs_assoc. unfold typed. cbn [fmap list_fmap mjoin list_join].
    rewrite <- !app_assoc. destruct l as [c|path]; cbn [line_text].
    + cbn [NL app]. change (mjoin _) with (typed ls). rewrite execs_run by done. cbn [session]. destruct (denote d c Console Console Console n) as [l1 n1].
      rewrite IH by lia. by destruct (session ls d n1).
    + rewrite <- app_assoc. cbn [NL app]. change (mjoin _) with (typed ls). rewrite execs_cd by done. cbn [session]. apply IH. lia.
Qed.


End Processes.

(** The lines [cat < in | (wc ; echo x) > out &], [cd bin] and [ls]. *)
Definition sample_session : list line :=
  [LRun (Back (Pipe (Redir (Exec [lit "cat"]) (lit "in") O_RDONLY 0)
                    (Redir (List (Exec [lit "wc"]) (Exec [lit "echo"; lit "x"])) (lit "out") (Z.lor (Z.lor O_WRONLY O_CREATE) O_TRUNC) 1)));
   LCd (lit "bin"); LRun (Exec [lit "ls"])].

