(* ===== verification/Mkfs.v ===== *)
(** * Making a disk image (mkfs/mkfs.c)

    The image is a file of sectors of BSIZE bytes; a sector that was skipped
    holds zeroes.  The structures on the disk are those of Fs.v, and the host is
    little-endian.  A failed assertion and [die] are panics.  [host] gives, for
    a path, the pieces in which successive calls of [read] deliver the file, at
    most BSIZE bytes each, or nothing when it cannot be opened; [opens] says
    whether the image can be created. *)

From S2P Require Import Prelude KString Bytes Bio Log Fs.

Definition NINODES : Z := 200.
Definition FSSIZE : Z := 2000.

Definition nbitmap : Z := FSSIZE / (BSIZE * 8) + 1.
Definition ninodeblocks : Z := NINODES / IPB + 1.
Definition nlogblocks : Z := LOGSIZE.

Record mkst := mkMk {
  img : Z -> block;
  sectors : Z;          (* the length of the file *)
  freeinode : Z;
  freeblock : Z;
  msb : superblock
}.

Definition zeroes : block := replicate (Z.to_nat BSIZE) 0.

(** The values, on a little-endian host, of the bytes that the conversions store. *)
Definition xshort (x : Z) : Z := u8 x + 2 ^ 8 * u8 (Z.shiftr x 8).
Definition xint (x : Z) : Z := u8 x + 2 ^ 8 * u8 (Z.shiftr x 8) + 2 ^ 16 * u8 (Z.shiftr x 16) + 2 ^ 24 * u8 (Z.shiftr x 24).

Definition wsect (sec : Z) (buf : block) : M mkst unit :=
  let at_ := u32 (sec * BSIZE) / BSIZE in
  modify (fun s => mkMk (fun x => if x =? at_ then buf else img s x) (Z.max (sectors s) (at_ + 1)) (freeinode s) (freeblock s) (msb s)).

Definition rsect (sec : Z) : M mkst block :=
  let at_ := u32 (sec * BSIZE) / BSIZE in
  s <- get ;;
  if at_ <? sectors s then ret (img s at_) else panic "read".

Definition winode (inum : Z) (ip : dinode) : M mkst unit :=
  q <- gets msb ;;
  let bn := IBLOCK inum q in
  buf <- rsect bn ;;
  wsect bn (wr_dinode buf (inum mod IPB) ip).

Definition rinode (inum : Z) : M mkst dinode :=
  q <- gets msb ;;
  let bn := IBLOCK inum q in
  buf <- rsect bn ;;
  ret (rd_dinode buf (inum mod IPB)).

Definition ialloc (type : Z) : M mkst Z :=
  inum <- gets freeinode ;;
  modify (fun s => mkMk (img s) (sectors s) (u32 (freeinode s + 1)) (freeblock s) (msb s)) ;;;
  winode inum (mkDinode (i16 (xshort type)) 0 0 (i16 (xshort 1)) (xint 0) (replicate 13 0)) ;;;
  ret inum.

Definition balloc (used : Z) : M mkst unit :=
  if negb (used <? BSIZE * 8) then panic "assert"
  else
    q <- gets msb ;;
    wsect (bmapstart q) (foldl set_bit zeroes (seqZ 0 used)).

(** [freeblock++] *)
Definition new_block : M mkst Z :=
  b <- gets freeblock ;;
  modify (fun s => mkMk (img s) (sectors s) (freeinode s) (u32 (freeblock s + 1)) (msb s)) ;;;
  ret b.

(** Address [i] of an inode, which gets a block when it has none. *)
Definition need_addr (din : dinode) (i : Z) : M mkst dinode :=
  if xint (addrs din !!! Z.to_nat i) =? 0 then
    b <- new_block ;; ret (set_addrs (<[Z.to_nat i := xint b]> (addrs din)) din)
  else ret din.

(** The sector of block [fbn] of a file. *)
Definition file_sector (din : dinode) (fbn : Z) : M mkst (dinode * Z) :=
  if fbn <? NDIRECT then
    din <- need_addr din fbn ;;
    ret (din, xint (addrs din !!! Z.to_nat fbn))
  else
    din <- need_addr din NDIRECT ;;
    let a := xint (addrs din !!! Z.to_nat NDIRECT) in
    indirect <- rsect a ;;
    indirect <- (if rd32 indirect (4 * (fbn - NDIRECT)) =? 0 then
                   b <- new_block ;;
                   let indirect := wr32 indirect (4 * (fbn - NDIRECT)) (xint b) in
                   wsect a indirect ;;; ret indirect
                 else ret indirect) ;;
    ret (din, xint (rd32 indirect (4 * (fbn - NDIRECT)))).

(** The loop of [iappend]. *)
Definition append_loop (fuel : nat) (din : dinode) (off : Z) (p : list Z) : M mkst (dinode * Z) :=
  loop fuel (fun '(din, off, p) =>
    let n := Z.of_nat (length p) in
    if 0 <? n then
      let fbn := off / BSIZE in
      if negb (fbn <? MAXFILE) then panic "assert"
      else
        r <- file_sector din fbn ;;
        let '(din, x) := r in
        let n1 := Z.min n (u32 ((fbn + 1) * BSIZE - off)) in
        buf <- rsect x ;;
        wsect x (splice buf (off - fbn * BSIZE) (take (Z.to_nat n1) p)) ;;;
        ret (inl (din, u32 (off + n1), drop (Z.to_nat n1) p))
    else ret (inr (din, off))) (din, off, p).

Definition iappend (inum : Z) (p : list Z) : M mkst unit :=
  din <- rinode inum ;;
  r <- append_loop (S (length p)) din (xint (isize din)) p ;;
  let '(din, off) := r in
  winode inum (set_size (xint off) din).

(** A directory entry; the name keeps its first DIRSIZ - 1 characters. *)
Definition mk_dirent (name : list Z) (inum : Z) : list Z :=
  let name := take (Z.to_nat (DIRSIZ - 1)) name in
  wr16 (replicate 2 0) 0 (xshort inum) ++ name ++ replicate (Z.to_nat DIRSIZ - length name) 0.

(** The name without [user/], and without the underscore at its front. *)
Definition skip_user (path : list Z) : list Z :=
  if bool_decide (take 5 path = [117; 115; 101; 114; 47]) then drop 5 path else path.
Definition skip_underscore (name : list Z) : list Z := match name with 95 :: name' => name' | _ => name end.

Fixpoint append_all (inum : Z) (pieces : list (list Z)) : M mkst unit :=
  match pieces with
  | [] => ret tt
  | p :: pieces' => iappend inum p ;;; append_all inum pieces'
  end.

Section Main.
  Context (host : list Z -> option (list (list Z))).

Definition add_file (path : list Z) : M mkst unit :=
  let shortname := skip_user path in
  if existsb (Z.eqb 47) shortname then panic "assert"
  else
    match host path with
    | None => panic "open"
    | Some pieces =>
        let shortname := skip_underscore shortname in
        inum <- ialloc T_FILE ;;
        iappend ROOTINO (mk_dirent shortname inum) ;;;
        append_all inum pieces
    end.

Fixpoint add_files (paths : list (list Z)) : M mkst unit :=
  match paths with
  | [] => ret tt
  | p :: paths' => add_file p ;;; add_files paths'
  end.

Definition nmeta : Z := 2 + nlogblocks + ninodeblocks + nbitmap.

(** The superblock. *)
Definition the_sb : superblock :=
  mkSb FSMAGIC (xint FSSIZE) (xint (FSSIZE - nmeta)) (xint NINODES) (xint nlogblocks) (xint 2) (xint (2 + nlogblocks))
    (xint (2 + nlogblocks + ninodeblocks)).
Definition sb_bytes (q : superblock) : block :=
  wr_words zeroes 0 [magic q; sb_size q; nblocks q; ninodes q; nlog q; logstart q; inodestart q; bmapstart q].

(** The size of the root directory is rounded up. *)
Definition fix_root : M mkst unit :=
  din <- rinode ROOTINO ;;
  let off := u32 ((xint (isize din) / BSIZE + 1) * BSIZE) in
  winode ROOTINO (set_size (xint off) din).

(** [main] from the names of the files after the image on. *)
Definition mkfs (files : list (list Z)) : M mkst unit :=
  modify (fun s => mkMk (img s) (sectors s) (freeinode s) nmeta the_sb) ;;;
  for_range 0 FSSIZE (fun i => wsect i zeroes) ;;;
  q <- gets msb ;;
  wsect 1 (sb_bytes q) ;;;
  rootino <- ialloc T_DIR ;;
  if negb (rootino =? ROOTINO) then panic "assert"
  else
    iappend rootino (mk_dirent [46] rootino) ;;;
    iappend rootino (mk_dirent [46; 46] rootino) ;;;
    add_files files ;;;
    fix_root ;;;
    used <- gets freeblock ;;
    balloc (i32 used).

Definition mkfs_main (opens : list Z -> bool) (argv : list (list Z)) : M mkst unit :=
  match argv with
  | _ :: image :: files => if opens image then mkfs files else panic "open"
  | _ => panic "usage"
  end.

End Main.

(** The empty file, and the variables as the program starts with them. *)
Definition mk0 : mkst := mkMk (fun _ => zeroes) 0 1 0 (mkSb 0 0 0 0 0 0 0 0).
