(* ===== verification/MkfsFile.v ===== *)
(** * Files on a disk image

    A file on the image is a list of data blocks, perhaps with an indirect
    block, that hold its bytes.  The invariant over all files is that their
    blocks are exactly the blocks from the end of the metadata to the first free
    one; the loop of [iappend] keeps it. *)

From S2P Require Import Prelude KString Bytes Bio Log Fs FsThms FsData Mkfs.

(** ** Integers and sectors *)

Lemma xint_u32 x : xint x = u32 x.
Proof.
  unfold xint, u32, u8. rewrite !Z.shiftr_div_pow2 by lia. change (2 ^ 32) with (2 ^ 8 * (2 ^ 8 * (2 ^ 8 * 2 ^ 8))).
  rewrite !Z.rem_mul_r by lia. rewrite !Z.div_div by lia. change (2 ^ 8 * 2 ^ 8) with (2 ^ 16). change (2 ^ 16 * 2 ^ 8) with (2 ^ 24). ring.
Qed.
Lemma xint_small x : 0 <= x < 2 ^ 32 -> xint x = x.
Proof. intros. rewrite xint_u32. by apply u32_small. Qed.
Lemma xshort_small x : 0 <= x < 2 ^ 16 -> xshort x = x.
Proof.
  intros. unfold xshort, u8. rewrite Z.shiftr_div_pow2 by lia. rewrite <- Z.rem_mul_r by lia. apply Z.mod_small. lia.
Qed.

Lemma sector_at sec : 0 <= sec < 2 ^ 22 -> u32 (sec * BSIZE) / BSIZE = sec.
Proof. intros. unfold BSIZE. rewrite u32_small by lia. by rewrite Z.div_mul. Qed.

Lemma wsect_wp s sec buf (Q : unit -> mkst -> Prop) : 0 <= sec < 2 ^ 22 ->
  Q tt (mkMk (fset (img s) sec buf) (Z.max (sectors s) (sec + 1)) (freeinode s) (freeblock s) (msb s)) -> wp (wsect sec buf) s Q.
Proof. intros Hs HQ. unfold wsect. rewrite sector_at by done. by wp_step. Qed.
Lemma rsect_wp s sec (Q : block -> mkst -> Prop) : 0 <= sec < 2 ^ 22 -> sec < sectors s -> Q (img s sec) s -> wp (rsect sec) s Q.
Proof. intros Hs Hl HQ. unfold rsect. rewrite sector_at by done. do 2 wp_step. rewrite (proj2 (Z.ltb_lt _ _)) by done. by wp_step. Qed.

Lemma rd_zeroes n : forall o, 0 <= o -> o + Z.of_nat n <= BSIZE -> rd n zeroes o = 0.
Proof.
  induction n as [|n IH]; intros o Ho Hn; [done|]. cbn [rd]. rewrite IH by lia. unfold zeroes. by rewrite lookup_total_replicate_2 by lia.
Qed.

(** ** Files on the image *)

Record file := mkFile {
  f_d : dinode;
  f_bl : list Z;         (* the data blocks *)
  f_ind : option Z;      (* the indirect block *)
  f_c : list Z           (* the bytes *)
}.

(** Block [k] of a sequence of bytes, filled up with zeroes. *)
Definition bdata (c : list Z) (k : nat) : block := (fun i => default 0 (c !! (k * 1024 + i)%nat)) <$> seq 0 1024.

Definition owned (f : file) : list Z := f_bl f ++ option_list (f_ind f).

Record filed (D : Z -> block) (f : file) : Prop := {
  fd_len : length (addrs (f_d f)) = 13%nat;
  fd_max : (length (f_bl f) <= 268)%nat;
  fd_direct : forall k, (k < 12)%nat -> addrs (f_d f) !!! k = default 0 (f_bl f !! k);
  fd_indirect : addrs (f_d f) !!! 12%nat = default 0 (f_ind f);
  fd_need : f_ind f = None <-> (length (f_bl f) <= 12)%nat;
  fd_ind : forall a, f_ind f = Some a -> length (D a) = 1024%nat /\ forall k, (k < 256)%nat -> rd32 (D a) (4 * Z.of_nat k) = default 0 (f_bl f !! (12 + k)%nat);
  fd_data : forall k a, f_bl f !! k = Some a -> D a = bdata (f_c f) k
}.

Lemma filed_frame D D' f : filed D f -> (forall a, a ∈ owned f -> D' a = D a) -> filed D' f.
Proof.
  intros [H1 H2 H3 H4 H5 H6 H7] HD. constructor; try done.
  - intros a Ha. rewrite HD; [by apply H6|]. unfold owned. rewrite Ha. set_solver.
  - intros k a Ha. rewrite HD; [by apply H7|]. unfold owned. apply elem_of_app. left. by eapply list_elem_of_lookup_2.
Qed.

Lemma bdata_length c k : length (bdata c k) = 1024%nat.
Proof. unfold bdata. by rewrite length_fmap, length_seq. Qed.
Lemma bdata_lookup c k i : (i < 1024)%nat -> bdata c k !! i = Some (default 0 (c !! (k * 1024 + i)%nat)).
Proof. intros Hi. unfold bdata. rewrite list_lookup_fmap, lookup_seq_lt by done. done. Qed.
Lemma bdata_nil c k : (length c <= k * 1024)%nat -> bdata c k = zeroes.
Proof.
  intros H. apply list_eq_same_length with (n := 1024%nat); [done | by rewrite bdata_length |].
  intros i x y Hi Hx Hy. rewrite bdata_lookup in Hx by done. unfold zeroes in Hy. apply lookup_replicate in Hy as [-> _].
  rewrite lookup_ge_None_2 in Hx by lia. cbn in Hx. congruence.
Qed.

(** Bytes added at the end go into the block they belong to, and no other block
    changes. *)
Lemma bdata_append c q k : (length c / 1024 = k)%nat -> (length c mod 1024 + length q <= 1024)%nat ->
  splice (bdata c k) (Z.of_nat (length c) - Z.of_nat k * BSIZE) q = bdata (c ++ q) k.
Proof.
  intros Hk Hq. pose proof (Nat.div_mod_eq (length c) 1024) as E. rewrite Hk in E.
  unfold splice, BSIZE. replace (Z.to_nat _) with (length c mod 1024)%nat by lia.
  apply list_eq_same_length with (n := 1024%nat); [by rewrite bdata_length| |].
  { rewrite !length_app, length_take, length_drop, bdata_length. lia. }
  intros i x y Hi Hx Hy. rewrite bdata_lookup in Hy by done. injection Hy as <-.
  destruct (decide (i < length c mod 1024)%nat) as [H1|H1].
  - rewrite lookup_app_l in Hx by (rewrite length_take, bdata_length; lia). rewrite lookup_take_lt, bdata_lookup in Hx by lia. injection Hx as <-.
    by rewrite lookup_app_l by lia.
  - rewrite lookup_app_r in Hx by (rewrite length_take, bdata_length; lia).
    rewrite length_take, bdata_length, Nat.min_l in Hx by lia.
    rewrite (lookup_app_r c) by lia. destruct (decide (i - length c mod 1024 < length q)%nat) as [H2|H2].
    + rewrite lookup_app_l in Hx by lia. replace (k * 1024 + i - length c)%nat with (i - length c mod 1024)%nat by lia. by rewrite Hx.
    + rewrite lookup_app_r, lookup_drop in Hx by lia. rewrite bdata_lookup in Hx by lia. injection Hx as <-.
      rewrite !lookup_ge_None_2 by lia. done.
Qed.
Lemma bdata_other c q k j : (length c / 1024 = k)%nat -> (length c mod 1024 + length q <= 1024)%nat -> j <> k -> bdata (c ++ q) j = bdata c j.
Proof.
  intros Hk Hq Hj. pose proof (Nat.div_mod_eq (length c) 1024) as E. rewrite Hk in E. unfold bdata. apply list_fmap_ext. intros i x Hx%lookup_seq.
  f_equal. destruct Hx as [-> Hi]. cbn [Nat.add]. destruct (decide (j < k)%nat).
  - rewrite lookup_app_l by lia. done.
  - rewrite !lookup_ge_None_2; [done | lia | rewrite length_app; lia].
Qed.

(** ** The invariant over all files *)

Record blocks_inv (s : mkst) (fs : list file) : Prop := {
  bi_sb : msb s = the_sb;
  bi_len : sectors s = FSSIZE;
  bi_free : nmeta <= freeblock s <= FSSIZE;
  bi_own : (fs ≫= owned) ≡ₚ seqZ nmeta (freeblock s - nmeta);
  bi_files : Forall (filed (img s)) fs;
  bi_fresh : forall a, freeblock s <= a < FSSIZE -> img s a = zeroes
}.

Lemma owned_range s fs j f a : blocks_inv s fs -> fs !! j = Some f -> a ∈ owned f -> nmeta <= a < freeblock s.
Proof.
  intros I Hj Ha. assert (a ∈ fs ≫= owned) as H by (apply list_elem_of_bind; exists f; split; [done | by eapply list_elem_of_lookup_2]).
  rewrite (bi_own _ _ I) in H. apply elem_of_seqZ in H. lia.
Qed.

Lemma owned_nodup s fs : blocks_inv s fs -> NoDup (fs ≫= owned).
Proof. intros I. rewrite (bi_own _ _ I). apply NoDup_seqZ. Qed.

Lemma bind_nodup_at (g : file -> list Z) fs i f : NoDup (fs ≫= g) -> fs !! i = Some f -> NoDup (g f).
Proof.
  intros Hn Hi. rewrite <- (take_drop_middle fs i f Hi), bind_app in Hn. cbn in Hn. apply NoDup_app in Hn as (_ & _ & Hn). by apply NoDup_app in Hn as (Hn & _).
Qed.
Lemma bind_nodup_ne (g : file -> list Z) fs : NoDup (fs ≫= g) -> forall i j f f' a, fs !! i = Some f -> fs !! j = Some f' -> i <> j -> a ∈ g f -> a ∉ g f'.
Proof.
  induction fs as [|f0 fs IH]; intros Hn i j f f' a Hi Hj Hne Ha Ha'; [done|]. cbn in Hn. apply NoDup_app in Hn as (_ & Hd & Hn).
  assert (forall k x y, fs !! k = Some x -> y ∈ g x -> y ∈ fs ≫= g) as HX by (intros k x y Hk Hy; apply list_elem_of_bind; exists x; split; [done | by eapply list_elem_of_lookup_2]).
  destruct i as [|i], j as [|j]; cbn in Hi, Hj; simplify_eq.
  - by apply (Hd a Ha), (HX j f').
  - by apply (Hd a Ha'), (HX i f).
  - by apply (IH Hn i j f f' a); try done; intros ->.
Qed.
Lemma bind_insert (g : file -> list Z) fs j f f' l : fs !! j = Some f -> g f' ≡ₚ g f ++ l -> (<[j := f']> fs ≫= g) ≡ₚ (fs ≫= g) ++ l.
Proof.
  intros Hj Hg. rewrite insert_take_drop by (by eapply lookup_lt_Some). rewrite <- (take_drop_middle fs j f Hj) at 3. rewrite !bind_app. cbn.
  rewrite Hg. solve_Permutation.
Qed.

(** ** One file changes *)

(** What an operation on the blocks of files leaves alone. *)
Definition meta_same (s s' : mkst) : Prop := freeinode s' = freeinode s /\ forall a, a < nmeta -> img s' a = img s a.
#[global] Instance meta_same_trans : Transitive meta_same.
Proof. intros s1 s2 s3 [E1 H1] [E2 H2]. split; [congruence|]. intros a Ha. by rewrite H2, H1. Qed.

Lemma blocks_step s s' fs j f f' n : blocks_inv s fs -> fs !! j = Some f -> 0 <= n ->
  owned f' ≡ₚ owned f ++ seqZ (freeblock s) n -> freeblock s' = freeblock s + n -> freeblock s' <= FSSIZE ->
  msb s' = msb s -> sectors s' = sectors s -> freeinode s' = freeinode s -> filed (img s') f' -> (forall a, a ∉ owned f' -> img s' a = img s a) ->
  blocks_inv s' (<[j := f']> fs) /\ meta_same s s'.
Proof.
  intros I Hj Hn Ho Hf Hmax Hsb Hse Hfi F HD. pose proof (owned_nodup _ _ I) as Hnd. pose proof (bi_free _ _ I) as Hfr.
  assert (forall a, a ∈ owned f' -> nmeta <= a < freeblock s') as Hr.
  { intros a Ha. rewrite Ho in Ha. apply elem_of_app in Ha as [Ha|Ha%elem_of_seqZ]; [pose proof (owned_range _ _ _ _ _ I Hj Ha) | ]; lia. }
  split; [constructor|].
  - by rewrite Hsb, (bi_sb _ _ I).
  - by rewrite Hse, (bi_len _ _ I).
  - lia.
  - rewrite (bind_insert owned fs j f f' _ Hj Ho), (bi_own _ _ I), Hf.
    replace (freeblock s + n - nmeta) with ((freeblock s - nmeta) + n) by lia. rewrite seqZ_app by lia.
    by replace (nmeta + (freeblock s - nmeta)) with (freeblock s) by lia.
  - apply Forall_lookup_2. intros i g Hi. destruct (decide (i = j)) as [->|Hne].
    + rewrite list_lookup_insert_eq in Hi by (by eapply lookup_lt_Some). by simplify_eq.
    + rewrite list_lookup_insert_ne in Hi by done. eapply filed_frame; [by eapply (Forall_lookup_1 _ _ _ _ (bi_files _ _ I))|].
      intros a Ha. apply HD. rewrite Ho. rewrite not_elem_of_app. split; [by eapply (bind_nodup_ne owned fs Hnd i j)|].
      intros Hs%elem_of_seqZ. pose proof (owned_range _ _ _ _ _ I Hi Ha). lia.
  - intros a Ha. rewrite HD; [apply (bi_fresh _ _ I); lia|]. intros Hx. specialize (Hr a Hx). lia.
  - split; [done|]. intros a Ha. apply HD. intros Hx. specialize (Hr a Hx). lia.
Qed.

(** Add bytes that fit into the block in which the file ends. *)
Lemma data_step s fs j f q x : blocks_inv s fs -> fs !! j = Some f -> f_bl f !! (length (f_c f) / 1024)%nat = Some x ->
  (length (f_c f) mod 1024 + length q <= 1024)%nat ->
  let f' := mkFile (f_d f) (f_bl f) (f_ind f) (f_c f ++ q) in
  let k := Z.of_nat (length (f_c f)) / BSIZE in
  let s' := mkMk (fset (img s) x (splice (img s x) (Z.of_nat (length (f_c f)) - k * BSIZE) q)) (Z.max (sectors s) (x + 1)) (freeinode s) (freeblock s) (msb s) in
  blocks_inv s' (<[j := f']> fs) /\ meta_same s s' /\ freeblock s' = freeblock s.
Proof.
  intros I Hj Hx Hq f' k s'. assert (filed (img s) f) as F by (by eapply (Forall_lookup_1 _ _ _ _ (bi_files _ _ I))).
  assert (x ∈ owned f) as Hxo by (unfold owned; apply elem_of_app; left; by eapply list_elem_of_lookup_2).
  pose proof (owned_range _ _ _ _ _ I Hj Hxo) as Hxr. pose proof (bi_free _ _ I) as Hfr. pose proof (bi_len _ _ I) as Hl.
  assert (NoDup (owned f)) as Hno by (eapply bind_nodup_at; [by eapply owned_nodup | done]). unfold owned in Hno. apply NoDup_app in Hno as (Hnb & Hni & _).
  assert (k = Z.of_nat (length (f_c f) / 1024)) as Ek by (unfold k, BSIZE; rewrite Nat2Z.inj_div; done).
  enough (blocks_inv s' (<[j := f']> fs) /\ meta_same s s') by naive_solver.
  apply (blocks_step s s' fs j f f' 0); try done; try lia.
  - by rewrite app_nil_r.
  - cbn. lia.
  - cbn. lia.
  - cbn [sectors s']. lia.
  - destruct F as [H1 H2 H3 H4 H5 H6 H7]. constructor; try done; cbn [f_bl f_c f_ind f' img s'].
    + intros a Ha. rewrite fset_ne; [by apply H6|]. intros ->. apply (Hni x); [by eapply list_elem_of_lookup_2|]. rewrite Ha. cbn. set_solver.
    + intros i a Ha. destruct (decide (a = x)) as [->|Hne].
      * assert (i = (length (f_c f) / 1024)%nat) as -> by (by eapply NoDup_lookup). rewrite fset_eq, (H7 _ _ Hx), Ek. by apply bdata_append.
      * rewrite fset_ne by done. rewrite (H7 _ _ Ha). symmetry. eapply bdata_other; [reflexivity | done |]. intros ->. congruence.
  - intros a Ha. cbn [img s']. apply fset_ne. intros ->. done.
Qed.

(** The blocks that a file with [n] data blocks has. *)
Definition nown (n : nat) : Z := Z.of_nat n + if (12 <? n)%nat then 1 else 0.

(** A new file, with another block at its end. *)
Definition with_block (f : file) (i : nat) (a b : Z) (ind : option Z) : file :=
  mkFile (set_addrs (<[i := a]> (addrs (f_d f))) (f_d f)) (f_bl f ++ [b]) ind (f_c f).

(** What [file_sector] does for block [k]. *)
Definition sector_post (s : mkst) (fs : list file) (j : nat) (f : file) (k : nat) (r : dinode * Z) (s' : mkst) : Prop :=
  exists f', f_d f' = fst r /\ f_bl f' !! k = Some (snd r) /\ f_c f' = f_c f /\ length (f_bl f') = Nat.max (length (f_bl f)) (S k)
    /\ set_addrs (addrs (f_d f')) (f_d f) = f_d f'
    /\ blocks_inv s' (<[j := f']> fs) /\ meta_same s s' /\ freeblock s' = freeblock s + nown (length (f_bl f')) - nown (length (f_bl f)).

(** A file with one more block: a direct one, or an entry of the indirect
    block [a]. *)
Lemma filed_direct D f b : filed D f -> (length (f_bl f) < 12)%nat -> (length (f_c f) <= length (f_bl f) * 1024)%nat -> D b = zeroes ->
  filed D (with_block f (length (f_bl f)) b b (f_ind f)).
Proof.
  intros [H1 H2 H3 H4 H5 H6 H7] Hl Hc Hb. assert (f_ind f = None) as Ei by (apply H5; lia).
  constructor; cbn [with_block f_d f_bl f_ind f_c addrs set_addrs].
  - by rewrite length_insert.
  - rewrite length_app. cbn. lia.
  - intros i Hi. destruct (decide (i = length (f_bl f))) as [->|Hne].
    + rewrite list_lookup_total_insert_eq by lia. by rewrite lookup_app_r, Nat.sub_diag by lia.
    + rewrite list_lookup_total_insert_ne, H3 by lia. destruct (decide (i < length (f_bl f))%nat).
      * by rewrite lookup_app_l by lia.
      * rewrite !lookup_ge_None_2; [done | rewrite length_app; cbn; lia | lia].
  - by rewrite list_lookup_total_insert_ne by lia.
  - rewrite length_app. cbn. split; [lia | done].
  - intros a Ha. congruence.
  - intros i a Ha. destruct (decide (i < length (f_bl f))%nat) as [Hi|Hi].
    + rewrite lookup_app_l in Ha by done. by apply H7.
    + rewrite lookup_app_r in Ha by lia. destruct (i - length (f_bl f))%nat eqn:E; cbn in Ha; [|done]. injection Ha as <-.
      rewrite Hb. symmetry. apply bdata_nil. nia.
Qed.

Lemma filed_indirect D f a b : filed D f -> (12 <= length (f_bl f) < 268)%nat -> (length (f_c f) <= length (f_bl f) * 1024)%nat -> D b = zeroes ->
  length (D a) = 1024%nat -> (forall i, (i < 256)%nat -> rd32 (D a) (4 * Z.of_nat i) = default 0 (f_bl f !! (12 + i)%nat)) ->
  a ∉ f_bl f -> a <> b -> 0 <= b < 2 ^ 32 ->
  filed (fset D a (wr32 (D a) (4 * (Z.of_nat (length (f_bl f)) - 12)) b)) (with_block f 12 a b (Some a)).
Proof.
  intros [H1 H2 H3 H4 H5 H6 H7] Hl Hc Hb Hla Hw Hna Hab Hbs. constructor; cbn [with_block f_d f_bl f_ind f_c addrs set_addrs].
  - by rewrite length_insert.
  - rewrite length_app. cbn. lia.
  - intros i Hi. rewrite list_lookup_total_insert_ne, H3 by lia. by rewrite lookup_app_l by lia.
  - by rewrite list_lookup_total_insert_eq by lia.
  - rewrite length_app. cbn. split; [done | lia].
  - intros a' [= <-]. rewrite fset_eq. split; [unfold wr32; by rewrite wr_length|]. intros i Hi.
    destruct (decide (12 + i = length (f_bl f))%nat) as [He|Hne].
    + rewrite lookup_app_r, He, Nat.sub_diag by lia. change (default 0 ([b] !! 0%nat)) with b. replace (4 * (Z.of_nat (length (f_bl f)) - 12)) with (4 * Z.of_nat i) by lia.
      rewrite rd32_wr32 by lia. by apply u32_small.
    + unfold rd32, wr32. rewrite rd_wr_ne by lia. change (rd 4 (D a) (4 * Z.of_nat i)) with (rd32 (D a) (4 * Z.of_nat i)). rewrite Hw by done.
      destruct (decide (12 + i < length (f_bl f))%nat).
      * by rewrite lookup_app_l by lia.
      * rewrite !lookup_ge_None_2; [done | rewrite length_app; cbn; lia | lia].
  - intros i x Hx. destruct (decide (i < length (f_bl f))%nat) as [Hi|Hi].
    + rewrite lookup_app_l in Hx by done. rewrite fset_ne; [by apply H7|]. intros ->. apply Hna. by eapply list_elem_of_lookup_2.
    + rewrite lookup_app_r in Hx by lia. destruct (i - length (f_bl f))%nat eqn:E; cbn in Hx; [|done]. injection Hx as <-.
      rewrite fset_ne, Hb by done. symmetry. apply bdata_nil. nia.
Qed.

Section Sector.
  Context (s : mkst) (fs : list file) (j : nat) (f : file) (k : nat).
  Context (I : blocks_inv s fs) (Hj : fs !! j = Some f) (Hk : (k < 268)%nat).

Lemma file_filed : filed (img s) f.
Proof. by eapply (Forall_lookup_1 _ _ _ _ (bi_files _ _ I)). Qed.
Lemma owned_small a : a ∈ owned f -> xint a = a /\ a <> 0 /\ 0 <= a < 2 ^ 22 /\ a < sectors s.
Proof.
  intros Ha. pose proof (owned_range _ _ _ _ _ I Hj Ha) as H. pose proof (bi_free _ _ I). rewrite (bi_len _ _ I).
  change nmeta with 46 in *. unfold FSSIZE in *. split_and!; [apply xint_small | ..]; lia.
Qed.

(** A block that is there. *)
Lemma old_sector_wp : (k < length (f_bl f))%nat -> wp (file_sector (f_d f) (Z.of_nat k)) s (sector_post s fs j f k).
Proof.
  intros Hl. destruct (lookup_lt_is_Some_2 _ _ Hl) as [x Hx]. pose proof file_filed as F.
  assert (x ∈ owned f) as Hxo by (unfold owned; apply elem_of_app; left; by eapply list_elem_of_lookup_2).
  destruct (owned_small x Hxo) as (Ex & Ex0 & _ & _).
  assert (sector_post s fs j f k (f_d f, x) s) as HP.
  { exists f. cbn [fst snd]. split_and!; try done; [lia | by destruct (f_d f) | by rewrite list_insert_id | lia]. }
  unfold file_sector, NDIRECT. case_if.
  - wp_step. unfold need_addr. rewrite Nat2Z.id, (fd_direct _ _ F), Hx by lia. cbn [option.from_option id]. rewrite Ex, (proj2 (Z.eqb_neq x 0) Ex0). wp_step. wp_step. rewrite ?Nat2Z.id, (fd_direct _ _ F), Hx by lia.
    cbn [option.from_option id]. by rewrite Ex.
  - wp_step. destruct (f_ind f) as [a|] eqn:Ei; [|apply (fd_need _ _ F) in Ei; lia].
    destruct (owned_small a) as (Ea & Ea0 & Has & Hal); [unfold owned; rewrite Ei; set_solver|].
    unfold need_addr. change (Z.to_nat 12) with 12%nat. rewrite (fd_indirect _ _ F), Ei. cbn [option.from_option id]. rewrite Ea, (proj2 (Z.eqb_neq a 0) Ea0). wp_step.
    change (Z.to_nat 12) with 12%nat. rewrite (fd_indirect _ _ F), Ei. cbn [option.from_option id]. rewrite Ea. wp_step. apply rsect_wp; [done | done |].
    destruct (fd_ind _ _ F a Ei) as [_ Hw]. specialize (Hw (k - 12)%nat). replace (12 + (k - 12))%nat with k in Hw by lia. rewrite Hx in Hw.
    replace (Z.of_nat (k - 12)) with (Z.of_nat k - 12) in Hw by lia. cbn [option.from_option id] in Hw. rewrite Hw by lia.
    wp_step. rewrite (proj2 (Z.eqb_neq x 0) Ex0). wp_step. wp_step. rewrite Hw by lia. by rewrite Ex.
Qed.

(** A block that is added. *)
Context (Hnew : k = length (f_bl f)) (Hc : (length (f_c f) <= length (f_bl f) * 1024)%nat).

Lemma new_block_wp (st : mkst) (Q : Z -> mkst -> Prop) : 0 <= freeblock st < 2 ^ 31 ->
  Q (freeblock st) (mkMk (img st) (sectors st) (freeinode st) (freeblock st + 1) (msb st)) -> wp new_block st Q.
Proof. intros Hf HQ. unfold new_block. do 5 wp_step. by rewrite u32_small by lia. Qed.

Lemma bl_end : f_bl f !! k = None.
Proof. apply lookup_ge_None_2. lia. Qed.
Lemma bl_new b : (f_bl f ++ [b]) !! k = Some b.
Proof. rewrite lookup_app_r by lia. by rewrite Hnew, Nat.sub_diag. Qed.

Lemma new_direct_wp : (k < 12)%nat -> freeblock s + 1 <= FSSIZE -> wp (file_sector (f_d f) (Z.of_nat k)) s (sector_post s fs j f k).
Proof.
  intros Hk12 Hroom. pose proof file_filed as F. pose proof (bi_free _ _ I) as Hfr. change nmeta with 46 in Hfr. unfold FSSIZE in *.
  unfold file_sector, NDIRECT. rewrite (proj2 (Z.ltb_lt _ _)) by lia. wp_step. unfold need_addr. rewrite Nat2Z.id, (fd_direct _ _ F), bl_end by lia.
  cbn [option.from_option]. change (xint 0 =? 0) with true. cbv iota. wp_step. apply new_block_wp; [lia|]. do 2 wp_step.
  cbn [addrs set_addrs]. rewrite list_lookup_total_insert_eq by (rewrite (fd_len _ _ F); lia). rewrite !xint_small by lia.
  set (b := freeblock s). exists (with_block f k b b (f_ind f)). cbn [with_block f_d f_bl f_c fst snd].
  assert (f_ind f = None) as Ei by (apply (fd_need _ _ F); lia).
  split_and!; try done; [apply bl_new | rewrite length_app; cbn; lia |..].
  - apply (blocks_step s _ fs j f _ 1); try done; try (cbn; lia).
    + unfold owned. cbn [with_block f_bl f_ind]. rewrite Ei. cbn [option_list app]. by rewrite !app_nil_r.
    + rewrite Hnew. apply filed_direct; try done; [lia|]. apply (bi_fresh _ _ I). unfold FSSIZE. lia.
  - unfold nown. rewrite length_app. cbn [length freeblock]. rewrite !(proj2 (Nat.ltb_ge _ _)) by lia. lia.
Qed.

Lemma ind_finish_wp (st : mkst) (din : dinode) (a e : Z) (Q : dinode * Z -> mkst -> Prop) :
  0 <= a < 2 ^ 22 -> a < sectors st -> 0 <= e -> e + 4 <= Z.of_nat (length (img st a)) -> rd32 (img st a) e = 0 -> 0 <= freeblock st < 2 ^ 31 ->
  Q (din, freeblock st) (mkMk (fset (img st) a (wr32 (img st a) e (freeblock st))) (sectors st) (freeinode st) (freeblock st + 1) (msb st)) ->
  wp (indirect <- rsect a ;;
      indirect <- (if rd32 indirect e =? 0 then
                     b <- new_block ;;
                     let indirect := wr32 indirect e (xint b) in
                     wsect a indirect ;;; ret indirect
                   else ret indirect) ;;
      ret (din, xint (rd32 indirect e))) st Q.
Proof.
  intros Ha Hs He Hl H0 Hf HQ. wp_step. apply rsect_wp; [done..|]. wp_step. rewrite H0. cbv beta iota. change (0 =? 0) with true. cbv iota. wp_step.
  apply new_block_wp; [done|]. cbv zeta. wp_step. apply wsect_wp; [done|]. do 2 wp_step. rewrite rd32_wr32 by done. rewrite !xint_small by (rewrite ?xint_small; unfold u32; dlia || lia).
  rewrite !u32_small by (rewrite ?xint_small; lia). rewrite ?xint_small by lia. cbn [img sectors freeinode freeblock msb]. rewrite Z.max_l by lia. done.
Qed.

Lemma fresh_block a : freeblock s <= a < FSSIZE -> img s a = zeroes /\ a ∉ f_bl f.
Proof.
  intros Ha. split; [by apply (bi_fresh _ _ I)|]. intros Hb. assert (a ∈ owned f) as Ho by (unfold owned; set_solver).
  pose proof (owned_range _ _ _ _ _ I Hj Ho). lia.
Qed.

Lemma old_indirect_wp a : (12 <= k)%nat -> f_ind f = Some a -> freeblock s + 1 <= FSSIZE ->
  wp (file_sector (f_d f) (Z.of_nat k)) s (sector_post s fs j f k).
Proof.
  intros Hk12 Ei Hroom. pose proof file_filed as F. pose proof (bi_free _ _ I) as Hfr. change nmeta with 46 in Hfr. unfold FSSIZE in *.
  assert (12 < k)%nat as Hk' by (destruct (Nat.lt_ge_cases 12 k) as [|Hle]; [done|]; assert (f_ind f = None) by (apply (fd_need _ _ F); lia); congruence).
  assert (a ∈ owned f) as Hao by (unfold owned; rewrite Ei; set_solver). destruct (owned_small a Hao) as (Ea & Ea0 & Has & Hal).
  destruct (fd_ind _ _ F a Ei) as [Hla Hw]. pose proof (owned_range _ _ _ _ _ I Hj Hao) as Hr. destruct (fresh_block (freeblock s)) as [Hz _]; [unfold FSSIZE; lia|].
  unfold file_sector, NDIRECT. rewrite (proj2 (Z.ltb_ge _ _)) by lia. wp_step. unfold need_addr. change (Z.to_nat 12) with 12%nat.
  rewrite (fd_indirect _ _ F), Ei. cbn [option.from_option id]. rewrite Ea, (proj2 (Z.eqb_neq a 0) Ea0). wp_step.
  rewrite (fd_indirect _ _ F), Ei. cbn [option.from_option id]. rewrite Ea. cbv zeta. apply ind_finish_wp; try done; try lia.
  { replace (Z.of_nat k - 12) with (Z.of_nat (k - 12)) by lia. rewrite Hw by lia. replace (12 + (k - 12))%nat with k by lia. by rewrite bl_end. }
  set (b := freeblock s). exists (with_block f 12 a b (Some a)). cbn [with_block f_d f_bl f_c fst snd].
  assert (<[12%nat := a]> (addrs (f_d f)) = addrs (f_d f)) as Ead.
  { apply list_insert_id. rewrite list_lookup_lookup_total_lt by (rewrite (fd_len _ _ F); lia). rewrite (fd_indirect _ _ F), Ei. done. }
  rewrite Ead. do 5 (split; [first [done | by destruct (f_d f) | apply bl_new | rewrite length_app; cbn; lia]|]). apply and_assoc. split.
  - apply (blocks_step s _ fs j f _ 1); try done; try (cbn; lia).
    + unfold owned. cbn [with_block f_bl f_ind]. rewrite Ei. cbn [option_list]. change (seqZ (freeblock s) 1) with [b]. solve_Permutation.
    + rewrite Hnew. apply filed_indirect; try done; try (unfold b; lia).
      assert (NoDup (owned f)) as Hno by (eapply bind_nodup_at; [by eapply owned_nodup | done]). unfold owned in Hno. rewrite Ei in Hno.
      apply NoDup_app in Hno as (_ & Hd & _). intros Hx. apply (Hd a Hx). cbn. set_solver.
    + intros x Hx. cbn [img]. apply fset_ne. intros ->. apply Hx. unfold owned. cbn. set_solver.
  - unfold nown. rewrite length_app. cbn [length freeblock]. rewrite !(proj2 (Nat.ltb_lt _ _)) by lia. unfold b. lia.
Qed.

Lemma new_indirect_wp : k = 12%nat -> f_ind f = None -> freeblock s + 2 <= FSSIZE ->
  wp (file_sector (f_d f) (Z.of_nat k)) s (sector_post s fs j f k).
Proof.
  intros Ek Ei Hroom. pose proof file_filed as F. pose proof (bi_free _ _ I) as Hfr. pose proof (bi_len _ _ I) as Hlen. change nmeta with 46 in Hfr.
  destruct (fresh_block (freeblock s)) as [Hz Hza]; [unfold FSSIZE in *; lia|]. destruct (fresh_block (freeblock s + 1)) as [Hz1 _]; [unfold FSSIZE in *; lia|]. unfold FSSIZE in *.
  unfold file_sector, NDIRECT. rewrite (proj2 (Z.ltb_ge _ _)) by lia. wp_step. unfold need_addr. change (Z.to_nat 12) with 12%nat.
  rewrite (fd_indirect _ _ F), Ei. cbn [option.from_option]. change (xint 0 =? 0) with true. cbv iota. wp_step. apply new_block_wp; [lia|]. wp_step.
  cbn [addrs set_addrs]. rewrite list_lookup_total_insert_eq by (rewrite (fd_len _ _ F); lia). rewrite !(xint_small (freeblock s)) by lia. cbv zeta.
  set (a := freeblock s) in *. apply ind_finish_wp; cbn [img sectors freeblock freeinode msb]; try lia.
  { rewrite Hz. cbn [zeroes]. unfold zeroes. rewrite length_replicate. unfold BSIZE. lia. }
  { rewrite Hz, Ek. reflexivity. }
  set (b := a + 1). exists (with_block f 12 a b (Some a)). cbn [with_block f_d f_bl f_c fst snd].
  do 5 (split; [first [done | apply bl_new | rewrite length_app; cbn; lia]|]). apply and_assoc. split.
  - apply (blocks_step s _ fs j f _ 2); try done; try (cbn; unfold b, FSSIZE; lia).
    + unfold owned. cbn [with_block f_bl f_ind]. rewrite Ei. cbn [option_list]. rewrite !seqZ_cons by lia. change (seqZ _ (Z.pred (Z.pred 2))) with (@nil Z).
      change (Z.succ (freeblock s)) with b. fold a. rewrite app_nil_r. solve_Permutation.
    + rewrite Hnew. apply filed_indirect; try done; try (unfold b; lia); try (cbn [img]; by rewrite Hz).
      intros i Hi. cbn [img]. rewrite Hz. rewrite lookup_ge_None_2 by lia. apply rd_zeroes; unfold BSIZE; lia.
    + intros x Hx. cbn [img]. apply fset_ne. intros ->. apply Hx. unfold owned. cbn. set_solver.
  - unfold nown. rewrite length_app. cbn [length freeblock]. rewrite (proj2 (Nat.ltb_lt _ _)) by lia. rewrite (proj2 (Nat.ltb_ge _ _)) by lia. unfold b. lia.
Qed.

Lemma file_sector_wp : freeblock s + nown (S k) - nown (length (f_bl f)) <= FSSIZE -> wp (file_sector (f_d f) (Z.of_nat k)) s (sector_post s fs j f k).
Proof.
  intros Hroom. destruct (Nat.lt_ge_cases k 12); [apply new_direct_wp; [done|] |destruct (f_ind f) as [a|] eqn:Ei; [apply (old_indirect_wp a); [done | done|] |]].
  - unfold nown in Hroom. rewrite !(proj2 (Nat.ltb_ge _ _)) in Hroom by lia. lia.
  - unfold nown in Hroom. destruct (Nat.ltb_spec 12 (S k)), (Nat.ltb_spec 12 (length (f_bl f))); lia.
  - assert (length (f_bl f) <= 12)%nat by (by apply (fd_need _ _ file_filed)). apply new_indirect_wp; [lia | done |].
    unfold nown in Hroom. rewrite (proj2 (Nat.ltb_lt 12 (S k))), (proj2 (Nat.ltb_ge 12 (length (f_bl f)))) in Hroom by lia. lia.
Qed.

End Sector.

(** ** Appending to a file *)

(** The number of blocks of [n] bytes. *)
Definition nblk (n : nat) : nat := ((n + 1023) / 1024)%nat.

(** File [j] got the bytes [p] at its end. *)
Record appended (s : mkst) (fs : list file) (j : nat) (f : file) (p : list Z) (f' : file) (s' : mkst) : Prop := {
  ap_c : f_c f' = f_c f ++ p;
  ap_bl : length (f_bl f') = nblk (length (f_c f'));
  ap_d : set_addrs (addrs (f_d f')) (f_d f) = f_d f';
  ap_inv : blocks_inv s' (<[j := f']> fs);
  ap_meta : meta_same s s';
  ap_free : freeblock s' = freeblock s + nown (length (f_bl f')) - nown (length (f_bl f))
}.

Lemma appended_trans s1 s2 s3 fs j f1 f2 f3 p q : appended s1 fs j f1 p f2 s2 -> appended s2 (<[j := f2]> fs) j f2 q f3 s3 -> appended s1 fs j f1 (p ++ q) f3 s3.
Proof.
  intros [H1 H2 H3 H4 H5 H6] [G1 G2 G3 G4 G5 G6]. constructor; try done.
  - by rewrite G1, H1, app_assoc.
  - rewrite <- G3, <- H3. by destruct (f_d f1).
  - by rewrite list_insert_insert_eq in G4.
  - by etransitivity.
  - lia.
Qed.

Lemma nblk_div n : nblk n = (n / 1024)%nat \/ nblk n = S (n / 1024).
Proof. unfold nblk. pose proof (Nat.div_mod_eq n 1024). pose proof (Nat.mod_upper_bound n 1024). pose proof (Nat.div_mod_eq (n + 1023) 1024). pose proof (Nat.mod_upper_bound (n + 1023) 1024). lia. Qed.
Lemma nblk_more n m : (0 < m)%nat -> (n mod 1024 + m <= 1024)%nat -> nblk (n + m) = S (n / 1024) /\ Nat.max (nblk n) (S (n / 1024)) = nblk (n + m).
Proof.
  intros Hm Hn. assert (nblk (n + m) = S (n / 1024)) as E; [|split; [done|]; pose proof (nblk_div n); lia]. unfold nblk.
  pose proof (Nat.div_mod_eq n 1024). pose proof (Nat.div_mod_eq (n + m + 1023) 1024). pose proof (Nat.mod_upper_bound (n + m + 1023) 1024). lia.
Qed.
Lemma nblk_mono n m : (n <= m)%nat -> (nblk n <= nblk m)%nat.
Proof. intros. unfold nblk. apply Nat.Div0.div_le_mono. lia. Qed.
Lemma nblk_covers n : (n <= nblk n * 1024)%nat.
Proof. unfold nblk. pose proof (Nat.div_mod_eq (n + 1023) 1024). pose proof (Nat.mod_upper_bound (n + 1023) 1024). lia. Qed.
Lemma nown_mono n m : (n <= m)%nat -> nown n <= nown m.
Proof. intros. unfold nown. destruct (Nat.ltb_spec 12 n), (Nat.ltb_spec 12 m); lia. Qed.

(** One turn of the loop: the bytes that fit into the block in which the file
    ends. *)
Lemma append_turn_wp {B} s fs j f q (K : dinode -> M mkst B) (Q : B -> mkst -> Prop) :
  blocks_inv s fs -> fs !! j = Some f -> length (f_bl f) = nblk (length (f_c f)) -> (0 < length q)%nat -> (length (f_c f) mod 1024 + length q <= 1024)%nat ->
  (length (f_c f) + length q <= 268 * 1024)%nat -> freeblock s + nown (nblk (length (f_c f) + length q)) - nown (length (f_bl f)) <= FSSIZE ->
  (forall f' s', appended s fs j f q f' s' -> wp (K (f_d f')) s' Q) ->
  let off := Z.of_nat (length (f_c f)) in
  wp (r <- file_sector (f_d f) (off / BSIZE) ;;
      let '(din, x) := r in
      buf <- rsect x ;;
      wsect x (splice buf (off - off / BSIZE * BSIZE) q) ;;;
      K din) s Q.
Proof.
  intros I Hj Hbl Hq0 Hq Hmax Hroom HQ off. destruct (nblk_more (length (f_c f)) (length q) Hq0 Hq) as [E1 E2]. set (k := (length (f_c f) / 1024)%nat) in *.
  assert (off / BSIZE = Z.of_nat k) as Ek by (unfold off, BSIZE, k; by rewrite Nat2Z.inj_div).
  assert (k < 268)%nat as Hk by (unfold k; apply Nat.Div0.div_lt_upper_bound; lia).
  wp_step. rewrite Ek. eapply wp_mono; [|].
  { destruct (nblk_div (length (f_c f))) as [E|E]; fold k in E.
    - apply (file_sector_wp s fs j f k); try done; [congruence | rewrite Hbl; apply nblk_covers | by rewrite <- E1].
    - apply (old_sector_wp s fs j f k); try done. lia. }
  intros [din x] s1 (f1 & Ed & Hx & Ec & El & Ea & I1 & M1 & Ef). cbn [fst snd] in *. subst din.
  assert (<[j := f1]> fs !! j = Some f1) as Hj1 by (apply list_lookup_insert_eq; by eapply lookup_lt_Some).
  destruct (owned_small s1 _ j f1 k I1 Hj1 Hk x) as (_ & _ & Hxs & Hxl); [unfold owned; apply elem_of_app; left; by eapply list_elem_of_lookup_2|].
  wp_step. apply rsect_wp; [done | done|]. wp_step. apply wsect_wp; [done|].
  destruct (data_step s1 _ j f1 q x I1 Hj1) as (I2 & M2 & Ef2); [by rewrite Ec | by rewrite Ec |].
  rewrite list_insert_insert_eq in I2. rewrite Ec in I2, M2, Ef2. fold off in I2, M2, Ef2. rewrite Ek in I2, M2, Ef2.
  apply (HQ (mkFile (f_d f1) (f_bl f1) (f_ind f1) (f_c f ++ q))). constructor; cbn [f_c f_bl f_d]; try done.
  - rewrite length_app, El, Hbl. done.
  - by etransitivity.
Qed.

Lemma append_loop_wp fuel : forall p s fs j f (Q : dinode * Z -> mkst -> Prop),
  blocks_inv s fs -> fs !! j = Some f -> length (f_bl f) = nblk (length (f_c f)) -> (length p < fuel)%nat ->
  (length (f_c f) + length p <= 268 * 1024)%nat -> freeblock s + nown (nblk (length (f_c f) + length p)) - nown (length (f_bl f)) <= FSSIZE ->
  (forall f' s', appended s fs j f p f' s' -> Q (f_d f', Z.of_nat (length (f_c f'))) s') ->
  wp (append_loop fuel (f_d f) (Z.of_nat (length (f_c f))) p) s Q.
Proof.
  induction fuel as [|fuel IH]; intros p s fs j f Q I Hj Hbl Hf Hmax Hroom HQ; [lia|]. unfold append_loop. cbn [loop].
  destruct p as [|c0 p0] eqn:Ep; [|rewrite <- Ep in *; assert (0 < length p)%nat as Hp by (rewrite Ep; cbn; lia); clear Ep].
  { wp_step. cbn [length]. change (0 <? Z.of_nat 0) with false. cbv iota. do 2 wp_step. apply (HQ f). constructor; try done; [by rewrite app_nil_r | by destruct (f_d f) | by rewrite list_insert_id | lia]. }
  set (c := f_c f) in *. set (off := Z.of_nat (length c)). rewrite (proj2 (Z.ltb_lt 0 _)) by lia.
  assert (off / BSIZE < MAXFILE) as Hm by (unfold off, BSIZE; change MAXFILE with 268; apply Z.div_lt_upper_bound; lia).
  rewrite (proj2 (Z.ltb_lt (off / BSIZE) _)) by done. cbn [negb].
  set (n1 := Nat.min (length p) (1024 - length c mod 1024)). pose proof (Nat.mod_upper_bound (length c) 1024) as Hmod. pose proof (Nat.div_mod_eq (length c) 1024) as Hdm.
  assert (Z.min (Z.of_nat (length p)) (u32 ((off / BSIZE + 1) * BSIZE - off)) = Z.of_nat n1) as En1.
  { unfold off, n1, BSIZE. change 1024 with (Z.of_nat 1024). rewrite <- Nat2Z.inj_div. rewrite u32_small by lia. lia. }
  rewrite En1, Nat2Z.id. wp_step. apply (append_turn_wp s fs j f (take n1 p)); try done.
  - rewrite length_take. lia.
  - rewrite length_take. fold c. lia.
  - rewrite length_take. fold c. lia.
  - eapply Z.le_trans; [|exact Hroom]. rewrite length_take. fold c.
    pose proof (nown_mono _ _ (nblk_mono (length c + n1 `min` length p) (length c + length p) ltac:(lia))). lia.
  - intros f1 s1 A1. pose proof (lookup_lt_Some _ _ _ Hj) as Hlt. assert (length (f_c f1) = length c + n1)%nat as El by (rewrite (ap_c _ _ _ _ _ _ _ A1), length_app, length_take; fold c; lia).
    assert (off + Z.of_nat n1 = Z.of_nat (length (f_c f1))) as Eo by (unfold off; lia).
    wp_step. cbn beta iota. rewrite u32_small by lia. rewrite Eo. apply (IH _ s1 (<[j := f1]> fs) j f1).
    + apply A1.
    + by apply list_lookup_insert_eq.
    + apply A1.
    + rewrite length_drop. lia.
    + rewrite length_drop. lia.
    + rewrite (ap_free _ _ _ _ _ _ _ A1), El, length_drop. replace (length c + n1 + (length p - n1))%nat with (length c + length p)%nat by lia. lia.
    + intros f2 s2 A2. apply (HQ f2 s2). rewrite <- (take_drop n1 p). by eapply appended_trans.
Qed.

