(* ===== verification/MkfsImage.v ===== *)
(** * The image while it is being made

    The invariant of MkfsFile.v together with the inodes; each operation of
    [mkfs] as an operation on a list of files. *)

From S2P Require Import Prelude KString Bytes Bio Log Fs FsThms FsData Mkfs MkfsFile.

(** ** The image with its inodes *)

(** File number [i] of the list has inode [i + 1]. *)
Definition inode_at (D : Z -> block) (i : Z) : dinode := rd_dinode (D (IBLOCK i the_sb)) (i mod IPB).

(** The fields of an inode besides its size and addresses. *)
Definition kind_of (d : dinode) : Z * Z * Z * Z := (type d, major d, minor d, nlink d).

Record file_inode (D : Z -> block) (i : nat) (f : file) : Prop := {
  fn_disk : inode_at D (Z.of_nat i + 1) = f_d f;
  fn_size : isize (f_d f) = Z.of_nat (length (f_c f));
  fn_tight : length (f_bl f) = nblk (length (f_c f));
  fn_ok : dinode_ok (f_d f)
}.

Record image (s : mkst) (fs : list file) : Prop := {
  im_blocks : blocks_inv s fs;
  im_files : forall i f, fs !! i = Some f -> file_inode (img s) i f;
  im_count : freeinode s = Z.of_nat (length fs) + 1;
  im_room : (length fs <= 207)%nat;
  im_free : forall i, i = 0 \/ Z.of_nat (length fs) < i < 208 -> inode_at (img s) i = dinode0;
  im_lens : forall a, 32 <= a < 45 -> length (img s a) = 1024%nat;
  im_sb : img s 1 = sb_bytes the_sb;
  im_zero : forall a, 2 <= a < 32 \/ a = 45 -> img s a = zeroes
}.

Lemma iblock_eq i : IBLOCK i the_sb = i / 16 + 32.
Proof. reflexivity. Qed.
Lemma iblock_range i : 0 <= i < 208 -> 32 <= IBLOCK i the_sb < 45 /\ 0 <= i mod IPB < IPB.
Proof. intros. rewrite iblock_eq. change IPB with 16. dlia. Qed.

Lemma rinode_wp s fs j f (Q : dinode -> mkst -> Prop) : image s fs -> fs !! j = Some f -> Q (f_d f) s -> wp (rinode (Z.of_nat j + 1)) s Q.
Proof.
  intros I Hj HQ. pose proof (lookup_lt_Some _ _ _ Hj). pose proof (im_room _ _ I). destruct (iblock_range (Z.of_nat j + 1)) as [H1 _]; [lia|].
  unfold rinode. do 2 wp_step. rewrite (bi_sb _ _ (im_blocks _ _ I)). wp_step. apply rsect_wp; [lia | rewrite (bi_len _ _ (im_blocks _ _ I)); unfold FSSIZE; lia |].
  wp_step. destruct (im_files _ _ I j f Hj) as [E _ _ _]. unfold inode_at in E. by rewrite E.
Qed.

(** The state after an inode has been written. *)
Definition put_dinode (s : mkst) (i : Z) (d : dinode) : mkst :=
  mkMk (fset (img s) (IBLOCK i the_sb) (wr_dinode (img s (IBLOCK i the_sb)) (i mod IPB) d)) (sectors s) (freeinode s) (freeblock s) (msb s).

Lemma winode_wp s i d (Q : unit -> mkst -> Prop) : msb s = the_sb -> sectors s = FSSIZE -> 0 <= i < 208 -> Q tt (put_dinode s i d) -> wp (winode i d) s Q.
Proof.
  intros Hsb Hl Hi HQ. destruct (iblock_range i Hi) as [H1 _]. unfold winode. do 2 wp_step. rewrite Hsb. wp_step. apply rsect_wp; [lia | rewrite Hl; unfold FSSIZE; lia|].
  apply wsect_wp; [lia|]. rewrite Z.max_l by (rewrite Hl; unfold FSSIZE; lia). exact HQ.
Qed.

Lemma put_dinode_at s i d : 0 <= i < 208 -> length (img s (IBLOCK i the_sb)) = 1024%nat -> dinode_ok d ->
  inode_at (img (put_dinode s i d)) i = d /\ (forall k, 0 <= k < 208 -> k <> i -> inode_at (img (put_dinode s i d)) k = inode_at (img s) k).
Proof.
  intros Hi Hl Hd. destruct (iblock_range i Hi) as [_ H1]. destruct (dinode_roundtrip (img s (IBLOCK i the_sb)) (i mod IPB) d Hl H1 Hd) as (E1 & E2 & _).
  unfold inode_at. cbn [img put_dinode]. split; [by rewrite fset_eq|]. intros k Hk Hne. destruct (iblock_range k Hk) as [_ H2].
  destruct (decide (IBLOCK k the_sb = IBLOCK i the_sb)) as [E|E]; [|by rewrite fset_ne].
  rewrite E, fset_eq. apply E2; [done|]. rewrite !iblock_eq in E. change IPB with 16 in *. intros Em. apply Hne. dlia.
Qed.

(** Blocks of files are not touched by writing an inode. *)
Lemma put_dinode_blocks s fs i d : blocks_inv s fs -> 0 <= i < 208 -> blocks_inv (put_dinode s i d) fs.
Proof.
  intros I Hi. destruct (iblock_range i Hi) as [H1 _]. pose proof (bi_free _ _ I) as Hfr. change nmeta with 46 in Hfr.
  constructor; try apply I; cbn [img put_dinode freeblock].
  - apply Forall_lookup_2. intros k f Hk. eapply filed_frame; [by eapply (Forall_lookup_1 _ _ _ _ (bi_files _ _ I))|].
    intros a Ha. pose proof (owned_range _ _ _ _ _ I Hk Ha) as Hr. change nmeta with 46 in Hr. apply fset_ne. lia.
  - intros a Ha. rewrite fset_ne by lia. by apply (bi_fresh _ _ I).
Qed.

(** The addresses of a file fit their fields. *)
Lemma filed_addrs s fs j f : blocks_inv s fs -> fs !! j = Some f -> Forall (fun a => 0 <= a < 2 ^ 32) (addrs (f_d f)).
Proof.
  intros I Hj. assert (filed (img s) f) as F by (by eapply (Forall_lookup_1 _ _ _ _ (bi_files _ _ I))).
  assert (forall o, (forall a, o = Some a -> a ∈ owned f) -> 0 <= default 0 o < 2 ^ 32) as HO.
  { intros [a|] Ho; cbn; [|lia]. pose proof (owned_range _ _ _ _ _ I Hj (Ho a eq_refl)) as Hr. pose proof (bi_free _ _ I). change nmeta with 46 in Hr. unfold FSSIZE in *. unfold id. lia. }
  apply Forall_lookup_2. intros i a Hi. pose proof (lookup_lt_Some _ _ _ Hi) as Hl. rewrite (fd_len _ _ F) in Hl. apply list_lookup_total_correct in Hi as <-.
  destruct (decide (i < 12)%nat) as [H12|H12].
  - rewrite (fd_direct _ _ F) by done. apply HO. intros a Ha. unfold owned. apply elem_of_app. left. by eapply list_elem_of_lookup_2.
  - replace i with 12%nat by lia. rewrite (fd_indirect _ _ F). apply HO. intros a Ha. unfold owned. rewrite Ha. set_solver.
Qed.

(** ** The operations on the image *)

Lemma file_inode_frame D D' i f : file_inode D i f -> inode_at D' (Z.of_nat i + 1) = inode_at D (Z.of_nat i + 1) -> file_inode D' i f.
Proof. intros [H1 H2 H3 H4] E. constructor; try done. by rewrite E. Qed.

(** The same file with another size in its inode. *)
Definition resize (n : Z) (f : file) : file := mkFile (set_size n (f_d f)) (f_bl f) (f_ind f) (f_c f).

Lemma blocks_resize s fs j f n : blocks_inv s fs -> fs !! j = Some f -> blocks_inv s (<[j := resize n f]> fs).
Proof.
  intros I Hj. apply (blocks_step s s fs j f _ 0); try done; try lia.
  - by rewrite app_nil_r.
  - pose proof (bi_free _ _ I). lia.
  - assert (filed (img s) f) as [H1 H2 H3 H4 H5 H6 H7] by (by eapply (Forall_lookup_1 _ _ _ _ (bi_files _ _ I))). by constructor.
Qed.

(** The blocks of file [j] have changed, and then its inode is written. *)
Lemma image_put s s1 fs j f f1 n : image s fs -> fs !! j = Some f -> blocks_inv s1 (<[j := f1]> fs) -> meta_same s s1 ->
  length (f_bl f1) = nblk (length (f_c f1)) -> dinode_ok (set_size n (f_d f1)) -> n = Z.of_nat (length (f_c f1)) ->
  image (put_dinode s1 (Z.of_nat j + 1) (set_size n (f_d f1))) (<[j := resize n f1]> fs).
Proof.
  intros I Hj I1 [Mi Md] Hbl Hok Hn. pose proof (lookup_lt_Some _ _ _ Hj) as Hlt. pose proof (im_room _ _ I) as H207.
  assert (forall i, 0 <= i < 208 -> inode_at (img s1) i = inode_at (img s) i) as Hin.
  { intros i Hi. unfold inode_at. rewrite Md; [done|]. pose proof (iblock_range i Hi). change nmeta with 46. lia. }
  destruct (iblock_range (Z.of_nat j + 1) ltac:(lia)) as [Hb _].
  destruct (put_dinode_at s1 (Z.of_nat j + 1) (set_size n (f_d f1))) as [P1 P2]; [lia | rewrite Md by (change nmeta with 46; lia); by apply (im_lens _ _ I) | done |].
  set (s2 := put_dinode s1 _ _) in *. assert (forall a, ~ 32 <= a < 45 -> a < 46 -> img s2 a = img s a) as Hother.
  { intros a Ha H46. cbn [img s2 put_dinode]. rewrite fset_ne by lia. apply Md. change nmeta with 46. lia. }
  constructor.
  - apply put_dinode_blocks; [|lia]. rewrite <- (list_insert_insert_eq fs j (resize n f1) f1). apply blocks_resize; [done | by apply list_lookup_insert_eq].
  - intros i g Hi. destruct (decide (i = j)) as [->|Hne].
    + rewrite list_lookup_insert_eq in Hi by done. injection Hi as <-. by constructor.
    + rewrite list_lookup_insert_ne in Hi by done. pose proof (lookup_lt_Some _ _ _ Hi). eapply file_inode_frame; [by apply (im_files _ _ I)|].
      rewrite P2 by lia. apply Hin. lia.
  - rewrite length_insert. cbn. rewrite Mi. apply I.
  - by rewrite length_insert.
  - intros i Hi. rewrite length_insert in Hi. rewrite P2, Hin by lia. by apply (im_free _ _ I).
  - intros a Ha. cbn [img s2 put_dinode]. destruct (decide (a = IBLOCK (Z.of_nat j + 1) the_sb)) as [->|Hne].
    + rewrite fset_eq. unfold wr_dinode. rewrite wr_words_length. unfold wr32, wr16. rewrite !wr_length. rewrite Md by (change nmeta with 46; lia). by apply (im_lens _ _ I).
    + rewrite fset_ne, Md by (done || (change nmeta with 46; lia)). by apply (im_lens _ _ I).
  - rewrite Hother by lia. apply I.
  - intros a Ha. rewrite Hother by lia. by apply (im_zero _ _ I).
Qed.

(** [iappend] adds bytes at the end of a file. *)
Lemma iappend_wp s fs j f p (Q : unit -> mkst -> Prop) : image s fs -> fs !! j = Some f ->
  (length (f_c f) + length p <= 268 * 1024)%nat -> freeblock s + nown (nblk (length (f_c f) + length p)) - nown (length (f_bl f)) <= FSSIZE ->
  (forall f' s', image s' (<[j := f']> fs) -> f_c f' = f_c f ++ p -> kind_of (f_d f') = kind_of (f_d f) ->
    freeblock s' = freeblock s + nown (length (f_bl f')) - nown (length (f_bl f)) -> Q tt s') ->
  wp (iappend (Z.of_nat j + 1) p) s Q.
Proof.
  intros I Hj Hmax Hroom HQ. pose proof (lookup_lt_Some _ _ _ Hj) as Hlt. pose proof (im_room _ _ I) as H207. destruct (im_files _ _ I j f Hj) as [E1 E2 E3 E4].
  unfold iappend. wp_step. eapply rinode_wp; [done..|]. wp_step. rewrite E2, xint_small by lia. eapply (append_loop_wp _ _ s fs j f); [apply I | done | done | lia | done | done |].
  intros f1 s1 [A1 A2 A3 A4 [A5 A5'] A6]. assert (<[j := f1]> fs !! j = Some f1) as Hj1 by (by apply list_lookup_insert_eq).
  assert (length (f_c f1) = length (f_c f) + length p)%nat as El by (by rewrite A1, length_app). rewrite xint_small by lia.
  apply winode_wp; [apply A4 | apply A4 | lia |]. set (n := Z.of_nat (length (f_c f1))). assert (dinode_ok (set_size n (f_d f1))) as Hok.
  { pose proof (filed_addrs _ _ _ _ A4 Hj1) as Ha. assert (filed (img s1) f1) as F by (by eapply (Forall_lookup_1 _ _ _ _ (bi_files _ _ A4))).
    destruct E4. constructor; cbn [type major minor nlink isize addrs set_size]; [by rewrite <- A3.. | lia | apply F | done]. }
  apply (HQ (resize n f1)); [eapply image_put; done | done | | done]. unfold kind_of. cbn. by rewrite <- A3.
Qed.

(** ** The image as a list of files

    What counts is the kind and the contents of each file. *)

Notation entry_ := (Z * Z * Z * Z * list Z)%type (only parsing).

Definition abs (fs : list file) : list entry_ := (fun f => (kind_of (f_d f), f_c f)) <$> fs.
Definition imaged (s : mkst) (A : list entry_) : Prop := exists fs, image s fs /\ abs fs = A.

(** The blocks that files take. *)
Definition space (A : list entry_) : Z := foldr (fun e n => nown (nblk (length (snd e))) + n) 0 A.

Lemma owned_count D f : filed D f -> Z.of_nat (length (owned f)) = nown (length (f_bl f)).
Proof.
  intros F. unfold owned, nown. rewrite length_app. destruct (Nat.ltb_spec 12 (length (f_bl f))) as [H|H].
  - destruct (f_ind f) eqn:E; [cbn; lia|]. apply (fd_need _ _ F) in E. lia.
  - assert (f_ind f = None) as -> by (by apply (fd_need _ _ F)). cbn. lia.
Qed.
Lemma owned_space D fs : Forall (filed D) fs -> (forall i f, fs !! i = Some f -> length (f_bl f) = nblk (length (f_c f))) -> Z.of_nat (length (fs ≫= owned)) = space (abs fs).
Proof.
  induction fs as [|f fs IH]; intros HF Ht; [done|]. apply Forall_cons in HF as [F HF]. rewrite bind_cons, length_app. change (space (abs (f :: fs))) with (nown (nblk (length (f_c f))) + space (abs fs)).
  rewrite Nat2Z.inj_add, (owned_count D), (Ht 0%nat f) by done.
  rewrite <- IH; [done | done|]. intros i g Hi. by apply (Ht (S i)).
Qed.
Lemma free_space s fs : image s fs -> freeblock s = nmeta + space (abs fs).
Proof.
  intros I. rewrite <- (owned_space (img s) fs); [|apply I | intros i f Hi; apply (im_files _ _ I i f Hi)].
  rewrite (bi_own _ _ (im_blocks _ _ I)), length_seqZ. pose proof (bi_free _ _ (im_blocks _ _ I)). lia.
Qed.

Lemma space_cons e A : space (e :: A) = nown (nblk (length (snd e))) + space A.
Proof. done. Qed.
Lemma space_app A B : space (A ++ B) = space A + space B.
Proof. induction A as [|e A IH]; [done|]. cbn [app]. rewrite !space_cons, IH. lia. Qed.
Lemma nown_nonneg n : 0 <= nown n.
Proof. unfold nown. destruct (12 <? n)%nat; lia. Qed.
Lemma space_insert A j e e' : A !! j = Some e -> space (<[j := e']> A) = space A + nown (nblk (length (snd e'))) - nown (nblk (length (snd e))).
Proof.
  intros Hj. rewrite insert_take_drop by (by eapply lookup_lt_Some). rewrite <- (take_drop_middle A j e Hj) at 3. rewrite !space_app, !space_cons. lia.
Qed.

Lemma iappend_spec s A j kd c p (Q : unit -> mkst -> Prop) : imaged s A -> A !! j = Some (kd, c) -> (length (c ++ p) <= 268 * 1024)%nat ->
  nmeta + space (<[j := (kd, c ++ p)]> A) <= FSSIZE -> (forall s', imaged s' (<[j := (kd, c ++ p)]> A) -> Q tt s') -> wp (iappend (Z.of_nat j + 1) p) s Q.
Proof.
  intros (fs & I & <-) HA Hmax Hroom HQ. rewrite length_app in Hmax. pose proof HA as HA'. unfold abs in HA'. rewrite list_lookup_fmap in HA'.
  destruct (fs !! j) as [f|] eqn:Hj; [|done]. cbn in HA'. injection HA' as Ek Ec. rewrite (space_insert _ _ _ _ HA) in Hroom. cbn [snd] in Hroom. rewrite length_app in Hroom.
  destruct (im_files _ _ I j f Hj) as [_ _ Ht _]. rewrite Ec in Ht. eapply iappend_wp; [done | done | by rewrite Ec | rewrite Ec, (free_space s fs), Ht by done; lia |].
  intros f' s' I' Ec' Ek' _. apply HQ. exists (<[j := f']> fs). split; [done|]. unfold abs. rewrite list_fmap_insert, Ec', Ec, Ek', <- Ek. done.
Qed.

Lemma space_nonneg A : 0 <= space A.
Proof. induction A as [|e A IH]; [done|]. rewrite space_cons. pose proof (nown_nonneg (nblk (length (snd e)))). lia. Qed.

Lemma append_all_spec pieces : forall s A j kd c (Q : unit -> mkst -> Prop), imaged s A -> A !! j = Some (kd, c) -> (length (c ++ mjoin pieces) <= 268 * 1024)%nat ->
  nmeta + space (<[j := (kd, c ++ mjoin pieces)]> A) <= FSSIZE -> (forall s', imaged s' (<[j := (kd, c ++ mjoin pieces)]> A) -> Q tt s') ->
  wp (append_all (Z.of_nat j + 1) pieces) s Q.
Proof.
  induction pieces as [|p pieces IH]; intros s A j kd c Q I Hj Hmax Hroom HQ; cbn [append_all].
  - wp_step. apply HQ. cbn. rewrite app_nil_r. by rewrite list_insert_id.
  - change (mjoin (p :: pieces)) with (p ++ mjoin pieces) in *. rewrite app_assoc in *. pose proof (lookup_lt_Some _ _ _ Hj) as Hlt.
    wp_step. eapply iappend_spec; [done | done | rewrite length_app in Hmax; lia | |].
    { rewrite (space_insert _ _ _ _ Hj) in Hroom. rewrite (space_insert _ _ _ _ Hj). cbn [snd] in *. pose proof (nown_mono _ _ (nblk_mono (length (c ++ p)) (length ((c ++ p) ++ mjoin pieces)) ltac:(rewrite (length_app (c ++ p)); lia))). lia. }
    intros s' I'. eapply IH; [done | by apply list_lookup_insert_eq | done | by rewrite list_insert_insert_eq |]. intros s2 I2. rewrite list_insert_insert_eq in I2. by apply HQ.
Qed.

(** [ialloc] adds an empty file. *)
Lemma ialloc_wp s fs ty (Q : Z -> mkst -> Prop) : image s fs -> (length fs < 207)%nat -> 0 <= ty < 2 ^ 15 ->
  (forall s', image s' (fs ++ [mkFile (mkDinode ty 0 0 1 0 (replicate 13 0)) [] None []]) -> Q (Z.of_nat (length fs) + 1) s') -> wp (ialloc ty) s Q.
Proof.
  intros I Hlen Hty HQ. pose proof (im_blocks _ _ I) as B. unfold ialloc. do 4 wp_step. rewrite (im_count _ _ I), u32_small by lia. wp_step.
  assert (i16 (xshort ty) = ty) as -> by (rewrite xshort_small by lia; rewrite <- (Z.mod_small ty (2 ^ 16)) at 1 by lia; apply i16_u16; lia).
  change (i16 (xshort 1)) with 1. change (xint 0) with 0. set (d := mkDinode ty 0 0 1 0 (replicate 13 0)). set (s1 := mkMk (img s) _ _ _ _).
  apply winode_wp; [apply B | apply B | lia |]. wp_step. apply HQ. set (i := Z.of_nat (length fs) + 1) in *.
  assert (dinode_ok d) as Hd by (constructor; cbn; repeat constructor; lia).
  destruct (iblock_range i ltac:(unfold i; lia)) as [Hb _].
  destruct (put_dinode_at s1 i d ltac:(unfold i; lia)) as [P1 P2]; [by apply (im_lens _ _ I) | done |].
  assert (forall a, ~ 32 <= a < 45 -> img (put_dinode s1 i d) a = img s a) as Hother by (intros a Ha; cbn; apply fset_ne; lia).
  constructor.
  - apply put_dinode_blocks; [|unfold i; lia]. destruct B as [B1 B2 B3 B4 B5 B6]. constructor; try done; cbn [img freeblock s1].
    + rewrite bind_app. cbn. by rewrite app_nil_r.
    + apply Forall_app. split; [done|]. constructor; [|done]. constructor; cbn [f_d f_bl f_ind f_c addrs length]; try done; try lia.
      * intros k Hk. by apply lookup_total_replicate_2; lia.
      * split; [lia | done].
  - intros k g Hk. apply lookup_app_Some in Hk as [Hk|[Hk1 Hk2]].
    + pose proof (lookup_lt_Some _ _ _ Hk). eapply file_inode_frame; [by apply (im_files _ _ I)|]. by rewrite P2 by (unfold i; lia).
    + apply list_lookup_singleton_Some in Hk2 as [Hk2 <-]. replace k with (length fs) by lia. constructor; try done.
  - rewrite length_app. cbn. lia.
  - rewrite length_app. cbn. lia.
  - intros k Hk. rewrite length_app in Hk. cbn [length] in Hk. rewrite P2 by (unfold i; lia). apply (im_free _ _ I). lia.
  - intros a Ha. cbn [img put_dinode]. destruct (decide (a = IBLOCK i the_sb)) as [->|Hne].
    + rewrite fset_eq. unfold wr_dinode. rewrite wr_words_length. unfold wr32, wr16. rewrite !wr_length. by apply (im_lens _ _ I).
    + rewrite fset_ne by done. by apply (im_lens _ _ I).
  - rewrite Hother by lia. apply I.
  - intros a Ha. rewrite Hother by lia. by apply (im_zero _ _ I).
Qed.
Lemma ialloc_spec s A ty (Q : Z -> mkst -> Prop) : imaged s A -> (length A < 207)%nat -> 0 <= ty < 2 ^ 15 ->
  (forall s', imaged s' (A ++ [((ty, 0, 0, 1), [])]) -> Q (Z.of_nat (length A) + 1) s') -> wp (ialloc ty) s Q.
Proof.
  intros (fs & I & <-) Hl Hty HQ. unfold abs in *. rewrite length_fmap in *. eapply ialloc_wp; [done..|]. intros s' I'. apply HQ.
  eexists. split; [exact I'|]. unfold abs. by rewrite fmap_app.
Qed.

(** ** All files *)

Section Files.
  Context (host : list Z -> option (list (list Z))).

Definition name_of (path : list Z) : list Z := skip_underscore (skip_user path).
Definition data_of (path : list Z) : list Z := mjoin (default [] (host path)).

(** A path that [mkfs] accepts. *)
Definition good_path (path : list Z) : Prop := 47 ∉ skip_user path /\ host path <> None /\ (length (data_of path) <= 268 * 1024)%nat.

(** The entries of the root directory for the files, whose inodes start at [i]. *)
Fixpoint links (i : Z) (paths : list (list Z)) : list Z :=
  match paths with
  | [] => []
  | p :: paths' => mk_dirent (name_of p) i ++ links (i + 1) paths'
  end.
Definition file_entry (path : list Z) : entry_ := ((T_FILE, 0, 0, 1), data_of path).

Lemma mk_dirent_length name i : length (mk_dirent name i) = 16%nat.
Proof.
  unfold mk_dirent, wr16. rewrite !length_app, wr_length, !length_replicate, length_take. change (Z.to_nat DIRSIZ) with 14%nat. change (Z.to_nat (DIRSIZ - 1)) with 13%nat. lia.
Qed.
Lemma links_length paths : forall i, length (links i paths) = (16 * length paths)%nat.
Proof. induction paths as [|p paths IH]; intros i; [done|]. cbn [links length]. rewrite length_app, mk_dirent_length, IH. lia. Qed.

Lemma space_grow kd c c' A : (length c <= length c')%nat -> space ((kd, c) :: A) <= space ((kd, c') :: A).
Proof. intros H. rewrite !space_cons. cbn [snd]. pose proof (nown_mono _ _ (nblk_mono _ _ H)). lia. Qed.

Lemma add_file_spec s kd c A path (Q : unit -> mkst -> Prop) : imaged s ((kd, c) :: A) -> good_path path -> (length A < 206)%nat -> (length c + 16 <= 268 * 1024)%nat ->
  let d := mk_dirent (name_of path) (Z.of_nat (length A) + 2) in
  nmeta + space ((kd, c ++ d) :: A ++ [file_entry path]) <= FSSIZE ->
  (forall s', imaged s' ((kd, c ++ d) :: A ++ [file_entry path]) -> Q tt s') -> wp (add_file host path) s Q.
Proof.
  intros I (Hs & Hh & Hd) Hl Hc d Hroom HQ. unfold add_file. cbv zeta. assert (existsb (Z.eqb 47) (skip_user path) = false) as ->.
  { apply not_true_iff_false. intros H. apply existsb_exists in H as (x & Hx & E). bool_prop. subst x. by apply Hs, list_elem_of_In. }
  unfold data_of in *. destruct (host path) as [pieces|] eqn:Eh; [|done]. cbn [option.from_option id] in Hd.
  assert (length d = 16%nat) as Hdl by (apply mk_dirent_length). assert (file_entry path = ((T_FILE, 0, 0, 1), mjoin pieces)) as Ef by (unfold file_entry, data_of; by rewrite Eh). rewrite Ef in *.
  wp_step. eapply ialloc_spec; [done | cbn; lia | unfold T_FILE; lia |]. intros s1 I1. cbn [length app] in *.
  replace (Z.of_nat (S (length A)) + 1) with (Z.of_nat (length A) + 2) by lia. change (mk_dirent (skip_underscore (skip_user path)) (Z.of_nat (length A) + 2)) with d. wp_step.
  change ROOTINO with (Z.of_nat 0 + 1). eapply (iappend_spec s1 _ 0 kd c); [done | done | rewrite length_app; lia | |].
  { cbn [list_insert insert]. rewrite space_cons, space_app, space_cons in *. cbn [snd] in *. pose proof (nown_mono _ _ (nblk_mono 0 (length (mjoin pieces)) ltac:(lia))). cbn [length]. lia. }
  intros s2 I2. cbn [list_insert insert] in I2. replace (Z.of_nat (length A) + 2) with (Z.of_nat (S (length A)) + 1) by lia.
  assert (forall e, <[S (length A) := e]> ((kd, c ++ d) :: A ++ [((T_FILE, 0, 0, 1), [])]) = (kd, c ++ d) :: A ++ [e]) as Hi.
  { intros e. transitivity ((kd, c ++ d) :: <[length A := e]> (A ++ [((T_FILE, 0, 0, 1), [])])); [done|]. by rewrite insert_app_r_alt, Nat.sub_diag by lia. }
  eapply (append_all_spec pieces s2 _ (S (length A)) (T_FILE, 0, 0, 1) []); [done | transitivity ((A ++ [((T_FILE, 0, 0, 1), [] : list Z)]) !! length A); [done | by rewrite lookup_app_r, Nat.sub_diag by lia] | done | |];
    cbn [app]; rewrite Hi; [done|].
  apply HQ.
Qed.
Lemma add_files_spec paths : forall s kd c A (Q : unit -> mkst -> Prop), imaged s ((kd, c) :: A) -> Forall good_path paths ->
  (length A + length paths <= 206)%nat -> (length c + 16 * length paths <= 268 * 1024)%nat ->
  let c' := c ++ links (Z.of_nat (length A) + 2) paths in
  nmeta + space ((kd, c') :: A ++ (file_entry <$> paths)) <= FSSIZE ->
  (forall s', imaged s' ((kd, c') :: A ++ (file_entry <$> paths)) -> Q tt s') -> wp (add_files host paths) s Q.
Proof.
  induction paths as [|p paths IH]; intros s kd c A Q I Hg Hl Hc c' Hroom HQ; cbn [add_files].
  - wp_step. apply HQ. unfold c'. cbn. by rewrite !app_nil_r.
  - apply Forall_cons in Hg as [Hp Hg]. cbn [length] in *. rewrite fmap_cons in *. unfold c' in *. cbn [links] in *.
    set (d := mk_dirent (name_of p) (Z.of_nat (length A) + 2)) in *. assert (length d = 16%nat) as Hd by apply mk_dirent_length.
    assert (Z.of_nat (length A) + 2 + 1 = Z.of_nat (length (A ++ [file_entry p])) + 2) as El by (rewrite length_app; cbn; lia).
    rewrite El in Hroom, HQ. rewrite app_assoc in Hroom, HQ. assert (A ++ file_entry p :: (file_entry <$> paths) = (A ++ [file_entry p]) ++ (file_entry <$> paths)) as EA by (by rewrite <- app_assoc). rewrite EA in Hroom, HQ.
    wp_step. eapply (add_file_spec s kd c A p); [done | done | lia | lia | |].
    + fold d. eapply Z.le_trans; [|exact Hroom]. rewrite !space_cons, !space_app. cbn [snd].
      pose proof (nown_mono _ _ (nblk_mono (length (c ++ d)) (length ((c ++ d) ++ links (Z.of_nat (length (A ++ [file_entry p])) + 2) paths)) ltac:(rewrite (length_app (c ++ d)); lia))).
      pose proof (space_nonneg (file_entry <$> paths)). lia.
    + fold d. intros s1 I1. eapply (IH s1 kd (c ++ d)); [done | done | rewrite length_app; cbn; lia | rewrite length_app; lia | done | done].
Qed.
End Files.

(** ** The empty image *)

Lemma rd_dinode_zeroes k : 0 <= k < IPB -> rd_dinode zeroes k = dinode0.
Proof.
  change IPB with 16. intros Hk. unfold rd_dinode, rd16, rd32. rewrite !rd_zeroes by (unfold BSIZE; lia). unfold dinode0. f_equal.
  transitivity ((fun _ : Z => 0) <$> seqZ 0 13); [|done]. apply list_fmap_ext. intros i x Hx%lookup_seqZ. apply rd_zeroes; unfold BSIZE; lia.
Qed.

(** Every sector is zero but the superblock. *)
Lemma image_empty s : msb s = the_sb -> sectors s = FSSIZE -> freeinode s = 1 -> freeblock s = nmeta -> img s 1 = sb_bytes the_sb ->
  (forall a, a <> 1 -> img s a = zeroes) -> image s [].
Proof.
  intros H1 H2 H3 H4 H5 H6. constructor; try done.
  - constructor; try done.
    + rewrite H4. unfold FSSIZE. change nmeta with 46. lia.
    + by rewrite H4, Z.sub_diag.
    + intros a Ha. apply H6. rewrite H4 in Ha. change nmeta with 46 in Ha. lia.
  - cbn. lia.
  - intros i Hi. cbn in Hi. unfold inode_at. destruct (iblock_range i ltac:(lia)) as [Ha Hk]. rewrite H6 by lia. by apply rd_dinode_zeroes.
  - intros a Ha. rewrite H6 by lia. done.
  - intros a Ha. apply H6. lia.
Qed.

Lemma clear_wp s (Q : unit -> mkst -> Prop) : (forall a, img s a = zeroes) -> sectors s = 0 ->
  (forall s', (forall a, img s' a = zeroes) -> sectors s' = FSSIZE -> freeinode s' = freeinode s -> freeblock s' = freeblock s -> msb s' = msb s -> Q tt s') ->
  wp (for_range 0 FSSIZE (fun i => wsect i zeroes)) s Q.
Proof.
  intros H0 Hs HQ.
  apply (wp_for_range (fun i s' => (forall a, img s' a = zeroes) /\ sectors s' = i /\ freeinode s' = freeinode s /\ freeblock s' = freeblock s /\ msb s' = msb s)).
  - unfold FSSIZE. lia.
  - done.
  - intros i s' Hi (I1 & I2 & I3 & I4 & I5). apply wsect_wp; [unfold FSSIZE in Hi; lia|]. cbn. split_and!; try done; [|lia].
    intros a. unfold fset. by case_match.
  - intros s' (I1 & I2 & I3 & I4 & I5). by apply HQ.
Qed.
