(* ===== verification/MkfsThms.v ===== *)
(** * What is on a disk image

    The finished image, in the terms in which the kernel reads it (FsData.v):
    the superblock, the directory with the names, the files with their contents,
    and the bitmap. *)

From S2P Require Import Prelude KString Bytes Bio Log Fs FsThms FsData Mkfs MkfsFile MkfsImage.

(** ** What the kernel sees *)

(** The first [n] bytes of a file, with zeroes after its end. *)
Definition padded (c : list Z) (n : Z) : list Z := (fun i => default 0 (c !! Z.to_nat i)) <$> seqZ 0 n.

Lemma padded_all c : padded c (Z.of_nat (length c)) = c.
Proof.
  apply list_eq. intros i. unfold padded. rewrite list_lookup_fmap. destruct (c !! i) as [x|] eqn:E.
  - pose proof (lookup_lt_Some _ _ _ E). rewrite lookup_seqZ_lt by lia. cbn. by rewrite Z.add_0_l, Nat2Z.id, E.
  - apply lookup_ge_None in E. by rewrite lookup_seqZ_ge by lia.
Qed.

Section View.
  Context (D : Z -> block) (f : file) (d : dinode).
  Context (F : filed D f) (Ha : addrs d = addrs (f_d f)) (Hr : forall a, a ∈ owned f -> 0 < a < 2 ^ 32).

Lemma faddr_bl k a : f_bl f !! k = Some a -> faddr D d (Z.of_nat k) = a.
Proof.
  intros Hk. pose proof (lookup_lt_Some _ _ _ Hk) as Hl. pose proof (fd_max _ _ F) as Hm. unfold faddr, NDIRECT. rewrite Ha. case_if.
  - rewrite Nat2Z.id, (fd_direct _ _ F), Hk by lia. done.
  - change (Z.to_nat 12) with 12%nat. rewrite (fd_indirect _ _ F). destruct (f_ind f) as [x|] eqn:Ei; [|apply (fd_need _ _ F) in Ei; lia].
    destruct (fd_ind _ _ F x Ei) as [_ Hw]. specialize (Hw (k - 12)%nat ltac:(lia)). replace (Z.of_nat (k - 12)) with (Z.of_nat k - 12) in Hw by lia.
    cbn [option.from_option id]. rewrite Hw. replace (12 + (k - 12))%nat with k by lia. by rewrite Hk.
Qed.
Lemma faddr_owned k : 0 <= k < Z.of_nat (length (f_bl f)) -> exists a, f_bl f !! Z.to_nat k = Some a /\ faddr D d k = a /\ a ∈ owned f.
Proof.
  intros Hk. destruct (lookup_lt_is_Some_2 (f_bl f) (Z.to_nat k)) as [a Ea]; [lia|]. exists a. split; [done|]. split.
  - rewrite <- (faddr_bl _ _ Ea). f_equal. lia.
  - unfold owned. apply elem_of_app. left. by eapply list_elem_of_lookup_2.
Qed.

Lemma view_byte o : 0 <= o < Z.of_nat (length (f_bl f)) * 1024 -> fbyte D d o = default 0 (f_c f !! Z.to_nat o).
Proof.
  intros Ho. unfold fbyte, BSIZE. destruct (faddr_owned (o / 1024)) as (a & Ea & -> & _); [dlia|].
  rewrite (fd_data _ _ F _ _ Ea). erewrite list_lookup_total_correct by (apply bdata_lookup; dlia).
  do 2 f_equal. dlia.
Qed.
Lemma view_content n : 0 <= n <= Z.of_nat (length (f_bl f)) * 1024 -> content D d 0 n = padded (f_c f) n.
Proof. intros Hn. unfold content, padded. apply list_fmap_ext. intros i x Hx%lookup_seqZ. apply view_byte. lia. Qed.

Lemma view_ok : 0 <= isize d <= Z.of_nat (length (f_bl f)) * 1024 -> file_ok D [] d.
Proof.
  intros Hs. pose proof (fd_max _ _ F) as Hm. assert (forall a, a ∈ owned f -> length (D a) = 1024%nat -> readable D [] a) as HR.
  { intros a Hao Hl. split; [by apply Hr|]. split; [apply not_elem_of_nil | done]. }
  constructor.
  - change (MAXFILE * BSIZE) with (268 * 1024). lia.
  - rewrite Ha. apply F.
  - unfold NDIRECT, BSIZE. intros Hi. change (Z.to_nat 12) with 12%nat. rewrite Ha, (fd_indirect _ _ F).
    destruct (f_ind f) as [x|] eqn:Ei; [|apply (fd_need _ _ F) in Ei; lia]. apply HR; [unfold owned; rewrite Ei; set_solver | by apply (fd_ind _ _ F)].
  - unfold BSIZE. intros bn H0 H1. destruct (faddr_owned bn) as (a & Ea & -> & Ho); [lia|]. apply HR; [done|]. rewrite (fd_data _ _ F _ _ Ea). apply bdata_length.
Qed.

End View.

(** The blocks of a file: those of its data, and the indirect block. *)
Definition file_blocks (D : Z -> block) (d : dinode) : list Z :=
  (faddr D d <$> seqZ 0 ((isize d + BSIZE - 1) / BSIZE)) ++ (if NDIRECT * BSIZE <? isize d then [addrs d !!! Z.to_nat NDIRECT] else []).

Lemma blocks_owned D f d : filed D f -> addrs d = addrs (f_d f) -> (isize d + 1023) / 1024 = Z.of_nat (length (f_bl f)) -> file_blocks D d = owned f.
Proof.
  intros F Ha Hn. unfold file_blocks, owned, BSIZE, NDIRECT. replace (isize d + 1024 - 1) with (isize d + 1023) by lia. rewrite Hn. f_equal.
  - apply list_eq. intros i. rewrite list_lookup_fmap. destruct (f_bl f !! i) as [a|] eqn:E.
    + pose proof (lookup_lt_Some _ _ _ E). rewrite lookup_seqZ_lt by lia. cbn. f_equal. rewrite Z.add_0_l. by apply (faddr_bl D f d).
    + apply lookup_ge_None in E. by rewrite lookup_seqZ_ge by lia.
  - case_if.
    + change (Z.to_nat 12) with 12%nat. rewrite Ha, (fd_indirect _ _ F). destruct (f_ind f) eqn:Ei; [done|]. apply (fd_need _ _ F) in Ei. dlia.
    + assert (f_ind f = None) as -> by (apply (fd_need _ _ F); dlia). done.
Qed.

(** ** The bitmap *)

Lemma set_bits_length l : forall x, length (foldl set_bit x l) = length x.
Proof. induction l as [|i l IH]; intros x; [done|]. cbn. rewrite IH. unfold set_bit. by rewrite length_insert. Qed.
Lemma set_bits l : forall x b, Forall (fun i => 0 <= i < 8 * Z.of_nat (length x)) l -> 0 <= b ->
  bit_is (foldl set_bit x l) b = bool_decide (b ∈ l) || bit_is x b.
Proof.
  induction l as [|i l IH]; intros x b Hl Hb; [by rewrite bool_decide_eq_false_2 by set_solver|]. apply Forall_cons in Hl as [Hi Hl]. cbn [foldl].
  assert (length (set_bit x i) = length x) as El by (unfold set_bit; by rewrite length_insert).
  rewrite IH, bit_is_set by (rewrite ?El; done). destruct (Z.eqb_spec b i) as [->|Hne].
  - rewrite (bool_decide_eq_true_2 (i ∈ i :: l)) by set_solver. cbn. by rewrite orb_true_r.
  - cbn [orb]. f_equal. apply bool_decide_ext. set_solver.
Qed.
Lemma bit_is_zeroes b : 0 <= b < 8192 -> bit_is zeroes b = false.
Proof.
  intros Hb. rewrite bit_is_testbit by lia. unfold zeroes. rewrite lookup_total_replicate_2; [apply Z.bits_0|]. unfold BSIZE. dlia.
Qed.
Lemma bitmap_used n b : 0 <= n <= FSSIZE -> 0 <= b < FSSIZE -> bit_is (foldl set_bit zeroes (seqZ 0 n)) b = (b <? n).
Proof.
  unfold FSSIZE. intros Hn Hb. rewrite set_bits; [|apply Forall_forall; intros i Hi%elem_of_seqZ; unfold zeroes; rewrite length_replicate; unfold BSIZE; lia | lia].
  rewrite bit_is_zeroes, orb_false_r by lia. destruct (Z.ltb_spec b n); [apply bool_decide_eq_true_2 | apply bool_decide_eq_false_2]; rewrite elem_of_seqZ; lia.
Qed.

(** ** The finished image *)

Section Made.
  Context (host : list Z -> option (list (list Z))).

(** The contents of the root directory. *)
Definition root_bytes (files : list (list Z)) : list Z := mk_dirent [46] ROOTINO ++ mk_dirent [46; 46] ROOTINO ++ links 2 files.
Definition inodes_of (D : Z -> block) (files : list (list Z)) : list dinode := inode_at D <$> seqZ 1 (Z.of_nat (length files) + 1).

Record made (D : Z -> block) (files : list (list Z)) : Prop := {
  md_sb : mkSb (rd32 (D 1) 0) (rd32 (D 1) 4) (rd32 (D 1) 8) (rd32 (D 1) 12) (rd32 (D 1) 16) (rd32 (D 1) 20) (rd32 (D 1) 24) (rd32 (D 1) 28) = the_sb;
  md_log : forall a, 2 <= a < 32 -> D a = zeroes;
  md_lens : forall a, 32 <= a < 45 -> length (D a) = Z.to_nat BSIZE;
  md_root : let d := inode_at D ROOTINO in kind_of d = (T_DIR, 0, 0, 1) /\ file_ok D [] d /\ isize d mod BSIZE = 0
    /\ Z.of_nat (length (root_bytes files)) <= isize d /\ content D d 0 (isize d) = padded (root_bytes files) (isize d);
  md_files : forall i path, files !! i = Some path -> let d := inode_at D (Z.of_nat i + 2) in kind_of d = (T_FILE, 0, 0, 1) /\ file_ok D [] d
    /\ isize d = Z.of_nat (length (data_of host path)) /\ content D d 0 (isize d) = data_of host path;
  md_free : forall i, Z.of_nat (length files) + 2 <= i < NINODES -> inode_at D i = dinode0;
  md_distinct : NoDup (inodes_of D files ≫= file_blocks D);
  md_range : Forall (fun b => nmeta <= b < FSSIZE) (inodes_of D files ≫= file_blocks D);
  md_bitmap : forall b, 0 <= b < FSSIZE -> used D the_sb b = true <-> b < nmeta \/ b ∈ inodes_of D files ≫= file_blocks D
}.

(** What [mkfs] is given: files that it can open, not too many or too long, and
    a directory that does not exactly fill its last block. *)
Record input_ok (files : list (list Z)) : Prop := {
  in_paths : Forall (good_path host) files;
  in_count : Z.of_nat (length files) + 2 <= NINODES;
  in_room : nmeta + space (((T_DIR, 0, 0, 1), root_bytes files) :: (file_entry host <$> files)) <= FSSIZE;
  in_dir : (Z.of_nat (length files) + 2) mod 64 <> 0
}.

(** The finished image in terms of its files. *)
Record finished (D : Z -> block) (files : list (list Z)) (f0 : file) (fr : list file) (n fb : Z) : Prop := {
  fin_abs : abs (f0 :: fr) = ((T_DIR, 0, 0, 1), root_bytes files) :: (file_entry host <$> files);
  fin_filed : Forall (filed D) (f0 :: fr);
  fin_own : (f0 :: fr) ≫= owned ≡ₚ seqZ nmeta (fb - nmeta);
  fin_fb : nmeta <= fb <= FSSIZE;
  fin_size : n = Z.of_nat (length (f_bl f0)) * 1024 /\ Z.of_nat (length (root_bytes files)) <= n;
  fin_root : inode_at D 1 = set_size n (f_d f0);
  fin_inodes : forall i f, fr !! i = Some f -> inode_at D (Z.of_nat i + 2) = f_d f /\ isize (f_d f) = Z.of_nat (length (f_c f)) /\ length (f_bl f) = nblk (length (f_c f));
  fin_free : forall i, i = 0 \/ Z.of_nat (length fr) + 1 < i < 208 -> inode_at D i = dinode0;
  fin_sb : D 1 = sb_bytes the_sb;
  fin_log : forall a, 2 <= a < 32 -> D a = zeroes;
  fin_lens : forall a, 32 <= a < 45 -> length (D a) = 1024%nat;
  fin_bits : D 45 = foldl set_bit zeroes (seqZ 0 fb)
}.

Section Finished.
  Context (D : Z -> block) (files : list (list Z)) (f0 : file) (fr : list file) (n fb : Z) (Fin : finished D files f0 fr n fb).

Lemma fin_range f a : f ∈ f0 :: fr -> a ∈ owned f -> 0 < a < 2 ^ 32.
Proof.
  intros Hf Ha. assert (a ∈ (f0 :: fr) ≫= owned) as H by (apply list_elem_of_bind; by exists f). rewrite (fin_own _ _ _ _ _ _ Fin) in H. apply elem_of_seqZ in H.
  pose proof (fin_fb _ _ _ _ _ _ Fin). change nmeta with 46 in *. unfold FSSIZE in *. lia.
Qed.
Lemma fin_length : length fr = length files.
Proof. pose proof (f_equal length (fin_abs _ _ _ _ _ _ Fin)) as E. unfold abs in E. rewrite length_fmap in E. cbn in E. rewrite length_fmap in E. lia. Qed.
Lemma fin_file i path : files !! i = Some path -> exists f, fr !! i = Some f /\ kind_of (f_d f) = (T_FILE, 0, 0, 1) /\ f_c f = data_of host path.
Proof.
  intros Hi. pose proof (fin_abs _ _ _ _ _ _ Fin) as E. cbn in E. injection E as _ _ _ _ _ E. apply (f_equal (lookup i)) in E. rewrite !list_lookup_fmap, Hi in E.
  destruct (fr !! i) as [f|]; [|done]. exists f. split; [done|]. cbn in E. unfold file_entry, kind_of in *. by injection E as -> -> -> -> ->.
Qed.
Lemma blocks_nblk m : (Z.of_nat m + 1023) / 1024 = Z.of_nat (nblk m).
Proof. unfold nblk. rewrite Nat2Z.inj_div, Nat2Z.inj_add. done. Qed.

Lemma fin_blocks : inodes_of D files ≫= file_blocks D = (f0 :: fr) ≫= owned.
Proof.
  assert (inodes_of D files = set_size n (f_d f0) :: (f_d <$> fr)) as ->.
  { unfold inodes_of. rewrite seqZ_cons by lia. cbn [fmap list_fmap]. rewrite (fin_root _ _ _ _ _ _ Fin). f_equal. replace (Z.pred (Z.of_nat (length files) + 1)) with (Z.of_nat (length files)) by lia.
    change (Z.succ 1) with 2. apply list_eq. intros i. rewrite !list_lookup_fmap. rewrite <- fin_length. destruct (fr !! i) as [f|] eqn:Ei.
    - pose proof (lookup_lt_Some _ _ _ Ei). rewrite lookup_seqZ_lt by lia. cbn. f_equal. rewrite Z.add_comm. by apply (fin_inodes _ _ _ _ _ _ Fin).
    - apply lookup_ge_None in Ei. by rewrite lookup_seqZ_ge by lia. }
  pose proof (fin_filed _ _ _ _ _ _ Fin) as HF. apply Forall_cons in HF as [F0 HF]. rewrite !bind_cons. f_equal.
  - apply blocks_owned; [done | done |]. cbn [isize set_size]. destruct (fin_size _ _ _ _ _ _ Fin) as [-> _]. dlia.
  - pose proof (fin_inodes _ _ _ _ _ _ Fin) as Hi. clear -HF Hi. assert (forall f, f ∈ fr -> file_blocks D (f_d f) = owned f) as He.
    { intros f Hf. apply list_elem_of_lookup in Hf as [i Hf]. destruct (Hi i f Hf) as (_ & H1 & H2). apply blocks_owned; [by eapply (Forall_lookup_1 _ _ _ _ HF) | done |].
      rewrite H1, H2. apply blocks_nblk. }
    clear -He. induction fr as [|f l IH]; [done|]. rewrite fmap_cons, !bind_cons, He by set_solver. f_equal. apply IH. set_solver.
Qed.

Lemma finished_made : made D files.
Proof.
  pose proof (fin_filed _ _ _ _ _ _ Fin) as HF. destruct (fin_size _ _ _ _ _ _ Fin) as [En Hn]. pose proof (fin_abs _ _ _ _ _ _ Fin) as E. cbn in E.
  assert (kind_of (f_d f0) = (T_DIR, 0, 0, 1) /\ f_c f0 = root_bytes files) as [Ek Ec] by (unfold kind_of in *; by injection E as -> -> -> -> ->).
  constructor.
  - rewrite (fin_sb _ _ _ _ _ _ Fin). vm_compute. reflexivity.
  - apply Fin.
  - apply Fin.
  - change ROOTINO with 1. cbv zeta. rewrite (fin_root _ _ _ _ _ _ Fin). cbn [isize set_size]. apply Forall_cons in HF as [F0 _].
    assert (forall a, a ∈ owned f0 -> 0 < a < 2 ^ 32) as Hr by (intros a; apply fin_range; set_solver).
    split_and!; [done | apply (view_ok D f0); [done | done | done | cbn; lia] | rewrite En; by rewrite Z.mod_mul | done |].
    rewrite (view_content D f0) by (done || lia). by rewrite Ec.
  - intros i path Hi. cbv zeta. destruct (fin_file i path Hi) as (f & Hf & Hk & Hc). destruct (fin_inodes _ _ _ _ _ _ Fin i f Hf) as (-> & H1 & H2).
    apply Forall_cons in HF as [_ HF]. assert (filed D f) as F by (by eapply (Forall_lookup_1 _ _ _ _ HF)).
    assert (forall a, a ∈ owned f -> 0 < a < 2 ^ 32) as Hr by (intros a; apply fin_range; apply list_elem_of_further; by eapply list_elem_of_lookup_2).
    pose proof (nblk_covers (length (f_c f))). split_and!; [done | apply (view_ok D f); [done | done | done | lia] | by rewrite H1, Hc |].
    rewrite (view_content D f) by (done || lia). by rewrite H1, padded_all, Hc.
  - intros i Hi. apply (fin_free _ _ _ _ _ _ Fin). rewrite fin_length. unfold NINODES in Hi. lia.
  - rewrite fin_blocks, (fin_own _ _ _ _ _ _ Fin). apply NoDup_seqZ.
  - rewrite fin_blocks, (fin_own _ _ _ _ _ _ Fin). apply Forall_forall. intros b Hb%elem_of_seqZ. pose proof (fin_fb _ _ _ _ _ _ Fin). lia.
  - intros b Hb. unfold used. assert (BBLOCK b the_sb = 45 /\ b mod BPB = b) as [-> ->] by (unfold BBLOCK; change BPB with 8192; change (bmapstart the_sb) with 45; unfold FSSIZE in Hb; dlia).
    pose proof (fin_fb _ _ _ _ _ _ Fin) as Hfb. rewrite (fin_bits _ _ _ _ _ _ Fin), bitmap_used, fin_blocks, (fin_own _ _ _ _ _ _ Fin), elem_of_seqZ by (done || (change nmeta with 46 in *; lia)).
    rewrite Z.ltb_lt. change nmeta with 46 in *. lia.
Qed.

End Finished.

(** ** The end of [main] *)

(** What [mkfs] ends with. *)
Definition built (D : Z -> block) (files : list (list Z)) : Prop := exists f0 fr n fb, finished D files f0 fr n fb.

Lemma built_made D files : built D files -> made D files.
Proof. intros (f0 & fr & n & fb & F). by eapply finished_made. Qed.

Lemma root_bytes_length files : length (root_bytes files) = (16 * (length files + 2))%nat.
Proof. unfold root_bytes. rewrite !length_app, !mk_dirent_length, links_length. lia. Qed.

(** The rounded size of the root directory. *)
Definition root_size (files : list (list Z)) : Z := (Z.of_nat (length (root_bytes files)) / 1024 + 1) * 1024.

Lemma root_size_blocks files : input_ok files ->
  root_size files = Z.of_nat (nblk (length (root_bytes files))) * 1024 /\ Z.of_nat (length (root_bytes files)) <= root_size files < 2 ^ 32.
Proof.
  intros [_ Hc _ Hd]. unfold root_size. rewrite <- blocks_nblk, root_bytes_length. unfold NINODES in Hc. split; dlia.
Qed.

Lemma finish_wp s fs files : image s fs -> input_ok files -> abs fs = ((T_DIR, 0, 0, 1), root_bytes files) :: (file_entry host <$> files) ->
  wp (fix_root ;;; used <- gets freeblock ;; balloc (i32 used)) s (fun _ s' => built (img s') files /\ sectors s' = FSSIZE).
Proof.
  intros I Hin Habs. destruct fs as [|f0 fr]; [done|]. destruct (im_files _ _ I 0%nat f0 eq_refl) as [E1 E2 E3 E4]. pose proof (im_blocks _ _ I) as B.
  assert (f_c f0 = root_bytes files) as Ec by (cbn in Habs; by injection Habs as _ _ _ _ ->). rewrite Ec in *.
  destruct (root_size_blocks files Hin) as [Hn1 Hn2]. set (n := root_size files) in *. pose proof (bi_free _ _ B) as Hfb. change nmeta with 46 in Hfb. unfold FSSIZE in Hfb.
  assert (xint (u32 ((xint (isize (f_d f0)) / BSIZE + 1) * BSIZE)) = n) as Esz.
  { rewrite E2. rewrite (xint_small (Z.of_nat _)) by lia. change ((_ + 1) * BSIZE) with n. rewrite u32_small, xint_small by lia. done. }
  wp_step. unfold fix_root. wp_step. change ROOTINO with (Z.of_nat 0 + 1). eapply (rinode_wp s _ 0 f0); [done | done |]. cbv zeta. rewrite Esz.
  apply winode_wp; [apply B | apply B | lia |]. change (Z.of_nat 0 + 1) with 1. set (d := set_size n (f_d f0)). set (s1 := put_dinode s 1 d).
  assert (dinode_ok d) as Hd by (destruct E4; constructor; cbn; try done; lia).
  destruct (put_dinode_at s 1 d ltac:(lia)) as [P1 P2]; [apply (im_lens _ _ I); rewrite iblock_eq; dlia | done |]. fold s1 in P1, P2.
  assert (blocks_inv s1 (f0 :: fr)) as B1 by (apply put_dinode_blocks; [done | lia]).
  wp_step. wp_step. unfold balloc. cbn [freeblock s1 put_dinode]. rewrite i32_small by lia.
  rewrite (proj2 (Z.ltb_lt _ _)) by (unfold BSIZE; lia). cbn [negb]. do 2 wp_step. cbn [msb s1 put_dinode]. rewrite (bi_sb _ _ B). change (bmapstart the_sb) with 45. apply wsect_wp; [lia|].
  cbn [sectors img]. split; [|cbn [s1 put_dinode sectors]; rewrite (bi_len _ _ B); unfold FSSIZE; lia].
  set (D := fset (img s1) 45 _). assert (forall a, a <> 45 -> D a = img s1 a) as HD by (intros a Ha; by apply fset_ne).
  assert (forall i, 0 <= i < 208 -> inode_at D i = inode_at (img s1) i) as HDi by (intros i Hi; unfold inode_at; rewrite HD; [done|]; pose proof (iblock_range i Hi); lia).
  exists f0, fr, n, (freeblock s). constructor.
  - done.
  - apply Forall_lookup_2. intros k f Hk. eapply filed_frame; [by eapply (Forall_lookup_1 _ _ _ _ (bi_files _ _ B1))|]. intros a Ha. apply HD.
    pose proof (owned_range _ _ _ _ _ B1 Hk Ha) as Hr. change nmeta with 46 in Hr. lia.
  - apply B.
  - apply B.
  - rewrite E3. split; [done | lia].
  - rewrite HDi by lia. done.
  - intros i f Hf. pose proof (lookup_lt_Some _ _ _ Hf). pose proof (im_room _ _ I) as Hroom. cbn in Hroom. destruct (im_files _ _ I (S i) f Hf) as [G1 G2 G3 G4].
    rewrite HDi, P2 by lia. replace (Z.of_nat i + 2) with (Z.of_nat (S i) + 1) by lia. done.
  - intros i Hi. rewrite HDi, P2 by lia. apply (im_free _ _ I). cbn. lia.
  - rewrite HD by lia. cbn [img s1 put_dinode]. rewrite fset_ne by (rewrite iblock_eq; dlia). apply I.
  - intros a Ha. rewrite HD by lia. cbn [img s1 put_dinode]. rewrite fset_ne by (rewrite iblock_eq; dlia). apply (im_zero _ _ I). lia.
  - intros a Ha. rewrite HD by lia. cbn [img s1 put_dinode]. destruct (decide (a = IBLOCK 1 the_sb)) as [->|Hne].
    + rewrite fset_eq. unfold wr_dinode. rewrite wr_words_length. unfold wr32, wr16. rewrite !wr_length. by apply (im_lens _ _ I).
    + rewrite fset_ne by done. by apply (im_lens _ _ I).
  - unfold D. by rewrite fset_eq.
Qed.

(** ** The whole program *)

Lemma mkfs_wp files : input_ok files -> wp (mkfs host files) mk0 (fun _ s => built (img s) files /\ sectors s = FSSIZE).
Proof.
  intros Hin. pose proof Hin as [Hp Hc Hr Hd]. unfold NINODES in Hc. pose proof (root_bytes_length files) as Hrl. unfold mkfs. do 2 wp_step. wp_step. apply clear_wp; [done | done|].
  cbn [freeinode freeblock msb mk0]. intros s1 D1 L1 FI1 FB1 SB1. do 2 wp_step. rewrite SB1. wp_step. apply wsect_wp; [lia|]. rewrite L1. change (Z.max FSSIZE (1 + 1)) with FSSIZE.
  assert (imaged (mkMk (fset (img s1) 1 (sb_bytes the_sb)) FSSIZE (freeinode s1) (freeblock s1) (msb s1)) []) as I0.
  { exists []. split; [|done]. apply image_empty; try done. intros a Ha. cbn. by rewrite fset_ne. }
  assert (forall c A, (length c <= length (root_bytes files))%nat -> space A <= space (file_entry host <$> files) -> nmeta + space (((T_DIR, 0, 0, 1), c) :: A) <= FSSIZE) as HS.
  { intros c A Hlc HA. rewrite space_cons in *. cbn [snd] in *. pose proof (nown_mono _ _ (nblk_mono _ _ Hlc)). lia. }
  pose proof (space_nonneg (file_entry host <$> files)) as Hsn. assert (forall n i, length (mk_dirent n i) = 16%nat) as Hml by apply mk_dirent_length.
  wp_step. eapply (ialloc_spec _ []); [done | cbn; lia | unfold T_DIR; lia |]. intros s2 I2. cbn [length app] in *. change (Z.of_nat 0 + 1) with ROOTINO.
  rewrite Z.eqb_refl. cbn [negb]. wp_step. change ROOTINO with (Z.of_nat 0 + 1) at 1. eapply (iappend_spec s2 _ 0); [done | done | cbn [app]; rewrite Hml; lia | apply HS; [cbn [app]; rewrite Hml; lia | done] |].
  intros s3 I3. cbn [insert list_insert app] in I3. wp_step. change ROOTINO with (Z.of_nat 0 + 1) at 1. eapply (iappend_spec s3 _ 0); [done | done | rewrite length_app, !Hml; lia | apply HS; [rewrite length_app, !Hml; lia | done] |].
  intros s4 I4. cbn [insert list_insert] in I4. wp_step. eapply (add_files_spec host files s4 _ _ []); [done | done | cbn; lia | rewrite length_app, !Hml; lia | |].
  - cbn [length app]. change (Z.of_nat 0 + 2) with 2. rewrite <- app_assoc. exact Hr.
  - cbn [length app]. change (Z.of_nat 0 + 2) with 2. rewrite <- app_assoc. intros s5 (fs & I5 & E5). by eapply finish_wp.
Qed.

(** C26: [mkfs] makes a file system that holds the files.  It ends, and on the
    image the superblock has the layout that the kernel expects, the log is
    empty, the root directory has an entry for every file after [.] and [..] and
    nothing else, every file has its inode with its length, and its bytes in its
    blocks, direct or indirect; no block belongs to two files, and the bitmap
    marks the metadata and the blocks of files and no other block. *)
Theorem mkfs_correct (opens : list Z -> bool) (name image : list Z) (files : list (list Z)) (Ho : opens image = true) (Hin : input_ok files) :
  exists s, mkfs_main host opens (name :: image :: files) mk0 = Ret (tt, s) /\ made (img s) files /\ sectors s = FSSIZE.
Proof.
  destruct (mkfs_wp files Hin) as ([] & s & E & H & Hs). exists s. split; [|split; [by apply built_made | exact Hs]]. unfold mkfs_main. rewrite Ho. exact E.
Qed.

End Made.

(** One file of three bytes. *)
Definition one_host (_ : list Z) : option (list (list Z)) := Some [[1; 2; 3]].

Lemma mkfs_correct_witness : exists s, mkfs_main one_host (fun _ => true) [[]; []; [97]] mk0 = Ret (tt, s) /\ made one_host (img s) [[97]] /\ sectors s = FSSIZE.
Proof.
  apply (mkfs_correct one_host (fun _ => true) [] [] [[97]]).
  - reflexivity.
  - constructor; [|vm_compute; discriminate..]. constructor; [|constructor]. split; [set_solver|]. split; [discriminate|].
    change (length (data_of one_host [97])) with 3%nat. lia.
Defined.
