(* ===== verification/MkfsCons.v ===== *)
(** * The image is a consistent file system

    What [mkfs] makes passes the consistency check of FsFile.v: every sector
    is there and holds bytes, the inodes in use are sound, no block belongs to
    two of them, and every data block that is marked as used belongs to one.
    So all the theorems on writing apply to it. *)

From S2P Require Import Prelude KString Bytes Bio Log LogThms Fs FsThms FsData FsFile FsWrite Mkfs MkfsFile MkfsImage MkfsThms.

(** ** Sectors hold bytes *)

Definition byte_block (x : block) : Prop := length x = Z.to_nat BSIZE /\ bytes_ok x.
Definition byte_image (s : mkst) : Prop := forall a, byte_block (img s a).

(** [m] writes whole sectors of bytes. *)
Definition writes_bytes {A} (m : M mkst A) (Q : A -> Prop) : Prop := forall s, byte_image s -> pwp m s (fun a s' => byte_image s' /\ Q a).
Notation keeps_bytes m := (writes_bytes m (fun _ => True)).

Lemma wb_bind {A B} (m : M mkst A) (k : A -> M mkst B) P Q : writes_bytes m P -> (forall a, P a -> writes_bytes (k a) Q) -> writes_bytes (bind m k) Q.
Proof. intros Hm Hk s Hs. apply pwp_bind. eapply pwp_mono; [by apply Hm|]. intros a s' [Hs' Ha]. by apply Hk. Qed.
Lemma wb_ret {A} (a : A) (Q : A -> Prop) : Q a -> writes_bytes (ret a) Q.
Proof. intros HQ s Hs. by apply pwp_ret. Qed.
Lemma wb_gets {A} (f : mkst -> A) (Q : A -> Prop) : (forall s, byte_image s -> Q (f s)) -> writes_bytes (gets f) Q.
Proof. intros HQ s Hs. apply pwp_gets. by auto. Qed.
Lemma wb_panic {A} msg (Q : A -> Prop) : writes_bytes (panic msg) Q.
Proof. intros s Hs. apply pwp_panic. Qed.
Lemma wb_modify f : (forall s, img (f s) = img s) -> keeps_bytes (modify f).
Proof. intros Hf s Hs. apply pwp_modify. split; [|done]. intros a. rewrite Hf. apply Hs. Qed.

Lemma wb_loop {X A} (I : X -> Prop) fuel (body : X -> M mkst (X + A)) (x : X) (Q : A -> Prop) : I x ->
  (forall x, I x -> writes_bytes (body x) (fun r => match r with inl x' => I x' | inr a => Q a end)) -> writes_bytes (loop fuel body x) Q.
Proof.
  intros Hx Hb s Hs. apply (pwp_loop (fun x s => byte_image s /\ I x)); [done|]. intros x1 s1 [Hs1 Hx1]. eapply pwp_mono; [by apply Hb|]. by intros [x'|a] s' [H1 H2].
Qed.

Lemma wsect_bytes sec x : byte_block x -> keeps_bytes (wsect sec x).
Proof. intros Hx s Hs. unfold wsect. apply pwp_modify. split; [|done]. intros a. cbn. by case_match. Qed.
Lemma rsect_bytes sec : writes_bytes (rsect sec) byte_block.
Proof. intros s Hs. unfold rsect, get. apply pwp_bind, pwp_ret. case_match; [by apply pwp_ret | apply pwp_panic]. Qed.

Lemma byte_zeroes : byte_block zeroes.
Proof. split; [done | by apply zeros_bytes]. Qed.
Lemma byte_wr n x o v : byte_block x -> byte_block (wr n x o v).
Proof. intros [Hl Hb]. split; [by rewrite wr_length | by apply wr_bytes_ok]. Qed.
Lemma byte_words x o l : byte_block x -> byte_block (wr_words x o l).
Proof. intros [Hl Hb]. split; [by rewrite wr_words_length | by apply wr_words_bytes]. Qed.
Lemma byte_dinode x k d : byte_block x -> byte_block (wr_dinode x k d).
Proof. intros Hx. unfold wr_dinode, wr32, wr16. by apply byte_words; repeat apply byte_wr. Qed.
Lemma byte_splice x o y : byte_block x -> bytes_ok y -> 0 <= o -> o + Z.of_nat (length y) <= BSIZE -> byte_block (splice x o y).
Proof.
  intros [Hl Hb] Hy H0 H1. split; [|by apply splice_bytes]. unfold splice. rewrite !length_app, length_take, length_drop, Hl. unfold BSIZE in *. lia.
Qed.
Lemma byte_bits l : forall x, byte_block x -> byte_block (foldl set_bit x l).
Proof.
  induction l as [|i l IH]; intros x Hx; [done|]. cbn [foldl]. apply IH. destruct Hx as [Hl Hb]. split; [unfold set_bit; by rewrite length_insert | by apply set_bit_bytes].
Qed.

(** Take an operation apart. *)
Ltac wb :=
  repeat match goal with
  | |- writes_bytes (bind _ _) _ => eapply wb_bind; [|intros ? ?]
  | |- writes_bytes (ret _) _ => apply wb_ret
  | |- writes_bytes (panic _) _ => apply wb_panic
  | |- writes_bytes (rsect _) _ => apply rsect_bytes
  | |- writes_bytes (wsect _ _) _ => apply wsect_bytes
  | |- writes_bytes (gets _) _ => apply (wb_gets _ (fun _ => True)); done
  | |- writes_bytes (modify _) _ => apply wb_modify; done
  | |- writes_bytes (if ?b then _ else _) _ => destruct b
  end.

Lemma winode_bytes i d : keeps_bytes (winode i d).
Proof. unfold winode. wb. by apply byte_dinode. Qed.
Lemma rinode_bytes i : keeps_bytes (rinode i).
Proof. unfold rinode. wb. done. Qed.
Lemma ialloc_bytes ty : keeps_bytes (ialloc ty).
Proof. unfold ialloc. wb; [apply winode_bytes | done]. Qed.
Lemma new_block_bytes : keeps_bytes new_block.
Proof. unfold new_block. wb. done. Qed.
Lemma need_addr_bytes d i : keeps_bytes (need_addr d i).
Proof. unfold need_addr. wb; [apply new_block_bytes | done | done]. Qed.
Lemma file_sector_bytes d k : keeps_bytes (file_sector d k).
Proof.
  unfold file_sector. wb; try done; try apply need_addr_bytes; try apply new_block_bytes; [by apply byte_wr | by apply byte_wr].
Qed.

Lemma append_loop_bytes fuel d off p : bytes_ok p -> 0 <= off -> keeps_bytes (append_loop fuel d off p).
Proof.
  intros Hp Ho. unfold append_loop. apply (wb_loop (fun '(_, off, p) => bytes_ok p /\ 0 <= off)); [done|]. clear. intros [[d off] p] [Hp Ho].
  destruct (Z.ltb_spec 0 (Z.of_nat (length p))) as [Hn|]; [|by wb]. destruct (Z.ltb_spec (off / BSIZE) MAXFILE) as [Hm|]; cbn [negb]; [|by wb].
  eapply wb_bind; [apply file_sector_bytes|]. intros [d' x] _. change MAXFILE with 268 in Hm. unfold BSIZE in *.
  assert (u32 ((off / 1024 + 1) * 1024 - off) = (off / 1024 + 1) * 1024 - off) as -> by (apply u32_small; dlia).
  wb; [|split; [by apply Forall_drop | apply u32_range]]. apply byte_splice; [done | by apply Forall_take | dlia |]. rewrite length_take. unfold BSIZE. dlia.
Qed.

Lemma xint_nonneg x : 0 <= xint x.
Proof. rewrite xint_u32. apply u32_range. Qed.
Lemma iappend_bytes i p : bytes_ok p -> keeps_bytes (iappend i p).
Proof.
  intros Hp. unfold iappend. eapply wb_bind; [apply rinode_bytes|]. intros d _. eapply wb_bind; [apply append_loop_bytes; [done | apply xint_nonneg]|].
  intros [d' o] _. apply winode_bytes.
Qed.
Lemma append_all_bytes i pieces : Forall bytes_ok pieces -> keeps_bytes (append_all i pieces).
Proof. induction 1 as [|p l Hp _ IH]; cbn [append_all]; [by wb|]. eapply wb_bind; [by apply iappend_bytes | by intros []]. Qed.

Lemma dirent_bytes_ok name i : bytes_ok name -> bytes_ok (mk_dirent name i).
Proof.
  intros Hn. unfold mk_dirent. apply Forall_app. split; [apply wr_bytes_ok; repeat constructor; lia|]. apply Forall_app. split; [by apply Forall_take|]. apply Forall_replicate. lia.
Qed.
Lemma short_bytes path : bytes_ok path -> bytes_ok (name_of path).
Proof.
  intros Hp. unfold name_of, skip_underscore. assert (bytes_ok (skip_user path)) as H by (unfold skip_user; case_match; [by apply Forall_drop | done]).
  repeat case_match; subst; try done; by apply Forall_cons in H as [_ H].
Qed.

Section Bytes.
  Context (host : list Z -> option (list (list Z))).

(** Files of bytes, under names of bytes. *)
Definition host_bytes (path : list Z) : Prop := bytes_ok path /\ forall pieces, host path = Some pieces -> Forall bytes_ok pieces.

Lemma add_file_bytes path : host_bytes path -> keeps_bytes (add_file host path).
Proof.
  intros [Hp Hh]. unfold add_file. destruct (existsb _ _); [by wb|]. destruct (host path) as [pieces|]; [|by wb]. eapply wb_bind; [apply ialloc_bytes|]. intros i _.
  eapply wb_bind; [apply iappend_bytes, dirent_bytes_ok; by apply (short_bytes path)|]. intros [] _. by apply append_all_bytes, Hh.
Qed.
Lemma add_files_bytes files : Forall host_bytes files -> keeps_bytes (add_files host files).
Proof. induction 1 as [|p l Hp _ IH]; cbn [add_files]; [by wb|]. eapply wb_bind; [by apply add_file_bytes | by intros []]. Qed.

Lemma clear_bytes : keeps_bytes (for_range 0 FSSIZE (fun i => wsect i zeroes)).
Proof.
  intros s Hs. apply (pwp_for_range (fun _ => byte_image)); [unfold FSSIZE; lia | done | |by intros]. intros i s1 _ Hs1.
  eapply pwp_mono; [by apply (wsect_bytes i zeroes byte_zeroes)|]. by intros _ s2 [H _].
Qed.
Lemma fix_root_bytes : keeps_bytes fix_root.
Proof. unfold fix_root. eapply wb_bind; [apply rinode_bytes|]. intros d _. apply winode_bytes. Qed.
Lemma balloc_bytes n : keeps_bytes (balloc n).
Proof.
  unfold balloc. destruct (n <? BSIZE * 8); cbn [negb]; [|apply wb_panic]. eapply wb_bind; [by apply (wb_gets _ (fun _ => True))|]. intros q _. apply wsect_bytes, byte_bits, byte_zeroes.
Qed.

Lemma mkfs_bytes files : Forall host_bytes files -> keeps_bytes (mkfs host files).
Proof.
  intros Hf. unfold mkfs. eapply wb_bind; [by apply wb_modify|]. intros [] _. eapply wb_bind; [apply clear_bytes|]. intros [] _.
  eapply wb_bind; [by apply (wb_gets _ (fun _ => True))|]. intros q _. eapply wb_bind; [apply wsect_bytes, byte_words, byte_zeroes|]. intros [] _.
  eapply wb_bind; [apply ialloc_bytes|]. intros i _. destruct (i =? ROOTINO); cbn [negb]; [|apply wb_panic].
  do 2 (eapply wb_bind; [apply iappend_bytes, dirent_bytes_ok; repeat constructor; lia|]; intros [] _). eapply wb_bind; [by apply add_files_bytes|]. intros [] _.
  eapply wb_bind; [apply fix_root_bytes|]. intros [] _. eapply wb_bind; [by apply (wb_gets _ (fun _ => True))|]. intros u _. apply balloc_bytes.
Qed.

End Bytes.

(** ** The blocks of the files *)

Section FileBlocks.
  Context (D : Z -> block) (f : file) (d : dinode) (F : filed D f) (Ea : addrs d = addrs (f_d f)) (Hpos : forall a, a ∈ owned f -> 0 < a).

(** Where block [i] of the inode is in the list of its blocks. *)
Definition place (i : Z) : nat := if i =? 268 then length (f_bl f) else Z.to_nat i.

Lemma blk_place i : bidx i -> blk D d i = if (i <? 268) && (Z.of_nat (length (f_bl f)) <=? i) then 0 else default 0 (owned f !! place i).
Proof.
  intros Hi. unfold bidx in Hi. rewrite IND_eq in Hi. destruct F as [F1 F2 F3 F4 F5 F6 _]. unfold owned, place, blk. rewrite IND_eq, Ea.
  assert (iaddr d = default 0 (f_ind f)) as Ei by (unfold iaddr; by rewrite Ea). destruct (Z.ltb_spec i 268) as [H1|H1]; cbn [andb].
  - rewrite (proj2 (Z.eqb_neq i 268)) by lia. assert (blk D d i = default 0 (f_bl f !! Z.to_nat i)) as E.
    { unfold blk. rewrite IND_eq, Ea, Ei, (proj2 (Z.eqb_neq i 268)) by lia. unfold NDIRECT. destruct (Z.ltb_spec i 12); [apply F3; lia|]. destruct (f_ind f) as [a|] eqn:Ea'.
      - assert (0 < a) by (apply Hpos; unfold owned; rewrite Ea'; set_solver). change (default 0 (Some a)) with a. rewrite (proj2 (Z.eqb_neq a 0)) by lia. destruct (F6 a eq_refl) as [_ H6].
        replace (i - 12) with (Z.of_nat (Z.to_nat i - 12)) by lia. rewrite H6 by lia. do 2 f_equal. lia.
      - cbn. assert (length (f_bl f) <= 12)%nat by (by apply F5). by rewrite lookup_ge_None_2 by lia. }
    unfold blk in E. rewrite IND_eq, Ea, (proj2 (Z.eqb_neq i 268)) in E by lia. rewrite E. destruct (Z.leb_spec (Z.of_nat (length (f_bl f))) i).
    + by rewrite lookup_ge_None_2 by lia.
    + by rewrite lookup_app_l by lia.
  - assert (i = 268) as -> by lia. cbn. rewrite Ei. rewrite lookup_app_r, Nat.sub_diag by lia. by destruct (f_ind f).
Qed.

Lemma blk_owned i : bidx i -> blk D d i <> 0 -> owned f !! place i = Some (blk D d i).
Proof. intros Hi. rewrite blk_place by done. case_match; [done|]. by destruct (owned f !! place i). Qed.

Lemma place_inj i j : bidx i -> bidx j -> blk D d i <> 0 -> blk D d j <> 0 -> place i = place j -> i = j.
Proof.
  unfold bidx. rewrite IND_eq. intros Hi Hj Hbi Hbj. rewrite blk_place in Hbi, Hbj by (unfold bidx; rewrite IND_eq; lia). unfold place.
  destruct (Z.ltb_spec i 268), (Z.ltb_spec j 268), (Z.leb_spec (Z.of_nat (length (f_bl f))) i), (Z.leb_spec (Z.of_nat (length (f_bl f))) j), (Z.eqb_spec i 268), (Z.eqb_spec j 268); cbn [andb] in *; lia.
Qed.

Lemma owns_owned b : owns D d b <-> b ∈ owned f.
Proof.
  split.
  - intros [Hb (i & Hi & <-)]. by eapply list_elem_of_lookup_2, blk_owned.
  - intros Hb. pose proof (Hpos b Hb). split; [lia|]. unfold owned in Hb. pose proof (fd_max _ _ F) as Hm. apply elem_of_app in Hb as [Hb|Hb].
    + apply list_elem_of_lookup in Hb as [k Hk]. pose proof (lookup_lt_Some _ _ _ Hk). exists (Z.of_nat k). assert (bidx (Z.of_nat k)) as Hi by (unfold bidx; rewrite IND_eq; lia).
      split; [done|]. rewrite blk_place by done. rewrite (proj2 (Z.leb_gt _ _)), andb_false_r by lia. unfold place, owned. rewrite (proj2 (Z.eqb_neq _ _)) by lia.
      by rewrite Nat2Z.id, lookup_app_l, Hk by lia.
    + exists 268. assert (bidx 268) as Hi by (unfold bidx; rewrite IND_eq; lia). split; [done|]. rewrite blk_place by done. cbn [Z.ltb andb]. unfold place, owned. cbn.
      rewrite lookup_app_r, Nat.sub_diag by lia. destruct (f_ind f); set_solver.
Qed.

Lemma filed_inode (q : superblock) : NoDup (owned f) -> (forall a, a ∈ owned f -> datastart q <= a < sb_size q /\ used D q a = true) -> inode_ok q D d.
Proof.
  intros Hnd Hr. constructor.
  - rewrite Ea. apply F.
  - intros i Hi Hb. by eapply Hr, list_elem_of_lookup_2, blk_owned.
  - intros i j Hi Hj Hb E. apply place_inj; try done; [by rewrite <- E|]. pose proof (blk_owned i Hi Hb) as H1. rewrite E in H1, Hb. pose proof (blk_owned j Hj Hb) as H2.
    by eapply NoDup_lookup.
Qed.

Lemma filed_filled : 0 <= isize d <= Z.of_nat (length (f_bl f)) * BSIZE -> filled D d (isize d).
Proof.
  intros Hs i Hi Hlt. assert (i < Z.of_nat (length (f_bl f))) as Hl by (unfold BSIZE in *; nia). change MAXFILE with 268 in Hi.
  rewrite blk_place by (unfold bidx; rewrite IND_eq; lia). rewrite (proj2 (Z.leb_gt _ _)), andb_false_r by lia. unfold place, owned. rewrite (proj2 (Z.eqb_neq _ _)), lookup_app_l by lia.
  destruct (lookup_lt_is_Some_2 (f_bl f) (Z.to_nat i) ltac:(lia)) as [a Ha]. rewrite Ha. cbn. assert (0 < a); [|lia]. apply Hpos. unfold owned. apply elem_of_app. left. by eapply list_elem_of_lookup_2.
Qed.

End FileBlocks.

(** ** The whole image *)

Section Finished.
  Context (host : list Z -> option (list (list Z))) (files : list (list Z)) (D : Z -> block) (f0 : file) (fr : list file) (n fb : Z).
  Context (Fin : finished host D files f0 fr n fb) (Hb : forall a, byte_block (D a)) (Hc : (length fr <= 198)%nat).

(** The file that has inode [i]. *)
Definition has_file (i : Z) (f : file) : Prop := 1 <= i /\ (f0 :: fr) !! Z.to_nat (i - 1) = Some f.

Lemma live_file i : live the_sb D i -> exists f, has_file i f.
Proof.
  intros [Hi Ht]. change (ninodes the_sb) with 200 in Hi. change (dino the_sb D i) with (inode_at D i) in Ht.
  destruct (decide (i = 0 \/ Z.of_nat (length fr) + 1 < i < 208)) as [Hf|Hf]; [by rewrite (fin_free _ _ _ _ _ _ _ Fin i Hf) in Ht|].
  destruct (lookup_lt_is_Some_2 (f0 :: fr) (Z.to_nat (i - 1))) as [f Hl]; [cbn; lia|]. exists f. split; [lia | done].
Qed.

Lemma file_facts i f : has_file i f -> live the_sb D i /\ filed D f /\ addrs (inode_at D i) = addrs (f_d f) /\ 0 <= isize (inode_at D i) <= Z.of_nat (length (f_bl f)) * BSIZE.
Proof.
  intros [Hi Hf]. pose proof (lookup_lt_Some _ _ _ Hf) as Hl. cbn in Hl. pose proof (Forall_lookup_1 _ _ _ _ (fin_filed _ _ _ _ _ _ _ Fin) Hf) as F. unfold live. change (dino the_sb D i) with (inode_at D i).
  change (ninodes the_sb) with 200. destruct (decide (i = 1)) as [->|Hne].
  - cbn in Hf. injection Hf as <-. rewrite (fin_root _ _ _ _ _ _ _ Fin). cbn [addrs isize type set_size]. destruct (fin_size _ _ _ _ _ _ _ Fin) as [-> _]. unfold BSIZE. split_and!; try done; try lia.
    pose proof (fin_abs _ _ _ _ _ _ _ Fin) as E. cbn in E. unfold kind_of in E. injection E as -> _. done.
  - replace (Z.to_nat (i - 1)) with (S (Z.to_nat (i - 2))) in Hf by lia. change (fr !! Z.to_nat (i - 2) = Some f) in Hf. destruct (fin_inodes _ _ _ _ _ _ _ Fin _ _ Hf) as (E1 & E2 & E3). replace (Z.of_nat (Z.to_nat (i - 2)) + 2) with i in E1 by lia.
    rewrite E1. pose proof (nblk_covers (length (f_c f))). unfold BSIZE. split_and!; try done; try lia. pose proof (fin_length _ _ _ _ _ _ _ Fin) as El.
    destruct (lookup_lt_is_Some_2 files (Z.to_nat (i - 2))) as [path Hp]; [lia|]. destruct (fin_file _ _ _ _ _ _ _ Fin _ _ Hp) as (f' & Hf' & Hk & _). rewrite Hf in Hf'. injection Hf' as <-.
    unfold kind_of in Hk. by injection Hk as -> _.
Qed.

Lemma owned_placed f a : f ∈ f0 :: fr -> a ∈ owned f -> nmeta <= a < fb.
Proof.
  intros Hf Ha. assert (a ∈ (f0 :: fr) ≫= owned) as H by (apply list_elem_of_bind; by exists f). rewrite (fin_own _ _ _ _ _ _ _ Fin) in H. apply elem_of_seqZ in H. lia.
Qed.
Lemma owned_once : NoDup ((f0 :: fr) ≫= owned).
Proof. rewrite (fin_own _ _ _ _ _ _ _ Fin). apply NoDup_seqZ. Qed.

Lemma used_below b : 0 <= b < FSSIZE -> used D the_sb b = (b <? fb).
Proof.
  intros Hr. pose proof (fin_fb _ _ _ _ _ _ _ Fin) as Hfb. change nmeta with 46 in Hfb. unfold used.
  assert (BBLOCK b the_sb = 45 /\ b mod BPB = b) as [-> ->] by (unfold BBLOCK; change BPB with 8192; change (bmapstart the_sb) with 45; unfold FSSIZE in Hr; dlia).
  rewrite (fin_bits _ _ _ _ _ _ _ Fin). apply bitmap_used; lia.
Qed.

Lemma file_owns i f b : has_file i f -> owns D (inode_at D i) b <-> b ∈ owned f.
Proof.
  intros Hf. destruct (file_facts i f Hf) as (_ & F & Ea & _). apply owns_owned; try done. intros a Ha. apply (owned_placed f) in Ha; [change nmeta with 46 in Ha; lia|].
  destruct Hf as [_ Hf]. by eapply list_elem_of_lookup_2.
Qed.

Lemma file_sound i f : has_file i f -> sound the_sb D (inode_at D i).
Proof.
  intros Hf. destruct (file_facts i f Hf) as (_ & F & Ea & Hs). pose proof (fin_fb _ _ _ _ _ _ _ Fin) as Hfb. change nmeta with 46 in Hfb. pose proof (fd_max _ _ F) as Hm. destruct Hf as [Hi Hf].
  assert (forall a, a ∈ owned f -> 46 <= a < fb) as Hr by (intros a; apply owned_placed; by eapply list_elem_of_lookup_2). constructor.
  - apply (filed_inode D f); try done; [intros a Ha; apply Hr in Ha; lia | eapply bind_nodup_at; [apply owned_once | done]|]. intros a Ha%Hr. change (datastart the_sb) with 46. change (sb_size the_sb) with 2000.
    unfold FSSIZE in Hfb. split; [lia|]. rewrite used_below by (unfold FSSIZE; lia). apply Z.ltb_lt. lia.
  - change MAXFILE with 268. unfold BSIZE in *. lia.
  - apply (filed_filled D f); try done. intros a Ha%Hr. lia.
Qed.

Lemma finished_consistent : consistent the_sb D.
Proof.
  pose proof (fin_fb _ _ _ _ _ _ _ Fin) as Hfb. change nmeta with 46 in Hfb. constructor.
  - constructor; try (intros a _; apply Hb).
    + constructor; vm_compute; repeat split; congruence.
    + intros b Hr. change (datastart the_sb) with 46 in Hr. rewrite used_below by (unfold FSSIZE; lia). apply Z.ltb_lt. lia.
  - intros i Hl. destruct (live_file i Hl) as [f Hf]. by eapply file_sound.
  - intros i j Hli Hlj Hne b. destruct (live_file i Hli) as [f Hf], (live_file j Hlj) as [g Hg]. change (dino the_sb D i) with (inode_at D i). change (dino the_sb D j) with (inode_at D j).
    rewrite (file_owns i f), (file_owns j g) by done. destruct Hf as [Hi Hf], Hg as [Hj Hg]. eapply (bind_nodup_ne owned (f0 :: fr) owned_once); [done | done | lia].
  - intros b Hr Hu. change (datastart the_sb) with 46 in Hr. change (sb_size the_sb) with 2000 in Hr. rewrite used_below in Hu by (unfold FSSIZE; lia). apply Z.ltb_lt in Hu.
    assert (b ∈ (f0 :: fr) ≫= owned) as H by (rewrite (fin_own _ _ _ _ _ _ _ Fin); apply elem_of_seqZ; change nmeta with 46; lia). apply list_elem_of_bind in H as (f & Ho & Hf).
    apply list_elem_of_lookup in Hf as [k Hk]. assert (has_file (Z.of_nat k + 1) f) as Hh by (split; [lia | by replace (Z.to_nat (Z.of_nat k + 1 - 1)) with k by lia]).
    exists (Z.of_nat k + 1). split; [apply (file_facts _ _ Hh)|]. by apply (file_owns _ f).
Qed.

End Finished.
