(* ===== verification/Mount.v ===== *)
(** * From the image to a running file system

    The kernel starts on a disk that [mkfs] made: [binit] and [iinit] of
    main.c, then [fsinit] in the first process (proc.c: forkret).  After that a
    path of the image is found and read with [namei], [ilock] and [readi]. *)

From S2P Require Import Prelude KString Bytes Bio Log LogThms Fs FsThms FsData Mkfs MkfsFile MkfsImage MkfsThms.

Definition boot_fs : M fsst unit := onl (onb binit) ;;; iinit ;;; fsinit ROOTDEV.

(** Open a path and read the whole file, inside a transaction. *)
Definition read_file (path : list Z) : M fsst (option (Z * list Z)) :=
  ok <- onl begin_op ;;
  if (ok : bool) then
    r <- namei 0 path ;;
    match r with
    | Some ip =>
        ilock ip ;;;
        v <- get_inode ip ;;
        x <- readk ip 0 (isize (idata v)) ;;
        ret (Some x)
    | None => ret None
    end
  else diverge.

(** The memory of a machine that starts with the disk [D]. *)
Definition machine (D : Z -> block) (pid : Z) : fsst := mkFsst (booted D pid) [] (mkSb 0 0 0 0 0 0 0 0) [].

(** ** The first block that is read *)

(** Read a block while nothing else is in use. *)
Lemma first_read_wp {B} s D bn (f : block -> B) (Q : B -> fsst -> Prop) : 0 <= bn < 2 ^ 32 ->
  cache (bc (fs_log s)) D (fun _ => 0) no_lock -> D = dsk (bc (fs_log s)) ->
  (forall b, cache b D (fun _ => 0) no_lock -> dsk b = D -> wrote b = wrote (bc (fs_log s)) ->
     Q (f (D bn)) (set_log (mkLst (lg (fs_log s)) b) s)) ->
  wp (bp <- fbread 1 bn ;; x <- fdata bp ;; fbrelse bp ;;; ret (f x)) s Q.
Proof.
  intros Hbn C HD HQ. unfold fbread. rewrite u32_small by lia. wp_step. unfold onl at 1, onb at 1. do 2 apply wp_zoom.
  eapply (bread_wp _ _ _ _ C bn []); [intros [] | lia | right; split; [done | cbn; unfold NBUF; lia] |].
  intros i b C1 Hi _ Hd1 Hw1. wp_step. unfold fdata, onl at 1, onb at 1. do 2 apply wp_zoom. cbn [fs_log bc set_log]. eapply (get_data_wp _ _ _ _ C1); [done|].
  wp_step. unfold fbrelse, onl at 1, onb at 1. do 2 apply wp_zoom. cbn [fs_log bc set_log].
  eapply (brelse_wp _ _ _ _ C1 i bn); [done | by left | intros _; by rewrite Hd1, <- HD |].
  intros b2 C2 _ _ Hd2 Hw2. wp_step. apply HQ; [|congruence|congruence].
  eapply cache_ext; [exact C2 | done | |].
  - intros x. destruct (decide (x = bn)) as [->|Hne]; [by rewrite !fset_eq | by rewrite !fset_ne].
  - intros x. unfold no_lock. naive_solver.
Qed.

(** ** A disk that agrees with the image outside the log *)

Section Agree.
  Context (D V : Z -> block) (d : dinode) (F : file_ok D [] d).
  Context (HV : forall a, ~ 2 <= a < 32 -> V a = D a) (Hb : Forall (fun b => nmeta <= b < FSSIZE) (file_blocks D d)).

Lemma block_outside a : a ∈ file_blocks D d -> V a = D a.
Proof. rewrite Forall_forall in Hb. intros Ha. specialize (Hb a Ha). change nmeta with 46 in Hb. apply HV. lia. Qed.
Lemma block_listed bn : 0 <= bn -> bn * BSIZE < isize d -> faddr D d bn ∈ file_blocks D d.
Proof.
  intros H0 H1. unfold file_blocks, BSIZE in *. apply elem_of_app. left. apply list_elem_of_fmap. exists bn. split; [done|]. apply elem_of_seqZ. dlia.
Qed.
Lemma faddr_agree bn : 0 <= bn -> bn * BSIZE < isize d -> faddr V d bn = faddr D d bn.
Proof.
  intros H0 H1. unfold faddr. case_if; [done|]. rewrite block_outside; [done|]. unfold file_blocks. rewrite (proj2 (Z.ltb_lt _ _)); [set_solver|]. unfold NDIRECT, BSIZE in *. lia.
Qed.
Lemma fbyte_agree o : 0 <= o < isize d -> fbyte V d o = fbyte D d o.
Proof. intros Ho. assert (o / BSIZE * BSIZE < isize d /\ 0 <= o / BSIZE) as [H1 H2] by (unfold BSIZE; dlia). unfold fbyte. rewrite faddr_agree by done. by rewrite block_outside by (by apply block_listed). Qed.
Lemma file_ok_agree : file_ok V [] d.
Proof.
  destruct F as [F1 F2 F3 F4]. constructor; try done.
  - intros H. destruct (F3 H) as (R1 & R2 & R3). split; [done|]. split; [done|]. rewrite block_outside; [done|]. unfold file_blocks. rewrite (proj2 (Z.ltb_lt _ _)) by done. set_solver.
  - intros bn H0 H1. rewrite faddr_agree by done. destruct (F4 bn H0 H1) as (R1 & R2 & R3). split; [done|]. split; [done|]. by rewrite block_outside by (by apply block_listed).
Qed.

End Agree.

(** ** The entries of the root directory *)

(** Bytes 16 k to 16 k + 15. *)
Definition slot (rb : list Z) (k : Z) : list Z := (fun o => default 0 (rb !! Z.to_nat o)) <$> seqZ (16 * k) 16.

Lemma slot_lookup rb k i : 0 <= k -> (i < 16)%nat -> slot rb k !! i = Some (default 0 (rb !! (Z.to_nat k * 16 + i)%nat)).
Proof. intros Hk Hi. unfold slot. rewrite list_lookup_fmap, lookup_seqZ_lt by lia. cbn. do 3 f_equal. lia. Qed.
Lemma slot_join ds : Forall (fun d => length d = 16%nat) ds -> forall k, 0 <= k -> slot (mjoin ds) k = default (replicate 16 0) (ds !! Z.to_nat k).
Proof.
  induction ds as [|d ds IH]; intros Hds k Hk.
  - apply list_eq_same_length with (n := 16%nat); [done | unfold slot; by rewrite length_fmap, length_seqZ|]. intros i x y Hi Hx Hy. rewrite slot_lookup in Hx by done.
    cbn [mjoin list_join] in Hx. rewrite lookup_nil in Hx. rewrite lookup_nil in Hy. cbn [option.from_option] in Hx, Hy. apply lookup_replicate in Hy as [-> _]. congruence.
  - apply Forall_cons in Hds as [Hd Hds]. change (mjoin (d :: ds)) with (d ++ mjoin ds). destruct (decide (k = 0)) as [->|Hne].
    + apply list_eq_same_length with (n := 16%nat); [done | unfold slot; by rewrite length_fmap, length_seqZ|]. intros i x y Hi Hx Hy. rewrite slot_lookup in Hx by done.
      change (Z.to_nat 0 * 16 + i)%nat with i in Hx. rewrite lookup_app_l in Hx by lia.
      change (d !! i = Some y) in Hy. rewrite Hy in Hx. cbn in Hx. congruence.
    + replace (Z.to_nat k) with (S (Z.to_nat (k - 1))) by lia. cbn [lookup list_lookup]. rewrite <- IH by (done || lia).
      apply list_eq_same_length with (n := 16%nat); [unfold slot; by rewrite length_fmap, length_seqZ.. |]. intros i x y Hi Hx Hy. rewrite slot_lookup in Hx, Hy by (done || lia).
      rewrite lookup_app_r in Hx by lia. replace (Z.to_nat k * 16 + i - length d)%nat with (Z.to_nat (k - 1) * 16 + i)%nat in Hx by lia. congruence.
Qed.

(** The entries as a list. *)
Definition dirents (files : list (list Z)) : list (list Z) :=
  mk_dirent [46] ROOTINO :: mk_dirent [46; 46] ROOTINO :: imap (fun j p => mk_dirent (name_of p) (Z.of_nat j + 2)) files.

Lemma links_join files : forall i, links i files = mjoin (imap (fun j p => mk_dirent (name_of p) (Z.of_nat j + i)) files).
Proof.
  induction files as [|p files IH]; intros i; [done|]. cbn [links imap]. rewrite IH. cbn [mjoin list_join]. f_equal. f_equal. apply imap_ext. intros j q _. unfold compose. f_equal. lia.
Qed.
Lemma root_bytes_join files : root_bytes files = mjoin (dirents files).
Proof. unfold root_bytes, dirents. rewrite links_join. done. Qed.
Lemma dirents_length files : Forall (fun d => length d = 16%nat) (dirents files).
Proof.
  unfold dirents. constructor; [apply mk_dirent_length|]. constructor; [apply mk_dirent_length|]. apply Forall_lookup_2. intros i d Hd.
  rewrite list_lookup_imap in Hd. destruct (files !! i); [|done]. cbn in Hd. injection Hd as <-. apply mk_dirent_length.
Qed.

(** A name that fits an entry. *)
Definition good_name (n : list Z) : Prop := (0 < length n <= 13)%nat /\ Forall (fun c => 0 < c < 256) n.

Lemma cname_pad l k n : Forall (fun c => 0 < c < 256) l -> (length l < n)%nat -> cname n (l ++ replicate k 0) = l.
Proof.
  revert n. induction l as [|c l IH]; intros n Hl Hn; (destruct n as [|n]; [cbn in Hn; lia|]); cbn [cname app].
  - destruct k; done.
  - apply Forall_cons in Hl as [Hc Hl]. cbn in Hn. rewrite (proj2 (Z.eqb_neq c 0)) by lia. by rewrite IH by (done || lia).
Qed.
Lemma dirent_fields n i : good_name n -> 0 <= i < 2 ^ 16 -> de_inum (mk_dirent n i) = i /\ dname (de_name (mk_dirent n i)) = n.
Proof.
  intros [Hl Hn] Hi. unfold mk_dirent. change (Z.to_nat (DIRSIZ - 1)) with 13%nat. rewrite take_ge by lia. rewrite xshort_small by lia. split.
  - transitivity (rd16 (wr16 (replicate 2 0) 0 i) 0); [|rewrite rd16_wr16 by (cbn; lia); by apply Z.mod_small].
    apply rd_agree; [lia|]. intros j Hj. apply lookup_total_app_l. unfold wr16. rewrite wr_length. cbn. lia.
  - unfold de_name. rewrite drop_app_ge by (unfold wr16; by rewrite wr_length). unfold wr16. rewrite wr_length. cbn [length replicate Nat.sub]. rewrite drop_0. apply cname_pad; [done|]. change (Z.to_nat DIRSIZ) with 14%nat. lia.
Qed.

Lemma dirent_bytes n i : good_name n -> bytes_ok (mk_dirent n i).
Proof.
  intros [_ Hn]. unfold mk_dirent, bytes_ok. cbv zeta. rewrite !Forall_app. split_and!.
  - apply wr_bytes_ok. apply (Forall_replicate _ 2). lia.
  - apply Forall_take. eapply Forall_impl; [exact Hn|]. cbn. lia.
  - apply Forall_replicate. lia.
Qed.

Definition all_names (files : list (list Z)) : list (list Z) := [46] :: [46; 46] :: (name_of <$> files).

Lemma dirents_lookup files k : dirents files !! k = (fun n => mk_dirent n (Z.max 1 (Z.of_nat k))) <$> (all_names files !! k).
Proof.
  destruct k as [|[|k]]; [done | done|]. change (all_names files !! S (S k)) with ((name_of <$> files) !! k).
  change (dirents files !! S (S k)) with (imap (fun j p => mk_dirent (name_of p) (Z.of_nat j + 2)) files !! k). rewrite list_lookup_imap, list_lookup_fmap.
  destruct (files !! k); [|done]. cbn [fmap option_fmap option_map]. do 2 f_equal. lia.
Qed.

(** ** Mounting *)

(** The state after mounting a disk that recovers to [T]. *)
Record mounted (T : Z -> block) (s : fsst) : Prop := {
  mn_idle : idle 2 30 (fs_log s);
  mn_sb : sb s = the_sb;
  mn_table : itable s = replicate 50 inode0;
  mn_disk : forall a, home 2 30 a -> dsk (bc (fs_log s)) a = T a
}.

(** The superblock is block 1. *)
Definition sb_of (x : block) : superblock := mkSb (rd32 x 0) (rd32 x 4) (rd32 x 8) (rd32 x 12) (rd32 x 16) (rd32 x 20) (rd32 x 24) (rd32 x 28).

Lemma mount_wp old T L D pid (Q : unit -> fsst -> Prop) : sb_of (D 1) = the_sb -> recoverable 2 30 old T L D ->
  (forall s, mounted T s -> dsk (bc (fs_log s)) = apply_writes D (wrote (bc (fs_log s))) -> (forall j, exists L', recoverable 2 30 old T L' (apply_writes D (take j (wrote (bc (fs_log s)))))) -> Q tt s) -> wp boot_fs (machine D pid) Q.
Proof.
  intros Hsb R HQ. unfold boot_fs. wp_step. unfold onl at 1, onb at 1. do 2 apply wp_zoom. cbn [fs_log bc machine booted set_log]. eapply binit_wp. intros b C Hd Hw _. cbn [dsk wrote] in *.
  wp_step. unfold iinit. wp_step. cbn [set_log set_itable bc lg fs_log]. unfold fsinit, readsb. wp_step.
  apply (first_read_wp _ D _ sb_of); [lia | done | done |]. intros b2 C2 Hd2 Hw2. rewrite Hsb.
  wp_step. wp_step. change (negb (magic the_sb =? FSMAGIC)) with false. cbv iota. unfold onl at 1. apply wp_zoom.
  change (i32 (logstart the_sb)) with 2. change (i32 (nlog the_sb)) with 30. cbn [fs_log set_log bc lg] in *.
  change ROOTDEV with 1. eapply (initlog_wp 2 30 old ltac:(lia) ltac:(split; [lia | done]) ltac:(lia) T L D); [done | done | done | done | etransitivity; [exact Hw2 | exact Hw] |].
  intros st' I' Hh HW Hj. apply HQ; [by constructor | exact HW | exact Hj].
Qed.

(** ** The root directory and the files on the disk *)

(** The root directory of [V] lists the files, and they have the contents [c]. *)
Record tree (V : Z -> block) (files c : list (list Z)) : Prop := {
  tr_lens : forall a, 32 <= a < 45 -> length (V a) = Z.to_nat BSIZE;
  tr_root : let d := inode_at V ROOTINO in type d = T_DIR /\ nlink d = 1 /\ file_ok V [] d /\ isize d mod 16 = 0
    /\ Z.of_nat (length (root_bytes files)) <= isize d /\ content V d 0 (isize d) = padded (root_bytes files) (isize d);
  tr_files : forall i path x, files !! i = Some path -> c !! i = Some x -> let d := inode_at V (Z.of_nat i + 2) in
    type d <> 0 /\ file_ok V [] d /\ content V d 0 (isize d) = x
}.

Section Image.
  Context (host : list Z -> option (list (list Z))) (files : list (list Z)) (D V : Z -> block) (Md : made host D files).
  Context (HV : forall a, home 2 30 a -> V a = D a) (Hcount : Z.of_nat (length files) + 2 <= NINODES).

Lemma used_inode i : 1 <= i <= Z.of_nat (length files) + 1 -> Forall (fun b => nmeta <= b < FSSIZE) (file_blocks D (inode_at D i)).
Proof.
  intros Hi. pose proof (md_range _ _ _ Md) as Hr. rewrite Forall_forall in *. intros b Hb. apply Hr. apply list_elem_of_bind. exists (inode_at D i). split; [done|].
  unfold inodes_of. apply list_elem_of_fmap. exists i. split; [done|]. apply elem_of_seqZ. lia.
Qed.

Lemma content_agree d : file_ok D [] d -> Forall (fun b => nmeta <= b < FSSIZE) (file_blocks D d) -> file_ok V [] d /\ content V d 0 (isize d) = content D d 0 (isize d).
Proof.
  intros F Hb. split; [by apply (file_ok_agree D)|]. unfold content. apply list_fmap_ext. intros j o Ho%lookup_seqZ. apply (fbyte_agree D); try done. lia.
Qed.

Lemma made_recoverable old : recoverable 2 30 old D [] D.
Proof.
  assert (D 2 = zeroes) as E2 by (apply (md_log _ _ _ Md); lia). constructor; try done; try (by constructor); try (by left); rewrite E2; [done|]. by split.
Qed.

Lemma made_tree : tree V files (data_of host <$> files).
Proof.
  unfold NINODES in Hcount. assert (forall i, 0 <= i < 208 -> inode_at V i = inode_at D i) as Hin.
  { intros i Hi. destruct (iblock_range i Hi). unfold inode_at. rewrite HV; [done | unfold home; lia]. }
  constructor.
  - intros a Ha. rewrite HV by (unfold home; lia). by apply (md_lens _ _ _ Md).
  - cbv zeta. rewrite Hin by (unfold ROOTINO; lia). destruct (md_root _ _ _ Md) as (Hk & F & Hm & Hl & Hc). destruct (content_agree _ F) as [F' Ec]; [apply used_inode; unfold ROOTINO; lia|].
    unfold kind_of in Hk. unfold BSIZE in Hm. split_and!; try done; [congruence | congruence | dlia | congruence].
  - intros i path x Hi Hx. cbv zeta. pose proof (lookup_lt_Some _ _ _ Hi). rewrite list_lookup_fmap, Hi in Hx. injection Hx as <-. rewrite Hin by lia.
    destruct (md_files _ _ _ Md i path Hi) as (Hk & F & _ & Hc). destruct (content_agree _ F) as [F' Ec]; [apply used_inode; lia|]. unfold kind_of in Hk. split_and!; try done; [by replace (type _) with T_FILE by congruence | congruence].
Qed.

End Image.

Section Tree.
  Context (V : Z -> block) (files c : list (list Z)) (Tr : tree V files c).
  Context (Hnames : Forall (fun p => good_name (name_of p)) files) (Hdup : NoDup (all_names files)) (Hcount : Z.of_nat (length files) + 2 <= NINODES).

Definition root : dinode := inode_at V ROOTINO.

Lemma root_kind : type root = T_DIR /\ nlink root = 1.
Proof. by destruct (tr_root _ _ _ Tr) as (H1 & H2 & _). Qed.
Lemma inode_seen i : 0 <= i < 208 -> readable V [] (IBLOCK i the_sb).
Proof.
  intros Hi. destruct (iblock_range i Hi) as [H1 _]. split; [lia|]. split; [apply not_elem_of_nil|]. by apply (tr_lens _ _ _ Tr).
Qed.

Lemma root_byte o : 0 <= o < isize root -> fbyte V root o = default 0 (root_bytes files !! Z.to_nat o).
Proof.
  intros Ho. destruct (tr_root _ _ _ Tr) as (_ & _ & F & _ & _ & Hc). fold root in F, Hc.
  apply (f_equal (lookup (Z.to_nat o))) in Hc. unfold content, padded in Hc. rewrite !list_lookup_fmap, lookup_seqZ_lt in Hc by lia. cbn in Hc. injection Hc as Hc.
  rewrite Z2Nat.id in Hc by lia. exact Hc.
Qed.
Lemma root_entry k : 0 <= k < nentries root -> entry V root k = default (replicate 16 0) (dirents files !! Z.to_nat k).
Proof.
  intros Hk. unfold nentries in Hk. rewrite <- slot_join by (lia || apply dirents_length). rewrite <- root_bytes_join. unfold entry, content, slot.
  apply list_fmap_ext. intros i o Ho%lookup_seqZ. apply root_byte. dlia.
Qed.

Lemma all_good n : n ∈ all_names files -> good_name n.
Proof.
  unfold all_names. rewrite !elem_of_cons. intros [->|[->|Hn]]; [split; [cbn; lia | repeat constructor; lia].. |].
  apply list_elem_of_fmap in Hn as (p & -> & Hp). rewrite Forall_forall in Hnames. by apply Hnames.
Qed.
Lemma root_bytes_ok : bytes_ok (root_bytes files).
Proof.
  rewrite root_bytes_join. apply Forall_join, Forall_lookup_2. intros k d Hd. rewrite dirents_lookup in Hd. destruct (all_names files !! k) as [n|] eqn:E; [|done].
  cbn in Hd. injection Hd as <-. apply dirent_bytes, all_good. by eapply list_elem_of_lookup_2.
Qed.
Lemma root_names nm k : good_name nm -> 0 <= k < nentries root -> names V root nm k <-> all_names files !! Z.to_nat k = Some nm.
Proof.
  intros Hnm Hk. unfold names. rewrite root_entry, dirents_lookup by done. destruct (all_names files !! Z.to_nat k) as [n|] eqn:E; cbn [fmap option_fmap option_map option.from_option id].
  - pose proof (lookup_lt_Some _ _ _ E) as Hl. unfold all_names in Hl. cbn in Hl. rewrite length_fmap in Hl. pose proof Hcount as Hc. unfold NINODES in Hc.
    destruct (dirent_fields n (Z.max 1 (Z.of_nat (Z.to_nat k)))) as [-> ->]; [apply all_good; by eapply list_elem_of_lookup_2 | lia|].
    assert (dname nm = nm) as -> by (rewrite <- (app_nil_r nm) at 1; apply (cname_pad nm 0); [apply Hnm | destruct Hnm; change (Z.to_nat DIRSIZ) with 14%nat; lia]).
    split; [intros [_ ->]; done | intros [= ->]; split; [lia | done]].
  - split; [intros [H _]; exfalso; apply H; reflexivity | done].
Qed.

(** ** Finding a file *)

(** The entry of a file after the lookup in the root directory, which is the
    only other inode in use. *)
Lemma root_got ip0 ip v2 i (s s' : fsst) : 0 <= ip0 < 50 -> itable s = <[Z.to_nat ip0 := v2]> (replicate 50 inode0) -> ref v2 = 1 -> inum v2 = 1 ->
  got 1 (Z.of_nat i + 2) s ip s' ->
  exists w, ip <> ip0 /\ aget (itable s') ip0 = Some v2 /\ aget (itable s') ip = Some w /\ ref w = 1 /\ ilk w = None /\ ivalid w = false /\ idev w = 1 /\ inum w = Z.of_nat i + 2.
Proof.
  intros Hp Et Hr2 Hi2 (_ & _ & _ & w & w' & Hw & Et' & Wd & Wi & Wl & Wr & Wc). rewrite Et in *. pose proof (aget_range _ _ _ Hw) as Hrw. rewrite length_insert, length_replicate in Hrw.
  rewrite aget_insert in Hw by (rewrite ?length_replicate; lia). assert (ip <> ip0 /\ w = inode0) as [Hne ->].
  { destruct (Z.eqb_spec ip ip0) as [->|Hne]; [injection Hw as <-|].
    - exfalso. rewrite bool_decide_false in Wc by (intros (_ & _ & S3); lia). destruct Wc as (_ & Wz & _). lia.
    - split; [done|]. apply aget_lookup in Hw as [_ Hw]. by apply lookup_replicate in Hw as [-> _]. }
  rewrite bool_decide_false in Wr, Wc by (intros (S1 & _); cbn in S1; lia). destruct Wc as (_ & _ & Wv). exists w'. rewrite Et'.
  split_and!; try done; (rewrite aget_insert by (rewrite ?length_insert, ?length_replicate; lia)).
  - rewrite (proj2 (Z.eqb_neq ip0 ip)) by done. rewrite aget_insert, Z.eqb_refl by (rewrite ?length_replicate; lia). done.
  - by rewrite Z.eqb_refl.
Qed.

Lemma skip_name nm : good_name nm -> 47 ∉ nm -> skipelem (47 :: nm) = Some (nm, []).
Proof.
  intros [Hl _] Hs. assert (forall l, 47 ∉ l -> span_elem l = (l, [])) as Hsp.
  { induction l as [|ch l IH]; [done|]. intros Hn. cbn. unfold SLASH. rewrite (proj2 (Z.eqb_neq ch 47)) by set_solver. by rewrite IH by set_solver. }
  unfold skipelem. cbn [skip_slashes]. change (47 =? SLASH) with true. cbv iota. assert (skip_slashes nm = nm) as ->.
  { destruct nm as [|ch nm]; [done|]. cbn. unfold SLASH. by rewrite (proj2 (Z.eqb_neq ch 47)) by set_solver. }
  rewrite Hsp by done. change (Z.to_nat DIRSIZ) with 14%nat. rewrite take_ge by lia. destruct nm; [cbn in Hl; lia | done].
Qed.

Lemma free_slot ip v d i : ip < 50 -> 0 <= ip -> can_get d i (<[Z.to_nat ip := v]> (replicate 50 inode0)).
Proof.
  intros H1 H2. exists inode0. split; [|by right]. destruct (decide (ip = 0)) as [->|Hne].
  - apply (list_elem_of_lookup_2 _ 1). rewrite list_lookup_insert_ne by lia. done.
  - apply (list_elem_of_lookup_2 _ 0). rewrite list_lookup_insert_ne by lia. done.
Qed.

(** After [s] the inode table has one more entry, not read yet. *)
Definition found (s : fsst) (i : nat) (ip : Z) (s' : fsst) : Prop :=
  fs_txn s' V [] [] /\ same_log s s'
  /\ exists v, aget (itable s') ip = Some v /\ ref v = 1 /\ ilk v = None /\ ivalid v = false /\ idev v = 1 /\ inum v = Z.of_nat i + 2.

Lemma root_dir v : idev v = 1 -> idata v = root -> dir_ok V [] v.
Proof.
  intros Hd Hi. destruct (tr_root _ _ _ Tr) as (Ht & _ & F & Hm & Hl & _). fold root in Ht, F, Hm, Hl. constructor; rewrite ?Hi; try done.
  intros o Ho. rewrite root_byte by done. destruct (root_bytes files !! Z.to_nat o) as [x|] eqn:E; cbn; [|lia].
  exact (Forall_lookup_1 _ _ _ _ root_bytes_ok E).
Qed.

Section Lookup.
  Context (i : nat) (path : list Z) (Hi : files !! i = Some path) (Hslash : 47 ∉ name_of path).

Lemma path_good : good_name (name_of path).
Proof. exact (Forall_lookup_1 _ _ _ _ Hnames Hi). Qed.
Lemma path_listed : all_names files !! S (S i) = Some (name_of path).
Proof. change (all_names files !! S (S i)) with ((name_of <$> files) !! i). by rewrite list_lookup_fmap, Hi. Qed.
Lemma name_at k : 0 <= k < nentries root -> names V root (name_of path) k <-> k = Z.of_nat i + 2.
Proof.
  intros Hk. rewrite root_names by (done || apply path_good).
  pose proof path_listed as E.
  split; [|intros ->; by replace (Z.to_nat (Z.of_nat i + 2)) with (S (S i)) by lia]. intros Hn. assert (Z.to_nat k = S (S i)) by (by eapply NoDup_lookup). lia.
Qed.
Lemma name_listed : 0 <= Z.of_nat i + 2 < nentries root.
Proof.
  pose proof (lookup_lt_Some _ _ _ Hi). destruct (tr_root _ _ _ Tr) as (_ & _ & _ & Hm & Hl & _). fold root in Hm, Hl. rewrite root_bytes_length in Hl. unfold nentries. dlia.
Qed.
Lemma name_inum : de_inum (entry V root (Z.of_nat i + 2)) = Z.of_nat i + 2.
Proof.
  pose proof (lookup_lt_Some _ _ _ Hi). pose proof Hcount as Hc. unfold NINODES in Hc.
  rewrite root_entry, dirents_lookup by apply name_listed. replace (Z.to_nat (Z.of_nat i + 2)) with (S (S i)) by lia.
  rewrite path_listed. cbn [fmap option_fmap option_map option.from_option id].
  destruct (dirent_fields (name_of path) (Z.max 1 (Z.of_nat (S (S i))))) as [-> _]; [apply path_good | lia | lia].
Qed.

(** The root directory with a lock on it, and the entry of the file. *)
Lemma root_step_wp {B} s ip0 v1 (X Y : M fsst B) (K : Z -> M fsst B) (Q : B -> fsst -> Prop) : fs_txn s V [] [] -> sb s = the_sb -> 0 <= ip0 < 50 ->
  itable s = <[Z.to_nat ip0 := v1]> (replicate 50 inode0) -> idev v1 = 1 -> inum v1 = 1 -> ref v1 = 1 -> ilk v1 = None -> ivalid v1 = false ->
  (forall ip s', found s i ip s' -> wp (K ip) s' Q) ->
  wp (ilock ip0 ;;;
      v <- get_inode ip0 ;;
      if negb (type (idata v) =? T_DIR) then X
      else
        next <- dirlookup ip0 (name_of path) ;;
        match next with None => Y | Some (ip, _) => iunlockput ip0 ;;; K ip end) s Q.
Proof.
  intros T Hsb Hp Ht Hd Hi1 Hr Hk Hva HQ. assert (spare [] []) as Sp by (split; [constructor | done]).
  assert (forall (t : list inode) v, length t = 50%nat -> aget (<[Z.to_nat ip0 := v]> t) ip0 = Some v) as Hget by (intros t v Hl; rewrite aget_insert, Z.eqb_refl by lia; done).
  pose proof (inode_seen 1 ltac:(lia)) as Hrd. destruct root_kind as [Hty Hnl].
  wp_step. eapply (ilock_wp s V [] [] ip0 v1); try done; [by rewrite Ht, Hget | lia | by rewrite Hi1, Hsb | rewrite Hi1, Hsb; change (rd_dinode _ _) with root; by rewrite Hty |].
  rewrite Hi1, Hr, Hsb, Ht, list_insert_insert_eq. change (rd_dinode _ _) with root. set (v2 := mkInode 1 1 1 _ true root). intros s2 T2 Hs2 Ht2.
  wp_step. eapply get_inode_wp; [by rewrite Ht2, Hget|]. change (type (idata v2)) with (type root). rewrite Hty. change (negb (T_DIR =? T_DIR)) with false. cbv iota.
  wp_step. eapply (dirlookup_wp s2 V [] [] ip0 v2 (name_of path)); try done.
  - by rewrite Ht2, Hget.
  - by apply root_dir.
  - destruct path_good as [_ Hb]. eapply Forall_impl; [exact Hb|]. cbn. lia.
  - intros k _. rewrite Ht2. apply free_slot; lia.
  - rewrite Ht2. apply Forall_insert; [by apply Forall_replicate | cbn; lia].
  - intros s3 _ _ Hno. exfalso. apply (Hno (Z.of_nat i + 2) name_listed). by apply name_at; [apply name_listed|].
  - intros s3 s2' ip k T3 Hs2' G Hk' Hn _. change (idata v2) with root in *. apply name_at in Hn; [|done]. subst k. rewrite name_inum in G.
    assert (itable s2' = <[Z.to_nat ip0 := v2]> (replicate 50 inode0)) as Et2' by (destruct Hs2' as (-> & _); done).
    destruct (root_got ip0 ip v2 i s2' s3 Hp Et2' eq_refl eq_refl G) as (w' & Hne & Hg0 & Hgp & Hw').
    assert (same_log s s3) as Hs3 by (destruct G as (El3 & Es3 & _); eapply same_log_trans; [exact Hs2|]; eapply same_log_trans; [exact (same_rest_log _ _ Hs2')|]; unfold same_log; by rewrite El3, Es3).
    wp_step. eapply (iunlockput_wp s3 ip0 v2); [done | cbn; destruct Hs3 as (_&_&_&_&->&_); done | cbn; lia | change (nlink root <> 0); by rewrite Hnl |].
    apply HQ. split; [by apply txn_itable|]. split; [exact Hs3|]. exists w'. split; [|done]. cbn [itable set_itable].
    pose proof (aget_range _ _ _ Hg0). pose proof (aget_range _ _ _ Hgp). rewrite aget_insert by lia. by rewrite (proj2 (Z.eqb_neq _ _) Hne).
Qed.

Lemma namei_wp s : fs_txn s V [] [] -> sb s = the_sb -> itable s = replicate 50 inode0 ->
  wp (namei 0 (47 :: name_of path)) s (fun r s' => exists ip, r = Some ip /\ found s i ip s').
Proof.
  intros T Hsb Ht. unfold namei, namex. wp_step. wp_step. change (47 =? SLASH) with true. cbv iota. change ROOTDEV with 1. change ROOTINO with 1.
  apply iget_wp; [rewrite Ht; exists inode0; split; [by apply (list_elem_of_lookup_2 _ 0) | by right] | rewrite Ht; apply Forall_replicate; cbn; lia|].
  intros ip0 s1 (El1 & Es1 & _ & v0 & v1 & Hv0 & Et1 & Hd1 & Hi1 & Hk1 & Hr1 & Hc1). rewrite Ht in *. apply aget_lookup in Hv0 as [Hp0 Hv0]. apply lookup_replicate in Hv0 as [-> Hp1].
  assert (~ same_inode 1 1 inode0) as Hns by (unfold same_inode; cbn; lia). rewrite bool_decide_false in Hr1, Hc1 by done. destruct Hc1 as (_ & _ & Hva1).
  assert (fs_txn s1 V [] []) as T1 by (destruct T; constructor; by rewrite El1). assert (same_log s s1) as Hs1 by (unfold same_log; by rewrite El1, Es1).
  cbn [loop length]. wp_step. rewrite skip_name by (done || apply path_good). cbn [andb].
  eapply (root_step_wp s1 ip0 v1 _ _ (fun ip => ret (inl (ip, [], name_of path)))); try done; [congruence | lia |].
  intros ip s2 (T2 & Hs2 & Hf). do 2 wp_step. cbn. wp_step. wp_step. wp_step. exists ip. split; [done|]. split; [done|]. split; [by eapply same_log_trans | done].
Qed.

(** The whole file is read. *)
Lemma read_file_wp T x s : mounted T s -> V = dsk (bc (fs_log s)) -> c !! i = Some x -> wp (read_file (47 :: name_of path)) s (fun r _ => r = Some (Z.of_nat (length x), x)).
Proof.
  intros [Id Hsb Ht _] EV Hx. pose proof (lookup_lt_Some _ _ _ Hi) as Hlt. pose proof Hcount as Hc. unfold NINODES in Hc.
  unfold read_file. wp_step. unfold onl at 1. apply wp_zoom. unfold begin_op. wp_step. wp_step. rewrite (id_com _ _ _ Id), (id_n _ _ _ Id), (id_out _ _ _ Id).
  replace (0 + (0 + 1) * MAXOPBLOCKS >? LOGSIZE) with false by reflexivity. wp_step. unfold log_modify. wp_step. wp_step. cbv iota.
  destruct s as [[l b] t q m]. cbn [fs_log lg bc sb itable set_log] in *. subst t q.
  wp_step. eapply wp_mono; [apply namei_wp; cbn [fs_log bc itable sb]; try done|].
  { rewrite EV. apply (idle_fs_txn 2 30 (mkLst l b)). done. }
  intros r s1 (ip & -> & T1 & Hs1 & v & Hv & Hr & Hk & Hva & Hd & Hin). assert (spare [] []) as Sp by (split; [constructor | done]).
  assert (sb s1 = the_sb) as Hsb1 by (destruct Hs1 as (-> & _); done). pose proof (inode_seen (Z.of_nat i + 2) ltac:(lia)) as Hrd.
  destruct (tr_files _ _ _ Tr i path x Hi Hx) as (Hty & F & Hct). set (d := inode_at V (Z.of_nat i + 2)) in *.
  pose proof (fl_size _ _ _ F) as Hmax. change (MAXFILE * BSIZE) with 274432 in Hmax. pose proof (aget_range _ _ _ Hv) as Hrange.
  wp_step. eapply (ilock_wp s1 V [] [] ip v); try done; [lia | by rewrite Hin, Hsb1 | by rewrite Hin, Hsb1 |].
  rewrite Hin, Hr, Hsb1. change (rd_dinode _ _) with d. intros s2 T2 _ Ht2. set (v2 := mkInode _ _ _ _ _ d) in *.
  assert (aget (itable s2) ip = Some v2) as Hv2 by (rewrite Ht2, aget_insert, Z.eqb_refl by lia; done).
  wp_step. eapply get_inode_wp; [done|]. wp_step. change (idata v2) with d.
  eapply (readk_wp s2 V [] [] ip v2); try done; try lia. intros s3 _ _. wp_step. change (idata v2) with d.
  assert (avail d 0 (isize d) = isize d) as -> by (unfold avail; lia). rewrite Hct.
  assert (Z.of_nat (length x) = isize d) as -> by (rewrite <- Hct; unfold content; rewrite length_fmap, length_seqZ; lia). done.
Qed.

End Lookup.

End Tree.

(** ** The whole way *)

(** Names that fit the entries of a directory, and are all different. *)
Record names_ok (files : list (list Z)) : Prop := {
  nm_good : Forall (fun p => good_name (name_of p)) files;
  nm_dup : NoDup (all_names files)
}.

Lemma name_slash path : 47 ∉ skip_user path -> 47 ∉ name_of path.
Proof. unfold name_of, skip_underscore. intros H. repeat case_match; subst; set_solver. Qed.

(** C7: the kernel reads what was put on the disk image.  For every file that
    [mkfs] was given, a machine that starts with the image it made mounts the
    file system, finds the file under its name in the root directory, and reads
    exactly its bytes, whatever its length up to the largest file. *)
Theorem image_readable (host : list Z -> option (list (list Z))) (opens : list Z -> bool) (name image : list Z) (files : list (list Z)) (i : nat) (path : list Z) (pid : Z)
  (Ho : opens image = true) (Hin : input_ok host files) (Hnm : names_ok files) (Hi : files !! i = Some path) :
  exists s s', mkfs_main host opens (name :: image :: files) mk0 = Ret (tt, s)
    /\ (boot_fs ;;; read_file (47 :: name_of path)) (machine (img s) pid) = Ret (Some (Z.of_nat (length (data_of host path)), data_of host path), s').
Proof.
  destruct (mkfs_wp host files Hin) as ([] & s & E & Md%built_made & _). exists s. destruct Hin as [Hp Hc _ _]. pose proof (Forall_lookup_1 _ _ _ _ Hp Hi) as (Hsl & _ & _).
  assert (wp (boot_fs ;;; read_file (47 :: name_of path)) (machine (img s) pid) (fun r _ => r = Some (Z.of_nat (length (data_of host path)), data_of host path))) as (r & s' & E' & ->).
  { wp_step. eapply mount_wp; [apply (md_sb _ _ _ Md) | exact (made_recoverable host files _ Md (img s)) |]. intros s1 Mn _ _.
    apply (read_file_wp _ files _ (made_tree host files (img s) _ Md (mn_disk _ _ Mn) Hc) (nm_good _ Hnm) (nm_dup _ Hnm) Hc i path Hi (name_slash _ Hsl) (img s)); [done | done |].
    by rewrite list_lookup_fmap, Hi. }
  exists s'. split; [|exact E']. unfold mkfs_main. rewrite Ho. exact E.
Qed.

(** Two files: [user/_cat] with 1027 bytes, in two pieces, and [readme], empty. *)
Definition sample_host (path : list Z) : option (list (list Z)) :=
  if bool_decide (path = [117; 115; 101; 114; 47; 95; 99; 97; 116]) then Some [replicate 1024 7; [1; 2; 3]] else Some [].
Definition sample_files : list (list Z) := [[117; 115; 101; 114; 47; 95; 99; 97; 116]; [114; 101; 97; 100; 109; 101]].

Lemma sample_path path n : (length (data_of sample_host path) = n /\ (n <= 2000)%nat) -> 47 ∉ skip_user path -> good_path sample_host path.
Proof. intros [El Hn] Hs. split; [done|]. split; [unfold sample_host; by case_bool_decide | lia]. Qed.

Lemma sample_input : input_ok sample_host sample_files.
Proof.
  constructor; [|vm_compute; discriminate..]. unfold sample_files. constructor; [|constructor; [|constructor]].
  - apply (sample_path _ 1027); [split; [vm_compute; reflexivity | lia]|]. apply (bool_decide_unpack _). vm_compute. exact I.
  - apply (sample_path _ 0); [split; [vm_compute; reflexivity | lia]|]. apply (bool_decide_unpack _). vm_compute. exact I.
Qed.

Lemma sample_names : names_ok sample_files.
Proof. constructor; [|apply (bool_decide_unpack _); vm_compute; exact I]. repeat constructor; vm_compute; congruence || lia. Qed.

Lemma image_readable_witness : exists s s', mkfs_main sample_host (fun _ => true) [[]; []; [117; 115; 101; 114; 47; 95; 99; 97; 116]; [114; 101; 97; 100; 109; 101]] mk0 = Ret (tt, s)
  /\ (boot_fs ;;; read_file [47; 99; 97; 116]) (machine (img s) 1) = Ret (Some (1027, replicate 1024 7 ++ [1; 2; 3]), s').
Proof.
  destruct (image_readable sample_host (fun _ => true) [] [] sample_files 0 [117; 115; 101; 114; 47; 95; 99; 97; 116] 1) as (s & s' & E1 & E2).
  - reflexivity.
  - exact sample_input.
  - exact sample_names.
  - reflexivity.
  - exists s, s'. split; [exact E1|]. exact E2.
Defined.

(** ** A directory that fills its block *)

(** Sixty-two empty files: with [.] and [..], sixty-four entries. *)
Definition full_files : list (list Z) := (fun i => [97; 48 + i]) <$> seqZ 0 62.

(** Read the second block of the root directory, as [fileread] does, which has
    no transaction. *)
Definition read_root_tail : M fsst (Z * list Z) := boot_fs ;;; ip <- iget ROOTDEV ROOTINO ;; ilock ip ;;; readk ip 1024 16.

