(* ===== verification/FileWrite.v ===== *)
(** * The write system call on files

    [filewrite] of an open file, from the memory of the process through the
    file system to the disk: rounds of at most three blocks, each a
    transaction.  The bytes at the user's address become the bytes of the file
    at its offset. *)

From stdpp Require Import gmap.
From S2P Require Import Prelude KString Bytes Bio Log LogThms Fs FsThms FsData FsFile FsWrite FsAtomic Vm VmWalk VmSpec VmThms Pipe Kern File.

(** ** Rounds *)

Lemma slice_slice x a n b m : 0 <= a -> 0 <= b -> 0 <= m -> b + m <= n -> slice (slice x a n) b m = slice x (a + b) m.
Proof.
  intros Ha Hb Hm Hn. unfold slice. rewrite skipn_firstn_comm, take_take, drop_drop. f_equal; [lia|]. f_equal. lia.
Qed.

Lemma copies_shift {U} (P : U -> Prop) copyin src y a n : copies P copyin src y -> 0 <= a -> 0 <= n -> a + n <= Z.of_nat (length y) ->
  copies P copyin (u64 (src + a)) (slice y a n).
Proof.
  intros H Ha Hn Han t old u Hu Ht Hl Ho Hb. rewrite slice_length in Hl by lia.
  replace (u64 (u64 (src + a) + t)) with (u64 (src + (a + t))) by (unfold u64; rewrite Zplus_mod_idemp_l; f_equal; lia).
  rewrite slice_slice by lia. apply H; try done; lia.
Qed.

Lemma splice_nil c o : splice c o [] = c.
Proof. unfold splice. cbn. rewrite Nat.add_0_r. apply take_drop. Qed.

Lemma splice_splice c o y z : 0 <= o <= Z.of_nat (length c) -> splice (splice c o y) (o + Z.of_nat (length y)) z = splice c o (y ++ z).
Proof.
  intros Ho. unfold splice. set (a := take (Z.to_nat o) c). assert (length a = Z.to_nat o) as Hl by (unfold a; rewrite length_take; lia).
  set (e := drop (Z.to_nat o + length y) c). replace (a ++ y ++ e) with ((a ++ y) ++ e) by (by rewrite app_assoc).
  assert (length (a ++ y) = Z.to_nat (o + Z.of_nat (length y))) as Hl2 by (rewrite length_app; lia).
  rewrite take_app_length' by done. rewrite <- !app_assoc. do 3 f_equal. rewrite app_assoc, drop_app_ge by lia.
  rewrite Hl2. unfold e. rewrite drop_drop, length_app. f_equal. lia.
Qed.

Lemma bytes_length V d : length (bytes V d) = Z.to_nat (isize d).
Proof. apply content_length. Qed.

Lemma file_written_nil q D i o : consistent q D -> 0 <= o <= isize (dino q D i) -> file_written q D i o [] D.
Proof. intros C Ho. constructor; [done | by rewrite splice_nil | change (Z.of_nat (length [])) with 0; lia | done]. Qed.

Lemma file_written_app q D i o y D1 z D2 : 0 <= o <= isize (dino q D i) ->
  file_written q D i o y D1 -> file_written q D1 i (o + Z.of_nat (length y)) z D2 -> file_written q D i o (y ++ z) D2.
Proof.
  intros Ho [A1 A2 A3 A4] [B1 B2 B3 B4]. constructor; [done | | |].
  - rewrite B2, A2. apply splice_splice. rewrite bytes_length. lia.
  - rewrite B3, A3, length_app. lia.
  - intros j Hj Hne. destruct (A4 j Hj Hne) as [E1 E2]. destruct (B4 j) as [F1 F2]; [split; [apply Hj | rewrite E1; apply Hj] | done |]. split; congruence.
Qed.

Section FileWrite.
  Context {A : Type} `{PA : PageAllocator A} `{FH : FileHeap A}.
  Context (devwrite : Z -> option (Z -> Z -> M (kst A) Z)).
  Context (q : superblock) (f ip ino addr : Z) (fv : file) (p : proc) (P : vms A -> Prop) (y : list Z).
  Notation n := (Z.of_nat (length y)).
  Context (Hq : MAXOPBLOCKS <= nlog q) (Hft : ftype fv = FD_INODE) (Hfw : writable fv = true) (Hfi : fip fv = ip).
  Context (Hcp : copies P (copyin_bytes (pagetable p)) addr y) (Hy : bytes_ok y).

(** The kernel between two rounds: the offset of the file is [o]. *)
Record ready (o : Z) (s : kst A) : Prop := {
  rd_quiet : quiet q (kfs s);
  rd_cons : consistent q (disk (kfs s));
  rd_file : files s !! f = Some (with_foff o fv);
  rd_inode : exists v, aget (itable (kfs s)) ip = Some v /\ cached q (disk (kfs s)) v /\ ilk v = None /\ inum v = ino;
  rd_proc : aget (procs s) (cur s) = Some p;
  rd_user : P (kvm s)
}.

(** A round of the loop of [filewrite], for the [n1] bytes from [i] on. *)
Definition write_round (v : file) (i n1 : Z) : M (kst A) (Z + Z) :=
  kbegin_op ;;;
  onfs (ilock (fip v)) ;;;
  v <- get_file f ;;
  r <- user_writei (fip v) (u64 (addr + i)) (foff v) n1 ;;
  when (0 <? r) (put_file f (with_foff (u32 (foff v + r)) v)) ;;;
  onfs (iunlock (fip v)) ;;;
  kend_op ;;;
  if negb (r =? n1) then ret (inr i) else ret (inl (i + r)).


(** What a round for the bytes [z] does: [k] of them are written. *)
Definition round_post (o : Z) (z : list Z) (s : kst A) (i : Z) (r : Z + Z) (s' : kst A) : Prop :=
  exists k, 0 <= k <= Z.of_nat (length z) /\ r = (if k =? Z.of_nat (length z) then inl (i + k) else inr i) /\ ready (o + k) s'
    /\ file_written q (disk (kfs s)) ino o (take (Z.to_nat k) z) (disk (kfs s'))
    /\ (k < Z.of_nat (length z) -> forall j, 0 <= j < sb_size q -> used (disk (kfs s')) q j = true).

Lemma write_round_wp o s i z : ready o s -> 0 <= o <= isize (dino q (disk (kfs s)) ino) -> 0 <= i -> 0 < Z.of_nat (length z) <= 3072 -> i + Z.of_nat (length z) <= n ->
  z = slice y i (Z.of_nat (length z)) -> o + Z.of_nat (length z) <= MAXFILE * BSIZE ->
  wp (write_round (with_foff o fv) i (Z.of_nat (length z))) s (round_post o z s i).
Proof.
  intros [Qt C Hf (v & Hv & Hc & Hl & Hi) Hp Hu] Ho Hi0 Hz Hiz Ez Hmax. pose proof Hmax as Hmax'. change (MAXFILE * BSIZE) with 274432 in Hmax'. destruct Hc as [Hd Hlv Es Hk Hva Hrf].
  unfold write_round, kbegin_op, kend_op. wp_step. wp_step. unfold onfs at 1. apply wp_zoom. eapply begin_wp; [done|]. intros s1 B. pose proof B as [T1 OD1 Ei1 Ed1 _ _]. wp_step.
  wp_step. unfold onfs at 1. apply wp_zoom. cbn [kfs set_kfs]. cbn [with_foff fip]. rewrite Hfi. eapply ilock_valid_wp; [by rewrite Ei1 | done | done | done |]. rewrite Ei1.
  set (me1 := me _). set (v1 := set_ilk (Some me1) v). set (s2 := set_itable _ s1). assert (fs_txn s2 (disk (kfs s)) [] []) as T2 by (by apply txn_itable).
  assert (aget (itable s2) ip = Some v1) as Hv2 by (cbn; by eapply aget_insert_eq).
  wp_step. unfold get_file. wp_step. wp_step. cbn [files set_kfs]. eapply wp_from_option; [exact Hf|]. cbn [with_foff fip foff]. rewrite Hfi.
  wp_step. unfold user_writei. wp_step. unfold myproc. wp_step. wp_step. unfold get_proc. wp_step. wp_step. cbn [procs cur set_kfs]. eapply wp_from_option; [exact Hp|].
  wp_step. wp_step. cbn [kvm set_kfs]. wp_step. unfold onfs at 1. apply wp_zoom. cbn [kfs set_kfs]. rewrite u32_small by lia.
  unfold MAXOPBLOCKS in Hq. pose proof (spans_max o (Z.of_nat (length z)) ltac:(lia) ltac:(lia)) as Hsp.
  eapply (writei_result_wp P (copyin_bytes (pagetable p)) (kvm s) s2 q (disk (kfs s)) [] ip v1 (u64 (addr + i)) o z); try done; cbn [v1 set_ilk idata idev inum].
  { by destruct OD1. }
  { apply u64_range. }
  { rewrite Ez. apply copies_shift; [done | lia | lia | rewrite Ez, slice_length; lia]. }
  { rewrite Ez. by apply slice_bytes. }
  { by rewrite Es, Hi. }
  { cbn [length]. lia. }
  intros k u s3 V' L' [W1 W2 W3 W4 W5 W6 W6' W7 W8 W9 W10 W11 W12 W13] Hu3. cbn [v1 set_ilk inum idata ivalid] in *. cbn [snd fst]. rewrite !Hi in *.
  assert (itable s3 = <[Z.to_nat ip := mkInode (idev v) ino (ref v) (Some me1) true (dino q V' ino)]> (itable (kfs s))) as Ei3.
  { rewrite W6. cbn [s2 itable set_itable]. rewrite list_insert_insert_eq. unfold set_idata. cbn. by rewrite Hva, Hi. }
  assert (me (bc (fs_log s3)) = me1) as Em3 by (destruct W2 as (_&_&_&_&->&_); done). assert (live q V' ino) as Hlv' by (split; [apply Hlv|]; destruct W7 as [-> _]; rewrite Es; apply Hlv).
  wp_step. wp_step. cbn [set_kvm set_kfs kfs files procs cur kvm].
  assert (forall s4 : kst A, kfs s4 = s3 -> kvm s4 = u -> procs s4 = procs s -> cur s4 = cur s -> files s4 !! f = Some (with_foff (o + k) fv) ->
    wp (onfs (iunlock ip) ;;; onfs (onl end_op) ;;; if negb (k =? Z.of_nat (length z)) then ret (inr i) else ret (inl (i + k))) s4 (round_post o z s i)) as Hfin.
  { intros s4 F1 F2 F3 F4 F5. wp_step. unfold onfs at 1. apply wp_zoom. rewrite F1. eapply iunlock_wp; [rewrite Ei3; by eapply aget_insert_eq | done | cbn; by rewrite Em3 |].
    wp_step. unfold onfs at 1. apply wp_zoom. cbn [kfs set_kfs]. eapply (end_wp q (kfs s) s1); [done | done | apply txn_itable; exact W1 | exact W2 |]. intros s5 [Cq Cd _] Ei5.
    assert (agree q V' (disk s5)) as Ag by (by apply home_agree). pose proof (agree_dino q V' (disk s5) Ag W5 ino (proj1 Hlv')) as Edi.
    assert (round_post o z s i (if negb (k =? Z.of_nat (length z)) then inr i else inl (i + k)) (set_kfs s5 (set_kfs (set_itable (<[Z.to_nat ip := set_ilk None (mkInode (idev v) ino (ref v) (Some me1) true (dino q V' ino))]> (itable s3)) s3) s4))) as HP.
    { exists k. split; [lia|]. split; [by destruct (k =? Z.of_nat (length z))|]. cbn [kfs set_kfs]. split; [|split].
      - constructor; cbn [kfs set_kfs files procs cur kvm]; [done | by eapply agree_consistent | done | | by rewrite F3, F4 | by rewrite F2].
        eexists. split; [rewrite Ei5; cbn [itable set_itable]; rewrite Ei3, list_insert_insert_eq; by eapply aget_insert_eq|].
        split; [|done]. constructor; cbn [set_ilk idev inum idata ivalid ref]; rewrite ?Edi; try done. by eapply agree_live.
      - eapply (file_written_agree q _ _ _ _ V'); [done | done | |].
        + intros j Hj. destruct (decide (j = ino)) as [->|Hne]; [done|]. split; [apply Hj|]. rewrite W11 by (apply Hj || done). apply Hj.
        + constructor; [done | by rewrite W9, Es | rewrite W8, Es, length_take; f_equal; lia | intros j Hj Hne; by apply W10].
      - intros Hlt j Hj. rewrite (agree_used q V') by done. by apply W4. }
    destruct (negb (k =? Z.of_nat (length z))); wp_step; exact HP. }
  wp_step. wp_step. destruct (Z.ltb_spec 0 k) as [Hk0|Hk0]; cbn [when].
  - unfold put_file. wp_step. rewrite u32_small by lia. eapply Hfin; try done. cbn [files set_files set_kvm set_kfs]. by rewrite lookup_insert_eq.
  - wp_step. apply Hfin; try done. cbn [files set_kvm set_kfs]. rewrite Hf. do 2 f_equal. lia.
Qed.

Lemma take_slice i k : 0 <= i -> 0 <= k -> i + k <= n -> take (Z.to_nat i) y ++ slice y i k = take (Z.to_nat (i + k)) y.
Proof. intros Hi Hk Hn. unfold slice. replace (Z.to_nat (i + k)) with (Z.to_nat i + Z.to_nat k)%nat by lia. by rewrite take_take_drop. Qed.

Lemma filewrite_wp o s (Q : fin -> kst A -> Prop) : ready o s -> 0 <= o <= isize (dino q (disk (kfs s)) ino) -> o + n <= MAXFILE * BSIZE ->
  (forall k s', 0 <= k <= n -> ready (o + k) s' -> file_written q (disk (kfs s)) ino o (take (Z.to_nat k) y) (disk (kfs s')) ->
     (k < n -> forall j, 0 <= j < sb_size q -> used (disk (kfs s')) q j = true) -> Q (Done (if k =? n then n else -1)) s') ->
  wp (filewrite devwrite f addr n) s Q.
Proof.
  intros Rd Ho Hmax HQ. pose proof Hmax as Hmax'. change (MAXFILE * BSIZE) with 274432 in Hmax'. unfold filewrite. wp_step. unfold get_file at 1. wp_step. wp_step. eapply wp_from_option; [apply Rd|].
  cbn [writable with_foff ftype]. rewrite Hfw, Hft. cbn [negb]. wp_step. change max_write with 3072.
  eapply (wp_loop (fun i s' => 0 <= i <= n /\ ready (o + i) s' /\ file_written q (disk (kfs s)) ino o (take (Z.to_nat i) y) (disk (kfs s'))) (fun i => Z.to_nat (n - i))); [| |lia].
  2:{ split; [lia|]. rewrite Z.add_0_r. split; [done|]. apply file_written_nil; [apply Rd | done]. }
  intros i s1 (Hi & Rd1 & F1). destruct (Z.ltb_spec i n) as [Hlt|Hge].
  2:{ wp_step. wp_step. replace i with n in * by lia. rewrite Z.eqb_refl. specialize (HQ n s1). rewrite Z.eqb_refl in HQ. apply HQ; try done; lia. }
  cbv zeta. set (n1 := if n - i >? 3072 then 3072 else n - i). assert (0 < n1 <= 3072 /\ i + n1 <= n) as [Hn1 Hn2] by (unfold n1; rewrite Z.gtb_ltb; case_if; lia).
  set (z := slice y i n1). assert (Z.of_nat (length z) = n1) as Ez by (unfold z; rewrite slice_length; lia).
  assert (Z.of_nat (length (take (Z.to_nat i) y)) = i) as Eti by (rewrite length_take; lia).
  assert (isize (dino q (disk (kfs s1)) ino) = Z.max (isize (dino q (disk (kfs s)) ino)) (o + i)) as Esz by (rewrite (fw_size _ _ _ _ _ _ F1), Eti; done).
  change (wp (write_round (with_foff (o + i) fv) i n1) s1 (fun r s2 => match r with inl i' => (0 <= i' <= n /\ ready (o + i') s2 /\ file_written q (disk (kfs s)) ino o (take (Z.to_nat i') y) (disk (kfs s2))) /\ (Z.to_nat (n - i') < Z.to_nat (n - i))%nat
    | inr i' => wp (ret (Done (if i' =? n then n else -1))) s2 Q end)).
  rewrite <- Ez. eapply wp_mono; [apply write_round_wp; [done | lia | lia | lia | lia | by rewrite Ez | lia]|]. intros r s2 (k & Hk & -> & Rd2 & F2 & Hfull). rewrite Ez in *.
  assert (file_written q (disk (kfs s)) ino o (take (Z.to_nat (i + k)) y) (disk (kfs s2))) as F12.
  { rewrite <- take_slice by lia. eapply file_written_app; [lia | exact F1 |]. rewrite Eti. replace (slice y i k) with (take (Z.to_nat k) z); [done|].
    unfold z, slice. rewrite take_take. f_equal. lia. }
  replace (o + i + k) with (o + (i + k)) in Rd2 by lia. destruct (Z.eqb_spec k n1) as [->|Hne].
  - split; [|lia]. split; [lia|]. by split.
  - wp_step. specialize (HQ (i + k) s2). rewrite (proj2 (Z.eqb_neq i n)) by lia. rewrite (proj2 (Z.eqb_neq (i + k) n)) in HQ by lia. apply HQ; try done; [lia|].
    intros _. apply Hfull. lia.
Qed.

End FileWrite.

(** ** The user's memory *)

Section User.
  Context {A : Type} `{PA : PageAllocator A}.
  Context (own : owner) (H : Z -> Prop) (root addr : Z) (y : list Z) (Hroot : own root = Some (root, 2, 0)).

(** The process's page table is in order, and the bytes [y] are at [addr]. *)
Record user_holds (v : vms A) : Prop := {
  uh_pt : pt_ok v own H;
  uh_user : user_ok (pm v) own root;
  uh_kbuf : kbuf (pm v) own root KBUF BSIZE;
  uh_page : forall i, 0 <= i < Z.of_nat (length y) -> 0 <= addr + i < MAXVA /\ user_page (entry (pm v) root (addr + i)) = true;
  uh_data : forall i, 0 <= i < Z.of_nat (length y) -> pm v (phys (pm v) root (addr + i)) = y !!! Z.to_nat i
}.

Lemma poke_spec l : forall m a x, poke m a l x = if (a <=? x) && (x <? a + Z.of_nat (length l)) then l !!! Z.to_nat (x - a) else m x.
Proof.
  induction l as [|c l IH]; intros m a x; cbn [poke length]; [destruct (Z.leb_spec a x), (Z.ltb_spec x (a + Z.of_nat 0)); cbn [andb]; try done; lia|]. rewrite IH. unfold upd.
  destruct (Z.eqb_spec x a) as [->|Hne].
  - rewrite (proj2 (Z.leb_gt (a + 1) a)), (proj2 (Z.leb_le a a)), (proj2 (Z.ltb_lt a (a + Z.of_nat (S (length l))))) by lia. cbn [andb]. by rewrite Z.sub_diag.
  - destruct (Z.leb_spec (a + 1) x), (Z.leb_spec a x); cbn [andb]; try lia. replace (a + 1 + Z.of_nat (length l)) with (a + Z.of_nat (S (length l))) by lia.
    destruct (Z.ltb_spec x (a + Z.of_nat (S (length l)))); [|done]. by replace (Z.to_nat (x - a)) with (S (Z.to_nat (x - (a + 1)))) by lia.
Qed.

(** Changes of the kernel's buffer alone. *)
Lemma user_holds_frame v v' : user_holds v -> al v' = al v -> bytes_mem (pm v') -> (forall x, ~ (KBUF <= x < KBUF + BSIZE) -> pm v' x = pm v x) ->
  user_holds v' /\ (forall va, entry (pm v') root va = entry (pm v) root va)
  /\ forall i, 0 <= i < Z.of_nat (length y) -> phys (pm v') root (addr + i) = phys (pm v) root (addr + i) /\ pm v' (phys (pm v) root (addr + i)) = y !!! Z.to_nat i.
Proof.
  intros [K Hu Hk Hp Hd] Ea Hb Hx. destruct (VmSpec.frame_ok v own H root K Hroot v') as (K' & He & _); [|done|done|].
  { intros x Ho. apply Hx. intros Hr. destruct (Hk x Hr). done. }
  assert (forall i, 0 <= i < Z.of_nat (length y) -> phys (pm v') root (addr + i) = phys (pm v) root (addr + i)) as Hph by (intros i Hi; unfold phys; by rewrite He).
  assert (forall i, 0 <= i < Z.of_nat (length y) -> pm v' (phys (pm v) root (addr + i)) = y !!! Z.to_nat i) as Hdd.
  { intros i Hi. rewrite Hx; [by apply Hd|]. intros Hr. destruct (Hp i Hi) as [Hva Hup]. destruct (Hk _ Hr) as [_ Hn]. apply (Hn (addr + i)); try done.
    destruct (us_frame _ _ _ Hu (addr + i) Hva Hup) as [(Hm & _) _]. unfold phys, page_of. dlia. }
  split; [|split; [done | by auto]]. constructor.
  - done.
  - destruct Hu as [U1 U2]. constructor; [intros va Hv; rewrite !He; by apply U1 | intros v1 v2 H1 H2; rewrite !He; by apply U2].
  - intros x Hr. destruct (Hk x Hr) as [Ho Hn]. split; [done|]. intros va Hv. rewrite !He. by apply Hn.
  - intros i Hi. rewrite He. by apply Hp.
  - intros i Hi. rewrite Hph by done. by apply Hdd.
Qed.

Lemma user_copies : copies user_holds (copyin_bytes root) addr y.
Proof.
  intros t old v Hv Ht Hl Hlo Hb. set (n := Z.of_nat (length old)) in *.
  assert (forall i, 0 <= i < n -> 0 <= t + i < Z.of_nat (length y)) as Hin by lia.
  destruct (uh_page _ Hv t ltac:(lia)) as [Hva _]. unfold MAXVA in Hva. rewrite u64_small by lia. unfold copyin_bytes. fold n.
  set (v1 := set_pm (poke (pm v) KBUF old) v).
  assert (forall x, ~ (KBUF <= x < KBUF + BSIZE) -> pm v1 x = pm v x) as Hx1.
  { intros x Hx. cbn [pm v1 set_pm]. rewrite poke_spec. unfold BSIZE in Hx. destruct (Z.leb_spec KBUF x), (Z.ltb_spec x (KBUF + Z.of_nat (length old))); cbn [andb]; try done. lia. }
  assert (bytes_mem (pm v1)) as Hb1.
  { intros x. cbn [pm v1 set_pm]. rewrite poke_spec. case_if; [|apply (pt_bytes _ _ _ (uh_pt _ Hv))]. by apply bytes_ok_at. }
  destruct (user_holds_frame v v1 Hv eq_refl Hb1 Hx1) as (Hv1 & He1 & Hd1). destruct Hv1 as [K1 U1 B1 P1 D1] eqn:E1. clear E1.
  destruct (copyin_wp v1 own H root (addr + t) KBUF n K1 Hroot U1 ltac:(lia) ltac:(lia)) with (Q := fun r v' => r = 0 /\ user_holds v' /\ forall i, 0 <= i < n -> pm v' (KBUF + i) = y !!! Z.to_nat (t + i)) as (r & v' & E & -> & Hv' & Hd').
  - intros x Hx. apply B1. unfold BSIZE. lia.
  - intros r v' (Ea & Hb' & He & K' & [(-> & _ & Hmv)|(_ & c & Hc & _ & _ & Hbad)]).
    2:{ exfalso. destruct (P1 (t + c) ltac:(lia)) as [Hr Hup]. replace (addr + (t + c)) with (addr + t + c) in * by lia. unfold MAXVA in *. destruct Hbad as [?|Hbad]; [lia|congruence]. }
    split; [done|]. split.
    + apply (user_holds_frame v1 v'); [done | done | done |]. intros x Hx. apply (proj2 Hmv). intros i Hi ->. apply Hx. unfold VmSpec.kb, BSIZE. lia.
    + intros i Hi. change (KBUF + i) with (VmSpec.kb KBUF i). rewrite (proj1 Hmv i Hi). unfold VmSpec.ph. replace (addr + t + i) with (addr + (t + i)) by lia. by apply D1, Hin.
  - rewrite E. rewrite Z.eqb_refl. exists v'. split; [|done]. do 2 f_equal. apply list_eq. intros i. unfold peek. rewrite list_lookup_fmap. destruct (decide (Z.of_nat i < n)) as [Hi|Hi].
    + rewrite lookup_seqZ_lt by lia. cbn [fmap option_fmap option_map]. rewrite Hd' by lia. unfold slice. rewrite lookup_take_lt by lia. rewrite lookup_drop.
      rewrite list_lookup_lookup_total_lt by lia. do 2 f_equal. lia.
    + rewrite lookup_seqZ_ge by lia. cbn. symmetry. apply lookup_ge_None_2. rewrite slice_length by lia. lia.
Qed.

End User.

(** ** The whole call *)

(** C8: [filewrite] of an open file for [n] bytes of the process's memory, on a
    consistent file system that no other operation uses, in rounds of at most
    three blocks: it returns [n], or -1 when every block of the disk is in use.
    The first [k] bytes of the user's buffer, all [n] when it returns [n], are
    then on the disk at the file's offset, and the offset is [k] further; every
    other file is as before, the file system is consistent, nobody is in a
    transaction, and the user's memory is unchanged. *)
Theorem filewrite_correct {A : Type} `{PA : PageAllocator A} (devwrite : Z -> option (Z -> Z -> M (kst A) Z)) (q : superblock) (f ip ino addr o : Z) (fv : file) (p : proc)
  (own : owner) (H : Z -> Prop) (y : list Z) (s : kst A)
  (Hq : MAXOPBLOCKS <= nlog q) (Hft : ftype fv = FD_INODE) (Hfw : writable fv = true) (Hfi : fip fv = ip) (Hroot : own (pagetable p) = Some (pagetable p, 2, 0)) (Hy : bytes_ok y)
  (Rd : ready q f ip ino fv p (user_holds own H (pagetable p) addr y) o s) (Ho : 0 <= o <= isize (dino q (disk (kfs s)) ino)) (Hmax : o + Z.of_nat (length y) <= MAXFILE * BSIZE) :
  exists k s', filewrite devwrite f addr (Z.of_nat (length y)) s = Ret (Done (if k =? Z.of_nat (length y) then Z.of_nat (length y) else -1), s')
    /\ 0 <= k <= Z.of_nat (length y) /\ (k < Z.of_nat (length y) -> forall j, 0 <= j < sb_size q -> used (disk (kfs s')) q j = true)
    /\ file_written q (disk (kfs s)) ino o (take (Z.to_nat k) y) (disk (kfs s'))
    /\ ready q f ip ino fv p (user_holds own H (pagetable p) addr y) (o + k) s'.
Proof.
  destruct (filewrite_wp devwrite q f ip ino addr fv p (user_holds own H (pagetable p) addr y) y Hq Hft Hfw Hfi (user_copies own H (pagetable p) addr y Hroot) Hy o s
    (fun r s' => exists k, r = Done (if k =? Z.of_nat (length y) then Z.of_nat (length y) else -1)
      /\ 0 <= k <= Z.of_nat (length y) /\ (k < Z.of_nat (length y) -> forall j, 0 <= j < sb_size q -> used (disk (kfs s')) q j = true)
      /\ file_written q (disk (kfs s)) ino o (take (Z.to_nat k) y) (disk (kfs s')) /\ ready q f ip ino fv p (user_holds own H (pagetable p) addr y) (o + k) s') Rd Ho Hmax)
    as (r & s' & E & k & -> & HR).
  - intros k s' Hk Rd' F Hfull. exists k. split_and!; try done; lia.
  - by exists k, s'.
Qed.

(** A process with two pages of zeros and the file of FsWrite.v open. *)
Definition writer : proc := with_pagetable 4096 (with_state RUNNING proc0).
Definition open_file : file := mkFile FD_INODE 1 true true 0 0 0 0.

Lemma writer_ready : exists own H (s : kst bump), own 4096 = Some (4096, 2, 0) /\ ready small_sb 64000 0 5 open_file writer (user_holds own H 4096 10 [0; 0]) 2 s
  /\ bytes (disk (kfs s)) (dino small_sb (disk (kfs s)) 5) = [97; 98; 99] /\ dino small_sb (disk (kfs s)) 5 = file_dinode.
Proof.
  destruct v1_ok as (s1 & own1 & H1 & fr & _ & Hal & G). destruct file_quiet as (fs & Qt & C & Hv & Hc & Eb).
  exists own1, H1, (mkK s1 fs {[64000 := with_foff 2 open_file]} ∅ [writer] 2 0 0 0). split; [apply (gb_own _ _ _ _ _ _ _ _ _ _ _ G); reflexivity|].
  split; [|split; [done | exact (eq_sym (ca_same _ _ _ Hc))]]. constructor; cbn [kfs files procs cur kvm]; try done; [by exists file_inode|].
  assert (forall i, 0 <= i < 2 -> user_page (entry (pm s1) 4096 (10 + i)) = true) as Hup.
  { intros i Hi. pose proof (v1_writable _ _ _ _ (10 + i) G ltac:(lia)) as Hw. unfold user_writable in Hw. by apply andb_true_iff in Hw as [Hw _]. }
  constructor; cbn [length].
  - apply (gb_ok _ _ _ _ _ _ _ _ _ _ _ G).
  - by apply (v1_user _ _ _ _ G).
  - apply (v1_kbuf _ _ _ _ _ _ G Hal). unfold KBUF, KERNBASE. lia.
  - intros i Hi. unfold MAXVA. split; [lia | by apply Hup].
  - intros i Hi. destruct (gb_frame _ _ _ _ _ _ _ _ _ _ _ G 0 ltac:(lia)) as (Hg & _ & _ & _ & Hz).
    assert (PTE2PA (entry (pm s1) 4096 (10 + i)) = fr 0) as Epa.
    { rewrite (v1_entry _ _ _ _ _ G) by (unfold MAXVA; lia). rewrite bool_decide_true by lia. replace ((10 + i) / 4096) with 0 by dlia. by destruct (pte_of_facts (fr 0) 23 Hg ltac:(lia)) as (_ & -> & _). }
    rewrite Hz; [|unfold phys, page_of; rewrite Epa; destruct Hg as (Hm & _); dlia].
    assert (i = 0 \/ i = 1) as [-> | ->] by lia; reflexivity.
Qed.

Lemma filewrite_correct_witness : exists (s s' : kst bump) k, filewrite (fun _ => None) 64000 10 2 s = Ret (Done (if k =? 2 then 2 else -1), s')
  /\ bytes (disk (kfs s')) (dino small_sb (disk (kfs s')) 5) = splice [97; 98; 99] 2 (take (Z.to_nat k) [0; 0]).
Proof.
  destruct writer_ready as (own & H & s & Ho & Rd & Eb & Ed).
  destruct (filewrite_correct (fun _ => None) small_sb 64000 0 5 10 2 open_file writer own H [0; 0] s) as (k & s' & E & _ & _ & F & _).
  - discriminate.
  - reflexivity.
  - reflexivity.
  - reflexivity.
  - exact Ho.
  - repeat constructor; lia.
  - exact Rd.
  - rewrite Ed. cbn. lia.
  - discriminate.
  - exists s, s', k. split; [exact E|]. rewrite <- Eb. apply F.
Defined.
