(* ===== verification/Power.v ===== *)
(** * From the image through a power failure

    The whole life of a disk: [mkfs] makes it, a machine boots from it, opens a
    file by its name and writes to it, the power fails at any moment, and fails
    again during the recoveries, and a machine boots and reads the files. *)

From S2P Require Import Prelude KString Bytes Bio Log LogThms Fs FsThms FsData FsFile FsWrite FsAtomic Mkfs MkfsFile MkfsImage MkfsThms MkfsCons Mount.

(** ** Opening and writing *)

(** The calls that [sys_open] (kernel/sysfile.c) makes of the file system for a
    file that is there. *)
Definition open_path (path : list Z) : M fsst (option Z) :=
  transaction (
    r <- namei 0 path ;;
    match r with
    | Some ip => ilock ip ;;; iunlock ip ;;; ret (Some ip)
    | None => ret None
    end).

(** Open a file and write [y] at [o]. *)
Definition write_file (path : list Z) (o : Z) (y : list Z) : M fsst (option Z) :=
  r <- open_path path ;;
  match r with
  | Some ip => x <- write_op (kin y) tt ip 0 o (Z.of_nat (length y)) ;; ret (Some (fst x))
  | None => ret None
  end.

(** ** Trees on consistent disks *)

Lemma tree_from T V files c c' : tree T files c -> consistent the_sb V -> dino the_sb V ROOTINO = dino the_sb T ROOTINO -> bytes V (dino the_sb V ROOTINO) = bytes T (dino the_sb T ROOTINO) ->
  (forall i path x, files !! i = Some path -> c' !! i = Some x -> live the_sb V (Z.of_nat i + 2) /\ bytes V (dino the_sb V (Z.of_nat i + 2)) = x) -> tree V files c'.
Proof.
  intros Tr C Er Eb HF. assert (forall i, live the_sb V i -> file_ok V [] (dino the_sb V i)) as Hok.
  { intros i Hi. destruct (cs_sound _ _ C i Hi) as [I S F]. by apply (file_ok_blocks the_sb); [apply C | ..]. }
  constructor.
  - intros a Ha. apply (do_len _ _ (cs_disk _ _ C)). change (32 <= a < 2000). lia.
  - destruct (tr_root _ _ _ Tr) as (Ht & Hn & _ & Hm & Hl & Hc). cbv zeta. change (inode_at V ROOTINO) with (dino the_sb V ROOTINO). change (inode_at T ROOTINO) with (dino the_sb T ROOTINO) in *.
    assert (live the_sb V ROOTINO) as Hr by (split; [vm_compute; split; congruence | by rewrite Er, Ht]). pose proof (Hok _ Hr) as F. unfold bytes in Eb. rewrite Er in *. split_and!; try done. congruence.
  - intros i path x Hi Hx. destruct (HF i path x Hi Hx) as [Hl Hb]. pose proof (Hok _ Hl). destruct Hl as [_ Hl]. done.
Qed.

Section Files.
  Context (files : list (list Z)) (Hcount : Z.of_nat (length files) + 2 <= NINODES).

Lemma tree_live V c i path x : tree V files c -> files !! i = Some path -> c !! i = Some x -> live the_sb V (Z.of_nat i + 2).
Proof. intros Tr Hi Hx. pose proof (lookup_lt_Some _ _ _ Hi). destruct (tr_files _ _ _ Tr i path x Hi Hx) as (Ht & _). split; [|done]. unfold NINODES in Hcount. change (ninodes the_sb) with 200. lia. Qed.
Lemma root_live V c : tree V files c -> live the_sb V ROOTINO.
Proof. intros Tr. destruct (tr_root _ _ _ Tr) as (Ht & _). split; [vm_compute; split; congruence|]. change (dino the_sb V ROOTINO) with (inode_at V ROOTINO). by rewrite Ht. Qed.

(** The blocks outside the log decide. *)
Lemma tree_agree T V c : tree T files c -> consistent the_sb T -> agree_home the_sb T V -> consistent the_sb V /\ tree V files c.
Proof.
  intros Tr C Hh. assert (agree the_sb T V) as Ag by (by apply home_agree). pose proof (agree_consistent _ _ _ Ag C) as CV. split; [done|]. pose proof (root_live T c Tr) as Hr.
  apply (tree_from T V files c c Tr CV); [by apply agree_dino; [| | apply Hr] | by apply agree_bytes |]. intros i path x Hi Hx. pose proof (tree_live T c i path x Tr Hi Hx) as Hl.
  split; [by apply (agree_live _ _ _ Ag C)|]. rewrite (agree_bytes _ _ _ Ag C) by done. by destruct (tr_files _ _ _ Tr i path x Hi Hx) as (_ & _ & Hc).
Qed.

(** After a write to file [i]. *)
Lemma tree_written D V c i path x o y : tree D files c -> file_written the_sb D (Z.of_nat i + 2) o y V -> (forall j, live the_sb D j -> live the_sb V j) ->
  files !! i = Some path -> c !! i = Some x -> tree V files (<[i := splice x o y]> c).
Proof.
  intros Tr [CV Fb _ Fo] Hl Hi Hx. assert (ROOTINO <> Z.of_nat i + 2) as Hne by (unfold ROOTINO; lia). destruct (Fo _ (root_live D c Tr) Hne) as [E1 E2].
  apply (tree_from D V files c _ Tr CV E1 E2). intros j path' x' Hj Hx'. destruct (decide (j = i)) as [->|Hji].
  - rewrite list_lookup_insert_eq in Hx' by (by eapply lookup_lt_Some). injection Hx' as <-. split; [by eapply Hl, tree_live|]. rewrite Fb. f_equal.
    by destruct (tr_files _ _ _ Tr i path x Hi Hx) as (_ & _ & Hc).
  - rewrite list_lookup_insert_ne in Hx' by done. pose proof (tree_live D c j path' x' Tr Hj Hx') as Hlj. split; [by apply Hl|]. destruct (Fo _ Hlj ltac:(lia)) as [_ ->].
    by destruct (tr_files _ _ _ Tr j path' x' Hj Hx') as (_ & _ & Hc).
Qed.

Context (Hnames : Forall (fun p => good_name (name_of p)) files) (Hdup : NoDup (all_names files)).

Lemma open_path_wp T s c i path x : mounted T s -> consistent the_sb (disk s) -> tree (disk s) files c -> files !! i = Some path -> 47 ∉ name_of path -> c !! i = Some x ->
  wp (open_path (47 :: name_of path)) s (fun r s' => exists ip v, r = Some ip /\ committed the_sb s (disk s) s' /\ aget (itable s') ip = Some v
    /\ ilk v = None /\ inum v = Z.of_nat i + 2 /\ cached the_sb (disk s) v).
Proof.
  intros [Id Hsb Ht _] C Tr Hi Hs Hx. assert (quiet the_sb s) as Qt by (by constructor). pose proof (lookup_lt_Some _ _ _ Hi) as Hlt. unfold NINODES in Hcount.
  apply (transaction_wp the_sb); [done|]. intros s1 [T1 OD1 Ei1 Ed1 _ _]. wp_step.
  eapply wp_mono; [apply (namei_wp (disk s) files c Tr Hnames Hdup Hcount i path Hi Hs); [done | apply OD1 | by rewrite Ei1, Ht]|].
  intros r s2 (ip & -> & T2 & Hs2 & v & Hv & Hr & Hk & Hva & Hd & Hin). assert (sb s2 = the_sb) as Hsb2 by (destruct Hs2 as (-> & _); apply OD1).
  pose proof (tree_live (disk s) c i path x Tr Hi Hx) as Hl. pose proof (inode_seen _ _ _ Tr (Z.of_nat i + 2) ltac:(lia)) as Hrd. assert (spare [] []) as Sp by (split; [constructor | done]).
  wp_step. eapply (ilock_wp s2 (disk s) [] [] ip v); try done; [lia | by rewrite Hin, Hsb2 | rewrite Hin, Hsb2; apply Hl |].
  rewrite Hin, Hr, Hsb2. intros s3 T3 Hs3 Ht3. wp_step. eapply iunlock_wp; [rewrite Ht3; by eapply aget_insert_eq | cbn; lia | cbn; destruct Hs3 as (_&_&_&_&->&_); done |]. wp_step.
  exists (disk s), []. split; [by apply txn_itable|]. split; [by eapply same_log_trans|]. intros s4 Cm Ei4. eexists ip, _. split; [done|]. split; [done|].
  rewrite Ei4. cbn [itable set_itable]. rewrite Ht3, list_insert_insert_eq. split; [by eapply aget_insert_eq|]. split; [done|]. split; [done|]. constructor; try done.
  apply rd_dinode_ok, (do_bytes _ _ (cs_disk _ _ C)). destruct (iblock_range (Z.of_nat i + 2) ltac:(lia)) as [Hb _]. change (32 <= IBLOCK (Z.of_nat i + 2) the_sb < 2000). lia.
Qed.

(** ** Disks that the machine can restart from *)

(** From [d] a boot leads to the files with the contents [c]. *)
Definition restarts (c : list (list Z)) (d : Z -> block) : Prop :=
  exists old T L, recoverable 2 30 old T L d /\ sb_of (T 1) = the_sb /\ sb_of (old 1) = the_sb /\ consistent the_sb T /\ tree T files c.

Lemma restarts_wp c d pid (Q : unit -> fsst -> Prop) : restarts c d ->
  (forall s, mounted (disk s) s -> consistent the_sb (disk s) -> tree (disk s) files c -> sb_of (disk s 1) = the_sb -> disk s = apply_writes d (wrote (bc (fs_log s))) ->
     (forall j, restarts c (apply_writes d (take j (wrote (bc (fs_log s)))))) -> Q tt s) -> wp boot_fs (machine d pid) Q.
Proof.
  intros (old & T & L & HR & H1 & H2 & C & Tr) HQ. assert (home 2 30 1) as H0 by (unfold home; lia).
  eapply (mount_wp old T L d); [destruct (rc_old _ _ _ _ _ _ HR 1 H0) as [-> | ->]; done | done |]. intros s Mn HW Hj. destruct (tree_agree T (disk s) c Tr C (mn_disk _ _ Mn)) as [C' Tr'].
  apply HQ; try done.
  - by destruct Mn; constructor.
  - unfold disk. by rewrite (mn_disk _ _ Mn).
  - intros j. destruct (Hj j) as [L' HL']. by exists old, T, L'.
Qed.

(** Boot and read a file. *)
Lemma restarts_read c d pid i path x : restarts c d -> files !! i = Some path -> 47 ∉ name_of path -> c !! i = Some x ->
  exists s, (boot_fs ;;; read_file (47 :: name_of path)) (machine d pid) = Ret (Some (Z.of_nat (length x), x), s).
Proof.
  intros R Hi Hs Hx. assert (wp (boot_fs ;;; read_file (47 :: name_of path)) (machine d pid) (fun r _ => r = Some (Z.of_nat (length x), x))) as (r & s' & E & ->); [|by exists s'].
  wp_step. eapply restarts_wp; [done|]. intros s Mn C Tr _ _ _. by apply (read_file_wp (disk s) files c Tr Hnames Hdup Hcount i path Hi Hs (disk s)).
Qed.

(** The disks that a machine can be left with that stops after the first [k] of
    the writes [W] to [D], and then while it boots, any number of times. *)
Inductive stopped (D : Z -> block) (W : list (Z * block)) (k : nat) : (Z -> block) -> Prop :=
| stopped_running : stopped D W k (apply_writes D (take k W))
| stopped_booting d pid s j : stopped D W k d -> boot_fs (machine d pid) = Ret (tt, s) -> stopped D W k (apply_writes d (take j (wrote (bc (fs_log s))))).

Lemma stopped_restarts c D W k d : restarts c (apply_writes D (take k W)) -> stopped D W k d -> restarts c d.
Proof.
  intros H0 H. induction H as [|d pid s j H IH E]; [done|].
  destruct (restarts_wp c d pid (fun _ s' => forall j, restarts c (apply_writes d (take j (wrote (bc (fs_log s')))))) IH) as ([] & s' & E' & Hj); [by intros|]. rewrite E in E'. by injection E' as <-.
Qed.

(** After every write of [W] the machine can restart, with the contents [c] or
    [c'], and with [c'] at the end. *)
Record covered (c c' : list (list Z)) (D : Z -> block) (W : list (Z * block)) : Prop := {
  cv_any : forall k, restarts c (apply_writes D (take k W)) \/ restarts c' (apply_writes D (take k W));
  cv_end : restarts c' (apply_writes D W)
}.

Lemma covered_app c c' D W1 W2 : (forall k, restarts c (apply_writes D (take k W1))) -> covered c c' (apply_writes D W1) W2 -> covered c c' D (W1 ++ W2).
Proof.
  intros H1 [H2 H3]. constructor; [|by rewrite apply_app]. intros k. destruct (decide (k <= length W1)%nat) as [Hk|Hk]; [left; by rewrite take_app_le by done|].
  rewrite take_app_ge by lia. rewrite apply_app. apply H2.
Qed.

Lemma covered_stopped c c' D W k d : covered c c' D W -> stopped D W k d -> exists e, (e = c \/ e = c') /\ ((length W <= k)%nat -> e = c') /\ restarts e d.
Proof.
  intros [H1 H2] Hs. destruct (decide (length W <= k)%nat) as [Hk|Hk].
  - exists c'. split; [by right|]. split; [done|]. eapply stopped_restarts; [|done]. by rewrite take_ge.
  - destruct (H1 k) as [H|H]; [exists c | exists c']; (split; [by auto|]); (split; [lia|]); by eapply stopped_restarts.
Qed.

(** A transaction that ends with the files [c']. *)
Lemma committed_covered s V s' c c' : committed the_sb s V s' -> sb_of (disk s 1) = the_sb -> consistent the_sb (disk s) -> tree (disk s) files c ->
  sb_of (V 1) = the_sb -> consistent the_sb V -> tree V files c' ->
  exists W, wrote (bc (fs_log s')) = wrote (bc (fs_log s)) ++ W /\ disk s' = apply_writes (disk s) W /\ covered c c' (disk s) W.
Proof.
  intros [Cq Cd (W & HW & HD & HC)] H1 C Tr H2 C' Tr'. exists W. split; [done|]. split; [done|]. constructor.
  - intros k. destruct (HC k) as [[L HL]|[L HL]]; [left; by exists (disk s), (disk s), L | right; by exists (disk s), V, L].
  - rewrite <- HD. destruct (tree_agree V (disk s') c' Tr' C' Cd) as [C3 Tr3]. exists (disk s'), (disk s'), []. assert (sb_of (disk s' 1) = the_sb) by (rewrite Cd; [done | unfold home; vm_compute; intros [? ?]; congruence]).
    split; [exact (idle_recoverable 2 30 _ _ (qt_idle _ _ Cq)) | done].
Qed.

Lemma cached_agree q V V' v : consistent q V -> agree_home q V V' -> cached q V v -> cached q V' v.
Proof.
  intros C Hh [H1 H2 H3 H4 H5 H6]. assert (agree q V V') as Ag by (by apply home_agree). constructor; try done; [by apply (agree_live _ _ _ Ag C)|].
  by rewrite (agree_dino _ _ _ Ag C) by apply H2.
Qed.

(** Open and write, on a machine that has just booted. *)
Lemma write_file_wp s c i path x o y : mounted (disk s) s -> consistent the_sb (disk s) -> tree (disk s) files c -> sb_of (disk s 1) = the_sb ->
  files !! i = Some path -> 47 ∉ name_of path -> c !! i = Some x -> bytes_ok y -> Z.of_nat (length y) <= 3 * BSIZE -> 0 <= o <= Z.of_nat (length x) -> o + Z.of_nat (length y) <= MAXFILE * BSIZE ->
  wp (write_file (47 :: name_of path) o y) s (fun r s' => exists k W, r = Some k /\ 0 <= k <= Z.of_nat (length y)
    /\ (k < Z.of_nat (length y) -> forall b, 0 <= b < FSSIZE -> used (disk s') the_sb b = true)
    /\ wrote (bc (fs_log s')) = wrote (bc (fs_log s)) ++ W /\ covered c (<[i := splice x o (take (Z.to_nat k) y)]> c) (disk s) W).
Proof.
  intros Mn C Tr H1 Hi Hs Hx Hy Hl Ho Hmax. unfold write_file. wp_step. eapply wp_mono; [by eapply open_path_wp|]. intros r s1 (ip & v & -> & Cm1 & Hv & Hk & Hin & Hc).
  destruct (committed_covered s (disk s) s1 c c Cm1 H1 C Tr H1 C Tr) as (W1 & HW1 & HD1 & Cv1). pose proof (cm_disk _ _ _ _ Cm1) as Hh1. destruct (tree_agree (disk s) (disk s1) c Tr C Hh1) as [C1 Tr1].
  assert (sb_of (disk s1 1) = the_sb) as H11 by (rewrite Hh1; [done | unfold home; vm_compute; intros [? ?]; congruence]).
  pose proof (cached_agree _ _ _ _ C Hh1 Hc) as Hc1. assert (isize (idata v) = Z.of_nat (length x)) as Hsz.
  { rewrite (ca_same _ _ _ Hc1), Hin. destruct (tr_files _ _ _ Tr1 i path x Hi Hx) as (_ & F & <-). pose proof (fl_size _ _ _ F). unfold content. rewrite length_fmap, length_seqZ.
    change (dino the_sb (disk s1) (Z.of_nat i + 2)) with (inode_at (disk s1) (Z.of_nat i + 2)). lia. }
  wp_step. eapply (write_op_wp (fun _ => True) (kin y) tt s1 the_sb ip v 0 o y); try done; [by apply Cm1 | apply kin_copies; unfold BSIZE in Hl; lia | by rewrite Hsz |].
  intros k u V s2 _ Hkr Hfull F Hlv Hsub Hlow Cm2 _. wp_step. rewrite Hin in *. assert (V 1 = disk s1 1) as HV1 by (apply Hlow; done).
  destruct (committed_covered s1 V s2 c (<[i := splice x o (take (Z.to_nat k) y)]> c) Cm2 H11 C1 Tr1) as (W2 & HW2 & HD2 & Cv2); [by rewrite HV1 | apply F | by eapply tree_written |].
  exists k, (W1 ++ W2). split_and!; try done; try lia.
  - intros Hlt b Hb. rewrite (agree_used the_sb V); [by apply Hfull | apply home_agree, Cm2 | apply F | done].
  - by rewrite HW2, HW1, app_assoc.
  - apply covered_app; [|by rewrite <- HD1]. intros j. by destruct (cv_any _ _ _ _ Cv1 j).
Qed.

End Files.

(** ** The whole life of a disk *)

(** The image is such a disk. *)
Lemma image_consistent host files s : input_ok host files -> Forall (host_bytes host) files -> mkfs host files mk0 = Ret (tt, s) -> built host (img s) files -> consistent the_sb (img s).
Proof.
  intros Hin Hh E (f0 & fr & n & fb & F). pose proof (mkfs_bytes host files Hh mk0 (fun _ => byte_zeroes)) as Hb. destruct (Hb _ _ E) as [Hb' _].
  eapply finished_consistent; [done | exact Hb' |]. pose proof (fin_length _ _ _ _ _ _ _ F). pose proof (in_count _ _ Hin). unfold NINODES in *. lia.
Qed.
Lemma image_restarts host files s : input_ok host files -> Forall (host_bytes host) files -> mkfs host files mk0 = Ret (tt, s) -> built host (img s) files ->
  restarts files (data_of host <$> files) (img s).
Proof.
  intros Hin Hh E B. pose proof (built_made _ _ _ B) as Md. exists (img s), (img s), []. split; [by eapply made_recoverable|]. split; [apply (md_sb _ _ _ Md)|]. split; [apply (md_sb _ _ _ Md)|].
  split; [by eapply image_consistent | by eapply made_tree; [| |apply Hin]].
Qed.

(** C5: a write survives a power failure as a whole or not at all.  [mkfs] makes
    an image of files; a machine boots from it, opens one of the files by its
    name and writes at most three blocks to it; the power fails after any
    number of disk writes, from the first one of the boot on, and again during
    the boots that follow.  Then the next machine boots, and finds under every
    name a file with the bytes that [mkfs] was given, but for the one that was
    written to, which may have the new bytes, all of them, and has them when the
    power failed after the call returned. *)
Theorem write_survives_power_failure (host : list Z -> option (list (list Z))) (opens : list Z -> bool) (name image : list Z) (files : list (list Z)) (i : nat) (path : list Z) (pid o : Z) (y : list Z)
  (Ho : opens image = true) (Hin : input_ok host files) (Hnm : names_ok files) (Hhost : Forall (host_bytes host) files) (Hi : files !! i = Some path)
  (Hy : bytes_ok y) (Hl : Z.of_nat (length y) <= 3 * BSIZE) (Hoff : 0 <= o <= Z.of_nat (length (data_of host path))) (Hmax : o + Z.of_nat (length y) <= MAXFILE * BSIZE) :
  exists s r s1, mkfs_main host opens (name :: image :: files) mk0 = Ret (tt, s)
    /\ (boot_fs ;;; write_file (47 :: name_of path) o y) (machine (img s) pid) = Ret (Some r, s1)
    /\ 0 <= r <= Z.of_nat (length y) /\ (r < Z.of_nat (length y) -> forall b, 0 <= b < FSSIZE -> used (disk s1) the_sb b = true)
    /\ forall k d, stopped (img s) (wrote (bc (fs_log s1))) k d ->
         let old := data_of host <$> files in
         let new := <[i := splice (data_of host path) o (take (Z.to_nat r) y)]> old in
         exists c, (c = old \/ c = new) /\ ((length (wrote (bc (fs_log s1))) <= k)%nat -> c = new)
           /\ forall j path' pid', files !! j = Some path' -> exists x s2, c !! j = Some x
                /\ (boot_fs ;;; read_file (47 :: name_of path')) (machine d pid') = Ret (Some (Z.of_nat (length x), x), s2).
Proof.
  destruct (mkfs_wp host files Hin) as ([] & s & E & B & _). exists s. destruct Hnm as [Hg Hd]. pose proof Hin as [Hp Hc _ _].
  assert (forall j p, files !! j = Some p -> 47 ∉ name_of p) as Hsl by (intros j p Hj; apply name_slash; by destruct (Forall_lookup_1 _ _ _ _ Hp Hj)).
  set (old := data_of host <$> files). assert (restarts files old (img s)) as R by (by eapply image_restarts). assert (old !! i = Some (data_of host path)) as Hx by (unfold old; by rewrite list_lookup_fmap, Hi).
  cut (wp (boot_fs ;;; write_file (47 :: name_of path) o y) (machine (img s) pid) (fun r s1 => exists k, r = Some k /\ 0 <= k <= Z.of_nat (length y)
    /\ (k < Z.of_nat (length y) -> forall b, 0 <= b < FSSIZE -> used (disk s1) the_sb b = true)
    /\ covered files old (<[i := splice (data_of host path) o (take (Z.to_nat k) y)]> old) (img s) (wrote (bc (fs_log s1))))).
  { intros (r & s1 & E1 & k & -> & Hk & Hfull & Cv). exists k, s1. unfold mkfs_main. rewrite Ho. split; [exact E|]. split; [exact E1|]. split; [exact Hk|]. split; [exact Hfull|]. intros n d Hs. cbv zeta.
    destruct (covered_stopped files Hc _ _ _ _ n d Cv Hs) as (c & Hor & Hend & Rc). exists c. split; [done|]. split; [done|]. intros j path' pid' Hj.
    destruct (lookup_lt_is_Some_2 c j) as [x Hxj]; [destruct Hor as [-> | ->]; rewrite ?length_insert; unfold old; rewrite length_fmap; by eapply lookup_lt_Some|].
    destruct (restarts_read files Hc Hg Hd c d pid' j path' x Rc Hj (Hsl _ _ Hj) Hxj) as [s2 E2]. exists x, s2. split; [exact Hxj | exact E2]. }
  wp_step. eapply (restarts_wp files); [done | done |]. intros s1 Mn C Tr H1 HW Hj. eapply wp_mono; [by apply (write_file_wp files Hc Hg Hd s1 old i path (data_of host path) o y); eauto|].
  intros r s2 (k & W & -> & Hk & Hfull & HW2 & Cv). exists k. split; [done|]. split; [done|]. split; [done|]. rewrite HW2. apply covered_app; [done | by rewrite <- HW].
Qed.

Lemma sample_bytes : Forall (host_bytes sample_host) sample_files.
Proof.
  assert (forall p, bytes_ok p -> host_bytes sample_host p) as H.
  { intros p Hp. split; [done|]. unfold sample_host. intros pieces Hs. case_bool_decide; apply (inj Some) in Hs; subst pieces; [|constructor].
    constructor; [apply Forall_replicate; lia | repeat constructor; lia]. }
  constructor; [apply H; repeat constructor; lia|]. constructor; [apply H; repeat constructor; lia | constructor].
Qed.

Lemma write_survives_power_failure_witness : exists s r s1 s2 x,
  mkfs_main sample_host (fun _ => true) ([] :: [] :: sample_files) mk0 = Ret (tt, s)
  /\ (boot_fs ;;; write_file [47; 99; 97; 116] 1026 [5; 6; 7]) (machine (img s) 1) = Ret (Some r, s1)
  /\ (x = replicate 1024 7 ++ [1; 2; 3] \/ x = splice (replicate 1024 7 ++ [1; 2; 3]) 1026 (take (Z.to_nat r) [5; 6; 7]))
  /\ (boot_fs ;;; read_file [47; 99; 97; 116]) (machine (apply_writes (img s) (take 7 (wrote (bc (fs_log s1))))) 1) = Ret (Some (Z.of_nat (length x), x), s2).
Proof.
  destruct (write_survives_power_failure sample_host (fun _ => true) [] [] sample_files 0 [117; 115; 101; 114; 47; 95; 99; 97; 116] 1 1026 [5; 6; 7]) as (s & r & s1 & E1 & E2 & _ & _ & H).
  - reflexivity.
  - exact sample_input.
  - exact sample_names.
  - exact sample_bytes.
  - reflexivity.
  - repeat constructor; lia.
  - vm_compute. discriminate.
  - vm_compute. split; discriminate.
  - vm_compute. discriminate.
  - destruct (H 7%nat _ (stopped_running _ _ _)) as (c & Hc & _ & Hr). destruct (Hr 0%nat [117; 115; 101; 114; 47; 95; 99; 97; 116] 1 eq_refl) as (x & s2 & Hx & E3).
    exists s, r, s1, s2, x. split; [exact E1|]. split; [exact E2|]. split; [|exact E3]. destruct Hc as [-> | ->]; [left | right]; injection Hx as <-; reflexivity.
Defined.
